(* ===== verification/_CoqProject ===== *)
-Q . S2P
Prelude.v
GoStrings.v
GoTime.v
ToolPolicy.v
PolicyGate.v
NodeStatus.v
Cycle.v
SharedFilePath.v
Json.v
NodeConfig.v
Ops.v
Plan.v
DagStore.v
ApplyOps.v
TemplateInvariant.v
DagService.v
WakeupPayload.v
RunStore.v
RunEffects.v
WakeupLease.v
RunService.v
ScheduledStart.v
LeaseProtocol.v
QueueRefinement.v
RunGraph.v
RunInvariant.v
RunLive.v
RetryPolicy.v
Effects.v
AgentExecutor.v
NodeRouter.v
Dispatcher.v
DispatchSafety.v
SpawnSafety.v
DispatchSamples.v
DocumentArtifact.v
Subscriber.v
TurnStore.v
TurnDurability.v
TurnOutput.v
TurnSamples.v
RunStart.v
ScheduledOnce.v
Redaction.v
AutomationCommand.v
AutomationArgs.v
AutomationExecutor.v
AutomationSafety.v
AutomationSamples.v
EventContract.v
EventStore.v
EventLog.v
EventAppend.v
EventHistory.v
EventRead.v
IdentityStore.v
IdentityOps.v
IdentitySteps.v
IdentityInvariant.v
IdentityHistory.v
IdentityRetry.v
EventFence.v
IdentityFence.v
EventDelivery.v
EventWatcher.v
EventSamples.v
IdentitySamples.v
AccessContract.v
AccessStore.v
AccessGrants.v
AccessWaits.v
AccessRules.v
AccessSteps.v
AccessInvariant.v
AccessSafety.v
AccessProgress.v
AccessExpiry.v
WaitAggregate.v
AccessSamples.v
