(* ===== verification/Prelude.v ===== *)
(** * Verification of the task DAG orchestration of Super Dolphin

    The program is [cmd/mcp-orch], an MCP server that runs graphs of tasks.  A user
    (or an agent) describes a DAG template: nodes with an executor, a configuration
    and dependencies.  Starting the DAG copies the template into a run; nodes whose
    dependencies are done become ready, wakeups ask a dispatcher to start them, and
    their results or failures move the run on until it ends.  Templates, runs, nodes
    and wakeups are tables of a SQLite database; every operation is a transaction.
    Beside it, a policy decides which tool calls and shell commands an agent may use.

    ** The parts and where they are

    - [Prelude]: results of fallible code ([result], with do-notation), loops with an
      early return, errors with their sentinels, tactics ([go_ok], [go_bool]), the
      [go] hint database, finite walks.
    - [GoStrings]: the [strings], [unicode] and [utf8] functions the code uses, on
      byte strings.  [Json]: [encoding/json] on parsed documents (field matching,
      duplicate and unknown keys, null), at the types of the code.  [GoTime]: the
      calendar and the RFC 3339 texts of times, and their order.
    - [ToolPolicy], [PolicyGate]: [internal/platform/toolpolicy] (stage decisions, the
      read-only shell classifier with its word splitter and its git, sed, find and rg
      grammars) and [orchestration/policy].
    - [NodeStatus]: [nodeexec/status.go].  [Cycle]: [nodeexec/cycle.go] (Kahn and
      Tarjan).  [SharedFilePath]: [internal/platform/sharedfilepath].
      [NodeConfig]: the parsing and validation of node configurations
      ([nodeexec/config.go] and its neighbours), durations and timeouts included.
      [ConfigTyping]: the Go types of decoded values.
    - [Ops], [Plan]: the typed operations on a template and their wire format, and the
      planner that checks a batch ([nodeexec/ops.go], [nodeexec/plan.go]).
    - [DagStore]: the tables as lists of rows ([db]), transactions as functions
      [M A = db -> result error (A * db)] (an error keeps nothing), the statements on
      templates ([store/taskdag/store.go] and [sql/queries]).
    - [ApplyOps], [TemplateInvariant]: the ApplyOps transaction ([dag_query.go],
      [dag.go]) and what it keeps.  [DagService]: CreateDAG and DeleteDAG.
    - [WakeupPayload]: [wakeup_payload.go] and the checks at the entrance of the queue.
    - [RunStore]: the transactions on runs: start, complete and schedule downstream,
      fail and cascade, finalize, terminate, reclaim.  [RunEffects]: what each does to
      the rows.
    - [WakeupLease], [LeaseProtocol]: claims, leases and fences of wakeups, and node
      writes under a fence.  [QueueRefinement]: the queue of jobs that the wakeup table
      implements.
    - [RunGraph], [RunInvariant], [RunLive]: the rows of a run as a graph, the exact
      effects of completion and failure, and the liveness of a run.
    - [RunService]: StartDAG, DispatchNode and UpdateNodeStatus of the controller.
      [RunStart]: what a start does, and starts that race.
    - [ScheduledStart], [ScheduledOnce]: [scheduledstart], the cron ticker
      ([cron/scheduler_cron.go]) and its runtime lock.
    - [RetryPolicy]: [retrypolicy], [launcherrors], [nodeexec/on_failure.go] and the
      pure part of [retry_strategy.go].
    - [Effects]: programs that make many calls, and the logic of what they do to the
      outside ([emits], [silent], [only]).
    - [AgentExecutor]: [nodeexec/executor_agent.go], [nodeexec/inputs.go] and the
      launcher of the service.  [NodeRouter]: [node_router.go].  [Dispatcher]:
      [wakeup_dispatcher.go], [retry_strategy.go], [node_executor_dispatch.go],
      [turncompletionretry].
    - [DispatchSafety], [SpawnSafety], [DispatchSamples]: what a dispatched wakeup may
      do, the accounting of agents, and runs of the dispatcher on concrete worlds.
    - [DocumentArtifact]: [documentartifact], the DOCX and PDF files made of a result.
      [Subscriber]: [dag_turn_completed_subscriber.go], [dag_subscriber_module.go],
      [sharedfileowner], [stop_helper.go], [nodeevents] and the enqueueing half of
      [turncompletionretry].  [TurnStore]: how its transactions move the rows and when
      they report a missing one.  [TurnDurability], [TurnOutput], [TurnSamples]: what a
      completed turn leaves behind, and turns of a small run.
    - [Redaction], [AutomationCommand], [AutomationExecutor]: the automation executor
      ([nodeexec/executor_automation*.go], [command_execution_authorization.go],
      [workspace_scope.go]): the redaction of results, command cards, their templates
      and arguments, the workspace scope, the process and its output, the node result.
      [AutomationArgs], [AutomationSafety], [AutomationSamples]: its arguments and
      buffers, when a process is started, and runs of it.
    - [EventContract], [EventStore]: [store/eventstore], with the queries and triggers of
      its tables: envelopes, frames and their checks, the append machine, appends in the
      transaction of a caller, reads, cursors, tombstones.  A transaction is a function
      [EM A = edb -> result error A * edb] that keeps what the statements did before an
      error, since its owner decides whether to keep it.  [EventFence]: the identity
      fence ([identity_fence_verifier.go]).  [EventWatcher]: [watcher.go], at the grain
      of its critical sections.
    - [EventLog], [EventAppend], [EventHistory], [EventRead], [EventDelivery],
      [EventSamples]: a logic for these transactions ([wp]), the invariant of the tables
      ([tables_ok]) and how they grow ([grows]), every operation and every history of
      operations, pages, delivery in any order, and samples.
    - [IdentityStore], [IdentityOps]: [store/identity], with the queries, keys, foreign keys
      and triggers of its tables: reservations, incarnations, preparations, the history of
      bindings, snapshots.  An operation is one transaction, a function
      [IM A = itables -> result error (A * itables)].  [IdentitySteps]: the operations as a
      step relation.  [IdentityInvariant], [IdentityHistory], [IdentityRetry]: the invariant
      of the tables and how rows are kept, histories, and requests that are sent again.
      [IdentityFence]: the store as the reader of the fence of the events, both stores
      together.  [IdentitySamples]: runs of it.
    - [AccessContract], [AccessStore], [AccessGrants], [AccessWaits]: [store/accesswait], with
      the queries, keys, foreign keys, checks and triggers of its tables, on the database that
      it shares with the identities and the events ([adb]): grants, their authorization,
      revocation and expiry, the expiry runner, waits, polls, cancellations, reads of events.
      A transaction is a function [AM A = adb -> result error (A * adb)]; an operation that reads
      outside of one takes the databases that its reads see, one per read.  [AccessRules]: what
      a transaction that commits has found, and the scan of the log.  [AccessSteps]: the
      operations of the three stores in one history, and the steps that they amount to.
      [AccessInvariant]: the invariant ([aok]) and how a database grows ([agrows]).
      [AccessSafety], [AccessProgress], [AccessExpiry]: polls and access that ends, reads and
      the end of a wait, the passes of the runner.  [AccessSamples]: runs of it.
    - [WaitAggregate]: [orchestration/waitaggregate], several waits of the access store at once:
      requests, outcomes, and the goroutines with their channel and the collector as a step
      relation ([ystep]) on [sys]; a waiter answers what the store may, or panics.

    ** What is shown

    - Templates: cycle detection is exact; every committed ApplyOps batch and every
      CreateDAG leaves a template with unique trimmed keys, dependencies inside it and
      no cycle; ApplyOps loses no concurrent update, touches no other DAG and no run,
      and refuses node changes on a running or finished DAG; DeleteDAG is specified on
      every path.
    - Runs: completing a node makes ready exactly the nodes it unblocks; a failure
      fails exactly the nodes that can no longer run, and its queue ends; the final
      status of a run is a function of its nodes; terminating leaves nothing open; and
      a run started from a well-formed template never gets stuck under these steps.
      The examples at the end of [RunLive] are the steps outside this theorem: the
      periodic recovery and a cancellation of one node do strand a run.
    - Wakeups: a claim takes exactly the first due rows and always reads them back; a
      claim is settled at most once, and the fence of an ended claim is inert for ever
      after; payloads round trip, and a decoded payload keeps its promises.  The table
      refines an abstract queue of jobs: the class [WakeupRel] of [LeaseProtocol] says
      what a relation must respect, statement by statement, to hold of every
      transaction.
    - Starts: two starts with one idempotency key create one run, in any order; a due
      time of a schedule starts exactly one run however many instances tick, and a tick
      leaves due exactly what it could not start.
    - Dispatch: a batch settles each wakeup at most once and reports the ones it
      settled; a wakeup with a bad envelope is failed and runs nothing; a permanent
      failure is never retried; an agent node starts at most one agent, which is recorded
      or asked to stop.  These hold in every environment: whatever other processes do
      between two calls, whichever calls fail, whenever the lease is renewed or lost.
      The examples in [DispatchSamples] are runs where a retry does not do what it
      should.
    - Completed turns: a turn whose projection reports no error leaves no open node of
      its thread without a queued repair; the repair replays exactly the refused
      completion; a shared file is accepted as the output of exactly the turn that wrote
      it; the cross-reference table of a generated PDF is exact and its pages show the
      whole text.  The other processes may do anything that keeps settled nodes settled
      ([Rely]).  The examples in [TurnSamples] are turns that never complete their node.
    - Automation: a process is started only for an authorised, enabled card, inside the
      workspace and with the arguments of the checked command; a quoted action stays one
      argument; outputs are cut exactly at their bound; what stands after a sensitive key
      does not reach a result.
    - Events: under any failures, every history of the event store refines one append-only
      log per stream without holes; a quarantined stream is final; frames delivered in any
      order end up in the log in order, when nothing fails and one drain is enough; a page
      is a piece of the log; an event of a running agent was, at its time, of the current
      incarnation and on its stream; no interleaving of the watcher panics or loses an
      event silently.
    - Identities: what the store says of an agent follows a machine that binds and releases
      it in turn, by compare and set on versions and by younger and younger incarnations;
      snapshots are consistent and read exactly while the agent is bound; a request that was
      done gives the same record again, for all operations but revocations; and once an incarnation is released
      no event of it enters the event store.
    - Access: whatever other transactions do between its reads, a poll answers only what its
      grant, the identities and the log allow, and the first event that was asked for; a grant
      that is closed is of no use any more; releasing an agent cuts every access that names
      it; a read under a grant is exactly a page of the log; a wait returns at most a second after
      its deadline is seen; the expiry runner expires exactly what is due.  The examples in
      [AccessSamples] show a grant that stops the runner, and comparisons of times as texts
      that are wrong within a second.
    - Aggregates: whatever the order of its goroutines, an aggregate reports the answer of every
      target and the verdict that they give; with the access store a satisfied one has the
      events that its condition asks for; and it ends, but for a drain timer that is lost.
    - Policies and configurations: which commands the shell classifier allows, the
      stage decision, the shared-file confinement, what an accepted configuration or
      patch guarantees, the Go types of what is parsed, the reachable node statuses.

    ** Choices

    The code outside the repository is an argument of the definitions that use it: the
    byte length of a message, whether a JSON column takes a value, the re-encoding of
    JSON, the cron library, the clock; map iteration orders are arguments too, and
    results that do not depend on them are proved for every order.  Integers are kept
    in [Z] with the wrap-around of 64 bits written out where it can happen (durations,
    timeouts, intervals).  Errors keep the sentinels [errors.Is] finds; messages are
    kept as format and arguments, not rendered.  Loops that are not structural have
    fuel.  Kahn's queue has one unit per node and the failure cascade one per reverse
    edge, and the theorems on them show that it is enough; Tarjan's recursion, which
    only fills the report of a cycle, has one unit per node of the residual graph, and
    no theorem on its contents yet.  A drain of events has the bound of the code.  Rows are
    kept in creation order, which is the order the queries ask for.  Timestamps of
    nodes and runs are not modelled, except the claim times of wakeups, which the
    protocol depends on.  A transaction reads the clock once.

    A program that is more than one transaction (the dispatcher, the router, the
    executors, the subscriber) is a function of type [IO] on a [world]: the database, a counter of its
    calls, the lease it holds and a log of its effects.  The class [Env] says what the
    clock shows, which calls fail, what other processes do to the database before a
    call and when the heartbeat of the lease ticks.  The goroutine that renews the lease
    beside the route is merged into it: its ticks come between the calls of the route,
    where alone the route can see them.  What runs behind a launcher is a record of
    answers ([Lifecycle]); classes state what a client needs of its parts
    ([AutomationLaw], [LauncherLaw], [RouterLaw], [DispatcherLaw]) and instances show
    that the modelled parts provide it.

    ** What is not modelled

    What runs behind the launcher of the service, process control, the transport and the tool schemas, logging,
    metrics, hooks and events, the SQL generated by sqlc, the other stores, the
    language-server bridge, the desktop application and the frontend.  The digest and the
    length of the JSON of an event, what a template renders to and what a process does are
    arguments.  The checks of nil dependencies and contexts at the head of the operations of
    the stores are left out, and so are, of the access store, the subscription that wakes a wait
    before its next poll and the check of the result that a wait returns.  Left for later: the
    command journal and the content stores, the life cycle machine of agents, and the
    components Tarjan's algorithm reports. *)

From Stdlib Require Export Ascii.
From stdpp Require Export base tactics list gmap strings pretty sorting.
From Stdlib Require Export ZArith Lia.

(** ** Results of fallible Go code

    A Go function returning [(T, error)] is modelled by [result E T]: [Ok v]
    for a nil error, [Err e] otherwise.  The instances give the do-notation
    [x ← m; k] of stdpp to the early returns [if err != nil]. *)

Inductive result (E A : Type) : Type :=
| Ok (a : A)
| Err (e : E).
Arguments Ok {E A} a.
Arguments Err {E A} e.

#[export] Instance result_ret {E} : MRet (result E) := fun A a => Ok a.
#[export] Instance result_bind {E} : MBind (result E) := fun A B f m =>
  match m with Ok a => f a | Err e => Err e end.
#[export] Instance result_map {E} : FMap (result E) := fun A B f m =>
  match m with Ok a => Ok (f a) | Err e => Err e end.

Definition map_err {E F A} (f : E -> F) (m : result E A) : result F A :=
  match m with Ok a => Ok a | Err e => Err (f e) end.

Definition is_ok {E A} (m : result E A) : bool :=
  match m with Ok _ => true | Err _ => false end.

(** [guard_err b e] is [if !b { return e }]. *)
Definition guard_err {E} (b : bool) (e : E) : result E unit :=
  if b then Ok tt else Err e.

Lemma bind_Ok {E A B} (f : A -> result E B) m b :
  m ≫= f = Ok b -> exists a, m = Ok a /\ f a = Ok b.
Proof. destruct m as [a|e]; [by exists a | done]. Qed.

Lemma bind_Err {E A B} (f : A -> result E B) m e :
  m ≫= f = Err e -> m = Err e \/ exists a, m = Ok a /\ f a = Err e.
Proof. destruct m as [a|e']; [right; by exists a | left; by simplify_eq/=]. Qed.

Lemma map_err_Ok {E F A} (f : E -> F) (m : result E A) a :
  map_err f m = Ok a <-> m = Ok a.
Proof. destruct m; naive_solver. Qed.

Lemma guard_err_Ok {E} b (e : E) u : guard_err b e = Ok u -> b = true.
Proof. by destruct b. Qed.

(** ** Left-to-right loops with an early error return *)

Fixpoint fold_result {E S A} (f : S -> A -> result E S) (l : list A) (s : S) : result E S :=
  match l with
  | [] => Ok s
  | a :: l => s' ← f s a; fold_result f l s'
  end.

Fixpoint map_result {E A B} (f : A -> result E B) (l : list A) : result E (list B) :=
  match l with
  | [] => Ok []
  | a :: l => b ← f a; bs ← map_result f l; Ok (b :: bs)
  end.

Lemma fold_result_app {E S A} (f : S -> A -> result E S) l1 l2 s :
  fold_result f (l1 ++ l2) s = s' ← fold_result f l1 s; fold_result f l2 s'.
Proof.
  revert s; induction l1 as [|a l1 IH]; intros s; [done|].
  simpl. destruct (f s a); simpl; [apply IH|done].
Qed.

(** An invariant of the loop body is an invariant of the loop. *)
Lemma fold_result_inv {E S A} (P : S -> Prop) (f : S -> A -> result E S) l s s' :
  (forall s a s', a ∈ l -> P s -> f s a = Ok s' -> P s') ->
  P s -> fold_result f l s = Ok s' -> P s'.
Proof.
  revert s; induction l as [|a l IH]; intros s Hf Hs Hfold; simplify_eq/=; [done|].
  apply bind_Ok in Hfold as (s1 & H1 & H2).
  eapply IH; [|eapply Hf; [left|..]; eauto|done].
  intros; eapply Hf; eauto; by right.
Qed.

(** ** Tactics *)

(** Peels the binds of a successful run into equations. *)
Ltac go_ok :=
  repeat (progress simplify_eq/= || match goal with
  | H : _ ≫= _ = Ok _ |- _ => apply bind_Ok in H as (? & ? & ?)
  | H : map_err _ _ = Ok _ |- _ => apply map_err_Ok in H
  | H : guard_err _ _ = Ok _ |- _ => apply guard_err_Ok in H
  | x : unit |- _ => destruct x
  end).

(** Splits boolean conjunctions and disjunctions of hypotheses into facts. *)
Ltac go_bool :=
  repeat match goal with
  | H : _ && _ = true |- _ => apply andb_true_iff in H as [? ?]
  | H : _ || _ = false |- _ => apply orb_false_iff in H as [? ?]
  | H : negb _ = true |- _ => apply negb_true_iff in H
  | H : negb _ = false |- _ => apply negb_false_iff in H
  | H : bool_decide _ = true |- _ => apply bool_decide_eq_true in H
  | H : bool_decide _ = false |- _ => apply bool_decide_eq_false in H
  | H : (_ <=? _)%N = true |- _ => apply N.leb_le in H
  | H : (_ <=? _)%N = false |- _ => apply N.leb_gt in H
  | H : (_ <? _)%N = true |- _ => apply N.ltb_lt in H
  | H : (_ <? _)%N = false |- _ => apply N.ltb_ge in H
  | H : (_ =? _)%N = true |- _ => apply N.eqb_eq in H
  | H : (_ =? _)%N = false |- _ => apply N.eqb_neq in H
  | H : (_ <=? _)%Z = true |- _ => apply Z.leb_le in H
  | H : (_ <=? _)%Z = false |- _ => apply Z.leb_gt in H
  | H : (_ <? _)%Z = true |- _ => apply Z.ltb_lt in H
  | H : (_ <? _)%Z = false |- _ => apply Z.ltb_ge in H
  | H : (_ =? _)%Z = true |- _ => apply Z.eqb_eq in H
  | H : (_ =? _)%Z = false |- _ => apply Z.eqb_neq in H
  | H : (_ =? _)%nat = true |- _ => apply Nat.eqb_eq in H
  | H : (_ =? _)%nat = false |- _ => apply Nat.eqb_neq in H
  | H : (_ <? _)%nat = true |- _ => apply Nat.ltb_lt in H
  | H : (_ <? _)%nat = false |- _ => apply Nat.ltb_ge in H
  | H : String.eqb _ _ = true |- _ => apply String.eqb_eq in H
  | H : String.eqb _ _ = false |- _ => apply String.eqb_neq in H
  end.

Create HintDb go discriminated.
Create Rewrite HintDb go.

(** A message built by [fmt.Sprintf] or [fmt.Errorf]: its format and the string
    arguments, not rendered. *)
Record message := Sprintf { msg_format : string; msg_args : list string }.

(** A Go error: the sentinels [errors.Is] finds in its chain, by name, and its
    message. *)
Record error := Errorf { err_is : list string; err_msg : message }.

Definition errors_Is (e : error) (sentinel : string) : bool :=
  existsb (String.eqb sentinel) (err_is e).

(** [fmt.Errorf("%w: ...: %w", sentinel, ..., e)]. *)
Definition wrap_err (sentinel : string) (m : message) (e : error) : error :=
  Errorf (sentinel :: err_is e) m.

(** ** Lists *)

Lemma existsb_false_iff {A} (f : A -> bool) l :
  existsb f l = false <-> Forall (fun x => f x = false) l.
Proof.
  induction l as [|x l IH]; simpl; [split; auto|].
  rewrite orb_false_iff, IH, Forall_cons. done.
Qed.

Lemma forallb_true_iff {A} (f : A -> bool) l :
  forallb f l = true <-> Forall (fun x => f x = true) l.
Proof.
  induction l as [|x l IH]; simpl; [split; auto|].
  rewrite andb_true_iff, IH, Forall_cons. done.
Qed.

(** A key that identifies the rows of a table. *)
Lemma same_key {A B} (f : A -> B) (l : list A) x y : NoDup (f <$> l) -> x ∈ l -> y ∈ l -> f x = f y -> x = y.
Proof.
  intros Hnd (i & Hi)%list_elem_of_lookup (j & Hj)%list_elem_of_lookup E.
  assert (i = j) as ->; [|congruence].
  eapply NoDup_lookup; [exact Hnd|rewrite list_lookup_fmap, Hi; done|rewrite list_lookup_fmap, Hj; simpl; congruence].
Qed.

(** A test that only one row of a table passes. *)
Lemma filter_single {A} (p : A -> bool) (l : list A) x :
  NoDup l -> x ∈ l -> p x = true -> (forall y, y ∈ l -> p y = true -> y = x) -> length (List.filter p l) = 1.
Proof.
  intros Hnd Hx Hp Hone. assert (List.filter p l ≡ₚ [x]) as ->; [|done]. apply NoDup_Permutation.
  - by apply NoDup_ListNoDup, List.NoDup_filter, NoDup_ListNoDup.
  - apply NoDup_singleton.
  - intros y. rewrite list_elem_of_In, filter_In, <- list_elem_of_In, list_elem_of_singleton. naive_solver.
Qed.

(** Membership in a list of string literals, as a Go [switch] tests it. *)
Definition str_in (s : string) (l : list string) : bool := existsb (String.eqb s) l.

Lemma str_in_elem s l : str_in s l = true <-> s ∈ l.
Proof.
  unfold str_in. rewrite existsb_exists. split.
  - intros (x & Hx & ->%String.eqb_eq). by apply list_elem_of_In.
  - intros H. exists s. split; [by apply list_elem_of_In|apply String.eqb_refl].
Qed.

(** ** Occurrences *)

Definition occ {A} `{EqDecision A} (x : A) (l : list A) : nat :=
  length (base.filter (fun y => y = x) l).

Lemma occ_nil {A} `{EqDecision A} (x : A) : occ x [] = 0.
Proof. done. Qed.

Lemma occ_cons {A} `{EqDecision A} (x y : A) l :
  occ x (y :: l) = (if decide (y = x) then 1 else 0) + occ x l.
Proof. unfold occ. rewrite filter_cons. by case_decide. Qed.

Lemma occ_app {A} `{EqDecision A} (x : A) l1 l2 : occ x (l1 ++ l2) = occ x l1 + occ x l2.
Proof. unfold occ. by rewrite filter_app, length_app. Qed.

Lemma occ_pos {A} `{EqDecision A} (x : A) l : 0 < occ x l <-> x ∈ l.
Proof.
  induction l as [|y l IH]; [rewrite occ_nil; set_solver by lia|].
  rewrite occ_cons, elem_of_cons. case_decide; subst; [naive_solver lia|]. rewrite Nat.add_0_l, IH. naive_solver.
Qed.

(** ** Finite cycles

    A function that stays in a finite non-empty set walks into a cycle. *)

Lemma iter_walk {A} (E : relation A) (f : A -> A) (x : A) i j :
  (forall k, E (Nat.iter k f x) (Nat.iter (S k) f x)) -> i < j ->
  tc E (Nat.iter i f x) (Nat.iter j f x).
Proof.
  intros HE Hij. induction Hij as [|j Hij IH]; [by apply tc_once|].
  eapply tc_r; [exact IH|]. apply HE.
Qed.

Lemma finite_walk_cycle {A} `{Countable A} (R : gset A) (E : relation A) (f : A -> A) x :
  x ∈ R -> (forall y, y ∈ R -> f y ∈ R /\ E y (f y)) -> exists y, tc E y y.
Proof.
  intros Hx Hf. assert (forall k, Nat.iter k f x ∈ R) as Hin.
  { induction k as [|k IH]; [done|]. by apply Hf. }
  set (l := (fun k => Nat.iter k f x) <$> seq 0 (S (size R))).
  destruct (decide (NoDup l)) as [Hnd|Hnd].
  - exfalso. assert (l ⊆+ elements R) as Hsub.
    { apply NoDup_submseteq; [done|]. intros y. unfold l. rewrite list_elem_of_fmap.
      intros (k & -> & _). by apply elem_of_elements. }
    apply submseteq_length in Hsub. unfold l in Hsub.
    rewrite length_fmap, length_seq in Hsub. unfold size, set_size in Hsub. simpl in Hsub. lia.
  - assert (exists i j, i < j /\ Nat.iter i f x = Nat.iter j f x) as (i & j & Hij & Heq).
    { destruct (decide (Exists (fun i => Exists (fun j => i < j /\ Nat.iter i f x = Nat.iter j f x)
          (seq 0 (S (size R)))) (seq 0 (S (size R))))) as [(i & _ & (j & _ & ?)%Exists_exists)%Exists_exists|Hno];
        [eauto|]. destruct Hnd. unfold l. apply NoDup_fmap_2_strong; [|apply NoDup_seq].
      intros i j Hi Hj Heq. destruct (decide (i = j)) as [|Hne]; [done|]. exfalso. apply Hno.
      destruct (decide (i < j)).
      - apply Exists_exists. exists i. split; [done|]. apply Exists_exists. eauto.
      - apply Exists_exists. exists j. split; [done|]. apply Exists_exists. exists i. auto with lia. }
    exists (Nat.iter i f x). rewrite Heq at 2. apply iter_walk; [|done].
    intros k. by apply (Hf (Nat.iter k f x)).
Qed.
