(* ===== verification/GoStrings.v ===== *)
(** * Go strings: UTF-8 decoding, [strings.TrimSpace], prefixes and sorting

    A Go string is a byte string ([string] of the standard library).  [range]
    over a string, [unicode.IsSpace] and [strings.TrimSpace] work on the runes
    that [utf8.DecodeRuneInString] finds in it: an ill-formed byte is one rune
    U+FFFD of width one.  These are the parts of the Go standard library the
    modelled code uses everywhere. *)

From S2P Require Import Prelude.

Abbreviation rune := N.
Abbreviation chunk := (N * string)%type.

Definition rune_error : rune := 0xFFFD%N.

Definition in_range (lo hi n : N) : bool := (lo <=? n)%N && (n <=? hi)%N.
Definition cont (a : ascii) : bool := in_range 0x80 0xBF (N_of_ascii a).

(** [utf8.DecodeRuneInString] on the non-empty string [String a0 t]: the rune
    and its width in bytes. *)
Definition decode_rune (a0 : ascii) (t : string) : rune * nat :=
  let b0 := N_of_ascii a0 in
  if (b0 <? 0x80)%N then (b0, 1)
  else if in_range 0xC2 0xDF b0 then
    match t with
    | String a1 _ =>
        if cont a1 then (((b0 - 0xC0) * 64 + (N_of_ascii a1 - 0x80))%N, 2) else (rune_error, 1)
    | _ => (rune_error, 1)
    end
  else if in_range 0xE0 0xEF b0 then
    match t with
    | String a1 (String a2 _) =>
        let lo := if (b0 =? 0xE0)%N then 0xA0%N else 0x80%N in
        let hi := if (b0 =? 0xED)%N then 0x9F%N else 0xBF%N in
        if in_range lo hi (N_of_ascii a1) && cont a2 then
          (((b0 - 0xE0) * 4096 + (N_of_ascii a1 - 0x80) * 64 + (N_of_ascii a2 - 0x80))%N, 3)
        else (rune_error, 1)
    | _ => (rune_error, 1)
    end
  else if in_range 0xF0 0xF4 b0 then
    match t with
    | String a1 (String a2 (String a3 _)) =>
        let lo := if (b0 =? 0xF0)%N then 0x90%N else 0x80%N in
        let hi := if (b0 =? 0xF4)%N then 0x8F%N else 0xBF%N in
        if in_range lo hi (N_of_ascii a1) && cont a2 && cont a3 then
          (((b0 - 0xF0) * 262144 + (N_of_ascii a1 - 0x80) * 4096
            + (N_of_ascii a2 - 0x80) * 64 + (N_of_ascii a3 - 0x80))%N, 4)
        else (rune_error, 1)
    | _ => (rune_error, 1)
    end
  else (rune_error, 1).

Fixpoint str_take (n : nat) (s : string) : string :=
  match n, s with
  | S n, String a s => String a (str_take n s)
  | _, _ => EmptyString
  end.

(** The runes of a string with the bytes each was decoded from; [skip] counts
    the bytes of the current rune still to be passed. *)
Fixpoint chunks_from (skip : nat) (s : string) : list chunk :=
  match s with
  | EmptyString => []
  | String a t =>
      match skip with
      | S k => chunks_from k t
      | O => let '(r, w) := decode_rune a t in
             (r, str_take w s) :: chunks_from (Nat.pred w) t
      end
  end.

Definition chunks (s : string) : list chunk := chunks_from 0 s.

(** What [for _, r := range s] iterates over. *)
Definition runes (s : string) : list rune := fst <$> chunks s.

Fixpoint chunk_bytes (l : list chunk) : string :=
  match l with
  | [] => EmptyString
  | (_, b) :: l => b +:+ chunk_bytes l
  end.

(** [utf8.EncodeRune], which [strings.Builder.WriteRune] appends. *)
Definition encode_rune (r : rune) : string :=
  let byte n := ascii_of_N n in
  if (r <? 0x80)%N then String (byte r) EmptyString
  else if (r <? 0x800)%N then
    String (byte (0xC0 + r / 64)%N) (String (byte (0x80 + r mod 64)%N) EmptyString)
  else if in_range 0xD800 0xDFFF r || (0x10FFFF <? r)%N then
    String (byte 0xEF%N) (String (byte 0xBF%N) (String (byte 0xBD%N) EmptyString))
  else if (r <? 0x10000)%N then
    String (byte (0xE0 + r / 4096)%N) (String (byte (0x80 + (r / 64) mod 64)%N)
      (String (byte (0x80 + r mod 64)%N) EmptyString))
  else
    String (byte (0xF0 + r / 262144)%N) (String (byte (0x80 + (r / 4096) mod 64)%N)
      (String (byte (0x80 + (r / 64) mod 64)%N)
        (String (byte (0x80 + r mod 64)%N) EmptyString))).

(** [unicode.IsSpace]. *)
Definition is_space (r : rune) : bool :=
  in_range 0x09 0x0D r || (r =? 0x20)%N || (r =? 0x85)%N || (r =? 0xA0)%N
  || (r =? 0x1680)%N || in_range 0x2000 0x200A r || (r =? 0x2028)%N || (r =? 0x2029)%N
  || (r =? 0x202F)%N || (r =? 0x205F)%N || (r =? 0x3000)%N.

Fixpoint drop_spaces (l : list chunk) : list chunk :=
  match l with
  | (r, b) :: l' => if is_space r then drop_spaces l' else l
  | [] => []
  end.

(** [strings.TrimSpace]. *)
Definition trim_chunks (l : list chunk) : list chunk :=
  rev (drop_spaces (rev (drop_spaces l))).
Definition TrimSpace (s : string) : string := chunk_bytes (trim_chunks (chunks s)).

(** [strings.HasPrefix], [strings.HasSuffix], [strings.TrimPrefix],
    [strings.TrimSuffix], [strings.Contains]. *)
Fixpoint HasPrefix (s p : string) {struct p} : bool :=
  match p with
  | EmptyString => true
  | String b p' =>
      match s with
      | EmptyString => false
      | String a s' => Ascii.eqb a b && HasPrefix s' p'
      end
  end.

#[global] Arguments HasPrefix : simpl never.

Fixpoint str_drop (n : nat) (s : string) : string :=
  match n, s with
  | S n, String _ s => str_drop n s
  | _, _ => s
  end.

Definition HasSuffix (s p : string) : bool :=
  (String.length p <=? String.length s) &&
  String.eqb (str_drop (String.length s - String.length p) s) p.

Definition TrimPrefix (s p : string) : string :=
  if HasPrefix s p then str_drop (String.length p) s else s.

Definition TrimSuffix (s p : string) : string :=
  if HasSuffix s p then str_take (String.length s - String.length p) s else s.

(** [strings.Split] on a one-byte separator. *)
Fixpoint split_on (sep : ascii) (s : string) : list string :=
  match s with
  | EmptyString => [EmptyString]
  | String a t =>
      if Ascii.eqb a sep then EmptyString :: split_on sep t
      else match split_on sep t with
           | h :: r => String a h :: r
           | [] => [String a EmptyString]
           end
  end.

(** [sort.Strings]: ascending in the byte-wise lexicographic order.  The order
    is total and antisymmetric, so every sorting algorithm gives this list. *)
Definition sort_strings (l : list string) : list string := merge_sort String.le l.

(** ** Decoding is a partition of the bytes, stable under cutting at runes *)

Lemma str_cons_app a (s t : string) : String a s +:+ t = String a (s +:+ t).
Proof. done. Qed.

Lemma str_nil_app (t : string) : EmptyString +:+ t = t.
Proof. done. Qed.

Lemma str_app_assoc (a b c : string) : a +:+ b +:+ c = (a +:+ b) +:+ c.
Proof. induction a as [|x a IH]; [done|]. by rewrite !str_cons_app, IH. Qed.

Lemma str_app_nil_r (a : string) : a +:+ EmptyString = a.
Proof. induction a as [|x a IH]; [done|]. by rewrite str_cons_app, IH. Qed.

Lemma str_length_app (a b : string) :
  String.length (a +:+ b) = String.length a + String.length b.
Proof. induction a as [|x a IH]; [done|]. rewrite str_cons_app; simpl; lia. Qed.

Lemma chunk_bytes_app l1 l2 : chunk_bytes (l1 ++ l2) = chunk_bytes l1 +:+ chunk_bytes l2.
Proof.
  induction l1 as [|[r b] l1 IH]; simpl; [done|]. by rewrite IH, str_app_assoc.
Qed.

Ltac decode_cases :=
  repeat (simplify_eq/=; match goal with
  | |- context [if ?b then _ else _] => destruct b eqn:?
  | |- context [match ?s with EmptyString => _ | String _ _ => _ end] =>
      is_var s; destruct s
  | H : context [if ?b then _ else _] |- _ => destruct b eqn:?
  | H : context [match ?s with EmptyString => _ | String _ _ => _ end] |- _ =>
      is_var s; destruct s
  end); simplify_eq/=.

Lemma decode_rune_width a t :
  1 <= snd (decode_rune a t) <= S (String.length t).
Proof. unfold decode_rune; decode_cases; lia. Qed.

(** The rune at the head of a string is found from its own bytes: cutting the
    string behind it, or appending to it, does not change it. *)
Lemma decode_rune_cut a x y :
  snd (decode_rune a (x +:+ y)) <= S (String.length x) ->
  decode_rune a (x +:+ y) = decode_rune a x.
Proof.
  unfold decode_rune.
  destruct x as [|a1 [|a2 [|a3 x]]]; rewrite ?str_cons_app, ?str_nil_app; simpl; intros Hw;
    repeat (match goal with
    | |- context [if ?b then _ else _] => destruct b eqn:?
    | |- context [match ?s with EmptyString => _ | String _ _ => _ end] =>
        is_var s; destruct s
    end; simpl in *; try done; try lia).
Qed.

Lemma str_take_drop n s : str_take n s +:+ str_drop n s = s.
Proof.
  revert s; induction n as [|n IH]; intros [|a s]; simpl; try done.
  by rewrite str_cons_app, IH.
Qed.

Lemma str_take_app (x y : string) : str_take (String.length x) (x +:+ y) = x.
Proof.
  induction x as [|a x IH]; [by destruct y|].
  rewrite str_cons_app. cbn. by rewrite IH.
Qed.

Lemma str_take_length n s : n <= String.length s -> String.length (str_take n s) = n.
Proof. revert s; induction n as [|n IH]; intros [|a s]; simpl; auto with lia. Qed.

Lemma chunks_from_drop k s : chunks_from k s = chunks (str_drop k s).
Proof.
  revert s; induction k as [|k IH]; intros [|a s]; simpl; auto.
Qed.

(** One step of the decoder. *)
Lemma chunks_step a t :
  chunks (String a t) =
    let w := snd (decode_rune a t) in
    (fst (decode_rune a t), str_take w (String a t)) :: chunks (str_drop w (String a t)).
Proof.
  unfold chunks at 1; simpl.
  pose proof (decode_rune_width a t) as Hw.
  destruct (decode_rune a t) as [r [|w]]; simpl in *; [lia|].
  by rewrite chunks_from_drop.
Qed.

Lemma chunk_bytes_chunks s : chunk_bytes (chunks s) = s.
Proof.
  induction s as [s IH] using (induction_ltof1 _ String.length); unfold ltof in IH.
  destruct s as [|a t]; [done|].
  rewrite chunks_step; simpl.
  pose proof (decode_rune_width a t) as Hw.
  destruct (decode_rune a t) as [r w]; simpl in *.
  assert (String.length (str_drop w (String a t)) < S (String.length t)) as Hlt.
  { pose proof (f_equal String.length (str_take_drop w (String a t))) as Hl.
    rewrite str_length_app, str_take_length in Hl by (simpl; lia). simpl in Hl. lia. }
  rewrite (IH _ Hlt). apply str_take_drop.
Qed.

(** [cut l]: [l] is what the decoder finds in its own bytes. *)
Definition cut (l : list chunk) : Prop := chunks (chunk_bytes l) = l.

Lemma cut_chunks s : cut (chunks s).
Proof. unfold cut. by rewrite chunk_bytes_chunks. Qed.

Lemma cut_cons_inv c l : cut (c :: l) -> 1 <= String.length c.2 /\ cut l.
Proof.
  unfold cut. destruct c as [r b]; simpl. intros H.
  destruct (b +:+ chunk_bytes l) as [|a t] eqn:Hs; [done|].
  rewrite chunks_step in H; simpl in H. injection H as Hr Hb Hl.
  pose proof (decode_rune_width a t) as Hw.
  assert (String.length b = snd (decode_rune a t)) as Hlen.
  { rewrite <- Hb. apply str_take_length. simpl; lia. }
  split; [lia|].
  rewrite <- Hl at 2. f_equal.
  apply (String.app_inj b). rewrite Hs, <- Hb at 1. symmetry. apply str_take_drop.
Qed.

Lemma cut_app_r l1 l2 : cut (l1 ++ l2) -> cut l2.
Proof.
  induction l1 as [|c l1 IH]; simpl; [done|].
  intros [_ H]%cut_cons_inv. auto.
Qed.

Lemma cut_app_l l1 l2 : cut (l1 ++ l2) -> cut l1.
Proof.
  induction l1 as [|[r b] l1 IH]; simpl; [done|]. intros Hcut.
  pose proof (cut_cons_inv _ _ Hcut) as [Hb Hcut']. simpl in Hb.
  specialize (IH Hcut'). unfold cut in *. simpl in *.
  rewrite chunk_bytes_app in Hcut.
  destruct b as [|a b]; [simpl in Hb; lia|].
  rewrite str_cons_app in *. rewrite !chunks_step in *. simpl in *.
  injection Hcut as Hr Hbs Hl.
  pose proof (decode_rune_width a (b +:+ chunk_bytes l1 +:+ chunk_bytes l2)) as Hw.
  set (w := snd (decode_rune a (b +:+ chunk_bytes l1 +:+ chunk_bytes l2))) in *.
  assert (w = S (String.length b)) as Hwb.
  { rewrite <- (str_take_length w) with (s := String a (b +:+ chunk_bytes l1 +:+ chunk_bytes l2))
      by (simpl; lia). by rewrite Hbs. }
  assert (decode_rune a (b +:+ chunk_bytes l1 +:+ chunk_bytes l2)
          = decode_rune a (b +:+ chunk_bytes l1)) as Hdec.
  { rewrite str_app_assoc. apply decode_rune_cut. rewrite <- str_app_assoc.
    fold w. rewrite str_length_app. lia. }
  subst w. rewrite Hdec in *. rewrite Hwb. f_equal.
  - f_equal; [done|]. simpl. f_equal. apply str_take_app.
  - simpl. rewrite <- IH at 2. f_equal.
    apply (String.app_inj b).
    rewrite <- (str_take_drop (String.length b) (b +:+ chunk_bytes l1)) at 2.
    by rewrite str_take_app.
Qed.

Lemma HasPrefix_iff s p : HasPrefix s p = true <-> exists t, s = p +:+ t.
Proof.
  revert s; induction p as [|b p IH]; intros s; [by split; [exists s|]|].
  destruct s as [|a s]; unfold HasPrefix; fold HasPrefix.
  - split; [done|]. by intros [t ?].
  - rewrite andb_true_iff, IH, Ascii.eqb_eq. split.
    + intros [-> [t ->]]. by exists t.
    + intros [t Ht]. rewrite str_cons_app in Ht. simplify_eq. eauto.
Qed.

(** ** [TrimSpace] *)

Lemma drop_spaces_suffix l : exists p, l = p ++ drop_spaces l.
Proof.
  induction l as [|[r b] l [p IH]]; simpl; [by exists []|].
  destruct (is_space r); [|by exists []].
  exists ((r, b) :: p). by rewrite IH at 1.
Qed.

Lemma drop_spaces_idem l : drop_spaces (drop_spaces l) = drop_spaces l.
Proof.
  induction l as [|[r b] l IH]; simpl; [done|].
  destruct (is_space r) eqn:E; [done|]. simpl. by rewrite E.
Qed.

Lemma drop_spaces_head r b l l' : drop_spaces l = (r, b) :: l' -> is_space r = false.
Proof.
  induction l as [|[r' b'] l IH]; simpl; [done|].
  destruct (is_space r') eqn:E; naive_solver.
Qed.

Lemma drop_spaces_last l :
  drop_spaces l = l -> drop_spaces (rev (drop_spaces (rev l))) = rev (drop_spaces (rev l)).
Proof.
  intros Hl. destruct l as [|[r b] l]; [done|].
  assert (is_space r = false) as Hr by (eapply drop_spaces_head; eauto).
  simpl. set (m := rev l). assert (exists m', drop_spaces (m ++ [(r, b)]) = m' ++ [(r, b)]) as [m' ->].
  { induction m as [|[r' b'] m IH]; simpl.
    - rewrite Hr. by exists [].
    - destruct (is_space r'); [done|]. by exists ((r', b') :: m). }
  rewrite rev_app_distr. simpl. by rewrite Hr.
Qed.

Lemma trim_chunks_idem l : trim_chunks (trim_chunks l) = trim_chunks l.
Proof.
  unfold trim_chunks. rewrite (drop_spaces_last (drop_spaces l)) by apply drop_spaces_idem.
  by rewrite rev_involutive, drop_spaces_idem.
Qed.

Lemma trim_chunks_infix l : exists p q, l = p ++ trim_chunks l ++ q.
Proof.
  unfold trim_chunks.
  destruct (drop_spaces_suffix l) as [p Hp].
  destruct (drop_spaces_suffix (rev (drop_spaces l))) as [q Hq].
  exists p, (rev q). rewrite <- rev_app_distr, <- Hq, rev_involutive. done.
Qed.

Lemma chunks_TrimSpace s : chunks (TrimSpace s) = trim_chunks (chunks s).
Proof.
  destruct (trim_chunks_infix (chunks s)) as (p & q & Heq).
  apply (cut_app_l _ q), (cut_app_r p). rewrite <- Heq. apply cut_chunks.
Qed.

Lemma TrimSpace_idem s : TrimSpace (TrimSpace s) = TrimSpace s.
Proof. unfold TrimSpace at 1. by rewrite chunks_TrimSpace, trim_chunks_idem. Qed.
#[export] Hint Rewrite TrimSpace_idem : go.

(** A string that [TrimSpace] leaves alone. *)
Definition trimmed (s : string) : Prop := TrimSpace s = s.

Lemma trimmed_TrimSpace s : trimmed (TrimSpace s).
Proof. apply TrimSpace_idem. Qed.
#[export] Hint Resolve trimmed_TrimSpace : go.

#[export] Instance trimmed_dec s : Decision (trimmed s).
Proof. unfold trimmed. apply _. Defined.

(** ** Sorting *)

Lemma sort_strings_Permutation l : sort_strings l ≡ₚ l.
Proof. apply merge_sort_Permutation. Qed.

Lemma elem_of_sort_strings x l : x ∈ sort_strings l <-> x ∈ l.
Proof. by rewrite sort_strings_Permutation. Qed.

Lemma sort_strings_Sorted l : Sorted String.le (sort_strings l).
Proof. apply Sorted_merge_sort, _. Qed.

(** Sorting does not depend on the order of its input (of a Go map's iteration). *)
Lemma sort_strings_proper l1 l2 : l1 ≡ₚ l2 -> sort_strings l1 = sort_strings l2.
Proof.
  intros H. apply (Sorted_unique String.le); try apply sort_strings_Sorted.
  by rewrite !sort_strings_Permutation.
Qed.

#[export] Instance sort_strings_Proper : Proper ((≡ₚ) ==> (=)) sort_strings.
Proof. intros l1 l2. apply sort_strings_proper. Qed.

(** ** Concatenation at an ASCII byte *)

Definition is_ascii_byte (a : ascii) : bool := (N_of_ascii a <? 0x80)%N.

(** No rune starting in front of an ASCII byte reaches over it. *)
Lemma decode_rune_stops a x q t :
  is_ascii_byte q = true ->
  snd (decode_rune a (x +:+ String q t)) <= S (String.length x).
Proof.
  unfold is_ascii_byte, decode_rune, cont, in_range. intros Hq.
  destruct x as [|a1 [|a2 [|a3 x]]]; rewrite ?str_cons_app, ?str_nil_app; simpl;
    repeat (match goal with
    | |- context [if ?b then _ else _] => destruct b eqn:?
    | |- context [match ?s with EmptyString => _ | String _ _ => _ end] =>
        is_var s; destruct s
    end; simpl in *; go_bool; try lia).
Qed.

Lemma str_take_app_le k (x y : string) :
  k <= String.length x -> str_take k (x +:+ y) = str_take k x.
Proof.
  revert k; induction x as [|b x IH]; intros [|k] Hk; try (simpl in Hk; lia); try done.
  rewrite str_cons_app; cbn. rewrite IH; [done|simpl in Hk; lia].
Qed.

Lemma str_drop_app_le k (x y : string) :
  k <= String.length x -> str_drop k (x +:+ y) = str_drop k x +:+ y.
Proof.
  revert k; induction x as [|b x IH]; intros [|k] Hk; try (simpl in Hk; lia); try done.
  rewrite str_cons_app; cbn. rewrite IH; [done|simpl in Hk; lia].
Qed.

Lemma chunks_app_ascii w q t :
  is_ascii_byte q = true -> chunks (w +:+ String q t) = chunks w ++ chunks (String q t).
Proof.
  intros Hq. induction w as [w IH] using (induction_ltof1 _ String.length); unfold ltof in IH.
  destruct w as [|a w]; [done|].
  rewrite str_cons_app, (chunks_step a (w +:+ String q t)), (chunks_step a w). cbn zeta.
  pose proof (decode_rune_stops a w q t Hq) as Hst.
  pose proof (decode_rune_cut a w (String q t) Hst) as ->.
  pose proof (decode_rune_width a w) as Hw.
  destruct (decode_rune a w) as [r n]; simpl in *.
  destruct n as [|n]; [lia|]. simpl.
  rewrite str_take_app_le, str_drop_app_le by lia. f_equal. apply IH.
  pose proof (f_equal String.length (str_take_drop n w)) as Hl.
  rewrite str_length_app, str_take_length in Hl by lia. lia.
Qed.

Lemma chunks_cons_ascii q t :
  is_ascii_byte q = true ->
  chunks (String q t) = (N_of_ascii q, String q EmptyString) :: chunks t.
Proof.
  intros Hq. rewrite chunks_step. unfold decode_rune, is_ascii_byte in *.
  rewrite Hq. simpl. by destruct t.
Qed.

Lemma runes_app_ascii w q t :
  is_ascii_byte q = true -> runes (w +:+ String q t) = runes w ++ N_of_ascii q :: runes t.
Proof.
  intros Hq. unfold runes.
  rewrite chunks_app_ascii, fmap_app, chunks_cons_ascii by done. done.
Qed.

Lemma runes_cons_ascii q t :
  is_ascii_byte q = true -> runes (String q t) = N_of_ascii q :: runes t.
Proof. intros Hq. apply (runes_app_ascii EmptyString q t Hq). Qed.

(** [TrimSpace] leaves a string alone whose first and last runes are no spaces. *)
Lemma trim_chunks_id c1 l c2 :
  is_space c1.1 = false -> is_space c2.1 = false ->
  trim_chunks (c1 :: l ++ [c2]) = c1 :: l ++ [c2].
Proof.
  intros H1 H2. unfold trim_chunks. destruct c1 as [r1 b1], c2 as [r2 b2]; simpl in *.
  rewrite H1. simpl. rewrite rev_app_distr. simpl. rewrite H2. simpl.
  rewrite rev_app_distr, rev_involutive. done.
Qed.

Definition encode_runes (l : list rune) : string :=
  fold_right (fun r s => encode_rune r +:+ s) EmptyString l.

(** Well-formed UTF-8: writing back the decoded runes gives the string. *)
Definition utf8_valid (s : string) : Prop := encode_runes (runes s) = s.

Lemma encode_runes_app l1 l2 : encode_runes (l1 ++ l2) = encode_runes l1 +:+ encode_runes l2.
Proof. induction l1 as [|r l1 IH]; simpl; [done|]. by rewrite IH, str_app_assoc. Qed.

Lemma drop_spaces_none l :
  Forall (fun c : chunk => is_space c.1 = false) l -> drop_spaces l = l.
Proof. destruct 1 as [|[r b] l Hr]; simpl in *; [done|]. by rewrite Hr. Qed.

Lemma TrimSpace_nospace s :
  Forall (fun r => is_space r = false) (runes s) -> TrimSpace s = s.
Proof.
  unfold runes. rewrite Forall_fmap. intros H. unfold TrimSpace, trim_chunks.
  rewrite (drop_spaces_none (chunks s)) by exact H.
  rewrite drop_spaces_none by (by apply Forall_rev).
  rewrite rev_involutive. apply chunk_bytes_chunks.
Qed.

(** ** Bytes and runes of ASCII text *)

Fixpoint str_forall (f : ascii -> bool) (s : string) : bool :=
  match s with
  | EmptyString => true
  | String a s => f a && str_forall f s
  end.

Lemma str_forall_app f (s t : string) : str_forall f (s +:+ t) = str_forall f s && str_forall f t.
Proof.
  induction s as [|a s IH]; [done|]. rewrite str_cons_app. simpl. by rewrite IH, andb_assoc.
Qed.

(** A rune below 0x80 is the byte it is written with. *)
Lemma decode_rune_low a t :
  is_ascii_byte a = false -> (0x80 <= fst (decode_rune a t))%N.
Proof.
  unfold is_ascii_byte, decode_rune, cont, in_range, rune_error. intros Ha.
  repeat (match goal with
  | |- context [if ?b then _ else _] => destruct b eqn:?
  | |- context [match ?s with EmptyString => _ | String _ _ => _ end] => is_var s; destruct s
  end; simpl in *; go_bool; subst; try lia).
Qed.

(** A predicate of runes that only ASCII runes satisfy is one of bytes. *)
Lemma runes_forallb_ascii (f : rune -> bool) s :
  (forall r, (0x80 <= r)%N -> f r = false) ->
  forallb f (runes s) = str_forall (fun a => f (N_of_ascii a)) s.
Proof.
  intros Hf. induction s as [|a s IH]; [done|]. simpl.
  destruct (is_ascii_byte a) eqn:Ha.
  - rewrite runes_cons_ascii by done. simpl. by rewrite IH.
  - unfold runes. rewrite chunks_step. simpl.
    rewrite Hf by (by apply decode_rune_low). unfold is_ascii_byte in Ha. go_bool.
    by rewrite Hf.
Qed.

Lemma HasSuffix_TrimSuffix s p : HasSuffix s p = true -> s = TrimSuffix s p +:+ p.
Proof.
  intros H. unfold TrimSuffix. rewrite H. unfold HasSuffix in H.
  apply andb_true_iff in H as [_ Hp%String.eqb_eq]. rewrite <- Hp at 2.
  symmetry. apply str_take_drop.
Qed.

Lemma str_drop_app (x y : string) : str_drop (String.length x) (x +:+ y) = y.
Proof. induction x as [|a x IH]; [by destruct y|]. rewrite str_cons_app. apply IH. Qed.

Lemma HasSuffix_app s p : HasSuffix (s +:+ p) p = true /\ TrimSuffix (s +:+ p) p = s.
Proof.
  assert (HasSuffix (s +:+ p) p = true) as H.
  { unfold HasSuffix. rewrite str_length_app.
    replace (String.length s + String.length p - String.length p) with (String.length s) by lia.
    rewrite str_drop_app, String.eqb_refl, andb_true_r. apply Nat.leb_le. lia. }
  split; [done|]. unfold TrimSuffix. rewrite H, str_length_app.
  replace (String.length s + String.length p - String.length p) with (String.length s) by lia.
  apply str_take_app.
Qed.

Lemma split_on_none sep s : str_forall (fun a => negb (Ascii.eqb a sep)) s = true -> split_on sep s = [s].
Proof.
  induction s as [|a s IH]; [done|]. simpl. intros H. go_bool. rewrite H.
  by rewrite IH.
Qed.

Lemma split_on_app sep s t :
  str_forall (fun a => negb (Ascii.eqb a sep)) s = true ->
  split_on sep (s +:+ String sep t) = s :: split_on sep t.
Proof.
  induction s as [|a s IH]; intros H.
  - rewrite str_nil_app. simpl. by rewrite Ascii.eqb_refl.
  - rewrite str_cons_app. simpl in *. go_bool. rewrite H. by rewrite IH.
Qed.

(** The inverse of [split_on]. *)
Fixpoint str_join (sep : ascii) (l : list string) : string :=
  match l with
  | [] => EmptyString
  | [x] => x
  | x :: l => x +:+ String sep (str_join sep l)
  end.

Lemma str_join_split sep s : str_join sep (split_on sep s) = s.
Proof.
  induction s as [|a s IH]; [done|]. simpl.
  destruct (Ascii.eqb a sep) eqn:E.
  - apply Ascii.eqb_eq in E as ->. destruct (split_on sep s) as [|h r] eqn:Hs.
    + by simpl in IH; subst.
    + simpl in *. by rewrite IH.
  - destruct (split_on sep s) as [|h [|h' r]] eqn:Hs; simpl in *; by rewrite <- IH.
Qed.

(** No piece holds the separator. *)
Lemma split_on_free sep s : Forall (fun seg => str_forall (fun a => negb (Ascii.eqb a sep)) seg = true) (split_on sep s).
Proof.
  induction s as [|a s IH]; simpl; [by constructor|]. destruct (Ascii.eqb a sep) eqn:Ha; [by constructor|].
  destruct (split_on sep s) as [|x l]; [constructor; [simpl; by rewrite Ha|done]|]. inversion IH; subst. constructor; [|done]. simpl. by rewrite Ha.
Qed.

(** ** Substrings *)

Fixpoint Contains (s sub : string) : bool :=
  HasPrefix s sub || match s with EmptyString => false | String _ s => Contains s sub end.

(** [strings.ReplaceAll] for a non-empty [old]: [skip] bytes of the last match are
    still to be dropped. *)
Fixpoint replace_from (skip : nat) (s old new : string) : string :=
  match s with
  | EmptyString => EmptyString
  | String a t =>
      match skip with
      | S skip => replace_from skip t old new
      | O => if HasPrefix s old then new +:+ replace_from (String.length old - 1) t old new
             else String a (replace_from 0 t old new)
      end
  end.

Definition ReplaceAll (s old new : string) : string := replace_from 0 s old new.

Example replace_ex : ReplaceAll "dag/{{run_id}}/{{run_id}}.md" "{{run_id}}" "88" = "dag/88/88.md".
Proof. vm_compute. reflexivity. Qed.

(** [strings.Fields]: the maximal runs without white space. *)
Fixpoint fields_from (cur : string) (l : list chunk) : list string :=
  match l with
  | [] => if String.eqb cur EmptyString then [] else [cur]
  | (r, b) :: l =>
      if is_space r
      then if String.eqb cur EmptyString then fields_from EmptyString l
           else cur :: fields_from EmptyString l
      else fields_from (cur +:+ b) l
  end.

Definition Fields (s : string) : list string := fields_from EmptyString (chunks s).

(** ** Concatenation behind well-formed text *)

(** The bytes of a rune are no more than its encoding has. *)
Lemma decode_rune_encode_length a t : snd (decode_rune a t) <= String.length (encode_rune (fst (decode_rune a t))).
Proof.
  unfold decode_rune, encode_rune, cont, in_range.
  repeat (match goal with
    | |- context [match t with EmptyString => _ | String _ _ => _ end] => destruct t as [|a1 t]
    | |- context [match ?s with EmptyString => _ | String _ _ => _ end] => is_var s; destruct s
    | |- context [if ?b then _ else _] => destruct b eqn:?
    end; cbn [fst snd String.length andb] in *; go_bool; try lia);
  repeat (match goal with H : context [if ?b then _ else _] |- _ => destruct b eqn:? end; go_bool; try lia);
  (match goal with H : _ || _ = true |- _ => apply orb_true_iff in H as [H|H] end; go_bool; lia).
Qed.

(** A complete rune is read as such whatever follows. *)
Lemma decode_rune_app a x y :
  is_ascii_byte a = true \/ 1 < snd (decode_rune a x) -> decode_rune a (x +:+ y) = decode_rune a x.
Proof.
  unfold is_ascii_byte, decode_rune. intros [Ha|Hw]; [by rewrite Ha|].
  destruct x as [|a1 [|a2 [|a3 x]]]; rewrite ?str_cons_app, ?str_nil_app; simpl in *;
    repeat (match goal with
    | |- context [if ?b then _ else _] => destruct b eqn:?
    end; simpl in *; try done; try lia).
Qed.

Definition chunk_exact (c : chunk) : Prop := encode_rune c.1 = c.2.

Lemma str_app_inv_length (a1 b1 a2 b2 : string) :
  a1 +:+ b1 = a2 +:+ b2 -> String.length a2 <= String.length a1 -> String.length b2 <= String.length b1 -> a1 = a2 /\ b1 = b2.
Proof.
  intros H Ha Hb. pose proof (f_equal String.length H) as Hl. rewrite !str_length_app in Hl.
  assert (String.length a1 = String.length a2) as E by lia. clear Ha Hb Hl. revert a2 E H.
  induction a1 as [|c a1 IH]; intros [|d a2] E H; cbn in E; try done. rewrite !str_cons_app in H. injection H as -> H.
  destruct (IH a2) as [-> ->]; [lia|done|done].
Qed.

Lemma chunks_length s : Forall (fun c : chunk => String.length c.2 <= String.length (encode_rune c.1)) (chunks s).
Proof.
  induction s as [s IH] using (induction_ltof1 _ String.length); unfold ltof in IH. destruct s as [|a t]; [constructor|].
  rewrite chunks_step. pose proof (decode_rune_width a t) as Hw. pose proof (decode_rune_encode_length a t) as He.
  destruct (decode_rune a t) as [r w]; cbn [fst snd] in *. constructor.
  - cbn [fst snd]. rewrite str_take_length by (cbn; lia). done.
  - apply IH. pose proof (f_equal String.length (str_take_drop w (String a t))) as Hl.
    rewrite str_length_app, str_take_length in Hl by (cbn; lia). cbn in Hl |- *. lia.
Qed.

Lemma utf8_valid_chunks s : utf8_valid s <-> Forall chunk_exact (chunks s).
Proof.
  unfold utf8_valid, runes. rewrite <- (chunk_bytes_chunks s) at 2. pose proof (chunks_length s) as Hlen. split.
  - induction Hlen as [|[r b] l Hb Hl IH]; [constructor|]. cbn. intros H. cbn in Hb.
    destruct (str_app_inv_length _ _ _ _ H Hb) as [E1 E2].
    + clear -Hl. induction Hl as [|[r b] l Hb _ IH]; [done|]. cbn in *. rewrite !str_length_app. lia.
    + constructor; [exact E1|]. by apply IH.
  - intros H. clear Hlen. induction H as [|[r b] l Hr _ IH]; [done|]. unfold chunk_exact in Hr. cbn in Hr.
    change (encode_rune r +:+ encode_runes l.*1 = b +:+ chunk_bytes l). by rewrite Hr, IH.
Qed.

Lemma chunks_app_valid x y : utf8_valid x -> chunks (x +:+ y) = chunks x ++ chunks y.
Proof.
  rewrite utf8_valid_chunks. induction x as [x IH] using (induction_ltof1 _ String.length); unfold ltof in IH.
  destruct x as [|a x]; [done|]. intros Hx. rewrite str_cons_app, (chunks_step a (x +:+ y)), (chunks_step a x) in *. cbn zeta in *.
  pose proof (decode_rune_width a x) as Hw. inversion Hx as [|? ? Hc Hrest]; subst.
  assert (is_ascii_byte a = true \/ 1 < snd (decode_rune a x)) as Hd.
  { destruct (is_ascii_byte a) eqn:Ha; [by left|right]. pose proof (decode_rune_low a x Ha) as Hlow.
    apply (f_equal String.length) in Hc. cbn [fst snd] in Hc. rewrite str_take_length in Hc by (cbn; lia). rewrite <- Hc.
    unfold encode_rune. destruct (N.ltb_spec (decode_rune a x).1 0x80) as [Hlt|_]; [lia|]. repeat case_match; cbn; lia. }
  rewrite (decode_rune_app a x y Hd). destruct (decode_rune a x) as [r [|n]]; cbn [fst snd] in *; [lia|]. cbn [str_take str_drop].
  rewrite str_take_app_le, str_drop_app_le by lia. cbn. f_equal. apply IH; [|done].
  pose proof (f_equal String.length (str_take_drop n x)) as Hl. rewrite str_length_app, str_take_length in Hl by lia. cbn. lia.
Qed.

Lemma runes_app_valid x y : utf8_valid x -> runes (x +:+ y) = runes x ++ runes y.
Proof. intros H. unfold runes. by rewrite chunks_app_valid, fmap_app. Qed.

Lemma utf8_valid_app_ascii x q y : is_ascii_byte q = true -> utf8_valid (x +:+ String q y) -> utf8_valid x /\ utf8_valid y.
Proof. intros Hq. rewrite !utf8_valid_chunks, chunks_app_ascii, chunks_cons_ascii, Forall_app, Forall_cons by done. tauto. Qed.

(** A rune is one ASCII byte, or is read from bytes that are not ASCII. *)
Definition chunk_kind (c : chunk) : Prop :=
  (exists a, is_ascii_byte a = true /\ c = (N_of_ascii a, String a EmptyString))
  \/ ((0x80 <= c.1)%N /\ c.2 <> EmptyString /\ str_forall (fun a => negb (is_ascii_byte a)) c.2 = true).

Lemma decode_rune_bytes a t :
  is_ascii_byte a = false -> str_forall (fun a => negb (is_ascii_byte a)) (str_take (snd (decode_rune a t)) (String a t)) = true.
Proof.
  unfold is_ascii_byte, decode_rune, cont, in_range. intros Ha.
  repeat (match goal with
    | |- context [match t with EmptyString => _ | String _ _ => _ end] => destruct t as [|a1 t]
    | |- context [match ?s with EmptyString => _ | String _ _ => _ end] => is_var s; destruct s
    | |- context [if ?b then _ else _] => destruct b eqn:?
    end; cbn [snd str_take str_forall] in *; go_bool; try lia);
  rewrite ?andb_true_iff, ?negb_true_iff, ?N.ltb_ge; repeat case_match; go_bool; repeat split; try lia.
Qed.

Lemma chunks_kind s : Forall chunk_kind (chunks s).
Proof.
  induction s as [s IH] using (induction_ltof1 _ String.length); unfold ltof in IH. destruct s as [|a t]; [constructor|].
  destruct (is_ascii_byte a) eqn:Ha.
  { rewrite chunks_cons_ascii by done. constructor; [left; eauto|]. apply IH. cbn. lia. }
  pose proof (decode_rune_bytes a t Ha) as Hb. pose proof (decode_rune_low a t Ha) as Hl. pose proof (decode_rune_width a t) as Hw.
  rewrite chunks_step. destruct (decode_rune a t) as [r w]; cbn [fst snd] in *. constructor.
  - right. cbn [fst snd]. split; [done|]. split; [|done]. destruct w; [lia|done].
  - apply IH. pose proof (f_equal String.length (str_take_drop w (String a t))) as Hlen.
    rewrite str_length_app, str_take_length in Hlen by (cbn; lia). cbn in Hlen |- *. lia.
Qed.
