(* ===== verification/GoTime.v ===== *)
(** * Times and their text

    Go's [time.Time] at the millisecond precision of the database: the zero time, the
    proleptic Gregorian calendar and the layout [time.RFC3339Nano] in UTC.  A time is a
    number of milliseconds since the Unix epoch. *)

From S2P Require Import Prelude GoStrings.

(** [time.Time{}]: the first of January of the year 1. *)
Definition zero_time : Z := (-62135596800000)%Z.

Definition IsZero (t : Z) : bool := (t =? zero_time)%Z.

(** ** The calendar *)

Section calendar.
Local Open Scope Z_scope.

(** The year of an era of 400 years that begins on the first of March, by centuries,
    leap cycles and years, and the day of that year. *)
Definition year_of_era (doe : Z) : Z :=
  let c := Z.min (doe / 36524) 3 in
  let q := (doe - 36524 * c) / 1461 in
  let a := Z.min ((doe - 36524 * c - 1461 * q) / 365) 3 in
  100 * c + 4 * q + a.

Definition era_days_before (yoe : Z) : Z := 365 * yoe + yoe / 4 - yoe / 100.
Definition day_of_year (doe : Z) : Z := doe - era_days_before (year_of_era doe).
Definition month_index (doe : Z) : Z := (5 * day_of_year doe + 2) / 153.

Definition civil_of_days (days : Z) : Z * Z * Z :=
  let z := days + 719468 in
  let doe := z mod 146097 in
  let mp := month_index doe in
  let day := day_of_year doe - (153 * mp + 2) / 5 + 1 in
  let month := if mp <? 10 then mp + 3 else mp - 9 in
  let year := year_of_era doe + z / 146097 * 400 + (if month <=? 2 then 1 else 0) in
  (year, month, day).

Definition days_of_civil (date : Z * Z * Z) : Z :=
  let '(year, month, day) := date in
  let y := year - (if month <=? 2 then 1 else 0) in
  let yoe := y mod 400 in
  let mp := if 2 <? month then month - 3 else month + 9 in
  let doe := era_days_before yoe + ((153 * mp + 2) / 5 + day - 1) in
  y / 400 * 146097 + doe - 719468.

Lemma year_of_era_spec doe : 0 <= doe < 146097 -> 0 <= year_of_era doe < 400 /\ 0 <= day_of_year doe < 366.
Proof.
  intros H. unfold day_of_year, era_days_before, year_of_era.
  set (c := Z.min (doe / 36524) 3). assert (0 <= c <= 3 /\ 0 <= doe - 36524 * c <= 36524) as [Hc Hdoc].
  { pose proof (Z.div_mod doe 36524 ltac:(lia)). pose proof (Z.mod_pos_bound doe 36524 ltac:(lia)).
    pose proof (Z.div_pos doe 36524 ltac:(lia) ltac:(lia)). lia. }
  set (q := (doe - 36524 * c) / 1461). set (doc := doe - 36524 * c) in *.
  assert (0 <= q <= 24 /\ 0 <= doc - 1461 * q <= 1460) as [Hq Hdoq].
  { pose proof (Z.div_mod doc 1461 ltac:(lia)). pose proof (Z.mod_pos_bound doc 1461 ltac:(lia)).
    pose proof (Z.div_pos doc 1461 ltac:(lia) ltac:(lia)). subst q. lia. }
  set (a := Z.min ((doc - 1461 * q) / 365) 3). set (doq := doc - 1461 * q) in *.
  assert (0 <= a <= 3 /\ 0 <= doq - 365 * a <= 365) as [Ha Hdoy].
  { pose proof (Z.div_mod doq 365 ltac:(lia)). pose proof (Z.mod_pos_bound doq 365 ltac:(lia)).
    pose proof (Z.div_pos doq 365 ltac:(lia) ltac:(lia)). lia. }
  replace ((100 * c + 4 * q + a) / 4) with (25 * c + q) by (apply Z.div_unique with a; lia).
  replace ((100 * c + 4 * q + a) / 100) with c by (apply Z.div_unique with (4 * q + a); lia). lia.
Qed.

Lemma era_day_bounds doe :
  0 <= doe < 146097 -> 0 <= year_of_era doe < 400 /\ 0 <= month_index doe < 12
    /\ 1 <= day_of_year doe - (153 * month_index doe + 2) / 5 + 1 <= 31.
Proof.
  intros [Hy Hd]%year_of_era_spec. unfold month_index. set (doy := day_of_year doe) in *. split; [done|].
  pose proof (Z.div_mod (5 * doy + 2) 153 ltac:(lia)). pose proof (Z.mod_pos_bound (5 * doy + 2) 153 ltac:(lia)).
  set (mp := (5 * doy + 2) / 153) in *.
  pose proof (Z.div_mod (153 * mp + 2) 5 ltac:(lia)). pose proof (Z.mod_pos_bound (153 * mp + 2) 5 ltac:(lia)). lia.
Qed.

Lemma civil_roundtrip days : days_of_civil (civil_of_days days) = days.
Proof.
  unfold days_of_civil, civil_of_days. set (z := days + 719468).
  pose proof (Z.mod_pos_bound z 146097 ltac:(lia)) as Hb. pose proof (Z.div_mod z 146097 ltac:(lia)) as Hz.
  destruct (era_day_bounds _ Hb) as (Hy & Hm & _). set (doe := z mod 146097) in *. set (era := z / 146097) in *.
  cbn zeta. set (mp := month_index doe) in *. set (yoe := year_of_era doe) in *.
  assert ((yoe + era * 400) mod 400 = yoe) as E1 by (rewrite Z.mod_add by lia; by apply Z.mod_small).
  assert ((yoe + era * 400) / 400 = era) as E2 by (rewrite Z.div_add by lia; rewrite Z.div_small by lia; lia).
  assert (day_of_year doe = doe - era_days_before yoe) as E3 by done.
  destruct (Z.ltb_spec mp 10).
  - rewrite (proj2 (Z.leb_gt (mp + 3) 2)) by lia. rewrite (proj2 (Z.ltb_lt 2 (mp + 3))) by lia.
    rewrite Z.add_0_r, Z.sub_0_r, E1, E2, E3. replace (mp + 3 - 3) with mp by lia. lia.
  - rewrite (proj2 (Z.leb_le (mp - 9) 2)) by lia. rewrite (proj2 (Z.ltb_ge 2 (mp - 9))) by lia.
    rewrite Z.add_simpl_r, E1, E2, E3. replace (mp - 9 + 9) with mp by lia. lia.
Qed.

Lemma civil_range days :
  0 <= days < 2932897 -> let '(y, m, d) := civil_of_days days in 0 <= y < 10000 /\ 0 <= m < 100 /\ 0 <= d < 100.
Proof.
  intros Hd. unfold civil_of_days. set (z := days + 719468) in *.
  pose proof (Z.mod_pos_bound z 146097 ltac:(lia)) as Hb.
  destruct (era_day_bounds _ Hb) as (Hy & Hm & Hday). set (doe := z mod 146097) in *. set (mp := month_index doe) in *.
  assert (0 <= z / 146097 <= 24) as Hera.
  { split; [apply Z.div_pos; lia|]. assert (z / 146097 < 25) by (apply Z.div_lt_upper_bound; lia). lia. }
  split; [|destruct (Z.ltb_spec mp 10); lia].
  split; [destruct (Z.ltb_spec mp 10); repeat case_match; lia|].
  destruct (Z.ltb_spec mp 10); repeat case_match; try lia.
  assert (~ (z / 146097 = 24 /\ year_of_era doe = 399)); [|lia]. intros [He Hyoe].
  assert (day_of_year doe = doe - 145731) as E by (unfold day_of_year; rewrite Hyoe; reflexivity).
  assert (z = 146097 * 24 + doe) by (rewrite <- He; apply Z.div_mod; lia).
  assert (306 <= (153 * mp + 2) / 5) by (apply Z.div_le_lower_bound; lia). lia.
Qed.
End calendar.

(** ** Text *)

Definition digit (n : Z) : ascii := ascii_of_N (48 + Z.to_N n).

(** The last [w] decimal digits of [n]. *)
Fixpoint digits (w : nat) (n : Z) : string :=
  match w with
  | O => EmptyString
  | S w => digits w (n / 10) +:+ String (digit (n mod 10)) EmptyString
  end.

(** [appendInt(b, n, w)]: the sign, and at least [w] digits. *)
Definition appendInt (w : nat) (n : Z) : string :=
  (if (n <? 0)%Z then "-" else EmptyString)
  +:+ (if (Z.abs n <? 10 ^ Z.of_nat w)%Z then digits w (Z.abs n) else pretty (Z.abs n)).

(** [.999999999] of a number of milliseconds: trailing zeros are dropped, and the point
    when nothing is left. *)
Definition fraction (ms : Z) : string :=
  if (ms =? 0)%Z then EmptyString
  else "." +:+ (if (ms mod 100 =? 0)%Z then digits 1 (ms / 100)
                else if (ms mod 10 =? 0)%Z then digits 2 (ms / 10) else digits 3 ms).

(** [t.UTC().Format(time.RFC3339Nano)] *)
Definition RFC3339Nano (t : Z) : string :=
  let days := (t / 86400000)%Z in
  let ms := (t mod 86400000)%Z in
  let '(year, month, day) := civil_of_days days in
  appendInt 4 year +:+ "-" +:+ appendInt 2 month +:+ "-" +:+ appendInt 2 day +:+ "T"
  +:+ appendInt 2 (ms / 3600000) +:+ ":" +:+ appendInt 2 (ms / 60000 mod 60) +:+ ":" +:+ appendInt 2 (ms / 1000 mod 60)
  +:+ fraction (ms mod 1000) +:+ "Z".

Example format_leap_day : RFC3339Nano 1709164805120 = "2024-02-29T00:00:05.12Z".
Proof. vm_compute. reflexivity. Qed.

Lemma digits_length w n : String.length (digits w n) = w.
Proof. revert n. induction w as [|w IH]; intros n; cbn [digits]; [done|]. rewrite str_length_app, IH. cbn. lia. Qed.

Lemma str_app_inj (a a' b b' : string) : String.length a = String.length a' -> a +:+ b = a' +:+ b' -> a = a' /\ b = b'.
Proof.
  intros Hl H. split.
  - by rewrite <- (str_take_app a b), H, Hl, str_take_app.
  - by rewrite <- (str_drop_app a b), H, Hl, str_drop_app.
Qed.

Lemma digit_inj n m : (0 <= n < 10)%Z -> (0 <= m < 10)%Z -> digit n = digit m -> n = m.
Proof. unfold digit. intros Hn Hm H%(f_equal N_of_ascii). rewrite !N_ascii_embedding in H by lia. lia. Qed.

Lemma digits_inj w n m :
  (0 <= n < 10 ^ Z.of_nat w)%Z -> (0 <= m < 10 ^ Z.of_nat w)%Z -> digits w n = digits w m -> n = m.
Proof.
  revert n m. induction w as [|w IH]; intros n m Hn Hm H; [cbn in *; lia|].
  rewrite Nat2Z.inj_succ, Z.pow_succ_r in * by lia. cbn [digits] in H.
  apply str_app_inj in H as [H1 H2]; [|by rewrite !digits_length]. injection H2 as H2.
  apply digit_inj in H2; [|apply Z.mod_pos_bound; lia..].
  apply IH in H1; [|split; [apply Z.div_pos; lia|apply Z.div_lt_upper_bound; lia]..].
  rewrite (Z.div_mod n 10), (Z.div_mod m 10) by lia. lia.
Qed.

Lemma appendInt_digits w n : (0 <= n < 10 ^ Z.of_nat w)%Z -> appendInt w n = digits w n.
Proof.
  intros H. unfold appendInt. rewrite (proj2 (Z.ltb_ge n 0)) by lia. rewrite Z.abs_eq by lia.
  by rewrite (proj2 (Z.ltb_lt _ _)) by lia.
Qed.

Lemma digits_app_inj w n m x y :
  (0 <= n < 10 ^ Z.of_nat w)%Z -> (0 <= m < 10 ^ Z.of_nat w)%Z -> appendInt w n +:+ x = appendInt w m +:+ y -> n = m /\ x = y.
Proof.
  intros Hn Hm H. rewrite !appendInt_digits in H by done. apply str_app_inj in H as [H ?]; [|by rewrite !digits_length].
  split; [by eapply digits_inj|done].
Qed.

(** The fraction of a second is determined by its text. *)
Lemma fraction_inj n m : (0 <= n < 1000)%Z -> (0 <= m < 1000)%Z -> fraction n +:+ "Z" = fraction m +:+ "Z" -> n = m.
Proof.
  intros Hn Hm H. assert (fraction n = fraction m) as E.
  { assert (String.length (fraction n) = String.length (fraction m)) as Hl
      by (apply (f_equal String.length) in H; rewrite !str_length_app in H; lia). by apply str_app_inj in H as [? _]. }
  clear H. unfold fraction in E.
  repeat match goal with Hx : context [(?a =? ?b)%Z] |- _ => destruct (Z.eqb_spec a b) end; subst; try done;
    apply (str_app_inj "." "." _ _ eq_refl) in E as [_ E]; pose proof (f_equal String.length E) as El; rewrite !digits_length in El;
    try discriminate El; clear El;
    apply digits_inj in E; cbn; try (split; [try apply Z.div_pos; lia|try apply Z.div_lt_upper_bound; lia]).
  - rewrite (Z.div_mod n 100), (Z.div_mod m 100) by lia. lia.
  - rewrite (Z.div_mod n 10), (Z.div_mod m 10) by lia. lia.
  - done.
Qed.

(** The last instant of the year 9999, plus one. *)
Definition year_10000 : Z := 253402300800000%Z.

Lemma RFC3339Nano_inj t u :
  (0 <= t < year_10000)%Z -> (0 <= u < year_10000)%Z -> RFC3339Nano t = RFC3339Nano u -> t = u.
Proof.
  unfold year_10000. intros Ht Hu H. unfold RFC3339Nano in H.
  pose proof (civil_range (t / 86400000) ltac:(split; [apply Z.div_pos; lia|apply Z.div_lt_upper_bound; lia])) as Ct.
  pose proof (civil_range (u / 86400000) ltac:(split; [apply Z.div_pos; lia|apply Z.div_lt_upper_bound; lia])) as Cu.
  pose proof (civil_roundtrip (t / 86400000)) as Rt. pose proof (civil_roundtrip (u / 86400000)) as Ru.
  destruct (civil_of_days (t / 86400000)) as [[y m] d], (civil_of_days (u / 86400000)) as [[y' m'] d'].
  pose proof (Z.mod_pos_bound t 86400000 ltac:(lia)) as Bt. pose proof (Z.mod_pos_bound u 86400000 ltac:(lia)) as Bu.
  set (a := (t mod 86400000)%Z) in *. set (b := (u mod 86400000)%Z) in *.
  apply digits_app_inj in H as [-> H]; [|cbn; lia..]. injection H as H.
  apply digits_app_inj in H as [-> H]; [|cbn; lia..]. injection H as H.
  apply digits_app_inj in H as [-> H]; [|cbn; lia..]. injection H as H.
  apply digits_app_inj in H as [E1 H]; [|cbn; split; [apply Z.div_pos; lia|apply Z.div_lt_upper_bound; lia]..]. injection H as H.
  assert (forall x, 0 <= x mod 60 < 10 ^ Z.of_nat 2)%Z as H60 by (intros x; pose proof (Z.mod_pos_bound x 60 ltac:(lia)); cbn; lia).
  apply digits_app_inj in H as [E2 H]; [|apply H60..]. injection H as H.
  apply digits_app_inj in H as [E3 H]; [|apply H60..].
  apply fraction_inj in H; [|apply Z.mod_pos_bound; lia..].
  assert (t / 86400000 = u / 86400000)%Z as Ed by congruence.
  rewrite (Z.div_mod t 86400000), (Z.div_mod u 86400000), Ed by lia. fold a b. f_equal. clear -E1 E2 E3 H Bt Bu.
  Z.to_euclidean_division_equations. lia.
Qed.

(** ** The order of times as texts

    The stores keep a time as the text that [RFC3339Nano] writes, and some of their
    statements compare two such texts.  The texts of two times that lie in different seconds
    are in the order of the times; within one second they need not be, for a fraction of zero is
    not written and the letter [Z] comes after the point. *)

Definition text_lt (a b : string) : Prop := String.compare a b = Lt.

Lemma text_lt_leb a b : text_lt a b -> String.leb a b = true.
Proof. unfold text_lt, String.leb. by intros ->. Qed.

Lemma text_lt_ltb a b : text_lt a b -> String.ltb a b = true.
Proof. unfold text_lt, String.ltb. by intros ->. Qed.

Lemma compare_refl_app a x y : String.compare (a +:+ x) (a +:+ y) = String.compare x y.
Proof. induction a as [|c a IH]; [done|]. change (match Ascii.compare c c with Eq => String.compare (a +:+ x) (a +:+ y) | r => r end = String.compare x y). replace (Ascii.compare c c) with Eq by (unfold Ascii.compare; by rewrite N.compare_refl). exact IH. Qed.

Lemma text_lt_app a b x y : String.length a = String.length b -> text_lt a b -> text_lt (a +:+ x) (b +:+ y).
Proof.
  unfold text_lt. revert b. induction a as [|c a IH]; intros [|d b] Hl H; [done..|]. change (match Ascii.compare c d with Eq => String.compare (a +:+ x) (b +:+ y) | r => r end = Lt). cbn in Hl, H. destruct (Ascii.compare c d) eqn:E; [apply IH; [lia|done]|done|done].
Qed.

Lemma digit_lt n m : (0 <= n < 10)%Z -> (0 <= m < 10)%Z -> (n < m)%Z -> Ascii.compare (digit n) (digit m) = Lt.
Proof. intros Hn Hm H. unfold Ascii.compare, digit. rewrite !N_ascii_embedding by lia. apply N.compare_lt_iff. lia. Qed.

Lemma digits_lt w n m : (0 <= n < 10 ^ Z.of_nat w)%Z -> (0 <= m < 10 ^ Z.of_nat w)%Z -> (n < m)%Z -> text_lt (digits w n) (digits w m).
Proof.
  revert n m. induction w as [|w IH]; intros n m Hn Hm H; [cbn in *; lia|]. rewrite Nat2Z.inj_succ, Z.pow_succ_r in * by lia. cbn [digits].
  pose proof (Z.mod_pos_bound n 10 ltac:(lia)). pose proof (Z.mod_pos_bound m 10 ltac:(lia)). pose proof (Z.div_mod n 10 ltac:(lia)). pose proof (Z.div_mod m 10 ltac:(lia)).
  assert (n / 10 < m / 10 \/ (n / 10 = m / 10 /\ n mod 10 < m mod 10))%Z as [Hlt|[Heq Hlt]] by lia.
  - apply text_lt_app; [by rewrite !digits_length|]. apply IH; [split; [apply Z.div_pos; lia|apply Z.div_lt_upper_bound; lia]..|done].
  - rewrite Heq. unfold text_lt. rewrite compare_refl_app. cbn. by rewrite digit_lt.
Qed.

(** A number of fixed width decides, or what follows it. *)
Lemma field_lt w n m x y : (0 <= n < 10 ^ Z.of_nat w)%Z -> (0 <= m < 10 ^ Z.of_nat w)%Z -> (n < m)%Z \/ (n = m /\ text_lt x y) ->
  text_lt (appendInt w n +:+ x) (appendInt w m +:+ y).
Proof.
  intros Hn Hm H. rewrite !appendInt_digits by done. destruct H as [H|[-> H]].
  - apply text_lt_app; [by rewrite !digits_length|]. by apply digits_lt.
  - unfold text_lt. by rewrite compare_refl_app.
Qed.

Lemma sep_lt a x y : text_lt x y -> text_lt (a +:+ x) (a +:+ y).
Proof. intros H. unfold text_lt. by rewrite compare_refl_app. Qed.

(** *** Dates *)

Section dates.
Local Open Scope Z_scope.

Lemma era_days_step a b : 0 <= a < b -> era_days_before a + 365 <= era_days_before b.
Proof. unfold era_days_before. intros H. Z.to_euclidean_division_equations. lia. Qed.

(** A later day of an era is in a later year, or later in the year. *)
Lemma year_of_era_lt d e : 0 <= d < 146097 -> 0 <= e < 146097 -> d < e ->
  year_of_era d < year_of_era e \/ (year_of_era d = year_of_era e /\ day_of_year d < day_of_year e).
Proof.
  intros Hd He H. destruct (year_of_era_spec d Hd) as [Y1 D1], (year_of_era_spec e He) as [Y2 D2]. unfold day_of_year in *.
  destruct (Z.lt_trichotomy (year_of_era d) (year_of_era e)) as [?|[E|L]]; [by left|right; rewrite E in *; lia|].
  pose proof (era_days_step (year_of_era e) (year_of_era d) ltac:(lia)). lia.
Qed.

(** The order of dates. *)
Definition date_lt (a b : Z * Z * Z) : Prop :=
  let '(y, m, d) := a in let '(y', m', d') := b in y < y' \/ (y = y' /\ (m < m' \/ (m = m' /\ d < d'))).

Lemma civil_lt d e : d < e -> date_lt (civil_of_days d) (civil_of_days e).
Proof.
  intros H. unfold civil_of_days. set (z := d + 719468). set (w := e + 719468). assert (Hzw : z < w) by lia.
  pose proof (Z.mod_pos_bound z 146097 ltac:(lia)) as Bz. pose proof (Z.mod_pos_bound w 146097 ltac:(lia)) as Bw.
  pose proof (Z.div_mod z 146097 ltac:(lia)) as Ez. pose proof (Z.div_mod w 146097 ltac:(lia)) as Ew.
  destruct (era_day_bounds _ Bz) as (Yz & Mz & _), (era_day_bounds _ Bw) as (Yw & Mw & _).
  set (i := z mod 146097) in *. set (j := w mod 146097) in *.
  assert (Hy : year_of_era i + z / 146097 * 400 < year_of_era j + w / 146097 * 400
          \/ (year_of_era i + z / 146097 * 400 = year_of_era j + w / 146097 * 400 /\ day_of_year i < day_of_year j)).
  { destruct (Z.lt_trichotomy (z / 146097) (w / 146097)) as [?|[E|?]]; [left; lia| |lia].
    rewrite E in *. destruct (year_of_era_lt i j Bz Bw ltac:(lia)) as [?|[? ?]]; [left|right]; lia. }
  assert (Hm : day_of_year i < day_of_year j -> month_index i < month_index j
          \/ (month_index i = month_index j /\ day_of_year i - (153 * month_index i + 2) / 5 < day_of_year j - (153 * month_index j + 2) / 5)).
  { intros Hd. assert (month_index i <= month_index j) by (unfold month_index; apply Z.div_le_mono; lia).
    destruct (Z.eq_dec (month_index i) (month_index j)) as [E|]; [right; rewrite E; lia|left; lia]. }
  cbn zeta. unfold date_lt.
  destruct (Z.ltb_spec (month_index i) 10), (Z.ltb_spec (month_index j) 10); repeat case_match; try lia.
Qed.
End dates.

(** *** Times *)

(** Times of different seconds, from 1970 to 9999, are in the order of their texts. *)
Lemma RFC3339Nano_lt t u : (0 <= t)%Z -> (u < year_10000)%Z -> (t / 1000 < u / 1000)%Z -> text_lt (RFC3339Nano t) (RFC3339Nano u).
Proof.
  unfold year_10000. intros Ht Hu H. assert (t < u)%Z as Htu by (Z.to_euclidean_division_equations; lia). unfold RFC3339Nano.
  pose proof (civil_range (t / 86400000) ltac:(split; [apply Z.div_pos; lia|apply Z.div_lt_upper_bound; lia])) as Ct.
  pose proof (civil_range (u / 86400000) ltac:(split; [apply Z.div_pos; lia|apply Z.div_lt_upper_bound; lia])) as Cu.
  pose proof (civil_lt (t / 86400000) (u / 86400000)) as Hc.
  assert (Hd : (t / 86400000 < u / 86400000 \/ (t / 86400000 = u / 86400000 /\ (t mod 86400000) / 1000 < (u mod 86400000) / 1000))%Z).
  { clear -H. Z.to_euclidean_division_equations. lia. }
  pose proof (Z.mod_pos_bound t 86400000 ltac:(lia)) as Bt. pose proof (Z.mod_pos_bound u 86400000 ltac:(lia)) as Bu.
  set (a := (t mod 86400000)%Z) in *. set (b := (u mod 86400000)%Z) in *.
  assert (H60 : forall x, (0 <= x mod 60 < 10 ^ Z.of_nat 2)%Z) by (intros x; pose proof (Z.mod_pos_bound x 60 ltac:(lia)); cbn; lia).
  assert (Hh : forall x, (0 <= x < 86400000)%Z -> (0 <= x / 3600000 < 10 ^ Z.of_nat 2)%Z) by (intros x Hx; cbn; split; [apply Z.div_pos; lia|apply Z.div_lt_upper_bound; lia]).
  destruct Hd as [Hd|[Hd Hs]].
  - specialize (Hc Hd). destruct (civil_of_days (t / 86400000)) as [[y m] d], (civil_of_days (u / 86400000)) as [[y' m'] d'].
    unfold date_lt in Hc. apply field_lt; [cbn; lia..|]. destruct Hc as [?|[? Hc]]; [by left|right; split; [done|]]. apply sep_lt.
    apply field_lt; [cbn; lia..|]. destruct Hc as [?|[? Hc]]; [by left|right; split; [done|]]. apply sep_lt. apply field_lt; [cbn; lia..|by left].
  - rewrite Hd in *. destruct (civil_of_days (u / 86400000)) as [[y m] d].
    do 3 (apply field_lt; [cbn; lia..|]; right; split; [done|]; apply sep_lt).
    apply field_lt; [by apply Hh..|].
    assert (a / 3600000 < b / 3600000 \/ (a / 3600000 = b / 3600000 /\ (a / 60000 mod 60 < b / 60000 mod 60 \/ (a / 60000 mod 60 = b / 60000 mod 60 /\ a / 1000 mod 60 < b / 1000 mod 60))))%Z as Hl.
    { clear -Hs Bt Bu. Z.to_euclidean_division_equations. lia. }
    destruct Hl as [?|[? Hl]]; [by left|right; split; [done|]]. apply sep_lt. apply field_lt; [apply H60..|].
    destruct Hl as [?|[? Hl]]; [by left|right; split; [done|]]. apply sep_lt. apply field_lt; [apply H60..|by left].
Qed.
