(* ===== verification/ToolPolicy.v ===== *)
(** * Tool policy: stage decisions and the read-only shell classifier

    Models [internal/platform/toolpolicy]: [policy.go] decides from a stage, a
    trust source and a capability bit set whether a tool may run, and [shell.go]
    classifies a shell command line as read-only.  String-typed Go enums stay
    strings, so that values outside the declared constants are covered too. *)

From S2P Require Import Prelude GoStrings.

(** ** policy.go *)

Definition StageUnknown : string := "".
Definition StagePlan : string := "plan".
Definition StageReadOnly : string := "read_only".
Definition StageExecution : string := "execution".

Definition TrustUnknown : string := "".
Definition TrustInternal : string := "internal".
Definition TrustProvider : string := "provider".
Definition TrustExternal : string := "external".

(** [Capability uint64], the constants being [1 << iota]. *)
Definition CapabilityReadOnly : N := 1.
Definition CapabilityPlanSafe : N := 2.
Definition CapabilityWriter : N := 4.
Definition CapabilityProcessControl : N := 8.
Definition CapabilityMemoryMutation : N := 16.
Definition CapabilityApprovalFinalizer : N := 32.
Definition CapabilityWorkflowMutation : N := 64.
Definition CapabilityRecursiveAgent : N := 128.
Definition CapabilityConnector : N := 256.
Definition CapabilityShell : N := 512.

Definition readOnlyUnsafeCapabilities : N :=
  fold_right N.lor 0%N
    [CapabilityWriter; CapabilityProcessControl; CapabilityMemoryMutation;
     CapabilityApprovalFinalizer; CapabilityWorkflowMutation; CapabilityRecursiveAgent;
     CapabilityConnector; CapabilityShell].

Definition Has (c flag : N) : bool := (N.land c flag =? flag)%N.
Definition HasAny (c flags : N) : bool := negb (N.land c flags =? 0)%N.

Definition ReadOnly (c : N) : bool :=
  if HasAny c readOnlyUnsafeCapabilities then false
  else Has c CapabilityReadOnly || Has c CapabilityPlanSafe.

Definition PlanSafe (c : N) : bool :=
  if HasAny c readOnlyUnsafeCapabilities then false else Has c CapabilityPlanSafe.

Inductive DecisionCode :=
| CodeAllowed
| CodeUnknownStage
| CodeUntrustedSource
| CodeExternalHint
| CodeCapabilityDenied
| CodeShellSyntaxDenied
| CodeShellCommandDenied
| CodeShellArgumentDenied
| CodeShellEmptyCommand.

Record Decision_ := mkDecision { Allow : bool; Code : DecisionCode; Reason : message }.

Record Assessment := mkAssessment {
  Stage : string;
  Trust : string;
  Capabilities : N;
  ReadOnlyHint : bool;
  ReadOnlyHintTrust : string;
}.

Definition allow (reason : message) : Decision_ := mkDecision true CodeAllowed reason.
Definition deny (code : DecisionCode) (reason : message) : Decision_ :=
  mkDecision false code reason.

Definition knownStage (stage : string) : bool :=
  str_in stage [StagePlan; StageReadOnly; StageExecution].

Definition trustedSource (source : string) : bool :=
  str_in source [TrustInternal; TrustProvider].

Definition Decide (a : Assessment) : Decision_ :=
  if negb (knownStage (Stage a)) then
    deny CodeUnknownStage (Sprintf "toolpolicy: stage is unknown" [])
  else if negb (trustedSource (Trust a)) then
    deny CodeUntrustedSource (Sprintf "toolpolicy: trust source is unknown or external" [])
  else if ReadOnlyHint a && negb (String.eqb (ReadOnlyHintTrust a) TrustInternal) then
    deny CodeExternalHint (Sprintf "toolpolicy: external read-only hint is not trusted" [])
  else if String.eqb (Stage a) StagePlan then
    if negb (PlanSafe (Capabilities a)) then
      deny CodeCapabilityDenied
        (Sprintf "toolpolicy: plan stage requires plan-safe read-only capability" [])
    else allow (Sprintf "toolpolicy: capability allowed for stage" [])
  else if String.eqb (Stage a) StageReadOnly then
    if negb (ReadOnly (Capabilities a)) then
      deny CodeCapabilityDenied
        (Sprintf "toolpolicy: read-only stage requires read-only capability" [])
    else allow (Sprintf "toolpolicy: capability allowed for stage" [])
  else allow (Sprintf "toolpolicy: execution stage leaves write gating to runtime owners" []).

(** ** shell.go: word splitting *)

Record shellWordScanner := mkScanner {
  words : list string;
  current : string;
  inSingleQuote : bool;
  tokenStarted : bool;
}.

Definition new_scanner : shellWordScanner := mkScanner [] EmptyString false false.

Definition rune_of (a : ascii) : rune := N_of_ascii a.

(** The runes of [& ; | < > \ double-quote ` $ ( ) { } [ ] * ? ! newline return]. *)
Definition shell_syntax_runes : list rune :=
  (rune_of <$> ["&"; ";"; "|"; "<"; ">"; "\"; "`"; "$"; "("; ")"; "{"; "}"; "["; "]";
                "*"; "?"; "!"]%char) ++ [0x22; 0x0A; 0x0D]%N.

Definition isShellSyntaxRune (r : rune) : bool := existsb (N.eqb r) shell_syntax_runes.

Definition quote_rune : rune := 0x27%N.

Definition consumeQuoted (s : shellWordScanner) (r : rune) : result message shellWordScanner :=
  if (r =? quote_rune)%N then Ok (mkScanner (words s) (current s) false true)
  else if (r =? 0x0A)%N || (r =? 0x0D)%N || (r =? 0)%N then
    Err (Sprintf "toolpolicy: shell quoted argument contains a control character" [])
  else Ok (mkScanner (words s) (current s +:+ encode_rune r) (inSingleQuote s) (tokenStarted s)).

Definition flush (s : shellWordScanner) : shellWordScanner :=
  if negb (tokenStarted s) && (String.length (current s) =? 0)%nat then s
  else mkScanner (words s ++ [current s]) EmptyString (inSingleQuote s) false.

Definition consume (s : shellWordScanner) (r : rune) : result message shellWordScanner :=
  if inSingleQuote s then consumeQuoted s r
  else if is_space r then Ok (flush s)
  else if (r =? quote_rune)%N then Ok (mkScanner (words s) (current s) true true)
  else if isShellSyntaxRune r then
    Err (Sprintf "toolpolicy: shell syntax %q is not allowed" [encode_rune r])
  else Ok (mkScanner (words s) (current s +:+ encode_rune r) (inSingleQuote s) true).

Definition finish (s : shellWordScanner) : result message (list string) :=
  if inSingleQuote s then Err (Sprintf "toolpolicy: unterminated shell quote" [])
  else Ok (words (flush s)).

Definition splitShellWords (command : string) : result message (list string) :=
  let command := TrimSpace command in
  if String.eqb command EmptyString then Ok []
  else s ← fold_result consume (runes command) new_scanner; finish s.

(** ** shell.go: argument tables *)

Definition isDeniedShellCommand (name : string) : bool :=
  str_in name
    ["bash"; "bg"; "disown"; "exec"; "fg"; "fish"; "jobs"; "kill"; "killall";
     "nohup"; "osascript"; "pkill"; "screen"; "setsid"; "sh"; "sleep"; "sudo";
     "su"; "tmux"; "wait"; "zsh"].

Definition isDangerousShellArg (arg : string) : bool :=
  str_in arg
    ["-c"; "-delete"; "-exec"; "-i"; "--command"; "--config-env"; "--delete";
     "--exec"; "--exec-path"; "--ext-diff"; "--in-place"; "--out-dir"; "--output";
     "--outfile"; "--receive-pack"; "--textconv"; "--upload-pack"].

Definition hasDangerousShellArgPrefix (arg : string) : bool :=
  existsb (HasPrefix arg)
    ["--config-env="; "--exec="; "--exec-path="; "--out-dir="; "--output=";
     "--outfile="; "--receive-pack="; "--upload-pack="].

Definition isGitBranchReadOnlyFlag (arg : string) : bool :=
  str_in arg
    ["--all"; "--color"; "--column"; "--list"; "--no-color"; "--no-column";
     "--remotes"; "--show-current"; "-a"; "-r"; "-v"; "-vv"].

Definition isGitBranchOptionalValueFlag (arg : string) : bool :=
  str_in arg ["--contains"; "--merged"; "--no-merged"].

Definition isGitBranchRequiredValueFlag (arg : string) : bool :=
  str_in arg ["--format"; "--points-at"; "--sort"].

Fixpoint firstDangerousShellArg (args : list string) : string :=
  match args with
  | [] => EmptyString
  | arg :: args =>
      if isDangerousShellArg arg then arg
      else if hasDangerousShellArgPrefix arg then arg
      else firstDangerousShellArg args
  end.

Definition allowNoArgs (args : list string) : bool := (length args =? 0)%nat.
Definition allowAnyReadOnlyArgs (_ : list string) : bool := true.
Definition allowPathReaderArgs (args : list string) : bool := (0 <? length args)%nat.

Fixpoint allowRipgrepArgs (args : list string) : bool :=
  match args with
  | [] => true
  | arg :: args => if HasPrefix arg "--pre" then false else allowRipgrepArgs args
  end.

(** ** shell.go: git *)

Definition hasGitBranchValue (rest : list string) : bool :=
  match rest with
  | [] => false
  | v :: _ => negb (String.eqb v EmptyString) && negb (HasPrefix v "-")
  end.

Definition git_branch_inline_flags : list string :=
  ["--contains"; "--merged"; "--no-merged"; "--format"; "--points-at"; "--sort"; "--list"].

Definition gitBranchInlineValueFlag (arg : string) : option string :=
  List.find (fun flag =>
    HasPrefix arg (flag +:+ "=") &&
    negb (String.eqb (TrimPrefix arg (flag +:+ "=")) EmptyString)) git_branch_inline_flags.

Definition markListMode (listMode : bool) (flag : string) : bool :=
  if String.eqb flag "--list" then true else listMode.

(** [None]: not a read-only flag; [Some m]: consumed, with the list mode after it. *)
Definition consumeReadOnlyFlag (listMode : bool) (arg : string) : option bool :=
  if isGitBranchReadOnlyFlag arg then Some (markListMode listMode arg)
  else match gitBranchInlineValueFlag arg with
       | Some flag => Some (markListMode listMode flag)
       | None => None
       end.

(** The results are [(consumed, ok, handled)]. *)
Definition consumeGitBranchOptionalValue (arg : string) (rest : list string)
  : nat * bool * bool :=
  if negb (isGitBranchOptionalValueFlag arg) then (0, false, false)
  else if hasGitBranchValue rest then (1, true, true)
  else (0, true, true).

Definition consumeGitBranchRequiredValue (arg : string) (rest : list string)
  : nat * bool * bool :=
  if negb (isGitBranchRequiredValueFlag arg) then (0, false, false)
  else (1, hasGitBranchValue rest, true).

(** [gitBranchArgState.consume]: the list mode after it, the values consumed, ok. *)
Definition git_branch_consume (listMode : bool) (arg : string) (rest : list string)
  : bool * nat * bool :=
  if String.eqb arg EmptyString then (listMode, 0, false)
  else match consumeReadOnlyFlag listMode arg with
  | Some m => (m, 0, true)
  | None =>
      let '(consumed, ok, handled) := consumeGitBranchOptionalValue arg rest in
      if handled then (listMode, consumed, ok)
      else
        let '(consumed, ok, handled) := consumeGitBranchRequiredValue arg rest in
        if handled then (listMode, consumed, ok)
        else if HasPrefix arg "-" then (listMode, 0, false)
        else (listMode, 0, listMode)
  end.

(** The loop of [allowGitBranchArgs]; [skip] is what [i += consumed] passes over. *)
Fixpoint git_branch_loop (listMode : bool) (skip : nat) (args : list string) : bool :=
  match args with
  | [] => true
  | arg :: rest =>
      match skip with
      | S k => git_branch_loop listMode k rest
      | O =>
          let '(m, consumed, ok) := git_branch_consume listMode arg rest in
          if ok then git_branch_loop m consumed rest else false
      end
  end.

Definition allowGitBranchArgs (args : list string) : bool := git_branch_loop false 0 args.

Fixpoint trimGitReadOnlyGlobalArgs (args : list string) : list string :=
  match args with
  | a :: rest => if String.eqb a "--no-pager" then trimGitReadOnlyGlobalArgs rest else args
  | [] => []
  end.

Definition allowGitArgs (args : list string) : bool :=
  match trimGitReadOnlyGlobalArgs args with
  | [] => false
  | sub :: rest =>
      if String.eqb sub "branch" then allowGitBranchArgs rest
      else if str_in sub ["diff"; "log"; "rev-parse"; "show"; "status"] then true
      else if String.eqb sub "worktree" then
        match rest with a :: _ => String.eqb a "list" | [] => false end
      else false
  end.

(** ** shell.go: sed *)

Definition is_digit_rune (r : rune) : bool := in_range 0x30 0x39 r.
Definition allDigits (value : string) : bool := forallb is_digit_rune (runes value).

Definition isSedPrintProgram (program : string) : bool :=
  if negb (String.eqb (TrimSpace program) program) || negb (HasSuffix program "p") then false
  else
    let body := TrimSuffix program "p" in
    if String.eqb body EmptyString then false
    else
      let parts := split_on "," body in
      if (2 <? length parts)%nat then false
      else forallb (fun part => negb (String.eqb part EmptyString) && allDigits part) parts.

Definition allowSedArgs (args : list string) : bool :=
  match args with
  | a :: p :: _ => if String.eqb a "-n" then isSedPrintProgram p else false
  | _ => false
  end.

(** ** shell.go: classification *)

Definition readOnlyShellCommandPolicy (name : string) : option (list string -> bool) :=
  if String.eqb name "cat" then Some allowPathReaderArgs
  else if String.eqb name "git" then Some allowGitArgs
  else if str_in name ["grep"; "head"; "ls"; "nl"; "tail"; "wc"] then Some allowAnyReadOnlyArgs
  else if String.eqb name "pwd" then Some allowNoArgs
  else if String.eqb name "rg" then Some allowRipgrepArgs
  else if String.eqb name "sed" then Some allowSedArgs
  else None.

Definition ClassifyShell (command : string) : Decision_ :=
  match splitShellWords command with
  | Err e => deny CodeShellSyntaxDenied e
  | Ok [] => deny CodeShellEmptyCommand (Sprintf "toolpolicy: shell command is empty" [])
  | Ok (name :: args) =>
      if isDeniedShellCommand name then
        deny CodeShellCommandDenied
          (Sprintf "toolpolicy: shell command %q is not read-only" [name])
      else match readOnlyShellCommandPolicy name with
      | None =>
          deny CodeShellCommandDenied
            (Sprintf "toolpolicy: shell command %q is not in read-only table" [name])
      | Some policy =>
          let badArg := firstDangerousShellArg args in
          if negb (String.eqb badArg EmptyString) then
            deny CodeShellArgumentDenied
              (Sprintf "toolpolicy: shell argument %q is not allowed" [badArg])
          else if negb (policy args) then
            deny CodeShellCommandDenied
              (Sprintf "toolpolicy: shell command %q is outside read-only table" [name])
          else allow (Sprintf "toolpolicy: shell command is read-only" [])
      end
  end.

Example classify_ex1 : Allow (ClassifyShell "git branch --list 'feature/x'") = true.
Proof. reflexivity. Qed.
Example classify_ex2 : Allow (ClassifyShell "git branch -D main") = false.
Proof. reflexivity. Qed.
Example classify_ex3 : Code (ClassifyShell "git status && rm -rf .") = CodeShellSyntaxDenied.
Proof. reflexivity. Qed.
Example classify_ex4 : Allow (ClassifyShell "sed -n '10,20p' main.go") = true.
Proof. reflexivity. Qed.

(** ** Word splitting: acceptance and round trip *)

(** The runes of a command other than the quotes, each with whether it stands
    inside single quotes, and whether a quote is left open. *)
Fixpoint quote_context (q : bool) (rs : list rune) : list (bool * rune) * bool :=
  match rs with
  | [] => ([], q)
  | r :: rs =>
      if (r =? quote_rune)%N then quote_context (negb q) rs
      else let '(l, q') := quote_context q rs in ((q, r) :: l, q')
  end.

(** What the splitter accepts in each context: outside quotes white space or any
    rune without shell meaning, inside quotes anything but newline, return and NUL. *)
Definition rune_accepted (c : bool * rune) : bool :=
  let '(q, r) := c in
  if q then negb ((r =? 0x0A)%N || (r =? 0x0D)%N || (r =? 0)%N)
  else is_space r || negb (isShellSyntaxRune r).

Lemma flush_quote s : inSingleQuote (flush s) = inSingleQuote s.
Proof. unfold flush. by destruct (_ && _). Qed.

Lemma consume_step s r :
  match consume s r with
  | Ok s' =>
      inSingleQuote s' = (if (r =? quote_rune)%N then negb (inSingleQuote s) else inSingleQuote s)
      /\ ((r =? quote_rune)%N = false -> rune_accepted (inSingleQuote s, r) = true)
  | Err _ => (r =? quote_rune)%N = false /\ rune_accepted (inSingleQuote s, r) = false
  end.
Proof.
  unfold consume, consumeQuoted, rune_accepted.
  destruct (inSingleQuote s) eqn:Hq; simpl.
  - destruct (r =? quote_rune)%N eqn:Hr; simpl; [done|]. by destruct (_ || _).
  - destruct (is_space r) eqn:Hsp; simpl.
    + rewrite flush_quote, Hq. destruct (r =? quote_rune)%N eqn:Hr; [|done].
      go_bool; by subst r.
    + destruct (r =? quote_rune)%N eqn:Hr; simpl; [done|].
      by destruct (isShellSyntaxRune r).
Qed.

Lemma scan_accepts rs s :
  match fold_result consume rs s with
  | Ok s' => forallb rune_accepted (fst (quote_context (inSingleQuote s) rs)) = true
             /\ inSingleQuote s' = snd (quote_context (inSingleQuote s) rs)
  | Err _ => forallb rune_accepted (fst (quote_context (inSingleQuote s) rs)) = false
  end.
Proof.
  revert s; induction rs as [|r rs IH]; intros s; [done|]. simpl.
  pose proof (consume_step s r) as Hc. destruct (consume s r) as [s'|e]; simpl.
  - destruct Hc as [Hq Hacc]. specialize (IH s').
    destruct (r =? quote_rune)%N eqn:Hr; rewrite Hq in IH; [done|].
    destruct (quote_context (inSingleQuote s) rs) as [l q'] eqn:E; simpl in *.
    specialize (Hacc eq_refl). by rewrite Hacc.
  - destruct Hc as [-> Hacc].
    destruct (quote_context (inSingleQuote s) rs) as [l q']; simpl in *. by rewrite Hacc.
Qed.

(** Text that single quotes can carry through the splitter. *)
Definition quotable (w : string) : Prop :=
  utf8_valid w /\
  Forall (fun r => negb (existsb (N.eqb r) [quote_rune; 0x0A; 0x0D; 0]%N) = true) (runes w).

#[export] Instance quotable_dec w : Decision (quotable w).
Proof. unfold quotable, utf8_valid. apply _. Defined.

Definition shell_quote (w : string) : string := String "'" (w +:+ "'").
Fixpoint join_quoted (ws : list string) : string :=
  match ws with
  | [] => EmptyString
  | [w] => shell_quote w
  | w :: ws => shell_quote w +:+ String " " (join_quoted ws)
  end.

Lemma scan_quoted rs ws cur st :
  Forall (fun r => negb (existsb (N.eqb r) [quote_rune; 0x0A; 0x0D; 0]%N) = true) rs ->
  fold_result consume rs (mkScanner ws cur true st)
  = Ok (mkScanner ws (cur +:+ encode_runes rs) true st).
Proof.
  intros H. revert cur. induction H as [|r rs Hr _ IH]; intros cur; simpl.
  - by rewrite str_app_nil_r.
  - apply negb_true_iff in Hr. simpl in Hr. rewrite !orb_false_iff in Hr. destruct Hr as (H1 & H2 & H3 & H4 & _).
    unfold consume, consumeQuoted; simpl. rewrite H1, H2, H3, H4. simpl.
    by rewrite IH, str_app_assoc.
Qed.

Lemma scan_word w ws rest :
  quotable w ->
  fold_result consume (runes (shell_quote w) ++ rest) (mkScanner ws EmptyString false false)
  = fold_result consume rest (mkScanner ws w false true).
Proof.
  intros [Hv Hw]. unfold shell_quote.
  rewrite runes_cons_ascii, runes_app_ascii by done. simpl.
  rewrite <- app_assoc, fold_result_app, scan_quoted by done. simpl. by rewrite str_nil_app, Hv.
Qed.

Lemma runes_shell_quote_app w q t :
  is_ascii_byte q = true ->
  runes (shell_quote w +:+ String q t) = runes (shell_quote w) ++ N_of_ascii q :: runes t.
Proof. apply runes_app_ascii. Qed.

Lemma scan_join ws acc :
  Forall quotable ws -> ws <> [] ->
  (s ← fold_result consume (runes (join_quoted ws)) (mkScanner acc EmptyString false false);
   finish s) = Ok (acc ++ ws).
Proof.
  intros H; revert acc. induction H as [|w ws Hw Hws IH]; intros acc Hne; [done|].
  destruct ws as [|w' ws].
  - cbn [join_quoted]. rewrite <- (app_nil_r (runes (shell_quote w))), scan_word by done. done.
  - change (join_quoted (w :: w' :: ws)) with (shell_quote w +:+ String " " (join_quoted (w' :: ws))).
    rewrite runes_shell_quote_app, scan_word by done. simpl.
    unfold flush; simpl. rewrite IH by done. by rewrite <- app_assoc.
Qed.

Lemma join_quoted_shape w ws :
  exists c1 l c2, chunks (join_quoted (w :: ws)) = c1 :: l ++ [c2]
    /\ is_space c1.1 = false /\ is_space c2.1 = false.
Proof.
  assert (forall w, exists l, chunks (shell_quote w)
           = (39%N, "'") :: l ++ [(39%N, "'")]) as Hone.
  { intros v. exists (chunks v). unfold shell_quote.
    by rewrite chunks_cons_ascii, chunks_app_ascii. }
  revert w. induction ws as [|w' ws IH]; intros w.
  - destruct (Hone w) as [l Hl]. exists (39%N, "'"), l, (39%N, "'"). by rewrite <- Hl.
  - change (join_quoted (w :: w' :: ws)) with (shell_quote w +:+ String " " (join_quoted (w' :: ws))).
    rewrite chunks_app_ascii, chunks_cons_ascii by done.
    destruct (Hone w) as [l ->]. destruct (IH w') as (c1 & l' & c2 & -> & _ & H2).
    exists (39%N, "'"), (l ++ (39%N, "'") :: (N_of_ascii " ", " ") :: c1 :: l'), c2.
    split; [|done]. simpl. rewrite <- !app_assoc. done.
Qed.

Lemma join_quoted_trimmed w ws : TrimSpace (join_quoted (w :: ws)) = join_quoted (w :: ws).
Proof.
  destruct (join_quoted_shape w ws) as (c1 & l & c2 & Hc & H1 & H2).
  unfold TrimSpace. rewrite Hc, trim_chunks_id by done. rewrite <- Hc.
  apply chunk_bytes_chunks.
Qed.

(** ** Capability bits *)

Lemma Has_testbit c i : Has c (2 ^ i) = N.testbit c i.
Proof.
  unfold Has. apply eq_true_iff_eq. rewrite N.eqb_eq. split.
  - intros H. apply (f_equal (fun n => N.testbit n i)) in H.
    by rewrite N.land_spec, N.pow2_bits_true, andb_true_r in H.
  - intros H. apply N.bits_inj; intros j. rewrite N.land_spec, N.pow2_bits_eqb.
    destruct (N.eqb_spec i j) as [<-|]; [by rewrite H|apply andb_false_r].
Qed.

Lemma HasAny_unsafe c :
  HasAny c readOnlyUnsafeCapabilities = false <->
  forall i, (2 <= i <= 9)%N -> N.testbit c i = false.
Proof.
  unfold HasAny. rewrite negb_false_iff, N.eqb_eq. split.
  - intros H i Hi. apply (f_equal (fun n => N.testbit n i)) in H.
    rewrite N.land_spec, N.bits_0 in H.
    assert (N.testbit readOnlyUnsafeCapabilities i = true) as Hb.
    { assert (i = 2 \/ i = 3 \/ i = 4 \/ i = 5 \/ i = 6 \/ i = 7 \/ i = 8 \/ i = 9)%N
        as Hc by lia. by destruct_or! Hc; subst i. }
    by rewrite Hb, andb_true_r in H.
  - intros H. apply N.bits_inj; intros i. rewrite N.land_spec, N.bits_0.
    destruct (decide (2 <= i <= 9)%N) as [Hi|Hi]; [by rewrite H|].
    assert (N.testbit readOnlyUnsafeCapabilities i = false) as ->; [|apply andb_false_r].
    destruct (decide (i <= 9)%N).
    + assert (i = 0 \/ i = 1)%N as [-> | ->] by lia; done.
    + apply N.bits_above_log2. change (N.log2 readOnlyUnsafeCapabilities) with 9%N. lia.
Qed.

(** ** git branch arguments *)

(** Arguments starting with a dash that [git branch] takes without changing refs. *)
Definition git_branch_flag_ok (a : string) : Prop :=
  isGitBranchReadOnlyFlag a = true \/ isGitBranchOptionalValueFlag a = true
  \/ isGitBranchRequiredValueFlag a = true \/ is_Some (gitBranchInlineValueFlag a).

Definition takes_value (a : string) : Prop :=
  isGitBranchOptionalValueFlag a = true \/ isGitBranchRequiredValueFlag a = true.

Definition enters_list_mode (a : string) : Prop :=
  a = "--list" \/ gitBranchInlineValueFlag a = Some "--list".

Lemma markListMode_false a : markListMode false a = true -> a = "--list".
Proof. unfold markListMode. destruct (String.eqb a "--list") eqn:E; by go_bool. Qed.

(** One accepted argument: what it is, and what may be skipped after it. *)
Lemma git_branch_consume_ok m arg rest m' k :
  git_branch_consume m arg rest = (m', k, true) ->
  k <= 1 /\ (k = 1 -> hasGitBranchValue rest = true /\ takes_value arg)
  /\ (HasPrefix arg "-" = true -> git_branch_flag_ok arg)
  /\ (HasPrefix arg "-" = false -> m = true \/ git_branch_flag_ok arg)
  /\ (m = false -> m' = true -> enters_list_mode arg).
Proof.
  unfold git_branch_consume, consumeReadOnlyFlag, consumeGitBranchOptionalValue,
    consumeGitBranchRequiredValue, git_branch_flag_ok, takes_value, enters_list_mode.
  destruct (String.eqb arg EmptyString); [done|].
  destruct (isGitBranchReadOnlyFlag arg) eqn:Hro.
  { intros [= <- <-]. split_and!; [lia|done|by left|by right; left|].
    intros -> H. left. by apply markListMode_false. }
  destruct (gitBranchInlineValueFlag arg) as [f|] eqn:Hin.
  { intros [= <- <-]. split_and!; [lia|done|eauto 6|eauto 6|].
    intros -> ->%markListMode_false. by right. }
  destruct (isGitBranchOptionalValueFlag arg) eqn:Hopt; simpl.
  { destruct (hasGitBranchValue rest) eqn:Hv; intros [= <- <-]; split_and!; lia || naive_solver. }
  destruct (isGitBranchRequiredValueFlag arg) eqn:Hreq; simpl.
  { intros [= <- <- Hv]. split_and!; lia || naive_solver. }
  destruct (HasPrefix arg "-") eqn:Hd; [done|].
  intros [= <- <- ->]. split_and!; lia || naive_solver.
Qed.

Lemma hasGitBranchValue_nodash v rest :
  hasGitBranchValue (v :: rest) = true -> HasPrefix v "-" = false.
Proof. simpl. intros. by go_bool. Qed.

(** An inline flag starts with a dash, so a positional argument is none of the flags. *)
Lemma positional_no_flag a : HasPrefix a "-" = false -> git_branch_flag_ok a -> False.
Proof.
  intros Hd. assert (forall f l, str_in a l = true -> Forall (fun s => HasPrefix s "-" = true) l ->
    f = a -> False) as Hin.
  { intros f l H1 H2 ->. apply str_in_elem in H1. rewrite Forall_forall in H2.
    apply H2 in H1. congruence. }
  unfold git_branch_flag_ok. intros [H|[H|[H|[f H]]]].
  1-3: eapply Hin; [exact H| |reflexivity]; repeat constructor.
  apply List.find_some in H as [Hl Hp]. go_bool.
  assert (exists t, f = String "-" t) as [t ->].
  { simpl in Hl. destruct_or! Hl; subst; by eexists. }
  apply HasPrefix_iff in H as [u ->]. done.
Qed.

Lemma git_branch_loop_flags m k args :
  git_branch_loop m k args = true -> k <= 1 -> (k = 1 -> hasGitBranchValue args = true) ->
  Forall (fun a => HasPrefix a "-" = true -> git_branch_flag_ok a) args.
Proof.
  revert m k; induction args as [|a rest IH]; intros m k Hl Hk Hv; [constructor|].
  destruct k as [|k]; simpl in Hl.
  - destruct (git_branch_consume m a rest) as [[m' c] []] eqn:Hc; [|done].
    apply git_branch_consume_ok in Hc as (H1 & H2 & H3 & _ & _).
    constructor; [done|]. apply (IH m' c); [done..|]. intros Hc1. by apply H2.
  - assert (k = 0) as -> by lia. constructor; [|by apply (IH m 0); auto with lia].
    rewrite (hasGitBranchValue_nodash _ _ (Hv eq_refl)). done.
Qed.

Lemma git_branch_loop_values k args :
  git_branch_loop false k args = true -> k <= 1 -> (k = 1 -> hasGitBranchValue args = true) ->
  Forall (fun a => ~ enters_list_mode a) args ->
  forall i a, args !! i = Some a -> HasPrefix a "-" = false ->
  (i = 0 /\ k = 1) \/ exists j f, i = S j /\ args !! j = Some f /\ takes_value f.
Proof.
  revert k; induction args as [|b rest IH]; intros k Hl Hk Hv Hnl i a Hi Ha; [done|].
  inversion_clear Hnl as [|? ? Hnb Hnr]. destruct k as [|k]; simpl in Hl.
  - destruct (git_branch_consume false b rest) as [[m' c] []] eqn:Hc; [|done].
    apply git_branch_consume_ok in Hc as (H1 & H2 & H3 & H4 & H5).
    destruct i as [|i]; simplify_eq/=.
    { destruct (H4 Ha) as [?|?]; [done|]. by destruct (positional_no_flag a). }
    destruct m'; [destruct Hnb; by apply H5|].
    destruct (IH c Hl H1 (fun e => proj1 (H2 e)) Hnr i a Hi Ha) as [[-> ->]|(j & f & -> & Hf & Ht)].
    + right. exists 0, b. split_and!; [done..|]. by apply H2.
    + right. exists (S j), f. done.
  - assert (k = 0) as -> by lia. destruct i as [|i]; [by left|]. simpl in Hi.
    destruct (IH 0 Hl ltac:(lia) ltac:(done) Hnr i a Hi Ha) as [[_ ?]|(j & f & -> & Hf & Ht)]; [done|].
    right. by exists (S j), f.
Qed.

(** ** sed programs *)

Definition digits (s : string) : bool := str_forall (fun a => is_digit_rune (N_of_ascii a)) s.

(** The grammar [[0-9]+(,[0-9]+)?p]. *)
Inductive sed_print_program : string -> Prop :=
| sed_line d : digits d = true -> d <> EmptyString -> sed_print_program (d +:+ "p")
| sed_lines d1 d2 :
    digits d1 = true -> d1 <> EmptyString -> digits d2 = true -> d2 <> EmptyString ->
    sed_print_program ((d1 +:+ String "," d2) +:+ "p").

Lemma allDigits_digits s : allDigits s = digits s.
Proof.
  apply runes_forallb_ascii. intros r Hr. unfold is_digit_rune, in_range.
  apply andb_false_iff. right. apply N.leb_gt. lia.
Qed.

Lemma digits_nocomma s : digits s = true -> str_forall (fun a => negb (Ascii.eqb a ",")) s = true.
Proof.
  unfold digits. induction s as [|a s IH]; [done|]. simpl. intros H. go_bool.
  rewrite IH by done. rewrite andb_true_r. apply negb_true_iff.
  destruct (Ascii.eqb a ",") eqn:E; [|done]. apply Ascii.eqb_eq in E as ->. done.
Qed.

Lemma sed_body_runes s :
  str_forall (fun a => is_digit_rune (N_of_ascii a) || Ascii.eqb a "," || Ascii.eqb a "p") s = true ->
  Forall (fun r => is_space r = false) (runes s).
Proof.
  induction s as [|a s IH]; [constructor|]. simpl. intros H. go_bool.
  assert (is_ascii_byte a = true /\ is_space (N_of_ascii a) = false) as [Ha Hs].
  { rewrite !orb_true_iff in H. destruct H as [[H|H%Ascii.eqb_eq]|H%Ascii.eqb_eq]; [|by subst..].
    unfold is_digit_rune, in_range, is_ascii_byte, is_space, in_range in *. go_bool. split.
    - apply N.ltb_lt. lia.
    - repeat (apply orb_false_iff; split); rewrite ?andb_false_iff, ?N.leb_gt, ?N.eqb_neq; lia. }
  rewrite runes_cons_ascii by done. constructor; auto.
Qed.

Lemma digits_weaken (f : ascii -> bool) s :
  (forall a, is_digit_rune (N_of_ascii a) = true -> f a = true) ->
  digits s = true -> str_forall f s = true.
Proof.
  intros Hf. unfold digits. induction s as [|a s IH]; [done|]. simpl. intros H. go_bool.
  rewrite Hf, IH; done.
Qed.

Lemma sed_print_program_trimmed s : sed_print_program s -> TrimSpace s = s.
Proof.
  intros Hs. apply TrimSpace_nospace, sed_body_runes.
  assert (forall d, digits d = true -> str_forall
    (fun a => is_digit_rune (N_of_ascii a) || Ascii.eqb a "," || Ascii.eqb a "p") d = true) as Hd.
  { intros d. apply digits_weaken. by intros a ->. }
  destruct Hs as [d H _|d1 d2 H1 _ H2 _]; rewrite !str_forall_app; simpl;
    rewrite !Hd by done; done.
Qed.

Lemma str_app_not_nil (x y : string) : x <> EmptyString -> (x +:+ y) <> EmptyString.
Proof. by destruct x. Qed.

(** ** Newlines *)

Definition plain_rune (r : rune) : bool :=
  negb (is_space r || (r =? quote_rune)%N || isShellSyntaxRune r).

Lemma consume_plain r ws cur st :
  plain_rune r = true ->
  consume (mkScanner ws cur false st) r = Ok (mkScanner ws (cur +:+ encode_rune r) false true).
Proof.
  unfold plain_rune, consume. simpl. intros H.
  apply negb_true_iff in H. rewrite !orb_false_iff in H. destruct H as [[-> ->] ->]. done.
Qed.

Lemma scan_plain rs ws cur st :
  Forall (fun r => plain_rune r = true) rs ->
  fold_result consume rs (mkScanner ws cur false st)
  = Ok (mkScanner ws (cur +:+ encode_runes rs) false (st || negb (bool_decide (rs = [])))).
Proof.
  intros H. revert cur st. induction H as [|r rs Hr _ IH]; intros cur st; simpl.
  - by rewrite str_app_nil_r, orb_false_r.
  - rewrite consume_plain by done. simpl. rewrite IH, str_app_assoc. by rewrite orb_true_r.
Qed.

(** A word the splitter takes as it is: no white space, quote or shell syntax. *)
Definition plain_word (w : string) : Prop :=
  w <> EmptyString /\ utf8_valid w /\ Forall (fun r => plain_rune r = true) (runes w).

#[export] Instance plain_word_dec w : Decision (plain_word w).
Proof. unfold plain_word, utf8_valid. apply _. Defined.

Lemma chunks_nonempty w : w <> EmptyString -> chunks w <> [].
Proof. destruct w; [done|]. by rewrite chunks_step. Qed.

Lemma plain_chunk_nospace w c : plain_word w -> c ∈ chunks w -> is_space c.1 = false.
Proof.
  intros (_ & _ & H) Hc. unfold runes in H. rewrite Forall_fmap, Forall_forall in H.
  specialize (H c Hc). unfold plain_rune in H. simpl in H. by go_bool.
Qed.

Lemma two_lines_trimmed w1 w2 :
  plain_word w1 -> plain_word w2 ->
  TrimSpace (w1 +:+ String "010" w2) = w1 +:+ String "010" w2.
Proof.
  intros P1 P2. unfold TrimSpace. rewrite <- (chunk_bytes_chunks (w1 +:+ String "010" w2)) at 2.
  f_equal. rewrite chunks_app_ascii, chunks_cons_ascii by done.
  pose proof (chunks_nonempty w1 (proj1 P1)) as H1.
  pose proof (chunks_nonempty w2 (proj1 P2)) as H2.
  pose proof (fun c => plain_chunk_nospace w1 c P1) as S1.
  pose proof (fun c => plain_chunk_nospace w2 c P2) as S2.
  destruct (chunks w1) as [|c1 l1]; [done|].
  destruct (chunks w2) as [|c2 l2 _] using rev_ind; [done|].
  replace ((c1 :: l1) ++ (N_of_ascii "010", "
") :: l2 ++ [c2])
    with (c1 :: (l1 ++ (N_of_ascii "010", "
") :: l2) ++ [c2]) by (simpl; by rewrite <- app_assoc).
  apply trim_chunks_id; [apply S1; by left|apply S2; set_solver].
Qed.

(** A newline outside quotes splits words like a blank does. *)
Lemma split_two_lines w1 w2 :
  plain_word w1 -> plain_word w2 ->
  splitShellWords (w1 +:+ String "010" w2) = Ok [w1; w2].
Proof.
  intros P1 P2. unfold splitShellWords. rewrite two_lines_trimmed by done.
  assert (String.eqb (w1 +:+ String "010" w2) EmptyString = false) as ->.
  { apply String.eqb_neq, str_app_not_nil, P1. }
  rewrite runes_app_ascii, fold_result_app by done.
  destruct P1 as (E1 & V1 & F1), P2 as (E2 & V2 & F2).
  assert (forall w, w <> EmptyString -> bool_decide (runes w = []) = false) as Hne.
  { intros w Hw. apply bool_decide_eq_false. unfold runes. intros H%fmap_nil_inv.
    by apply (chunks_nonempty w). }
  unfold new_scanner. rewrite scan_plain by done. simpl. rewrite str_nil_app, V1, Hne by done. simpl.
  unfold flush; simpl. rewrite scan_plain by done. simpl.
  rewrite str_nil_app, V2, Hne by done. done.
Qed.

(** ** Properties *)

(** The word splitter accepts a command exactly when every rune outside
    single quotes is white space or free of shell meaning, every rune inside them
    is no newline, return or NUL, and no quote is left open. *)
Theorem splitShellWords_accepts command :
  is_ok (splitShellWords command) = true <->
  let '(ctx, open) := quote_context false (runes (TrimSpace command)) in
  forallb rune_accepted ctx = true /\ open = false.
Proof.
  unfold splitShellWords.
  destruct (String.eqb (TrimSpace command) EmptyString) eqn:E; go_bool.
  { rewrite E. simpl. done. }
  pose proof (scan_accepts (runes (TrimSpace command)) new_scanner) as H. simpl in H.
  destruct (quote_context false (runes (TrimSpace command))) as [l q]; simpl in *.
  destruct (fold_result _ _ _) as [s|e]; simpl.
  - destruct H as [H1 H2]. unfold finish. rewrite H2. destruct q; naive_solver.
  - rewrite H. naive_solver.
Qed.

(** Quoting words with single quotes and joining them with blanks is undone by
    the splitter: no text that single quotes can carry is split, merged or altered. *)
Theorem splitShellWords_roundtrip ws :
  Forall quotable ws -> splitShellWords (join_quoted ws) = Ok ws.
Proof.
  intros H. destruct ws as [|w ws]; [done|].
  unfold splitShellWords. rewrite join_quoted_trimmed.
  assert (String.eqb (join_quoted (w :: ws)) EmptyString = false) as ->.
  { by destruct ws. }
  by apply (scan_join (w :: ws) []).
Qed.

Lemma splitShellWords_roundtrip_witness :
  splitShellWords (join_quoted ["rg"; "a b;c"; "src"]) = Ok ["rg"; "a b;c"; "src"].
Proof.
  apply (splitShellWords_roundtrip ["rg"; "a b;c"; "src"]).
  apply (bool_decide_unpack _). vm_compute. exact I.
Defined.

(** The classifier allows a command exactly when it splits into a command of
    the read-only table, no argument of which can start a program, write a file or
    configure a subprocess, and the command's own argument policy accepts the rest. *)
Theorem ClassifyShell_allow_iff command :
  Allow (ClassifyShell command) = true <->
  exists name args policy,
    splitShellWords command = Ok (name :: args)
    /\ readOnlyShellCommandPolicy name = Some policy
    /\ Forall (fun a => isDangerousShellArg a = false /\ hasDangerousShellArgPrefix a = false) args
    /\ policy args = true.
Proof.
  assert (forall args, firstDangerousShellArg args = EmptyString <->
    Forall (fun a => isDangerousShellArg a = false /\ hasDangerousShellArgPrefix a = false) args) as Hd.
  { induction args as [|a args IH]; simpl; [done|]. rewrite Forall_cons, <- IH.
    destruct (isDangerousShellArg a) eqn:E1; [split; [by intros ->|naive_solver]|].
    destruct (hasDangerousShellArgPrefix a) eqn:E2; [split; [by intros ->|naive_solver]|].
    naive_solver. }
  assert (forall name p, readOnlyShellCommandPolicy name = Some p -> isDeniedShellCommand name = false) as Hn.
  { intros name p. unfold readOnlyShellCommandPolicy. intros Hp.
    destruct (isDeniedShellCommand name) eqn:E; [|done].
    apply str_in_elem in E. set_unfold in E. by destruct_or! E; subst name. }
  unfold ClassifyShell. destruct (splitShellWords command) as [[|name args]|e]; simpl.
  - split; [done|naive_solver].
  - destruct (isDeniedShellCommand name) eqn:E1.
    { simpl. split; [done|]. intros (n & a & p & [= <- <-] & Hp%Hn & _). congruence. }
    destruct (readOnlyShellCommandPolicy name) as [p|] eqn:E2; simpl; [|naive_solver].
    destruct (String.eqb (firstDangerousShellArg args) EmptyString) eqn:E3; go_bool; simpl.
    + apply Hd in E3. destruct (p args) eqn:E4; simpl; naive_solver.
    + split; [done|]. intros (n & a & p' & [= <- <-] & _ & Hf%Hd & _). done.
  - split; [done|naive_solver].
Qed.

(** A newline outside quotes is taken for a blank, so that a second command on
    the next line is classified as an argument of the first: [ls] followed by any
    plain word on a line of its own is allowed as read-only. *)
Theorem ClassifyShell_second_line w :
  plain_word w -> isDangerousShellArg w = false -> hasDangerousShellArgPrefix w = false ->
  Allow (ClassifyShell ("ls" +:+ String "010" w)) = true.
Proof.
  intros Hw H1 H2. unfold ClassifyShell.
  rewrite split_two_lines; [|apply (bool_decide_unpack _); by vm_compute|done].
  simpl. by rewrite H1, H2.
Qed.

Lemma ClassifyShell_second_line_witness :
  Allow (ClassifyShell ("ls" +:+ String "010" "reboot")) = true.
Proof.
  apply (ClassifyShell_second_line "reboot"); [|reflexivity..].
  apply (bool_decide_unpack _). vm_compute. exact I.
Defined.

(** Every dash argument of an allowed [git branch] is one of the read-only
    flags, and without [--list] every positional argument is the value of the flag
    in front of it, so no allowed form creates, renames or deletes a branch. *)
Theorem allowGitBranchArgs_read_only args :
  allowGitBranchArgs args = true ->
  Forall (fun a => HasPrefix a "-" = true -> git_branch_flag_ok a) args /\
  (Forall (fun a => ~ enters_list_mode a) args ->
   forall i a, args !! i = Some a -> HasPrefix a "-" = false ->
   exists j f, i = S j /\ args !! j = Some f /\ takes_value f).
Proof.
  intros H. split.
  - by apply (git_branch_loop_flags false 0); [|lia|].
  - intros Hl i a Hi Ha.
    destruct (git_branch_loop_values 0 args H ltac:(lia) ltac:(done) Hl i a Hi Ha) as [[_ ?]|?]; done.
Qed.

Lemma allowGitBranchArgs_read_only_witness :
  Forall (fun a => HasPrefix a "-" = true -> git_branch_flag_ok a) ["--merged"; "main"; "-vv"].
Proof. exact (proj1 (allowGitBranchArgs_read_only ["--merged"; "main"; "-vv"] eq_refl)). Defined.

(** The sed check accepts exactly the print programs [N p] and [N,M p] made of
    decimal line numbers. *)
Theorem isSedPrintProgram_grammar program :
  isSedPrintProgram program = true <-> sed_print_program program.
Proof.
  split.
  - unfold isSedPrintProgram. intros H.
    destruct (_ || _) eqn:E1 in H; [done|]. apply orb_false_iff in E1 as [_ E1]. go_bool.
    pose proof (HasSuffix_TrimSuffix _ _ E1) as Hp.
    set (body := TrimSuffix program "p") in *. clearbody body. subst program.
    destruct (String.eqb body EmptyString) eqn:E2; [done|].
    pose proof (str_join_split "," body) as Hj.
    destruct (split_on "," body) as [|d1 [|d2 [|]]]; [|..|done]; simpl in H, Hj; subst body; [done|..];
      go_bool; rewrite ?allDigits_digits in *; by constructor.
  - intros Hs. pose proof (sed_print_program_trimmed _ Hs) as Ht.
    unfold isSedPrintProgram. rewrite Ht, String.eqb_refl.
    assert (forall d, d <> EmptyString -> String.eqb d EmptyString = false) as Hne
      by (intros d; apply String.eqb_neq).
    destruct Hs as [d H1 H2|d1 d2 H1 H2 H3 H4];
      rewrite (proj1 (HasSuffix_app _ _)), (proj2 (HasSuffix_app _ _)); simpl.
    + rewrite (Hne d), split_on_none by (done || by apply digits_nocomma). simpl.
      by rewrite allDigits_digits, H1, Hne.
    + rewrite Hne by (by apply str_app_not_nil).
      rewrite split_on_app, split_on_none by (by apply digits_nocomma). simpl.
      by rewrite !allDigits_digits, H1, H3, !Hne.
Qed.

(** A tool is allowed exactly when the stage is known, the source is internal or
    provider, a read-only hint comes from inside, and, outside execution, no bit
    of the eight mutating capabilities is set and the plan-safe (in the read-only
    stage: or the read-only) bit is. *)
Theorem Decide_allow_iff a :
  Allow (Decide a) = true <->
  (Trust a = TrustInternal \/ Trust a = TrustProvider)
  /\ (ReadOnlyHint a = true -> ReadOnlyHintTrust a = TrustInternal)
  /\ (Stage a = StageExecution
      \/ Stage a = StagePlan /\ N.testbit (Capabilities a) 1 = true
         /\ (forall i, (2 <= i <= 9)%N -> N.testbit (Capabilities a) i = false)
      \/ Stage a = StageReadOnly
         /\ (N.testbit (Capabilities a) 0 = true \/ N.testbit (Capabilities a) 1 = true)
         /\ (forall i, (2 <= i <= 9)%N -> N.testbit (Capabilities a) i = false)).
Proof.
  rewrite <- HasAny_unsafe, <- !Has_testbit.
  change (2 ^ 0)%N with CapabilityReadOnly. change (2 ^ 1)%N with CapabilityPlanSafe.
  unfold Decide, PlanSafe, ReadOnly. destruct a as [st tr caps hint ht]; simpl.
  destruct (knownStage st) eqn:Hst; simpl; cycle 1.
  { split; [done|]. intros (_ & _ & Hs). destruct_or! Hs; destruct_and? Hs; subst; done. }
  destruct (trustedSource tr) eqn:Htr; simpl; cycle 1.
  { split; [done|]. by intros ([-> | ->] & _). }
  apply str_in_elem in Hst, Htr. set_unfold in Hst. set_unfold in Htr.
  destruct hint; simpl; [destruct (String.eqb_spec ht TrustInternal) as [->|]; simpl; [|naive_solver]|];
    destruct_or! Hst; subst st; simpl;
    destruct (HasAny caps readOnlyUnsafeCapabilities) eqn:Hany; simpl;
    destruct (Has caps CapabilityReadOnly), (Has caps CapabilityPlanSafe); simpl; naive_solver.
Qed.
