(* ===== verification/PolicyGate.v ===== *)
(** * Policy gate of the orchestration server

    Models [cmd/mcp-orch/orchestration/policy/policy.go]: the fail-closed decision
    on workflow writes, command execution, shared-file writes and provider
    identity overrides.  The string-typed enums stay strings. *)

From S2P Require Import Prelude.

Inductive Decision := DecisionAllow | DecisionDeny | DecisionFailFast.

Definition RiskLow : string := "low".
Definition RiskMedium : string := "medium".
Definition RiskHigh : string := "high".

Definition PermissionWorkflowWrite : string := "workflow.write".
Definition PermissionSharedFileWrite : string := "shared_file.write".
Definition PermissionCommandExecute : string := "command.execute".
Definition PermissionProviderIdentityOverride : string := "provider_identity.override".

Definition OperationWorkflowWrite : string := "workflow_write".
Definition OperationCommandExecution : string := "command_execution".
Definition OperationSharedFileWrite : string := "shared_file_write".
Definition OperationProviderIdentityOverride : string := "provider_identity_override".

Record Request := mkRequest {
  Operation : string;
  RiskClass : string;
  Permission : string;
  ApprovalRequired : bool;
}.

Record Result := mkResult { ResultDecision : Decision; ResultReason : string }.

Definition failFast (reason : string) : Result := mkResult DecisionFailFast reason.

Definition requirePermission (req : Request) (permission : string) : Result :=
  if negb (String.eqb (Permission req) permission)
  then mkResult DecisionDeny "permission denied"
  else mkResult DecisionAllow "policy allowed".

Definition requireHighRiskPermission (req : Request) (permission : string) : Result :=
  if negb (String.eqb (RiskClass req) RiskHigh)
  then failFast "operation requires high risk policy"
  else requirePermission req permission.

Definition Decide (req : Request) : Result :=
  if ApprovalRequired req then failFast "approval flow is not available"
  else if String.eqb (Operation req) EmptyString || String.eqb (RiskClass req) EmptyString
          || String.eqb (Permission req) EmptyString
  then failFast "policy request is incomplete"
  else if String.eqb (Operation req) OperationWorkflowWrite then
    requireHighRiskPermission req PermissionWorkflowWrite
  else if String.eqb (Operation req) OperationCommandExecution then
    if negb (String.eqb (RiskClass req) RiskHigh)
    then failFast "command execution requires high risk policy"
    else requirePermission req PermissionCommandExecute
  else if String.eqb (Operation req) OperationSharedFileWrite then
    requireHighRiskPermission req PermissionSharedFileWrite
  else if String.eqb (Operation req) OperationProviderIdentityOverride then
    requireHighRiskPermission req PermissionProviderIdentityOverride
  else failFast "unknown policy operation".

(** ** Specification: the one permission each operation needs *)

Definition permission_of (op : string) : option string :=
  if String.eqb op OperationWorkflowWrite then Some PermissionWorkflowWrite
  else if String.eqb op OperationCommandExecution then Some PermissionCommandExecute
  else if String.eqb op OperationSharedFileWrite then Some PermissionSharedFileWrite
  else if String.eqb op OperationProviderIdentityOverride
       then Some PermissionProviderIdentityOverride
  else None.

(** Splits a [Decide] call along its string tests. *)
Ltac decide_cases :=
  repeat (match goal with
  | |- context [String.eqb ?a ?b] => destruct (String.eqb_spec a b)
  end; simplify_eq/=).

(** The gate allows a request exactly when no approval is pending, its risk class
    is high and its permission is the one of its operation; a known high-risk
    operation with another permission is denied, and everything else fails fast. *)
Theorem Decide_spec req :
  ResultDecision (Decide req) =
    if negb (ApprovalRequired req) && String.eqb (RiskClass req) RiskHigh
       && negb (String.eqb (Permission req) EmptyString)
    then match permission_of (Operation req) with
         | Some p => if String.eqb (Permission req) p then DecisionAllow else DecisionDeny
         | None => DecisionFailFast
         end
    else DecisionFailFast.
Proof.
  destruct req as [op risk perm [|]]; [done|].
  unfold Decide, requireHighRiskPermission, requirePermission, permission_of. simpl.
  decide_cases; done.
Qed.
