(* ===== verification/NodeStatus.v ===== *)
(** * Life cycle of a DAG node

    Models [cmd/mcp-orch/orchestration/nodeexec/status.go] and the statuses of
    [types.go]: the whitelist of status transitions that the tool entry point
    checks before it writes a node. *)

From S2P Require Import Prelude GoStrings.

Definition NodeStatusPending : string := "pending".
Definition NodeStatusReady : string := "ready".
Definition NodeStatusRunning : string := "running".
Definition NodeStatusRetrying : string := "retrying".
Definition NodeStatusDone : string := "done".
Definition NodeStatusFailed : string := "failed".
Definition NodeStatusCancelled : string := "cancelled".
Definition NodeStatusSkipped : string := "skipped".
Definition NodeStatusWaitingHuman : string := "waiting_human".

Definition persistedNodeStatuses : list string :=
  [NodeStatusPending; NodeStatusReady; NodeStatusRunning; NodeStatusRetrying;
   NodeStatusDone; NodeStatusFailed; NodeStatusCancelled; NodeStatusSkipped;
   NodeStatusWaitingHuman].

Definition isPersistedNodeStatus (raw : string) : bool :=
  str_in (TrimSpace raw)
    [NodeStatusPending; NodeStatusReady; NodeStatusRunning; NodeStatusRetrying;
     NodeStatusDone; NodeStatusFailed; NodeStatusCancelled; NodeStatusSkipped;
     NodeStatusWaitingHuman].

Definition isReservedOrLegacyNodeStatus (raw : string) : bool :=
  str_in (TrimSpace raw) [NodeStatusSkipped; NodeStatusWaitingHuman; "awaiting_verify"].

(** [type transition struct]. *)
Record transition := mkTransition { From_ : string; To_ : string }.

Definition transition_eqb (a b : transition) : bool :=
  String.eqb (From_ a) (From_ b) && String.eqb (To_ a) (To_ b).

Definition isLegalTransition (tr : transition) : bool :=
  existsb (transition_eqb tr)
    [mkTransition NodeStatusPending NodeStatusReady;
     mkTransition NodeStatusPending NodeStatusCancelled;
     mkTransition NodeStatusReady NodeStatusRunning;
     mkTransition NodeStatusReady NodeStatusCancelled;
     mkTransition NodeStatusRunning NodeStatusDone;
     mkTransition NodeStatusRunning NodeStatusFailed;
     mkTransition NodeStatusRunning NodeStatusRetrying;
     mkTransition NodeStatusRunning NodeStatusCancelled;
     mkTransition NodeStatusRetrying NodeStatusReady;
     mkTransition NodeStatusRetrying NodeStatusFailed;
     mkTransition NodeStatusRetrying NodeStatusCancelled].

Definition isLegalTransitionTarget (status : string) : bool :=
  existsb (fun from => isLegalTransition (mkTransition from status)) persistedNodeStatuses.

Definition LegalTransitionTargetStatusStrings : list string :=
  List.filter isLegalTransitionTarget persistedNodeStatuses.

Inductive transition_error :=
| EmptyFromStatus
| EmptyToStatus
| SameState (from : string)
| IllegalTransition (from to : string).

Definition ValidateTransition (from to : string) : result transition_error unit :=
  if String.eqb from EmptyString then Err EmptyFromStatus
  else if String.eqb to EmptyString then Err EmptyToStatus
  else if String.eqb from to then Err (SameState from)
  else if negb (isLegalTransition (mkTransition from to)) then Err (IllegalTransition from to)
  else Ok tt.

Definition IsTerminal (s : string) : bool :=
  str_in s [NodeStatusDone; NodeStatusFailed; NodeStatusCancelled; NodeStatusSkipped].

(** ** The transition system *)

(** One accepted status change. *)
Definition status_step (from to : string) : Prop := ValidateTransition from to = Ok tt.

Definition successors (s : string) : list string :=
  List.filter (fun t => isLegalTransition (mkTransition s t)) persistedNodeStatuses.

Lemma legal_transition_cases from to :
  isLegalTransition (mkTransition from to) = true ->
  (from, to) ∈ [(NodeStatusPending, NodeStatusReady); (NodeStatusPending, NodeStatusCancelled);
     (NodeStatusReady, NodeStatusRunning); (NodeStatusReady, NodeStatusCancelled);
     (NodeStatusRunning, NodeStatusDone); (NodeStatusRunning, NodeStatusFailed);
     (NodeStatusRunning, NodeStatusRetrying); (NodeStatusRunning, NodeStatusCancelled);
     (NodeStatusRetrying, NodeStatusReady); (NodeStatusRetrying, NodeStatusFailed);
     (NodeStatusRetrying, NodeStatusCancelled)].
Proof.
  unfold isLegalTransition. rewrite existsb_exists. intros ([f t] & Hin & Heq).
  unfold transition_eqb in Heq. simpl in Heq. go_bool. subst.
  apply list_elem_of_In.
  apply (in_map (fun tr => (From_ tr, To_ tr))) in Hin. exact Hin.
Qed.

Lemma status_step_legal from to :
  status_step from to <-> isLegalTransition (mkTransition from to) = true.
Proof.
  unfold status_step, ValidateTransition. split.
  - intros H. repeat case_match; try done. by go_bool.
  - intros H. pose proof (legal_transition_cases _ _ H) as Hc. rewrite H.
    set_unfold in Hc. destruct_or! Hc; simplify_eq; done.
Qed.

#[export] Instance status_step_dec from to : Decision (status_step from to).
Proof. unfold status_step. destruct (ValidateTransition from to) as [[]|]; [left|right]; done. Defined.

Lemma status_step_successors from to : status_step from to <-> to ∈ successors from.
Proof.
  rewrite status_step_legal. unfold successors. rewrite list_elem_of_In, filter_In. split.
  - intros H. split; [|done]. apply legal_transition_cases in H. apply list_elem_of_In.
    set_unfold in H. destruct_or! H; simplify_eq; apply (bool_decide_unpack _); by vm_compute.
  - by intros [_ H].
Qed.

Definition live_statuses : list string :=
  [NodeStatusPending; NodeStatusReady; NodeStatusRunning; NodeStatusRetrying;
   NodeStatusDone; NodeStatusFailed; NodeStatusCancelled].

Lemma live_statuses_closed from to :
  from ∈ live_statuses -> status_step from to -> to ∈ live_statuses.
Proof.
  rewrite status_step_successors. intros Hf Ht. unfold live_statuses in Hf. set_unfold in Hf.
  destruct_or! Hf; subst from; vm_compute in Ht; set_unfold in Ht; destruct_or! Ht; subst to;
    apply (bool_decide_unpack _); by vm_compute.
Qed.

(** The statuses a node can reach from [pending] through accepted transitions are
    exactly pending, ready, running, retrying, done, failed and cancelled; the
    reserved skipped and waiting_human are never entered. *)
Theorem reachable_from_pending s :
  rtc status_step NodeStatusPending s <-> s ∈ live_statuses.
Proof.
  split.
  - intros H. assert (forall x, rtc status_step x s -> x ∈ live_statuses -> s ∈ live_statuses) as Hcl.
    { clear. induction 1; eauto using live_statuses_closed. }
    apply (Hcl _ H). apply (bool_decide_unpack _). by vm_compute.
  - assert (forall a b, bool_decide (status_step a b) = true -> status_step a b) as Hs.
    { intros a b. by rewrite bool_decide_eq_true. }
    assert (rtc status_step NodeStatusPending NodeStatusRunning) as Hrun.
    { eapply rtc_l; [apply (Hs _ NodeStatusReady); by vm_compute|]. apply rtc_once, Hs. by vm_compute. }
    unfold live_statuses. set_unfold. intros Hin. destruct_or! Hin; subst s.
    + done.
    + apply rtc_once, Hs. by vm_compute.
    + done.
    + eapply rtc_r; [done|]. apply Hs. by vm_compute.
    + eapply rtc_r; [done|]. apply Hs. by vm_compute.
    + eapply rtc_r; [done|]. apply Hs. by vm_compute.
    + eapply rtc_r; [done|]. apply Hs. by vm_compute.
Qed.

(** Among the persisted statuses those without an outgoing transition are the
    four terminal ones and [waiting_human], which the terminal test does not name:
    a node stored as waiting_human is neither terminal nor able to move. *)
Theorem stuck_statuses s :
  s ∈ persistedNodeStatuses ->
  ((forall t, ~ status_step s t) <-> IsTerminal s = true \/ s = NodeStatusWaitingHuman).
Proof.
  intros Hs. assert ((forall t, ~ status_step s t) <-> successors s = []) as ->.
  { split.
    - intros H. destruct (successors s) as [|t l] eqn:E; [done|].
      destruct (H t). rewrite status_step_successors, E. by left.
    - intros H t. rewrite status_step_successors, H. set_solver. }
  unfold persistedNodeStatuses in Hs. set_unfold in Hs.
  destruct_or! Hs; subst s; vm_compute; naive_solver.
Qed.

Lemma stuck_statuses_witness :
  ~ status_step NodeStatusWaitingHuman NodeStatusReady /\ IsTerminal NodeStatusWaitingHuman = false.
Proof.
  split; [|reflexivity].
  apply (stuck_statuses NodeStatusWaitingHuman);
    [apply (bool_decide_unpack _); vm_compute; exact I|right; reflexivity].
Defined.
