(* ===== verification/Cycle.v ===== *)
(** * Cycle detection over a dependency graph

    Models [cmd/mcp-orch/orchestration/nodeexec/cycle.go]: Kahn's algorithm on the
    [depends_on] map, and Tarjan's strongly connected components on what it leaves.
    A Go map is a [gmap]; where the code iterates over a map the order of the
    iteration is the argument [order], any permutation of the keys. *)

From S2P Require Import Prelude GoStrings.

Abbreviation adjacency_map := (gmap string (list string)).

(** [CycleError]: the flat list of nodes on cycles and the independent cycles. *)
Record CycleError := mkCycleError { Nodes : list string; Components : list (list string) }.

(** ** Kahn *)

Definition count_of (m : gmap string Z) (k : string) : Z := default 0%Z (m !! k).
Definition list_of (m : adjacency_map) (k : string) : list string := default [] (m !! k).

Record cycle_index := mkIndex { indeg : gmap string Z; reverse : adjacency_map }.

(** [if _, seen := indeg[node]; !seen { indeg[node] = 0 }]. *)
Definition touch (node : string) (m : gmap string Z) : gmap string Z :=
  match m !! node with Some _ => m | None => <[node := 0%Z]> m end.

(** One dependency of [node]: unknown keys are skipped. *)
Definition index_dep (adjacency : adjacency_map) (node : string) (ix : cycle_index) (dep : string)
  : cycle_index :=
  match adjacency !! dep with
  | None => ix
  | Some _ =>
      mkIndex (<[node := (count_of (indeg ix) node + 1)%Z]> (indeg ix))
              (<[dep := list_of (reverse ix) dep ++ [node]]> (reverse ix))
  end.

Definition index_node (adjacency : adjacency_map) (ix : cycle_index) (node : string)
  : cycle_index :=
  foldl (index_dep adjacency node) (mkIndex (touch node (indeg ix)) (reverse ix))
        (list_of adjacency node).

Definition buildCycleDetectionIndex (order : list string) (adjacency : adjacency_map)
  : cycle_index :=
  foldl (index_node adjacency) (mkIndex ∅ ∅) order.

(** The keys in the order [sort.Strings] gives; the iteration order is irrelevant. *)
Definition initialZeroIndegQueue (indeg : gmap string Z) : list string :=
  sort_strings (List.filter (fun node => (count_of indeg node =? 0)%Z) (map_to_list indeg).*1).

(** The inner loop over [reverse[head]]: the counters and the next batch. *)
Definition release (acc : gmap string Z * list string) (dn : string)
  : gmap string Z * list string :=
  let d := (count_of acc.1 dn - 1)%Z in
  (<[dn := d]> acc.1, if (d =? 0)%Z then acc.2 ++ [dn] else acc.2).

(** The main loop.  [None] is running out of fuel. *)
Fixpoint kahn_loop (fuel : nat) (queue : list string) (indeg : gmap string Z)
    (reverse : adjacency_map) (processed : nat) : option (nat * gmap string Z) :=
  match queue with
  | [] => Some (processed, indeg)
  | head :: queue =>
      match fuel with
      | O => None
      | S fuel =>
          let '(indeg, nextBatch) := foldl release (indeg, []) (list_of reverse head) in
          kahn_loop fuel (queue ++ sort_strings nextBatch) indeg reverse (S processed)
      end
  end.

(** [kahnDrain] returns the count and leaves the consumed counters in [indeg];
    every node leaves the queue at most once, so [size indeg] is fuel enough. *)
Definition kahnDrain (ix : cycle_index) : option (nat * gmap string Z) :=
  kahn_loop (size (indeg ix)) (initialZeroIndegQueue (indeg ix)) (indeg ix) (reverse ix) 0.

(** ** Tarjan *)

Definition residualSubgraph (adjacency : adjacency_map) (indeg : gmap string Z) : adjacency_map :=
  let residualSet : gmap string Z := base.filter (fun p => (0 < p.2)%Z) indeg in
  map_imap (fun node _ =>
    Some (List.filter (fun dep => bool_decide (is_Some (residualSet !! dep)))
                      (list_of adjacency node))) residualSet.

Record tarjanState := mkTarjan {
  t_index : nat;
  t_stack : list string;           (* top of the stack first *)
  t_onStack : gmap string bool;
  t_indices : gmap string nat;
  t_lowlink : gmap string nat;
  t_components : list (list string);
}.

Definition newTarjanState : tarjanState := mkTarjan 0 [] ∅ ∅ ∅ [].

Definition low_of (t : tarjanState) (v : string) : nat := default 0 (t_lowlink t !! v).
Definition index_of (t : tarjanState) (v : string) : nat := default 0 (t_indices t !! v).

Definition isCycleSCC (scc : list string) (graph : adjacency_map) : bool :=
  if (1 <? length scc)%nat then true
  else match scc with
       | node :: _ => existsb (String.eqb node) (list_of graph node)
       | [] => false
       end.

(** The popping loop of [popSCC]: the component in popping order and what stays. *)
Fixpoint pop_until (root : string) (stack : list string) : option (list string * list string) :=
  match stack with
  | [] => None
  | w :: rest =>
      if String.eqb w root then Some ([w], rest)
      else '(scc, stay) ← pop_until root rest; Some (w :: scc, stay)
  end.

Definition popSCC (graph : adjacency_map) (root : string) (t : tarjanState) : option tarjanState :=
  '(scc, stack) ← pop_until root (t_stack t);
  let onStack := foldl (fun m w => <[w := false]> m) (t_onStack t) scc in
  let components :=
    if isCycleSCC scc graph then t_components t ++ [sort_strings scc] else t_components t in
  Some (mkTarjan (t_index t) stack onStack (t_indices t) (t_lowlink t) components).

Definition lower (t : tarjanState) (v : string) (bound : nat) : tarjanState :=
  if (bound <? low_of t v)%nat
  then mkTarjan (t_index t) (t_stack t) (t_onStack t) (t_indices t)
                (<[v := bound]> (t_lowlink t)) (t_components t)
  else t.

(** [strongConnect], recursion depth bounded by [fuel]; [None] is out of fuel, or
    the index panic of an empty stack. *)
Fixpoint strongConnect (fuel : nat) (graph : adjacency_map) (v : string) (t : tarjanState)
  : option tarjanState :=
  match fuel with
  | O => None
  | S fuel =>
      let t := mkTarjan (S (t_index t)) (v :: t_stack t) (<[v := true]> (t_onStack t))
                 (<[v := t_index t]> (t_indices t)) (<[v := t_index t]> (t_lowlink t))
                 (t_components t) in
      let visit := fun (acc : option tarjanState) (w : string) =>
        t ← acc;
        match t_indices t !! w with
        | None => t ← strongConnect fuel graph w t; Some (lower t v (low_of t w))
        | Some i => if default false (t_onStack t !! w) then Some (lower t v i) else Some t
        end in
      t ← foldl visit (Some t) (sort_strings (list_of graph v));
      if (low_of t v =? index_of t v)%nat then popSCC graph v t else Some t
  end.

Definition sortedKeys (m : adjacency_map) : list string := sort_strings (map_to_list m).*1.

Definition component_le (a b : list string) : Prop :=
  String.le (default EmptyString (head a)) (default EmptyString (head b)).
#[export] Instance component_le_dec a b : Decision (component_le a b).
Proof. unfold component_le. apply _. Defined.

Definition tarjanSCCCycleComponents (graph : adjacency_map) : option (list (list string)) :=
  t ← foldl (fun acc n =>
        t ← acc;
        match t_indices t !! n with
        | Some _ => Some t
        | None => strongConnect (S (size graph)) graph n t
        end) (Some newTarjanState) (sortedKeys graph);
  Some (merge_sort component_le (t_components t)).

Definition flattenComponents (components : list (list string)) : list string :=
  sort_strings (concat components).

Definition newCycleError (adjacency : adjacency_map) (indeg : gmap string Z) : option CycleError :=
  let residual := residualSubgraph adjacency indeg in
  components ← tarjanSCCCycleComponents residual;
  Some (mkCycleError (flattenComponents components) components).

(** [DetectCycle]: [Ok tt] is the nil error.  The inner [option] is [None] only when a
    loop ran out of its fuel. *)
Definition DetectCycle (order : list string) (adjacency : adjacency_map)
  : result (option CycleError) unit :=
  if (size adjacency =? 0)%nat then Ok tt
  else
    let ix := buildCycleDetectionIndex order adjacency in
    match kahnDrain ix with
    | None => Err None
    | Some (processed, consumed) =>
        if (processed =? size (indeg ix))%nat then Ok tt
        else Err (newCycleError adjacency consumed)
    end.

Definition keys (m : adjacency_map) : list string := (map_to_list m).*1.

Example detect_ex1 :
  let g : adjacency_map := list_to_map [("a", ["b"]); ("b", ["c"]); ("c", [])] in
  DetectCycle (keys g) g = Ok tt.
Proof. vm_compute. reflexivity. Qed.
Example detect_ex2 :
  let g : adjacency_map :=
    list_to_map [("a", ["b"]); ("b", ["a"]); ("c", ["a"]); ("d", ["d"; "x"]); ("e", [])] in
  DetectCycle (keys g) g = Err (Some (mkCycleError ["a"; "b"; "d"] [["a"; "b"]; ["d"]])).
Proof. vm_compute. reflexivity. Qed.

(** ** The graph the detector sees *)

(** The dependencies of [n] that are nodes, with their multiplicity. *)
Definition deps_in (adjacency : adjacency_map) (n : string) : list string :=
  base.filter (fun d => is_Some (adjacency !! d)) (list_of adjacency n).

Definition edge (adjacency : adjacency_map) (n d : string) : Prop :=
  is_Some (adjacency !! n) /\ d ∈ deps_in adjacency n.

Definition acyclic (adjacency : adjacency_map) : Prop :=
  forall n, ~ tc (edge adjacency) n n.

Lemma elem_of_keys m k : k ∈ keys m <-> is_Some (m !! k).
Proof.
  unfold keys. rewrite list_elem_of_fmap. split.
  - intros ([k' v] & -> & Hin). apply elem_of_map_to_list in Hin. eauto.
  - intros [v Hv]. exists (k, v). split; [done|]. by apply elem_of_map_to_list.
Qed.

Lemma keys_NoDup m : NoDup (keys m).
Proof. apply NoDup_fst_map_to_list. Qed.

Lemma keys_length m : length (keys m) = size m.
Proof. unfold keys. by rewrite length_fmap, length_map_to_list. Qed.

(** ** The index *)

Section index.
Context (adj : adjacency_map).

Lemma index_deps_spec node l ix :
  let ix' := foldl (index_dep adj node) ix l in
  (forall n, indeg ix' !! n =
     if decide (n = node /\ base.filter (fun d => is_Some (adj !! d)) l <> [])
     then Some (count_of (indeg ix) node
                + Z.of_nat (length (base.filter (fun d => is_Some (adj !! d)) l)))%Z
     else indeg ix !! n)
  /\ (forall n d, occ n (list_of (reverse ix') d) = occ n (list_of (reverse ix) d)
        + if decide (n = node) then occ d (base.filter (fun d => is_Some (adj !! d)) l) else 0).
Proof.
  revert ix. induction l as [|x l IH]; intros ix; simpl.
  - split; intros n; [by rewrite decide_False by naive_solver|].
    intros d. rewrite filter_nil, occ_nil. case_decide; lia.
  - specialize (IH (index_dep adj node ix x)) as [IH1 IH2].
    unfold index_dep in *. rewrite filter_cons.
    destruct (adj !! x) as [ds|] eqn:Hx; cycle 1.
    { rewrite decide_False by (intros [? ?]; congruence). eauto. }
    rewrite decide_True by eauto. simpl in *. split.
    + intros n. rewrite IH1. clear IH1 IH2. unfold count_of in *. rewrite lookup_insert_eq. simpl.
      destruct (decide (n = node)) as [->|Hn].
      * rewrite (decide_True (P := node = node /\ _ :: _ <> [])) by done.
        case_decide as Hc; [f_equal; lia|].
        rewrite lookup_insert_eq. destruct (base.filter _ l) as [|? ?]; [|naive_solver].
        simpl. f_equal; lia.
      * rewrite !decide_False by naive_solver. by rewrite lookup_insert_ne by done.
    + intros n d. rewrite IH2. unfold list_of at 1. destruct (decide (d = x)) as [->|Hd].
      * rewrite lookup_insert_eq. simpl. rewrite occ_app, !occ_cons, occ_nil.
        rewrite (decide_True (P := x = x)) by done.
        destruct (decide (n = node)) as [->|]; [rewrite decide_True by done; lia|].
        rewrite decide_False by done. lia.
      * rewrite lookup_insert_ne by done. fold (list_of (reverse ix) d). rewrite occ_cons.
        rewrite (decide_False (P := x = d)) by done. done.
Qed.

Lemma index_spec o :
  NoDup o ->
  let ix := buildCycleDetectionIndex o adj in
  (forall n, indeg ix !! n =
     if decide (n ∈ o) then Some (Z.of_nat (length (deps_in adj n))) else None)
  /\ (forall n d, occ n (list_of (reverse ix) d) =
        if decide (n ∈ o) then occ d (deps_in adj n) else 0).
Proof.
  unfold buildCycleDetectionIndex.
  induction o as [|x o IH] using rev_ind; intros Hnd; cbn zeta.
  - split; intros n; [by rewrite decide_False by set_solver|].
    intros d. by rewrite decide_False by set_solver.
  - apply NoDup_app in Hnd as (Hnd & Hx & _). destruct (IH Hnd) as [IH1 IH2].
    rewrite foldl_app. simpl. set (ix := foldl _ _ o) in *. clearbody ix.
    assert (x ∉ o) as Hxo by (intros Hin; apply (Hx x Hin); by left).
    assert (indeg ix !! x = None) as Hnone by (by rewrite IH1, decide_False).
    unfold index_node.
    pose proof (index_deps_spec x (list_of adj x) (mkIndex (touch x (indeg ix)) (reverse ix))) as [H1 H2].
    fold (deps_in adj x) in *. simpl in H1, H2. unfold touch in *. rewrite Hnone in *. split.
    + intros n. rewrite H1. unfold count_of. rewrite lookup_insert_eq. simpl.
      destruct (decide (n = x)) as [->|Hn].
      * rewrite (decide_True (P := x ∈ o ++ [x])) by set_solver.
        case_decide as Hc; [f_equal; lia|].
        rewrite lookup_insert_eq. destruct (deps_in adj x); [done|naive_solver].
      * rewrite decide_False by naive_solver. rewrite lookup_insert_ne by done.
        rewrite IH1. destruct (decide (n ∈ o)); [rewrite decide_True by set_solver|
          rewrite decide_False by set_solver]; done.
    + intros n d. rewrite H2, IH2. destruct (decide (n = x)) as [->|Hn].
      * rewrite (decide_False (P := x ∈ o)) by done. by rewrite decide_True by set_solver.
      * rewrite Nat.add_0_r. destruct (decide (n ∈ o)); [rewrite decide_True by set_solver|
          rewrite decide_False by set_solver]; done.
Qed.

End index.

(** ** Releasing the dependents of one node *)

Lemma release_spec l m acc :
  (forall n, (Z.of_nat (occ n l) <= count_of m n)%Z) ->
  exists b, (foldl release (m, acc) l).2 = acc ++ b
    /\ (forall n, count_of (foldl release (m, acc) l).1 n = (count_of m n - Z.of_nat (occ n l))%Z)
    /\ NoDup b /\ (forall n, n ∈ b <-> n ∈ l /\ count_of m n = Z.of_nat (occ n l)).
Proof.
  revert m acc. induction l as [|x l IH]; intros m acc Hle; simpl.
  - exists []. rewrite app_nil_r. split_and!; [done| |constructor|set_solver].
    intros n. rewrite occ_nil. lia.
  - set (m' := <[x := (count_of m x - 1)%Z]> m).
    assert (forall n, count_of m' n = (count_of m n - if decide (x = n) then 1 else 0)%Z) as Hm'.
    { intros n. unfold m', count_of. destruct (decide (x = n)) as [->|Hn].
      - by rewrite lookup_insert_eq.
      - rewrite lookup_insert_ne by done. lia. }
    assert (forall n, (Z.of_nat (occ n l) <= count_of m' n)%Z) as Hle'.
    { intros n. specialize (Hle n). rewrite occ_cons in Hle. rewrite Hm'. case_decide; lia. }
    assert (count_of m x - 1 = count_of m' x)%Z as Hxx by (rewrite Hm', decide_True by done; lia).
    unfold release at 2 4. simpl. fold m'.
    destruct (IH m' (if (count_of m x - 1 =? 0)%Z then acc ++ [x] else acc) Hle')
      as (b & Hb & Hcnt & Hnd & Hin).
    assert (forall n, n ≠ x -> (n ∈ b <-> n ∈ x :: l /\ count_of m n = Z.of_nat (occ n (x :: l)))) as Hne.
    { intros n Hn. rewrite Hin, Hm', occ_cons, elem_of_cons, decide_False by done.
      rewrite (decide_False (P := x = n)) by done. rewrite Nat.add_0_l, Z.sub_0_r. naive_solver. }
    assert (forall n, count_of (foldl release (m', if (count_of m x - 1 =? 0)%Z
        then acc ++ [x] else acc) l).1 n = (count_of m n - Z.of_nat (occ n (x :: l)))%Z) as Hcnt'.
    { intros n. rewrite Hcnt, Hm', occ_cons. case_decide; lia. }
    destruct (Z.eqb_spec (count_of m x - 1) 0) as [Hz|Hz].
    + assert (occ x l = 0) as Hx0 by (specialize (Hle' x); lia).
      assert (x ∉ b) as Hxb.
      { rewrite Hin, <- occ_pos. lia. }
      exists (x :: b). rewrite Hb, <- app_assoc. split_and!; [done|done|by constructor|].
      intros n. destruct (decide (n = x)) as [->|Hn]; [|rewrite elem_of_cons, Hne by done; naive_solver].
      rewrite occ_cons, decide_True by done. split; [|by left]. intros _. split; [by left|lia].
    + exists b. rewrite Hb. split_and!; [done|done|done|].
      intros n. destruct (decide (n = x)) as [->|Hn]; [|by apply Hne].
      rewrite Hin, Hm', occ_cons, !decide_True by done. split.
      * intros [? ?]. split; [by right|lia].
      * intros [_ Hc]. split; [|lia]. apply occ_pos. lia.
Qed.

(** ** The drain *)

Section kahn.
Context (adj : adjacency_map) (order : list string).
Hypothesis order_keys : order ≡ₚ keys adj.

Lemma order_NoDup : NoDup order.
Proof. rewrite order_keys. apply keys_NoDup. Qed.

Lemma elem_of_order n : n ∈ order <-> is_Some (adj !! n).
Proof. by rewrite order_keys, elem_of_keys. Qed.

(** How many dependencies of [n] are not in [P]. *)
Definition remaining (P : list string) (n : string) : nat :=
  length (base.filter (fun d => d ∉ P) (deps_in adj n)).

Lemma remaining_snoc P h n :
  h ∉ P -> remaining P n = remaining (P ++ [h]) n + occ h (deps_in adj n).
Proof.
  intros Hh. unfold remaining, occ.
  induction (deps_in adj n) as [|d l IH]; [done|]. rewrite !filter_cons.
  destruct (decide (d = h)) as [->|Hd].
  - rewrite (decide_True (P := h ∉ P)) by done.
    rewrite (decide_False (P := h ∉ P ++ [h])) by set_solver. simpl. lia.
  - destruct (decide (d ∈ P)).
    + rewrite (decide_False (P := d ∉ P)) by naive_solver.
      rewrite (decide_False (P := d ∉ P ++ [h])) by set_solver. done.
    + rewrite (decide_True (P := d ∉ P)) by done.
      rewrite (decide_True (P := d ∉ P ++ [h])) by set_solver. simpl. lia.
Qed.

Lemma remaining_zero P n : remaining P n = 0 <-> forall d, d ∈ deps_in adj n -> d ∈ P.
Proof.
  unfold remaining. rewrite length_zero_iff_nil. split.
  - intros H d Hd. destruct (decide (d ∈ P)); [done|].
    assert (d ∈ base.filter (fun d => d ∉ P) (deps_in adj n)) as Hin by (by apply list_elem_of_filter).
    rewrite H in Hin. set_solver.
  - intros H. apply list.elem_of_nil_inv. intros d [Hd1 Hd2]%list_elem_of_filter. naive_solver.
Qed.

(** The loop invariant: [P] are the processed nodes in order, [Q] is the queue. *)
Record kahn_inv (P Q : list string) (m : gmap string Z) : Prop := {
  ki_nodup : NoDup (P ++ Q);
  ki_nodes : forall n, n ∈ P ++ Q -> n ∈ order;
  ki_count : forall n,
    count_of m n = if decide (n ∈ order) then Z.of_nat (remaining P n) else 0%Z;
  ki_zero : forall n, n ∈ order -> (n ∈ P ++ Q <-> remaining P n = 0);
  ki_topo : forall i n, P !! i = Some n ->
    forall d, d ∈ deps_in adj n -> exists j, j < i /\ P !! j = Some d;
}.

Definition ix : cycle_index := buildCycleDetectionIndex order adj.

Lemma ix_indeg n :
  indeg ix !! n = if decide (n ∈ order) then Some (Z.of_nat (length (deps_in adj n))) else None.
Proof. apply (index_spec adj order order_NoDup). Qed.

Lemma ix_reverse n d :
  occ n (list_of (reverse ix) d) = if decide (n ∈ order) then occ d (deps_in adj n) else 0.
Proof. apply (index_spec adj order order_NoDup). Qed.

Lemma ix_size : size (indeg ix) = size adj.
Proof.
  rewrite <- (keys_length adj), <- length_map_to_list, <- (length_fmap fst).
  apply Permutation_length, NoDup_Permutation; [apply NoDup_fst_map_to_list|apply keys_NoDup|].
  intros n. rewrite <- order_keys, list_elem_of_fmap. split.
  - intros ([k z] & -> & H%elem_of_map_to_list). rewrite ix_indeg in H. simpl. by case_decide.
  - intros Hn. exists (n, Z.of_nat (length (deps_in adj n))). split; [done|].
    apply elem_of_map_to_list. by rewrite ix_indeg, decide_True.
Qed.

Lemma kahn_init : kahn_inv [] (initialZeroIndegQueue (indeg ix)) (indeg ix).
Proof.
  assert (forall n, remaining [] n = length (deps_in adj n)) as Hr.
  { intros n. unfold remaining. f_equal.
    induction (deps_in adj n) as [|d l IH]; [done|]. rewrite filter_cons, decide_True by set_solver.
    by rewrite IH. }
  assert (forall n, n ∈ initialZeroIndegQueue (indeg ix) <-> n ∈ order /\ length (deps_in adj n) = 0) as Hq.
  { intros n. unfold initialZeroIndegQueue. rewrite elem_of_sort_strings, list_elem_of_In, filter_In.
    rewrite <- list_elem_of_In, list_elem_of_fmap. unfold count_of. rewrite ix_indeg. split.
    - intros [([k z] & -> & H%elem_of_map_to_list) Hz]. simpl in *. rewrite ix_indeg in H.
      case_decide; [|done]. split; [done|]. simpl in Hz. go_bool. lia.
    - intros [Hn H0]. rewrite decide_True by done. simpl. split.
      + exists (n, Z.of_nat (length (deps_in adj n))). split; [done|].
        apply elem_of_map_to_list. by rewrite ix_indeg, decide_True.
      + apply Z.eqb_eq. lia. }
  split; simpl.
  - unfold initialZeroIndegQueue. rewrite sort_strings_Permutation.
    apply base.NoDup_ListNoDup, List.NoDup_filter, base.NoDup_ListNoDup, NoDup_fst_map_to_list.
  - intros n. by intros [? _]%Hq.
  - intros n. unfold count_of. rewrite ix_indeg. case_decide; [by rewrite Hr|done].
  - intros n Hn. rewrite Hq, Hr. naive_solver.
  - intros i n H. by rewrite lookup_nil in H.
Qed.

Lemma kahn_step P h Q m :
  kahn_inv P (h :: Q) m ->
  let '(m', b) := foldl release (m, []) (list_of (reverse ix) h) in
  kahn_inv (P ++ [h]) (Q ++ sort_strings b) m'.
Proof.
  intros [Hnd Hin Hc Hz Ht].
  assert (h ∉ P /\ h ∉ Q) as [HhP HhQ].
  { apply NoDup_app in Hnd as (_ & H1 & H2). apply NoDup_cons in H2. set_solver. }
  pose proof (fun n => remaining_snoc P h n HhP) as Hrem.
  assert (forall n, (Z.of_nat (occ n (list_of (reverse ix) h)) <= count_of m n)%Z) as Hle.
  { intros n. rewrite ix_reverse, Hc. case_decide; [rewrite Hrem|]; lia. }
  destruct (release_spec (list_of (reverse ix) h) m [] Hle) as (b & Hb & Hcnt & Hndb & Hinb).
  destruct (foldl release _ _) as [m' b']; simpl in *; subst b'.
  assert (forall n, n ∈ b <-> n ∈ order /\ h ∈ deps_in adj n /\ remaining (P ++ [h]) n = 0) as Hb.
  { intros n. rewrite Hinb, <- occ_pos, Hc, ix_reverse. case_decide as Hn; [|naive_solver lia].
    rewrite Hrem, <- (occ_pos h). split; [|naive_solver lia]. intros [? ?]. split_and!; [done|lia..]. }
  assert (forall n, n ∈ (P ++ [h]) ++ Q ++ sort_strings b <-> n ∈ P ++ h :: Q \/ n ∈ b) as Hsplit.
  { intros n. rewrite !elem_of_app, !elem_of_cons, elem_of_nil, elem_of_sort_strings. tauto. }
  split.
  - rewrite sort_strings_Permutation. replace ((P ++ [h]) ++ Q ++ b) with ((P ++ h :: Q) ++ b)
      by (by rewrite <- !app_assoc). apply NoDup_app. split_and!; [done| |done].
    intros n Hn (Hno & Hh & H0)%Hb. apply Hz in Hn; [|done]. apply occ_pos in Hh. rewrite Hrem in Hn. lia.
  - intros n [Hn|[Hn _]%Hb]%Hsplit; auto.
  - intros n. rewrite Hcnt, Hc, ix_reverse. case_decide; [rewrite Hrem|]; lia.
  - intros n Hn. rewrite Hsplit, Hb, Hz by done. rewrite Hrem. rewrite <- (occ_pos h).
    split; [intros [?|?]; lia|]. intros H0.
    destruct (decide (occ h (deps_in adj n) = 0)); [left; lia|right; split_and!; [done|lia..]].
  - intros i n Hi d Hd. destruct (lookup_app_Some P [h] i n) as [Hl _].
    destruct (Hl Hi) as [Hi'|[Hge Hi']].
    + destruct (Ht i n Hi' d Hd) as (j & Hj & Hjd). exists j. split; [done|]. by apply lookup_app_l_Some.
    + assert (i = length P) as -> by (apply lookup_lt_Some in Hi'; simpl in Hi'; lia).
      rewrite Nat.sub_diag in Hi'. simplify_eq/=.
      assert (remaining P n = 0) as H0.
      { apply Hz; [apply Hin|]; set_solver. }
      rewrite remaining_zero in H0. apply H0, list_elem_of_lookup in Hd as [j Hj].
      exists j. split; [by eapply lookup_lt_Some|by apply lookup_app_l_Some].
Qed.

Lemma kahn_inv_length P Q m : kahn_inv P Q m -> length (P ++ Q) <= size adj.
Proof.
  intros [Hnd Hin _ _ _]. rewrite <- keys_length, <- order_keys.
  by apply submseteq_length, NoDup_submseteq.
Qed.

(** With the fuel of [kahnDrain] the loop ends, on an empty queue. *)
Lemma kahn_loop_spec fuel P Q m :
  kahn_inv P Q m -> size adj <= length P + fuel ->
  exists P' m', kahn_loop fuel Q m (reverse ix) (length P) = Some (length P', m')
    /\ kahn_inv P' [] m'.
Proof.
  revert P Q m. induction fuel as [|fuel IH]; intros P [|h Q] m Hinv Hf;
    [by exists P, m| |by exists P, m|]; pose proof (kahn_inv_length _ _ _ Hinv) as Hlen;
    rewrite length_app in Hlen; simpl in Hlen; [lia|].
  simpl. pose proof (kahn_step P h Q m Hinv) as Hs.
  destruct (foldl release _ _) as [m' b].
  replace (S (length P)) with (length (P ++ [h])) by (rewrite length_app; simpl; lia).
  apply IH; [done|]. rewrite length_app. simpl. lia.
Qed.

(** The processed list is everything exactly when the graph has no cycle. *)
Lemma kahn_done_acyclic P m :
  kahn_inv P [] m -> (length P = size adj <-> acyclic adj).
Proof.
  intros [Hnd Hin Hc Hz Ht]. rewrite app_nil_r in *. split.
  - intros Hlen n Hcyc.
    assert (forall x, x ∈ order -> x ∈ P) as Hall.
    { intros x Hx. rewrite (submseteq_length_Permutation P order); [done|by apply NoDup_submseteq|].
      rewrite order_keys, keys_length. lia. }
    assert (forall x y, tc (edge adj) x y -> forall i, P !! i = Some x -> exists j, j < i /\ P !! j = Some y) as Hdown.
    { induction 1 as [x y [_ Hxy]|x y z [_ Hxy] _ IH]; intros i Hi; [by apply (Ht i x)|].
      destruct (Ht i x Hi y Hxy) as (j & Hj & Hjy). destruct (IH j Hjy) as (k & Hk & Hkz). exists k. auto with lia. }
    assert (n ∈ order) as Hn.
    { apply elem_of_order. by inversion Hcyc as [? ? [? _]|? ? ? [? _]]. }
    apply Hall, list_elem_of_lookup in Hn as [i Hi].
    destruct (Hdown n n Hcyc i Hi) as (j & Hj & Hjn).
    assert (i = j) by (by eapply NoDup_lookup). lia.
  - intros Hac. destruct (decide (length P = size adj)) as [|Hne]; [done|exfalso].
    assert (exists x, x ∈ order /\ x ∉ P) as (x & Hx & HxP).
    { destruct (decide (Exists (fun x => x ∉ P) order)) as [(x & ? & ?)%Exists_exists|Hno]; [eauto|].
      destruct Hne. rewrite <- keys_length, <- order_keys.
      apply Permutation_length, NoDup_Permutation; [done|apply order_NoDup|]. intros y. split; [by apply Hin|].
      intros Hy. apply dec_stable. intros HyP. apply Hno, Exists_exists. eauto. }
    set (R := list_to_set (C := gset string) (base.filter (fun x => x ∉ P) order)).
    set (f := fun n => default EmptyString (head (base.filter (fun d => d ∉ P) (deps_in adj n)))).
    destruct (finite_walk_cycle R (edge adj) f x) as [y Hy].
    + unfold R. rewrite elem_of_list_to_set, list_elem_of_filter. done.
    + intros y. unfold R. rewrite !elem_of_list_to_set, !list_elem_of_filter. intros [HyP Hyo].
      assert (remaining P y <> 0) as Hr by (intros H0; by apply HyP, (Hz y Hyo)).
      unfold remaining, f in *.
      destruct (base.filter (fun d => d ∉ P) (deps_in adj y)) as [|d l] eqn:E; [done|]. simpl.
      assert (d ∈ base.filter (fun d => d ∉ P) (deps_in adj y)) as Hd by (rewrite E; by left).
      apply list_elem_of_filter in Hd as [HdP Hd]. pose proof Hd as Hd'.
      apply list_elem_of_filter in Hd as [Hds _]. split.
      * split; [done|]. by apply elem_of_order.
      * split; [by apply elem_of_order|done].
    + by apply (Hac y).
Qed.

End kahn.

(** ** Tarjan ends *)

Lemma pop_until_suffix root l s : exists scc l', pop_until root (l ++ root :: s) = Some (scc, l' ++ s).
Proof.
  induction l as [|w l (scc & l' & IH)]; cbn [app pop_until].
  - rewrite String.eqb_refl. by exists [root], [].
  - destruct (String.eqb_spec w root) as [->|_]; [|rewrite IH; cbn; eauto]. exists [root], (l ++ [root]). by rewrite <- app_assoc.
Qed.

Section tarjan.
Context (g : adjacency_map).
Hypothesis closed : forall v w, w ∈ list_of g v -> is_Some (g !! w).

(** The nodes that have no index yet. *)
Definition fresh (t : tarjanState) : list string := base.filter (fun k => t_indices t !! k = None) (keys g).

(** What a visit leaves: more indices, and the stack below. *)
Record visits (t t' : tarjanState) : Prop := {
  vs_stack : exists l, t_stack t' = l ++ t_stack t;
  vs_indices : forall k, is_Some (t_indices t !! k) -> is_Some (t_indices t' !! k);
}.

#[local] Instance visits_preorder : PreOrder visits.
Proof.
  split; [intros t; split; [by exists []|done]|]. intros t1 t2 t3 [[l1 H1] I1] [[l2 H2] I2]. split; [|auto].
  exists (l2 ++ l1). by rewrite H2, H1, app_assoc.
Qed.

Lemma fresh_le t t' : visits t t' -> length (fresh t') <= length (fresh t).
Proof.
  intros [_ Hi]. unfold fresh. induction (keys g) as [|k l IH]; [done|]. rewrite !filter_cons.
  destruct (decide (t_indices t' !! k = None)) as [Hn|Hn]; destruct (decide (t_indices t !! k = None)) as [Hn'|Hn']; cbn; try lia.
  exfalso. destruct (t_indices t !! k) eqn:E; [|done]. destruct (Hi k) as [i Hk]; [by rewrite E|]. congruence.
Qed.

Lemma fresh_lt t t' v : visits t t' -> is_Some (g !! v) -> t_indices t !! v = None -> is_Some (t_indices t' !! v) -> length (fresh t') < length (fresh t).
Proof.
  intros Hv Hg Hn Hs. apply elem_of_keys in Hg. unfold fresh. assert (Hmono := vs_indices _ _ Hv).
  assert (forall l, length (base.filter (fun k => t_indices t' !! k = None) l) <= length (base.filter (fun k => t_indices t !! k = None) l)) as Hle.
  { induction l as [|k l IH]; [done|]. rewrite !filter_cons. repeat case_decide; cbn; try lia.
    exfalso. destruct (t_indices t !! k) eqn:E; [|done]. destruct (Hmono k) as [i Hk]; [by rewrite E|]. congruence. }
  induction (keys g) as [|k l IH]; [by apply not_elem_of_nil in Hg|]. specialize (Hle l). rewrite !filter_cons.
  apply elem_of_cons in Hg as [<-|Hg].
  - rewrite decide_False by (intros E; rewrite E in Hs; by destruct Hs). rewrite decide_True by done. cbn. lia.
  - specialize (IH Hg). repeat case_decide; cbn; try lia.
    exfalso. destruct (t_indices t !! k) eqn:E; [|done]. destruct (Hmono k) as [i Hk]; [by rewrite E|]. congruence.
Qed.

Lemma lower_visits t v b : visits t (lower t v b).
Proof. unfold lower. case_match; [|done]. split; [by exists []|done]. Qed.

(** A visit of a node without an index returns when there is fuel for the other ones. *)
Lemma strongConnect_returns fuel : forall v t, is_Some (g !! v) -> t_indices t !! v = None -> length (fresh t) <= fuel ->
  exists t', strongConnect fuel g v t = Some t' /\ visits t t' /\ is_Some (t_indices t' !! v).
Proof.
  induction fuel as [|fuel IH]; intros v t Hg Hn Hf.
  { exfalso. assert (v ∈ fresh t) as Hin by (apply list_elem_of_filter; split; [done|by apply elem_of_keys]).
    destruct (fresh t); [by apply not_elem_of_nil in Hin|cbn in Hf; lia]. }
  cbn [strongConnect]. set (t1 := mkTarjan _ _ _ _ _ _). assert (visits t t1) as H1.
  { split; [by exists [v]|]. intros k Hk. cbn. destruct (decide (v = k)) as [->|]; [rewrite lookup_insert_eq; eauto|by rewrite lookup_insert_ne]. }
  assert (is_Some (t_indices t1 !! v)) as Hv1 by (cbn; rewrite lookup_insert_eq; eauto).
  pose proof (fresh_lt _ _ _ H1 Hg Hn Hv1) as Hlt. set (visit := fun (acc : option tarjanState) (w : string) => _).
  assert (forall l t2, (forall w, w ∈ l -> is_Some (g !! w)) -> visits t1 t2 -> exists t3, foldl visit (Some t2) l = Some t3 /\ visits t1 t3) as Hloop.
  { induction l as [|w l IHl]; intros t2 Hw H2; [by exists t2|]. cbn [foldl].
    assert (exists t3, visit (Some t2) w = Some t3 /\ visits t1 t3) as (t3 & -> & H3); [|apply IHl; [intros x Hx; apply Hw; by right|done]].
    unfold visit. cbn. destruct (t_indices t2 !! w) as [i|] eqn:Ew.
    - case_match; eexists; (split; [done|]); [|done]. etrans; [exact H2|apply lower_visits].
    - destruct (IH w t2) as (t3 & -> & H3 & _); [apply Hw; by left|done|pose proof (fresh_le _ _ H2); lia|]. cbn.
      eexists. split; [done|]. etrans; [exact H2|]. etrans; [exact H3|apply lower_visits]. }
  destruct (Hloop (sort_strings (list_of g v)) t1) as (t3 & -> & H3); [|done|].
  { intros w Hw. rewrite elem_of_sort_strings in Hw. exact (closed v w Hw). }
  cbn. assert (visits t t3) as H4 by (by etrans). assert (is_Some (t_indices t3 !! v)) as Hv3 by (by apply H3).
  case_match; [|eauto]. unfold popSCC. destruct (vs_stack _ _ H3) as [l Hl]. cbn in Hl.
  destruct (pop_until_suffix v l (t_stack t)) as (scc & l' & Hp). rewrite Hl, Hp. cbn. eexists. split; [done|]. split; [|done].
  split; [by exists l'|]. cbn. apply H4.
Qed.

Lemma tarjan_returns : is_Some (tarjanSCCCycleComponents g).
Proof.
  unfold tarjanSCCCycleComponents. set (step := fun (acc : option tarjanState) (n : string) => _).
  assert (forall l t, (forall n, n ∈ l -> is_Some (g !! n)) -> is_Some (foldl step (Some t) l)) as H.
  { induction l as [|n l IH]; intros t Hl; cbn [foldl]; [eauto|].
    assert (exists t', step (Some t) n = Some t') as [t' ->]; [|apply IH; intros x Hx; apply Hl; by right].
    unfold step, mbind, option_bind. destruct (t_indices t !! n) eqn:E; [eauto|].
    destruct (strongConnect_returns (S (size g)) n t) as (t' & -> & _); [apply Hl; by left|done| |eauto].
    rewrite <- (keys_length g). unfold fresh. pose proof (length_filter (fun k => t_indices t !! k = None) (keys g)). lia. }
  destruct (H (sortedKeys g) newTarjanState) as [t ->]; [|cbn; eauto].
  intros n Hn. unfold sortedKeys in Hn. rewrite elem_of_sort_strings in Hn. by apply elem_of_keys.
Qed.
End tarjan.

Lemma residual_closed adj m v w : w ∈ list_of (residualSubgraph adj m) v -> is_Some (residualSubgraph adj m !! w).
Proof.
  unfold residualSubgraph, list_of. rewrite !map_lookup_imap. destruct (base.filter _ m !! v) as [z|] eqn:E; cbn; [|by intros ?%not_elem_of_nil].
  rewrite list_elem_of_In, filter_In. intros [_ H]. apply bool_decide_eq_true_1 in H as [x ->]. cbn. eauto.
Qed.

(** The error of a cycle is always made. *)
Lemma newCycleError_returns adj m : exists e, newCycleError adj m = Some e.
Proof.
  unfold newCycleError. destruct (tarjan_returns (residualSubgraph adj m) (residual_closed adj m)) as [c ->]. cbn. eauto.
Qed.

(** Exactness and termination, for the clients of the detector. *)
Lemma DetectCycle_exact order adjacency :
  order ≡ₚ keys adjacency ->
  (DetectCycle order adjacency = Ok tt <-> acyclic adjacency)
  /\ is_Some (kahnDrain (buildCycleDetectionIndex order adjacency)).
Proof.
  intros Ho.
  destruct (kahn_loop_spec adjacency order Ho (size adjacency) [] _ _ (kahn_init adjacency order Ho)
    ltac:(simpl; lia)) as (P & m & Hloop & Hinv).
  assert (kahnDrain (buildCycleDetectionIndex order adjacency) = Some (length P, m)) as Hdrain.
  { unfold kahnDrain. pose proof (ix_size adjacency order Ho) as Hs. unfold ix in *. by rewrite Hs. }
  split; [|by rewrite Hdrain; eauto].
  rewrite <- (kahn_done_acyclic adjacency order Ho P m Hinv). unfold DetectCycle.
  destruct (Nat.eqb_spec (size adjacency) 0) as [H0|Hn0].
  { split; [|done]. intros _. pose proof (kahn_inv_length adjacency order Ho P [] m Hinv) as Hl.
    rewrite app_nil_r in Hl. lia. }
  rewrite Hdrain. pose proof (ix_size adjacency order Ho) as Hs. unfold ix in Hs. rewrite Hs.
  destruct (Nat.eqb_spec (length P) (size adjacency)); split; naive_solver.
Qed.

(** C3: cycle detection is exact and always answers: whatever order the dependency map is
    iterated in, [DetectCycle] returns no error precisely for the graphs in which no node
    depends on itself, directly or through others, and otherwise it returns a cycle error.
    Neither the drain of Kahn's queue nor the recursion of Tarjan's algorithm
    runs out of its bound, which is the number of nodes. *)
Theorem DetectCycle_acyclic order adjacency :
  order ≡ₚ keys adjacency ->
  (DetectCycle order adjacency = Ok tt <-> acyclic adjacency)
  /\ (DetectCycle order adjacency = Ok tt \/ exists e, DetectCycle order adjacency = Err (Some e)).
Proof.
  intros Ho. destruct (DetectCycle_exact order adjacency Ho) as [Hex [[processed consumed] Hdrain]]. split; [exact Hex|].
  unfold DetectCycle. case_match; [by left|]. rewrite Hdrain. case_match; [by left|right].
  destruct (newCycleError_returns adjacency consumed) as [e ->]. eauto.
Qed.

Lemma DetectCycle_acyclic_witness :
  let g : adjacency_map := list_to_map [("a", ["b"]); ("b", ["a"])] in
  keys g ≡ₚ keys g /\ ~ acyclic g.
Proof.
  split; [done|]. intros Hac.
  apply (proj1 (DetectCycle_acyclic _ _ (Permutation_refl (keys (list_to_map [("a", ["b"]); ("b", ["a"])]))))) in Hac.
  vm_compute in Hac. discriminate Hac.
Defined.
