(* ===== verification/SharedFilePath.v ===== *)
(** * Shared-file paths

    Models [internal/platform/sharedfilepath/policy.go]: the lexical boundary of the
    shared-file sandbox.  [path.Clean] is modelled on the slash-separated segments
    of the path, which is how its documentation defines it. *)

From S2P Require Import Prelude GoStrings.

Definition slash : ascii := "/"%char.

(** [path.Clean] on segments: the stack of kept segments, innermost first.  A parent
    step removes a real segment, is kept at the start of a relative path and is
    dropped at a root. *)
Definition clean_step (rooted : bool) (stack : list string) (seg : string) : list string :=
  if String.eqb seg EmptyString || String.eqb seg "." then stack
  else if String.eqb seg ".." then
    match stack with
    | top :: rest => if String.eqb top ".." then seg :: stack else rest
    | [] => if rooted then [] else [seg]
    end
  else seg :: stack.

Definition Clean (p : string) : string :=
  let rooted := HasPrefix p "/" in
  let segs := rev (foldl (clean_step rooted) [] (split_on slash p)) in
  let body := str_join slash segs in
  if rooted then String slash body
  else if String.eqb body EmptyString then "." else body.

Example clean_ex1 : Clean "./handoff/foo/../task-1//notes.md" = "handoff/task-1/notes.md".
Proof. vm_compute. reflexivity. Qed.
Example clean_ex2 : Clean "a/../../b" = "../b".
Proof. vm_compute. reflexivity. Qed.

(** ** The policy *)

Inductive path_error :=
| ErrPathEmpty | ErrPathAbsolute | ErrPathTraversal | ErrPathPrefixNotAllowed | ErrPathProtectedRoot.

Definition prefixInternal : string := "_internal/".

Definition writePrefixes : list string := ["handoff/"; "dag/"; "inbox/"; "reports/"].

Definition WritePrefixes : list string := writePrefixes.

Definition hasAnyPrefix (s : string) (prefixes : list string) : bool :=
  existsb (HasPrefix s) prefixes.

(** [filepath.IsAbs] of the Unix builds. *)
Definition IsAbs (p : string) : bool := HasPrefix p "/".

Definition cleanRelative (raw : string) : result path_error string :=
  let trimmed := TrimSpace raw in
  if String.eqb trimmed EmptyString then Err ErrPathEmpty
  else
    let normalized := ReplaceAll trimmed "\" "/" in
    if HasPrefix normalized "/" || IsAbs normalized then Err ErrPathAbsolute
    else
      let cleaned := Clean normalized in
      if String.eqb cleaned "." || String.eqb cleaned ".." || HasPrefix cleaned "../"
      then Err ErrPathTraversal
      else
        let cleaned := TrimPrefix cleaned "/" in
        if String.eqb cleaned EmptyString then Err ErrPathEmpty else Ok cleaned.

Definition ValidateWritePath (raw : string) : result path_error string :=
  cleaned ← cleanRelative raw;
  if HasPrefix cleaned prefixInternal then Err ErrPathProtectedRoot
  else if negb (hasAnyPrefix cleaned writePrefixes) then Err ErrPathPrefixNotAllowed
  else Ok cleaned.

Definition ValidateAgentWritePath (raw : string) : result path_error string := ValidateWritePath raw.

Definition ValidateReadPath (raw : string) : result path_error string := cleanRelative raw.

(** ** Resolution stays inside the sandbox *)

(** The directory reached from [stack] by following the segments, the way the file
    system resolves a relative path; [None] when it climbs above the start. *)
Fixpoint resolve (stack segs : list string) : option (list string) :=
  match segs with
  | [] => Some stack
  | seg :: segs =>
      if String.eqb seg EmptyString || String.eqb seg "." then resolve stack segs
      else if String.eqb seg ".." then
        match stack with [] => None | _ :: stack => resolve stack segs end
      else resolve (seg :: stack) segs
  end.

Definition plain_segment (seg : string) : Prop :=
  seg <> EmptyString /\ seg <> "." /\ seg <> ".." /\
  str_forall (fun a => negb (Ascii.eqb a slash)) seg = true.

Lemma split_on_slashfree s : Forall (fun seg => str_forall (fun a => negb (Ascii.eqb a slash)) seg = true) (split_on slash s).
Proof. apply split_on_free. Qed.

Definition slash_free (seg : string) : Prop := str_forall (fun a => negb (Ascii.eqb a slash)) seg = true.

(** One segment below parent steps: they stay at the bottom of the stack. *)
Lemma clean_step_parents l n seg :
  Forall plain_segment l -> slash_free seg ->
  exists l' n', clean_step false (l ++ repeat ".." (S n)) seg = l' ++ repeat ".." (S n')
    /\ Forall plain_segment l'.
Proof.
  intros Hl Hs. unfold clean_step.
  destruct (String.eqb_spec seg EmptyString), (String.eqb_spec seg "."); simpl; eauto.
  destruct (String.eqb_spec seg "..") as [->|].
  - destruct l as [|top l]; simpl.
    + exists [], (S n). by split.
    + inversion Hl as [|? ? (_ & _ & Htop & _)]; subst.
      destruct (String.eqb_spec top ".."); [done|]. eauto.
  - exists (seg :: l), n. split; [done|]. by constructor.
Qed.

Lemma clean_parents segs l n :
  Forall plain_segment l -> Forall slash_free segs ->
  exists l' n', foldl (clean_step false) (l ++ repeat ".." (S n)) segs = l' ++ repeat ".." (S n')
    /\ Forall plain_segment l'.
Proof.
  revert l n. induction segs as [|seg segs IH]; intros l n Hl Hs; [by exists l, n|].
  inversion Hs; subst. cbn [foldl].
  destruct (clean_step_parents l n seg) as (l' & n' & -> & Hl'); [done..|]. by apply IH.
Qed.

(** Cleaning is resolution; a path that climbs above its start keeps a parent step. *)
Lemma clean_resolve segs l :
  Forall plain_segment l -> Forall slash_free segs ->
  match resolve l segs with
  | Some r => foldl (clean_step false) l segs = r /\ Forall plain_segment r
  | None => exists l' n, foldl (clean_step false) l segs = l' ++ repeat ".." (S n)
              /\ Forall plain_segment l'
  end.
Proof.
  revert l. induction segs as [|seg segs IH]; intros l Hl Hs; [done|].
  inversion Hs; subst. simpl. unfold clean_step at 2 4.
  destruct (String.eqb_spec seg EmptyString), (String.eqb_spec seg "."); simpl; try by apply IH.
  destruct (String.eqb_spec seg "..") as [->|].
  - destruct l as [|top l]; [by apply (clean_parents segs [] 0)|].
    inversion Hl as [|? ? (_ & _ & Htop & _)]; subst.
    destruct (String.eqb_spec top ".."); [done|]. by apply IH.
  - apply IH; [|done]. by constructor.
Qed.

Lemma split_join l : l <> [] -> Forall slash_free l -> split_on slash (str_join slash l) = l.
Proof.
  induction l as [|x [|y l] IH]; intros Hne Hl; [done|..]; inversion Hl; subst.
  - by apply split_on_none.
  - change (str_join slash (x :: y :: l)) with (x +:+ String slash (str_join slash (y :: l))).
    rewrite split_on_app by done. f_equal. by apply IH.
Qed.

Lemma plain_slash_free l : Forall plain_segment l -> Forall slash_free l.
Proof. intros H. eapply Forall_impl; [exact H|]. by intros ? (_ & _ & _ & ?). Qed.

Lemma join_parents l n :
  let p := str_join slash (repeat ".." (S n) ++ l) in p = ".." \/ HasPrefix p "../" = true.
Proof.
  destruct n as [|n]; [destruct l as [|x l]|]; [by left|right..]; simpl;
    apply HasPrefix_iff; eexists; by rewrite !str_cons_app.
Qed.

Lemma cleanRelative_spec raw p :
  cleanRelative raw = Ok p ->
  Forall plain_segment (split_on slash p) /\
  resolve [] (split_on slash (ReplaceAll (TrimSpace raw) "\" "/")) = Some (rev (split_on slash p)).
Proof.
  unfold cleanRelative. case_match; [done|]. set (norm := ReplaceAll _ _ _).
  destruct (HasPrefix norm "/") eqn:Hroot; [done|]. unfold IsAbs. rewrite Hroot. simpl.
  unfold Clean. rewrite Hroot.
  pose proof (clean_resolve (split_on slash norm) [] ltac:(constructor) (split_on_slashfree norm)) as Hr.
  destruct (resolve [] (split_on slash norm)) as [r|].
  - destruct Hr as [-> Hr]. destruct (decide (r = [])) as [->|Hne]; [done|].
    assert (rev (rev r) = r) as Hrr by apply rev_involutive.
    assert (rev r <> []) as Hne' by (intros E; rewrite E in Hrr; naive_solver).
    apply Forall_rev in Hr. revert Hr Hrr Hne'. generalize (rev r) as segs. intros segs Hr <- Hne'.
    pose proof (split_join segs Hne' (plain_slash_free _ Hr)) as Hsplit.
    revert Hsplit. generalize (str_join slash segs) as body. intros body Hsplit.
    destruct (String.eqb_spec body EmptyString) as [E|E]; [done|].
    destruct (_ || _ || _); [done|]. unfold TrimPrefix.
    destruct (HasPrefix body "/") eqn:Hp.
    { apply HasPrefix_iff in Hp as [t ->]. rewrite str_cons_app, str_nil_app in Hsplit.
      simpl in Hsplit. rewrite <- Hsplit in Hr. inversion Hr as [|? ? [? _]]. done. }
    case_match; [done|]. intros Hbody. simplify_eq. done.
  - destruct Hr as (l & n & -> & Hl). rewrite rev_app_distr, (rev_repeat (S n) "..").
    destruct (join_parents (rev l) n) as [->|Hp]; [done|].
    set (body := str_join _ _) in *. destruct (String.eqb_spec body EmptyString) as [E|E]; [done|].
    rewrite Hp, !orb_true_r. done.
Qed.

(** A shared-file path accepted for writing is a chain of real segments, neither
    empty nor a dot step, under one of the four public roots and strictly below it;
    it is the location the file system reaches from the sandbox root by the
    requested path, and following the request never climbs above that root. *)
Theorem ValidateWritePath_confined raw p :
  ValidateWritePath raw = Ok p ->
  Forall plain_segment (split_on slash p)
  /\ (exists root rest, split_on slash p = root :: rest /\ rest <> []
        /\ root ∈ ["handoff"; "dag"; "inbox"; "reports"])
  /\ resolve [] (split_on slash (ReplaceAll (TrimSpace raw) "\" "/")) = Some (rev (split_on slash p)).
Proof.
  unfold ValidateWritePath. intros H. apply bind_Ok in H as (q & Hq & H).
  destruct (HasPrefix q prefixInternal); [done|].
  destruct (hasAnyPrefix q writePrefixes) eqn:Hpre; [|done].
  unfold hasAnyPrefix in Hpre. apply existsb_exists in Hpre as (pre & Hin & Hpre). simplify_eq/=.
  destruct (cleanRelative_spec raw p Hq) as [Hplain Hres]. split_and!; [done| |done].
  apply HasPrefix_iff in Hpre as [t ->]. exists (TrimSuffix pre "/"), (split_on slash t).
  destruct Hin as [<-|[<-|[<-|[<-|[]]]]]; (split_and!; [by rewrite <- split_on_app| |set_solver]);
    destruct t; simpl; repeat case_match; done.
Qed.

Lemma ValidateWritePath_confined_witness :
  ValidateWritePath " ./dag/x/../run-1\out.md " = Ok "dag/run-1/out.md"
  /\ Forall plain_segment (split_on slash "dag/run-1/out.md").
Proof.
  assert (ValidateWritePath " ./dag/x/../run-1\out.md " = Ok "dag/run-1/out.md") as H
    by (vm_compute; reflexivity).
  split; [exact H|]. exact (proj1 (ValidateWritePath_confined _ _ H)).
Defined.
