(* ===== verification/Json.v ===== *)
(** * JSON values and the decoding of [encoding/json]

    A JSON text is modelled by its value, members in document order, repeated
    members kept.  A [json.RawMessage] is empty, one JSON value, or bytes that are
    not exactly one JSON value.  [decode] is the typed decoding of [encoding/json]
    into a Go value: [null] keeps a scalar and clears a pointer, slice or map,
    struct members are matched exactly or up to case folding, decoding continues
    after a mismatch and the first one is reported, and the error of a custom
    [UnmarshalJSON] method ends it at once. *)

From S2P Require Import Prelude GoStrings.

Inductive json :=
| JNull
| JBool (b : bool)
| JNum (literal : string)
| JStr (s : string)
| JArr (l : list json)
| JObj (l : list (string * json)).

Inductive RawMessage := RawEmpty | RawBad | RawJSON (j : json).

(** Induction over the nested lists. *)
Section json_induction.
Context (P : json -> Prop).
Context (Hnull : P JNull) (Hbool : forall b, P (JBool b)) (Hnum : forall n, P (JNum n))
        (Hstr : forall s, P (JStr s)) (Harr : forall l, Forall P l -> P (JArr l))
        (Hobj : forall l, Forall (fun m => P m.2) l -> P (JObj l)).

Fixpoint json_ind' (j : json) : P j :=
  match j with
  | JNull => Hnull
  | JBool b => Hbool b
  | JNum n => Hnum n
  | JStr s => Hstr s
  | JArr l => Harr l ((fix go l := match l return Forall P l with
                       | [] => Forall_nil_2 _
                       | x :: l => Forall_cons_2 _ _ _ (json_ind' x) (go l) end) l)
  | JObj l => Hobj l ((fix go l := match l return Forall (fun m => P m.2) l with
                       | [] => Forall_nil_2 _
                       | x :: l => Forall_cons_2 _ _ _ (json_ind' x.2) (go l) end) l)
  end.
End json_induction.

(** ** Go values *)

(** The types the decoder is used at.  [TCustom] names a type with its own
    [UnmarshalJSON]. *)
Inductive gty :=
| TString | TInt | TBool | TRaw
| TSlice (t : gty) | TPtr (t : gty) | TMap (t : gty)
| TStruct (fields : list (string * gty))
| TCustom (name : string).

Inductive gval :=
| VStr (s : string) | VInt (n : Z) | VBool (b : bool) | VRaw (r : RawMessage)
| VSlice (l : option (list gval)) | VPtr (v : option gval)
| VMap (l : option (list (string * gval)))
| VStruct (fields : list (string * gval)).

Fixpoint zero (t : gty) : gval :=
  match t with
  | TString => VStr EmptyString
  | TInt => VInt 0
  | TBool => VBool false
  | TRaw => VRaw RawEmpty
  | TSlice _ => VSlice None
  | TPtr _ => VPtr None
  | TMap _ => VMap None
  | TStruct fs => VStruct ((fun f => (f.1, zero f.2)) <$> fs)
  | TCustom _ => VStruct []
  end.

(** Association lists: a Go map keeps one value per key. *)
Definition get {A} (k : string) (l : list (string * A)) : option A :=
  snd <$> List.find (fun m => String.eqb m.1 k) l.

Fixpoint set {A} (k : string) (v : A) (l : list (string * A)) : list (string * A) :=
  match l with
  | [] => [(k, v)]
  | (k', v') :: l => if String.eqb k' k then (k', v) :: l else (k', v') :: set k v l
  end.

(** The map a JSON object decodes to: the last of the repeated members counts. *)
Definition map_of {A} (l : list (string * A)) : list (string * A) :=
  foldl (fun m kv => set kv.1 kv.2 m) [] l.

(** ** Integers and field names *)

Definition int64_min : Z := -9223372036854775808.
Definition int64_max : Z := 9223372036854775807.
Definition in_int64 (n : Z) : bool := (int64_min <=? n)%Z && (n <=? int64_max)%Z.

Definition digit_of (a : ascii) : option Z :=
  let n := N_of_ascii a in
  if in_range 0x30 0x39 n then Some (Z.of_N n - 48)%Z else None.

Fixpoint parse_digits (s : string) (acc : Z) : option Z :=
  match s with
  | EmptyString => Some acc
  | String a s => d ← digit_of a; parse_digits s (acc * 10 + d)%Z
  end.

(** [strconv.ParseInt(literal, 10, 64)] on a JSON number: a fraction or an exponent
    is not an integer, and the result must fit in 64 bits. *)
Definition parse_int64 (s : string) : option Z :=
  n ← match s with
      | String "-" (String a s) => Z.opp <$> parse_digits (String a s) 0
      | EmptyString => None
      | _ => parse_digits s 0
      end;
  if in_int64 n then Some n else None.

(** The folding of [encoding/json]: ASCII letters upper-cased; of the other runes
    only the long s and the Kelvin sign fold to ASCII. *)
Definition fold_rune (r : rune) : rune :=
  if in_range 0x61 0x7A r then (r - 32)%N
  else if (r =? 0x17F)%N then 0x53%N
  else if (r =? 0x212A)%N then 0x4B%N
  else r.

Definition foldName (s : string) : list rune := fold_rune <$> runes s.

Definition find_field {A} (fields : list (string * A)) (key : string) : option (string * A) :=
  match List.find (fun f => String.eqb f.1 key) fields with
  | Some f => Some f
  | None => List.find (fun f => bool_decide (foldName f.1 = foldName key)) fields
  end.

(** ** Decoding *)

(** [JCustom] carries the error of an [UnmarshalJSON] method. *)
Inductive jerr {C : Type} :=
| JUnknownField (key : string)
| JMismatch
| JSyntax
| JCustom (e : C).
Arguments jerr : clear implicits.

Definition is_fatal {C} (e : jerr C) : bool :=
  match e with JCustom _ => true | _ => false end.

(** A saved error: the first one counts, unless a method fails later. *)
Definition saved {C A} (e : jerr C) (rest : result (jerr C) A) : result (jerr C) A :=
  if is_fatal e then Err e
  else match rest with Err (JCustom c) => Err (JCustom c) | _ => Err e end.

Section decode.
Context {C : Type} (strict : bool).
Context (custom : string -> json -> result (jerr C) gval).

Fixpoint decode (t : gty) (j : json) (cur : gval) {struct j} : result (jerr C) gval :=
  let ptr := match t with TPtr _ => true | _ => false end in
  let base := match t with TPtr b => b | _ => t end in
  let cur := match t, cur with
             | TPtr b, VPtr (Some v) => v
             | TPtr b, _ => zero b
             | _, _ => cur
             end in
  let wrap := fun r : result (jerr C) gval =>
    if ptr then (fun v => VPtr (Some v)) <$> r else r in
  match j, base with
  | JNull, TSlice _ => Ok (if ptr then VPtr None else VSlice None)
  | JNull, TMap _ => Ok (if ptr then VPtr None else VMap None)
  | JNull, TCustom name => if ptr then Ok (VPtr None) else custom name JNull
  | JNull, TRaw => Ok (if ptr then VPtr None else VRaw (RawJSON JNull))
  | JNull, _ => Ok (if ptr then VPtr None else cur)
  | _, TCustom name => wrap (custom name j)
  | _, TRaw => wrap (Ok (VRaw (RawJSON j)))
  | JBool b, TBool => wrap (Ok (VBool b))
  | JStr s, TString => wrap (Ok (VStr s))
  | JNum n, TInt =>
      match parse_int64 n with Some z => wrap (Ok (VInt z)) | None => Err JMismatch end
  | JArr l, TSlice e =>
      wrap ((fun vs => VSlice (Some vs)) <$>
        (fix go (l : list json) : result (jerr C) (list gval) :=
           match l with
           | [] => Ok []
           | x :: l =>
               match decode e x (zero e) with
               | Ok v => vs ← go l; Ok (v :: vs)
               | Err err => saved err (go l)
               end
           end) l)
  | JObj l, TMap e =>
      wrap ((fun vs => VMap (Some vs)) <$>
        (fix go (l : list (string * json)) (acc : list (string * gval))
           : result (jerr C) (list (string * gval)) :=
           match l with
           | [] => Ok acc
           | (k, x) :: l =>
               match decode e x (zero e) with
               | Ok v => go l (set k v acc)
               | Err err => saved err (go l acc)
               end
           end) l (match cur with VMap (Some m) => m | _ => [] end))
  | JObj l, TStruct fs =>
      wrap (VStruct <$>
        (fix go (l : list (string * json)) (acc : list (string * gval))
           : result (jerr C) (list (string * gval)) :=
           match l with
           | [] => Ok acc
           | (k, x) :: l =>
               match find_field fs k with
               | None => if strict then saved (JUnknownField k) (go l acc) else go l acc
               | Some (name, ft) =>
                   match decode ft x (default (zero ft) (get name acc)) with
                   | Ok v => go l (set name v acc)
                   | Err err => saved err (go l acc)
                   end
               end
           end) l (match cur with VStruct m => m | _ => [] end))
  | _, _ => Err JMismatch
  end.
End decode.

Definition no_custom {C} (_ : string) (_ : json) : result (jerr C) gval := Err JMismatch.

(** [json.Unmarshal(raw, &v)] for a zero [v]. *)
Definition Unmarshal {C} (strict : bool) (custom : string -> json -> result (jerr C) gval)
    (t : gty) (raw : RawMessage) : result (jerr C) gval :=
  match raw with
  | RawJSON j => decode strict custom t j (zero t)
  | _ => Err JSyntax
  end.

(** Field access on decoded values. *)
Definition field (k : string) (v : gval) : gval :=
  match v with VStruct fs => default (VStruct []) (get k fs) | _ => VStruct [] end.
Definition str_val (v : gval) : string := match v with VStr s => s | _ => EmptyString end.
Definition int_val (v : gval) : Z := match v with VInt n => n | _ => 0%Z end.
Definition bool_val (v : gval) : bool := match v with VBool b => b | _ => false end.
Definition raw_val (v : gval) : RawMessage := match v with VRaw r => r | _ => RawEmpty end.
Definition ptr_val (v : gval) : option gval := match v with VPtr p => p | _ => None end.
Definition slice_val (v : gval) : list gval :=
  match v with VSlice l => default [] l | _ => [] end.
Definition map_val (v : gval) : list (string * gval) :=
  match v with VMap l => default [] l | _ => [] end.
Definition strs_val (v : gval) : list string := str_val <$> slice_val v.

(** ** Lists of strings as messages *)

(** [json.Marshal] of a list of strings.  The strings of this program were decoded
    from JSON, so they are valid UTF-8 and marshalling keeps them. *)
Definition marshal_strings (l : list string) : RawMessage := RawJSON (JArr (JStr <$> l)).

Definition unmarshal_strings (raw : RawMessage) : option (list string) :=
  match Unmarshal (C := unit) false no_custom (TSlice TString) raw with
  | Ok v => Some (strs_val v)
  | Err _ => None
  end.

Example decode_ex1 :
  Unmarshal (C := unit) true no_custom (TStruct [("timeout", TString); ("retry", TInt)])
    (RawJSON (JObj [("Timeout", JStr "5s"); ("retry", JNum "3"); ("retry", JNull)]))
  = Ok (VStruct [("timeout", VStr "5s"); ("retry", VInt 3)]).
Proof. vm_compute. reflexivity. Qed.

Example decode_ex2 :
  Unmarshal (C := unit) true no_custom (TStruct [("retry", TInt)])
    (RawJSON (JObj [("retries", JNum "3"); ("retry", JNum "1.5")]))
  = Err (JUnknownField "retries").
Proof. vm_compute. reflexivity. Qed.

(** ** Lemmas on decoded values *)

Lemma set_fmap {A B} (g : string -> A -> B) k v (l : list (string * A)) :
  set k (g k v) ((fun m => (m.1, g m.1 m.2)) <$> l) = (fun m => (m.1, g m.1 m.2)) <$> set k v l.
Proof.
  induction l as [|[k' v'] l IH]; simpl; [done|].
  destruct (String.eqb_spec k' k) as [->|]; simpl; [done|]. f_equal. apply IH.
Qed.

(** Decoding into a map commutes with a function of the members. *)
Lemma map_of_fmap {A B} (g : string -> A -> B) (l : list (string * A)) :
  map_of ((fun m => (m.1, g m.1 m.2)) <$> l) = (fun m => (m.1, g m.1 m.2)) <$> map_of l.
Proof.
  unfold map_of. change (@nil (string * B)) with ((fun m => (m.1, g m.1 m.2)) <$> @nil (string * A)).
  generalize (@nil (string * A)). induction l as [|[k v] l IH]; intros acc; [done|].
  simpl. rewrite set_fmap. apply IH.
Qed.

Lemma elem_of_set {A} k (v : A) l m : m ∈ set k v l -> m = (k, v) \/ m ∈ l.
Proof.
  induction l as [|[k' v'] l IH]; simpl; [set_solver|].
  destruct (String.eqb_spec k' k) as [->|]; set_solver.
Qed.

Lemma elem_of_map_of {A} (l : list (string * A)) m : m ∈ map_of l -> m ∈ l.
Proof.
  unfold map_of. enough (forall acc, m ∈ foldl (fun m kv => set kv.1 kv.2 m) acc l -> m ∈ acc \/ m ∈ l) as H.
  { intros [[]%not_elem_of_nil|?]%H; done. }
  induction l as [|[k v] l IH]; intros acc; simpl; [by left|].
  intros [[->|?]%elem_of_set|?]%IH; set_solver.
Qed.

Lemma get_set {A} k k' (v : A) l :
  get k (set k' v l) = if String.eqb k' k then Some v else get k l.
Proof.
  unfold get. induction l as [|[k1 v1] l IH]; simpl; [by destruct (String.eqb k' k)|].
  destruct (String.eqb_spec k1 k') as [->|Hne]; simpl.
  - by destruct (String.eqb_spec k' k).
  - destruct (String.eqb_spec k1 k) as [->|]; [|apply IH].
    by destruct (String.eqb_spec k' k) as [->|].
Qed.

Lemma find_field_elem {A} (fs : list (string * A)) k f : find_field fs k = Some f -> f ∈ fs.
Proof.
  unfold find_field. intros H. apply list_elem_of_In.
  destruct (List.find _ fs) eqn:E; simplify_eq; [apply (find_some _ _ E)|apply (find_some _ _ H)].
Qed.

Lemma saved_not_Ok {C A} (e : jerr C) (r : result (jerr C) A) a : saved e r <> Ok a.
Proof. unfold saved. destruct (is_fatal e); [done|]. by destruct r as [|[]]. Qed.

(** An object decoded into a struct: an invariant of assigning one decoded member is
    an invariant of the fields. *)
Lemma decode_struct_inv {C} strict custom fs l acc v (P : list (string * gval) -> Prop) :
  (forall k x name ft a v', (k, x) ∈ l -> find_field fs k = Some (name, ft) -> P a ->
     decode (C := C) strict custom ft x (default (zero ft) (get name a)) = Ok v' -> P (set name v' a)) ->
  P acc -> decode strict custom (TStruct fs) (JObj l) (VStruct acc) = Ok v ->
  exists m, v = VStruct m /\ P m /\ (strict = true -> forall k x, (k, x) ∈ l -> is_Some (find_field fs k)).
Proof.
  cbn -[saved find_field get set]. intros Hstep Hacc Hdec.
  match type of Hdec with _ <$> ?r = _ => destruct r as [m|] eqn:Hgo; [|done] end. simplify_eq/=.
  exists m. split; [done|]. revert acc Hacc Hgo.
  induction l as [|[k x] l IH]; intros acc Hacc Hgo; simplify_eq; [by split; [|set_solver]|].
  assert (forall k' x' name ft a v', (k', x') ∈ l -> find_field fs k' = Some (name, ft) -> P a ->
     decode strict custom ft x' (default (zero ft) (get name a)) = Ok v' -> P (set name v' a)) as Hstep'.
  { intros k' x' name ft a v' Hin. apply (Hstep k' x' name ft a v'). by right. }
  destruct (find_field fs k) as [[name ft]|] eqn:Hf.
  - destruct (decode _ _ ft x _) as [v'|] eqn:Hd; [|by apply saved_not_Ok in Hgo].
    destruct (IH Hstep' _ (Hstep _ _ _ _ _ _ ltac:(by left) Hf Hacc Hd) Hgo) as [? Hk]. split; [done|].
    intros Hs k' x' [?|?]%elem_of_cons; simplify_eq; eauto.
  - destruct strict; [by apply saved_not_Ok in Hgo|]. destruct (IH Hstep' _ Hacc Hgo). by split.
Qed.

Lemma unmarshal_marshal_strings l : unmarshal_strings (marshal_strings l) = Some l.
Proof.
  unfold unmarshal_strings, marshal_strings. simpl.
  set (go := fix go (l : list json) := _).
  assert (go (JStr <$> l) = Ok (VStr <$> l)) as ->.
  { induction l as [|s l IH]; [done|]. cbn. fold go. by rewrite IH. }
  cbn. f_equal. unfold strs_val. cbn. rewrite <- list_fmap_compose. by apply list_fmap_id.
Qed.
