(* ===== verification/NodeConfig.v ===== *)
(** * Node configuration

    Models [nodeexec/config.go], with [contract.ValidateLaunchCWD] and the
    environment whitelist of [nodeexec/executor_automation_command.go]: the typed
    node configuration, its strict decoding by node type, the execution timeout,
    the artifact rules and the check made before a configuration is stored.  A
    struct type is its decoding descriptor; a decoded configuration is read by field
    name. *)

From S2P Require Import Prelude GoStrings Json SharedFilePath.
From Stdlib Require Import Floats.SpecFloat.

(** ** Struct types *)

Definition SummarizationConfig_t : gty := TStruct [("strategy", TString); ("max_tokens", TInt)].

Definition InputsConfig_t : gty := TStruct [
  ("from_nodes", TSlice TString); ("from_sharedfiles", TSlice TString);
  ("summarization", TPtr SummarizationConfig_t)].

Definition SharedfileTarget_t : gty := TStruct [("path", TString); ("lock_mode", TString)].

Definition ArtifactTarget_t : gty := TStruct [
  ("source_tool", TString); ("source_path_field", TString); ("source_text_field", TString);
  ("path_template", TString); ("content_type", TString);
  ("allowed_extensions", TSlice TString); ("allowed_source_roots", TSlice TString);
  ("max_bytes", TInt); ("overwrite", TString)].

Definition OutputsConfig_t : gty := TStruct [
  ("to_sharedfile", TPtr SharedfileTarget_t); ("to_artifact", TPtr ArtifactTarget_t);
  ("to_node_result", TBool); ("node_result_envelope", TPtr TBool); ("schema", TRaw)].

Definition OnFailureConfig_t : gty := TStruct [
  ("default", TString); ("by_class", TMap TString); ("max_attempts", TInt);
  ("escalation_chain", TSlice TString)].

Definition ExecutionConfig_t : gty := TStruct [
  ("timeout", TString); ("timeout_sec", TInt); ("retry", TInt)].

Definition AgentExecConfig_t : gty := TStruct [
  ("provider", TString); ("model", TString); ("codex_home", TString);
  ("codex_instance_key", TString); ("codex_model_provider", TString); ("agent_key", TString);
  ("prompt_key", TString); ("cwd", TString); ("effort", TString); ("language", TString);
  ("isolation", TString); ("allowed_tools", TSlice TString); ("disabled_tools", TSlice TString);
  ("budget_tokens", TInt); ("on_failure", TPtr OnFailureConfig_t)].

Definition AutomationExecConfig_t : gty := TStruct [
  ("kind", TString); ("command_ref", TString); ("args", TRaw); ("cwd", TString);
  ("workspace_roots", TSlice TString); ("env", TMap TString); ("budget_tokens", TInt);
  ("on_failure", TPtr OnFailureConfig_t)].

Definition HybridExecConfig_t : gty := TStruct [
  ("automation", TPtr AutomationExecConfig_t); ("verifier", TPtr AgentExecConfig_t)].

Definition NodeUIConfig_t : gty := TStruct [
  ("stage_key", TString); ("stage_title", TString); ("execution_mode", TString);
  ("operation_summary", TString); ("model_action", TString); ("skills", TSlice TString);
  ("input_sources", TSlice TString); ("expected_outputs", TSlice TString)].

Definition AgentNodeConfig_t : gty := TStruct [
  ("exec", AgentExecConfig_t); ("execution", ExecutionConfig_t); ("inputs", InputsConfig_t);
  ("outputs", OutputsConfig_t); ("ui", TPtr NodeUIConfig_t); ("first_turn", TString)].

Definition AutomationNodeConfig_t : gty := TStruct [
  ("exec", AutomationExecConfig_t); ("execution", ExecutionConfig_t); ("inputs", InputsConfig_t);
  ("outputs", OutputsConfig_t); ("ui", TPtr NodeUIConfig_t)].

Definition HybridNodeConfig_t : gty := TStruct [
  ("exec", HybridExecConfig_t); ("execution", ExecutionConfig_t); ("inputs", InputsConfig_t);
  ("outputs", OutputsConfig_t); ("ui", TPtr NodeUIConfig_t)].

Record ParsedNodeConfig := mkParsed {
  NodeType : string;
  Agent : option gval;
  Automation : option gval;
  Hybrid : option gval;
}.

(** ** Errors *)

Definition ErrUnsupportedAutomationKind : string := "ErrUnsupportedAutomationKind".
Definition ErrUnknownNodeType : string := "ErrUnknownNodeType".
Definition ErrLaunchCWDRequired : string := "ErrLaunchCWDRequired".
Definition ErrLaunchCWDInvalid : string := "ErrLaunchCWDInvalid".

Definition plain_error (s : string) : error := Errorf [] (Sprintf s []).

(** ** Durations

    [time.ParseDuration] on unsigned 64-bit nanoseconds.  The fraction of a
    component is computed in binary64, as the library does. *)

Definition f64 (n : Z) : spec_float := binary_normalize 53 1024 n 0 false.
Definition f64_mul : spec_float -> spec_float -> spec_float := SFmul 53 1024.
Definition f64_div : spec_float -> spec_float -> spec_float := SFdiv 53 1024.

Definition f64_trunc (f : spec_float) : Z :=
  match f with
  | S754_finite s m e =>
      let n := if (0 <=? e)%Z then Z.shiftl (Zpos m) e else Z.shiftr (Zpos m) (- e) in
      if s then (- n)%Z else n
  | _ => 0%Z
  end.

Definition two63 : Z := 9223372036854775808.

(** [leadingInt]: the digits' value and the rest; [None] on overflow. *)
Fixpoint leadingInt (s : string) (x : Z) : option (Z * string) :=
  match s with
  | EmptyString => Some (x, s)
  | String a t =>
      match digit_of a with
      | None => Some (x, s)
      | Some d =>
          if (two63 / 10 <? x)%Z then None
          else let x := (x * 10 + d)%Z in
               if (two63 <? x)%Z then None else leadingInt t x
      end
  end.

(** [leadingFraction]: digits past the precision are skipped. *)
Fixpoint leadingFraction (s : string) (x : Z) (scale : spec_float) (overflow : bool)
  : Z * spec_float * string :=
  match s with
  | EmptyString => (x, scale, s)
  | String a t =>
      match digit_of a with
      | None => (x, scale, s)
      | Some d =>
          if overflow then leadingFraction t x scale true
          else if ((two63 - 1) / 10 <? x)%Z then leadingFraction t x scale true
          else let y := (x * 10 + d)%Z in
               if (two63 <? y)%Z then leadingFraction t x scale true
               else leadingFraction t y (f64_mul scale (f64 10)) false
      end
  end.

Fixpoint take_unit (s : string) : string * string :=
  match s with
  | EmptyString => (EmptyString, EmptyString)
  | String a t =>
      if Ascii.eqb a "." || match digit_of a with Some _ => true | None => false end
      then (EmptyString, s)
      else let '(u, r) := take_unit t in (String a u, r)
  end.

(** The unit table; the two spellings of the micro sign are two-byte strings. *)
Definition unit_of (u : string) : option Z :=
  let micro1 := String "194" (String "181" "s") in
  let micro2 := String "206" (String "188" "s") in
  if String.eqb u "ns" then Some 1%Z
  else if String.eqb u "us" || String.eqb u micro1 || String.eqb u micro2 then Some 1000%Z
  else if String.eqb u "ms" then Some 1000000%Z
  else if String.eqb u "s" then Some 1000000000%Z
  else if String.eqb u "m" then Some 60000000000%Z
  else if String.eqb u "h" then Some 3600000000000%Z
  else None.

(** One number and unit; every component consumes at least one byte, so the length
    of the text is fuel enough. *)
Definition duration_component (s : string) : option (Z * string) :=
  '(v, s1) ← leadingInt s 0;
  let pre := negb (String.length s =? String.length s1)%nat in
  let '(f, scale, s2, post) :=
    match s1 with
    | String "." t =>
        let '(f, scale, r) := leadingFraction t 0 (f64 1) false in
        (f, scale, r, negb (String.length t =? String.length r)%nat)
    | _ => (0%Z, f64 1, s1, false)
    end in
  if negb pre && negb post then None
  else
    let '(u, s3) := take_unit s2 in
    if String.eqb u EmptyString then None
    else
      unit ← unit_of u;
      if (two63 / unit <? v)%Z then None
      else
        let v := (v * unit)%Z in
        let v := if (0 <? f)%Z
                 then (v + f64_trunc (f64_mul (f64 f) (f64_div (f64 unit) scale)))%Z else v in
        if (0 <? f)%Z && (two63 <? v)%Z then None else Some (v, s3).

Fixpoint duration_loop (fuel : nat) (s : string) (d : Z) : option Z :=
  match s, fuel with
  | EmptyString, _ => Some d
  | _, O => None
  | _, S fuel =>
      '(v, s) ← duration_component s;
      let d := (d + v)%Z in
      if (two63 <? d)%Z then None else duration_loop fuel s d
  end.

Definition ParseDuration (s : string) : option Z :=
  let '(neg, s) := match s with
                   | String "-" t => (true, t)
                   | String "+" t => (false, t)
                   | _ => (false, s)
                   end in
  if String.eqb s "0" then Some 0%Z
  else if String.eqb s EmptyString then None
  else
    d ← duration_loop (String.length s) s 0;
    if neg then Some (- d)%Z
    else if (two63 - 1 <? d)%Z then None else Some d.

Example duration_ex1 : ParseDuration "1h30m" = Some 5400000000000%Z.
Proof. vm_compute. reflexivity. Qed.
Example duration_ex2 : ParseDuration "1.5s" = Some 1500000000%Z.
Proof. vm_compute. reflexivity. Qed.
Example duration_ex3 : ParseDuration "-2.25ms" = Some (-2250000)%Z.
Proof. vm_compute. reflexivity. Qed.
Example duration_ex4 : ParseDuration "5" = None.
Proof. vm_compute. reflexivity. Qed.

(** ** Execution timeout *)

(** Multiplication of 64-bit integers wraps around. *)
Definition wrap64 (n : Z) : Z := ((n + two63) mod (2 * two63) - two63)%Z.

Definition Second : Z := 1000000000.

(** [(0, false, nil)] is [Ok None]. *)
Definition parseExecutionTimeoutString (raw : string) : result error (option Z) :=
  let trimmed := TrimSpace raw in
  if String.eqb trimmed EmptyString then Ok None
  else match ParseDuration trimmed with
       | None => Err (plain_error "execution.timeout parse duration: %w")
       | Some timeout =>
           if (timeout <=? 0)%Z then Err (plain_error "execution.timeout must be positive")
           else Ok (Some timeout)
       end.

Definition parseExecutionTimeoutSeconds (seconds : Z) : result error (option Z) :=
  if (seconds =? 0)%Z then Ok None
  else if (seconds <? 0)%Z then Err (plain_error "execution.timeout_sec must be positive")
  else Ok (Some (wrap64 (seconds * Second))).

Definition resolveExecutionConfigTimeout (cfg : gval) : result error (option Z) :=
  duration ← parseExecutionTimeoutString (str_val (field "timeout" cfg));
  seconds ← parseExecutionTimeoutSeconds (int_val (field "timeout_sec" cfg));
  match duration, seconds with
  | Some d, Some s =>
      if (d =? s)%Z then Ok (Some d)
      else Err (plain_error "execution.timeout conflicts with execution.timeout_sec")
  | Some d, None => Ok (Some d)
  | None, Some s => Ok (Some s)
  | None, None => Ok None
  end.

Definition ExecutionTimeout : gval -> result error (option Z) := resolveExecutionConfigTimeout.

Definition executionTimeoutEnvelope_t : gty := TStruct [
  ("execution", ExecutionConfig_t);
  ("schedule", TStruct [("default_timeout_sec", TInt)])].

Definition decodeExecutionTimeout (raw : RawMessage) (includeScheduleDefault : bool)
  : result error (option Z) :=
  match raw with
  | RawEmpty => Ok None
  | _ =>
      envelope ← map_err (fun _ : jerr error => plain_error "decode execution envelope: %w")
                   (Unmarshal false no_custom executionTimeoutEnvelope_t raw);
      timeout ← resolveExecutionConfigTimeout (field "execution" envelope);
      match timeout, includeScheduleDefault with
      | Some t, _ => Ok (Some t)
      | None, false => Ok None
      | None, true =>
          let sec := int_val (field "default_timeout_sec" (field "schedule" envelope)) in
          if (sec =? 0)%Z then Ok None
          else if (sec <? 0)%Z then Err (plain_error "schedule.default_timeout_sec must be positive")
          else Ok (Some (wrap64 (sec * Second)))
      end
  end.

(** 0 stands for no timeout. *)
Definition ResolveExecutionTimeout (dagMetadata nodeConfig : RawMessage) : result error Z :=
  dag ← map_err (fun e => Errorf (err_is e) (Sprintf "dag metadata execution timeout: %w" []))
          (decodeExecutionTimeout dagMetadata true);
  node ← map_err (fun e => Errorf (err_is e) (Sprintf "node config execution timeout: %w" []))
           (decodeExecutionTimeout nodeConfig false);
  match node, dag with
  | Some t, _ => Ok t
  | None, Some t => Ok t
  | None, None => Ok 0%Z
  end.

Definition validateExecutionConfig (cfg : gval) : result error unit :=
  if (int_val (field "retry" cfg) <? 0)%Z
  then Err (plain_error "execution.retry must be non-negative, got %d")
  else _ ← ExecutionTimeout cfg; Ok tt.

(** ** Artifact rules *)

Definition has_run_token (template : string) : bool :=
  Contains template "{{run_key}}" || Contains template "{{run_id}}".

(** [ArtifactTarget.Validate] on a non-nil target. *)
Definition ArtifactTarget_Validate (t : gval) : result error unit :=
  if String.eqb (TrimSpace (str_val (field "source_tool" t))) EmptyString
  then Err (plain_error "nodeexec: outputs.to_artifact.source_tool is required")
  else
    let pathField := TrimSpace (str_val (field "source_path_field" t)) in
    let textField := TrimSpace (str_val (field "source_text_field" t)) in
    if String.eqb pathField EmptyString && String.eqb textField EmptyString
    then Err (plain_error "nodeexec: outputs.to_artifact.source_path_field or source_text_field is required")
    else if negb (String.eqb pathField EmptyString) && negb (String.eqb textField EmptyString)
    then Err (plain_error "nodeexec: outputs.to_artifact.source_path_field and source_text_field are mutually exclusive")
    else
      let pathTemplate := TrimSpace (str_val (field "path_template" t)) in
      if String.eqb pathTemplate EmptyString
      then Err (plain_error "nodeexec: outputs.to_artifact.path_template is required")
      else if negb (has_run_token pathTemplate)
      then Err (plain_error "nodeexec: outputs.to_artifact.path_template must contain {{run_key}} or {{run_id}}")
      else Ok tt.

Definition validateOutputsConfig (out : gval) : result error unit :=
  match ptr_val (field "to_artifact" out) with
  | None => Ok tt
  | Some t => ArtifactTarget_Validate t
  end.

Definition path_sentinel (e : path_error) : string :=
  match e with
  | ErrPathEmpty => "ErrPathEmpty"
  | ErrPathAbsolute => "ErrPathAbsolute"
  | ErrPathTraversal => "ErrPathTraversal"
  | ErrPathPrefixNotAllowed => "ErrPathPrefixNotAllowed"
  | ErrPathProtectedRoot => "ErrPathProtectedRoot"
  end.

Definition renderArtifactTargetPath (template : string) (runID : Z) : result error string :=
  let trimmed := TrimSpace template in
  if negb (has_run_token trimmed) then Err (plain_error "must contain {{run_key}} or {{run_id}}")
  else if (runID <=? 0)%Z then Err (plain_error "run_id is required")
  else
    let runIDText := pretty runID in
    let rendered := ReplaceAll trimmed "{{run_id}}" runIDText in
    let rendered := ReplaceAll rendered "{{run_key}}" ("run-" +:+ runIDText) in
    map_err (fun e => Errorf [path_sentinel e] (Sprintf "%w" [])) (ValidateWritePath rendered).

(** [artifactStringField]: a present, non-blank string, trimmed. *)
Definition artifactStringField (obj : list (string * json)) (key : string) : option string :=
  match get key obj with
  | Some (JStr text) =>
      if String.eqb (TrimSpace text) EmptyString then None else Some (TrimSpace text)
  | _ => None
  end.

(** The first of the identifying members that is present decides. *)
Definition artifactObjectMatchesTool (obj : list (string * json)) (sourceTool : string)
    (requireTool : bool) : bool :=
  match omap (artifactStringField obj) ["source_tool"; "tool_name"; "tool"; "name"] with
  | got :: _ => String.eqb got sourceTool
  | [] => negb requireTool
  end.

Definition object_containers : list string :=
  ["structuredContent"; "structured_content"; "result"; "output"; "payload"].
Definition list_containers : list string := ["tool_results"; "toolResults"; "items"].

(** The first result of a search over several places. *)
Definition first_some {A} (l : list (option A)) : option A :=
  match omap (fun x => x) l with x :: _ => Some x | [] => None end.

(** The search below one member of an object, for either value of [requireTool];
    [is_obj] and [is_arr] are the type assertions of the code. *)
Record below := mkBelow { is_obj : bool; is_arr : bool; search : bool -> option string }.

Definition in_object (members : list (string * below)) (key : string) : option string :=
  match get key members with
  | Some b => if is_obj b then search b false else None
  | None => None
  end.
Definition in_list (members : list (string * below)) (key : string) : option string :=
  match get key members with
  | Some b => if is_arr b then search b true else None
  | None => None
  end.

Definition containers (members : list (string * below)) (sourceTool : string)
  : list (option string) :=
  in_object members sourceTool :: (in_object members <$> object_containers)
    ++ (in_list members <$> list_containers).

Section search.
Context (sourceTool wanted : string).

Definition artifactPathFromDirectObject (obj : list (string * json)) (requireTool : bool)
  : option string :=
  if artifactObjectMatchesTool obj sourceTool requireTool
  then artifactStringField obj wanted else None.

Definition below_of (f : json -> bool -> option string) (v : json) : below :=
  mkBelow (match v with JObj _ => true | _ => false end)
          (match v with JArr _ => true | _ => false end) (f v).

(** [artifactPathFromObject] and [artifactPathFromValue] on the decoded value: the
    object itself, the member named like the tool, the object containers, then the
    list containers. *)
Fixpoint artifactPathFromValue (value : json) (requireTool : bool) : option string :=
  match value with
  | JObj members =>
      let inner := map_of ((fun m => (m.1, below_of artifactPathFromValue m.2)) <$> members) in
      first_some (artifactPathFromDirectObject (map_of members) requireTool
                  :: containers inner sourceTool)
  | JArr items => first_some ((fun item => artifactPathFromValue item true) <$> items)
  | _ => None
  end.

(** [artifactTextFromObject] returns the field of a matching object at once, also
    when the field is missing. *)
Fixpoint artifactTextFromValue (value : json) (requireTool : bool) : option string :=
  match value with
  | JObj members =>
      if artifactObjectMatchesTool (map_of members) sourceTool requireTool
      then artifactStringField (map_of members) wanted
      else
        let inner := map_of ((fun m => (m.1, below_of artifactTextFromValue m.2)) <$> members) in
        first_some (containers inner sourceTool)
  | JArr items => first_some ((fun item => artifactTextFromValue item true) <$> items)
  | _ => None
  end.
End search.

(** [extractArtifactSourcePath] and [extractArtifactSourceText]: the results found
    are trimmed and not blank. *)
Definition extract_source (find : string -> string -> json -> bool -> option string)
    (rawResult : RawMessage) (sourceTool wanted : string) : result error string :=
  match rawResult with
  | RawJSON payload =>
      match find (TrimSpace sourceTool) (TrimSpace wanted) payload false with
      | Some text =>
          if String.eqb (TrimSpace text) EmptyString
          then Err (plain_error "source field from tool not found in structured JSON result")
          else Ok (TrimSpace text)
      | None => Err (plain_error "source field from tool not found in structured JSON result")
      end
  | _ => Err (plain_error "source requires structured JSON result")
  end.

Definition extractArtifactSourcePath := extract_source artifactPathFromValue.
Definition extractArtifactSourceText := extract_source artifactTextFromValue.

Record ArtifactImportPlan := mkImportPlan {
  ip_SourcePath : string; ip_TargetPath : string; ip_ContentType : string;
  ip_AllowedExtensions : list string; ip_AllowedSourceRoots : list string;
  ip_MaxBytes : Z; ip_Overwrite : string;
}.

Record ArtifactTextPlan := mkTextPlan {
  tp_SourceText : string; tp_TargetPath : string; tp_ContentType : string;
  tp_MaxBytes : Z; tp_Overwrite : string;
}.

Definition BuildArtifactImportPlan (target : option gval) (rawResult : RawMessage) (runID : Z)
  : result error ArtifactImportPlan :=
  match target with
  | None => Err (plain_error "outputs.to_artifact is required")
  | Some t =>
      if negb (String.eqb (TrimSpace (str_val (field "source_text_field" t))) EmptyString)
      then Err (plain_error "source_path_field is required for local artifact import")
      else
        sourcePath ← extractArtifactSourcePath rawResult (str_val (field "source_tool" t))
                       (str_val (field "source_path_field" t));
        targetPath ← map_err (fun e => Errorf (err_is e) (Sprintf "path_template: %w" []))
                       (renderArtifactTargetPath (str_val (field "path_template" t)) runID);
        Ok (mkImportPlan sourcePath targetPath (str_val (field "content_type" t))
              (strs_val (field "allowed_extensions" t)) (strs_val (field "allowed_source_roots" t))
              (int_val (field "max_bytes" t)) (str_val (field "overwrite" t)))
  end.

Definition BuildArtifactTextPlan (target : option gval) (rawResult : RawMessage) (runID : Z)
  : result error ArtifactTextPlan :=
  match target with
  | None => Err (plain_error "outputs.to_artifact is required")
  | Some t =>
      if negb (String.eqb (TrimSpace (str_val (field "source_path_field" t))) EmptyString)
      then Err (plain_error "source_text_field is required for generated document artifact")
      else
        sourceText ← extractArtifactSourceText rawResult (str_val (field "source_tool" t))
                       (str_val (field "source_text_field" t));
        targetPath ← map_err (fun e => Errorf (err_is e) (Sprintf "path_template: %w" []))
                       (renderArtifactTargetPath (str_val (field "path_template" t)) runID);
        Ok (mkTextPlan sourceText targetPath (str_val (field "content_type" t))
              (int_val (field "max_bytes" t)) (str_val (field "overwrite" t)))
  end.

(** ** Parsing by node type *)

Definition AutomationKindCommandCard : string := "command_card".

Definition set_field (k : string) (v : gval) (s : gval) : gval :=
  match s with VStruct fs => VStruct (set k v fs) | _ => s end.

(** A message that is not exactly one JSON value fails either in the first or in
    the trailing [Decode]. *)
Definition decodeStrictNodeConfig (raw : RawMessage) (t : gty) : result error gval :=
  map_err (fun _ : jerr error => plain_error "decode error") (Unmarshal true no_custom t raw).

(** The part the three parsers share: strict decoding, then the checks of the
    execution and outputs blocks. *)
Definition parse_config (t : gty) (raw : RawMessage) : result error gval :=
  cfg ← map_err (fun e => Errorf (err_is e) (Sprintf "nodeexec: parse config: %w" []))
          (decodeStrictNodeConfig raw t);
  _ ← validateExecutionConfig (field "execution" cfg);
  _ ← validateOutputsConfig (field "outputs" cfg);
  Ok cfg.

Definition ParseAgentConfig (raw : RawMessage) : result error gval :=
  match raw with
  | RawEmpty => Ok (zero AgentNodeConfig_t)
  | _ => parse_config AgentNodeConfig_t raw
  end.

Definition ParseAutomationConfig (raw : RawMessage) : result error gval :=
  match raw with
  | RawEmpty => Ok (zero AutomationNodeConfig_t)
  | _ =>
      cfg ← parse_config AutomationNodeConfig_t raw;
      let exec := field "exec" cfg in
      let kind := str_val (field "kind" exec) in
      if String.eqb kind EmptyString
      then Ok (set_field "exec" (set_field "kind" (VStr AutomationKindCommandCard) exec) cfg)
      else if String.eqb kind AutomationKindCommandCard then Ok cfg
      else Err (Errorf [ErrUnsupportedAutomationKind] (Sprintf "%q (allowed: command_card)" [kind]))
  end.

Definition ParseHybridConfig (raw : RawMessage) : result error gval :=
  match raw with
  | RawEmpty => Ok (zero HybridNodeConfig_t)
  | _ => parse_config HybridNodeConfig_t raw
  end.

Definition NormalizeNodeType (raw : string) : string :=
  let t := TrimSpace raw in if String.eqb t EmptyString then "agent" else t.

Definition ParseNodeConfig (nodeType : string) (raw : RawMessage) : result error ParsedNodeConfig :=
  let nodeType := NormalizeNodeType nodeType in
  if String.eqb nodeType "agent" then
    cfg ← ParseAgentConfig raw; Ok (mkParsed nodeType (Some cfg) None None)
  else if String.eqb nodeType "automation" then
    cfg ← ParseAutomationConfig raw; Ok (mkParsed nodeType None (Some cfg) None)
  else if String.eqb nodeType "hybrid" then
    cfg ← ParseHybridConfig raw; Ok (mkParsed nodeType None None (Some cfg))
  else Err (Errorf [ErrUnknownNodeType] (Sprintf "%q (allowed: agent | automation | hybrid)" [nodeType])).

(** ** The check before a configuration is stored *)

Definition ValidateLaunchCWD (cwd parentID : string) : result error unit :=
  let trimmedCWD := TrimSpace cwd in
  let parentID := TrimSpace parentID in
  if negb (String.eqb cwd EmptyString) && String.eqb trimmedCWD EmptyString
  then Err (Errorf [ErrLaunchCWDInvalid] (Sprintf "launch_agent cwd must not be blank or whitespace-only" []))
  else if String.eqb trimmedCWD EmptyString then
    if negb (String.eqb parentID EmptyString)
    then Err (Errorf [ErrLaunchCWDRequired] (Sprintf "launch_agent cwd is required; parent_id %q was not found or has no cwd" [parentID]))
    else Err (Errorf [ErrLaunchCWDRequired] (Sprintf "launch_agent cwd is required; pass cwd or parent_id whose agent has cwd" []))
  else if negb (String.eqb trimmedCWD cwd)
  then Err (Errorf [ErrLaunchCWDInvalid] (Sprintf "launch_agent cwd must not contain surrounding whitespace" []))
  else if String.eqb trimmedCWD "." || negb (IsAbs trimmedCWD)
  then Err (Errorf [ErrLaunchCWDInvalid] (Sprintf "launch_agent cwd must be an absolute path" []))
  else Ok tt.

Definition launchCWDFromParsedConfig (parsed : ParsedNodeConfig) : string :=
  match Agent parsed with
  | Some cfg => str_val (field "cwd" (field "exec" cfg))
  | None =>
      match Hybrid parsed ≫= (fun cfg => ptr_val (field "verifier" (field "exec" cfg))) with
      | Some verifier => str_val (field "cwd" verifier)
      | None => EmptyString
      end
  end.

Definition ValidateLaunchCWDForNodeConfig (nodeType : string) (raw : RawMessage) : result error string :=
  parsed ← map_err (fun _ => Errorf [ErrLaunchCWDRequired] (Sprintf "parse node config for launch cwd: %v" []))
             (ParseNodeConfig nodeType raw);
  let cwd := launchCWDFromParsedConfig parsed in
  _ ← ValidateLaunchCWD cwd EmptyString;
  Ok cwd.

(** A member of the decoded map that is neither missing nor [null]. *)
Definition hasExplicitExecConfig (raw : RawMessage) : bool :=
  match raw with
  | RawJSON (JObj members) =>
      match get "exec" (map_of members) with
      | Some JNull => false
      | Some _ => true
      | None => false
      end
  | _ => false
  end.

(** [strings.ToUpper], of which the whitelist only sees ASCII results. *)
Definition ToUpper_runes (s : string) : list rune :=
  (fun r => if in_range 0x61 0x7A r then (r - 32)%N
            else if (r =? 0x17F)%N then 0x53%N
            else if (r =? 0x131)%N then 0x49%N else r) <$> runes s.

Definition isAllowedAutomationCommandEnv (key : string) : bool :=
  let k := ToUpper_runes (TrimSpace key) in
  existsb (fun name => bool_decide (k = runes name)) ["PATH"; "HOME"; "USERPROFILE"; "TEMP"; "TMP"].

Definition validateAutomationCommandEnv (env : list (string * gval)) : result error unit :=
  match List.find (fun m => negb (isAllowedAutomationCommandEnv m.1)) env with
  | Some m => Err (Errorf [] (Sprintf "environment variable %q is not allowed for automation command execution" [m.1]))
  | None => Ok tt
  end.

Definition validatePersistableAutomationExec (exec : gval) : result error unit :=
  let kind := str_val (field "kind" exec) in
  if negb (String.eqb kind AutomationKindCommandCard)
  then Err (Errorf [] (Sprintf "unsupported automation.kind: %q" [kind]))
  else if String.eqb (TrimSpace (str_val (field "command_ref" exec))) EmptyString
  then Err (plain_error "command_ref required in node.config.exec")
  else validateAutomationCommandEnv (map_val (field "env" exec)).

Definition ValidatePersistableNodeConfig (nodeType : string) (raw : RawMessage) : result error unit :=
  parsed ← map_err (fun e => Errorf (err_is e) (Sprintf "nodeexec: invalid node config: %w" []))
             (ParseNodeConfig nodeType raw);
  match Agent parsed, Automation parsed, Hybrid parsed with
  | Some _, _, _ =>
      if hasExplicitExecConfig raw then
        _ ← map_err (fun e => Errorf (err_is e) (Sprintf "agent launch cwd: %w" []))
              (ValidateLaunchCWDForNodeConfig nodeType raw);
        Ok tt
      else Ok tt
  | None, Some cfg, _ => validatePersistableAutomationExec (field "exec" cfg)
  | None, None, Some cfg =>
      match ptr_val (field "automation" (field "exec" cfg)) with
      | Some exec =>
          map_err (fun e => Errorf (err_is e) (Sprintf "hybrid automation: %w" []))
                  (validatePersistableAutomationExec exec)
      | None => Ok tt
      end
  | None, None, None => Ok tt
  end.

Example persist_ex1 :
  ValidatePersistableNodeConfig " automation " (RawJSON (JObj [("exec", JObj [
    ("command_ref", JStr "deploy"); ("env", JObj [("path", JStr "/bin")])])])) = Ok tt.
Proof. vm_compute. reflexivity. Qed.
Example persist_ex2 :
  is_ok (ValidatePersistableNodeConfig "agent" (RawJSON (JObj [("exec", JObj [("cwd", JStr "work")])]))) = false.
Proof. vm_compute. reflexivity. Qed.

(** ** Properties *)

(** What a stored automation block satisfies. *)
Definition runnable_automation (exec : gval) : Prop :=
  str_val (field "kind" exec) = AutomationKindCommandCard
  /\ TrimSpace (str_val (field "command_ref" exec)) <> EmptyString
  /\ (forall key v, (key, v) ∈ map_val (field "env" exec) -> isAllowedAutomationCommandEnv key = true).

Lemma validatePersistableAutomationExec_spec exec :
  validatePersistableAutomationExec exec = Ok tt <-> runnable_automation exec.
Proof.
  unfold validatePersistableAutomationExec, runnable_automation, validateAutomationCommandEnv.
  destruct (String.eqb_spec (str_val (field "kind" exec)) AutomationKindCommandCard); simpl; [|naive_solver].
  destruct (String.eqb_spec (TrimSpace (str_val (field "command_ref" exec))) EmptyString); [naive_solver|].
  destruct (List.find _ _) as [[k v]|] eqn:Hf.
  - apply find_some in Hf as [Hin Hk]. apply list_elem_of_In in Hin. go_bool.
    split; [done|]. intros (_ & _ & Henv). simpl in Hk. rewrite (Henv k v Hin) in Hk. done.
  - split; [|done]. intros _. split_and!; [done..|]. intros k v Hin%list_elem_of_In.
    pose proof (find_none _ _ Hf _ Hin) as Hk. simpl in Hk. by go_bool.
Qed.

Lemma ValidateLaunchCWD_spec cwd parent :
  ValidateLaunchCWD cwd parent = Ok tt <-> trimmed cwd /\ cwd <> EmptyString /\ HasPrefix cwd "/" = true.
Proof.
  unfold ValidateLaunchCWD, trimmed, IsAbs.
  destruct (String.eqb_spec cwd EmptyString) as [->|Hc]; simpl.
  { destruct (negb _); (split; [done|]; by intros (_ & ? & _)). }
  destruct (String.eqb_spec (TrimSpace cwd) EmptyString) as [E|E]; simpl.
  { split; [done|]. intros (? & _ & _). congruence. }
  destruct (String.eqb_spec (TrimSpace cwd) cwd) as [Ht|Ht]; simpl.
  2: { split; [done|]. by intros (? & _ & _). }
  rewrite Ht. destruct (String.eqb_spec cwd ".") as [->|]; simpl; [split; [done|]; by intros (_ & _ & ?)|].
  destruct (HasPrefix cwd "/"); simpl; [done|]. split; [done|]. by intros (_ & _ & ?).
Qed.

(** A node configuration that may be stored decodes for its node type, and what
    would be executed from it is bounded: an automation block, alone or inside a
    hybrid node, is a command card with a command reference and only whitelisted
    environment variables, and an agent node with an exec member names a trimmed
    absolute working directory. *)
Theorem ValidatePersistableNodeConfig_sound nodeType raw :
  ValidatePersistableNodeConfig nodeType raw = Ok tt ->
  exists parsed, ParseNodeConfig nodeType raw = Ok parsed
    /\ (forall cfg, Automation parsed = Some cfg -> runnable_automation (field "exec" cfg))
    /\ (forall cfg exec, Hybrid parsed = Some cfg ->
          ptr_val (field "automation" (field "exec" cfg)) = Some exec -> runnable_automation exec)
    /\ (forall cfg, Agent parsed = Some cfg -> hasExplicitExecConfig raw = true ->
          let cwd := str_val (field "cwd" (field "exec" cfg)) in
          trimmed cwd /\ cwd <> EmptyString /\ HasPrefix cwd "/" = true).
Proof.
  unfold ValidatePersistableNodeConfig. intros H. apply bind_Ok in H as (parsed & Hp & H).
  apply map_err_Ok in Hp. exists parsed. split; [done|].
  unfold ValidateLaunchCWDForNodeConfig in H. rewrite Hp in H. unfold launchCWDFromParsedConfig in H.
  unfold ParseNodeConfig in Hp.
  repeat (case_match; go_ok; try discriminate); split_and!; intros; simplify_eq/=; try done.
  - by apply (ValidateLaunchCWD_spec _ EmptyString).
  - by apply validatePersistableAutomationExec_spec.
  - by apply validatePersistableAutomationExec_spec.
Qed.

Definition sample_automation : RawMessage :=
  RawJSON (JObj [("exec", JObj [("command_ref", JStr "deploy"); ("env", JObj [("PATH", JStr "/bin")])])]).

Lemma ValidatePersistableNodeConfig_sound_witness :
  ValidatePersistableNodeConfig "automation" sample_automation = Ok tt
  /\ exists parsed, ParseNodeConfig "automation" sample_automation = Ok parsed.
Proof.
  assert (ValidatePersistableNodeConfig "automation" sample_automation = Ok tt) as H
    by (vm_compute; reflexivity).
  split; [exact H|].
  destruct (ValidatePersistableNodeConfig_sound _ _ H) as (parsed & Hp & _). exists parsed. exact Hp.
Defined.

Lemma wrap64_id n : (int64_min <= n <= int64_max)%Z -> wrap64 n = n.
Proof.
  unfold wrap64, int64_min, int64_max, two63. intros H. rewrite Z.mod_small by lia. lia.
Qed.

Lemma wrap64_range n : (int64_min <= wrap64 n <= int64_max)%Z.
Proof.
  unfold wrap64, int64_min, int64_max, two63.
  pose proof (Z.mod_pos_bound (n + 9223372036854775808) (2 * 9223372036854775808) ltac:(lia)). lia.
Qed.

(** A positive timeout_sec is turned into exactly that many seconds of
    nanoseconds up to 9223372036 seconds and for no larger value: beyond it the
    64-bit product wraps, although the value was accepted as positive. *)
Theorem parseExecutionTimeoutSeconds_exact seconds :
  (0 < seconds <= int64_max)%Z ->
  exists t, parseExecutionTimeoutSeconds seconds = Ok (Some t)
    /\ (t = seconds * Second <-> seconds <= 9223372036)%Z.
Proof.
  intros Hs. unfold parseExecutionTimeoutSeconds.
  destruct (Z.eqb_spec seconds 0), (Z.ltb_spec seconds 0); try lia. eexists. split; [done|].
  unfold Second, int64_max in *. split.
  - intros Heq. pose proof (wrap64_range (seconds * 1000000000)). rewrite Heq in H0.
    unfold int64_max in *. lia.
  - intros Hle. apply wrap64_id. unfold int64_min, int64_max. lia.
Qed.

Lemma parseExecutionTimeoutSeconds_exact_witness :
  (0 < 9223372037 <= int64_max)%Z /\
  exists t, parseExecutionTimeoutSeconds 9223372037 = Ok (Some t) /\ t <> (9223372037 * Second)%Z.
Proof.
  assert (0 < 9223372037 <= int64_max)%Z as H by (unfold int64_max; lia).
  split; [exact H|]. destruct (parseExecutionTimeoutSeconds_exact _ H) as (t & Ht & Hiff).
  exists t. split; [exact Ht|]. intros E. apply Hiff in E. lia.
Defined.

(** An accepted positive number of seconds can become a negative timeout. *)
Example timeout_sec_negative :
  ResolveExecutionTimeout RawEmpty
    (RawJSON (JObj [("execution", JObj [("timeout_sec", JNum "9223372037")])]))
  = Ok (-9223372036709551616)%Z.
Proof. vm_compute. reflexivity. Qed.

(** The exec member under another letter case is decoded but not checked. *)
Example exec_letter_case_unchecked :
  let raw := RawJSON (JObj [("Exec", JObj [("cwd", JStr "work")])]) in
  ValidatePersistableNodeConfig "agent" raw = Ok tt
  /\ (str_val ∘ field "cwd" ∘ field "exec") <$> ParseAgentConfig raw = Ok "work".
Proof. vm_compute. split; reflexivity. Qed.

(** A template with the run placeholder that gives every run the same file. *)
Example run_token_cancelled :
  let template := "dag/{{run_id}}/../final.mp4" in
  has_run_token template = true
  /\ renderArtifactTargetPath template 1 = Ok "dag/final.mp4"
  /\ renderArtifactTargetPath template 2 = Ok "dag/final.mp4".
Proof. vm_compute. split_and!; reflexivity. Qed.

(** The two extractors disagree on nested results: on an object that does not
    name its tool and lacks the wanted field, the text extractor finds nothing,
    whatever its containers hold, while the path extractor finds the field in the
    result container. *)
Theorem artifact_text_skips_containers sourceTool wanted members inner path :
  omap (artifactStringField (map_of members)) ["source_tool"; "tool_name"; "tool"; "name"] = [] ->
  artifactStringField (map_of members) wanted = None ->
  get sourceTool (map_of members) = None ->
  get "structuredContent" (map_of members) = None ->
  get "structured_content" (map_of members) = None ->
  get "result" (map_of members) = Some (JObj inner) ->
  omap (artifactStringField (map_of inner)) ["source_tool"; "tool_name"; "tool"; "name"] = [] ->
  artifactStringField (map_of inner) wanted = Some path ->
  artifactTextFromValue sourceTool wanted (JObj members) false = None
  /\ artifactPathFromValue sourceTool wanted (JObj members) false = Some path.
Proof.
  intros Hids Hw Htool Hc1 Hc2 Hres Hids' Hw'.
  assert (forall f key, get key (map_of ((fun m => (m.1, below_of f m.2)) <$> members))
    = below_of f <$> get key (map_of members)) as Hget.
  { intros f key. rewrite (map_of_fmap (fun _ => below_of f)). unfold get.
    generalize (map_of members) as l. induction l as [|[k v] l IH]; simpl; [done|].
    destruct (String.eqb k key); [done|apply IH]. }
  split.
  - cbn [artifactTextFromValue]. unfold artifactObjectMatchesTool. by rewrite Hids.
  - cbn [artifactPathFromValue]. unfold containers, in_object, in_list, object_containers.
    unfold artifactPathFromDirectObject, artifactObjectMatchesTool. rewrite Hids.
    cbn [fmap list_fmap app negb]. rewrite !Hget, Htool, Hc1, Hc2, Hres, Hw.
    cbn -[artifactPathFromValue]. unfold first_some. cbn [omap list_omap].
    cbn [artifactPathFromValue]. unfold artifactPathFromDirectObject, artifactObjectMatchesTool.
    rewrite Hids', Hw'. done.
Qed.

Lemma artifact_text_skips_containers_witness :
  let members := [("result", JObj [("document_text", JStr "body")])] in
  artifactTextFromValue "renderer" "document_text" (JObj members) false = None
  /\ artifactPathFromValue "renderer" "document_text" (JObj members) false = Some "body".
Proof.
  exact (artifact_text_skips_containers "renderer" "document_text"
    [("result", JObj [("document_text", JStr "body")])] [("document_text", JStr "body")] "body"
    eq_refl eq_refl eq_refl eq_refl eq_refl eq_refl eq_refl eq_refl).
Defined.
