(* ===== verification/Ops.v ===== *)
(** * The typed operations of task_dag_apply_ops

    Models [nodeexec/ops.go] and [nodeexec/ops_dag_patch.go]: the four operations,
    their strict decoding, and the scan of a node patch for keys that must not be
    patched.  Node specifications, patches and DAG patches have their own
    [UnmarshalJSON]; the decoder of [Json] calls them back by type name. *)

From S2P Require Import Prelude GoStrings Json.

(** ** Data *)

Definition OpKindUpdateDAG : string := "update_dag".
Definition OpKindAddNode : string := "add_node".
Definition OpKindUpdateNode : string := "update_node".
Definition OpKindRemoveNode : string := "remove_node".

(** A nil pointer is [None]: the field is left as it is. *)
Record DAGPatch := mkDAGPatch {
  dp_Title : option string;
  dp_Description : option string;
  dp_Trigger : option string;
  dp_CronExpr : option string;
  dp_OwnerID : option string;
  dp_ScheduleEnabled : option bool;
}.

Record NodeSpec := mkNodeSpec {
  sp_NodeKey : string;
  sp_Title : string;
  sp_NodeType : string;
  sp_AssignedTo : string;
  sp_DependsOn : list string;
  sp_Reads : list string;
  sp_Writes : list string;
  sp_Config : RawMessage;
}.

Record NodePatch := mkNodePatch {
  np_Title : option string;
  np_AssignedTo : option string;
  np_DependsOn : option (list string);
  np_Reads : option (list string);
  np_Writes : option (list string);
  np_Config : RawMessage;
}.

(** The sealed interface [Op]; [OpNil] is the nil interface value. *)
Inductive Op :=
| OpUpdateDAG (patch : DAGPatch)
| OpAddNode (node : NodeSpec)
| OpUpdateNode (key : string) (patch : NodePatch)
| OpRemoveNode (key : string)
| OpNil.

(** [Kind] panics on the nil interface; callers reject it first. *)
Definition Kind (op : Op) : string :=
  match op with
  | OpUpdateDAG _ => OpKindUpdateDAG
  | OpAddNode _ => OpKindAddNode
  | OpUpdateNode _ _ => OpKindUpdateNode
  | OpRemoveNode _ => OpKindRemoveNode
  | OpNil => EmptyString
  end.

Definition Ops := list Op.

(** ** Errors of encoding/json

    The code recognises an unknown field by the text of the message, so the text is
    kept as a pseudo-sentinel. *)

Definition ErrNodePatchBannedField : string := "ErrNodePatchBannedField".
Definition ErrDAGPatchUnknownField : string := "ErrDAGPatchUnknownField".
Definition ErrUpdateDAGPayloadInvalid : string := "ErrUpdateDAGPayloadInvalid".
Definition unknown_field : string := "unknown field".

Definition json_error (e : jerr error) : error :=
  match e with
  | JUnknownField k => Errorf [unknown_field] (Sprintf "json: unknown field %q" [k])
  | JMismatch => Errorf [] (Sprintf "json: cannot unmarshal value into Go value" [])
  | JSyntax => Errorf [] (Sprintf "invalid JSON" [])
  | JCustom e => e
  end.

(** ** Scanning a node configuration *)

Definition isNodePatchBannedDeepKey (key : string) : bool :=
  str_in key ["status"; "node_key"; "node_type"; "agent_key"].

Definition isAllowedConfigAgentKey (key : string) (path : list string) : bool :=
  if negb (String.eqb key "agent_key") || (length path =? 0)%nat then false
  else bool_decide (path = ["exec"]) || bool_decide (path = ["exec"; "verifier"]).

Definition bannedKeyError (key : string) : error :=
  Errorf [ErrNodePatchBannedField] (Sprintf "config contains banned key %q" [key]).

(** The first error of a sequence of checks. *)
Fixpoint first_error (l : list (result error unit)) : result error unit :=
  match l with
  | [] => Ok tt
  | Err e :: _ => Err e
  | Ok _ :: l => first_error l
  end.

Section walk.
(** The order in which Go iterates over the decoded map. *)
Context (map_order : forall A, list (string * A) -> list (string * A)).

Fixpoint walkConfigForBannedKeys (v : json) (path : list string) : result error unit :=
  match v with
  | JObj members =>
      first_error (snd <$> map_order _ (map_of ((fun m =>
        (m.1, if isNodePatchBannedDeepKey m.1 && negb (isAllowedConfigAgentKey m.1 path)
              then Err (bannedKeyError m.1)
              else walkConfigForBannedKeys m.2 (path ++ [m.1]))) <$> members)))
  | JArr items => first_error ((fun c => walkConfigForBannedKeys c (path ++ ["[]"])) <$> items)
  | _ => Ok tt
  end.

Definition validateConfigDoesNotContainBannedKeys (raw : RawMessage) : result error unit :=
  match raw with
  | RawEmpty => Ok tt
  | RawJSON JNull => Ok tt
  | RawBad => Err (Errorf [] (Sprintf "decode node config for banned-key scan" []))
  | RawJSON v => walkConfigForBannedKeys v []
  end.

Definition validateNodeConfigObject (raw : RawMessage) : result error unit :=
  match raw with
  | RawEmpty => Ok tt
  | RawJSON JNull => Ok tt
  | RawJSON (JObj _) => Ok tt
  | RawJSON _ => Err (Errorf [] (Sprintf "config must be a JSON object or null" []))
  | RawBad => Err (Errorf [] (Sprintf "decode config object" []))
  end.

(** ** Decoding *)

Definition NodeSpec_t : gty := TStruct [
  ("node_key", TString); ("title", TString); ("node_type", TString);
  ("assigned_to", TString); ("depends_on", TSlice TString); ("reads", TSlice TString);
  ("writes", TSlice TString); ("config", TRaw)].

Definition NodePatch_t : gty := TStruct [
  ("title", TPtr TString); ("assigned_to", TPtr TString);
  ("depends_on", TPtr (TSlice TString)); ("reads", TPtr (TSlice TString));
  ("writes", TPtr (TSlice TString)); ("config", TRaw)].

Definition DAGPatch_t : gty := TStruct [
  ("title", TPtr TString); ("description", TPtr TString); ("trigger", TPtr TString);
  ("cron_expr", TPtr TString); ("owner_id", TPtr TString); ("schedule_enabled", TPtr TBool)].

Definition NodeSpec_of (v : gval) : NodeSpec :=
  mkNodeSpec (str_val (field "node_key" v)) (str_val (field "title" v))
    (str_val (field "node_type" v)) (str_val (field "assigned_to" v))
    (strs_val (field "depends_on" v)) (strs_val (field "reads" v))
    (strs_val (field "writes" v)) (raw_val (field "config" v)).

Definition str_ptr (v : gval) : option string := str_val <$> ptr_val v.
Definition strs_ptr (v : gval) : option (list string) := strs_val <$> ptr_val v.

Definition NodePatch_of (v : gval) : NodePatch :=
  mkNodePatch (str_ptr (field "title" v)) (str_ptr (field "assigned_to" v))
    (strs_ptr (field "depends_on" v)) (strs_ptr (field "reads" v))
    (strs_ptr (field "writes" v)) (raw_val (field "config" v)).

Definition DAGPatch_of (v : gval) : DAGPatch :=
  mkDAGPatch (str_ptr (field "title" v)) (str_ptr (field "description" v))
    (str_ptr (field "trigger" v)) (str_ptr (field "cron_expr" v))
    (str_ptr (field "owner_id" v)) (bool_val <$> ptr_val (field "schedule_enabled" v)).

Definition addNodeStrictDecodeError (e : error) (allowed : string) : error :=
  if errors_Is e unknown_field
  then Errorf [unknown_field] (Sprintf "add_node: %v (allowed: %s)" [allowed])
  else e.

Definition NodeSpec_UnmarshalJSON (j : json) : result error gval :=
  match j with
  | JNull => Ok (zero NodeSpec_t)
  | _ =>
      plain ← map_err (fun e => addNodeStrictDecodeError (json_error e)
                 "node_key/title/node_type/assigned_to/depends_on/reads/writes/config")
               (decode true no_custom NodeSpec_t j (zero NodeSpec_t));
      _ ← map_err (fun e => Errorf (err_is e) (Sprintf "add_node: node config invalid: %w" []))
            (validateNodeConfigObject (raw_val (field "config" plain)));
      Ok plain
  end.

Definition NodePatch_UnmarshalJSON (j : json) : result error gval :=
  match j with
  | JNull => Ok (zero NodePatch_t)
  | _ =>
      plain ← map_err (fun e => let e := json_error e in
                 if errors_Is e unknown_field
                 then Errorf [ErrNodePatchBannedField; unknown_field]
                        (Sprintf "%v (allowed: title/assigned_to/depends_on/reads/writes/config)" [])
                 else Errorf (err_is e) (Sprintf "node patch decode: %w" []))
               (decode true no_custom NodePatch_t j (zero NodePatch_t));
      _ ← map_err (wrap_err ErrNodePatchBannedField (Sprintf "config invalid: %w" []))
            (validateNodeConfigObject (raw_val (field "config" plain)));
      _ ← validateConfigDoesNotContainBannedKeys (raw_val (field "config" plain));
      Ok plain
  end.

Definition DAGPatch_UnmarshalJSON (j : json) : result error gval :=
  match j with
  | JNull => Ok (zero DAGPatch_t)
  | _ =>
      map_err (fun e => let e := json_error e in
        if errors_Is e unknown_field
        then Errorf [ErrDAGPatchUnknownField; unknown_field]
               (Sprintf "%v (allowed: title/description/trigger/cron_expr/owner_id/schedule_enabled)" [])
        else e)
      (decode true no_custom DAGPatch_t j (zero DAGPatch_t))
  end.

(** The types with an [UnmarshalJSON] method, as the outer decoders call them. *)
Definition op_custom (name : string) (j : json) : result (jerr error) gval :=
  if String.eqb name "NodeSpec" then map_err JCustom (NodeSpec_UnmarshalJSON j)
  else if String.eqb name "NodePatch" then map_err JCustom (NodePatch_UnmarshalJSON j)
  else if String.eqb name "DAGPatch" then map_err JCustom (DAGPatch_UnmarshalJSON j)
  else Err JMismatch.

Definition addNodeWire_t : gty := TStruct [("op", TString); ("node", TCustom "NodeSpec")].
Definition updateDAGWire_t : gty := TStruct [("op", TString); ("patch", TPtr (TCustom "DAGPatch"))].
Definition OpUpdateNode_t : gty := TStruct [("node_key", TString); ("patch", TCustom "NodePatch")].
Definition OpRemoveNode_t : gty := TStruct [("node_key", TString)].
Definition opsHeader_t : gty := TStruct [("op", TString)].

(** [OpAddNode.UnmarshalJSON]: a missing node keeps the zero specification. *)
Definition OpAddNode_UnmarshalJSON (j : json) : result error Op :=
  wire ← map_err (fun e => addNodeStrictDecodeError (json_error e) "op/node")
           (decode true op_custom addNodeWire_t j (zero addNodeWire_t));
  Ok (OpAddNode (NodeSpec_of (field "node" wire))).

Definition OpUpdateDAG_UnmarshalJSON (j : json) : result error Op :=
  wire ← map_err (fun e => let e := json_error e in
           if errors_Is e ErrDAGPatchUnknownField
           then wrap_err ErrUpdateDAGPayloadInvalid (Sprintf "%w: %w" []) e
           else if errors_Is e unknown_field
           then Errorf [ErrUpdateDAGPayloadInvalid; unknown_field] (Sprintf "%v (allowed: op/patch)" [])
           else e)
         (decode true op_custom updateDAGWire_t j (zero updateDAGWire_t));
  match ptr_val (field "patch" wire) with
  | None => Err (Errorf [ErrUpdateDAGPayloadInvalid] (Sprintf "patch is required" []))
  | Some p => Ok (OpUpdateDAG (DAGPatch_of p))
  end.

(** [OpUpdateNode] and [OpRemoveNode] have no method of their own: other members of
    the operation are ignored. *)
Definition decodeOp (kind : string) (item : json) : result error Op :=
  if String.eqb kind OpKindUpdateDAG then OpUpdateDAG_UnmarshalJSON item
  else if String.eqb kind OpKindAddNode then OpAddNode_UnmarshalJSON item
  else if String.eqb kind OpKindUpdateNode then
    v ← map_err json_error (decode false op_custom OpUpdateNode_t item (zero OpUpdateNode_t));
    Ok (OpUpdateNode (str_val (field "node_key" v)) (NodePatch_of (field "patch" v)))
  else if String.eqb kind OpKindRemoveNode then
    v ← map_err json_error (decode false op_custom OpRemoveNode_t item (zero OpRemoveNode_t));
    Ok (OpRemoveNode (str_val (field "node_key" v)))
  else if String.eqb kind EmptyString then
    Err (Errorf [] (Sprintf "missing 'op' discriminator" []))
  else Err (Errorf [] (Sprintf "unknown op kind %q" [kind])).

Definition decode_item (item : json) : result error Op :=
  head ← map_err json_error
           (decode false no_custom opsHeader_t item (zero opsHeader_t));
  decodeOp (str_val (field "op" head)) item.

(** [Ops.UnmarshalJSON]; the error names the position of the operation. *)
Definition Ops_UnmarshalJSON (data : json) : result error Ops :=
  match data with
  | JNull => Ok []
  | JArr items =>
      map_result (fun it =>
        map_err (fun e => Errorf (err_is e) (Sprintf "ops[%d]: %w" [pretty it.1]))
                (decode_item it.2)) (imap pair items)
  | _ => Err (Errorf [] (Sprintf "ops: %w" []))
  end.
End walk.

(** Members in the order they were written. *)
Definition document_order (A : Type) (l : list (string * A)) : list (string * A) := l.

Example ops_ex1 :
  Ops_UnmarshalJSON document_order (JArr [
    JObj [("op", JStr "remove_node"); ("node_key", JStr "b")];
    JObj [("op", JStr "update_node"); ("node_key", JStr "a");
          ("patch", JObj [("depends_on", JArr [JStr "c"])])]])
  = Ok [OpRemoveNode "b";
        OpUpdateNode "a" (mkNodePatch None None (Some ["c"]) None None RawEmpty)].
Proof. vm_compute. reflexivity. Qed.

Example ops_ex2 :
  match Ops_UnmarshalJSON document_order (JArr [
    JObj [("op", JStr "update_node"); ("node_key", JNum "5");
          ("patch", JObj [("config", JObj [("a", JArr [JObj [("status", JStr "done")]])])])]]) with
  | Err e => errors_Is e ErrNodePatchBannedField
  | Ok _ => false
  end = true.
Proof. vm_compute. reflexivity. Qed.

(** ** What the scan guarantees *)

(** [occurs v p k]: in the decoded value an object reached by the path [p] has the
    key [k]; an array contributes the step [[]]. *)
Inductive occurs : json -> list string -> string -> Prop :=
| occurs_here members k v :
    (k, v) ∈ map_of members -> occurs (JObj members) [] k
| occurs_member members k v p key :
    (k, v) ∈ map_of members -> occurs v p key -> occurs (JObj members) (k :: p) key
| occurs_item items v p key :
    v ∈ items -> occurs v p key -> occurs (JArr items) ("[]" :: p) key.

Lemma first_error_Ok l : first_error l = Ok tt <-> Forall (fun r => r = Ok tt) l.
Proof.
  induction l as [|[[]|e] l IH]; simpl; [by split|..].
  - rewrite Forall_cons, IH. naive_solver.
  - rewrite Forall_cons. naive_solver.
Qed.

Definition key_allowed (path : list string) (key : string) : Prop :=
  isNodePatchBannedDeepKey key = true -> isAllowedConfigAgentKey key path = true.

Section walk_spec.
Context (map_order : forall A, list (string * A) -> list (string * A)).
Hypothesis map_order_perm : forall A l, map_order A l ≡ₚ l.

Lemma walk_object members path :
  walkConfigForBannedKeys map_order (JObj members) path = Ok tt <->
  forall k v, (k, v) ∈ map_of members ->
    key_allowed path k /\ walkConfigForBannedKeys map_order v (path ++ [k]) = Ok tt.
Proof.
  cbn [walkConfigForBannedKeys]. rewrite first_error_Ok, map_order_perm.
  rewrite (map_of_fmap (fun k v => if isNodePatchBannedDeepKey k && negb (isAllowedConfigAgentKey k path)
    then Err (bannedKeyError k) else walkConfigForBannedKeys map_order v (path ++ [k]))).
  rewrite <- list_fmap_compose, Forall_fmap, Forall_forall. unfold key_allowed. split.
  - intros H k v Hin%H. simpl in Hin.
    destruct (isNodePatchBannedDeepKey k), (isAllowedConfigAgentKey k path); naive_solver.
  - intros H [k v] [Hk Hw]%H. simpl.
    destruct (isNodePatchBannedDeepKey k), (isAllowedConfigAgentKey k path); naive_solver.
Qed.

Lemma walk_array items path :
  walkConfigForBannedKeys map_order (JArr items) path = Ok tt <->
  forall v, v ∈ items -> walkConfigForBannedKeys map_order v (path ++ ["[]"]) = Ok tt.
Proof. cbn [walkConfigForBannedKeys]. by rewrite first_error_Ok, Forall_fmap, Forall_forall. Qed.

(** The scan is exact, whatever order the maps are iterated in. *)
Lemma walk_spec v path :
  walkConfigForBannedKeys map_order v path = Ok tt <->
  forall p key, occurs v p key -> key_allowed (path ++ p) key.
Proof.
  revert path. induction v as [| | | |items IH|members IH] using json_ind'; intros path;
    try (split; [|done]; by intros _ p key H; inversion H).
  - rewrite walk_array. rewrite Forall_forall in IH. split.
    + intros H p key Ho. inversion Ho as [| |? v p' ? Hv Hp]; subst.
      specialize (H v Hv). rewrite IH in H by done.
      rewrite (cons_middle "[]" path p'), app_assoc. by apply H.
    + intros H v Hv. apply IH; [done|]. intros p key Ho.
      rewrite <- app_assoc. apply H. by eapply occurs_item.
  - rewrite walk_object. rewrite Forall_forall in IH. split.
    + intros H p key Ho. inversion Ho as [? k v Hk|? k v p' ? Hk Hp|]; subst.
      * rewrite app_nil_r. by apply (H key v).
      * destruct (H k v Hk) as [_ Hw]. rewrite (IH (k, v)) in Hw by (by apply elem_of_map_of).
        rewrite (cons_middle k path p'), app_assoc. by apply Hw.
    + intros H k v Hk. split.
      * rewrite <- (app_nil_r path). apply H. by eapply occurs_here.
      * apply (IH (k, v)); [by apply elem_of_map_of|]. intros p key Ho. rewrite <- app_assoc.
        apply H. by eapply occurs_member.
Qed.

Lemma validateConfig_spec raw :
  validateNodeConfigObject raw = Ok tt -> validateConfigDoesNotContainBannedKeys map_order raw = Ok tt ->
  raw = RawEmpty \/ raw = RawJSON JNull \/
  exists members, raw = RawJSON (JObj members) /\
    forall p key, occurs (JObj members) p key -> key_allowed p key.
Proof.
  destruct raw as [| |[]]; simpl; try naive_solver.
  intros _ H. right; right. eexists. split; [done|]. by apply (proj1 (walk_spec (JObj l) [])).
Qed.

Definition clean_config (raw : RawMessage) : Prop :=
  raw = RawEmpty \/ raw = RawJSON JNull \/
  exists members, raw = RawJSON (JObj members) /\
    forall p key, occurs (JObj members) p key ->
      key <> "status" /\ key <> "node_key" /\ key <> "node_type" /\
      (key = "agent_key" -> p = ["exec"] \/ p = ["exec"; "verifier"]).

Lemma key_allowed_clean p key :
  key_allowed p key ->
  key <> "status" /\ key <> "node_key" /\ key <> "node_type" /\
  (key = "agent_key" -> p = ["exec"] \/ p = ["exec"; "verifier"]).
Proof.
  unfold key_allowed, isAllowedConfigAgentKey. intros H.
  split_and!; try (intros ->; by specialize (H eq_refl)).
  intros ->. specialize (H eq_refl). destruct (length p =? 0)%nat; [done|]. simpl in H.
  apply orb_true_iff in H as [H|H]; go_bool; auto.
Qed.

Lemma NodePatch_UnmarshalJSON_clean j v :
  NodePatch_UnmarshalJSON map_order j = Ok v -> clean_config (np_Config (NodePatch_of v)).
Proof.
  intros H. assert (j = JNull \/ validateNodeConfigObject (raw_val (field "config" v)) = Ok tt /\
    validateConfigDoesNotContainBannedKeys map_order (raw_val (field "config" v)) = Ok tt) as [->|[H1 H2]].
  { destruct j; [by left|right; unfold NodePatch_UnmarshalJSON in H; go_ok; eauto..]. }
  - simpl in H. simplify_eq. by left.
  - change (np_Config (NodePatch_of v)) with (raw_val (field "config" v)).
    destruct (validateConfig_spec _ H1 H2) as [->|[->|(m & -> & Hm)]];
      [by left|by right; left|right; right]. exists m. split; [done|].
    intros p key Ho%Hm. by apply key_allowed_clean.
Qed.

(** A field of a custom type holds what was there or what its method returned. *)
Lemma decode_OpUpdateNode_patch item v :
  decode false (op_custom map_order) OpUpdateNode_t item (zero OpUpdateNode_t) = Ok v ->
  field "patch" v = VStruct [] \/ exists j, NodePatch_UnmarshalJSON map_order j = Ok (field "patch" v).
Proof.
  intros H. destruct item as [| | | | |l]; try discriminate; [simpl in H; simplify_eq; by left|].
  pose (P := fun m : list (string * gval) =>
    field "patch" (VStruct m) = VStruct [] \/
    exists j, NodePatch_UnmarshalJSON map_order j = Ok (field "patch" (VStruct m))).
  destruct (decode_struct_inv false (op_custom map_order)
    [("node_key", TString); ("patch", TCustom "NodePatch")] l
    [("node_key", VStr EmptyString); ("patch", VStruct [])] v P) as (m & -> & Hm & _);
    [|by left|done|done].
  intros k x name ft a v' _ Hf Ha Hd. apply find_field_elem in Hf. unfold P, field.
  rewrite get_set. rewrite !elem_of_cons, elem_of_nil in Hf.
  destruct Hf as [?|[?|[]]]; simplify_eq/=; [done|]. right. exists x.
  destruct x; exact (proj1 (map_err_Ok JCustom (NodePatch_UnmarshalJSON map_order _) v') Hd).
Qed.

End walk_spec.

(** Whatever JSON is sent as operations, a node patch that is accepted carries no
    configuration, [null], or an object in which no nested member is named status,
    node_key or node_type, and agent_key appears only at exec.agent_key and
    exec.verifier.agent_key.  The verdict does not depend on map iteration order. *)
Theorem accepted_patch_config_clean map_order data ops key patch :
  (forall A l, map_order A l ≡ₚ l) ->
  Ops_UnmarshalJSON map_order data = Ok ops -> OpUpdateNode key patch ∈ ops ->
  clean_config (np_Config patch).
Proof.
  intros Hperm Hdec Hin. destruct data as [| | | |items|]; simplify_eq/=; [by apply elem_of_nil in Hin|].
  revert ops Hin Hdec. generalize (imap pair items) as l. clear items.
  induction l as [|[i item] l IH]; intros ops Hin Hdec; simplify_eq/=; [by apply elem_of_nil in Hin|].
  go_ok. apply elem_of_cons in Hin as [<-|Hin]; [|by eapply IH]. clear IH.
  rename H into Hd. unfold decode_item in Hd. go_ok. unfold decodeOp in *.
  repeat (case_match; go_ok; try discriminate).
  - unfold OpUpdateDAG_UnmarshalJSON in *. go_ok. by destruct (ptr_val _).
  - unfold OpAddNode_UnmarshalJSON in *. by go_ok.
  - match goal with H : decode _ _ OpUpdateNode_t _ _ = Ok _ |- _ =>
      apply decode_OpUpdateNode_patch in H as [->|[j Hj]] end; [by left|].
    by apply (NodePatch_UnmarshalJSON_clean map_order Hperm j).
Qed.

Definition sample_patch_request : json := JArr [
  JObj [("op", JStr "update_node"); ("node_key", JStr "a");
        ("patch", JObj [("config", JObj [("exec", JObj [("agent_key", JStr "w")])])])]].

Lemma accepted_patch_config_clean_witness :
  let config := RawJSON (JObj [("exec", JObj [("agent_key", JStr "w")])]) in
  let ops := [OpUpdateNode "a" (mkNodePatch None None None None None config)] in
  Ops_UnmarshalJSON document_order sample_patch_request = Ok ops /\ clean_config config.
Proof.
  intros config ops.
  assert (Ops_UnmarshalJSON document_order sample_patch_request = Ok ops) as H
    by (vm_compute; reflexivity).
  split; [exact H|].
  exact (accepted_patch_config_clean document_order sample_patch_request ops "a"
    (mkNodePatch None None None None None config) (fun A l => Permutation_refl l) H
    (list_elem_of_here _ _)).
Defined.
