(* ===== verification/Plan.v ===== *)
(** * Planning template changes

    Models [nodeexec/plan.go]: add, update and remove operations are checked against
    the existing nodes and turned into a dependency map for cycle detection and a
    list of changes to store.  The maps are [gmap]; the order in which Go iterates
    over a dependency map is the argument [map_keys]. *)

From S2P Require Import Prelude GoStrings Cycle NodeStatus Json Ops NodeConfig.

Definition ErrAddNodePlan : string := "ErrAddNodePlan".
Definition ErrUpdateNodePlan : string := "ErrUpdateNodePlan".
Definition ErrRemoveNodePlan : string := "ErrRemoveNodePlan".

Record ExistingNode := mkExisting { ex_NodeKey : string; ex_DependsOn : list string }.

Record ExistingNodeFull := mkExistingFull {
  ef_NodeKey : string;
  ef_DependsOn : list string;
  ef_Status : string;
  ef_NodeType : string;
  ef_Config : RawMessage;
}.

Record UpdateNodeChange := mkUpdate { uc_NodeKey : string; uc_Patch : NodePatch }.
Record RemoveNodeChange := mkRemove { rc_NodeKey : string }.

(** ** Dependencies *)

(** [NormalizeDependsOn]: trimmed, without blanks and repetitions, in order. *)
Fixpoint normalize_from (seen : list string) (deps : list string) : list string :=
  match deps with
  | [] => []
  | d :: deps =>
      let t := TrimSpace d in
      if String.eqb t EmptyString then normalize_from seen deps
      else if str_in t seen then normalize_from seen deps
      else t :: normalize_from (t :: seen) deps
  end.

Definition NormalizeDependsOn (deps : list string) : list string := normalize_from [] deps.

(** ** Adding nodes *)

Definition seed_node (acc : adjacency_map * gset string) (n : ExistingNode)
  : adjacency_map * gset string :=
  (<[ex_NodeKey n := ex_DependsOn n]> acc.1, {[ex_NodeKey n]} ∪ acc.2).

Definition seedAdjacency (existing : list ExistingNode) : adjacency_map * gset string :=
  foldl seed_node (∅, ∅) existing.

Definition with_key_deps (spec : NodeSpec) (key : string) (deps : list string) : NodeSpec :=
  mkNodeSpec key (sp_Title spec) (sp_NodeType spec) (sp_AssignedTo spec) deps
    (sp_Reads spec) (sp_Writes spec) (sp_Config spec).

Definition addNodeSpecFromOp (idx : nat) (op : Op) : result error NodeSpec :=
  match op with
  | OpAddNode spec =>
      let key := TrimSpace (sp_NodeKey spec) in
      if String.eqb key EmptyString
      then Err (Errorf [ErrAddNodePlan] (Sprintf "ops[%d] add_node node_key required" [pretty idx]))
      else Ok (with_key_deps spec key (NormalizeDependsOn (sp_DependsOn spec)))
  | _ => Err (Errorf [ErrAddNodePlan] (Sprintf "ops[%d] not add_node" [pretty idx]))
  end.

Definition registerNewNode (idx : nat) (spec : NodeSpec) (st : adjacency_map * gset string)
  : result error (adjacency_map * gset string) :=
  let key := sp_NodeKey spec in
  if bool_decide (key ∈ st.2)
  then Err (Errorf [ErrAddNodePlan] (Sprintf "ops[%d] add_node node_key %q already exists" [pretty idx; key]))
  else if str_in key (sp_DependsOn spec)
  then Err (Errorf [ErrAddNodePlan] (Sprintf "ops[%d] add_node %q depends on itself" [pretty idx; key]))
  else Ok (<[key := sp_DependsOn spec]> st.1, {[key]} ∪ st.2).

Definition verifyDependsOnIntegrity (accepted : list NodeSpec) (known : gset string)
  : result error unit :=
  fold_result (fun _ n =>
    fold_result (fun _ d =>
      guard_err (bool_decide (d ∈ known))
        (Errorf [ErrAddNodePlan] (Sprintf "add_node %q depends on unknown node %q" [sp_NodeKey n; d])))
      (sp_DependsOn n) tt) accepted tt.

(** One iteration of the planning loop: map, known keys and accepted nodes. *)
Definition add_step (acc : adjacency_map * gset string * list NodeSpec) (iop : nat * Op)
  : result error (adjacency_map * gset string * list NodeSpec) :=
  spec ← addNodeSpecFromOp iop.1 iop.2;
  st ← registerNewNode iop.1 spec acc.1;
  Ok (st, acc.2 ++ [spec]).

Definition planAddNodeTopology (ops : Ops) (existing : list ExistingNode)
  : result error (adjacency_map * list NodeSpec) :=
  '(adjacency, known, accepted) ←
    fold_result add_step (imap pair ops) (seedAdjacency existing, []);
  _ ← verifyDependsOnIntegrity accepted known;
  Ok (adjacency, accepted).

Definition ValidateNodeSpecsConfig (specs : list NodeSpec) : result error unit :=
  fold_result (fun _ spec =>
    map_err (wrap_err ErrAddNodePlan (Sprintf "add_node %q config invalid: %w" [sp_NodeKey spec]))
      (ValidatePersistableNodeConfig (sp_NodeType spec) (sp_Config spec))) specs tt.

Definition PlanAddNodes (ops : Ops) (existing : list ExistingNode)
  : result error (adjacency_map * list NodeSpec) :=
  '(adjacency, accepted) ← planAddNodeTopology ops existing;
  _ ← ValidateNodeSpecsConfig accepted;
  Ok (adjacency, accepted).

(** ** Updating nodes *)

Definition seed_full (acc : adjacency_map * gmap string ExistingNodeFull) (n : ExistingNodeFull)
  : adjacency_map * gmap string ExistingNodeFull :=
  (<[ef_NodeKey n := ef_DependsOn n]> acc.1, <[ef_NodeKey n := n]> acc.2).

Definition seedAdjacencyFull (existing : list ExistingNodeFull)
  : adjacency_map * gmap string ExistingNodeFull :=
  foldl seed_full (∅, ∅) existing.

Definition knownKeys (byKey : gmap string ExistingNodeFull) : gset string := dom byKey.

Definition updateChangeFromOp (idx : nat) (op : Op) : result error UpdateNodeChange :=
  match op with
  | OpUpdateNode k patch =>
      let key := TrimSpace k in
      if String.eqb key EmptyString
      then Err (Errorf [ErrUpdateNodePlan] (Sprintf "ops[%d] update_node node_key required" [pretty idx]))
      else Ok (mkUpdate key patch)
  | _ => Err (Errorf [ErrUpdateNodePlan] (Sprintf "ops[%d] not update_node (got %s)" [pretty idx; Kind op]))
  end.

Definition isUpdateNodeStatusAllowed (status : string) : bool :=
  str_in status [NodeStatusPending; NodeStatusReady].

Definition ensureUpdatableStatus (idx : nat) (key status : string) : result error unit :=
  guard_err (isUpdateNodeStatusAllowed status)
    (Errorf [ErrUpdateNodePlan] (Sprintf "ops[%d] update_node %q status=%q not updatable (allowed: pending|ready)" [pretty idx; key; status])).

Definition applyDependsOnPatch (idx : nat) (change : UpdateNodeChange) (adjacency : adjacency_map)
    (known : gset string) : result error adjacency_map :=
  match np_DependsOn (uc_Patch change) with
  | None => Ok adjacency
  | Some raw =>
      let deps := NormalizeDependsOn raw in
      let key := uc_NodeKey change in
      _ ← fold_result (fun _ d =>
            if String.eqb d key
            then Err (Errorf [ErrUpdateNodePlan] (Sprintf "ops[%d] update_node %q depends on itself" [pretty idx; key]))
            else guard_err (bool_decide (d ∈ known))
              (Errorf [ErrUpdateNodePlan] (Sprintf "ops[%d] update_node %q depends on unknown node %q" [pretty idx; key; d])))
          deps tt;
      Ok (<[key := deps]> adjacency)
  end.

Definition emptyPatchConfig (raw : RawMessage) : bool :=
  match raw with RawEmpty => true | RawJSON JNull => true | _ => false end.

Definition validateUpdateNodeConfig (change : UpdateNodeChange) (node : ExistingNodeFull)
  : result error unit :=
  let config := if emptyPatchConfig (np_Config (uc_Patch change)) then ef_Config node
                else np_Config (uc_Patch change) in
  map_err (wrap_err ErrUpdateNodePlan (Sprintf "update_node %q config invalid: %w" [uc_NodeKey change]))
    (ValidatePersistableNodeConfig (ef_NodeType node) config).

Definition update_step (byKey : gmap string ExistingNodeFull)
    (acc : adjacency_map * list UpdateNodeChange) (iop : nat * Op)
  : result error (adjacency_map * list UpdateNodeChange) :=
  change ← updateChangeFromOp iop.1 iop.2;
  match byKey !! uc_NodeKey change with
  | None => Err (Errorf [ErrUpdateNodePlan] (Sprintf "ops[%d] update_node node_key %q not found" [pretty iop.1; uc_NodeKey change]))
  | Some node =>
      _ ← ensureUpdatableStatus iop.1 (uc_NodeKey change) (ef_Status node);
      adjacency ← applyDependsOnPatch iop.1 change acc.1 (knownKeys byKey);
      _ ← validateUpdateNodeConfig change node;
      Ok (adjacency, acc.2 ++ [change])
  end.

Definition PlanUpdateNodes (ops : Ops) (existing : list ExistingNodeFull)
  : result error (adjacency_map * list UpdateNodeChange) :=
  let '(adjacency, byKey) := seedAdjacencyFull existing in
  fold_result (update_step byKey) (imap pair ops) (adjacency, []).

(** ** Removing nodes *)

Definition cloneAdjacency (adjacency : adjacency_map) : adjacency_map := adjacency.

Definition indexExistingFull (existing : list ExistingNodeFull) : gmap string ExistingNodeFull :=
  foldl (fun m n => <[ef_NodeKey n := n]> m) ∅ existing.

Definition removeChangeFromOp (idx : nat) (op : Op) : result error RemoveNodeChange :=
  match op with
  | OpRemoveNode k =>
      let key := TrimSpace k in
      if String.eqb key EmptyString
      then Err (Errorf [ErrRemoveNodePlan] (Sprintf "ops[%d] remove_node node_key required" [pretty idx]))
      else Ok (mkRemove key)
  | _ => Err (Errorf [ErrRemoveNodePlan] (Sprintf "ops[%d] not remove_node (got %s)" [pretty idx; Kind op]))
  end.

Definition isRemoveNodeStatusAllowed (status : string) : bool :=
  str_in status [NodeStatusPending; NodeStatusReady].

Definition ensureRemovableStatus (idx : nat) (key status : string) : result error unit :=
  guard_err (isRemoveNodeStatusAllowed status)
    (Errorf [ErrRemoveNodePlan] (Sprintf "ops[%d] remove_node %q status=%q not removable (allowed: pending|ready)" [pretty idx; key; status])).

Section removing.
Context (map_keys : adjacency_map -> list string).

(** The first dependent in iteration order; the empty string means none. *)
Definition firstDependentOn (adjacency : adjacency_map) (target : string) : string :=
  default EmptyString (List.find (fun nodeKey =>
    negb (String.eqb nodeKey target) && str_in target (list_of adjacency nodeKey))
    (map_keys adjacency)).

Definition remove_step (byKey : gmap string ExistingNodeFull)
    (acc : adjacency_map * gmap string nat * list RemoveNodeChange) (iop : nat * Op)
  : result error (adjacency_map * gmap string nat * list RemoveNodeChange) :=
  let '(pruned, seen, changes) := acc in
  change ← removeChangeFromOp iop.1 iop.2;
  let key := rc_NodeKey change in
  match seen !! key with
  | Some prev => Err (Errorf [ErrRemoveNodePlan] (Sprintf "ops[%d] and ops[%d] both remove node_key %q" [pretty prev; pretty iop.1; key]))
  | None =>
      match byKey !! key with
      | None => Err (Errorf [ErrRemoveNodePlan] (Sprintf "ops[%d] remove_node node_key %q not found" [pretty iop.1; key]))
      | Some node =>
          _ ← ensureRemovableStatus iop.1 key (ef_Status node);
          let dependent := firstDependentOn pruned key in
          if negb (String.eqb dependent EmptyString)
          then Err (Errorf [ErrRemoveNodePlan] (Sprintf "ops[%d] remove_node %q is depended on by %q" [pretty iop.1; key; dependent]))
          else Ok (delete key pruned, <[key := iop.1]> seen, changes ++ [change])
      end
  end.

Definition PlanRemoveNodes (ops : Ops) (existing : list ExistingNodeFull) (adjacency : adjacency_map)
  : result error (adjacency_map * list RemoveNodeChange) :=
  '(pruned, _, changes) ←
    fold_result (remove_step (indexExistingFull existing)) (imap pair ops)
      (cloneAdjacency adjacency, ∅, []);
  Ok (pruned, changes).

(** ** Checking a new template *)

Definition cycle_error (e : option CycleError) : error :=
  Errorf ["CycleError"] (Sprintf "cycle detected" (match e with Some c => Nodes c | None => [] end)).

Definition ValidateAddNodeTopology (specs : list NodeSpec) : result error unit :=
  '(adjacency, _) ← planAddNodeTopology (OpAddNode <$> specs) [];
  map_err cycle_error (DetectCycle (map_keys adjacency) adjacency).
End removing.

Example normalize_ex : NormalizeDependsOn [" a"; ""; "b "; "a"; "  "] = ["a"; "b"].
Proof. vm_compute. reflexivity. Qed.

(** ** What a plan guarantees *)

Definition closed (m : adjacency_map) : Prop :=
  forall k ds d, m !! k = Some ds -> d ∈ ds -> is_Some (m !! d).

Definition apply_spec (m : adjacency_map) (sp : NodeSpec) : adjacency_map :=
  <[sp_NodeKey sp := sp_DependsOn sp]> m.

Definition apply_change (m : adjacency_map) (c : UpdateNodeChange) : adjacency_map :=
  match np_DependsOn (uc_Patch c) with
  | None => m
  | Some raw => <[uc_NodeKey c := NormalizeDependsOn raw]> m
  end.

Definition apply_remove (m : adjacency_map) (c : RemoveNodeChange) : adjacency_map :=
  delete (rc_NodeKey c) m.

Lemma normalize_from_spec seen deps t :
  t ∈ normalize_from seen deps <->
  t <> EmptyString /\ t ∉ seen /\ exists d, d ∈ deps /\ t = TrimSpace d.
Proof.
  revert seen. induction deps as [|d deps IH]; intros seen; simpl; [set_solver|].
  destruct (String.eqb_spec (TrimSpace d) EmptyString) as [E|E].
  { rewrite IH. set_solver. }
  destruct (str_in (TrimSpace d) seen) eqn:Hs.
  { apply str_in_elem in Hs. rewrite IH. set_solver. }
  assert (TrimSpace d ∉ seen) as Hn by (by rewrite <- str_in_elem, Hs).
  rewrite elem_of_cons, IH. destruct (decide (t = TrimSpace d)) as [->|]; set_solver.
Qed.

Lemma normalize_elem deps t :
  t ∈ NormalizeDependsOn deps <-> t <> EmptyString /\ exists d, d ∈ deps /\ t = TrimSpace d.
Proof. unfold NormalizeDependsOn. rewrite normalize_from_spec. set_solver. Qed.

Lemma normalize_trimmed deps t : t ∈ NormalizeDependsOn deps -> trimmed t /\ t <> EmptyString.
Proof. intros (? & d & _ & ->)%normalize_elem. split; [apply trimmed_TrimSpace|done]. Qed.

Lemma fold_unit_Ok {A} (f : unit -> A -> result error unit) l :
  fold_result f l tt = Ok tt <-> Forall (fun a => f tt a = Ok tt) l.
Proof.
  induction l as [|a l IH]; simpl; [by split|]. rewrite Forall_cons, <- IH.
  destruct (f tt a) as [[]|]; simpl; naive_solver.
Qed.

(** A node specification as the planner accepts it. *)
Definition spec_ok (sp : NodeSpec) : Prop :=
  trimmed (sp_NodeKey sp) /\ sp_NodeKey sp <> EmptyString
  /\ Forall (fun d => trimmed d /\ d <> EmptyString /\ d <> sp_NodeKey sp) (sp_DependsOn sp).

Lemma addNodeSpecFromOp_key i op sp :
  addNodeSpecFromOp i op = Ok sp ->
  trimmed (sp_NodeKey sp) /\ sp_NodeKey sp <> EmptyString
  /\ forall d, d ∈ sp_DependsOn sp -> trimmed d /\ d <> EmptyString.
Proof.
  unfold addNodeSpecFromOp. destruct op as [|spec| | |]; try done.
  destruct (String.eqb_spec (TrimSpace (sp_NodeKey spec)) EmptyString); [done|]. intros [= <-]. simpl.
  split_and!; [apply trimmed_TrimSpace|done|]. intros d. apply normalize_trimmed.
Qed.

Lemma seedAdjacency_known existing :
  (seedAdjacency existing).2 = dom (seedAdjacency existing).1.
Proof.
  unfold seedAdjacency. enough (forall acc : adjacency_map * gset string, acc.2 = dom acc.1 ->
    (foldl seed_node acc existing).2 = dom (foldl seed_node acc existing).1) as H.
  { apply H. simpl. by rewrite dom_empty_L. }
  induction existing as [|n existing IH]; intros acc Hacc; [done|]. simpl. apply IH.
  simpl. by rewrite dom_insert_L, Hacc.
Qed.

(** The invariant of the add loop, started from the map [m0]. *)
Record add_inv (m0 : adjacency_map) (acc : adjacency_map * gset string * list NodeSpec) : Prop := {
  ai_map : acc.1.1 = foldl apply_spec m0 acc.2;
  ai_known : acc.1.2 = dom acc.1.1;
  ai_specs : Forall spec_ok acc.2;
  ai_fresh : forall sp, sp ∈ acc.2 -> m0 !! sp_NodeKey sp = None;
  ai_nodup : NoDup (sp_NodeKey <$> acc.2);
  ai_new : forall sp, sp ∈ acc.2 -> sp_NodeKey sp ∈ acc.1.2;
  ai_old : dom m0 ⊆ acc.1.2;
}.

Lemma add_step_inv m0 acc iop acc' :
  add_inv m0 acc -> add_step acc iop = Ok acc' -> add_inv m0 acc'.
Proof.
  intros [Hm Hk Hs Hf Hnd Hnew Hold] Hstep. unfold add_step in Hstep. go_ok.
  rename x into spec. destruct (addNodeSpecFromOp_key _ _ _ H) as (Ht & Hne & Hd).
  unfold registerNewNode in H0. case_bool_decide as Hin; [done|].
  destruct (str_in (sp_NodeKey spec) (sp_DependsOn spec)) eqn:Hself; [done|]. simplify_eq/=.
  assert (sp_NodeKey spec ∉ sp_DependsOn spec) as Hnself by (by rewrite <- str_in_elem, Hself).
  split; simpl.
  - by rewrite foldl_snoc, <- Hm.
  - by rewrite dom_insert_L, Hk.
  - apply Forall_app. split; [done|]. apply Forall_singleton. split_and!; [done..|].
    apply Forall_forall. intros d Hin'. destruct (Hd d Hin'). split_and!; [done..|]. by intros ->.
  - intros sp [?|E%list_elem_of_singleton]%elem_of_app; [by apply Hf|]. subst sp.
    apply not_elem_of_dom. set_solver.
  - rewrite fmap_app. apply NoDup_app. split_and!; [done| |apply NoDup_singleton].
    intros k (sp & -> & Hsp)%list_elem_of_fmap E%list_elem_of_singleton.
    rewrite <- E in Hin. by apply Hin, Hnew.
  - intros sp [?|E%list_elem_of_singleton]%elem_of_app; set_solver.
  - set_solver.
Qed.

Lemma foldl_apply_spec_dom specs m k :
  is_Some (foldl apply_spec m specs !! k) <-> is_Some (m !! k) \/ k ∈ (sp_NodeKey <$> specs).
Proof.
  revert m. induction specs as [|sp specs IH]; intros m; [set_solver|]. simpl. rewrite IH.
  unfold apply_spec. rewrite elem_of_cons. destruct (decide (sp_NodeKey sp = k)) as [->|Hne].
  - rewrite lookup_insert_eq. naive_solver.
  - rewrite lookup_insert_ne by done. naive_solver.
Qed.

Lemma foldl_apply_spec_new specs m k ds :
  foldl apply_spec m specs !! k = Some ds ->
  (exists sp, sp ∈ specs /\ sp_NodeKey sp = k /\ sp_DependsOn sp = ds) \/ m !! k = Some ds.
Proof.
  revert m. induction specs as [|sp specs IH]; intros m; simpl; [by right|].
  intros [(sp' & ? & ?)|H]%IH; [left; exists sp'; set_solver|].
  unfold apply_spec in H. destruct (decide (sp_NodeKey sp = k)) as [<-|Hne].
  - rewrite lookup_insert_eq in H. simplify_eq. left. exists sp. set_solver.
  - rewrite lookup_insert_ne in H by done. by right.
Qed.

Lemma planAddNodeTopology_spec ops existing adj specs :
  planAddNodeTopology ops existing = Ok (adj, specs) ->
  let m0 := (seedAdjacency existing).1 in
  adj = foldl apply_spec m0 specs /\ Forall spec_ok specs /\ NoDup (sp_NodeKey <$> specs)
  /\ (forall sp, sp ∈ specs -> m0 !! sp_NodeKey sp = None)
  /\ (forall sp d, sp ∈ specs -> d ∈ sp_DependsOn sp -> is_Some (adj !! d)).
Proof.
  intros H m0. unfold planAddNodeTopology in H. apply bind_Ok in H as ([[adj' known] acc] & Hfold & H).
  apply bind_Ok in H as ([] & Hver & H). simplify_eq.
  assert (add_inv m0 (adj, known, specs)) as [Hm Hk Hs Hf Hnd _ _].
  { eapply (fold_result_inv (add_inv m0)); [|..|exact Hfold].
    - intros s iop s' _. apply add_step_inv.
    - split; simpl; [done|apply seedAdjacency_known|done|set_solver|constructor|set_solver|].
      by rewrite seedAdjacency_known. }
  simpl in *. split_and!; [done..|]. intros sp d Hsp Hd.
  unfold verifyDependsOnIntegrity in Hver. rewrite fold_unit_Ok, Forall_forall in Hver.
  specialize (Hver sp Hsp). simpl in Hver. rewrite fold_unit_Ok, Forall_forall in Hver.
  specialize (Hver d Hd). simpl in Hver. apply guard_err_Ok in Hver. go_bool.
  apply elem_of_dom. by rewrite <- Hk.
Qed.

(** Adding nodes keeps the references inside the template. *)
Lemma add_closed ops existing adj specs :
  planAddNodeTopology ops existing = Ok (adj, specs) ->
  closed (seedAdjacency existing).1 -> closed adj.
Proof.
  intros H%planAddNodeTopology_spec. cbv zeta in H. destruct H as (Hadj & _ & _ & _ & Hdeps). intros Hc k ds d Hk Hd.
  pose proof Hk as Hk'. rewrite Hadj in Hk'.
  apply foldl_apply_spec_new in Hk' as [(sp & Hsp & <- & <-)|Hold]; [by eapply Hdeps|].
  rewrite Hadj. apply foldl_apply_spec_dom. left. by eapply Hc.
Qed.

(** ** Updates *)

Lemma seedAdjacencyFull_spec existing :
  (seedAdjacencyFull existing).1
    = foldl (fun m n => <[ef_NodeKey n := ef_DependsOn n]> m) ∅ existing
  /\ (seedAdjacencyFull existing).2 = indexExistingFull existing
  /\ dom (seedAdjacencyFull existing).2 = dom (seedAdjacencyFull existing).1.
Proof.
  unfold seedAdjacencyFull, indexExistingFull.
  enough (forall acc : adjacency_map * gmap string ExistingNodeFull, dom acc.2 = dom acc.1 ->
    (foldl seed_full acc existing).1 = foldl (fun m n => <[ef_NodeKey n := ef_DependsOn n]> m) acc.1 existing
    /\ (foldl seed_full acc existing).2 = foldl (fun m n => <[ef_NodeKey n := n]> m) acc.2 existing
    /\ dom (foldl seed_full acc existing).2 = dom (foldl seed_full acc existing).1) as H.
  { apply (H (∅, ∅)). simpl. set_solver. }
  induction existing as [|n existing IH]; intros acc Hacc; [done|]. simpl.
  apply (IH (seed_full acc n)). simpl. by rewrite !dom_insert_L, Hacc.
Qed.

Record update_inv (byKey : gmap string ExistingNodeFull) (m0 : adjacency_map)
    (acc : adjacency_map * list UpdateNodeChange) : Prop := {
  ui_map : acc.1 = foldl apply_change m0 acc.2;
  ui_dom : dom acc.1 = dom m0;
  ui_closed : closed acc.1;
  ui_keys : forall c, c ∈ acc.2 -> exists n, byKey !! uc_NodeKey c = Some n
              /\ (ef_Status n = NodeStatusPending \/ ef_Status n = NodeStatusReady);
}.

Lemma applyDependsOnPatch_spec i c adj known adj' :
  applyDependsOnPatch i c adj known = Ok adj' ->
  adj' = apply_change adj c /\
  (forall raw d, np_DependsOn (uc_Patch c) = Some raw -> d ∈ NormalizeDependsOn raw -> d ∈ known).
Proof.
  unfold applyDependsOnPatch, apply_change. destruct (np_DependsOn (uc_Patch c)) as [raw|]; [|naive_solver].
  intros H. apply bind_Ok in H as ([] & Hf & H). simplify_eq. split; [done|].
  rewrite fold_unit_Ok, Forall_forall in Hf. intros ? d [= <-] Hd. specialize (Hf d Hd). simpl in Hf.
  destruct (String.eqb d (uc_NodeKey c)); [done|]. apply guard_err_Ok in Hf. by go_bool.
Qed.

Lemma apply_change_closed m c :
  closed m -> is_Some (m !! uc_NodeKey c) ->
  (forall raw d, np_DependsOn (uc_Patch c) = Some raw -> d ∈ NormalizeDependsOn raw -> is_Some (m !! d)) ->
  closed (apply_change m c) /\ dom (apply_change m c) = dom m.
Proof.
  unfold apply_change. intros Hc Hk Hd. destruct (np_DependsOn (uc_Patch c)) as [raw|]; [|done]. split.
  - intros k ds d Hin Hds. rewrite lookup_insert_is_Some'. right.
    destruct (decide (uc_NodeKey c = k)) as [<-|Hne].
    + rewrite lookup_insert_eq in Hin. simplify_eq. by eapply Hd.
    + rewrite lookup_insert_ne in Hin by done. by eapply Hc.
  - rewrite dom_insert_L. apply elem_of_dom in Hk. set_solver.
Qed.

Lemma update_step_inv byKey m0 acc iop acc' :
  dom byKey = dom m0 ->
  update_inv byKey m0 acc -> update_step byKey acc iop = Ok acc' -> update_inv byKey m0 acc'.
Proof.
  intros Hdom [Hm Hd Hc Hk] Hstep. unfold update_step in Hstep.
  apply bind_Ok in Hstep as (c & Hop & Hstep). destruct (byKey !! uc_NodeKey c) as [n|] eqn:Hn; [|done].
  apply bind_Ok in Hstep as ([] & Hst & Hstep). apply bind_Ok in Hstep as (adj & Hadj & Hstep).
  apply bind_Ok in Hstep as ([] & _ & Hstep). simplify_eq.
  apply applyDependsOnPatch_spec in Hadj as [-> Hdeps].
  assert (forall k, is_Some (byKey !! k) <-> is_Some (acc.1 !! k)) as Hbk.
  { intros k. by rewrite <- !elem_of_dom, Hdom, Hd. }
  destruct (apply_change_closed acc.1 c Hc) as [Hc' Hd'].
  { apply Hbk. eauto. }
  { intros raw d Hr Hin. apply Hbk, elem_of_dom. by eapply Hdeps. }
  split; simpl; [by rewrite foldl_snoc, <- Hm|by rewrite Hd'|done|].
  intros c' [?|E%list_elem_of_singleton]%elem_of_app; [by apply Hk|]. subst c'. exists n. split; [done|].
  unfold ensureUpdatableStatus in Hst. apply guard_err_Ok in Hst. unfold isUpdateNodeStatusAllowed in Hst.
  apply str_in_elem in Hst. set_solver.
Qed.

Lemma PlanUpdateNodes_spec ops existing adj changes :
  PlanUpdateNodes ops existing = Ok (adj, changes) ->
  closed (seedAdjacencyFull existing).1 ->
  update_inv (indexExistingFull existing) (seedAdjacencyFull existing).1 (adj, changes).
Proof.
  unfold PlanUpdateNodes. destruct (seedAdjacencyFull_spec existing) as (_ & Hby & Hdom).
  destruct (seedAdjacencyFull existing) as [m0 byKey]. simpl in *. subst byKey. intros Hfold Hc.
  eapply (fold_result_inv (update_inv _ m0)); [|..|exact Hfold].
  - intros s iop s' _. by apply update_step_inv.
  - split; simpl; [done..|set_solver].
Qed.

(** ** Removals *)

Section remove_spec.
Context (map_keys : adjacency_map -> list string).
Hypothesis map_keys_perm : forall m, map_keys m ≡ₚ keys m.

Lemma firstDependentOn_none m target :
  m !! EmptyString = None -> firstDependentOn map_keys m target = EmptyString ->
  forall k ds, m !! k = Some ds -> k <> target -> target ∉ ds.
Proof.
  unfold firstDependentOn. intros He Hf k ds Hk Hne Hin.
  destruct (List.find _ _) as [k'|] eqn:E; simpl in Hf.
  - apply find_some in E as [E _]. subst k'. apply list_elem_of_In in E.
    rewrite map_keys_perm, elem_of_keys, He in E. by destruct E.
  - assert (List.In k (map_keys m)) as Hi.
    { apply list_elem_of_In. rewrite map_keys_perm, elem_of_keys. eauto. }
    pose proof (find_none _ _ E k Hi) as Hk'. simpl in Hk'. unfold list_of in Hk'. rewrite Hk in Hk'.
    simpl in Hk'. apply andb_false_iff in Hk' as [Hk'|Hk']; go_bool; [done|].
    by rewrite <- not_true_iff_false, str_in_elem in Hk'.
Qed.

Lemma delete_closed m k :
  closed m -> (forall k' ds, m !! k' = Some ds -> k' <> k -> k ∉ ds) -> closed (delete k m).
Proof.
  intros Hc Hk k' ds d [Hne Hk']%lookup_delete_Some Hd.
  destruct (decide (d = k)) as [->|Hdk]; [|rewrite lookup_delete_ne by done; by eapply Hc].
  exfalso. by eapply Hk.
Qed.

Record remove_inv (byKey : gmap string ExistingNodeFull) (m0 : adjacency_map)
    (acc : adjacency_map * gmap string nat * list RemoveNodeChange) : Prop := {
  ri_map : acc.1.1 = foldl apply_remove m0 acc.2;
  ri_closed : closed acc.1.1;
  ri_nonempty : acc.1.1 !! EmptyString = None;
  ri_keys : forall c, c ∈ acc.2 -> exists n, byKey !! rc_NodeKey c = Some n
              /\ (ef_Status n = NodeStatusPending \/ ef_Status n = NodeStatusReady);
}.

Lemma remove_step_inv byKey m0 acc iop acc' :
  remove_inv byKey m0 acc -> remove_step map_keys byKey acc iop = Ok acc' -> remove_inv byKey m0 acc'.
Proof.
  destruct acc as [[m seen] changes]. intros [Hm Hc He Hk] Hstep. unfold remove_step in Hstep.
  apply bind_Ok in Hstep as (c & Hop & Hstep). destruct (seen !! rc_NodeKey c); [done|].
  destruct (byKey !! rc_NodeKey c) as [n|] eqn:Hn; [|done].
  apply bind_Ok in Hstep as ([] & Hst & Hstep).
  destruct (String.eqb_spec (firstDependentOn map_keys m (rc_NodeKey c)) EmptyString) as [Hf|]; [|done].
  simplify_eq/=. split; simpl.
  - by rewrite foldl_snoc.
  - apply delete_closed; [done|]. by apply firstDependentOn_none.
  - by rewrite lookup_delete_None; right.
  - intros c' [?|E%list_elem_of_singleton]%elem_of_app; [by apply Hk|]. subst c'. exists n. split; [done|].
    unfold ensureRemovableStatus in Hst. apply guard_err_Ok in Hst. unfold isRemoveNodeStatusAllowed in Hst.
    apply str_in_elem in Hst. set_solver.
Qed.

Lemma PlanRemoveNodes_spec ops existing adj pruned changes :
  PlanRemoveNodes map_keys ops existing adj = Ok (pruned, changes) ->
  closed adj -> adj !! EmptyString = None ->
  pruned = foldl apply_remove adj changes /\ closed pruned
  /\ forall c, c ∈ changes -> exists n, indexExistingFull existing !! rc_NodeKey c = Some n
       /\ (ef_Status n = NodeStatusPending \/ ef_Status n = NodeStatusReady).
Proof.
  unfold PlanRemoveNodes. intros H Hc He. apply bind_Ok in H as ([[m seen] ch] & Hfold & H). simplify_eq.
  assert (remove_inv (indexExistingFull existing) adj (pruned, seen, changes)) as [Hm Hc' _ Hk].
  { eapply (fold_result_inv (remove_inv _ adj)); [|..|exact Hfold].
    - intros s iop s' _. apply remove_step_inv.
    - split; simpl; [done..|set_solver]. }
  done.
Qed.

End remove_spec.
