(* ===== verification/DagStore.v ===== *)
(** * The task DAG tables and the template side of the store

    Models the SQLite tables [task_dags], [task_dag_nodes], [task_dag_runs] and
    [task_dag_wakeups] as lists of rows, the queries of [cmd/mcp-orch/sql/queries]
    as updates of those lists, and the template methods of
    [store/taskdag/store.go], [store_dag_ops.go], [store_batch_upsert.go] and
    [store_delete_dag.go].

    A transaction is a function from the database to a value and a new database; an
    error carries no database, which is the rollback.  Rows keep the columns the
    code reads; creation and update times are left out.  Whether SQLite accepts a
    written node row (its CHECK and NOT NULL constraints) is the argument
    [row_accepted]. *)

From S2P Require Import Prelude GoStrings GoTime Json.

(** ** Rows *)

Record DAG := mkDAG {
  dg_DagKey : string; dg_Version : Z; dg_Title : string; dg_Description : string;
  dg_Status : string; dg_CreatedBy : string; dg_Metadata : RawMessage;
  dg_Trigger : string; dg_OwnerID : string; dg_CronExpr : string; dg_NextRunAt : option Z;
}.

Record Node := mkNode {
  nd_DagKey : string; nd_NodeKey : string; nd_RunID : option Z; nd_Title : string;
  nd_NodeType : string; nd_AssignedTo : string; nd_DependsOn : RawMessage;
  nd_Reads : list string; nd_Writes : list string; nd_Status : string;
  nd_CommandRef : string; nd_Config : RawMessage; nd_Result : RawMessage;
  nd_ActiveTurnID : option string; nd_ActiveWakeupID : option Z;
  nd_SpawningThreadID : option string;
}.

Record Run := mkRun {
  rn_ID : Z; rn_RunKey : string; rn_DagKey : string; rn_DagVersionSnapshot : Z;
  rn_TriggerSource : string; rn_Status : string; rn_Events : RawMessage; rn_Metadata : RawMessage;
}.

Record Wakeup := mkWakeup {
  wk_ID : Z; wk_DagKey : string; wk_NodeKey : string; wk_RunID : option Z;
  wk_Kind : string; wk_TargetAgentID : string; wk_PromptPayload : RawMessage;
  wk_PayloadSchemaVersion : Z; wk_IdempotencyKey : string;
  wk_Status : string; wk_AttemptCount : Z; wk_NextRetryAt : Z;
  wk_ClaimedAt : option Z; wk_ClaimedBy : string; wk_LeaseExpiresAt : option Z;
  wk_SentAt : option Z; wk_BoundTurnID : option string; wk_LastError : string;
}.

Record db := mkDB {
  db_dags : list DAG; db_nodes : list Node; db_runs : list Run; db_wakeups : list Wakeup;
}.

Definition with_dags (s : db) l := mkDB l (db_nodes s) (db_runs s) (db_wakeups s).
Definition with_nodes (s : db) l := mkDB (db_dags s) l (db_runs s) (db_wakeups s).
Definition with_runs (s : db) l := mkDB (db_dags s) (db_nodes s) l (db_wakeups s).
Definition with_wakeups (s : db) l := mkDB (db_dags s) (db_nodes s) (db_runs s) l.

(** ** Statements *)

(** [UPDATE ... SET ... WHERE ...]: the table and the affected rows. *)
Definition sql_update {A} (where_ : A -> bool) (set_ : A -> A) (rows : list A) : list A * nat :=
  ((fun r => if where_ r then set_ r else r) <$> rows, length (List.filter where_ rows)).

Definition sql_delete {A} (where_ : A -> bool) (rows : list A) : list A * nat :=
  (List.filter (fun r => negb (where_ r)) rows, length (List.filter where_ rows)).

(** Transactions. *)
Definition M (A : Type) : Type := db -> result error (A * db).

#[export] Instance M_ret : MRet M := fun A a s => Ok (a, s).
#[export] Instance M_bind : MBind M := fun A B f m s =>
  match m s with Ok (a, s) => f a s | Err e => Err e end.

Definition fail {A} (e : error) : M A := fun _ => Err e.
Definition lift {A} (r : result error A) : M A := fun s => a ← r; Ok (a, s).
Definition get_db : M db := fun s => Ok (s, s).
Definition put_db (s : db) : M unit := fun _ => Ok (tt, s).
Definition guardM (b : bool) (e : error) : M unit := if b then mret tt else fail e.

(** [for _, x := range l { ... }] *)
Fixpoint forM {A} (l : list A) (f : A -> M unit) : M unit :=
  match l with
  | [] => mret tt
  | a :: l => _ ← f a; forM l f
  end.

Lemma M_bind_Ok {A B} (m : M A) (f : A -> M B) s b s' :
  (m ≫= f) s = Ok (b, s') -> exists a s1, m s = Ok (a, s1) /\ f a s1 = Ok (b, s').
Proof. unfold mbind, M_bind. destruct (m s) as [[a s1]|]; [eauto|done]. Qed.

Lemma lift_Ok {A} (r : result error A) s a s' : lift r s = Ok (a, s') -> r = Ok a /\ s' = s.
Proof. unfold lift. destruct r as [x|e]; [|done]. by intros [= <- <-]. Qed.

Lemma guardM_Ok b e s u s' : guardM b e s = Ok (u, s') -> b = true /\ s' = s.
Proof. unfold guardM. destruct b; [|done]. by intros [= _ <-]. Qed.

Lemma mret_Ok {A} (a b : A) s s' : @mret M _ A a s = Ok (b, s') -> a = b /\ s = s'.
Proof. by intros [= -> ->]. Qed.

Lemma put_db_Ok s0 s u s' : put_db s0 s = Ok (u, s') -> s0 = s'.
Proof. by intros [= _ ->]. Qed.

Lemma get_db_Ok s a s' : get_db s = Ok (a, s') -> a = s /\ s' = s.
Proof. by intros [= -> ->]. Qed.

(** Peels the statements of a transaction that committed. *)
Ltac tx_ok :=
  repeat match goal with
  | H : (_ ≫= _) _ = Ok (_, _) |- _ => apply M_bind_Ok in H as (? & ? & ? & H)
  | H : lift _ _ = Ok (_, _) |- _ => apply lift_Ok in H as [H ->]
  | H : guardM _ _ _ = Ok (_, _) |- _ => apply guardM_Ok in H as [H ->]
  | H : get_db _ = Ok (_, _) |- _ => apply get_db_Ok in H as [-> ->]
  | H : put_db _ _ = Ok (_, _) |- _ => apply put_db_Ok in H; subst
  | H : @mret M _ _ _ _ = Ok (_, _) |- _ => apply mret_Ok in H as [? ?]; subst
  | H : fail _ _ = Ok _ |- _ => discriminate H
  | x : unit |- _ => destruct x
  end.

(** An invariant of the loop body is an invariant of the loop. *)
Lemma forM_inv {A} (P : db -> Prop) (l : list A) f s u s' :
  (forall a s u s', a ∈ l -> P s -> f a s = Ok (u, s') -> P s') ->
  P s -> forM l f s = Ok (u, s') -> P s'.
Proof.
  revert s. induction l as [|a l IH]; intros s Hf Hs Hrun; simpl in Hrun; tx_ok; [done|].
  eapply IH; [|eapply Hf; [by left|..]; eauto|done].
  intros; eapply Hf; eauto; by right.
Qed.

(** ** Domain errors *)

Definition ErrNotFound : string := "ErrNotFound".
Definition ErrDAGDeleteActiveRun : string := "ErrDAGDeleteActiveRun".
Definition ErrConstraint : string := "ErrConstraint".

Definition not_found : error := Errorf [ErrNotFound] (Sprintf "not found" []).

(** ** Cleaning of string lists *)

Definition cleanStringSlice (values : list string) : list string :=
  List.filter (fun v => negb (String.eqb v EmptyString)) (TrimSpace <$> values).

(** The lists a node row holds after [stringSliceJSON] and [nodeStringSlice]. *)
Definition stringSlice (values : list string) : list string := cleanStringSlice values.

(** ** Reading *)

Definition template_of (dagKey : string) (n : Node) : bool :=
  String.eqb (nd_DagKey n) dagKey && match nd_RunID n with None => true | Some _ => false end.

Definition find_dag (dagKey : string) (s : db) : option DAG :=
  List.find (fun d => String.eqb (dg_DagKey d) dagKey) (db_dags s).

Definition GetDAG (dagKey : string) : M DAG :=
  s ← get_db; lift (match find_dag dagKey s with Some d => Ok d | None => Err not_found end).

Definition GetDAGVersion (dagKey : string) : M Z := d ← GetDAG dagKey; mret (dg_Version d).

(** SQLite serialises writers by [BEGIN IMMEDIATE]; the locking read reads. *)
Definition GetDAGVersionForUpdate (dagKey : string) : M Z := GetDAGVersion dagKey.

Definition ListNodes (dagKey : string) : M (list Node) :=
  s ← get_db; mret (List.filter (template_of dagKey) (db_nodes s)).

Definition CountRunningRunsByDagKey (dagKey : string) : M Z :=
  s ← get_db;
  mret (Z.of_nat (length (List.filter (fun r =>
    String.eqb (rn_DagKey r) dagKey && String.eqb (rn_Status r) "running") (db_runs s)))).

Record DAGSchedule := mkSchedule { sc_Trigger : string; sc_CronExpr : string }.

Definition GetDAGSchedule (dagKey : string) : M DAGSchedule :=
  d ← GetDAG dagKey; mret (mkSchedule (dg_Trigger d) (dg_CronExpr d)).

(** ** Writing templates *)

Definition requireSingleAffectedRow (operation : string) (rows : nat) : M unit :=
  match rows with
  | 0 => fail not_found
  | 1 => mret tt
  | _ => fail (Errorf [] (Sprintf "%s: affected %d rows, want 1" [operation; pretty rows]))
  end.

Definition requireSingleNodeWrite (rows : nat) : M unit :=
  match rows with
  | 0 => fail not_found
  | 1 => mret tt
  | _ => fail (Errorf [] (Sprintf "task_dag_node write affected %d rows, want 1" [pretty rows]))
  end.

Record UpdateDAGPatchInput := mkDAGPatchInput {
  pi_DagKey : string; pi_Title : option string; pi_Description : option string;
  pi_Trigger : option string; pi_CronExpr : option string; pi_OwnerID : option string;
  pi_NextRunAt : option Z; pi_ScheduleEnabled : option bool;
}.

Definition valueOrCurrent (value : option string) (current : string) : string :=
  default current value.

(** Columns hold milliseconds: the zero time is written as NULL, and 0 is read as the
    zero time. *)
Definition TimeValuePtr (t : Z) : option Z := if IsZero t then None else Some t.
Definition TimeValue (v : Z) : Z := if (v =? 0)%Z then zero_time else v.
Definition TimePtr (v : option Z) : option Z := match v with Some v => if (v =? 0)%Z then None else Some v | None => None end.

Definition resolveNextRunAt (current : option Z) (input : UpdateDAGPatchInput)
    (trigger cronExpr : string) : option Z :=
  match pi_ScheduleEnabled input with
  | Some false => None
  | _ =>
      if negb (String.eqb trigger "scheduled") || String.eqb cronExpr EmptyString then None
      else match pi_NextRunAt input with Some t => TimeValuePtr t | None => current end
  end.

(** The row after [UPDATE task_dags] with the resolved columns. *)
Definition resolveDAGPatch (current : DAG) (input : UpdateDAGPatchInput) : DAG :=
  let trigger := valueOrCurrent (pi_Trigger input) (dg_Trigger current) in
  let cronExpr := valueOrCurrent (pi_CronExpr input) (dg_CronExpr current) in
  mkDAG (dg_DagKey current) (dg_Version current)
    (valueOrCurrent (pi_Title input) (dg_Title current))
    (valueOrCurrent (pi_Description input) (dg_Description current))
    (dg_Status current) (dg_CreatedBy current) (dg_Metadata current)
    trigger (valueOrCurrent (pi_OwnerID input) (dg_OwnerID current)) cronExpr
    (resolveNextRunAt (dg_NextRunAt current) input trigger cronExpr).

Definition update_dags (where_ : DAG -> bool) (set_ : DAG -> DAG) : M nat :=
  s ← get_db;
  let '(rows, n) := sql_update where_ set_ (db_dags s) in
  _ ← put_db (with_dags s rows); mret n.

Definition UpdateDAGPatch (input : UpdateDAGPatchInput) : M nat :=
  current ← GetDAG (pi_DagKey input);
  rows ← update_dags (fun d => String.eqb (dg_DagKey d) (pi_DagKey input))
                     (fun _ => resolveDAGPatch current input);
  _ ← requireSingleAffectedRow "update task_dag patch" rows;
  mret rows.

Definition bump (d : DAG) : DAG :=
  mkDAG (dg_DagKey d) (dg_Version d + 1) (dg_Title d) (dg_Description d) (dg_Status d)
    (dg_CreatedBy d) (dg_Metadata d) (dg_Trigger d) (dg_OwnerID d) (dg_CronExpr d) (dg_NextRunAt d).

Definition BumpDAGVersion (dagKey : string) (expectedVersion : Z) : M Z :=
  rows ← update_dags (fun d => String.eqb (dg_DagKey d) dagKey && (dg_Version d =? expectedVersion)%Z) bump;
  _ ← requireSingleAffectedRow "bump task_dag version" rows;
  mret (expectedVersion + 1)%Z.

Definition update_nodes (where_ : Node -> bool) (set_ : Node -> Node) : M nat :=
  s ← get_db;
  let '(rows, n) := sql_update where_ set_ (db_nodes s) in
  _ ← put_db (with_nodes s rows); mret n.

Section template_writes.
Context (row_accepted : Node -> bool).

Definition constraint_error : error := Errorf [ErrConstraint] (Sprintf "constraint failed" []).

(** [UpdateTaskDagNode]: the editable columns of the template row. *)
Definition template_columns (node old : Node) : Node :=
  mkNode (nd_DagKey old) (nd_NodeKey old) (nd_RunID old) (nd_Title node) (nd_NodeType node)
    (nd_AssignedTo node) (nd_DependsOn node) (stringSlice (nd_Reads node))
    (stringSlice (nd_Writes node)) (nd_Status old) (nd_CommandRef node) (nd_Config node)
    (nd_Result old) (nd_ActiveTurnID old) (nd_ActiveWakeupID old) (nd_SpawningThreadID old).

Definition same_template (node n : Node) : bool :=
  template_of (nd_DagKey node) n && String.eqb (nd_NodeKey n) (nd_NodeKey node).

(** [InsertTaskDagNode]: a template row with the column defaults. *)
Definition inserted_template (node : Node) : Node :=
  template_columns node (mkNode (nd_DagKey node) (nd_NodeKey node) None EmptyString EmptyString
    EmptyString RawEmpty [] [] "pending" EmptyString RawEmpty (RawJSON (JObj [])) None None None).

(** Update, insert when no row matched; the row that is read back afterwards is
    discarded by every caller and left out. *)
Definition upsertNodeTx (node : Node) : M unit :=
  _ ← guardM (row_accepted node) constraint_error;
  rows ← update_nodes (same_template node) (template_columns node);
  rows ← (if (rows =? 0)%nat then
            s ← get_db;
            _ ← put_db (with_nodes s (db_nodes s ++ [inserted_template node]));
            mret 1
          else mret rows);
  requireSingleNodeWrite rows.

Definition UpsertNode (node : Node) : M unit := upsertNodeTx node.

Definition BatchUpsertNodes (nodes : list Node) : M nat :=
  _ ← forM nodes upsertNodeTx; mret (length nodes).
End template_writes.

(** [DeleteTaskDagNode]: only a pending or ready template. *)
Definition DeleteNode (dagKey nodeKey : string) : M nat :=
  s ← get_db;
  let '(rows, n) := sql_delete (fun n => template_of dagKey n && String.eqb (nd_NodeKey n) nodeKey
                       && str_in (nd_Status n) ["pending"; "ready"]) (db_nodes s) in
  _ ← put_db (with_nodes s rows); mret n.

(** [persistDAG]: insert the row or update its metadata columns; the version and the
    schedule of an existing DAG stay. *)
Definition persistDAG (dag : DAG) : M unit :=
  s ← get_db;
  match find_dag (dg_DagKey dag) s with
  | None =>
      _ ← put_db (with_dags s (db_dags s ++
            [mkDAG (dg_DagKey dag) 0 (dg_Title dag) (dg_Description dag) (dg_Status dag)
               (dg_CreatedBy dag) (dg_Metadata dag) "manual" EmptyString EmptyString None]));
      requireSingleAffectedRow "insert task_dag" 1
  | Some _ =>
      rows ← update_dags (fun d => String.eqb (dg_DagKey d) (dg_DagKey dag))
               (fun d => mkDAG (dg_DagKey d) (dg_Version d) (dg_Title dag) (dg_Description dag)
                  (dg_Status dag) (dg_CreatedBy dag) (dg_Metadata dag) (dg_Trigger d)
                  (dg_OwnerID d) (dg_CronExpr d) (dg_NextRunAt d));
      requireSingleAffectedRow "update task_dag" rows
  end.

Definition UpsertDAG (dag : DAG) : M DAG := _ ← persistDAG dag; GetDAG (dg_DagKey dag).

(** ** Deleting a DAG *)

Definition lockDAGForDelete (dagKey : string) : M unit := _ ← GetDAG dagKey; mret tt.

(** Wakeups, nodes and runs go before the DAG row. *)
Definition deleteDAGDependents (dagKey : string) : M unit :=
  s ← get_db;
  put_db (mkDB (db_dags s)
    (sql_delete (fun n => String.eqb (nd_DagKey n) dagKey) (db_nodes s)).1
    (sql_delete (fun r => String.eqb (rn_DagKey r) dagKey) (db_runs s)).1
    (sql_delete (fun w => String.eqb (wk_DagKey w) dagKey) (db_wakeups s)).1).

Definition deleteDAGRow (dagKey : string) : M nat :=
  s ← get_db;
  let '(rows, n) := sql_delete (fun d => String.eqb (dg_DagKey d) dagKey) (db_dags s) in
  _ ← put_db (with_dags s rows);
  _ ← guardM (negb (n =? 0)%nat) not_found;
  mret n.

Definition store_DeleteDAG (dagKey : string) : M nat :=
  let key := TrimSpace dagKey in
  _ ← guardM (negb (String.eqb key EmptyString))
        (Errorf [] (Sprintf "delete task_dag: dag_key is required" []));
  _ ← lockDAGForDelete key;
  active ← CountRunningRunsByDagKey key;
  _ ← guardM (negb (0 <? active)%Z)
        (Errorf [ErrDAGDeleteActiveRun] (Sprintf "task_dag: delete blocked by active running run" []));
  _ ← deleteDAGDependents key;
  deleteDAGRow key.
