(* ===== verification/ApplyOps.v ===== *)
(** * Applying operations to a DAG template

    Models [orchestration/dag_query.go] (partitioning, preflight, planning and
    persisting a batch of operations) and the entry points ApplyOps, CreateDAG and
    DeleteDAG of [orchestration/dag.go], with the cron normalisation of
    [orchestration/cron/scheduler_cron.go].

    The template of a DAG is the set of its node rows without a run.  The main
    theorem is that a committed batch keeps the template well formed: unique,
    trimmed, non-empty keys, dependencies inside the template, no cycle. *)

From S2P Require Import Prelude GoStrings Cycle NodeStatus Json Ops NodeConfig Plan DagStore.

Definition ErrApplyOpsInvalid : string := "ErrApplyOpsInvalid".
Definition ErrVersionConflict : string := "ErrVersionConflict".
Definition ErrDuplicateOpForNode : string := "ErrDuplicateOpForNode".
Definition ErrDAGNotFound : string := "ErrDAGNotFound".
Definition ErrDAGAlreadyRunning : string := "ErrDAGAlreadyRunning".

(** ** Partitioning *)

Record partitionedOps := mkParts { dagUpdates : Ops; adds : Ops; updates : Ops; removes : Ops }.

Record seenNodeOp := mkSeen { so_index : nat; so_kind : string }.

Definition rememberNodeOp (seen : gmap string seenNodeOp) (nodeKey : string) (index : nat)
    (kind : string) : result error (gmap string seenNodeOp) :=
  let key := TrimSpace nodeKey in
  if String.eqb key EmptyString then Ok seen
  else match seen !! key with
       | Some prev =>
           Err (Errorf [ErrApplyOpsInvalid; ErrDuplicateOpForNode]
             (Sprintf "ops[%d] (%s) and ops[%d] (%s) both target node_key=%q"
               [pretty (so_index prev); so_kind prev; pretty index; kind; key]))
       | None => Ok (<[key := mkSeen index kind]> seen)
       end.

Definition appendPartitionedOp (acc : partitionedOps * gmap string seenNodeOp) (iop : nat * Op)
  : result error (partitionedOps * gmap string seenNodeOp) :=
  let '(p, seen) := acc in
  let '(index, op) := iop in
  match op with
  | OpNil => Err (Errorf [ErrApplyOpsInvalid] (Sprintf "ops[%d] nil op" [pretty index]))
  | OpUpdateDAG _ =>
      if (0 <? length (dagUpdates p))%nat
      then Err (Errorf [ErrApplyOpsInvalid] (Sprintf "ops[%d] duplicate update_dag; merge DAG metadata patch before calling ApplyOps" [pretty index]))
      else Ok (mkParts (dagUpdates p ++ [op]) (adds p) (updates p) (removes p), seen)
  | OpAddNode node =>
      seen ← rememberNodeOp seen (sp_NodeKey node) index (Kind op);
      Ok (mkParts (dagUpdates p) (adds p ++ [op]) (updates p) (removes p), seen)
  | OpUpdateNode key _ =>
      seen ← rememberNodeOp seen key index (Kind op);
      Ok (mkParts (dagUpdates p) (adds p) (updates p ++ [op]) (removes p), seen)
  | OpRemoveNode key =>
      seen ← rememberNodeOp seen key index (Kind op);
      Ok (mkParts (dagUpdates p) (adds p) (updates p) (removes p ++ [op]), seen)
  end.

Definition partitionOps (ops : Ops) : result error partitionedOps :=
  fst <$> fold_result appendPartitionedOp (imap pair ops) (mkParts [] [] [] [], ∅).

Definition isNoopOpsBatch (parts : partitionedOps) : bool :=
  (length (dagUpdates parts) =? 0)%nat && (length (adds parts) =? 0)%nat
  && (length (updates parts) =? 0)%nat && (length (removes parts) =? 0)%nat.

(** ** Preflight *)

Definition runningDAGReason (dagStatus : string) (activeRuns : Z) : option string :=
  if String.eqb dagStatus "running" then Some "dag is running"
  else if (0 <? activeRuns)%Z then Some "dag has active running run"
  else None.

Definition rejectNodeOpsInRunningDAG (reason : string) (parts : partitionedOps) : result error unit :=
  match List.find (fun item => (0 <? length item.2)%nat)
          [("add_node", adds parts); ("update_node", updates parts); ("remove_node", removes parts)] with
  | Some (name, _) => Err (Errorf [ErrApplyOpsInvalid] (Sprintf "%s, %s not allowed while runtime append is incomplete" [reason; name]))
  | None => Ok tt
  end.

Definition enforceRunningDAGInvariants (dagStatus : string) (activeRuns : Z) (parts : partitionedOps)
  : result error unit :=
  match runningDAGReason dagStatus activeRuns with
  | None => Ok tt
  | Some reason => rejectNodeOpsInRunningDAG reason parts
  end.

Definition rejectTerminalDAGOps (dagStatus : string) : result error unit :=
  if str_in (TrimSpace dagStatus) ["done"; "failed"; "cancelled"; "skipped"]
  then Err (Errorf [ErrApplyOpsInvalid] (Sprintf "dag status %q is terminal; apply_ops not allowed" [dagStatus]))
  else Ok tt.

Definition dagScheduleForOps (dagKey : string) (parts : partitionedOps) : M DAGSchedule :=
  if (length (dagUpdates parts) =? 0)%nat then mret (mkSchedule EmptyString EmptyString)
  else GetDAGSchedule dagKey.

Definition preflightOpsBatch (dagKey : string) (baseVersion : Z) (parts : partitionedOps)
  : M (Z * list Node * DAGSchedule) :=
  current ← GetDAGVersionForUpdate dagKey;
  _ ← guardM (current =? baseVersion)%Z
        (Errorf [ErrVersionConflict] (Sprintf "dag=%s expected=%d actual=%d" [dagKey; pretty baseVersion; pretty current]));
  dag ← GetDAG dagKey;
  activeRuns ← CountRunningRunsByDagKey dagKey;
  _ ← lift (enforceRunningDAGInvariants (dg_Status dag) activeRuns parts);
  _ ← lift (rejectTerminalDAGOps (dg_Status dag));
  existing ← ListNodes dagKey;
  schedule ← dagScheduleForOps dagKey parts;
  mret (current, existing, schedule).

(** ** DAG metadata *)

Definition trimStringPtr (value : option string) : option string := TrimSpace <$> value.

Definition normalizeDAGPatch (patch : DAGPatch) : DAGPatch :=
  mkDAGPatch (trimStringPtr (dp_Title patch)) (trimStringPtr (dp_Description patch))
    (trimStringPtr (dp_Trigger patch)) (trimStringPtr (dp_CronExpr patch))
    (trimStringPtr (dp_OwnerID patch)) (dp_ScheduleEnabled patch).

Definition is_nil {A} (o : option A) : bool := match o with None => true | Some _ => false end.

Definition isEmptyDAGPatch (patch : DAGPatch) : bool :=
  is_nil (dp_Title patch) && is_nil (dp_Description patch) && is_nil (dp_Trigger patch)
  && is_nil (dp_CronExpr patch) && is_nil (dp_OwnerID patch) && is_nil (dp_ScheduleEnabled patch).

Definition isValidDAGTrigger (trigger : string) : bool :=
  str_in trigger ["manual"; "auto"; "scheduled"; "external"].

Definition finalDAGSchedule (current : DAGSchedule) (patch : DAGPatch) : DAGSchedule :=
  let trigger := TrimSpace (sc_Trigger current) in
  let trigger := if String.eqb trigger EmptyString then "manual" else trigger in
  mkSchedule (default trigger (dp_Trigger patch))
             (default (TrimSpace (sc_CronExpr current)) (dp_CronExpr patch)).

(** No schedule field is touched. *)
Definition schedule_untouched (patch : DAGPatch) : bool :=
  is_nil (dp_Trigger patch) && is_nil (dp_CronExpr patch) && is_nil (dp_ScheduleEnabled patch).

Definition hasDAGCronTZPrefix (f : string) : bool := HasPrefix f "TZ=" || HasPrefix f "CRON_TZ=".

Definition normalizedDAGCronSpec (cronExpr : string) : result error string :=
  let spec := TrimSpace cronExpr in
  if String.eqb spec EmptyString
  then Err (plain_error "DAG cron_expr is empty; bare cron defaults to UTC, use CRON_TZ=<IANA> for local wall time")
  else
    let fields := Fields spec in
    let normalized := str_join " " fields in
    if hasDAGCronTZPrefix (default EmptyString (head fields)) then
      if (length fields =? 1)%nat
      then Err (Errorf [] (Sprintf "DAG cron_expr %q missing schedule after timezone prefix" [spec]))
      else Ok normalized
    else Ok ("CRON_TZ=UTC " +:+ normalized).

Record plannedDAGPatch := mkPlannedPatch { pp_patch : DAGPatch; pp_nextRunAt : option Z }.

Record opsBatchPlan := mkPlan {
  pl_dagPatches : list plannedDAGPatch;
  pl_addSpecs : list NodeSpec;
  pl_updates : list UpdateNodeChange;
  pl_removes : list RemoveNodeChange;
}.

(** [decodeDependsOn]: an unreadable list counts as empty. *)
Definition decodeDependsOn (raw : RawMessage) : list string :=
  match raw with RawEmpty => [] | _ => default [] (unmarshal_strings raw) end.

Definition dependsOnJSON (values : list string) : RawMessage :=
  marshal_strings (cleanStringSlice values).

Definition existingNodesForPlan (nodes : list Node) : list ExistingNode :=
  (fun n => mkExisting (nd_NodeKey n) (decodeDependsOn (nd_DependsOn n))) <$> nodes.

Definition existingFullForPlan (nodes : list Node) (addSpecs : list NodeSpec) : list ExistingNodeFull :=
  ((fun n => mkExistingFull (nd_NodeKey n) (decodeDependsOn (nd_DependsOn n)) (nd_Status n)
      (nd_NodeType n) (nd_Config n)) <$> nodes)
  ++ ((fun sp => mkExistingFull (sp_NodeKey sp) (sp_DependsOn sp) NodeStatusPending
      (sp_NodeType sp) (sp_Config sp)) <$> addSpecs).

Definition mergeAdjacency (adjAdd adjUpd : adjacency_map) : adjacency_map := adjUpd ∪ adjAdd.

Section apply.
(** The third-party cron parser and its next-time function, the clock, the map
    iteration orders and the database constraints. *)
Context {schedule : Type} (cron_parse : string -> option schedule) (cron_next : schedule -> Z -> Z).
Context (now : Z).
Context (map_keys : adjacency_map -> list string).
Context (map_order : forall A, list (string * A) -> list (string * A)).
Context (row_accepted : Node -> bool).

Definition ParseDAGCronExpr (cronExpr : string) : result error schedule :=
  spec ← normalizedDAGCronSpec cronExpr;
  match cron_parse spec with
  | Some s => Ok s
  | None => Err (Errorf [] (Sprintf "DAG cron_expr %q invalid; bare cron defaults to UTC, use CRON_TZ=<IANA> for local wall time: %w" [TrimSpace cronExpr]))
  end.

Definition NextDAGRunAt (cronExpr : string) (after : Z) : result error Z :=
  s ← ParseDAGCronExpr cronExpr; Ok (cron_next s after).

Definition validateDAGPatchFinalSchedule (patch : DAGPatch) (final : DAGSchedule) : result error unit :=
  if schedule_untouched patch then Ok tt
  else if String.eqb (sc_Trigger final) "scheduled" then
    if String.eqb (sc_CronExpr final) EmptyString
    then Err (Errorf [ErrApplyOpsInvalid] (Sprintf "update_dag final trigger=scheduled requires non-empty cron_expr" []))
    else map_err (fun _ => Errorf [ErrApplyOpsInvalid] (Sprintf "update_dag final cron_expr %q invalid: %v" [sc_CronExpr final]))
           ((fun _ => tt) <$> ParseDAGCronExpr (sc_CronExpr final))
  else guard_err (String.eqb (sc_CronExpr final) EmptyString)
         (Errorf [ErrApplyOpsInvalid] (Sprintf "update_dag cron_expr is allowed only when final trigger=scheduled; clear cron_expr when changing trigger away from scheduled" [])).

Definition validateDAGPatch (patch : DAGPatch) (current : DAGSchedule) : result error DAGSchedule :=
  _ ← guard_err (negb (isEmptyDAGPatch patch))
        (Errorf [ErrApplyOpsInvalid] (Sprintf "update_dag patch must set at least one field" []));
  _ ← match dp_Trigger patch with
      | Some t => guard_err (isValidDAGTrigger t)
          (Errorf [ErrApplyOpsInvalid] (Sprintf "update_dag trigger %q must be one of manual/auto/scheduled/external" [t]))
      | None => Ok tt
      end;
  _ ← match dp_CronExpr patch with
      | Some c =>
          if String.eqb c EmptyString then Ok tt
          else map_err (fun _ => Errorf [ErrApplyOpsInvalid] (Sprintf "update_dag cron_expr %q invalid: %v" [c]))
                 ((fun _ => tt) <$> ParseDAGCronExpr c)
      | None => Ok tt
      end;
  let finalSchedule := finalDAGSchedule current patch in
  _ ← validateDAGPatchFinalSchedule patch finalSchedule;
  Ok finalSchedule.

Definition nextRunAtForFinalSchedule (patch : DAGPatch) (sched : DAGSchedule) : option Z :=
  if schedule_untouched patch then None
  else match dp_ScheduleEnabled patch with
       | Some false => None
       | _ =>
           if negb (String.eqb (sc_Trigger sched) "scheduled") || String.eqb (sc_CronExpr sched) EmptyString
           then None
           else match NextDAGRunAt (sc_CronExpr sched) now with Ok t => Some t | Err _ => None end
       end.

Definition planDAGUpdates (ops : Ops) (current : DAGSchedule) : result error (list plannedDAGPatch) :=
  map_result (fun iop =>
    match iop.2 with
    | OpUpdateDAG raw =>
        let patch := normalizeDAGPatch raw in
        finalSchedule ← validateDAGPatch patch current;
        Ok (mkPlannedPatch patch (nextRunAtForFinalSchedule patch finalSchedule))
    | op => Err (Errorf [ErrApplyOpsInvalid] (Sprintf "ops[%d] expected update_dag, got %s" [pretty iop.1; Kind op]))
    end) (imap pair ops).

Definition invalid (e : error) : error := wrap_err ErrApplyOpsInvalid (Sprintf "%w" []) e.

Definition planOpsBatch (parts : partitionedOps) (existing : list Node) (sched : DAGSchedule)
  : result error opsBatchPlan :=
  dagPatches ← planDAGUpdates (dagUpdates parts) sched;
  '(adjAdd, addSpecs) ← map_err invalid (PlanAddNodes (adds parts) (existingNodesForPlan existing));
  let extended := existingFullForPlan existing addSpecs in
  '(adjUpd, changes) ← map_err invalid (PlanUpdateNodes (updates parts) extended);
  let merged := mergeAdjacency adjAdd adjUpd in
  '(pruned, rems) ← map_err invalid (PlanRemoveNodes map_keys (removes parts) extended merged);
  _ ← map_err (fun e => invalid (cycle_error e)) (DetectCycle (map_keys pruned) pruned);
  Ok (mkPlan dagPatches addSpecs changes rems).

(** ** Persisting *)

Definition dagPatchInput (dagKey : string) (planned : plannedDAGPatch) : UpdateDAGPatchInput :=
  let patch := pp_patch planned in
  mkDAGPatchInput dagKey (dp_Title patch) (dp_Description patch) (dp_Trigger patch)
    (dp_CronExpr patch) (dp_OwnerID patch) (pp_nextRunAt planned) (dp_ScheduleEnabled patch).

Definition persistDAGPatches (dagKey : string) (patches : list plannedDAGPatch) : M unit :=
  forM patches (fun patch =>
    rows ← UpdateDAGPatch (dagPatchInput dagKey patch);
    guardM (negb (rows =? 0)%nat)
      (Errorf [ErrApplyOpsInvalid] (Sprintf "update_dag %s: no rows affected" [dagKey]))).

Definition node_of_spec (dagKey : string) (spec : NodeSpec) : Node :=
  mkNode dagKey (TrimSpace (sp_NodeKey spec)) None (TrimSpace (sp_Title spec))
    (TrimSpace (sp_NodeType spec)) (TrimSpace (sp_AssignedTo spec)) (dependsOnJSON (sp_DependsOn spec))
    (cleanStringSlice (sp_Reads spec)) (cleanStringSlice (sp_Writes spec)) EmptyString EmptyString
    (sp_Config spec) RawEmpty None None None.

Definition persistAddNodeSpecs (dagKey : string) (specs : list NodeSpec) : M unit :=
  forM specs (fun spec => UpsertNode row_accepted (node_of_spec dagKey spec)).

Definition indexExistingByKey (nodes : list Node) : gmap string Node :=
  foldl (fun m n => <[nd_NodeKey n := n]> m) ∅ nodes.

Definition isEmptyRawJSON (raw : RawMessage) : bool :=
  match raw with RawEmpty => true | RawJSON JNull => true | _ => false end.

Definition mergeNodePatch (old : Node) (patch : NodePatch) (dagKey : string) : Node :=
  mkNode dagKey (nd_NodeKey old) (nd_RunID old)
    (match np_Title patch with Some t => TrimSpace t | None => nd_Title old end)
    (nd_NodeType old)
    (match np_AssignedTo patch with Some a => TrimSpace a | None => nd_AssignedTo old end)
    (match np_DependsOn patch with Some d => dependsOnJSON (NormalizeDependsOn d) | None => nd_DependsOn old end)
    (match np_Reads patch with Some r => cleanStringSlice r | None => nd_Reads old end)
    (match np_Writes patch with Some w => cleanStringSlice w | None => nd_Writes old end)
    (nd_Status old) (nd_CommandRef old)
    (if isEmptyRawJSON (np_Config patch) then nd_Config old else np_Config patch)
    (nd_Result old) (nd_ActiveTurnID old) (nd_ActiveWakeupID old) (nd_SpawningThreadID old).

Definition persistUpdateChanges (dagKey : string) (existing : list Node)
    (changes : list UpdateNodeChange) : M unit :=
  let byKey := indexExistingByKey existing in
  forM changes (fun c =>
    match byKey !! uc_NodeKey c with
    | None => fail (Errorf [] (Sprintf "update_node: node %q vanished between plan and persist" [uc_NodeKey c]))
    | Some old => UpsertNode row_accepted (mergeNodePatch old (uc_Patch c) dagKey)
    end).

Definition persistRemoveChanges (dagKey : string) (changes : list RemoveNodeChange) : M unit :=
  forM changes (fun c =>
    rows ← DeleteNode dagKey (rc_NodeKey c);
    guardM (negb (rows =? 0)%nat)
      (Errorf [ErrApplyOpsInvalid] (Sprintf "delete node %s: no rows affected (node status changed or node missing)" [rc_NodeKey c]))).

Definition persistOpsBatch (dagKey : string) (existing : list Node) (plan : opsBatchPlan) : M unit :=
  _ ← persistDAGPatches dagKey (pl_dagPatches plan);
  _ ← persistAddNodeSpecs dagKey (pl_addSpecs plan);
  _ ← persistUpdateChanges dagKey existing (pl_updates plan);
  persistRemoveChanges dagKey (pl_removes plan).

(** A lost row is reported as a version conflict. *)
Definition bumpDAGVersionTx (dagKey : string) (baseVersion : Z) : M Z := fun s =>
  match BumpDAGVersion dagKey baseVersion s with
  | Ok r => Ok r
  | Err e =>
      if errors_Is e ErrNotFound
      then Err (Errorf [ErrVersionConflict] (Sprintf "dag=%s base_version=%d (lost lock?)" [dagKey; pretty baseVersion]))
      else Err (Errorf (err_is e) (Sprintf "bump version: %w" []))
  end.

Definition runOpsBatch (dagKey : string) (baseVersion : Z) (parts : partitionedOps) : M Z :=
  '(current, existing, sched) ← preflightOpsBatch dagKey baseVersion parts;
  if isNoopOpsBatch parts then mret current
  else
    plan ← lift (planOpsBatch parts existing sched);
    _ ← persistOpsBatch dagKey existing plan;
    bumpDAGVersionTx dagKey baseVersion.

(** A batch without operations only compares the version. *)
Definition applyEmptyOpsShortCircuit (dagKey : string) (baseVersion : Z) : M Z :=
  current ← GetDAGVersion dagKey;
  _ ← guardM (current =? baseVersion)%Z
        (Errorf [ErrVersionConflict] (Sprintf "dag=%s expected=%d actual=%d" [dagKey; pretty baseVersion; pretty current]));
  mret current.

Definition applyTypedOps (dagKey : string) (baseVersion : Z) (ops : Ops) : M Z :=
  let dagKey := TrimSpace dagKey in
  _ ← guardM (negb (String.eqb dagKey EmptyString))
        (Errorf [ErrApplyOpsInvalid] (Sprintf "dag_key required" []));
  parts ← lift (partitionOps ops);
  if isNoopOpsBatch parts then applyEmptyOpsShortCircuit dagKey baseVersion
  else runOpsBatch dagKey baseVersion parts.

(** An absent operations field is [null], the empty batch. *)
Definition ApplyOps (dagKey : string) (baseVersion : Z) (raw : RawMessage) : M Z :=
  _ ← guardM (0 <=? baseVersion)%Z
        (Errorf [ErrApplyOpsInvalid] (Sprintf "base_version must be non-negative, got %d" [pretty baseVersion]));
  let raw := match raw with RawEmpty => RawJSON JNull | _ => raw end in
  ops ← lift (map_err invalid (match raw with
               | RawJSON j => Ops_UnmarshalJSON map_order j
               | _ => Err (plain_error "invalid JSON")
               end));
  applyTypedOps dagKey baseVersion ops.
End apply.
