(* ===== verification/TemplateInvariant.v ===== *)
(** * The template invariant

    Every committed batch of operations, and every creation of a DAG, leaves a
    template with unique trimmed non-empty keys, dependencies inside the template
    and no cycle.  The proof follows the dependency map of the stored rows: each
    store statement acts on it the way the planner acts on its own map. *)

From S2P Require Import Prelude GoStrings Cycle NodeStatus Json Ops NodeConfig Plan DagStore ApplyOps.

(** ** The dependency map of stored rows *)

Definition template (dagKey : string) (s : db) : list Node :=
  List.filter (template_of dagKey) (db_nodes s).

Definition adj_of (nodes : list Node) : adjacency_map :=
  (seedAdjacency (existingNodesForPlan nodes)).1.

Record template_wf (nodes : list Node) : Prop := {
  tw_nodup : NoDup (nd_NodeKey <$> nodes);
  tw_keys : Forall (fun n => trimmed (nd_NodeKey n) /\ nd_NodeKey n <> EmptyString) nodes;
  tw_closed : closed (adj_of nodes);
  tw_acyclic : acyclic (adj_of nodes);
}.

(** The rows have good keys and their dependency map is [m]. *)
Record tracks (nodes : list Node) (m : adjacency_map) : Prop := {
  tk_nodup : NoDup (nd_NodeKey <$> nodes);
  tk_keys : Forall (fun n => trimmed (nd_NodeKey n) /\ nd_NodeKey n <> EmptyString) nodes;
  tk_map : adj_of nodes = m;
}.

Lemma adj_of_snoc l n :
  adj_of (l ++ [n]) = <[nd_NodeKey n := decodeDependsOn (nd_DependsOn n)]> (adj_of l).
Proof.
  unfold adj_of, existingNodesForPlan, seedAdjacency. rewrite fmap_app, foldl_app. done.
Qed.

Lemma adj_of_nil : adj_of [] = ∅.
Proof. done. Qed.

Lemma adj_of_lookup l k ds :
  NoDup (nd_NodeKey <$> l) ->
  (adj_of l !! k = Some ds <->
   exists n, n ∈ l /\ nd_NodeKey n = k /\ decodeDependsOn (nd_DependsOn n) = ds).
Proof.
  induction l as [|n l IH] using rev_ind; intros Hnd.
  { rewrite adj_of_nil. split; [by rewrite lookup_empty|]. by intros (? & ?%elem_of_nil & _). }
  rewrite adj_of_snoc. rewrite fmap_app in Hnd. apply NoDup_app in Hnd as (Hnd & Hdis & _).
  destruct (decide (nd_NodeKey n = k)) as [<-|Hne].
  - rewrite lookup_insert_eq. split.
    + intros [= <-]. exists n. set_solver.
    + intros (n' & [Hn'|Hn'%list_elem_of_singleton]%elem_of_app & Hk & Hd); [|by subst].
      exfalso. eapply (Hdis (nd_NodeKey n)); [|set_solver]. apply list_elem_of_fmap. eauto.
  - rewrite lookup_insert_ne by done. rewrite IH by done. split.
    + intros (n' & ? & ?). exists n'. set_solver.
    + intros (n' & [Hn'|Hn'%list_elem_of_singleton]%elem_of_app & Hk & Hd); [eauto|by subst].
Qed.

Lemma adj_of_dom l k : is_Some (adj_of l !! k) <-> k ∈ (nd_NodeKey <$> l).
Proof.
  induction l as [|n l IH] using rev_ind.
  { rewrite adj_of_nil, lookup_empty, elem_of_nil. by split; [intros [? ?]|]. }
  rewrite adj_of_snoc, fmap_app, elem_of_app, <- IH. simpl. rewrite list_elem_of_singleton.
  destruct (decide (nd_NodeKey n = k)) as [<-|Hne].
  - rewrite lookup_insert_eq. naive_solver.
  - rewrite lookup_insert_ne by done. naive_solver.
Qed.

(** Rows with unique keys are determined, as a map, by their entries. *)
Lemma adj_of_ext l m :
  NoDup (nd_NodeKey <$> l) ->
  (forall k ds, m !! k = Some ds <->
     exists n, n ∈ l /\ nd_NodeKey n = k /\ decodeDependsOn (nd_DependsOn n) = ds) ->
  adj_of l = m.
Proof.
  intros Hnd Hm. apply map_eq. intros k. apply option_eq. intros ds. by rewrite Hm, adj_of_lookup.
Qed.

(** ** The store statements on the template *)

(** The effect of an upsert on the rows of its template. *)
Definition upsert_rows (node : Node) (l : list Node) : list Node :=
  if existsb (fun n => String.eqb (nd_NodeKey n) (nd_NodeKey node)) l
  then (fun n => if String.eqb (nd_NodeKey n) (nd_NodeKey node) then template_columns node n else n) <$> l
  else l ++ [inserted_template node].

Lemma filter_none {A} (f : A -> bool) l : length (List.filter f l) = 0 -> Forall (fun x => f x = false) l.
Proof.
  induction l as [|x l IH]; simpl; [by constructor|]. destruct (f x) eqn:E; simpl; [done|].
  intros H. constructor; auto.
Qed.

Lemma fmap_cond_none {A} (f : A -> bool) (g : A -> A) l :
  Forall (fun x => f x = false) l -> (fun x => if f x then g x else x) <$> l = l.
Proof. induction 1 as [|x l Hx _ IH]; [done|]. simpl. rewrite Hx. f_equal. exact IH. Qed.

Lemma template_columns_key node n : nd_NodeKey (template_columns node n) = nd_NodeKey n.
Proof. done. Qed.

Lemma same_template_split node n :
  same_template node n = template_of (nd_DagKey node) n && String.eqb (nd_NodeKey n) (nd_NodeKey node).
Proof. done. Qed.

Lemma template_of_columns dk node n : template_of dk (template_columns node n) = template_of dk n.
Proof. done. Qed.

Lemma filter_cons_eq {A} (p : A -> bool) x l :
  List.filter p (x :: l) = if p x then x :: List.filter p l else List.filter p l.
Proof. done. Qed.

(** Updating the matching rows of the whole table is updating the template. *)
Lemma template_update node l :
  List.filter (template_of (nd_DagKey node))
    ((fun n => if same_template node n then template_columns node n else n) <$> l)
  = (fun n => if String.eqb (nd_NodeKey n) (nd_NodeKey node) then template_columns node n else n)
      <$> List.filter (template_of (nd_DagKey node)) l.
Proof.
  induction l as [|x l IH]; [done|]. rewrite fmap_cons, !filter_cons_eq, IH. unfold same_template.
  destruct (template_of (nd_DagKey node) x) eqn:Hx; cbn [andb]; [|by rewrite Hx].
  rewrite fmap_cons. destruct (String.eqb (nd_NodeKey x) (nd_NodeKey node)) eqn:E.
  - by rewrite template_of_columns, Hx.
  - by rewrite Hx.
Qed.

Lemma template_other node l dagKey :
  dagKey <> nd_DagKey node ->
  List.filter (template_of dagKey)
    ((fun n => if same_template node n then template_columns node n else n) <$> l)
  = List.filter (template_of dagKey) l.
Proof.
  intros Hne. induction l as [|x l IH]; [done|]. rewrite fmap_cons, !filter_cons_eq, IH.
  destruct (same_template node x) eqn:E; [|done]. rewrite template_of_columns.
  destruct (template_of dagKey x) eqn:Hx; [|done]. unfold same_template, template_of in *.
  go_bool. congruence.
Qed.

Lemma UpsertNode_template ra node s u s' :
  UpsertNode ra node s = Ok (u, s') ->
  template (nd_DagKey node) s' = upsert_rows node (template (nd_DagKey node) s)
  /\ (forall dk, dk <> nd_DagKey node -> template dk s' = template dk s).
Proof.
  unfold UpsertNode, upsertNodeTx, update_nodes. intros H. tx_ok. simpl in *.
  set (l := db_nodes s) in *.
  assert (forall p, existsb p (template (nd_DagKey node) s) = negb (length (List.filter (fun n => template_of (nd_DagKey node) n && p n) l) =? 0)%nat) as Hex.
  { intros p. unfold template. fold l. clear. induction l as [|x l IH]; [done|]. simpl.
    destruct (template_of (nd_DagKey node) x); simpl; [|done]. destruct (p x); simpl; done. }
  unfold upsert_rows. rewrite Hex. clear Hex.
  change (fun n => template_of (nd_DagKey node) n && String.eqb (nd_NodeKey n) (nd_NodeKey node))
    with (same_template node) in *.
  match goal with Hif : (if ?b then _ else _) _ = Ok _ |- _ =>
    destruct b eqn:Hz; simpl in Hif; tx_ok; simpl in * end.
  - apply Nat.eqb_eq in Hz. unfold requireSingleNodeWrite, requireSingleAffectedRow in *. tx_ok.
    rewrite Hz. unfold template. simpl. rewrite (fmap_cond_none _ _ _ (filter_none _ _ Hz)). fold l. split; [|intros dk Hdk]; rewrite List.filter_app; simpl; unfold template_of at 2; simpl.
    + by rewrite String.eqb_refl.
    + destruct (String.eqb_spec (nd_DagKey node) dk); [congruence|]. simpl. by rewrite app_nil_r.
  - assert (s' = with_nodes s ((fun n => if same_template node n then template_columns node n else n) <$> l)) as ->.
    { unfold requireSingleNodeWrite, requireSingleAffectedRow in *.
      destruct (length (List.filter (same_template node) l)) as [|[|]]; tx_ok; done. }
    rewrite Hz. unfold template. simpl. split; [apply template_update|].
    intros dk Hdk. by apply template_other.
Qed.

(** An upsert is an insertion into the dependency map. *)
Lemma upsert_tracks node l m :
  trimmed (nd_NodeKey node) -> nd_NodeKey node <> EmptyString -> tracks l m ->
  tracks (upsert_rows node l) (<[nd_NodeKey node := decodeDependsOn (nd_DependsOn node)]> m).
Proof.
  intros Ht Hne [Hnd Hk <-]. unfold upsert_rows.
  destruct (existsb _ l) eqn:Hex.
  - set (g := fun n => if String.eqb (nd_NodeKey n) (nd_NodeKey node) then template_columns node n else n).
    assert (forall n, nd_NodeKey (g n) = nd_NodeKey n) as Hg by (intros n; unfold g; by case_match).
    assert (nd_NodeKey <$> (g <$> l) = nd_NodeKey <$> l) as Hkeys.
    { rewrite <- list_fmap_compose. apply list_fmap_ext. intros i x _. apply Hg. }
    assert (NoDup (nd_NodeKey <$> (g <$> l))) as Hnd' by (by rewrite Hkeys).
    split; [done| |].
    + apply Forall_fmap. eapply Forall_impl; [exact Hk|]. intros n ?. simpl. by rewrite Hg.
    + apply adj_of_ext; [done|]. intros k ds.
      apply existsb_exists in Hex as (n0 & Hn0 & E). apply list_elem_of_In in Hn0. apply String.eqb_eq in E.
      destruct (decide (nd_NodeKey node = k)) as [<-|Hnk].
      * rewrite lookup_insert_eq. split.
        -- intros [= <-]. exists (g n0). split_and!; [by apply list_elem_of_fmap_2|by rewrite Hg|].
           unfold g. by rewrite E, String.eqb_refl.
        -- intros (n & (n1 & -> & Hn1)%list_elem_of_fmap & Hkey & <-). rewrite Hg in Hkey.
           unfold g. by rewrite Hkey, String.eqb_refl.
      * rewrite lookup_insert_ne by done. rewrite adj_of_lookup by done. split.
        -- intros (n & Hn & <- & <-). exists (g n). split_and!; [by apply list_elem_of_fmap_2|by rewrite Hg|].
           unfold g. destruct (String.eqb_spec (nd_NodeKey n) (nd_NodeKey node)); [congruence|done].
        -- intros (n & (n1 & -> & Hn1)%list_elem_of_fmap & Hkey & <-). rewrite Hg in Hkey. exists n1.
           split_and!; [done..|]. unfold g. destruct (String.eqb_spec (nd_NodeKey n1) (nd_NodeKey node)); [congruence|done].
  - assert (nd_NodeKey node ∉ (nd_NodeKey <$> l)) as Hfresh.
    { intros (n & E & Hn)%list_elem_of_fmap. apply existsb_false_iff in Hex. rewrite Forall_forall in Hex.
      specialize (Hex n Hn). simpl in Hex. go_bool. congruence. }
    split.
    + rewrite fmap_app. apply NoDup_app. split_and!; [done| |apply NoDup_singleton].
      intros k Hin E%list_elem_of_singleton. subst k. done.
    + apply Forall_app. split; [done|]. by apply Forall_singleton.
    + by rewrite adj_of_snoc.
Qed.

Lemma template_delete dagKey (hit : Node -> bool) l :
  List.filter (template_of dagKey) (List.filter (fun n => negb (template_of dagKey n && hit n)) l)
    = List.filter (fun n => negb (hit n)) (List.filter (template_of dagKey) l)
  /\ length (List.filter (fun n => template_of dagKey n && hit n) l)
    = length (List.filter hit (List.filter (template_of dagKey) l))
  /\ (forall dk, dk <> dagKey -> List.filter (template_of dk)
        (List.filter (fun n => negb (template_of dagKey n && hit n)) l) = List.filter (template_of dk) l).
Proof.
  induction l as [|n l (IH1 & IH2 & IH3)]; [done|].
  destruct (template_of dagKey n) eqn:Hn, (hit n) eqn:Hh; split_and!;
    cbn [List.filter]; rewrite ?Hn, ?Hh; cbn [andb negb List.filter length]; rewrite ?Hn, ?Hh; cbn [negb List.filter length];
    rewrite ?Hh; cbn [negb length]; try (by rewrite ?IH1, ?IH2).
  all: intros dk Hdk; rewrite ?(IH3 dk Hdk); try done.
  assert (template_of dk n = false) as ->; [|done].
  unfold template_of in *. go_bool. destruct (String.eqb_spec (nd_DagKey n) dk); [congruence|done].
Qed.

Lemma DeleteNode_template dagKey key s rows s' :
  DeleteNode dagKey key s = Ok (rows, s') ->
  let hit n := String.eqb (nd_NodeKey n) key && str_in (nd_Status n) ["pending"; "ready"] in
  template dagKey s' = List.filter (fun n => negb (hit n)) (template dagKey s)
  /\ rows = length (List.filter hit (template dagKey s))
  /\ (forall dk, dk <> dagKey -> template dk s' = template dk s).
Proof.
  intros H hit. unfold DeleteNode in H. apply M_bind_Ok in H as (s0 & s1 & H0 & H).
  apply get_db_Ok in H0 as [-> ->]. unfold sql_delete in H. tx_ok.
  destruct (template_delete dagKey hit (db_nodes s)) as (H1 & H2 & H3).
  assert (forall n, template_of dagKey n && String.eqb (nd_NodeKey n) key && str_in (nd_Status n) ["pending"; "ready"]
    = template_of dagKey n && hit n) as Hsplit by (intros n; unfold hit; by rewrite andb_assoc).
  unfold template. cbn [db_nodes with_nodes].
  rewrite (filter_ext _ _ (fun n => f_equal negb (Hsplit n)) (db_nodes s)).
  rewrite (filter_ext _ _ Hsplit (db_nodes s)). done.
Qed.

(** A deletion that hit a row is a deletion from the dependency map. *)
Lemma delete_tracks key l m (ok : Node -> bool) :
  tracks l m ->
  let hit n := String.eqb (nd_NodeKey n) key && ok n in
  length (List.filter hit l) <> 0 -> tracks (List.filter (fun n => negb (hit n)) l) (delete key m).
Proof.
  intros [Hnd Hk <-] hit Hcount.
  assert (forall n, n ∈ List.filter (fun n => negb (hit n)) l <-> n ∈ l /\ nd_NodeKey n <> key) as Hin.
  { intros n. rewrite list_elem_of_In, filter_In, <- list_elem_of_In.
    assert (exists n0, n0 ∈ l /\ hit n0 = true) as (n0 & Hn0 & Hhit).
    { destruct (List.filter hit l) as [|n0 r] eqn:E; [done|].
      assert (List.In n0 (List.filter hit l)) as Hi by (rewrite E; by left). apply filter_In in Hi as [? ?].
      exists n0. split; [by apply list_elem_of_In|done]. }
    split; intros [Hn Hh]; (split; [done|]).
    - intros E. go_bool. unfold hit in Hh, Hhit. apply andb_true_iff in Hhit as [Hk0 Hok0].
      apply String.eqb_eq in Hk0. assert (n = n0) as ->.
      { eapply (same_key nd_NodeKey l); eauto. congruence. }
      by rewrite E, String.eqb_refl, Hok0 in Hh.
    - apply negb_true_iff. unfold hit. destruct (String.eqb_spec (nd_NodeKey n) key); [congruence|done]. }
  assert (NoDup (nd_NodeKey <$> List.filter (fun n => negb (hit n)) l)) as Hnd'.
  { clear -Hnd. induction l as [|n l IH]; [constructor|]. rewrite fmap_cons in Hnd.
    apply NoDup_cons in Hnd as [Hn Hnd]. rewrite filter_cons_eq. destruct (negb (hit n)); [|by apply IH].
    rewrite fmap_cons. apply NoDup_cons. split; [|by apply IH].
    intros (n' & E & Hn')%list_elem_of_fmap. apply Hn. rewrite E. apply list_elem_of_fmap_2.
    apply list_elem_of_In in Hn'. apply filter_In in Hn' as [? _]. by apply list_elem_of_In. }
  split; [done| |].
  - apply Forall_forall. intros n [Hn _]%Hin. rewrite Forall_forall in Hk. by apply Hk.
  - apply adj_of_ext; [done|]. intros k ds. rewrite lookup_delete_Some, adj_of_lookup by done. split.
    + intros [Hne (n & Hn & <- & <-)]. exists n. split; [|done]. apply Hin. auto.
    + intros (n & [Hn Hne]%Hin & <- & <-). split; [done|]. eauto.
Qed.

(** ** Persisting a plan *)

Lemma cleanStringSlice_id l :
  (forall d, d ∈ l -> trimmed d /\ d <> EmptyString) -> cleanStringSlice l = l.
Proof.
  unfold cleanStringSlice. induction l as [|d l IH]; intros H; [done|].
  rewrite fmap_cons, filter_cons_eq. destruct (H d ltac:(by left)) as [Ht Hne].
  rewrite Ht. destruct (String.eqb_spec d EmptyString); [done|]. simpl. f_equal.
  apply IH. intros d' Hd'. apply H. by right.
Qed.

Lemma decode_dependsOnJSON l : decodeDependsOn (dependsOnJSON l) = cleanStringSlice l.
Proof. unfold decodeDependsOn, dependsOnJSON. cbn [marshal_strings]. by rewrite unmarshal_marshal_strings. Qed.

(** A loop that follows a function step by step. *)
Lemma forM_track {A T} (R : db -> T -> Prop) (step : T -> A -> T) (l : list A) f s u s' t :
  (forall a s u s' t, a ∈ l -> R s t -> f a s = Ok (u, s') -> R s' (step t a)) ->
  R s t -> forM l f s = Ok (u, s') -> R s' (foldl step t l).
Proof.
  revert s t. induction l as [|a l IH]; intros s t Hf Hs Hrun; cbn [forM] in Hrun; tx_ok; [done|].
  simpl. eapply IH; [|eapply Hf; [by left|..]; eauto|done]. intros; eapply Hf; eauto; by right.
Qed.

Lemma indexExistingByKey_lookup nodes k old :
  indexExistingByKey nodes !! k = Some old -> old ∈ nodes /\ nd_NodeKey old = k.
Proof.
  unfold indexExistingByKey. induction nodes as [|n nodes IH] using rev_ind.
  { intros H. change (indexExistingByKey []) with (∅ : gmap string Node) in H. done. }
  rewrite foldl_snoc. destruct (decide (nd_NodeKey n = k)) as [<-|Hne].
  - rewrite lookup_insert_eq. intros [= ->]. set_solver.
  - rewrite lookup_insert_ne by done. intros [? ?]%IH. set_solver.
Qed.

Section persist.
Context (ra : Node -> bool) (dagKey : string).

Lemma persistDAGPatches_nodes patches s u s' :
  persistDAGPatches dagKey patches s = Ok (u, s') -> db_nodes s' = db_nodes s.
Proof.
  apply (forM_inv (fun s1 => db_nodes s1 = db_nodes s)); [|done].
  intros p s1 u1 s2 _ Hs1 H. rewrite <- Hs1. tx_ok. unfold UpdateDAGPatch, update_dags, GetDAG in *. tx_ok.
  unfold requireSingleAffectedRow in *. repeat (case_match; tx_ok; try done).
Qed.

Lemma persistAddNodeSpecs_tracks specs s u s' m :
  Forall spec_ok specs -> tracks (template dagKey s) m ->
  persistAddNodeSpecs ra dagKey specs s = Ok (u, s') ->
  tracks (template dagKey s') (foldl apply_spec m specs).
Proof.
  intros Hok Ht. rewrite Forall_forall in Hok.
  apply (forM_track (fun s m => tracks (template dagKey s) m)); [|done].
  intros sp s1 u1 s2 m1 Hsp Hs1 H. destruct (Hok sp Hsp) as (Htrim & Hne & Hdeps).
  apply UpsertNode_template in H as [H _]. cbn [nd_DagKey node_of_spec] in H. rewrite H.
  unfold apply_spec.
  assert (TrimSpace (sp_NodeKey sp) = sp_NodeKey sp) as Hkey by done.
  replace (sp_DependsOn sp) with (decodeDependsOn (nd_DependsOn (node_of_spec dagKey sp))).
  2: { cbn [nd_DependsOn node_of_spec]. rewrite decode_dependsOnJSON. apply cleanStringSlice_id.
       intros d Hd. rewrite Forall_forall in Hdeps. destruct (Hdeps d Hd) as (? & ? & ?). done. }
  rewrite <- Hkey at 1. change (TrimSpace (sp_NodeKey sp)) with (nd_NodeKey (node_of_spec dagKey sp)).
  apply upsert_tracks; [|by cbn; rewrite Hkey|done]. cbn. by rewrite Hkey.
Qed.

(** Keys of the changes are distinct and their rows still hold the old
    dependencies, so writing back an old list changes nothing. *)
Lemma persistUpdateChanges_tracks existing changes s u s' m :
  Forall (fun n => trimmed (nd_NodeKey n) /\ nd_NodeKey n <> EmptyString) existing ->
  NoDup (uc_NodeKey <$> changes) ->
  (forall c old, c ∈ changes -> indexExistingByKey existing !! uc_NodeKey c = Some old ->
     m !! uc_NodeKey c = Some (decodeDependsOn (nd_DependsOn old))) ->
  tracks (template dagKey s) m ->
  persistUpdateChanges ra dagKey existing changes s = Ok (u, s') ->
  tracks (template dagKey s') (foldl apply_change m changes).
Proof.
  intros Hex. rewrite Forall_forall in Hex. unfold persistUpdateChanges. revert s m.
  induction changes as [|c changes IH]; intros s m Hnd Hold Ht H; cbn [forM] in H; tx_ok; [done|].
  rename x0 into s1. rewrite fmap_cons in Hnd. apply NoDup_cons in Hnd as [Hc Hnd].
  destruct (indexExistingByKey existing !! uc_NodeKey c) as [old|] eqn:Eold; [|done].
  destruct (indexExistingByKey_lookup _ _ _ Eold) as [Hin Hkey]. destruct (Hex old Hin) as [Htr Hne].
  apply UpsertNode_template in H0 as [H0 _]. cbn [nd_DagKey mergeNodePatch] in H0.
  assert (apply_change m c = <[uc_NodeKey c := decodeDependsOn (nd_DependsOn (mergeNodePatch old (uc_Patch c) dagKey))]> m) as Hap.
  { unfold apply_change. cbn [nd_DependsOn mergeNodePatch]. destruct (np_DependsOn (uc_Patch c)) as [raw|].
    - rewrite decode_dependsOnJSON, cleanStringSlice_id; [done|]. intros d. apply normalize_trimmed.
    - symmetry. apply insert_id. by apply Hold; [left|]. }
  simpl. eapply IH; [done| | |exact H].
  - intros c' old' Hc' Hold'. rewrite Hap. rewrite lookup_insert_ne.
    + by apply Hold; [right|].
    + intros E. apply Hc. rewrite E. by apply list_elem_of_fmap_2.
  - rewrite H0, Hap, <- Hkey.
    change (nd_NodeKey old) with (nd_NodeKey (mergeNodePatch old (uc_Patch c) dagKey)).
    by apply upsert_tracks.
Qed.

Lemma persistRemoveChanges_tracks changes s u s' m :
  tracks (template dagKey s) m -> persistRemoveChanges dagKey changes s = Ok (u, s') ->
  tracks (template dagKey s') (foldl apply_remove m changes).
Proof.
  intros Ht. apply (forM_track (fun s m => tracks (template dagKey s) m)); [|done].
  intros c s1 u1 s2 m1 _ Hs1 H. tx_ok. apply DeleteNode_template in H0. cbv zeta in H0.
  destruct H0 as (-> & -> & _). go_bool. apply delete_tracks; done.
Qed.

End persist.

(** ** Distinct keys of a partitioned batch *)

Definition op_key (op : Op) : string :=
  match op with
  | OpAddNode n => TrimSpace (sp_NodeKey n)
  | OpUpdateNode k _ => TrimSpace k
  | OpRemoveNode k => TrimSpace k
  | _ => EmptyString
  end.

Definition nonempty_keys (ops : Ops) : list string :=
  List.filter (fun k => negb (String.eqb k EmptyString)) (op_key <$> ops).

Lemma rememberNodeOp_Ok seen key i kind seen' :
  rememberNodeOp seen key i kind = Ok seen' ->
  (TrimSpace key = EmptyString /\ seen' = seen) \/
  (TrimSpace key <> EmptyString /\ seen !! TrimSpace key = None /\ seen' = <[TrimSpace key := mkSeen i kind]> seen).
Proof.
  unfold rememberNodeOp. destruct (String.eqb_spec (TrimSpace key) EmptyString); [intros [= <-]; by left|].
  destruct (seen !! TrimSpace key); [done|]. intros [= <-]. by right.
Qed.

Lemma nonempty_keys_snoc ops op :
  nonempty_keys (ops ++ [op]) = nonempty_keys ops ++ (if String.eqb (op_key op) EmptyString then [] else [op_key op]).
Proof.
  unfold nonempty_keys. rewrite fmap_app, List.filter_app. simpl. by destruct (String.eqb _ _).
Qed.

Definition part_inv (acc : partitionedOps * gmap string seenNodeOp) : Prop :=
  NoDup (nonempty_keys (updates acc.1))
  /\ forall k, k ∈ nonempty_keys (updates acc.1) -> is_Some (acc.2 !! k).

Lemma part_inv_seen p seen key i kind seen' ups :
  part_inv (p, seen) -> rememberNodeOp seen key i kind = Ok seen' -> updates ups = updates p ->
  part_inv (ups, seen').
Proof.
  intros [Hnd Hs] Hr Hu. unfold part_inv in *. simpl in *. rewrite Hu. split; [done|].
  intros k Hk%Hs. apply rememberNodeOp_Ok in Hr as [[_ ->]|(_ & _ & ->)]; [done|].
  rewrite lookup_insert_is_Some'. by right.
Qed.

Lemma appendPartitionedOp_inv acc iop acc' :
  part_inv acc -> appendPartitionedOp acc iop = Ok acc' -> part_inv acc'.
Proof.
  destruct acc as [p seen], iop as [i op]. intros Hinv H.
  destruct op as [patch|node|k patch|k|]; simpl in H; [case_match; by simplify_eq/=| | | |done];
    apply bind_Ok in H as (seen' & Hr & H); simplify_eq; [by eapply part_inv_seen| |by eapply part_inv_seen].
  destruct Hinv as [Hnd Hseen]. unfold part_inv in *. simpl in *. rewrite nonempty_keys_snoc. simpl.
  apply rememberNodeOp_Ok in Hr as [[He ->]|(He & Hn & ->)].
  - rewrite He. simpl. by rewrite app_nil_r.
  - destruct (String.eqb_spec (TrimSpace k) EmptyString); [done|]. split.
    + apply NoDup_app. split_and!; [done| |apply NoDup_singleton].
      intros k' Hk' E%list_elem_of_singleton. subst k'. destruct (Hseen _ Hk'). congruence.
    + intros k' [Hk'|E%list_elem_of_singleton]%elem_of_app; rewrite lookup_insert_is_Some'; auto.
Qed.

Lemma partitionOps_updates ops parts :
  partitionOps ops = Ok parts -> NoDup (nonempty_keys (updates parts)).
Proof.
  unfold partitionOps. destruct (fold_result _ _ _) as [[p seen]|] eqn:E; [|done]. intros [= <-].
  assert (part_inv (p, seen)) as [? _]; [|done].
  eapply (fold_result_inv part_inv); [|..|exact E].
  - intros acc iop acc' _. apply appendPartitionedOp_inv.
  - split; simpl; [constructor|]. by intros k ?%elem_of_nil.
Qed.

Lemma imap_pair_snd {A} (l : list A) : (imap pair l).*2 = l.
Proof.
  enough (forall f : nat -> A -> nat * A, (forall i x, (f i x).2 = x) -> (imap f l).*2 = l) as H by (by apply H).
  induction l as [|x l IH]; intros f Hf; [done|]. rewrite imap_cons, fmap_cons, Hf. f_equal. apply IH. intros; apply Hf.
Qed.

(** The planned changes carry the keys of the operations. *)
Lemma PlanUpdateNodes_keys ops existing adj changes :
  PlanUpdateNodes ops existing = Ok (adj, changes) ->
  uc_NodeKey <$> changes = nonempty_keys ops.
Proof.
  unfold PlanUpdateNodes. destruct (seedAdjacencyFull existing) as [m0 byKey].
  enough (forall l acc acc', fold_result (update_step byKey) l acc = Ok acc' ->
    uc_NodeKey <$> acc'.2 = (uc_NodeKey <$> acc.2) ++ nonempty_keys (l.*2)) as H.
  { intros E. apply H in E. simpl in E. by rewrite E, imap_pair_snd. }
  induction l as [|[i op] l IH]; intros acc acc' E; simpl in E; simplify_eq.
  { by rewrite app_nil_r. }
  apply bind_Ok in E as (acc1 & Hstep & E). rewrite (IH _ _ E). clear IH E.
  unfold update_step in Hstep. apply bind_Ok in Hstep as (c & Hc & Hstep). simpl in Hc.
  case_match; [|done]. apply bind_Ok in Hstep as (? & _ & Hstep). apply bind_Ok in Hstep as (? & _ & Hstep).
  apply bind_Ok in Hstep as (? & _ & Hstep). simplify_eq. simpl. rewrite fmap_app, <- app_assoc. f_equal.
  unfold updateChangeFromOp in Hc. destruct op as [| |k patch| |]; try done.
  unfold nonempty_keys. simpl. destruct (String.eqb_spec (TrimSpace k) EmptyString); [done|]. by simplify_eq/=.
Qed.

(** ** Soundness of a batch plan *)

Lemma seedAdjacency_map l :
  (seedAdjacency l).1 = foldl (fun m n => <[ex_NodeKey n := ex_DependsOn n]> m) ∅ l.
Proof.
  unfold seedAdjacency. generalize (∅ : gset string). generalize (∅ : adjacency_map).
  induction l as [|n l IH]; intros m k; [done|]. simpl. apply IH.
Qed.

Lemma foldl_fmap {A B C} (f : C -> B -> C) (g : A -> B) l c :
  foldl f c (g <$> l) = foldl (fun c a => f c (g a)) c l.
Proof. revert c. induction l as [|a l IH]; intros c; [done|]. simpl. apply IH. Qed.

Lemma seed_extended existing specs :
  (seedAdjacencyFull (existingFullForPlan existing specs)).1 = foldl apply_spec (adj_of existing) specs.
Proof.
  destruct (seedAdjacencyFull_spec (existingFullForPlan existing specs)) as [-> _].
  unfold existingFullForPlan, adj_of, existingNodesForPlan.
  rewrite foldl_app, seedAdjacency_map, !foldl_fmap. done.
Qed.

Lemma merge_same (m1 m2 : adjacency_map) : dom m2 = dom m1 -> mergeAdjacency m1 m2 = m2.
Proof.
  intros Hd. apply map_eq. intros k. unfold mergeAdjacency. rewrite lookup_union.
  destruct (m2 !! k) as [v|] eqn:E; [by destruct (m1 !! k)|].
  assert (m1 !! k = None) as ->; [|done].
  apply not_elem_of_dom. rewrite <- Hd. by apply not_elem_of_dom.
Qed.

Lemma foldl_apply_spec_empty specs m :
  Forall spec_ok specs -> m !! EmptyString = None -> foldl apply_spec m specs !! EmptyString = None.
Proof.
  revert m. induction specs as [|sp specs IH]; intros m Hs Hm; [done|]. inversion Hs as [|? ? (_ & Hne & _)]; subst.
  simpl. apply IH; [done|]. unfold apply_spec. by rewrite lookup_insert_ne.
Qed.

Lemma foldl_apply_spec_other specs m k :
  (forall sp, sp ∈ specs -> sp_NodeKey sp <> k) -> foldl apply_spec m specs !! k = m !! k.
Proof.
  revert m. induction specs as [|sp specs IH]; intros m H; [done|]. simpl. rewrite IH by set_solver.
  unfold apply_spec. apply lookup_insert_ne, H. by left.
Qed.

Section batch.
Context {schedule : Type} (cron_parse : string -> option schedule) (cron_next : schedule -> Z -> Z).
Context (now : Z) (map_keys : adjacency_map -> list string) (row_accepted : Node -> bool).
Hypothesis map_keys_perm : forall m, map_keys m ≡ₚ keys m.

Lemma planOpsBatch_sound parts existing sched plan :
  template_wf existing ->
  planOpsBatch cron_parse cron_next now map_keys parts existing sched = Ok plan ->
  let m1 := foldl apply_spec (adj_of existing) (pl_addSpecs plan) in
  let m2 := foldl apply_change m1 (pl_updates plan) in
  let m3 := foldl apply_remove m2 (pl_removes plan) in
  Forall spec_ok (pl_addSpecs plan)
  /\ (forall sp, sp ∈ pl_addSpecs plan -> adj_of existing !! sp_NodeKey sp = None)
  /\ uc_NodeKey <$> pl_updates plan = nonempty_keys (updates parts)
  /\ closed m3 /\ acyclic m3.
Proof.
  intros [Hnd Hkeys Hclosed Hac] H m1 m2 m3. unfold planOpsBatch in H.
  apply bind_Ok in H as (patches & _ & H). apply bind_Ok in H as ([adjAdd specs] & Hadd & H).
  apply bind_Ok in H as ([adjUpd changes] & Hupd & H). apply bind_Ok in H as ([pruned rems] & Hrem & H).
  apply bind_Ok in H as ([] & Hcyc & H). simplify_eq. cbn [pl_addSpecs pl_updates pl_removes] in *.
  apply map_err_Ok in Hadd, Hupd, Hrem, Hcyc. unfold PlanAddNodes in Hadd.
  apply bind_Ok in Hadd as ([adj' specs'] & Htop & Hadd). apply bind_Ok in Hadd as ([] & _ & Hadd). simplify_eq.
  pose proof (add_closed _ _ _ _ Htop Hclosed) as Hc1.
  apply planAddNodeTopology_spec in Htop. cbv zeta in Htop. fold (adj_of existing) in Htop.
  destruct Htop as (-> & Hspecs & _ & Hfresh & _). fold m1 in Hc1, Hrem.
  pose proof (PlanUpdateNodes_keys _ _ _ _ Hupd) as Huk.
  apply PlanUpdateNodes_spec in Hupd as [Hm Hd Hc2 _]; [|by rewrite seed_extended].
  rewrite seed_extended in Hm, Hd. fold m1 in Hm, Hd. simpl in Hm, Hd, Hc2. fold m2 in Hm. subst adjUpd.
  rewrite merge_same in Hrem by done.
  assert (m2 !! EmptyString = None) as Hempty.
  { apply not_elem_of_dom. rewrite Hd. apply not_elem_of_dom. unfold m1. apply foldl_apply_spec_empty; [done|].
    apply eq_None_not_Some. rewrite adj_of_dom. intros (n & E & Hn)%list_elem_of_fmap.
    rewrite Forall_forall in Hkeys. by destruct (Hkeys n Hn). }
  apply (PlanRemoveNodes_spec map_keys map_keys_perm) in Hrem as (-> & Hc3 & _); [|done..].
  split_and!; [done..|]. by apply (DetectCycle_exact _ _ (map_keys_perm _)).
Qed.

Lemma persistOpsBatch_tracks dagKey existing plan parts sched s u s' :
  template dagKey s = existing -> template_wf existing -> NoDup (nonempty_keys (updates parts)) ->
  planOpsBatch cron_parse cron_next now map_keys parts existing sched = Ok plan ->
  persistOpsBatch row_accepted dagKey existing plan s = Ok (u, s') ->
  template_wf (template dagKey s').
Proof.
  intros Hex Hwf Hnd Hplan H. pose proof Hwf as [Hnd0 Hk0 _ _].
  pose proof (planOpsBatch_sound _ _ _ _ Hwf Hplan) as Hs. cbv zeta in Hs.
  destruct Hs as (Hspecs & Hfresh & Hkeys & Hclosed & Hacyc).
  unfold persistOpsBatch in H. tx_ok. rename x0 into s1, x2 into s2, x4 into s3.
  apply persistDAGPatches_nodes in H0.
  assert (tracks (template dagKey s1) (adj_of existing)) as T1.
  { unfold template. rewrite H0. fold (template dagKey s). rewrite Hex. by split. }
  eapply persistAddNodeSpecs_tracks in H1; [|done..].
  eapply persistUpdateChanges_tracks in H2; [|done|by rewrite Hkeys| |exact H1].
  - eapply persistRemoveChanges_tracks in H; [|exact H2]. destruct H as [A B C].
    by split; [| |rewrite C..].
  - intros c old _ Hold. destruct (indexExistingByKey_lookup _ _ _ Hold) as [Hin <-].
    assert (adj_of existing !! nd_NodeKey old = Some (decodeDependsOn (nd_DependsOn old))) as Hl
      by (apply adj_of_lookup; eauto).
    rewrite foldl_apply_spec_other; [done|]. intros sp Hsp E. rewrite <- E, (Hfresh sp Hsp) in Hl. done.
Qed.
End batch.

(** ** What a committed batch did *)

Lemma fmap_find {A} (p : A -> bool) (g : A -> A) l :
  (forall x, p (g x) = p x) -> List.find p (g <$> l) = g <$> List.find p l.
Proof.
  intros Hp. induction l as [|x l IH]; [done|]. rewrite fmap_cons. cbn [List.find]. rewrite Hp.
  by destruct (p x).
Qed.

Definition outside (dagKey : string) (l : list Node) : list Node :=
  List.filter (fun n => negb (template_of dagKey n)) l.

(** What the node writes of a batch on [dagKey] leave alone. *)
Record node_frame (dagKey : string) (s s' : db) : Prop := {
  nf_dags : db_dags s' = db_dags s;
  nf_runs : db_runs s' = db_runs s;
  nf_wakeups : db_wakeups s' = db_wakeups s;
  nf_nodes : outside dagKey (db_nodes s') = outside dagKey (db_nodes s);
}.

#[export] Instance node_frame_preorder dagKey : PreOrder (node_frame dagKey).
Proof.
  split; [by intros s|]. intros s1 s2 s3 [? ? ? ?] [? ? ? ?]. split; congruence.
Qed.

Lemma outside_update dagKey (w : Node -> bool) (g : Node -> Node) l :
  (forall n, w n = true -> template_of dagKey n = true /\ template_of dagKey (g n) = true) ->
  outside dagKey ((fun n => if w n then g n else n) <$> l) = outside dagKey l.
Proof.
  intros Hw. unfold outside. induction l as [|n l IH]; [done|]. rewrite fmap_cons, !filter_cons_eq, IH.
  destruct (w n) eqn:E; [|done]. destruct (Hw n E) as [-> ->]. done.
Qed.

Lemma UpsertNode_frame ra node s u s' :
  UpsertNode ra node s = Ok (u, s') -> node_frame (nd_DagKey node) s s'.
Proof.
  unfold UpsertNode, upsertNodeTx, update_nodes, sql_update. intros H. tx_ok. cbn [fst snd] in *.
  assert (outside (nd_DagKey node) ((fun n => if same_template node n then template_columns node n else n) <$> db_nodes s)
    = outside (nd_DagKey node) (db_nodes s)) as Hout.
  { apply outside_update. unfold same_template. intros n Hn. go_bool. by rewrite template_of_columns. }
  unfold requireSingleNodeWrite, requireSingleAffectedRow in *.
  match goal with Hif : (if ?b then _ else _) _ = Ok _ |- _ => destruct b; tx_ok end;
    repeat (case_match; tx_ok); split; simpl; try done.
  unfold outside in *. rewrite List.filter_app, Hout. cbn [List.filter].
  unfold template_of at 2. cbn. by rewrite String.eqb_refl, app_nil_r.
Qed.

Lemma DeleteNode_frame dagKey key s rows s' :
  DeleteNode dagKey key s = Ok (rows, s') -> node_frame dagKey s s'.
Proof.
  unfold DeleteNode, sql_delete. intros H. tx_ok. split; cbn; try done.
  unfold outside. induction (db_nodes s) as [|n l IH]; [done|]. rewrite !filter_cons_eq.
  destruct (template_of dagKey n) eqn:Hn; cbn [andb negb].
  - destruct (_ && _); cbn [negb]; [exact IH|]. rewrite filter_cons_eq, Hn. exact IH.
  - rewrite filter_cons_eq, Hn. cbn [negb]. f_equal. exact IH.
Qed.

(** The version of a DAG and what DAG writes leave alone. *)
Definition version_is (dagKey : string) (v : Z) (s : db) : Prop :=
  exists d, find_dag dagKey s = Some d /\ dg_Version d = v.

Record dag_frame (dagKey : string) (s s' : db) : Prop := {
  df_nodes : db_nodes s' = db_nodes s;
  df_runs : db_runs s' = db_runs s;
  df_wakeups : db_wakeups s' = db_wakeups s;
  df_dags : List.filter (fun d => negb (String.eqb (dg_DagKey d) dagKey)) (db_dags s')
            = List.filter (fun d => negb (String.eqb (dg_DagKey d) dagKey)) (db_dags s);
}.

Lemma filter_update_other {A} (p w : A -> bool) (g : A -> A) l :
  (forall x, w x = true -> p x = false /\ p (g x) = false) ->
  List.filter p ((fun x => if w x then g x else x) <$> l) = List.filter p l.
Proof.
  intros Hw. induction l as [|x l IH]; [done|]. rewrite fmap_cons, !filter_cons_eq, IH.
  destruct (w x) eqn:E; [|done]. by destruct (Hw x E) as [-> ->].
Qed.

Lemma update_dags_frame dagKey w g s n s' :
  (forall d, w d = true -> dg_DagKey d = dagKey) -> (forall d, w d = true -> dg_DagKey (g d) = dagKey) ->
  update_dags w g s = Ok (n, s') ->
  dag_frame dagKey s s'
  /\ find_dag dagKey s' = (fun d => if w d then g d else d) <$> find_dag dagKey s
  /\ n = length (List.filter w (db_dags s)).
Proof.
  intros Hw Hg H. unfold update_dags, sql_update in H. tx_ok. split_and!; [split; cbn; try done| |done].
  - apply filter_update_other. intros d Hd. by rewrite (Hw d Hd), (Hg d Hd), String.eqb_refl.
  - unfold find_dag. cbn. apply (fmap_find (fun d => String.eqb (dg_DagKey d) dagKey) (fun d => if w d then g d else d)).
    intros d. destruct (w d) eqn:E; [|done]. by rewrite (Hw d E), (Hg d E).
Qed.

Lemma requireSingle_Ok op rows s u s' :
  requireSingleAffectedRow op rows s = Ok (u, s') -> rows = 1 /\ s' = s.
Proof. unfold requireSingleAffectedRow. destruct rows as [|[|]]; [done| |done]. intros H. by tx_ok. Qed.

Lemma find_dag_key dagKey s d : find_dag dagKey s = Some d -> dg_DagKey d = dagKey.
Proof. unfold find_dag. intros [_ H]%find_some. by apply String.eqb_eq. Qed.

Lemma UpdateDAGPatch_spec input s rows s' :
  UpdateDAGPatch input s = Ok (rows, s') ->
  dag_frame (pi_DagKey input) s s'
  /\ (forall v, version_is (pi_DagKey input) v s -> version_is (pi_DagKey input) v s').
Proof.
  unfold UpdateDAGPatch, GetDAG. intros H. tx_ok. apply requireSingle_Ok in H2 as [_ ->].
  destruct (find_dag (pi_DagKey input) s) as [d|] eqn:Hd; [|done]. simplify_eq.
  pose proof (find_dag_key _ _ _ Hd) as Hk.
  apply update_dags_frame with (dagKey := pi_DagKey input) in H1 as (Hf & Hfind & _).
  - split; [done|]. intros v (d' & Hd' & <-). simplify_eq. exists (resolveDAGPatch x input).
    split; [|done]. rewrite Hfind, Hd. cbn. by rewrite Hk, String.eqb_refl.
  - intros d'. apply String.eqb_eq.
  - intros d' _. cbn. done.
Qed.

Lemma bumpDAGVersionTx_spec dagKey base s v s' :
  bumpDAGVersionTx dagKey base s = Ok (v, s') ->
  version_is dagKey base s ->
  v = (base + 1)%Z /\ dag_frame dagKey s s' /\ version_is dagKey (base + 1) s'.
Proof.
  unfold bumpDAGVersionTx. destruct (BumpDAGVersion dagKey base s) as [[v' s1]|e] eqn:E; [|by case_match].
  intros [= <- <-] (d & Hd & <-). unfold BumpDAGVersion in E. tx_ok. apply requireSingle_Ok in H0 as [_ ->].
  pose proof (find_dag_key _ _ _ Hd) as Hk.
  apply update_dags_frame with (dagKey := dagKey) in H as (Hf & Hfind & _).
  - split_and!; [done..|]. exists (bump d). split; [|done]. rewrite Hfind, Hd. cbn.
    by rewrite Hk, String.eqb_refl, Z.eqb_refl.
  - intros d' ?. by go_bool.
  - intros d' ?. cbn. by go_bool.
Qed.

Lemma bumpDAGVersionTx_nodes dagKey base s v s' :
  bumpDAGVersionTx dagKey base s = Ok (v, s') -> db_nodes s' = db_nodes s.
Proof.
  unfold bumpDAGVersionTx. destruct (BumpDAGVersion dagKey base s) as [[v' s1]|e] eqn:E; [|by case_match].
  intros [= <- <-]. unfold BumpDAGVersion in E. tx_ok. apply requireSingle_Ok in H0 as [_ ->].
  unfold update_dags, sql_update in H. by tx_ok.
Qed.

(** What a batch on [dagKey] leaves alone. *)
Record batch_frame (dagKey : string) (s s' : db) : Prop := {
  bf_runs : db_runs s' = db_runs s;
  bf_wakeups : db_wakeups s' = db_wakeups s;
  bf_nodes : outside dagKey (db_nodes s') = outside dagKey (db_nodes s);
  bf_dags : List.filter (fun d => negb (String.eqb (dg_DagKey d) dagKey)) (db_dags s')
            = List.filter (fun d => negb (String.eqb (dg_DagKey d) dagKey)) (db_dags s);
  bf_version : forall v, version_is dagKey v s -> version_is dagKey v s';
}.

#[export] Instance batch_frame_preorder dagKey : PreOrder (batch_frame dagKey).
Proof. split; [by intros s|]. intros s1 s2 s3 [] []. split; [congruence..|auto]. Qed.

Lemma node_batch_frame dagKey s s' : node_frame dagKey s s' -> batch_frame dagKey s s'.
Proof.
  intros [Hd ? ? ?]. split; [done..|by rewrite Hd|]. unfold version_is, find_dag. by rewrite Hd.
Qed.

Lemma forM_frame {A} dagKey (l : list A) f s u s' :
  (forall a s u s', a ∈ l -> f a s = Ok (u, s') -> batch_frame dagKey s s') ->
  forM l f s = Ok (u, s') -> batch_frame dagKey s s'.
Proof.
  intros Hf. apply (forM_inv (fun s1 => batch_frame dagKey s s1)); [|done].
  intros a s1 u1 s2 Ha H1 H. etrans; [exact H1|]. by eapply Hf.
Qed.

Lemma persistOpsBatch_frame ra dagKey existing plan s u s' :
  persistOpsBatch ra dagKey existing plan s = Ok (u, s') -> batch_frame dagKey s s'.
Proof.
  unfold persistOpsBatch. intros H. tx_ok. etrans; [|etrans; [|etrans]].
  - eapply forM_frame; [|exact H0]. intros p s1 u1 s2 _ Hp. tx_ok.
    apply UpdateDAGPatch_spec in H3 as [[A B C D] Hv]. split; [done..| |done|done]. by rewrite A.
  - eapply forM_frame; [|exact H1]. intros sp s1 u1 s2 _ Hp. by apply UpsertNode_frame, node_batch_frame in Hp.
  - eapply forM_frame; [|exact H2]. intros c s1 u1 s2 _ Hp. cbn beta in Hp.
    destruct (indexExistingByKey existing !! uc_NodeKey c); [|done].
    by apply UpsertNode_frame, node_batch_frame in Hp.
  - eapply forM_frame; [|exact H]. intros c s1 u1 s2 _ Hp. cbn beta in Hp. tx_ok.
    match goal with Hd : DeleteNode _ _ _ = Ok _ |- _ => by apply DeleteNode_frame, node_batch_frame in Hd end.
Qed.

Section committed.
Context {schedule : Type} (cron_parse : string -> option schedule) (cron_next : schedule -> Z -> Z).
Context (now : Z) (map_keys : adjacency_map -> list string).
Context (map_order : forall A, list (string * A) -> list (string * A)) (row_accepted : Node -> bool).

Local Abbreviation ApplyOps := (ApplyOps cron_parse cron_next now map_keys map_order row_accepted).

(** The stages of a batch that changed something. *)
Record batch_run (dagKey : string) (base : Z) (s : db) (v : Z) (s' : db) : Prop := {
  br_row : exists d, find_dag dagKey s = Some d /\ dg_Version d = base
    /\ rejectTerminalDAGOps (dg_Status d) = Ok tt
    /\ exists parts active sched plan s1,
        NoDup (nonempty_keys (updates parts))
        /\ isNoopOpsBatch parts = false
        /\ active = Z.of_nat (length (List.filter (fun r =>
             String.eqb (rn_DagKey r) dagKey && String.eqb (rn_Status r) "running") (db_runs s)))
        /\ enforceRunningDAGInvariants (dg_Status d) active parts = Ok tt
        /\ planOpsBatch cron_parse cron_next now map_keys parts (template dagKey s) sched = Ok plan
        /\ persistOpsBatch row_accepted dagKey (template dagKey s) plan s = Ok (tt, s1)
        /\ bumpDAGVersionTx dagKey base s1 = Ok (v, s');
}.

Lemma GetDAG_Ok dagKey s d s' : GetDAG dagKey s = Ok (d, s') -> find_dag dagKey s = Some d /\ s' = s.
Proof. unfold GetDAG. intros H. tx_ok. case_match; [by simplify_eq|done]. Qed.

Lemma dagScheduleForOps_Ok dagKey parts s sched s' :
  dagScheduleForOps dagKey parts s = Ok (sched, s') -> s' = s.
Proof.
  unfold dagScheduleForOps, GetDAGSchedule. case_match; intros Hr; tx_ok; [done|].
  match goal with Hg : GetDAG _ _ = Ok _ |- _ => by apply GetDAG_Ok in Hg as [_ ->] end.
Qed.

Lemma ApplyOps_stages dagKey base raw s v s' :
  ApplyOps dagKey base raw s = Ok (v, s') ->
  (s' = s /\ v = base /\ version_is (TrimSpace dagKey) base s)
  \/ batch_run (TrimSpace dagKey) base s v s'.
Proof.
  unfold ApplyOps.ApplyOps, applyTypedOps. intros H. tx_ok.
  destruct (isNoopOpsBatch _) eqn:Hnoop.
  - left. unfold applyEmptyOpsShortCircuit, GetDAGVersion in H. tx_ok.
    repeat match goal with Hg : GetDAG _ _ = Ok _ |- _ => apply GetDAG_Ok in Hg as [Hg ->] end.
    go_bool. split_and!; [done..|]. eexists; eauto.
  - right. unfold runOpsBatch in H. tx_ok.
    match type of H with context [match ?x with _ => _ end] => destruct x as [[current existing] sched] end.
    rewrite Hnoop in H. tx_ok.
    unfold preflightOpsBatch, GetDAGVersionForUpdate, GetDAGVersion, CountRunningRunsByDagKey, ListNodes in *. tx_ok.
    repeat match goal with Hg : GetDAG _ _ = Ok _ |- _ => apply GetDAG_Ok in Hg as [Hg ->] end.
    match goal with Hs : dagScheduleForOps _ _ _ = Ok _ |- _ => apply dagScheduleForOps_Ok in Hs as -> end.
    simplify_eq. constructor. eexists. split_and!; [eassumption|by go_bool|by destruct (rejectTerminalDAGOps _) as [[]|]|].
    eexists _, _, _, _, _. split_and!; [by eapply partitionOps_updates|done|reflexivity|by destruct (enforceRunningDAGInvariants _ _ _) as [[]|]|eassumption|eassumption|eassumption].
Qed.

Lemma batch_run_spec dagKey base s v s' :
  batch_run dagKey base s v s' ->
  v = (base + 1)%Z /\ version_is dagKey base s /\ version_is dagKey (base + 1) s'
  /\ db_runs s' = db_runs s /\ db_wakeups s' = db_wakeups s
  /\ outside dagKey (db_nodes s') = outside dagKey (db_nodes s)
  /\ List.filter (fun d => negb (String.eqb (dg_DagKey d) dagKey)) (db_dags s')
     = List.filter (fun d => negb (String.eqb (dg_DagKey d) dagKey)) (db_dags s).
Proof.
  intros [(d & Hd & Hv & _ & parts & active & sched & plan & s1 & _ & _ & _ & _ & _ & Hp & Hb)].
  apply persistOpsBatch_frame in Hp as [A B C D E].
  assert (version_is dagKey base s) as Hbase by (eexists; eauto).
  apply bumpDAGVersionTx_spec in Hb as (-> & [F G H I] & Hv'); [|auto].
  split_and!; [done..| | | |]; congruence.
Qed.

(** A batch that touches no node plans no node change. *)
Lemma planOpsBatch_no_nodes parts existing sched plan :
  planOpsBatch cron_parse cron_next now map_keys parts existing sched = Ok plan ->
  adds parts = [] -> updates parts = [] -> removes parts = [] ->
  pl_addSpecs plan = [] /\ pl_updates plan = [] /\ pl_removes plan = [].
Proof.
  unfold planOpsBatch. intros H Ha Hu Hr. rewrite Ha, Hu, Hr in H. apply bind_Ok in H as (patches & _ & H).
  apply bind_Ok in H as ([adjAdd specs] & Hadd & H). apply bind_Ok in H as ([adjUpd changes] & Hupd & H).
  apply bind_Ok in H as ([pruned rems] & Hrem & H). apply bind_Ok in H as ([] & _ & H). simplify_eq.
  apply map_err_Ok in Hadd, Hupd, Hrem. cbn [pl_addSpecs pl_updates pl_removes].
  assert (specs = []) as ->.
  { unfold PlanAddNodes in Hadd. apply bind_Ok in Hadd as ([adj' specs'] & Htop & Hadd).
    apply bind_Ok in Hadd as ([] & _ & Hadd). simplify_eq.
    unfold planAddNodeTopology in Htop. apply bind_Ok in Htop as ([[adj2 known] acc] & Hfold & Htop).
    apply bind_Ok in Htop as ([] & _ & Htop). simpl in Hfold. repeat case_match; by simplify_eq. }
  assert (changes = []) as ->.
  { apply PlanUpdateNodes_keys in Hupd. by destruct changes. }
  unfold PlanRemoveNodes in Hrem. simpl in Hrem.
  by simplify_eq.
Qed.

Lemma no_node_ops_nodes dagKey existing plan s u s' :
  pl_addSpecs plan = [] -> pl_updates plan = [] -> pl_removes plan = [] ->
  persistOpsBatch row_accepted dagKey existing plan s = Ok (u, s') -> db_nodes s' = db_nodes s.
Proof.
  intros Ha Hu Hr H. unfold persistOpsBatch, persistAddNodeSpecs, persistUpdateChanges, persistRemoveChanges in H.
  rewrite Ha, Hu, Hr in H. cbn [forM] in H. tx_ok. by eapply persistDAGPatches_nodes.
Qed.

Lemma enforce_no_node_ops status active parts reason :
  runningDAGReason status active = Some reason ->
  enforceRunningDAGInvariants status active parts = Ok tt ->
  adds parts = [] /\ updates parts = [] /\ removes parts = [].
Proof.
  unfold enforceRunningDAGInvariants, rejectNodeOpsInRunningDAG. intros ->. simpl.
  destruct (adds parts), (updates parts), (removes parts); done.
Qed.

(** C1: a committed batch of operations keeps the template well formed.  If before
    the call the template rows of the DAG have unique, trimmed, non-empty keys,
    depend only on template nodes and have no dependency cycle, then after a
    successful ApplyOps they still do, whatever operations were in the request and
    in whatever order Go iterates its maps. *)
Theorem ApplyOps_preserves_template dagKey base raw s v s' :
  (forall m, map_keys m ≡ₚ keys m) ->
  template_wf (template (TrimSpace dagKey) s) ->
  ApplyOps dagKey base raw s = Ok (v, s') ->
  template_wf (template (TrimSpace dagKey) s').
Proof.
  intros Hperm Hwf [(-> & _ & _)|[(d & _ & _ & _ & parts & active & sched & plan & s1 & Hnd & _ & _ & _ & Hplan & Hp & Hb)]]%ApplyOps_stages; [done|].
  eapply persistOpsBatch_tracks in Hp; [|done..]. unfold template in *.
  by rewrite (bumpDAGVersionTx_nodes _ _ _ _ _ Hb).
Qed.

(** A successful batch changes only its own DAG: runs, wakeups, the node rows
    that are not template rows of this DAG (nodes of runs, nodes of other DAGs)
    and the rows of the other DAGs are the same before and after, in the same
    order. *)
Theorem ApplyOps_isolated dagKey base raw s v s' :
  ApplyOps dagKey base raw s = Ok (v, s') ->
  db_runs s' = db_runs s /\ db_wakeups s' = db_wakeups s
  /\ outside (TrimSpace dagKey) (db_nodes s') = outside (TrimSpace dagKey) (db_nodes s)
  /\ List.filter (fun d => negb (String.eqb (dg_DagKey d) (TrimSpace dagKey))) (db_dags s')
     = List.filter (fun d => negb (String.eqb (dg_DagKey d) (TrimSpace dagKey))) (db_dags s).
Proof.
  intros [(-> & _ & _)|(_ & _ & _ & ? & ? & ? & ?)%batch_run_spec]%ApplyOps_stages; done.
Qed.

(** C2: optimistic concurrency.  ApplyOps commits only when the stored version is
    the base version of the request; it then either changed nothing and answers the
    same version, or it answers base + 1 and that version is stored.  After a
    change, no second request with the old base version commits, on whatever
    operations: no update is lost. *)
Theorem ApplyOps_no_lost_update dagKey base raw s v s' :
  ApplyOps dagKey base raw s = Ok (v, s') ->
  version_is (TrimSpace dagKey) base s
  /\ ((v = base /\ s' = s) \/ (v = (base + 1)%Z /\ version_is (TrimSpace dagKey) v s'))
  /\ (v <> base -> forall dagKey2 raw2 r, TrimSpace dagKey2 = TrimSpace dagKey ->
        ApplyOps dagKey2 base raw2 s' <> Ok r).
Proof.
  intros [(-> & -> & Hv)|(-> & Hv & Hv' & _)%batch_run_spec]%ApplyOps_stages;
    (split_and!; [done|by auto|]); [done|].
  intros _ dagKey2 raw2 [v2 s2] Hk H2. destruct Hv' as (d & Hd & Hver).
  apply ApplyOps_stages in H2 as [(_ & _ & d2 & Hd2 & Hver2)|(_ & (d2 & Hd2 & Hver2) & _)%batch_run_spec];
    rewrite Hk, Hd in Hd2; simplify_eq; lia.
Qed.

(** C14: the guards on a live DAG.  A batch on a DAG in a terminal status commits
    only when it has no operations at all; on a DAG that is running, or has a
    running run, a committed batch leaves every node row of the database as it
    was. *)
Theorem ApplyOps_running_guard dagKey base raw s v s' d :
  ApplyOps dagKey base raw s = Ok (v, s') ->
  find_dag (TrimSpace dagKey) s = Some d ->
  (str_in (TrimSpace (dg_Status d)) ["done"; "failed"; "cancelled"; "skipped"] = true -> s' = s)
  /\ (dg_Status d = "running" \/
      Exists (fun r => rn_DagKey r = TrimSpace dagKey /\ rn_Status r = "running") (db_runs s) ->
      db_nodes s' = db_nodes s).
Proof.
  intros [(-> & _ & _)|[(d' & Hd' & _ & Hterm & parts & active & sched & plan & s1 & _ & _ & Hact & Henf & Hplan & Hp & Hb)]]%ApplyOps_stages Hd; [done|].
  rewrite Hd in Hd'. injection Hd' as <-. split.
  { unfold rejectTerminalDAGOps in Hterm. by case_match. }
  intros Hrun. assert (exists reason, runningDAGReason (dg_Status d) active = Some reason) as [reason Hr].
  { unfold runningDAGReason. destruct (String.eqb_spec (dg_Status d) "running"); [eauto|].
    destruct Hrun as [?|Hex]; [done|]. apply Exists_exists in Hex as (r & Hr & Hk & Hs).
    assert (0 < active)%Z as Hpos; [|apply Z.ltb_lt in Hpos as ->; eauto]. subst active.
    destruct (List.filter _ _) eqn:E; [|simpl; lia].
    assert (List.In r []) as []. rewrite <- E. apply filter_In. split; [by apply list_elem_of_In|].
    by rewrite Hk, Hs, !String.eqb_refl. }
  destruct (enforce_no_node_ops _ _ _ _ Hr Henf) as (Ha & Hu & Hrm).
  destruct (planOpsBatch_no_nodes _ _ _ _ Hplan Ha Hu Hrm) as (? & ? & ?).
  apply no_node_ops_nodes in Hp; [|done..]. by rewrite (bumpDAGVersionTx_nodes _ _ _ _ _ Hb).
Qed.
End committed.

(** ** A concrete batch *)

Definition sample_node (key : string) (deps : list string) : Node :=
  mkNode "d" key None EmptyString "agent" EmptyString (dependsOnJSON deps) [] [] "pending" EmptyString
    (RawJSON (JObj [])) (RawJSON (JObj [])) None None None.

Definition sample_db : db :=
  mkDB [mkDAG "d" 3 "t" EmptyString "draft" EmptyString RawEmpty "manual" EmptyString EmptyString None]
    [sample_node "a" []; sample_node "b" ["a"]] [] [].

(** Make [b] independent, then drop [a]. *)
Definition sample_ops : RawMessage :=
  RawJSON (JArr [JObj [("op", JStr "update_node"); ("node_key", JStr "b");
                       ("patch", JObj [("depends_on", JArr []); ("title", JStr "B")])];
                 JObj [("op", JStr "remove_node"); ("node_key", JStr "a")]]).

Definition sample_title : RawMessage :=
  RawJSON (JArr [JObj [("op", JStr "update_dag"); ("patch", JObj [("title", JStr "new")])]]).

Definition sample_apply (raw : RawMessage) (s : db) : result error (Z * db) :=
  ApplyOps (schedule := unit) (fun _ => None) (fun _ _ => 0%Z) 0 keys document_order (fun _ => true)
    " d " 3 raw s.

Definition after (r : result error (Z * db)) : db := match r with Ok (_, s) => s | Err _ => sample_db end.

Definition running_db : db :=
  with_runs sample_db [mkRun 1 "r" "d" 3 "manual" "running" (RawJSON (JArr [])) RawEmpty].

Lemma sample_template_wf : template_wf (template "d" sample_db).
Proof.
  split.
  - apply (bool_decide_unpack _). by vm_compute.
  - repeat constructor; try done; by vm_compute.
  - intros k ds d. assert (adj_of (template "d" sample_db) = {["a" := []; "b" := ["a"]]}) as -> by (by vm_compute).
    intros [[<- <-]|[_ [<- <-]%lookup_singleton_Some]]%lookup_insert_Some Hd; [by apply elem_of_nil in Hd|].
    apply list_elem_of_singleton in Hd as ->. by eexists.
  - apply (DetectCycle_exact (keys (adj_of (template "d" sample_db)))); [done|]. by vm_compute.
Qed.

Lemma ApplyOps_preserves_template_witness :
  sample_apply sample_ops sample_db = Ok (4%Z, after (sample_apply sample_ops sample_db))
  /\ template_wf (template (TrimSpace " d ") (after (sample_apply sample_ops sample_db))).
Proof.
  assert (sample_apply sample_ops sample_db = Ok (4%Z, after (sample_apply sample_ops sample_db))) as H
    by (vm_compute; reflexivity).
  split; [exact H|].
  exact (ApplyOps_preserves_template (schedule := unit) (fun _ => None) (fun _ _ => 0%Z) 0 keys document_order
    (fun _ => true) " d " 3 sample_ops sample_db 4 _ (fun m => Permutation_refl _) sample_template_wf H).
Defined.

Lemma ApplyOps_isolated_witness :
  let s' := after (sample_apply sample_title running_db) in
  sample_apply sample_title running_db = Ok (4%Z, s') /\ db_runs s' = db_runs running_db.
Proof.
  intros s'. assert (sample_apply sample_title running_db = Ok (4%Z, s')) as H by (vm_compute; reflexivity).
  split; [exact H|].
  exact (proj1 (ApplyOps_isolated (schedule := unit) (fun _ => None) (fun _ _ => 0%Z) 0 keys document_order
    (fun _ => true) " d " 3 sample_title running_db 4 s' H)).
Defined.

Lemma ApplyOps_no_lost_update_witness :
  let s' := after (sample_apply sample_ops sample_db) in
  sample_apply sample_ops sample_db = Ok (4%Z, s')
  /\ forall r, sample_apply sample_title s' <> Ok r.
Proof.
  intros s'. assert (sample_apply sample_ops sample_db = Ok (4%Z, s')) as H by (vm_compute; reflexivity).
  split; [exact H|]. intros r.
  exact (proj2 (proj2 (ApplyOps_no_lost_update (schedule := unit) (fun _ => None) (fun _ _ => 0%Z) 0 keys
    document_order (fun _ => true) " d " 3 sample_ops sample_db 4 s' H)) ltac:(lia) " d " sample_title r eq_refl).
Defined.

Lemma ApplyOps_running_guard_witness :
  let s' := after (sample_apply sample_title running_db) in
  sample_apply sample_title running_db = Ok (4%Z, s') /\ db_nodes s' = db_nodes running_db.
Proof.
  intros s'. assert (sample_apply sample_title running_db = Ok (4%Z, s')) as H by (vm_compute; reflexivity).
  split; [exact H|].
  refine (proj2 (ApplyOps_running_guard (schedule := unit) (fun _ => None) (fun _ _ => 0%Z) 0 keys document_order
    (fun _ => true) " d " 3 sample_title running_db 4 s' _ H eq_refl) _).
  right. apply Exists_cons_hd. done.
Defined.
