(* ===== verification/DagService.v ===== *)
(** * Creating and deleting DAGs

    Models the entry points CreateDAG and DeleteDAG of the DAG controller
    ([orchestration/dag.go]) with their helpers, and ValidateCreateDAGNodes of
    [nodeexec/plan.go].  A request for a key that exists rewrites the DAG row and
    upserts the listed nodes; nodes that are not listed stay.  The theorems: a
    creation keeps the template well formed even when it overlays an older one, and
    a deletion removes exactly the rows of its DAG and refuses while a run is
    running. *)

From S2P Require Import Prelude GoStrings Cycle NodeStatus Json Ops NodeConfig Plan DagStore ApplyOps TemplateInvariant.

Definition defaultDAGStatus : string := "draft".

Record CreateDAGNodeRequest := mkNodeReq {
  cn_NodeKey : string; cn_Title : string; cn_NodeType : string; cn_AssignedTo : string;
  cn_DependsOn : list string; cn_Reads : list string; cn_Writes : list string;
  cn_CommandRef : string; cn_Config : RawMessage;
}.

Record CreateDAGRequest := mkCreateReq {
  cr_DagKey : string; cr_Title : string; cr_Description : string; cr_CreatedBy : string;
  cr_Metadata : RawMessage; cr_Nodes : list CreateDAGNodeRequest;
}.

Definition spec_of_request (n : CreateDAGNodeRequest) : NodeSpec :=
  mkNodeSpec (cn_NodeKey n) (cn_Title n) (cn_NodeType n) EmptyString (cn_DependsOn n)
    (cn_Reads n) (cn_Writes n) (cn_Config n).

Definition dagNodeFromRequest (dagKey : string) (req : CreateDAGNodeRequest) : Node :=
  mkNode (TrimSpace dagKey) (TrimSpace (cn_NodeKey req)) None (TrimSpace (cn_Title req))
    (TrimSpace (cn_NodeType req)) (TrimSpace (cn_AssignedTo req)) (dependsOnJSON (cn_DependsOn req))
    (cleanStringSlice (cn_Reads req)) (cleanStringSlice (cn_Writes req)) EmptyString
    (TrimSpace (cn_CommandRef req)) (cn_Config req) RawEmpty None None None.

(** The row written for a request; the columns the statement does not set carry
    their defaults. *)
Definition upsertDAG (req : CreateDAGRequest) : M DAG :=
  let dagKey := TrimSpace (cr_DagKey req) in
  _ ← guardM (negb (String.eqb dagKey EmptyString)) (plain_error "dag key is required");
  UpsertDAG (mkDAG dagKey 0 (TrimSpace (cr_Title req)) (TrimSpace (cr_Description req)) defaultDAGStatus
    (TrimSpace (cr_CreatedBy req)) (cr_Metadata req) EmptyString EmptyString EmptyString None).

(** The detail is the row and the template rows; the version is read before and
    after them. *)
Definition loadDAGDetail (dagKey : string) : M (DAG * list Node) :=
  let trimmedKey := TrimSpace dagKey in
  versionBefore ← GetDAGVersion trimmedKey;
  dag ← GetDAG trimmedKey;
  nodes ← ListNodes (dg_DagKey dag);
  versionAfter ← GetDAGVersion (dg_DagKey dag);
  _ ← guardM (versionAfter =? versionBefore)%Z
        (Errorf [] (Sprintf "dag detail version changed while loading: dag=%s before=%d after=%d"
          [dg_DagKey dag; pretty versionBefore; pretty versionAfter]));
  mret (dag, nodes).

Section service.
Context (map_keys : adjacency_map -> list string) (row_accepted : Node -> bool).

Definition ValidateCreateDAGNodes (nodes : list CreateDAGNodeRequest) : result error unit :=
  let specs := spec_of_request <$> nodes in
  _ ← ValidateAddNodeTopology map_keys specs;
  ValidateNodeSpecsConfig specs.

(** The store of the service always offers the batch statement. *)
Definition upsertDAGNodes (dagKey : string) (nodes : list CreateDAGNodeRequest) : M unit :=
  match nodes with
  | [] => mret tt
  | _ => _ ← BatchUpsertNodes row_accepted (dagNodeFromRequest dagKey <$> nodes); mret tt
  end.

Definition CreateDAG (req : CreateDAGRequest) : M (DAG * list Node) :=
  _ ← lift (map_err (fun e => Errorf (err_is e)
              (Sprintf "orchestration: create_dag invalid request: nodes topology invalid: %w" []))
              (ValidateCreateDAGNodes (cr_Nodes req)));
  dag ← upsertDAG req;
  _ ← upsertDAGNodes (dg_DagKey dag) (cr_Nodes req);
  loadDAGDetail (dg_DagKey dag).

(** The store errors are translated to the errors of the service. *)
Definition DeleteDAG (reqKey : string) : M unit := fun s =>
  let dagKey := TrimSpace reqKey in
  if String.eqb dagKey EmptyString then Err (plain_error "orchestration: dag key is required")
  else match store_DeleteDAG dagKey s with
       | Err e =>
           if errors_Is e ErrDAGDeleteActiveRun
           then Err (Errorf [ErrDAGAlreadyRunning] (Sprintf "dag_key=%s" [dagKey]))
           else if errors_Is e ErrNotFound
           then Err (Errorf [ErrDAGNotFound] (Sprintf "dag_key=%s" [dagKey]))
           else Err e
       | Ok (0, _) => Err (Errorf [ErrDAGNotFound] (Sprintf "dag_key=%s" [dagKey]))
       | Ok (_, s') => Ok (tt, s')
       end.
End service.

(** ** Overlaying a template *)

Lemma cleanStringSlice_elem l t :
  t ∈ cleanStringSlice l <-> t <> EmptyString /\ exists d, d ∈ l /\ t = TrimSpace d.
Proof.
  unfold cleanStringSlice. rewrite list_elem_of_In, filter_In, <- list_elem_of_In, list_elem_of_fmap.
  rewrite negb_true_iff, String.eqb_neq. naive_solver.
Qed.

Lemma clean_normalize l t : t ∈ cleanStringSlice l <-> t ∈ NormalizeDependsOn l.
Proof. by rewrite cleanStringSlice_elem, normalize_elem. Qed.

Lemma edge_iff m n d : edge m n d <-> exists ds, m !! n = Some ds /\ d ∈ ds /\ is_Some (m !! d).
Proof.
  unfold edge, deps_in, list_of. split.
  - intros [[ds Hds] Hd]. rewrite Hds in Hd. apply list_elem_of_filter in Hd as [? ?]. eauto.
  - intros (ds & Hds & Hd & Hs). rewrite Hds. split; [eauto|]. by apply list_elem_of_filter.
Qed.

(** A closed acyclic graph written over a closed acyclic graph. *)
Lemma overlay m adj m' :
  (forall k ds, adj !! k = Some ds -> exists ds', m' !! k = Some ds' /\ forall d, d ∈ ds' <-> d ∈ ds) ->
  (forall k, adj !! k = None -> m' !! k = m !! k) ->
  closed adj -> closed m -> acyclic adj -> acyclic m -> closed m' /\ acyclic m'.
Proof.
  intros Hin Hout Hca Hcm Ha Hm.
  assert (forall k, is_Some (adj !! k) -> is_Some (m' !! k)) as Hin' by (intros k [ds Hds]; destruct (Hin k ds Hds) as (? & ? & _); eauto).
  assert (forall k, is_Some (m !! k) -> is_Some (m' !! k)) as Hold.
  { intros k Hk. destruct (adj !! k) eqn:E; [apply Hin'; eauto|]. by rewrite Hout. }
  assert (forall a b, edge m' a b -> is_Some (adj !! a) -> edge adj a b /\ is_Some (adj !! b)) as Hstay.
  { intros a b (ds' & Hds' & Hb & _)%edge_iff [ds Hds]. destruct (Hin a ds Hds) as (ds2 & ? & Hiff). simplify_eq.
    apply Hiff in Hb. pose proof (Hca a ds b Hds Hb) as Hsb. split; [|done]. apply edge_iff. eauto. }
  split.
  - intros k ds d Hk Hd. destruct (adj !! k) as [ds0|] eqn:E.
    + destruct (Hin k ds0 E) as (ds2 & ? & Hiff). simplify_eq. apply Hin'. eapply Hca; [exact E|]. by apply Hiff.
    + rewrite Hout in Hk by done. apply Hold. by eapply Hcm.
  - intros n Hn. destruct (adj !! n) as [ds|] eqn:E.
    + apply (Ha n). assert (forall a b, tc (edge m') a b -> is_Some (adj !! a) -> tc (edge adj) a b) as H; [|apply H; eauto].
      induction 1 as [a b Hab|a b c Hab Hbc IH]; intros Hs; destruct (Hstay _ _ Hab Hs) as [? ?]; [by apply tc_once|].
      eapply tc_l; eauto.
    + apply (Hm n). assert (forall a b, tc (edge m') a b -> is_Some (adj !! a) -> is_Some (adj !! b)) as Hreach.
      { induction 1 as [a b Hab|a b c Hab Hbc IH]; intros Hs; destruct (Hstay _ _ Hab Hs); auto. }
      assert (forall a b, edge m' a b -> adj !! a = None -> adj !! b = None -> edge m a b) as Hedge.
      { intros a b (ds & Hds & Hb & Hsb)%edge_iff Hna Hnb. rewrite Hout in Hds, Hsb by done. apply edge_iff. eauto. }
      assert (forall a b, tc (edge m') a b -> adj !! a = None -> adj !! b = None -> tc (edge m) a b) as H; [|by apply H].
      induction 1 as [a b Hab|a b c Hab Hbc IH]; intros Hna Hnc; [apply tc_once; auto|].
      destruct (adj !! b) as [db|] eqn:Eb.
      * destruct (Hreach b c Hbc) as [? ?]; [by eauto|]. congruence.
      * eapply tc_l; [by apply Hedge|by apply IH].
Qed.

(** Each accepted node is the request with its key trimmed and its dependencies
    normalised. *)
Lemma add_step_accepted l acc acc' :
  fold_result add_step l acc = Ok acc' ->
  exists new, acc'.2 = acc.2 ++ new
    /\ Forall2 (fun iop sp => exists raw, iop.2 = OpAddNode raw
         /\ sp = with_key_deps raw (TrimSpace (sp_NodeKey raw)) (NormalizeDependsOn (sp_DependsOn raw))) l new.
Proof.
  revert acc. induction l as [|iop l IH]; intros acc H; simpl in H; simplify_eq.
  { exists []. by rewrite app_nil_r. }
  apply bind_Ok in H as (acc1 & Hs & H). apply IH in H as (new & -> & Hf). unfold add_step in Hs. go_ok.
  exists (x :: new). cbn [snd]. rewrite <- app_assoc. split; [done|]. constructor; [|done].
  unfold addNodeSpecFromOp in H. destruct (iop.2) as [|raw| | |] eqn:E; try done. case_match; [done|].
  simplify_eq. eauto.
Qed.

Lemma planAddNodeTopology_accepted specs adj acc :
  planAddNodeTopology (OpAddNode <$> specs) [] = Ok (adj, acc) ->
  acc = (fun raw => with_key_deps raw (TrimSpace (sp_NodeKey raw)) (NormalizeDependsOn (sp_DependsOn raw))) <$> specs.
Proof.
  unfold planAddNodeTopology. intros H. apply bind_Ok in H as ([[a k] acc'] & Hf & H).
  apply bind_Ok in H as ([] & _ & H). simplify_eq. apply add_step_accepted in Hf as (new & E & Hall). simpl in E. subst.
  assert (forall (l : list (nat * Op)) new, Forall2 (fun iop sp => exists raw, iop.2 = OpAddNode raw
         /\ sp = with_key_deps raw (TrimSpace (sp_NodeKey raw)) (NormalizeDependsOn (sp_DependsOn raw))) l new ->
         forall specs, l.*2 = OpAddNode <$> specs ->
         new = (fun raw => with_key_deps raw (TrimSpace (sp_NodeKey raw)) (NormalizeDependsOn (sp_DependsOn raw))) <$> specs) as H.
  { induction 1 as [|iop sp l tl (raw & E & ->) _ IH]; intros [|sp0 specs0] El; try done.
    rewrite !fmap_cons in El. injection El as E1 E2. rewrite E in E1. injection E1 as ->.
    rewrite fmap_cons. f_equal. by apply IH. }
  eapply H; [exact Hall|]. apply imap_pair_snd.
Qed.

Section create.
Context (map_keys : adjacency_map -> list string) (row_accepted : Node -> bool).
Context (map_keys_perm : forall m, map_keys m ≡ₚ keys m).

(** The dependency map after the node writes of a creation. *)
Definition overlay_request (m : adjacency_map) (nodes : list CreateDAGNodeRequest) : adjacency_map :=
  foldl (fun m n => <[TrimSpace (cn_NodeKey n) := cleanStringSlice (cn_DependsOn n)]> m) m nodes.

Lemma upsertDAGNodes_tracks dagKey nodes s u s' m :
  trimmed dagKey -> Forall (fun n => TrimSpace (cn_NodeKey n) <> EmptyString) nodes ->
  tracks (template dagKey s) m -> upsertDAGNodes row_accepted dagKey nodes s = Ok (u, s') ->
  tracks (template dagKey s') (overlay_request m nodes).
Proof.
  intros Htk Hne Ht H. assert (exists u', forM (dagNodeFromRequest dagKey <$> nodes) (upsertNodeTx row_accepted) s = Ok (u', s')) as [u' H'].
  { unfold upsertDAGNodes, BatchUpsertNodes in H. destruct nodes; tx_ok; exists tt; done. }
  clear H. revert s m Ht H'. induction nodes as [|n nodes IH]; intros s m Ht H; rewrite ?fmap_nil, ?fmap_cons in H; cbn [forM] in H; tx_ok; [done|].
  inversion Hne; subst. cbn [overlay_request foldl]. eapply IH; [done| |exact H].
  change (upsertNodeTx row_accepted) with (UpsertNode row_accepted) in *.
  apply UpsertNode_template in H0 as [H0 _]. cbn [nd_DagKey dagNodeFromRequest] in H0. rewrite Htk in H0. rewrite H0.
  rewrite <- (decode_dependsOnJSON (cn_DependsOn n)).
  change (dependsOnJSON (cn_DependsOn n)) with (nd_DependsOn (dagNodeFromRequest dagKey n)).
  change (TrimSpace (cn_NodeKey n)) with (nd_NodeKey (dagNodeFromRequest dagKey n)).
  apply upsert_tracks; [apply trimmed_TrimSpace|done|done].
Qed.

Lemma overlay_request_lookup nodes m k :
  NoDup ((fun n => TrimSpace (cn_NodeKey n)) <$> nodes) ->
  (forall n, n ∈ nodes -> TrimSpace (cn_NodeKey n) = k -> overlay_request m nodes !! k = Some (cleanStringSlice (cn_DependsOn n)))
  /\ (Forall (fun n => TrimSpace (cn_NodeKey n) <> k) nodes -> overlay_request m nodes !! k = m !! k).
Proof.
  revert m. induction nodes as [|n nodes IH]; intros m Hnd.
  { split; [by intros n ?%elem_of_nil|done]. }
  rewrite fmap_cons in Hnd. apply NoDup_cons in Hnd as [Hn Hnd]. cbn [overlay_request foldl].
  destruct (IH (<[TrimSpace (cn_NodeKey n) := cleanStringSlice (cn_DependsOn n)]> m) Hnd) as [IH1 IH2]. split.
  - intros n' [->|Hn']%elem_of_cons E; [|by apply IH1]. unfold overlay_request in IH2. rewrite IH2.
    + by rewrite E, lookup_insert_eq.
    + apply Forall_forall. intros n2 Hn2 E2. apply Hn. apply list_elem_of_fmap. exists n2. by rewrite E.
  - intros Hall. inversion Hall; subst. unfold overlay_request in IH2. rewrite IH2 by done. by apply lookup_insert_ne.
Qed.

Lemma ValidateCreateDAGNodes_spec nodes :
  ValidateCreateDAGNodes map_keys nodes = Ok tt ->
  exists adj, closed adj /\ acyclic adj
    /\ NoDup ((fun n => TrimSpace (cn_NodeKey n)) <$> nodes)
    /\ Forall (fun n => TrimSpace (cn_NodeKey n) <> EmptyString) nodes
    /\ (forall k ds, adj !! k = Some ds <-> exists n, n ∈ nodes /\ TrimSpace (cn_NodeKey n) = k /\ NormalizeDependsOn (cn_DependsOn n) = ds).
Proof.
  unfold ValidateCreateDAGNodes, ValidateAddNodeTopology. intros H. apply bind_Ok in H as ([] & H & _).
  apply bind_Ok in H as ([adj acc] & Htop & Hc). apply map_err_Ok in Hc.
  pose proof (planAddNodeTopology_accepted _ _ _ Htop) as Hacc. rewrite <- list_fmap_compose in Hacc.
  assert (closed (seedAdjacency []).1) as Hc0 by (by intros k ds d).
  pose proof (add_closed _ _ _ _ Htop Hc0) as Hcl.
  apply planAddNodeTopology_spec in Htop. cbv zeta in Htop. destruct Htop as (Hadj & Hok & Hnd & _ & _).
  assert (sp_NodeKey <$> acc = (fun n => TrimSpace (cn_NodeKey n)) <$> nodes) as Hkeys.
  { rewrite Hacc, <- list_fmap_compose. done. }
  rewrite Hkeys in Hnd. exists adj. split_and!; [done| |done| |].
  - by apply (DetectCycle_exact _ _ (map_keys_perm _)).
  - rewrite Forall_forall in Hok. apply Forall_forall. intros n Hn.
    assert (TrimSpace (cn_NodeKey n) ∈ (sp_NodeKey <$> acc)) as (sp & E & Hsp)%list_elem_of_fmap
      by (rewrite Hkeys; by apply (list_elem_of_fmap_2 (fun n => TrimSpace (cn_NodeKey n)))).
    rewrite E. by destruct (Hok sp Hsp) as (_ & ? & _).
  - assert (forall (l : list CreateDAGNodeRequest) (m : adjacency_map), NoDup ((fun n => TrimSpace (cn_NodeKey n)) <$> l) ->
      forall k ds, foldl apply_spec m ((fun n => with_key_deps (spec_of_request n) (TrimSpace (cn_NodeKey n)) (NormalizeDependsOn (cn_DependsOn n))) <$> l) !! k = Some ds
      <-> (exists n, n ∈ l /\ TrimSpace (cn_NodeKey n) = k /\ NormalizeDependsOn (cn_DependsOn n) = ds)
          \/ (Forall (fun n => TrimSpace (cn_NodeKey n) <> k) l /\ m !! k = Some ds)) as Hlk.
    { clear. induction l as [|n l IH]; intros m Hnd k ds.
      { simpl. split; [auto|]. by intros [(? & ?%elem_of_nil & _)|[_ ?]]. }
      rewrite fmap_cons in Hnd. apply NoDup_cons in Hnd as [Hn Hnd]. rewrite fmap_cons. cbn [foldl]. rewrite IH by done.
      unfold apply_spec at 1. cbn [sp_NodeKey sp_DependsOn with_key_deps]. split.
      - intros [(n' & ? & ?)|[Hall Hl]]; [left; exists n'; split; [by right|done]|].
        destruct (decide (TrimSpace (cn_NodeKey n) = k)) as [E|Hne].
        + rewrite E, lookup_insert_eq in Hl. left. exists n. split; [by left|]. by simplify_eq.
        + rewrite lookup_insert_ne in Hl by done. right. split; [by constructor|done].
      - intros [(n' & [->|Hn']%elem_of_cons & E & Hd)|[Hall Hl]].
        + right. split; [|by rewrite E, lookup_insert_eq, Hd]. apply Forall_forall. intros n2 Hn2 E2. apply Hn.
          apply list_elem_of_fmap. exists n2. by rewrite E.
        + left. eauto.
        + inversion Hall; subst. right. split; [done|]. by rewrite lookup_insert_ne. }
    intros k ds. rewrite Hadj, Hacc. specialize (Hlk nodes (seedAdjacency []).1 Hnd k ds). unfold compose. cbn beta.
    etrans; [exact Hlk|]. split; [|by auto]. intros [?|[_ ?]]; [done|]. done.
Qed.

Lemma upsertDAG_spec req s dag s' :
  upsertDAG req s = Ok (dag, s') ->
  dg_DagKey dag = TrimSpace (cr_DagKey req) /\ db_nodes s' = db_nodes s.
Proof.
  unfold upsertDAG, UpsertDAG, persistDAG. intros H. tx_ok. cbn [dg_DagKey] in *.
  apply GetDAG_Ok in H as [Hd ->]. split; [by apply find_dag_key in Hd|].
  case_match; unfold update_dags, sql_update in *; tx_ok;
    match goal with Hr : requireSingleAffectedRow _ _ _ = Ok _ |- _ => apply requireSingle_Ok in Hr as [_ ->] end; done.
Qed.

Lemma loadDAGDetail_spec dagKey s d s' :
  loadDAGDetail dagKey s = Ok (d, s') ->
  s' = s /\ d.2 = template (TrimSpace dagKey) s /\ find_dag (TrimSpace dagKey) s = Some d.1.
Proof.
  unfold loadDAGDetail, GetDAGVersion, ListNodes. intros H. tx_ok.
  repeat match goal with Hg : GetDAG _ _ = Ok _ |- _ => apply GetDAG_Ok in Hg as [Hg ->] end.
  match goal with Hf : find_dag (TrimSpace dagKey) _ = Some ?x |- _ => pose proof (find_dag_key _ _ _ Hf) as Hk end.
  simplify_eq/=. rewrite Hk. done.
Qed.

(** A successful CreateDAG leaves a well-formed template, also when the DAG
    exists already and the request overlays part of its nodes, whose keys and
    dependencies then change under the nodes that stay.  The answer lists exactly
    the stored template. *)
Theorem CreateDAG_preserves_template req s d s' :
  template_wf (template (TrimSpace (cr_DagKey req)) s) ->
  CreateDAG map_keys row_accepted req s = Ok (d, s') ->
  template_wf (template (TrimSpace (cr_DagKey req)) s')
  /\ d.2 = template (TrimSpace (cr_DagKey req)) s'.
Proof.
  intros [Hnd Hk Hcl Hac] H. unfold CreateDAG in H. tx_ok. apply map_err_Ok in H0.
  apply ValidateCreateDAGNodes_spec in H0 as (adj & Hcadj & Hacadj & Hndr & Hne & Hadj).
  apply upsertDAG_spec in H1 as [E1 E2]. rewrite E1 in *.
  pose proof (trimmed_TrimSpace (cr_DagKey req)) as Htk.
  apply loadDAGDetail_spec in H as (-> & Hd & _). rewrite Htk in Hd. split; [|exact Hd].
  eapply upsertDAGNodes_tracks in H2; [|done..|].
  2: { unfold template. rewrite E2. split; [exact Hnd|exact Hk|reflexivity]. }
  destruct H2 as [Hnd' Hk' Hm].
  destruct (overlay (adj_of (template (TrimSpace (cr_DagKey req)) s)) adj
    (overlay_request (adj_of (template (TrimSpace (cr_DagKey req)) s)) (cr_Nodes req))) as [Hc Ha]; [..|by split; [| |rewrite Hm..]].
  - intros k ds (n & Hn & <- & <-)%Hadj. eexists. split; [by apply overlay_request_lookup|].
    intros d0. apply clean_normalize.
  - intros k Hnone. apply overlay_request_lookup; [done|]. apply Forall_forall. intros n Hn E.
    assert (adj !! k = Some (NormalizeDependsOn (cn_DependsOn n))) as Hs by (apply Hadj; eauto). congruence.
  - done.
  - done.
  - done.
  - done.
Qed.
End create.

Definition without {A} (key : A -> string) (dagKey : string) (l : list A) : list A :=
  List.filter (fun x => negb (String.eqb (key x) dagKey)) l.

Definition has_running_run (dagKey : string) (s : db) : bool :=
  existsb (fun r => String.eqb (rn_DagKey r) dagKey && String.eqb (rn_Status r) "running") (db_runs s).

(** DeleteDAG on every path.  An empty key, a key without a DAG and a DAG with
    a running run are refused with their own errors and change nothing; in every
    other case the DAG row, its nodes, its runs and its wakeups are gone and every
    other row stays in its place. *)
Theorem DeleteDAG_spec reqKey s :
  DeleteDAG reqKey s =
  let dagKey := TrimSpace reqKey in
  if String.eqb dagKey EmptyString then Err (plain_error "orchestration: dag key is required")
  else match find_dag dagKey s with
       | None => Err (Errorf [ErrDAGNotFound] (Sprintf "dag_key=%s" [dagKey]))
       | Some _ =>
           if has_running_run dagKey s
           then Err (Errorf [ErrDAGAlreadyRunning] (Sprintf "dag_key=%s" [dagKey]))
           else Ok (tt, mkDB (without dg_DagKey dagKey (db_dags s)) (without nd_DagKey dagKey (db_nodes s))
                          (without rn_DagKey dagKey (db_runs s)) (without wk_DagKey dagKey (db_wakeups s)))
       end.
Proof.
  unfold DeleteDAG. cbv zeta. destruct (String.eqb_spec (TrimSpace reqKey) EmptyString) as [|Hne]; [done|].
  unfold store_DeleteDAG, lockDAGForDelete, CountRunningRunsByDagKey, GetDAG.
  rewrite (trimmed_TrimSpace reqKey). unfold mbind, M_bind, guardM, lift, get_db, fail, mret, M_ret.
  destruct (String.eqb_spec (TrimSpace reqKey) EmptyString) as [|_]; [done|]. cbn.
  destruct (find_dag (TrimSpace reqKey) s) as [d|] eqn:Hd; cbn; [|done].
  assert ((0 <? Z.of_nat (length (List.filter (fun r => String.eqb (rn_DagKey r) (TrimSpace reqKey)
    && String.eqb (rn_Status r) "running") (db_runs s))))%Z = has_running_run (TrimSpace reqKey) s) as ->.
  { unfold has_running_run. induction (db_runs s) as [|r l IH]; [done|]. simpl.
    destruct (_ && _); simpl; [apply Z.ltb_lt; lia|]. exact IH. }
  destruct (has_running_run (TrimSpace reqKey) s); cbn; [done|].
  unfold deleteDAGDependents, deleteDAGRow, sql_delete, mbind, M_bind, guardM, get_db, put_db. cbn.
  assert (exists n, length (List.filter (fun d => String.eqb (dg_DagKey d) (TrimSpace reqKey)) (db_dags s)) = S n) as [n ->].
  { unfold find_dag in Hd. apply find_some in Hd as [Hin Hk].
    destruct (List.filter _ _) as [|d' l] eqn:E; [|by eexists].
    assert (List.In d []) as []. rewrite <- E. by apply filter_In. }
  cbn. done.
Qed.

(** ** Concrete requests *)

Definition sample_request : CreateDAGRequest :=
  mkCreateReq " d" "t" EmptyString EmptyString RawEmpty
    [mkNodeReq " a " EmptyString "agent" EmptyString ["c"; " c"] [] [] EmptyString RawEmpty;
     mkNodeReq "c" EmptyString "agent" EmptyString [] [] [] EmptyString RawEmpty].

Definition created : result error (DAG * list Node * db) := CreateDAG keys (fun _ => true) sample_request sample_db.

Lemma CreateDAG_preserves_template_witness :
  exists d s', created = Ok (d, s') /\ template_wf (template (TrimSpace " d") s').
Proof.
  destruct created as [[d s']|e] eqn:E; [|exfalso; revert E; vm_compute; discriminate].
  exists d, s'. split; [reflexivity|].
  exact (proj1 (CreateDAG_preserves_template keys (fun _ => true) (fun m => Permutation_refl _)
    sample_request sample_db d s' sample_template_wf E)).
Defined.

(** Re-creating a DAG rewrites template rows without a new version: a batch built
    on version 3 before the re-creation still commits after it. *)
Example recreate_keeps_version :
  let s1 := match created with Ok (_, s) => s | Err _ => sample_db end in
  template "d" s1 <> template "d" sample_db
  /\ (exists v s2, sample_apply sample_title s1 = Ok (v, s2)).
Proof.
  split; [vm_compute; discriminate|].
  destruct (sample_apply sample_title (match created with Ok (_, s) => s | Err _ => sample_db end)) as [[v s2]|e] eqn:E;
    [eauto|exfalso; revert E; vm_compute; discriminate].
Qed.
