(* ===== verification/WakeupPayload.v ===== *)
(** * Wakeup payloads

    Models [store/taskdag/wakeup_payload.go] and the payload checks of
    [store_wakeup.go]: the tagged union a wakeup row carries, its strict decoding
    and the agreement of wakeup kind, payload branch and target agent.  The byte
    length of a JSON text is the argument [byte_len]: a message is modelled by its
    value.

    The theorems: a decoded payload has exactly one branch, a bounded trimmed agent
    and no [null] anywhere, and the payload the scheduler writes for an agent is
    accepted for that agent. *)

From S2P Require Import Prelude GoStrings Json NodeConfig.

Definition WakeupPayloadSchemaVersion1 : Z := 1.
Definition WakeupPayloadKindDownstream : string := "dag_downstream".
Definition WakeupPayloadKindLegacyLaunch : string := "legacy_launch".
Definition maxWakeupAgentIDBytes : nat := 256.
Definition maxWakeupPromptBytes : Z := 131072.
Definition maxWakeupPathBytes : Z := 4096.
Definition maxWakeupPayloadBytes : Z := 262144.
Definition maxWakeupUpstreamRefs : nat := 64.
Definition maxWakeupInternalTextBytes : Z := 4096.

Definition ErrInvalidWakeupPayload : string := "ErrInvalidWakeupPayload".

Definition bad_payload (format : string) (args : list string) : error :=
  Errorf [ErrInvalidWakeupPayload] (Sprintf format args).

Definition str_len (s : string) : Z := Z.of_nat (String.length s).

(** ** The two branches *)

Record DownstreamUpstreamRef := mkRef { ur_NodeKey : string; ur_Path : string }.

Record DownstreamWakeupPayload := mkDownstream {
  dw_WakeupPayloadKind : string; dw_SchemaVersion : Z; dw_AgentID : string;
  dw_UpstreamOutputs : list DownstreamUpstreamRef;
}.

Definition DownstreamUpstreamRef_t : gty := TStruct [("node_key", TString); ("path", TString)].

Definition DownstreamWakeupPayload_t : gty := TStruct [
  ("wakeup_payload_kind", TString); ("schema_version", TInt); ("agent_id", TString);
  ("upstream_outputs", TSlice DownstreamUpstreamRef_t)].

Record LegacyWakeupPayload := mkLegacy {
  lw_AgentID : string; lw_Name : string; lw_Prompt : string; lw_Instructions : string;
  lw_ParentID : string; lw_ParentThreadID : string; lw_ContextMode : string; lw_AgentType : string;
  lw_AgentKey : string; lw_PromptKey : string; lw_MemoryScope : string; lw_Cwd : string;
  lw_Language : string; lw_Command : list string; lw_Env : list string;
}.

(** The anonymous struct of the decoder with the embedded payload promoted. *)
Definition LegacyWakeupPayload_t : gty := TStruct [
  ("wakeup_payload_kind", TString); ("schema_version", TInt);
  ("agent_id", TString); ("name", TString); ("prompt", TString); ("instructions", TString);
  ("parent_id", TString); ("parent_thread_id", TString); ("context_mode", TString);
  ("agent_type", TString); ("agent_key", TString); ("prompt_key", TString);
  ("memory_scope", TString); ("cwd", TString); ("language", TString);
  ("command", TSlice TString); ("env", TSlice TString)].

Definition ref_of (v : gval) : DownstreamUpstreamRef :=
  mkRef (str_val (field "node_key" v)) (str_val (field "path" v)).

Definition downstream_of (v : gval) : DownstreamWakeupPayload :=
  mkDownstream (str_val (field "wakeup_payload_kind" v)) (int_val (field "schema_version" v))
    (str_val (field "agent_id" v)) (ref_of <$> slice_val (field "upstream_outputs" v)).

Definition legacy_of (v : gval) : LegacyWakeupPayload :=
  let s k := str_val (field k v) in
  mkLegacy (s "agent_id") (s "name") (s "prompt") (s "instructions") (s "parent_id")
    (s "parent_thread_id") (s "context_mode") (s "agent_type") (s "agent_key") (s "prompt_key")
    (s "memory_scope") (s "cwd") (s "language")
    (strs_val (field "command" v)) (strs_val (field "env" v)).

Record DecodedWakeupPayload := mkDecoded {
  dc_Kind : string; dc_SchemaVersion : Z;
  dc_Downstream : option DownstreamWakeupPayload; dc_Legacy : option LegacyWakeupPayload;
}.

(** [json.Marshal] writes a string with U+FFFD in place of every byte that is not UTF-8. *)
Definition JText (s : string) : json := JStr (encode_runes (runes s)).

(** [omitempty] drops an empty string and an empty slice. *)
Definition MarshalJSON (p : DownstreamWakeupPayload) : RawMessage :=
  let kind := if String.eqb (dw_WakeupPayloadKind p) EmptyString then WakeupPayloadKindDownstream
              else dw_WakeupPayloadKind p in
  let version := if (dw_SchemaVersion p =? 0)%Z then WakeupPayloadSchemaVersion1 else dw_SchemaVersion p in
  RawJSON (JObj ([("wakeup_payload_kind", JText kind); ("schema_version", JNum (pretty version))]
    ++ (if String.eqb (dw_AgentID p) EmptyString then [] else [("agent_id", JText (dw_AgentID p))])
    ++ (match dw_UpstreamOutputs p with
        | [] => []
        | refs => [("upstream_outputs",
            JArr ((fun r => JObj [("node_key", JText (ur_NodeKey r)); ("path", JText (ur_Path r))]) <$> refs))]
        end))).

(** ** Strict decoding *)

(** Duplicate keys at any depth, in document order. *)
Fixpoint scanJSONValue (j : json) : result error unit :=
  match j with
  | JArr l =>
      (fix go (l : list json) : result error unit :=
         match l with [] => Ok tt | x :: l => _ ← scanJSONValue x; go l end) l
  | JObj l =>
      (fix go (seen : list string) (l : list (string * json)) : result error unit :=
         match l with
         | [] => Ok tt
         | (k, x) :: l =>
             if str_in k seen then Err (Errorf [] (Sprintf "duplicate JSON field %q" [k]))
             else _ ← scanJSONValue x; go (k :: seen) l
         end) [] l
  | _ => Ok tt
  end.

Definition rejectDuplicateJSONKeys (raw : RawMessage) : result error unit :=
  match raw with RawJSON j => scanJSONValue j | _ => Err (plain_error "invalid JSON") end.

Definition jerr_error (e : jerr error) : error :=
  match e with
  | JUnknownField k => Errorf [] (Sprintf "json: unknown field %q" [k])
  | JCustom e => e
  | _ => plain_error "json: cannot unmarshal"
  end.

Definition decodeStrict (raw : RawMessage) (t : gty) : result error gval :=
  _ ← rejectDuplicateJSONKeys raw;
  map_err jerr_error (Unmarshal true no_custom t raw).

(** [null] anywhere in the value [encoding/json] decodes into [any]. *)
Fixpoint containsJSONNull (j : json) : bool :=
  match j with
  | JNull => true
  | JArr l => existsb containsJSONNull l
  | JObj l => existsb snd (map_of ((fun m => (m.1, containsJSONNull m.2)) <$> l))
  | _ => false
  end.

Definition rejectAnyJSONNull (raw : RawMessage) : result error unit :=
  match raw with
  | RawJSON j => guard_err (negb (containsJSONNull j)) (plain_error "JSON null is not allowed")
  | _ => Err (plain_error "invalid JSON")
  end.

(** The members of an object message; [null] is the nil map. *)
Definition raw_fields (raw : RawMessage) : option (list (string * json)) :=
  match raw with
  | RawJSON (JObj l) => Some (map_of l)
  | RawJSON JNull => Some []
  | _ => None
  end.

Definition rejectNullFields (raw : RawMessage) (names : list string) : result error unit :=
  match raw_fields raw with
  | None => Err (plain_error "invalid JSON")
  | Some fields =>
      fold_result (fun _ name =>
        match get name fields with
        | Some JNull => Err (Errorf [] (Sprintf "field %q must not be null" [name]))
        | _ => Ok tt
        end) names tt
  end.

(** A [null] header field leaves the zero value. *)
Definition wakeupPayloadHeader (raw : RawMessage) : result error (string * Z) :=
  match raw_fields raw with
  | None => Err (bad_payload "malformed JSON: %v" [])
  | Some fields =>
      kind ← match get "wakeup_payload_kind" fields with
             | None | Some JNull => Ok EmptyString
             | Some (JStr k) => Ok k
             | Some _ => Err (bad_payload "wakeup_payload_kind must be a string" [])
             end;
      version ← match get "schema_version" fields with
                | None | Some JNull => Ok 0%Z
                | Some (JNum n) =>
                    match parse_int64 n with
                    | Some z => Ok z
                    | None => Err (bad_payload "schema_version must be an integer" [])
                    end
                | Some _ => Err (bad_payload "schema_version must be an integer" [])
                end;
      Ok (TrimSpace kind, version)
  end.

Definition validateDownstreamFields (payload : DownstreamWakeupPayload) : result error unit :=
  _ ← guard_err (String.length (dw_AgentID payload) <=? maxWakeupAgentIDBytes)%nat
        (bad_payload "downstream agent_id exceeds %d bytes" [pretty maxWakeupAgentIDBytes]);
  _ ← guard_err (length (dw_UpstreamOutputs payload) <=? maxWakeupUpstreamRefs)%nat
        (bad_payload "downstream upstream_outputs exceeds %d entries" [pretty maxWakeupUpstreamRefs]);
  fold_result (fun _ ref =>
    if String.eqb (TrimSpace (ur_NodeKey ref)) EmptyString || String.eqb (TrimSpace (ur_Path ref)) EmptyString
    then Err (bad_payload "downstream upstream_outputs entries require node_key and path" [])
    else guard_err ((str_len (ur_NodeKey ref) <=? Z.of_nat maxWakeupAgentIDBytes)%Z
                    && (str_len (ur_Path ref) <=? maxWakeupPathBytes)%Z)
           (bad_payload "downstream upstream_outputs entry exceeds field bounds" []))
    (dw_UpstreamOutputs payload) tt.

Definition in_branch (name : string) (e : error) : error := bad_payload "%s: %v" [name; msg_format (err_msg e)].

Definition decodeDownstreamWakeupPayload (raw : RawMessage) : result error DownstreamWakeupPayload :=
  _ ← map_err (in_branch "downstream")
        (rejectNullFields raw ["wakeup_payload_kind"; "schema_version"; "agent_id"; "upstream_outputs"]);
  _ ← map_err (in_branch "downstream") (rejectAnyJSONNull raw);
  v ← map_err (in_branch "downstream") (decodeStrict raw DownstreamWakeupPayload_t);
  let payload := downstream_of v in
  if String.eqb (TrimSpace (dw_AgentID payload)) EmptyString
  then Err (bad_payload "downstream agent_id is required" [])
  else if negb (String.eqb (dw_AgentID payload) (TrimSpace (dw_AgentID payload)))
  then Err (bad_payload "downstream agent_id must not have surrounding whitespace" [])
  else _ ← validateDownstreamFields payload; Ok payload.

Definition decodeLegacyWakeupPayload (raw : RawMessage) : result error LegacyWakeupPayload :=
  _ ← map_err (in_branch "legacy")
        (rejectNullFields raw ["wakeup_payload_kind"; "schema_version"; "agent_id"; "prompt"]);
  _ ← map_err (in_branch "legacy") (rejectAnyJSONNull raw);
  v ← map_err (in_branch "legacy") (decodeStrict raw LegacyWakeupPayload_t);
  let payload := legacy_of v in
  if String.eqb (TrimSpace (lw_AgentID payload)) EmptyString
  then Err (bad_payload "legacy agent_id is required" [])
  else if negb (String.eqb (lw_AgentID payload) (TrimSpace (lw_AgentID payload)))
  then Err (bad_payload "legacy agent_id must not have surrounding whitespace" [])
  else if (maxWakeupAgentIDBytes <? String.length (lw_AgentID payload))%nat
          || (maxWakeupPromptBytes <? str_len (lw_Prompt payload))%Z
  then Err (bad_payload "legacy payload exceeds field bounds" [])
  else Ok payload.

Section lengths.
Context (byte_len : RawMessage -> Z).

Definition DecodeWakeupPayload (raw : RawMessage) : result error DecodedWakeupPayload :=
  _ ← guard_err (byte_len raw <=? maxWakeupPayloadBytes)%Z
        (bad_payload "payload exceeds %d bytes" [pretty maxWakeupPayloadBytes]);
  _ ← guard_err (match raw with RawEmpty => false | _ => true end) (bad_payload "payload is required" []);
  '(kind, schemaVersion) ← wakeupPayloadHeader raw;
  if String.eqb kind EmptyString then Err (bad_payload "wakeup_payload_kind is required" [])
  else if negb (schemaVersion =? WakeupPayloadSchemaVersion1)%Z
  then Err (bad_payload "unsupported schema_version %d" [pretty schemaVersion])
  else if String.eqb kind WakeupPayloadKindDownstream then
    payload ← decodeDownstreamWakeupPayload raw;
    Ok (mkDecoded kind schemaVersion (Some payload) None)
  else if String.eqb kind WakeupPayloadKindLegacyLaunch then
    legacy ← decodeLegacyWakeupPayload raw;
    Ok (mkDecoded kind schemaVersion None (Some legacy))
  else Err (bad_payload "unknown wakeup_payload_kind %q" [kind]).

(** ** Kind, branch and target of a wakeup *)

Definition payload_agent (d : DecodedWakeupPayload) : string :=
  match dc_Downstream d, dc_Legacy d with
  | Some p, _ => dw_AgentID p
  | None, Some p => lw_AgentID p
  | None, None => EmptyString
  end.

Definition validateWakeupPayloadBranch (payload : RawMessage) (targetAgentID wantKind : string)
  : result error unit :=
  decoded ← DecodeWakeupPayload payload;
  if negb (String.eqb (dc_Kind decoded) wantKind)
  then Err (bad_payload "wakeup_kind requires payload kind %q, got %q" [wantKind; dc_Kind decoded])
  else
    let payloadAgentID := payload_agent decoded in
    guard_err (negb (String.eqb targetAgentID EmptyString)
               && String.eqb targetAgentID (TrimSpace targetAgentID)
               && negb (String.eqb payloadAgentID EmptyString)
               && String.eqb payloadAgentID (TrimSpace payloadAgentID)
               && String.eqb payloadAgentID targetAgentID)
      (bad_payload "target_agent_id %q disagrees with payload agent_id %q" [targetAgentID; payloadAgentID]).

Definition validateInternalObjectPayload (payload : RawMessage) : result error unit :=
  v ← map_err (in_branch "internal payload") (decodeStrict payload (TMap TRaw));
  guard_err (match v with VMap (Some _) => true | _ => false end)
    (bad_payload "internal payload object required" []).

Definition compensation_t : gty := TStruct [
  ("reason", TPtr TString); ("store_error", TPtr TString); ("fail_fast", TPtr TBool)].

Definition validateInternalWakeupPayload (targetAgentID : string) (payload : RawMessage) (terminal : bool)
  : result error unit :=
  _ ← guard_err (String.eqb targetAgentID "mcp-orch")
        (bad_payload "internal wakeup target must be mcp-orch" []);
  _ ← guard_err (byte_len payload <=? maxWakeupPayloadBytes)%Z
        (bad_payload "internal payload exceeds %d bytes" [pretty maxWakeupPayloadBytes]);
  if negb terminal then validateInternalObjectPayload payload
  else
    v ← map_err (in_branch "terminal compensation") (decodeStrict payload compensation_t);
    match ptr_val (field "reason" v), ptr_val (field "store_error" v), ptr_val (field "fail_fast" v) with
    | Some reason, Some storeError, Some _ =>
        guard_err ((str_len (str_val reason) <=? maxWakeupInternalTextBytes)%Z
                   && (str_len (str_val storeError) <=? maxWakeupInternalTextBytes)%Z)
          (bad_payload "terminal compensation text exceeds %d bytes" [pretty maxWakeupInternalTextBytes])
    | _, _, _ => Err (bad_payload "terminal compensation fields are required" [])
    end.

Definition validateEnqueueWakeupPayload (kind targetAgentID : string) (payload : RawMessage)
  : result error unit :=
  if String.eqb kind "turn_complete_retry" then validateInternalWakeupPayload targetAgentID payload false
  else if String.eqb kind "terminal_failure_compensation" then validateInternalWakeupPayload targetAgentID payload true
  else if str_in kind ["node_start"; "manual_dispatch"]
  then validateWakeupPayloadBranch payload targetAgentID WakeupPayloadKindDownstream
  else if String.eqb kind "start" then validateWakeupPayloadBranch payload targetAgentID WakeupPayloadKindLegacyLaunch
  else Err (bad_payload "unknown wakeup_kind %q" [kind]).

Definition ValidateWakeupPayloadForKind := validateEnqueueWakeupPayload.
End lengths.

Definition has_nul (s : string) : bool := negb (str_forall (fun a => negb (N_of_ascii a =? 0)%N) s).

Definition validateWakeupIdempotencyKey (value : string) : result error unit :=
  if String.eqb (TrimSpace value) EmptyString
  then Err (plain_error "enqueue task dag wakeup: idempotency_key required")
  else if negb (String.eqb value (TrimSpace value))
  then Err (plain_error "enqueue task dag wakeup: idempotency_key must not have surrounding whitespace")
  else if (512 <? str_len value)%Z || has_nul value
  then Err (plain_error "enqueue task dag wakeup: idempotency_key is invalid")
  else Ok tt.

Definition validateWakeupWorkerID (value : string) : result error unit :=
  if String.eqb (TrimSpace value) EmptyString
  then Err (plain_error "claim task dag wakeup: claimed_by required")
  else if negb (String.eqb value (TrimSpace value)) || (256 <? str_len value)%Z || has_nul value
  then Err (plain_error "claim task dag wakeup: claimed_by is invalid")
  else Ok tt.

Example decode_payload_ex :
  DecodeWakeupPayload (fun _ => 0%Z) (MarshalJSON (mkDownstream EmptyString 0 "w1" []))
  = Ok (mkDecoded "dag_downstream" 1 (Some (mkDownstream "dag_downstream" 1 "w1" [])) None).
Proof. vm_compute. reflexivity. Qed.

(** ** A decoded payload *)

(** No [null] at any depth, repeated members included. *)
Fixpoint null_free (j : json) : bool :=
  match j with
  | JNull => false
  | JArr l => forallb null_free l
  | JObj l => forallb (fun m => null_free m.2) l
  | _ => true
  end.

Definition good_agent (agent : string) : Prop :=
  trimmed agent /\ agent <> EmptyString /\ String.length agent <= maxWakeupAgentIDBytes.

Definition good_ref (r : DownstreamUpstreamRef) : Prop :=
  TrimSpace (ur_NodeKey r) <> EmptyString /\ TrimSpace (ur_Path r) <> EmptyString
  /\ (str_len (ur_NodeKey r) <= Z.of_nat maxWakeupAgentIDBytes)%Z
  /\ (str_len (ur_Path r) <= maxWakeupPathBytes)%Z.

Lemma set_fresh {A} k (v : A) l : k ∉ l.*1 -> set k v l = l ++ [(k, v)].
Proof.
  induction l as [|[k' v'] l IH]; simpl; [done|]. intros H. destruct (String.eqb_spec k' k) as [->|Hne]; [set_solver|].
  f_equal. apply IH. set_solver.
Qed.

Lemma map_of_nodup {A} (l : list (string * A)) : NoDup l.*1 -> map_of l = l.
Proof.
  unfold map_of. enough (forall acc, NoDup (acc ++ l).*1 -> foldl (fun m kv => set kv.1 kv.2 m) acc l = acc ++ l) as H
    by (intros Hl; by rewrite (H [])).
  induction l as [|[k v] l IH]; intros acc Hnd; [by rewrite app_nil_r|]. simpl.
  rewrite set_fresh.
  - rewrite IH; rewrite <- app_assoc; done.
  - rewrite fmap_app in Hnd. apply NoDup_app in Hnd as (_ & Hd & _). intros Hin. apply (Hd k Hin). set_solver.
Qed.

(** Without repeated members the two searches for [null] agree. *)
Lemma contains_null_free j : scanJSONValue j = Ok tt -> containsJSONNull j = false -> null_free j = true.
Proof.
  induction j as [| | | |l IH|l IH] using json_ind'; intros Hs Hc; try done.
  - simpl in *. induction IH as [|x l Hx _ IHl]; [done|]. apply bind_Ok in Hs as ([] & Hx1 & Hs).
    simpl in *. apply orb_false_iff in Hc as [Hc1 Hc2]. rewrite Hx by done. by apply IHl.
  - cbn [scanJSONValue] in Hs. cbn [containsJSONNull] in Hc. cbn [null_free].
    match type of Hs with ?g [] l = _ => set (go := g) in Hs end.
    assert (forall seen, go seen l = Ok tt -> NoDup l.*1 /\ (forall k, k ∈ l.*1 -> k ∉ seen)
      /\ Forall (fun m => scanJSONValue m.2 = Ok tt) l) as Hgo.
    { clear. induction l as [|[k x] l IHl]; intros seen H; [split_and!; [constructor|set_solver|constructor]|].
      cbn in H. fold go in H. destruct (str_in k seen) eqn:Hk; [done|].
      apply bind_Ok in H as ([] & Hx & H). apply IHl in H as (Hnd & Hseen & Hall).
      assert (k ∉ seen) as Hk' by (by rewrite <- str_in_elem, Hk). split_and!.
      - rewrite fmap_cons. apply NoDup_cons. split; [|done]. intros Hin. apply (Hseen k Hin). by left.
      - intros k' Hk2. rewrite fmap_cons in Hk2. apply elem_of_cons in Hk2 as [->|Hk2]; [done|].
        intros Hin. apply (Hseen k' Hk2). by right.
      - constructor; done. }
    apply Hgo in Hs as (Hnd & _ & Hall).
    rewrite map_of_nodup in Hc by (rewrite <- list_fmap_compose; exact Hnd).
    apply forallb_forall. intros [k x] Hin. simpl. apply list_elem_of_In in Hin.
    rewrite Forall_forall in IH, Hall. apply (IH (k, x) Hin); [by apply (Hall (k, x))|].
    cbn [snd]. destruct (containsJSONNull x) eqn:E; [|done].
    exfalso. rewrite <- not_true_iff_false in Hc. apply Hc. apply existsb_exists. exists (k, true). split; [|done].
    apply list_elem_of_In, list_elem_of_fmap. exists (k, x). cbn [fst snd]. by rewrite E.
Qed.

Lemma decoded_null_free raw t v :
  rejectAnyJSONNull raw = Ok tt -> decodeStrict raw t = Ok v -> exists j, raw = RawJSON j /\ null_free j = true.
Proof.
  unfold rejectAnyJSONNull, decodeStrict, rejectDuplicateJSONKeys. destruct raw as [| |j]; try done.
  intros Hn H. apply bind_Ok in H as ([] & Hs & _). exists j. split; [done|].
  apply contains_null_free; [done|]. unfold guard_err in Hn. by destruct (containsJSONNull j).
Qed.

(** What a wakeup payload is after decoding.  A payload DecodeWakeupPayload
    accepts is one JSON value without null at any depth, of schema version 1 and
    within the size bound; it has exactly one of the two branches, the one its kind
    names, and the agent of that branch is non-empty, trimmed and at most 256
    bytes. *)
Theorem DecodeWakeupPayload_sound byte_len raw d :
  DecodeWakeupPayload byte_len raw = Ok d ->
  (byte_len raw <= maxWakeupPayloadBytes)%Z
  /\ (exists j, raw = RawJSON j /\ null_free j = true)
  /\ dc_SchemaVersion d = WakeupPayloadSchemaVersion1
  /\ good_agent (payload_agent d)
  /\ ((dc_Kind d = WakeupPayloadKindDownstream /\ is_Some (dc_Downstream d) /\ dc_Legacy d = None)
      \/ (dc_Kind d = WakeupPayloadKindLegacyLaunch /\ dc_Downstream d = None /\ is_Some (dc_Legacy d))).
Proof.
  unfold DecodeWakeupPayload. intros H. apply bind_Ok in H as ([] & Hlen & H). apply bind_Ok in H as ([] & _ & H).
  apply bind_Ok in H as ([kind version] & _ & H). unfold guard_err in Hlen.
  destruct (byte_len raw <=? maxWakeupPayloadBytes)%Z eqn:El; [|done]. apply Z.leb_le in El.
  destruct (String.eqb kind EmptyString); [done|]. destruct (version =? WakeupPayloadSchemaVersion1)%Z eqn:Ev; [|done].
  apply Z.eqb_eq in Ev. simpl in H.
  destruct (String.eqb_spec kind WakeupPayloadKindDownstream) as [Ek|_].
  - apply bind_Ok in H as (p & Hp & H). simplify_eq/=. unfold decodeDownstreamWakeupPayload in Hp.
    apply bind_Ok in Hp as ([] & _ & Hp). apply bind_Ok in Hp as ([] & Hn & Hp). apply bind_Ok in Hp as (v & Hv & Hp).
    apply map_err_Ok in Hn, Hv. destruct (String.eqb_spec (TrimSpace (dw_AgentID (downstream_of v))) EmptyString) as [|Hne]; [done|].
    destruct (String.eqb_spec (dw_AgentID (downstream_of v)) (TrimSpace (dw_AgentID (downstream_of v)))) as [Ht|]; [|done].
    simpl in Hp. apply bind_Ok in Hp as ([] & Hf & Hp). simplify_eq.
    split_and!; [done|by eapply decoded_null_free|done| |by left].
    unfold payload_agent. cbn [dc_Downstream]. split_and!; [done|congruence|].
    unfold validateDownstreamFields in Hf. apply bind_Ok in Hf as ([] & Hf & _). unfold guard_err in Hf.
    destruct (_ <=? _)%nat eqn:E in Hf; [|done]. by apply Nat.leb_le in E.
  - destruct (String.eqb_spec kind WakeupPayloadKindLegacyLaunch) as [Ek|_]; [|done].
    apply bind_Ok in H as (p & Hp & H). simplify_eq/=. unfold decodeLegacyWakeupPayload in Hp.
    apply bind_Ok in Hp as ([] & _ & Hp). apply bind_Ok in Hp as ([] & Hn & Hp). apply bind_Ok in Hp as (v & Hv & Hp).
    apply map_err_Ok in Hn, Hv. destruct (String.eqb_spec (TrimSpace (lw_AgentID (legacy_of v))) EmptyString) as [|Hne]; [done|].
    destruct (String.eqb_spec (lw_AgentID (legacy_of v)) (TrimSpace (lw_AgentID (legacy_of v)))) as [Ht|]; [|done].
    cbn [negb] in Hp. destruct (_ || _) eqn:Eb in Hp; [done|]. simplify_eq. apply orb_false_iff in Eb as [Eb _].
    split_and!; [done|by eapply decoded_null_free|done| |by right].
    unfold payload_agent. cbn [dc_Downstream dc_Legacy]. split_and!; [done|congruence|]. apply Nat.ltb_ge in Eb. done.
Qed.

(** ** What the scheduler writes *)

Definition ref_json (r : DownstreamUpstreamRef) : json :=
  JObj [("node_key", JStr (ur_NodeKey r)); ("path", JStr (ur_Path r))].

Definition ref_val (r : DownstreamUpstreamRef) : gval :=
  VStruct [("node_key", VStr (ur_NodeKey r)); ("path", VStr (ur_Path r))].

(** The document of a payload of schema version 1. *)
Definition downstream_doc (agent : string) (refs : list DownstreamUpstreamRef) : json :=
  JObj ([("wakeup_payload_kind", JStr WakeupPayloadKindDownstream); ("schema_version", JNum "1");
         ("agent_id", JStr agent)]
        ++ (if decide (refs = []) then [] else [("upstream_outputs", JArr (ref_json <$> refs))])).

Lemma scan_refs refs : scanJSONValue (JArr (ref_json <$> refs)) = Ok tt.
Proof. induction refs as [|r refs IH]; [done|]. simpl in *. exact IH. Qed.

Lemma refs_null_free refs : existsb containsJSONNull (ref_json <$> refs) = false.
Proof. by induction refs. Qed.

Lemma decode_refs refs cur :
  decode (C := error) true no_custom (TSlice DownstreamUpstreamRef_t) (JArr (ref_json <$> refs)) cur
  = Ok (VSlice (Some (ref_val <$> refs))).
Proof.
  cbn -[DownstreamUpstreamRef_t saved]. match goal with |- context [?g (ref_json <$> refs)] =>
    lazymatch type of g with list json -> _ => set (go := g) end end.
  assert (go (ref_json <$> refs) = Ok (ref_val <$> refs)) as ->; [|done].
  induction refs as [|r refs IH]; [done|]. rewrite !fmap_cons. cbn. fold go. by rewrite IH.
Qed.

Lemma decode_doc agent refs :
  decodeStrict (RawJSON (downstream_doc agent refs)) DownstreamWakeupPayload_t
  = Ok (VStruct [("wakeup_payload_kind", VStr WakeupPayloadKindDownstream); ("schema_version", VInt 1);
                 ("agent_id", VStr agent);
                 ("upstream_outputs", VSlice (if decide (refs = []) then None else Some (ref_val <$> refs)))]).
Proof.
  unfold decodeStrict, rejectDuplicateJSONKeys, downstream_doc. destruct (decide (refs = [])) as [->|Hne]; [done|].
  cbn -[scanJSONValue decode].
  assert (scanJSONValue (JObj [("wakeup_payload_kind", JStr WakeupPayloadKindDownstream); ("schema_version", JNum "1");
    ("agent_id", JStr agent); ("upstream_outputs", JArr (ref_json <$> refs))]) = Ok tt) as ->.
  { pose proof (scan_refs refs) as H. cbn in *. by rewrite H. }
  pose proof (decode_refs refs (VSlice None)) as H.
  cbn -[DownstreamUpstreamRef_t saved] in *.
  match goal with |- context [?g (ref_json <$> refs)] => lazymatch type of g with list json -> _ => set (go := g) in * end end.
  destruct (go (ref_json <$> refs)) eqn:E; [|done]. cbn in *. by simplify_eq.
Qed.

Lemma good_refs_valid agent refs :
  String.length agent <= maxWakeupAgentIDBytes -> length refs <= maxWakeupUpstreamRefs -> Forall good_ref refs ->
  validateDownstreamFields (mkDownstream WakeupPayloadKindDownstream 1 agent refs) = Ok tt.
Proof.
  intros Ha Hl Hr. unfold validateDownstreamFields. cbn [dw_AgentID dw_UpstreamOutputs].
  apply Nat.leb_le in Ha, Hl. rewrite Ha, Hl. cbn -[fold_result]. clear Ha Hl.
  induction Hr as [|r refs (H1 & H2 & H3 & H4) _ IH]; [done|]. cbn [fold_result].
  destruct (String.eqb_spec (TrimSpace (ur_NodeKey r)) EmptyString); [done|].
  destruct (String.eqb_spec (TrimSpace (ur_Path r)) EmptyString); [done|].
  apply Z.leb_le in H3, H4. rewrite H3, H4. cbn. exact IH.
Qed.

(** C40: the payload round trip.  A downstream payload of UTF-8 strings without a kind and a version, for a non-empty trimmed agent
    of at most 256 bytes, with at most 64 upstream references that are not blank and within their bounds, encodes to a
    message which, when it is not above the limit of bytes, decodes to the same agent and references with the
    kind and the version of a downstream payload, and which the enqueue
    check accepts for automatic and manual dispatch to this agent. *)
Theorem payload_roundtrip byte_len agent refs kind :
  good_agent agent -> utf8_valid agent -> length refs <= maxWakeupUpstreamRefs -> Forall good_ref refs ->
  Forall (fun r => utf8_valid (ur_NodeKey r) /\ utf8_valid (ur_Path r)) refs ->
  kind = "node_start" \/ kind = "manual_dispatch" ->
  let raw := MarshalJSON (mkDownstream EmptyString 0 agent refs) in
  (byte_len raw <= maxWakeupPayloadBytes)%Z ->
  DecodeWakeupPayload byte_len raw
    = Ok (mkDecoded WakeupPayloadKindDownstream 1
            (Some (mkDownstream WakeupPayloadKindDownstream 1 agent refs)) None)
  /\ validateEnqueueWakeupPayload byte_len kind agent raw = Ok tt.
Proof.
  intros (Ht & Hne & Hlen) Hutf Hrefs Hgood Hutfs Hkind raw Hbytes.
  assert (raw = RawJSON (downstream_doc agent refs)) as Hraw.
  { unfold raw, MarshalJSON, downstream_doc. cbn [dw_AgentID dw_UpstreamOutputs dw_WakeupPayloadKind dw_SchemaVersion].
    destruct (String.eqb_spec agent EmptyString); [done|]. unfold JText. rewrite Hutf.
    assert ((fun r => JObj [("node_key", JStr (encode_runes (runes (ur_NodeKey r)))); ("path", JStr (encode_runes (runes (ur_Path r))))]) <$> refs
            = (fun r => JObj [("node_key", JStr (ur_NodeKey r)); ("path", JStr (ur_Path r))]) <$> refs) as Hlist.
    { apply list_fmap_ext. intros i r Hr%list_elem_of_lookup_2. rewrite Forall_forall in Hutfs. destruct (Hutfs r Hr) as [E1 E2]. by rewrite E1, E2. }
    destruct refs as [|r refs']; [reflexivity|]. by rewrite Hlist. }
  assert (DecodeWakeupPayload byte_len raw = Ok (mkDecoded WakeupPayloadKindDownstream 1
    (Some (mkDownstream WakeupPayloadKindDownstream 1 agent refs)) None)) as Hdec.
  { unfold DecodeWakeupPayload. apply Z.leb_le in Hbytes. rewrite Hbytes, Hraw. cbn [guard_err mbind result_bind].
    assert (wakeupPayloadHeader (RawJSON (downstream_doc agent refs)) = Ok (WakeupPayloadKindDownstream, 1%Z)) as ->.
    { unfold wakeupPayloadHeader, downstream_doc, raw_fields. destruct (decide (refs = [])); done. }
    cbn -[decodeDownstreamWakeupPayload]. unfold decodeDownstreamWakeupPayload. rewrite decode_doc.
    assert (rejectNullFields (RawJSON (downstream_doc agent refs))
      ["wakeup_payload_kind"; "schema_version"; "agent_id"; "upstream_outputs"] = Ok tt) as ->
      by (unfold downstream_doc; by destruct (decide (refs = []))).
    assert (rejectAnyJSONNull (RawJSON (downstream_doc agent refs)) = Ok tt) as ->.
    { unfold rejectAnyJSONNull, downstream_doc. destruct (decide (refs = [])); [done|]. cbn. by rewrite refs_null_free. }
    cbn -[validateDownstreamFields TrimSpace].
    assert (downstream_of (VStruct [("wakeup_payload_kind", VStr WakeupPayloadKindDownstream); ("schema_version", VInt 1);
      ("agent_id", VStr agent); ("upstream_outputs", VSlice (if decide (refs = []) then None else Some (ref_val <$> refs)))])
      = mkDownstream WakeupPayloadKindDownstream 1 agent refs) as ->.
    { unfold downstream_of. cbn. f_equal. destruct (decide (refs = [])) as [->|]; [done|]. cbn.
      rewrite <- list_fmap_compose. transitivity (id <$> refs); [|by rewrite list_fmap_id].
      apply list_fmap_ext. by intros i [? ?] _. }
    cbn -[validateDownstreamFields TrimSpace]. rewrite Ht.
    destruct (String.eqb_spec agent EmptyString); [done|]. rewrite String.eqb_refl. cbn -[validateDownstreamFields].
    by rewrite good_refs_valid. }
  split; [exact Hdec|].
  assert (validateWakeupPayloadBranch byte_len raw agent WakeupPayloadKindDownstream = Ok tt) as Hv.
  { unfold validateWakeupPayloadBranch. rewrite Hdec. cbn -[TrimSpace]. rewrite Ht, String.eqb_refl.
    by destruct (String.eqb_spec agent EmptyString). }
  unfold validateEnqueueWakeupPayload. by destruct Hkind as [->| ->].
Qed.

Definition doc_bytes (raw : RawMessage) : Z := 100.

Lemma payload_roundtrip_witness :
  let raw := MarshalJSON (mkDownstream EmptyString 0 "worker-1" [mkRef "a" "dag/a.md"]) in
  validateEnqueueWakeupPayload doc_bytes "node_start" "worker-1" raw = Ok tt.
Proof.
  refine (proj2 (payload_roundtrip doc_bytes "worker-1" [mkRef "a" "dag/a.md"] "node_start" _ _ _ _ _ _ _)).
  - split; [reflexivity|split; [discriminate|vm_compute; lia]].
  - vm_compute. reflexivity.
  - vm_compute. lia.
  - constructor; [|constructor]. split; [discriminate|split; [discriminate|split; vm_compute; discriminate]].
  - constructor; [|constructor]. split; vm_compute; reflexivity.
  - left. reflexivity.
  - vm_compute. discriminate.
Defined.

Lemma DecodeWakeupPayload_sound_witness :
  let raw := RawJSON (JObj [("schema_version", JNum "1"); ("wakeup_payload_kind", JStr "legacy_launch");
                            ("agent_id", JStr "w"); ("prompt", JStr "go")]) in
  exists d, DecodeWakeupPayload doc_bytes raw = Ok d /\ good_agent (payload_agent d).
Proof.
  intros raw. destruct (DecodeWakeupPayload doc_bytes raw) as [d|e] eqn:E; [|exfalso; revert E; vm_compute; discriminate].
  exists d. split; [reflexivity|].
  exact (proj1 (proj2 (proj2 (proj2 (DecodeWakeupPayload_sound doc_bytes raw d E))))).
Defined.
