(* ===== verification/RunStore.v ===== *)
(** * Runs: the runtime side of the task DAG store

    Models the transactions that move the nodes of a run: starting
    ([store_run.go], [store_root_wakeup.go]), completing and scheduling downstream
    ([store_complete_downstream.go]), failing with its cascade
    ([store_fail_downstream.go]), terminating, the run events
    ([store_run_events.go]) and the automatic dispatch checks
    ([store_dispatch_guard.go]), with the SQL statements they issue.

    The arguments of the section are the parts outside the model: the byte length
    of a message, the clock as text and as milliseconds, and whether a JSON column
    takes a value (its CHECK and NOT NULL constraints). *)

From S2P Require Import Prelude GoStrings Json NodeConfig DagStore WakeupPayload.

Definition ErrUnique : string := "ErrUnique".

Definition requireRuntimeRunID (op : string) (runID : Z) : M unit :=
  guardM (0 <? runID)%Z (Errorf [] (Sprintf "%s: run_id required" [op])).

Definition runIDValue (runID : option Z) : Z := default 0%Z runID.

(** ** Rows of a run *)

Definition run_of (dagKey : string) (runID : Z) (n : Node) : bool :=
  String.eqb (nd_DagKey n) dagKey && match nd_RunID n with Some r => (r =? runID)%Z | None => false end.

Definition run_node (dagKey nodeKey : string) (runID : Z) (n : Node) : bool :=
  run_of dagKey runID n && String.eqb (nd_NodeKey n) nodeKey.

Definition run_row (dagKey : string) (runID : Z) (r : Run) : bool :=
  String.eqb (rn_DagKey r) dagKey && (rn_ID r =? runID)%Z.

Definition running_row (dagKey : string) (runID : Z) (r : Run) : bool :=
  run_row dagKey runID r && String.eqb (rn_Status r) "running".

Definition ListRunNodes (dagKey : string) (runID : Z) : M (list Node) :=
  s ← get_db; mret (List.filter (run_of dagKey runID) (db_nodes s)).

Definition GetTaskDagRunNodeForUpdate (dagKey nodeKey : string) (runID : Z) : M Node :=
  s ← get_db;
  lift (match List.find (fun n => run_node dagKey nodeKey runID n && (0 <? runID)%Z) (db_nodes s) with
        | Some n => Ok n | None => Err not_found end).

Definition GetTaskDagWakeup (id : Z) : M (option Wakeup) :=
  s ← get_db; mret (List.find (fun w => (wk_ID w =? id)%Z) (db_wakeups s)).

Definition update_runs (where_ : Run -> bool) (set_ : Run -> Run) : M nat :=
  s ← get_db;
  let '(rows, n) := sql_update where_ set_ (db_runs s) in
  _ ← put_db (with_runs s rows); mret n.

Definition update_wakeups (where_ : Wakeup -> bool) (set_ : Wakeup -> Wakeup) : M nat :=
  s ← get_db;
  let '(rows, n) := sql_update where_ set_ (db_wakeups s) in
  _ ← put_db (with_wakeups s rows); mret n.

(** A node row after a write of its status. *)
Definition set_status (status : string) (n : Node) : Node :=
  mkNode (nd_DagKey n) (nd_NodeKey n) (nd_RunID n) (nd_Title n) (nd_NodeType n) (nd_AssignedTo n)
    (nd_DependsOn n) (nd_Reads n) (nd_Writes n) status (nd_CommandRef n) (nd_Config n) (nd_Result n)
    (nd_ActiveTurnID n) (nd_ActiveWakeupID n) (nd_SpawningThreadID n).

Definition set_result (result : RawMessage) (n : Node) : Node :=
  mkNode (nd_DagKey n) (nd_NodeKey n) (nd_RunID n) (nd_Title n) (nd_NodeType n) (nd_AssignedTo n)
    (nd_DependsOn n) (nd_Reads n) (nd_Writes n) (nd_Status n) (nd_CommandRef n) (nd_Config n) result
    (nd_ActiveTurnID n) (nd_ActiveWakeupID n) (nd_SpawningThreadID n).

Definition set_active (turn : option string) (wakeup : option Z) (n : Node) : Node :=
  mkNode (nd_DagKey n) (nd_NodeKey n) (nd_RunID n) (nd_Title n) (nd_NodeType n) (nd_AssignedTo n)
    (nd_DependsOn n) (nd_Reads n) (nd_Writes n) (nd_Status n) (nd_CommandRef n) (nd_Config n) (nd_Result n)
    turn wakeup (nd_SpawningThreadID n).

Definition set_run (status : string) (events metadata : RawMessage) (r : Run) : Run :=
  mkRun (rn_ID r) (rn_RunKey r) (rn_DagKey r) (rn_DagVersionSnapshot r) (rn_TriggerSource r)
    status events metadata.

Definition terminal_statuses : list string := ["done"; "failed"; "cancelled"; "skipped"].

(** A new [INTEGER PRIMARY KEY]: one above the largest in use. *)
Definition next_id (ids : list Z) : Z := 1 + foldr Z.max 0%Z ids.

(** ** Dependencies *)

Definition terminalSuccessStatus : string := "done".
Definition downstreamWakeupKind : string := "node_start".

Definition store_decodeDependsOn (raw : RawMessage) : result error (list string) :=
  match raw with
  | RawEmpty => Ok []
  | _ => match unmarshal_strings raw with
         | Some deps => Ok deps
         | None => Err (plain_error "json: cannot unmarshal depends_on")
         end
  end.

Definition dependsOnIncludes (deps : list string) (nodeKey : string) : bool :=
  existsb (fun d => String.eqb (TrimSpace d) nodeKey) deps.

Definition allDependenciesSatisfied (deps : list string) (statusByKey : gmap string string) : bool :=
  forallb (fun d => let d := TrimSpace d in
    String.eqb d EmptyString || String.eqb (default EmptyString (statusByKey !! d)) terminalSuccessStatus) deps.

Definition decode_error (n : Node) (e : error) : error :=
  Errorf (err_is e) (Sprintf "decode depends_on for %s/%s: %w" [nd_DagKey n; nd_NodeKey n]).

Definition dependsSatisfiedForUpstream (cand : Node) (completedKey : string)
    (statusByKey : gmap string string) : result error bool :=
  if negb (String.eqb (nd_Status cand) "pending") then Ok false
  else
    deps ← map_err (decode_error cand) (store_decodeDependsOn (nd_DependsOn cand));
    Ok (dependsOnIncludes deps completedKey && allDependenciesSatisfied deps statusByKey).

Definition downstreamIdempotencyKey (dagKey nodeKey : string) (runID : Z) : string :=
  if (0 <? runID)%Z
  then "dag/" +:+ dagKey +:+ "/run/" +:+ pretty runID +:+ "/" +:+ nodeKey +:+ "/start"
  else "dag/" +:+ dagKey +:+ "/" +:+ nodeKey +:+ "/start".

Definition ManualDispatchIdempotencyKey (dagKey nodeKey : string) (runID : Z) (assignedTo : string) : string :=
  "manual_dispatch:" +:+ dagKey +:+ ":" +:+ pretty runID +:+ ":" +:+ nodeKey +:+ ":" +:+ TrimSpace assignedTo.

(** ** Automatic dispatch configuration *)

Definition autoAgentExec_t : gty := TStruct [("agent_key", TString); ("prompt_key", TString); ("cwd", TString)].
Definition autoAgentConfig_t : gty := TStruct [("exec", autoAgentExec_t)].
Definition autoAutomationExec_t : gty := TStruct [("kind", TString); ("command_ref", TString)].
Definition autoAutomationConfig_t : gty := TStruct [("exec", autoAutomationExec_t)].
Definition autoHybridConfig_t : gty := TStruct [
  ("exec", TStruct [("automation", TPtr autoAutomationExec_t); ("verifier", TPtr autoAgentExec_t)])].

Definition automaticDispatchNodeType (raw : string) : string :=
  let nodeType := TrimSpace raw in if String.eqb nodeType EmptyString then "agent" else nodeType.

Definition validateAutoAgentExec (exec : gval) (label : string) : result error unit :=
  if String.eqb (TrimSpace (str_val (field "agent_key" exec))) EmptyString
     && String.eqb (TrimSpace (str_val (field "prompt_key" exec))) EmptyString
  then Err (Errorf [] (Sprintf "%s.agent_key or %s.prompt_key required" [label; label]))
  else map_err (fun e => Errorf (err_is e) (Sprintf "%s.cwd invalid: %w" [label]))
         (ValidateLaunchCWD (str_val (field "cwd" exec)) EmptyString).

Definition validateAutoAutomationExec (exec : gval) (label : string) : result error unit :=
  let kind := TrimSpace (str_val (field "kind" exec)) in
  if negb (String.eqb kind EmptyString || String.eqb kind AutomationKindCommandCard)
  then Err (Errorf [] (Sprintf "%s.kind %q is unsupported for automatic dispatch" [label; kind]))
  else guard_err (negb (String.eqb (TrimSpace (str_val (field "command_ref" exec))) EmptyString))
         (Errorf [] (Sprintf "%s.command_ref required" [label])).

(** An absent config keeps the zero value. *)
Definition auto_config (t : gty) (raw : RawMessage) (label : string) : result error gval :=
  match raw with
  | RawEmpty => Ok (zero t)
  | _ => map_err (fun _ => Errorf [] (Sprintf "parse %s for automatic dispatch: %w" [label]))
           (Unmarshal (C := error) false no_custom t raw)
  end.

Definition validateAutoAgentConfig (raw : RawMessage) (label : string) : result error unit :=
  cfg ← auto_config autoAgentConfig_t raw label;
  validateAutoAgentExec (field "exec" cfg) (label +:+ ".exec").

Definition validateAutoAutomationConfig (raw : RawMessage) (label : string) : result error unit :=
  cfg ← auto_config autoAutomationConfig_t raw label;
  validateAutoAutomationExec (field "exec" cfg) (label +:+ ".exec").

Definition validateAutoHybridConfig (raw : RawMessage) : result error unit :=
  cfg ← auto_config autoHybridConfig_t raw "node.config";
  let automation := ptr_val (field "automation" (field "exec" cfg)) in
  let verifier := ptr_val (field "verifier" (field "exec" cfg)) in
  match automation, verifier with
  | None, None => Err (plain_error "node.config.exec.automation or node.config.exec.verifier required")
  | _, _ =>
      _ ← match automation with
          | Some a => validateAutoAutomationExec a "node.config.exec.automation"
          | None => Ok tt
          end;
      match verifier with
      | Some v => validateAutoAgentExec v "node.config.exec.verifier"
      | None => Ok tt
      end
  end.

Definition validateAutomaticDispatchConfig (node : Node) : result error unit :=
  let nodeType := automaticDispatchNodeType (nd_NodeType node) in
  if String.eqb nodeType "agent" then validateAutoAgentConfig (nd_Config node) "node.config"
  else if String.eqb nodeType "automation" then validateAutoAutomationConfig (nd_Config node) "node.config"
  else if String.eqb nodeType "hybrid" then validateAutoHybridConfig (nd_Config node)
  else Err (Errorf [] (Sprintf "unsupported node_type %q for automatic dispatch" [TrimSpace (nd_NodeType node)])).

(** ** Run events *)

Definition maxTaskDagRunEvents : nat := 50.

(** The last [maxTaskDagRunEvents] events. *)
Definition event_window (events : list json) : list json :=
  drop (length events - maxTaskDagRunEvents) events.

Definition appendRunEventJSON (existing event : RawMessage) : result error RawMessage :=
  match existing with
  | RawEmpty => Err (plain_error "task_dag_run events is empty; expected JSON array")
  | _ =>
      match event with
      | RawEmpty => Err (plain_error "task_dag_run event payload is empty")
      | RawBad => Err (plain_error "task_dag_run event payload is invalid JSON")
      | RawJSON e =>
          match existing with
          | RawJSON (JArr l) => Ok (RawJSON (JArr (event_window (l ++ [e]))))
          | RawJSON JNull => Ok (RawJSON (JArr [e]))
          | _ => Err (plain_error "decode task_dag_run events array")
          end
      end
  end.

Definition appendTaskDagRunEvent (dagKey : string) (runID : Z) (event : RawMessage) : M string :=
  _ ← requireRuntimeRunID "append_run_event" runID;
  s ← get_db;
  match List.find (running_row dagKey runID) (db_runs s) with
  | None => fail not_found
  | Some row =>
      nextEvents ← lift (appendRunEventJSON (rn_Events row) event);
      rows ← update_runs (running_row dagKey runID)
               (fun r => set_run (rn_Status r) nextEvents (rn_Metadata r) r);
      _ ← guardM (rows =? 1)%nat not_found;
      mret (rn_RunKey row)
  end.

Definition omitempty (k : string) (v : string) : list (string * json) :=
  if String.eqb v EmptyString then [] else [(k, JStr v)].

Definition failNodeKindExhaustedRetries : string := "exhausted_retries".
Definition failNodeKindCascade : string := "cascade".

Record failNodeReason := mkReason { fr_Kind : string; fr_Reason : string; fr_CausedByNode : string }.

Definition reason_json (r : failNodeReason) : RawMessage :=
  RawJSON (JObj ([("kind", JStr (fr_Kind r))] ++ omitempty "reason" (fr_Reason r)
                 ++ omitempty "caused_by_node" (fr_CausedByNode r))).

Section store.
Context (byte_len : RawMessage -> Z) (now_text : string) (now_ms : Z).
Context (json_ok : RawMessage -> bool) (reencode : json -> json).

(** A statement that writes the JSON column [v]; the constraint is checked on the
    rows the statement matches. *)
Definition write_nodes (v : RawMessage) (where_ : Node -> bool) (set_ : Node -> Node) : M nat :=
  s ← get_db;
  if existsb where_ (db_nodes s) && negb (json_ok v) then fail constraint_error
  else update_nodes where_ set_.

(** ** Enqueueing *)

Record EnqueueWakeupInput := mkEnqueue {
  en_DagKey : string; en_NodeKey : string; en_RunID : Z; en_WakeupKind : string;
  en_TargetAgentID : string; en_PromptPayload : RawMessage; en_IdempotencyKey : string;
}.

Definition new_wakeup (id : Z) (input : EnqueueWakeupInput) : Wakeup :=
  mkWakeup id (en_DagKey input) (en_NodeKey input) (Some (en_RunID input)) (en_WakeupKind input)
    (en_TargetAgentID input) (en_PromptPayload input) 1 (en_IdempotencyKey input)
    "pending" 0 now_ms None EmptyString None None None EmptyString.

(** The identity of the row and the number of inserted rows; a used key inserts
    nothing and answers the row that has it. *)
Definition enqueueWakeupTx (input : EnqueueWakeupInput) : M (Z * Z) :=
  _ ← lift (validateWakeupIdempotencyKey (en_IdempotencyKey input));
  _ ← lift (validateEnqueueWakeupPayload byte_len (en_WakeupKind input) (en_TargetAgentID input) (en_PromptPayload input));
  s ← get_db;
  match List.find (fun w => String.eqb (wk_IdempotencyKey w) (en_IdempotencyKey input)) (db_wakeups s) with
  | Some w => mret (wk_ID w, 0%Z)
  | None =>
      let id := next_id (wk_ID <$> db_wakeups s) in
      _ ← put_db (with_wakeups s (db_wakeups s ++ [new_wakeup id input]));
      mret (id, 1%Z)
  end.

Definition EnqueueWakeup (input : EnqueueWakeupInput) : M Z :=
  _ ← guardM (0 <? en_RunID input)%Z (plain_error "enqueue task dag wakeup: run_id required");
  _ ← lift (validateWakeupIdempotencyKey (en_IdempotencyKey input));
  _ ← lift (map_err (fun e => Errorf (err_is e) (Sprintf "enqueue task dag wakeup: %w" []))
              (validateEnqueueWakeupPayload byte_len (en_WakeupKind input) (en_TargetAgentID input) (en_PromptPayload input)));
  '(_, inserted) ← enqueueWakeupTx input;
  mret inserted.

Definition dispatchBlockedEventKind : string := "node_dispatch_blocked".

Definition appendDispatchBlockedEvent (node : Node) (runID : Z) (scope : string) (cause : error) : M unit :=
  let payload := RawJSON (JObj [
    ("kind", JStr dispatchBlockedEventKind); ("node_key", JStr (nd_NodeKey node));
    ("run_id", JNum (pretty runID)); ("scope", JStr scope);
    ("reason", JStr (TrimSpace (msg_format (err_msg cause)))); ("ts", JStr now_text)]) in
  _ ← appendTaskDagRunEvent (nd_DagKey node) runID payload; mret tt.

(** ** Finalizing a run *)

Fixpoint finalized_from (status : string) (statuses : list string) : option string :=
  match statuses with
  | [] => Some status
  | s :: l =>
      if String.eqb s "failed" then finalized_from "failed" l
      else if String.eqb s "cancelled"
      then finalized_from (if String.eqb status "failed" then status else "cancelled") l
      else if String.eqb s "done" || String.eqb s "skipped" then finalized_from status l
      else None
  end.

Definition finalizedRunStatus (statuses : list string) : option string :=
  match statuses with [] => None | _ => finalized_from "succeeded" statuses end.

Record FinalizedRunInfo := mkFinalized { fi_RunKey : string; fi_Status : string }.

Definition finalizeRunRowTx (dagKey : string) (runID : Z) (status : string) : M (option string) :=
  rows ← update_runs (running_row dagKey runID) (fun r => set_run status (rn_Events r) (rn_Metadata r) r);
  match rows with
  | 0 => mret None
  | 1 =>
      s ← get_db;
      match List.find (run_row dagKey runID) (db_runs s) with
      | None => fail not_found
      | Some r =>
          _ ← guardM (String.eqb (rn_Status r) status)
                (Errorf [] (Sprintf "finalized run for dag %s/%d has status %s, want %s"
                  [dagKey; pretty runID; rn_Status r; status]));
          mret (Some (rn_RunKey r))
      end
  | _ => fail (Errorf [] (Sprintf "finalize run for dag %s/%d affected %d rows, want 1" [dagKey; pretty runID; pretty rows]))
  end.

(** *** The final output recorded with a successful run *)

Definition loadRunFinalNodeKeyTx (dagKey : string) : M (option string) :=
  dag ← GetDAG dagKey;
  let key := match dg_Metadata dag with
             | RawJSON (JObj l) => match get "final_node_key" l with Some (JStr k) => k | _ => EmptyString end
             | _ => EmptyString
             end in
  let key := TrimSpace key in
  mret (if String.eqb key EmptyString then None else Some key).

Definition loadRunFinalOutputNodeTx (dagKey : string) (runID : Z) (nodeKey : string) : M (option Node) :=
  s ← get_db;
  mret (List.find (fun n => run_node dagKey nodeKey runID n && String.eqb (nd_Status n) "done") (db_nodes s)).

Definition runSharedfilePathFromResultMap (typed : list (string * json)) : string :=
  match get "sharedfile" typed with
  | Some (JObj sf) => match get "path" (map_of sf) with Some (JStr p) => TrimSpace p | _ => EmptyString end
  | _ => EmptyString
  end.

Definition final_config_t : gty := TStruct [
  ("outputs", TStruct [("to_sharedfile", TPtr (TStruct [("path", TString)]))])].

Definition configuredRunFinalSharedfilePath (raw : RawMessage) : result error string :=
  match raw with
  | RawEmpty => Ok EmptyString
  | _ =>
      cfg ← map_err (fun _ => plain_error "decode final node config outputs: %w")
              (Unmarshal (C := error) false no_custom final_config_t raw);
      match ptr_val (field "to_sharedfile" (field "outputs" cfg)) with
      | None => Ok EmptyString
      | Some t => Ok (TrimSpace (str_val (field "path" t)))
      end
  end.

(** The object is written with its members in key order. *)
Definition output_doc (node : Node) (before after : list (string * json)) : json :=
  let title := TrimSpace (nd_Title node) in
  let title := if String.eqb title EmptyString then "Final output" else title in
  JObj (before ++ [("role", JStr "final_output"); ("source_node_key", JStr (nd_NodeKey node))]
        ++ after ++ [("title", JStr title)]).

Definition finalOutputWithRunFile (node : Node) (path : string) : json :=
  output_doc node [("kind", JStr "file"); ("path", JStr path)] [].

Definition finalOutputFromConfiguredRunPath (node : Node) (configuredPath : string) : option json :=
  if String.eqb configuredPath EmptyString then None
  else Some (finalOutputWithRunFile node configuredPath).

Definition finalOutputFromRunFallback (node : Node) (configuredPath : string) (value : json) : json :=
  if negb (String.eqb configuredPath EmptyString) then finalOutputWithRunFile node configuredPath
  else output_doc node [("kind", JStr "json"); ("result", reencode value)] [].

Definition finalOutputFromRunResultMap (node : Node) (typed : list (string * json))
    (configuredPath : string) (value : json) : json :=
  let path := runSharedfilePathFromResultMap typed in
  if negb (String.eqb path EmptyString) then finalOutputWithRunFile node path
  else if negb (String.eqb configuredPath EmptyString) then finalOutputWithRunFile node configuredPath
  else output_doc node [("kind", JStr "json"); ("result", reencode value)] [].

Definition finalOutputFromRunResultString (node : Node) (text configuredPath : string) : json :=
  if negb (String.eqb configuredPath EmptyString) then finalOutputWithRunFile node configuredPath
  else output_doc node [("kind", JStr "text")] [("text", JStr text)].

Definition finalOutputMetadataFromNode (node : Node) : result error (option json) :=
  configuredPath ← map_err (fun e => Errorf (err_is e)
      (Sprintf "read configured final output path for node %s: %w" [nd_NodeKey node]))
    (configuredRunFinalSharedfilePath (nd_Config node));
  match nd_Result node with
  | RawEmpty => Ok (finalOutputFromConfiguredRunPath node configuredPath)
  | RawBad => Err (Errorf [] (Sprintf "decode final node result for %s: %w" [nd_NodeKey node]))
  | RawJSON value =>
      Ok (Some (match value with
                | JObj l => finalOutputFromRunResultMap node (map_of l) configuredPath value
                | JStr text => finalOutputFromRunResultString node text configuredPath
                | _ => finalOutputFromRunFallback node configuredPath value
                end))
  end.

Definition buildRunFinalOutputMetadataTx (dagKey : string) (runID : Z) : M (option json) :=
  finalNodeKey ← loadRunFinalNodeKeyTx dagKey;
  match finalNodeKey with
  | None => mret None
  | Some key =>
      node ← loadRunFinalOutputNodeTx dagKey runID key;
      match node with
      | None => mret None
      | Some node => lift (finalOutputMetadataFromNode node)
      end
  end.

Definition with_final_output (encoded : json) (metadata : RawMessage) : RawMessage :=
  RawJSON (JObj (set "final_output" encoded (match metadata with RawJSON (JObj l) => l | _ => [] end))).

Definition updateRunFinalOutputMetadataTx (dagKey : string) (runID : Z) (encoded : json) : M unit :=
  rows ← update_runs (fun r => run_row dagKey runID r && String.eqb (rn_Status r) "succeeded")
           (fun r => set_run (rn_Status r) (rn_Events r) (with_final_output encoded (rn_Metadata r)) r);
  guardM (rows =? 1)%nat
    (Errorf [] (Sprintf "write final output metadata for %s/%d: rows=%d, want 1" [dagKey; pretty runID; pretty rows])).

Definition writeRunFinalOutputMetadataTx (dagKey : string) (runID : Z) : M unit :=
  encoded ← buildRunFinalOutputMetadataTx dagKey runID;
  match encoded with
  | None => mret tt
  | Some doc => updateRunFinalOutputMetadataTx dagKey runID doc
  end.

Definition ListTaskDagRunNodeStatuses (dagKey : string) (runID : Z) : M (list string) :=
  nodes ← ListRunNodes dagKey runID; mret (nd_Status <$> nodes).

Definition maybeFinalizeRunTx (dagKey : string) (runID : Z) : M (option FinalizedRunInfo) :=
  _ ← requireRuntimeRunID "finalize_run" runID;
  statuses ← ListTaskDagRunNodeStatuses dagKey runID;
  match finalizedRunStatus statuses with
  | None => mret None
  | Some status =>
      runKey ← finalizeRunRowTx dagKey runID status;
      match runKey with
      | None => mret None
      | Some key =>
          _ ← (if String.eqb status "succeeded" then writeRunFinalOutputMetadataTx dagKey runID else mret tt);
          mret (Some (mkFinalized key status))
      end
  end.

(** ** Completing a node *)

Record CompleteNodeInput := mkComplete {
  ci_Status : string; ci_Result : RawMessage; ci_DagKey : string; ci_NodeKey : string;
  ci_RunID : Z; ci_WakeupID : Z; ci_WakeupAttempt : Z;
}.

Definition requireWakeupAttemptFence (op : string) (wakeupID wakeupAttempt : Z) : M unit :=
  if (wakeupID =? 0)%Z && (wakeupAttempt =? 0)%Z then mret tt
  else if (wakeupID <=? 0)%Z
  then fail (Errorf [] (Sprintf "%s task_dag_node: wakeup_id required when wakeup_attempt is set" [op]))
  else guardM (0 <? wakeupAttempt)%Z
         (Errorf [] (Sprintf "%s task_dag_node: wakeup_attempt required when wakeup_id is set" [op])).

(** The wakeup [id] belongs to this node and attempt. *)
Definition owned_wakeup (n : Node) (id attempt : Z) (w : Wakeup) : bool :=
  (wk_ID w =? id)%Z && bool_decide (wk_RunID w = nd_RunID n) && String.eqb (wk_DagKey w) (nd_DagKey n)
  && String.eqb (wk_NodeKey w) (nd_NodeKey n) && (wk_AttemptCount w =? attempt)%Z.

(** The condition of [CompleteTaskDagNode]. *)
Definition completable (s : db) (input : CompleteNodeInput) (n : Node) : bool :=
  run_node (ci_DagKey input) (ci_NodeKey input) (ci_RunID input) n && (0 <? ci_RunID input)%Z
  && str_in (nd_Status n) ["ready"; "running"]
  && ((ci_WakeupID input =? 0)%Z
      || bool_decide (nd_ActiveWakeupID n = Some (ci_WakeupID input))
         && existsb (owned_wakeup n (ci_WakeupID input) (ci_WakeupAttempt input)) (db_wakeups s)).

Definition completed_row (input : CompleteNodeInput) (n : Node) : Node :=
  set_active None None (set_result (ci_Result input) (set_status (ci_Status input) n)).

Definition CompleteNode (input : CompleteNodeInput) : M Node :=
  _ ← requireRuntimeRunID "complete" (ci_RunID input);
  _ ← requireWakeupAttemptFence "complete" (ci_WakeupID input) (ci_WakeupAttempt input);
  s ← get_db;
  rows ← write_nodes (ci_Result input) (completable s input) (completed_row input);
  _ ← requireSingleNodeWrite rows;
  GetTaskDagRunNodeForUpdate (ci_DagKey input) (ci_NodeKey input) (ci_RunID input).

Definition lockRunForCompletionTx (dagKey : string) (runID : Z) : M unit :=
  _ ← requireRuntimeRunID "lock_run_for_completion" runID;
  s ← get_db;
  guardM (existsb (running_row dagKey runID) (db_runs s))
    (Errorf [ErrNotFound] (Sprintf "lock run %s/%d for completion: %w" [dagKey; pretty runID])).

Record ScheduledDownstreamWakeup := mkScheduled {
  sd_DagKey : string; sd_NodeKey : string; sd_RunID : Z; sd_TargetAgentID : string; sd_IdempotencyKey : string;
}.

Record PromotedDownstreamNode := mkPromoted { pd_DagKey : string; pd_NodeKey : string; pd_RunID : Z }.

Definition PromoteSingleNodePendingToReady (dagKey nodeKey : string) (runID : Z) : M nat :=
  update_nodes (fun n => run_node dagKey nodeKey runID n && (0 <? runID)%Z && String.eqb (nd_Status n) "pending")
    (set_status "ready").

Definition promoteDownstreamCandidateTx (cand : Node) (completedRunID : Z) : M (option PromotedDownstreamNode) :=
  rowsAffected ← PromoteSingleNodePendingToReady (nd_DagKey cand) (nd_NodeKey cand) completedRunID;
  mret (if (rowsAffected =? 0)%nat then None
        else Some (mkPromoted (nd_DagKey cand) (nd_NodeKey cand) completedRunID)).

Definition tryEnqueueDownstream (cand : Node) : M (option ScheduledDownstreamWakeup) :=
  let agentID := TrimSpace (nd_AssignedTo cand) in
  let candRunID := runIDValue (nd_RunID cand) in
  if String.eqb agentID EmptyString then
    _ ← appendDispatchBlockedEvent cand candRunID "downstream"
          (plain_error "assigned_to required for automatic downstream dispatch");
    mret None
  else match validateAutomaticDispatchConfig cand with
  | Err cause => _ ← appendDispatchBlockedEvent cand candRunID "downstream" cause; mret None
  | Ok _ =>
      let idempotencyKey := downstreamIdempotencyKey (nd_DagKey cand) (nd_NodeKey cand) candRunID in
      rows ← EnqueueWakeup (mkEnqueue (nd_DagKey cand) (nd_NodeKey cand) candRunID downstreamWakeupKind agentID
               (MarshalJSON (mkDownstream EmptyString 0 agentID [])) idempotencyKey);
      mret (if (rows =? 0)%Z then None
            else Some (mkScheduled (nd_DagKey cand) (nd_NodeKey cand) candRunID agentID idempotencyKey))
  end.

Definition scheduleDownstreamCandidateTx (cand completed : Node) (statusByKey : gmap string string)
  : M (option ScheduledDownstreamWakeup * option PromotedDownstreamNode) :=
  satisfied ← lift (dependsSatisfiedForUpstream cand (nd_NodeKey completed) statusByKey);
  if negb satisfied then mret (None, None)
  else
    promoted ← promoteDownstreamCandidateTx cand (runIDValue (nd_RunID completed));
    match promoted with
    | None => mret (None, None)
    | Some p => inserted ← tryEnqueueDownstream cand; mret (inserted, Some p)
    end.

Definition status_map (nodes : list Node) : gmap string string :=
  foldl (fun m n => <[nd_NodeKey n := nd_Status n]> m) ∅ nodes.

(** The loop over the candidates with the two lists it appends to. *)
Fixpoint schedule_loop (cands : list Node) (completed : Node) (statusByKey : gmap string string)
    (acc : list ScheduledDownstreamWakeup * list PromotedDownstreamNode)
  : M (list ScheduledDownstreamWakeup * list PromotedDownstreamNode) :=
  match cands with
  | [] => mret acc
  | cand :: cands =>
      '(inserted, promoted) ← scheduleDownstreamCandidateTx cand completed statusByKey;
      schedule_loop cands completed statusByKey
        (acc.1 ++ option_list inserted, acc.2 ++ option_list promoted)
  end.

Definition scheduleDownstreamWakeupsTx (completed : Node)
  : M (list ScheduledDownstreamWakeup * list PromotedDownstreamNode) :=
  let completedRunID := runIDValue (nd_RunID completed) in
  _ ← requireRuntimeRunID "schedule_downstream" completedRunID;
  nodes ← ListRunNodes (nd_DagKey completed) completedRunID;
  schedule_loop nodes completed (status_map nodes) ([], []).

Record CompleteNodeWithDownstreamResult := mkCompleteResult {
  cd_Node : Node; cd_ScheduledDownstream : list ScheduledDownstreamWakeup;
  cd_FinalizedRun : option FinalizedRunInfo; cd_PromotedDownstream : list PromotedDownstreamNode;
}.

Definition CompleteNodeAndScheduleDownstream (input : CompleteNodeInput) : M CompleteNodeWithDownstreamResult :=
  _ ← requireRuntimeRunID "complete_and_schedule_downstream" (ci_RunID input);
  _ ← lockRunForCompletionTx (ci_DagKey input) (ci_RunID input);
  node ← CompleteNode input;
  '(scheduled, promoted) ← (if String.eqb (nd_Status node) terminalSuccessStatus
                            then scheduleDownstreamWakeupsTx node else mret ([], []));
  finalized ← maybeFinalizeRunTx (nd_DagKey node) (runIDValue (nd_RunID node));
  mret (mkCompleteResult node scheduled finalized promoted).

(** ** Failing a node *)

Record FailNodeInput := mkFail {
  fn_DagKey : string; fn_NodeKey : string; fn_RunID : Z; fn_Reason : string; fn_FailFast : bool;
  fn_WakeupID : Z; fn_WakeupAttempt : Z;
}.

Record CanceledDownstreamNode := mkCanceled { cx_DagKey : string; cx_NodeKey : string; cx_RunID : Z }.

Record FailNodeResult := mkFailResult {
  fx_Node : Node; fx_OldStatus : string; fx_CanceledDownstream : list CanceledDownstreamNode;
  fx_FinalizedRun : option FinalizedRunInfo;
}.

Definition lockedNodeStatusBeforeFailTx (dagKey nodeKey : string) (runID : Z) : M string :=
  row ← GetTaskDagRunNodeForUpdate dagKey nodeKey runID; mret (nd_Status row).

Definition wakeupFenceMatches (dagKey nodeKey : string) (runID wakeupID attempt : Z) : M bool :=
  if (wakeupID =? 0)%Z then mret true
  else
    wakeup ← GetTaskDagWakeup wakeupID;
    mret (match wakeup with
          | None => false
          | Some w => String.eqb (wk_DagKey w) dagKey && String.eqb (wk_NodeKey w) nodeKey
                      && bool_decide (wk_RunID w = Some runID) && (wk_AttemptCount w =? attempt)%Z
          end).

(** The condition of [FailTaskDagNodeIfNonTerminal]. *)
Definition failable (dagKey nodeKey : string) (runID wakeupID : Z) (fenceMatched : bool) (n : Node) : bool :=
  run_node dagKey nodeKey runID n && (0 <? runID)%Z && negb (str_in (nd_Status n) terminal_statuses)
  && ((wakeupID =? 0)%Z || fenceMatched).

Definition failed_row (reason : failNodeReason) (n : Node) : Node :=
  set_result (reason_json reason) (set_status "failed" n).

Definition failNodeTx (dagKey nodeKey : string) (runID wakeupID wakeupAttempt : Z) (reason : failNodeReason) : M Node :=
  fenceMatched ← wakeupFenceMatches dagKey nodeKey runID wakeupID wakeupAttempt;
  rows ← update_nodes (failable dagKey nodeKey runID wakeupID fenceMatched) (failed_row reason);
  _ ← requireSingleAffectedRow "fail_non_terminal" rows;
  GetTaskDagRunNodeForUpdate dagKey nodeKey runID.

Definition cascadeFailPendingNodeTx (dagKey nodeKey : string) (runID : Z) (reason : failNodeReason) : M bool :=
  rows ← update_nodes (fun n => run_node dagKey nodeKey runID n && (0 <? runID)%Z && String.eqb (nd_Status n) "pending")
           (failed_row reason);
  mret (0 <? rows)%nat.

(** The reverse dependency lists, in row order. *)
Definition buildDependentIndex (nodes : list Node) : result error (gmap string (list string)) :=
  fold_result (fun m n =>
    deps ← map_err (decode_error n) (store_decodeDependsOn (nd_DependsOn n));
    Ok (foldl (fun m dep => <[dep := default [] (m !! dep) ++ [nd_NodeKey n]]> m) m deps)) nodes ∅.

Definition dependents_of (dependents : gmap string (list string)) (key : string) : list string :=
  default [] (dependents !! key).

Definition out_of_fuel : error := plain_error "out of fuel".

(** The queue loop; one unit of fuel per taken key. *)
Fixpoint cancel_loop (fuel : nat) (dependents : gmap string (list string)) (nodeStatusByKey : gmap string string)
    (dagKey failedNodeKey : string) (runID : Z) (reason : string)
    (visited queue : list string) (canceled : list CanceledDownstreamNode) : M (list CanceledDownstreamNode) :=
  match queue with
  | [] => mret canceled
  | key :: queue =>
      match fuel with
      | 0 => fail out_of_fuel
      | S fuel =>
          if str_in key visited
          then cancel_loop fuel dependents nodeStatusByKey dagKey failedNodeKey runID reason visited queue canceled
          else
            let queue := queue ++ dependents_of dependents key in
            if negb (String.eqb (default EmptyString (nodeStatusByKey !! key)) "pending")
            then cancel_loop fuel dependents nodeStatusByKey dagKey failedNodeKey runID reason (key :: visited) queue canceled
            else
              inserted ← cascadeFailPendingNodeTx dagKey key runID (mkReason failNodeKindCascade reason failedNodeKey);
              cancel_loop fuel dependents nodeStatusByKey dagKey failedNodeKey runID reason (key :: visited) queue
                (if inserted : bool then canceled ++ [mkCanceled dagKey key runID] else canceled)
      end
  end.

(** Every reverse edge is taken at most once, and the edges of the failed node
    once more at the start. *)
Definition cascade_fuel (dependents : gmap string (list string)) (failedNodeKey : string) : nat :=
  length (dependents_of dependents failedNodeKey)
  + sum_list_with (fun kv => length kv.2) (map_to_list dependents).

Definition cancelDownstreamTx (dagKey failedNodeKey : string) (runID : Z) (reason : string)
  : M (list CanceledDownstreamNode) :=
  _ ← requireRuntimeRunID "cancel_downstream" runID;
  nodes ← ListRunNodes dagKey runID;
  dependents ← lift (buildDependentIndex nodes);
  cancel_loop (cascade_fuel dependents failedNodeKey) dependents (status_map nodes) dagKey failedNodeKey runID reason
    [] (dependents_of dependents failedNodeKey) [].

Definition failNodeAndCancelDownstreamTx (input : FailNodeInput) : M FailNodeResult :=
  oldStatus ← lockedNodeStatusBeforeFailTx (fn_DagKey input) (fn_NodeKey input) (fn_RunID input);
  node ← failNodeTx (fn_DagKey input) (fn_NodeKey input) (fn_RunID input) (fn_WakeupID input) (fn_WakeupAttempt input)
           (mkReason failNodeKindExhaustedRetries (fn_Reason input) EmptyString);
  canceled ← cancelDownstreamTx (fn_DagKey input) (fn_NodeKey input) (fn_RunID input) (fn_Reason input);
  finalized ← maybeFinalizeRunTx (fn_DagKey input) (fn_RunID input);
  mret (mkFailResult node oldStatus canceled finalized).

Definition FailNodeAndCancelDownstream (input : FailNodeInput) : M FailNodeResult :=
  _ ← requireRuntimeRunID "fail_and_cancel_downstream" (fn_RunID input);
  _ ← requireWakeupAttemptFence "fail_and_cancel_downstream" (fn_WakeupID input) (fn_WakeupAttempt input);
  failNodeAndCancelDownstreamTx input.

(** ** Other writes of a run node *)

Record NodeStatusUpdate := mkNodeUpdate {
  nu_Status : string; nu_ExpectedStatus : string; nu_Result : RawMessage;
  nu_DagKey : string; nu_NodeKey : string; nu_RunID : Z;
}.

(** Compare-and-set on the status. *)
Definition store_UpdateNodeStatus (input : NodeStatusUpdate) : M Node :=
  _ ← requireRuntimeRunID "update_status" (nu_RunID input);
  _ ← guardM (negb (String.eqb (TrimSpace (nu_ExpectedStatus input)) EmptyString))
        (plain_error "update_status expected status is required");
  rows ← write_nodes (nu_Result input)
           (fun n => run_node (nu_DagKey input) (nu_NodeKey input) (nu_RunID input) n && (0 <? nu_RunID input)%Z
                     && String.eqb (nd_Status n) (nu_ExpectedStatus input))
           (fun n => set_result (nu_Result input) (set_status (nu_Status input) n));
  _ ← requireSingleNodeWrite rows;
  GetTaskDagRunNodeForUpdate (nu_DagKey input) (nu_NodeKey input) (nu_RunID input).

(** A wakeup that still stands for a dispatch in progress. *)
Definition open_wakeup (w : Wakeup) : bool :=
  str_in (wk_Status w) ["pending"; "dispatching"]
  || String.eqb (wk_Status w) "sent" && bool_decide (is_Some (wk_SentAt w)) && bool_decide (wk_BoundTurnID w = None).

Definition node_wakeup (n : Node) (w : Wakeup) : bool :=
  match nd_RunID n with Some r => bool_decide (wk_RunID w = Some r) | None => false end
  && String.eqb (wk_DagKey w) (nd_DagKey n) && String.eqb (wk_NodeKey w) (nd_NodeKey n).

Definition dispatch_incomplete_result : RawMessage :=
  RawJSON (JObj [("kind", JStr "dispatch_incomplete"); ("reason", JStr "assigned_without_active_wakeup")]).

(** SQL [trim] removes spaces only. *)
Fixpoint sql_ltrim (s : string) : string :=
  match s with String " " s => sql_ltrim s | _ => s end.
Definition sql_trim_nonempty (s : string) : bool := negb (String.eqb (sql_ltrim s) EmptyString).

(** The condition of the recovery statement. *)
Definition dispatch_incomplete (s : db) (n : Node) : bool :=
  match nd_RunID n with Some _ => true | None => false end
  && str_in (nd_Status n) ["pending"; "ready"] && sql_trim_nonempty (nd_AssignedTo n)
  && negb (existsb (fun w => node_wakeup n w && open_wakeup w) (db_wakeups s)).

(** The marked rows are answered as they are stored. *)
Definition MarkDispatchIncompleteNodesWithoutActiveWakeup : M (list Node) :=
  s ← get_db;
  let mark n := set_active None None (set_result dispatch_incomplete_result (set_status "dispatch_incomplete" n)) in
  _ ← update_nodes (dispatch_incomplete s) mark;
  mret (mark <$> List.filter (dispatch_incomplete s) (db_nodes s)).

(** A dispatching wakeup whose lease has expired and whose node does not run on it. *)
Definition reclaimable (s : db) (w : Wakeup) : bool :=
  String.eqb (wk_Status w) "dispatching"
  && match wk_LeaseExpiresAt w with Some t => (t <? now_ms)%Z | None => false end
  && negb (existsb (fun n => node_wakeup n w && String.eqb (nd_Status n) "running"
                             && bool_decide (nd_ActiveWakeupID n = Some (wk_ID w))) (db_nodes s)).

Definition with_claim (status : string) (nextRetryAt : Z) (attempts : Z) (claimedAt : option Z) (claimedBy : string)
    (lease : option Z) (sentAt : option Z) (lastError : string) (w : Wakeup) : Wakeup :=
  mkWakeup (wk_ID w) (wk_DagKey w) (wk_NodeKey w) (wk_RunID w) (wk_Kind w) (wk_TargetAgentID w)
    (wk_PromptPayload w) (wk_PayloadSchemaVersion w) (wk_IdempotencyKey w) status attempts nextRetryAt
    claimedAt claimedBy lease sentAt (wk_BoundTurnID w) lastError.

Definition unclaimed (status lastError : string) (w : Wakeup) : Wakeup :=
  with_claim status (wk_NextRetryAt w) (wk_AttemptCount w) None EmptyString None (wk_SentAt w) lastError w.

Definition ReclaimStaleDispatchingWakeups : M nat :=
  s ← get_db; update_wakeups (reclaimable s) (fun w => unclaimed "pending" (wk_LastError w) w).

(** One tick of the background reclaimer; two transactions in a row. *)
Definition ReclaimOnce : M nat :=
  rows ← ReclaimStaleDispatchingWakeups;
  _ ← MarkDispatchIncompleteNodesWithoutActiveWakeup;
  mret rows.

(** ** Starting a run *)

Record CreateRunInput := mkCreateRun {
  cu_RunKey : string; cu_DagKey : string; cu_DagVersionSnapshot : Z; cu_TriggerSource : string;
  cu_Metadata : RawMessage;
}.

(** The run key is unique. *)
Definition CreateRun (input : CreateRunInput) : M Run :=
  s ← get_db;
  _ ← guardM (negb (existsb (fun r => String.eqb (rn_RunKey r) (cu_RunKey input)) (db_runs s)))
        (Errorf [ErrUnique] (Sprintf "UNIQUE constraint failed: task_dag_runs.run_key" []));
  let metadata := match cu_Metadata input with RawEmpty => RawJSON (JObj []) | m => m end in
  let run := mkRun (next_id (rn_ID <$> db_runs s)) (cu_RunKey input) (cu_DagKey input)
               (cu_DagVersionSnapshot input) (cu_TriggerSource input) "running" (RawJSON (JArr [])) metadata in
  _ ← put_db (with_runs s (db_runs s ++ [run]));
  mret run.

Definition run_copy (runID : Z) (template : Node) : Node :=
  mkNode (nd_DagKey template) (nd_NodeKey template) (Some runID) (nd_Title template) (nd_NodeType template)
    (nd_AssignedTo template) (nd_DependsOn template) (nd_Reads template) (nd_Writes template) "pending"
    (nd_CommandRef template) (nd_Config template) (RawJSON (JObj [])) None None None.

Definition insertRunNodeIfMissing (runID : Z) (node : Node) : M nat :=
  s ← get_db;
  if existsb (run_node (nd_DagKey node) (nd_NodeKey node) runID) (db_nodes s) then mret 0
  else _ ← put_db (with_nodes s (db_nodes s ++ [run_copy runID node])); mret 1.

Definition CloneNodesForRun (dagKey : string) (runID : Z) : M unit :=
  templates ← ListNodes dagKey;
  forM templates (fun t => _ ← insertRunNodeIfMissing runID t; mret tt).

(** [json_array_length(depends_on) = 0] *)
Definition no_dependencies (raw : RawMessage) : bool :=
  match raw with RawJSON (JArr l) => (length l =? 0)%nat | RawJSON _ => true | _ => false end.

Definition PromoteRootNodesToReady (dagKey : string) (runID : Z) : M nat :=
  update_nodes (fun n => run_of dagKey runID n && String.eqb (nd_Status n) "pending"
                         && no_dependencies (nd_DependsOn n)) (set_status "ready").

Definition scheduleRootWakeup (node : Node) (runID : Z) : M Z :=
  _ ← guardM (bool_decide (nd_RunID node = Some runID))
        (Errorf [] (Sprintf "schedule root wakeup: unexpected run_id for node %s/%s" [nd_DagKey node; nd_NodeKey node]));
  if negb (String.eqb (nd_Status node) "ready") then mret 0%Z
  else
    deps ← lift (map_err (fun e => Errorf (err_is e)
             (Sprintf "schedule root wakeup: decode depends_on for %s/%s: %w" [nd_DagKey node; nd_NodeKey node]))
             (store_decodeDependsOn (nd_DependsOn node)));
    let agentID := TrimSpace (nd_AssignedTo node) in
    if negb (length deps =? 0)%nat then mret 0%Z
    else if String.eqb agentID EmptyString then
      _ ← appendDispatchBlockedEvent node runID "root" (plain_error "assigned_to required for automatic root dispatch");
      mret 0%Z
    else match validateAutomaticDispatchConfig node with
    | Err cause => _ ← appendDispatchBlockedEvent node runID "root" cause; mret 0%Z
    | Ok _ =>
        EnqueueWakeup (mkEnqueue (nd_DagKey node) (nd_NodeKey node) runID downstreamWakeupKind agentID
          (MarshalJSON (mkDownstream EmptyString 0 agentID []))
          (ManualDispatchIdempotencyKey (nd_DagKey node) (nd_NodeKey node) runID agentID))
    end.

Fixpoint root_loop (nodes : list Node) (runID inserted : Z) : M Z :=
  match nodes with
  | [] => mret inserted
  | node :: nodes => rows ← scheduleRootWakeup node runID; root_loop nodes runID (inserted + rows)
  end.

Definition ScheduleRootWakeups (dagKey : string) (runID : Z) : M Z :=
  _ ← requireRuntimeRunID "schedule_root_wakeups" runID;
  nodes ← ListRunNodes dagKey runID;
  root_loop nodes runID 0.

Definition PromoteAndScheduleRunRoots (dagKey : string) (runID : Z) : M (nat * Z) :=
  readyRootNodes ← PromoteRootNodesToReady dagKey runID;
  scheduledWakeups ← ScheduleRootWakeups dagKey runID;
  mret (readyRootNodes, scheduledWakeups).

(** ** Terminating a run *)

Record TerminateRunInput := mkTerminate { ti_DagKey : string; ti_RunKey : string; ti_RunID : Z; ti_Reason : string }.

Definition nonEmptyTextValues (values : list (option string)) : list string :=
  sort_strings (List.filter (fun t => negb (String.eqb t EmptyString))
    (TrimSpace <$> omap id values)).

Definition runSpawnedThreadIDs (dagKey : string) (runID : Z) : M (list string) :=
  nodes ← ListRunNodes dagKey runID;
  mret (nonEmptyTextValues (nd_SpawningThreadID <$> nodes)).

Definition cancelled_node (reason : string) (n : Node) : Node :=
  set_active None None (set_result (RawJSON (JObj [("kind", JStr "run_cancelled"); ("reason", JStr reason)]))
    (set_status "cancelled" n)).

Definition CancelTaskDagRunNodes (dagKey : string) (runID : Z) (reason : string) : M nat :=
  update_nodes (fun n => run_of dagKey runID n && negb (str_in (nd_Status n) terminal_statuses))
    (cancelled_node reason).

Definition CancelTaskDagRunWakeups (dagKey : string) (runID : Z) (reason : string) : M nat :=
  update_wakeups (fun w => String.eqb (wk_DagKey w) dagKey && bool_decide (wk_RunID w = Some runID)
                           && str_in (wk_Status w) ["pending"; "dispatching"; "sent"])
    (unclaimed "failed" reason).

Definition cancellable (input : TerminateRunInput) (r : Run) : bool :=
  running_row (ti_DagKey input) (ti_RunID input) r && String.eqb (rn_RunKey r) (ti_RunKey input).

(** [None] is the missing row the caller recovers from. *)
Definition cancelTaskDagRunRow (input : TerminateRunInput) (event : RawMessage) : M (option unit) :=
  s ← get_db;
  match List.find (cancellable input) (db_runs s) with
  | None => mret None
  | Some r =>
      nextEvents ← lift (appendRunEventJSON (rn_Events r) event);
      _ ← update_runs (cancellable input) (fun r => set_run "cancelled" nextEvents (rn_Metadata r) r);
      mret (Some tt)
  end.

Definition cancelledRunSpawnedThreadIDs (input : TerminateRunInput) : M (option (list string)) :=
  s ← get_db;
  match List.find (fun r => String.eqb (rn_RunKey r) (ti_RunKey input)) (db_runs s) with
  | Some run =>
      if (rn_ID run =? ti_RunID input)%Z && String.eqb (rn_DagKey run) (ti_DagKey input)
         && String.eqb (rn_Status run) "cancelled"
      then ids ← runSpawnedThreadIDs (ti_DagKey input) (ti_RunID input); mret (Some ids)
      else mret None
  | None => mret None
  end.

Definition terminateRunTx (input : TerminateRunInput) (reason : string) (event : RawMessage) : M (list string) :=
  _ ← CancelTaskDagRunNodes (ti_DagKey input) (ti_RunID input) reason;
  _ ← CancelTaskDagRunWakeups (ti_DagKey input) (ti_RunID input) ("run_cancelled: " +:+ reason);
  cancelled ← cancelTaskDagRunRow input event;
  match cancelled with
  | Some _ => runSpawnedThreadIDs (ti_DagKey input) (ti_RunID input)
  | None =>
      ids ← cancelledRunSpawnedThreadIDs input;
      match ids with
      | Some ids => mret ids
      | None => fail (Errorf [ErrNotFound] (Sprintf "cancel run: %w" []))
      end
  end.

Definition TerminateRun (input : TerminateRunInput) : M (list string) :=
  _ ← requireRuntimeRunID "terminate_run" (ti_RunID input);
  let reason := TrimSpace (ti_Reason input) in
  let reason := if String.eqb reason EmptyString then "user_requested" else reason in
  terminateRunTx input reason (RawJSON (JObj [("kind", JStr "run_cancelled"); ("reason", JStr reason)])).
End store.
