(* ===== verification/RunEffects.v ===== *)
(** * What the run transactions do to the node rows

    One lemma per transaction of [RunStore]: the new node table as a function of
    the old one, row by row. *)

From S2P Require Import Prelude GoStrings Json NodeConfig DagStore WakeupPayload RunStore.

Definition run_nodes (dagKey : string) (runID : Z) (s : db) : list Node :=
  List.filter (run_of dagKey runID) (db_nodes s).

(** The function keeps what identifies a row and its dependencies. *)
Record keeps (f : Node -> Node) : Prop := {
  kp_dag : forall n, nd_DagKey (f n) = nd_DagKey n;
  kp_key : forall n, nd_NodeKey (f n) = nd_NodeKey n;
  kp_run : forall n, nd_RunID (f n) = nd_RunID n;
  kp_deps : forall n, nd_DependsOn (f n) = nd_DependsOn n;
}.

Lemma keeps_if (w : Node -> bool) f : keeps f -> keeps (fun n => if w n then f n else n).
Proof. intros [A B C D]. split; intros n; by destruct (w n). Qed.

Lemma keeps_cond (w : Node -> bool) f g : keeps f -> keeps g -> keeps (fun n => if w n then f n else g n).
Proof. intros [A B C D] [A' B' C' D']. split; intros n; by destruct (w n). Qed.

Lemma keeps_compose f g : keeps f -> keeps g -> keeps (fun n => g (f n)).
Proof. intros [A B C D] [A' B' C' D']. split; intros n; congruence. Qed.

Lemma keeps_id : keeps (fun n => n).
Proof. by split. Qed.

Lemma keeps_set_status st : keeps (set_status st).
Proof. by split. Qed.

Lemma keeps_failed_row reason : keeps (failed_row reason).
Proof. by split. Qed.

Lemma keeps_completed_row input : keeps (completed_row input).
Proof. by split. Qed.

Lemma keeps_cancelled_node reason : keeps (cancelled_node reason).
Proof. by split. Qed.

Create HintDb run discriminated.
#[export] Hint Resolve keeps_if keeps_compose keeps_id keeps_set_status keeps_failed_row
  keeps_completed_row keeps_cancelled_node : run.

Lemma keeps_run_of f dagKey runID n : keeps f -> run_of dagKey runID (f n) = run_of dagKey runID n.
Proof. intros [A _ C _]. unfold run_of. by rewrite A, C. Qed.

(** A new identity is above those in use. *)
Lemma next_id_fresh l id : id ∈ l -> (id < next_id l)%Z.
Proof.
  unfold next_id. intros H. assert (id <= foldr Z.max 0 l)%Z; [|lia].
  induction l as [|x l IH]; [by apply elem_of_nil in H|]. apply elem_of_cons in H as [->|H]; cbn; [lia|]. specialize (IH H). lia.
Qed.

(** A row-wise update of the table is a row-wise update of the run. *)
Lemma run_nodes_map dagKey runID f l :
  keeps f -> List.filter (run_of dagKey runID) (f <$> l) = f <$> List.filter (run_of dagKey runID) l.
Proof.
  intros Hf. induction l as [|n l IH]; [done|]. rewrite fmap_cons. cbn [List.filter].
  rewrite (keeps_run_of _ _ _ _ Hf). destruct (run_of dagKey runID n); [|done]. by rewrite fmap_cons, IH.
Qed.

Lemma update_nodes_Ok w g s n s' :
  update_nodes w g s = Ok (n, s') ->
  s' = with_nodes s ((fun x => if w x then g x else x) <$> db_nodes s)
  /\ n = length (List.filter w (db_nodes s)).
Proof. unfold update_nodes, sql_update. intros H. by tx_ok. Qed.

Lemma write_nodes_Ok json_ok v w g s n s' :
  write_nodes json_ok v w g s = Ok (n, s') -> update_nodes w g s = Ok (n, s').
Proof. unfold write_nodes. intros H. tx_ok. by case_match. Qed.

Lemma update_runs_Ok w g s n s' :
  update_runs w g s = Ok (n, s') ->
  s' = with_runs s ((fun x => if w x then g x else x) <$> db_runs s)
  /\ n = length (List.filter w (db_runs s)).
Proof. unfold update_runs, sql_update. intros H. by tx_ok. Qed.

Lemma requireSingleNodeWrite_Ok rows s u s' :
  requireSingleNodeWrite rows s = Ok (u, s') -> rows = 1 /\ s' = s.
Proof. unfold requireSingleNodeWrite. destruct rows as [|[|]]; [done| |done]. intros H. by tx_ok. Qed.

Lemma requireRuntimeRunID_Ok op r s u s' : requireRuntimeRunID op r s = Ok (u, s') -> (0 < r)%Z /\ s' = s.
Proof. unfold requireRuntimeRunID. intros H. tx_ok. by apply Z.ltb_lt in H. Qed.

Lemma requireWakeupAttemptFence_Ok op w a s u s' : requireWakeupAttemptFence op w a s = Ok (u, s') -> s' = s.
Proof. unfold requireWakeupAttemptFence. intros H. repeat case_match; tx_ok; done. Qed.

Lemma GetRunNode_Ok dagKey key runID s n s' :
  GetTaskDagRunNodeForUpdate dagKey key runID s = Ok (n, s') ->
  s' = s /\ n ∈ db_nodes s /\ run_node dagKey key runID n = true.
Proof.
  unfold GetTaskDagRunNodeForUpdate. intros H. tx_ok. destruct (List.find _ _) eqn:E; [|done]. simplify_eq.
  apply find_some in E as [? ?]. go_bool. split_and!; [done|by apply list_elem_of_In|done].
Qed.

(** Peels the guards and reads that leave the database alone. *)
Ltac tx_run :=
  tx_ok;
  repeat match goal with
  | H : requireRuntimeRunID _ _ _ = Ok _ |- _ => apply requireRuntimeRunID_Ok in H as [H ->]
  | H : requireWakeupAttemptFence _ _ _ _ = Ok _ |- _ => apply requireWakeupAttemptFence_Ok in H as ->
  | H : requireSingleNodeWrite _ _ = Ok _ |- _ => apply requireSingleNodeWrite_Ok in H as [H ->]
  | H : ListRunNodes _ _ _ = Ok _ |- _ => unfold ListRunNodes in H; tx_ok
  | H : write_nodes _ _ _ _ _ = Ok _ |- _ => apply write_nodes_Ok in H
  | H : update_nodes _ _ _ = Ok _ |- _ => apply update_nodes_Ok in H as [? ?]; subst
  | H : update_runs _ _ _ = Ok _ |- _ => apply update_runs_Ok in H as [? ?]; subst
  end; tx_ok.

(** ** Statements that do not touch node rows *)

Definition same_nodes {A} (m : M A) : Prop := forall s a s', m s = Ok (a, s') -> db_nodes s' = db_nodes s.

(** Neither node rows nor the identity and status of runs change. *)
Definition run_shape (r : Run) : Z * string * string * string := (rn_ID r, rn_RunKey r, rn_DagKey r, rn_Status r).

Definition quiet {A} (m : M A) : Prop := forall s a s', m s = Ok (a, s') ->
  db_nodes s' = db_nodes s /\ db_dags s' = db_dags s /\ run_shape <$> db_runs s' = run_shape <$> db_runs s.

Lemma run_shape_update (w : Run -> bool) (g : Run -> Run) (l : list Run) :
  (forall r, run_shape (g r) = run_shape r) ->
  run_shape <$> ((fun r => if w r then g r else r) <$> l) = run_shape <$> l.
Proof.
  intros Hg. rewrite <- list_fmap_compose. apply list_fmap_ext. intros i r _. simpl. by destruct (w r).
Qed.

Section effects.
Context (byte_len : RawMessage -> Z) (now_text : string) (now_ms : Z).
Context (json_ok : RawMessage -> bool) (reencode : json -> json).

Lemma appendDispatchBlockedEvent_quiet node runID scope cause :
  quiet (appendDispatchBlockedEvent now_text node runID scope cause).
Proof.
  intros s a s' H. unfold appendDispatchBlockedEvent, appendTaskDagRunEvent in H. tx_run.
  case_match; [|done]. tx_run. split_and!; [done..|]. cbn. by apply run_shape_update.
Qed.

Lemma EnqueueWakeup_quiet input : quiet (EnqueueWakeup byte_len now_ms input).
Proof.
  intros s a s' H. unfold EnqueueWakeup, enqueueWakeupTx in H. tx_run.
  repeat (case_match; tx_run; try done).
Qed.

Lemma tryEnqueueDownstream_quiet cand : quiet (tryEnqueueDownstream byte_len now_text now_ms cand).
Proof.
  intros s a s' H. unfold tryEnqueueDownstream in H. repeat case_match; tx_run;
    match goal with
    | H : appendDispatchBlockedEvent _ _ _ _ _ _ = Ok _ |- _ => by apply appendDispatchBlockedEvent_quiet in H
    | H : EnqueueWakeup _ _ _ _ = Ok _ |- _ => by apply EnqueueWakeup_quiet in H
    end.
Qed.

(** ** Scheduling downstream *)

(** The candidates of the loop that satisfy their dependencies. *)
Definition satisfied (ck : string) (m : gmap string string) (c : Node) : bool :=
  match dependsSatisfiedForUpstream c ck m with Ok b => b | Err _ => false end.

Definition promote (dagKey : string) (runID : Z) (keys : string -> bool) (n : Node) : Node :=
  if run_of dagKey runID n && String.eqb (nd_Status n) "pending" && keys (nd_NodeKey n)
  then set_status "ready" n else n.

Lemma promote_keeps dagKey runID ks : keeps (promote dagKey runID ks).
Proof. unfold promote. auto with run. Qed.

Lemma promote_compose dagKey runID ks1 ks2 n :
  promote dagKey runID ks2 (promote dagKey runID ks1 n) = promote dagKey runID (fun k => ks1 k || ks2 k) n.
Proof.
  unfold promote. destruct (run_of dagKey runID n) eqn:Hr; simpl; [|by rewrite Hr].
  destruct (String.eqb (nd_Status n) "pending") eqn:Hp; simpl; [|by rewrite Hr, Hp].
  destruct (ks1 (nd_NodeKey n)) eqn:Hk; simpl; [|by rewrite Hr, Hp].
  change (run_of dagKey runID (set_status "ready" n)) with (run_of dagKey runID n). by rewrite Hr.
Qed.

Definition promoted_by (ck : string) (m : gmap string string) (cands : list Node) (key : string) : bool :=
  existsb (fun c => String.eqb (nd_NodeKey c) key && satisfied ck m c) cands.

Lemma schedule_candidate_effect cand completed m s r s' dagKey runID :
  (0 < runID)%Z -> nd_DagKey cand = dagKey -> runIDValue (nd_RunID completed) = runID ->
  scheduleDownstreamCandidateTx byte_len now_text now_ms cand completed m s = Ok (r, s') ->
  db_nodes s' = promote dagKey runID (promoted_by (nd_NodeKey completed) m [cand]) <$> db_nodes s
  /\ db_dags s' = db_dags s /\ run_shape <$> db_runs s' = run_shape <$> db_runs s.
Proof.
  intros Hpos <- <- H. unfold scheduleDownstreamCandidateTx in H. tx_run.
  unfold promoted_by, satisfied. cbn [existsb]. rewrite H0. destruct x; simpl in H; tx_run.
  - unfold promoteDownstreamCandidateTx, PromoteSingleNodePendingToReady in H1. tx_run.
    set (s1 := with_nodes s _) in *.
    assert (db_nodes s1 = promote (nd_DagKey cand) (runIDValue (nd_RunID completed))
      (fun key => (String.eqb (nd_NodeKey cand) key && true) || false) <$> db_nodes s) as Hs1.
    { unfold s1. cbn. apply list_fmap_ext. intros i n _. unfold promote, run_node.
      apply Z.ltb_lt in Hpos. rewrite Hpos, andb_true_r, andb_true_r, orb_false_r, (String.eqb_sym (nd_NodeKey cand)).
      destruct (run_of _ _ n), (String.eqb (nd_NodeKey n) _), (String.eqb (nd_Status n) "pending"); done. }
    destruct (_ =? _)%nat in H; tx_run; [by rewrite Hs1|].
    apply tryEnqueueDownstream_quiet in H1 as (Hn & Hd & Hr). rewrite Hn, Hd, Hr, Hs1. done.
  - split_and!; [|done..]. transitivity ((fun n => n) <$> db_nodes s'); [by rewrite list_fmap_id|].
    apply list_fmap_ext. intros i n _. unfold promote. cbn beta.
    by destruct (run_of _ _ n), (String.eqb (nd_Status n) _), (String.eqb (nd_NodeKey cand) _).
Qed.

Lemma schedule_loop_effect dagKey runID completed m cands acc s r s' :
  (0 < runID)%Z -> Forall (fun c => nd_DagKey c = dagKey) cands -> runIDValue (nd_RunID completed) = runID ->
  schedule_loop byte_len now_text now_ms cands completed m acc s = Ok (r, s') ->
  db_nodes s' = promote dagKey runID (promoted_by (nd_NodeKey completed) m cands) <$> db_nodes s
  /\ db_dags s' = db_dags s /\ run_shape <$> db_runs s' = run_shape <$> db_runs s.
Proof.
  intros Hpos Hc Hid. revert acc s. induction Hc as [|c cands Hc _ IH]; intros acc s H; cbn [schedule_loop] in H; tx_run.
  { split_and!; [|done..]. transitivity ((fun n => n) <$> db_nodes s'); [by rewrite list_fmap_id|].
    apply list_fmap_ext. intros i n _. unfold promote. by rewrite andb_false_r. }
  destruct x as [ins pr]. eapply schedule_candidate_effect in H0 as (Hn & Hd & Hr); [|done..].
  apply IH in H as (Hn' & Hd' & Hr'). rewrite Hn', Hd', Hr', Hn, Hd, Hr. split_and!; [|done..].
  rewrite <- list_fmap_compose. apply list_fmap_ext. intros i n _. unfold compose. rewrite promote_compose.
  unfold promote, promoted_by. cbn [existsb]. by rewrite orb_false_r.
Qed.

Lemma writeRunFinalOutputMetadataTx_quiet dagKey runID : quiet (writeRunFinalOutputMetadataTx reencode dagKey runID).
Proof.
  intros s u s' H. unfold writeRunFinalOutputMetadataTx in H. tx_run.
  assert (x0 = s) as ->.
  { unfold buildRunFinalOutputMetadataTx, loadRunFinalNodeKeyTx, loadRunFinalOutputNodeTx, GetDAG in H0. tx_run.
    repeat (case_match; tx_run); done. }
  destruct x as [doc|]; tx_run; [|done]. unfold updateRunFinalOutputMetadataTx in H. tx_run.
  split_and!; [done..|]. cbn. by apply run_shape_update.
Qed.

(** The run rows after finalizing with [status]. *)
Definition finish (dagKey : string) (runID : Z) (status : string) (r : Run) : Run :=
  if running_row dagKey runID r then set_run status (rn_Events r) (rn_Metadata r) r else r.

Lemma finalizeRunRowTx_effect dagKey runID status s o s' :
  finalizeRunRowTx dagKey runID status s = Ok (o, s') ->
  s' = with_runs s (finish dagKey runID status <$> db_runs s).
Proof. unfold finalizeRunRowTx. intros H. tx_run. repeat (case_match; tx_run; try done). Qed.

Definition final_runs (dagKey : string) (runID : Z) (o : option string) (l : list Run) : list Run :=
  match o with None => l | Some status => finish dagKey runID status <$> l end.

Lemma maybeFinalizeRunTx_effect dagKey runID s r s' :
  maybeFinalizeRunTx reencode dagKey runID s = Ok (r, s') ->
  db_nodes s' = db_nodes s /\ db_dags s' = db_dags s
  /\ run_shape <$> db_runs s'
     = run_shape <$> final_runs dagKey runID (finalizedRunStatus (nd_Status <$> run_nodes dagKey runID s)) (db_runs s).
Proof.
  unfold maybeFinalizeRunTx, ListTaskDagRunNodeStatuses. intros H. tx_run.
  unfold run_nodes. destruct (finalizedRunStatus _) as [status|]; tx_run; [|done].
  apply finalizeRunRowTx_effect in H1 as ->. destruct x as [key|]; tx_run; [|done].
  destruct (String.eqb status "succeeded"); tx_run; [|done].
  apply writeRunFinalOutputMetadataTx_quiet in H1 as (? & ? & Hr). by rewrite Hr.
Qed.
End effects.

(** ** Runs *)

Definition run_running (dagKey : string) (runID : Z) (s : db) : Prop :=
  existsb (running_row dagKey runID) (db_runs s) = true.

Definition shape_running (dagKey : string) (runID : Z) (sh : Z * string * string * string) : bool :=
  let '(id, _, dk, st) := sh in String.eqb dk dagKey && (id =? runID)%Z && String.eqb st "running".

Lemma running_shape dagKey runID l :
  existsb (running_row dagKey runID) l = existsb (shape_running dagKey runID) (run_shape <$> l).
Proof. induction l as [|r l IH]; [done|]. simpl. by rewrite IH. Qed.

Lemma run_running_shape dagKey runID s s' :
  run_shape <$> db_runs s' = run_shape <$> db_runs s -> run_running dagKey runID s' <-> run_running dagKey runID s.
Proof. unfold run_running. rewrite !running_shape. by intros ->. Qed.

(** A finalized run is no longer running. *)
Lemma finish_not_running dagKey runID status l :
  status <> "running" -> existsb (running_row dagKey runID) (finish dagKey runID status <$> l) = false.
Proof.
  intros Hs. induction l as [|r l IH]; [done|]. rewrite fmap_cons. cbn [existsb]. rewrite IH, orb_false_r.
  unfold finish at 1. destruct (running_row dagKey runID r) eqn:E; [|done].
  unfold running_row. cbn. destruct (String.eqb_spec status "running"); [done|]. by rewrite andb_false_r.
Qed.

(** ** The final status of a run *)

Lemma finalized_from_spec status l :
  status = "succeeded" \/ status = "cancelled" \/ status = "failed" ->
  match finalized_from status l with
  | None => Exists (fun s => s ∉ terminal_statuses) l
  | Some r => Forall (fun s => s ∈ terminal_statuses) l
      /\ (r = "failed" <-> status = "failed" \/ "failed" ∈ l)
      /\ (r = "cancelled" <-> status <> "failed" /\ "failed" ∉ l /\ (status = "cancelled" \/ "cancelled" ∈ l))
      /\ (r = "succeeded" \/ r = "cancelled" \/ r = "failed")
  end.
Proof.
  revert status. induction l as [|s l IH]; intros status Hst; cbn [finalized_from].
  { split_and!; [constructor|set_solver|set_solver|done]. }
  destruct (String.eqb_spec s "failed") as [->|Hf].
  { specialize (IH "failed" ltac:(auto)). destruct (finalized_from "failed" l); [|by constructor 2].
    destruct IH as (Hall & H1 & H2 & H3). split_and!; [|set_solver|set_solver|done]. constructor; [|done]. set_solver. }
  destruct (String.eqb_spec s "cancelled") as [->|Hc].
  { specialize (IH (if String.eqb status "failed" then status else "cancelled")
      ltac:(destruct (String.eqb_spec status "failed"); subst; auto)).
    destruct (finalized_from _ l); [|by constructor 2]. destruct IH as (Hall & H1 & H2 & H3).
    destruct (String.eqb_spec status "failed") as [->|Hne].
    - split_and!; [|set_solver|set_solver|done]. constructor; [set_solver|done].
    - split_and!; [|set_solver|set_solver|done]. constructor; [set_solver|done]. }
  destruct (String.eqb s "done" || String.eqb s "skipped") eqn:Hd.
  { apply orb_true_iff in Hd. rewrite !String.eqb_eq in Hd. specialize (IH status Hst).
    destruct (finalized_from status l); [|by constructor 2]. destruct IH as (Hall & H1 & H2 & H3).
    split_and!; [|set_solver|set_solver|done]. constructor; [set_solver|done]. }
  apply orb_false_iff in Hd as [Hd1 Hd2]. rewrite String.eqb_neq in Hd1, Hd2. left. set_solver.
Qed.

(** When and how a run ends.  The statuses of the nodes of a run give a final
    status exactly when there is a node and all nodes are terminal; it is failed
    when a node failed, otherwise cancelled when a node was cancelled, otherwise
    succeeded, whatever the order of the nodes. *)
Theorem finalizedRunStatus_spec statuses :
  (finalizedRunStatus statuses = None <-> statuses = [] \/ Exists (fun s => s ∉ terminal_statuses) statuses)
  /\ (finalizedRunStatus statuses = Some "failed"
      <-> Forall (fun s => s ∈ terminal_statuses) statuses /\ "failed" ∈ statuses)
  /\ (finalizedRunStatus statuses = Some "cancelled"
      <-> Forall (fun s => s ∈ terminal_statuses) statuses /\ "failed" ∉ statuses /\ "cancelled" ∈ statuses)
  /\ (finalizedRunStatus statuses = Some "succeeded"
      <-> statuses <> [] /\ Forall (fun s => s = "done" \/ s = "skipped") statuses).
Proof.
  destruct statuses as [|s0 l0]; [split_and!; split; set_solver|].
  set (l := s0 :: l0). assert (l <> []) as Hne by done. unfold finalizedRunStatus. cbv iota beta.
  change (match l with [] => None | _ => finalized_from "succeeded" l end) with (finalized_from "succeeded" l).
  pose proof (finalized_from_spec "succeeded" l ltac:(auto)) as H. clearbody l. clear s0 l0.
  assert (forall P : Prop, (Forall (fun s => s ∈ terminal_statuses) l -> False) -> Forall (fun s => s ∈ terminal_statuses) l -> P)
    as Hno by tauto.
  destruct (finalized_from "succeeded" l) as [r|].
  - destruct H as (Hall & Hf & Hc & Hr).
    assert (~ Exists (fun s => s ∉ terminal_statuses) l) as Hnex.
    { rewrite Exists_exists. intros (s & Hs & Hn). rewrite Forall_forall in Hall. by apply Hn, Hall. }
    split_and!; (split; [intros E; simplify_eq|intros E]).
    + naive_solver.
    + split; [done|]. destruct Hf as [Hf _]. specialize (Hf eq_refl). naive_solver.
    + destruct E as [_ E]. f_equal. apply Hf. auto.
    + split; [done|]. destruct Hc as [Hc _]. specialize (Hc eq_refl). naive_solver.
    + destruct E as (_ & E1 & E2). f_equal. apply Hc. naive_solver.
    + split; [done|]. apply Forall_forall. intros s Hs. rewrite Forall_forall in Hall. specialize (Hall s Hs).
      assert ("failed" ∉ l) by (intros ?; assert ("succeeded" = "failed") by (apply Hf; auto); done).
      assert ("cancelled" ∉ l) by (intros ?; assert ("succeeded" = "cancelled") by (apply Hc; naive_solver); done).
      set_solver.
    + destruct E as [_ E]. f_equal. rewrite Forall_forall in E. destruct Hr as [->|[->| ->]]; [done| |].
      * destruct Hc as [Hc _]. specialize (Hc eq_refl) as (_ & _ & [?|Hin]); [done|]. apply E in Hin. naive_solver.
      * destruct Hf as [Hf _]. specialize (Hf eq_refl) as [?|Hin]; [done|]. apply E in Hin. naive_solver.
  - apply Exists_exists in H as (s & Hs & Hn).
    assert (Exists (fun s => s ∉ terminal_statuses) l) as Hex by (apply Exists_exists; eauto).
    split_and!; (split; [intros E; simplify_eq|intros E]); [by right|done|..].
    + destruct E as [E _]. rewrite Forall_forall in E. by apply E in Hs.
    + destruct E as [E _]. rewrite Forall_forall in E. by apply E in Hs.
    + destruct E as [_ E]. rewrite Forall_forall in E. apply E in Hs. set_solver.
Qed.
