(* ===== verification/WakeupLease.v ===== *)
(** * Claims and leases of wakeups

    Models the dispatch protocol of [store_wakeup.go]: a dispatcher claims due
    wakeups under a lease, and settles each of them (sent, retried, failed) with the
    fence of its claim; [wakeup_lease.go], the node writes that carry a fence
    ([store_node_spawn.go], the running-node writes of [store.go]), the worker leases
    ([store_lease.go]) and the parsing of intervals.

    Times are nanoseconds since the epoch for the clock, milliseconds in the tables.
    SQL reads the clock in whole seconds. *)

From S2P Require Import Prelude GoStrings Json NodeConfig DagStore WakeupPayload RunStore.

(** ** Intervals *)

(** [strings.ToLower], on the runes that a unit can have after it: the ASCII capital
    letters, and the three other runes whose lower case is a letter of a unit. *)
Definition lower_rune (r : rune) : rune :=
  if in_range 0x41 0x5A r then (r + 32)%N
  else if (r =? 0x130)%N then 0x69%N
  else if (r =? 0x212A)%N then 0x6B%N
  else if (r =? 0x39C)%N then 0x3BC%N
  else r.
Definition ToLower (s : string) : string := encode_runes (lower_rune <$> runes s).

(** [strconv.ParseInt(s, 10, 64)], which takes a sign. *)
Definition ParseInt10 (s : string) : option Z :=
  match s with String "+" (String a t) => match a with "-"%char => None | _ => parse_int64 (String a t) end | _ => parse_int64 s end.

Definition intervalUnitSuffix (unit : string) : string :=
  let u := TrimSuffix unit "s" in
  if str_in u ["millisecond"; "msec"; "ms"] then "ms"
  else if str_in u ["second"; "sec"; "s"] then "s"
  else if str_in u ["minute"; "min"; "m"] then "m"
  else if str_in u ["hour"; "hr"; "h"] then "h"
  else unit.

Definition parseClockIntervalPart (value : string) (bounded : bool) : option Z :=
  if String.eqb value EmptyString then None
  else
    parsed ← ParseInt10 value;
    if (parsed <? 0)%Z || (bounded && (60 <=? parsed)%Z) then None else Some parsed.

Definition parseClockInterval (value : string) : option Z :=
  match split_on ":" value with
  | [h; m; s] =>
      hours ← parseClockIntervalPart h false;
      minutes ← parseClockIntervalPart m true;
      seconds ← parseClockIntervalPart s true;
      Some (wrap64 (wrap64 (hours * (3600 * Second)) + minutes * (60 * Second) + seconds * Second))
  | _ => None
  end.

(** [Duration.Milliseconds] truncates towards zero. *)
Definition IntervalMillis (d : Z) : Z := Z.quot d 1000000.

Definition intervalValue (value : string) : result error Z :=
  let trimmed := TrimSpace value in
  if String.eqb trimmed EmptyString then Err (plain_error "interval is required")
  else match ParseDuration trimmed with
  | Some d => Ok (IntervalMillis d)
  | None =>
      match parseClockInterval trimmed with
      | Some d => Ok (IntervalMillis d)
      | None =>
          match Fields (ToLower trimmed) with
          | [amount; unit] =>
              match ParseDuration (amount +:+ intervalUnitSuffix unit) with
              | Some d => Ok (IntervalMillis d)
              | None => Err (Errorf [] (Sprintf "invalid interval %q: %w" [value]))
              end
          | _ => Err (Errorf [] (Sprintf "invalid interval %q" [value]))
          end
      end
  end.

Definition parseLeaseDuration (value operation entity : string) : result error Z :=
  map_err (fun e => Errorf (err_is e) (Sprintf "%s %s: %w" [operation; entity])) (intervalValue value).

Definition ParseLeaseDuration (value : string) : result error Z :=
  interval ← map_err (fun e => Errorf (err_is e) (Sprintf "parse lease duration: %w" [])) (intervalValue value);
  let duration := wrap64 (interval * 1000000) in
  if (duration <=? 0)%Z
  then Err (Errorf [] (Sprintf "parse lease duration: duration must be positive: %q" [value]))
  else Ok duration.

Example interval_ex1 : intervalValue " 2 Minutes " = Ok 120000%Z.
Proof. vm_compute. reflexivity. Qed.
Example interval_ex2 : intervalValue "01:02:03" = Ok 3723000%Z.
Proof. vm_compute. reflexivity. Qed.
Example interval_ex3 : is_ok (intervalValue "5 parsecs") = false.
Proof. vm_compute. reflexivity. Qed.

(** The hours of a clock interval are not bounded, and their product with the
    nanoseconds of an hour wraps around: such an interval is read as negative. *)
Example interval_wraps : intervalValue "2562048:00:00" = Ok (-9223371273709)%Z.
Proof. vm_compute. reflexivity. Qed.

(** A positive interval below a millisecond is read as zero. *)
Example interval_truncates : intervalValue "500us" = Ok 0%Z.
Proof. vm_compute. reflexivity. Qed.

(** SQL [TRIM] removes spaces on both sides. *)
Definition sql_trim (s : string) : string := String.rev (sql_ltrim (String.rev (sql_ltrim s))).

(** ** Fences *)

(** A NULL is equal to nothing. *)
Definition sql_eq (a b : option Z) : bool :=
  match a, b with Some x, Some y => (x =? y)%Z | _, _ => false end.

(** The zero time is stored as NULL. *)
Record wakeupFence := mkFence {
  f_ID : Z; f_ClaimedAt : option Z; f_ClaimedBy : string; f_LeaseExpiresAt : option Z;
}.

Record WakeupFence := mkNodeFence {
  wf_WakeupID : Z; wf_WakeupAttempt : Z; wf_ClaimedBy : string;
  wf_ClaimedAt : option Z; wf_LeaseExpiresAt : option Z;
}.

Definition wakeupFenceFromWakeup (w : Wakeup) : WakeupFence :=
  mkNodeFence (wk_ID w) (wk_AttemptCount w) (TrimSpace (wk_ClaimedBy w)) (wk_ClaimedAt w) (wk_LeaseExpiresAt w).

Definition wakeup_fence (w : Wakeup) : wakeupFence :=
  mkFence (wk_ID w) (wk_ClaimedAt w) (wk_ClaimedBy w) (wk_LeaseExpiresAt w).

(** [ClaimedWakeupLease]: the row of the claim as last renewed. *)
Definition validateRenewedWakeupIdentity (current renewed : Wakeup) : result error unit :=
  if negb (wk_ID renewed =? wk_ID current)%Z
  then Err (plain_error "claimed wakeup lease: renewed id")
  else if negb (wk_AttemptCount renewed =? wk_AttemptCount current)%Z
  then Err (plain_error "claimed wakeup lease: renewed attempt")
  else if negb (String.eqb (TrimSpace (wk_ClaimedBy renewed)) (TrimSpace (wk_ClaimedBy current)))
  then Err (plain_error "claimed wakeup lease: renewed owner")
  else if match wk_ClaimedAt current with Some t => negb (sql_eq (wk_ClaimedAt renewed) (Some t)) | None => false end
  then Err (plain_error "claimed wakeup lease: renewed claimed_at changed")
  else match wk_LeaseExpiresAt renewed with
       | None => Err (plain_error "claimed wakeup lease: renewed lease_expires_at required")
       | Some _ => Ok tt
       end.

Definition ClaimedWakeupLease_Update (current renewed : Wakeup) : result error Wakeup :=
  _ ← validateRenewedWakeupIdentity current renewed; Ok renewed.

Definition mergeWakeupFence (input fallback : WakeupFence) : WakeupFence :=
  mkNodeFence (wf_WakeupID input)
    (if (wf_WakeupAttempt input =? 0)%Z then wf_WakeupAttempt fallback else wf_WakeupAttempt input)
    (if String.eqb (TrimSpace (wf_ClaimedBy input)) EmptyString then wf_ClaimedBy fallback else wf_ClaimedBy input)
    (match wf_ClaimedAt input with None => wf_ClaimedAt fallback | t => t end)
    (match wf_LeaseExpiresAt input with None => wf_LeaseExpiresAt fallback | t => t end).

Definition validateWakeupFenceFields (fence : WakeupFence) : result error unit :=
  if (wf_WakeupID fence <=? 0)%Z then Err (plain_error "wakeup fence: wakeup_id required")
  else if (wf_WakeupAttempt fence <=? 0)%Z then Err (plain_error "wakeup fence: attempt required")
  else if String.eqb (TrimSpace (wf_ClaimedBy fence)) EmptyString then Err (plain_error "wakeup fence: claimed_by required")
  else match wf_ClaimedAt fence, wf_LeaseExpiresAt fence with
       | None, _ => Err (plain_error "wakeup fence: claimed_at required")
       | _, None => Err (plain_error "wakeup fence: lease_expires_at required")
       | _, _ => Ok tt
       end.

(** [ctxFence] is the fence found in the context; [None] is the unfenced path. *)
Definition resolveWakeupFence (ctxFence : option WakeupFence) (wakeupID : Z) (input : WakeupFence)
  : result error (option WakeupFence) :=
  let input := if (0 <? wakeupID)%Z && (wf_WakeupID input =? 0)%Z
               then mkNodeFence wakeupID (wf_WakeupAttempt input) (wf_ClaimedBy input) (wf_ClaimedAt input) (wf_LeaseExpiresAt input)
               else input in
  let input := match ctxFence with
               | Some c =>
                   if (0 <? wf_WakeupID c)%Z
                   then if (wf_WakeupID input =? 0)%Z then c
                        else if (wf_WakeupID input =? wf_WakeupID c)%Z then mergeWakeupFence input c
                        else input
                   else input
               | None => input
               end in
  if (wf_WakeupID input =? 0)%Z then Ok None
  else _ ← validateWakeupFenceFields input; Ok (Some input).

Definition validateWakeupFenceRowIdentity (row : Wakeup) (dagKey nodeKey : string) (runID : Z) : bool :=
  String.eqb (wk_Status row) "dispatching" && bool_decide (wk_RunID row = Some runID)
  && String.eqb (wk_DagKey row) dagKey && String.eqb (wk_NodeKey row) nodeKey.

Definition validateWakeupFenceRowLease (row : Wakeup) (fence : WakeupFence) : bool :=
  (wk_AttemptCount row =? wf_WakeupAttempt fence)%Z && sql_eq (wk_ClaimedAt row) (wf_ClaimedAt fence)
  && String.eqb (wk_ClaimedBy row) (TrimSpace (wf_ClaimedBy fence))
  && sql_eq (wk_LeaseExpiresAt row) (wf_LeaseExpiresAt fence).

(** ** The dispatch protocol *)

Record ClaimDueWakeupsInput := mkClaimDue { cl_ClaimedBy : string; cl_LeaseInterval : string; cl_Limit : Z }.

Definition defaultRetryWakeupMaxAttempts : Z := 8.

Definition retryWakeupMaxAttempts (maxAttempts : Z) : Z :=
  if (maxAttempts <=? 0)%Z then defaultRetryWakeupMaxAttempts else maxAttempts.

Definition due_le (a b : Wakeup) : Prop :=
  (wk_NextRetryAt a < wk_NextRetryAt b)%Z
  \/ wk_NextRetryAt a = wk_NextRetryAt b /\ (wk_ID a <= wk_ID b)%Z.
#[export] Instance due_le_dec a b : Decision (due_le a b).
Proof. unfold due_le. apply _. Defined.

(** A negative LIMIT is none. *)
Definition sql_limit {A} (n : Z) (l : list A) : list A := if (n <? 0)%Z then l else take (Z.to_nat n) l.

Section lease.
Context (byte_len : RawMessage -> Z) (now_text : string) (json_ok : RawMessage -> bool) (reencode : json -> json).
(** The clock, in nanoseconds. *)
Context (now : Z).

Definition go_ms : Z := now / 1000000.
Definition sql_ms : Z := now / 1000000000 * 1000.

Definition running_run (s : db) (w : Wakeup) (any : bool) : bool :=
  existsb (fun r => bool_decide (wk_RunID w = Some (rn_ID r)) && String.eqb (rn_DagKey r) (wk_DagKey w)
                    && (any || String.eqb (rn_Status r) "running")) (db_runs s).

Definition due (s : db) (w : Wakeup) : bool :=
  String.eqb (wk_Status w) "pending" && (wk_PayloadSchemaVersion w =? 1)%Z && (wk_NextRetryAt w <=? sql_ms)%Z
  && (str_in (wk_Kind w) ["node_start"; "manual_dispatch"; "turn_complete_retry"]
        && sql_trim_nonempty (wk_DagKey w) && sql_trim_nonempty (wk_NodeKey w) && running_run s w false
      || String.eqb (wk_Kind w) "terminal_failure_compensation"
        && sql_trim_nonempty (wk_DagKey w) && sql_trim_nonempty (wk_NodeKey w) && running_run s w true
      || String.eqb (wk_Kind w) "start"
        && negb (sql_trim_nonempty (wk_DagKey w)) && negb (sql_trim_nonempty (wk_NodeKey w))
        && bool_decide (wk_RunID w = None)).

Definition due_ids (s : db) (limit : Z) : list Z :=
  wk_ID <$> sql_limit limit (merge_sort due_le (List.filter (due s) (db_wakeups s))).

Definition claimed_row (worker : string) (claimedAt lease : Z) (w : Wakeup) : Wakeup :=
  with_claim "dispatching" (wk_NextRetryAt w) (wk_AttemptCount w + 1) (Some claimedAt) worker (Some lease)
    (wk_SentAt w) (wk_LastError w) w.

Definition ClaimDueTaskDagWakeups (worker : string) (claimedAt lease limit : Z) : M nat :=
  s ← get_db;
  let ids := due_ids s limit in
  update_wakeups (fun w => existsb (Z.eqb (wk_ID w)) ids) (claimed_row worker claimedAt lease).

Definition by_fence (worker : string) (claimedAt lease : Z) (w : Wakeup) : bool :=
  String.eqb (wk_Status w) "dispatching" && String.eqb (wk_ClaimedBy w) worker
  && sql_eq (wk_ClaimedAt w) (Some claimedAt) && sql_eq (wk_LeaseExpiresAt w) (Some lease).

Definition ListTaskDagWakeupsByClaimFence (worker : string) (claimedAt lease : Z) : M (list Wakeup) :=
  s ← get_db; mret (merge_sort due_le (List.filter (by_fence worker claimedAt lease) (db_wakeups s))).

(** The latest claim time of the worker still in the table. *)
Definition latest_claim (worker : string) (l : list Wakeup) : option Z :=
  foldr (fun w acc =>
    if String.eqb (wk_ClaimedBy w) worker
    then match wk_ClaimedAt w, acc with Some t, Some m => Some (Z.max t m) | Some t, None => Some t | None, m => m end
    else acc) None l.

Definition nextWakeupClaimFence (worker : string) (leaseInterval : Z) : M (Z * Z) :=
  s ← get_db;
  let claimedAt := match latest_claim worker (db_wakeups s) with
                   | Some t => if (go_ms <=? t)%Z then (t + 1)%Z else go_ms
                   | None => go_ms
                   end in
  mret (claimedAt, (claimedAt + leaseInterval)%Z).

Definition ClaimDueWakeups (input : ClaimDueWakeupsInput) : M (list Wakeup) :=
  _ ← lift (validateWakeupWorkerID (cl_ClaimedBy input));
  leaseInterval ← lift (parseLeaseDuration (cl_LeaseInterval input) "claim_due" "task_dag_wakeup");
  '(claimedAt, lease) ← nextWakeupClaimFence (cl_ClaimedBy input) leaseInterval;
  rows ← ClaimDueTaskDagWakeups (cl_ClaimedBy input) claimedAt lease (cl_Limit input);
  if (rows =? 0)%nat then mret []
  else
    fenced ← ListTaskDagWakeupsByClaimFence (cl_ClaimedBy input) claimedAt lease;
    _ ← guardM (length fenced =? rows)%nat
          (Errorf [] (Sprintf "claim task_dag_wakeup: read back %d rows after affecting %d"
            [pretty (length fenced); pretty rows]));
    mret fenced.

(** The row is under this claim, and its lease has not expired. *)
Definition held (f : wakeupFence) (w : Wakeup) : bool :=
  (wk_ID w =? f_ID f)%Z && String.eqb (wk_Status w) "dispatching"
  && sql_eq (wk_ClaimedAt w) (f_ClaimedAt f) && String.eqb (wk_ClaimedBy w) (f_ClaimedBy f)
  && sql_eq (wk_LeaseExpiresAt w) (f_LeaseExpiresAt f)
  && match wk_LeaseExpiresAt w with Some t => (sql_ms <=? t)%Z | None => false end.

Definition renewed_row (leaseMs : Z) (w : Wakeup) : Wakeup :=
  with_claim (wk_Status w) (wk_NextRetryAt w) (wk_AttemptCount w) (wk_ClaimedAt w) (wk_ClaimedBy w)
    (Some (sql_ms + leaseMs)%Z) (wk_SentAt w) (wk_LastError w) w.

Definition RenewWakeupLease (leaseInterval : string) (f : wakeupFence) : M (option Wakeup * nat) :=
  leaseMs ← lift (parseLeaseDuration leaseInterval "renew" "task_dag_wakeup");
  rows ← update_wakeups (held f) (renewed_row leaseMs);
  match rows with
  | 0 => mret (None, 0)
  | 1 =>
      row ← GetTaskDagWakeup (f_ID f);
      match row with None => fail not_found | Some w => mret (Some w, 1) end
  | _ => fail (Errorf [] (Sprintf "renew task_dag_wakeup: affected %d rows, want at most 1" [pretty rows]))
  end.

Definition RenewClaimedWakeupLease (w : Wakeup) (leaseInterval : string) : M Wakeup :=
  '(renewed, rows) ← RenewWakeupLease leaseInterval (wakeup_fence w);
  match renewed, rows with
  | Some r, S _ => mret r
  | _, _ => fail (plain_error "renew claimed wakeup: fence missed")
  end.

Definition sent_row (w : Wakeup) : Wakeup :=
  with_claim "sent" (wk_NextRetryAt w) (wk_AttemptCount w) (wk_ClaimedAt w) (wk_ClaimedBy w)
    (wk_LeaseExpiresAt w) (Some sql_ms) (wk_LastError w) w.

Definition MarkWakeupSent (f : wakeupFence) : M nat := update_wakeups (held f) sent_row.

Definition retried_row (delayMs : Z) (lastError : string) (w : Wakeup) : Wakeup :=
  with_claim "pending" (sql_ms + delayMs) (wk_AttemptCount w) None EmptyString None (wk_SentAt w) lastError w.

Definition RetryTaskDagWakeup (f : wakeupFence) (delayMs : Z) (lastError : string) (maxAttempts : Z) : M nat :=
  update_wakeups (fun w => held f w && (wk_AttemptCount w <? maxAttempts)%Z) (retried_row delayMs lastError).

Record RetryWakeupInput := mkRetry {
  rt_RetryInterval : string; rt_LastError : string; rt_MaxAttempts : Z; rt_Fence : wakeupFence;
}.

Definition RetryWakeup (input : RetryWakeupInput) : M nat :=
  retryInterval ← lift (parseLeaseDuration (rt_RetryInterval input) "retry" "task_dag_wakeup");
  RetryTaskDagWakeup (rt_Fence input) retryInterval (rt_LastError input) (retryWakeupMaxAttempts (rt_MaxAttempts input)).

Definition set_config (config : RawMessage) (n : Node) : Node :=
  mkNode (nd_DagKey n) (nd_NodeKey n) (nd_RunID n) (nd_Title n) (nd_NodeType n) (nd_AssignedTo n)
    (nd_DependsOn n) (nd_Reads n) (nd_Writes n) (nd_Status n) (nd_CommandRef n) config (nd_Result n)
    (nd_ActiveTurnID n) (nd_ActiveWakeupID n) (nd_SpawningThreadID n).

Record NodeConfigPatchInput := mkConfigPatch {
  np_DagKey : string; np_NodeKey : string; np_RunID : Z; np_Config : RawMessage; np_PreviousConfig : RawMessage;
}.

(** [same_config] compares two stored messages byte by byte. *)
Definition PatchTaskDagNodeConfigIfUnchanged (same_config : RawMessage -> RawMessage -> bool) (input : NodeConfigPatchInput) : M nat :=
  write_nodes json_ok (np_Config input)
    (fun n => run_node (np_DagKey input) (np_NodeKey input) (np_RunID input) n && (0 <? np_RunID input)%Z
              && same_config (nd_Config n) (np_PreviousConfig input) && negb (str_in (nd_Status n) terminal_statuses))
    (set_config (np_Config input)).

(** A missed patch rolls the retry back. *)
Definition RetryWakeupWithNodeConfigPatch (same_config : RawMessage -> RawMessage -> bool)
    (retry : RetryWakeupInput) (patch : NodeConfigPatchInput) : M nat :=
  retryInterval ← lift (parseLeaseDuration (rt_RetryInterval retry) "retry_with_config_patch" "task_dag_wakeup");
  rows ← RetryTaskDagWakeup (rt_Fence retry) retryInterval (rt_LastError retry) (retryWakeupMaxAttempts (rt_MaxAttempts retry));
  if (rows =? 0)%nat then mret 0
  else
    patched ← PatchTaskDagNodeConfigIfUnchanged same_config patch;
    _ ← requireSingleNodeWrite patched;
    mret rows.

Definition FailWakeup (f : wakeupFence) (lastError : string) : M nat :=
  update_wakeups (held f) (unclaimed "failed" lastError).

Definition FailWakeupAndFailNodeAndCancelDownstream (f : wakeupFence) (lastError : string) (node : FailNodeInput)
  : M (nat * option FailNodeResult) :=
  _ ← requireRuntimeRunID "fail_wakeup_and_fail_node" (fn_RunID node);
  rows ← FailWakeup f lastError;
  if (rows =? 0)%nat then mret (0, None)
  else result ← failNodeAndCancelDownstreamTx reencode node; mret (rows, Some result).

Definition bound_row (turnID : string) (w : Wakeup) : Wakeup :=
  mkWakeup (wk_ID w) (wk_DagKey w) (wk_NodeKey w) (wk_RunID w) (wk_Kind w) (wk_TargetAgentID w)
    (wk_PromptPayload w) (wk_PayloadSchemaVersion w) (wk_IdempotencyKey w) (wk_Status w) (wk_AttemptCount w)
    (wk_NextRetryAt w) (wk_ClaimedAt w) (wk_ClaimedBy w) (wk_LeaseExpiresAt w) (wk_SentAt w) (Some turnID) (wk_LastError w).

Definition bindWakeupTurnTx (turnID : string) (id : Z) (requireBound : bool) : M nat :=
  count ← update_wakeups (fun w => (wk_ID w =? id)%Z && String.eqb (wk_Status w) "sent"
              && bool_decide (is_Some (wk_SentAt w)) && bool_decide (wk_BoundTurnID w = None)) (bound_row turnID);
  _ ← guardM (negb (requireBound && (count =? 0)%nat)) (plain_error "wakeup turn binding conflict");
  mret count.

Definition BindWakeupTurn (turnID : string) (id : Z) : M nat := bindWakeupTurnTx turnID id false.

(** ** Node writes under a fence *)

Definition validateWakeupFenceTx (fence : WakeupFence) (dagKey nodeKey : string) (runID : Z) : M unit :=
  row ← GetTaskDagWakeup (wf_WakeupID fence);
  match row with
  | None => fail not_found
  | Some row =>
      _ ← guardM (validateWakeupFenceRowIdentity row dagKey nodeKey runID) (plain_error "wakeup fence mismatch");
      _ ← guardM (validateWakeupFenceRowLease row fence) (plain_error "wakeup fence mismatch");
      guardM (match wf_LeaseExpiresAt fence with Some t => (now <=? t * 1000000)%Z | None => false end)
        (plain_error "wakeup fence expired")
  end.

Record RunningNodeStatusUpdate := mkRunningUpdate {
  ru_Status : string; ru_Result : RawMessage; ru_WakeupID : Z; ru_WakeupFence : WakeupFence;
  ru_DagKey : string; ru_NodeKey : string; ru_RunID : Z;
}.

(** The node waits or is ready, and becomes what the update says, without a turn. *)
Definition UpdateRunningTaskDagNodeStatus (input : RunningNodeStatusUpdate) (wakeupID : Z) : M nat :=
  write_nodes json_ok (ru_Result input)
    (fun n => run_node (ru_DagKey input) (ru_NodeKey input) (ru_RunID input) n && (0 <? ru_RunID input)%Z
              && str_in (nd_Status n) ["pending"; "ready"])
    (fun n => set_active None (Some wakeupID) (set_result (ru_Result input) (set_status (ru_Status input) n))).

Definition UpdateRunningNodeStatus (ctxFence : option WakeupFence) (input : RunningNodeStatusUpdate) : M Node :=
  _ ← requireRuntimeRunID "update_running_status" (ru_RunID input);
  fence ← lift (resolveWakeupFence ctxFence (ru_WakeupID input) (ru_WakeupFence input));
  wakeupID ← match fence with
             | Some f =>
                 _ ← validateWakeupFenceTx f (ru_DagKey input) (ru_NodeKey input) (ru_RunID input);
                 mret (wf_WakeupID f)
             | None => mret (ru_WakeupID input)
             end;
  rows ← UpdateRunningTaskDagNodeStatus input wakeupID;
  _ ← requireSingleNodeWrite rows;
  GetTaskDagRunNodeForUpdate (ru_DagKey input) (ru_NodeKey input) (ru_RunID input).

Record BindRunningNodeTurnInput := mkBindTurn {
  bt_TurnID : string; bt_DagKey : string; bt_NodeKey : string; bt_RunID : Z; bt_WakeupID : Z;
}.

Definition BindRunningNodeTurn (input : BindRunningNodeTurnInput) : M Node :=
  _ ← requireRuntimeRunID "bind_running_turn" (bt_RunID input);
  _ ← bindWakeupTurnTx (bt_TurnID input) (bt_WakeupID input) true;
  rows ← update_nodes
           (fun n => run_node (bt_DagKey input) (bt_NodeKey input) (bt_RunID input) n && (0 <? bt_RunID input)%Z
                     && String.eqb (nd_Status n) "running" && bool_decide (nd_ActiveTurnID n = None)
                     && bool_decide (nd_ActiveWakeupID n = Some (bt_WakeupID input)))
           (fun n => set_active (Some (bt_TurnID input)) (nd_ActiveWakeupID n) n);
  _ ← requireSingleNodeWrite rows;
  GetTaskDagRunNodeForUpdate (bt_DagKey input) (bt_NodeKey input) (bt_RunID input).

Record RecordNodeSpawnInput := mkSpawn {
  rs_DagKey : string; rs_NodeKey : string; rs_RunID : Z; rs_ThreadID : string; rs_WakeupID : Z; rs_WakeupFence : WakeupFence;
}.

Definition set_thread (threadID : string) (n : Node) : Node :=
  mkNode (nd_DagKey n) (nd_NodeKey n) (nd_RunID n) (nd_Title n) (nd_NodeType n) (nd_AssignedTo n)
    (nd_DependsOn n) (nd_Reads n) (nd_Writes n) (nd_Status n) (nd_CommandRef n) (nd_Config n) (nd_Result n)
    (nd_ActiveTurnID n) (nd_ActiveWakeupID n) (Some threadID).

Definition ErrConflict : string := "ErrConflict".

Definition recordNodeSpawnTx (dagKey nodeKey : string) (runID : Z) (threadID : string) : M (Node * string) :=
  current ← GetTaskDagRunNodeForUpdate dagKey nodeKey runID;
  let previous := match nd_SpawningThreadID current with Some t => TrimSpace t | None => EmptyString end in
  _ ← guardM (String.eqb previous EmptyString || String.eqb previous threadID)
        (Errorf [ErrConflict] (Sprintf "spawning_thread_id already bound" [previous; threadID]));
  rows ← update_nodes
           (fun n => run_node dagKey nodeKey runID n && (0 <? runID)%Z && negb (str_in (nd_Status n) terminal_statuses)
                     && match nd_SpawningThreadID n with
                        | None => true
                        | Some t => String.eqb (sql_trim t) EmptyString || String.eqb (sql_trim t) (sql_trim threadID)
                        end)
           (set_thread threadID);
  _ ← guardM (rows =? 1)%nat (Errorf [] (Sprintf "record_node_spawn: affected %d rows, want 1" [pretty rows]));
  updated ← GetTaskDagRunNodeForUpdate dagKey nodeKey runID;
  mret (updated, previous).

Definition RecordNodeSpawn (ctxFence : option WakeupFence) (input : RecordNodeSpawnInput) : M (Node * string) :=
  let dagKey := TrimSpace (rs_DagKey input) in
  let nodeKey := TrimSpace (rs_NodeKey input) in
  let threadID := TrimSpace (rs_ThreadID input) in
  _ ← guardM (negb (String.eqb dagKey EmptyString || String.eqb nodeKey EmptyString))
        (plain_error "record_node_spawn: dag_key and node_key required");
  _ ← guardM (negb (String.eqb threadID EmptyString))
        (plain_error "record_node_spawn: thread_id required (refusing to overwrite with empty)");
  _ ← guardM (0 <? rs_RunID input)%Z (plain_error "record_node_spawn: run_id required");
  fence ← lift (resolveWakeupFence ctxFence (rs_WakeupID input) (rs_WakeupFence input));
  _ ← match fence with
      | Some f => validateWakeupFenceTx f dagKey nodeKey (rs_RunID input)
      | None => mret tt
      end;
  recordNodeSpawnTx dagKey nodeKey (rs_RunID input) threadID.
End lease.

(** ** Worker leases *)

Record WorkerLease := mkLease { wl_TargetAgentID : string; wl_OwnerID : string; wl_LeaseExpiresAt : Z }.

Section worker.
Context (now : Z).
Local Abbreviation sql_now := (sql_ms now).

Definition acquirable (target owner : string) (l : WorkerLease) : bool :=
  String.eqb (wl_TargetAgentID l) target && ((wl_LeaseExpiresAt l <? sql_now)%Z || String.eqb (wl_OwnerID l) owner).

(** The number of acquired leases and the table. *)
Definition AcquireWorkerLease (leaseInterval target owner : string) (t : list WorkerLease) : result error (Z * list WorkerLease) :=
  leaseMs ← parseLeaseDuration leaseInterval "acquire" "task_dag_worker_lease";
  let '(t', rows) := sql_update (acquirable target owner)
                       (fun l => mkLease (wl_TargetAgentID l) owner (sql_now + leaseMs)) t in
  match rows with
  | 0 => if existsb (fun l => String.eqb (wl_TargetAgentID l) target) t then Ok (0%Z, t)
         else Ok (1%Z, t ++ [mkLease target owner (sql_now + leaseMs)])
  | 1 => Ok (1%Z, t')
  | _ => Err (Errorf [] (Sprintf "acquire task_dag_worker_lease: updated %d rows, want at most 1" [pretty rows]))
  end.

Definition renewable (target owner : string) (l : WorkerLease) : bool :=
  String.eqb (wl_TargetAgentID l) target && String.eqb (wl_OwnerID l) owner && (sql_now <=? wl_LeaseExpiresAt l)%Z.

Definition RenewWorkerLease (leaseInterval target owner : string) (t : list WorkerLease) : result error (nat * list WorkerLease) :=
  leaseMs ← parseLeaseDuration leaseInterval "renew" "task_dag_worker_lease";
  let '(t', rows) := sql_update (renewable target owner)
                       (fun l => mkLease (wl_TargetAgentID l) (wl_OwnerID l) (sql_now + leaseMs)) t in
  Ok (rows, t').

Definition ReleaseWorkerLease (target owner : string) (t : list WorkerLease) : result error (list WorkerLease) :=
  let '(t', rows) := sql_delete (fun l => String.eqb (wl_TargetAgentID l) target && String.eqb (wl_OwnerID l) owner) t in
  if (rows =? 0)%nat then Err (plain_error "worker lease was not held by owner") else Ok t'.
End worker.
