(* ===== verification/RunService.v ===== *)
(** * The controller of runs

    Models the entry points of [dag_dispatch.go] and [dag.go] that act on runs:
    StartDAG, DispatchNode and UpdateNodeStatus (with [taskupdatelease/validate.go]),
    and the store transactions of DispatchNode.  The clock and the text of a message
    are arguments. *)

From S2P Require Import Prelude GoStrings NodeStatus Json NodeConfig DagStore ApplyOps WakeupPayload RunStore WakeupLease.

(** A failed transaction leaves the database as it was. *)
Definition catch {A} (m : M A) (handler : error -> M A) : M A :=
  fun s => match m s with Ok r => Ok r | Err e => handler e s end.

(** ** Starting a run *)

Record StartDAGRequest := mkStartRequest { sq_DagKey : string; sq_TriggerSource : string; sq_IdempotencyKey : string }.

Record StartDAGResponse := mkStartResponse {
  sr_RunID : Z; sr_RunKey : string; sr_Version : Z; sr_ReadyRootNodes : Z; sr_ScheduledWakeups : Z; sr_ExecutionState : string;
}.

Definition StartDAGExecutionQueued : string := "queued".
Definition StartDAGExecutionWaitingForAssignee : string := "waiting_for_assignee".
Definition StartDAGExecutionRunning : string := "running".
Definition StartDAGExecutionNoReadyRoots : string := "no_ready_roots".
Definition StartDAGExecutionSucceeded : string := "succeeded".

Definition StartDAGExecutionDiagnostics (readyRootNodes scheduledWakeups : Z) : string :=
  if (0 <? scheduledWakeups)%Z then StartDAGExecutionQueued
  else if (0 <? readyRootNodes)%Z then StartDAGExecutionWaitingForAssignee
  else StartDAGExecutionNoReadyRoots.

Definition NewStartDAGResponse (runID : Z) (runKey : string) (version readyRootNodes scheduledWakeups : Z) : StartDAGResponse :=
  mkStartResponse runID runKey version readyRootNodes scheduledWakeups
    (StartDAGExecutionDiagnostics readyRootNodes scheduledWakeups).

Definition NewExistingStartDAGResponse (runID : Z) (runKey : string) (version : Z) (status : string) (scheduledWakeups : Z)
  : StartDAGResponse :=
  let state := if (0 <? scheduledWakeups)%Z then StartDAGExecutionQueued else StartDAGExecutionRunning in
  let state := if String.eqb status "succeeded" then StartDAGExecutionSucceeded else state in
  mkStartResponse runID runKey version 0 scheduledWakeups state.

Definition IdempotencyKeyExhausted : string := "IdempotencyKeyExhaustedError".

Definition GetRun (runKey : string) : M (option Run) :=
  s ← get_db; mret (List.find (fun r => String.eqb (rn_RunKey r) runKey) (db_runs s)).

Section service.
Context (byte_len : RawMessage -> Z) (now_text : string) (now_ms unix_nano : Z).
Context (json_ok : RawMessage -> bool) (reencode : json -> json) (raw_text : RawMessage -> string).

Definition generateRunKey (dagKey idempotencyKey : string) : string :=
  let key := TrimSpace idempotencyKey in
  if negb (String.eqb key EmptyString) then dagKey +:+ "#run-" +:+ key
  else dagKey +:+ "#run-" +:+ pretty unix_nano.

Definition validateStartDAGPrereq (req : StartDAGRequest) : M (string * DAG) :=
  let dagKey := TrimSpace (sq_DagKey req) in
  _ ← guardM (negb (String.eqb dagKey EmptyString)) (plain_error "orchestration: StartDAG: dag_key required");
  dag ← GetDAG dagKey;
  mret (dagKey, dag).

Definition lockDAGForRunStart (dagKey : string) : M DAG :=
  catch (GetDAG dagKey)
    (fun e => if errors_Is e ErrNotFound then fail (Errorf [ErrDAGNotFound] (Sprintf "%w: %s" [dagKey])) else fail e).

(** The body of the transaction. *)
Definition startRunTx (dagKey : string) (input : CreateRunInput) : M StartDAGResponse :=
  lockedDAG ← lockDAGForRunStart dagKey;
  run ← CreateRun (mkCreateRun (cu_RunKey input) (cu_DagKey input) (dg_Version lockedDAG) (cu_TriggerSource input) (cu_Metadata input));
  _ ← CloneNodesForRun dagKey (rn_ID run);
  '(readyRootNodes, scheduledWakeups) ← PromoteAndScheduleRunRoots byte_len now_text now_ms dagKey (rn_ID run);
  mret (NewStartDAGResponse (rn_ID run) (rn_RunKey run) (rn_DagVersionSnapshot run) (Z.of_nat readyRootNodes) scheduledWakeups).

(** The root wakeups of an existing run are enqueued one by one, outside a transaction;
    what an error in their middle leaves behind is not modelled. *)
Definition resolveStartDAGUniqueViolation (dagKey runKey : string) (txErr : error) : M StartDAGResponse :=
  existing ← GetRun runKey;
  match existing with
  | Some run =>
      if String.eqb (rn_Status run) "running" then
        scheduledWakeups ← ScheduleRootWakeups byte_len now_text now_ms dagKey (rn_ID run);
        mret (NewExistingStartDAGResponse (rn_ID run) (rn_RunKey run) (rn_DagVersionSnapshot run) (rn_Status run) scheduledWakeups)
      else if String.eqb (rn_Status run) "succeeded" then
        mret (NewExistingStartDAGResponse (rn_ID run) (rn_RunKey run) (rn_DagVersionSnapshot run) (rn_Status run) 0)
      else if str_in (rn_Status run) ["failed"; "cancelled"] then
        fail (Errorf [IdempotencyKeyExhausted] (Sprintf "idempotency key exhausted" [rn_RunKey run; rn_Status run]))
      else fail (Errorf [] (Sprintf "orchestration: StartDAG(%q): unexpected run status %q for run_key=%s" [dagKey; rn_Status run; runKey]))
  | None => fail (Errorf (err_is txErr) (Sprintf "orchestration: StartDAG(%q): unresolved unique violation for run_key=%s: %w" [dagKey; runKey]))
  end.

Definition runStartDAGWithFallback (dagKey runKey : string) (input : CreateRunInput) : M StartDAGResponse :=
  catch (startRunTx dagKey input)
    (fun txErr =>
       if negb (errors_Is txErr ErrUnique)
       then fail (Errorf (err_is txErr) (Sprintf "orchestration: StartDAG(%q): %w" [dagKey]))
       else resolveStartDAGUniqueViolation dagKey runKey txErr).

Definition StartDAG (req : StartDAGRequest) : M StartDAGResponse :=
  '(dagKey, dag) ← validateStartDAGPrereq req;
  let runKey := generateRunKey dagKey (sq_IdempotencyKey req) in
  runStartDAGWithFallback dagKey runKey
    (mkCreateRun runKey dagKey (dg_Version dag) (TrimSpace (sq_TriggerSource req)) RawEmpty).

(** ** Dispatching a node by hand *)

Record DispatchNodeRequest := mkDispatch { dq_DagKey : string; dq_NodeKey : string; dq_RunID : Z; dq_AssignedTo : string }.

Definition ErrDispatchNodeIneligible : string := "ErrDispatchNodeIneligible".
Definition ErrDispatchIncomplete : string := "ErrDispatchIncomplete".
Definition dispatchNodeWakeupKind : string := "manual_dispatch".

Definition normalizeDispatchInputs (req : DispatchNodeRequest) : result error (string * string * string * Z) :=
  let dagKey := TrimSpace (dq_DagKey req) in
  let nodeKey := TrimSpace (dq_NodeKey req) in
  let assignedTo := TrimSpace (dq_AssignedTo req) in
  if String.eqb dagKey EmptyString || String.eqb nodeKey EmptyString || String.eqb assignedTo EmptyString
  then Err (plain_error "orchestration: DispatchNode: dag_key/node_key/assigned_to required")
  else if (dq_RunID req <=? 0)%Z then Err (plain_error "orchestration: DispatchNode: run_id required for runtime node dispatch")
  else Ok (dagKey, nodeKey, assignedTo, dq_RunID req).

Definition findDispatchTarget (dagKey nodeKey : string) (runID : Z) : M Node :=
  nodes ← ListRunNodes dagKey runID;
  match List.find (fun n => String.eqb (nd_NodeKey n) nodeKey) nodes with
  | Some n => mret n
  | None => fail (Errorf [] (Sprintf "orchestration: DispatchNode: node %s/%s not found" [dagKey; nodeKey]))
  end.

Definition ensureDispatchEligible (target : Node) : result error unit :=
  guard_err (str_in (nd_Status target) ["pending"; "ready"])
    (Errorf [ErrDispatchNodeIneligible] (Sprintf "%w (current_status=%q)" [nd_Status target])).

Definition isAssignedDispatchCandidate (node : Node) (assignedTo : string) : bool :=
  if negb (str_in (nd_Status node) ["pending"; "ready"]) then false
  else
    let current := TrimSpace (nd_AssignedTo node) in
    if String.eqb current EmptyString then false
    else let expected := TrimSpace assignedTo in String.eqb expected EmptyString || String.eqb current expected.

(** Whether the node was marked. *)
Definition MarkDispatchIncompleteIfMissingWakeup (dagKey nodeKey : string) (runID : Z) (assignedTo : string) : M bool :=
  _ ← requireRuntimeRunID "mark_dispatch_incomplete" runID;
  s ← get_db;
  match List.find (fun n => run_node dagKey nodeKey runID n && (0 <? runID)%Z) (db_nodes s) with
  | None => mret false
  | Some node =>
      if negb (isAssignedDispatchCandidate node assignedTo) then mret false
      else if existsb (fun w => bool_decide (wk_RunID w = Some runID) && String.eqb (wk_DagKey w) dagKey
                                && String.eqb (wk_NodeKey w) nodeKey && open_wakeup w) (db_wakeups s)
      then mret false
      else
        _ ← store_UpdateNodeStatus json_ok (mkNodeUpdate "dispatch_incomplete" (nd_Status node)
              (RawJSON (JObj [("kind", JStr "dispatch_incomplete")])) dagKey nodeKey runID);
        mret true
  end.

(** A failure of the dispatch rolls nothing back: the mark is its own transaction,
    so the refusal is a value of the result. *)
Definition blockDispatchIncomplete (target : Node) (assignedTo : string) (runID : Z) : M (option error) :=
  if String.eqb (TrimSpace (nd_AssignedTo target)) EmptyString then mret None
  else
    marked ← MarkDispatchIncompleteIfMissingWakeup (nd_DagKey target) (nd_NodeKey target) runID (nd_AssignedTo target);
    mret (if marked : bool then Some (Errorf [ErrDispatchIncomplete] (Sprintf "%w: node %s/%s" [nd_DagKey target; nd_NodeKey target])) else None).

Definition set_assigned (assignedTo : string) (n : Node) : Node :=
  mkNode (nd_DagKey n) (nd_NodeKey n) (nd_RunID n) (nd_Title n) (nd_NodeType n) assignedTo
    (nd_DependsOn n) (nd_Reads n) (nd_Writes n) (nd_Status n) (nd_CommandRef n) (nd_Config n) (nd_Result n)
    (nd_ActiveTurnID n) (nd_ActiveWakeupID n) (nd_SpawningThreadID n).

Record AssignNodeInput := mkAssign { as_DagKey : string; as_NodeKey : string; as_RunID : Z; as_AssignedTo : string }.

Definition validateAssignNodeAndEnqueueWakeupInput (assign : AssignNodeInput) (wakeup : EnqueueWakeupInput) : M unit :=
  _ ← requireRuntimeRunID "assign_and_enqueue" (as_RunID assign);
  _ ← requireRuntimeRunID "assign_and_enqueue" (en_RunID wakeup);
  _ ← guardM (String.eqb (as_DagKey assign) (en_DagKey wakeup) && String.eqb (as_NodeKey assign) (en_NodeKey wakeup)
              && (as_RunID assign =? en_RunID wakeup)%Z)
        (plain_error "assign_and_enqueue: assignment and wakeup target mismatch");
  guardM (negb (String.eqb (TrimSpace (as_AssignedTo assign)) EmptyString || String.eqb (TrimSpace (en_TargetAgentID wakeup)) EmptyString))
    (plain_error "assign_and_enqueue: assigned_to and target_agent_id required").

Definition AssignTaskDagNode (assign : AssignNodeInput) : M nat :=
  update_nodes (fun n => run_node (as_DagKey assign) (as_NodeKey assign) (as_RunID assign) n
                         && str_in (nd_Status n) ["pending"; "ready"]) (set_assigned (as_AssignedTo assign)).

Definition AssignNode (assign : AssignNodeInput) : M Node :=
  _ ← requireRuntimeRunID "assign" (as_RunID assign);
  rows ← AssignTaskDagNode assign;
  _ ← requireSingleNodeWrite rows;
  GetTaskDagRunNodeForUpdate (as_DagKey assign) (as_NodeKey assign) (as_RunID assign).

Definition AssignNodeAndEnqueueWakeup (assign : AssignNodeInput) (wakeup : EnqueueWakeupInput) : M (Node * Z) :=
  _ ← validateAssignNodeAndEnqueueWakeupInput assign wakeup;
  rows ← AssignTaskDagNode assign;
  _ ← requireSingleNodeWrite rows;
  node ← GetTaskDagRunNodeForUpdate (as_DagKey assign) (as_NodeKey assign) (as_RunID assign);
  '(wakeupID, _) ← enqueueWakeupTx byte_len now_ms wakeup;
  mret (node, wakeupID).

Definition assignAndEnqueueDispatch (target : Node) (assignedTo : string) (runID : Z) : M (Node * Z) :=
  AssignNodeAndEnqueueWakeup (mkAssign (nd_DagKey target) (nd_NodeKey target) runID assignedTo)
    (mkEnqueue (nd_DagKey target) (nd_NodeKey target) runID dispatchNodeWakeupKind assignedTo
      (MarshalJSON (mkDownstream EmptyString 0 assignedTo []))
      (ManualDispatchIdempotencyKey (nd_DagKey target) (nd_NodeKey target) runID assignedTo)).

(** [Err] leaves the database alone; [Ok (inl e)] is the refusal that marked the node. *)
Definition DispatchNode (req : DispatchNodeRequest) : M (error + Node * Z) :=
  '(dagKey, nodeKey, assignedTo, runID) ← lift (normalizeDispatchInputs req);
  target ← findDispatchTarget dagKey nodeKey runID;
  _ ← lift (ensureDispatchEligible target);
  _ ← (if String.eqb (automaticDispatchNodeType (nd_NodeType target)) "agent"
       then _ ← lift (ValidateLaunchCWDForNodeConfig "agent" (nd_Config target)); mret tt else mret tt);
  blocked ← blockDispatchIncomplete target assignedTo runID;
  match blocked with
  | Some e => mret (inl e)
  | None => r ← assignAndEnqueueDispatch target assignedTo runID; mret (inr r)
  end.

(** ** Updating the status of a node *)

Record UpdateNodeStatusRequest := mkStatusRequest {
  uq_DagKey : string; uq_NodeKey : string; uq_RunID : Z; uq_Status : string; uq_Result : RawMessage;
}.

Definition nodeStatusUpdateFromRequest (req : UpdateNodeStatusRequest) : result error NodeStatusUpdate :=
  if String.eqb (TrimSpace (uq_DagKey req)) EmptyString then Err (plain_error "dag key is required")
  else if String.eqb (TrimSpace (uq_NodeKey req)) EmptyString then Err (plain_error "node key is required")
  else if String.eqb (TrimSpace (uq_Status req)) EmptyString then Err (plain_error "status is required")
  else if (uq_RunID req <=? 0)%Z then Err (plain_error "run_id is required for runtime node status update")
  else Ok (mkNodeUpdate (TrimSpace (uq_Status req)) EmptyString (uq_Result req)
             (TrimSpace (uq_DagKey req)) (TrimSpace (uq_NodeKey req)) (uq_RunID req)).

Definition validateNodeTransition (input : NodeStatusUpdate) : M Node :=
  nodes ← ListRunNodes (nu_DagKey input) (nu_RunID input);
  match List.find (fun n => String.eqb (nd_NodeKey n) (nu_NodeKey input)) nodes with
  | None => fail (Errorf [] (Sprintf "validate transition: node %s/%s not found" [nu_DagKey input; nu_NodeKey input]))
  | Some current =>
      _ ← lift (map_err (fun _ => plain_error "illegal transition") (ValidateTransition (nd_Status current) (nu_Status input)));
      mret current
  end.

Definition defaultWakeupLeaseInterval : string := "00:00:30".

(** [taskupdatelease.Validate]: the leases after it. *)
Definition Validate (now : Z) (agentID : string) (node : Node) (targetStatus : string) (t : list WorkerLease)
  : result error (list WorkerLease) :=
  let ownerID := TrimSpace agentID in
  let targetAgentID := TrimSpace (nd_AssignedTo node) in
  if String.eqb ownerID EmptyString || String.eqb targetAgentID EmptyString
  then Err (plain_error "task_update_node worker lease requires trusted agent_id and assigned_to")
  else
    '(rows, t) ← (if String.eqb (nd_Status node) "ready" && String.eqb targetStatus "running"
                  then AcquireWorkerLease now defaultWakeupLeaseInterval targetAgentID ownerID t
                  else '(rows, t) ← RenewWorkerLease now defaultWakeupLeaseInterval targetAgentID ownerID t;
                       Ok (Z.of_nat rows, t));
    if (rows =? 0)%Z then Err (plain_error "task_update_node worker lease rejected") else Ok t.

Definition failNodeWithDownstream (input : NodeStatusUpdate) : M Node :=
  let reason := raw_text (nu_Result input) in
  let reason := if String.eqb reason EmptyString then "task_update_node status=failed" else reason in
  res ← FailNodeAndCancelDownstream reencode
          (mkFail (nu_DagKey input) (nu_NodeKey input) (nu_RunID input) reason true 0 0);
  mret (fx_Node res).

Definition completeNodeWithDownstream (input : NodeStatusUpdate) : M Node :=
  res ← CompleteNodeAndScheduleDownstream byte_len now_text now_ms json_ok reencode
          (mkComplete (nu_Status input) (nu_Result input) (nu_DagKey input) (nu_NodeKey input) (nu_RunID input) 0 0);
  mret (cd_Node res).

(** The lease is taken in a transaction of its own, before the node is written: it
    stays when the write fails. *)
Definition UpdateNodeStatus (now : Z) (agentID : string) (req : UpdateNodeStatusRequest) (t : list WorkerLease) (s : db)
  : result error Node * list WorkerLease * db :=
  match nodeStatusUpdateFromRequest req with
  | Err e => (Err e, t, s)
  | Ok input =>
      match validateNodeTransition input s with
      | Err e => (Err e, t, s)
      | Ok (current, _) =>
          match Validate now agentID current (nu_Status input) t with
          | Err e => (Err e, t, s)
          | Ok t' =>
              let input := mkNodeUpdate (nu_Status input) (nd_Status current) (nu_Result input)
                             (nu_DagKey input) (nu_NodeKey input) (nu_RunID input) in
              let write := if String.eqb (nu_Status input) "done" then completeNodeWithDownstream input
                           else if String.eqb (nu_Status input) "failed" then failNodeWithDownstream input
                           else store_UpdateNodeStatus json_ok input in
              match write s with
              | Ok (node, s') => (Ok node, t', s')
              | Err e => (Err e, t', s)
              end
          end
      end
  end.
End service.
