(* ===== verification/ScheduledStart.v ===== *)
(** * Scheduled starts

    Models [scheduledstart/start.go], the ticker of [cron/scheduler_cron.go] and the
    schedule store and runtime lock of [fxadapter/dag_cron_store.go].  Times are
    milliseconds; the cron library is an argument. *)

From S2P Require Import Prelude GoStrings GoTime Json NodeConfig DagStore ApplyOps WakeupPayload RunStore RunService.

Definition ErrScheduleStateChanged : string := "ErrScheduleStateChanged".
Definition scheduledTriggerSource : string := "scheduled".

Record ScheduledDAGStartRequest := mkScheduledStart {
  ss_DagKey : string; ss_TriggerSource : string; ss_IdempotencyKey : string; ss_DueAt : Z; ss_NextRunAt : Z;
}.

Definition normalizeRequest (req : ScheduledDAGStartRequest) : result error (string * Z * Z * string) :=
  let dagKey := TrimSpace (ss_DagKey req) in
  let idempotencyKey := TrimSpace (ss_IdempotencyKey req) in
  if String.eqb dagKey EmptyString then Err (plain_error "scheduled start: dag_key required")
  else if IsZero (ss_DueAt req) then Err (Errorf [] (Sprintf "scheduled start %q: due_at required" [dagKey]))
  else if IsZero (ss_NextRunAt req) then Err (Errorf [] (Sprintf "scheduled start %q: next_run_at required" [dagKey]))
  else if String.eqb idempotencyKey EmptyString then Err (Errorf [] (Sprintf "scheduled start %q: idempotency_key required" [dagKey]))
  else if negb (String.eqb (TrimSpace (ss_TriggerSource req)) "scheduled")
  then Err (Errorf [] (Sprintf "scheduled start %q: trigger_source must be scheduled" [dagKey]))
  else Ok (dagKey, ss_DueAt req, ss_NextRunAt req, idempotencyKey).

Definition scheduledRunKey (dagKey idempotencyKey : string) : string := dagKey +:+ "#run-" +:+ TrimSpace idempotencyKey.

Definition rejectBlockedScheduledStart (dagKey : string) (readyRootNodes scheduledWakeups : Z) : result error unit :=
  guard_err (negb ((0 <? readyRootNodes)%Z && (scheduledWakeups =? 0)%Z))
    (Errorf [] (Sprintf "scheduled start %q: ready root nodes=%d but scheduled wakeups=0; root dispatch is blocked by missing assigned_to or node.config.exec" [dagKey; pretty readyRootNodes])).

(** The row is still scheduled for the time that is due. *)
Definition lockScheduledDAG (dagKey : string) (dueAt : Z) : M DAG :=
  dag ← catch (GetDAG dagKey)
    (fun e => if errors_Is e ErrNotFound then fail (Errorf [] (Sprintf "scheduled start: dag not found: %s" [dagKey]))
              else fail (Errorf (err_is e) (Sprintf "GetDAGForUpdate: %w" [])));
  _ ← guardM (String.eqb (TrimSpace (dg_Trigger dag)) "scheduled" && negb (String.eqb (TrimSpace (dg_CronExpr dag)) EmptyString))
        (Errorf [ErrScheduleStateChanged] (Sprintf "%w: dag_key=%s schedule disabled" [dagKey]));
  _ ← guardM (bool_decide (TimePtr (dg_NextRunAt dag) = Some dueAt))
        (Errorf [ErrScheduleStateChanged] (Sprintf "%w: dag_key=%s due_at=%s" [dagKey; RFC3339Nano dueAt]));
  mret dag.

Definition set_next_run (next : option Z) (d : DAG) : DAG :=
  mkDAG (dg_DagKey d) (dg_Version d) (dg_Title d) (dg_Description d) (dg_Status d) (dg_CreatedBy d) (dg_Metadata d)
    (dg_Trigger d) (dg_OwnerID d) (dg_CronExpr d) next.

(** [next_run_at = :due_at] on a scheduled row; NULL equals nothing. *)
Definition due_row (dagKey : string) (dueAt : option Z) (d : DAG) : bool :=
  String.eqb (dg_DagKey d) dagKey && String.eqb (dg_Trigger d) "scheduled" && negb (String.eqb (dg_CronExpr d) EmptyString)
  && match dg_NextRunAt d, dueAt with Some a, Some b => (a =? b)%Z | _, _ => false end.

Definition UpdateScheduledDAGNextRun (dagKey : string) (dueAt nextRunAt : Z) : M nat :=
  update_dags (due_row dagKey (TimeValuePtr dueAt)) (set_next_run (TimeValuePtr nextRunAt)).

Definition advanceNextRunTx (dagKey : string) (dueAt nextRunAt : Z) : M unit :=
  rows ← UpdateScheduledDAGNextRun dagKey dueAt nextRunAt;
  guardM (rows =? 1)%nat (Errorf [ErrScheduleStateChanged] (Sprintf "%w: dag_key=%s rows=%d" [dagKey; pretty rows])).

Section start.
Context (byte_len : RawMessage -> Z) (now_text : string) (now_ms : Z).

(** The body of the transaction. *)
Definition scheduledStartTx (dagKey runKey : string) (dueAt nextRunAt : Z) : M unit :=
  lockedDAG ← lockScheduledDAG dagKey dueAt;
  run ← CreateRun (mkCreateRun runKey dagKey (dg_Version lockedDAG) scheduledTriggerSource RawEmpty);
  _ ← CloneNodesForRun dagKey (rn_ID run);
  '(readyRootNodes, scheduledWakeups) ← PromoteAndScheduleRunRoots byte_len now_text now_ms dagKey (rn_ID run);
  _ ← lift (rejectBlockedScheduledStart dagKey (Z.of_nat readyRootNodes) scheduledWakeups);
  advanceNextRunTx dagKey dueAt nextRunAt.

(** The run of this time exists: its roots are scheduled again while it is running, and
    the schedule moves on.  No other transaction comes between the reads and this one. *)
Definition advanceConsumedRun (dagKey runKey : string) (dueAt nextRunAt : Z) (txErr : error) : M unit :=
  existing ← GetRun runKey;
  match existing with
  | None => fail (Errorf (err_is txErr) (Sprintf "scheduled start %q: unresolved unique violation for run_key=%s: %w" [dagKey; runKey]))
  | Some run =>
      _ ← guardM (str_in (rn_Status run) ["running"; "succeeded"; "failed"; "cancelled"])
            (Errorf [] (Sprintf "scheduled start %q: unexpected run status %q for run_key=%s" [dagKey; rn_Status run; runKey]));
      catch
        (_ ← lockScheduledDAG dagKey dueAt;
         _ ← (if String.eqb (rn_Status run) "running"
              then _ ← ScheduleRootWakeups byte_len now_text now_ms dagKey (rn_ID run); mret tt else mret tt);
         advanceNextRunTx dagKey dueAt nextRunAt)
        (fun e => fail (Errorf (err_is e) (Sprintf "scheduled start %q: advance consumed run %s: %w" [dagKey; runKey])))
  end.

Definition Start (req : ScheduledDAGStartRequest) : M unit :=
  '(dagKey, dueAt, nextRunAt, idempotencyKey) ← lift (normalizeRequest req);
  let runKey := scheduledRunKey dagKey idempotencyKey in
  catch (scheduledStartTx dagKey runKey dueAt nextRunAt)
    (fun txErr =>
       if negb (errors_Is txErr ErrUnique) then fail (Errorf (err_is txErr) (Sprintf "scheduled start %q: %w" [dagKey]))
       else advanceConsumedRun dagKey runKey dueAt nextRunAt txErr).
End start.

(** ** The schedule store *)

Record DueDAG := mkDue { du_DagKey : string; du_CronExpr : string; du_DueAt : Z }.

Definition due_now (nowMillis : Z) (d : DAG) : bool :=
  String.eqb (dg_Trigger d) "scheduled" && negb (String.eqb (dg_CronExpr d) EmptyString)
  && match dg_NextRunAt d with Some t => (t <=? nowMillis)%Z | None => false end.

(** [ORDER BY next_run_at ASC, id ASC]: rows are in the order of their ids, and rows of
    one time keep it. *)
Fixpoint insert_due (d : DAG) (l : list DAG) : list DAG :=
  match l with
  | [] => [d]
  | x :: rest => if (default 0 (dg_NextRunAt d) <=? default 0 (dg_NextRunAt x))%Z then d :: l else x :: insert_due d rest
  end.

Definition ListDueScheduledTaskDags (nowMillis : Z) (s : db) : list DAG :=
  foldr insert_due [] (List.filter (due_now nowMillis) (db_dags s)).

Definition DueDAGs (now : Z) (s : db) : result error (list DueDAG) :=
  map_result (fun row =>
    match dg_NextRunAt row with
    | None => Err (Errorf [] (Sprintf "scheduled dag %q has null next_run_at" [dg_DagKey row]))
    | Some t => Ok (mkDue (dg_DagKey row) (dg_CronExpr row) (TimeValue t))
    end) (ListDueScheduledTaskDags now s).

(** ** The runtime lock *)

Record RuntimeLock := mkLock { lk_Key : string; lk_Holder : string; lk_ExpiresAt : Z }.

Definition sqliteRuntimeLockLease : Z := 120000.

(** [INSERT ... ON CONFLICT DO UPDATE ... WHERE lease_expires_at < now]: whether the lock
    was taken. *)
Definition TryLock (now : Z) (key holder : string) (locks : list RuntimeLock) : bool * list RuntimeLock :=
  let fresh := mkLock key holder (now + sqliteRuntimeLockLease) in
  if existsb (fun l => String.eqb (lk_Key l) key) locks then
    let '(rows, n) := sql_update (fun l => String.eqb (lk_Key l) key && (lk_ExpiresAt l <? now)%Z) (fun _ => fresh) locks in
    (negb (n =? 0)%nat, rows)
  else (true, locks ++ [fresh]).

Definition lock_not_held : error := plain_error "cron: runtime lock was not held by holder".

Definition Renew (now : Z) (key holder : string) (locks : list RuntimeLock) : result error (list RuntimeLock) :=
  let '(rows, n) := sql_update (fun l => String.eqb (lk_Key l) key && String.eqb (lk_Holder l) holder)
                      (fun l => mkLock (lk_Key l) (lk_Holder l) (now + sqliteRuntimeLockLease)) locks in
  if (n =? 0)%nat then Err lock_not_held else Ok rows.

Definition Unlock (key holder : string) (locks : list RuntimeLock) : result error (list RuntimeLock) :=
  let '(rows, n) := sql_delete (fun l => String.eqb (lk_Key l) key && String.eqb (lk_Holder l) holder) locks in
  if (n =? 0)%nat then Err lock_not_held else Ok rows.

(** ** The ticker *)

Definition TickErrorClassInfrastructure : string := "infrastructure".
Definition TickErrorClassValidation : string := "validation".

Definition classifyTickError (class op : string) (e : error) : error :=
  Errorf (err_is e) (Sprintf "cron tick %s error (%s): %v" [op; class]).

Definition scheduledIdempotencyKey (dag : DueDAG) : string :=
  "scheduled:" +:+ TrimSpace (du_DagKey dag) +:+ ":" +:+ RFC3339Nano (du_DueAt dag).

(** [errors.Join] of the errors of the DAGs. *)
Definition joinDAGErrors (errs : list error) : option error :=
  match errs with
  | [] => None
  | [e] => Some e
  | _ => Some (Errorf (mjoin (err_is <$> errs)) (Sprintf "%v" []))
  end.

Section ticker.
Context {schedule : Type} (cron_parse : string -> option schedule) (cron_next : schedule -> Z -> Z).
Context (byte_len : RawMessage -> Z) (now_text : string) (now_ms : Z).

Definition nextRunAt (dag : DueDAG) (now : Z) : result error Z :=
  map_err (classifyTickError TickErrorClassValidation "parse_cron_expr") (NextDAGRunAt cron_parse cron_next (du_CronExpr dag) now).

Definition due_request (dag : DueDAG) (next : Z) : ScheduledDAGStartRequest :=
  mkScheduledStart (TrimSpace (du_DagKey dag)) scheduledTriggerSource (scheduledIdempotencyKey dag) (du_DueAt dag) next.

Definition triggerDueDAG (dag : DueDAG) (now : Z) : M unit :=
  next ← lift (nextRunAt dag now);
  let req := due_request dag next in
  catch (Start byte_len now_text now_ms req) (fun e => fail (Errorf (err_is e) (Sprintf "dag_key=%s start_dag: %w" [ss_DagKey req]))).

(** A DAG that fails does not stop the others. *)
Fixpoint trigger_loop (dags : list DueDAG) (now : Z) (s : db) : nat * list error * db :=
  match dags with
  | [] => (0, [], s)
  | dag :: dags =>
      match triggerDueDAG dag now s with
      | Ok (_, s) => let '(n, errs, s) := trigger_loop dags now s in (S n, errs, s)
      | Err e => let '(n, errs, s) := trigger_loop dags now s in (n, e :: errs, s)
      end
  end.

(** The scan under the lock. *)
Definition tick_body (now : Z) (s : db) : nat * option error * db :=
  match DueDAGs now s with
  | Err e => (0, Some (classifyTickError TickErrorClassInfrastructure "scan" e), s)
  | Ok dags => let '(n, errs, s) := trigger_loop dags now s in (n, joinDAGErrors errs, s)
  end.

(** [renewal]: what the renewals of the lock during the scan did to the table, and the
    error the last one reported.  The number of starts, the error and both tables. *)
Definition Tick (lockKey holder : string) (lock_now : Z) (renewal : list RuntimeLock -> list RuntimeLock * option error)
    (now : Z) (locks : list RuntimeLock) (s : db) : nat * option error * list RuntimeLock * db :=
  let '(acquired, locks) := TryLock lock_now lockKey holder locks in
  if negb acquired then (0, None, locks, s)
  else
    let '(triggered, err, s) := tick_body now s in
    let '(locks, renewErr) := renewal locks in
    let err := match renewErr, err with
               | Some e, None => Some (classifyTickError TickErrorClassInfrastructure "runtime_lock_renew" e)
               | _, _ => err
               end in
    match Unlock lockKey holder locks with
    | Ok locks => (triggered, err, locks, s)
    | Err e =>
        (triggered, match err with None => Some (classifyTickError TickErrorClassInfrastructure "runtime_lock_release" e) | _ => err end, locks, s)
    end.
End ticker.
