(* ===== verification/LeaseProtocol.v ===== *)
(** * What a claim on a wakeup guarantees

    Claiming answers exactly the rows it took, under a claim time no other row of the
    worker has, and a claim that ended (sent, retried, failed, reclaimed or taken over)
    never comes back to life: its fence matches nothing in every later state. *)

From S2P Require Import Prelude GoStrings Json NodeConfig DagStore WakeupPayload ApplyOps TemplateInvariant RunStore RunEffects WakeupLease RunService ScheduledStart.

(** ** Claiming *)

Lemma latest_claim_bound worker l w t :
  w ∈ l -> wk_ClaimedBy w = worker -> wk_ClaimedAt w = Some t ->
  exists m, latest_claim worker l = Some m /\ (t <= m)%Z.
Proof.
  induction l as [|x l IH]; [by intros ?%elem_of_nil|]. intros [->|Hw]%elem_of_cons Hby Hat; cbn [latest_claim foldr].
  - rewrite Hby, String.eqb_refl, Hat. case_match; eexists; split; try done; lia.
  - fold (latest_claim worker l). destruct (IH Hw Hby Hat) as (m & -> & Hm).
    case_match; [|eauto]. case_match; [|eauto]. eexists. split; [done|lia].
Qed.

Lemma filter_fmap_cond {A} (p q : A -> bool) (g : A -> A) l :
  (forall x, x ∈ l -> q x = true -> p (g x) = true) -> (forall x, x ∈ l -> q x = false -> p x = false) ->
  List.filter p ((fun x => if q x then g x else x) <$> l) = g <$> List.filter q l.
Proof.
  induction l as [|x l IH]; intros Hq Hn; [done|]. rewrite fmap_cons. cbn [List.filter].
  rewrite IH; [|intros; apply Hq; [by right|done]|intros; apply Hn; [by right|done]].
  destruct (q x) eqn:E; [by rewrite Hq by (done || left)|by rewrite Hn by (done || left)].
Qed.

(** Selecting rows by the identity of a part of the table selects that part. *)
Lemma filter_by_id (l sub : list Wakeup) :
  NoDup (wk_ID <$> l) -> sub ⊆+ l ->
  List.filter (fun w => existsb (Z.eqb (wk_ID w)) (wk_ID <$> sub)) l ≡ₚ sub.
Proof.
  intros Hnd Hsub. assert (NoDup l) as Hl by (by eapply NoDup_fmap_1).
  apply NoDup_Permutation.
  - apply NoDup_ListNoDup. apply List.NoDup_filter. by apply NoDup_ListNoDup.
  - destruct (submseteq_Permutation _ _ Hsub) as (k & Hk). rewrite Hk in Hl. by apply NoDup_app in Hl as [? _].
  - intros w. rewrite list_elem_of_In, filter_In, <- list_elem_of_In, existsb_exists. split.
    + intros (Hw & id & Hid & <-%Z.eqb_eq). apply list_elem_of_In, list_elem_of_fmap in Hid as (w' & Heq & Hw').
      assert (w = w') as ->; [|done]. eapply elem_of_submseteq in Hsub; [|exact Hw'].
      apply list_elem_of_lookup in Hw as (i & Hi), Hsub as (j & Hj).
      assert (i = j) as ->; [|congruence].
      eapply NoDup_lookup; [exact Hnd|rewrite list_lookup_fmap, Hi; simpl; done|rewrite list_lookup_fmap, Hj; simpl; by rewrite Heq].
    + intros Hw. split; [by eapply elem_of_submseteq|]. exists (wk_ID w). split; [|apply Z.eqb_refl].
      apply list_elem_of_In, list_elem_of_fmap. eauto.
Qed.

Lemma sql_limit_sub {A} n (l : list A) : sql_limit n l ⊆+ l.
Proof. unfold sql_limit. case_match; [done|]. apply sublist_submseteq, sublist_take. Qed.

Lemma filter_sub {A} (p : A -> bool) (l : list A) : List.filter p l ⊆+ l.
Proof.
  induction l as [|x l IH]; [done|]. cbn [List.filter]. destruct (p x); [by apply submseteq_skip|by apply submseteq_cons].
Qed.

(** The rows a claim takes: the first due ones. *)
Definition taken (now limit : Z) (s : db) : list Wakeup :=
  sql_limit limit (merge_sort due_le (List.filter (due now s) (db_wakeups s))).

Lemma taken_sub now limit s : taken now limit s ⊆+ db_wakeups s.
Proof.
  unfold taken. etrans; [apply sql_limit_sub|]. rewrite merge_sort_Permutation. apply filter_sub.
Qed.

Definition next_claim (now : Z) (worker : string) (s : db) : Z :=
  match latest_claim worker (db_wakeups s) with
  | Some t => if (go_ms now <=? t)%Z then (t + 1)%Z else go_ms now
  | None => go_ms now
  end.

Lemma next_claim_fresh now worker s w t :
  w ∈ db_wakeups s -> wk_ClaimedBy w = worker -> wk_ClaimedAt w = Some t -> (t < next_claim now worker s)%Z.
Proof.
  intros Hw Hby Hat. destruct (latest_claim_bound worker _ w t Hw Hby Hat) as (m & Hm & Hle).
  unfold next_claim. rewrite Hm. case_match; go_bool; lia.
Qed.

Lemma next_claim_now now worker s : (go_ms now <= next_claim now worker s)%Z.
Proof. unfold next_claim. repeat case_match; go_bool; lia. Qed.

(** C10: claiming.  With unique identities, a valid worker and a readable interval,
    ClaimDueWakeups always answers (its read-back check never fails): it takes the
    first due wakeups in the order of their retry times, at most the limit, gives
    each a further attempt and a claim time that is not in the past and above every
    claim time the worker has in the table, leaves the other rows alone, and answers
    exactly the rows it took. *)
Theorem ClaimDueWakeups_exact now input s lease :
  NoDup (wk_ID <$> db_wakeups s) ->
  validateWakeupWorkerID (cl_ClaimedBy input) = Ok tt ->
  parseLeaseDuration (cl_LeaseInterval input) "claim_due" "task_dag_wakeup" = Ok lease ->
  let worker := cl_ClaimedBy input in
  let at_ := next_claim now worker s in
  let rows := taken now (cl_Limit input) s in
  let claim := claimed_row worker at_ (at_ + lease) in
  (go_ms now <= at_)%Z
  /\ (forall w t, w ∈ db_wakeups s -> wk_ClaimedBy w = worker -> wk_ClaimedAt w = Some t -> (t < at_)%Z)
  /\ exists claimed,
    ClaimDueWakeups now input s
      = Ok (claimed, with_wakeups s ((fun w => if existsb (Z.eqb (wk_ID w)) (wk_ID <$> rows) then claim w else w) <$> db_wakeups s))
    /\ claimed ≡ₚ claim <$> rows.
Proof.
  intros Hnd Hworker Hlease worker at_ rows claim. split; [apply next_claim_now|].
  split; [intros w t Hw; by apply next_claim_fresh|].
  unfold ClaimDueWakeups, nextWakeupClaimFence, ClaimDueTaskDagWakeups, ListTaskDagWakeupsByClaimFence, update_wakeups,
    sql_update, due_ids, mbind, M_bind, lift, get_db, put_db, mret, M_ret, guardM.
  rewrite Hworker, Hlease. cbn. fold (next_claim now worker s) (taken now (cl_Limit input) s).
  change (match latest_claim (cl_ClaimedBy input) (db_wakeups s) with
          | Some t => if (go_ms now <=? t)%Z then (t + 1)%Z else go_ms now
          | None => go_ms now end) with at_.
  fold rows. set (hit := fun w => existsb (Z.eqb (wk_ID w)) (wk_ID <$> rows)).
  pose proof (filter_by_id _ _ Hnd (taken_sub now (cl_Limit input) s)) as Hperm.
  change (List.filter hit (db_wakeups s) ≡ₚ rows) in Hperm.
  destruct (length (List.filter hit (db_wakeups s))) as [|len] eqn:Hlen; cbn.
  - exists []. split; [done|]. apply Permutation_length in Hperm. rewrite Hlen in Hperm. by destruct rows.
  - rewrite (filter_fmap_cond (by_fence worker at_ (at_ + lease)) hit claim).
    + rewrite Permutation_length with (1 := merge_sort_Permutation _ _), length_fmap, Hlen, Nat.eqb_refl.
      eexists. split; [done|]. rewrite merge_sort_Permutation. by rewrite Hperm.
    + intros w _ _. unfold by_fence. cbn. by rewrite String.eqb_refl, !Z.eqb_refl.
    + intros w Hw _. unfold by_fence. destruct (String.eqb_spec (wk_ClaimedBy w) worker) as [Hby|]; [|by rewrite andb_false_r].
      destruct (wk_ClaimedAt w) as [t|] eqn:Hat; cbn [sql_eq]; [|by rewrite andb_false_r].
      pose proof (next_claim_fresh now worker s w t Hw Hby Hat) as H. change (t < at_)%Z in H.
      rewrite (proj2 (Z.eqb_neq t at_)) by lia. by rewrite andb_false_r.
Qed.

Lemma update_wakeups_Ok w g s n s' :
  update_wakeups w g s = Ok (n, s') ->
  s' = with_wakeups s ((fun x => if w x then g x else x) <$> db_wakeups s) /\ n = length (List.filter w (db_wakeups s)).
Proof. unfold update_wakeups, sql_update. intros H. by tx_ok. Qed.

(** ** Transactions on the queue *)

Section steps.
Context (byte_len : RawMessage -> Z) (now_text : string) (json_ok : RawMessage -> bool) (reencode : json -> json).
Context (same_config : RawMessage -> RawMessage -> bool).
Context (now : Z).

(** A relation that every statement on the wakeup table respects holds of every
    transaction: this is what a client of the queue proves once per statement. *)
Class WakeupRel (R : db -> db -> Prop) : Prop := {
  wr_pre :: PreOrder R;
  wr_same s s' : db_wakeups s' = db_wakeups s -> R s s';
  wr_enqueue now_ms input s r s' : EnqueueWakeup byte_len now_ms input s = Ok (r, s') -> R s s';
  wr_claim input s r s' : ClaimDueWakeups now input s = Ok (r, s') -> R s s';
  wr_renew interval f s r s' : RenewWakeupLease now interval f s = Ok (r, s') -> R s s';
  wr_sent f s r s' : MarkWakeupSent now f s = Ok (r, s') -> R s s';
  wr_retry f d e m s r s' : RetryTaskDagWakeup now f d e m s = Ok (r, s') -> R s s';
  wr_fail f e s r s' : FailWakeup now f e s = Ok (r, s') -> R s s';
  wr_bind t id b s r s' : bindWakeupTurnTx t id b s = Ok (r, s') -> R s s';
  wr_reclaim now_ms s r s' : ReclaimStaleDispatchingWakeups now_ms s = Ok (r, s') -> R s s';
  wr_cancel d r e s n s' : CancelTaskDagRunWakeups d r e s = Ok (n, s') -> R s s';
  wr_delete key s s' : db_wakeups s' = List.filter (fun w => negb (String.eqb (wk_DagKey w) key)) (db_wakeups s) -> R s s';
}.

Context (R : db -> db -> Prop) `{WR : !WakeupRel R}.

(** *** Transactions that write no wakeup *)

Definition wk_quiet {A} (m : M A) : Prop := forall s a s', m s = Ok (a, s') -> db_wakeups s' = db_wakeups s.

Lemma cancel_loop_wk_quiet fuel deps st d f r reason v q c :
  wk_quiet (cancel_loop fuel deps st d f r reason v q c).
Proof.
  revert v q c. induction fuel as [|fuel IH]; intros v [|k q] c s a s' H; cbn [cancel_loop] in H; tx_ok; [done..|].
  repeat case_match; [by apply IH in H..|]. unfold cascadeFailPendingNodeTx in H. tx_run. by apply IH in H.
Qed.

Lemma maybeFinalize_wk_quiet d r : wk_quiet (maybeFinalizeRunTx reencode d r).
Proof.
  intros s a s' H. unfold maybeFinalizeRunTx, ListTaskDagRunNodeStatuses, finalizeRunRowTx, writeRunFinalOutputMetadataTx,
    buildRunFinalOutputMetadataTx, loadRunFinalNodeKeyTx, loadRunFinalOutputNodeTx, updateRunFinalOutputMetadataTx, GetDAG in H.
  tx_run. repeat (case_match; tx_run; try done).
Qed.

Lemma failNode_wk_quiet input : wk_quiet (failNodeAndCancelDownstreamTx reencode input).
Proof.
  intros s a s' H. unfold failNodeAndCancelDownstreamTx, lockedNodeStatusBeforeFailTx, failNodeTx, wakeupFenceMatches,
    GetTaskDagWakeup, cancelDownstreamTx in H.
  tx_run. repeat match goal with
  | Hg : GetTaskDagRunNodeForUpdate _ _ _ _ = Ok _ |- _ => apply GetRunNode_Ok in Hg as (-> & _ & _)
  | Hg : cancel_loop _ _ _ _ _ _ _ _ _ _ _ = Ok _ |- _ => apply cancel_loop_wk_quiet in Hg
  | Hg : maybeFinalizeRunTx _ _ _ _ = Ok _ |- _ => apply maybeFinalize_wk_quiet in Hg
  | Hg : requireSingleAffectedRow _ _ _ = Ok _ |- _ => unfold requireSingleAffectedRow in Hg; repeat (case_match; tx_ok); try done
  end.
  all: repeat case_match; tx_run; cbn [db_wakeups with_nodes] in *; congruence.
Qed.

Lemma appendDispatchBlocked_wk_quiet n r sc c : wk_quiet (appendDispatchBlockedEvent now_text n r sc c).
Proof.
  intros s a s' H. unfold appendDispatchBlockedEvent, appendTaskDagRunEvent in H. tx_run. case_match; [|done]. by tx_run.
Qed.

Lemma schedule_loop_rel now_ms cands completed m acc s r s' :
  schedule_loop byte_len now_text now_ms cands completed m acc s = Ok (r, s') -> R s s'.
Proof.
  revert acc s. induction cands as [|c cands IH]; intros acc s H; cbn [schedule_loop] in H; tx_run; [done|].
  destruct x as [ins pr]. apply IH in H. etrans; [|exact H]. clear H IH. unfold scheduleDownstreamCandidateTx in *. tx_run.
  case_match; tx_run; [done|]. unfold promoteDownstreamCandidateTx, PromoteSingleNodePendingToReady in *. tx_run.
  case_match; tx_run; [|by apply wr_same]. unfold tryEnqueueDownstream in *.
  repeat case_match; tx_run; (etrans; [|
    first [eapply wr_same, appendDispatchBlocked_wk_quiet; eassumption | eapply wr_enqueue; eassumption]]);
    by apply wr_same.
Qed.

(** *** Composite transactions *)

Lemma Complete_rel now_ms input s r s' :
  CompleteNodeAndScheduleDownstream byte_len now_text now_ms json_ok reencode input s = Ok (r, s') -> R s s'.
Proof.
  intros H. unfold CompleteNodeAndScheduleDownstream, lockRunForCompletionTx, CompleteNode, scheduleDownstreamWakeupsTx in H. tx_run.
  match goal with Hg : GetTaskDagRunNodeForUpdate _ _ _ _ = Ok _ |- _ => apply GetRunNode_Ok in Hg as (-> & _ & _) end.
  match goal with p : list ScheduledDownstreamWakeup * _ |- _ => destruct p end. tx_run.
  match goal with Hf : maybeFinalizeRunTx _ _ _ _ = Ok _ |- _ => apply maybeFinalize_wk_quiet in Hf as Hq end.
  etrans; [|by apply wr_same]. case_match; tx_run; [|by apply wr_same].
  etrans; [|by eapply schedule_loop_rel]. by apply wr_same.
Qed.

Lemma TerminateRun_rel input s r s' : TerminateRun input s = Ok (r, s') -> R s s'.
Proof.
  intros H. unfold TerminateRun, terminateRunTx, CancelTaskDagRunNodes, cancelTaskDagRunRow, cancelledRunSpawnedThreadIDs,
    runSpawnedThreadIDs in H. tx_run.
  match goal with Hc : CancelTaskDagRunWakeups _ _ _ _ = Ok _ |- _ => apply wr_cancel in Hc as Hn end.
  etrans; [|etrans; [exact Hn|apply wr_same]]; [by apply wr_same|].
  repeat (case_match; tx_run; try done).
Qed.

(** *** Starts, dispatches and deletions *)

Lemma root_loop_rel now_ms nodes runID acc s r s' : root_loop byte_len now_text now_ms nodes runID acc s = Ok (r, s') -> R s s'.
Proof.
  revert acc s. induction nodes as [|n nodes IH]; intros acc s H; cbn [root_loop] in H; tx_ok; [done|]. etrans; [|by eapply IH].
  clear H IH. unfold scheduleRootWakeup in *. tx_ok. repeat (case_match; tx_ok; try done);
    first [eapply wr_same, appendDispatchBlocked_wk_quiet; eassumption | eapply wr_enqueue; eassumption].
Qed.

Lemma ScheduleRootWakeups_rel now_ms dagKey runID s r s' : ScheduleRootWakeups byte_len now_text now_ms dagKey runID s = Ok (r, s') -> R s s'.
Proof. unfold ScheduleRootWakeups. intros H. tx_run. by eapply root_loop_rel. Qed.

Lemma PromoteRoots_rel now_ms dagKey runID s r s' : PromoteAndScheduleRunRoots byte_len now_text now_ms dagKey runID s = Ok (r, s') -> R s s'.
Proof.
  unfold PromoteAndScheduleRunRoots, PromoteRootNodesToReady. intros H. tx_ok. tx_run. etrans; [|by eapply ScheduleRootWakeups_rel]. by apply wr_same.
Qed.

Lemma Clone_wk_quiet dagKey runID : wk_quiet (CloneNodesForRun dagKey runID).
Proof.
  unfold CloneNodesForRun, ListNodes. intros s u s' H. tx_ok.
  match type of H with forM _ _ ?b = _ => eapply (forM_inv (fun x => db_wakeups x = db_wakeups b)); [|done|exact H] end.
  intros t a w b _ Ha Hb. unfold insertRunNodeIfMissing in Hb. tx_ok. by destruct (existsb _ _); tx_ok.
Qed.

Lemma create_rel now_ms input dagKey s run s1 u s2 r s3 :
  CreateRun input s = Ok (run, s1) -> CloneNodesForRun dagKey (rn_ID run) s1 = Ok (u, s2) ->
  PromoteAndScheduleRunRoots byte_len now_text now_ms dagKey (rn_ID run) s2 = Ok (r, s3) -> R s s3.
Proof.
  intros H1 H2%Clone_wk_quiet H3%PromoteRoots_rel. etrans; [|exact H3]. apply wr_same. rewrite H2. unfold CreateRun in H1. tx_run. done.
Qed.

Lemma lockDAG_same dagKey s d s' : lockDAGForRunStart dagKey s = Ok (d, s') -> s' = s.
Proof.
  unfold lockDAGForRunStart, catch. destruct (GetDAG dagKey s) as [[d1 s1]|e] eqn:E; [|by case_match].
  apply GetDAG_Ok in E as [_ ->]. by intros [= _ <-].
Qed.

Lemma StartDAG_rel now_ms unix_nano req s r s' : StartDAG byte_len now_text now_ms unix_nano req s = Ok (r, s') -> R s s'.
Proof.
  intros H. unfold StartDAG, validateStartDAGPrereq, runStartDAGWithFallback, catch, resolveStartDAGUniqueViolation, GetRun in H. tx_ok. match goal with Hg : GetDAG _ _ = Ok _ |- _ => apply GetDAG_Ok in Hg as [_ ->] end.
  match type of H with match ?m with _ => _ end = _ => destruct m as [[a b]|e] eqn:E end.
  - injection H as <- <-. unfold startRunTx in E. tx_ok. match goal with Hl : lockDAGForRunStart _ _ = Ok _ |- _ => apply lockDAG_same in Hl as -> end.
    match goal with p : nat * Z |- _ => destruct p as [ready sched] end. tx_ok. by eapply create_rel.
  - repeat (case_match; tx_ok; try done). by eapply ScheduleRootWakeups_rel.
Qed.

Lemma lockScheduled_same dagKey dueAt s d s' : lockScheduledDAG dagKey dueAt s = Ok (d, s') -> s' = s.
Proof.
  unfold lockScheduledDAG, catch. intros H. apply M_bind_Ok in H as (d0 & s0 & Hc & H). tx_ok.
  destruct (GetDAG dagKey s) as [[d1 s1]|e] eqn:E; [|by case_match]. apply GetDAG_Ok in E as [_ ->]. by injection Hc as _ <-.
Qed.

Lemma advanceNextRun_wk_quiet dagKey dueAt next : wk_quiet (advanceNextRunTx dagKey dueAt next).
Proof. unfold advanceNextRunTx, UpdateScheduledDAGNextRun, update_dags, sql_update. intros s u s' H. by tx_ok. Qed.

Lemma Start_rel now_ms req s r s' : Start byte_len now_text now_ms req s = Ok (r, s') -> R s s'.
Proof.
  unfold Start. intros H. tx_ok. match goal with x : string * Z * Z * string |- _ => destruct x as [[[dk du] nx] ik] end. unfold catch in H. destruct (scheduledStartTx _ _ _ _ _ _ _ _) as [[ux sx]|e] eqn:E.
  - injection H as _ <-. unfold scheduledStartTx in E. apply M_bind_Ok in E as (? & ? & ? & E). tx_ok. match goal with Hl : lockScheduledDAG _ _ _ = Ok _ |- _ => apply lockScheduled_same in Hl as -> end.
    match goal with p : nat * Z |- _ => destruct p as [ready sched] end. tx_ok. etrans; [by eapply create_rel|]. apply wr_same. by eapply advanceNextRun_wk_quiet.
  - case_match; [done|]. unfold advanceConsumedRun, GetRun in H. tx_ok. destruct (List.find _ _); [|done]. tx_ok.
    unfold catch in H. match type of H with match ?m with _ => _ end = _ => destruct m as [[u0 s0]|e0] eqn:Hb end; [|done]. injection H as -> ->. tx_ok.
    match goal with Hl : lockScheduledDAG _ _ _ = Ok _ |- _ => apply lockScheduled_same in Hl as -> end.
    etrans; [|by apply wr_same; eapply advanceNextRun_wk_quiet]. case_match; tx_ok; [|done]. by eapply ScheduleRootWakeups_rel.
Qed.

Lemma blockDispatch_wk_quiet target assignedTo runID : wk_quiet (blockDispatchIncomplete json_ok target assignedTo runID).
Proof.
  unfold blockDispatchIncomplete, MarkDispatchIncompleteIfMissingWakeup, store_UpdateNodeStatus. intros s r s' H. case_match; tx_ok; [done|]. tx_run.
  repeat (case_match; tx_run; try done). all: by match goal with Hg : GetTaskDagRunNodeForUpdate _ _ _ _ = Ok _ |- _ => apply GetRunNode_Ok in Hg as (-> & _ & _) end.
Qed.

Lemma enqueued_Ok now_ms input s id n s' :
  (0 < en_RunID input)%Z -> enqueueWakeupTx byte_len now_ms input s = Ok ((id, n), s') -> EnqueueWakeup byte_len now_ms input s = Ok (n, s').
Proof.
  intros Hpos Henq. pose proof Henq as Hval. unfold enqueueWakeupTx in Hval. tx_ok. unfold EnqueueWakeup.
  remember (enqueueWakeupTx byte_len now_ms input) as m eqn:Em. clear Em. unfold guardM, lift, mbind, M_bind.
  repeat match goal with Hv : validateWakeupIdempotencyKey _ = Ok _ |- _ => rewrite Hv; clear Hv | Hv : validateEnqueueWakeupPayload _ _ _ _ = Ok _ |- _ => rewrite Hv; clear Hv end.
  rewrite (proj2 (Z.ltb_lt _ _) Hpos). cbn. by rewrite Henq.
Qed.

Lemma Assign_rel now_ms assign wakeup s r s' : AssignNodeAndEnqueueWakeup byte_len now_ms assign wakeup s = Ok (r, s') -> R s s'.
Proof.
  unfold AssignNodeAndEnqueueWakeup, validateAssignNodeAndEnqueueWakeupInput, AssignTaskDagNode. intros H. tx_run.
  match goal with Hg : GetTaskDagRunNodeForUpdate _ _ _ _ = Ok _ |- _ => apply GetRunNode_Ok in Hg as (-> & _ & _) end.
  match goal with p : Z * Z |- _ => destruct p as [id inserted] end. tx_ok. etrans; [|by eapply wr_enqueue, enqueued_Ok].
  by apply wr_same.
Qed.

Lemma DispatchNode_rel now_ms req s r s' : DispatchNode byte_len now_ms json_ok req s = Ok (r, s') -> R s s'.
Proof.
  unfold DispatchNode. intros H. tx_ok. repeat match goal with p : string * string * string * Z |- _ => destruct p as [[[? ?] ?] ?] end. tx_ok.
  unfold findDispatchTarget in *. tx_run.
  match goal with Hf : match List.find ?p ?l with _ => _ end ?a = Ok (_, ?b) |- _ => assert (b = a) as -> by (destruct (List.find p l); by tx_ok) end.
  match goal with Hf : blockDispatchIncomplete _ _ _ _ ?a = Ok (?r, ?b) |- _ => apply blockDispatch_wk_quiet in Hf; etrans; [|transitivity b; [by apply wr_same|]]; [|destruct r; tx_ok; [done|by eapply Assign_rel]] end.
  destruct (String.eqb (automaticDispatchNodeType _) "agent"); by tx_ok.
Qed.

Lemma DeleteDAG_rel key s r s' : store_DeleteDAG key s = Ok (r, s') -> R s s'.
Proof.
  unfold store_DeleteDAG, lockDAGForDelete, CountRunningRunsByDagKey, deleteDAGDependents, deleteDAGRow. intros H. tx_ok. match goal with Hg : GetDAG _ _ = Ok _ |- _ => apply GetDAG_Ok in Hg as [_ ->] end.
  unfold sql_delete in H. cbn [fst] in H. tx_ok. by apply (wr_delete (TrimSpace key)).
Qed.

(** The transactions that other clients of the store commit, at the clock [now]. *)
Inductive lease_step : db -> db -> Prop :=
| ls_enqueue now_ms input r s s' : EnqueueWakeup byte_len now_ms input s = Ok (r, s') -> lease_step s s'
| ls_claim input r s s' : ClaimDueWakeups now input s = Ok (r, s') -> lease_step s s'
| ls_renew interval f r s s' : RenewWakeupLease now interval f s = Ok (r, s') -> lease_step s s'
| ls_sent f r s s' : MarkWakeupSent now f s = Ok (r, s') -> lease_step s s'
| ls_bind turn id r s s' : BindWakeupTurn turn id s = Ok (r, s') -> lease_step s s'
| ls_bind_node input r s s' : BindRunningNodeTurn input s = Ok (r, s') -> lease_step s s'
| ls_retry input r s s' : RetryWakeup now input s = Ok (r, s') -> lease_step s s'
| ls_retry_patch retry patch r s s' :
    RetryWakeupWithNodeConfigPatch json_ok now same_config retry patch s = Ok (r, s') -> lease_step s s'
| ls_fail f e r s s' : FailWakeup now f e s = Ok (r, s') -> lease_step s s'
| ls_fail_node f e node r s s' :
    FailWakeupAndFailNodeAndCancelDownstream reencode now f e node s = Ok (r, s') -> lease_step s s'
| ls_reclaim now_ms r s s' : ReclaimOnce now_ms s = Ok (r, s') -> lease_step s s'
| ls_terminate input r s s' : TerminateRun input s = Ok (r, s') -> lease_step s s'
| ls_complete now_ms input r s s' :
    CompleteNodeAndScheduleDownstream byte_len now_text now_ms json_ok reencode input s = Ok (r, s') -> lease_step s s'
| ls_fail_run_node input r s s' : FailNodeAndCancelDownstream reencode input s = Ok (r, s') -> lease_step s s'
| ls_start now_ms unix_nano req r s s' : StartDAG byte_len now_text now_ms unix_nano req s = Ok (r, s') -> lease_step s s'
| ls_scheduled now_ms req r s s' : Start byte_len now_text now_ms req s = Ok (r, s') -> lease_step s s'
| ls_dispatch now_ms req r s s' : DispatchNode byte_len now_ms json_ok req s = Ok (r, s') -> lease_step s s'
| ls_delete key r s s' : store_DeleteDAG key s = Ok (r, s') -> lease_step s s'
| ls_other s s' : db_wakeups s' = db_wakeups s -> lease_step s s'.

Lemma lease_step_rel s s' : lease_step s s' -> R s s'.
Proof.
  destruct 1 as [? ? ? ? ? H|? ? ? ? H|? ? ? ? ? H|? ? ? ? H|? ? ? ? ? H|? ? ? ? H|? ? ? ? H|? ? ? ? ? H|? ? ? ? ? H
    |? ? ? ? ? ? H|? ? ? ? H|? ? ? ? H|? ? ? ? ? H|? ? ? ? H|? ? ? ? ? ? H|? ? ? ? ? H|? ? ? ? ? H|? ? ? ? H|? ? H].
  - by eapply wr_enqueue.
  - by eapply wr_claim.
  - by eapply wr_renew.
  - by eapply wr_sent.
  - by eapply wr_bind.
  - unfold BindRunningNodeTurn in H. tx_run. apply GetRunNode_Ok in H as (-> & _ & _).
    etrans; [by eapply wr_bind|by apply wr_same].
  - unfold RetryWakeup in H. tx_ok. by eapply wr_retry.
  - unfold RetryWakeupWithNodeConfigPatch, PatchTaskDagNodeConfigIfUnchanged in H. tx_run.
    etrans; [by eapply wr_retry|]. case_match; tx_run; [done|by apply wr_same].
  - by eapply wr_fail.
  - unfold FailWakeupAndFailNodeAndCancelDownstream in H. tx_run. etrans; [by eapply wr_fail|].
    case_match; tx_run; [done|]. apply wr_same. by eapply failNode_wk_quiet.
  - unfold ReclaimOnce, MarkDispatchIncompleteNodesWithoutActiveWakeup in H. tx_run.
    etrans; [by eapply wr_reclaim|by apply wr_same].
  - by eapply TerminateRun_rel.
  - by eapply Complete_rel.
  - unfold FailNodeAndCancelDownstream in H. tx_run. apply wr_same. by eapply failNode_wk_quiet.
  - by eapply StartDAG_rel.
  - by eapply Start_rel.
  - by eapply DispatchNode_rel.
  - by eapply DeleteDAG_rel.
  - by apply wr_same.
Qed.
End steps.

(** ** Ended claims stay ended *)

(** The row is being dispatched under the claim of [worker] at [at_]. *)
Definition under_claim (id at_ : Z) (worker : string) (w : Wakeup) : Prop :=
  wk_ID w = id /\ wk_Status w = "dispatching" /\ wk_ClaimedAt w = Some at_ /\ wk_ClaimedBy w = worker.

Definition claim_live (id at_ : Z) (worker : string) (s : db) : Prop := Exists (under_claim id at_ worker) (db_wakeups s).

(** A step at [now] makes no claim of the past live. *)
Definition no_revive (now : Z) (s s' : db) : Prop := forall id at_ worker,
  (at_ < go_ms now)%Z -> claim_live id at_ worker s' -> claim_live id at_ worker s.

Lemma no_revive_same now s s' : db_wakeups s' = db_wakeups s -> no_revive now s s'.
Proof. unfold no_revive, claim_live. by intros ->. Qed.

#[export] Instance no_revive_preorder now : PreOrder (no_revive now).
Proof. split; [by intros s id at_ worker|]. intros s1 s2 s3 H1 H2 id at_ worker Hlt Hl. auto. Qed.

(** A row update that leaves claims as they are or ends them. *)
Lemma update_wakeups_no_revive now w g s n s' :
  (forall id at_ worker x, (at_ < go_ms now)%Z -> w x = true -> under_claim id at_ worker (g x) -> under_claim id at_ worker x) ->
  update_wakeups w g s = Ok (n, s') -> no_revive now s s'.
Proof.
  intros Hg H id at_ worker Hlt. apply update_wakeups_Ok in H as [-> _]. unfold claim_live. cbn. rewrite Exists_fmap.
  intros Hex. eapply Exists_impl; [exact Hex|]. intros x Hx. unfold compose in Hx. destruct (w x) eqn:E; [|done]. by eapply Hg.
Qed.

Ltac ends_claim :=
  intros ? ? ? ? ? Hw (Hid & Hst & Hat & Hby); cbn in *;
  try discriminate; try (split_and!; done).

Section revive.
Context (byte_len : RawMessage -> Z) (now : Z).

Lemma EnqueueWakeup_no_revive now_ms input s r s' : EnqueueWakeup byte_len now_ms input s = Ok (r, s') -> no_revive now s s'.
Proof.
  intros H. unfold EnqueueWakeup, enqueueWakeupTx in H. tx_run. repeat (case_match; tx_run; try done).
  intros id at_ worker _. unfold claim_live. cbn. rewrite Exists_app. intros [?|Hn]; [done|].
  apply Exists_cons in Hn as [(_ & Hs & _)|Hn]; [done|by apply Exists_nil in Hn].
Qed.

Lemma ClaimDueWakeups_no_revive input s r s' : ClaimDueWakeups now input s = Ok (r, s') -> no_revive now s s'.
Proof.
  intros H. unfold ClaimDueWakeups, nextWakeupClaimFence, ClaimDueTaskDagWakeups, ListTaskDagWakeupsByClaimFence in H. tx_ok.
  cbn beta iota in *. tx_ok.
  match goal with Hc : update_wakeups _ _ ?a = Ok (?n, ?b) |- _ => assert (no_revive now a b) as Hn end.
  { eapply update_wakeups_no_revive; [|eassumption]. intros id at_ worker x Hlt _ (_ & _ & Hat & _). cbn in Hat.
    injection Hat as <-. exfalso. repeat case_match; go_bool; lia. }
  case_match; tx_ok; done.
Qed.

Lemma RenewWakeupLease_no_revive interval f s r s' : RenewWakeupLease now interval f s = Ok (r, s') -> no_revive now s s'.
Proof.
  intros H. unfold RenewWakeupLease, GetTaskDagWakeup in H. tx_ok.
  match goal with Hc : update_wakeups _ _ ?a = Ok (?n, ?b) |- _ => assert (no_revive now a b) as Hn
    by (eapply update_wakeups_no_revive; [|eassumption]; ends_claim) end.
  repeat (case_match; tx_ok; try done).
Qed.

Lemma MarkWakeupSent_no_revive f s r s' : MarkWakeupSent now f s = Ok (r, s') -> no_revive now s s'.
Proof. apply update_wakeups_no_revive. ends_claim. Qed.

Lemma RetryTaskDagWakeup_no_revive f d e m s r s' : RetryTaskDagWakeup now f d e m s = Ok (r, s') -> no_revive now s s'.
Proof. apply update_wakeups_no_revive. ends_claim. Qed.

Lemma FailWakeup_no_revive f e s r s' : FailWakeup now f e s = Ok (r, s') -> no_revive now s s'.
Proof. apply update_wakeups_no_revive. ends_claim. Qed.

Lemma bindWakeupTurnTx_no_revive t id b s r s' : bindWakeupTurnTx t id b s = Ok (r, s') -> no_revive now s s'.
Proof.
  intros H. unfold bindWakeupTurnTx in H. tx_ok. eapply update_wakeups_no_revive; [|eassumption]. ends_claim.
Qed.

Lemma Reclaim_no_revive now_ms s r s' : ReclaimStaleDispatchingWakeups now_ms s = Ok (r, s') -> no_revive now s s'.
Proof. unfold ReclaimStaleDispatchingWakeups. intros H. tx_ok. eapply update_wakeups_no_revive; [|eassumption]. ends_claim. Qed.

Lemma CancelWakeups_no_revive d r e s n s' : CancelTaskDagRunWakeups d r e s = Ok (n, s') -> no_revive now s s'.
Proof. apply update_wakeups_no_revive. ends_claim. Qed.

Lemma Delete_no_revive key s s' :
  db_wakeups s' = List.filter (fun w => negb (String.eqb (wk_DagKey w) key)) (db_wakeups s) -> no_revive now s s'.
Proof.
  intros Hw id at_ worker _. unfold claim_live. rewrite Hw, !Exists_exists. intros (x & Hx & Hu). exists x. split; [|done].
  rewrite list_elem_of_In, filter_In, <- list_elem_of_In in Hx. by destruct Hx.
Qed.

#[export] Instance no_revive_rel : WakeupRel byte_len now (no_revive now).
Proof.
  split; [apply _|exact (no_revive_same now)|exact EnqueueWakeup_no_revive|exact ClaimDueWakeups_no_revive|exact RenewWakeupLease_no_revive|exact MarkWakeupSent_no_revive|exact RetryTaskDagWakeup_no_revive|exact FailWakeup_no_revive|exact bindWakeupTurnTx_no_revive|exact Reclaim_no_revive|exact CancelWakeups_no_revive|exact Delete_no_revive].
Qed.
End revive.

(** ** Settling *)

(** The claim of the fence is settled: its row is sent, retried or failed. *)
Inductive settle (now : Z) (f : wakeupFence) (s s' : db) : Prop :=
| settle_sent : MarkWakeupSent now f s = Ok (1, s') -> settle now f s s'
| settle_retry d e m : RetryTaskDagWakeup now f d e m s = Ok (1, s') -> settle now f s s'
| settle_fail e : FailWakeup now f e s = Ok (1, s') -> settle now f s s'.

(** Nothing can be done with the fence, whatever the clock says: the three
    settlements and the renewal match no row, and node writes are refused. *)
Record inert (f : wakeupFence) (s : db) : Prop := {
  in_sent : forall now, MarkWakeupSent now f s = Ok (0, s);
  in_retry : forall now d e m, RetryTaskDagWakeup now f d e m s = Ok (0, s);
  in_fail : forall now e, FailWakeup now f e s = Ok (0, s);
  in_renew : forall now interval r s', RenewWakeupLease now interval f s = Ok (r, s') -> r = (None, 0) /\ s' = s;
  in_node : forall now nf dagKey nodeKey runID s',
    wf_WakeupID nf = f_ID f -> wf_ClaimedAt nf = f_ClaimedAt f -> TrimSpace (wf_ClaimedBy nf) = f_ClaimedBy f ->
    validateWakeupFenceTx now nf dagKey nodeKey runID s <> Ok (tt, s');
}.

Lemma sql_eq_Some a b : sql_eq a b = true -> exists x, a = Some x /\ b = Some x.
Proof. destruct a, b; simpl; try done. intros ->%Z.eqb_eq. eauto. Qed.

Lemma held_claim now f at_ w : f_ClaimedAt f = Some at_ -> held now f w = true -> under_claim (f_ID f) at_ (f_ClaimedBy f) w.
Proof.
  intros Hat H. unfold held in H. go_bool.
  match goal with He : sql_eq (wk_ClaimedAt w) _ = true |- _ => apply sql_eq_Some in He as (x & ? & ?) end.
  split_and!; congruence.
Qed.

Lemma update_wakeups_none w g s :
  (forall x, x ∈ db_wakeups s -> w x = false) -> update_wakeups w g s = Ok (0, s).
Proof.
  intros H. unfold update_wakeups, sql_update, mbind, M_bind, get_db, put_db, mret, M_ret. cbn.
  assert (forall l, (forall x, x ∈ l -> w x = false) ->
    length (List.filter w l) = 0 /\ (fun r => if w r then g r else r) <$> l = l) as Hl.
  { induction l as [|x l IH]; intros Hx; [done|]. rewrite fmap_cons. cbn [List.filter]. rewrite (Hx x) by left.
    destruct IH as [-> ->]; [|done]. intros y Hy. apply Hx. by right. }
  destruct (Hl _ H) as [-> ->]. by destruct s.
Qed.

Lemma dead_inert f at_ s : f_ClaimedAt f = Some at_ -> ~ claim_live (f_ID f) at_ (f_ClaimedBy f) s -> inert f s.
Proof.
  intros Hat Hdead. assert (forall now x, x ∈ db_wakeups s -> held now f x = false) as Hno.
  { intros now x Hx. apply not_true_iff_false. intros Hh. apply Hdead, Exists_exists. exists x.
    split; [done|]. by eapply held_claim. }
  split.
  - intros now. by apply update_wakeups_none, Hno.
  - intros now d e m. apply update_wakeups_none. intros x Hx. by rewrite (Hno now x Hx).
  - intros now e. by apply update_wakeups_none, Hno.
  - intros now interval r s' H. unfold RenewWakeupLease in H. tx_ok.
    match goal with Hu : update_wakeups _ _ ?a = Ok _ |- _ => rewrite update_wakeups_none in Hu by apply Hno; simplify_eq end.
    by tx_ok.
  - intros now nf dagKey nodeKey runID s' Hid Hca Hby H. unfold validateWakeupFenceTx, GetTaskDagWakeup in H. tx_ok.
    destruct (List.find _ _) as [row|] eqn:E; tx_ok. apply find_some in E as [Hin%list_elem_of_In Hrow%Z.eqb_eq].
    unfold validateWakeupFenceRowIdentity, validateWakeupFenceRowLease in *. go_bool.
    match goal with He : sql_eq (wk_ClaimedAt row) _ = true |- _ => apply sql_eq_Some in He as (x & ? & ?) end.
    apply Hdead, Exists_exists. exists row. split; [done|]. split_and!; congruence.
Qed.

(** A write that matches the claim of a row with a unique identity, and takes the
    row out of dispatching, ends the claim. *)
Lemma settled_dead now f at_ (w : Wakeup -> bool) g s s' :
  NoDup (wk_ID <$> db_wakeups s) -> f_ClaimedAt f = Some at_ -> (forall x, w x = true -> held now f x = true) ->
  (forall x, wk_ID (g x) = wk_ID x /\ wk_Status (g x) <> "dispatching") ->
  update_wakeups w g s = Ok (1, s') -> ~ claim_live (f_ID f) at_ (f_ClaimedBy f) s'.
Proof.
  intros Hnd Hat Hw Hg H Hlive. apply update_wakeups_Ok in H as [-> Hone].
  assert (exists x, x ∈ db_wakeups s /\ w x = true) as (x0 & Hx0 & Hw0).
  { destruct (List.filter w (db_wakeups s)) as [|x l] eqn:E; [done|]. exists x.
    assert (In x (List.filter w (db_wakeups s))) as [? ?]%filter_In by (rewrite E; by left). by rewrite list_elem_of_In. }
  destruct (held_claim now f at_ x0 Hat (Hw _ Hw0)) as (Hid0 & _).
  unfold claim_live in Hlive. cbn in Hlive. apply Exists_exists in Hlive as (x & Hx & Hid & Hst & _).
  apply list_elem_of_fmap in Hx as (y & -> & Hy). destruct (w y) eqn:E; [by destruct (Hg y)|].
  assert (y = x0) as ->; [|congruence].
  apply list_elem_of_lookup in Hy as (i & Hi), Hx0 as (j & Hj).
  assert (i = j) as ->; [|congruence].
  eapply NoDup_lookup; [exact Hnd|rewrite list_lookup_fmap, Hi; done|rewrite list_lookup_fmap, Hj; simpl; congruence].
Qed.

(** C8: a claim is settled at most once.  Sending, retrying or failing a wakeup ends
    the claim of the fence; and once a claim has ended (settled, reclaimed after its
    lease, or cancelled), then after any sequence of transactions whose claims are
    later than it, its fence is inert: nobody can settle or renew with it again, and
    no node write accepts it. *)
Theorem claim_settled_once byte_len now_text json_ok reencode same_config f at_ :
  f_ClaimedAt f = Some at_ ->
  let later s s' := exists now, (at_ < go_ms now)%Z
    /\ lease_step byte_len now_text json_ok reencode same_config now s s' in
  (forall now s s', NoDup (wk_ID <$> db_wakeups s) -> settle now f s s' -> ~ claim_live (f_ID f) at_ (f_ClaimedBy f) s')
  /\ (forall s s', ~ claim_live (f_ID f) at_ (f_ClaimedBy f) s -> rtc later s s' -> inert f s').
Proof.
  intros Hat later. split.
  - intros now s s' Hnd [H|d e m H|e H]; eapply (settled_dead now); try exact H; try done;
      intros x; intros; cbn beta in *; go_bool; done.
  - intros s s' Hdead Hsteps. apply (dead_inert f at_); [done|]. intros Hl. apply Hdead. clear Hdead.
    induction Hsteps as [s|s1 s2 s3 (now & Hlt & Hstep) _ IH]; [done|].
    apply (lease_step_rel _ _ _ _ _ _ (no_revive now) _ _ Hstep _ _ _ Hlt). by apply IH.
Qed.

(** ** A small queue *)

Definition sample_wakeup (id retry : Z) : Wakeup :=
  mkWakeup id "d" "n" (Some 1%Z) "node_start" "w" (RawJSON (JObj [])) 1 (pretty id) "pending" 0 retry
    None EmptyString None None None EmptyString.

Definition sample_queue : db :=
  mkDB [] [] [mkRun 1 "r" "d" 1 "manual" "running" (RawJSON (JArr [])) (RawJSON (JObj []))]
    [sample_wakeup 7 2000; sample_wakeup 8 1000; sample_wakeup 9 9000].

Definition sample_claim : ClaimDueWakeupsInput := mkClaimDue "disp" "30s" 1.

Lemma ClaimDueWakeups_exact_witness :
  exists claimed s',
    ClaimDueWakeups 5000000000 sample_claim sample_queue = Ok (claimed, s') /\ wk_ID <$> claimed = [8%Z].
Proof.
  destruct (ClaimDueWakeups_exact 5000000000 sample_claim sample_queue 30000) as (_ & _ & claimed & Hrun & Hperm).
  - apply NoDup_ListNoDup. repeat constructor; cbn; lia.
  - vm_compute. reflexivity.
  - vm_compute. reflexivity.
  - eexists _, _. split; [exact Hrun|]. apply Permutation_singleton_r.
    rewrite Hperm. vm_compute. reflexivity.
Defined.

Definition sample_claimed : db :=
  match ClaimDueWakeups 5000000000 sample_claim sample_queue with Ok (_, s) => s | Err _ => sample_queue end.

Definition sample_fence : wakeupFence := mkFence 8 (Some 5000%Z) "disp" (Some 35000%Z).

(** The lease runs out, the row is reclaimed and claimed again: the first fence is
    inert. *)
Definition sample_reclaimed : db :=
  match ReclaimStaleDispatchingWakeups 40000 sample_claimed with Ok (_, s) => s | Err _ => sample_claimed end.
Definition sample_again : db :=
  match ClaimDueWakeups 40000000000 (mkClaimDue "disp" "30s" 5) sample_reclaimed with Ok (_, s) => s | Err _ => sample_reclaimed end.

Lemma claim_settled_once_witness :
  inert sample_fence sample_again /\ wk_ClaimedAt <$> db_wakeups sample_again = [Some 40000%Z; Some 40000%Z; Some 40000%Z].
Proof.
  split; [|vm_compute; reflexivity].
  destruct (claim_settled_once (fun _ => 0%Z) EmptyString (fun _ => true) id (fun _ _ => true) sample_fence 5000 eq_refl)
    as [_ H]. apply (H sample_reclaimed).
  - unfold claim_live. intros Hex. apply Exists_exists in Hex as (w & Hw & Hid & Hst & _).
    assert (Forall (fun w => String.eqb (wk_Status w) "dispatching" = false) (db_wakeups sample_reclaimed)) as Hall
      by (vm_compute; repeat constructor).
    rewrite Forall_forall in Hall. apply Hall in Hw. rewrite Hst in Hw. discriminate Hw.
  - eapply rtc_l; [|apply rtc_refl]. exists 40000000000%Z. split; [done|].
    eapply (ls_claim _ _ _ _ _ _ (mkClaimDue "disp" "30s" 5)). vm_compute. reflexivity.
Defined.

(** SQL reads the clock in whole seconds, the claim reads milliseconds: renewing a
    claim in the second it was made shortens its lease. *)
Example renew_shortens :
  match ClaimDueWakeups 5900000000 sample_claim sample_queue with
  | Ok ([w], s) =>
      match RenewClaimedWakeupLease 5950000000 w "30s" s with
      | Ok (w', _) => wk_LeaseExpiresAt w = Some 35900%Z /\ wk_LeaseExpiresAt w' = Some 35000%Z
      | Err _ => False
      end
  | _ => False
  end.
Proof. vm_compute. split; reflexivity. Qed.

(** ** Worker leases *)

Lemma sql_update_none {A} (w : A -> bool) g (t : list A) : (forall x, x ∈ t -> w x = false) -> sql_update w g t = (t, 0).
Proof.
  intros H. unfold sql_update. induction t as [|x t IH]; [done|]. rewrite fmap_cons. cbn [List.filter]. rewrite (H x) by left.
  specialize (IH ltac:(intros y Hy; apply H; by right)). simplify_eq. by f_equal; [f_equal|].
Qed.

(** Worker leases exclude each other.  While an owner holds an unexpired lease on an
    agent, no other owner acquires or renews it, and the table is left alone; once it
    has expired, another owner acquires it, and from then on the old owner can neither
    renew nor release it.  Targets stay unique in the table. *)
Theorem worker_lease_exclusive now t l owner interval lease :
  NoDup (wl_TargetAgentID <$> t) -> l ∈ t -> owner <> wl_OwnerID l ->
  (forall operation, parseLeaseDuration interval operation "task_dag_worker_lease" = Ok lease) ->
  let target := wl_TargetAgentID l in
  if (sql_ms now <=? wl_LeaseExpiresAt l)%Z then
    AcquireWorkerLease now interval target owner t = Ok (0%Z, t)
    /\ RenewWorkerLease now interval target owner t = Ok (0, t)
  else exists t',
    AcquireWorkerLease now interval target owner t = Ok (1%Z, t')
    /\ mkLease target owner (sql_ms now + lease) ∈ t'
    /\ NoDup (wl_TargetAgentID <$> t')
    /\ (forall now', RenewWorkerLease now' interval target (wl_OwnerID l) t' = Ok (0, t'))
    /\ is_ok (ReleaseWorkerLease target (wl_OwnerID l) t') = false.
Proof.
  intros Hnd Hl Hne Hparse target.
  assert (forall x, x ∈ t -> acquirable now target owner x = true -> x = l /\ (wl_LeaseExpiresAt l < sql_ms now)%Z) as Hacq.
  { intros x Hx Ha. unfold acquirable in Ha. apply andb_true_iff in Ha as [Ht Ho]. apply String.eqb_eq in Ht.
    assert (x = l) as -> by (by eapply (same_key wl_TargetAgentID)). split; [done|].
    apply orb_true_iff in Ho as [Ho|Ho]; [by apply Z.ltb_lt in Ho|]. apply String.eqb_eq in Ho. congruence. }
  assert (existsb (fun x => String.eqb (wl_TargetAgentID x) target) t = true) as Hex.
  { apply existsb_exists. exists l. rewrite <- list_elem_of_In. split; [done|apply String.eqb_refl]. }
  destruct (Z.leb_spec (sql_ms now) (wl_LeaseExpiresAt l)) as [Hvalid|Hexp].
  - unfold AcquireWorkerLease, RenewWorkerLease. rewrite !Hparse. cbn [mbind result_bind]. rewrite !sql_update_none.
    + by rewrite Hex.
    + intros x Hx. apply not_true_iff_false. intros Hr. unfold renewable in Hr. go_bool.
      assert (x = l) as -> by (by eapply (same_key wl_TargetAgentID)). congruence.
    + intros x Hx. apply not_true_iff_false. intros Ha. apply Hacq in Ha as [_ ?]; [lia|done].
  - set (g := fun l => mkLease (wl_TargetAgentID l) owner (sql_ms now + lease)).
    assert (forall x, x ∈ t -> acquirable now target owner x = String.eqb (wl_TargetAgentID x) target) as Hhit.
    { intros x Hx. unfold acquirable. destruct (String.eqb_spec (wl_TargetAgentID x) target) as [Ht|]; [|done].
      assert (x = l) as -> by (by eapply (same_key wl_TargetAgentID)). by rewrite (proj2 (Z.ltb_lt _ _) Hexp). }
    set (t' := (fun x => if acquirable now target owner x then g x else x) <$> t).
    assert (wl_TargetAgentID <$> t' = wl_TargetAgentID <$> t) as Hkeys.
    { unfold t'. rewrite <- list_fmap_compose. apply list_fmap_ext. intros i x _. unfold compose. by case_match. }
    assert (forall x, x ∈ t' -> wl_TargetAgentID x = target -> wl_OwnerID x = owner) as Hown.
    { unfold t'. intros x (y & -> & Hy)%list_elem_of_fmap. rewrite (Hhit y Hy).
      destruct (String.eqb_spec (wl_TargetAgentID y) target); done. }
    assert (length (List.filter (acquirable now target owner) t) = 1) as Hone.
    { apply (filter_single _ _ l); [by eapply NoDup_fmap_1|done|by rewrite (Hhit l Hl), String.eqb_refl|].
      intros y Hy Ha. by apply Hacq in Ha as [? _]. }
    exists t'. split_and!.
    + unfold AcquireWorkerLease. rewrite Hparse. cbn [mbind result_bind]. unfold sql_update. by rewrite Hone.
    + unfold t'. apply list_elem_of_fmap. exists l. split; [|done]. by rewrite (Hhit l Hl), String.eqb_refl.
    + by rewrite Hkeys.
    + intros now'. unfold RenewWorkerLease. rewrite Hparse. cbn [mbind result_bind]. rewrite sql_update_none; [done|].
      intros x Hx. apply not_true_iff_false. intros Hr. unfold renewable in Hr. go_bool. by rewrite (Hown x Hx) in *.
    + unfold ReleaseWorkerLease, sql_delete. replace (length _) with 0; [done|]. symmetry. apply length_zero_iff_nil.
      apply elem_of_nil_inv. intros x. rewrite list_elem_of_In, filter_In, <- list_elem_of_In. intros [Hx Hr]. go_bool.
      by rewrite (Hown x Hx) in *.
Qed.

Lemma worker_lease_exclusive_witness :
  AcquireWorkerLease 5000000000 "30s" "w" "b" [mkLease "w" "a" 60000] = Ok (0%Z, [mkLease "w" "a" 60000])
  /\ exists t', AcquireWorkerLease 90000000000 "30s" "w" "b" [mkLease "w" "a" 60000] = Ok (1%Z, t')
       /\ mkLease "w" "b" 120000 ∈ t'.
Proof.
  assert (forall operation, parseLeaseDuration "30s" operation "task_dag_worker_lease" = Ok 30000%Z) as Hp.
  { intros operation. unfold parseLeaseDuration. replace (intervalValue "30s") with (Ok 30000%Z : result error Z) by (vm_compute; reflexivity).
    reflexivity. }
  assert (NoDup (wl_TargetAgentID <$> [mkLease "w" "a" 60000])) as Hnd by apply NoDup_singleton.
  split.
  - pose proof (worker_lease_exclusive 5000000000 [mkLease "w" "a" 60000] (mkLease "w" "a" 60000) "b" "30s" 30000
      Hnd ltac:(left) ltac:(discriminate) Hp) as H. cbn [wl_TargetAgentID wl_LeaseExpiresAt] in H.
    replace (sql_ms 5000000000 <=? 60000)%Z with true in H by (vm_compute; reflexivity). exact (proj1 H).
  - pose proof (worker_lease_exclusive 90000000000 [mkLease "w" "a" 60000] (mkLease "w" "a" 60000) "b" "30s" 30000
      Hnd ltac:(left) ltac:(discriminate) Hp) as H. cbn [wl_TargetAgentID wl_LeaseExpiresAt] in H.
    replace (sql_ms 90000000000 <=? 60000)%Z with false in H by (vm_compute; reflexivity).
    destruct H as (t' & H1 & H2 & _). exists t'. split; [exact H1|].
    replace (sql_ms 90000000000 + 30000)%Z with 120000%Z in H2 by (vm_compute; reflexivity). exact H2.
Defined.
