(* ===== verification/QueueRefinement.v ===== *)
(** * The wakeup table is a queue of jobs

    The specification: a queue holds jobs, each with an identity and a key.  A job is
    added once per key, waits, is taken by a worker, and is given back, delivered or
    dropped.  The table of wakeups implements it: every transaction of the store is a
    sequence of steps of the queue, whatever the order in which clients commit. *)

From S2P Require Import Prelude GoStrings Json NodeConfig DagStore WakeupPayload RunStore RunEffects WakeupLease LeaseProtocol.

(** ** The specification *)

Inductive job_state :=
| Waiting (tries : Z)
| Taken (tries : Z) (worker : string) (since : option Z)
| Delivered (tries : Z)
| Dropped (tries : Z).

(** What may happen to a job; a dropped one stays as it is. *)
Inductive job_step : job_state -> job_state -> Prop :=
| job_take n worker t : job_step (Waiting n) (Taken (n + 1) worker t)
| job_give_back n worker t : job_step (Taken n worker t) (Waiting n)
| job_deliver n worker t : job_step (Taken n worker t) (Delivered n)
| job_drop n worker t : job_step (Taken n worker t) (Dropped n)
| job_cancel n : job_step (Waiting n) (Dropped n)
| job_revoke n : job_step (Delivered n) (Dropped n).

Record job := mkJob { jb_id : Z; jb_key : string; jb_dag : string; jb_state : job_state }.

Inductive queue_step : list job -> list job -> Prop :=
| queue_add q id key dag : id ∉ jb_id <$> q -> key ∉ jb_key <$> q -> queue_step q (q ++ [mkJob id key dag (Waiting 0)])
| queue_job q1 q2 id key dag st st' : job_step st st' -> queue_step (q1 ++ mkJob id key dag st :: q2) (q1 ++ mkJob id key dag st' :: q2)
| queue_purge q dag : queue_step q (List.filter (fun j => negb (String.eqb (jb_dag j) dag)) q).

(** ** The table as a queue *)

Definition state_of (w : Wakeup) : job_state :=
  if String.eqb (wk_Status w) "pending" then Waiting (wk_AttemptCount w)
  else if String.eqb (wk_Status w) "dispatching" then Taken (wk_AttemptCount w) (wk_ClaimedBy w) (wk_ClaimedAt w)
  else if String.eqb (wk_Status w) "sent" then Delivered (wk_AttemptCount w)
  else Dropped (wk_AttemptCount w).

Definition job_of (w : Wakeup) : job := mkJob (wk_ID w) (wk_IdempotencyKey w) (wk_DagKey w) (state_of w).

Definition queue_of (s : db) : list job := job_of <$> db_wakeups s.

(** Identities are unique; the step is a sequence of steps of the queue. *)
Definition refines (s s' : db) : Prop :=
  NoDup (wk_ID <$> db_wakeups s) -> NoDup (wk_ID <$> db_wakeups s') /\ rtc queue_step (queue_of s) (queue_of s').

#[export] Instance refines_preorder : PreOrder refines.
Proof.
  split; [by intros s Hs|]. intros s1 s2 s3 H1 H2 Hs. destruct (H1 Hs) as [Hs2 Hq1]. destruct (H2 Hs2) as [Hs3 Hq2].
  split; [done|by etrans].
Qed.

Lemma refines_same s s' : db_wakeups s' = db_wakeups s -> refines s s'.
Proof. unfold refines, queue_of. by intros ->. Qed.

(** The row stays the same job, which does nothing or makes one step. *)
Definition row_step (w w' : Wakeup) : Prop :=
  wk_ID w' = wk_ID w /\ wk_IdempotencyKey w' = wk_IdempotencyKey w /\ wk_DagKey w' = wk_DagKey w /\ (state_of w' = state_of w \/ job_step (state_of w) (state_of w')).

Lemma rows_step pre l l' : Forall2 row_step l l' -> rtc queue_step (pre ++ (job_of <$> l)) (pre ++ (job_of <$> l')).
Proof.
  intros H. revert pre. induction H as [|w w' l l' (Hid & Hk & Hd & Hst) _ IH]; intros pre; [done|]. rewrite !fmap_cons.
  transitivity (pre ++ job_of w' :: (job_of <$> l)).
  - unfold job_of at 1 3. rewrite Hid, Hk, Hd. destruct Hst as [->|Hst]; [done|]. apply rtc_once. by apply queue_job.
  - specialize (IH (pre ++ [job_of w'])). by rewrite <- !app_assoc in IH.
Qed.

Lemma refines_rows s s' : Forall2 row_step (db_wakeups s) (db_wakeups s') -> refines s s'.
Proof.
  intros H Hnd. split; [|by apply (rows_step [])]. replace (wk_ID <$> db_wakeups s') with (wk_ID <$> db_wakeups s); [done|].
  clear Hnd. induction H as [|w w' l l' (Hid & _) _ IH]; [done|]. rewrite !fmap_cons. congruence.
Qed.

Lemma row_step_refl w : row_step w w.
Proof. split_and!; auto. Qed.

Lemma refines_update w g s n s' :
  (NoDup (wk_ID <$> db_wakeups s) -> forall x, x ∈ db_wakeups s -> w x = true -> row_step x (g x)) ->
  update_wakeups w g s = Ok (n, s') -> refines s s'.
Proof.
  intros Hg H Hnd. apply update_wakeups_Ok in H as [-> _]. specialize (Hg Hnd). revert Hnd. apply refines_rows. cbn. apply Forall2_fmap_r, Forall2_same_length_lookup.
  split; [done|]. intros i x y Hx Hy. simplify_eq. destruct (w x) eqn:E; cbn; rewrite E; [|apply row_step_refl]. apply Hg; [by eapply list_elem_of_lookup_2|done].
Qed.

(** ** The statements *)

Section statements.
Context (byte_len : RawMessage -> Z) (now : Z).

Lemma next_id_new ids : next_id ids ∉ ids.
Proof. intros Hin%next_id_fresh. lia. Qed.

Lemma EnqueueWakeup_refines now_ms input s r s' : EnqueueWakeup byte_len now_ms input s = Ok (r, s') -> refines s s'.
Proof.
  intros H. unfold EnqueueWakeup, enqueueWakeupTx in H. tx_ok. destruct (List.find _ _) eqn:E; tx_ok; [done|]. intros Hnd. cbn.
  split.
  - rewrite fmap_app. apply NoDup_app. split_and!; [done| |cbn; apply NoDup_singleton].
    intros i Hi Hi'. apply list_elem_of_singleton in Hi'. cbn in Hi'. rewrite Hi' in Hi. by apply (next_id_new (wk_ID <$> db_wakeups s)).
  - unfold queue_of. cbn. rewrite fmap_app. apply rtc_once. cbn. apply queue_add.
    + rewrite <- list_fmap_compose. apply next_id_new.
    + rewrite <- list_fmap_compose. intros Hin. apply list_elem_of_fmap in Hin as (w & Hk & Hw). cbn in Hk.
      eapply find_none in E; [|by apply list_elem_of_In]. cbn in E. rewrite <- Hk, String.eqb_refl in E. done.
Qed.

(** The states of rows by their status. *)
Lemma state_pending w : wk_Status w = "pending" -> state_of w = Waiting (wk_AttemptCount w).
Proof. unfold state_of. by intros ->. Qed.
Lemma state_dispatching w : wk_Status w = "dispatching" -> state_of w = Taken (wk_AttemptCount w) (wk_ClaimedBy w) (wk_ClaimedAt w).
Proof. unfold state_of. by intros ->. Qed.
Lemma state_sent w : wk_Status w = "sent" -> state_of w = Delivered (wk_AttemptCount w).
Proof. unfold state_of. by intros ->. Qed.

Lemma held_dispatching f x : held now f x = true -> wk_Status x = "dispatching".
Proof. unfold held. intros H. go_bool. done. Qed.

(** A row under a claim moves as its new row says. *)
Lemma held_row f x w' :
  held now f x = true -> wk_ID w' = wk_ID x -> wk_IdempotencyKey w' = wk_IdempotencyKey x -> wk_DagKey w' = wk_DagKey x ->
  (state_of w' = Taken (wk_AttemptCount x) (wk_ClaimedBy x) (wk_ClaimedAt x) \/ job_step (Taken (wk_AttemptCount x) (wk_ClaimedBy x) (wk_ClaimedAt x)) (state_of w')) ->
  row_step x w'.
Proof. intros H Hid Hk Hd Hst. unfold row_step. by rewrite (state_dispatching x (held_dispatching _ _ H)). Qed.

Lemma MarkWakeupSent_refines f s r s' : MarkWakeupSent now f s = Ok (r, s') -> refines s s'.
Proof. apply refines_update. intros _ x _ H. eapply held_row; [done..|]. right. constructor. Qed.

Lemma RetryTaskDagWakeup_refines f d e m s r s' : RetryTaskDagWakeup now f d e m s = Ok (r, s') -> refines s s'.
Proof. apply refines_update. intros _ x _ H. go_bool. eapply held_row; [done..|]. right. constructor. Qed.

Lemma FailWakeup_refines f e s r s' : FailWakeup now f e s = Ok (r, s') -> refines s s'.
Proof. apply refines_update. intros _ x _ H. eapply held_row; [done..|]. right. constructor. Qed.

Lemma RenewWakeupLease_refines interval f s r s' : RenewWakeupLease now interval f s = Ok (r, s') -> refines s s'.
Proof.
  intros H. unfold RenewWakeupLease, GetTaskDagWakeup in H. tx_ok.
  match goal with Hc : update_wakeups _ _ ?a = Ok (?n, ?b) |- _ => assert (refines a b) as Hn end.
  { eapply refines_update; [|eassumption]. intros _ wk _ Hh. eapply held_row; [done..|]. left.
    apply (state_dispatching (renewed_row now _ wk)). exact (held_dispatching _ _ Hh). }
  repeat (case_match; tx_ok; try done).
Qed.

Lemma bindWakeupTurnTx_refines t id b s r s' : bindWakeupTurnTx t id b s = Ok (r, s') -> refines s s'.
Proof.
  intros H. unfold bindWakeupTurnTx in H. tx_ok. eapply refines_update; [|eassumption]. intros _ wk _ Hh. split_and!; auto.
Qed.

Lemma Reclaim_refines now_ms s r s' : ReclaimStaleDispatchingWakeups now_ms s = Ok (r, s') -> refines s s'.
Proof.
  unfold ReclaimStaleDispatchingWakeups. intros H. tx_ok. eapply refines_update; [|eassumption]. intros _ wk _ Hh.
  unfold reclaimable in Hh. go_bool. split_and!; [done..|]. right. rewrite (state_dispatching wk) by done. constructor.
Qed.

Lemma CancelWakeups_refines d r e s n s' : CancelTaskDagRunWakeups d r e s = Ok (n, s') -> refines s s'.
Proof.
  apply refines_update. intros _ wk _ Hh. go_bool. split_and!; [done..|]. right.
  match goal with H : str_in _ _ = true |- _ => apply str_in_elem in H; rewrite !elem_of_cons in H; destruct H as [H|[H|[H|H]]] end.
  - rewrite (state_pending wk) by done. constructor.
  - rewrite (state_dispatching wk) by done. constructor.
  - rewrite (state_sent wk) by done. constructor.
  - match goal with H : _ ∈ [] |- _ => by apply not_elem_of_nil in H end.
Qed.

Lemma due_pending s w : due now s w = true -> wk_Status w = "pending".
Proof. unfold due. intros H. go_bool. done. Qed.

Lemma same_id s x y : NoDup (wk_ID <$> db_wakeups s) -> x ∈ db_wakeups s -> y ∈ db_wakeups s -> wk_ID x = wk_ID y -> x = y.
Proof.
  intros Hnd Hx Hy Hid. apply list_elem_of_lookup in Hx as (i & Hi), Hy as (j & Hj). assert (i = j) as ->; [|congruence].
  eapply NoDup_lookup; [exact Hnd|rewrite list_lookup_fmap, Hi; done|rewrite list_lookup_fmap, Hj; simpl; congruence].
Qed.

Lemma taken_pending limit s x : NoDup (wk_ID <$> db_wakeups s) -> x ∈ db_wakeups s -> wk_ID x ∈ due_ids now s limit -> wk_Status x = "pending".
Proof.
  intros Hnd Hx Hid. apply list_elem_of_fmap in Hid as (y & Hid & Hy).
  assert (y ∈ List.filter (due now s) (db_wakeups s)) as Hin.
  { eapply elem_of_submseteq in Hy; [|apply sql_limit_sub]. by rewrite merge_sort_Permutation in Hy. }
  apply list_elem_of_In, filter_In in Hin as [Hin Hdue]. apply list_elem_of_In in Hin.
  rewrite (same_id _ _ _ Hnd Hx Hin Hid). by eapply due_pending.
Qed.

Lemma ClaimDueWakeups_refines input s r s' : ClaimDueWakeups now input s = Ok (r, s') -> refines s s'.
Proof.
  intros H. unfold ClaimDueWakeups, nextWakeupClaimFence, ClaimDueTaskDagWakeups, ListTaskDagWakeupsByClaimFence in H. tx_ok.
  cbn beta iota in *. tx_ok.
  match goal with Hc : update_wakeups _ _ ?a = Ok (?n, ?b) |- _ => assert (refines a b) as Hn end.
  { eapply refines_update; [|eassumption]. intros Hnd wk Hx Hid. apply existsb_exists in Hid as (i & Hi & Heq%Z.eqb_eq).
    split_and!; [done..|]. right. rewrite (state_pending wk); [constructor|].
    eapply taken_pending; [done..|]. rewrite Heq. by apply list_elem_of_In. }
  case_match; tx_ok; done.
Qed.

Lemma Delete_refines key s s' :
  db_wakeups s' = List.filter (fun w => negb (String.eqb (wk_DagKey w) key)) (db_wakeups s) -> refines s s'.
Proof.
  intros Hw Hnd. rewrite Hw. split.
  - apply NoDup_ListNoDup. apply NoDup_ListNoDup in Hnd. clear Hw. revert Hnd. generalize (db_wakeups s). intros l Hnd. induction l as [|w l IH]; [done|].
    rewrite fmap_cons in Hnd. apply List.NoDup_cons_iff in Hnd as [Hn Hnd]. cbn [List.filter]. case_match; [|by apply IH]. rewrite fmap_cons. constructor; [|by apply IH].
    intros Hin. apply Hn. apply list_elem_of_In, list_elem_of_fmap in Hin as (x & -> & Hx). apply list_elem_of_In, list_elem_of_fmap_2. rewrite list_elem_of_In, filter_In, <- list_elem_of_In in Hx. by destruct Hx.
  - apply rtc_once. unfold queue_of. rewrite Hw. replace (job_of <$> List.filter _ (db_wakeups s)) with (List.filter (fun j => negb (String.eqb (jb_dag j) key)) (job_of <$> db_wakeups s)); [constructor|].
    generalize (db_wakeups s). intros l. induction l as [|w l IH]; [done|]. rewrite fmap_cons. cbn [List.filter job_of jb_dag]. case_match; [rewrite fmap_cons; by f_equal|done].
Qed.

#[export] Instance refines_rel : WakeupRel byte_len now refines.
Proof.
  split; [apply _|exact refines_same|exact EnqueueWakeup_refines|exact ClaimDueWakeups_refines|exact RenewWakeupLease_refines
    |exact MarkWakeupSent_refines|exact RetryTaskDagWakeup_refines|exact FailWakeup_refines|exact bindWakeupTurnTx_refines
    |exact Reclaim_refines|exact CancelWakeups_refines|exact Delete_refines].
Qed.
End statements.

(** ** The refinement *)

(** The transactions of any clients, at any times. *)
Definition store_step byte_len now_text json_ok reencode same_config (s s' : db) : Prop :=
  exists now, lease_step byte_len now_text json_ok reencode same_config now s s'.

(** C9: the wakeup table implements the queue.  From a table with unique identities,
    every sequence of transactions (starting a run, by hand or on schedule, dispatching a node, enqueueing,
    claiming, renewing, sending, binding, retrying, failing, reclaiming, cancelling a run, completing and failing nodes,
    deleting a DAG, and any that leaves the table alone) of any clients
    is a sequence of steps of the queue: a job is added with an identity and a
    key that no job of the queue has, taken only while it waits and with one more try, ended only by being
    given back, delivered or dropped after it was taken (or by the end of its run), does not
    come back once dropped, and leaves the queue only with all the jobs of its DAG. *)
Theorem queue_refinement byte_len now_text json_ok reencode same_config s s' :
  NoDup (wk_ID <$> db_wakeups s) ->
  rtc (store_step byte_len now_text json_ok reencode same_config) s s' ->
  rtc queue_step (queue_of s) (queue_of s') /\ NoDup (wk_ID <$> db_wakeups s').
Proof.
  intros Hnd Hsteps. assert (refines s s') as Hr; [|by destruct (Hr Hnd)]. clear Hnd.
  induction Hsteps as [s|s1 s2 s3 (now & Hstep) _ IH]; [done|]. etrans; [|exact IH].
  by apply (lease_step_rel _ _ _ _ _ now refines) in Hstep.
Qed.

(** The first due wakeup of the sample is claimed, its lease runs out, and all three are
    claimed again: the first job is in its second try. *)
Lemma queue_refinement_witness :
  rtc queue_step (queue_of sample_queue) (queue_of sample_again)
  /\ jb_state <$> queue_of sample_again = [Taken 1 "disp" (Some 40000%Z); Taken 2 "disp" (Some 40000%Z); Taken 1 "disp" (Some 40000%Z)].
Proof.
  split; [|vm_compute; reflexivity].
  apply (queue_refinement (fun _ => 0%Z) EmptyString (fun _ => true) id (fun _ _ => true) sample_queue sample_again).
  - apply NoDup_ListNoDup. repeat constructor; cbn; lia.
  - apply rtc_l with sample_claimed; [|apply rtc_l with sample_reclaimed; [|apply rtc_once]].
    + exists 5000000000%Z. eapply (ls_claim _ _ _ _ _ _ sample_claim). vm_compute. reflexivity.
    + exists 40000000000%Z. eapply (ls_reclaim _ _ _ _ _ _ 40000). vm_compute. reflexivity.
    + exists 40000000000%Z. eapply (ls_claim _ _ _ _ _ _ (mkClaimDue "disp" "30s" 5)). vm_compute. reflexivity.
Defined.
