(* ===== verification/RunGraph.v ===== *)
(** * The rows of a run as a dependency graph

    Well-formed runs, the status and the reverse-dependency maps that the
    transactions build, and the failure cascade of [store_fail_downstream.go]: its
    queue loop ends, and fails exactly the waiting transitive dependents. *)

From S2P Require Import Prelude GoStrings Json NodeConfig DagStore WakeupPayload RunStore RunEffects TemplateInvariant.

(** ** Dependencies of run rows *)

Definition run_deps (n : Node) : list string :=
  match store_decodeDependsOn (nd_DependsOn n) with Ok ds => ds | Err _ => [] end.

Definition decodes (n : Node) : Prop := store_decodeDependsOn (nd_DependsOn n) = Ok (run_deps n).

(** Node [k] waits for node [d]. *)
Definition depends (rows : list Node) (k d : string) : Prop :=
  exists n, n ∈ rows /\ nd_NodeKey n = k /\ d ∈ run_deps n.

Record run_wf (rows : list Node) : Prop := {
  rw_nodup : NoDup (nd_NodeKey <$> rows);
  rw_decodes : Forall decodes rows;
  rw_clean : forall k d, depends rows k d -> trimmed d /\ d <> EmptyString;
  rw_closed : forall k d, depends rows k d -> d ∈ (nd_NodeKey <$> rows);
  rw_acyclic : forall k, ~ tc (depends rows) k k;
}.

Definition status_of (rows : list Node) (key : string) : string := default EmptyString (status_map rows !! key).

Lemma status_map_snoc rows n : status_map (rows ++ [n]) = <[nd_NodeKey n := nd_Status n]> (status_map rows).
Proof. unfold status_map. by rewrite foldl_app. Qed.

Lemma status_map_lookup rows k st :
  NoDup (nd_NodeKey <$> rows) ->
  status_map rows !! k = Some st <-> exists n, n ∈ rows /\ nd_NodeKey n = k /\ nd_Status n = st.
Proof.
  induction rows as [|n rows IH] using rev_ind; intros Hnd.
  { split; [done|]. by intros (? & ?%elem_of_nil & _). }
  rewrite status_map_snoc. rewrite fmap_app in Hnd. apply NoDup_app in Hnd as (Hnd & Hdis & _).
  destruct (decide (nd_NodeKey n = k)) as [<-|Hne].
  - rewrite lookup_insert_eq. split; [intros [= <-]; exists n; set_solver|].
    intros (n' & [Hn'|Hn'%list_elem_of_singleton]%elem_of_app & Hk & Hd); [|by subst].
    exfalso. eapply (Hdis (nd_NodeKey n)); [|set_solver]. apply list_elem_of_fmap. eauto.
  - rewrite lookup_insert_ne by done. rewrite IH by done. split.
    + intros (n' & ? & ?). exists n'. set_solver.
    + intros (n' & [Hn'|Hn'%list_elem_of_singleton]%elem_of_app & Hk & Hd); [eauto|by subst].
Qed.

Lemma status_of_row rows n : NoDup (nd_NodeKey <$> rows) -> n ∈ rows -> status_of rows (nd_NodeKey n) = nd_Status n.
Proof.
  intros Hnd Hn. unfold status_of.
  by rewrite (proj2 (status_map_lookup rows (nd_NodeKey n) (nd_Status n) Hnd) (ex_intro _ n (conj Hn (conj eq_refl eq_refl)))).
Qed.

(** ** Row-wise updates keep the graph *)

Lemma run_deps_keeps f n : keeps f -> run_deps (f n) = run_deps n.
Proof. intros Hf. unfold run_deps. by rewrite (kp_deps f Hf). Qed.

Lemma keys_keeps f (rows : list Node) : keeps f -> nd_NodeKey <$> (f <$> rows) = nd_NodeKey <$> rows.
Proof. intros Hf. rewrite <- list_fmap_compose. apply list_fmap_ext. intros i n _. apply (kp_key f Hf). Qed.

Lemma depends_keeps f (rows : list Node) k d : keeps f -> depends (f <$> rows) k d <-> depends rows k d.
Proof.
  intros Hf. unfold depends. split.
  - intros (n' & (n & -> & Hn)%list_elem_of_fmap & <- & Hd). exists n.
    rewrite (kp_key f Hf). by rewrite run_deps_keeps in Hd.
  - intros (n & Hn & <- & Hd). exists (f n). rewrite (kp_key f Hf), run_deps_keeps by done.
    split; [by apply list_elem_of_fmap_2|done].
Qed.

Lemma run_wf_keeps f (rows : list Node) : keeps f -> run_wf rows -> run_wf (f <$> rows).
Proof.
  intros Hf [A B C D E]. pose proof (fun k d => depends_keeps f rows k d Hf) as Hdep. split.
  - by rewrite keys_keeps.
  - rewrite Forall_fmap. eapply Forall_impl; [exact B|]. intros n. unfold decodes, compose.
    by rewrite run_deps_keeps, (kp_deps f Hf) by done.
  - intros k d. rewrite Hdep. apply C.
  - intros k d. rewrite Hdep, keys_keeps by done. apply D.
  - intros k Hk. apply (E k). eapply (tc_congruence id); [|exact Hk]. intros x y. apply Hdep.
Qed.

(** ** The reverse index *)

Lemma dependents_of_insert m dep k key :
  dependents_of (<[dep := default [] (m !! dep) ++ [key]]> m) k
  = dependents_of m k ++ (if decide (dep = k) then [key] else []).
Proof.
  unfold dependents_of. destruct (decide (dep = k)) as [->|Hne].
  - by rewrite lookup_insert_eq.
  - rewrite lookup_insert_ne by done. by rewrite app_nil_r.
Qed.

Lemma index_node_spec deps m key k x :
  x ∈ dependents_of (foldl (fun m dep => <[dep := default [] (m !! dep) ++ [key]]> m) m deps) k
  <-> x ∈ dependents_of m k \/ (x = key /\ k ∈ deps).
Proof.
  revert m. induction deps as [|dep deps IH]; intros m; cbn [foldl]; [set_solver|].
  rewrite IH, dependents_of_insert, elem_of_app, elem_of_cons. case_decide; subst; set_solver.
Qed.

Lemma buildDependentIndex_spec rows :
  Forall decodes rows ->
  exists m, buildDependentIndex rows = Ok m /\ forall k x, x ∈ dependents_of m k <-> depends rows x k.
Proof.
  unfold buildDependentIndex. set (f := fun (m : gmap string (list string)) n => _).
  enough (forall m0, Forall decodes rows -> exists m, fold_result f rows m0 = Ok m
    /\ forall k x, x ∈ dependents_of m k <-> x ∈ dependents_of m0 k \/ depends rows x k) as H.
  { intros Hd. destruct (H ∅ Hd) as (m & -> & Hm). exists m. split; [done|]. intros k x. rewrite Hm.
    unfold dependents_of. rewrite lookup_empty. set_solver. }
  induction rows as [|n rows IH]; intros m0 Hd; cbn [fold_result].
  { exists m0. split; [done|]. unfold depends. set_solver. }
  apply Forall_cons in Hd as [Hn Hd].
  assert (f m0 n = Ok (foldl (fun m dep => <[dep := default [] (m !! dep) ++ [nd_NodeKey n]]> m) m0 (run_deps n))) as ->
    by (unfold f; by rewrite Hn).
  simpl.
  edestruct IH as (m & -> & Hm); [done|]. exists m. split; [done|]. intros k x.
  rewrite Hm, index_node_spec. unfold depends. set_solver.
Qed.

(** ** The queue of the cascade *)

(** The reverse edges that may still enter the queue. *)
Definition budget (m : list (string * list string)) (visited : list string) : nat :=
  sum_list_with (fun kv => if str_in kv.1 visited then 0 else length kv.2) m.

Lemma budget_fresh m key visited : key ∉ m.*1 -> budget m (key :: visited) = budget m visited.
Proof.
  unfold budget. induction m as [|[k l] m IH]; [done|]. rewrite fmap_cons, not_elem_of_cons. cbn [fst sum_list_with].
  intros [Hne Hk]. rewrite IH by done. f_equal. unfold str_in. cbn [existsb].
  by rewrite (proj2 (String.eqb_neq k key)) by done.
Qed.

Lemma budget_visit m key l visited :
  NoDup m.*1 -> (key, l) ∈ m -> str_in key visited = false ->
  budget m visited = length l + budget m (key :: visited).
Proof.
  intros Hnd Hin Hv. induction m as [|[k l'] m IH]; [by apply elem_of_nil in Hin|].
  apply NoDup_cons in Hnd as [Hk Hnd]. cbn [fst] in Hk. unfold budget. cbn [sum_list_with fst snd]. fold (budget m visited).
  fold (budget m (key :: visited)). apply elem_of_cons in Hin as [[= <- <-]|Hin].
  - rewrite Hv, budget_fresh by done. unfold str_in at 1. cbn [existsb]. by rewrite String.eqb_refl.
  - rewrite IH by done. assert (k <> key) as Hne.
    { intros ->. apply Hk. apply list_elem_of_fmap. by exists (key, l). }
    replace (str_in k (key :: visited)) with (str_in k visited); [lia|].
    unfold str_in. cbn [existsb]. by rewrite (proj2 (String.eqb_neq k key)).
Qed.

Lemma budget_dependents (m : gmap string (list string)) key visited :
  str_in key visited = false ->
  budget (map_to_list m) visited = length (dependents_of m key) + budget (map_to_list m) (key :: visited).
Proof.
  intros Hv. unfold dependents_of. destruct (m !! key) as [l|] eqn:E; cbn [default].
  - apply budget_visit; [apply NoDup_fst_map_to_list|by apply elem_of_map_to_list|done].
  - cbn [default length]. rewrite budget_fresh; [done|]. intros ([k l] & -> & H)%list_elem_of_fmap.
    apply elem_of_map_to_list in H. simpl in E. congruence.
Qed.

(** ** The cascade *)

(** A waiting node of the run whose key is hit fails. *)
Definition cascaded (dagKey : string) (runID : Z) (reason : failNodeReason) (hit : string -> bool) (n : Node) : Node :=
  if run_of dagKey runID n && String.eqb (nd_Status n) "pending" && hit (nd_NodeKey n)
  then failed_row reason n else n.

Lemma cascaded_keeps dagKey runID reason hit : keeps (cascaded dagKey runID reason hit).
Proof. unfold cascaded. auto with run. Qed.
#[export] Hint Resolve cascaded_keeps : run.

Lemma filter_length_pos {A} (f : A -> bool) l x : x ∈ l -> f x = true -> 0 < length (List.filter f l).
Proof.
  intros Hx Hf. assert (In x (List.filter f l)) as H by (apply filter_In; by rewrite <- list_elem_of_In).
  destruct (List.filter f l); [done|simpl; lia].
Qed.

Lemma elem_of_run_nodes dagKey runID s n : n ∈ run_nodes dagKey runID s <-> n ∈ db_nodes s /\ run_of dagKey runID n = true.
Proof. unfold run_nodes. by rewrite !list_elem_of_In, filter_In. Qed.

Lemma forallb_ext_elem {A} (f g : A -> bool) l : (forall x, x ∈ l -> f x = g x) -> forallb f l = forallb g l.
Proof.
  induction l as [|x l IH]; intros H; [done|]. cbn [forallb]. rewrite (H x) by left. f_equal. apply IH.
  intros y Hy. apply H. by right.
Qed.

Lemma str_in_cons x k l : str_in x (k :: l) = String.eqb x k || str_in x l.
Proof. done. Qed.

Section cascade.
Context (dagKey failedKey : string) (runID : Z) (reason : string) (s0 : db) (m : gmap string (list string)).
Local Abbreviation rows := (run_nodes dagKey runID s0).
Context (Hpos : (0 < runID)%Z) (Hnd : NoDup (nd_NodeKey <$> rows)).
Context (Hm : forall k x, x ∈ dependents_of m k <-> depends rows x k).

Definition cascade_reason : failNodeReason := mkReason failNodeKindCascade reason failedKey.

(** What the loop has done when [visited] are the taken keys. *)
Record cascade_inv (visited queue : list string) (canceled : list CanceledDownstreamNode) (s : db) : Prop := {
  ca_nodes : db_nodes s = cascaded dagKey runID cascade_reason (fun k => str_in k visited) <$> db_nodes s0;
  ca_frame : db_dags s = db_dags s0 /\ db_runs s = db_runs s0 /\ db_wakeups s = db_wakeups s0;
  ca_reach : forall k, k ∈ visited ++ queue -> tc (depends rows) k failedKey;
  ca_start : forall k, depends rows k failedKey -> k ∈ visited ++ queue;
  ca_closed : forall k d, d ∈ visited -> depends rows k d -> k ∈ visited ++ queue;
  ca_keys : forall k, k ∈ (cx_NodeKey <$> canceled) <-> k ∈ visited /\ status_of rows k = "pending";
}.

Lemma cascaded_skip key visited n :
  run_of dagKey runID n = true -> n ∈ db_nodes s0 -> status_of rows key <> "pending" ->
  cascaded dagKey runID cascade_reason (fun k => str_in k (key :: visited)) n
  = cascaded dagKey runID cascade_reason (fun k => str_in k visited) n.
Proof.
  intros Hr Hn Hst. unfold cascaded, str_in. cbn [existsb]. rewrite Hr. cbn [andb].
  destruct (String.eqb_spec (nd_Status n) "pending") as [Hp|]; [|done].
  destruct (String.eqb_spec (nd_NodeKey n) key) as [<-|]; [|done].
  rewrite status_of_row in Hst; [done|done|by apply elem_of_run_nodes].
Qed.

Lemma cascaded_write key visited n :
  str_in key visited = false ->
  (let n' := cascaded dagKey runID cascade_reason (fun k => str_in k visited) n in
   if run_node dagKey key runID n' && (0 <? runID)%Z && String.eqb (nd_Status n') "pending"
   then failed_row cascade_reason n' else n')
  = cascaded dagKey runID cascade_reason (fun k => str_in k (key :: visited)) n.
Proof.
  intros Hv. cbn zeta. unfold run_node. rewrite (keeps_run_of _ _ _ _ (cascaded_keeps _ _ _ _)).
  rewrite (kp_key _ (cascaded_keeps _ _ _ _)), (proj2 (Z.ltb_lt _ _) Hpos), andb_true_r.
  unfold cascaded. rewrite str_in_cons. destruct (run_of dagKey runID n); [|done]. cbn [andb].
  destruct (String.eqb_spec (nd_NodeKey n) key) as [->|Hne]; cbn [andb orb]; [|done].
  by rewrite Hv, andb_false_r, andb_true_r.
Qed.

Lemma cascade_inv_drop visited key queue canceled s :
  str_in key visited = true -> cascade_inv visited (key :: queue) canceled s -> cascade_inv visited queue canceled s.
Proof.
  intros Hv%str_in_elem [A B C D E F].
  assert (forall k, k ∈ visited ++ key :: queue -> k ∈ visited ++ queue) as Hsub by set_solver.
  split; [done|done|set_solver|eauto|eauto|done].
Qed.

Lemma cascade_inv_visit visited key queue canceled canceled' s s' :
  cascade_inv visited (key :: queue) canceled s ->
  db_nodes s' = cascaded dagKey runID cascade_reason (fun k => str_in k (key :: visited)) <$> db_nodes s0 ->
  db_dags s' = db_dags s0 /\ db_runs s' = db_runs s0 /\ db_wakeups s' = db_wakeups s0 ->
  (forall k, k ∈ (cx_NodeKey <$> canceled') <-> k ∈ key :: visited /\ status_of rows k = "pending") ->
  cascade_inv (key :: visited) (queue ++ dependents_of m key) canceled' s'.
Proof.
  intros [A B C D E F] Hn Hf Hk. split; [done|done| | | |done].
  - intros k. rewrite !elem_of_app, elem_of_cons. intros [[->|Hin]|[Hin|Hin]]; [apply C; set_solver..|].
    apply Hm in Hin. eapply tc_l; [exact Hin|]. apply C. set_solver.
  - intros k Hd. apply D in Hd. set_solver.
  - intros k d [->|Hd]%elem_of_cons Hdep; [apply Hm in Hdep; set_solver|]. apply (E k d Hd) in Hdep. set_solver.
Qed.

Lemma cascadeFail_run key visited queue canceled s :
  str_in key visited = false -> status_of rows key = "pending" -> cascade_inv visited queue canceled s ->
  exists s', cascadeFailPendingNodeTx dagKey key runID cascade_reason s = Ok (true, s')
    /\ db_nodes s' = cascaded dagKey runID cascade_reason (fun k => str_in k (key :: visited)) <$> db_nodes s0
    /\ db_dags s' = db_dags s0 /\ db_runs s' = db_runs s0 /\ db_wakeups s' = db_wakeups s0.
Proof.
  intros Hv Hst [Hn Hf _ _ _ _]. unfold cascadeFailPendingNodeTx, update_nodes, sql_update, mbind, M_bind, get_db, put_db. cbn.
  set (w := fun n => run_node dagKey key runID n && (0 <? runID)%Z && String.eqb (nd_Status n) "pending").
  assert (0 < length (List.filter w (db_nodes s))) as Hlen.
  { unfold status_of in Hst. destruct (status_map rows !! key) as [st|] eqn:E; [|done]. simpl in Hst. subst st.
    apply status_map_lookup in E as (n & Hin%elem_of_run_nodes & Hk & Hs); [|done]. destruct Hin as [Hin Hr].
    apply (filter_length_pos _ _ (cascaded dagKey runID cascade_reason (fun k => str_in k visited) n)).
    - rewrite Hn. by apply list_elem_of_fmap_2.
    - unfold w, cascaded, run_node. rewrite Hr, Hk, Hv, Hs, andb_false_r.
      by rewrite Hr, Hk, Hs, String.eqb_refl, (proj2 (Z.ltb_lt _ _) Hpos). }
  eexists. split; [by destruct (length (List.filter w (db_nodes s))); [lia|]|]. cbn. split; [|done].
  rewrite Hn, <- list_fmap_compose. apply list_fmap_ext. intros i n _. by apply cascaded_write.
Qed.

Lemma cancel_loop_spec fuel visited queue canceled s :
  length queue + budget (map_to_list m) visited <= fuel -> cascade_inv visited queue canceled s ->
  exists visited' canceled' s',
    cancel_loop fuel m (status_map rows) dagKey failedKey runID reason visited queue canceled s = Ok (canceled', s')
    /\ cascade_inv visited' [] canceled' s'.
Proof.
  revert visited queue canceled s. induction fuel as [|fuel IH]; intros visited [|key queue] canceled s Hfuel Hinv;
    cbn [cancel_loop]; [by eexists _, _, _|simpl in Hfuel; lia|by eexists _, _, _|]. cbn [length] in Hfuel.
  destruct (str_in key visited) eqn:Hv; [apply IH; [lia|by eapply cascade_inv_drop]|].
  rewrite (budget_dependents m key visited Hv) in Hfuel. fold (status_of rows key).
  destruct (String.eqb_spec (status_of rows key) "pending") as [Hst|Hst]; cbn [negb].
  - destruct (cascadeFail_run _ _ _ _ _ Hv Hst Hinv) as (s' & Hrun & Hn & Hf).
    unfold mbind, M_bind. unfold cascade_reason in Hrun. rewrite Hrun. cbn.
    apply IH; [rewrite length_app; lia|]. eapply cascade_inv_visit; [done..|]. intros k.
    rewrite fmap_app, elem_of_app, (ca_keys _ _ _ _ Hinv). cbn. set_solver.
  - apply IH; [rewrite length_app; lia|]. eapply cascade_inv_visit; [done|..|apply Hinv|].
    + rewrite (ca_nodes _ _ _ _ Hinv). apply list_fmap_ext. intros i n Hn%list_elem_of_lookup_2.
      destruct (run_of dagKey runID n) eqn:Hr; [by rewrite cascaded_skip|]. unfold cascaded. by rewrite Hr.
    + intros k. rewrite (ca_keys _ _ _ _ Hinv). set_solver.
Qed.
End cascade.

Lemma cancelDownstreamTx_spec dagKey failedKey runID reason s :
  let rows := run_nodes dagKey runID s in
  (0 < runID)%Z -> NoDup (nd_NodeKey <$> rows) -> Forall decodes rows ->
  exists canceled s' hit,
    cancelDownstreamTx dagKey failedKey runID reason s = Ok (canceled, s')
    /\ (forall k, hit k = true <-> tc (depends rows) k failedKey)
    /\ db_nodes s' = cascaded dagKey runID (cascade_reason failedKey reason) hit <$> db_nodes s
    /\ (db_dags s' = db_dags s /\ db_runs s' = db_runs s /\ db_wakeups s' = db_wakeups s)
    /\ (forall k, k ∈ (cx_NodeKey <$> canceled) <-> hit k = true /\ status_of rows k = "pending").
Proof.
  cbn zeta. intros Hpos Hnd Hdec. unfold cancelDownstreamTx, requireRuntimeRunID, guardM, ListRunNodes, get_db.
  rewrite (proj2 (Z.ltb_lt _ _) Hpos). unfold mbind, M_bind, mret, M_ret, lift. cbn. fold (run_nodes dagKey runID s).
  destruct (buildDependentIndex_spec _ Hdec) as (m & -> & Hm). cbn.
  edestruct (cancel_loop_spec dagKey failedKey runID reason s m Hpos Hnd Hm (cascade_fuel m failedKey) []
    (dependents_of m failedKey) [] s) as (visited & canceled & s' & Hrun & Hinv).
  - unfold cascade_fuel. done.
  - split; [|done|..].
    + rewrite <- (list_fmap_id (db_nodes s)) at 1. apply list_fmap_ext. intros i n _. unfold cascaded. by rewrite andb_false_r.
    + intros k Hk. apply tc_once, Hm, Hk.
    + intros k. apply Hm.
    + by intros k d ?%elem_of_nil.
    + intros k. set_solver.
  - destruct Hinv as [A B C D E F]. rewrite app_nil_r in *.
    exists canceled, s', (fun k => str_in k visited). split_and!; [exact Hrun| |exact A|apply B..|].
    + intros k. rewrite str_in_elem. split; [apply C|]. intros Hk.
      induction Hk as [x y Hxy|x y z Hxy Hyz IH]; [by apply D|]. by eapply E; [apply IH|].
    + intros k. rewrite F, str_in_elem. done.
Qed.

(** ** Single-row writes *)

Lemma filter_one {A} (f : A -> bool) l : length (List.filter f l) = 1 -> exists x, x ∈ l /\ f x = true.
Proof.
  intros H. destruct (List.filter f l) as [|x [|]] eqn:E; try done. exists x.
  assert (In x (List.filter f l)) as [? ?]%filter_In by (rewrite E; by left). by rewrite list_elem_of_In.
Qed.

(** A write that matched one row of the node matched the row of the node. *)
Lemma single_write dagKey key runID s (w : Node -> bool) :
  NoDup (nd_NodeKey <$> run_nodes dagKey runID s) ->
  length (List.filter w (db_nodes s)) = 1 -> (forall n, w n = true -> run_node dagKey key runID n = true) ->
  (exists n, n ∈ run_nodes dagKey runID s /\ nd_NodeKey n = key /\ w n = true)
  /\ forall n, n ∈ db_nodes s -> w n = run_node dagKey key runID n.
Proof.
  intros Hnd Hone Hw. apply filter_one in Hone as (n0 & Hn0 & Hw0). pose proof (Hw _ Hw0) as Hr0.
  unfold run_node in Hr0. go_bool. split.
  - exists n0. split_and!; [by apply elem_of_run_nodes|done|done].
  - intros n Hn. destruct (w n) eqn:E; [by rewrite Hw|]. symmetry. apply not_true_iff_false. intros Hr.
    unfold run_node in Hr. go_bool. assert (n = n0) as ->; [|congruence].
    eapply (same_key nd_NodeKey); [exact Hnd|by apply elem_of_run_nodes..|congruence].
Qed.
