(* ===== verification/RunInvariant.v ===== *)
(** * What a run promises

    The exact effect of completing and of failing a node on the rows of its run,
    and the invariant that keeps a run moving: while it is running, a node is ready,
    running or retrying, so no run waits for ever on its own nodes. *)

From S2P Require Import Prelude GoStrings Json NodeConfig DagStore WakeupPayload RunStore RunEffects TemplateInvariant RunGraph.

(** ** The two steps on rows *)

(** The status of the node [d] once the node [c] is done. *)
Definition done_after (rows : list Node) (c d : string) : bool :=
  String.eqb d c || String.eqb (status_of rows d) "done".

(** The node waits for [c] and for nothing else. *)
Definition unblocked (rows : list Node) (c : string) (n : Node) : bool :=
  String.eqb (nd_Status n) "pending" && str_in c (run_deps n) && forallb (done_after rows c) (run_deps n).

Definition after_complete (input : CompleteNodeInput) (rows : list Node) (n : Node) : Node :=
  if String.eqb (nd_NodeKey n) (ci_NodeKey input) then completed_row input n
  else if unblocked rows (ci_NodeKey input) n then set_status "ready" n else n.

Definition fail_reason (input : FailNodeInput) : failNodeReason :=
  mkReason failNodeKindExhaustedRetries (fn_Reason input) EmptyString.

Definition after_fail (input : FailNodeInput) (hit : string -> bool) (n : Node) : Node :=
  if String.eqb (nd_NodeKey n) (fn_NodeKey input) then failed_row (fail_reason input) n
  else if String.eqb (nd_Status n) "pending" && hit (nd_NodeKey n)
  then failed_row (cascade_reason (fn_NodeKey input) (fn_Reason input)) n else n.

Lemma after_complete_keeps input rows : keeps (after_complete input rows).
Proof. apply (keeps_cond (fun n => String.eqb (nd_NodeKey n) _)); [|apply keeps_if]; auto with run. Qed.

Lemma after_fail_keeps input hit : keeps (after_fail input hit).
Proof.
  apply (keeps_cond (fun n => String.eqb (nd_NodeKey n) _));
    [|apply (keeps_if (fun n => String.eqb (nd_Status n) _ && _))]; auto with run.
Qed.
#[export] Hint Resolve after_complete_keeps after_fail_keeps : run.

(** On the rows of the run, [f]; elsewhere nothing. *)
Definition on_run (dagKey : string) (runID : Z) (f : Node -> Node) (n : Node) : Node :=
  if run_of dagKey runID n then f n else n.

Lemma run_nodes_on_run dagKey runID f s s' :
  keeps f -> db_nodes s' = on_run dagKey runID f <$> db_nodes s ->
  run_nodes dagKey runID s' = f <$> run_nodes dagKey runID s.
Proof.
  intros Hf Hn. unfold run_nodes. rewrite Hn, run_nodes_map by (unfold on_run; auto with run).
  apply list_fmap_ext. intros i n Hi%list_elem_of_lookup_2. rewrite list_elem_of_In, filter_In in Hi.
  unfold on_run. by rewrite (proj2 Hi).
Qed.

(** ** Satisfied dependencies *)

Lemma clean_includes deps c :
  Forall (fun d => trimmed d /\ d <> EmptyString) deps -> dependsOnIncludes deps c = str_in c deps.
Proof.
  unfold dependsOnIncludes, str_in. induction 1 as [|d deps [Hd _] _ IH]; [done|]. cbn [existsb].
  by rewrite Hd, IH, (String.eqb_sym d).
Qed.

Lemma clean_satisfied deps m :
  Forall (fun d => trimmed d /\ d <> EmptyString) deps ->
  allDependenciesSatisfied deps m = forallb (fun d => String.eqb (default EmptyString (m !! d)) "done") deps.
Proof.
  unfold allDependenciesSatisfied. induction 1 as [|d deps [Hd Hne] _ IH]; [done|]. cbn [forallb].
  rewrite Hd, IH, (proj2 (String.eqb_neq d EmptyString)) by done. done.
Qed.

Lemma run_deps_clean rows n : run_wf rows -> n ∈ rows -> Forall (fun d => trimmed d /\ d <> EmptyString) (run_deps n).
Proof. intros Hwf Hn. apply Forall_forall. intros d Hd. eapply (rw_clean _ Hwf (nd_NodeKey n)). by exists n. Qed.

Lemma satisfied_spec rows m c n :
  run_wf rows -> n ∈ rows ->
  satisfied c m n = String.eqb (nd_Status n) "pending" && str_in c (run_deps n)
    && forallb (fun d => String.eqb (default EmptyString (m !! d)) "done") (run_deps n).
Proof.
  intros Hwf Hn. pose proof (run_deps_clean _ _ Hwf Hn) as Hc. unfold satisfied, dependsSatisfiedForUpstream.
  destruct (String.eqb (nd_Status n) "pending"); [|done]. cbn [negb andb].
  pose proof (rw_decodes _ Hwf) as Hd. rewrite Forall_forall in Hd. rewrite (Hd n Hn). cbn.
  by rewrite clean_includes, clean_satisfied.
Qed.

Lemma promoted_by_row rows c m n :
  NoDup (nd_NodeKey <$> rows) -> n ∈ rows -> promoted_by c m rows (nd_NodeKey n) = satisfied c m n.
Proof.
  intros Hnd Hn. unfold promoted_by. apply eq_true_iff_eq. rewrite existsb_exists. split.
  - intros (n' & Hn'%list_elem_of_In & Hs). go_bool.
    by rewrite (same_key nd_NodeKey _ n n' Hnd Hn Hn') by congruence.
  - intros Hs. exists n. rewrite <- list_elem_of_In, String.eqb_refl. by rewrite Hs.
Qed.

(** ** Completing *)

Section run.
Context (byte_len : RawMessage -> Z) (now_text : string) (now_ms : Z).
Context (json_ok : RawMessage -> bool) (reencode : json -> json).

Lemma CompleteNode_effect input s node s' :
  NoDup (nd_NodeKey <$> run_nodes (ci_DagKey input) (ci_RunID input) s) ->
  CompleteNode json_ok input s = Ok (node, s') ->
  (0 < ci_RunID input)%Z
  /\ s' = with_nodes s (on_run (ci_DagKey input) (ci_RunID input)
            (fun n => if String.eqb (nd_NodeKey n) (ci_NodeKey input) then completed_row input n else n) <$> db_nodes s)
  /\ (exists n, n ∈ run_nodes (ci_DagKey input) (ci_RunID input) s /\ nd_NodeKey n = ci_NodeKey input
        /\ str_in (nd_Status n) ["ready"; "running"] = true)
  /\ nd_DagKey node = ci_DagKey input /\ nd_NodeKey node = ci_NodeKey input /\ nd_RunID node = Some (ci_RunID input)
  /\ nd_Status node = ci_Status input.
Proof.
  intros Hnd H. unfold CompleteNode in H. tx_run. match goal with Hl : length _ = 1 |- _ => rename Hl into Hone end.
  destruct (single_write _ (ci_NodeKey input) _ _ _ Hnd Hone) as [(n0 & Hin & Hk & Hw) Hall].
  { intros n Hn. unfold completable in Hn. go_bool. done. }
  assert ((fun x => if completable s input x then completed_row input x else x) <$> db_nodes s
    = on_run (ci_DagKey input) (ci_RunID input)
        (fun n => if String.eqb (nd_NodeKey n) (ci_NodeKey input) then completed_row input n else n) <$> db_nodes s) as Hnodes.
  { apply list_fmap_ext. intros i n Hn%list_elem_of_lookup_2. rewrite (Hall n Hn). unfold on_run, run_node.
    by destruct (run_of _ _ n), (String.eqb (nd_NodeKey n) _). }
  rewrite Hnodes in H. apply GetRunNode_Ok in H as (-> & Hnode & Hr).
  split_and!; [done|by rewrite <- Hnodes| | | | |].
  - exists n0. split_and!; [done|done|]. unfold completable in Hw. go_bool. done.
  - unfold run_node, run_of in Hr. by go_bool.
  - unfold run_node, run_of in Hr. by go_bool.
  - unfold run_node, run_of in Hr. go_bool. case_match; go_bool; by subst.
  - cbn in Hnode. apply list_elem_of_fmap in Hnode as (n & -> & Hn). unfold on_run in *.
    unfold run_node in Hr. go_bool. destruct (run_of (ci_DagKey input) (ci_RunID input) n) eqn:E; [|congruence].
    destruct (String.eqb_spec (nd_NodeKey n) (ci_NodeKey input)); [done|congruence].
Qed.

Local Abbreviation Complete := (CompleteNodeAndScheduleDownstream byte_len now_text now_ms json_ok reencode).

(** Among the rows that hold the completed node, the candidates of the loop are the unblocked ones. *)
Lemma satisfied_unblocked input rows n :
  run_wf rows -> n ∈ rows -> ci_Status input = "done" ->
  let complete := fun n => if String.eqb (nd_NodeKey n) (ci_NodeKey input) then completed_row input n else n in
  satisfied (ci_NodeKey input) (status_map (complete <$> rows)) (complete n)
  = negb (String.eqb (nd_NodeKey n) (ci_NodeKey input)) && unblocked rows (ci_NodeKey input) n.
Proof.
  intros Hwf Hn Hdone complete. set (rows1 := complete <$> rows).
  assert (keeps complete) as Hk by (apply keeps_if; auto with run).
  assert (run_wf rows1) as Hwf1 by (by apply run_wf_keeps).
  assert (complete n ∈ rows1) as Hn1 by (by apply list_elem_of_fmap_2).
  rewrite (satisfied_spec rows1) by done. rewrite run_deps_keeps by done.
  destruct (String.eqb_spec (nd_NodeKey n) (ci_NodeKey input)) as [E|E].
  { unfold complete. rewrite (proj2 (String.eqb_eq _ _) E). cbn. by rewrite Hdone. }
  assert (complete n = n) as -> by (unfold complete; by rewrite (proj2 (String.eqb_neq _ _) E)).
  unfold unblocked. cbn [negb andb].
  replace (forallb (fun d => String.eqb (default EmptyString (status_map rows1 !! d)) "done") (run_deps n))
    with (forallb (done_after rows (ci_NodeKey input)) (run_deps n)); [done|].
  apply forallb_ext_elem. intros d Hd.
  assert (depends rows (nd_NodeKey n) d) as Hdep by (by exists n).
  apply (rw_closed _ Hwf) in Hdep. apply list_elem_of_fmap in Hdep as (nd & -> & Hnd).
  fold (status_of rows1 (nd_NodeKey nd)). unfold done_after.
  rewrite <- (kp_key _ Hk nd), (status_of_row rows1), (kp_key _ Hk nd);
    [|apply Hwf1|by apply list_elem_of_fmap_2].
  rewrite (status_of_row rows) by (apply Hwf || done). unfold complete.
  destruct (String.eqb (nd_NodeKey nd) (ci_NodeKey input)); [|done]. cbn. by rewrite Hdone.
Qed.

(** The loop promotes them. *)
Lemma promote_unblocked input rows n :
  run_wf rows -> n ∈ rows -> ci_Status input = "done" ->
  let complete := fun n => if String.eqb (nd_NodeKey n) (ci_NodeKey input) then completed_row input n else n in
  let rows1 := complete <$> rows in
  (if String.eqb (nd_Status (complete n)) "pending"
      && promoted_by (ci_NodeKey input) (status_map rows1) rows1 (nd_NodeKey (complete n))
   then set_status "ready" (complete n) else complete n)
  = after_complete input rows n.
Proof.
  intros Hwf Hn Hdone complete rows1.
  assert (keeps complete) as Hk by (apply keeps_if; auto with run).
  assert (run_wf rows1) as Hwf1 by (by apply run_wf_keeps).
  rewrite promoted_by_row by (apply Hwf1 || by apply list_elem_of_fmap_2). unfold rows1.
  rewrite (satisfied_unblocked input rows n Hwf Hn Hdone : satisfied (ci_NodeKey input) (status_map (complete <$> rows)) (complete n) = _). unfold after_complete, complete.
  destruct (String.eqb (nd_NodeKey n) (ci_NodeKey input)); [by rewrite andb_false_r|]. unfold unblocked. cbn [negb andb].
  by destruct (String.eqb (nd_Status n) "pending").
Qed.

Definition finish_shape (dagKey : string) (runID : Z) (st : string) (sh : Z * string * string * string) :=
  if shape_running dagKey runID sh then (sh.1, st) else sh.

Lemma finish_shapes dagKey runID st (l : list Run) :
  run_shape <$> (finish dagKey runID st <$> l) = finish_shape dagKey runID st <$> (run_shape <$> l).
Proof.
  rewrite <- !list_fmap_compose. apply list_fmap_ext. intros i r _. unfold compose, finish, finish_shape.
  change (shape_running dagKey runID (run_shape r)) with (running_row dagKey runID r).
  by destruct (running_row dagKey runID r).
Qed.

Lemma final_runs_shape dagKey runID o l l' :
  run_shape <$> l = run_shape <$> l' -> run_shape <$> final_runs dagKey runID o l = run_shape <$> final_runs dagKey runID o l'.
Proof. intros H. destruct o as [st|]; [|done]. cbn [final_runs]. by rewrite !finish_shapes, H. Qed.

(** What both steps leave in the run rows. *)
Definition finalized (dagKey : string) (runID : Z) (s s' : db) : Prop :=
  run_shape <$> db_runs s'
  = run_shape <$> final_runs dagKey runID (finalizedRunStatus (nd_Status <$> run_nodes dagKey runID s')) (db_runs s).

(** *** Wakeups and events *)

(** The wakeup of a node that was promoted. *)
Definition start_input (n : Node) : EnqueueWakeupInput :=
  let agentID := TrimSpace (nd_AssignedTo n) in let runID := runIDValue (nd_RunID n) in
  mkEnqueue (nd_DagKey n) (nd_NodeKey n) runID downstreamWakeupKind agentID (MarshalJSON (mkDownstream EmptyString 0 agentID []))
    (downstreamIdempotencyKey (nd_DagKey n) (nd_NodeKey n) runID).

(** The node has an agent and a configuration that can be dispatched. *)
Definition dispatchable (n : Node) : bool :=
  negb (String.eqb (TrimSpace (nd_AssignedTo n)) EmptyString) && is_ok (validateAutomaticDispatchConfig n).

Definition other_run (dagKey : string) (runID : Z) (r r' : Run) : Prop := run_row dagKey runID r' = run_row dagKey runID r /\ (run_row dagKey runID r = false -> r' = r).

(** Only the row of the run was written, and only wakeups of the nodes [P] were added. *)
Record schedules (dagKey : string) (runID : Z) (P : Node -> Prop) (s s' : db) : Prop := {
  sch_runs : Forall2 (other_run dagKey runID) (db_runs s) (db_runs s');
  sch_wakeups : exists new, db_wakeups s' = db_wakeups s ++ new
    /\ Forall (fun w => exists n id, P n /\ dispatchable n = true /\ w = new_wakeup now_ms id (start_input n)) new;
}.

Lemma other_runs_refl dagKey runID l : Forall2 (other_run dagKey runID) l l.
Proof. induction l; by constructor. Qed.

Lemma other_runs_trans dagKey runID a b c : Forall2 (other_run dagKey runID) a b -> Forall2 (other_run dagKey runID) b c -> Forall2 (other_run dagKey runID) a c.
Proof.
  intros H. revert c. induction H as [|x y a b [H1 H1'] _ IH]; intros c H; inversion H as [|y' z b' c' [H2 H2'] Hc]; subst; constructor; [|by apply IH].
  split; [congruence|]. intros Hf. rewrite H2' by congruence. by apply H1'.
Qed.

Lemma schedules_refl dagKey runID P s : schedules dagKey runID P s s.
Proof. split; [apply other_runs_refl|]. exists []. split; [by rewrite app_nil_r|constructor]. Qed.

Lemma schedules_trans dagKey runID (P Q : Node -> Prop) a b c : (forall n, P n -> Q n) -> schedules dagKey runID P a b -> schedules dagKey runID Q b c -> schedules dagKey runID Q a c.
Proof.
  intros HPQ [R1 (n1 & W1 & F1)] [R2 (n2 & W2 & F2)]. split.
  - by eapply other_runs_trans.
  - exists (n1 ++ n2). split; [by rewrite W2, W1, app_assoc|]. apply Forall_app. split; [|done]. eapply Forall_impl; [exact F1|]. intros w (n & id & HP & H). exists n, id. auto.
Qed.

Lemma update_other_runs dagKey runID (w : Run -> bool) g l :
  (forall r, w r = true -> run_row dagKey runID r = true) -> (forall r, run_row dagKey runID (g r) = run_row dagKey runID r) ->
  Forall2 (other_run dagKey runID) l ((fun r => if w r then g r else r) <$> l).
Proof.
  intros Hw Hg. apply Forall2_fmap_r, Forall2_same_length_lookup. split; [done|]. intros i x y Hx Hy. simplify_eq. cbn beta. destruct (w x) eqn:E; cbn; rewrite E; [|by split].
  split; [apply Hg|]. intros Hf. apply Hw in E. congruence.
Qed.

Lemma blocked_schedules dagKey runID P n scope cause s u s' :
  nd_DagKey n = dagKey -> appendDispatchBlockedEvent now_text n runID scope cause s = Ok (u, s') -> schedules dagKey runID P s s'.
Proof.
  intros Hd H. unfold appendDispatchBlockedEvent, appendTaskDagRunEvent in H. tx_run. case_match; [|done]. tx_run.
  split; [|exists []; split; [cbn; by rewrite app_nil_r|constructor]]. cbn. apply update_other_runs; [|done].
  intros x Hx. unfold running_row in Hx. by go_bool.
Qed.

Lemma tryEnqueue_schedules dagKey runID n s r s' :
  nd_DagKey n = dagKey -> nd_RunID n = Some runID -> tryEnqueueDownstream byte_len now_text now_ms n s = Ok (r, s') ->
  schedules dagKey runID (eq n) s s'
  /\ (dispatchable n = true -> en_IdempotencyKey (start_input n) ∈ wk_IdempotencyKey <$> db_wakeups s').
Proof.
  intros Hd Hr H. unfold tryEnqueueDownstream in H. rewrite Hr in H. unfold dispatchable. destruct (String.eqb (TrimSpace (nd_AssignedTo n)) EmptyString) eqn:Ha.
  { tx_ok. split; [|done]. by eapply blocked_schedules. }
  destruct (validateAutomaticDispatchConfig n) as [u|cause] eqn:Hv; tx_ok; [|split; [by eapply blocked_schedules|done]].
  match goal with He : EnqueueWakeup _ _ ?i _ = Ok _ |- _ => replace i with (start_input n) in He by (unfold start_input; by rewrite Hr); rename He into Henq end.
  unfold EnqueueWakeup, enqueueWakeupTx in Henq. tx_ok. destruct (List.find _ _) as [w|] eqn:E; tx_ok.
  - split; [apply schedules_refl|]. intros _. apply find_some in E as [Hw%list_elem_of_In E%String.eqb_eq]. rewrite <- E. by apply list_elem_of_fmap_2.
  - split; [split; [apply other_runs_refl|]|].
    + eexists. split; [reflexivity|]. constructor; [|constructor]. exists n. eexists. split_and!; [done| |reflexivity]. unfold dispatchable. by rewrite Ha, Hv.
    + intros _. cbn. rewrite fmap_app. apply elem_of_app. right. by left.
Qed.

Lemma candidate_schedules dagKey runID completed m c s r s' :
  (0 < runID)%Z -> nd_DagKey c = dagKey -> nd_RunID c = Some runID -> runIDValue (nd_RunID completed) = runID -> c ∈ db_nodes s ->
  scheduleDownstreamCandidateTx byte_len now_text now_ms c completed m s = Ok (r, s') ->
  schedules dagKey runID (fun n => n = c /\ satisfied (nd_NodeKey completed) m c = true) s s'
  /\ (satisfied (nd_NodeKey completed) m c = true -> dispatchable c = true -> en_IdempotencyKey (start_input c) ∈ wk_IdempotencyKey <$> db_wakeups s').
Proof.
  intros Hpos Hd Hr Hid Hin H. unfold scheduleDownstreamCandidateTx in H. tx_ok. unfold satisfied.
  match goal with Hs : dependsSatisfiedForUpstream _ _ _ = Ok ?b |- _ => rewrite Hs; rename Hs into Hsat; destruct b end; cbn [negb] in H; tx_ok; [|by split; [apply schedules_refl|]].
  unfold promoteDownstreamCandidateTx, PromoteSingleNodePendingToReady in *. tx_run.
  assert (nd_Status c = "pending") as Hp.
  { unfold dependsSatisfiedForUpstream in Hsat. destruct (String.eqb_spec (nd_Status c) "pending"); [done|]. by injection Hsat. }
  destruct (Nat.eqb_spec (length (List.filter (fun n => run_node (nd_DagKey c) (nd_NodeKey c) (runIDValue (nd_RunID completed)) n && (0 <? runIDValue (nd_RunID completed))%Z && String.eqb (nd_Status n) "pending") (db_nodes s))) 0) as [Hz|Hz].
  { exfalso. apply length_zero_iff_nil in Hz. assert (In c []) as []. rewrite <- Hz. apply filter_In. split; [by apply list_elem_of_In|].
    unfold run_node, run_of. by rewrite Hr, Hp, !String.eqb_refl, Z.eqb_refl, (proj2 (Z.ltb_lt _ _) Hpos). }
  tx_ok. match goal with Ht : tryEnqueueDownstream _ _ _ _ _ = Ok _ |- _ => eapply tryEnqueue_schedules in Ht as [[Hruns Hwk] Hc]; [|done..] end.
  split; [|auto]. split; [exact Hruns|]. destruct Hwk as (new & Hw & Hf). exists new. split; [exact Hw|]. eapply Forall_impl; [exact Hf|]. intros w (n & id & <- & H'). exists c, id. done.
Qed.

Lemma loop_schedules dagKey runID completed m : (0 < runID)%Z -> runIDValue (nd_RunID completed) = runID -> forall cands acc s r s',
  Forall (fun c => nd_DagKey c = dagKey /\ nd_RunID c = Some runID) cands -> NoDup (nd_NodeKey <$> cands) -> (forall c, c ∈ cands -> c ∈ db_nodes s) ->
  schedule_loop byte_len now_text now_ms cands completed m acc s = Ok (r, s') ->
  schedules dagKey runID (fun n => n ∈ cands /\ satisfied (nd_NodeKey completed) m n = true) s s'
  /\ forall c, c ∈ cands -> satisfied (nd_NodeKey completed) m c = true -> dispatchable c = true -> en_IdempotencyKey (start_input c) ∈ wk_IdempotencyKey <$> db_wakeups s'.
Proof.
  intros Hpos Hid. induction cands as [|c cands IH]; intros acc s r s' Hall Hnd Hin H; cbn [schedule_loop] in H; tx_ok.
  { split; [apply schedules_refl|]. intros c Hc. by apply not_elem_of_nil in Hc. }
  apply Forall_cons in Hall as [[Hd Hr] Hall]. rewrite fmap_cons in Hnd. apply NoDup_cons in Hnd as [Hnew Hnd].
  match goal with p : option _ * option _ |- _ => destruct p as [ins pr] end.
  match goal with Hc : scheduleDownstreamCandidateTx _ _ _ _ _ _ _ = Ok (_, ?b) |- _ => pose proof (schedule_candidate_effect _ _ _ _ _ _ _ _ _ dagKey runID Hpos Hd Hid Hc) as (Hn & _ & _);
    apply (candidate_schedules dagKey runID) in Hc as [Hs1 Hk1]; [|done..|apply Hin; by left]; rename b into s1 end.
  apply IH in H as [Hs2 Hk2]; [|done|done|].
  2: { intros x Hx. rewrite Hn. apply list_elem_of_fmap. exists x. split; [|apply Hin; by right]. unfold promote, promoted_by. cbn [existsb].
       destruct (String.eqb_spec (nd_NodeKey c) (nd_NodeKey x)) as [E|]; [|by rewrite orb_false_r, andb_false_r]. exfalso. apply Hnew. rewrite E. by apply list_elem_of_fmap_2. }
  split.
  - eapply schedules_trans; [|exact Hs1|destruct Hs2 as [A (new & B & C)]; split; [exact A|exists new; split; [exact B|]; eapply Forall_impl; [exact C|]]].
    + intros n [-> Hsat]. split; [by left|done].
    + intros w (n & i & [Hn' Hs'] & Hw). exists n, i. split; [split; [by right|done]|done].
  - intros x [->|Hx]%elem_of_cons Hsat Hdis; [|by apply Hk2]. destruct (sch_wakeups _ _ _ _ _ Hs2) as (new & -> & _). rewrite fmap_app. apply elem_of_app. left. by apply Hk1.
Qed.

Lemma finalize_schedules dagKey runID P s r s' : maybeFinalizeRunTx reencode dagKey runID s = Ok (r, s') -> schedules dagKey runID P s s'.
Proof.
  intros H. assert (Forall2 (other_run dagKey runID) (db_runs s) (db_runs s') /\ db_wakeups s' = db_wakeups s) as [Hr Hw].
  2: { split; [exact Hr|]. exists []. split; [by rewrite app_nil_r|constructor]. }
  unfold maybeFinalizeRunTx, ListTaskDagRunNodeStatuses in H. tx_run. destruct (finalizedRunStatus _) as [st|]; tx_ok; [|split; [apply other_runs_refl|done]].
  match goal with Hf : finalizeRunRowTx _ _ _ _ = Ok _ |- _ => apply finalizeRunRowTx_effect in Hf as -> end.
  assert (forall l, Forall2 (other_run dagKey runID) l (finish dagKey runID st <$> l)) as Hfin.
  { intros l. apply update_other_runs; [|done]. intros rw Hrw. unfold running_row in Hrw. by go_bool. }
  case_match; tx_ok; [|split; [apply Hfin|done]]. case_match; tx_ok; [|split; [apply Hfin|done]]. unfold writeRunFinalOutputMetadataTx in *. tx_ok.
  match goal with Hb : buildRunFinalOutputMetadataTx _ _ _ ?a = Ok (?o, ?b) |- _ => assert (b = a) as ->; [|destruct o as [doc|]] end; tx_ok; [|unfold updateRunFinalOutputMetadataTx in *; tx_run; split; [|done]|split; [apply Hfin|done]].
  { unfold buildRunFinalOutputMetadataTx, loadRunFinalNodeKeyTx, loadRunFinalOutputNodeTx, GetDAG in *. tx_run. repeat (case_match; tx_run); done. }
  eapply other_runs_trans; [apply Hfin|]. cbn. apply update_other_runs; [intros rw Hrw; by go_bool|done].
Qed.

Lemma unblocked_other rows c n : NoDup (nd_NodeKey <$> rows) -> n ∈ rows ->
  (exists n0, n0 ∈ rows /\ nd_NodeKey n0 = c /\ str_in (nd_Status n0) ["ready"; "running"] = true) -> unblocked rows c n = true -> nd_NodeKey n <> c.
Proof.
  intros Hnd Hn (n0 & Hn0 & Hk & Hs) Hu E. assert (n = n0) as -> by (eapply (same_key nd_NodeKey); [done..|congruence]).
  unfold unblocked in Hu. rewrite !andb_true_iff in Hu. destruct Hu as [[Hp%String.eqb_eq _] _]. by rewrite Hp in Hs.
Qed.

Lemma Complete_effect input s r s' :
  let rows := run_nodes (ci_DagKey input) (ci_RunID input) s in
  run_wf rows -> ci_Status input = "done" -> Complete input s = Ok (r, s') ->
  run_running (ci_DagKey input) (ci_RunID input) s
  /\ (exists n, n ∈ rows /\ nd_NodeKey n = ci_NodeKey input /\ str_in (nd_Status n) ["ready"; "running"] = true)
  /\ db_nodes s' = on_run (ci_DagKey input) (ci_RunID input) (after_complete input rows) <$> db_nodes s
  /\ db_dags s' = db_dags s /\ finalized (ci_DagKey input) (ci_RunID input) s s'
  /\ schedules (ci_DagKey input) (ci_RunID input) (fun n => n ∈ rows /\ unblocked rows (ci_NodeKey input) n = true) s s'
  /\ (forall n, n ∈ rows -> unblocked rows (ci_NodeKey input) n = true -> dispatchable n = true ->
        en_IdempotencyKey (start_input n) ∈ wk_IdempotencyKey <$> db_wakeups s').
Proof.
  cbn zeta. intros Hwf Hdone H. unfold CompleteNodeAndScheduleDownstream, lockRunForCompletionTx in H. tx_run.
  match goal with Hc : CompleteNode _ _ _ = Ok _ |- _ =>
    apply CompleteNode_effect in Hc as (Hpos & -> & Hex & Hdk & Hkey & Hrid & Hst); [|apply Hwf] end.
  rewrite Hst, Hdone, String.eqb_refl in *. unfold scheduleDownstreamWakeupsTx in *. tx_run.
  match goal with x : list _ * list _ |- _ => destruct x as [scheduled promoted] end. tx_run. rewrite Hdk, Hrid in *. cbn [runIDValue default id] in *.
  set (s1 := with_nodes s _) in *. set (dk := ci_DagKey input) in *. set (rid := ci_RunID input) in *.
  set (complete := fun n => if String.eqb (nd_NodeKey n) (ci_NodeKey input) then completed_row input n else n) in *.
  assert (run_nodes dk rid s1 = complete <$> run_nodes dk rid s) as Hrows.
  { apply run_nodes_on_run; [apply keeps_if; auto with run|done]. }
  fold (run_nodes dk rid s1) in *. match goal with Hl : schedule_loop _ _ _ _ _ _ _ _ = Ok _ |- _ => rewrite Hrows in Hl end.
  match goal with Hl : schedule_loop _ _ _ _ _ _ _ _ = Ok _ |- _ => pose proof Hl as Hloop end.
  assert (Forall (fun c => nd_DagKey c = dk /\ nd_RunID c = Some rid) (complete <$> run_nodes dk rid s)) as Hcands.
  { rewrite <- Hrows. apply Forall_forall. intros n [_ Hn]%elem_of_run_nodes. unfold run_of in Hn. go_bool. case_match; [|done]. go_bool. by subst. }
  assert (keeps complete) as Hkc by (apply keeps_if; auto with run).
  eapply (loop_schedules dk rid) in Hloop as [Hsch Hkeys]; [|done|by rewrite Hrid|done| |].
  2: { apply (run_wf_keeps complete); [done|exact Hwf]. }
  2: { rewrite <- Hrows. intros c Hc. by apply elem_of_run_nodes in Hc as [? _]. }
  match goal with Hl : schedule_loop _ _ _ _ _ _ _ _ = Ok _ |- _ =>
    eapply (schedule_loop_effect _ _ _ dk rid) in Hl as (Hn & Hd & Hr); [|done| |by rewrite Hrid] end.
  2: { rewrite <- Hrows. apply Forall_forall. intros n [_ Hn]%elem_of_run_nodes. unfold run_of in Hn. by go_bool. }
  match goal with Hf : maybeFinalizeRunTx _ _ _ _ = Ok _ |- _ =>
    pose proof (finalize_schedules _ _ (fun n => n ∈ run_nodes dk rid s /\ unblocked (run_nodes dk rid s) (ci_NodeKey input) n = true) _ _ _ Hf) as Hfs;
    apply maybeFinalizeRunTx_effect in Hf as (Hn' & Hd' & Hr') end.
  rewrite Hkey in Hsch, Hkeys.
  assert (forall n, n ∈ run_nodes dk rid s -> unblocked (run_nodes dk rid s) (ci_NodeKey input) n = true -> complete n = n) as Hsame.
  { intros n Hn0 Hu. unfold complete. destruct (String.eqb_spec (nd_NodeKey n) (ci_NodeKey input)) as [E|]; [|done]. exfalso.
    by eapply unblocked_other; [apply Hwf|exact Hn0|exact Hex|..]. }
  split_and!; [done|done| |by rewrite Hd', Hd| | |].
  - rewrite Hn', Hn, Hkey. unfold s1. cbn [db_nodes with_nodes]. rewrite <- list_fmap_compose. apply list_fmap_ext.
    intros i n Hi%list_elem_of_lookup_2. unfold compose, on_run, promote.
    destruct (run_of dk rid n) eqn:E; [|by rewrite E].
    rewrite keeps_run_of, E by (apply keeps_if; auto with run). cbn [andb].
    apply promote_unblocked; [done|by apply elem_of_run_nodes|done].
  - unfold finalized. rewrite Hr'. unfold run_nodes. rewrite Hn'. by apply final_runs_shape.
  - assert (Hs1 : schedules dk rid (fun n => n ∈ complete <$> run_nodes dk rid s /\ satisfied (ci_NodeKey input) (status_map (complete <$> run_nodes dk rid s)) n = true) s x6)
      by (destruct Hsch as [A B]; split; [exact A|exact B]).
    eapply schedules_trans; [|exact Hs1|exact Hfs].
    intros n [(n0 & -> & Hn0)%list_elem_of_fmap Hsat]. rewrite (satisfied_unblocked input _ n0 Hwf Hn0 Hdone : satisfied (ci_NodeKey input) (status_map (complete <$> _)) (complete n0) = _) in Hsat.
    apply andb_true_iff in Hsat as [_ Hu]. by rewrite (Hsame n0 Hn0 Hu).
  - intros n Hn0 Hu Hdis. destruct (sch_wakeups _ _ _ _ _ Hfs) as (new & -> & _). rewrite fmap_app. apply elem_of_app. left.
    pose proof (Hsame n Hn0 Hu) as E. rewrite <- E. apply Hkeys; [by apply list_elem_of_fmap_2| |by rewrite E].
    rewrite (satisfied_unblocked input _ n Hwf Hn0 Hdone : satisfied (ci_NodeKey input) (status_map (complete <$> _)) (complete n) = _), Hu, andb_true_r.
    apply negb_true_iff, String.eqb_neq. by eapply unblocked_other; [apply Hwf|exact Hn0|exact Hex|].
Qed.

(** ** Failing *)

Local Abbreviation Fail := (FailNodeAndCancelDownstream reencode).

Lemma wakeupFenceMatches_Ok dagKey key runID w a s b s' :
  wakeupFenceMatches dagKey key runID w a s = Ok (b, s') -> s' = s.
Proof. unfold wakeupFenceMatches, GetTaskDagWakeup. intros H. case_match; tx_ok; done. Qed.

Lemma failNodeTx_effect dagKey key runID w a reason s node s' :
  NoDup (nd_NodeKey <$> run_nodes dagKey runID s) ->
  failNodeTx dagKey key runID w a reason s = Ok (node, s') ->
  s' = with_nodes s (on_run dagKey runID
         (fun n => if String.eqb (nd_NodeKey n) key then failed_row reason n else n) <$> db_nodes s)
  /\ exists n, n ∈ run_nodes dagKey runID s /\ nd_NodeKey n = key /\ str_in (nd_Status n) terminal_statuses = false.
Proof.
  intros Hnd H. unfold failNodeTx in H. tx_run.
  match goal with Hf : wakeupFenceMatches _ _ _ _ _ _ = Ok _ |- _ => apply wakeupFenceMatches_Ok in Hf as -> end.
  match goal with Hf : requireSingleAffectedRow _ _ _ = Ok _ |- _ => apply requireSingle_Ok in Hf as [Hone ->] end.
  match type of Hone with length (List.filter ?w _) = 1 => destruct (single_write dagKey key runID s w Hnd Hone) as [(n0 & Hin & Hk & Hw) Hall] end.
  { intros n Hn. unfold failable in Hn. go_bool. done. }
  apply GetRunNode_Ok in H as (-> & _ & _). split.
  - f_equal. apply list_fmap_ext. intros i n Hn%list_elem_of_lookup_2. rewrite (Hall n Hn). unfold on_run, run_node.
    by destruct (run_of _ _ n), (String.eqb (nd_NodeKey n) _).
  - exists n0. split_and!; [done|done|]. unfold failable in Hw. go_bool. done.
Qed.

Lemma Fail_effect input s r s' :
  let rows := run_nodes (fn_DagKey input) (fn_RunID input) s in
  run_wf rows -> Fail input s = Ok (r, s') ->
  (exists n, n ∈ rows /\ nd_NodeKey n = fn_NodeKey input /\ str_in (nd_Status n) terminal_statuses = false)
  /\ exists hit, (forall k, hit k = true <-> tc (depends rows) k (fn_NodeKey input))
  /\ db_nodes s' = on_run (fn_DagKey input) (fn_RunID input) (after_fail input hit) <$> db_nodes s
  /\ db_dags s' = db_dags s /\ finalized (fn_DagKey input) (fn_RunID input) s s'.
Proof.
  cbn zeta. intros Hwf H. unfold FailNodeAndCancelDownstream, failNodeAndCancelDownstreamTx, lockedNodeStatusBeforeFailTx in H.
  tx_run. match goal with Hg : GetTaskDagRunNodeForUpdate _ _ _ _ = Ok _ |- _ => apply GetRunNode_Ok in Hg as (-> & _ & _) end.
  match goal with Hc : failNodeTx _ _ _ _ _ _ _ = Ok _ |- _ => apply failNodeTx_effect in Hc as (-> & Hex); [|apply Hwf] end.
  split; [done|]. set (s1 := with_nodes s _) in *. set (dk := fn_DagKey input) in *. set (rid := fn_RunID input) in *.
  set (f := fun n => if String.eqb (nd_NodeKey n) (fn_NodeKey input) then failed_row (fail_reason input) n else n).
  assert (keeps f) as Hk by (apply keeps_if; auto with run).
  assert (run_nodes dk rid s1 = f <$> run_nodes dk rid s) as Hrows by (by apply run_nodes_on_run).
  assert (run_wf (run_nodes dk rid s1)) as Hwf1 by (rewrite Hrows; by apply run_wf_keeps).
  edestruct (cancelDownstreamTx_spec dk (fn_NodeKey input) rid (fn_Reason input) s1)
    as (canceled & s2 & hit & Hrun & Hhit & Hn & (Hd & Hr & _) & _); [done|apply Hwf1..|].
  match goal with Hc : cancelDownstreamTx _ _ _ _ _ = Ok (?c, ?s) |- _ => lazymatch s with s2 => fail | _ => rewrite Hc in Hrun; simplify_eq end end.
  match goal with Hf : maybeFinalizeRunTx _ _ _ _ = Ok _ |- _ => apply maybeFinalizeRunTx_effect in Hf as (Hn' & Hd' & Hr') end.
  exists hit. split_and!.
  - intros k. rewrite Hhit, Hrows. split; intros Ht; (eapply (tc_congruence id); [|exact Ht]); intros x y; by apply depends_keeps.
  - rewrite Hn', Hn. unfold s1. cbn [db_nodes with_nodes]. rewrite <- list_fmap_compose. apply list_fmap_ext.
    intros i n _. unfold compose, on_run, cascaded, after_fail. destruct (run_of dk rid n) eqn:E; [|by rewrite E].
    destruct (String.eqb_spec (nd_NodeKey n) (fn_NodeKey input)) as [Ek|Ek]; [by rewrite andb_false_r|].
    by rewrite E.
  - by rewrite Hd', Hd.
  - unfold finalized. rewrite Hr', Hr. unfold run_nodes. by rewrite Hn'.
Qed.
End run.

(** ** Liveness of the rows *)

Definition active_statuses : list string := ["ready"; "running"; "retrying"].
Definition dead_statuses : list string := ["failed"; "cancelled"; "skipped"].

(** A waiting node has something to wait for, and nothing it waits for is lost. *)
Record run_live (rows : list Node) : Prop := {
  rl_status : forall n, n ∈ rows -> nd_Status n ∈ "pending" :: active_statuses ++ terminal_statuses;
  rl_waits : forall n, n ∈ rows -> nd_Status n = "pending" ->
    exists d, d ∈ rows /\ nd_NodeKey d ∈ run_deps n /\ nd_Status d <> "done";
  rl_alive : forall n d, n ∈ rows -> d ∈ rows -> nd_Status n = "pending" -> nd_NodeKey d ∈ run_deps n ->
    nd_Status d ∉ dead_statuses;
}.

(** A dependency of [k] that is not done. *)
Definition next_wait (rows : list Node) (k : string) : string :=
  match List.find (fun n => String.eqb (nd_NodeKey n) k) rows with
  | Some n => default k (List.find (fun d => negb (String.eqb (status_of rows d) "done")) (run_deps n))
  | None => k
  end.

Lemma next_wait_spec rows n :
  run_wf rows -> run_live rows -> n ∈ rows -> nd_Status n = "pending" ->
  exists d, d ∈ rows /\ next_wait rows (nd_NodeKey n) = nd_NodeKey d /\ nd_NodeKey d ∈ run_deps n /\ nd_Status d <> "done".
Proof.
  intros Hwf Hl Hn Hp. unfold next_wait. destruct (List.find (fun x => String.eqb _ (nd_NodeKey n)) rows) as [n'|] eqn:E.
  2: { eapply find_none in E; [|by apply list_elem_of_In]. cbn in E. by rewrite String.eqb_refl in E. }
  apply find_some in E as [Hn'%list_elem_of_In Hk%String.eqb_eq].
  assert (n' = n) as -> by (by eapply (same_key nd_NodeKey); [apply Hwf|..]).
  destruct (rl_waits _ Hl n Hn Hp) as (d & Hd & Hin & Hs).
  destruct (List.find _ (run_deps n)) as [k|] eqn:E.
  - apply find_some in E as [Hk'%list_elem_of_In Hst]. go_bool. cbn.
    assert (k ∈ (nd_NodeKey <$> rows)) as (d' & -> & Hd')%list_elem_of_fmap by (eapply (rw_closed _ Hwf); by exists n).
    exists d'. rewrite status_of_row in Hst by (apply Hwf || done). done.
  - eapply find_none in E; [|by apply list_elem_of_In]. cbn in E. rewrite status_of_row in E by (apply Hwf || done).
    go_bool. congruence.
Qed.

(** A run with a node that is not terminal has an active node. *)
Lemma live_progress rows :
  run_wf rows -> run_live rows -> Exists (fun n => nd_Status n ∉ terminal_statuses) rows ->
  Exists (fun n => nd_Status n ∈ active_statuses) rows.
Proof.
  intros Hwf Hl Hex. destruct (decide (Exists (fun n => nd_Status n ∈ active_statuses) rows)) as [|Hno]; [done|exfalso].
  assert (forall n, n ∈ rows -> nd_Status n ∉ active_statuses) as Hna.
  { intros n Hn Ha. apply Hno. apply Exists_exists. by exists n. }
  apply Exists_exists in Hex as (n0 & Hn0 & Ht0).
  set (R := list_to_set (nd_NodeKey <$> List.filter (fun n => String.eqb (nd_Status n) "pending") rows) : gset string).
  assert (forall k, k ∈ R <-> exists n, n ∈ rows /\ nd_NodeKey n = k /\ nd_Status n = "pending") as HR.
  { intros k. unfold R. rewrite elem_of_list_to_set, list_elem_of_fmap. split.
    - intros (n & -> & Hin). rewrite list_elem_of_In, filter_In, <- list_elem_of_In, String.eqb_eq in Hin. naive_solver.
    - intros (n & Hn & <- & Hp). exists n. rewrite list_elem_of_In, filter_In, <- list_elem_of_In, String.eqb_eq. done. }
  destruct (finite_walk_cycle R (depends rows) (next_wait rows) (nd_NodeKey n0)) as (k & Hk).
  - apply HR. exists n0. split_and!; [done|done|]. pose proof (rl_status _ Hl n0 Hn0). pose proof (Hna n0 Hn0). set_solver.
  - intros k (n & Hn & <- & Hp)%HR. destruct (next_wait_spec rows n Hwf Hl Hn Hp) as (d & Hd & -> & Hin & Hs). split.
    + apply HR. exists d. split_and!; [done|done|]. pose proof (rl_status _ Hl d Hd). pose proof (Hna d Hd).
      pose proof (rl_alive _ Hl n d Hn Hd Hp Hin). unfold active_statuses, terminal_statuses, dead_statuses in *. set_solver.
    + by exists n.
  - by apply (rw_acyclic _ Hwf k).
Qed.

(** A row-wise update keeps the run live when no row starts to wait, the rows that
    still wait have something to wait for, and nothing they wait for is lost. *)
Lemma run_live_update rows (f : Node -> Node) :
  keeps f -> run_live rows ->
  (forall n, n ∈ rows -> nd_Status (f n) ∈ "pending" :: active_statuses ++ terminal_statuses) ->
  (forall n, n ∈ rows -> nd_Status (f n) = "pending" -> nd_Status n = "pending") ->
  (forall n, n ∈ rows -> nd_Status (f n) = "pending" ->
     exists d, d ∈ rows /\ nd_NodeKey d ∈ run_deps n /\ nd_Status (f d) <> "done") ->
  (forall n d, n ∈ rows -> d ∈ rows -> nd_Status (f n) = "pending" -> nd_NodeKey d ∈ run_deps n ->
     nd_Status (f d) ∈ dead_statuses -> nd_Status d ∈ dead_statuses) ->
  run_live (f <$> rows).
Proof.
  intros Hk [A B C] Hs Hp Hw Ha. split.
  - intros n' (n & -> & Hn)%list_elem_of_fmap. by apply Hs.
  - intros n' (n & -> & Hn)%list_elem_of_fmap Hpn. destruct (Hw n Hn Hpn) as (d & Hd & Hin & Hne).
    exists (f d). rewrite (kp_key _ Hk), run_deps_keeps by done. split; [by apply list_elem_of_fmap_2|done].
  - intros n' d' (n & -> & Hn)%list_elem_of_fmap (d & -> & Hd)%list_elem_of_fmap Hpn.
    rewrite (kp_key _ Hk), run_deps_keeps by done. intros Hin Hdead.
    apply (C n d Hn Hd); [by apply Hp|done|]. by apply (Ha n d).
Qed.

Lemma live_complete rows input :
  run_wf rows -> run_live rows -> ci_Status input = "done" -> run_live (after_complete input rows <$> rows).
Proof.
  intros Hwf Hl Hdone. assert (forall n, nd_Status (after_complete input rows n) = "done" /\ nd_NodeKey n = ci_NodeKey input
    \/ nd_NodeKey n <> ci_NodeKey input /\ nd_Status (after_complete input rows n) = "ready" /\ nd_Status n = "pending"
    \/ nd_NodeKey n <> ci_NodeKey input /\ nd_Status (after_complete input rows n) = nd_Status n
       /\ unblocked rows (ci_NodeKey input) n = false) as Hcase.
  { intros n. unfold after_complete. destruct (String.eqb_spec (nd_NodeKey n) (ci_NodeKey input)); [by left|right].
    destruct (unblocked rows (ci_NodeKey input) n) eqn:E; [left|by right].
    unfold unblocked in E. go_bool. done. }
  apply run_live_update; [auto with run|done|..].
  - intros n Hn. pose proof (rl_status _ Hl n Hn). destruct (Hcase n) as [[-> _]|[(_ & -> & _)|(_ & -> & _)]];
      unfold active_statuses, terminal_statuses in *; set_solver.
  - intros n Hn. destruct (Hcase n) as [[-> _]|[(_ & -> & _)|(_ & -> & _)]]; done.
  - intros n Hn. destruct (Hcase n) as [[-> _]|[(_ & -> & _)|(Hne & -> & Hub)]]; [done|done|]. intros Hp.
    assert (exists d, d ∈ rows /\ nd_NodeKey d ∈ run_deps n /\ nd_Status d <> "done" /\ nd_NodeKey d <> ci_NodeKey input)
      as (d & Hd & Hin & Hs & Hc).
    { destruct (rl_waits _ Hl n Hn Hp) as (d & Hd & Hin & Hs).
      destruct (decide (nd_NodeKey d = ci_NodeKey input)) as [Ec|]; [|eauto 6].
      unfold unblocked in Hub. rewrite (proj2 (String.eqb_eq _ _) Hp), <- Ec, (proj2 (str_in_elem _ _) Hin) in Hub.
      cbn [andb] in Hub. apply not_true_iff_false in Hub. rewrite forallb_true_iff in Hub.
      apply not_Forall_Exists in Hub; [|intros x; apply _]. apply Exists_exists in Hub as (k & Hk & Hf).
      assert (k ∈ (nd_NodeKey <$> rows)) as (e & -> & He)%list_elem_of_fmap by (eapply (rw_closed _ Hwf); by exists n).
      apply not_true_iff_false in Hf. unfold done_after in Hf. rewrite status_of_row in Hf by (apply Hwf || done).
      go_bool. exists e. rewrite <- Ec. done. }
    exists d. split_and!; [done|done|]. destruct (Hcase d) as [[_ ?]|[(_ & -> & _)|(_ & -> & _)]]; done.
  - intros n d Hn Hd _ _. destruct (Hcase d) as [[-> _]|[(_ & -> & _)|(_ & -> & _)]]; unfold dead_statuses; set_solver.
Qed.

Lemma live_fail rows input hit :
  run_live rows -> (forall k, hit k = true <-> tc (depends rows) k (fn_NodeKey input)) ->
  run_live (after_fail input hit <$> rows).
Proof.
  intros Hl Hhit. assert (forall n, nd_Status (after_fail input hit n) = "failed"
      /\ (nd_NodeKey n = fn_NodeKey input \/ hit (nd_NodeKey n) = true)
    \/ nd_Status (after_fail input hit n) = nd_Status n /\ (nd_Status n = "pending" -> hit (nd_NodeKey n) = false)) as Hcase.
  { intros n. unfold after_fail. destruct (String.eqb_spec (nd_NodeKey n) (fn_NodeKey input)); [by left; auto|].
    destruct (String.eqb_spec (nd_Status n) "pending"), (hit (nd_NodeKey n)); cbn; naive_solver. }
  apply run_live_update; [auto with run|done|..].
  - intros n Hn. pose proof (rl_status _ Hl n Hn). destruct (Hcase n) as [[-> _]|[-> _]];
      unfold active_statuses, terminal_statuses in *; set_solver.
  - intros n Hn. destruct (Hcase n) as [[-> _]|[-> _]]; done.
  - intros n Hn. destruct (Hcase n) as [[-> _]|[-> _]]; [done|]. intros Hp.
    destruct (rl_waits _ Hl n Hn Hp) as (d & Hd & Hin & Hs). exists d. split_and!; [done|done|].
    destruct (Hcase d) as [[-> _]|[-> _]]; done.
  - intros n d Hn Hd Hp Hin. destruct (Hcase n) as [[E _]|[E Hnh]]; [congruence|]. rewrite E in Hp. specialize (Hnh Hp).
    destruct (Hcase d) as [[_ Hd']|[-> _]]; [|done]. exfalso. apply not_true_iff_false in Hnh. apply Hnh, Hhit.
    assert (depends rows (nd_NodeKey n) (nd_NodeKey d)) as Hdep by (by exists n).
    destruct Hd' as [<-|Hd'%Hhit]; [by apply tc_once|by eapply tc_l].
Qed.
