(* ===== verification/RunLive.v ===== *)
(** * No run waits for ever on its own nodes

    The invariant of a run from its start: unique rows over an acyclic graph, every
    waiting node has a live dependency to wait for, and a run with only terminal
    nodes is no longer running.  Every transaction on the run keeps it. *)

From S2P Require Import Prelude GoStrings NodeStatus Json NodeConfig DagStore ApplyOps WakeupPayload RunStore RunEffects Plan Cycle TemplateInvariant RunGraph RunInvariant WakeupLease RunService.

Definition unfinished (rows : list Node) : Prop := Exists (fun n => nd_Status n ∉ terminal_statuses) rows.

Record run_inv (dagKey : string) (runID : Z) (s : db) : Prop := {
  ri_ids : NoDup (rn_ID <$> db_runs s);
  ri_wf : run_wf (run_nodes dagKey runID s);
  ri_live : run_running dagKey runID s -> run_live (run_nodes dagKey runID s) /\ unfinished (run_nodes dagKey runID s);
}.

(** ** Finalizing *)

Lemma finalized_status_None statuses : statuses <> [] -> finalizedRunStatus statuses = None ->
  Exists (fun st => st ∉ terminal_statuses) statuses.
Proof.
  intros Hne H. unfold finalizedRunStatus in H. pose proof (finalized_from_spec "succeeded" statuses ltac:(auto)) as Hs.
  destruct statuses; [done|]. by rewrite H in Hs.
Qed.

Lemma finalized_status_Some statuses st : finalizedRunStatus statuses = Some st -> st <> "running".
Proof.
  intros H. unfold finalizedRunStatus in H. pose proof (finalized_from_spec "succeeded" statuses ltac:(auto)) as Hs.
  destruct statuses; [done|]. rewrite H in Hs. naive_solver.
Qed.

Lemma finalized_running dagKey runID s s' :
  finalized dagKey runID s s' -> run_running dagKey runID s' ->
  run_running dagKey runID s /\ (run_nodes dagKey runID s' <> [] -> unfinished (run_nodes dagKey runID s')).
Proof.
  unfold finalized, run_running. rewrite running_shape. intros -> Hr. rewrite <- running_shape in Hr.
  destruct (finalizedRunStatus _) as [st|] eqn:E; cbn [final_runs] in Hr.
  - apply finalized_status_Some in E. by rewrite finish_not_running in Hr.
  - split; [done|]. intros Hne. apply finalized_status_None in E; [|by destruct (run_nodes dagKey runID s')].
    unfold unfinished. by rewrite Exists_fmap in E.
Qed.

Lemma shape_ids (l l' : list Run) : run_shape <$> l = run_shape <$> l' -> rn_ID <$> l = rn_ID <$> l'.
Proof.
  intros H. change rn_ID with ((fun sh : Z * string * string * string => sh.1.1.1) ∘ run_shape).
  by rewrite !list_fmap_compose, H.
Qed.

Lemma final_runs_ids dagKey runID o l : rn_ID <$> final_runs dagKey runID o l = rn_ID <$> l.
Proof.
  destruct o as [st|]; [|done]. cbn [final_runs]. rewrite <- list_fmap_compose. apply list_fmap_ext.
  intros i r _. unfold compose, finish. by case_match.
Qed.

Lemma finalized_ids dagKey runID s s' : finalized dagKey runID s s' -> rn_ID <$> db_runs s' = rn_ID <$> db_runs s.
Proof. unfold finalized. intros H%shape_ids. by rewrite H, final_runs_ids. Qed.

(** A step that rewrites the rows of the run and then tries to finish the run. *)
Lemma run_inv_finalized dagKey runID f s s' :
  keeps f -> db_nodes s' = on_run dagKey runID f <$> db_nodes s -> finalized dagKey runID s s' ->
  (exists n, n ∈ run_nodes dagKey runID s) ->
  (run_live (run_nodes dagKey runID s) -> run_live (f <$> run_nodes dagKey runID s)) ->
  run_inv dagKey runID s -> run_inv dagKey runID s'.
Proof.
  intros Hk Hn Hfin (n0 & Hn0) Hlive [A B C]. pose proof (run_nodes_on_run _ _ _ _ _ Hk Hn) as Hrows. split.
  - by rewrite (finalized_ids _ _ _ _ Hfin).
  - rewrite Hrows. by apply run_wf_keeps.
  - intros Hr. apply (finalized_running _ _ _ _ Hfin) in Hr as [Hr Hun]. split.
    + rewrite Hrows. apply Hlive. by apply C.
    + apply Hun. rewrite Hrows. by destruct (run_nodes dagKey runID s); [apply elem_of_nil in Hn0|].
Qed.

(** ** Moving one node between active statuses *)

Definition moved (key to : string) (g : Node -> Node) (n : Node) : Node :=
  if String.eqb (nd_NodeKey n) key then g n else n.

Lemma live_move rows key to (g : Node -> Node) :
  keeps g -> (forall n, nd_Status (g n) = to) -> to ∈ active_statuses ->
  (forall n, n ∈ rows -> nd_NodeKey n = key -> nd_Status n ∈ "pending" :: active_statuses) ->
  run_live rows -> run_live (moved key to g <$> rows).
Proof.
  intros Hk Hto Hact Hfrom Hl.
  assert (forall n, n ∈ rows -> nd_Status (moved key to g n) = to /\ nd_Status n ∈ "pending" :: active_statuses
    \/ nd_Status (moved key to g n) = nd_Status n) as Hcase.
  { intros n Hn. unfold moved. destruct (String.eqb_spec (nd_NodeKey n) key); [left; by rewrite Hto; auto|by right]. }
  assert (to <> "pending" /\ to <> "done" /\ to ∉ dead_statuses) as (Hp & Hd & Hdead)
    by (unfold active_statuses, dead_statuses in *; set_solver).
  apply run_live_update; [by apply (keeps_if (fun n => String.eqb (nd_NodeKey n) key))|done|..].
  - intros n Hn. pose proof (rl_status _ Hl n Hn). destruct (Hcase n Hn) as [[-> _]| ->]; [|done].
    unfold active_statuses, terminal_statuses in *; set_solver.
  - intros n Hn. destruct (Hcase n Hn) as [[-> _]| ->]; [done|done].
  - intros n Hn Hpn. destruct (Hcase n Hn) as [[E _]|E]; [congruence|]. rewrite E in Hpn.
    destruct (rl_waits _ Hl n Hn Hpn) as (d & Hd' & Hin & Hs). exists d. split_and!; [done|done|].
    destruct (Hcase d Hd') as [[-> _]| ->]; done.
  - intros n d Hn Hd' _ _. destruct (Hcase d Hd') as [[-> _]| ->]; [done|done].
Qed.

Lemma move_unfinished rows key to (g : Node -> Node) :
  (forall n, nd_Status (g n) = to) -> to ∈ active_statuses -> unfinished rows -> unfinished (moved key to g <$> rows).
Proof.
  intros Hto Hact Hun. unfold unfinished. rewrite Exists_fmap. eapply Exists_impl; [exact Hun|].
  intros n Hn. unfold compose, moved. case_match; [|done]. rewrite Hto.
  unfold active_statuses, terminal_statuses in *. set_solver.
Qed.

(** A single-row write that matched, as a map over the rows of the run. *)
Lemma run_inv_move dagKey runID key to (g : Node -> Node) (w : Node -> bool) s :
  keeps g -> (forall n, nd_Status (g n) = to) -> to ∈ active_statuses ->
  (forall n, w n = true -> run_node dagKey key runID n = true /\ nd_Status n ∈ "pending" :: active_statuses) ->
  length (List.filter w (db_nodes s)) = 1 ->
  run_inv dagKey runID s ->
  run_inv dagKey runID (with_nodes s ((fun n => if w n then g n else n) <$> db_nodes s)).
Proof.
  intros Hk Hto Hact Hw Hone [A B C].
  destruct (single_write dagKey key runID s w (rw_nodup _ B) Hone) as [(n0 & Hn0 & Hk0 & Hw0) Hall]; [apply Hw|].
  set (s' := with_nodes s _).
  assert (keeps (moved key to g)) as Hkm by (by apply (keeps_if (fun n => String.eqb (nd_NodeKey n) key))).
  assert (run_nodes dagKey runID s' = moved key to g <$> run_nodes dagKey runID s) as Hrows.
  { apply run_nodes_on_run; [done|]. cbn. apply list_fmap_ext. intros i n Hi%list_elem_of_lookup_2. rewrite (Hall n Hi).
    unfold on_run, moved, run_node. by destruct (run_of dagKey runID n), (String.eqb (nd_NodeKey n) key). }
  split; [done|rewrite Hrows; by apply run_wf_keeps|]. intros Hr. destruct (C Hr) as [Hl Hun]. rewrite Hrows. split.
  - apply live_move; [done|done|done| |done]. intros n Hn Hkn.
    assert (n = n0) as -> by (eapply (same_key nd_NodeKey); [apply B|done|done|congruence]). by apply Hw.
  - by apply move_unfinished.
Qed.

(** ** Terminating *)

Lemma cancel_not_running input run ev l :
  NoDup (rn_ID <$> l) -> run ∈ l -> cancellable input run = true ->
  existsb (running_row (ti_DagKey input) (ti_RunID input))
    ((fun r => if cancellable input r then set_run "cancelled" ev (rn_Metadata r) r else r) <$> l) = false.
Proof.
  intros Hnd Hin Hc. apply existsb_false_iff, Forall_fmap, Forall_forall. intros y Hy. unfold compose.
  destruct (cancellable input y) eqn:Ey; [unfold running_row; by rewrite andb_false_r|].
  apply not_true_iff_false. intros Hr. assert (y = run) as ->; [|congruence]. eapply (same_key rn_ID); [done..|].
  unfold cancellable, running_row, run_row in Hc, Hr. go_bool. congruence.
Qed.

(** What a termination that answers leaves: cancelled nodes, and no running run. *)
Lemma TerminateRun_effect input s r s' :
  NoDup (rn_ID <$> db_runs s) -> TerminateRun input s = Ok (r, s') ->
  (exists reason, db_nodes s' = (fun n => if run_of (ti_DagKey input) (ti_RunID input) n && negb (str_in (nd_Status n) terminal_statuses)
                                then cancelled_node reason n else n) <$> db_nodes s
     /\ db_wakeups s' = (fun w => if String.eqb (wk_DagKey w) (ti_DagKey input) && bool_decide (wk_RunID w = Some (ti_RunID input))
                                     && str_in (wk_Status w) ["pending"; "dispatching"; "sent"]
                                  then unclaimed "failed" ("run_cancelled: " +:+ reason) w else w) <$> db_wakeups s)
  /\ rn_ID <$> db_runs s' = rn_ID <$> db_runs s
  /\ ~ run_running (ti_DagKey input) (ti_RunID input) s'.
Proof.
  intros Hnd H. unfold TerminateRun, terminateRunTx, CancelTaskDagRunNodes, CancelTaskDagRunWakeups, cancelTaskDagRunRow,
    cancelledRunSpawnedThreadIDs, runSpawnedThreadIDs, update_wakeups in H. tx_run. cbn [sql_update] in *. tx_run.
  cbn [db_runs with_wakeups with_nodes] in *.
  destruct (List.find (cancellable input) (db_runs s)) as [run|] eqn:E; tx_run; cbn [db_nodes db_runs with_runs with_wakeups with_nodes] in *.
  - apply find_some in E as [Hin%list_elem_of_In Hc]. split; [by eexists|]. split.
    + rewrite <- list_fmap_compose. apply list_fmap_ext. intros i y _. unfold compose. by destruct (cancellable input y).
    + unfold run_running. cbn. by rewrite (cancel_not_running input run).
  - destruct (List.find (fun r => String.eqb (rn_RunKey r) (ti_RunKey input)) (db_runs s)) as [run|] eqn:F; tx_run; try done.
    apply find_some in F as [Hin%list_elem_of_In Hk].
    destruct ((rn_ID run =? ti_RunID input)%Z && String.eqb (rn_DagKey run) (ti_DagKey input)
      && String.eqb (rn_Status run) "cancelled") eqn:G; tx_run; try done.
    split; [by eexists|]. split; [done|]. unfold run_running. cbn. intros (x & Hx%list_elem_of_In & Hrun)%existsb_exists.
    unfold running_row, run_row in Hrun. go_bool. assert (x = run) as -> by (eapply (same_key rn_ID); [done..|congruence]). congruence.
Qed.

(** ** The steps of a run *)

Section steps.
Context (byte_len : RawMessage -> Z) (now_text : string) (now_ms : Z).
Context (json_ok : RawMessage -> bool) (reencode : json -> json).

(** The transactions on the run [runID]; [rs_other] stands for those on other runs and
    on templates. *)
Inductive run_step (dagKey : string) (runID : Z) : db -> db -> Prop :=
| rs_complete input r s s' :
    ci_DagKey input = dagKey -> ci_RunID input = runID -> ci_Status input = "done" ->
    CompleteNodeAndScheduleDownstream byte_len now_text now_ms json_ok reencode input s = Ok (r, s') ->
    run_step dagKey runID s s'
| rs_fail input r s s' :
    fn_DagKey input = dagKey -> fn_RunID input = runID ->
    FailNodeAndCancelDownstream reencode input s = Ok (r, s') -> run_step dagKey runID s s'
| rs_terminate input r s s' :
    ti_DagKey input = dagKey -> ti_RunID input = runID ->
    TerminateRun input s = Ok (r, s') -> run_step dagKey runID s s'
| rs_running now ctxFence input r s s' :
    ru_DagKey input = dagKey -> ru_RunID input = runID -> ru_Status input = "running" ->
    UpdateRunningNodeStatus json_ok now ctxFence input s = Ok (r, s') -> run_step dagKey runID s s'
| rs_status input r s s' :
    nu_DagKey input = dagKey -> nu_RunID input = runID ->
    nu_ExpectedStatus input ∈ "pending" :: active_statuses -> nu_Status input ∈ active_statuses ->
    store_UpdateNodeStatus json_ok input s = Ok (r, s') -> run_step dagKey runID s s'
| rs_other s s' :
    run_nodes dagKey runID s' = run_nodes dagKey runID s ->
    run_running dagKey runID s' = run_running dagKey runID s -> NoDup (rn_ID <$> db_runs s') -> run_step dagKey runID s s'.

Lemma validateWakeupFenceTx_Ok now f d n r s u s' : validateWakeupFenceTx now f d n r s = Ok (u, s') -> s' = s.
Proof. unfold validateWakeupFenceTx, GetTaskDagWakeup. intros H. tx_ok. case_match; tx_ok; done. Qed.

Lemma run_step_inv dagKey runID s s' : run_step dagKey runID s s' -> run_inv dagKey runID s -> run_inv dagKey runID s'.
Proof.
  intros Hstep Hinv. destruct Hstep as [input r s s' <- <- Hdone H|input r s s' <- <- H|input r s s' <- <- H
    |now ctxFence input r s s' <- <- Hst H|input r s s' <- <- Hexp Hst H|s s' Hrows Hrun Hids].
  - apply Complete_effect in H as (_ & (n & Hn & _) & Hnodes & _ & Hfin & _); [|apply Hinv|done].
    eapply (run_inv_finalized _ _ _ _ _ (after_complete_keeps _ _) Hnodes Hfin); [eauto| |done].
    intros Hl. apply live_complete; [apply Hinv|done|done].
  - apply Fail_effect in H as ((n & Hn & _) & hit & Hhit & Hnodes & _ & Hfin); [|apply Hinv].
    eapply (run_inv_finalized _ _ _ _ _ (after_fail_keeps _ _) Hnodes Hfin); [eauto| |done].
    intros Hl. by apply live_fail.
  - destruct Hinv as [A B C]. apply TerminateRun_effect in H as ((reason & Hn & _) & Hids & Hnr); [|done].
    split; [by rewrite Hids| |by intros ?].
    rewrite (run_nodes_on_run _ _ (fun n => if negb (str_in (nd_Status n) terminal_statuses) then cancelled_node reason n else n) s s').
    + apply run_wf_keeps; [apply keeps_if; auto with run|done].
    + apply keeps_if; auto with run.
    + rewrite Hn. apply list_fmap_ext. intros i n _. unfold on_run. by destruct (run_of _ _ n).
  - unfold UpdateRunningNodeStatus, UpdateRunningTaskDagNodeStatus in H. tx_run.
    match goal with Hg : GetTaskDagRunNodeForUpdate _ _ _ _ = Ok _ |- _ => apply GetRunNode_Ok in Hg as (-> & _ & _) end.
    match goal with Hl : length (List.filter _ (db_nodes ?a)) = 1 |- _ => rename Hl into Hone; assert (a = s) as -> end.
    { case_match; tx_ok; [|done]. by eapply validateWakeupFenceTx_Ok. }
    eapply (run_inv_move _ _ (ru_NodeKey input) "running"); [| | | |exact Hone|done].
    + by split.
    + by intros n.
    + unfold active_statuses. set_solver.
    + intros n Hn. go_bool. split; [done|]. match goal with Hi : str_in _ _ = true |- _ => apply str_in_elem in Hi end.
      unfold active_statuses. set_solver.
  - unfold store_UpdateNodeStatus in H. tx_run. apply GetRunNode_Ok in H as (-> & _ & _).
    match goal with Hl : length (List.filter _ (db_nodes ?a)) = 1 |- _ => rename Hl into Hone end.
    eapply (run_inv_move _ _ (nu_NodeKey input) (nu_Status input)); [| |done| |exact Hone|done].
    + by split.
    + by intros n.
    + intros n Hn. go_bool. split; [done|congruence].
  - destruct Hinv as [A B C]. split; [done|by rewrite Hrows|]. rewrite Hrun, Hrows. apply C.
Qed.
End steps.

(** ** Starting *)

(** The dependencies are stored as the service writes them. *)
Definition stored (t : Node) : Prop := nd_DependsOn t = dependsOnJSON (ApplyOps.decodeDependsOn (nd_DependsOn t)).

Lemma stored_deps t ds :
  stored t -> ApplyOps.decodeDependsOn (nd_DependsOn t) = ds ->
  store_decodeDependsOn (nd_DependsOn t) = Ok ds /\ no_dependencies (nd_DependsOn t) = (length ds =? 0)%nat
  /\ Forall (fun d => trimmed d /\ d <> EmptyString) ds.
Proof.
  unfold stored. intros -> <-. rewrite decode_dependsOnJSON. unfold dependsOnJSON, store_decodeDependsOn. split_and!.
  - unfold marshal_strings. cbv iota. fold (marshal_strings (cleanStringSlice (ApplyOps.decodeDependsOn (nd_DependsOn t)))).
    by rewrite unmarshal_marshal_strings.
  - cbn. by rewrite length_fmap.
  - apply Forall_forall. intros d. unfold cleanStringSlice. rewrite list_elem_of_In, filter_In, <- list_elem_of_In.
    intros [(x & -> & _)%list_elem_of_fmap Hne]. go_bool. auto with go.
Qed.

Definition start_row (runID : Z) (t : Node) : Node :=
  if no_dependencies (nd_DependsOn t) then set_status "ready" (run_copy runID t) else run_copy runID t.

Lemma clone_loop dagKey runID l s u s' :
  Forall (fun t => nd_DagKey t = dagKey) l -> NoDup (nd_NodeKey <$> l) ->
  (forall n, n ∈ run_nodes dagKey runID s -> nd_NodeKey n ∉ (nd_NodeKey <$> l)) ->
  forM l (fun t => _ ← insertRunNodeIfMissing runID t; mret tt) s = Ok (u, s') ->
  s' = with_nodes s (db_nodes s ++ (run_copy runID <$> l)).
Proof.
  revert s. induction l as [|t l IH]; intros s Hdk Hnd Hfresh H; cbn [forM] in H; tx_ok.
  { destruct s'. cbn. by rewrite app_nil_r. }
  apply Forall_cons in Hdk as [<- Hdk]. rewrite fmap_cons in Hnd. apply NoDup_cons in Hnd as [Hnt Hnd].
  unfold insertRunNodeIfMissing in *. tx_ok.
  match goal with Hi : (if existsb ?p (db_nodes ?a) then _ else _) _ = Ok _ |- _ =>
    assert (existsb p (db_nodes a) = false) as Hno end.
  { apply existsb_false_iff, Forall_forall. intros n Hn. apply not_true_iff_false. intros Hr. unfold run_node in Hr. go_bool.
    eapply (Hfresh n); [by apply elem_of_run_nodes|]. rewrite fmap_cons. set_solver. }
  rewrite Hno in *. tx_ok. apply IH in H as ->; [|done|done|].
  - destruct s. unfold with_nodes. cbn. by rewrite <- app_assoc.
  - intros n. rewrite elem_of_run_nodes. cbn. rewrite elem_of_app, list_elem_of_singleton. intros [[Hn| ->] Hr].
    + assert (nd_NodeKey n ∉ nd_NodeKey <$> t :: l) as Hk by (apply Hfresh; by apply elem_of_run_nodes).
      rewrite fmap_cons in Hk. set_solver.
    + done.
Qed.

Section start.
Context (byte_len : RawMessage -> Z) (now_text : string) (now_ms : Z).

Lemma root_loop_quiet nodes runID acc : quiet (root_loop byte_len now_text now_ms nodes runID acc).
Proof.
  revert acc. induction nodes as [|n nodes IH]; intros acc s r s' H; cbn [root_loop] in H; tx_ok; [done|].
  apply IH in H as (-> & -> & ->). unfold scheduleRootWakeup in *. tx_ok.
  repeat (case_match; tx_ok; try done);
    match goal with
    | Hq : appendDispatchBlockedEvent _ _ _ _ _ _ = Ok _ |- _ => by apply appendDispatchBlockedEvent_quiet in Hq
    | Hq : EnqueueWakeup _ _ _ _ = Ok _ |- _ => by apply EnqueueWakeup_quiet in Hq
    end.
Qed.

(** Every run row of a node belongs to a run. *)
Definition runs_known (s : db) : Prop := forall n r, n ∈ db_nodes s -> nd_RunID n = Some r -> r ∈ (rn_ID <$> db_runs s).

Lemma lockDAGForRunStart_Ok dagKey s d s' : lockDAGForRunStart dagKey s = Ok (d, s') -> s' = s.
Proof.
  unfold lockDAGForRunStart, catch. destruct (GetDAG dagKey s) as [[d0 s0]|e] eqn:E.
  - apply GetDAG_Ok in E as [_ ->]. by intros [= _ ->].
  - by destruct (errors_Is e ErrNotFound).
Qed.

Lemma CreateRun_Ok input s run s' :
  CreateRun input s = Ok (run, s') ->
  s' = with_runs s (db_runs s ++ [run]) /\ rn_ID run = next_id (rn_ID <$> db_runs s)
  /\ rn_DagKey run = cu_DagKey input /\ rn_Status run = "running".
Proof. unfold CreateRun. intros H. by tx_ok. Qed.

Definition promote_root (n : Node) : Node :=
  if String.eqb (nd_Status n) "pending" && no_dependencies (nd_DependsOn n) then set_status "ready" n else n.

Lemma promote_root_keeps : keeps promote_root.
Proof. apply (keeps_if (fun n => String.eqb (nd_Status n) "pending" && no_dependencies (nd_DependsOn n))). auto with run. Qed.

Lemma PromoteAndSchedule_nodes dagKey runID s r s' :
  PromoteAndScheduleRunRoots byte_len now_text now_ms dagKey runID s = Ok (r, s') ->
  db_nodes s' = on_run dagKey runID promote_root <$> db_nodes s
  /\ run_shape <$> db_runs s' = run_shape <$> db_runs s.
Proof.
  unfold PromoteAndScheduleRunRoots, PromoteRootNodesToReady, ScheduleRootWakeups. intros H. tx_run.
  match goal with Hq : root_loop _ _ _ _ _ _ _ = Ok _ |- _ => apply root_loop_quiet in Hq as (-> & _ & ->) end.
  split; [|done]. cbn. apply list_fmap_ext. intros i n _. unfold on_run, promote_root. by destruct (run_of dagKey runID n).
Qed.

Lemma template_keys dagKey s : Forall (fun t => nd_DagKey t = dagKey) (template dagKey s).
Proof.
  apply Forall_forall. intros t. unfold template, template_of. rewrite list_elem_of_In, filter_In. intros [_ Ht]. by go_bool.
Qed.

Lemma copies_of_run dagKey runID l :
  Forall (fun t => nd_DagKey t = dagKey) l -> List.filter (run_of dagKey runID) (run_copy runID <$> l) = run_copy runID <$> l.
Proof.
  induction 1 as [|t l Ht _ IH]; [done|]. rewrite fmap_cons. cbn [List.filter].
  assert (run_of dagKey runID (run_copy runID t) = true) as ->; [|by rewrite IH].
  unfold run_of. cbn. by rewrite Ht, String.eqb_refl, Z.eqb_refl.
Qed.

Lemma startRunTx_effect input s resp s' :
  let dagKey := cu_DagKey input in
  NoDup (nd_NodeKey <$> template dagKey s) -> runs_known s -> NoDup (rn_ID <$> db_runs s) ->
  startRunTx byte_len now_text now_ms dagKey input s = Ok (resp, s') ->
  run_nodes dagKey (sr_RunID resp) s' = start_row (sr_RunID resp) <$> template dagKey s
  /\ NoDup (rn_ID <$> db_runs s') /\ run_running dagKey (sr_RunID resp) s'.
Proof.
  cbn zeta. intros Hnd Hknown Hids H. unfold startRunTx in H. tx_ok.
  match goal with Hl : lockDAGForRunStart _ _ = Ok _ |- _ => apply lockDAGForRunStart_Ok in Hl as -> end.
  match goal with Hc : CreateRun _ _ = Ok (?r, _) |- _ => apply CreateRun_Ok in Hc as (-> & Hid & Hkey & Hst); set (run := r) in * end.
  match goal with p : nat * Z |- _ => destruct p as [ready sched] end. tx_ok. cbn [sr_RunID NewStartDAGResponse].
  cbn [cu_DagKey] in Hkey. set (dagKey := cu_DagKey input) in *. set (rid := rn_ID run) in *. set (s1 := with_runs s _) in *.
  assert (forall n, n ∈ db_nodes s -> run_of dagKey rid n = false) as Hnone.
  { intros n Hn. apply not_true_iff_false. intros Hr. unfold run_of in Hr. go_bool.
    destruct (nd_RunID n) as [r|] eqn:Er; [|done]. go_bool. subst r.
    pose proof (next_id_fresh _ _ (Hknown _ _ Hn Er)). lia. }
  assert (forall l, (forall n, n ∈ l -> run_of dagKey rid n = false) -> List.filter (run_of dagKey rid) l = []) as Hempty.
  { induction l as [|n l IH]; intros Hl; [done|]. cbn [List.filter]. rewrite (Hl n) by left. apply IH. intros; apply Hl. by right. }
  match goal with Hc : CloneNodesForRun _ _ _ = Ok _ |- _ => unfold CloneNodesForRun, ListNodes in Hc; tx_ok; apply clone_loop with (dagKey := dagKey) in Hc as -> end.
  2: { apply (template_keys dagKey s). }
  2: { exact Hnd. }
  2: { intros n [Hn Hr]%elem_of_run_nodes. by rewrite (Hnone n Hn) in Hr. }
  match goal with Hp : PromoteAndScheduleRunRoots _ _ _ _ _ _ = Ok _ |- _ => apply PromoteAndSchedule_nodes in Hp as [Hn Hr] end.
  split_and!.
  - rewrite (run_nodes_on_run _ _ _ _ _ promote_root_keeps Hn).
    unfold run_nodes. cbn [db_nodes with_nodes]. rewrite List.filter_app, (Hempty (db_nodes s1)) by exact Hnone. cbn [app].
    change (List.filter (template_of dagKey) (db_nodes s1)) with (template dagKey s).
    rewrite copies_of_run by apply template_keys.
    rewrite <- list_fmap_compose. apply list_fmap_ext. done.
  - rewrite (shape_ids _ _ Hr). cbn. rewrite fmap_app. apply NoDup_app. split_and!; [done| |apply NoDup_singleton].
    intros y Hy%next_id_fresh. cbn. rewrite list_elem_of_singleton. rewrite <- Hid in Hy. fold rid. lia.
  - apply (run_running_shape _ _ _ _ Hr). unfold run_running. cbn. rewrite existsb_app. cbn.
    unfold running_row, run_row. by rewrite Hkey, String.eqb_refl, Z.eqb_refl, Hst, orb_true_r.
Qed.
End start.

Lemma start_row_facts runID t :
  nd_NodeKey (start_row runID t) = nd_NodeKey t /\ nd_DependsOn (start_row runID t) = nd_DependsOn t
  /\ nd_Status (start_row runID t) = if no_dependencies (nd_DependsOn t) then "ready" else "pending".
Proof. unfold start_row. by destruct (no_dependencies (nd_DependsOn t)). Qed.

Lemma start_row_deps runID t :
  stored t -> run_deps (start_row runID t) = ApplyOps.decodeDependsOn (nd_DependsOn t) /\ decodes (start_row runID t).
Proof.
  intros Hst. destruct (stored_deps t _ Hst eq_refl) as (Hd & _ & _). destruct (start_row_facts runID t) as (_ & Hdep & _).
  unfold decodes, run_deps. by rewrite Hdep, Hd.
Qed.

Section start_inv.
Context (runID : Z) (ts : list Node) (Hwf : template_wf ts) (Hst : Forall stored ts).
Local Abbreviation rows := (start_row runID <$> ts).

Lemma start_depends k d :
  depends rows k d <-> exists t, t ∈ ts /\ nd_NodeKey t = k /\ d ∈ ApplyOps.decodeDependsOn (nd_DependsOn t).
Proof.
  rewrite Forall_forall in Hst. unfold depends. split.
  - intros (n & (t & -> & Ht)%list_elem_of_fmap & <- & Hd). exists t. destruct (start_row_facts runID t) as (-> & _ & _).
    by rewrite (proj1 (start_row_deps runID t (Hst t Ht))) in Hd.
  - intros (t & Ht & <- & Hd). exists (start_row runID t). split; [by apply list_elem_of_fmap_2|].
    destruct (start_row_facts runID t) as (-> & _ & _). by rewrite (proj1 (start_row_deps runID t (Hst t Ht))).
Qed.

Lemma start_keys : nd_NodeKey <$> rows = nd_NodeKey <$> ts.
Proof. rewrite <- list_fmap_compose. apply list_fmap_ext. intros i t _. apply (start_row_facts runID t). Qed.

Lemma start_edge k d : depends rows k d -> edge (adj_of ts) k d.
Proof.
  intros (t & Ht & Hk & Hd)%start_depends.
  assert (adj_of ts !! k = Some (ApplyOps.decodeDependsOn (nd_DependsOn t))) as Ha
    by (apply adj_of_lookup; [apply Hwf|eauto]).
  split; [by rewrite Ha|]. unfold deps_in, list_of. rewrite Ha. cbn. apply list_elem_of_filter. split; [|done].
  by eapply (tw_closed _ Hwf).
Qed.

Lemma start_run_wf : run_wf rows.
Proof.
  pose proof Hst as Hst'. rewrite Forall_forall in Hst'. split.
  - rewrite start_keys. apply Hwf.
  - apply Forall_fmap, Forall_forall. intros t Ht. by apply start_row_deps, Hst'.
  - intros k d (t & Ht & _ & Hd)%start_depends. destruct (stored_deps t _ (Hst' t Ht) eq_refl) as (_ & _ & Hc).
    rewrite Forall_forall in Hc. by apply Hc.
  - intros k d [_ Hd]%start_edge. rewrite start_keys, <- adj_of_dom.
    unfold deps_in in Hd. by apply list_elem_of_filter in Hd as [? _].
  - intros k Hk. apply (tw_acyclic _ Hwf k). eapply (tc_congruence id); [|exact Hk]. intros x y. apply start_edge.
Qed.

Lemma start_run_live : run_live rows.
Proof.
  pose proof Hst as Hst'. rewrite Forall_forall in Hst'.
  assert (forall n, n ∈ rows -> nd_Status n = "ready" \/ nd_Status n = "pending") as Hs.
  { intros n (t & -> & _)%list_elem_of_fmap. destruct (start_row_facts runID t) as (_ & _ & ->). case_match; auto. }
  split.
  - intros n Hn. unfold active_statuses. destruct (Hs n Hn) as [-> | ->]; set_solver.
  - intros n (t & -> & Ht)%list_elem_of_fmap Hp. destruct (start_row_facts runID t) as (Hk & _ & Hst0). rewrite Hst0 in Hp.
    destruct (stored_deps t _ (Hst' t Ht) eq_refl) as (_ & Hno & _). rewrite Hno in Hp.
    rewrite (proj1 (start_row_deps runID t (Hst' t Ht))).
    destruct (ApplyOps.decodeDependsOn (nd_DependsOn t)) as [|d ds] eqn:E; [done|].
    assert (depends rows (nd_NodeKey t) d) as Hdep by (apply start_depends; exists t; rewrite E; set_solver).
    apply (rw_closed _ start_run_wf) in Hdep. apply list_elem_of_fmap in Hdep as (m & -> & Hm).
    exists m. split_and!; [done|set_solver|]. destruct (Hs m Hm) as [-> | ->]; done.
  - intros n d _ Hd _ _. unfold dead_statuses. destruct (Hs d Hd) as [-> | ->]; set_solver.
Qed.

Lemma start_unfinished : ts <> [] -> unfinished rows.
Proof.
  destruct ts as [|t l] eqn:E; [done|]. intros _. left. destruct (start_row_facts runID t) as (_ & _ & ->).
  unfold terminal_statuses. case_match; set_solver.
Qed.
End start_inv.

(** C4: no run gets stuck.  A run started from a well-formed template that has a node,
    and moved by any sequence of completions, failures, terminations and status
    changes between active statuses, is either over or has a node that is ready,
    running or retrying: no node waits for ever, and no run stays running with only
    terminal nodes. *)
Theorem run_never_stuck byte_len now_text now_ms json_ok reencode input s0 resp s1 s2 :
  let dagKey := cu_DagKey input in
  template_wf (template dagKey s0) -> Forall stored (template dagKey s0) -> template dagKey s0 <> [] ->
  runs_known s0 -> NoDup (rn_ID <$> db_runs s0) ->
  startRunTx byte_len now_text now_ms dagKey input s0 = Ok (resp, s1) ->
  rtc (run_step byte_len now_text now_ms json_ok reencode dagKey (sr_RunID resp)) s1 s2 ->
  run_running dagKey (sr_RunID resp) s2 ->
  exists n, n ∈ run_nodes dagKey (sr_RunID resp) s2 /\ nd_Status n ∈ active_statuses.
Proof.
  intros dagKey Hwf Hst Hne Hknown Hids Hstart Hsteps Hrun.
  apply startRunTx_effect in Hstart as (Hrows & Hids' & _); [|apply Hwf|done|done].
  assert (run_inv dagKey (sr_RunID resp) s1) as Hinv.
  { split; [done|fold dagKey in Hrows; rewrite Hrows; by apply start_run_wf|]. intros _. fold dagKey in Hrows. rewrite Hrows.
    split; [by apply start_run_live|by apply start_unfinished]. }
  assert (run_inv dagKey (sr_RunID resp) s2) as [_ Hwf2 Hlive].
  { clear - Hsteps Hinv. induction Hsteps as [s|s s' s'' Hstep _ IH]; [done|]. apply IH. by eapply run_step_inv. }
  destruct (Hlive Hrun) as [Hl Hun]. apply Exists_exists. by apply live_progress.
Qed.

(** Terminating a run.  When TerminateRun answers, every node of the run is
    terminal, with the nodes that were terminal before unchanged; no wakeup of the
    run can be claimed, is being dispatched or waits for its turn; the run is not
    running any more; and rows of other runs and templates are unchanged. *)
Theorem TerminateRun_final input s r s' :
  NoDup (rn_ID <$> db_runs s) -> TerminateRun input s = Ok (r, s') ->
  let of_run := run_of (ti_DagKey input) (ti_RunID input) in
  ~ run_running (ti_DagKey input) (ti_RunID input) s'
  /\ Forall (fun n => nd_Status n ∈ terminal_statuses) (run_nodes (ti_DagKey input) (ti_RunID input) s')
  /\ Forall2 (fun n n' => of_run n = false \/ nd_Status n ∈ terminal_statuses -> n' = n) (db_nodes s) (db_nodes s')
  /\ Forall (fun w => wk_DagKey w = ti_DagKey input -> wk_RunID w = Some (ti_RunID input) ->
                      wk_Status w ∉ ["pending"; "dispatching"; "sent"]) (db_wakeups s').
Proof.
  intros Hids H of_run. apply TerminateRun_effect in H as ((reason & Hn & Hw) & _ & Hnr); [|done]. split_and!.
  - done.
  - apply Forall_forall. intros n' [Hn' Hr]%elem_of_run_nodes. rewrite Hn in Hn'. apply list_elem_of_fmap in Hn' as (n & -> & _).
    destruct (run_of (ti_DagKey input) (ti_RunID input) n) eqn:E; cbn [andb] in *; [|congruence].
    destruct (str_in (nd_Status n) terminal_statuses) eqn:T; cbn; [by apply str_in_elem|].
    unfold terminal_statuses. set_solver.
  - rewrite Hn. apply Forall2_fmap_r, Forall_Forall2_diag, Forall_forall. intros n _ [Ho|Ht]; cbn beta.
    + unfold of_run in Ho. by rewrite Ho.
    + apply str_in_elem in Ht. by rewrite Ht, andb_false_r.
  - rewrite Hw. apply Forall_fmap, Forall_forall. intros w _. unfold compose.
    destruct (_ && _ && _) eqn:E; [cbn; set_solver|]. intros Hd Hr Hin. apply str_in_elem in Hin.
    by rewrite Hd, String.eqb_refl, Hr, bool_decide_eq_true_2, Hin in E by done.
Qed.

(** C6: completing a node as done promotes exactly the nodes it unblocks.  When a ready or
    running node of a well-formed run is completed, its row gets the result and is
    done; the waiting nodes that depend on it and whose other dependencies are all
    done become ready; every other row of the table of nodes, in this run or not, keeps its
    contents, and so do the DAGs and the rows of other runs; the run ends exactly when all its nodes
    are terminal.  Wakeups are only added, each a new start of a promoted node that has an agent and a
    configuration that can be dispatched; and after it every such node has its wakeup. *)
Theorem complete_promotes_exactly byte_len now_text now_ms json_ok reencode input s r s' :
  let dagKey := ci_DagKey input in
  let rows := run_nodes dagKey (ci_RunID input) s in
  run_wf rows -> ci_Status input = "done" ->
  CompleteNodeAndScheduleDownstream byte_len now_text now_ms json_ok reencode input s = Ok (r, s') ->
  run_running dagKey (ci_RunID input) s
  /\ (exists n, n ∈ rows /\ nd_NodeKey n = ci_NodeKey input /\ nd_Status n ∈ ["ready"; "running"])
  /\ db_nodes s' = (fun n =>
       if run_of dagKey (ci_RunID input) n then
         if String.eqb (nd_NodeKey n) (ci_NodeKey input) then completed_row input n
         else if String.eqb (nd_Status n) "pending" && str_in (ci_NodeKey input) (run_deps n)
              && forallb (fun d => String.eqb d (ci_NodeKey input) || String.eqb (status_of rows d) "done") (run_deps n)
         then set_status "ready" n else n
       else n) <$> db_nodes s
  /\ db_dags s' = db_dags s
  /\ schedules now_ms dagKey (ci_RunID input) (fun n => n ∈ rows /\ unblocked rows (ci_NodeKey input) n = true) s s'
  /\ (forall n, n ∈ rows -> unblocked rows (ci_NodeKey input) n = true -> dispatchable n = true ->
        en_IdempotencyKey (start_input n) ∈ wk_IdempotencyKey <$> db_wakeups s')
  /\ (run_running dagKey (ci_RunID input) s' <-> Exists (fun n => nd_Status n ∉ terminal_statuses) (run_nodes dagKey (ci_RunID input) s')).
Proof.
  intros dagKey rows Hwf Hdone H. apply Complete_effect in H as (Hrun & (n & Hn & Hk & Hs) & Hnodes & Hdags & Hfin & Hsch & Hkeys); [|done|done].
  apply str_in_elem in Hs. split_and!; [done|eauto|exact Hnodes|exact Hdags|exact Hsch|exact Hkeys|]. split.
  - intros Hr. apply (finalized_running _ _ _ _ Hfin) in Hr as [_ Hun]. apply Hun.
    rewrite (run_nodes_on_run _ _ _ _ _ (after_complete_keeps _ _) Hnodes).
    intros Hnil%fmap_nil_inv. rewrite Hnil in Hn. by apply elem_of_nil in Hn.
  - intros Hun. unfold run_running. rewrite running_shape. rewrite Hfin.
    assert (finalizedRunStatus (nd_Status <$> run_nodes (ci_DagKey input) (ci_RunID input) s') = None) as ->.
    { destruct (finalizedRunStatus _) as [st|] eqn:E; [|done]. exfalso. unfold finalizedRunStatus in E.
      pose proof (finalized_from_spec "succeeded" (nd_Status <$> run_nodes (ci_DagKey input) (ci_RunID input) s') ltac:(auto)) as Hf.
      apply Exists_exists in Hun as (x & Hx & Hnt). apply (list_elem_of_fmap_2 nd_Status) in Hx.
      fold dagKey in Hx, Hf, E. revert E Hf Hx. generalize (nd_Status <$> run_nodes dagKey (ci_RunID input) s'). intros [|st0 l] E Hf Hx;
        [done|]. rewrite E in Hf. destruct Hf as [Hf _]. rewrite Forall_forall in Hf. by apply Hnt, Hf. }
    cbn [final_runs]. rewrite <- running_shape. exact Hrun.
Qed.

(** C7: a failure cascades to exactly the nodes that can no longer run.  On a run with
    unique keys and readable dependencies the queue of the cascade always ends, and
    it fails exactly the nodes that wait and depend on the failed node, directly or
    through any chain of nodes (also through nodes that are not waiting); it answers
    their keys, and changes nothing else. *)
Theorem cascade_exact dagKey failedKey runID reason s :
  let rows := run_nodes dagKey runID s in
  (0 < runID)%Z -> NoDup (nd_NodeKey <$> rows) -> Forall decodes rows ->
  exists canceled s' (hit : string -> bool),
    cancelDownstreamTx dagKey failedKey runID reason s = Ok (canceled, s')
    /\ (forall k, hit k = true <-> tc (depends rows) k failedKey)
    /\ db_nodes s' = (fun n =>
         if run_of dagKey runID n && String.eqb (nd_Status n) "pending" && hit (nd_NodeKey n)
         then failed_row (mkReason failNodeKindCascade reason failedKey) n else n) <$> db_nodes s
    /\ (db_dags s' = db_dags s /\ db_runs s' = db_runs s /\ db_wakeups s' = db_wakeups s)
    /\ (forall k, k ∈ (cx_NodeKey <$> canceled) <-> hit k = true /\ status_of rows k = "pending").
Proof. exact (cancelDownstreamTx_spec dagKey failedKey runID reason s). Qed.

(** ** A run of two nodes *)

Local Abbreviation zero_len := (fun _ : RawMessage => 0%Z).
Local Abbreviation any_json := (fun _ : RawMessage => true).

Definition sample_run_input : CreateRunInput := mkCreateRun "d#run-1" "d" 3 "manual" RawEmpty.

Definition started (s : db) : db :=
  match startRunTx zero_len "now" 0 "d" sample_run_input s with Ok (_, s') => s' | Err _ => s end.

Definition complete_node (key : string) : CompleteNodeInput := mkComplete "done" (RawJSON (JStr "ok")) "d" key 1 0 0.

Definition completed (key : string) (s : db) : db :=
  match CompleteNodeAndScheduleDownstream zero_len "now" 0 any_json id (complete_node key) s with Ok (_, s') => s' | Err _ => s end.

Definition row_statuses (s : db) : list (string * string) :=
  (fun n => (nd_NodeKey n, nd_Status n)) <$> run_nodes "d" 1 s.

Lemma sample_stored : Forall stored (template "d" sample_db).
Proof. repeat constructor; by vm_compute. Qed.

Lemma sample_rows_wf : run_wf (run_nodes "d" 1 (started sample_db)).
Proof.
  replace (run_nodes "d" 1 (started sample_db)) with (start_row 1 <$> template "d" sample_db) by (by vm_compute).
  apply start_run_wf; [apply sample_template_wf|apply sample_stored].
Qed.

Lemma run_never_stuck_witness :
  row_statuses (completed "a" (started sample_db)) = [("a", "done"); ("b", "ready")]
  /\ exists n, n ∈ run_nodes "d" 1 (completed "a" (started sample_db)) /\ nd_Status n ∈ active_statuses.
Proof.
  split; [vm_compute; reflexivity|].
  apply (run_never_stuck zero_len "now" 0 any_json id sample_run_input sample_db
    (NewStartDAGResponse 1 "d#run-1" 3 1 0) (started sample_db)).
  - apply sample_template_wf.
  - apply sample_stored.
  - vm_compute. discriminate.
  - intros n r Hn Hr. exfalso. assert (Forall (fun n => nd_RunID n = None) (db_nodes sample_db)) as Hall by (repeat constructor).
    rewrite Forall_forall in Hall. rewrite (Hall n Hn) in Hr. discriminate Hr.
  - constructor.
  - vm_compute. reflexivity.
  - eapply rtc_l; [|apply rtc_refl]. eapply (rs_complete _ _ _ _ _ _ _ (complete_node "a")); [reflexivity..|].
    vm_compute. reflexivity.
  - vm_compute. reflexivity.
Defined.

Lemma complete_promotes_exactly_witness :
  exists r s', CompleteNodeAndScheduleDownstream zero_len "now" 0 any_json id (complete_node "a") (started sample_db) = Ok (r, s')
    /\ (run_running "d" 1 s' <-> Exists (fun n => nd_Status n ∉ terminal_statuses) (run_nodes "d" 1 s')).
Proof.
  eexists _, _. split; [vm_compute; reflexivity|].
  eapply (complete_promotes_exactly zero_len "now" 0 any_json id (complete_node "a") (started sample_db)).
  - apply sample_rows_wf.
  - reflexivity.
  - vm_compute. reflexivity.
Defined.

Lemma cascade_exact_witness :
  exists canceled s', cancelDownstreamTx "d" "a" 1 "boom" (started sample_db) = Ok (canceled, s')
    /\ (fun c => cx_NodeKey c) <$> canceled = ["b"] /\ row_statuses s' = [("a", "ready"); ("b", "failed")].
Proof.
  destruct (cascade_exact "d" "a" 1 "boom" (started sample_db)) as (canceled & s' & hit & Hrun & _).
  - lia.
  - apply (rw_nodup _ sample_rows_wf).
  - apply (rw_decodes _ sample_rows_wf).
  - exists canceled, s'. split; [exact Hrun|]. vm_compute in Hrun. injection Hrun as <- <-.
    split; vm_compute; reflexivity.
Defined.

Lemma TerminateRun_final_witness :
  exists r s', TerminateRun (mkTerminate "d" "d#run-1" 1 EmptyString) (started sample_db) = Ok (r, s')
    /\ ~ run_running "d" 1 s' /\ row_statuses s' = [("a", "cancelled"); ("b", "cancelled")].
Proof.
  eexists _, _. split; [vm_compute; reflexivity|]. split; [|vm_compute; reflexivity].
  eapply (TerminateRun_final (mkTerminate "d" "d#run-1" 1 EmptyString) (started sample_db)).
  - apply NoDup_ListNoDup. vm_compute. repeat constructor. tauto.
  - vm_compute. reflexivity.
Defined.

(** ** What the invariant does not survive *)

(** The template with an executor for both nodes. *)
Definition assigned_db : db :=
  with_nodes sample_db ((fun n => set_config (RawJSON (JObj [("exec", JObj [("agent_key", JStr "k"); ("cwd", JStr "/w")])]))
                                    (set_assigned "w" n)) <$> db_nodes sample_db).

(** The recovery statement takes a node that waits for its dependencies for one whose
    dispatch was lost: one tick of the reclaimer after the start marks [b], and when
    [a] is done [b] is not promoted, so the run goes on with no active node. *)
Example reclaimer_strands_waiting_nodes :
  let s1 := started assigned_db in
  let s2 := match ReclaimOnce 0 s1 with Ok (_, s) => s | Err _ => s1 end in
  let s3 := completed "a" s2 in
  row_statuses s1 = [("a", "ready"); ("b", "pending")]
  /\ row_statuses s2 = [("a", "ready"); ("b", "dispatch_incomplete")]
  /\ row_statuses s3 = [("a", "done"); ("b", "dispatch_incomplete")]
  /\ existsb (running_row "d" 1) (db_runs s3) = true.
Proof. vm_compute. repeat split. Qed.

(** Cancelling a node through the status update neither fails its dependents nor
    finishes the run: [b] waits for ever. *)
Example cancel_strands_dependents :
  let s1 := started assigned_db in
  let '(r, _, s2) := UpdateNodeStatus zero_len "now" 0 any_json id (fun _ => EmptyString) 0 "agent"
        (mkStatusRequest "d" "a" 1 "cancelled" (RawJSON (JObj []))) [mkLease "w" "agent" 60000] s1 in
  is_ok r = true /\ row_statuses s2 = [("a", "cancelled"); ("b", "pending")] /\ existsb (running_row "d" 1) (db_runs s2) = true.
Proof. vm_compute. repeat split. Qed.

(** The run of a template without nodes is never finished. *)
Example empty_run_never_ends :
  let s1 := started (with_nodes sample_db []) in
  run_nodes "d" 1 s1 = [] /\ existsb (running_row "d" 1) (db_runs s1) = true
  /\ finalizedRunStatus (nd_Status <$> run_nodes "d" 1 s1) = None.
Proof. vm_compute. repeat split. Qed.
