(* ===== verification/RetryPolicy.v ===== *)
(** * Retry policies, failure strategies and the classification of launch errors

    Models [retrypolicy/policy.go], [nodeexec/on_failure.go],
    [launcherrors/errors.go] and the pure part of [retry_strategy.go]: how many
    attempts a node has, which strategy answers a failure, which failures are
    permanent, and the patches of a configuration that a strategy retries with. *)

From S2P Require Import Prelude GoStrings Json NodeConfig WakeupLease.

(** ** Retry policy of a node *)

Record RetryPolicy := mkRetryPolicy { MaxAttempts : Z; FailFast : bool }.

Definition dagMetadataPolicy_t : gty := TStruct [
  ("schedule", TStruct [("default_retry", TInt); ("fail_fast", TBool)])].

Definition nodeExecutionEnvelope_t : gty := TStruct [("execution", TStruct [("retry", TPtr TInt)])].

(** The default number of retries, and whether to fail fast. *)
Definition decodeDAGSchedulePolicy (raw : RawMessage) : result error (Z * bool) :=
  match raw with
  | RawEmpty => Ok (0%Z, false)
  | _ =>
      envelope ← map_err (fun _ : jerr error => plain_error "decode dag metadata schedule policy: %w")
                   (Unmarshal false no_custom dagMetadataPolicy_t raw);
      let schedule := field "schedule" envelope in
      Ok (int_val (field "default_retry" schedule), bool_val (field "fail_fast" schedule))
  end.

(** The retries a node asks for, if it does. *)
Definition decodeNodeExecutionPolicy (raw : RawMessage) : result error (option Z) :=
  match raw with
  | RawEmpty => Ok None
  | _ =>
      envelope ← map_err (fun _ : jerr error => plain_error "decode node execution policy: %w")
                   (Unmarshal false no_custom nodeExecutionEnvelope_t raw);
      Ok (int_val <$> ptr_val (field "retry" (field "execution" envelope)))
  end.

Definition ResolveRetryPolicy (dagMetadata nodeConfig : RawMessage) : result error RetryPolicy :=
  '(defaultRetry, failFast) ← decodeDAGSchedulePolicy dagMetadata;
  nodeRetry ← decodeNodeExecutionPolicy nodeConfig;
  let retryCount := default defaultRetry nodeRetry in
  if (retryCount <? 0)%Z
  then Err (Errorf [] (Sprintf "retry must be non-negative, got %d" [pretty retryCount]))
  else Ok (mkRetryPolicy (wrap64 (retryCount + 1)) failFast).

(** ** Strategies of a node *)

Definition FailureClassTransient : string := "transient".
Definition FailureClassQuota : string := "quota".
Definition FailureClassValidation : string := "validation".
Definition FailureClassCapability : string := "capability".
Definition FailureClassHard : string := "hard".
Definition FailureClassNeedsHuman : string := "needs_human".
Definition FailureClassInfrastructure : string := "infrastructure".

Definition OnFailureRetry : string := "retry".
Definition OnFailureEscalateModel : string := "escalate_model".
Definition OnFailureAppendError : string := "append_error".
Definition OnFailureReplan : string := "replan".
Definition OnFailureSkip : string := "skip".
Definition OnFailureFailFast : string := "fail_fast".
Definition OnFailureAskHuman : string := "ask_human".

Record OnFailureConfig := mkOnFailure {
  of_Default : string; of_ByClass : list (string * string); of_MaxAttempts : Z; of_EscalationChain : list string;
}.

(** The decoded struct. *)
Definition on_failure_of (v : gval) : OnFailureConfig :=
  mkOnFailure (str_val (field "default" v)) ((fun m => (m.1, str_val m.2)) <$> map_val (field "by_class" v))
    (int_val (field "max_attempts" v)) (strs_val (field "escalation_chain" v)).

(** The strategy [by_class] has for the class, unless it is empty. *)
Definition class_strategy (cfg : OnFailureConfig) (class : string) : option string :=
  if String.eqb class EmptyString then None
  else s ← get class (of_ByClass cfg); if String.eqb s EmptyString then None else Some s.

Definition ResolveOnFailureStrategy (cfg : option OnFailureConfig) (class : string) : string :=
  match cfg with
  | None => OnFailureRetry
  | Some cfg =>
      match class_strategy cfg class with
      | Some strategy => strategy
      | None => if String.eqb (of_Default cfg) EmptyString then OnFailureRetry else of_Default cfg
      end
  end.

Definition MaxAttemptsFor (cfg : option OnFailureConfig) : Z :=
  match cfg with
  | None => 1
  | Some cfg => if (of_MaxAttempts cfg <=? 0)%Z then 1 else of_MaxAttempts cfg
  end.

Definition inChain (chain : list string) (model : string) : bool := str_in model chain.

(** The loop over the chain: the model after the first occurrence that has one. *)
Fixpoint next_in_chain (chain : list string) (current : string) : option string :=
  match chain with
  | m :: ((n :: _) as rest) => if String.eqb m current then Some n else next_in_chain rest current
  | _ => None
  end.

Definition EscalationModelFor (cfg : option OnFailureConfig) (currentModel : string) : option string :=
  match cfg with
  | None => None
  | Some cfg =>
      match of_EscalationChain cfg with
      | [] => None
      | first :: _ as chain =>
          match next_in_chain chain currentModel with
          | Some next => Some next
          | None =>
              if String.eqb currentModel EmptyString || negb (inChain chain currentModel) then Some first else None
          end
      end
  end.

(** ** Which strategy answers a failure *)

Definition failureClassPermanent (class : string) : bool := str_in class [FailureClassHard; FailureClassNeedsHuman].

Record NodeOutcome := mkOutcome {
  no_Status : string; no_Result : RawMessage; no_FailureClass : string; no_ErrorSummary : string;
}.

Definition nonRetryableValidationFailure (outcome : NodeOutcome) : bool :=
  String.eqb (no_FailureClass outcome) FailureClassValidation && negb (HasPrefix (no_ErrorSummary outcome) "launch agent:").

Definition failureOutcomePermanent (outcome : NodeOutcome) : bool :=
  if failureClassPermanent (no_FailureClass outcome) then true
  else if String.eqb (no_FailureClass outcome) FailureClassValidation
  then negb (HasPrefix (no_ErrorSummary outcome) "launch agent:")
  else false.

Record smartRetryStrategyResolution := mkResolution { sr_strategy : string; sr_configured : bool; sr_byClass : bool }.

Definition configuredOnFailureStrategy (cfg : option OnFailureConfig) (class : string) : smartRetryStrategyResolution :=
  match cfg with
  | None => mkResolution EmptyString false false
  | Some cfg =>
      match class_strategy cfg class with
      | Some strategy => mkResolution strategy true true
      | None =>
          if String.eqb (of_Default cfg) EmptyString then mkResolution EmptyString false false
          else mkResolution (of_Default cfg) true false
      end
  end.

Definition smartRetryStrategyRerunsNode (strategy : string) : bool :=
  str_in strategy [OnFailureRetry; OnFailureEscalateModel; OnFailureAppendError].

Definition smartRetryStrategyImplemented (strategy : string) : bool :=
  str_in strategy [OnFailureRetry; OnFailureEscalateModel; OnFailureAppendError; OnFailureReplan; OnFailureFailFast].

Definition permanentClassStrategyAllowed (resolved : smartRetryStrategyResolution) : bool :=
  if negb (sr_configured resolved) then false
  else if sr_byClass resolved then negb (smartRetryStrategyRerunsNode (sr_strategy resolved))
  else String.eqb (sr_strategy resolved) OnFailureFailFast.

Definition smartRetryStrategyFor (cfg : option OnFailureConfig) (class : string) : option string :=
  let resolved := configuredOnFailureStrategy cfg class in
  if failureClassPermanent class && negb (permanentClassStrategyAllowed resolved) then None
  else Some (if sr_configured resolved then sr_strategy resolved else OnFailureRetry).

(** ** Texts *)

(** [s[:n]] of a longer string, with the mark of a cut. *)
Definition truncated (limit : nat) (s : string) : string :=
  if (String.length s <=? limit)%nat then s else str_take limit s +:+ "…(truncated)".

Definition truncateWakeupError (s : string) : string := truncated 640 s.
Definition truncateErrSummary (s : string) : string := truncated 1000 s.

Definition sanitizeReplanLaunchName (dagKey nodeKey : string) : string :=
  let name := TrimSpace ("Replan " +:+ TrimSpace dagKey +:+ "/" +:+ TrimSpace nodeKey) in
  if (80 <? String.length name)%nat then str_take 80 name else name.

(** ** Patches of an agent's configuration *)

(** [json.Marshal] of a map writes its members by increasing key. *)
Definition key_le (a b : string * json) : Prop := String.le a.1 b.1.
#[export] Instance key_le_dec a b : Decision (key_le a b) := String.le_dec a.1 b.1.
Definition marshal_map (members : list (string * json)) : json := JObj (merge_sort key_le members).

Definition json_object (err : string) (j : json) : result error (list (string * json)) :=
  match j with
  | JObj members => Ok (map_of members)
  | JNull => Ok []
  | _ => Err (plain_error err)
  end.

Definition rawJSONObject (raw : RawMessage) : result error (list (string * json)) :=
  match raw with
  | RawEmpty => Ok []
  | RawBad => Err (plain_error "parse node config object: %w")
  | RawJSON j => json_object "parse node config object: %w" j
  end.

Definition nestedJSONObject (root : list (string * json)) (key : string) : result error (list (string * json)) :=
  match get key root with
  | None => Ok []
  | Some j => json_object "parse node config %s object: %w" j
  end.

Definition patchAgentExecModel (raw : RawMessage) (model : string) : result error RawMessage :=
  root ← rawJSONObject raw;
  execObj ← nestedJSONObject root "exec";
  Ok (RawJSON (marshal_map (set "exec" (marshal_map (set "model" (JStr (TrimSpace model)) execObj)) root))).

Definition first_turn_of (root : list (string * json)) : result error string :=
  match get "first_turn" root with
  | None | Some JNull => Ok EmptyString
  | Some (JStr s) => Ok s
  | Some _ => Err (plain_error "parse first_turn: %w")
  end.

Definition nl : string := String (ascii_of_nat 10) EmptyString.

Definition appendAgentValidationDiagnostic (raw : RawMessage) (summary : string) : result error RawMessage :=
  root ← rawJSONObject raw;
  firstTurn ← first_turn_of root;
  let diagnostic := "Previous validation error:" +:+ nl +:+ TrimSpace summary in
  let firstTurn := if negb (String.eqb (TrimSpace firstTurn) EmptyString)
                   then TrimSpace firstTurn +:+ nl +:+ nl +:+ diagnostic else diagnostic in
  Ok (RawJSON (marshal_map (set "first_turn" (JStr firstTurn) root))).

Definition resolveNodeType : string -> string := NormalizeNodeType.

(** [TrimSpace] of the model an agent is configured with. *)
Definition currentAgentModel (config : RawMessage) : string :=
  match ParseAgentConfig config with
  | Ok cfg => TrimSpace (str_val (field "model" (field "exec" cfg)))
  | Err _ => EmptyString
  end.

(** The strategies of an agent or automation node. *)
Definition nodeOnFailureConfig (nodeType : string) (config : RawMessage) : option OnFailureConfig :=
  match ParseNodeConfig (resolveNodeType nodeType) config with
  | Err _ => None
  | Ok parsed =>
      match Agent parsed, Automation parsed with
      | Some cfg, _ | None, Some cfg => on_failure_of <$> ptr_val (field "on_failure" (field "exec" cfg))
      | None, None => None
      end
  end.

(** ** Launch errors *)

Section launch_errors.
(** The text of an error. *)
Context (Error : error -> string).

Definition DeadlineExceeded : string := "DeadlineExceeded".
Definition Canceled : string := "Canceled".

(** [strings.ToLower] as far as ASCII patterns see it. *)
Definition lower_text (e : error) : string := ToLower (Error e).

Definition contains_any (msg : string) (patterns : list string) : bool := existsb (Contains msg) patterns.

Definition permanentLaunchPatterns : list string := [
  "401"; "unauthoriz"; "authentication failed"; "authentication required"; "not authenticated"; "not logged in";
  "login required"; "login-required"; "login_required"; "please log in"; "please run /login"; "sign in"; "auth expired";
  "auth token expired"; "session expired"; "unable to connect to api (connectionrefused)"; "selected model";
  "may not exist or you may not have access"; "not have access to it"; "pick a different model"; "model unavailable";
  "model_not_found"; "model not found"; "invalid api key"; "invalid_api_key"; "403"; "forbidden"; "permission denied";
  "quota_exhausted"; "insufficient_quota"; "usage limit"; "out of credits"; "402"; "payment_required";
  "subscription expired"; "context_length_exceeded"; "context length exceeded"; "maximum context"; "prompt is too long";
  "launch cwd is required"; "launch cwd is invalid"].

Definition transientLaunchPatterns : list string := [
  "deadline exceeded"; "connection refused"; "transport unavailable"; "empty thread id"; "timed out"; "i/o timeout"].

Definition rateLimitPatterns : list string := [
  "rate limit"; "rate-limit"; "rate_limit"; "too many requests"; "http 429"; " 429 "; "status 429"; "status: 429"].

Inductive Class := ClassTransient | ClassPermanent | ClassUnknown.

Definition IsRateLimited (err : option error) : bool :=
  match err with None => false | Some e => contains_any (lower_text e) rateLimitPatterns end.

Definition Classify (err : option error) : Class :=
  match err with
  | None => ClassTransient
  | Some e =>
      if contains_any (lower_text e) permanentLaunchPatterns then ClassPermanent
      else if errors_Is e DeadlineExceeded || errors_Is e Canceled || IsRateLimited err then ClassTransient
      else if contains_any (lower_text e) transientLaunchPatterns then ClassTransient
      else ClassUnknown
  end.

Definition launchRetryBase : Z := 2 * Second.
Definition RateLimitBackoff : Z := 60 * Second.

Definition ComputeRetryBackoff (attempt : Z) (prevErr : option error) : Z :=
  if IsRateLimited prevErr then RateLimitBackoff else wrap64 (attempt * launchRetryBase).

Definition launchQuotaKeywords : list string := [
  "context_length_exceeded"; "context length exceeded"; "maximum context"; "prompt is too long"; "quota_exhausted";
  "insufficient_quota"; "usage limit"; "out of credits"].

Definition launchCapabilityKeywords : list string := [
  "capability"; "not capable"; "cannot solve"; "can't solve"; "model too weak"; "requires stronger model";
  "needs stronger model"].

(** The second and third end in a single and in a double quote. *)
Definition launchValidationKeywords : list string := [
  "failed to load configuration"; "model provider '"; "model provider " +:+ String (ascii_of_nat 34) EmptyString;
  "codexhome is required"; "codexinstancekey is required"; "codexmodelprovider is required";
  "codexhome directory does not exist"; "codex identity field has invalid type or value";
  "401"; "unauthoriz"; "invalid api key"; "invalid_api_key"; "403"; "forbidden"; "permission denied"; "402";
  "payment_required"; "subscription expired"; "selected model"; "may not exist or you may not have access";
  "not have access to it"; "pick a different model"; "model unavailable"; "model_not_found"; "model not found"].

Definition launchErrorIsTransient (err : error) (msg : string) : bool :=
  errors_Is err DeadlineExceeded || errors_Is err Canceled || contains_any msg (transientLaunchPatterns ++ rateLimitPatterns).

Definition classifyAgentLaunchError (err : option error) : string :=
  match err with
  | None => FailureClassTransient
  | Some err =>
      if errors_Is err ErrLaunchCWDRequired || errors_Is err ErrLaunchCWDInvalid then FailureClassValidation
      else
        let msg := lower_text err in
        if contains_any msg launchQuotaKeywords then FailureClassQuota
        else if contains_any msg launchCapabilityKeywords then FailureClassCapability
        else if contains_any msg launchValidationKeywords then FailureClassValidation
        else if launchErrorIsTransient err msg then FailureClassTransient
        else FailureClassTransient
  end.
End launch_errors.
