(* ===== verification/Effects.v ===== *)
(** * Programs that call the store many times

    The dispatcher, the router and the executors are not one transaction: they call
    the store, start and stop agents, and wait.  Such a program is a function on a
    [world]: the database, the number of calls made so far, the lease of the wakeup it
    works on (and whether the work is canceled), the thread it captured, and the log of
    what it did to the outside.

    The [Env] says what happens around it: what the clock shows at a call, which calls
    of the store fail, what other processes do to the database before a call, and
    which ticks of the heartbeat come before it.  A theorem for every [Env] holds for
    every interleaving with other processes. *)

From S2P Require Import Prelude GoStrings Json DagStore NodeConfig WakeupPayload RunStore WakeupLease RetryPolicy.

(** [contract.LaunchRequest]. *)
Record LaunchRequest := mkLaunchRequest {
  lr_AgentID : string; lr_Name : string; lr_Prompt : string; lr_Instructions : string;
  lr_ParentID : string; lr_ParentThreadID : string; lr_ContextMode : string; lr_AgentType : string;
  lr_AgentKey : string; lr_PromptKey : string; lr_MemoryScope : string; lr_Cwd : string;
  lr_Language : string; lr_Command : list string; lr_Env : list string;
}.

(** How a claim ends. *)
Inductive settlement := Sent | Retried | Failed | FailedWithNode.

(** Why a launcher stops what it has just started: the place of the agent was given to
    another launch (or its process is gone), or the launch cannot be finished. *)
Inductive discard := StaleLaunch | FailedLaunch.

(** What a program does to the outside: it asks a launcher for an agent, an agent
    runs on a thread, is recorded on its node, and is stopped (or not, when stopping
    fails), by its own launch or later; the process of a command card is started; a wakeup is settled, with the rows affected; a shared
    file is written or imported; the change of a node's status is published. *)
Inductive event :=
| LaunchAsked (req : LaunchRequest)
| AgentStarted (thread : string)
| SpawnRecorded (thread : string)
| RuntimeStopped (why : discard) (thread : string) (stopped : bool)
| StopAsked (thread : string) (stopped : bool)
| CommandRun (dir path : string) (argv env : list string)
| Settled (how : settlement) (wakeup : Z) (rows : nat)
| FileWritten (path content : string)
| FileImported (target : string)
| StatusChanged (dagKey nodeKey : string) (runID : Z) (oldStatus newStatus : string).

(** A tick of the heartbeat of a lease, or the cancellation of the whole process. *)
Inductive tick := HeartbeatDue | Shutdown.

(** The last fields are functions of libraries: the text of an error, the byte length
    of a message, whether a JSON column takes it, its re-encoding, whether two stored
    messages are the same bytes, the text of a time and of a message, [strconv.Quote],
    and whether a number literal is in the range of float64. *)
Class Env := {
  clock : nat -> Z;
  fault : nat -> option error;
  other : nat -> db -> db;
  ticks : nat -> list tick;
  new_agent_id : nat -> string;
  Error : error -> string;
  byte_len : RawMessage -> Z;
  json_ok : RawMessage -> bool;
  reencode : json -> json;
  same_config : RawMessage -> RawMessage -> bool;
  time_text : Z -> string;
  raw_text : RawMessage -> string;
  Quote : string -> string;
  float_fits : string -> bool;
}.

(** The lease comes with the interval it is renewed by. *)
Record world := mkWorld {
  w_db : db; w_step : nat; w_lease : option (Wakeup * string); w_canceled : option error; w_captured : string; w_log : list event;
}.

Definition IO (A : Type) : Type := world -> A * world.

#[export] Instance IO_ret : MRet IO := fun A a w => (a, w).
#[export] Instance IO_bind : MBind IO := fun A B f m w => let '(a, w') := m w in f a w'.

Definition get_world : IO world := fun w => (w, w).
Definition emit (e : event) : IO unit := fun w =>
  (tt, mkWorld (w_db w) (w_step w) (w_lease w) (w_canceled w) (w_captured w) (w_log w ++ [e])).
Definition set_lease (l : option (Wakeup * string)) : IO unit := fun w =>
  (tt, mkWorld (w_db w) (w_step w) l (w_canceled w) (w_captured w) (w_log w)).
Definition set_canceled (e : option error) : IO unit := fun w =>
  (tt, mkWorld (w_db w) (w_step w) (w_lease w) e (w_captured w) (w_log w)).
(** The variable that [WithLaunchedThreadCapture] puts in the context. *)
Definition set_captured (thread : string) : IO unit := fun w =>
  (tt, mkWorld (w_db w) (w_step w) (w_lease w) (w_canceled w) thread (w_log w)).

(** A step of the outside: the result may depend on when it is asked. *)
Definition ask {A} (answer : nat -> A) : IO A := fun w =>
  (answer (w_step w), mkWorld (w_db w) (S (w_step w)) (w_lease w) (w_canceled w) (w_captured w) (w_log w)).

Section effects.
Context `{EN : Env}.

(** One call of the store, one transaction: other processes act, then it commits, or
    fails and changes nothing. *)
Definition call {A} (m : Z -> M A) : IO (result error A) := fun w =>
  let i := w_step w in
  let s := other i (w_db w) in
  let after s' := mkWorld s' (S i) (w_lease w) (w_canceled w) (w_captured w) (w_log w) in
  match fault i with
  | Some e => (Err e, after s)
  | None => match m (clock i) s with
            | Ok (a, s') => (Ok a, after s')
            | Err e => (Err e, after s)
            end
  end.

(** ** The lease of a routed wakeup *)

Definition context_canceled : error := Errorf [Canceled] (Sprintf "context canceled" []).

(** The fence that [WakeupFenceFromContext] finds. *)
Definition context_fence (w : world) : option WakeupFence := (fun l => wakeupFenceFromWakeup l.1) <$> w_lease w.

(** [renewClaimedWakeup]. *)
Definition renewClaimedWakeup (leaseInterval : string) (current : Wakeup) : IO (option error) :=
  renewed ← call (fun now => RenewClaimedWakeupLease now current leaseInterval);
  match renewed with
  | Err e => mret (Some (Errorf (err_is e) (Sprintf "renew wakeup lease heartbeat: %w" [])))
  | Ok renewed =>
      match ClaimedWakeupLease_Update current renewed with
      | Err e => mret (Some (Errorf (err_is e) (Sprintf "update wakeup lease heartbeat: %w" [])))
      | Ok updated => _ ← set_lease (Some (updated, leaseInterval)); mret None
      end
  end.

(** The turns of the waiting loop before the next step of the route.  A renewal that
    fails, and a shutdown, cancel the route and end the loop. *)
Fixpoint waiting_loop (l : list tick) : IO unit :=
  match l with
  | [] => mret tt
  | t :: l =>
      w ← get_world;
      match w_canceled w, w_lease w with
      | None, Some (current, leaseInterval) =>
          match t with
          | HeartbeatDue =>
              failed ← renewClaimedWakeup leaseInterval current;
              match failed with
              | Some e => set_canceled (Some e)
              | None => waiting_loop l
              end
          | Shutdown => set_canceled (Some context_canceled)
          end
      | _, _ => mret tt
      end
  end.

Definition heartbeats : IO unit := w ← get_world; waiting_loop (ticks (w_step w)).

(** A call of the store from a route: it has the fence of the context, and fails once
    the route is canceled. *)
Definition route_call {A} (m : option WakeupFence -> Z -> M A) : IO (result error A) :=
  _ ← heartbeats;
  w ← get_world;
  match w_canceled w with
  | Some _ => mret (Err context_canceled)
  | None => call (m (context_fence w))
  end.
End effects.

(** ** Reasoning on the log

    [emits m Φ]: whatever the world, the program appends events that satisfy [Φ] with
    the value it returns. *)
Definition emits {A} (m : IO A) (Φ : A -> list event -> Prop) : Prop :=
  forall w, exists evs, w_log (m w).2 = w_log w ++ evs /\ Φ (m w).1 evs.

Lemma emits_mono {A} (m : IO A) (Φ Ψ : A -> list event -> Prop) :
  emits m Φ -> (forall a evs, Φ a evs -> Ψ a evs) -> emits m Ψ.
Proof. intros H HΦ w. destruct (H w) as (evs & ? & ?). eauto. Qed.

Lemma emits_ret {A} (a : A) (Φ : A -> list event -> Prop) : Φ a [] -> emits (mret a) Φ.
Proof. intros H w. exists []. cbn. by rewrite app_nil_r. Qed.

Lemma emits_bind {A B} (m : IO A) (f : A -> IO B) (Φ : A -> list event -> Prop) (Ψ : B -> list event -> Prop) :
  emits m Φ -> (forall a e1, Φ a e1 -> emits (f a) (fun b e2 => Ψ b (e1 ++ e2))) -> emits (m ≫= f) Ψ.
Proof.
  intros Hm Hf w. unfold mbind, IO_bind. destruct (Hm w) as (e1 & H1 & HΦ). destruct (m w) as [a w1]. cbn in *.
  destruct (Hf a e1 HΦ w1) as (e2 & H2 & HΨ). exists (e1 ++ e2). by rewrite H2, H1, app_assoc.
Qed.

(** A program that says nothing to the outside. *)
Definition silent {A} (m : IO A) : Prop := emits m (fun _ evs => evs = []).

Lemma emits_silent_bind {A B} (m : IO A) (f : A -> IO B) (Ψ : B -> list event -> Prop) :
  silent m -> (forall a, emits (f a) Ψ) -> emits (m ≫= f) Ψ.
Proof. intros Hm Hf. eapply emits_bind; [exact Hm|]. intros a e1 ->. apply Hf. Qed.

Lemma emits_emit e : emits (emit e) (fun _ evs => evs = [e]).
Proof. intros w. exists [e]. done. Qed.

Lemma silent_get_world : silent get_world.
Proof. intros w. exists []. cbn. by rewrite app_nil_r. Qed.
Lemma silent_set_lease l : silent (set_lease l).
Proof. intros w. exists []. cbn. by rewrite app_nil_r. Qed.
Lemma silent_set_canceled e : silent (set_canceled e).
Proof. intros w. exists []. cbn. by rewrite app_nil_r. Qed.
Lemma silent_set_captured t : silent (set_captured t).
Proof. intros w. exists []. cbn. by rewrite app_nil_r. Qed.
Lemma silent_ask {A} (f : nat -> A) : silent (ask f).
Proof. intros w. exists []. cbn. by rewrite app_nil_r. Qed.
Lemma silent_ret {A} (a : A) : silent (mret a).
Proof. by apply emits_ret. Qed.

Create HintDb io discriminated.
#[export] Hint Resolve silent_get_world silent_set_lease silent_set_canceled silent_set_captured silent_ask silent_ret : io.

Section silent.
Context `{EN : Env}.

Lemma silent_call {A} (m : Z -> M A) : silent (call m).
Proof. intros w. exists []. unfold call. repeat case_match; cbn; by rewrite app_nil_r. Qed.

Lemma silent_renew interval current : silent (renewClaimedWakeup interval current).
Proof.
  apply emits_silent_bind; [apply silent_call|]. intros [renewed|e]; [|apply silent_ret].
  case_match; [|apply silent_ret]. apply emits_silent_bind; [apply silent_set_lease|]. intros. apply silent_ret.
Qed.

Lemma silent_waiting l : silent (waiting_loop l).
Proof.
  induction l as [|t l IH]; [apply silent_ret|]. apply emits_silent_bind; [apply silent_get_world|]. intros w.
  destruct (w_canceled w); [apply silent_ret|]. destruct (w_lease w) as [[current interval]|]; [|apply silent_ret].
  destruct t; [|apply silent_set_canceled].
  apply emits_silent_bind; [apply silent_renew|]. intros [e|]; [apply silent_set_canceled|exact IH].
Qed.

Lemma silent_heartbeats : silent heartbeats.
Proof. apply emits_silent_bind; [apply silent_get_world|]. intros. apply silent_waiting. Qed.

Lemma silent_route_call {A} (m : option WakeupFence -> Z -> M A) : silent (route_call m).
Proof.
  apply emits_silent_bind; [apply silent_heartbeats|]. intros _. apply emits_silent_bind; [apply silent_get_world|].
  intros w. case_match; [apply silent_ret|apply silent_call].
Qed.
End silent.
#[export] Hint Resolve silent_call silent_renew silent_waiting silent_heartbeats silent_route_call : io.

(** Every event of the program satisfies [P]. *)
Definition only {A} (P : event -> Prop) (m : IO A) : Prop := emits m (fun _ evs => Forall P evs).

Lemma only_mono {A} (P Q : event -> Prop) (m : IO A) : (forall e, P e -> Q e) -> only P m -> only Q m.
Proof. intros HPQ H. eapply emits_mono; [exact H|]. cbn. intros _ evs Hevs. by eapply Forall_impl. Qed.

Lemma only_silent {A} P (m : IO A) : silent m -> only P m.
Proof. intros H. eapply emits_mono; [exact H|]. by intros _ evs ->. Qed.

Lemma only_ret {A} P (a : A) : only P (mret a).
Proof. by apply emits_ret. Qed.

Lemma only_bind {A B} P (m : IO A) (f : A -> IO B) : only P m -> (forall a, only P (f a)) -> only P (m ≫= f).
Proof.
  intros Hm Hf. eapply emits_bind; [exact Hm|]. intros a e1 H1. eapply emits_mono; [apply Hf|]. cbn. intros b e2 H2.
  by apply Forall_app.
Qed.

Lemma only_emit (P : event -> Prop) e : P e -> only P (emit e).
Proof. intros H. eapply emits_mono; [apply emits_emit|]. cbn. intros _ evs ->. by repeat constructor. Qed.

(** Walks through a program: binds, branches, and steps the hints know. *)
Ltac io_only :=
  repeat first
    [ apply only_ret
    | solve [apply only_silent; auto with io]
    | solve [auto with io]
    | match goal with |- only _ (mbind _ _) => apply only_bind; [|intros] end
    | case_match ].

Ltac io_silent :=
  repeat first
    [ apply silent_ret
    | solve [auto with io]
    | match goal with |- silent (mbind _ _) => apply emits_silent_bind; [|intros] end
    | match goal with |- emits (mbind _ _) _ => apply emits_silent_bind; [|intros] end
    | case_match ].
