(* ===== verification/AgentExecutor.v ===== *)
(** * Running an agent node

    Models [nodeexec/executor_agent.go] and [nodeexec/inputs.go]: the checks of the
    configuration, the inputs of the prompt, the launch of the child agent, the
    recording of its thread on the node and the compensation when that fails; the
    launcher of the service ([service_launcher_bridge.go], and the part of
    [node_router.go] that adapts it), which retries a launch and stops an agent it
    cannot finish starting.

    The machine behind the launcher (processes, remote calls, the rows of the registry of
    agents and their state machine) is the record [Lifecycle]. *)

From S2P Require Import Prelude GoStrings Json DagStore NodeConfig WakeupPayload RunStore WakeupLease RetryPolicy Effects.

(** ** The view of a node that an executor has *)

Record ExecNode := mkExecNode {
  xn_DagKey : string; xn_NodeKey : string; xn_NodeType : string; xn_Title : string;
  xn_Config : RawMessage; xn_SpawningThreadID : string;
}.

(** A reader answers with the content of a file, or with no file. *)
Definition SharedFileReader : Type := nat -> string -> result error (option string).

Record RunContext := mkRunContext {
  rc_DagKey : string; rc_NodeKey : string; rc_RunID : Z;
  rc_PrevResults : option (list (string * RawMessage)); rc_SharedFileReader : option SharedFileReader;
}.

Definition failed_outcome (class summary : string) : NodeOutcome := mkOutcome "failed" RawEmpty class summary.
Definition validationOutcome (summary : string) : NodeOutcome := failed_outcome FailureClassValidation summary.
Definition done_outcome : NodeOutcome := mkOutcome "done" RawEmpty EmptyString EmptyString.

(** ** Checks of the configuration *)

Definition agentOutputsForbiddenKeys : list string := ["webhook_url"; "command_ref"].

(** The first forbidden key among the members of the outputs. *)
Definition forbidden_output (raw : RawMessage) (forbiddenKeys : list string) : option string :=
  match Unmarshal (C := error) false no_custom (TStruct [("outputs", TRaw)]) raw with
  | Ok envelope =>
      match raw_val (field "outputs" envelope) with
      | RawJSON (JObj members) => List.find (fun key => str_in key members.*1) forbiddenKeys
      | _ => None
      end
  | Err _ => None
  end.

Definition validateOutputsForbiddenKeys (raw : RawMessage) (forbiddenKeys : list string) (buildOutcome : string -> NodeOutcome)
  : option NodeOutcome := buildOutcome <$> forbidden_output raw forbiddenKeys.

Section executor.
Context `{EN : Env}.

Definition validateAgentOutputs (raw : RawMessage) : option NodeOutcome :=
  validateOutputsForbiddenKeys raw agentOutputsForbiddenKeys
    (fun key => validationOutcome (truncateErrSummary ("agent outputs cannot include external capability field " +:+ Quote key))).

Definition validateAgentLaunchIdentity (exec : gval) : option NodeOutcome :=
  if negb (String.eqb (TrimSpace (str_val (field "agent_key" exec))) EmptyString)
     || negb (String.eqb (TrimSpace (str_val (field "prompt_key" exec))) EmptyString)
  then None
  else Some (validationOutcome "agent_key or prompt_key required in node.config.exec").

Definition validateAgentLaunchProvider (raw : string) : result error string :=
  let provider := ToLower (TrimSpace raw) in
  if String.eqb provider "codex" then Ok provider
  else if String.eqb provider EmptyString
  then Err (plain_error "provider required in node.config.exec: set provider to codex")
  else Err (Errorf [] (Sprintf "invalid provider %q: must be codex" [TrimSpace raw])).

Definition join_with (sep : string) (l : list string) : string :=
  match l with
  | [] => EmptyString
  | x :: l => foldl (fun acc y => acc +:+ sep +:+ y) x l
  end.

Definition validateCodexIdentityOverride (exec : gval) : option NodeOutcome :=
  let missing (key : string) := String.eqb (TrimSpace (str_val (field key exec))) EmptyString in
  let names := ["codex_home"; "codex_instance_key"; "codex_model_provider"] in
  if forallb missing names then None
  else match List.filter missing names with
       | [] => None
       | l => Some (validationOutcome ("codex identity requires " +:+ join_with ", " l))
       end.

Definition agentLaunchCWDValidationFailure (err : option error) : option NodeOutcome :=
  match err with
  | None => None
  | Some err =>
      if errors_Is err ErrLaunchCWDRequired || errors_Is err ErrLaunchCWDInvalid
      then Some (validationOutcome (truncateErrSummary (Error err))) else None
  end.

Definition err_of {A} (r : result error A) : option error := match r with Ok _ => None | Err e => Some e end.

(** The failure, or the configuration with the provider normalised. *)
Definition normalizeAgentLaunchConfig (cfg : gval) : result NodeOutcome gval :=
  let exec := field "exec" cfg in
  match validateAgentLaunchIdentity exec with
  | Some failure => Err failure
  | None =>
      match validateAgentLaunchProvider (str_val (field "provider" exec)) with
      | Err e => Err (validationOutcome (truncateErrSummary (Error e)))
      | Ok provider =>
          match (if String.eqb provider "codex" then validateCodexIdentityOverride exec else None) with
          | Some failure => Err failure
          | None =>
              match agentLaunchCWDValidationFailure (err_of (ValidateLaunchCWD (str_val (field "cwd" exec)) EmptyString)) with
              | Some failure => Err failure
              | None => Ok (set_field "exec" (set_field "provider" (VStr provider) exec) cfg)
              end
          end
      end
  end.

(** ** Inputs of the prompt *)

Definition ErrInputsValidation : string := "ErrInputsValidation".

Record InputsError := mkInputsError { ie_Class : string; ie_Err : error }.

Definition newInputsValidationError (format : string) (args : list string) : InputsError :=
  mkInputsError FailureClassValidation (Errorf [ErrInputsValidation] (Sprintf format args)).

Definition newInputsInfraError (format : string) (args : list string) (underlying : error) : InputsError :=
  mkInputsError (classifyAgentLaunchError Error (Some underlying)) (Errorf (err_is underlying) (Sprintf format args)).

Definition inputsConfigured (inputs : gval) : bool :=
  negb (length (strs_val (field "from_nodes" inputs)) =? 0)%nat || negb (length (strs_val (field "from_sharedfiles" inputs)) =? 0)%nat.

Definition resolveDagKey (runCtx : RunContext) (node : ExecNode) : string :=
  let k := TrimSpace (rc_DagKey runCtx) in if negb (String.eqb k EmptyString) then k else TrimSpace (xn_DagKey node).

Definition with_newline (s : string) : string := if HasSuffix s nl then s else s +:+ nl.

Fixpoint from_nodes_text (nodeKeys : list string) (prev : list (string * RawMessage)) : result InputsError string :=
  match nodeKeys with
  | [] => Ok EmptyString
  | raw :: nodeKeys =>
      let key := TrimSpace raw in
      if String.eqb key EmptyString then from_nodes_text nodeKeys prev
      else match get key prev with
           | None => Err (newInputsValidationError "from_nodes references unknown node_key %q" [key])
           | Some result =>
               let body := match result with RawEmpty => "(empty)" +:+ nl | _ => with_newline (raw_text result) end in
               rest ← from_nodes_text nodeKeys prev;
               Ok ("## node:" +:+ key +:+ nl +:+ body +:+ rest)
           end
  end.

Definition loadFromNodes (dagKey : string) (nodeKeys : list string) (prev : option (list (string * RawMessage)))
  : result InputsError string :=
  match prev with
  | None => Err (newInputsValidationError "inputs.from_nodes set but RunContext.PrevResults not wired" [])
  | Some prev =>
      if String.eqb dagKey EmptyString
      then Err (newInputsValidationError "cannot resolve from_nodes without dag_key (runCtx + node both empty)" [])
      else text ← from_nodes_text nodeKeys prev; Ok ("[inputs.from_nodes]" +:+ nl +:+ text)
  end.

Fixpoint from_files_text (reader : SharedFileReader) (paths : list string) : IO (result InputsError string) :=
  match paths with
  | [] => mret (Ok EmptyString)
  | raw :: paths =>
      let path := TrimSpace raw in
      if String.eqb path EmptyString then from_files_text reader paths
      else
        answer ← ask (fun i => reader i path);
        match answer with
        | Err e => mret (Err (newInputsInfraError "read sharedfile %q: %w" [path] e))
        | Ok None => mret (Err (newInputsValidationError "from_sharedfiles references unknown path %q" [path]))
        | Ok (Some content) =>
            rest ← from_files_text reader paths;
            mret (text ← rest; Ok ("## sharedfile:" +:+ path +:+ nl +:+ with_newline content +:+ text))
        end
  end.

Definition loadFromSharedfiles (paths : list string) (reader : option SharedFileReader) : IO (result InputsError string) :=
  match reader with
  | None => mret (Err (newInputsValidationError "inputs.from_sharedfiles set but RunContext.SharedFileReader not wired" []))
  | Some reader => text ← from_files_text reader paths; mret (text ← text; Ok ("[inputs.from_sharedfiles]" +:+ nl +:+ text))
  end.

Definition nonempty (s : string) : list string := if String.eqb s EmptyString then [] else [s].

Definition collectInputSections (inputs : gval) (dagKey : string) (runCtx : RunContext) : IO (result InputsError (list string)) :=
  let nodes := strs_val (field "from_nodes" inputs) in
  let files := strs_val (field "from_sharedfiles" inputs) in
  match (if (length nodes =? 0)%nat then Ok EmptyString else loadFromNodes dagKey nodes (rc_PrevResults runCtx)) with
  | Err e => mret (Err e)
  | Ok first =>
      if (length files =? 0)%nat then mret (Ok (nonempty first))
      else
        second ← loadFromSharedfiles files (rc_SharedFileReader runCtx);
        mret (second ← second; Ok (nonempty first ++ nonempty second))
  end.

Definition assembleInputs (cfg : gval) (runCtx : RunContext) (node : ExecNode) : IO (result InputsError string) :=
  let inputs := field "inputs" cfg in
  if negb (inputsConfigured inputs) then mret (Ok EmptyString)
  else
    sections ← collectInputSections inputs (resolveDagKey runCtx node) runCtx;
    mret (sections ← sections; Ok (join_with (nl +:+ nl) sections)).

(** The braces and quotes of the sample answer. *)
Definition dq : string := String (ascii_of_nat 34) EmptyString.

Definition artifactOutputContract (target : option gval) : string :=
  match target with
  | None => EmptyString
  | Some target =>
      let sourceTool := TrimSpace (str_val (field "source_tool" target)) in
      let pathField := TrimSpace (str_val (field "source_path_field" target)) in
      if String.eqb sourceTool EmptyString || String.eqb pathField EmptyString then EmptyString
      else
        "[outputs.to_artifact]" +:+ nl
        +:+ "This DAG node imports a local artifact from tool " +:+ Quote sourceTool +:+ " using result field " +:+ Quote pathField +:+ "." +:+ nl
        +:+ "After a successful tool call, the final response must be exactly one JSON object like {" +:+ dq +:+ "success" +:+ dq
        +:+ ":true," +:+ dq +:+ "source_tool" +:+ dq +:+ ":" +:+ Quote sourceTool +:+ "," +:+ dq +:+ pathField +:+ dq +:+ ":" +:+ dq +:+ "<path>" +:+ dq +:+ "}." +:+ nl
        +:+ "Do not return only natural language and do not invent a path. If the tool cannot run or required inputs are missing, return {"
        +:+ dq +:+ "success" +:+ dq +:+ ":false," +:+ dq +:+ "source_tool" +:+ dq +:+ ":" +:+ Quote sourceTool +:+ "," +:+ dq +:+ "error" +:+ dq +:+ ":" +:+ dq
        +:+ "<reason>" +:+ dq +:+ "} without " +:+ Quote pathField +:+ "."
  end.

(** [strings.TrimRight(s, "\n")]. *)
Fixpoint trim_right_nl (s : string) : string :=
  match s with
  | EmptyString => EmptyString
  | String a s =>
      match trim_right_nl s with
      | EmptyString => if Ascii.eqb a (ascii_of_nat 10) then EmptyString else String a EmptyString
      | t => String a t
      end
  end.

Definition composePrompt (prefix artifactContract firstTurn : string) : string :=
  let sections := nonempty (trim_right_nl prefix) ++ nonempty (trim_right_nl artifactContract) in
  let last := if String.eqb firstTurn EmptyString then []
              else match sections with [] => [firstTurn] | _ => ["[first_turn]" +:+ nl +:+ firstTurn] end in
  join_with (nl +:+ nl) (sections ++ last).

(** ** The launch request *)

Definition joinTrimmed (values : list string) : string :=
  join_with "," (List.filter (fun v => negb (String.eqb v EmptyString)) (TrimSpace <$> values)).

(** The variable is set when the value is not empty. *)
Definition env_var (name value : string) : list string :=
  if String.eqb value EmptyString then [] else [name +:+ "=" +:+ value].

Definition agentLaunchEnv (exec : gval) : list string :=
  let s key := TrimSpace (str_val (field key exec)) in
  env_var "AGENT_PROVIDER" (ToLower (s "provider")) ++ env_var "AGENT_MODEL" (s "model") ++ env_var "AGENT_EFFORT" (s "effort")
  ++ env_var "AGENT_CODEX_HOME" (s "codex_home") ++ env_var "AGENT_CODEX_INSTANCE_KEY" (s "codex_instance_key")
  ++ env_var "AGENT_CODEX_MODEL_PROVIDER" (s "codex_model_provider")
  ++ env_var "AGENT_DISABLED_TOOLS" (joinTrimmed (strs_val (field "disabled_tools" exec))).

(** [unicode.IsControl]. *)
Definition is_control (r : rune) : bool := in_range 0 0x1F r || in_range 0x7F 0x9F r.

Definition sanitizeLaunchName (value : string) : string :=
  let value := TrimSpace value in
  if String.eqb value EmptyString then EmptyString
  else TrimSpace (encode_runes (take 80 (List.filter (fun r => negb (is_control r)) (runes value)))).

Definition buildLaunchRequestFromAgentConfig (agentID : string) (cfg : gval) (node : ExecNode) (prompt : string) : LaunchRequest :=
  let exec := field "exec" cfg in
  mkLaunchRequest agentID (sanitizeLaunchName (xn_Title node)) prompt EmptyString EmptyString EmptyString EmptyString
    (xn_NodeType node) (TrimSpace (str_val (field "agent_key" exec))) (TrimSpace (str_val (field "prompt_key" exec))) EmptyString
    (str_val (field "cwd" exec)) (TrimSpace (str_val (field "language" exec))) [] (agentLaunchEnv exec).

(** ** Launchers *)

(** The ports of a launcher; the last three are optional interfaces. *)
Record AgentLauncher := mkAgentLauncher {
  LaunchAgent : LaunchRequest -> IO (string * option error);
  ValidateDAGAgentLaunch : option (LaunchRequest -> string -> string -> IO (option error));
  LaunchAgentWithSpawnRecord : option (LaunchRequest -> (string -> IO (option error)) -> IO (string * option error));
  StopLaunchedThread : option (string -> IO (option error));
}.

Definition ErrDAGAgentRequiresRemoteLauncher : string := "ErrDAGAgentRequiresRemoteLauncher".
Definition ErrSpawnWritebackFailed : string := "ErrSpawnWritebackFailed".

(** The recorder writes through the store, under the fence of the context; without one
    ([ae_recorder] is false) an executor only launches. *)
Record AgentExecutor := mkAgentExecutor { ae_launcher : option AgentLauncher; ae_recorder : bool }.

Definition no_fence : WakeupFence := mkNodeFence 0 0 EmptyString None None.

Definition recorder_RecordNodeSpawn (dagKey nodeKey : string) (runID : Z) (threadID : string) : IO (result error unit) :=
  r ← route_call (fun fence now => RecordNodeSpawn now fence (mkSpawn dagKey nodeKey runID threadID 0 no_fence));
  mret (_ ← r; Ok tt).

Definition resolveSpawnKeys (node : ExecNode) (runCtx : RunContext) : string * string :=
  let pick (a b : string) := if String.eqb (TrimSpace a) EmptyString then TrimSpace b else TrimSpace a in
  (pick (rc_DagKey runCtx) (xn_DagKey node), pick (rc_NodeKey runCtx) (xn_NodeKey node)).

(** A summary that is empty on success, and the error behind it. *)
Definition recordSpawn (e : AgentExecutor) (node : ExecNode) (runCtx : RunContext) (threadID : string) : IO (string * option error) :=
  if negb (ae_recorder e) then mret (EmptyString, None)
  else
    let threadID := TrimSpace threadID in
    if String.eqb threadID EmptyString
    then mret ("spawning_thread_id write-back skipped: launcher returned empty thread_id", None)
    else
      let '(dagKey, nodeKey) := resolveSpawnKeys node runCtx in
      if String.eqb dagKey EmptyString || String.eqb nodeKey EmptyString
      then mret ("spawning_thread_id write-back skipped: missing dag_key or node_key", None)
      else
        r ← recorder_RecordNodeSpawn dagKey nodeKey (rc_RunID runCtx) threadID;
        match r with
        | Err err => mret ("spawning_thread_id write-back failed: " +:+ Error err, Some err)
        | Ok _ => _ ← emit (SpawnRecorded threadID); _ ← set_captured threadID; mret (EmptyString, None)
        end.

Definition stopLaunchedThreadAfterWritebackFailure (launcher : AgentLauncher) (threadID : string) (cause : error) : IO string :=
  let summary := "spawning_thread_id write-back failed: " +:+ Error cause in
  match StopLaunchedThread launcher with
  | None => mret (truncateErrSummary summary)
  | Some stop =>
      failed ← stop threadID;
      match failed with
      | Some err => mret (truncateErrSummary (summary +:+ "; stop launched thread failed: " +:+ Error err))
      | None => mret (truncateErrSummary (summary +:+ "; launched thread stopped"))
      end
  end.

Definition spawnWriteback (e : AgentExecutor) (launcher : AgentLauncher) (node : ExecNode) (runCtx : RunContext) (threadID : string) : IO string :=
  '(summary, cause) ← recordSpawn e node runCtx threadID;
  match cause with
  | Some cause => stopLaunchedThreadAfterWritebackFailure launcher (TrimSpace threadID) cause
  | None => mret summary
  end.

Definition usesPrePromptSpawnRecord (e : AgentExecutor) (launcher : AgentLauncher) : bool :=
  ae_recorder e && bool_decide (is_Some (LaunchAgentWithSpawnRecord launcher)).

Definition record_callback (e : AgentExecutor) (node : ExecNode) (runCtx : RunContext) (threadID : string) : IO (option error) :=
  '(summary, _) ← recordSpawn e node runCtx threadID;
  mret (if String.eqb summary EmptyString then None
        else Some (Errorf [ErrSpawnWritebackFailed] (Sprintf "%w: %s" [summary]))).

Definition launchAgent (e : AgentExecutor) (launcher : AgentLauncher) (req : LaunchRequest) (node : ExecNode) (runCtx : RunContext)
  : IO (string * option error) :=
  invalid ← match ValidateDAGAgentLaunch launcher with
            | None => mret None
            | Some validate => let '(dagKey, nodeKey) := resolveSpawnKeys node runCtx in validate req dagKey nodeKey
            end;
  match invalid with
  | Some err => mret (EmptyString, Some err)
  | None =>
      match ae_recorder e, LaunchAgentWithSpawnRecord launcher with
      | true, Some launch => launch req (record_callback e node runCtx)
      | _, _ => LaunchAgent launcher req
      end
  end.

(** ** The outcome of a launch *)

Definition finalizeAgentLaunchOutcome (errorSummary : string) : NodeOutcome :=
  if String.eqb errorSummary EmptyString then done_outcome else failed_outcome FailureClassHard errorSummary.

Definition successfulAgentLaunchOutcome (e : AgentExecutor) (launcher : AgentLauncher) (node : ExecNode) (runCtx : RunContext)
    (threadID : string) : IO NodeOutcome :=
  if usesPrePromptSpawnRecord e launcher then mret (finalizeAgentLaunchOutcome EmptyString)
  else summary ← spawnWriteback e launcher node runCtx threadID; mret (finalizeAgentLaunchOutcome summary).

Definition classifiedAgentLaunchFailure (launchErr : error) : NodeOutcome :=
  failed_outcome (classifyAgentLaunchError Error (Some launchErr)) (truncateErrSummary ("launch agent: " +:+ Error launchErr)).

Definition agentLaunchOutcome (e : AgentExecutor) (launcher : AgentLauncher) (node : ExecNode) (runCtx : RunContext)
    (threadID : string) (launchErr : option error) : IO NodeOutcome :=
  match launchErr with
  | None => successfulAgentLaunchOutcome e launcher node runCtx threadID
  | Some err =>
      if errors_Is err ErrSpawnWritebackFailed then
        summary ← if negb (String.eqb (TrimSpace threadID) EmptyString)
                  then stopLaunchedThreadAfterWritebackFailure launcher threadID err else mret (Error err);
        mret (failed_outcome FailureClassHard (truncateErrSummary summary))
      else if errors_Is err ErrDAGAgentRequiresRemoteLauncher
      then mret (failed_outcome FailureClassHard (truncateErrSummary (Error err)))
      else mret (match agentLaunchCWDValidationFailure (Some err) with
                 | Some failure => failure
                 | None => classifiedAgentLaunchFailure err
                 end)
  end.

(** The error channel of [Execute] is never used. *)
Definition AgentExecutor_Execute (e : AgentExecutor) (node : ExecNode) (runCtx : RunContext) : IO NodeOutcome :=
  match ParseAgentConfig (xn_Config node) with
  | Err err => mret (validationOutcome (truncateErrSummary ("decode agent config: " +:+ Error err)))
  | Ok cfg =>
      match validateAgentOutputs (xn_Config node) with
      | Some failure => mret failure
      | None =>
          match normalizeAgentLaunchConfig cfg with
          | Err failure => mret failure
          | Ok cfg =>
              inputs ← assembleInputs cfg runCtx node;
              match inputs with
              | Err ierr => mret (failed_outcome (ie_Class ierr) (truncateErrSummary ("assemble inputs: " +:+ Error (ie_Err ierr))))
              | Ok inputsPrefix =>
                  match ae_launcher e with
                  | None => mret (validationOutcome "agent executor: launcher not wired")
                  | Some launcher =>
                      agentID ← ask new_agent_id;
                      let prompt := composePrompt inputsPrefix (artifactOutputContract (ptr_val (field "to_artifact" (field "outputs" cfg))))
                                      (str_val (field "first_turn" cfg)) in
                      '(threadID, launchErr) ← launchAgent e launcher (buildLaunchRequestFromAgentConfig agentID cfg node prompt) node runCtx;
                      agentLaunchOutcome e launcher node runCtx threadID launchErr
                  end
              end
          end
      end
  end.

(** ** The launcher of the service *)

(** What a launcher answers: the thread, the agent id on the remote side, and the remote id
    it wrote into the runtime that it launched. *)
Record LaunchResult := mkLaunchResult { lx_ThreadID : string; lx_RemoteAgentID : string; lx_LaunchingAgentID : string }.

Record launcherLaunchAttempt := mkAttempt { la_agentID : string; la_expectedSeq : Z }.

Record pendingCLIProcessExit := mkPendingExit { px_agentID : string; px_sessionID : string; px_launchSeq : Z; px_err : option error }.

(** The row of an agent in the registry, as far as a launch looks at it. *)
Record agentRuntime := mkRuntime {
  ag_id : string; ag_launchSeq : Z; ag_lastExitedSeq : Z; ag_pendingCLIExit : option pendingCLIProcessExit;
}.

(** The machine: its preparation of a launch (the defaults of the request, which a
    request with a working directory keeps, and its validation), one attempt to start, the
    waits between attempts; the registry of agents (the row under an id, and whether another
    agent has an id), the state machine of an agent (whether it takes the failure or the
    success of a launch), whether the launcher manages processes and its session store; the
    launcher's stop of a runtime it launched; the submission of the first prompt, the
    stopping of an agent and of a thread, and the snapshot. *)
Record Lifecycle := mkLifecycle {
  lc_local : bool;
  lc_prepare : nat -> LaunchRequest -> result error launcherLaunchAttempt;
  lc_attempt : nat -> LaunchRequest -> result error LaunchResult;
  lc_wait : nat -> option error;
  lc_registry : nat -> string -> result error agentRuntime;
  lc_taken : nat -> string -> bool;
  lc_fire_failed : nat -> option error;
  lc_fire_succeeded : nat -> option error;
  lc_managed : bool;
  lc_bind_session : nat -> string -> Z -> option error;
  lc_stop_runtime : nat -> string -> option error;
  lc_prompt : nat -> LaunchRequest -> option error;
  lc_stop : nat -> string -> option error;
  lc_snapshot : nat -> result error string;
  lc_stop_thread : nat -> string -> option error;
}.

Definition MaxRetries : nat := 3.
Definition errAgentNotFound : string := "errAgentNotFound".

Section service.
Context (lc : Lifecycle).

Definition join_errors (a : error) (b : option error) : error :=
  match b with None => a | Some b => Errorf (err_is a ++ err_is b) (err_msg a) end.

(** *** The end of a launch *)

Definition lookupAgentBySeqLocked (agentID : string) (launchSeq : Z) : IO (result error agentRuntime) :=
  row ← ask (fun i => lc_registry lc i agentID);
  mret (agent ← row;
        if (ag_launchSeq agent =? launchSeq)%Z then Ok agent
        else Err (Errorf [errAgentNotFound] (Sprintf "%w: %s/%d" [TrimSpace agentID; pretty launchSeq]))).

(** The single slot for an exit that came during the launch. *)
Definition takePendingCLIProcessExitLocked (agent : agentRuntime) (agentID : string) (launchSeq : Z) (sessionID : string)
  : option pendingCLIProcessExit :=
  match ag_pendingCLIExit agent with
  | Some p => if String.eqb (px_agentID p) (TrimSpace agentID) && (px_launchSeq p =? launchSeq)%Z && String.eqb (px_sessionID p) (TrimSpace sessionID)
              then Some p else None
  | None => None
  end.

Definition pendingCLIProcessExitLaunchError (agentID : string) (event : pendingCLIProcessExit) : error :=
  let cause := match px_err event with Some e => e | None => plain_error "CLI process exited unexpectedly" end in
  Errorf (err_is cause) (Sprintf "agent %q process exited before launch activation (launch_seq=%d, session_id=%q): %w"
    [TrimSpace agentID; pretty (px_launchSeq event); px_sessionID event]).

(** [launcher.Stop] on the runtime of the launch; [thread] is where it runs. *)
Definition stop_runtime (why : discard) (attempt : launcherLaunchAttempt) (thread : string) : IO (option error) :=
  failed ← ask (fun i => lc_stop_runtime lc i (la_agentID attempt));
  _ ← emit (RuntimeStopped why thread (negb (bool_decide (is_Some failed))));
  mret failed.

(** A stale launch that succeeded is stopped, and no error is reported. *)
Definition discardStaleLaunchResult (attempt : launcherLaunchAttempt) (thread : string) (launchErr : option error) : IO (option error) :=
  match launchErr with
  | None => _ ← stop_runtime StaleLaunch attempt thread; mret None
  | Some e => mret (Some e)
  end.

Definition commitLaunchFailureLocked (launchErr : error) : IO error :=
  fireErr ← ask (lc_fire_failed lc); mret (join_errors launchErr fireErr).

Definition failLauncherLaunchLocked (attempt : launcherLaunchAttempt) (thread : string) (launchErr : error) : IO (option error) :=
  err ← commitLaunchFailureLocked launchErr;
  _ ← stop_runtime FailedLaunch attempt thread;
  mret (Some err).

(** The id under which the agent is kept from now on. *)
Definition boundAgentID (agent : agentRuntime) (result : LaunchResult) : string :=
  let remote := if String.eqb (TrimSpace (lx_RemoteAgentID result)) EmptyString then lx_LaunchingAgentID result else TrimSpace (lx_RemoteAgentID result) in
  if String.eqb (TrimSpace remote) EmptyString then ag_id agent else TrimSpace remote.

Definition rekeyLaunchedAgentLocked (agent : agentRuntime) (result : LaunchResult) : IO (option error) :=
  let finalID := boundAgentID agent result in
  if String.eqb finalID (ag_id agent) then mret None
  else
    taken ← ask (fun i => lc_taken lc i finalID);
    mret (if taken : bool then Some (Errorf [] (Sprintf "orchestration: remote agent_id %q collides with local agent %q" [finalID; finalID])) else None).

Definition completeLauncherLaunchLocked (agent : agentRuntime) (attempt : launcherLaunchAttempt) (result : LaunchResult) : IO (option error) :=
  let thread := TrimSpace (lx_ThreadID result) in
  rekeyed ← rekeyLaunchedAgentLocked agent result;
  match rekeyed with
  | Some e => err ← commitLaunchFailureLocked e; _ ← stop_runtime FailedLaunch attempt thread; mret (Some err)
  | None =>
      fired ← ask (lc_fire_succeeded lc);
      match fired with
      | Some e => _ ← stop_runtime FailedLaunch attempt thread; mret (Some e)
      | None =>
          if lc_managed lc then
            bound ← ask (fun i => lc_bind_session lc i (boundAgentID agent result) (ag_launchSeq agent));
            match bound with
            | Some e => stopErr ← stop_runtime FailedLaunch attempt thread; mret (Some (join_errors e stopErr))
            | None => mret None
            end
          else mret None
      end
  end.

Definition finishLauncherLaunch (attempt : launcherLaunchAttempt) (result : LaunchResult) (launchErr : option error) : IO (option error) :=
  let thread := TrimSpace (lx_ThreadID result) in
  found ← lookupAgentBySeqLocked (la_agentID attempt) (la_expectedSeq attempt);
  match found with
  | Err _ => discardStaleLaunchResult attempt thread launchErr
  | Ok agent =>
      match launchErr with
      | Some e => failLauncherLaunchLocked attempt thread e
      | None =>
          if (la_expectedSeq attempt <=? ag_lastExitedSeq agent)%Z then
            _ ← discardStaleLaunchResult attempt thread None;
            mret (Some (Errorf [] (Sprintf "agent %q process exited before launch activation" [la_agentID attempt])))
          else match takePendingCLIProcessExitLocked agent (la_agentID attempt) (la_expectedSeq attempt) (lx_ThreadID result) with
               | Some exit => failLauncherLaunchLocked attempt thread (pendingCLIProcessExitLaunchError (la_agentID attempt) exit)
               | None => completeLauncherLaunchLocked agent attempt result
               end
      end
  end.

(** *** The attempts *)

Definition no_result : LaunchResult := mkLaunchResult EmptyString EmptyString EmptyString.

(** The end of a launch without an agent. *)
Definition finish_failed (attempt : launcherLaunchAttempt) (launchErr : option error) : IO (result error (string * LaunchResult)) :=
  finished ← finishLauncherLaunch attempt no_result launchErr;
  mret (match finished with Some e => Err e | None => Ok (EmptyString, no_result) end).

(** The attempts to come, and the error of the one before.  An agent counts as started when
    the launcher says so. *)
Fixpoint launchWithRetry (attempt : launcherLaunchAttempt) (attempts : nat) (lastErr : option error) (req : LaunchRequest)
  : IO (result error (string * LaunchResult)) :=
  match attempts with
  | 0 => finish_failed attempt lastErr
  | S attempts =>
      waited ← match lastErr with None => mret None | Some _ => ask (lc_wait lc) end;
      match waited with
      | Some e => finish_failed attempt (Some e)
      | None =>
          _ ← emit (LaunchAsked req);
          answer ← ask (fun i => lc_attempt lc i req);
          match answer with
          | Ok result =>
              _ ← emit (AgentStarted (TrimSpace (lx_ThreadID result)));
              finished ← finishLauncherLaunch attempt result None;
              match finished with
              | Some e => mret (Err e)
              | None =>
                  let remote := TrimSpace (lx_RemoteAgentID result) in
                  mret (Ok (if String.eqb remote EmptyString then TrimSpace (la_agentID attempt) else remote, result))
              end
          | Err e =>
              match Classify Error (Some e) with
              | ClassPermanent => finish_failed attempt (Some e)
              | _ => launchWithRetry attempt attempts (Some e) req
              end
          end
      end
  end.

(** The id of the started agent, and what the launcher answered. *)
Definition launchAgentUntilStarted (req : LaunchRequest) : IO (result error (string * LaunchResult)) :=
  prepared ← ask (fun i => lc_prepare lc i req);
  match prepared with
  | Err e => mret (Err e)
  | Ok attempt => launchWithRetry attempt MaxRetries None req
  end.

(** [stopAgentViaLauncher]; the agent runs on the thread. *)
Definition stop_agent (agentID threadID : string) : IO (option error) :=
  failed ← ask (fun i => lc_stop lc i agentID);
  _ ← emit (StopAsked threadID (negb (bool_decide (is_Some failed))));
  mret failed.

Definition submitInitialLaunchPromptOrStop (agentID threadID : string) (req : LaunchRequest) : IO (option error) :=
  failed ← if String.eqb (TrimSpace (lr_Prompt req)) EmptyString then mret None else ask (fun i => lc_prompt lc i req);
  match failed with
  | None => mret None
  | Some err => stopErr ← stop_agent agentID threadID; mret (Some (join_errors err stopErr))
  end.

(** The thread that the callback saw, and the error or the thread of the snapshot. *)
Definition launchAgentSnapshot (req : LaunchRequest) (beforeInitialPrompt : string -> IO (option error)) : IO (string * result error string) :=
  started ← launchAgentUntilStarted req;
  match started with
  | Err e => mret (EmptyString, Err e)
  | Ok (agentID, launched) =>
      let threadID := TrimSpace (lx_ThreadID launched) in
      failed ← beforeInitialPrompt threadID;
      match failed with
      | Some err => stopErr ← stop_agent agentID threadID; mret (threadID, Err (join_errors err stopErr))
      | None =>
          failed ← submitInitialLaunchPromptOrStop agentID threadID req;
          match failed with
          | Some err => mret (threadID, Err err)
          | None => snap ← ask (lc_snapshot lc); mret (threadID, snap)
          end
      end
  end.

Definition service_LaunchAgentWithSpawnRecord (req : LaunchRequest) (record : string -> IO (option error)) : IO (string * option error) :=
  '(launchedThreadID, snap) ← launchAgentSnapshot req record;
  match snap with
  | Err err => mret (launchedThreadID, Some err)
  | Ok threadID => mret (if String.eqb (TrimSpace threadID) EmptyString then launchedThreadID else TrimSpace threadID, None)
  end.

Definition service_ValidateDAGAgentLaunch (req : LaunchRequest) (dagKey nodeKey : string) : IO (option error) :=
  mret (if lc_local lc
        then Some (Errorf [ErrDAGAgentRequiresRemoteLauncher] (Sprintf "%w: dag_key=%s node_key=%s" [TrimSpace dagKey; TrimSpace nodeKey]))
        else None).

Definition service_StopLaunchedThread (threadID : string) : IO (option error) :=
  failed ← ask (fun i => lc_stop_thread lc i threadID);
  _ ← emit (StopAsked threadID (negb (bool_decide (is_Some failed))));
  mret failed.

Definition serviceAgentLauncher : AgentLauncher :=
  mkAgentLauncher (fun req => service_LaunchAgentWithSpawnRecord req (fun _ => mret None))
    (Some service_ValidateDAGAgentLaunch) (Some service_LaunchAgentWithSpawnRecord) (Some service_StopLaunchedThread).
End service.
End executor.
