(* ===== verification/NodeRouter.v ===== *)
(** * Routing a wakeup to the executor of its node

    Models [node_router.go] (with the node-type table, the prefetch of upstream
    results, the write of the running status and the completion of an automation node)
    and [nodeexec/executor_automation_decode.go].  Lifecycle hooks, metrics and events
    only observe and are left out.  The automation executor is a parameter of the
    router. *)

From S2P Require Import Prelude GoStrings Json DagStore NodeConfig WakeupPayload RunStore WakeupLease RetryPolicy Effects AgentExecutor.

(** ** Automation configurations *)

(** A JSON value decodes to [any] when its numbers are floats. *)
Fixpoint any_ok (fits : string -> bool) (j : json) : bool :=
  match j with
  | JNum n => fits n
  | JArr l => forallb (any_ok fits) l
  | JObj l => forallb (fun m => any_ok fits m.2) l
  | _ => true
  end.

Definition EqualFold (a b : string) : bool := bool_decide (foldName a = foldName b).

(** The value is decoded again and again by a repeated key: the last one counts. *)
Definition rejectAutomationShellModeFields (fits : string -> bool) (raw : RawMessage) : result error unit :=
  match raw with
  | RawEmpty | RawJSON JNull => Ok tt
  | RawJSON (JObj members) =>
      if negb (any_ok fits (JObj members)) then Err (plain_error "json: cannot unmarshal number")
      else match get "exec" (map_of members) with
           | Some (JObj exec) =>
               let exec := map_of exec in
               match List.find (fun key => bool_decide (is_Some (get key exec))) ["shell"; "shell_mode"] with
               | Some key => Err (Errorf [] (Sprintf "automation command exec.%s is not supported; command cards run via argv" [key]))
               | None =>
                   match get "mode" exec with
                   | Some (JStr mode) =>
                       guard_err (negb (EqualFold (TrimSpace mode) "shell"))
                         (plain_error "automation command exec.mode=shell is not supported; command cards run via argv")
                   | _ => Ok tt
                   end
               end
           | _ => Ok tt
           end
  | _ => Err (plain_error "json: cannot unmarshal config")
  end.

Definition ValidateAutomationCommandDispatchConfig (fits : string -> bool) (raw : RawMessage) : result error unit :=
  _ ← rejectAutomationShellModeFields fits raw;
  cfg ← ParseAutomationConfig raw;
  let exec := field "exec" cfg in
  _ ← guard_err (negb (String.eqb (TrimSpace (str_val (field "command_ref" exec))) EmptyString))
        (plain_error "automation command exec.command_ref is required");
  _ ← guard_err (negb (String.eqb (TrimSpace (str_val (field "cwd" exec))) EmptyString))
        (plain_error "automation command exec.cwd is required");
  _ ← guard_err (negb (length (slice_val (field "workspace_roots" exec)) =? 0)%nat)
        (plain_error "automation command exec.workspace_roots is required");
  validateAutomationCommandEnv (map_val (field "env" exec)).

(** ** The wakeup of a route *)

Definition isTerminalNodeStatus (status : string) : bool := str_in (TrimSpace (ToLower status)) terminal_statuses.

Definition routeRunID (w : Wakeup) : Z := default 0%Z (wk_RunID w).

Definition routeWakeupFence : Wakeup -> WakeupFence := wakeupFenceFromWakeup.

Definition currentRouteWakeupFence (ctxFence : option WakeupFence) (fallback : WakeupFence) : WakeupFence :=
  match ctxFence with
  | Some current => if (wf_WakeupID current =? wf_WakeupID fallback)%Z then current else fallback
  | None => fallback
  end.

Definition validateRouteInputs (w : Wakeup) : result error unit :=
  _ ← guard_err (negb (String.eqb (TrimSpace (wk_DagKey w)) EmptyString || String.eqb (TrimSpace (wk_NodeKey w)) EmptyString))
        (Errorf [] (Sprintf "node router: wakeup %d missing dag_key/node_key" [pretty (wk_ID w)]));
  guard_err (0 <? routeRunID w)%Z
    (Errorf [] (Sprintf "node router: wakeup %d missing run_id for runtime node dispatch" [pretty (wk_ID w)])).

Definition taskNodeRunID (n : Node) : Z := default 0%Z (nd_RunID n).

Definition targetRecordedSpawn (target : Node) : string := TrimSpace (default EmptyString (nd_SpawningThreadID target)).

Definition extractFromNodes (nodeType : string) (cfgRaw : RawMessage) : result error (list string) :=
  match cfgRaw with
  | RawEmpty => Ok []
  | _ =>
      parsed ← ParseNodeConfig nodeType cfgRaw;
      Ok (match Agent parsed, Automation parsed, Hybrid parsed with
          | Some cfg, _, _ | None, Some cfg, _ | None, None, Some cfg => strs_val (field "from_nodes" (field "inputs" cfg))
          | None, None, None => []
          end)
  end.

Definition errAgentReadyRunningWriteFailed : string := "errAgentReadyRunningWriteFailed".
Definition errRunExecutionTimeoutFramework : string := "errRunExecutionTimeoutFramework".

(** An executor of automation nodes: it has the timeout of the execution, and may fail
    outside the node. *)
Definition AutomationExec `{EN : Env} : Type := ExecNode -> RunContext -> Z -> IO (NodeOutcome * option error).

Section router.
Context `{EN : Env}.

Record NodeExecutorRouter := mkRouter {
  ro_agentExec : option AgentExecutor; ro_autoExec : option AutomationExec; ro_sharedFileReader : option SharedFileReader;
}.

Context (r : NodeExecutorRouter).

Definition listRouteNodes (dagKey : string) (runID : Z) : IO (result error (list Node)) :=
  if (runID <=? 0)%Z then mret (Err (plain_error "run_id required for runtime node dispatch"))
  else route_call (fun _ _ => ListRunNodes dagKey runID).

Definition lookupTargetNode (dagKey nodeKey : string) (runID : Z) : IO (result error Node) :=
  nodes ← listRouteNodes dagKey runID;
  mret (nodes ← map_err (fun e => Errorf (err_is e) (Sprintf "node router: list nodes %s: %w" [dagKey])) nodes;
        match List.find (fun n => String.eqb (nd_NodeKey n) nodeKey) nodes with
        | Some n => Ok n
        | None => Err (Errorf [] (Sprintf "node router: node %s/%s not found" [dagKey; nodeKey]))
        end).

(** A node that is not done is left out, a result that is missing stays empty. *)
Definition prev_results (want : list string) (nodes : list Node) : list (string * RawMessage) :=
  foldl (fun prev n =>
    if str_in (nd_NodeKey n) want && String.eqb (nd_Status n) "done" then set (nd_NodeKey n) (nd_Result n) prev else prev) [] nodes.

Definition prefetchPrevResults (dagKey : string) (runID : Z) (fromNodes : list string)
  : IO (result error (option (list (string * RawMessage)))) :=
  match List.filter (fun k => negb (String.eqb k EmptyString)) (TrimSpace <$> fromNodes) with
  | [] => mret (Ok None)
  | want =>
      nodes ← listRouteNodes dagKey runID;
      mret (nodes ← map_err (fun e => Errorf (err_is e) (Sprintf "node router: prefetch prev results list nodes %s: %w" [dagKey])) nodes;
            Ok (Some (prev_results want nodes)))
  end.

(** The error is of the framework ([inl]) or of the configuration ([inr]). *)
Definition resolveRunExecutionTimeout (dagKey : string) (cfgRaw : RawMessage) : IO (result (error + error) Z) :=
  dag ← route_call (fun _ _ => GetDAG dagKey);
  mret (match dag with
        | Err e => Err (inl (Errorf (errRunExecutionTimeoutFramework :: err_is e) (Sprintf "%w: load dag %s metadata: %w" [dagKey])))
        | Ok dag => map_err inr (ResolveExecutionTimeout (dg_Metadata dag) cfgRaw)
        end).

(** A failure of the node, or an error of the framework. *)
Definition buildRunContext (dagKey nodeKey : string) (runID : Z) (nodeType : string) (cfgRaw : RawMessage)
  : IO (result (NodeOutcome * option error) (RunContext * Z)) :=
  match extractFromNodes nodeType cfgRaw with
  | Err e => mret (Err (validationOutcome ("node router: parse " +:+ nodeType +:+ " config for prefetch failed: " +:+ Error e), None))
  | Ok fromNodes =>
      prevResults ← prefetchPrevResults dagKey runID fromNodes;
      match prevResults with
      | Err e => mret (Err (mkOutcome EmptyString RawEmpty EmptyString EmptyString, Some e))
      | Ok prevResults =>
          timeout ← resolveRunExecutionTimeout dagKey cfgRaw;
          mret (match timeout with
                | Err (inl e) => Err (mkOutcome EmptyString RawEmpty EmptyString EmptyString, Some e)
                | Err (inr e) => Err (validationOutcome ("node router: execution timeout invalid: " +:+ Error e), None)
                | Ok timeout => Ok (mkRunContext dagKey nodeKey runID prevResults (ro_sharedFileReader r), timeout)
                end)
      end
  end.

Definition validateAutomationRouteConfig (nodeType : string) (raw : RawMessage) : option NodeOutcome :=
  if negb (String.eqb nodeType "automation") then None
  else match ValidateAutomationCommandDispatchConfig float_fits raw with
       | Ok _ => None
       | Err e => Some (validationOutcome ("node router: automation command config invalid: " +:+ Error e))
       end.

(** ** Execution *)

(** Whether this call wrote the running status.  The fence is read from the context,
    and the store reads it again. *)
Definition advanceAgentNodeToRunning (dagKey nodeKey : string) (runID : Z) (wakeupFence : WakeupFence) : IO (result error bool) :=
  w ← get_world;
  let fence := currentRouteWakeupFence (context_fence w) wakeupFence in
  node ← route_call (fun ctxFence now =>
           UpdateRunningNodeStatus json_ok now ctxFence
             (mkRunningUpdate "running" (RawJSON (JObj [])) (wf_WakeupID fence) fence dagKey nodeKey runID));
  mret (match node with
        | Ok _ => Ok true
        | Err e => if errors_Is e ErrNotFound then Ok false
                   else Err (Errorf (errAgentReadyRunningWriteFailed :: err_is e) (Sprintf "%w: %w" []))
        end).

Definition empty_outcome : NodeOutcome := mkOutcome EmptyString RawEmpty EmptyString EmptyString.

Definition dispatchRecordedAgentSpawn (node : ExecNode) (runCtx : RunContext) (wakeupFence : WakeupFence) : IO (NodeOutcome * option error) :=
  advanced ← advanceAgentNodeToRunning (xn_DagKey node) (xn_NodeKey node) (rc_RunID runCtx) wakeupFence;
  mret (done_outcome, err_of advanced).

Definition dispatchAgent (node : ExecNode) (runCtx : RunContext) (wakeupFence : WakeupFence) : IO (NodeOutcome * option error) :=
  if negb (String.eqb (TrimSpace (xn_SpawningThreadID node)) EmptyString) then dispatchRecordedAgentSpawn node runCtx wakeupFence
  else match ro_agentExec r with
  | None => mret (validationOutcome "node router: agent executor not wired", None)
  | Some agentExec =>
      if negb (ae_recorder agentExec)
      then mret (failed_outcome FailureClassHard "node router: agent spawn recorder not wired", None)
      else
        _ ← set_captured EmptyString;
        outcome ← AgentExecutor_Execute agentExec node runCtx;
        if String.eqb (no_Status outcome) "failed" then mret (outcome, None)
        else
          advanced ← advanceAgentNodeToRunning (xn_DagKey node) (xn_NodeKey node) (rc_RunID runCtx) wakeupFence;
          match advanced with
          | Ok _ => mret (outcome, None)
          | Err advanceErr =>
              w ← get_world;
              match ae_launcher agentExec, String.eqb (TrimSpace (w_captured w)) EmptyString with
              | Some launcher, false =>
                  summary ← stopLaunchedThreadAfterWritebackFailure launcher (w_captured w) advanceErr;
                  mret (mkOutcome (no_Status outcome) (no_Result outcome) (no_FailureClass outcome) summary, Some advanceErr)
              | _, _ => mret (outcome, Some advanceErr)
              end
          end
  end.

Definition completeAutomationNode (dagKey nodeKey : string) (runID wakeupID wakeupAttempt : Z) (result : RawMessage) : IO (option error) :=
  let resBytes := match result with RawEmpty => RawJSON (JObj []) | _ => result end in
  res ← route_call (fun _ now =>
          CompleteNodeAndScheduleDownstream byte_len (time_text now) (sql_ms now) json_ok reencode
            (mkComplete "done" resBytes dagKey nodeKey runID wakeupID wakeupAttempt));
  mret (err_of res).

Definition dispatchAutomation (node : ExecNode) (runCtx : RunContext) (executionTimeout : Z) (wakeupFence : WakeupFence)
  : IO (NodeOutcome * option error) :=
  match ro_autoExec r with
  | None => mret (validationOutcome "node router: automation executor not wired", None)
  | Some autoExec =>
      advanced ← advanceAgentNodeToRunning (xn_DagKey node) (xn_NodeKey node) (rc_RunID runCtx) wakeupFence;
      match advanced with
      | Err e => mret (empty_outcome, Some e)
      | Ok false =>
          mret (empty_outcome, Some (Errorf [] (Sprintf "node router: automation ready->running fence missed for %s/%s/%d"
                  [xn_DagKey node; xn_NodeKey node; pretty (rc_RunID runCtx)])))
      | Ok true =>
          '(outcome, execErr) ← autoExec node runCtx executionTimeout;
          match execErr with
          | Some e => mret (outcome, Some e)
          | None =>
              if negb (String.eqb (no_Status outcome) "done") then mret (outcome, None)
              else
                w ← get_world;
                let fence := currentRouteWakeupFence (context_fence w) wakeupFence in
                failed ← completeAutomationNode (xn_DagKey node) (xn_NodeKey node) (rc_RunID runCtx)
                           (wf_WakeupID fence) (wf_WakeupAttempt fence) (no_Result outcome);
                mret (outcome, (fun e => Errorf (err_is e) (Sprintf "node router: automation complete propagate failed: %w" [])) <$> failed)
          end
      end
  end.

Definition dispatchByNodeType (nodeType : string) (node : ExecNode) (runCtx : RunContext) (executionTimeout : Z) (wakeupFence : WakeupFence)
  : IO (NodeOutcome * option error) :=
  if String.eqb nodeType "agent" then dispatchAgent node runCtx wakeupFence
  else if String.eqb nodeType "automation" then dispatchAutomation node runCtx executionTimeout wakeupFence
  else if String.eqb nodeType "hybrid"
  then mret (validationOutcome "node router: hybrid node lifecycle not yet implemented (F3.1)", None)
  else mret (validationOutcome ("node router: unsupported node_type " +:+ Quote nodeType), None).

(** The lease in the context hides the fence that the route would add to it. *)
Definition RouteByWakeup (w : Wakeup) : IO (NodeOutcome * option error) :=
  match validateRouteInputs w with
  | Err e => mret (empty_outcome, Some e)
  | Ok _ =>
      let dagKey := TrimSpace (wk_DagKey w) in
      let nodeKey := TrimSpace (wk_NodeKey w) in
      let runID := routeRunID w in
      target ← lookupTargetNode dagKey nodeKey runID;
      match target with
      | Err e => mret (empty_outcome, Some e)
      | Ok target =>
          if isTerminalNodeStatus (nd_Status target) then mret (done_outcome, None)
          else
            let nodeType := resolveNodeType (nd_NodeType target) in
            match validateAutomationRouteConfig nodeType (nd_Config target) with
            | Some failure => mret (failure, None)
            | None =>
                let node := mkExecNode dagKey nodeKey nodeType (nd_Title target) (nd_Config target) (targetRecordedSpawn target) in
                ctx ← buildRunContext dagKey nodeKey runID nodeType (nd_Config target);
                match ctx with
                | Err early => mret early
                | Ok (runCtx, executionTimeout) => dispatchByNodeType nodeType node runCtx executionTimeout (routeWakeupFence w)
                end
            end
      end
  end.
End router.
Arguments mkRouter {_} _ _ _.
