(* ===== verification/Dispatcher.v ===== *)
(** * The wakeup dispatcher

    Models [wakeup_dispatcher.go], the decisions of [retry_strategy.go], the
    dispatcher's part of [node_executor_dispatch.go] and [node_router.go],
    [turncompletionretry/turncompletionretry.go] and [wakeuptext]: claiming a batch,
    checking each wakeup, launching or routing it, and settling the claim as sent,
    retried or failed.  Metrics, alerts and events only observe and are left out. *)

From S2P Require Import Prelude GoStrings Json DagStore NodeConfig WakeupPayload RunStore WakeupLease RetryPolicy Effects AgentExecutor NodeRouter.

(** ** Configuration *)

Record WakeupDispatcherConfig := mkDispatcherConfig {
  dc_ClaimedBy : string; dc_LeaseInterval : string; dc_BatchLimit : Z; dc_TickInterval : Z;
  dc_RetryInterval : string; dc_MaxRetryAttempts : Z;
}.

Definition defaultWakeupClaimBatchLimit : Z := 10.
Definition defaultDispatcherTickInterval : Z := 10 * Second.
Definition defaultDispatchLeaseInterval : string := "00:00:30".
Definition defaultWakeupRetryInterval : string := "00:02:00".

Definition or_default (s d : string) : string := if String.eqb s EmptyString then d else s.

Definition ConfigOrDefaults (c : WakeupDispatcherConfig) (newAgentID : string) : WakeupDispatcherConfig :=
  mkDispatcherConfig (or_default (dc_ClaimedBy c) ("mcp-orch-dispatcher-" +:+ newAgentID))
    (or_default (dc_LeaseInterval c) defaultDispatchLeaseInterval)
    (if (dc_BatchLimit c <=? 0)%Z then defaultWakeupClaimBatchLimit else dc_BatchLimit c)
    (if (dc_TickInterval c <=? 0)%Z then defaultDispatcherTickInterval else dc_TickInterval c)
    (or_default (dc_RetryInterval c) defaultWakeupRetryInterval) (dc_MaxRetryAttempts c).

(** The heartbeat of a lease. *)
Definition heartbeat_interval (leaseInterval : string) : result error Z :=
  leaseDuration ← ParseLeaseDuration leaseInterval;
  let heartbeatInterval := Z.quot leaseDuration 3 in
  if (heartbeatInterval <=? 0)%Z then Err (plain_error "wakeup dispatcher: lease interval too short for heartbeat")
  else Ok heartbeatInterval.

(** ** The envelope of a wakeup *)

Definition validateLegacyWakeupRowIdentity (w : Wakeup) (dagKey nodeKey : string) : result error unit :=
  guard_err (String.eqb dagKey EmptyString && String.eqb nodeKey EmptyString && bool_decide (wk_RunID w = None))
    (Errorf [] (Sprintf "wakeup dispatcher: wakeup %d legacy launch branch carries DAG row identity" [pretty (wk_ID w)])).

Definition validateDAGWakeupRowIdentity (w : Wakeup) (dagKey nodeKey : string) : result error unit :=
  guard_err (negb (String.eqb dagKey EmptyString) && negb (String.eqb nodeKey EmptyString)
             && match wk_RunID w with Some id => (0 <? id)%Z | None => false end)
    (Errorf [] (Sprintf "wakeup dispatcher: wakeup %d %s branch requires dag_key, node_key, and positive run_id"
      [pretty (wk_ID w); TrimSpace (wk_Kind w)])).

Definition validateWakeupRowIdentity (w : Wakeup) : result error unit :=
  let dagKey := TrimSpace (wk_DagKey w) in
  let nodeKey := TrimSpace (wk_NodeKey w) in
  let kind := TrimSpace (wk_Kind w) in
  if String.eqb kind "start" then validateLegacyWakeupRowIdentity w dagKey nodeKey
  else if str_in kind ["node_start"; "manual_dispatch"; "turn_complete_retry"; "terminal_failure_compensation"]
  then validateDAGWakeupRowIdentity w dagKey nodeKey
  else Err (Errorf [] (Sprintf "wakeup dispatcher: wakeup %d unsupported wakeup_kind %q" [pretty (wk_ID w); wk_Kind w])).

Definition isDAGWakeup (w : Wakeup) : bool :=
  negb (String.eqb (TrimSpace (wk_DagKey w)) EmptyString) && negb (String.eqb (TrimSpace (wk_NodeKey w)) EmptyString).

Definition shouldRouteThroughNodeExecutor : Wakeup -> bool := isDAGWakeup.

(** ** Completion retries *)

Definition completion_retry_kind : string := "turn_complete_retry".
Definition TerminalFailureCompensationKind : string := "terminal_failure_compensation".

Definition IsWakeup (w : Wakeup) : bool := String.eqb (TrimSpace (wk_Kind w)) completion_retry_kind.

Definition IdempotencyKey (dagKey nodeKey : string) (runID : Z) : string :=
  "dag/" +:+ dagKey +:+ "/run/" +:+ pretty runID +:+ "/" +:+ nodeKey +:+ "/turn-complete-retry".

Definition TerminalFailureCompensationID (dagKey nodeKey : string) (runID : Z) : string :=
  "dag/" +:+ dagKey +:+ "/run/" +:+ pretty runID +:+ "/" +:+ nodeKey +:+ "/terminal-failure-compensation".

(** [json.Valid]. *)
Definition json_Valid (raw : RawMessage) : bool := match raw with RawJSON _ => true | _ => false end.

Definition CompleteInput (w : Wakeup) : result error CompleteNodeInput :=
  let runID := routeRunID w in
  let dagKey := TrimSpace (wk_DagKey w) in
  let nodeKey := TrimSpace (wk_NodeKey w) in
  _ ← guard_err (0 <? runID)%Z (Errorf [] (Sprintf "wakeup %d missing runtime run_id" [pretty (wk_ID w)]));
  _ ← guard_err (negb (String.eqb dagKey EmptyString || String.eqb nodeKey EmptyString))
        (Errorf [] (Sprintf "wakeup %d missing dag_key/node_key" [pretty (wk_ID w)]));
  _ ← guard_err (json_Valid (wk_PromptPayload w))
        (Errorf [] (Sprintf "wakeup %d invalid turn.completed completion retry payload" [pretty (wk_ID w)]));
  Ok (mkComplete "done" (wk_PromptPayload w) dagKey nodeKey runID 0 0).

Inductive CompleteOutcome := CompleteSucceeded | CompleteAlreadyTerminal | CompleteRetry (e : error) | CompleteInvalid (e : error).

(** ** Texts *)

Definition RenderUpstreamPromptHint (refs : list DownstreamUpstreamRef) : string :=
  match refs with
  | [] => EmptyString
  | _ =>
      "上游节点已完成，产出文件位于：" +:+ nl
      +:+ foldr (fun ref acc =>
            let nodeKey := TrimSpace (ur_NodeKey ref) in
            let path := TrimSpace (ur_Path ref) in
            if String.eqb path EmptyString then acc
            else if negb (String.eqb nodeKey EmptyString) then "- " +:+ nodeKey +:+ ": " +:+ path +:+ nl +:+ acc
            else "- " +:+ path +:+ nl +:+ acc) EmptyString refs
      +:+ nl +:+ "请用 Read 工具读取以上文件并继续完成本节点任务。"
  end.

Definition buildLaunchRequestFromWakeup (byte_len : RawMessage -> Z) (w : Wakeup) : result error LaunchRequest :=
  decoded ← DecodeWakeupPayload byte_len (wk_PromptPayload w);
  let target := TrimSpace (wk_TargetAgentID w) in
  let disagrees agent := bad_payload "target_agent_id %q disagrees with payload agent_id %q" [wk_TargetAgentID w; agent] in
  match dc_Downstream decoded, dc_Legacy decoded with
  | Some payload, _ =>
      let agent := TrimSpace (dw_AgentID payload) in
      if negb (String.eqb target EmptyString) && negb (String.eqb target agent) then Err (disagrees (dw_AgentID payload))
      else Ok (mkLaunchRequest agent EmptyString (RenderUpstreamPromptHint (dw_UpstreamOutputs payload)) EmptyString EmptyString EmptyString
                 EmptyString EmptyString EmptyString EmptyString EmptyString EmptyString EmptyString [] [])
  | None, Some legacy =>
      if String.eqb target EmptyString || negb (String.eqb target (TrimSpace (lw_AgentID legacy))) then Err (disagrees (lw_AgentID legacy))
      else Ok (mkLaunchRequest (lw_AgentID legacy) (lw_Name legacy) (lw_Prompt legacy) (lw_Instructions legacy) (lw_ParentID legacy)
                 (lw_ParentThreadID legacy) (lw_ContextMode legacy) (lw_AgentType legacy) (lw_AgentKey legacy) (lw_PromptKey legacy)
                 (lw_MemoryScope legacy) (lw_Cwd legacy) (lw_Language legacy) (lw_Command legacy) (lw_Env legacy))
  | None, None => Err (disagrees EmptyString) (* the decoder never returns this *)
  end.

Definition buildReplanPlannerPrompt (w : Wakeup) (outcome : NodeOutcome) : string :=
  "A DAG node failed and its on_failure strategy is replan." +:+ nl +:+ nl
  +:+ "DAG key: " +:+ TrimSpace (wk_DagKey w) +:+ nl
  +:+ "Node key: " +:+ TrimSpace (wk_NodeKey w) +:+ nl
  +:+ "Failure class: " +:+ no_FailureClass outcome +:+ nl
  +:+ "Error: " +:+ TrimSpace (no_ErrorSummary outcome) +:+ nl +:+ nl
  +:+ "Inspect the DAG, decide the smallest graph change, then use task_dag_apply_ops with the current base_version. "
  +:+ "Do not rerun unrelated nodes and keep the patch scoped to recovering this failed node.".

(** ** Decisions *)

(** A launcher answers with an error or none. *)
Definition WakeupLauncher : Type := nat -> LaunchRequest -> option error.

(** The error text to store, and the outcome the failure came with. *)
Record dispatchFailure := mkFailure { df_lastErr : string; df_outcome : NodeOutcome }.

Definition failedWakeupOutcome (summary : string) : NodeOutcome := failed_outcome EmptyString summary.

Record dagRetryContext := mkRetryContext {
  rx_policy : RetryPolicy; rx_node : option Node; rx_onFailure : option OnFailureConfig;
}.

Definition findRetryNode (nodes : list Node) (nodeKey : string) : option Node :=
  List.find (fun n => String.eqb (nd_NodeKey n) nodeKey) nodes.

Section dispatcher.
Context `{EN : Env}.

Record WakeupDispatcher := mkDispatcher {
  wd_launcher : option WakeupLauncher; wd_cfg : WakeupDispatcherConfig; wd_nodeRouter : option NodeExecutorRouter;
}.

Context (d : WakeupDispatcher).

Definition validateWakeupDispatchEnvelope (w : Wakeup) : result error unit :=
  _ ← guard_err (wk_PayloadSchemaVersion w =? WakeupPayloadSchemaVersion1)%Z
        (Errorf [] (Sprintf "wakeup dispatcher: wakeup %d payload_schema_version=%d is not executable; require explicit operator migration/quarantine"
          [pretty (wk_ID w); pretty (wk_PayloadSchemaVersion w)]));
  _ ← ValidateWakeupPayloadForKind byte_len (wk_Kind w) (wk_TargetAgentID w) (wk_PromptPayload w);
  validateWakeupRowIdentity w.

(** *** Settling a claim: whether this call did *)

Definition settle_with (how : settlement) (w : Wakeup) (m : Z -> M nat) : IO (result error nat) :=
  rows ← call m;
  match rows with
  | Ok n => _ ← emit (Settled how (wk_ID w) n); mret (Ok n)
  | Err e => mret (Err e)
  end.

Definition markLaunched (w : Wakeup) : IO bool :=
  rows ← settle_with Sent w (fun now => MarkWakeupSent now (wakeup_fence w));
  mret (match rows with Ok (S _) => true | _ => false end).

Definition markPermanentFail (w : Wakeup) (lastErr : string) : IO bool :=
  rows ← settle_with Failed w (fun now => FailWakeup now (wakeup_fence w) lastErr);
  mret (match rows with Ok (S _) => true | _ => false end).

Definition markPermanentDAGFailure (w : Wakeup) (lastErr : string) (failFast : bool) : IO bool :=
  let runID := routeRunID w in
  if (runID <=? 0)%Z then mret false
  else
    rows ← settle_with FailedWithNode w (fun now =>
             '(rows, _) ← FailWakeupAndFailNodeAndCancelDownstream reencode now (wakeup_fence w) lastErr
                            (mkFail (wk_DagKey w) (wk_NodeKey w) runID lastErr failFast 0 0);
             mret rows);
    mret (match rows with Ok (S _) => true | _ => false end).

(** *** The policy of a node, as stored *)

Definition resolveDAGRetryContext (dagKey nodeKey : string) (runID : Z) : IO (result error (option dagRetryContext)) :=
  if (runID <=? 0)%Z then mret (Ok None)
  else
    dag ← call (fun _ => GetDAG dagKey);
    match dag with
    | Err e => mret (Err (Errorf (err_is e) (Sprintf "resolve retry policy dag %s: %w" [dagKey])))
    | Ok dag =>
        nodes ← call (fun _ => ListRunNodes dagKey runID);
        mret (nodes ← map_err (fun e => Errorf (err_is e) (Sprintf "list run nodes for retry policy dag %s run_id=%d: %w" [dagKey; pretty runID])) nodes;
              let target := findRetryNode nodes nodeKey in
              policy ← ResolveRetryPolicy (dg_Metadata dag) (default RawEmpty (nd_Config <$> target));
              Ok (Some (mkRetryContext policy target (n ← target; nodeOnFailureConfig (nd_NodeType n) (nd_Config n)))))
    end.

Definition resolveDAGRetryPolicy (dagKey nodeKey : string) (runID : Z) : IO (result error (option RetryPolicy)) :=
  ctx ← resolveDAGRetryContext dagKey nodeKey runID;
  mret (match ctx with Ok ctx => Ok (rx_policy <$> ctx) | Err e => Err e end).

Definition retryPolicyFailFast (w : Wakeup) (lastErr : string) : IO (bool * string) :=
  policy ← resolveDAGRetryPolicy (wk_DagKey w) (wk_NodeKey w) (routeRunID w);
  mret (match policy with
        | Ok policy => (match policy with Some p => FailFast p | None => false end, lastErr)
        | Err e => (false, truncateWakeupError ("retry policy invalid: " +:+ Error e +:+ ": " +:+ lastErr))
        end).

Definition failSmartRetry (w : Wakeup) (reason : string) (failFast : bool) : IO bool := markPermanentDAGFailure w reason failFast.

Definition failSmartRetryPrepare (w : Wakeup) (err : error) (failFast : bool) : IO bool :=
  failSmartRetry w (truncateWakeupError ("smart retry prepare failed: " +:+ Error err)) failFast.

Definition failUnsupportedSmartRetryStrategy (w : Wakeup) (failure : dispatchFailure) (strategy : string) (failFast : bool) : IO bool :=
  failSmartRetry w (truncateWakeupError ("unsupported smart retry strategy " +:+ Quote strategy +:+ ": " +:+ df_lastErr failure)) failFast.

(** *** Retrying *)

Definition handleRetryHardCap (w : Wakeup) (failure : dispatchFailure) : IO bool :=
  let exhaustedErr := "retry attempts exhausted: " +:+ df_lastErr failure in
  if isDAGWakeup w then
    '(failFast, resolvedErr) ← retryPolicyFailFast w exhaustedErr;
    markPermanentDAGFailure w resolvedErr failFast
  else markPermanentFail w exhaustedErr.

Definition retry_input (w : Wakeup) (lastErr : string) (maxAttempts : Z) : RetryWakeupInput :=
  mkRetry (dc_RetryInterval (wd_cfg d)) lastErr maxAttempts (wakeup_fence w).

Definition retryWakeup (w : Wakeup) (failure : dispatchFailure) : IO bool :=
  rows ← settle_with Retried w (fun now => RetryWakeup now (retry_input w (df_lastErr failure) (dc_MaxRetryAttempts (wd_cfg d))));
  match rows with
  | Err _ => mret false
  | Ok 0 => handleRetryHardCap w failure
  | Ok _ => mret true
  end.

Definition tryDAGFailWithCascade (w : Wakeup) (failure : dispatchFailure) : IO (option bool) :=
  policy ← resolveDAGRetryPolicy (wk_DagKey w) (wk_NodeKey w) (routeRunID w);
  match policy with
  | Err e => handled ← failSmartRetryPrepare w e false; mret (Some handled)
  | Ok None => mret None
  | Ok (Some policy) =>
      if (wk_AttemptCount w <? MaxAttempts policy)%Z then mret None
      else handled ← markPermanentDAGFailure w ("max attempts reached: " +:+ df_lastErr failure) (FailFast policy); mret (Some handled)
  end.

Definition markTransientRetry (w : Wakeup) (failure : dispatchFailure) : IO bool :=
  decided ← if negb (String.eqb (wk_DagKey w) EmptyString) && negb (String.eqb (wk_NodeKey w) EmptyString)
            then tryDAGFailWithCascade w failure else mret None;
  match decided with
  | Some handled => mret handled
  | None => retryWakeup w failure
  end.

(** *** Strategies *)

Definition retryWakeupWithSmartRetryConfig (w : Wakeup) (failure : dispatchFailure) (node : Node) (config : RawMessage) (failFast : bool) : IO bool :=
  rows ← settle_with Retried w (fun now =>
           RetryWakeupWithNodeConfigPatch json_ok now same_config (retry_input w (df_lastErr failure) 0)
             (mkConfigPatch (nd_DagKey node) (nd_NodeKey node) (taskNodeRunID node) config (nd_Config node)));
  match rows with
  | Err e => failSmartRetryPrepare w e failFast
  | Ok 0 => handleRetryHardCap w failure
  | Ok _ => mret true
  end.

Definition escalateModelAndRetry (w : Wakeup) (failure : dispatchFailure) (node : Node) (cfg : option OnFailureConfig) (failFast : bool) : IO bool :=
  if negb (String.eqb (resolveNodeType (nd_NodeType node)) "agent")
  then failSmartRetryPrepare w (Errorf [] (Sprintf "escalate_model unsupported for node_type %q" [nd_NodeType node])) failFast
  else match EscalationModelFor cfg (currentAgentModel (nd_Config node)) with
       | None => failSmartRetry w ("escalation chain exhausted: " +:+ df_lastErr failure) failFast
       | Some next =>
           match patchAgentExecModel (nd_Config node) next with
           | Err e => failSmartRetryPrepare w e failFast
           | Ok updated =>
               let lastErr := truncateWakeupError ("strategy=escalate_model model=" +:+ next +:+ ": " +:+ df_lastErr failure) in
               retryWakeupWithSmartRetryConfig w (mkFailure lastErr (df_outcome failure)) node updated failFast
           end
       end.

Definition appendValidationErrorAndRetry (w : Wakeup) (failure : dispatchFailure) (node : Node) (failFast : bool) : IO bool :=
  if negb (String.eqb (resolveNodeType (nd_NodeType node)) "agent")
  then failSmartRetryPrepare w (Errorf [] (Sprintf "append_error unsupported for node_type %q" [nd_NodeType node])) failFast
  else match appendAgentValidationDiagnostic (nd_Config node) (no_ErrorSummary (df_outcome failure)) with
       | Err e => failSmartRetryPrepare w e failFast
       | Ok updated =>
           let lastErr := truncateWakeupError ("strategy=append_error: " +:+ df_lastErr failure) in
           retryWakeupWithSmartRetryConfig w (mkFailure lastErr (df_outcome failure)) node updated failFast
       end.

Definition replanPlannerAgentKey : string := "dag_designer".

Definition launch_wakeup (launcher : WakeupLauncher) (req : LaunchRequest) : IO (option error) :=
  _ ← emit (LaunchAsked req); ask (fun i => launcher i req).

Definition spawnReplanPlanner (w : Wakeup) (failure : dispatchFailure) (node : Node) (failFast : bool) : IO bool :=
  match wd_launcher d with
  | None => failSmartRetryPrepare w (plain_error "replan planner unavailable") failFast
  | Some launcher =>
      match ValidateLaunchCWDForNodeConfig (resolveNodeType (nd_NodeType node)) (nd_Config node) with
      | Err e => failSmartRetryPrepare w (Errorf (err_is e) (Sprintf "replan planner cwd unavailable: %w" [])) failFast
      | Ok cwd =>
          agentID ← ask new_agent_id;
          failed ← launch_wakeup launcher
            (mkLaunchRequest agentID (sanitizeReplanLaunchName (wk_DagKey w) (wk_NodeKey w)) (buildReplanPlannerPrompt w (df_outcome failure))
               EmptyString EmptyString EmptyString EmptyString "agent" replanPlannerAgentKey EmptyString EmptyString cwd EmptyString [] []);
          match failed with
          | Some e => failSmartRetryPrepare w (Errorf (err_is e) (Sprintf "replan planner launch failed: %w" [])) failFast
          | None => markLaunched w
          end
      end
  end.

Definition dispatchSmartRetryAction (w : Wakeup) (failure : dispatchFailure) (ctx : dagRetryContext) (node : Node) (strategy : string) : IO bool :=
  let failFast := FailFast (rx_policy ctx) in
  if String.eqb strategy OnFailureRetry then retryWakeup w failure
  else if String.eqb strategy OnFailureEscalateModel then escalateModelAndRetry w failure node (rx_onFailure ctx) failFast
  else if String.eqb strategy OnFailureAppendError then appendValidationErrorAndRetry w failure node failFast
  else if String.eqb strategy OnFailureReplan then spawnReplanPlanner w failure node failFast
  else mret false.

Definition smart_retry_preflight (w : Wakeup) (ctx : dagRetryContext) (strategy : string) : bool :=
  String.eqb strategy OnFailureFailFast || negb (smartRetryStrategyImplemented strategy)
  || (MaxAttemptsFor (rx_onFailure ctx) <=? wk_AttemptCount w)%Z.

Definition handleSmartRetryPreflight (w : Wakeup) (failure : dispatchFailure) (ctx : dagRetryContext) (strategy : string) : IO bool :=
  let failFast := FailFast (rx_policy ctx) in
  if String.eqb strategy OnFailureFailFast then failSmartRetry w (df_lastErr failure) true
  else if negb (smartRetryStrategyImplemented strategy) then failUnsupportedSmartRetryStrategy w failure strategy failFast
  else if (MaxAttemptsFor (rx_onFailure ctx) <=? wk_AttemptCount w)%Z
  then failSmartRetry w ("max attempts reached: " +:+ df_lastErr failure) failFast
  else mret false.

(** Whether the strategies of the node took over, and the result. *)
Definition trySmartDAGRetry (w : Wakeup) (failure : dispatchFailure) : IO (option bool) :=
  if negb (isDAGWakeup w) then mret None
  else
    ctx ← resolveDAGRetryContext (wk_DagKey w) (wk_NodeKey w) (routeRunID w);
    match ctx with
    | Err e => handled ← failSmartRetryPrepare w e false; mret (Some handled)
    | Ok None => mret None
    | Ok (Some ctx) =>
        match rx_node ctx, rx_onFailure ctx with
        | Some node, Some onFailure =>
            match smartRetryStrategyFor (Some onFailure) (no_FailureClass (df_outcome failure)) with
            | None => mret None
            | Some strategy =>
                handled ← if smart_retry_preflight w ctx strategy then handleSmartRetryPreflight w failure ctx strategy
                          else dispatchSmartRetryAction w failure ctx node strategy;
                mret (Some handled)
            end
        | _, _ => mret None
        end
    end.

Definition recordPermanentRouterFailure (w : Wakeup) (lastErr : string) : IO bool :=
  '(failFast, lastErr) ← retryPolicyFailFast w lastErr;
  markPermanentDAGFailure w lastErr failFast.

Definition handleFailedRouterOutcome (w : Wakeup) (outcome : NodeOutcome) : IO bool :=
  let lastErr := truncateWakeupError (no_FailureClass outcome +:+ ": " +:+ no_ErrorSummary outcome) in
  let failure := mkFailure lastErr outcome in
  if nonRetryableValidationFailure outcome then recordPermanentRouterFailure w lastErr
  else
    tried ← trySmartDAGRetry w failure;
    match tried with
    | Some handled => mret handled
    | None =>
        if negb (failureOutcomePermanent outcome) then markTransientRetry w failure
        else recordPermanentRouterFailure w lastErr
    end.

(** *** Routing under the heartbeat *)

(** The result of the route, the wakeup as last renewed, and the error that ended the
    heartbeat. *)
Definition routeClaimedWithLeaseHeartbeat (router : NodeExecutorRouter) (wakeup : Wakeup)
  : IO ((NodeOutcome * option error) * Wakeup * option error) :=
  _ ← set_lease (Some (wakeup, dc_LeaseInterval (wd_cfg d)));
  _ ← set_canceled None;
  routed ← RouteByWakeup router wakeup;
  _ ← heartbeats;
  world ← get_world;
  _ ← set_lease None;
  _ ← set_canceled None;
  mret (routed, match w_lease world with Some (latest, _) => latest | None => wakeup end, w_canceled world).

Definition handleClaimedViaRouter (w : Wakeup) : IO bool :=
  if (routeRunID w <=? 0)%Z then markPermanentFail w "dag wakeup missing run_id for runtime node dispatch"
  else match wd_nodeRouter d with
  | None =>
      let lastErr := "dag wakeup missing node router for runtime node dispatch" in
      markTransientRetry w (mkFailure lastErr (failedWakeupOutcome lastErr))
  | Some router =>
      '((outcome, err), w, heartbeatErr) ← routeClaimedWithLeaseHeartbeat router w;
      match heartbeatErr, err with
      | Some _, _ => mret false
      | None, Some err =>
          let lastErr := truncateWakeupError (Error err) in
          let failure := mkFailure lastErr (failedWakeupOutcome lastErr) in
          if errors_Is err errAgentReadyRunningWriteFailed then retryWakeup w failure else markTransientRetry w failure
      | None, None =>
          if String.eqb (no_Status outcome) "failed" then handleFailedRouterOutcome w outcome else markLaunched w
      end
  end.

(** *** One claimed wakeup *)

Definition Complete (w : Wakeup) : IO CompleteOutcome :=
  match CompleteInput w with
  | Err e => mret (CompleteInvalid e)
  | Ok input =>
      res ← call (fun now => CompleteNodeAndScheduleDownstream byte_len (time_text now) (sql_ms now) json_ok reencode input);
      mret (match res with
            | Ok _ => CompleteSucceeded
            | Err e => if errors_Is e ErrNotFound then CompleteAlreadyTerminal else CompleteRetry e
            end)
  end.

Definition handleTurnCompletionRetryWakeup (w : Wakeup) : IO bool :=
  res ← Complete w;
  match res with
  | CompleteSucceeded | CompleteAlreadyTerminal => markLaunched w
  | CompleteRetry e =>
      let lastErr := truncateWakeupError ("turn.completed completion retry failed: " +:+ Error e) in
      retryWakeup w (mkFailure lastErr (failedWakeupOutcome lastErr))
  | CompleteInvalid e =>
      markPermanentDAGFailure w (truncateWakeupError ("turn.completed completion retry invalid: " +:+ Error e)) true
  end.

Definition handleClaimedViaLegacyLauncher (launcher : WakeupLauncher) (w : Wakeup) : IO bool :=
  match buildLaunchRequestFromWakeup byte_len w with
  | Err e => markPermanentFail w (truncateWakeupError (Error e))
  | Ok req =>
      failed ← launch_wakeup launcher req;
      match failed with
      | None => markLaunched w
      | Some e =>
          let lastErr := truncateWakeupError (Error e) in
          match Classify Error (Some e) with
          | ClassPermanent => markPermanentFail w lastErr
          | _ => markTransientRetry w (mkFailure lastErr (failedWakeupOutcome lastErr))
          end
      end
  end.

Definition handleClaimed (launcher : WakeupLauncher) (w : Wakeup) : IO bool :=
  match validateWakeupDispatchEnvelope w with
  | Err e => markPermanentFail w (truncateWakeupError (Error e))
  | Ok _ =>
      if String.eqb (TrimSpace (wk_Kind w)) TerminalFailureCompensationKind
      then markPermanentFail w "terminal_failure_compensation is consume-only and cannot launch an agent"
      else if IsWakeup w then handleTurnCompletionRetryWakeup w
      else if shouldRouteThroughNodeExecutor w then
        match wk_RunID w with
        | None => handleClaimedViaRouter w
        | Some _ =>
            renewed ← call (fun now => RenewClaimedWakeupLease now w (dc_LeaseInterval (wd_cfg d)));
            match renewed with
            | Err _ => mret false
            | Ok renewed => handleClaimedViaRouter renewed
            end
        end
      else handleClaimedViaLegacyLauncher launcher w
  end.

(** ** A batch *)

Definition claim_batch : IO (result error (list Wakeup)) :=
  claimed ← call (fun now => ClaimDueWakeups now (mkClaimDue (dc_ClaimedBy (wd_cfg d)) (dc_LeaseInterval (wd_cfg d)) (dc_BatchLimit (wd_cfg d))));
  mret (map_err (fun e => Errorf (err_is e) (Sprintf "wakeup dispatcher: claim due wakeups: %w" [])) claimed).

Fixpoint handle_batch (launcher : WakeupLauncher) (claimed : list Wakeup) : IO nat :=
  match claimed with
  | [] => mret 0
  | w :: claimed =>
      handled ← handleClaimed launcher w;
      rest ← handle_batch launcher claimed;
      mret (Nat.b2n handled + rest)
  end.

Definition Tick : IO (result error nat) :=
  claimed ← claim_batch; mret (match claimed with Ok l => Ok (length l) | Err e => Err e end).

Definition ProcessBatch : IO (result error nat) :=
  match wd_launcher d with
  | None => Tick
  | Some launcher =>
      claimed ← claim_batch;
      match claimed with
      | Err e => mret (Err e)
      | Ok claimed => handled ← handle_batch launcher claimed; mret (Ok handled)
      end
  end.
End dispatcher.
Arguments mkDispatcher {_} _ _ _.
