(* ===== verification/DispatchSafety.v ===== *)
(** * What the dispatcher does with a claim

    Theorems on [Dispatcher], [NodeRouter] and [AgentExecutor] that hold in every
    environment: whatever the clock, the failures of the store, the acts of other
    processes and the ticks of the heartbeat. *)

From S2P Require Import Prelude GoStrings Json DagStore NodeConfig WakeupPayload RunStore WakeupLease RetryPolicy Effects AgentExecutor NodeRouter Dispatcher.

(** ** Events *)

Definition is_settle (e : event) : bool := match e with Settled _ _ _ => true | _ => false end.

(** A settlement that found its row. *)
Definition effective (e : event) : bool := match e with Settled _ _ (S _) => true | _ => false end.

Definition unsettling (e : event) : Prop := is_settle e = false.

(** The lease of the route stays the lease of this wakeup. *)
Definition lease_of (id : Z) (w : world) : Prop := match w_lease w with Some (l, _) => wk_ID l = id | None => True end.

(** What may run inside a route: it settles no wakeup, and changes the lease only by
    renewing it. *)
Definition polite {A} (m : IO A) : Prop := only unsettling m /\ forall id w, lease_of id w -> lease_of id (m w).2.

Lemma polite_bind {A B} (m : IO A) (f : A -> IO B) : polite m -> (forall a, polite (f a)) -> polite (m ≫= f).
Proof.
  intros [H1 H2] Hf. split; [apply only_bind; [done|]; intros a; apply Hf|]. intros id w Hw. unfold mbind, IO_bind.
  specialize (H2 id w Hw). destruct (m w) as [a w1]. by apply Hf.
Qed.

Lemma polite_ret {A} (a : A) : polite (mret a).
Proof. split; [apply only_ret|done]. Qed.
Lemma polite_get_world : polite get_world.
Proof. split; [apply only_silent, silent_get_world|done]. Qed.
Lemma polite_ask {A} (f : nat -> A) : polite (ask f).
Proof. split; [apply only_silent, silent_ask|done]. Qed.
Lemma polite_set_captured t : polite (set_captured t).
Proof. split; [apply only_silent, silent_set_captured|done]. Qed.
Lemma polite_set_canceled e : polite (set_canceled e).
Proof. split; [apply only_silent, silent_set_canceled|done]. Qed.
Lemma polite_emit e : is_settle e = false -> polite (emit e).
Proof. intros He. split; [by apply only_emit|done]. Qed.

#[export] Hint Resolve polite_ret polite_get_world polite_ask polite_set_captured polite_set_canceled : io.
#[export] Hint Extern 1 (polite (emit _)) => apply polite_emit; reflexivity : io.

(** Walks through a program. *)
Ltac io_polite :=
  repeat first
    [ solve [auto with io]
    | match goal with |- polite (mbind _ _) => apply polite_bind; [|intros] end
    | case_match ].

Section polite_calls.
Context `{EN : Env}.

Lemma call_lease {A} (m : Z -> M A) w : w_lease (call m w).2 = w_lease w.
Proof. unfold call. by repeat case_match. Qed.

Lemma polite_call {A} (m : Z -> M A) : polite (call m).
Proof. split; [apply only_silent, silent_call|]. intros id w. unfold lease_of. by rewrite call_lease. Qed.
Hint Resolve polite_call : io.

Lemma Update_id current renewed u : ClaimedWakeupLease_Update current renewed = Ok u -> wk_ID u = wk_ID current.
Proof.
  unfold ClaimedWakeupLease_Update, validateRenewedWakeupIdentity. destruct (wk_ID renewed =? wk_ID current)%Z eqn:E; [|done].
  apply Z.eqb_eq in E. cbn [negb]. intros Hu. go_ok. done.
Qed.

Lemma renew_lease interval current w : lease_of (wk_ID current) w -> lease_of (wk_ID current) (renewClaimedWakeup interval current w).2.
Proof.
  intros Hw. unfold renewClaimedWakeup, mbind, IO_bind.
  pose proof (call_lease (fun now => RenewClaimedWakeupLease now current interval) w) as Hc.
  destruct (call _ w) as [renewed w1]. cbn in Hc. assert (lease_of (wk_ID current) w1) as Hw1.
  { unfold lease_of in *. by rewrite Hc. }
  destruct renewed as [renewed|e]; [|exact Hw1]. destruct (ClaimedWakeupLease_Update current renewed) eqn:Hu; [|exact Hw1].
  cbn. by eapply Update_id.
Qed.

Lemma waiting_lease l id w : lease_of id w -> lease_of id (waiting_loop l w).2.
Proof.
  revert w. induction l as [|t l IH]; intros w Hw; [done|]. cbn [waiting_loop]. unfold mbind, IO_bind, get_world. cbn.
  destruct (w_canceled w); [done|]. destruct (w_lease w) as [[current interval]|] eqn:El; [|done].
  destruct t; [|exact Hw]. assert (id = wk_ID current) as -> by (unfold lease_of in Hw; by rewrite El in Hw).
  pose proof (renew_lease interval current w Hw) as Hr. destruct (renewClaimedWakeup interval current w) as [[e|] w1]; [exact Hr|].
  by apply IH.
Qed.

Lemma polite_heartbeats : polite heartbeats.
Proof.
  split; [apply only_silent, silent_heartbeats|]. intros id w Hw. unfold heartbeats, mbind, IO_bind, get_world. cbn.
  by apply waiting_lease.
Qed.

Lemma polite_route_call {A} (m : option WakeupFence -> Z -> M A) : polite (route_call m).
Proof. unfold route_call. apply polite_bind; [apply polite_heartbeats|]. intros _. io_polite. Qed.
End polite_calls.
#[export] Hint Resolve polite_call polite_route_call : io.

(** ** Interfaces

    What the router asks of an executor of automation nodes, and an executor of a
    launcher. *)

Class AutomationLaw `{EN : Env} (x : AutomationExec) : Prop :=
  automation_polite : forall node ctx timeout, polite (x node ctx timeout).

Class LauncherLaw `{EN : Env} (l : AgentLauncher) : Prop := {
  launch_polite req : polite (LaunchAgent l req);
  validate_polite f req dagKey nodeKey : ValidateDAGAgentLaunch l = Some f -> polite (f req dagKey nodeKey);
  launch_record_polite f req record :
    LaunchAgentWithSpawnRecord l = Some f -> (forall t, polite (record t)) -> polite (f req record);
  stop_polite f thread : StopLaunchedThread l = Some f -> polite (f thread);
}.

Class RouterLaw `{EN : Env} (r : NodeExecutorRouter) : Prop := {
  router_auto x : ro_autoExec r = Some x -> AutomationLaw x;
  router_launcher e l : ro_agentExec r = Some e -> ae_launcher e = Some l -> LauncherLaw l;
}.

Class DispatcherLaw `{EN : Env} (d : WakeupDispatcher) : Prop := dispatcher_router r : wd_nodeRouter d = Some r -> RouterLaw r.

Section service_law.
Context `{EN : Env}.
Context (lc : Lifecycle).

Lemma finish_polite attempt res err : polite (finishLauncherLaunch lc attempt res err).
Proof.
  unfold finishLauncherLaunch, lookupAgentBySeqLocked, discardStaleLaunchResult, failLauncherLaunchLocked, completeLauncherLaunchLocked, rekeyLaunchedAgentLocked,
    commitLaunchFailureLocked, stop_runtime. io_polite.
Qed.
Hint Resolve finish_polite : io.

Lemma launchWithRetry_polite attempt n lastErr req : polite (launchWithRetry lc attempt n lastErr req).
Proof.
  revert lastErr. induction n as [|n IH]; intros lastErr; cbn [launchWithRetry]; unfold finish_failed; io_polite; apply IH.
Qed.

Lemma stop_agent_polite id t : polite (stop_agent lc id t).
Proof. unfold stop_agent. io_polite. Qed.

Lemma snapshot_polite req before : (forall t, polite (before t)) -> polite (launchAgentSnapshot lc req before).
Proof.
  intros Hb. unfold launchAgentSnapshot, launchAgentUntilStarted, submitInitialLaunchPromptOrStop.
  io_polite; try apply Hb; try apply launchWithRetry_polite; apply stop_agent_polite.
Qed.

Lemma launch_with_record_polite req record : (forall t, polite (record t)) -> polite (service_LaunchAgentWithSpawnRecord lc req record).
Proof.
  intros Hr. unfold service_LaunchAgentWithSpawnRecord. apply polite_bind; [by apply snapshot_polite|]. intros [? ?]. io_polite.
Qed.

#[export] Instance service_law : LauncherLaw (serviceAgentLauncher lc).
Proof.
  split; cbn.
  - intros req. apply launch_with_record_polite. intros. apply polite_ret.
  - intros f req dagKey nodeKey [= <-]. apply polite_ret.
  - intros f req record [= <-] Hr. by apply launch_with_record_polite.
  - intros f thread [= <-]. unfold service_StopLaunchedThread. io_polite.
Qed.
End service_law.

(** ** A route settles nothing *)

Section route.
Context `{EN : Env}.

Lemma recordSpawn_polite e node ctx t : polite (recordSpawn e node ctx t).
Proof. unfold recordSpawn, recorder_RecordNodeSpawn. io_polite. Qed.

Lemma stopLaunched_polite l t cause : LauncherLaw l -> polite (stopLaunchedThreadAfterWritebackFailure l t cause).
Proof.
  intros Hl. unfold stopLaunchedThreadAfterWritebackFailure. case_match eqn:Hs; [|apply polite_ret].
  apply polite_bind; [by eapply stop_polite|]. intros. io_polite.
Qed.

Lemma from_files_polite reader paths : polite (from_files_text reader paths).
Proof. induction paths as [|p paths IH]; [apply polite_ret|]. cbn [from_files_text]. io_polite; apply IH. Qed.
Hint Resolve from_files_polite : io.

Lemma assembleInputs_polite cfg ctx node : polite (assembleInputs cfg ctx node).
Proof. unfold assembleInputs, collectInputSections, loadFromSharedfiles. io_polite. Qed.
Hint Resolve assembleInputs_polite : io.

Lemma launchAgent_polite e l req node ctx : LauncherLaw l -> polite (launchAgent e l req node ctx).
Proof.
  intros Hl. unfold launchAgent. apply polite_bind.
  { case_match eqn:Hv; [|apply polite_ret]. case_match. by eapply validate_polite. }
  intros [err|]; [apply polite_ret|]. destruct (ae_recorder e); [|apply launch_polite].
  case_match eqn:Hr; [|apply launch_polite]. eapply launch_record_polite; [exact Hr|].
  intros t. unfold record_callback. apply polite_bind; [apply recordSpawn_polite|]. intros [? ?]. apply polite_ret.
Qed.

Lemma agentLaunchOutcome_polite e l node ctx t err : LauncherLaw l -> polite (agentLaunchOutcome e l node ctx t err).
Proof.
  intros Hl. unfold agentLaunchOutcome, successfulAgentLaunchOutcome, spawnWriteback. io_polite;
    auto using recordSpawn_polite, stopLaunched_polite.
Qed.

Lemma Execute_polite e node ctx : (forall l, ae_launcher e = Some l -> LauncherLaw l) -> polite (AgentExecutor_Execute e node ctx).
Proof.
  intros Hl. unfold AgentExecutor_Execute. io_polite; [by apply launchAgent_polite, Hl|by apply agentLaunchOutcome_polite, Hl].
Qed.

Lemma advance_polite dagKey nodeKey runID f : polite (advanceAgentNodeToRunning dagKey nodeKey runID f).
Proof. unfold advanceAgentNodeToRunning. io_polite. Qed.
Hint Resolve advance_polite : io.

Lemma listRouteNodes_polite dagKey runID : polite (listRouteNodes dagKey runID).
Proof. unfold listRouteNodes. io_polite. Qed.
Hint Resolve listRouteNodes_polite : io.

Lemma buildRunContext_polite r dagKey nodeKey runID nodeType cfg : polite (buildRunContext r dagKey nodeKey runID nodeType cfg).
Proof. unfold buildRunContext, prefetchPrevResults, resolveRunExecutionTimeout. io_polite. Qed.
Hint Resolve buildRunContext_polite : io.

Lemma lookup_polite dagKey nodeKey runID : polite (lookupTargetNode dagKey nodeKey runID).
Proof. unfold lookupTargetNode. io_polite. Qed.
Hint Resolve lookup_polite : io.

Context (r : NodeExecutorRouter) `{Hr : !RouterLaw r}.

Lemma dispatchAgent_polite node ctx f : polite (dispatchAgent r node ctx f).
Proof.
  unfold dispatchAgent, dispatchRecordedAgentSpawn. io_polite.
  - apply Execute_polite. intros l Hl. by eapply router_launcher.
  - apply stopLaunched_polite. by eapply router_launcher.
Qed.

Lemma dispatchAutomation_polite node ctx t f : polite (dispatchAutomation r node ctx t f).
Proof. unfold dispatchAutomation, completeAutomationNode. io_polite. apply (router_auto (r := r)); assumption. Qed.

Lemma RouteByWakeup_polite w : polite (RouteByWakeup r w).
Proof. unfold RouteByWakeup, dispatchByNodeType. io_polite; auto using dispatchAgent_polite, dispatchAutomation_polite. Qed.
End route.

(** ** One claim, one settlement *)

Definition about (id : Z) (e : event) : Prop := match e with Settled _ i _ => i = id | _ => True end.

(** The settlements are of this wakeup, and as many took effect as the result says. *)
Definition settled (id : Z) (b : bool) (evs : list event) : Prop :=
  length (List.filter effective evs) = Nat.b2n b /\ Forall (about id) evs.

(** The same where the decision may be left to the caller. *)
Definition settled_opt (id : Z) (o : option bool) (evs : list event) : Prop := settled id (default false o) evs.

Lemma unsettling_settled id evs : Forall unsettling evs -> settled id false evs.
Proof.
  intros Hevs. induction Hevs as [|e evs He Hevs [IH1 IH2]]; [done|]. split.
  - cbn. destruct e; done.
  - constructor; [by destruct e|done].
Qed.

Lemma settled_app id b e1 e2 : settled id false e1 -> settled id b e2 -> settled id b (e1 ++ e2).
Proof.
  intros [H1 H2] [H3 H4]. split; [|by apply Forall_app]. rewrite List.filter_app, length_app, H1, H3. done.
Qed.

Section settling.
Context `{EN : Env}.

Lemma settles_bind {A B} id (m : IO A) (f : A -> IO B) (Φ : B -> bool) :
  only unsettling m -> (forall a, emits (f a) (fun b evs => settled id (Φ b) evs)) ->
  emits (m ≫= f) (fun b evs => settled id (Φ b) evs).
Proof.
  intros Hm Hf. eapply emits_bind; [exact Hm|]. intros a e1 H1. eapply emits_mono; [apply Hf|]. cbn. intros b e2 H2.
  apply settled_app; [by apply unsettling_settled|done].
Qed.

(** A program whose value passes the result on. *)
Lemma settles_pass {A B} id (m : IO A) (f : A -> B) (Φ : A -> bool) (Ψ : B -> bool) :
  emits m (fun a evs => settled id (Φ a) evs) -> (forall a, Ψ (f a) = Φ a) ->
  emits (a ← m; mret (f a)) (fun b evs => settled id (Ψ b) evs).
Proof.
  intros Hm HΦ. eapply emits_bind; [exact Hm|]. intros a e1 H1. apply emits_ret. rewrite app_nil_r, HΦ. done.
Qed.

Lemma settles_ret_false {A} id (a : A) (Φ : A -> bool) : Φ a = false -> emits (mret a) (fun b evs => settled id (Φ b) evs).
Proof. intros Ha. apply emits_ret. rewrite Ha. by split. Qed.

Definition rows_hit (r : result error nat) : bool := match r with Ok (S _) => true | _ => false end.

Lemma settle_with_settles how w m : emits (settle_with how w m) (fun r evs => settled (wk_ID w) (rows_hit r) evs).
Proof.
  eapply emits_bind; [apply silent_call|]. intros [n|e] e1 ->; cbn [app]; [|apply emits_ret; by split].
  eapply emits_bind; [apply emits_emit|]. cbn. intros _ e2 ->. apply emits_ret. cbn. rewrite ?app_nil_r.
  split; [by destruct n|by repeat constructor].
Qed.

Local Abbreviation settles m id := (emits m (fun b evs => settled id b evs)).

Lemma markLaunched_settles w : settles (markLaunched w) (wk_ID w).
Proof. eapply settles_pass; [apply settle_with_settles|]. intros [[|n]|e]; done. Qed.

Lemma markPermanentFail_settles w e : settles (markPermanentFail w e) (wk_ID w).
Proof. eapply settles_pass; [apply settle_with_settles|]. intros [[|n]|err]; done. Qed.

Lemma markPermanentDAGFailure_settles w e b : settles (markPermanentDAGFailure w e b) (wk_ID w).
Proof.
  unfold markPermanentDAGFailure. case_match; [by apply (settles_ret_false _ _ (fun b => b))|].
  eapply settles_pass; [apply settle_with_settles|]. intros [[|n]|err]; done.
Qed.

Lemma retryContext_silent dagKey nodeKey runID : silent (resolveDAGRetryContext dagKey nodeKey runID).
Proof. unfold resolveDAGRetryContext. io_silent. Qed.
Hint Resolve retryContext_silent : io.

Lemma retryPolicy_silent dagKey nodeKey runID : silent (resolveDAGRetryPolicy dagKey nodeKey runID).
Proof. unfold resolveDAGRetryPolicy. io_silent. Qed.
Hint Resolve retryPolicy_silent : io.

Lemma failFast_silent w e : silent (retryPolicyFailFast w e).
Proof. unfold retryPolicyFailFast. io_silent. Qed.
Hint Resolve failFast_silent : io.

Lemma hardCap_settles w f : settles (handleRetryHardCap w f) (wk_ID w).
Proof.
  unfold handleRetryHardCap. case_match; [|apply markPermanentFail_settles].
  apply (settles_bind _ _ _ (fun b => b)); [apply only_silent; auto with io|]. intros [? ?]. apply markPermanentDAGFailure_settles.
Qed.

(** A retry that finds no row goes on, one that fails stops or goes on. *)
Lemma retried_settles w m (on_err : error -> IO bool) (on_zero : IO bool) :
  (forall e, settles (on_err e) (wk_ID w)) -> settles on_zero (wk_ID w) ->
  settles (rows ← settle_with Retried w m; match rows with Err e => on_err e | Ok 0 => on_zero | Ok _ => mret true end) (wk_ID w).
Proof.
  intros He Hz. eapply emits_bind; [apply settle_with_settles|]. intros [[|n]|e] e1 H1; cbn in H1.
  - eapply emits_mono; [exact Hz|]. cbn. intros b e2 H2. by apply settled_app.
  - apply emits_ret. by rewrite app_nil_r.
  - eapply emits_mono; [apply He|]. cbn. intros b e2 H2. by apply settled_app.
Qed.

Context (d : WakeupDispatcher).

Lemma retryWakeup_settles w f : settles (retryWakeup d w f) (wk_ID w).
Proof. apply retried_settles; [intros; by apply (settles_ret_false _ _ (fun b => b))|apply hardCap_settles]. Qed.

Lemma smartConfig_settles w f n c b : settles (retryWakeupWithSmartRetryConfig d w f n c b) (wk_ID w).
Proof. apply retried_settles; [intros; apply markPermanentDAGFailure_settles|apply hardCap_settles]. Qed.

Lemma transient_settles w f : settles (markTransientRetry d w f) (wk_ID w).
Proof.
  unfold markTransientRetry. eapply (emits_bind _ _ (settled_opt (wk_ID w))).
  - case_match; [|apply emits_ret; by split]. unfold tryDAGFailWithCascade.
    apply (settles_bind _ _ _ (fun o => default false o)); [apply only_silent; auto with io|]. intros [[policy|]|e].
    + case_match; [by apply emits_ret|]. eapply settles_pass; [apply markPermanentDAGFailure_settles|done].
    + by apply emits_ret.
    + eapply settles_pass; [apply markPermanentDAGFailure_settles|done].
  - intros [b|] e1 H1; [apply emits_ret; by rewrite app_nil_r|]. eapply emits_mono; [apply retryWakeup_settles|].
    cbn. intros b e2 H2. by apply settled_app.
Qed.

Lemma strategy_settles w f ctx n strategy : settles (dispatchSmartRetryAction d w f ctx n strategy) (wk_ID w).
Proof.
  unfold dispatchSmartRetryAction, escalateModelAndRetry, appendValidationErrorAndRetry, spawnReplanPlanner, failSmartRetryPrepare,
    failSmartRetry, launch_wakeup.
  repeat (case_match; auto using retryWakeup_settles, smartConfig_settles, markPermanentDAGFailure_settles, settles_ret_false).
  apply (settles_bind _ _ _ (fun b => b)); [apply polite_ask|]. intros agentID.
  apply (settles_bind _ _ _ (fun b => b)); [apply only_bind; [by apply only_emit|intros; apply polite_ask]|].
  intros [e|]; [apply markPermanentDAGFailure_settles|apply markLaunched_settles].
Qed.

Lemma preflight_settles w f ctx strategy : settles (handleSmartRetryPreflight w f ctx strategy) (wk_ID w).
Proof.
  unfold handleSmartRetryPreflight, failSmartRetry, failUnsupportedSmartRetryStrategy.
  repeat (case_match; auto using markPermanentDAGFailure_settles). by apply (settles_ret_false _ _ (fun b => b)).
Qed.

Lemma smart_settles w f : emits (trySmartDAGRetry d w f) (settled_opt (wk_ID w)).
Proof.
  unfold trySmartDAGRetry. case_match; [apply emits_ret; by split|].
  apply (settles_bind _ _ _ (fun o => default false o)); [apply only_silent; auto with io|]. intros [[ctx|]|e].
  - repeat (case_match; try by apply emits_ret).
    + eapply settles_pass; [apply preflight_settles|done].
    + eapply settles_pass; [apply strategy_settles|done].
  - by apply emits_ret.
  - eapply settles_pass; [apply markPermanentDAGFailure_settles|done].
Qed.

Lemma permanentRouter_settles w e : settles (recordPermanentRouterFailure w e) (wk_ID w).
Proof.
  apply (settles_bind _ _ _ (fun b => b)); [apply only_silent; auto with io|]. intros [? ?]. apply markPermanentDAGFailure_settles.
Qed.

Lemma failedOutcome_settles w outcome : settles (handleFailedRouterOutcome d w outcome) (wk_ID w).
Proof.
  unfold handleFailedRouterOutcome. case_match; [apply permanentRouter_settles|].
  eapply emits_bind; [apply smart_settles|]. intros [b|] e1 H1; [apply emits_ret; by rewrite app_nil_r|].
  case_match; (eapply emits_mono; [first [apply transient_settles | apply permanentRouter_settles]|]);
    cbn; intros b e2 Hs2; by apply settled_app.
Qed.

Context `{Hd : !DispatcherLaw d}.

(** The wakeup that comes back from a route is the one that went in. *)
Lemma heartbeat_unsettling r w : RouterLaw r ->
  emits (routeClaimedWithLeaseHeartbeat d r w) (fun res evs => Forall unsettling evs /\ wk_ID res.1.2 = wk_ID w).
Proof.
  intros Hr world. unfold routeClaimedWithLeaseHeartbeat, mbind, IO_bind. cbn.
  set (w1 := mkWorld _ _ _ None _ _).
  pose proof (RouteByWakeup_polite r w) as [Ho Hl]. destruct (Ho w1) as (evs & Hlog & Hevs).
  specialize (Hl (wk_ID w) w1 eq_refl). destruct (RouteByWakeup r w w1) as [routed w2]. cbn in *.
  pose proof polite_heartbeats as [Ho2 Hl2]. destruct (Ho2 w2) as (evs2 & Hlog2 & Hevs2). specialize (Hl2 (wk_ID w) w2 Hl).
  destruct (heartbeats w2) as [[] w3]. cbn in *. exists (evs ++ evs2). split; [by rewrite Hlog2, Hlog, app_assoc|].
  split; [by apply Forall_app|]. unfold lease_of in Hl2. destruct (w_lease w3) as [[l i]|]; done.
Qed.

Lemma viaRouter_settles w : settles (handleClaimedViaRouter d w) (wk_ID w).
Proof.
  unfold handleClaimedViaRouter. case_match; [apply markPermanentFail_settles|].
  destruct (wd_nodeRouter d) as [r|] eqn:Hr; [|apply transient_settles].
  eapply emits_bind; [by apply heartbeat_unsettling, Hd|]. intros [[[outcome err] w'] hb] e1 [H1 Hid]. cbn in Hid. rewrite <- Hid.
  cut (settles (match hb with
       | Some _ => mret false
       | None => match err with
                 | Some err => let lastErr := truncateWakeupError (Error err) in
                     let failure := mkFailure lastErr (failedWakeupOutcome lastErr) in
                     if errors_Is err errAgentReadyRunningWriteFailed then retryWakeup d w' failure else markTransientRetry d w' failure
                 | None => if String.eqb (no_Status outcome) "failed" then handleFailedRouterOutcome d w' outcome else markLaunched w'
                 end
       end) (wk_ID w')).
  { intros Hs. eapply emits_mono; [exact Hs|]. cbn. intros b e2 H2. apply settled_app; [by apply unsettling_settled|done]. }
  destruct hb; [by apply (settles_ret_false _ _ (fun b => b))|]. destruct err.
  - cbn zeta. case_match; [apply retryWakeup_settles|apply transient_settles].
  - case_match; [apply failedOutcome_settles|apply markLaunched_settles].
Qed.

Lemma renewed_id now w interval s r s' : RenewClaimedWakeupLease now w interval s = Ok (r, s') -> wk_ID r = wk_ID w.
Proof.
  unfold RenewClaimedWakeupLease, RenewWakeupLease. intros Hr. tx_ok. cbn beta iota in *.
  repeat (case_match; tx_ok); cbn beta iota in *; tx_ok; simplify_eq.
  unfold GetTaskDagWakeup in *. tx_ok. match goal with Hf : List.find _ _ = Some _ |- _ => apply find_some in Hf as [_ Hf] end.
  go_bool. done.
Qed.
End settling.

(** The groups of events of a batch, one per wakeup, with the results. *)
Inductive batch_log : list Wakeup -> nat -> list event -> Prop :=
| batch_nil : batch_log [] 0 []
| batch_cons w l b n e1 e2 :
    settled (wk_ID w) b e1 -> batch_log l n e2 -> batch_log (w :: l) (Nat.b2n b + n) (e1 ++ e2).

Section batch.
Context `{EN : Env} (d : WakeupDispatcher) `{Hd : !DispatcherLaw d}.

Lemma completion_settles w : emits (handleTurnCompletionRetryWakeup d w) (fun b evs => settled (wk_ID w) b evs).
Proof.
  apply (settles_bind _ _ _ (fun b => b)).
  - unfold Complete. io_only.
  - intros [| |e|e]; auto using markLaunched_settles, retryWakeup_settles, markPermanentDAGFailure_settles.
Qed.

Lemma legacy_settles launcher w : emits (handleClaimedViaLegacyLauncher d launcher w) (fun b evs => settled (wk_ID w) b evs).
Proof.
  unfold handleClaimedViaLegacyLauncher, launch_wakeup. case_match; [|apply markPermanentFail_settles].
  apply (settles_bind _ _ _ (fun b => b)); [apply only_bind; [by apply only_emit|intros; apply polite_ask]|].
  intros [e|]; [|apply markLaunched_settles]. case_match; auto using markPermanentFail_settles, transient_settles.
Qed.

(** A call whose answer is known to satisfy [P]. *)
Lemma emits_call_bind {A B} (m : Z -> M A) (f : result error A -> IO B) (P : A -> Prop) Ψ :
  (forall now s a s', m now s = Ok (a, s') -> P a) -> (forall e, emits (f (Err e)) Ψ) -> (forall a, P a -> emits (f (Ok a)) Ψ) ->
  emits (call m ≫= f) Ψ.
Proof.
  intros HP He Ha w. unfold mbind, IO_bind. destruct (silent_call m w) as (evs & Hlog & ->). rewrite app_nil_r in Hlog.
  assert (match (call m w).1 with Ok a => P a | Err _ => True end) as Hok.
  { unfold call. destruct (fault _); [done|]. destruct (m _ _) as [[a s']|] eqn:Hm; [cbn; eauto|done]. }
  destruct (call m w) as [[a|e] w1]; cbn in *; rewrite <- Hlog; [by apply Ha|apply He].
Qed.

Lemma handleClaimed_settles launcher w : emits (handleClaimed d launcher w) (fun b evs => settled (wk_ID w) b evs).
Proof.
  unfold handleClaimed. case_match; [|apply markPermanentFail_settles].
  repeat (case_match; auto using markPermanentFail_settles, completion_settles, legacy_settles, viaRouter_settles).
  eapply emits_call_bind; [intros now s a0 s'; apply renewed_id|intros; by apply (settles_ret_false _ _ (fun b => b))|].
  intros renewed <-. by apply viaRouter_settles.
Qed.

(** C15: the settlement of a batch.  In every environment, whatever other processes do
    between the calls, the events of a batch fall into one group per claimed wakeup;
    in its group a wakeup that is reported handled has exactly one settlement that took
    effect, one that is not has none, no group settles another wakeup, and the number
    returned is the number of wakeups settled. *)
Theorem batch_settles_each launcher claimed :
  emits (handle_batch d launcher claimed) (fun n evs => batch_log claimed n evs).
Proof.
  induction claimed as [|w l IH]; [apply emits_ret; constructor|]. cbn [handle_batch].
  eapply emits_bind; [apply handleClaimed_settles|]. intros b e1 H1. eapply emits_bind; [exact IH|]. intros n e2 H2.
  apply emits_ret. rewrite app_nil_r. by constructor.
Qed.
End batch.

(** ** Which wakeups have effects *)

(** The rows whose kind, identity columns and payload agree. *)
Definition executable (byte_len : RawMessage -> Z) (w : Wakeup) : Prop :=
  wk_PayloadSchemaVersion w = 1%Z
  /\ ValidateWakeupPayloadForKind byte_len (wk_Kind w) (wk_TargetAgentID w) (wk_PromptPayload w) = Ok tt
  /\ (TrimSpace (wk_Kind w) = "start" /\ TrimSpace (wk_DagKey w) = EmptyString /\ TrimSpace (wk_NodeKey w) = EmptyString /\ wk_RunID w = None
      \/ TrimSpace (wk_Kind w) ∈ ["node_start"; "manual_dispatch"]
         /\ TrimSpace (wk_DagKey w) <> EmptyString /\ TrimSpace (wk_NodeKey w) <> EmptyString
         /\ exists id, wk_RunID w = Some id /\ (0 < id)%Z).

Definition settling (e : event) : Prop := is_settle e = true.

Section effects_of.
Context `{EN : Env} (d : WakeupDispatcher).

Lemma settle_with_settling how w m : only settling (settle_with how w m).
Proof.
  unfold settle_with. apply only_bind; [apply only_silent, silent_call|]. intros [n|e]; [|apply only_ret].
  apply only_bind; [by apply only_emit|intros; apply only_ret].
Qed.
Hint Resolve settle_with_settling retryContext_silent retryPolicy_silent failFast_silent : io.

Lemma permanentFail_settling w e : only settling (markPermanentFail w e).
Proof. unfold markPermanentFail. io_only. Qed.
Lemma permanentDAG_settling w e b : only settling (markPermanentDAGFailure w e b).
Proof. unfold markPermanentDAGFailure. io_only. Qed.
Hint Resolve permanentFail_settling permanentDAG_settling : io.

Lemma hardCap_settling w f : only settling (handleRetryHardCap w f).
Proof. unfold handleRetryHardCap. io_only. Qed.
Hint Resolve hardCap_settling : io.

Lemma completion_settling w : only settling (handleTurnCompletionRetryWakeup d w).
Proof. unfold handleTurnCompletionRetryWakeup, Complete, markLaunched, retryWakeup. io_only. Qed.

Lemma envelope_kinds w :
  validateWakeupDispatchEnvelope w = Ok tt -> TrimSpace (wk_Kind w) <> TerminalFailureCompensationKind -> IsWakeup w = false ->
  executable byte_len w.
Proof.
  unfold validateWakeupDispatchEnvelope, executable, IsWakeup. intros Hv Hnot Hcomp. go_ok. go_bool.
  unfold validateWakeupRowIdentity in *. split; [done|]. split; [done|].
  destruct (String.eqb (TrimSpace (wk_Kind w)) "start") eqn:Hs.
  - left. apply String.eqb_eq in Hs. unfold validateLegacyWakeupRowIdentity in *. go_ok. by go_bool.
  - right. destruct (str_in _ _) eqn:Hk; [|done]. apply str_in_elem in Hk. unfold validateDAGWakeupRowIdentity in *. go_ok. go_bool.
    destruct (wk_RunID w) as [id|]; [|done]. go_bool. split; [|by eauto].
    rewrite !elem_of_cons in *. destruct Hk as [->|[->|[Hk|[Hk|Hk]]]]; [auto..|done|done|by apply not_elem_of_nil in Hk].
Qed.

(** No effect without a valid envelope.  In every environment, a wakeup whose
    payload version, kind, identity columns and payload do not agree, a completion
    retry and a compensation record never reach a launcher, an executor or a command:
    handling them does nothing to the outside but settle wakeups. *)
Theorem executes_only_valid launcher w : ~ executable byte_len w -> only settling (handleClaimed d launcher w).
Proof.
  intros Hx. unfold handleClaimed. destruct (validateWakeupDispatchEnvelope w) as [[]|e] eqn:Hv; [|apply permanentFail_settling].
  destruct (String.eqb _ TerminalFailureCompensationKind) eqn:Hk; [apply permanentFail_settling|].
  destruct (IsWakeup w) eqn:Hc; [apply completion_settling|]. destruct Hx. apply envelope_kinds; [done|by apply String.eqb_neq|done].
Qed.

Lemma log_same (l : list event) e : l = l ++ [e] -> False.
Proof. intros Hl. apply (f_equal length) in Hl. rewrite length_app in Hl. cbn in Hl. lia. Qed.

Lemma update_wakeups_eq (p : Wakeup -> bool) g s :
  update_wakeups p g s =
    Ok (length (List.filter p (db_wakeups s)), with_wakeups s ((fun x => if p x then g x else x) <$> db_wakeups s)).
Proof. done. Qed.

Lemma update_none (p : Wakeup -> bool) g (l : list Wakeup) : List.filter p l = [] -> (fun x => if p x then g x else x) <$> l = l.
Proof.
  induction l as [|x l IH]; [done|]. cbn. destruct (p x); [done|]. intros Hl. by rewrite IH.
Qed.

(** C20: a malformed wakeup is failed and nothing else changes.  In every environment,
    when the envelope is rejected, the one call that is made fails the row under its
    fence (or loses the race, or fails): the DAGs, nodes and runs stay as other
    processes left them, every other wakeup too, and the row keeps its identity and
    attempts and has the reason as its last error. *)
Theorem invalid_envelope_inert launcher w e world :
  validateWakeupDispatchEnvelope w = Err e ->
  let '(handled, world') := handleClaimed d launcher w world in
  let s := other (w_step world) (w_db world) in
  let hit r := handled && held (clock (w_step world)) (wakeup_fence w) r in
  w_db world' = with_wakeups s ((fun r => if hit r then unclaimed "failed" (truncateWakeupError (Error e)) r else r) <$> db_wakeups s)
  /\ (handled = true <-> exists n, w_log world' = w_log world ++ [Settled Failed (wk_ID w) (S n)])
  /\ w_step world' = S (w_step world).
Proof.
  intros Hv. unfold handleClaimed. rewrite Hv. unfold markPermanentFail, settle_with, call, mbind, IO_bind.
  set (s := other _ _). destruct (fault (w_step world)) as [f|].
  { cbn. rewrite list_fmap_id. split_and!; [by destruct s| |done]. split; [done|]. intros [n Hn]. by apply log_same in Hn. }
  unfold FailWakeup. rewrite update_wakeups_eq. destruct (length _) as [|n] eqn:Hlen; cbn.
  - rewrite list_fmap_id. split_and!; [|split; [done|intros [n Hn]; by simplify_list_eq]|done].
    rewrite (update_none (held _ _)); [by destruct s|]. by apply length_zero_iff_nil.
  - split_and!; [done| |done]. split; [by eauto|done].
Qed.
End effects_of.

(** ** Permanent failures *)

(** Nothing runs the node again: no retry, and the only agent asked for is the planner. *)
Definition no_rerun (e : event) : Prop :=
  match e with
  | Settled how _ _ => how <> Retried
  | LaunchAsked req => lr_AgentKey req = replanPlannerAgentKey
  | _ => False
  end.

(** The strategy for a permanent class does not run the node again. *)
Lemma permanent_strategy cfg class strategy :
  failureClassPermanent class = true -> smartRetryStrategyFor cfg class = Some strategy -> smartRetryStrategyRerunsNode strategy = false.
Proof.
  unfold smartRetryStrategyFor, permanentClassStrategyAllowed. intros -> Hs. cbn [andb] in Hs.
  destruct (sr_configured _); [|done]. cbn [negb] in Hs. destruct (sr_byClass _).
  - destruct (smartRetryStrategyRerunsNode _) eqn:Hr; [done|]. by injection Hs as <-.
  - destruct (String.eqb _ OnFailureFailFast) eqn:Hf; [|done]. apply String.eqb_eq in Hf. injection Hs as <-. by rewrite Hf.
Qed.

Section permanent.
Context `{EN : Env} (d : WakeupDispatcher).

Lemma settle_no_rerun how w m : how <> Retried -> only no_rerun (settle_with how w m).
Proof.
  intros Hh. unfold settle_with. apply only_bind; [apply only_silent, silent_call|]. intros [n|e]; [|apply only_ret].
  apply only_bind; [by apply only_emit|intros; apply only_ret].
Qed.

Lemma dagFailure_no_rerun w e b : only no_rerun (markPermanentDAGFailure w e b).
Proof.
  unfold markPermanentDAGFailure. case_match; [apply only_ret|]. apply only_bind; [by apply settle_no_rerun|intros; apply only_ret].
Qed.
Hint Resolve dagFailure_no_rerun retryContext_silent failFast_silent : io.

Lemma permanentRouter_no_rerun w e : only no_rerun (recordPermanentRouterFailure w e).
Proof. unfold recordPermanentRouterFailure. io_only. Qed.
Hint Resolve permanentRouter_no_rerun : io.

Lemma launched_no_rerun w : only no_rerun (markLaunched w).
Proof. apply only_bind; [by apply settle_no_rerun|intros; apply only_ret]. Qed.
Hint Resolve launched_no_rerun : io.

Lemma replan_no_rerun w f n b : only no_rerun (spawnReplanPlanner d w f n b).
Proof.
  unfold spawnReplanPlanner, launch_wakeup, failSmartRetryPrepare, failSmartRetry. io_only. by apply only_emit.
Qed.
Hint Resolve replan_no_rerun : io.

Lemma preflight_no_rerun w f ctx strategy : only no_rerun (handleSmartRetryPreflight w f ctx strategy).
Proof. unfold handleSmartRetryPreflight, failUnsupportedSmartRetryStrategy, failSmartRetry. io_only. Qed.
Hint Resolve preflight_no_rerun : io.

Lemma action_no_rerun w f ctx n strategy :
  smartRetryStrategyRerunsNode strategy = false -> only no_rerun (dispatchSmartRetryAction d w f ctx n strategy).
Proof.
  unfold smartRetryStrategyRerunsNode, str_in, dispatchSmartRetryAction. cbn. intros Hs. go_bool.
  repeat match goal with Hn : _ <> _ |- _ => apply String.eqb_neq in Hn; rewrite Hn; clear Hn end. io_only.
Qed.

(** C19: a permanent failure never runs the node again.  In every environment, with any
    configured strategies, a node that failed with class hard or needs_human, or with
    a validation failure that is not a launch failure, is not retried: the wakeup is
    failed with its node, or handed to the planner, or left claimed when the store
    fails. *)
Theorem permanent_never_rerun w outcome :
  failureOutcomePermanent outcome = true -> only no_rerun (handleFailedRouterOutcome d w outcome).
Proof.
  intros Hp. unfold handleFailedRouterOutcome. destruct (nonRetryableValidationFailure outcome) eqn:Hv; [apply permanentRouter_no_rerun|].
  assert (failureClassPermanent (no_FailureClass outcome) = true) as Hc.
  { unfold failureOutcomePermanent, nonRetryableValidationFailure in *. destruct (failureClassPermanent _); [done|].
    destruct (String.eqb _ FailureClassValidation); [|done]. cbn [andb] in Hv. congruence. }
  rewrite Hp. apply only_bind; [|intros [b|]; [apply only_ret|apply permanentRouter_no_rerun]].
  unfold trySmartDAGRetry, failSmartRetryPrepare, failSmartRetry. io_only. apply action_no_rerun. by eapply permanent_strategy.
Qed.
End permanent.
