(* ===== verification/SpawnSafety.v ===== *)
(** * The child agents of a node

    Theorems on [AgentExecutor] and the agent branch of [NodeRouter] with the launcher
    of the service: how often an agent is asked for, that a started agent is recorded
    on its node or stopped, and that a recorded one is not started again.  A launch that
    lost its place in the registry is the exception: it is stopped and still reported. *)

From S2P Require Import Prelude GoStrings Json DagStore NodeConfig WakeupPayload RunStore WakeupLease RetryPolicy Effects AgentExecutor NodeRouter Dispatcher DispatchSafety.

Definition started (evs : list event) : list string := omap (fun e => match e with AgentStarted t => Some t | _ => None end) evs.
Definition asked (evs : list event) : nat := length (List.filter (fun e => match e with LaunchAsked _ => true | _ => false end) evs).

(** A stop of the agent of a thread, by its launch or later. *)
Definition stop_of (t : string) (e : event) : Prop := (exists b, e = StopAsked t b) \/ exists why b, e = RuntimeStopped why t b.

(** Every started agent is recorded on the node, or was asked to stop. *)
Definition accounted (evs : list event) : Prop :=
  forall t, t ∈ started evs -> SpawnRecorded t ∈ evs \/ exists e, e ∈ evs /\ stop_of t e.

(** The only agents that were stopped are those of launches that lost their place. *)
Definition only_stale_stops (evs : list event) : Prop :=
  forall t e, e ∈ evs -> stop_of t e -> exists b, e = RuntimeStopped StaleLaunch t b.

Lemma started_app e1 e2 : started (e1 ++ e2) = started e1 ++ started e2.
Proof. apply omap_app. Qed.
Lemma asked_app e1 e2 : asked (e1 ++ e2) = asked e1 + asked e2.
Proof. unfold asked. by rewrite List.filter_app, length_app. Qed.

Lemma asked_started_replicate k req : asked (replicate k (LaunchAsked req)) = k /\ started (replicate k (LaunchAsked req)) = [].
Proof. induction k as [|k [IH1 IH2]]; [done|]. split; [cbn; by f_equal|done]. Qed.

(** Events that only stop. *)
Definition stop_event (e : event) : Prop := match e with StopAsked _ _ => True | _ => False end.

Lemma stops_quiet evs : Forall stop_event evs -> started evs = [] /\ asked evs = 0.
Proof. induction 1 as [|[] evs He Hevs [IH1 IH2]]; done. Qed.

Lemma accounted_app e1 e2 : accounted e1 -> started e2 = [] -> accounted (e1 ++ e2).
Proof.
  intros H1 H2 t Ht. rewrite started_app, H2, app_nil_r in Ht. destruct (H1 t Ht) as [Hr|(e & He & Hs)]; [left|right; exists e]; set_solver.
Qed.

Section spawn.
Context `{EN : Env} (lc : Lifecycle).

(** What follows the attempts: nothing or the stop of a launch that failed; or the agent
    that was started, which is stopped again when there is an error. *)
Inductive launch_end : result error (string * LaunchResult) -> list event -> Prop :=
| le_none e : launch_end (Err e) []
| le_failed e b : launch_end (Err e) [RuntimeStopped FailedLaunch EmptyString b]
| le_stopped e t why b : launch_end (Err e) [AgentStarted t; RuntimeStopped why t b]
| le_started id res : launch_end (Ok (id, res)) [AgentStarted (TrimSpace (lx_ThreadID res))]
| le_stale id res b : launch_end (Ok (id, res)) [AgentStarted (TrimSpace (lx_ThreadID res)); RuntimeStopped StaleLaunch (TrimSpace (lx_ThreadID res)) b].

(** The events of a launch. *)
Definition launch_log (n : nat) (req : LaunchRequest) (r : result error (string * LaunchResult)) (evs : list event) : Prop :=
  exists k tail, k <= n /\ evs = replicate k (LaunchAsked req) ++ tail /\ launch_end r tail.

Lemma stop_runtime_log why attempt t : emits (stop_runtime lc why attempt t) (fun _ evs => exists b, evs = [RuntimeStopped why t b]).
Proof.
  apply emits_silent_bind; [apply silent_ask|]. intros r. eapply emits_bind; [apply emits_emit|]. cbn. intros _ e1 ->. apply emits_ret. eauto.
Qed.

Lemma stop_then_log {A} why attempt t (f : option error -> A) :
  emits (r ← stop_runtime lc why attempt t; mret (f r)) (fun a evs => (exists r, a = f r) /\ exists b, evs = [RuntimeStopped why t b]).
Proof. eapply emits_bind; [apply stop_runtime_log|]. intros r e1 [b ->]. apply emits_ret. rewrite app_nil_r. eauto. Qed.

Lemma fail_launch_log attempt t e :
  emits (failLauncherLaunchLocked lc attempt t e) (fun r evs => (exists e', r = Some e') /\ exists b, evs = [RuntimeStopped FailedLaunch t b]).
Proof.
  unfold failLauncherLaunchLocked, commitLaunchFailureLocked. apply emits_silent_bind; [io_silent|]. intros err.
  eapply emits_mono; [apply (stop_then_log FailedLaunch attempt t (fun _ => Some err))|]. cbn. intros r evs [[? ->] Hb]. eauto.
Qed.

(** The end of a launch that succeeded: without an error the agent runs, or its place was
    taken and it was stopped. *)
Lemma finish_log attempt res :
  emits (finishLauncherLaunch lc attempt res None)
    (fun r evs => match r with
                  | None => evs = [] \/ exists b, evs = [RuntimeStopped StaleLaunch (TrimSpace (lx_ThreadID res)) b]
                  | Some _ => exists why b, evs = [RuntimeStopped why (TrimSpace (lx_ThreadID res)) b]
                  end).
Proof.
  unfold finishLauncherLaunch, lookupAgentBySeqLocked, discardStaleLaunchResult. apply emits_silent_bind; [io_silent|]. intros [agent|e].
  2: { eapply emits_mono; [apply (stop_then_log StaleLaunch attempt _ (fun _ => None))|]. cbn. intros r evs [[? ->] Hb]. by right. }
  case_match; [|case_match].
  - eapply emits_bind; [apply (stop_then_log StaleLaunch attempt _ (fun _ => None))|]. cbn. intros r e1 [_ [b ->]]. apply emits_ret. rewrite app_nil_r. eauto.
  - eapply emits_mono; [apply fail_launch_log|]. cbn. intros r evs [[e ->] [b ->]]. eauto.
  - unfold completeLauncherLaunchLocked, commitLaunchFailureLocked. apply emits_silent_bind; [unfold rekeyLaunchedAgentLocked; io_silent|]. intros [e|].
    { apply emits_silent_bind; [io_silent|]. intros err. eapply emits_mono; [apply (stop_then_log FailedLaunch attempt _ (fun _ => Some err))|]. cbn. intros r evs [[? ->] [b ->]]. eauto. }
    apply emits_silent_bind; [apply silent_ask|]. intros [e|].
    { eapply emits_mono; [apply (stop_then_log FailedLaunch attempt _ (fun _ => Some e))|]. cbn. intros r evs [[? ->] [b ->]]. eauto. }
    case_match; [|apply emits_ret; by left]. apply emits_silent_bind; [apply silent_ask|]. intros [e|]; [|apply emits_ret; by left].
    eapply emits_mono; [apply (stop_then_log FailedLaunch attempt _ (fun r => Some (join_errors e r)))|]. cbn. intros r evs [[? ->] [b ->]]. eauto.
Qed.

Lemma finish_failed_log n req attempt e : emits (finish_failed lc attempt (Some e)) (launch_log n req).
Proof.
  eapply (emits_bind _ _ (fun r evs => (exists e', r = Some e') /\ (evs = [] \/ exists b, evs = [RuntimeStopped FailedLaunch EmptyString b]))).
  - unfold finishLauncherLaunch, lookupAgentBySeqLocked, discardStaleLaunchResult. apply emits_silent_bind; [io_silent|]. intros [agent|e'].
    + eapply emits_mono; [apply fail_launch_log|]. intros r evs [He [b ->]]. split; [done|right; by exists b].
    + apply emits_ret. eauto.
  - intros r e1 [[e' ->] He]. apply emits_ret. rewrite app_nil_r. exists 0, e1. split_and!; [lia|done|]. destruct He as [->|[b ->]]; constructor.
Qed.

Lemma launch_log_S n req r evs : launch_log n req r evs -> launch_log (S n) req r (LaunchAsked req :: evs).
Proof. intros (k & tail & Hk & -> & Ht). exists (S k), tail. split; [lia|done]. Qed.

Lemma launchWithRetry_log attempt n lastErr req : n <> 0 \/ lastErr <> None -> emits (launchWithRetry lc attempt n lastErr req) (launch_log n req).
Proof.
  revert lastErr. induction n as [|n IH]; intros lastErr Hn; cbn [launchWithRetry].
  { destruct lastErr as [e|]; [apply finish_failed_log|]. by destruct Hn. }
  apply emits_silent_bind; [case_match; auto with io|]. intros [e|]; [apply finish_failed_log|].
  eapply emits_bind; [apply emits_emit|]. cbn. intros _ e1 ->. apply emits_silent_bind; [apply silent_ask|]. intros [res|e].
  - eapply emits_bind; [apply emits_emit|]. cbn. intros _ e2 ->. eapply emits_bind; [apply finish_log|]. intros [err|] e3 H3; apply emits_ret; rewrite app_nil_r.
    + destruct H3 as (why & b & ->). exists 1, [AgentStarted (TrimSpace (lx_ThreadID res)); RuntimeStopped why (TrimSpace (lx_ThreadID res)) b].
      split_and!; [lia|done|constructor].
    + exists 1, (AgentStarted (TrimSpace (lx_ThreadID res)) :: e3). split_and!; [lia|done|]. destruct H3 as [->|[b ->]]; constructor.
  - case_match; (eapply emits_mono; [first [by apply IH; right | apply (finish_failed_log n req)]|]); cbn; intros; by apply launch_log_S.
Qed.

Lemma started_log req : emits (launchAgentUntilStarted lc req) (launch_log MaxRetries req).
Proof.
  apply emits_silent_bind; [apply silent_ask|]. intros [attempt|e]; [apply launchWithRetry_log; by left|].
  apply emits_ret. exists 0, []. split_and!; [lia|done|constructor].
Qed.

(** What a launch with a recorder leaves: the agent it started, if any, is accounted
    for, and without an error it is recorded and runs, unless its place was taken. *)
Definition launch_done (err : option error) (evs : list event) : Prop :=
  asked evs <= MaxRetries /\ length (started evs) <= 1 /\ accounted evs
  /\ (err = None -> exists t, started evs = [t] /\ SpawnRecorded t ∈ evs /\ only_stale_stops evs).

Lemma launch_log_facts req r evs : launch_log MaxRetries req r evs ->
  asked evs <= MaxRetries
  /\ match r with
     | Err _ => length (started evs) <= 1 /\ accounted evs
     | Ok (_, res) => started evs = [TrimSpace (lx_ThreadID res)] /\ only_stale_stops evs
     end.
Proof.
  intros (k & tail & Hk & -> & Ht). destruct (asked_started_replicate k req) as [Ha Hs].
  assert (forall e, e ∈ replicate k (LaunchAsked req) -> e = LaunchAsked req) as Hrep by (intros e [? _]%elem_of_replicate; done).
  rewrite asked_app, Ha. split; [destruct Ht; cbn; lia|]. unfold accounted, only_stale_stops, stop_of. rewrite started_app, Hs.
  destruct Ht as [e|e b|e t why b|id res|id res b]; cbn [started omap list_omap app length].
  - split; [lia|]. set_solver.
  - split; [lia|]. set_solver.
  - split; [lia|]. intros t' ->%list_elem_of_singleton. right. exists (RuntimeStopped why t b). split; [|eauto 10]. apply elem_of_app. right. set_solver.
  - split; [done|]. intros t e [->%Hrep|[->|[]%not_elem_of_nil]%elem_of_cons]%elem_of_app [[b ?]|(why & b & ?)]; done.
  - split; [done|]. intros t e [->%Hrep|[->|[->|[]%not_elem_of_nil]%elem_of_cons]%elem_of_cons]%elem_of_app [[b' ?]|(why & b' & ?)]; try done. simplify_eq. eauto.
Qed.

Lemma stop_agent_log id t : emits (stop_agent lc id t) (fun _ evs => exists b, evs = [StopAsked t b]).
Proof.
  apply emits_silent_bind; [apply silent_ask|]. intros r. eapply emits_bind; [apply emits_emit|]. cbn. intros _ e1 ->.
  apply emits_ret. eauto.
Qed.

Lemma recordSpawn_log e node ctx t : ae_recorder e = true ->
  emits (recordSpawn e node ctx t)
    (fun r evs => r.1 = EmptyString /\ r.2 = None /\ evs = [SpawnRecorded (TrimSpace t)] /\ TrimSpace t <> EmptyString
                  \/ r.1 <> EmptyString /\ evs = []).
Proof.
  intros Hrec. unfold recordSpawn. rewrite Hrec. cbn [negb]. destruct (String.eqb (TrimSpace t) EmptyString) eqn:Ht; [by apply emits_ret; right|].
  apply String.eqb_neq in Ht. destruct (resolveSpawnKeys node ctx) as [dagKey nodeKey]. case_match; [by apply emits_ret; right|].
  apply emits_silent_bind; [unfold recorder_RecordNodeSpawn; io_silent|]. intros [u|err]; [|by apply emits_ret; right].
  eapply emits_bind; [apply emits_emit|]. cbn. intros _ e1 ->. eapply emits_bind; [apply silent_set_captured|].
  cbn. intros _ e2 ->. apply emits_ret. by left.
Qed.

Lemma record_callback_log e node ctx t : ae_recorder e = true ->
  emits (record_callback e node ctx t)
    (fun err evs => match err with None => evs = [SpawnRecorded (TrimSpace t)] /\ TrimSpace t <> EmptyString | Some _ => evs = [] end).
Proof.
  intros Hrec. eapply emits_bind; [by apply recordSpawn_log|]. intros [summary cause] e1 Hs. apply emits_ret. rewrite app_nil_r. cbn in Hs.
  destruct Hs as [(-> & _ & -> & Hne)|[Hs ->]]; [done|]. apply String.eqb_neq in Hs. by rewrite Hs.
Qed.

Lemma prompt_log id t req :
  emits (submitInitialLaunchPromptOrStop lc id t req) (fun err evs => match err with None => evs = [] | Some _ => exists b, evs = [StopAsked t b] end).
Proof.
  unfold submitInitialLaunchPromptOrStop. apply emits_silent_bind; [case_match; auto with io|]. intros [e|]; [|by apply emits_ret].
  eapply emits_bind; [apply stop_agent_log|]. intros r e1 [b ->]. apply emits_ret. eauto.
Qed.

(** A started agent, and then the events [e2] that record it or stop it. *)
Lemma launch_done_intro err t e1 e2 :
  asked e1 <= MaxRetries -> started e1 = [t] -> asked e2 = 0 -> started e2 = [] ->
  SpawnRecorded t ∈ e2 \/ (exists e, e ∈ e2 /\ stop_of t e) ->
  (err = None -> SpawnRecorded t ∈ e2 /\ only_stale_stops e1 /\ forall t' e, e ∈ e2 -> ~ stop_of t' e) -> launch_done err (e1 ++ e2).
Proof.
  intros Ha Hs Ha2 Hs2 Hacc Hok. unfold launch_done. rewrite asked_app, Ha2, Nat.add_0_r. unfold accounted, only_stale_stops.
  rewrite started_app, Hs, Hs2, app_nil_r. split_and!; [done|done| |].
  - intros t' ->%list_elem_of_singleton. destruct Hacc as [?|(e & ? & ?)]; [left|right; exists e]; set_solver.
  - intros He. destruct (Hok He) as (Hr & Hst & Hn). exists t. split_and!; [done|set_solver|]. intros t' e [H|H]%elem_of_app Hof; [by apply Hst|]. by destruct (Hn t' e H).
Qed.

(** The launch of the service with a recorder that records the thread or fails. *)
Lemma service_launch_log req record :
  (forall t, emits (record t) (fun err evs => match err with None => evs = [SpawnRecorded (TrimSpace t)] /\ TrimSpace t <> EmptyString | Some _ => evs = [] end)) ->
  emits (service_LaunchAgentWithSpawnRecord lc req record) (fun r evs => launch_done r.2 evs).
Proof.
  intros Hrec. eapply (emits_bind _ _ (fun r evs => launch_done (err_of r.2) evs)).
  2: { intros [t [snap|err]] e1 H1; apply emits_ret; by rewrite app_nil_r. }
  eapply emits_bind; [apply started_log|]. intros [[id res]|err] e1 [Ha Hs]%launch_log_facts.
  2: { destruct Hs as [Hl Hacc]. apply emits_ret. rewrite app_nil_r. by split_and!. }
  destruct Hs as [Hs Hst]. set (t := TrimSpace (lx_ThreadID res)) in *.
  eapply emits_bind; [apply Hrec|]. rewrite (trimmed_TrimSpace _ : TrimSpace t = t). intros [err|] e2 H2; cbn beta iota in H2.
  - subst. eapply emits_bind; [apply stop_agent_log|]. intros r e3 [b ->]. apply emits_ret. cbn [app].
    eapply launch_done_intro; try done. right. exists (StopAsked t b). split; [set_solver|left; eauto].
  - destruct H2 as [-> Hne]. eapply emits_bind; [apply prompt_log|]. intros [err|] e3 H3; cbn beta iota in H3.
    + destruct H3 as [b ->]. apply emits_ret. eapply launch_done_intro; try done. left. set_solver.
    + subst. apply emits_silent_bind; [apply silent_ask|].
      intros [snap|err]; apply emits_ret; cbn [app]; (eapply launch_done_intro; [done|done|done|done|left; set_solver|]); try done. intros _. split_and!; [set_solver|done|].
      intros t' e ->%list_elem_of_singleton [[b ?]|(why & b & ?)]; done.
Qed.

(** *** The executor and the router *)

Definition production : AgentExecutor := mkAgentExecutor (Some (serviceAgentLauncher lc)) true.

Lemma launchAgent_log req node ctx : emits (launchAgent production (serviceAgentLauncher lc) req node ctx) (fun r evs => launch_done r.2 evs).
Proof.
  unfold launchAgent. cbn. destruct (resolveSpawnKeys node ctx) as [dagKey nodeKey].
  apply emits_silent_bind; [apply silent_ret|]. intros [err|].
  - apply emits_ret. split_and!; [cbn; lia|cbn; lia|intros t; set_solver|done].
  - apply service_launch_log. intros t. by apply record_callback_log.
Qed.

(** Like [launch_done], with the outcome of the node for the error. *)
Definition exec_done (status : string) (evs : list event) : Prop :=
  asked evs <= MaxRetries /\ length (started evs) <= 1 /\ accounted evs
  /\ (status <> "failed" -> exists t, started evs = [t] /\ SpawnRecorded t ∈ evs /\ only_stale_stops evs).

Lemma exec_failed outcome : no_Status outcome = "failed" -> emits (mret outcome) (fun o evs => exec_done (no_Status o) evs).
Proof. intros Ho. apply emits_ret. rewrite Ho. split_and!; [cbn; lia|cbn; lia|intros t; set_solver|done]. Qed.

Lemma stop_only t cause : only stop_event (stopLaunchedThreadAfterWritebackFailure (serviceAgentLauncher lc) t cause).
Proof.
  unfold stopLaunchedThreadAfterWritebackFailure. cbn. apply only_bind; [|intros; io_only].
  unfold service_StopLaunchedThread. io_only. by apply only_emit.
Qed.

Lemma outcome_log node ctx t err e1 : launch_done err e1 ->
  emits (agentLaunchOutcome production (serviceAgentLauncher lc) node ctx t err) (fun o e2 => exec_done (no_Status o) (e1 ++ e2)).
Proof.
  intros (Ha & Hl & Hacc & Hok). destruct err as [err|].
  - apply (emits_mono _ (fun o e2 => no_Status o = "failed" /\ Forall stop_event e2)).
    + unfold agentLaunchOutcome, classifiedAgentLaunchFailure, agentLaunchCWDValidationFailure. case_match.
      * apply (emits_bind _ _ (fun _ evs => Forall stop_event evs)); [case_match; [apply stop_only|apply only_ret]|].
        intros summary e2 H2. apply emits_ret. by rewrite app_nil_r.
      * repeat (case_match; simplify_eq); by apply emits_ret.
    + intros o e2 [Ho [Hs Hq]%stops_quiet]. unfold exec_done. rewrite Ho, asked_app, started_app, Hs, Hq, Nat.add_0_r, app_nil_r.
      split_and!; [done|done|by apply accounted_app|done].
  - apply emits_ret. rewrite app_nil_r. split_and!; [done|done|done|]. intros _. by apply Hok.
Qed.

Lemma normalize_failed cfg failure : normalizeAgentLaunchConfig cfg = Err failure -> no_Status failure = "failed".
Proof.
  unfold normalizeAgentLaunchConfig, validateAgentLaunchIdentity, validateCodexIdentityOverride, agentLaunchCWDValidationFailure.
  intros Hn. repeat (case_match; simplify_eq/=; try done).
Qed.

Lemma assemble_silent cfg ctx node : silent (assembleInputs cfg ctx node).
Proof.
  assert (forall reader paths, silent (from_files_text reader paths)) as Hf.
  { intros reader paths. induction paths as [|p paths IH]; [apply silent_ret|]. cbn [from_files_text].
    case_match; [exact IH|]. apply emits_silent_bind; [apply silent_ask|]. intros [[c|]|e]; try apply silent_ret.
    apply emits_silent_bind; [exact IH|]. intros. apply silent_ret. }
  unfold assembleInputs, collectInputSections, loadFromSharedfiles. io_silent; apply Hf.
Qed.

Lemma Execute_log node ctx : emits (AgentExecutor_Execute production node ctx) (fun o evs => exec_done (no_Status o) evs).
Proof.
  unfold AgentExecutor_Execute. case_match; [|by apply exec_failed].
  destruct (validateAgentOutputs _) as [failure|] eqn:Hv.
  { apply exec_failed. unfold validateAgentOutputs, validateOutputsForbiddenKeys in Hv. destruct (forbidden_output _ _); [by simplify_eq/=|done]. }
  destruct (normalizeAgentLaunchConfig _) as [cfg|failure] eqn:Hn; [|by apply exec_failed; eapply normalize_failed].
  apply emits_silent_bind; [apply assemble_silent|]. intros [prefix|ierr]; [|by apply exec_failed].
  cbn [ae_launcher production]. apply emits_silent_bind; [apply silent_ask|]. intros agentID.
  eapply emits_bind; [apply launchAgent_log|]. intros [t err] e1 H1. by apply outcome_log.
Qed.

Lemma advance_silent dagKey nodeKey runID f : silent (advanceAgentNodeToRunning dagKey nodeKey runID f).
Proof. unfold advanceAgentNodeToRunning. io_silent. Qed.

(** C17: agents are started once and accounted for.  In every environment, dispatching an
    agent node asks the launcher at most three times, and the launcher starts at most one
    agent; a started agent is recorded on its node or asked to stop; when the node is
    reported launched, exactly one agent was started, it is recorded, and it was not stopped,
    except by its own launch when another launch had taken the agent's place in the registry
    (such a launch is stopped and reported as a success); and a node that has a recorded
    agent gets no second one. *)
Theorem agent_accounted auto reader node ctx f :
  emits (dispatchAgent (mkRouter (Some production) auto reader) node ctx f)
    (fun r evs =>
       asked evs <= 3 /\ length (started evs) <= 1 /\ accounted evs
       /\ (if String.eqb (TrimSpace (xn_SpawningThreadID node)) EmptyString
           then no_Status r.1 <> "failed" -> r.2 = None -> exists t, started evs = [t] /\ SpawnRecorded t ∈ evs /\ only_stale_stops evs
           else evs = [])).
Proof.
  unfold dispatchAgent. destruct (String.eqb _ EmptyString); cbn [negb].
  2: { unfold dispatchRecordedAgentSpawn. apply emits_silent_bind; [apply advance_silent|]. intros. apply emits_ret.
       split_and!; [cbn; lia|cbn; lia|intros t; set_solver|done]. }
  cbn. apply emits_silent_bind; [apply silent_set_captured|]. intros _.
  eapply emits_bind; [apply Execute_log|]. intros o e1 (Ha & Hl & Hacc & Hok). unfold MaxRetries in Ha. case_match eqn:Hf.
  { apply String.eqb_eq in Hf. apply emits_ret. rewrite app_nil_r. cbn. rewrite Hf. done. }
  apply String.eqb_neq in Hf. apply emits_silent_bind; [apply advance_silent|]. intros [adv|err].
  { apply emits_ret. rewrite app_nil_r. cbn. split_and!; [done|done|done|]. intros _ _. by apply Hok. }
  apply emits_silent_bind; [apply silent_get_world|]. intros w. case_match.
  { apply emits_ret. rewrite app_nil_r. cbn. split_and!; [done|done|done|]. done. }
  eapply emits_bind; [apply stop_only|]. intros summary e2 [Hs Hq]%stops_quiet. apply emits_ret. rewrite app_nil_r.
  rewrite asked_app, started_app, Hs, Hq, Nat.add_0_r, app_nil_r. cbn. split_and!; [done|done|by apply accounted_app|done].
Qed.
End spawn.
