(* ===== verification/DispatchSamples.v ===== *)
(** * Runs of the dispatcher

    Concrete environments and worlds: witnesses of the theorems on the dispatcher, and
    runs that show what a retry does not do. *)

From S2P Require Import Prelude GoStrings Json DagStore NodeConfig WakeupPayload RunStore WakeupLease RetryPolicy Effects AgentExecutor NodeRouter Dispatcher DispatchSafety SpawnSafety.

(** An environment without other processes or heartbeats, in which the listed calls of
    the store fail and the clock moves a second per call. *)
Definition quiet_env (faults : list nat) : Env := {|
  clock i := (5000000000 + Z.of_nat i * 1000000000)%Z;
  fault i := if existsb (Nat.eqb i) faults then Some (plain_error "database is locked") else None;
  other _ s := s;
  ticks _ := [];
  new_agent_id _ := "agent_1";
  Error e := msg_format (err_msg e);
  byte_len _ := 100%Z;
  json_ok _ := true;
  reencode j := j;
  same_config _ _ := true;
  time_text _ := "now";
  raw_text _ := "{}";
  Quote s := s;
  float_fits _ := true;
|}.

(** A machine that starts an agent at the first attempt and never fails; [row] is what the
    registry has under the id of the agent when the launch ends. *)
Definition machine (row : agentRuntime) : Lifecycle :=
  mkLifecycle false (fun _ _ => Ok (mkAttempt "agent_1" 1)) (fun _ _ => Ok (mkLaunchResult "thread_1" EmptyString EmptyString)) (fun _ => None)
    (fun _ _ => Ok row) (fun _ _ => false) (fun _ => None) (fun _ => None) false (fun _ _ _ => None) (fun _ _ => None) (fun _ _ => None)
    (fun _ _ => None) (fun _ => Ok "thread_1") (fun _ _ => None).

Definition smooth : Lifecycle := machine (mkRuntime "agent_1" 1 0 None).

Definition agent_config : RawMessage :=
  RawJSON (JObj [("exec", JObj [("provider", JStr "codex"); ("agent_key", JStr "k"); ("cwd", JStr "/w")])]).

Definition sample_payload : RawMessage :=
  RawJSON (JObj [("wakeup_payload_kind", JStr "dag_downstream"); ("schema_version", JNum "1"); ("agent_id", JStr "a")]).

Definition claimed_wakeup (attempts : Z) : Wakeup :=
  mkWakeup 8 "d" "n" (Some 1%Z) "node_start" "a" sample_payload 1 "k" "dispatching" attempts 0
    (Some 4000%Z) "disp" (Some 900000%Z) None None EmptyString.

Definition sample_node (nodeType : string) (config : RawMessage) : Node :=
  mkNode "d" "n" (Some 1%Z) "t" nodeType "a" (RawJSON (JArr [])) [] [] "ready" EmptyString config RawEmpty None None None.

Definition sample_world (node : Node) (attempts : Z) : world :=
  mkWorld
    (mkDB [mkDAG "d" 1 "t" EmptyString "active" EmptyString (RawJSON (JObj [("schedule", JObj [("default_retry", JNum "3")])])) EmptyString EmptyString EmptyString None]
       [node] [mkRun 1 "r" "d" 1 "manual" "running" (RawJSON (JArr [])) (RawJSON (JObj []))] [claimed_wakeup attempts])
    0 None None EmptyString [].

Definition sample_cfg : WakeupDispatcherConfig := mkDispatcherConfig "disp" "00:00:30" 10 0 "00:02:00" 0.

Definition no_launcher : WakeupLauncher := fun _ _ => None.

Definition agent_dispatcher (faults : list nat) : @WakeupDispatcher (quiet_env faults) :=
  let E := quiet_env faults in
  mkDispatcher (Some no_launcher) sample_cfg (Some (mkRouter (Some (@production E smooth)) None None)).

Definition run_agent (faults : list nat) (w : Wakeup) (world : world) : bool * Effects.world :=
  @handleClaimed (quiet_env faults) (agent_dispatcher faults) no_launcher w world.

(** Time passes until the given call. *)
Definition later (i : nat) (w : world) : world := mkWorld (w_db w) i (w_lease w) (w_canceled w) (w_captured w) (w_log w).

Definition process_agent (faults : list nat) (w : world) : world :=
  (@ProcessBatch (quiet_env faults) (agent_dispatcher faults) w).2.

(** What is left: the wakeup, the node with its agent, and the events without requests. *)
Definition summary (w : world) : list (string * Z * string) * list (string * option string) * list event :=
  ((fun r => (wk_Status r, wk_AttemptCount r, wk_LastError r)) <$> db_wakeups (w_db w), (fun n => (nd_Status n, nd_SpawningThreadID n)) <$> db_nodes (w_db w),
   List.filter (fun e => match e with LaunchAsked _ => false | _ => true end) (w_log w)).

Definition automation_config : RawMessage :=
  RawJSON (JObj [("exec", JObj [("command_ref", JStr "c"); ("cwd", JStr "/w"); ("workspace_roots", JArr [JStr "/w"])])]).

(** A command that fails for a passing reason. *)
Definition failing_command : @AutomationExec (quiet_env []) :=
  fun _ _ _ => _ ← emit (CommandRun "/w" "/bin/c" ["c"] []); mret (failed_outcome FailureClassTransient "timed out", None).

Definition automation_dispatcher : @WakeupDispatcher (quiet_env []) :=
  let E := quiet_env [] in mkDispatcher (Some no_launcher) sample_cfg (Some (mkRouter None (Some failing_command) None)).

Definition process_automation (w : world) : world := (@ProcessBatch (quiet_env []) automation_dispatcher w).2.

Definition automation_first : world :=
  (@handleClaimed (quiet_env []) automation_dispatcher no_launcher (claimed_wakeup 1) (sample_world (sample_node "automation" automation_config) 1)).2.

(** ** What a retry does not do *)

(** The running status cannot be written after the launch: the agent is stopped, but
    stays recorded on the node. *)
Definition stopped_world : world := (run_agent [10] (claimed_wakeup 1) (sample_world (sample_node "agent" agent_config) 1)).2.

Example stopped_agent_stays_recorded :
  summary stopped_world =
    ([("pending", 1%Z, "%w: %w")], [("ready", Some "thread_1")],
     [AgentStarted "thread_1"; SpawnRecorded "thread_1"; StopAsked "thread_1" true; Settled Retried 8 1]).
Proof. vm_compute. reflexivity. Qed.

(** The retry finds the recorded agent, starts none, and reports the node as running:
    the node waits for an agent that was stopped. *)
Example retry_runs_a_stopped_agent :
  summary (process_agent [10] (later 200 stopped_world)) =
    ([("sent", 2%Z, "%w: %w")], [("running", Some "thread_1")],
     [AgentStarted "thread_1"; SpawnRecorded "thread_1"; StopAsked "thread_1" true; Settled Retried 8 1; Settled Sent 8 1]).
Proof. vm_compute. reflexivity. Qed.

(** While the launcher started the agent, another launch took its place in the registry:
    the agent is stopped, no error is reported, and the node is recorded as running on the
    thread that was just stopped. *)
Definition replaced : Lifecycle := machine (mkRuntime "agent_1" 2 0 None).

Example stale_launch_reported_running :
  summary (@handleClaimed (quiet_env []) (let E := quiet_env [] in mkDispatcher (Some no_launcher) sample_cfg (Some (mkRouter (Some (@production E replaced)) None None)))
             no_launcher (claimed_wakeup 1) (sample_world (sample_node "agent" agent_config) 1)).2 =
    ([("sent", 1%Z, EmptyString)], [("running", Some "thread_1")],
     [AgentStarted "thread_1"; RuntimeStopped StaleLaunch "thread_1" true; SpawnRecorded "thread_1"; Settled Sent 8 1]).
Proof. vm_compute. reflexivity. Qed.

(** A failed automation node is left running, and the running status is only written to
    a pending or ready node: no retry runs the command again, and the retries are spent
    on the same error. *)
Example automation_retry_never_executes :
  summary (process_automation (later 600 (process_automation (later 400 (process_automation (later 200 automation_first)))))) =
    ([("failed", 4%Z, "max attempts reached: node router: automation ready->running fence missed for %s/%s/%d")], [("failed", None)],
     [CommandRun "/w" "/bin/c" ["c"] []; Settled Retried 8 1; Settled Retried 8 1; Settled Retried 8 1; Settled FailedWithNode 8 1]).
Proof. vm_compute. reflexivity. Qed.

(** A node may ask for more retries than the dispatcher's own limit allows: the ninth
    attempt asked for here is not made. *)
Definition eager_world : world :=
  let node := sample_node "automation" (RawJSON (JObj [("exec", JObj []); ("execution", JObj [("retry", JNum "20")])])) in
  (@markTransientRetry (quiet_env []) automation_dispatcher (claimed_wakeup 8) (mkFailure "timed out" (failedWakeupOutcome "timed out"))
     (sample_world node 8)).2.

Example node_retries_capped :
  ResolveRetryPolicy RawEmpty (RawJSON (JObj [("execution", JObj [("retry", JNum "20")])])) = Ok (mkRetryPolicy 21 false)
  /\ w_log eager_world = [Settled Retried 8 0; Settled FailedWithNode 8 1].
Proof. vm_compute. split; reflexivity. Qed.

(** The number of attempts wraps around. *)
Example retry_count_wraps :
  ResolveRetryPolicy RawEmpty (RawJSON (JObj [("execution", JObj [("retry", JNum "9223372036854775807")])]))
    = Ok (mkRetryPolicy (-9223372036854775808) false).
Proof. vm_compute. reflexivity. Qed.

(** ** Witnesses *)

#[export] Instance quiet_law : DispatcherLaw (EN := quiet_env []) (agent_dispatcher []).
Proof.
  intros r [= <-]. split; [done|]. intros e l [= <-] [= <-]. apply service_law.
Qed.

Lemma batch_settles_each_witness :
  exists evs, w_log (@handle_batch (quiet_env []) (agent_dispatcher []) no_launcher [claimed_wakeup 1] (sample_world (sample_node "agent" agent_config) 1)).2 = evs
    /\ batch_log [claimed_wakeup 1] 1 evs.
Proof.
  destruct (batch_settles_each (EN := quiet_env []) (agent_dispatcher []) no_launcher [claimed_wakeup 1]
    (sample_world (sample_node "agent" agent_config) 1)) as (evs & Hlog & Hb).
  exists evs. split; [exact Hlog|]. exact Hb.
Defined.

(** A row from before the payload version. *)
Definition version_0 : Wakeup :=
  mkWakeup 8 "d" "n" (Some 1%Z) "node_start" "a" sample_payload 0 "k" "dispatching" 1 0
    (Some 4000%Z) "disp" (Some 900000%Z) None None EmptyString.

Lemma executes_only_valid_witness : only settling (@handleClaimed (quiet_env []) (agent_dispatcher []) no_launcher version_0).
Proof. apply (executes_only_valid (EN := quiet_env [])). intros (Hv & _). discriminate Hv. Defined.

Lemma invalid_envelope_inert_witness :
  (@handleClaimed (quiet_env []) (agent_dispatcher []) no_launcher version_0 (sample_world (sample_node "agent" agent_config) 1)).1 = true
  /\ w_step (@handleClaimed (quiet_env []) (agent_dispatcher []) no_launcher version_0 (sample_world (sample_node "agent" agent_config) 1)).2 = 1.
Proof.
  split; [reflexivity|].
  pose proof (invalid_envelope_inert (EN := quiet_env []) (agent_dispatcher []) no_launcher version_0 _
    (sample_world (sample_node "agent" agent_config) 1) eq_refl) as Hi.
  destruct (handleClaimed _ _ _ _) as [handled world']. apply Hi.
Defined.

Lemma permanent_never_rerun_witness :
  only no_rerun (@handleFailedRouterOutcome (quiet_env []) (agent_dispatcher []) (claimed_wakeup 1) (failed_outcome FailureClassHard "no")).
Proof. apply (permanent_never_rerun (EN := quiet_env [])). reflexivity. Defined.
