(* ===== verification/DocumentArtifact.v ===== *)
(** * Documents rendered from the text of an agent

    Models [documentartifact/document_artifact.go]: the choice of the format, the lines
    of a text, the DOCX body and the whole PDF writer (line wrapping, pages, objects and
    the cross-reference table).  The zip writer and the temporary file are answers of
    the outside. *)

From S2P Require Import Prelude GoStrings Json DagStore NodeConfig WakeupPayload RunStore WakeupLease RetryPolicy Effects SharedFilePath.

Definition cr : string := String (ascii_of_nat 13) EmptyString.

(** The double quote, which the texts below need. *)
Definition qt : string := String (ascii_of_nat 34) EmptyString.

(** ** Formats *)

(** [filepath.Ext]: from the last dot of the last element. *)
Fixpoint Ext (s : string) : string :=
  match s with
  | EmptyString => EmptyString
  | String a t =>
      let e := Ext t in
      if negb (String.eqb e EmptyString) then e
      else if Ascii.eqb a "." && negb (Contains t "/") then s else EmptyString
  end.

Definition documentContentTypeDOCX : string := "application/vnd.openxmlformats-officedocument.wordprocessingml.document".
Definition documentContentTypePDF : string := "application/pdf".

Definition firstNonEmptyContentType (raw fallback : string) : string :=
  let trimmed := TrimSpace raw in if negb (String.eqb trimmed EmptyString) then trimmed else fallback.

(** The format and the content type. *)
Definition resolveDocumentArtifactFormat (targetPath contentType : string) : result error (string * string) :=
  let ext := TrimPrefix (ToLower (Ext targetPath)) "." in
  if String.eqb ext "docx" then Ok ("docx", firstNonEmptyContentType contentType documentContentTypeDOCX)
  else if String.eqb ext "pdf" then Ok ("pdf", firstNonEmptyContentType contentType documentContentTypePDF)
  else Err (Errorf [] (Sprintf "generated document artifact target extension %q is not supported" [ext])).

Definition normalizedDocumentLines (text : string) : result error (list string) :=
  let trimmed := TrimSpace text in
  if String.eqb trimmed EmptyString then Err (plain_error "generated document source text is empty")
  else Ok (split_on (ascii_of_nat 10) (ReplaceAll (ReplaceAll trimmed (cr +:+ nl) nl) cr nl)).

Definition blank (line : string) : bool := String.eqb (TrimSpace line) EmptyString.

(** ** DOCX *)

(** The characters of XML. *)
Definition isInCharacterRange (r : rune) : bool :=
  (r =? 0x09)%N || (r =? 0x0A)%N || (r =? 0x0D)%N || in_range 0x20 0xD7FF r || in_range 0xE000 0xFFFD r
  || in_range 0x10000 0x10FFFF r.

(** [xml.EscapeText] on one rune with its bytes. *)
Definition escape_chunk (c : chunk) : string :=
  let '(r, b) := c in
  if (r =? 34)%N then "&#34;" else if (r =? 39)%N then "&#39;" else if (r =? 38)%N then "&amp;"
  else if (r =? 60)%N then "&lt;" else if (r =? 62)%N then "&gt;" else if (r =? 9)%N then "&#x9;"
  else if (r =? 10)%N then "&#xA;" else if (r =? 13)%N then "&#xD;"
  else if negb (isInCharacterRange r) || (r =? rune_error)%N && (String.length b =? 1)%nat then encode_rune rune_error
  else b.

Definition concat_str (l : list string) : string := foldr String.append EmptyString l.

Definition xmlEscape (text : string) : string := concat_str (escape_chunk <$> chunks text).

Definition docx_paragraph (line : string) : string :=
  if blank line then "<w:p/>"
  else "<w:p><w:r><w:t xml:space=" +:+ qt +:+ "preserve" +:+ qt +:+ ">" +:+ xmlEscape line +:+ "</w:t></w:r></w:p>".

(** An attribute. *)
Definition att (name value : string) : string := " " +:+ name +:+ "=" +:+ qt +:+ value +:+ qt.

Definition xml_head : string :=
  "<?xml" +:+ att "version" "1.0" +:+ att "encoding" "UTF-8" +:+ att "standalone" "yes" +:+ "?>".

Definition docxDocumentXML (lines : list string) : string :=
  xml_head
  +:+ "<w:document" +:+ att "xmlns:w" "http://schemas.openxmlformats.org/wordprocessingml/2006/main" +:+ ">"
  +:+ "<w:body>" +:+ concat_str (docx_paragraph <$> lines)
  +:+ "<w:sectPr><w:pgSz" +:+ att "w:w" "11906" +:+ att "w:h" "16838" +:+ "/><w:pgMar" +:+ att "w:top" "1440" +:+ att "w:right" "1440"
  +:+ att "w:bottom" "1440" +:+ att "w:left" "1440" +:+ "/></w:sectPr>"
  +:+ "</w:body></w:document>".

Definition docxContentTypesXML : string :=
  xml_head +:+ nl
  +:+ "<Types" +:+ att "xmlns" "http://schemas.openxmlformats.org/package/2006/content-types" +:+ ">" +:+ nl
  +:+ "  <Default" +:+ att "Extension" "rels" +:+ att "ContentType" "application/vnd.openxmlformats-package.relationships+xml" +:+ "/>" +:+ nl
  +:+ "  <Default" +:+ att "Extension" "xml" +:+ att "ContentType" "application/xml" +:+ "/>" +:+ nl
  +:+ "  <Override" +:+ att "PartName" "/word/document.xml"
  +:+ att "ContentType" "application/vnd.openxmlformats-officedocument.wordprocessingml.document.main+xml" +:+ "/>" +:+ nl
  +:+ "</Types>".

Definition docxRootRelsXML : string :=
  xml_head +:+ nl
  +:+ "<Relationships" +:+ att "xmlns" "http://schemas.openxmlformats.org/package/2006/relationships" +:+ ">" +:+ nl
  +:+ "  <Relationship" +:+ att "Id" "rId1" +:+ att "Type" "http://schemas.openxmlformats.org/officeDocument/2006/relationships/officeDocument"
  +:+ att "Target" "word/document.xml" +:+ "/>" +:+ nl
  +:+ "</Relationships>".

Section docx.
(** The archive of named entries, or an error. *)
Context (zip : list (string * string) -> result error string).

Definition renderDOCXDocument (text : string) : result error string :=
  lines ← normalizedDocumentLines text;
  zip [("[Content_Types].xml", docxContentTypesXML); ("_rels/.rels", docxRootRelsXML);
       ("word/document.xml", docxDocumentXML lines)].
End docx.

(** ** Lines and pages of a PDF *)

Definition weight (r : rune) : nat := if (127 <? r)%N then 2 else 1.

(** The loop over the runes: the line so far and its width. *)
Fixpoint wrap_loop (maxWidth : nat) (l : list rune) (current : string) (width : nat) : list string :=
  match l with
  | [] => if (0 <? String.length current)%nat then [current] else []
  | r :: l =>
      if (maxWidth <? width + weight r)%nat && (0 <? String.length current)%nat
      then current :: wrap_loop maxWidth l (EmptyString +:+ encode_rune r) (0 + weight r)
      else wrap_loop maxWidth l (current +:+ encode_rune r) (width + weight r)
  end.

Definition wrapPDFLine (line : string) (maxWidth : nat) : list string :=
  if blank line then [EmptyString] else wrap_loop maxWidth (runes line) EmptyString 0.

Definition wrapPDFLines (lines : list string) (maxWidth : nat) : list string :=
  concat ((fun line => wrapPDFLine line maxWidth) <$> lines).

(** One unit of fuel per line. *)
Fixpoint page_loop (fuel : nat) (lines : list string) (pageSize : nat) : list (list string) :=
  match fuel, lines with
  | S fuel, _ :: _ => take pageSize lines :: page_loop fuel (drop pageSize lines) pageSize
  | _, _ => []
  end.

Definition paginateLines (lines : list string) (pageSize : nat) : list (list string) :=
  match lines with [] => [[EmptyString]] | _ => page_loop (length lines) lines pageSize end.

(** ** Texts of a PDF *)

Definition hex_digit (n : N) : ascii :=
  if (n <? 10)%N then ascii_of_N (48 + n) else ascii_of_N (55 + n).

(** [%04X] of a 16-bit unit. *)
Definition hex4 (n : N) : string :=
  String (hex_digit (n / 4096 mod 16)) (String (hex_digit (n / 256 mod 16))
    (String (hex_digit (n / 16 mod 16)) (String (hex_digit (n mod 16)) EmptyString))).

(** [utf16.Encode] of one rune. *)
Definition utf16_units (r : rune) : list N :=
  if in_range 0xD800 0xDFFF r then [rune_error]
  else if (r <? 0x10000)%N then [r]
  else if (r <=? 0x10FFFF)%N then [0xD800 + (r - 0x10000) / 1024; 0xDC00 + (r - 0x10000) mod 1024]%N
  else [rune_error].

Definition pdfUTF16Hex (text : string) : string :=
  concat_str (hex4 <$> concat (utf16_units <$> runes text)).

Definition page_line (line : string) : string :=
  (if blank line then EmptyString else "<" +:+ pdfUTF16Hex line +:+ "> Tj" +:+ nl) +:+ "T*" +:+ nl.

Definition pdfPageContent (lines : list string) : string :=
  "BT" +:+ nl +:+ "/F1 11 Tf" +:+ nl +:+ "50 790 Td" +:+ nl +:+ "15 TL" +:+ nl
  +:+ concat_str (page_line <$> lines) +:+ "ET" +:+ nl.

Fixpoint join_blank (l : list string) : string :=
  match l with [] => EmptyString | [x] => x | x :: l => x +:+ " " +:+ join_blank l end.

Definition pdfPagesObject (pages : list (list string)) (pageObjectStart : nat) : string :=
  "<< /Type /Pages /Kids ["
  +:+ join_blank ((fun i => pretty (pageObjectStart + i * 2)%nat +:+ " 0 R") <$> seq 0 (length pages))
  +:+ "] /Count " +:+ pretty (length pages) +:+ " >>".

(** ** The PDF file *)

(** The buffer and the offset noted for each object. *)
Record pdf := mkPDF { pdf_buf : string; pdf_offsets : list nat }.

Definition note (id : nat) (p : pdf) : pdf :=
  mkPDF (pdf_buf p) (<[id := String.length (pdf_buf p)]> (pdf_offsets p)).

Definition append (s : string) (p : pdf) : pdf := mkPDF (pdf_buf p +:+ s) (pdf_offsets p).

Definition object_head (id : nat) : string := pretty id +:+ " 0 obj" +:+ nl.

Definition writePDFObject (id : nat) (body : string) (p : pdf) : pdf :=
  append (object_head id +:+ body +:+ nl +:+ "endobj" +:+ nl) (note id p).

Definition writePDFStreamObject (id : nat) (content : string) (p : pdf) : pdf :=
  append ("endstream" +:+ nl +:+ "endobj" +:+ nl) (append content
    (append (object_head id +:+ "<< /Length " +:+ pretty (String.length content) +:+ " >>" +:+ nl +:+ "stream" +:+ nl) (note id p))).

(** The last [k] decimal digits. *)
Fixpoint digits (k n : nat) : string :=
  match k with
  | O => EmptyString
  | S k => digits k (n / 10) +:+ String (ascii_of_nat (48 + n mod 10)) EmptyString
  end.

(** [%010d]. *)
Definition pad10 (n : nat) : string :=
  (if (N.of_nat n <? 10000000000)%N then EmptyString else pretty (N.of_nat n / 10000000000)%N) +:+ digits 10 n.

Definition xref_entry (off : nat) : string := pad10 off +:+ " 00000 n " +:+ nl.

Definition writePDFXref (objectCount : nat) (p : pdf) : string :=
  let xref := String.length (pdf_buf p) in
  pdf_buf p +:+ "xref" +:+ nl +:+ "0 " +:+ pretty (objectCount + 1)%nat +:+ nl
  +:+ "0000000000 65535 f " +:+ nl
  +:+ concat_str ((fun id => xref_entry (default 0 (pdf_offsets p !! id))) <$> seq 1 objectCount)
  +:+ "trailer" +:+ nl +:+ "<< /Size " +:+ pretty (objectCount + 1)%nat +:+ " /Root 1 0 R >>" +:+ nl
  +:+ "startxref" +:+ nl +:+ pretty xref +:+ nl +:+ "%%EOF" +:+ nl.

(** The comment of binary bytes in the second line. *)
Definition pdf_head : string :=
  "%PDF-1.4" +:+ nl +:+ "%" +:+ String (ascii_of_nat 0xE2) (String (ascii_of_nat 0xE3)
    (String (ascii_of_nat 0xCF) (String (ascii_of_nat 0xD3) nl))).

Definition page_object (contentObj : nat) : string :=
  "<< /Type /Page /Parent 2 0 R /MediaBox [0 0 595 842] /Resources << /Font << /F1 3 0 R >> >> /Contents "
  +:+ pretty contentObj +:+ " 0 R >>".

Fixpoint write_pages (i : nat) (pages : list (list string)) (p : pdf) : pdf :=
  match pages with
  | [] => p
  | page :: pages =>
      let pageObj := (6 + i * 2)%nat in
      let contentObj := (pageObj + 1)%nat in
      write_pages (S i) pages
        (writePDFStreamObject contentObj (pdfPageContent page) (writePDFObject pageObj (page_object contentObj) p))
  end.

Definition pdf_objects (pages : list (list string)) : pdf :=
  let p := mkPDF pdf_head (replicate (5 + length pages * 2 + 1) 0) in
  let p := writePDFObject 1 "<< /Type /Catalog /Pages 2 0 R >>" p in
  let p := writePDFObject 2 (pdfPagesObject pages 6) p in
  let p := writePDFObject 3 "<< /Type /Font /Subtype /Type0 /BaseFont /STSong-Light /Encoding /UniGB-UCS2-H /DescendantFonts [4 0 R] >>" p in
  let p := writePDFObject 4 "<< /Type /Font /Subtype /CIDFontType0 /BaseFont /STSong-Light /CIDSystemInfo << /Registry (Adobe) /Ordering (GB1) /Supplement 5 >> /FontDescriptor 5 0 R /DW 1000 >>" p in
  let p := writePDFObject 5 "<< /Type /FontDescriptor /FontName /STSong-Light /Flags 4 /FontBBox [0 -200 1000 900] /ItalicAngle 0 /Ascent 880 /Descent -120 /CapHeight 880 /StemV 80 >>" p in
  write_pages 0 pages p.

Definition buildPDF (pages : list (list string)) : string := writePDFXref (5 + length pages * 2) (pdf_objects pages).

Definition renderPDFDocument (text : string) : result error string :=
  lines ← normalizedDocumentLines text;
  Ok (buildPDF (paginateLines (wrapPDFLines lines 82) 48)).

(** ** Parameters of an import *)

(** [sharedfilestore.ImportLocalFileParams]. *)
Record ImportLocalFileParams := mkImport {
  im_SourcePath : string; im_TargetPath : string; im_ContentType : string; im_AllowedExtensions : list string;
  im_AllowedSourceRoots : list string; im_MaxBytes : Z; im_Overwrite : string; im_UpdatedBy : string;
}.

(** [filepath.Dir]: the cleaned path up to the last slash. *)
Fixpoint to_last_slash (s : string) : string :=
  match s with
  | EmptyString => EmptyString
  | String a t => if Ascii.eqb a "/" || Contains t "/" then String a (to_last_slash t) else EmptyString
  end.
Definition Dir (path : string) : string := Clean (to_last_slash path).

Section import.
Context (zip : list (string * string) -> result error string).
(** The path of a new temporary file of the format with the bytes. *)
Context (temp_file : nat -> string -> string -> result error string).

Definition renderDocumentArtifactBytes (format text : string) : result error string :=
  if String.eqb format "docx" then renderDOCXDocument zip text
  else if String.eqb format "pdf" then renderPDFDocument text
  else Err (Errorf [] (Sprintf "generated document artifact format %q is not supported" [format])).

Definition writeDocumentArtifactTempFile (format data : string) : IO (result error string) :=
  if String.eqb data EmptyString then mret (Err (plain_error "generated document artifact is empty"))
  else ask (fun i => temp_file i format data).

Definition BuildImportParams (plan : ArtifactTextPlan) (updatedBy : string) : IO (result error ImportLocalFileParams) :=
  match ('(format, contentType) ← resolveDocumentArtifactFormat (tp_TargetPath plan) (tp_ContentType plan);
         data ← renderDocumentArtifactBytes format (tp_SourceText plan);
         Ok (format, contentType, data)) with
  | Err e => mret (Err e)
  | Ok (format, contentType, data) =>
      source ← writeDocumentArtifactTempFile format data;
      mret (sourcePath ← source;
            Ok (mkImport sourcePath (tp_TargetPath plan) contentType ["." +:+ format] [Dir sourcePath]
                  (tp_MaxBytes plan) (tp_Overwrite plan) updatedBy))
  end.

(** The result of the agent comes as the message its text is. *)
Definition BuildImportParamsFromTarget (target : gval) (rawResult : RawMessage) (runID : Z) (updatedBy : string)
  : IO (result error ImportLocalFileParams) :=
  if String.eqb (TrimSpace (str_val (field "source_text_field" target))) EmptyString
  then mret (plan ← BuildArtifactImportPlan (Some target) rawResult runID;
             Ok (mkImport (ip_SourcePath plan) (ip_TargetPath plan) (ip_ContentType plan) (ip_AllowedExtensions plan)
                   (ip_AllowedSourceRoots plan) (ip_MaxBytes plan) (ip_Overwrite plan) updatedBy))
  else match BuildArtifactTextPlan (Some target) rawResult runID with
       | Err e => mret (Err e)
       | Ok plan => BuildImportParams plan updatedBy
       end.
End import.

(** ** The cross-reference table *)

(** The object of each listed number starts at the offset noted for it. *)
Definition placed (p : pdf) (ids : list nat) : Prop :=
  forall id, id ∈ ids -> exists pre post,
    pdf_buf p = pre +:+ object_head id +:+ post /\ pdf_offsets p !! id = Some (String.length pre).

Lemma placed_append p ids s : placed p ids -> placed (append s p) ids.
Proof.
  intros H id Hid. destruct (H id Hid) as (pre & post & Hb & Ho). exists pre, (post +:+ s).
  cbn. split; [|done]. by rewrite Hb, <- !str_app_assoc.
Qed.

Lemma placed_note p ids id s :
  id < length (pdf_offsets p) -> placed p ids -> placed (append (object_head id +:+ s) (note id p)) (id :: ids).
Proof.
  intros Hlt H i Hi. destruct (decide (i = id)) as [->|Hne].
  - exists (pdf_buf p), s. cbn. by rewrite list_lookup_insert_eq.
  - apply elem_of_cons in Hi as [->|Hi]; [done|]. destruct (H i Hi) as (pre & post & Hb & Ho).
    exists pre, (post +:+ object_head id +:+ s). cbn. rewrite list_lookup_insert_ne by done. split; [|done].
    by rewrite Hb, <- !str_app_assoc.
Qed.

Lemma writePDFObject_placed p ids id body :
  id < length (pdf_offsets p) -> placed p ids -> placed (writePDFObject id body p) (id :: ids).
Proof. intros. by apply placed_note. Qed.

Lemma writePDFStreamObject_placed p ids id content :
  id < length (pdf_offsets p) -> placed p ids -> placed (writePDFStreamObject id content p) (id :: ids).
Proof. intros. unfold writePDFStreamObject. by apply placed_append, placed_append, placed_note. Qed.

Lemma writePDFObject_slots id body p : length (pdf_offsets (writePDFObject id body p)) = length (pdf_offsets p).
Proof. apply length_insert. Qed.

Lemma writePDFStreamObject_slots id c p : length (pdf_offsets (writePDFStreamObject id c p)) = length (pdf_offsets p).
Proof. apply length_insert. Qed.

Lemma write_pages_placed pages i p ids :
  6 + (i + length pages) * 2 <= length (pdf_offsets p) -> placed p ids -> (forall id, 1 <= id < 6 + i * 2 -> id ∈ ids) ->
  exists ids', placed (write_pages i pages p) ids' /\ forall id, 1 <= id < 6 + (i + length pages) * 2 -> id ∈ ids'.
Proof.
  revert i p ids. induction pages as [|page pages IH]; intros i p ids Hlen Hp Hids; cbn [write_pages length] in *.
  - exists ids. split; [done|]. intros id Hid. apply Hids. lia.
  - destruct (IH (S i) (writePDFStreamObject (6 + i * 2 + 1) (pdfPageContent page) (writePDFObject (6 + i * 2) (page_object (6 + i * 2 + 1)) p))
                ((6 + i * 2 + 1) :: (6 + i * 2) :: ids)) as (ids' & H1 & H2).
    + rewrite writePDFStreamObject_slots, writePDFObject_slots. lia.
    + apply writePDFStreamObject_placed; [rewrite writePDFObject_slots; lia|]. apply writePDFObject_placed; [lia|done].
    + intros id Hid. rewrite !elem_of_cons. destruct (decide (id < 6 + i * 2)); [right; right; apply Hids; lia|].
      destruct (decide (id = 6 + i * 2)); [auto|]. left. lia.
    + exists ids'. split; [done|]. intros id Hid. apply H2. lia.
Qed.

Lemma pdf_objects_placed pages id :
  1 <= id <= 5 + length pages * 2 -> exists pre post,
    pdf_buf (pdf_objects pages) = pre +:+ object_head id +:+ post
    /\ pdf_offsets (pdf_objects pages) !! id = Some (String.length pre).
Proof.
  intros Hid. unfold pdf_objects.
  edestruct (write_pages_placed pages 0) as (ids & Hp & Hall); [| | |apply Hp, Hall; lia].
  - rewrite !writePDFObject_slots. cbn [pdf_offsets]. rewrite length_replicate. lia.
  - repeat (apply writePDFObject_placed; [rewrite ?writePDFObject_slots; cbn [pdf_offsets]; rewrite length_replicate; lia|]).
    intros i Hi. by apply elem_of_nil in Hi.
  - intros i Hi. rewrite !elem_of_cons. lia.
Qed.

Lemma padded_length k n : String.length (digits k n) = k.
Proof. revert n. induction k as [|k IH]; intros n; [done|]. cbn [digits]. rewrite str_length_app, IH. cbn. lia. Qed.

Lemma xref_entry_length off : (N.of_nat off < 10000000000)%N -> String.length (xref_entry off) = 20.
Proof.
  intros H. unfold xref_entry, pad10. rewrite (proj2 (N.ltb_lt _ _) H), !str_length_app, padded_length. done.
Qed.

(** What follows the body of a file with the objects at the offsets. *)
Definition xref_of (offs : list nat) (start : nat) : string :=
  "xref" +:+ nl +:+ "0 " +:+ pretty (length offs + 1)%nat +:+ nl
  +:+ "0000000000 65535 f " +:+ nl +:+ concat_str (xref_entry <$> offs)
  +:+ "trailer" +:+ nl +:+ "<< /Size " +:+ pretty (length offs + 1)%nat +:+ " /Root 1 0 R >>" +:+ nl
  +:+ "startxref" +:+ nl +:+ pretty start +:+ nl +:+ "%%EOF" +:+ nl.

(** The cross-reference table of a PDF is exact.  The file is a body followed by a
    table whose start is the length of the body; the table has one entry per object,
    which for the object numbered [id] is the offset of the bytes that open it; and in a
    file below 10^10 bytes every entry has the 20 bytes the format demands. *)
Theorem pdf_xref_exact pages :
  exists body offs,
    buildPDF pages = body +:+ xref_of offs (String.length body)
    /\ length offs = 5 + length pages * 2
    /\ (forall i off, offs !! i = Some off -> off < String.length body /\ HasPrefix (str_drop off (buildPDF pages)) (object_head (S i)) = true)
    /\ ((N.of_nat (String.length body) < 10000000000)%N -> Forall (fun off => String.length (xref_entry off) = 20) offs).
Proof.
  set (n := 5 + length pages * 2). set (p := pdf_objects pages).
  set (offs := (fun id => default 0 (pdf_offsets p !! id)) <$> seq 1 n).
  assert (length offs = n) as Hlen by (unfold offs; by rewrite length_fmap, length_seq).
  assert (buildPDF pages = pdf_buf p +:+ xref_of offs (String.length (pdf_buf p))) as Hbuild.
  { unfold buildPDF, writePDFXref, xref_of. rewrite Hlen. unfold offs. rewrite <- list_fmap_compose. done. }
  assert (forall i off, offs !! i = Some off -> off < String.length (pdf_buf p)
    /\ HasPrefix (str_drop off (buildPDF pages)) (object_head (S i)) = true) as Hoff.
  { intros i off Hi. unfold offs in Hi. apply list_lookup_fmap_Some in Hi as (id & -> & Hid).
    apply lookup_seq in Hid as [-> Hin]. destruct (pdf_objects_placed pages (1 + i)) as (pre & post & Hb & Ho); [lia|].
    unfold p. rewrite Ho. cbn [from_option id]. split.
    - rewrite Hb, !str_length_app. unfold object_head. rewrite !str_length_app. cbn. lia.
    - apply HasPrefix_iff. rewrite Hbuild. unfold p. rewrite Hb, <- !str_app_assoc, str_drop_app. eauto. }
  exists (pdf_buf p), offs. split_and!; [done|done|done|]. intros Hsmall. apply Forall_forall. intros off Hin.
  apply xref_entry_length. apply list_elem_of_lookup_1 in Hin as [i Hi]. apply Hoff in Hi as [Hlt _]. lia.
Qed.

(** ** Lines and pages *)

Definition width_of (l : list rune) : nat := sum_list (weight <$> l).

Lemma encode_rune_nonempty r : 0 < String.length (encode_rune r).
Proof. unfold encode_rune. repeat case_match; cbn; lia. Qed.

Lemma encode_runes_nonempty l : (0 <? String.length (encode_runes l))%nat = negb (bool_decide (l = [])).
Proof.
  destruct l as [|r l]; [done|]. cbn [encode_runes fold_right]. rewrite str_length_app.
  pose proof (encode_rune_nonempty r). apply Nat.ltb_lt. lia.
Qed.

Lemma width_of_app l1 l2 : width_of (l1 ++ l2) = width_of l1 + width_of l2.
Proof. unfold width_of. by rewrite fmap_app, sum_list_with_app. Qed.

Lemma weight_bound r : weight r <= 2.
Proof. unfold weight. case_match; lia. Qed.

Lemma encode_snoc cur r : encode_runes cur +:+ encode_rune r = encode_runes (cur ++ [r]).
Proof. rewrite encode_runes_app. cbn. by rewrite str_app_nil_r. Qed.

(** The pieces are a partition of the runes into lines that fit. *)
Lemma wrap_loop_spec maxWidth l cur :
  2 <= maxWidth -> width_of cur <= maxWidth ->
  exists parts, wrap_loop maxWidth l (encode_runes cur) (width_of cur) = encode_runes <$> parts
    /\ concat parts = cur ++ l /\ Forall (fun p => width_of p <= maxWidth) parts.
Proof.
  intros Hmax. revert cur. induction l as [|r l IH]; intros cur Hcur; cbn [wrap_loop]; rewrite encode_runes_nonempty.
  - rewrite app_nil_r. destruct (bool_decide_reflect (cur = [])) as [->|_]; cbn [negb].
    + by exists [].
    + exists [cur]. cbn. rewrite app_nil_r. by repeat constructor.
  - pose proof (weight_bound r). destruct (_ && _) eqn:E.
    + destruct (IH [r]) as (parts & Hw & Hc & Hf); [cbn; lia|]. exists (cur :: parts). rewrite fmap_cons. split_and!.
      * f_equal. rewrite <- Hw. f_equal; cbn; [by rewrite str_app_nil_r|lia].
      * cbn. by rewrite Hc.
      * by constructor.
    + assert (width_of cur + weight r <= maxWidth).
      { apply andb_false_iff in E as [E|E]; [apply Nat.ltb_ge in E; lia|]. apply negb_false_iff, bool_decide_eq_true in E as ->.
        cbn. lia. }
      destruct (IH (cur ++ [r])) as (parts & Hw & Hc & Hf); [rewrite width_of_app; cbn; lia|].
      exists parts. split_and!; [|by rewrite Hc, <- app_assoc|done]. rewrite <- Hw, encode_snoc, width_of_app. f_equal. cbn. lia.
Qed.

Definition printed (parts : list (list rune)) : list string := encode_runes <$> parts.

(** The pieces of a source line: all of its runes, in order, or one empty piece. *)
Definition line_parts (maxWidth : nat) (line : string) (parts : list (list rune)) : Prop :=
  concat parts = (if blank line then [] else runes line) /\ Forall (fun p => width_of p <= maxWidth) parts /\ parts <> [].

Lemma wrapPDFLine_spec line maxWidth :
  2 <= maxWidth -> exists parts, wrapPDFLine line maxWidth = printed parts /\ line_parts maxWidth line parts.
Proof.
  intros Hmax. unfold wrapPDFLine, line_parts. destruct (blank line) eqn:Hb.
  - exists [[]]. split_and!; [done|done| |done]. repeat constructor. cbn. lia.
  - destruct (wrap_loop_spec maxWidth (runes line) [] Hmax) as (parts & Hw & Hc & Hf); [cbn; lia|]. exists parts. split_and!; [done..|].
    intros ->. cbn in Hc. destruct line; [done|]. unfold runes in Hc. by rewrite chunks_step in Hc.
Qed.

Lemma wrapPDFLines_spec lines maxWidth :
  2 <= maxWidth -> exists parts, wrapPDFLines lines maxWidth = concat (printed <$> parts)
    /\ Forall2 (line_parts maxWidth) lines parts.
Proof.
  intros Hmax. unfold wrapPDFLines. induction lines as [|line lines (parts & Hw & Hf)]; [by exists []|].
  destruct (wrapPDFLine_spec line maxWidth Hmax) as (ps & Hp & Hl). exists (ps :: parts). cbn.
  rewrite Hp, Hw. split; [done|by constructor].
Qed.

Lemma page_loop_spec fuel lines pageSize :
  0 < pageSize -> length lines <= fuel ->
  concat (page_loop fuel lines pageSize) = lines
  /\ Forall (fun p => 1 <= length p <= pageSize) (page_loop fuel lines pageSize).
Proof.
  intros Hk. revert lines. induction fuel as [|fuel IH]; intros [|x lines] Hlen; cbn [page_loop length] in *; [done|lia|done|].
  destruct (IH (drop pageSize (x :: lines))) as [Hc Hf]; [rewrite length_drop; cbn; lia|]. split.
  - cbn [concat]. by rewrite Hc, take_drop.
  - constructor; [|done]. rewrite length_take. cbn. lia.
Qed.

Lemma paginateLines_spec lines pageSize :
  0 < pageSize -> lines <> [] ->
  concat (paginateLines lines pageSize) = lines
  /\ Forall (fun p => 1 <= length p <= pageSize) (paginateLines lines pageSize).
Proof. intros. destruct lines; [done|]. by apply page_loop_spec. Qed.

Lemma split_on_nonempty sep s : split_on sep s <> [].
Proof. destruct s; [done|]. cbn. by repeat case_match. Qed.

(** A rendered PDF shows the whole text.  Rendering a text that is not blank succeeds,
    and the pages, of 1 to 48 printed lines each, hold in order the source lines: the
    runes of each line that is not blank, cut into pieces at most 82 columns wide, and one
    empty line for each blank one. *)
Theorem pdf_shows_text text :
  blank text = false ->
  exists lines pages parts,
    normalizedDocumentLines text = Ok lines
    /\ renderPDFDocument text = Ok (buildPDF pages)
    /\ Forall (fun p => 1 <= length p <= 48) pages
    /\ concat pages = concat (printed <$> parts)
    /\ Forall2 (line_parts 82) lines parts.
Proof.
  intros Hb. unfold renderPDFDocument, normalizedDocumentLines. unfold blank in Hb. rewrite Hb. set (lines := split_on _ _).
  destruct (wrapPDFLines_spec lines 82) as (parts & Hw & Hp); [lia|].
  assert (lines <> []) as Hs by apply split_on_nonempty. clearbody lines.
  assert (wrapPDFLines lines 82 <> []) as Hne.
  { rewrite Hw. destruct Hp as [|line ps ls pss (_ & _ & Hps) _]; [done|]. by destruct ps. }
  destruct (paginateLines_spec (wrapPDFLines lines 82) 48) as [Hc Hf]; [lia|done|].
  exists lines, (paginateLines (wrapPDFLines lines 82) 48), parts. split_and!; [done|done|done| |done]. by rewrite Hc, Hw.
Qed.

Lemma pdf_shows_text_witness :
  blank ("one" +:+ cr +:+ nl +:+ nl +:+ "two") = false
  /\ exists lines pages parts,
    normalizedDocumentLines ("one" +:+ cr +:+ nl +:+ nl +:+ "two") = Ok lines
    /\ renderPDFDocument ("one" +:+ cr +:+ nl +:+ nl +:+ "two") = Ok (buildPDF pages)
    /\ Forall (fun p => 1 <= length p <= 48) pages
    /\ concat pages = concat (printed <$> parts)
    /\ Forall2 (line_parts 82) lines parts.
Proof. split; [vm_compute; reflexivity|]. apply pdf_shows_text. vm_compute. reflexivity. Defined.

Example pages_ex : paginateLines (wrapPDFLines ["a"; EmptyString; "b"] 82) 2 = [["a"; EmptyString]; ["b"]].
Proof. vm_compute. reflexivity. Qed.

Example ext_ex : Ext "a.b/c.docx" = ".docx" /\ Ext "a.b/c" = EmptyString /\ Ext "a." = ".".
Proof. vm_compute. done. Qed.

Example utf16_ex : pdfUTF16Hex "A" = "0041".
Proof. vm_compute. reflexivity. Qed.
