(* ===== verification/Subscriber.v ===== *)
(** * Completed turns

    Models [dag_turn_completed_subscriber.go], [dag_subscriber_module.go],
    [sharedfileowner/owner.go], [stop_helper.go] and the enqueueing half of
    [turncompletionretry/turncompletionretry.go]: the turn of an agent ends, the nodes
    that carry its thread are found, their output is materialised (in the node, in a
    shared file with a marker of its owner, or as an imported artifact), and each node is
    completed or failed; what the store refuses is queued as a repair.  Metrics and
    lifecycle hooks only observe and are left out; the published status changes are
    kept. *)

From S2P Require Import Prelude GoStrings Json DagStore NodeConfig WakeupPayload RunStore WakeupLease RetryPolicy Effects AgentExecutor NodeRouter Dispatcher DocumentArtifact.

(** [turndto.TurnCompleted], as far as it is read. *)
Record TurnCompleted := mkTurn {
  tc_ThreadID : string; tc_TurnID : string; tc_Success : bool; tc_Error : string; tc_Reason : string;
  tc_Result : string; tc_Summary : string; tc_Message : string;
}.

Definition completeNodeResultCap : Z := 4 * 1024.

Definition FirstTrimmed (values : list string) : string :=
  default EmptyString (List.find (fun v => negb (String.eqb v EmptyString)) (TrimSpace <$> values)).

(** [turnCompletedReportText] of a successful turn. *)
Definition turnCompletedReportText (ev : TurnCompleted) : string := FirstTrimmed [tc_Result ev; tc_Summary ev; tc_Message ev].

(** ** The store *)

Definition carries (threadID : string) (n : Node) : bool :=
  bool_decide (nd_SpawningThreadID n = Some threadID) && bool_decide (is_Some (nd_RunID n)).

(** The rows in table order; the query sorts them by their last update. *)
Definition LookupNodesBySpawningThread (threadID : string) : M (list Node) :=
  s ← get_db; mret (List.filter (carries threadID) (db_nodes s)).

Record OutputMaterializationClaimInput := mkOutputClaim { oc_DagKey : string; oc_NodeKey : string; oc_RunID : Z; oc_Result : RawMessage }.

Definition claimable (input : OutputMaterializationClaimInput) (n : Node) : bool :=
  run_node (oc_DagKey input) (oc_NodeKey input) (oc_RunID input) n && (0 <? oc_RunID input)%Z
  && str_in (nd_Status n) ["ready"; "running"].

Definition ClaimNodeOutputMaterialization (json_ok : RawMessage -> bool) (input : OutputMaterializationClaimInput) : M Node :=
  _ ← requireRuntimeRunID "claim_output_materialization" (oc_RunID input);
  rows ← write_nodes json_ok (oc_Result input) (claimable input) (set_result (oc_Result input));
  _ ← requireSingleNodeWrite rows;
  GetTaskDagRunNodeForUpdate (oc_DagKey input) (oc_NodeKey input) (oc_RunID input).

(** ** Results *)

(** [json.Marshal] of a string replaces what is not UTF-8. *)
Definition json_string (s : string) : json := JStr (encode_runes (runes s)).

Record turnOutputMaterializationFailure := mkMatFailure { mf_Reason : string; mf_SizeCapExceeded : bool }.

Definition validationMaterializationFailure (reason : string) : turnOutputMaterializationFailure :=
  mkMatFailure ("validation: " +:+ reason) false.

Definition infrastructureMaterializationFailure (reason : string) : turnOutputMaterializationFailure :=
  mkMatFailure ("infrastructure: " +:+ reason) false.

Definition classifyMaterializationFailure (failure : option turnOutputMaterializationFailure) : string :=
  match failure with
  | None => FailureClassValidation
  | Some f => if HasPrefix (mf_Reason f) "infrastructure:" then FailureClassInfrastructure else FailureClassValidation
  end.

Record turnOutputMaterialization := mkMaterialization {
  tm_Result : RawMessage; tm_SharedfilePath : string; tm_RawResult : string; tm_Artifact : option ImportLocalFileParams;
}.

Definition artifactUpdatedBy : string := "dag-artifact".

Definition encodeSharedfileResultRef (path : string) : RawMessage :=
  RawJSON (JObj [("sharedfile", JObj [("path", json_string path)])]).

Definition configuredSharedfilePath (outputs : gval) : string :=
  match ptr_val (field "to_sharedfile" outputs) with
  | None => EmptyString
  | Some target => TrimSpace (str_val (field "path" target))
  end.

Definition shouldMaterializeAgentNodeResult (outputs : gval) : bool :=
  bool_val (field "to_node_result" outputs) || String.eqb (configuredSharedfilePath outputs) EmptyString.

Section results.
(** The message that a text is, and the length of a message. *)
Context (message : string -> RawMessage) (byte_len : RawMessage -> Z) (Error : error -> string).

Definition encodeTurnResultForNodeUpdate (raw : string) : RawMessage :=
  let trimmed := TrimSpace raw in
  if String.eqb trimmed EmptyString then RawJSON (JObj [])
  else match message trimmed with
       | RawJSON j => RawJSON j
       | _ => RawJSON (JObj [("text", json_string raw)])
       end.

Definition parseAgentOutputConfig (raw : RawMessage) : result turnOutputMaterializationFailure gval :=
  map_err (fun e => validationMaterializationFailure ("decode agent config: " +:+ Error e)) (ParseAgentConfig raw).

Definition agentNodeUsesArtifactResult (rawConfig : RawMessage) : bool :=
  match ParseAgentConfig rawConfig with
  | Ok cfg => bool_decide (is_Some (ptr_val (field "to_artifact" (field "outputs" cfg))))
  | Err _ => false
  end.

Definition size_cap_failure (size : Z) : turnOutputMaterializationFailure :=
  mkMatFailure ("result exceeds 4KB size cap (" +:+ pretty size +:+ " > " +:+ pretty completeNodeResultCap
                +:+ " bytes), configure outputs.to_sharedfile (ADR-006)") true.

Definition buildAgentNodeResult (rawResult : string) (emit : bool) : result turnOutputMaterializationFailure RawMessage :=
  if negb emit then Ok RawEmpty
  else
    let nodeResult := encodeTurnResultForNodeUpdate rawResult in
    if (byte_len nodeResult <=? completeNodeResultCap)%Z then Ok nodeResult
    else Err (size_cap_failure (byte_len nodeResult)).

Definition finalAgentMaterializedResult (rawResult : string) (nodeResult : RawMessage) (path : string) (emit : bool) : RawMessage :=
  if emit then nodeResult
  else if negb (String.eqb path EmptyString) then encodeSharedfileResultRef path
  else encodeTurnResultForNodeUpdate rawResult.

(** The output of an agent node that imports no artifact. *)
Definition prepare_agent_result (outputs : gval) (rawResult : string) : result turnOutputMaterializationFailure turnOutputMaterialization :=
  let path := configuredSharedfilePath outputs in
  let emitNodeResult := shouldMaterializeAgentNodeResult outputs in
  let empty := String.eqb (TrimSpace rawResult) EmptyString in
  if empty && negb (String.eqb path EmptyString)
  then Ok (mkMaterialization (finalAgentMaterializedResult rawResult RawEmpty path emitNodeResult) path rawResult None)
  else if empty && emitNodeResult then Err (validationMaterializationFailure "empty agent output")
  else
    nodeResult ← buildAgentNodeResult rawResult emitNodeResult;
    Ok (mkMaterialization (finalAgentMaterializedResult rawResult nodeResult path emitNodeResult) path rawResult None).

(** The import parameters are built by the caller's [build]. *)
Definition prepareArtifactTurnCompletedResult (build : gval -> RawMessage -> IO (result error ImportLocalFileParams))
    (target : gval) (rawResult : string) : IO (result turnOutputMaterializationFailure turnOutputMaterialization) :=
  params ← build target (message (TrimSpace rawResult));
  mret (match params with
        | Err e => Err (validationMaterializationFailure ("outputs.to_artifact: " +:+ Error e))
        | Ok params => Ok (mkMaterialization (encodeSharedfileResultRef (im_TargetPath params)) EmptyString EmptyString (Some params))
        end).

Definition prepareTurnCompletedResult (build : gval -> RawMessage -> IO (result error ImportLocalFileParams))
    (node : Node) (rawResult : string) : IO (result turnOutputMaterializationFailure turnOutputMaterialization) :=
  if negb (String.eqb (TrimSpace (nd_NodeType node)) "agent")
  then mret (Ok (mkMaterialization (encodeTurnResultForNodeUpdate rawResult) EmptyString EmptyString None))
  else match parseAgentOutputConfig (nd_Config node) with
  | Err failure => mret (Err failure)
  | Ok cfg =>
      match ptr_val (field "to_artifact" (field "outputs" cfg)) with
      | Some target => prepareArtifactTurnCompletedResult build target rawResult
      | None => mret (prepare_agent_result (field "outputs" cfg) rawResult)
      end
  end.
End results.

(** ** Owners of shared files *)

Record Owner := mkOwner { ow_DagKey : string; ow_NodeKey : string; ow_RunID : Z; ow_ThreadID : string; ow_TurnID : string }.

Definition ErrInvalidOwner : string := "ErrInvalidOwner".

Definition owner_error (what : string) : error := Errorf [ErrInvalidOwner] (Sprintf "%w: missing %s" [what]).

Definition validate (owner : Owner) : option error :=
  let missing (s : string) := String.eqb (TrimSpace s) EmptyString in
  if missing (ow_DagKey owner) then Some (owner_error "dag_key")
  else if missing (ow_NodeKey owner) then Some (owner_error "node_key")
  else if (ow_RunID owner <=? 0)%Z then Some (owner_error "run_id")
  else if missing (ow_ThreadID owner) then Some (owner_error "thread_id")
  else if missing (ow_TurnID owner) then Some (owner_error "turn_id")
  else None.

Definition IsValidation (e : error) : bool := errors_Is e ErrInvalidOwner.

Definition MarkerPath (path : string) : string := "_internal/dag-output-ownership/" +:+ TrimSpace path +:+ ".metadata.json".

Definition marker_t : gty := TStruct [
  ("dag_key", TString); ("node_key", TString); ("run_id", TInt); ("thread_id", TString); ("turn_id", TString); ("updated_at", TString)].

Definition marker_doc (owner : Owner) (updatedAt : string) : json := JObj [
  ("dag_key", json_string (TrimSpace (ow_DagKey owner))); ("node_key", json_string (TrimSpace (ow_NodeKey owner)));
  ("run_id", JNum (pretty (ow_RunID owner))); ("thread_id", json_string (TrimSpace (ow_ThreadID owner)));
  ("turn_id", json_string (TrimSpace (ow_TurnID owner))); ("updated_at", JStr updatedAt)].

Section owner.
(** Whether a text is a time of RFC 3339. *)
Context (message : string -> RawMessage) (is_time : string -> bool).

Definition matches (raw : string) (owner : Owner) : bool :=
  match Unmarshal (C := error) false no_custom marker_t (message (TrimSpace raw)) with
  | Err _ => false
  | Ok got =>
      is_time (TrimSpace (str_val (field "updated_at" got)))
      && String.eqb (str_val (field "dag_key" got)) (TrimSpace (ow_DagKey owner))
      && String.eqb (str_val (field "node_key" got)) (TrimSpace (ow_NodeKey owner))
      && (int_val (field "run_id" got) =? ow_RunID owner)%Z
      && String.eqb (str_val (field "thread_id" got)) (TrimSpace (ow_ThreadID owner))
      && String.eqb (str_val (field "turn_id" got)) (TrimSpace (ow_TurnID owner))
  end.

Definition HasCurrent (reader : option SharedFileReader) (path : string) (owner : Owner) : IO (result error bool) :=
  match reader with
  | None => mret (Err (plain_error "SharedFileReader not wired"))
  | Some reader =>
      match validate owner with
      | Some e => mret (Err e)
      | None =>
          content ← ask (fun i => reader i path);
          match content with
          | Err e => mret (Err e)
          | Ok None => mret (Ok false)
          | Ok (Some _) =>
              marker ← ask (fun i => reader i (MarkerPath path));
              mret (match marker with
                    | Err e => Err e
                    | Ok None => Ok false
                    | Ok (Some raw) => Ok (matches raw owner)
                    end)
          end
      end
  end.
End owner.

(** A writer answers with an error or none. *)
Definition SharedFileWriter : Type := nat -> string -> string -> option error.

Definition write_file (writer : SharedFileWriter) (path content : string) : IO (option error) :=
  failed ← ask (fun i => writer i path content);
  match failed with
  | Some e => mret (Some e)
  | None => _ ← emit (FileWritten path content); mret None
  end.

Section subscriber.
Context `{EN : Env}.

Definition encode (owner : Owner) (now : Z) : string := raw_text (RawJSON (marker_doc owner (time_text now))).

Definition Write (writer : option SharedFileWriter) (path content : string) (owner : Owner) : IO (option error) :=
  match writer with
  | None => mret (Some (plain_error "SharedFileWriter not wired"))
  | Some writer =>
      match validate owner with
      | Some e => mret (Some e)
      | None =>
          failed ← write_file writer path content;
          match failed with
          | Some e => mret (Some (Errorf (err_is e) (Sprintf "write %q: %w" [path])))
          | None =>
              now ← ask clock;
              failed ← write_file writer (MarkerPath path) (encode owner now);
              mret ((fun e => Errorf (err_is e) (Sprintf "write owner marker %q: %w" [MarkerPath path])) <$> failed)
          end
      end
  end.

(** ** Stopping the agent of a thread *)

(** The thread of an agent as persisted. *)
Record PersistedThread := mkThread { pt_AgentID : string; pt_Status : string }.

(** The ports to the persisted threads and to the service. *)
Record StopPorts := mkStopPorts {
  GetByThreadID : nat -> string -> result error (option PersistedThread);
  UpdateStatus : nat -> string -> string -> option error;
  StopAgent : nat -> string -> option error;
}.

Inductive StopResult :=
| StopResultSuccess | StopResultSkippedAlreadyStopped | StopResultSkippedAlreadyArchived | StopResultSkippedBindingMissing
| StopResultSkippedNoThreadID | StopResultSkippedLookupFailed | StopResultFailed.

Definition errAgentNotFound : string := "ErrAgentNotFound".
Definition errAgentNotRunningForStopper : string := "errAgentNotRunningForStopper".
Definition errAgentStoppingForStopper : string := "errAgentStoppingForStopper".

Definition isThreadNotFound (e : error) : bool := errors_Is e errAgentNotFound || errors_Is e ErrNotFound.

Definition classifyStopError (err : option error) : StopResult :=
  match err with
  | None => StopResultSuccess
  | Some e =>
      if errors_Is e errAgentNotFound then StopResultSkippedAlreadyArchived
      else if errors_Is e errAgentNotRunningForStopper || errors_Is e errAgentStoppingForStopper then StopResultSkippedAlreadyStopped
      else StopResultFailed
  end.

Definition stopped_result (r : StopResult) : bool :=
  match r with StopResultSuccess | StopResultSkippedAlreadyStopped | StopResultSkippedAlreadyArchived => true | _ => false end.

Definition finalizeStopOutcome (r : StopResult) (stopErr : option error) : StopResult * option error :=
  (r, if stopped_result r then None else stopErr).

(** The agent and the row of the thread, or the result of a preflight that failed. *)
Definition resolveAgentIDForStop (ports : StopPorts) (threadID : string)
  : IO (result (StopResult * option error) (string * PersistedThread)) :=
  if String.eqb threadID EmptyString then mret (Err (StopResultSkippedNoThreadID, None))
  else
    thread ← ask (fun i => GetByThreadID ports i threadID);
    mret (match thread with
          | Err e => Err (if isThreadNotFound e then StopResultSkippedNoThreadID else StopResultSkippedLookupFailed, Some e)
          | Ok None => Err (StopResultSkippedNoThreadID, None)
          | Ok (Some thread) =>
              let agentID := TrimSpace (pt_AgentID thread) in
              if String.eqb agentID EmptyString then Err (StopResultSkippedBindingMissing, None) else Ok (agentID, thread)
          end).

Definition StopSpawnedAgent (ports : StopPorts) (threadID : string) : IO (StopResult * option error) :=
  let threadID := TrimSpace threadID in
  resolved ← resolveAgentIDForStop ports threadID;
  match resolved with
  | Err early => mret early
  | Ok (agentID, thread) =>
      stopErr ← ask (fun i => StopAgent ports i agentID);
      let r := classifyStopError stopErr in
      _ ← emit (StopAsked threadID (stopped_result r));
      let status := ToLower (TrimSpace (pt_Status thread)) in
      updateErr ← if stopped_result r && negb (String.eqb status "archived") && negb (String.eqb status "stopped")
                  then ask (fun i => UpdateStatus ports i threadID "stopped") else mret None;
      mret (match updateErr with
            | Some e => (StopResultFailed, Some e)
            | None => finalizeStopOutcome r stopErr
            end)
  end.

(** ** Repairs *)

Definition TargetAgentID : string := "mcp-orch".

(** [turncompletionretry.Enqueue]. *)
Definition Enqueue (node : Node) (result : RawMessage) : IO (option error) :=
  let runID := taskNodeRunID node in
  if (runID <=? 0)%Z then mret (Some (plain_error "runtime run_id required for turn.completed completion retry"))
  else match result with
  | RawEmpty => mret (Some (plain_error "turn.completed completion retry result is empty"))
  | RawBad => mret (Some (plain_error "turn.completed completion retry result is not valid JSON"))
  | _ =>
      queued ← call (fun now => EnqueueWakeup byte_len (sql_ms now)
                 (mkEnqueue (nd_DagKey node) (nd_NodeKey node) runID completion_retry_kind TargetAgentID result
                    (IdempotencyKey (nd_DagKey node) (nd_NodeKey node) runID)));
      mret (err_of queued)
  end.

(** [terminalFailureCompensationPayload]. *)
Definition compensation_doc (reason : string) (storeErr : error) (failFast : bool) : RawMessage :=
  RawJSON (JObj [("reason", json_string (TrimSpace reason)); ("store_error", json_string (Error storeErr)); ("fail_fast", JBool failFast)]).

Definition EnqueueTerminalFailureCompensation (node : Node) (reason : string) (storeErr : error) (failFast : bool) : IO (option error) :=
  let runID := taskNodeRunID node in
  if (runID <=? 0)%Z then mret (Some (plain_error "terminal failure compensation runtime run_id required"))
  else
    queued ← call (fun now => EnqueueWakeup byte_len (sql_ms now)
               (mkEnqueue (nd_DagKey node) (nd_NodeKey node) runID TerminalFailureCompensationKind TargetAgentID
                  (compensation_doc reason storeErr failFast)
                  (TerminalFailureCompensationID (nd_DagKey node) (nd_NodeKey node) runID)));
    mret ((fun e => Errorf (err_is e) (Sprintf "enqueue terminal failure compensation: %w" [])) <$> err_of queued).

(** ** Published changes *)

(** [nodeevents.Publish]; an event without identity is dropped. *)
Definition PublishFields (oldStatus newStatus dagKey nodeKey : string) (runID : Z) : IO unit :=
  let '(dagKey, nodeKey, newStatus) := (TrimSpace dagKey, TrimSpace nodeKey, TrimSpace newStatus) in
  if String.eqb dagKey EmptyString || String.eqb nodeKey EmptyString || String.eqb newStatus EmptyString || (runID <=? 0)%Z
  then mret tt else emit (StatusChanged dagKey nodeKey runID (TrimSpace oldStatus) newStatus).

Definition Publish (oldStatus : string) (node : Node) : IO unit :=
  PublishFields oldStatus (nd_Status node) (nd_DagKey node) (nd_NodeKey node) (taskNodeRunID node).

Fixpoint publish_all {A} (publish : A -> IO unit) (l : list A) : IO unit :=
  match l with [] => mret tt | a :: l => _ ← publish a; publish_all publish l end.

Definition PublishComplete (oldStatus : string) (res : CompleteNodeWithDownstreamResult) : IO unit :=
  _ ← Publish oldStatus (cd_Node res);
  publish_all (fun p => PublishFields "pending" "ready" (pd_DagKey p) (pd_NodeKey p) (pd_RunID p)) (cd_PromotedDownstream res).

Definition PublishFail (oldStatus : string) (res : FailNodeResult) : IO unit :=
  _ ← Publish (if String.eqb (TrimSpace oldStatus) EmptyString then fx_OldStatus res else oldStatus) (fx_Node res);
  publish_all (fun c => PublishFields "pending" "failed" (cx_DagKey c) (cx_NodeKey c) (cx_RunID c)) (fx_CanceledDownstream res).

(** ** Advancing a node *)

(** The ports of the subscriber.  [sd_order] is the order the lookup answers in; the
    last four are the zip writer, temporary files, the JSON message of a text, and
    whether a text is a time. *)
Record DAGSubscriberDeps := mkDeps {
  sd_reader : option SharedFileReader;
  sd_writer : option SharedFileWriter;
  sd_importer : option (nat -> ImportLocalFileParams -> option error);
  sd_stop : option StopPorts;
  sd_order : nat -> list Node -> list Node;
  sd_zip : list (string * string) -> result error string;
  sd_temp_file : nat -> string -> string -> result error string;
  sd_message : string -> RawMessage;
  sd_is_time : string -> bool;
}.

Context (deps : DAGSubscriberDeps).

(** Whether the node was failed by this call, and an error that keeps the event. *)
Definition advanceNodeFailedWithReason (node : Node) (reason : string) (failFast : bool) : IO (bool * option error) :=
  res ← call (fun _ => FailNodeAndCancelDownstream reencode
          (mkFail (nd_DagKey node) (nd_NodeKey node) (taskNodeRunID node) reason failFast 0 0));
  match res with
  | Ok res => _ ← PublishFail (nd_Status node) res; mret (true, None)
  | Err e =>
      if errors_Is e ErrNotFound then mret (false, None)
      else
        failed ← EnqueueTerminalFailureCompensation node reason e failFast;
        mret (false, (fun c => Errorf (err_is e ++ err_is c) (Sprintf "fail DAG node: %w" [])) <$> failed)
  end.

Definition advanceNodeFailed (node : Node) (ev : TurnCompleted) : IO (option error) :=
  let reason := FirstTrimmed [tc_Error ev; tc_Reason ev; "turn_completed_failure"] in
  '(_, err) ← advanceNodeFailedWithReason node reason false;
  mret err.

Definition handleMaterializationFailure (node : Node) (failure : turnOutputMaterializationFailure) : IO (option error) :=
  '(_, err) ← advanceNodeFailedWithReason node (mf_Reason failure) true;
  mret err.

Definition claimNodeOutputMaterialization (node : Node) (result : RawMessage) : IO (bool * option error) :=
  updated ← call (fun _ => ClaimNodeOutputMaterialization json_ok
              (mkOutputClaim (nd_DagKey node) (nd_NodeKey node) (taskNodeRunID node) result));
  match updated with
  | Ok updated => _ ← Publish (nd_Status node) updated; mret (true, None)
  | Err e =>
      if errors_Is e ErrNotFound then mret (false, None)
      else mret (false, Some (Errorf (err_is e) (Sprintf "claim DAG output materialization: %w" [])))
  end.

Definition sharedfileOwnerFailure (reason : string) (err : error) : turnOutputMaterializationFailure :=
  if IsValidation err then validationMaterializationFailure reason else infrastructureMaterializationFailure reason.

Definition writeAgentTurnSharedfile (path rawResult : string) (owner : Owner) : IO (option turnOutputMaterializationFailure) :=
  if String.eqb path EmptyString then mret None
  else
    failed ← Write (sd_writer deps) path rawResult owner;
    mret ((fun e => sharedfileOwnerFailure ("outputs.to_sharedfile[" +:+ path +:+ "]: " +:+ Error e) e) <$> failed).

(** The result to complete the node with, or the end of the event: handled, or with an
    error. *)
Definition materialize_end (node : Node) (failure : turnOutputMaterializationFailure) : IO (result (option error) RawMessage) :=
  err ← handleMaterializationFailure node failure; mret (Err err).

Definition materializeSharedfileAfterClaim (node : Node) (m : turnOutputMaterialization) (owner : Owner)
  : IO (result (option error) RawMessage) :=
  let path := tm_SharedfilePath m in
  if String.eqb path EmptyString then mret (Ok (tm_Result m))
  else if String.eqb (TrimSpace (tm_RawResult m)) EmptyString then
    current ← HasCurrent (sd_message deps) (sd_is_time deps) (sd_reader deps) path owner;
    match current with
    | Err e => materialize_end node (sharedfileOwnerFailure ("outputs.to_sharedfile[" +:+ path +:+ "]: " +:+ Error e) e)
    | Ok false => materialize_end node (validationMaterializationFailure "empty agent output and configured sharedfile lacks current-run ownership marker")
    | Ok true =>
        '(claimed, err) ← claimNodeOutputMaterialization node (tm_Result m);
        mret (match claimed, err with true, None => Ok (tm_Result m) | _, err => Err err end)
    end
  else
    '(claimed, err) ← claimNodeOutputMaterialization node (tm_Result m);
    match claimed, err with
    | true, None =>
        failure ← writeAgentTurnSharedfile path (tm_RawResult m) owner;
        match failure with
        | Some failure => materialize_end node failure
        | None => mret (Ok (tm_Result m))
        end
    | _, err => mret (Err err)
    end.

Definition ErrImportValidation : string := "ErrImportValidation".

Definition artifactImportFailure (targetPath : string) (err : error) : turnOutputMaterializationFailure :=
  let reason := "outputs.to_artifact[" +:+ targetPath +:+ "]: " +:+ Error err in
  if errors_Is err ErrImportValidation then validationMaterializationFailure reason else infrastructureMaterializationFailure reason.

Definition materializeArtifactAfterClaim (node : Node) (m : turnOutputMaterialization) (params : ImportLocalFileParams)
  : IO (result (option error) RawMessage) :=
  match sd_importer deps with
  | None => materialize_end node (infrastructureMaterializationFailure "outputs.to_artifact: ArtifactImporter not wired")
  | Some import =>
      '(claimed, err) ← claimNodeOutputMaterialization node (tm_Result m);
      match claimed, err with
      | true, None =>
          failed ← ask (fun i => import i params);
          match failed with
          | Some e => materialize_end node (artifactImportFailure (im_TargetPath params) e)
          | None => _ ← emit (FileImported (im_TargetPath params)); mret (Ok (tm_Result m))
          end
      | _, err => mret (Err err)
      end
  end.

Definition materializeTurnOutputAfterClaim (node : Node) (m : turnOutputMaterialization) (owner : Owner)
  : IO (result (option error) RawMessage) :=
  match tm_Artifact m with
  | Some params => materializeArtifactAfterClaim node m params
  | None => materializeSharedfileAfterClaim node m owner
  end.

Definition completion_input (node : Node) (result : RawMessage) : CompleteNodeInput :=
  mkComplete "done" result (nd_DagKey node) (nd_NodeKey node) (taskNodeRunID node) 0 0.

Definition advanceNodeDone (node : Node) (result : RawMessage) : IO (option error) :=
  res ← call (fun now => CompleteNodeAndScheduleDownstream byte_len (time_text now) (sql_ms now) json_ok reencode
          (completion_input node result));
  match res with
  | Ok res => _ ← PublishComplete (nd_Status node) res; mret None
  | Err e =>
      if errors_Is e ErrNotFound then mret None
      else
        failed ← Enqueue node result;
        mret ((fun r => Errorf (err_is e ++ err_is r) (Sprintf "complete DAG node: %w" [])) <$> failed)
  end.

Definition owner_of (node : Node) (ev : TurnCompleted) : Owner :=
  mkOwner (TrimSpace (nd_DagKey node)) (TrimSpace (nd_NodeKey node)) (taskNodeRunID node) (TrimSpace (tc_ThreadID ev)) (TrimSpace (tc_TurnID ev)).

Definition advanceNodeDoneForSuccess (node : Node) (rawResult : string) (ev : TurnCompleted) : IO (option error) :=
  prepared ← prepareTurnCompletedResult (sd_message deps) byte_len Error
               (fun target raw => BuildImportParamsFromTarget (sd_zip deps) (sd_temp_file deps) target raw (taskNodeRunID node) artifactUpdatedBy)
               node rawResult;
  match prepared with
  | Err failure => handleMaterializationFailure node failure
  | Ok m =>
      out ← materializeTurnOutputAfterClaim node m (owner_of node ev);
      match out with
      | Err err => mret err
      | Ok result => advanceNodeDone node result
      end
  end.

(** The text of a turn that a node is completed with. *)
Definition turn_result (node : Node) (ev : TurnCompleted) : string :=
  if String.eqb (TrimSpace (nd_NodeType node)) "agent" && negb (agentNodeUsesArtifactResult (nd_Config node))
  then turnCompletedReportText ev else tc_Result ev.

Definition advanceNodeForTurnCompleted (node : Node) (ev : TurnCompleted) : IO (option error) :=
  if isTerminalNodeStatus (nd_Status node) then mret None
  else if tc_Success ev then advanceNodeDoneForSuccess node (turn_result node ev) ev
  else advanceNodeFailed node ev.

Definition stopSpawnedAgentForSubscriber (threadID : string) : IO unit :=
  match sd_stop deps with
  | None => mret tt
  | Some ports => _ ← StopSpawnedAgent ports threadID; mret tt
  end.

(** Whether the context of the subscriber is canceled. *)
Definition ctx_err : IO (option error) :=
  ask (fun i => if existsb (fun t => match t with Shutdown => true | _ => false end) (ticks i) then Some context_canceled else None).

Fixpoint advance_all (nodes : list Node) (ev : TurnCompleted) : IO (option error) :=
  match nodes with
  | [] => mret None
  | node :: nodes =>
      canceled ← ctx_err;
      match canceled with
      | Some e => mret (Some e)
      | None =>
          err ← advanceNodeForTurnCompleted node ev;
          match err with
          | Some e => mret (Some e)
          | None => advance_all nodes ev
          end
      end
  end.

(** An error keeps the event for another delivery. *)
Definition projectDAGTurnCompleted (ev : TurnCompleted) : IO (option error) :=
  let threadID := TrimSpace (tc_ThreadID ev) in
  if String.eqb threadID EmptyString then mret None
  else
    nodes ← call (fun _ => LookupNodesBySpawningThread threadID);
    match nodes with
    | Err e => mret (Some e)
    | Ok nodes =>
        order ← ask (fun i => sd_order deps i nodes);
        match order with
        | [] => mret None
        | _ =>
            err ← advance_all order ev;
            match err with
            | Some e => mret (Some e)
            | None => _ ← stopSpawnedAgentForSubscriber threadID; mret None
            end
        end
    end.

(** The direct subscription drops the error. *)
Definition handleDAGTurnCompleted (ev : TurnCompleted) : IO unit := _ ← projectDAGTurnCompleted ev; mret tt.
End subscriber.
