(* ===== verification/TurnStore.v ===== *)
(** * The transactions of the turn subscriber

    How completing, failing and claiming a node and queueing a wakeup move the database
    ([steps]: rows keep their identity, a status stays, becomes terminal or leaves
    pending, runs only stop, wakeups stay), and when they answer that a row is missing
    ([complete_missing], [fail_missing], [claim_missing]): only when the row they are
    about is not there to be moved. *)

From S2P Require Import Prelude GoStrings Json DagStore NodeConfig WakeupPayload RunStore RunEffects WakeupLease RetryPolicy Effects AgentExecutor NodeRouter Dispatcher DocumentArtifact Subscriber NodeStatus Cycle Plan ApplyOps TemplateInvariant DagService RunService ScheduledStart LeaseProtocol.

(** ** How the transactions move the rows *)

Definition same_row (n n' : Node) : Prop :=
  nd_DagKey n' = nd_DagKey n /\ nd_NodeKey n' = nd_NodeKey n /\ nd_RunID n' = nd_RunID n
  /\ nd_SpawningThreadID n' = nd_SpawningThreadID n.

Definition open_status (st : string) : bool := str_in st ["ready"; "running"].

(** No node is opened again: an open node was open, or it was waiting for others; and no
    node waits again. *)
Definition moves (n n' : Node) : Prop :=
  same_row n n' /\ (open_status (nd_Status n') = true -> open_status (nd_Status n) = true \/ nd_Status n = "pending")
  /\ (nd_Status n' = "pending" -> nd_Status n = "pending").

Definition ended_statuses : list string := ["succeeded"; "failed"; "cancelled"].

(** A run keeps its identity; its status stays or is one of those that end it. *)
Definition run_moves (r r' : Run) : Prop :=
  rn_ID r' = rn_ID r /\ rn_RunKey r' = rn_RunKey r /\ rn_DagKey r' = rn_DagKey r /\ rn_DagVersionSnapshot r' = rn_DagVersionSnapshot r
  /\ (rn_Status r' = rn_Status r \/ rn_Status r' ∈ ended_statuses).

Lemma run_moves_running r r' : run_moves r r' -> rn_Status r' = "running" -> rn_Status r = "running".
Proof. intros (_ & _ & _ & _ & [<-|H]) E; [done|]. rewrite E in H. unfold ended_statuses in H. set_solver. Qed.

Record steps (s s' : db) : Prop := {
  st_nodes : Forall2 moves (db_nodes s) (db_nodes s');
  st_dags : db_dags s' = db_dags s;
  st_rows : Forall2 run_moves (db_runs s) (db_runs s');
  st_keys : wk_IdempotencyKey <$> db_wakeups s ⊆ wk_IdempotencyKey <$> db_wakeups s';
}.

Lemma moves_refl n : moves n n.
Proof. unfold moves, same_row. split_and!; auto. Qed.

Lemma moves_trans n1 n2 n3 : moves n1 n2 -> moves n2 n3 -> moves n1 n3.
Proof.
  intros [(A1 & A2 & A3 & A4) [B1 B2]] [(C1 & C2 & C3 & C4) [D1 D2]]. split; [unfold same_row; split_and!; congruence|].
  split; [|auto]. intros H. destruct (D1 H) as [H'|H']; [by apply B1|right; by apply B2].
Qed.

#[export] Instance moves_preorder : PreOrder moves.
Proof. split; [exact moves_refl|exact moves_trans]. Qed.

#[export] Instance run_moves_preorder : PreOrder run_moves.
Proof.
  split; [intros r; unfold run_moves; split_and!; auto|]. intros r1 r2 r3 (A & B & C & D & E) (A' & B' & C' & D' & E').
  unfold run_moves. split_and!; [congruence..|]. destruct E' as [->|E']; [done|by right].
Qed.

#[export] Instance steps_preorder : PreOrder steps.
Proof.
  split; [intros s; by split|]. intros s1 s2 s3 [A B C D] [A' B' C' D']. split; [by etrans|congruence|by etrans|by etrans].
Qed.

Lemma rows_fmap {A} (f : Run -> A) l l' : Forall2 run_moves l l' -> (forall r r', run_moves r r' -> f r' = f r) -> f <$> l' = f <$> l.
Proof. intros H Hf. induction H as [|r r' l l' Hr _ IH]; [done|]. by rewrite !fmap_cons, IH, (Hf _ _ Hr). Qed.

Lemma st_ids s s' : steps s s' -> rn_ID <$> db_runs s' = rn_ID <$> db_runs s.
Proof. intros H. eapply rows_fmap; [apply H|]. by intros r r' (-> & _). Qed.

Lemma st_run_keys s s' : steps s s' -> rn_RunKey <$> db_runs s' = rn_RunKey <$> db_runs s.
Proof. intros H. eapply rows_fmap; [apply H|]. by intros r r' (_ & -> & _). Qed.

Lemma st_runs s s' dagKey runID : steps s s' -> run_running dagKey runID s' -> run_running dagKey runID s.
Proof.
  intros [_ _ H _]. unfold run_running. induction H as [|r r' l l' Hm _ IH]; [done|]. pose proof (run_moves_running _ _ Hm) as Hs. destruct Hm as (Hi & _ & Hd & _). cbn [existsb].
  rewrite !orb_true_iff. intros [Hr|Hr]; [left|by right; apply IH]. unfold running_row, run_row in *. rewrite Hi, Hd in Hr. go_bool. rewrite Hs by done.
  subst. by rewrite String.eqb_refl, Z.eqb_refl.
Qed.

Definition steps_of {A} (m : M A) : Prop := forall s a s', m s = Ok (a, s') -> steps s s'.

Lemma steps_bind {A B} (m : M A) (f : A -> M B) : steps_of m -> (forall a, steps_of (f a)) -> steps_of (m ≫= f).
Proof. intros Hm Hf s b s' H. tx_ok. etrans; [by eapply Hm|by eapply Hf]. Qed.

Lemma steps_read {A} (m : M A) : (forall s a s', m s = Ok (a, s') -> s' = s) -> steps_of m.
Proof. intros H s a s' Hm. by rewrite (H _ _ _ Hm). Qed.

Lemma steps_ret {A} (a : A) : steps_of (mret a).
Proof. apply steps_read. intros s b s' H. by tx_ok. Qed.
Lemma steps_get : steps_of get_db.
Proof. apply steps_read. intros s b s' H. by tx_ok. Qed.
Lemma steps_lift {A} (r : result error A) : steps_of (lift r).
Proof. apply steps_read. intros s b s' H. by tx_ok. Qed.
Lemma steps_guard b e : steps_of (guardM b e).
Proof. apply steps_read. intros s u s' H. by tx_ok. Qed.
Lemma steps_fail {A} (e : error) : steps_of (A := A) (fail e).
Proof. intros s b s' H. by tx_ok. Qed.

Lemma steps_with_nodes s (f : Node -> Node) : (forall n, n ∈ db_nodes s -> moves n (f n)) -> steps s (with_nodes s (f <$> db_nodes s)).
Proof.
  intros Hf. split; [|done..]. cbn. apply Forall2_fmap_r, Forall2_same_length_lookup. split; [done|]. intros i x y Hx Hy. simplify_eq. apply Hf.
  by eapply list_elem_of_lookup_2.
Qed.

Lemma steps_update_nodes w g : (forall n, w n = true -> moves n (g n)) -> steps_of (update_nodes w g).
Proof.
  intros Hg s a s' H. apply update_nodes_Ok in H as [-> _]. apply steps_with_nodes. intros n _.
  destruct (w n) eqn:E; [by apply Hg|apply moves_refl].
Qed.

Lemma steps_write_nodes json_ok v w g : (forall n, w n = true -> moves n (g n)) -> steps_of (write_nodes json_ok v w g).
Proof. intros Hg s a s' H. apply write_nodes_Ok in H. by eapply steps_update_nodes. Qed.

Lemma steps_update_runs w g : (forall r, w r = true -> run_moves r (g r)) -> steps_of (update_runs w g).
Proof.
  intros Hg s a s' H. apply update_runs_Ok in H as [-> _]. split; cbn; [done|done| |done].
  apply Forall2_fmap_r, Forall_Forall2_diag, Forall_forall. intros r _. cbn. destruct (w r) eqn:E; [by apply Hg|done].
Qed.

(** A write of wakeups keeps their keys. *)
Lemma steps_update_wakeups w g : (forall x, wk_IdempotencyKey (g x) = wk_IdempotencyKey x) -> steps_of (update_wakeups w g).
Proof.
  intros Hg s a s' H. unfold update_wakeups, sql_update in H. tx_ok. split; cbn; [done..|].
  rewrite <- list_fmap_compose. intros k (x & -> & Hx)%list_elem_of_fmap. apply list_elem_of_fmap. exists x. split; [|done]. cbn. by destruct (w x).
Qed.

Lemma steps_put_wakeup s w : steps s (with_wakeups s (db_wakeups s ++ [w])).
Proof. split; cbn; [done..|rewrite fmap_app; set_solver]. Qed.

(** A node that leaves for a status that is neither open nor waiting. *)
Definition closed_status (st : string) : Prop := open_status st = false /\ st <> "pending".

Lemma moves_closed n n' : same_row n n' -> closed_status (nd_Status n') -> moves n n'.
Proof. intros Hr [Ho Hp]. unfold moves. rewrite Ho. by split_and!. Qed.

Lemma moves_status n n' : same_row n n' -> nd_Status n' = nd_Status n -> moves n n'.
Proof. intros Hr Hs. unfold moves. rewrite Hs. split_and!; auto. Qed.

(** A node that waited, or was open, is opened. *)
Lemma moves_ready n n' : nd_Status n = "pending" \/ open_status (nd_Status n) = true -> same_row n n' -> nd_Status n' <> "pending" -> moves n n'.
Proof. intros [H|H] Hr Hp; unfold moves; split_and!; auto; by intros ?. Qed.

Lemma moves_failed reason n : moves n (failed_row reason n).
Proof. by apply moves_closed. Qed.

Lemma moves_result v n : moves n (set_result v n).
Proof. by apply moves_status. Qed.

Lemma moves_completed input n : ci_Status input = "done" -> moves n (completed_row input n).
Proof. intros H. apply moves_closed; [done|]. cbn. by rewrite H. Qed.

Create HintDb steps discriminated.
#[export] Hint Resolve steps_ret steps_get steps_lift steps_guard steps_fail moves_failed moves_result moves_completed : steps.

(** Walks through a transaction. *)
Ltac tx_steps :=
  repeat first
    [ solve [eauto with steps]
    | match goal with
      | |- steps_of (_ ≫= _) => apply steps_bind; [|intros]
      | |- steps_of (update_nodes _ _) => apply steps_update_nodes; intros
      | |- steps_of (write_nodes _ _ _ _) => apply steps_write_nodes; intros
      | |- steps_of (update_wakeups _ _) => apply steps_update_wakeups; intros; reflexivity
      | |- steps_of (update_runs _ _) => apply steps_update_runs; intros; unfold run_moves; cbn; unfold running_row in *; go_bool; auto 6
      end
    | case_match ].

Section transactions.
Context (byte_len : RawMessage -> Z) (now_text : string) (now_ms : Z) (json_ok : RawMessage -> bool) (reencode : json -> json).

Lemma steps_require op r : steps_of (requireRuntimeRunID op r).
Proof. unfold requireRuntimeRunID. tx_steps. Qed.
Lemma steps_fence op a b : steps_of (requireWakeupAttemptFence op a b).
Proof. unfold requireWakeupAttemptFence. tx_steps. Qed.
Lemma steps_single rows : steps_of (requireSingleNodeWrite rows).
Proof. unfold requireSingleNodeWrite. tx_steps. Qed.
Lemma steps_affected op rows : steps_of (requireSingleAffectedRow op rows).
Proof. unfold requireSingleAffectedRow. tx_steps. Qed.
Lemma steps_node dagKey nodeKey runID : steps_of (GetTaskDagRunNodeForUpdate dagKey nodeKey runID).
Proof. unfold GetTaskDagRunNodeForUpdate. tx_steps. Qed.
Lemma steps_list dagKey runID : steps_of (ListRunNodes dagKey runID).
Proof. unfold ListRunNodes. tx_steps. Qed.
Lemma steps_dag dagKey : steps_of (GetDAG dagKey).
Proof. unfold GetDAG. tx_steps. Qed.
#[local] Hint Resolve steps_require steps_fence steps_single steps_affected steps_node steps_list steps_dag : steps.

Lemma steps_event dagKey runID e : steps_of (appendTaskDagRunEvent dagKey runID e).
Proof. unfold appendTaskDagRunEvent. tx_steps. Qed.
#[local] Hint Resolve steps_event : steps.

Lemma steps_enqueue_tx input : steps_of (enqueueWakeupTx byte_len now_ms input).
Proof. intros s a s' H. unfold enqueueWakeupTx in H. tx_ok. destruct (List.find _ _); tx_ok; [done|]. apply steps_put_wakeup. Qed.
#[local] Hint Resolve steps_enqueue_tx : steps.

Lemma steps_enqueue input : steps_of (EnqueueWakeup byte_len now_ms input).
Proof. unfold EnqueueWakeup. tx_steps. Qed.
#[local] Hint Resolve steps_enqueue : steps.

Lemma steps_try cand : steps_of (tryEnqueueDownstream byte_len now_text now_ms cand).
Proof. unfold tryEnqueueDownstream, appendDispatchBlockedEvent. tx_steps. Qed.
#[local] Hint Resolve steps_try : steps.

Lemma steps_schedule cands completed m acc : steps_of (schedule_loop byte_len now_text now_ms cands completed m acc).
Proof.
  revert acc. induction cands as [|c cands IH]; intros acc; cbn [schedule_loop]; [tx_steps|].
  apply steps_bind; [|intros []; apply IH].
  unfold scheduleDownstreamCandidateTx, promoteDownstreamCandidateTx, PromoteSingleNodePendingToReady. tx_steps.
  go_bool. apply moves_ready; [by left|done..].
Qed.
#[local] Hint Resolve steps_schedule : steps.

Lemma steps_final_output dagKey runID : steps_of (writeRunFinalOutputMetadataTx reencode dagKey runID).
Proof.
  unfold writeRunFinalOutputMetadataTx, buildRunFinalOutputMetadataTx, loadRunFinalNodeKeyTx, loadRunFinalOutputNodeTx,
    updateRunFinalOutputMetadataTx. tx_steps.
Qed.
#[local] Hint Resolve steps_final_output : steps.

Lemma finalized_ended statuses status : finalizedRunStatus statuses = Some status -> status ∈ ended_statuses.
Proof.
  assert (forall l st st', st ∈ ended_statuses -> finalized_from st l = Some st' -> st' ∈ ended_statuses) as Hl.
  { induction l as [|x l IH]; intros st st' Hst; cbn [finalized_from]; [by intros [= <-]|]. repeat case_match; try done; apply IH; try done; unfold ended_statuses; set_solver. }
  unfold finalizedRunStatus. case_match; [done|]. apply Hl. unfold ended_statuses. set_solver.
Qed.

Lemma steps_finalize dagKey runID : steps_of (maybeFinalizeRunTx reencode dagKey runID).
Proof.
  unfold maybeFinalizeRunTx, ListTaskDagRunNodeStatuses, finalizeRunRowTx. tx_steps. split_and!; [done..|right].
  by eapply finalized_ended.
Qed.
#[local] Hint Resolve steps_finalize : steps.

Lemma steps_schedule_all node : steps_of (scheduleDownstreamWakeupsTx byte_len now_text now_ms node).
Proof. unfold scheduleDownstreamWakeupsTx. tx_steps. Qed.
#[local] Hint Resolve steps_schedule_all : steps.

(** What a completion does after the row is written. *)
Definition after_row (node : Node) : M CompleteNodeWithDownstreamResult :=
  '(scheduled, promoted) ← (if String.eqb (nd_Status node) terminalSuccessStatus
                            then scheduleDownstreamWakeupsTx byte_len now_text now_ms node else mret ([], []));
  finalized ← maybeFinalizeRunTx reencode (nd_DagKey node) (runIDValue (nd_RunID node));
  mret (mkCompleteResult node scheduled finalized promoted).

Lemma steps_after_row node : steps_of (after_row node).
Proof. unfold after_row. tx_steps. Qed.

Lemma steps_complete_row input : ci_Status input = "done" -> steps_of (CompleteNode json_ok input).
Proof. intros H. unfold CompleteNode. tx_steps. Qed.

Lemma steps_complete input : ci_Status input = "done" ->
  steps_of (CompleteNodeAndScheduleDownstream byte_len now_text now_ms json_ok reencode input).
Proof.
  intros H. unfold CompleteNodeAndScheduleDownstream, lockRunForCompletionTx.
  do 2 (apply steps_bind; [tx_steps|intros _]). apply steps_bind; [by apply steps_complete_row|exact steps_after_row].
Qed.

Lemma steps_cancel fuel deps m dagKey key runID reason visited queue canceled :
  steps_of (cancel_loop fuel deps m dagKey key runID reason visited queue canceled).
Proof.
  revert visited queue canceled. induction fuel as [|fuel IH]; intros visited [|k queue] canceled; cbn [cancel_loop]; [tx_steps..|].
  unfold cascadeFailPendingNodeTx. tx_steps.
Qed.
#[local] Hint Resolve steps_cancel : steps.

Lemma steps_fail_row dagKey key runID w a reason : steps_of (failNodeTx dagKey key runID w a reason).
Proof. unfold failNodeTx, wakeupFenceMatches, GetTaskDagWakeup. tx_steps. Qed.
#[local] Hint Resolve steps_fail_row : steps.

Lemma steps_cancel_all dagKey key runID reason : steps_of (cancelDownstreamTx dagKey key runID reason).
Proof. unfold cancelDownstreamTx. tx_steps. Qed.
#[local] Hint Resolve steps_cancel_all : steps.

Lemma steps_fail_node input : steps_of (FailNodeAndCancelDownstream reencode input).
Proof. unfold FailNodeAndCancelDownstream, failNodeAndCancelDownstreamTx, lockedNodeStatusBeforeFailTx. tx_steps. Qed.

Lemma steps_claim_output input : steps_of (ClaimNodeOutputMaterialization json_ok input).
Proof. unfold ClaimNodeOutputMaterialization. tx_steps. Qed.

(** *** Transactions of the queue and of the controller *)

Lemma steps_claim now input : steps_of (ClaimDueWakeups now input).
Proof. unfold ClaimDueWakeups, nextWakeupClaimFence, ClaimDueTaskDagWakeups, ListTaskDagWakeupsByClaimFence. tx_steps. Qed.

Lemma steps_renew now interval f : steps_of (RenewWakeupLease now interval f).
Proof. unfold RenewWakeupLease, GetTaskDagWakeup. tx_steps. Qed.

Lemma steps_sent now f : steps_of (MarkWakeupSent now f).
Proof. unfold MarkWakeupSent. tx_steps. Qed.

Lemma steps_bind_turn turnID id b : steps_of (bindWakeupTurnTx turnID id b).
Proof. unfold bindWakeupTurnTx. tx_steps. Qed.
#[local] Hint Resolve steps_bind_turn : steps.

Lemma moves_active t w n : moves n (set_active t w n).
Proof. by apply moves_status. Qed.
Lemma moves_config c n : moves n (set_config c n).
Proof. by apply moves_status. Qed.
Lemma moves_assigned a n : moves n (set_assigned a n).
Proof. by apply moves_status. Qed.
#[local] Hint Resolve moves_active moves_config moves_assigned : steps.

Lemma steps_bind_node input : steps_of (BindRunningNodeTurn input).
Proof. unfold BindRunningNodeTurn. tx_steps. Qed.

Lemma steps_retry now input : steps_of (RetryWakeup now input).
Proof. unfold RetryWakeup, RetryTaskDagWakeup. tx_steps. Qed.

Lemma steps_retry_patch now same_config retry patch : steps_of (RetryWakeupWithNodeConfigPatch json_ok now same_config retry patch).
Proof. unfold RetryWakeupWithNodeConfigPatch, RetryTaskDagWakeup, PatchTaskDagNodeConfigIfUnchanged. tx_steps. Qed.

Lemma steps_fail_wakeup now f e : steps_of (FailWakeup now f e).
Proof. unfold FailWakeup. tx_steps. Qed.
#[local] Hint Resolve steps_fail_wakeup : steps.

Lemma steps_fail_both now f e node : steps_of (FailWakeupAndFailNodeAndCancelDownstream reencode now f e node).
Proof. unfold FailWakeupAndFailNodeAndCancelDownstream, failNodeAndCancelDownstreamTx, lockedNodeStatusBeforeFailTx. tx_steps. Qed.

Lemma steps_reclaim : steps_of (ReclaimOnce now_ms).
Proof.
  unfold ReclaimOnce, ReclaimStaleDispatchingWakeups, MarkDispatchIncompleteNodesWithoutActiveWakeup. tx_steps. by apply moves_closed.
Qed.

Lemma steps_threads dagKey runID : steps_of (runSpawnedThreadIDs dagKey runID).
Proof. unfold runSpawnedThreadIDs. tx_steps. Qed.
#[local] Hint Resolve steps_threads : steps.

Lemma steps_terminate input : steps_of (TerminateRun input).
Proof using Type.
  unfold TerminateRun, terminateRunTx, CancelTaskDagRunNodes, CancelTaskDagRunWakeups, cancelTaskDagRunRow, cancelledRunSpawnedThreadIDs.
  tx_steps; first [by apply moves_closed|split_and!; [done..|right; apply list_elem_of_In; cbn; auto]].
Qed.

Lemma steps_fence_tx now f dagKey key runID : steps_of (validateWakeupFenceTx now f dagKey key runID).
Proof. unfold validateWakeupFenceTx, GetTaskDagWakeup. tx_steps. Qed.
#[local] Hint Resolve steps_fence_tx : steps.

Lemma steps_running now ctxFence input : ru_Status input = "running" -> steps_of (UpdateRunningNodeStatus json_ok now ctxFence input).
Proof.
  intros Hst. unfold UpdateRunningNodeStatus, UpdateRunningTaskDagNodeStatus. tx_steps.
  all: go_bool; apply moves_ready; [|done|cbn; by rewrite Hst]; match goal with H : str_in (nd_Status _) _ = true |- _ => apply str_in_elem in H end;
    unfold open_status; rewrite str_in_elem; set_solver.
Qed.

(** A status update that opens no node that was closed. *)
Definition opens_nothing (input : NodeStatusUpdate) : Prop :=
  nu_Status input <> "pending"
  /\ (open_status (nu_Status input) = true -> open_status (nu_ExpectedStatus input) = true \/ nu_ExpectedStatus input = "pending").

Lemma steps_status input : opens_nothing input -> steps_of (store_UpdateNodeStatus json_ok input).
Proof.
  intros [Hp Ho]. unfold store_UpdateNodeStatus. tx_steps. go_bool. unfold moves. cbn. split_and!; [done..| |done].
  match goal with H : nd_Status _ = nu_ExpectedStatus _ |- _ => by rewrite H end.
Qed.

Lemma steps_dispatch req : steps_of (DispatchNode byte_len now_ms json_ok req).
Proof.
  unfold DispatchNode, findDispatchTarget, blockDispatchIncomplete, MarkDispatchIncompleteIfMissingWakeup, assignAndEnqueueDispatch,
    AssignNodeAndEnqueueWakeup, validateAssignNodeAndEnqueueWakeupInput, AssignTaskDagNode. tx_steps.
  - by apply steps_status; split.
Qed.

Lemma steps_roots dagKey runID : steps_of (ScheduleRootWakeups byte_len now_text now_ms dagKey runID).
Proof.
  unfold ScheduleRootWakeups. tx_steps. match goal with |- steps_of (root_loop _ _ _ ?l _ ?z) => generalize l, z end.
  intros l. induction l as [|n l IH]; intros z; cbn [root_loop]; [tx_steps|]. unfold scheduleRootWakeup, appendDispatchBlockedEvent. tx_steps; apply IH.
Qed.

Lemma steps_promote_roots dagKey runID : steps_of (PromoteAndScheduleRunRoots byte_len now_text now_ms dagKey runID).
Proof.
  unfold PromoteAndScheduleRunRoots, PromoteRootNodesToReady. apply steps_bind; [tx_steps|intros; apply steps_bind; [apply steps_roots|intros; apply steps_ret]].
  go_bool. apply moves_ready; [by left|done..].
Qed.
End transactions.

(** ** Transactions of any process *)

(** What creating a run does before its roots are scheduled. *)
Definition created (s s' : db) : Prop :=
  exists input run s1 u dagKey, CreateRun input s = Ok (run, s1) /\ CloneNodesForRun dagKey (rn_ID run) s1 = Ok (u, s').

(** Only templates change, and no DAG goes away. *)
Record edits (s s' : db) : Prop := {
  ed_runs : db_runs s' = db_runs s;
  ed_wakeups : db_wakeups s' = db_wakeups s;
  ed_nodes : forall n, is_Some (nd_RunID n) -> n ∈ db_nodes s' -> n ∈ db_nodes s;
  ed_dags : forall d, is_Some (find_dag d s) -> is_Some (find_dag d s');
}.

#[export] Instance edits_preorder : PreOrder edits.
Proof. split; [by intros s|]. intros s1 s2 s3 [] []. split; [congruence..|auto|auto]. Qed.

Lemma node_edits dagKey s s' : node_frame dagKey s s' -> edits s s'.
Proof.
  intros [A B C D]. split; [done|done| |unfold find_dag; by rewrite A]. intros n [r Hr] Hn.
  assert (n ∈ outside dagKey (db_nodes s')) as Ho.
  { unfold outside. apply list_elem_of_In, filter_In. split; [by apply list_elem_of_In|]. unfold template_of. by rewrite Hr, andb_false_r. }
  rewrite D in Ho. unfold outside in Ho. by apply list_elem_of_In, filter_In in Ho as [?%list_elem_of_In _].
Qed.

(** A statement on the DAG table that keeps the keys. *)
Lemma dags_edits w g s n s' : (forall d, w d = true -> dg_DagKey (g d) = dg_DagKey d) -> update_dags w g s = Ok (n, s') -> edits s s'.
Proof.
  intros Hg H. unfold update_dags, sql_update in H. tx_ok. split; [done..|]. intros d. unfold find_dag. cbn.
  rewrite (fmap_find (fun x => String.eqb (dg_DagKey x) d) (fun x => if w x then g x else x)).
  - intros [x ->]. by eexists.
  - intros x. destruct (w x) eqn:E; [|done]. by rewrite (Hg x E).
Qed.

Lemma find_other dagKey d (l : list DAG) : d <> dagKey ->
  List.find (fun x => String.eqb (dg_DagKey x) d) (List.filter (fun x => negb (String.eqb (dg_DagKey x) dagKey)) l) = List.find (fun x => String.eqb (dg_DagKey x) d) l.
Proof.
  intros Hd. induction l as [|x l IH]; [done|]. cbn [List.filter List.find]. destruct (String.eqb_spec (dg_DagKey x) dagKey) as [E|E]; cbn [negb].
  - rewrite IH. destruct (String.eqb_spec (dg_DagKey x) d); [congruence|done].
  - cbn [List.find]. by rewrite IH.
Qed.

Lemma find_app_l {A} (p : A -> bool) l l' x : List.find p l = Some x -> List.find p (l ++ l') = Some x.
Proof. induction l as [|y l IH]; [done|]. cbn. by destruct (p y). Qed.

Section history.
Context (byte_len : RawMessage -> Z) (json_ok : RawMessage -> bool) (reencode : json -> json) (same_config : RawMessage -> RawMessage -> bool).
Context {schedule : Type} (cron_parse : string -> option schedule) (cron_next : schedule -> Z -> Z).
Context (map_keys : adjacency_map -> list string) (map_order : forall A, list (string * A) -> list (string * A)) (row_accepted : Node -> bool).

(** Transactions that move the rows as [steps] says. *)
Inductive quiet_tx : forall A, M A -> Prop :=
| qt_complete now_text now_ms input : ci_Status input = "done" ->
    quiet_tx _ (CompleteNodeAndScheduleDownstream byte_len now_text now_ms json_ok reencode input)
| qt_fail input : quiet_tx _ (FailNodeAndCancelDownstream reencode input)
| qt_output input : quiet_tx _ (ClaimNodeOutputMaterialization json_ok input)
| qt_running now ctxFence input : ru_Status input = "running" -> quiet_tx _ (UpdateRunningNodeStatus json_ok now ctxFence input)
| qt_terminate input : quiet_tx _ (TerminateRun input)
| qt_dispatch now_ms req : quiet_tx _ (DispatchNode byte_len now_ms json_ok req)
| qt_reclaim now_ms : quiet_tx _ (ReclaimOnce now_ms)
| qt_enqueue now_ms input : quiet_tx _ (EnqueueWakeup byte_len now_ms input)
| qt_claim now input : quiet_tx _ (ClaimDueWakeups now input)
| qt_renew now interval f : quiet_tx _ (RenewWakeupLease now interval f)
| qt_sent now f : quiet_tx _ (MarkWakeupSent now f)
| qt_retry now input : quiet_tx _ (RetryWakeup now input)
| qt_retry_patch now retry patch : quiet_tx _ (RetryWakeupWithNodeConfigPatch json_ok now same_config retry patch)
| qt_fail_wakeup now f e : quiet_tx _ (FailWakeup now f e)
| qt_fail_both now f e node : quiet_tx _ (FailWakeupAndFailNodeAndCancelDownstream reencode now f e node)
| qt_bind turn id : quiet_tx _ (BindWakeupTurn turn id)
| qt_bind_node input : quiet_tx _ (BindRunningNodeTurn input).

Lemma quiet_steps A (m : M A) : quiet_tx A m -> steps_of m.
Proof.
  destruct 1; [by apply steps_complete|apply steps_fail_node|apply steps_claim_output|by apply steps_running|apply steps_terminate|apply steps_dispatch|apply steps_reclaim
    |apply steps_enqueue|apply steps_claim|apply steps_renew|apply steps_sent|apply steps_retry|apply steps_retry_patch|apply steps_fail_wakeup|apply steps_fail_both
    |apply steps_bind_turn|apply steps_bind_node].
Qed.

(** One transaction of some process; [status_ok] and [spawn_ok] say which status updates
    and which recorded threads are meant.  Deletions of DAGs are not among them. *)
Inductive db_step (status_ok : NodeStatusUpdate -> Prop) (spawn_ok : RecordNodeSpawnInput -> Prop) : db -> db -> Prop :=
| ds_quiet A (m : M A) r s s' : quiet_tx A m -> m s = Ok (r, s') -> db_step status_ok spawn_ok s s'
| ds_status input r s s' : status_ok input -> store_UpdateNodeStatus json_ok input s = Ok (r, s') -> db_step status_ok spawn_ok s s'
| ds_spawn now ctxFence input r s s' : spawn_ok input -> RecordNodeSpawn now ctxFence input s = Ok (r, s') -> db_step status_ok spawn_ok s s'
| ds_start now_text now_ms unix_nano req r s s' : StartDAG byte_len now_text now_ms unix_nano req s = Ok (r, s') -> db_step status_ok spawn_ok s s'
| ds_scheduled now_text now_ms req r s s' : Start byte_len now_text now_ms req s = Ok (r, s') -> db_step status_ok spawn_ok s s'
| ds_ops now dagKey base raw r s s' :
    ApplyOps.ApplyOps cron_parse cron_next now map_keys map_order row_accepted dagKey base raw s = Ok (r, s') -> db_step status_ok spawn_ok s s'
| ds_create req r s s' : CreateDAG map_keys row_accepted req s = Ok (r, s') -> db_step status_ok spawn_ok s s'.

Lemma ApplyOps_edits now dagKey base raw s r s' :
  ApplyOps.ApplyOps cron_parse cron_next now map_keys map_order row_accepted dagKey base raw s = Ok (r, s') -> edits s s'.
Proof.
  intros [(-> & _ & _)|(_ & _ & (d & Hd & _) & A & B & C & D)%batch_run_spec]%ApplyOps_stages; [done|].
  split; [done|done| |].
  - intros n [i Hi] Hn. assert (n ∈ outside (TrimSpace dagKey) (db_nodes s')) as Ho.
    { unfold outside. apply list_elem_of_In, filter_In. split; [by apply list_elem_of_In|]. unfold template_of. by rewrite Hi, andb_false_r. }
    rewrite C in Ho. unfold outside in Ho. by apply list_elem_of_In, filter_In in Ho as [?%list_elem_of_In _].
  - intros k. destruct (decide (k = TrimSpace dagKey)) as [->|Hk]; [intros _; by eexists|].
    unfold find_dag. by rewrite <- (find_other _ _ (db_dags s) Hk), <- D, (find_other _ _ _ Hk).
Qed.

Lemma persistDAG_edits dag s u s' : persistDAG dag s = Ok (u, s') -> edits s s'.
Proof.
  unfold persistDAG. intros H. tx_ok. destruct (find_dag (dg_DagKey dag) s) as [d|]; tx_ok.
  - match goal with Hq : requireSingleAffectedRow _ _ _ = Ok _ |- _ => apply requireSingle_Ok in Hq as [_ ->] end. eapply dags_edits; [|eassumption]; done.
  - unfold requireSingleAffectedRow in *. tx_ok. split; [done..|]. intros k. unfold find_dag. cbn. intros [x Hx]. by rewrite (find_app_l _ _ _ _ Hx).
Qed.

Lemma CreateDAG_edits req s r s' : CreateDAG map_keys row_accepted req s = Ok (r, s') -> edits s s'.
Proof.
  unfold CreateDAG, upsertDAG, UpsertDAG. intros H. tx_ok. apply loadDAGDetail_spec in H as [-> _].
  match goal with Hg : GetDAG _ _ = Ok _ |- _ => apply GetDAG_Ok in Hg as [_ ->] end.
  etrans; [by eapply persistDAG_edits|]. match goal with Hu : upsertDAGNodes _ _ _ ?a = Ok (_, ?b) |- _ => revert Hu; generalize a, b end.
  intros a b Hu. unfold upsertDAGNodes, BatchUpsertNodes in Hu. destruct (cr_Nodes req); tx_ok; [done|].
  match goal with Hf : forM _ _ _ = Ok _ |- _ => revert Hf end. apply (forM_inv (fun s1 => edits a s1)); [|done].
  intros n s1 u1 s2 _ Hprev Hn. etrans; [exact Hprev|]. eapply node_edits, UpsertNode_frame. exact Hn.
Qed.

Lemma StartDAG_cases now_text now_ms unix_nano req s r s' : StartDAG byte_len now_text now_ms unix_nano req s = Ok (r, s') ->
  exists s1, (created s s1 \/ s1 = s) /\ steps s1 s'.
Proof.
  intros H. unfold StartDAG, validateStartDAGPrereq, runStartDAGWithFallback, catch, resolveStartDAGUniqueViolation, GetRun in H. tx_ok.
  match goal with Hg : GetDAG _ _ = Ok _ |- _ => apply GetDAG_Ok in Hg as [_ ->] end. tx_ok.
  match type of H with match ?m with _ => _ end = _ => destruct m as [[a b]|e] eqn:E end.
  - injection H as <- <-. unfold startRunTx in E. tx_ok. match goal with Hl : lockDAGForRunStart _ _ = Ok _ |- _ => apply lockDAG_same in Hl as -> end.
    match goal with p : nat * Z |- _ => destruct p as [ready sched] end. tx_ok.
    eexists. split; [left; repeat eexists; eassumption|]. by eapply steps_promote_roots.
  - exists s. split; [by right|]. repeat (case_match; tx_ok; try done). by eapply steps_roots.
Qed.

Lemma advance_edits dagKey dueAt next s u s' : advanceNextRunTx dagKey dueAt next s = Ok (u, s') -> edits s s'.
Proof. unfold advanceNextRunTx, UpdateScheduledDAGNextRun. intros H. tx_ok. eapply dags_edits; [|eassumption]; done. Qed.

Lemma Start_cases now_text now_ms req s r s' : Start byte_len now_text now_ms req s = Ok (r, s') ->
  exists s1 s2, (created s s1 \/ s1 = s) /\ steps s1 s2 /\ edits s2 s'.
Proof.
  unfold Start. intros H. tx_ok. match goal with x : string * Z * Z * string |- _ => destruct x as [[[dk du] nx] ik] end. unfold catch in H.
  destruct (scheduledStartTx _ _ _ _ _ _ _ _) as [[ux sx]|e] eqn:E.
  - injection H as _ <-. unfold scheduledStartTx in E. apply M_bind_Ok in E as (? & ? & Hl & E). apply lockScheduled_same in Hl as ->. tx_ok.
    match goal with p : nat * Z |- _ => destruct p as [ready sched] end. tx_ok.
    do 2 eexists. split; [left; repeat eexists; eassumption|]. split; [by eapply steps_promote_roots|by eapply advance_edits].
  - case_match; [done|]. unfold advanceConsumedRun, GetRun in H. tx_ok. destruct (List.find _ _); [|done]. tx_ok.
    unfold catch in H. match type of H with match ?m with _ => _ end = _ => destruct m as [[u0 s0]|e0] eqn:Hb end; [|done]. injection H as -> ->. tx_ok.
    match goal with Hl : lockScheduledDAG _ _ _ = Ok _ |- _ => apply lockScheduled_same in Hl as -> end.
    do 2 eexists. split; [by right|]. split; [|by eapply advance_edits]. case_match; tx_ok; [|done]. by eapply steps_roots.
Qed.
End history.

(** ** When a row is not found *)

Definition mild (e : error) : Prop := errors_Is e ErrNotFound = false.
Definition mild_res {A} (r : result error A) : Prop := forall e, r = Err e -> mild e.

Lemma mild_ok {A} (a : A) : mild_res (Ok a).
Proof. done. Qed.
Lemma mild_err {A} (e : error) : mild e -> mild_res (A := A) (Err e).
Proof. by intros H e' [= <-]. Qed.
Lemma mild_bind {A B} (r : result error A) (f : A -> result error B) :
  mild_res r -> (forall a, mild_res (f a)) -> mild_res (r ≫= f).
Proof. intros Hr Hf. destruct r as [a|e]; [apply Hf|]. intros e' [= <-]. by apply Hr. Qed.
Lemma mild_guard b e : mild e -> mild_res (guard_err b e).
Proof. destruct b; [done|apply mild_err]. Qed.
Lemma mild_map {E A} (f : E -> error) (r : result E A) : (forall e, mild (f e)) -> mild_res (map_err f r).
Proof. intros Hf. destruct r as [a|e]; [done|]. by apply mild_err. Qed.
Lemma mild_fold {A S} (f : S -> A -> result error S) l u : (forall u a, mild_res (f u a)) -> mild_res (fold_result f l u).
Proof. intros Hf. revert u. induction l as [|a l IH]; intros u; cbn; [done|]. by apply mild_bind. Qed.

Ltac res_mild :=
  repeat first
    [ apply mild_ok
    | apply mild_err; reflexivity
    | apply mild_guard; reflexivity
    | apply mild_map; intros; reflexivity
    | apply mild_fold; intros
    | apply mild_bind; [|intros]
    | case_match ].

Lemma mild_key value : mild_res (validateWakeupIdempotencyKey value).
Proof. unfold validateWakeupIdempotencyKey. res_mild. Qed.

Lemma mild_payload byte_len kind target payload : mild_res (validateEnqueueWakeupPayload byte_len kind target payload).
Proof.
  unfold validateEnqueueWakeupPayload, validateInternalWakeupPayload, validateInternalObjectPayload, validateWakeupPayloadBranch,
    DecodeWakeupPayload, wakeupPayloadHeader, decodeDownstreamWakeupPayload, decodeLegacyWakeupPayload, validateDownstreamFields.
  res_mild.
Qed.

Lemma mild_wrap {A} (f : error -> error) (r : result error A) : (forall e, err_is (f e) = err_is e) -> mild_res r -> mild_res (map_err f r).
Proof. intros Hf Hr. destruct r as [a|e]; [done|]. apply mild_err. unfold mild, errors_Is. rewrite Hf. by apply Hr. Qed.

(** From a state with [P] a transaction ends in one, or fails otherwise than by a
    missing row. *)
Definition nf {A} (P : db -> Prop) (m : M A) : Prop :=
  forall s, P s -> match m s with Ok (_, s') => P s' | Err e => mild e end.

Lemma nf_bind {A B} P (m : M A) (f : A -> M B) : nf P m -> (forall a, nf P (f a)) -> nf P (m ≫= f).
Proof.
  intros Hm Hf s Hs. unfold mbind, M_bind. specialize (Hm s Hs). destruct (m s) as [[a s1]|e]; [by apply Hf|done].
Qed.
Lemma nf_ret {A} P (a : A) : nf P (mret a).
Proof. by intros s Hs. Qed.
Lemma nf_lift {A} P (r : result error A) : mild_res r -> nf P (lift r).
Proof. intros Hr s Hs. unfold lift. destruct r as [a|e]; [done|by apply Hr]. Qed.
Lemma nf_guard P b e : mild e -> nf P (guardM b e).
Proof. intros He s Hs. unfold guardM. by destruct b. Qed.
Lemma nf_fail {A} P (e : error) : mild e -> nf (A := A) P (fail e).
Proof. by intros He s Hs. Qed.
Lemma nf_get_bind {A} P (f : db -> M A) : (forall s, P s -> match f s s with Ok (_, s') => P s' | Err e => mild e end) -> nf P (get_db ≫= f).
Proof. intros Hf s Hs. by apply Hf. Qed.
Lemma nf_list P dagKey runID : nf P (ListRunNodes dagKey runID).
Proof. by intros s Hs. Qed.
Lemma nf_require P op r : nf P (requireRuntimeRunID op r).
Proof. by apply nf_guard. Qed.

(** [P] says nothing on nodes and wakeups. *)
Class RunsOnly (P : db -> Prop) : Prop := {
  ro_nodes s l : P s -> P (with_nodes s l);
  ro_wakeups s l : P s -> P (with_wakeups s l);
}.

Lemma nf_update_nodes P `{!RunsOnly P} w g : nf P (update_nodes w g).
Proof. intros s Hs. unfold update_nodes, sql_update. cbn. by apply ro_nodes. Qed.

Section found.
Context (byte_len : RawMessage -> Z) (now_text : string) (now_ms : Z) (json_ok : RawMessage -> bool) (reencode : json -> json).

Definition has_dag (dagKey : string) (s : db) : Prop := is_Some (find_dag dagKey s).
Definition has_run (dagKey : string) (runID : Z) (s : db) : Prop :=
  has_dag dagKey s /\ length (List.filter (running_row dagKey runID) (db_runs s)) = 1.

#[export] Instance has_dag_runs dagKey : RunsOnly (has_dag dagKey).
Proof. by split. Qed.
#[export] Instance has_run_runs dagKey runID : RunsOnly (has_run dagKey runID).
Proof. by split. Qed.

Lemma nf_enqueue P `{!RunsOnly P} input : nf P (EnqueueWakeup byte_len now_ms input).
Proof.
  unfold EnqueueWakeup. apply nf_bind; [by apply nf_guard|intros _]. apply nf_bind; [apply nf_lift, mild_key|intros _].
  apply nf_bind; [apply nf_lift, mild_wrap; [done|apply mild_payload]|intros _]. apply nf_bind; [|intros []; apply nf_ret].
  unfold enqueueWakeupTx. apply nf_bind; [apply nf_lift, mild_key|intros _]. apply nf_bind; [apply nf_lift, mild_payload|intros _].
  apply nf_get_bind. intros s Hs. destruct (List.find _ _); cbn; [done|]. by apply ro_wakeups.
Qed.

Lemma filter_map_length {A} (f : A -> bool) (g : A -> A) l :
  (forall a, f (g a) = f a) -> length (List.filter f (g <$> l)) = length (List.filter f l).
Proof. intros H. induction l as [|a l IH]; [done|]. rewrite fmap_cons. cbn [List.filter]. rewrite H. destruct (f a); cbn; lia. Qed.

Lemma update_runs_run w g s :
  update_runs w g s = Ok (length (List.filter w (db_runs s)), with_runs s ((fun r => if w r then g r else r) <$> db_runs s)).
Proof. reflexivity. Qed.

Lemma nf_event dagKey runID e : nf (has_run dagKey runID) (appendTaskDagRunEvent dagKey runID e).
Proof.
  unfold appendTaskDagRunEvent. apply nf_bind; [apply nf_require|intros _]. apply nf_get_bind. intros s [Hd Hr].
  destruct (List.find _ _) as [row|] eqn:E.
  2: { exfalso. destruct (List.filter _ _) as [|r l] eqn:F; [done|]. assert (r ∈ List.filter (running_row dagKey runID) (db_runs s)) as Hin by (rewrite F; left).
       apply list_elem_of_In, filter_In in Hin as [Hin Hrow]. eapply find_none in E; [|exact Hin]. congruence. }
  assert (nf (has_run dagKey runID) (lift (appendRunEventJSON (rn_Events row) e))) as Hl.
  { apply nf_lift. unfold appendRunEventJSON. res_mild. }
  specialize (Hl s (conj Hd Hr)). unfold mbind at 1, M_bind at 1. destruct (lift _ s) as [[ev s1]|e1] eqn:El; [|done].
  apply lift_Ok in El as [_ ->]. unfold mbind, M_bind. rewrite update_runs_run, Hr. split; [done|]. cbn [db_runs with_runs].
  rewrite filter_map_length; [done|]. intros r. by case_match.
Qed.

Lemma nf_try dagKey runID cand :
  run_of dagKey runID cand = true -> nf (has_run dagKey runID) (tryEnqueueDownstream byte_len now_text now_ms cand).
Proof.
  intros Hc. unfold run_of in Hc. go_bool. assert (nd_DagKey cand = dagKey /\ runIDValue (nd_RunID cand) = runID) as [Hd Hr].
  { destruct (nd_RunID cand); [|done]. go_bool. by subst. }
  unfold tryEnqueueDownstream, appendDispatchBlockedEvent. rewrite Hd, Hr.
  repeat case_match; repeat first [apply nf_ret|apply nf_event|apply nf_enqueue; apply _|apply nf_bind; [|intros ?]].
Qed.

Lemma nf_schedule dagKey runID cands completed m acc :
  Forall (fun c => run_of dagKey runID c = true) cands -> nf (has_run dagKey runID) (schedule_loop byte_len now_text now_ms cands completed m acc).
Proof.
  intros Hc. revert acc. induction Hc as [|c cands Hc _ IH]; intros acc; cbn [schedule_loop]; [apply nf_ret|].
  apply nf_bind; [|intros []; apply IH]. unfold scheduleDownstreamCandidateTx. apply nf_bind.
  { apply nf_lift. unfold dependsSatisfiedForUpstream. case_match; [done|]. apply mild_bind; [|done].
    apply mild_wrap; [done|]. unfold store_decodeDependsOn. res_mild. }
  intros b. case_match; [apply nf_ret|]. apply nf_bind; [apply nf_bind; [apply nf_update_nodes, _|intros; apply nf_ret]|].
  intros [p|]; [|apply nf_ret]. apply nf_bind; [by apply nf_try|intros; apply nf_ret].
Qed.

Lemma nf_update_runs dagKey w g : nf (has_dag dagKey) (update_runs w g).
Proof. intros s Hs. by rewrite update_runs_run. Qed.

Lemma nf_finish dagKey runID status : nf (has_dag dagKey) (finalizeRunRowTx dagKey runID status).
Proof.
  unfold finalizeRunRowTx. intros s Hs. unfold mbind at 1, M_bind at 1. rewrite update_runs_run.
  destruct (length _) as [|[|]] eqn:El; [done| |done]. unfold mbind at 1, M_bind at 1, get_db.
  destruct (List.find (run_row dagKey runID) _) as [r|] eqn:E; [cbn; destruct (String.eqb (rn_Status r) status); done|]. exfalso.
  destruct (List.filter _ _) as [|r l] eqn:F; [done|].
  assert (r ∈ List.filter (running_row dagKey runID) (db_runs s)) as Hin by (rewrite F; left).
  apply list_elem_of_In, filter_In in Hin as [Hin Hrow]. cbn [db_runs with_runs] in E.
  eapply (find_none _ _) in E; [|by apply list_elem_of_In, list_elem_of_fmap_2, list_elem_of_In]. cbn in E. rewrite Hrow in E.
  unfold running_row in Hrow. apply andb_true_iff in Hrow as [Hrow _]. unfold run_row in *. cbn in E. congruence.
Qed.

Lemma nf_final_output dagKey runID : nf (has_dag dagKey) (writeRunFinalOutputMetadataTx reencode dagKey runID).
Proof.
  unfold writeRunFinalOutputMetadataTx, buildRunFinalOutputMetadataTx, loadRunFinalNodeKeyTx, loadRunFinalOutputNodeTx.
  apply nf_bind.
  - apply nf_bind.
    + apply nf_bind; [|intros; apply nf_ret]. apply nf_get_bind. intros s Hs. pose proof Hs as [d Hd]. by rewrite Hd.
    + intros [key|]; [|apply nf_ret]. apply nf_bind; [by intros s Hs|]. intros [n|]; [|apply nf_ret]. apply nf_lift.
      unfold finalOutputMetadataFromNode. apply mild_bind.
      * apply mild_wrap; [done|]. unfold configuredRunFinalSharedfilePath. res_mild.
      * intros path. res_mild.
  - intros [doc|]; [|apply nf_ret]. unfold updateRunFinalOutputMetadataTx.
    apply nf_bind; [apply nf_update_runs|intros; by apply nf_guard].
Qed.

Lemma nf_finalize dagKey runID : nf (has_dag dagKey) (maybeFinalizeRunTx reencode dagKey runID).
Proof.
  unfold maybeFinalizeRunTx, ListTaskDagRunNodeStatuses. apply nf_bind; [apply nf_require|intros _].
  apply nf_bind; [apply nf_bind; [apply nf_list|intros; apply nf_ret]|intros statuses]. case_match; [|apply nf_ret].
  apply nf_bind; [apply nf_finish|]. intros [key|]; [|apply nf_ret]. apply nf_bind; [|intros; apply nf_ret].
  case_match; [apply nf_final_output|apply nf_ret].
Qed.

Lemma nf_after_row node runID s e :
  run_of (nd_DagKey node) runID node = true -> has_run (nd_DagKey node) runID s ->
  after_row byte_len now_text now_ms reencode node s = Err e -> mild e.
Proof.
  intros Hrow Hs H. assert (runIDValue (nd_RunID node) = runID) as Hid.
  { unfold run_of in Hrow. go_bool. destruct (nd_RunID node); [|done]. by go_bool. }
  unfold after_row in H. rewrite Hid in H.
  assert (nf (has_run (nd_DagKey node) runID) (if String.eqb (nd_Status node) terminalSuccessStatus
    then scheduleDownstreamWakeupsTx byte_len now_text now_ms node else mret ([], []))) as H1.
  { case_match; [|apply nf_ret]. unfold scheduleDownstreamWakeupsTx. rewrite Hid. apply nf_bind; [apply nf_require|intros _].
    intros st Hst. unfold mbind, M_bind, ListRunNodes, get_db. cbn. apply nf_schedule; [|done].
    apply Forall_forall. intros c Hc. by apply list_elem_of_In, filter_In in Hc as [_ Hc]. }
  specialize (H1 s Hs). unfold mbind at 1, M_bind at 1 in H. destruct (_ s) as [[[sch pr] s1]|e1] eqn:E1; [|by simplify_eq].
  pose proof (nf_finalize (nd_DagKey node) runID s1 (proj1 H1)) as H2. unfold mbind, M_bind in H.
  destruct (maybeFinalizeRunTx _ _ _ s1) as [[f s2]|e2]; by simplify_eq.
Qed.
Lemma M_bind_Err {A B} (m : M A) (f : A -> M B) s e :
  (m ≫= f) s = Err e -> m s = Err e \/ exists a s', m s = Ok (a, s') /\ f a s' = Err e.
Proof. unfold mbind, M_bind. destruct (m s) as [[a s1]|e1]; [right; eauto|left; congruence]. Qed.

Lemma filter_nil_Forall {A} (f : A -> bool) l : length (List.filter f l) = 0 -> Forall (fun a => f a = false) l.
Proof. intros H. induction l as [|a l IH]; [done|]. cbn in H. destruct (f a) eqn:E; [done|]. auto. Qed.

Definition missing (e : error) : Prop := errors_Is e ErrNotFound = true.

Lemma mild_missing e : mild e -> missing e -> False.
Proof. unfold mild, missing. congruence. Qed.

(** A statement that updates node rows, or fails mildly. *)
Definition updates (m : M nat) (w : Node -> bool) (g : Node -> Node) (s : db) : Prop :=
  match m s with Ok r => update_nodes w g s = Ok r | Err e => mild e end.

Lemma updates_write v w g s : updates (write_nodes json_ok v w g) w g s.
Proof.
  unfold updates, write_nodes, mbind, M_bind, get_db. by destruct (existsb w (db_nodes s) && negb (json_ok v)).
Qed.

(** A single write that then reads the row: when something is missing, no row matched. *)
Lemma write_read_missing m w g (req : nat -> M unit) dagKey key runID s e :
  updates m w g s ->
  (forall st, req 1 st = Ok (tt, st)) -> (forall n st, exists e', req (S (S n)) st = Err e' /\ mild e') ->
  (forall n, w n = true -> run_node dagKey key runID (g n) && (0 <? runID)%Z = true) ->
  (m ≫= fun rows => req rows ≫= fun _ => GetTaskDagRunNodeForUpdate dagKey key runID) s = Err e -> missing e ->
  Forall (fun n => w n = false) (db_nodes s).
Proof.
  intros Hm H1 H2 Hg H He. unfold updates in Hm. apply M_bind_Err in H as [H|(rows & s1 & Hw & H)].
  { rewrite H in Hm. by exfalso; eapply mild_missing. }
  rewrite Hw in Hm. apply update_nodes_Ok in Hm as [-> ->]. apply filter_nil_Forall.
  destruct (length _) as [|[|n]] eqn:El; [done| |].
  - exfalso. unfold mbind, M_bind in H. rewrite H1 in H. unfold GetTaskDagRunNodeForUpdate, mbind, M_bind, get_db in H.
    destruct (List.find _ _) eqn:E; [done|]. destruct (List.filter w (db_nodes s)) as [|x l] eqn:F; [done|].
    assert (x ∈ List.filter w (db_nodes s)) as Hin by (rewrite F; left). apply list_elem_of_In, filter_In in Hin as [Hin Hx].
    eapply (find_none _ _) in E; [|by apply list_elem_of_In, list_elem_of_fmap_2, list_elem_of_In]. cbn in E. rewrite Hx in E.
    rewrite (Hg x Hx) in E. done.
  - exfalso. unfold mbind, M_bind in H. destruct (H2 n (with_nodes s ((fun x => if w x then g x else x) <$> db_nodes s))) as (e' & E & Hmild).
    rewrite E in H. simplify_eq. by eapply mild_missing.
Qed.

Lemma single_write_spec :
  (forall st, requireSingleNodeWrite 1 st = Ok (tt, st)) /\ (forall n st, exists e', requireSingleNodeWrite (S (S n)) st = Err e' /\ mild e').
Proof. split; [done|]. intros. by eexists. Qed.

Lemma single_row_spec op :
  (forall st, requireSingleAffectedRow op 1 st = Ok (tt, st)) /\ (forall n st, exists e', requireSingleAffectedRow op (S (S n)) st = Err e' /\ mild e').
Proof. split; [done|]. intros. by eexists. Qed.

Lemma require_missing op r s e : requireRuntimeRunID op r s = Err e -> missing e -> False.
Proof.
  intros H He. pose proof (nf_require (fun _ => True) op r s I) as Hm. rewrite H in Hm. by eapply mild_missing.
Qed.

Lemma running_single dagKey runID (l : list Run) :
  NoDup (rn_ID <$> l) -> existsb (running_row dagKey runID) l = true -> length (List.filter (running_row dagKey runID) l) = 1.
Proof.
  induction l as [|r l IH]; [done|]. rewrite fmap_cons, NoDup_cons. intros [Hr Hnd]. cbn [existsb List.filter].
  destruct (running_row dagKey runID r) eqn:E; [|by auto]. intros _. cbn. f_equal.
  assert (forall r', r' ∈ l -> running_row dagKey runID r' = false) as Hno.
  { intros r' Hin. destruct (running_row dagKey runID r') eqn:E'; [|done]. exfalso. apply Hr.
    unfold running_row, run_row in *. go_bool. replace (rn_ID r) with (rn_ID r') by lia. by apply list_elem_of_fmap_2. }
  clear -Hno. induction l as [|r' l IH]; [done|]. cbn. rewrite Hno by left. apply IH. intros. apply Hno. by right.
Qed.

Lemma complete_missing input s e :
  NoDup (rn_ID <$> db_runs s) -> has_dag (ci_DagKey input) s -> ci_WakeupID input = 0%Z -> ci_WakeupAttempt input = 0%Z ->
  CompleteNodeAndScheduleDownstream byte_len now_text now_ms json_ok reencode input s = Err e -> missing e ->
  run_running (ci_DagKey input) (ci_RunID input) s -> Forall (fun n => completable s input n = false) (db_nodes s).
Proof.
  intros Hnd Hdag Hw Ha H He Hrun. unfold CompleteNodeAndScheduleDownstream in H.
  apply M_bind_Err in H as [H|(u & s0 & H0 & H)]; [by exfalso; eapply require_missing|].
  apply requireRuntimeRunID_Ok in H0 as [Hpos ->]. apply M_bind_Err in H as [H|(u1 & s1 & H1 & H)].
  { exfalso. unfold lockRunForCompletionTx in H. apply M_bind_Err in H as [H|(? & ? & H0 & H)]; [by eapply require_missing|].
    apply requireRuntimeRunID_Ok in H0 as [_ ->]. unfold mbind, M_bind, get_db, guardM in H. unfold run_running in Hrun.
    by rewrite Hrun in H. }
  unfold lockRunForCompletionTx in H1. tx_run. apply M_bind_Err in H as [H|(node & s2 & H2 & H)].
  - unfold CompleteNode in H. apply M_bind_Err in H as [H|(? & ? & Hreq & H)]; [by exfalso; eapply require_missing|]. tx_run.
    unfold requireWakeupAttemptFence in H. rewrite Hw, Ha in H. cbn [Z.eqb andb] in H.
    eapply (write_read_missing _ _ (completed_row input) requireSingleNodeWrite); [apply updates_write|apply single_write_spec..| |exact H|done].
    intros n Hn. unfold completable in Hn. go_bool. by rewrite (proj2 (Z.ltb_lt _ _) Hpos), andb_true_r.
  - exfalso. eapply mild_missing; [|exact He]. eapply (nf_after_row node (ci_RunID input)); [| |exact H].
    + unfold CompleteNode in H2. tx_run. apply GetRunNode_Ok in H2 as (-> & _ & Hn). unfold run_node in Hn. go_bool.
      unfold run_of in *. go_bool. by rewrite String.eqb_refl.
    + unfold CompleteNode in H2. tx_run. apply GetRunNode_Ok in H2 as (-> & _ & Hn). unfold run_node, run_of in Hn. go_bool.
      assert (nd_DagKey node = ci_DagKey input) as -> by done. apply ro_nodes. split; [done|]. by apply running_single.
Qed.

Lemma nf_cancel dagKey' fuel deps m dagKey key runID reason visited queue canceled :
  nf (has_dag dagKey') (cancel_loop fuel deps m dagKey key runID reason visited queue canceled).
Proof.
  revert visited queue canceled. induction fuel as [|fuel IH]; intros visited [|k queue] canceled; cbn [cancel_loop]; [by apply nf_ret|by apply nf_fail|by apply nf_ret|].
  case_match; [apply IH|]. case_match; [apply IH|]. apply nf_bind; [|intros; apply IH].
  apply nf_bind; [apply nf_update_nodes, _|intros; apply nf_ret].
Qed.

Lemma nf_cancel_all dagKey key runID reason : nf (has_dag dagKey) (cancelDownstreamTx dagKey key runID reason).
Proof.
  unfold cancelDownstreamTx. apply nf_bind; [apply nf_require|intros _]. apply nf_bind; [apply nf_list|intros nodes].
  apply nf_bind; [|intros; apply nf_cancel]. apply nf_lift. unfold buildDependentIndex. apply mild_fold. intros.
  apply mild_bind; [|done]. apply mild_wrap; [done|]. unfold store_decodeDependsOn. res_mild.
Qed.

Lemma fail_missing input s e :
  has_dag (fn_DagKey input) s -> fn_WakeupID input = 0%Z -> fn_WakeupAttempt input = 0%Z ->
  FailNodeAndCancelDownstream reencode input s = Err e -> missing e ->
  Forall (fun n => failable (fn_DagKey input) (fn_NodeKey input) (fn_RunID input) 0 true n = false) (db_nodes s).
Proof.
  intros Hdag Hw Ha H He. unfold FailNodeAndCancelDownstream in H.
  apply M_bind_Err in H as [H|(u & s0 & H0 & H)]; [by exfalso; eapply require_missing|].
  apply requireRuntimeRunID_Ok in H0 as [Hpos ->]. unfold requireWakeupAttemptFence in H. rewrite Hw, Ha in H. cbn [Z.eqb andb] in H.
  change ((mret tt ≫= fun _ => failNodeAndCancelDownstreamTx reencode input) s) with (failNodeAndCancelDownstreamTx reencode input s) in H.
  unfold failNodeAndCancelDownstreamTx in H. apply M_bind_Err in H as [H|(old & s1 & H1 & H)].
  - unfold lockedNodeStatusBeforeFailTx, GetTaskDagRunNodeForUpdate in H. unfold mbind, M_bind, get_db, lift in H.
    destruct (List.find _ _) eqn:E; [done|]. apply Forall_forall. intros n Hn. eapply find_none in E; [|by apply list_elem_of_In].
    cbn in E. unfold failable. by rewrite E.
  - assert (s1 = s) as -> by (unfold lockedNodeStatusBeforeFailTx in H1; tx_ok; by apply GetRunNode_Ok in H0 as [-> _]).
    apply M_bind_Err in H as [H|(node & s2 & H2 & H)].
    + unfold failNodeTx, wakeupFenceMatches in H. rewrite Hw, Ha in H. cbn [Z.eqb] in H.
      eapply (write_read_missing _ _ (failed_row (mkReason failNodeKindExhaustedRetries (fn_Reason input) EmptyString))
                (requireSingleAffectedRow "fail_non_terminal")); [| |apply single_row_spec| |exact H|done];
        [|apply single_row_spec|]; [done|].
      intros n Hn. unfold failable in Hn. go_bool. by rewrite (proj2 (Z.ltb_lt _ _) Hpos), andb_true_r.
    + exfalso. eapply mild_missing; [|exact He].
      assert (has_dag (fn_DagKey input) s2) as Hd2.
      { unfold has_dag, find_dag. apply steps_fail_row in H2. by rewrite (st_dags _ _ H2). }
      pose proof (nf_cancel_all (fn_DagKey input) (fn_NodeKey input) (fn_RunID input) (fn_Reason input) s2 Hd2) as H3.
      unfold mbind at 1, M_bind at 1 in H. destruct (cancelDownstreamTx _ _ _ _ s2) as [[c s3]|e3]; [|by simplify_eq].
      pose proof (nf_finalize (fn_DagKey input) (fn_RunID input) s3 H3) as H4. unfold mbind, M_bind in H.
      destruct (maybeFinalizeRunTx _ _ _ s3) as [[f s4]|e4]; by simplify_eq.
Qed.

Lemma claim_missing input s e :
  ClaimNodeOutputMaterialization json_ok input s = Err e -> missing e -> Forall (fun n => claimable input n = false) (db_nodes s).
Proof.
  intros H He. unfold ClaimNodeOutputMaterialization in H.
  apply M_bind_Err in H as [H|(u & s0 & H0 & H)]; [by exfalso; eapply require_missing|].
  apply requireRuntimeRunID_Ok in H0 as [Hpos ->].
  eapply (write_read_missing _ _ (set_result (oc_Result input)) requireSingleNodeWrite); [apply updates_write|apply single_write_spec..| |exact H|done].
  intros n Hn. unfold claimable in Hn. go_bool. by rewrite (proj2 (Z.ltb_lt _ _) Hpos), andb_true_r.
Qed.
End found.
