(* ===== verification/TurnDurability.v ===== *)
(** * No completed turn is lost

    When the projection of a completed turn reports no error, no node that carries the
    thread is left open in a running run without a repair in the queue, in every
    environment whose other processes keep what is settled. *)

From S2P Require Import Prelude GoStrings Json DagStore NodeConfig WakeupPayload RunStore RunEffects WakeupLease RetryPolicy Effects AgentExecutor NodeRouter Dispatcher DocumentArtifact Subscriber NodeStatus ApplyOps TemplateInvariant RunService ScheduledStart LeaseProtocol TurnStore.

(** ** Settled nodes *)

Definition node_key (n : Node) : string * string * Z := (nd_DagKey n, nd_NodeKey n, taskNodeRunID n).

(** The row carries the thread and is ready or running in a running run. *)
Definition still_open (thread : string) (k : string * string * Z) (s : db) (n : Node) : Prop :=
  n ∈ db_nodes s /\ carries thread n = true /\ node_key n = k /\ open_status (nd_Status n) = true /\ run_running k.1.1 k.2 s.

(** The wakeup table has a row under one of the two keys of the node: to complete it again,
    or to fail it.  The row may be an old one, in whatever status: the statement that
    queues a repair does nothing when its key is taken. *)
Definition repair_recorded (k : string * string * Z) (s : db) : Prop :=
  IdempotencyKey k.1.1 k.1.2 k.2 ∈ wk_IdempotencyKey <$> db_wakeups s
  \/ TerminalFailureCompensationID k.1.1 k.1.2 k.2 ∈ wk_IdempotencyKey <$> db_wakeups s.

Definition settled (thread : string) (k : string * string * Z) (s : db) : Prop :=
  forall n, still_open thread k s n -> repair_recorded k s.

(** Run identities are unique, and a node that carries the thread has left pending and
    belongs to a stored run and a stored DAG. *)
Record clean (thread : string) (s : db) : Prop := {
  cl_ids : NoDup (rn_ID <$> db_runs s);
  cl_dag : forall n, n ∈ db_nodes s -> carries thread n = true -> has_dag (nd_DagKey n) s;
  cl_run : forall n, n ∈ db_nodes s -> carries thread n = true -> taskNodeRunID n ∈ rn_ID <$> db_runs s;
  cl_pending : forall n, n ∈ db_nodes s -> carries thread n = true -> nd_Status n <> "pending";
}.

(** What a transaction of any other process may be: no status update opens a closed node
    again, no agent is recorded under this thread, and no DAG is deleted. *)
Definition peer_step `{EN : Env} (thread : string) (s s' : db) : Prop :=
  exists (schedule : Type) (cron_parse : string -> option schedule) cron_next map_keys map_order row_accepted,
    db_step byte_len json_ok reencode same_config cron_parse cron_next map_keys map_order row_accepted
      opens_nothing (fun input => TrimSpace (rs_ThreadID input) <> thread) s s'.

(** Between two calls the other processes run transactions. *)
Class Peers `{EN : Env} (thread : string) : Prop := peers i s : rtc (peer_step thread) s (other i s).

(** A call that fails outside the database does not say that a row is missing. *)
Class MildFaults `{EN : Env} : Prop := fault_mild i e : fault i = Some e -> mild e.

(** ** What the transactions keep *)

(** What a transaction does to the rows that carry the thread. *)
Record calm (thread : string) (s s' : db) : Prop := {
  ca_nodes : forall n', n' ∈ db_nodes s' -> carries thread n' = true -> exists n, n ∈ db_nodes s /\ carries thread n = true /\ node_key n' = node_key n
    /\ (open_status (nd_Status n') = true -> open_status (nd_Status n) = true \/ nd_Status n = "pending") /\ (nd_Status n' = "pending" -> nd_Status n = "pending");
  ca_dags : forall d, has_dag d s -> has_dag d s';
  ca_ids : NoDup (rn_ID <$> db_runs s) -> NoDup (rn_ID <$> db_runs s');
  ca_known : rn_ID <$> db_runs s ⊆ rn_ID <$> db_runs s';
  ca_runs : forall d r, r ∈ rn_ID <$> db_runs s -> run_running d r s' -> run_running d r s;
  ca_keys : wk_IdempotencyKey <$> db_wakeups s ⊆ wk_IdempotencyKey <$> db_wakeups s';
}.

#[export] Instance calm_preorder thread : PreOrder (calm thread).
Proof.
  split; [intros s; split; eauto 10|]. intros s1 s2 s3 [A B C D E F] [A' B' C' D' E' F']. split; [|auto|auto|by etrans|eauto|by etrans].
  intros n3 H3 Hc3. destruct (A' n3 H3 Hc3) as (n2 & H2 & Hc2 & Hk2 & Ho2 & Hp2). destruct (A n2 H2 Hc2) as (n1 & H1 & Hc1 & Hk1 & Ho1 & Hp1).
  exists n1. split_and!; [done|done|congruence| |auto]. intros Ho. destruct (Ho2 Ho) as [Ho'|Hp]; auto.
Qed.

Lemma calm_clean thread s s' : calm thread s s' -> clean thread s -> clean thread s'.
Proof.
  intros [A B C D _ _] [Hi Hd Hr Hp]. split; [auto|..]; intros n' Hn' Hc; destruct (A n' Hn' Hc) as (n & Hn & Hcn & Hk & _ & Hpn);
    unfold node_key in Hk; injection Hk as Ek _ Er.
  - rewrite Ek. auto.
  - rewrite Er. auto.
  - intros E. by apply (Hp n Hn Hcn), Hpn.
Qed.

Lemma calm_settled thread k s s' : calm thread s s' -> clean thread s -> settled thread k s -> settled thread k s'.
Proof.
  intros [A _ _ _ E F] [_ _ Hr Hp] Hk n' (Hn' & Hc & Hkn & Ho & Hrun). destruct (A n' Hn' Hc) as (n & Hn & Hcn & Hkey & Hon & _).
  assert (repair_recorded k s) as [H|H]; [|left; by apply F|right; by apply F]. apply (Hk n). unfold still_open. split_and!; [done|done|congruence| |].
  - destruct (Hon Ho) as [?|Hpn]; [done|]. by destruct (Hp n Hn Hcn).
  - apply E; [|done]. specialize (Hr n Hn Hcn). rewrite Hkey in Hkn. by subst k.
Qed.

Lemma steps_calm thread s s' : steps s s' -> calm thread s s'.
Proof.
  intros Hs. split.
  - intros n' Hn Hc. apply list_elem_of_lookup in Hn as [i Hi]. destruct (Forall2_lookup_r _ _ _ _ _ (st_nodes _ _ Hs) Hi) as (n & Hn & (Hd & Hk & Hr & Ht) & Ho & Hp).
    exists n. unfold carries, node_key, taskNodeRunID in *. rewrite Hd, Hk, Hr, Ht in *. split_and!; [by eapply list_elem_of_lookup_2|done..].
  - intros d. unfold has_dag, find_dag. by rewrite (st_dags _ _ Hs).
  - by rewrite (st_ids _ _ Hs).
  - by rewrite (st_ids _ _ Hs).
  - intros d r _. by apply st_runs.
  - apply Hs.
Qed.

Lemma steps_clean thread s s' : steps s s' -> clean thread s -> clean thread s'.
Proof. intros H. by apply calm_clean, steps_calm. Qed.

Lemma steps_settled thread k s s' : steps s s' -> clean thread s -> settled thread k s -> settled thread k s'.
Proof. intros H. by apply calm_settled, steps_calm. Qed.

Lemma edits_calm thread s s' : edits s s' -> calm thread s s'.
Proof.
  intros [A B C D]. split; rewrite ?A, ?B; [|exact D|done|done|unfold run_running; by rewrite A|done].
  intros n Hn Hc. exists n. split_and!; auto. apply C; [|done]. unfold carries in Hc. apply andb_true_iff in Hc as [_ Hc]. by apply bool_decide_eq_true_1 in Hc.
Qed.

(** The rows of a new run carry no thread. *)
Lemma clone_calm thread dagKey runID s u s' : CloneNodesForRun dagKey runID s = Ok (u, s') -> calm thread s s'.
Proof.
  unfold CloneNodesForRun, ListNodes. intros H. tx_ok. match goal with Hf : forM _ _ ?b = Ok _ |- _ => revert Hf; apply (forM_inv (fun x => calm thread b x)); [|done] end.
  intros t a w b _ Ha Hb. etrans; [exact Ha|]. unfold insertRunNodeIfMissing in Hb. tx_ok. destruct (existsb _ _); tx_ok; [done|].
  split; [|done..]. cbn. intros n [Hn| ->%list_elem_of_singleton]%elem_of_app Hc; [|done]. exists n. split_and!; auto.
Qed.

Lemma create_calm thread input s run s' : CreateRun input s = Ok (run, s') -> calm thread s s'.
Proof.
  unfold CreateRun. intros H. tx_ok. split; cbn; [eauto 10|done|..|done]; rewrite ?fmap_app.
  - intros Hnd. apply NoDup_app. split_and!; [done| |apply NoDup_singleton]. intros y Hy%next_id_fresh. cbn. rewrite list_elem_of_singleton. lia.
  - set_solver.
  - intros d r Hr. unfold run_running. cbn. rewrite existsb_app, orb_true_iff. intros [?|Hx]; [done|]. cbn in Hx. exfalso.
    apply next_id_fresh in Hr. unfold running_row, run_row in Hx. cbn in Hx. rewrite orb_false_r in Hx. go_bool. lia.
Qed.

Lemma created_calm thread s s1 : created s s1 \/ s1 = s -> calm thread s s1.
Proof. intros [(? & ? & ? & ? & ? & H1 & H2)| ->]; [|done]. etrans; [by eapply create_calm|by eapply clone_calm]. Qed.

(** Another thread is recorded. *)
Lemma spawn_calm thread now ctxFence input s r s' :
  TrimSpace (rs_ThreadID input) <> thread -> RecordNodeSpawn now ctxFence input s = Ok (r, s') -> calm thread s s'.
Proof.
  intros Hne H. unfold RecordNodeSpawn, recordNodeSpawnTx in H. tx_run.
  repeat match goal with Hg : GetTaskDagRunNodeForUpdate _ _ _ _ = Ok _ |- _ => apply GetRunNode_Ok in Hg as [-> _] end.
  match goal with |- calm _ _ (with_nodes ?a _) => assert (a = s) as -> end.
  { match goal with Hv : match ?f with Some _ => _ | None => _ end _ = Ok _ |- _ => destruct f; [|by tx_ok]; unfold validateWakeupFenceTx, GetTaskDagWakeup in Hv end.
    tx_ok. repeat (case_match; tx_ok; try done). }
  split; [|done..]. cbn. intros n' (n & -> & Hn)%list_elem_of_fmap Hc. case_match; [|exists n; split_and!; auto].
  exfalso. apply Hne. unfold carries in Hc. cbn in Hc. apply andb_true_iff in Hc as [Hc _]. apply bool_decide_eq_true_1 in Hc. by injection Hc.
Qed.

Lemma peer_calm `{EN : Env} thread s s' : peer_step thread s s' -> calm thread s s'.
Proof.
  intros (sc & cp & cn & mk & mo & ra & H). destruct H as [A m r s s' Hq H|input r s s' Ho H|now f input r s s' Hne H|? ? ? ? ? ? ? H|? ? ? ? ? ? H|? ? ? ? ? ? ? H|? ? ? ? H].
  - eapply steps_calm, quiet_steps; [exact Hq|exact H].
  - eapply steps_calm, steps_status; [exact Ho|exact H].
  - by eapply spawn_calm.
  - apply StartDAG_cases in H as (s1 & Hc & Hs). etrans; [by apply created_calm|by apply steps_calm].
  - apply Start_cases in H as (s1 & s2 & Hc & Hs & He). etrans; [by apply created_calm|]. etrans; [by apply steps_calm|by apply edits_calm].
  - by eapply edits_calm, ApplyOps_edits.
  - by eapply edits_calm, CreateDAG_edits.
Qed.

Lemma peers_calm `{EN : Env} thread `{!Peers thread} i s : calm thread s (other i s).
Proof. induction (peers i s) as [|? ? ? H _ IH]; [done|]. etrans; [by apply peer_calm|exact IH]. Qed.

Lemma open_not_terminal st : open_status st = true -> st ∈ terminal_statuses -> False.
Proof. unfold open_status. rewrite str_in_elem. unfold terminal_statuses. set_solver. Qed.

(** A write that ends every open row of the key. *)
Lemma update_settles thread k w g s :
  (forall n, still_open thread k s n -> w n = true) -> (forall n, w n = true -> nd_Status (g n) ∈ terminal_statuses /\ moves n (g n)) ->
  clean thread s -> settled thread k (with_nodes s ((fun n => if w n then g n else n) <$> db_nodes s)).
Proof.
  intros Hw Hg Hcl n' Ho. exfalso. pose proof Ho as (Hn' & Hc & Hk & Hst & Hrun). cbn in Hn'. apply list_elem_of_fmap in Hn' as (n & -> & Hn).
  destruct (w n) eqn:E; [destruct (Hg n E); by eapply open_not_terminal|]. rewrite (Hw n) in E; [done|]. by unfold still_open.
Qed.

(** ** Programs *)

Section programs.
Context `{EN : Env} (thread : string) `{PR : !Peers thread, MF : !MildFaults}.

(** What is settled stays settled. *)
Definition kept {A} (m : IO A) : Prop :=
  forall w, clean thread (w_db w) ->
    clean thread (w_db (m w).2) /\ forall k, settled thread k (w_db w) -> settled thread k (w_db (m w).2).

(** A result that satisfies [G] means that [k] is settled. *)
Definition ends {A} (k : string * string * Z) (m : IO A) (G : A -> Prop) : Prop :=
  kept m /\ forall w, clean thread (w_db w) -> G (m w).1 -> settled thread k (w_db (m w).2).

Lemma kept_ret {A} (a : A) : kept (mret a).
Proof. by intros w Hw. Qed.
Lemma kept_ask {A} (f : nat -> A) : kept (ask f).
Proof. by intros w Hw. Qed.
Lemma kept_emit e : kept (emit e).
Proof. by intros w Hw. Qed.
Lemma kept_bind {A B} (m : IO A) (f : A -> IO B) : kept m -> (forall a, kept (f a)) -> kept (m ≫= f).
Proof.
  intros Hm Hf w Hw. unfold mbind, IO_bind. destruct (Hm w Hw) as [H1 H2]. destruct (m w) as [a w1]. cbn in *.
  destruct (Hf a w1 H1) as [H3 H4]. auto.
Qed.

Lemma kept_call {A} (m : Z -> M A) : (forall now, steps_of (m now)) -> kept (call m).
Proof.
  intros Hm w Hw. unfold call. pose proof (calm_clean _ _ _ (peers_calm thread (w_step w) _) Hw) as Hcl.
  destruct (fault (w_step w)); [|destruct (m _ _) as [[a s']|e] eqn:E]; cbn; (split; [|intros k Hk; pose proof (calm_settled _ _ _ _ (peers_calm thread (w_step w) _) Hw Hk)]); try done.
  - by eapply steps_clean; [eapply Hm|].
  - by eapply steps_settled; [eapply Hm|..].
Qed.

Lemma ends_call {A} k (m : Z -> M A) (G : result error A -> Prop) :
  (forall now, steps_of (m now)) ->
  (forall e, mild e -> G (Err e) -> False) ->
  (forall now s, clean thread s ->
     match m now s with Ok (a, s') => G (Ok a) -> settled thread k s' | Err e => G (Err e) -> settled thread k s end) ->
  ends k (call m) G.
Proof.
  intros Hs Hf Hm. split; [by apply kept_call|]. intros w Hw HG. unfold call in *. pose proof (calm_clean _ _ _ (peers_calm thread (w_step w) _) Hw) as Hcl.
  destruct (fault (w_step w)) eqn:E; [by destruct (Hf e (fault_mild _ _ E))|].
  specialize (Hm (clock (w_step w)) _ Hcl). destruct (m _ _) as [[a s']|e]; cbn in *; by apply Hm.
Qed.

Lemma ends_bind {A B} k (m : IO A) (f : A -> IO B) (G1 : A -> Prop) (G : B -> Prop) :
  ends k m G1 -> (forall a, kept (f a)) -> (forall a, G1 a \/ ends k (f a) G) -> ends k (m ≫= f) G.
Proof.
  intros [Hk Hm] Hf Hor. split; [by apply kept_bind|]. intros w Hw. unfold mbind, IO_bind. destruct (Hk w Hw) as [Hcl _].
  specialize (Hm w Hw). destruct (m w) as [a w1]. cbn in *. intros HG. destruct (Hor a) as [H1|[_ H2]]; [|by apply H2].
  destruct (Hf a w1 Hcl) as [_ Hkeep]. by apply Hkeep, Hm.
Qed.

Lemma ends_after {A B} k (m : IO A) (f : A -> IO B) (G : B -> Prop) : kept m -> (forall a, ends k (f a) G) -> ends k (m ≫= f) G.
Proof.
  intros Hm Hf. apply ends_bind with (fun _ => False); [by split| |by right]. intros a. apply Hf.
Qed.

(** A result that is never good. *)
Lemma ends_ret {A} k (a : A) (G : A -> Prop) : ~ G a -> ends k (mret a) G.
Proof. intros Ha. split; [apply kept_ret|]. intros w Hw HG. by destruct Ha. Qed.

(** ** The transactions settle their node *)

Lemma need_run {A} op r (m : unit -> M A) s e : (requireRuntimeRunID op r ≫= m) s = Err e -> missing e -> (0 < r)%Z.
Proof.
  intros H He. apply M_bind_Err in H as [H|(u & s1 & H & _)]; [by destruct (require_missing _ _ _ _ H He)|].
  by apply requireRuntimeRunID_Ok in H as [H _].
Qed.

Lemma open_run_node k s n : still_open thread k s n -> run_node k.1.1 k.1.2 k.2 n = true.
Proof.
  intros (_ & Hc & <- & _). unfold carries in Hc. apply andb_true_iff in Hc as [_ Hc]. apply bool_decide_eq_true_1 in Hc as [r Hr]. unfold run_node, run_of, node_key, taskNodeRunID. cbn.
  by rewrite Hr, !String.eqb_refl, Z.eqb_refl.
Qed.

Lemma open_completable k s0 s n result :
  (0 < k.2)%Z -> still_open thread k s n -> completable s0 (mkComplete "done" result k.1.1 k.1.2 k.2 0 0) n = true.
Proof.
  intros Hpos Ho. unfold completable. cbn -[str_in run_node Z.ltb]. rewrite (open_run_node _ _ _ Ho), (proj2 (Z.ltb_lt _ _) Hpos).
  destruct Ho as (_ & _ & _ & Hst & _). unfold open_status in Hst. by rewrite Hst.
Qed.

Lemma open_failable k s n : (0 < k.2)%Z -> still_open thread k s n -> failable k.1.1 k.1.2 k.2 0 true n = true.
Proof.
  intros Hpos Ho. unfold failable. rewrite (open_run_node _ _ _ Ho), (proj2 (Z.ltb_lt _ _) Hpos). destruct Ho as (_ & _ & _ & Hst & _). cbn -[str_in].
  rewrite andb_true_r. apply negb_true_iff, not_true_iff_false. intros Ht. apply str_in_elem in Ht. by eapply open_not_terminal.
Qed.

Lemma open_claimable k s n result : (0 < k.2)%Z -> still_open thread k s n -> claimable (mkOutputClaim k.1.1 k.1.2 k.2 result) n = true.
Proof.
  intros Hpos Ho. unfold claimable. cbn -[str_in run_node Z.ltb]. rewrite (open_run_node _ _ _ Ho), (proj2 (Z.ltb_lt _ _) Hpos).
  destruct Ho as (_ & _ & _ & Hst & _). unfold open_status in Hst. by rewrite Hst.
Qed.

(** A row that a statement takes is there. *)
Lemma missing_settles k s (w : Node -> bool) :
  (forall n, still_open thread k s n -> w n = true /\ Forall (fun n => w n = false) (db_nodes s)) -> settled thread k s.
Proof.
  intros H n Ho. exfalso. destruct (H n Ho) as [Hw Hall]. rewrite Forall_forall in Hall. destruct Ho as [Hn _]. specialize (Hall n Hn). congruence.
Qed.

Lemma open_has_dag k s n : clean thread s -> still_open thread k s n -> has_dag k.1.1 s.
Proof. intros Hcl (Hn & Hc & <- & _). by apply (cl_dag _ _ Hcl). Qed.

Definition done_or_missing {A} (r : result error A) : Prop := match r with Ok _ => True | Err e => missing e end.

Lemma done_or_missing_mild {A} e : mild e -> done_or_missing (A := A) (Err e) -> False.
Proof. apply mild_missing. Qed.

Definition turn_completion (k : string * string * Z) (result : RawMessage) : CompleteNodeInput :=
  mkComplete "done" result k.1.1 k.1.2 k.2 0 0.

Lemma complete_row_settles k result s n s' :
  clean thread s -> CompleteNode json_ok (turn_completion k result) s = Ok (n, s') -> settled thread k s'.
Proof.
  intros Hcl H. unfold CompleteNode in H. tx_run. apply GetRunNode_Ok in H as [-> _].
  apply update_settles; [|intros x _; split; [|by apply moves_completed]|done].
  - intros x Ho. by eapply open_completable.
  - unfold terminal_statuses. cbn. set_solver.
Qed.

Lemma fail_row_settles k reason s n s' :
  clean thread s -> (0 < k.2)%Z -> failNodeTx k.1.1 k.1.2 k.2 0 0 reason s = Ok (n, s') -> settled thread k s'.
Proof.
  intros Hcl Hpos H. unfold failNodeTx, wakeupFenceMatches in H. cbn [Z.eqb] in H. tx_run. unfold requireSingleAffectedRow in *.
  apply GetRunNode_Ok in H as [-> _]. destruct (length _) as [|[|]] in H2; [done| |done]. tx_ok.
  apply update_settles; [|intros x _; split; [|apply moves_failed]|done].
  - intros x Ho. by eapply open_failable.
  - unfold terminal_statuses. cbn. set_solver.
Qed.

Lemma lock_same dagKey runID s u s' : lockRunForCompletionTx dagKey runID s = Ok (u, s') -> s' = s.
Proof. unfold lockRunForCompletionTx. intros H. by tx_run. Qed.

Lemma locked_status_same dagKey key runID s old s' : lockedNodeStatusBeforeFailTx dagKey key runID s = Ok (old, s') -> s' = s.
Proof. unfold lockedNodeStatusBeforeFailTx. intros H. apply M_bind_Ok in H as (n & s1 & H1 & H). apply GetRunNode_Ok in H1 as [-> _]. by tx_ok. Qed.

Lemma ends_complete k result :
  ends k (call (fun now => CompleteNodeAndScheduleDownstream byte_len (time_text now) (sql_ms now) json_ok reencode
            (turn_completion k result))) done_or_missing.
Proof.
  apply ends_call; [by intros; apply steps_complete|apply done_or_missing_mild|]. intros now s Hcl.
  destruct (CompleteNodeAndScheduleDownstream _ _ _ _ _ _ s) as [[a s']|e] eqn:E; cbn.
  - intros _. unfold CompleteNodeAndScheduleDownstream in E. apply M_bind_Ok in E as (? & ? & H1 & E). apply requireRuntimeRunID_Ok in H1 as [_ ->].
    apply M_bind_Ok in E as (? & ? & H1 & E). apply lock_same in H1 as ->. apply M_bind_Ok in E as (node & s2 & Hrow & E).
    eapply steps_settled; [by eapply steps_after_row|by eapply steps_clean; [exact (steps_complete_row json_ok (turn_completion k result) eq_refl _ _ _ Hrow)|done]|].
    by eapply complete_row_settles.
  - intros He. apply (missing_settles k s (completable s (turn_completion k result))). intros n Ho.
    pose proof (need_run _ _ _ _ _ E He) as Hpos. split; [by eapply open_completable|].
    eapply complete_missing; [by apply (cl_ids _ _ Hcl)|by eapply open_has_dag| | |exact E|exact He|]; [done..|]. by destruct Ho as (_ & _ & _ & _ & ?).
Qed.

Definition turn_failure (k : string * string * Z) (reason : string) (failFast : bool) : FailNodeInput :=
  mkFail k.1.1 k.1.2 k.2 reason failFast 0 0.

Lemma ends_fail k reason failFast :
  ends k (call (fun _ => FailNodeAndCancelDownstream reencode (turn_failure k reason failFast))) done_or_missing.
Proof.
  apply ends_call; [by intros; apply steps_fail_node|apply done_or_missing_mild|]. intros now s Hcl.
  destruct (FailNodeAndCancelDownstream _ _ s) as [[a s']|e] eqn:E; cbn.
  - intros _. unfold FailNodeAndCancelDownstream in E. apply M_bind_Ok in E as (? & ? & H1 & E). apply requireRuntimeRunID_Ok in H1 as [Hpos ->].
    apply M_bind_Ok in E as (? & ? & H1 & E). apply requireWakeupAttemptFence_Ok in H1 as ->. unfold failNodeAndCancelDownstreamTx in E.
    apply M_bind_Ok in E as (old & ? & H1 & E). apply locked_status_same in H1 as ->. apply M_bind_Ok in E as (node & s2 & Hrow & E).
    assert (steps s2 s') as Hst by (eapply steps_bind; [apply steps_cancel_all| |exact E]; intros; apply steps_bind; [apply steps_finalize|intros; apply steps_ret]).
    eapply steps_settled; [exact Hst|by eapply steps_clean; [eapply steps_fail_row|]|]. by eapply fail_row_settles.
  - intros He. apply (missing_settles k s (failable k.1.1 k.1.2 k.2 0 true)). intros n Ho.
    pose proof (need_run _ _ _ _ _ E He) as Hpos. split; [by eapply open_failable|].
    eapply (fail_missing _ (turn_failure k reason failFast)); [by eapply open_has_dag|done|done|exact E|exact He].
Qed.

(** A claim that finds no row. *)
Lemma ends_claim k result :
  ends k (call (fun _ => ClaimNodeOutputMaterialization json_ok (mkOutputClaim k.1.1 k.1.2 k.2 result)))
    (fun r => match r with Ok _ => False | Err e => missing e end).
Proof.
  apply ends_call; [by intros; apply steps_claim_output|exact mild_missing|]. intros now s Hcl.
  destruct (ClaimNodeOutputMaterialization _ _ s) as [[a s']|e] eqn:E; [done|]. intros He.
  apply (missing_settles k s (claimable (mkOutputClaim k.1.1 k.1.2 k.2 result))). intros n Ho.
  pose proof (need_run _ _ _ _ _ E He) as Hpos. split; [by eapply open_claimable|]. by eapply claim_missing.
Qed.

Lemma enqueued_key now input s a s' :
  EnqueueWakeup byte_len now input s = Ok (a, s') -> en_IdempotencyKey input ∈ wk_IdempotencyKey <$> db_wakeups s'.
Proof.
  intros H. unfold EnqueueWakeup, enqueueWakeupTx in H. tx_ok. destruct (List.find _ _) as [w|] eqn:E; tx_ok.
  - apply find_some in E as [Hin Hk]. apply String.eqb_eq in Hk. rewrite <- Hk. by apply list_elem_of_fmap_2, list_elem_of_In.
  - cbn. rewrite fmap_app. set_solver.
Qed.

Lemma ends_enqueue k input :
  en_IdempotencyKey input = IdempotencyKey k.1.1 k.1.2 k.2 \/ en_IdempotencyKey input = TerminalFailureCompensationID k.1.1 k.1.2 k.2 ->
  ends k (call (fun now => EnqueueWakeup byte_len (sql_ms now) input)) (fun r => err_of r = None).
Proof.
  intros Hk. apply ends_call; [intros; apply steps_enqueue|done|]. intros now s Hcl.
  destruct (EnqueueWakeup _ _ _ s) as [[a s']|e] eqn:E; [|done]. intros _ n _. apply enqueued_key in E. unfold repair_recorded.
  destruct Hk as [<-|<-]; auto.
Qed.

(** ** The subscriber *)

Ltac io_kept := repeat first [apply kept_ret|apply kept_ask|apply kept_emit|case_match|apply kept_bind; [|intros]].

Context (deps : DAGSubscriberDeps).

Lemma kept_publish_fields a b c d e : kept (PublishFields a b c d e).
Proof. unfold PublishFields. case_match; [apply kept_ret|apply kept_emit]. Qed.

Lemma kept_publish_all {A} (f : A -> IO unit) l : (forall a, kept (f a)) -> kept (publish_all f l).
Proof. intros Hf. induction l as [|a l IH]; [apply kept_ret|]. by apply kept_bind. Qed.

Lemma kept_publish_complete st res : kept (PublishComplete st res).
Proof. apply kept_bind; [apply kept_publish_fields|intros]. apply kept_publish_all. intros. apply kept_publish_fields. Qed.

Lemma kept_publish_fail st res : kept (PublishFail st res).
Proof. apply kept_bind; [apply kept_publish_fields|intros]. apply kept_publish_all. intros. apply kept_publish_fields. Qed.

Lemma ends_compensation node reason e failFast :
  ends (node_key node) (EnqueueTerminalFailureCompensation node reason e failFast) (fun r => r = None).
Proof.
  unfold EnqueueTerminalFailureCompensation. case_match; [by apply ends_ret|].
  eapply ends_bind; [by apply ends_enqueue; right|intros; apply kept_ret|]. intros [u|e']; [by left|right]. by apply ends_ret.
Qed.

Lemma ends_repair node result : ends (node_key node) (Enqueue node result) (fun r => r = None).
Proof.
  unfold Enqueue. case_match; [by apply ends_ret|]. case_match; try by apply ends_ret.
  all: eapply ends_bind; [by apply ends_enqueue; left|intros; apply kept_ret|]; intros [u|e']; [by left|right]; by apply ends_ret.
Qed.

Lemma ends_failed node reason failFast :
  ends (node_key node) (advanceNodeFailedWithReason node reason failFast) (fun r => r.2 = None).
Proof.
  unfold advanceNodeFailedWithReason. eapply ends_bind; [apply (ends_fail (node_key node))|..].
  - intros [res|e]; [apply kept_bind; [apply kept_publish_fail|intros; apply kept_ret]|]. case_match; [apply kept_ret|].
    apply kept_bind; [apply ends_compensation|intros; apply kept_ret].
  - intros [res|e]; [by left|]. destruct (errors_Is e ErrNotFound) eqn:E; [by left|right].
    eapply ends_bind; [apply ends_compensation|intros; apply kept_ret|]. intros [c|]; [right; by apply ends_ret|by left].
Qed.

Lemma ends_failure node failure : ends (node_key node) (handleMaterializationFailure node failure) (fun r => r = None).
Proof.
  eapply ends_bind; [apply ends_failed|intros []; apply kept_ret|]. intros [b [e|]]; [right; by apply ends_ret|by left].
Qed.

Lemma ends_materialize_end node failure : ends (node_key node) (materialize_end node failure) (fun r => r = Err None).
Proof.
  eapply ends_bind; [apply ends_failure|intros; apply kept_ret|]. intros [e|]; [right; by apply ends_ret|by left].
Qed.

Lemma ends_claim_output node result :
  ends (node_key node) (claimNodeOutputMaterialization node result) (fun r => r = (false, None)).
Proof.
  unfold claimNodeOutputMaterialization. eapply ends_bind; [apply (ends_claim (node_key node))|..].
  - intros [n|e]; [apply kept_bind; [apply kept_publish_fields|intros; apply kept_ret]|]. case_match; apply kept_ret.
  - intros [n|e].
    + right. apply ends_after; [apply kept_publish_fields|]. intros. by apply ends_ret.
    + destruct (errors_Is e ErrNotFound) eqn:E; [by left|right]. by apply ends_ret.
Qed.

(** A claim, then more work when it was granted. *)
Lemma ends_claimed {A} node (res : RawMessage) (f : IO (result (option error) A)) :
  ends (node_key node) f (fun r => r = Err None) ->
  ends (node_key node) ('(claimed, err) ← claimNodeOutputMaterialization node res;
                        match claimed, err with true, None => f | _, err => mret (Err err) end) (fun r => r = Err None).
Proof.
  intros Hf. eapply ends_bind; [apply ends_claim_output|..].
  - intros [[] [e|]]; first [apply Hf|apply kept_ret].
  - intros [[] [e|]]; [right; by apply ends_ret|by right|right; by apply ends_ret|by left].
Qed.

Lemma ends_granted {A} k (a : A) : ends k (mret (Ok a : result (option error) A)) (fun r => r = Err None).
Proof. by apply ends_ret. Qed.

Lemma kept_has_current message is_time reader path owner : kept (HasCurrent message is_time reader path owner).
Proof.
  unfold HasCurrent. io_kept.
Qed.

Lemma kept_write path content owner : kept (writeAgentTurnSharedfile deps path content owner).
Proof.
  unfold writeAgentTurnSharedfile, Write, write_file. io_kept.
Qed.

Lemma ends_sharedfile node m owner :
  ends (node_key node) (materializeSharedfileAfterClaim deps node m owner) (fun r => r = Err None).
Proof.
  unfold materializeSharedfileAfterClaim. case_match; [apply ends_granted|]. case_match.
  - apply ends_after; [apply kept_has_current|]. intros [[]|e]; [|apply ends_materialize_end..].
    eapply ends_bind; [apply ends_claim_output|intros [[] [e|]]; apply kept_ret|].
    intros [[] [e|]]; first [by left|right; by apply ends_ret].
  - apply ends_claimed. apply ends_after; [apply kept_write|]. intros [f|]; [apply ends_materialize_end|apply ends_granted].
Qed.

Lemma ends_artifact node m params : ends (node_key node) (materializeArtifactAfterClaim deps node m params) (fun r => r = Err None).
Proof.
  unfold materializeArtifactAfterClaim. case_match; [|apply ends_materialize_end]. apply ends_claimed.
  apply ends_after; [apply kept_ask|]. intros [e|]; [apply ends_materialize_end|]. apply ends_after; [apply kept_emit|intros; apply ends_granted].
Qed.

Lemma ends_done node result : ends (node_key node) (advanceNodeDone node result) (fun r => r = None).
Proof.
  unfold advanceNodeDone. eapply ends_bind; [apply (ends_complete (node_key node))|..].
  - intros [res|e]; [apply kept_bind; [apply kept_publish_complete|intros; apply kept_ret]|]. case_match; [apply kept_ret|].
    apply kept_bind; [apply ends_repair|intros; apply kept_ret].
  - intros [res|e]; [by left|]. destruct (errors_Is e ErrNotFound) eqn:E; [by left|right].
    eapply ends_bind; [apply ends_repair|intros; apply kept_ret|]. intros [r|]; [right; by apply ends_ret|by left].
Qed.

Lemma kept_prepare node raw :
  kept (prepareTurnCompletedResult (sd_message deps) byte_len Error
    (fun target raw => BuildImportParamsFromTarget (sd_zip deps) (sd_temp_file deps) target raw (taskNodeRunID node) artifactUpdatedBy) node raw).
Proof.
  unfold prepareTurnCompletedResult. repeat (case_match; try apply kept_ret). unfold prepareArtifactTurnCompletedResult.
  apply kept_bind; [|intros; apply kept_ret]. unfold BuildImportParamsFromTarget, BuildImportParams, writeDocumentArtifactTempFile.
  io_kept.
Qed.

Lemma ends_success node raw ev : ends (node_key node) (advanceNodeDoneForSuccess deps node raw ev) (fun r => r = None).
Proof.
  unfold advanceNodeDoneForSuccess. apply ends_after; [apply kept_prepare|]. intros [m|f]; [|apply ends_failure].
  eapply ends_bind with (G1 := fun r => r = Err None).
  - unfold materializeTurnOutputAfterClaim. case_match; [apply ends_artifact|apply ends_sharedfile].
  - intros [r|e]; [apply ends_done|apply kept_ret].
  - intros [r|[e|]]; [right; apply ends_done|right; by apply ends_ret|by left].
Qed.

Lemma ends_turn_failed node ev : ends (node_key node) (advanceNodeFailed node ev) (fun r => r = None).
Proof.
  eapply ends_bind; [apply ends_failed|intros []; apply kept_ret|]. intros [b [e|]]; [right; by apply ends_ret|by left].
Qed.

Lemma ends_advance node ev :
  isTerminalNodeStatus (nd_Status node) = false ->
  ends (node_key node) (advanceNodeForTurnCompleted deps node ev) (fun r => r = None).
Proof. unfold advanceNodeForTurnCompleted. intros ->. case_match; [apply ends_success|apply ends_turn_failed]. Qed.

Lemma kept_advance node ev : kept (advanceNodeForTurnCompleted deps node ev).
Proof.
  destruct (isTerminalNodeStatus (nd_Status node)) eqn:E; [|by apply ends_advance].
  unfold advanceNodeForTurnCompleted. rewrite E. apply kept_ret.
Qed.

Lemma kept_advance_all nodes ev : kept (advance_all deps nodes ev).
Proof.
  induction nodes as [|n nodes IH]; [apply kept_ret|]. cbn [advance_all]. apply kept_bind; [apply kept_ask|]. intros [e|]; [apply kept_ret|].
  apply kept_bind; [apply kept_advance|]. intros [e|]; [apply kept_ret|exact IH].
Qed.

Lemma ends_advance_all nodes ev node :
  node ∈ nodes -> isTerminalNodeStatus (nd_Status node) = false -> ends (node_key node) (advance_all deps nodes ev) (fun r => r = None).
Proof.
  intros Hin Ht. induction nodes as [|n nodes IH]; [by apply not_elem_of_nil in Hin|]. cbn [advance_all].
  apply ends_after; [apply kept_ask|]. intros [e|]; [by apply ends_ret|]. apply elem_of_cons in Hin as [<-|Hin].
  - eapply ends_bind; [by apply ends_advance|intros [e|]; [apply kept_ret|apply kept_advance_all]|].
    intros [e|]; [right; by apply ends_ret|by left].
  - apply ends_after; [apply kept_advance|]. intros [e|]; [by apply ends_ret|by apply IH].
Qed.

Lemma kept_stop id : kept (stopSpawnedAgentForSubscriber deps id).
Proof.
  unfold stopSpawnedAgentForSubscriber, StopSpawnedAgent, resolveAgentIDForStop.
  io_kept.
Qed.

Lemma open_not_ended st : open_status st = true -> isTerminalNodeStatus st = false.
Proof. unfold open_status. rewrite str_in_elem. intros H. rewrite !elem_of_cons in H. destruct H as [->|[->|H]]; [done..|]. by apply not_elem_of_nil in H. Qed.

(** What the projection does with the nodes it found. *)
Definition project_nodes (order : list Node) (ev : TurnCompleted) : IO (option error) :=
  match order with
  | [] => mret None
  | _ =>
      err ← advance_all deps order ev;
      match err with
      | Some e => mret (Some e)
      | None => _ ← stopSpawnedAgentForSubscriber deps thread; mret None
      end
  end.

Lemma kept_project_nodes order ev : kept (project_nodes order ev).
Proof.
  destruct order as [|n order]; [apply kept_ret|]. apply kept_bind; [apply kept_advance_all|].
  intros [e|]; [apply kept_ret|]. apply kept_bind; [apply kept_stop|intros; apply kept_ret].
Qed.

Lemma ends_project_nodes order ev node :
  node ∈ order -> isTerminalNodeStatus (nd_Status node) = false -> ends (node_key node) (project_nodes order ev) (fun r => r = None).
Proof.
  intros Hin Ht. destruct order as [|n order]; [by apply not_elem_of_nil in Hin|].
  eapply ends_bind; [by apply (ends_advance_all _ _ node)| |].
  - intros [e|]; [apply kept_ret|]. apply kept_bind; [apply kept_stop|intros; apply kept_ret].
  - intros [e|]; [right; by apply ends_ret|by left].
Qed.

(** Every open node is among those found. *)
Lemma project_settles (w : world) order ev k :
  clean thread (w_db w) -> order ≡ₚ List.filter (carries thread) (db_nodes (w_db w)) ->
  (project_nodes order ev w).1 = None -> settled thread k (w_db (project_nodes order ev w).2).
Proof.
  intros Hcl Hp Hok. destruct (existsb (fun n => bool_decide (node_key n = k) && open_status (nd_Status n)) order) eqn:E.
  - apply existsb_exists in E as (n & Hin & Hn). apply andb_true_iff in Hn as [Hk Hst]. apply bool_decide_eq_true_1 in Hk as <-.
    apply list_elem_of_In in Hin. by eapply (ends_project_nodes order ev n); [|apply open_not_ended|..].
  - apply kept_project_nodes; [done|]. intros n (Hn & Hc & Hk & Hst & _). exfalso.
    assert (n ∈ order) as Hin by (rewrite Hp; by apply list_elem_of_In, filter_In; split; [apply list_elem_of_In|]).
    apply not_true_iff_false in E. apply E. apply existsb_exists. exists n. split; [by apply list_elem_of_In|].
    by rewrite bool_decide_eq_true_2, Hst.
Qed.
End programs.

(** C5: when the projection of a completed turn reports no error, every node that carries
    the thread and is still ready or running in a running run has a repair on record: the
    wakeup table has a row under the node's key for completing it again or for failing it.
    So each other node was completed, failed or ended by someone else.  Any store call may
    fail, the lookup may answer in any order, and between any two calls other processes run
    any transactions of the store that do not give a closed node a new attempt, do not record
    this thread again and delete no DAG. *)
Theorem turn_never_lost `{EN : Env} (deps : DAGSubscriberDeps) ev w
    (PR : Peers (TrimSpace (tc_ThreadID ev))) (MF : MildFaults)
    (Horder : forall i l, sd_order deps i l ≡ₚ l) (Hthread : TrimSpace (tc_ThreadID ev) <> EmptyString)
    (Hclean : clean (TrimSpace (tc_ThreadID ev)) (w_db w)) (Hok : (projectDAGTurnCompleted deps ev w).1 = None) k :
  settled (TrimSpace (tc_ThreadID ev)) k (w_db (projectDAGTurnCompleted deps ev w).2).
Proof.
  set (thread := TrimSpace (tc_ThreadID ev)) in *. pose proof (calm_clean _ _ _ (peers_calm thread (w_step w) _) Hclean) as Hcl.
  set (w1 := mkWorld (other (w_step w) (w_db w)) (S (S (w_step w))) (w_lease w) (w_canceled w) (w_captured w) (w_log w)).
  assert (projectDAGTurnCompleted deps ev w
          = match fault (w_step w) with
            | Some e => (Some e, (projectDAGTurnCompleted deps ev w).2)
            | None => project_nodes thread deps (sd_order deps (S (w_step w)) (List.filter (carries thread) (db_nodes (w_db w1)))) ev w1
            end) as Hrun.
  { unfold projectDAGTurnCompleted. fold thread. destruct (String.eqb_spec thread EmptyString) as [|_]; [done|].
    unfold mbind, IO_bind, call. by destruct (fault (w_step w)). }
  rewrite Hrun in *. destruct (fault (w_step w)); [done|]. by apply project_settles.
Qed.
