(* ===== verification/TurnOutput.v ===== *)
(** * What a completed turn leaves behind

    The repair that is queued for a completion the store refused replays exactly that
    completion, and the marker written beside a shared file is recognised for the turn
    that wrote it and for no other. *)

From S2P Require Import Prelude GoStrings Json DagStore NodeConfig WakeupPayload RunStore RunEffects WakeupLease RetryPolicy Effects AgentExecutor NodeRouter Dispatcher DocumentArtifact Subscriber TurnStore.

(** ** Repairs *)

(** A claim changes nothing of what the wakeup asks for. *)
Record claim_of (row w : Wakeup) : Prop := {
  co_kind : wk_Kind w = wk_Kind row;
  co_dag : wk_DagKey w = wk_DagKey row;
  co_node : wk_NodeKey w = wk_NodeKey row;
  co_run : wk_RunID w = wk_RunID row;
  co_target : wk_TargetAgentID w = wk_TargetAgentID row;
  co_payload : wk_PromptPayload w = wk_PromptPayload row;
  co_version : wk_PayloadSchemaVersion w = wk_PayloadSchemaVersion row;
}.

Section repairs.
Context `{EN : Env}.

Definition repair_input (node : Node) (result : RawMessage) : EnqueueWakeupInput :=
  mkEnqueue (nd_DagKey node) (nd_NodeKey node) (taskNodeRunID node) completion_retry_kind TargetAgentID result
    (IdempotencyKey (nd_DagKey node) (nd_NodeKey node) (taskNodeRunID node)).

Lemma Enqueue_queued node result w :
  (Enqueue node result w).1 = None ->
  (0 < taskNodeRunID node)%Z
  /\ exists a s', EnqueueWakeup byte_len (sql_ms (clock (w_step w))) (repair_input node result) (other (w_step w) (w_db w)) = Ok (a, s')
     /\ w_db (Enqueue node result w).2 = s'.
Proof.
  unfold Enqueue. destruct (taskNodeRunID node <=? 0)%Z eqn:E; [done|]. go_bool. intros H. split; [lia|].
  destruct result; [done..|]. unfold mbind, IO_bind, call in *. destruct (fault (w_step w)); [done|]. fold (repair_input node (RawJSON j)) in *.
  destruct (EnqueueWakeup _ _ _ _) as [[a s']|e]; [|done]. by exists a, s'.
Qed.

Lemma enqueue_fresh now input s a s' :
  EnqueueWakeup byte_len now input s = Ok (a, s') -> en_IdempotencyKey input ∉ wk_IdempotencyKey <$> db_wakeups s ->
  db_wakeups s' = db_wakeups s ++ [new_wakeup now (next_id (wk_ID <$> db_wakeups s)) input]
  /\ validateEnqueueWakeupPayload byte_len (en_WakeupKind input) (en_TargetAgentID input) (en_PromptPayload input) = Ok tt.
Proof.
  intros H Hfresh. unfold EnqueueWakeup, enqueueWakeupTx in H. tx_ok. destruct (List.find _ _) as [w|] eqn:E; tx_ok; [|done].
  exfalso. apply find_some in E as [Hin Hk]. apply Hfresh. apply String.eqb_eq in Hk. rewrite <- Hk. by apply list_elem_of_fmap_2, list_elem_of_In.
Qed.

(** Only an object passes the check of an internal payload. *)
Lemma object_payload_json target payload :
  validateEnqueueWakeupPayload byte_len completion_retry_kind target payload = Ok tt -> json_Valid payload = true.
Proof.
  intros H. unfold validateEnqueueWakeupPayload in H. change (String.eqb completion_retry_kind "turn_complete_retry") with true in H. cbv iota in H.
  unfold validateInternalWakeupPayload, validateInternalObjectPayload, decodeStrict in H. go_ok. by destruct payload.
Qed.

Lemma repair_envelope node result w :
  (0 < taskNodeRunID node)%Z -> TrimSpace (nd_DagKey node) <> EmptyString -> TrimSpace (nd_NodeKey node) <> EmptyString ->
  validateEnqueueWakeupPayload byte_len completion_retry_kind TargetAgentID result = Ok tt ->
  claim_of (new_wakeup 0 0 (repair_input node result)) w -> validateWakeupDispatchEnvelope w = Ok tt.
Proof.
  intros Hrun Hd Hn Hp [Hk Hdag Hnode Hid Ht Hpay Hv]. cbn in Hk, Hdag, Hnode, Hid, Ht, Hpay, Hv. unfold validateWakeupDispatchEnvelope.
  rewrite Hv, Hk, Ht, Hpay. change (1 =? WakeupPayloadSchemaVersion1)%Z with true.
  unfold ValidateWakeupPayloadForKind. rewrite Hp. cbn [guard_err mbind result_bind].
  unfold validateWakeupRowIdentity. rewrite Hk, Hdag, Hnode. change (TrimSpace completion_retry_kind) with "turn_complete_retry".
  change (String.eqb "turn_complete_retry" "start") with false.
  change (str_in "turn_complete_retry" ["node_start"; "manual_dispatch"; "turn_complete_retry"; "terminal_failure_compensation"]) with true.
  cbv iota. unfold validateDAGWakeupRowIdentity. rewrite Hid.
  rewrite (proj2 (String.eqb_neq _ _) Hd), (proj2 (String.eqb_neq _ _) Hn), (proj2 (Z.ltb_lt _ _) Hrun). reflexivity.
Qed.
End repairs.

(** C21: a repair replays the completion.  When the completion of a node was refused and its
    repair is queued (no error, no earlier repair of the node), the table has one new
    pending wakeup, and whoever claims it takes the path of a completion retry and calls
    the store with exactly the input of the refused completion: same node, run and
    result.  The keys are trimmed, as the store's writers leave them. *)
Theorem repair_replays_completion `{EN : Env} (d : WakeupDispatcher) node result w
    (Hdag : TrimSpace (nd_DagKey node) = nd_DagKey node) (Hnode : TrimSpace (nd_NodeKey node) = nd_NodeKey node)
    (Hdag0 : nd_DagKey node <> EmptyString) (Hnode0 : nd_NodeKey node <> EmptyString)
    (Hfresh : IdempotencyKey (nd_DagKey node) (nd_NodeKey node) (taskNodeRunID node)
                ∉ wk_IdempotencyKey <$> db_wakeups (other (w_step w) (w_db w)))
    (Hok : (Enqueue node result w).1 = None) :
  exists row,
    db_wakeups (w_db (Enqueue node result w).2) = db_wakeups (other (w_step w) (w_db w)) ++ [row]
    /\ wk_Status row = "pending"
    /\ forall launcher c, claim_of row c ->
         handleClaimed d launcher c = handleTurnCompletionRetryWakeup d c
         /\ Complete c = (res ← call (fun now => CompleteNodeAndScheduleDownstream byte_len (time_text now) (sql_ms now) json_ok reencode
                                                   (completion_input node result));
                          mret (match res with
                                | Ok _ => CompleteSucceeded
                                | Err e => if errors_Is e ErrNotFound then CompleteAlreadyTerminal else CompleteRetry e
                                end)).
Proof.
  destruct (Enqueue_queued node result w Hok) as (Hrun & a & s' & Hq & ->).
  destruct (enqueue_fresh _ _ _ _ _ Hq Hfresh) as [Hrows Hpay]. eexists. split; [exact Hrows|]. split; [done|].
  intros launcher c Hc. assert (json_Valid result = true) as Hjson by (exact (object_payload_json TargetAgentID result Hpay)).
  assert (validateWakeupDispatchEnvelope c = Ok tt) as Henv.
  { eapply (repair_envelope node result); [done|by rewrite Hdag|by rewrite Hnode|done|]. destruct Hc. by split. }
  destruct Hc as [Hk Hd Hn Hid Ht Hp Hv]. cbn in *. split.
  - unfold handleClaimed. rewrite Henv. unfold IsWakeup. by rewrite Hk.
  - unfold Complete, CompleteInput, routeRunID. rewrite Hid, Hd, Hn, Hp, Hdag, Hnode. cbn [default from_option id].
    rewrite (proj2 (Z.ltb_lt _ _) Hrun), (proj2 (String.eqb_neq _ _) Hdag0), (proj2 (String.eqb_neq _ _) Hnode0), Hjson. done.
Qed.

(** ** Markers *)

(** Reading back a number that was printed. *)
Lemma digit_char_value d : (d < 10)%N -> digit_of (pretty_N_char d) = Some (Z.of_N d).
Proof.
  intros H. assert (d ∈ [0; 1; 2; 3; 4; 5; 6; 7; 8; 9]%N) as Hin by (rewrite !elem_of_cons; lia).
  rewrite !elem_of_cons, elem_of_nil in Hin. by destruct Hin as [->|[->|[->|[->|[->|[->|[->|[->|[->|[->|[]]]]]]]]]]].
Qed.

Lemma parse_printed_go x s : parse_digits (pretty_N_go x s) 0 = parse_digits s (Z.of_N x).
Proof.
  revert s. induction (N.lt_wf_0 x) as [x _ IH]; intros s. destruct (decide (0 < x)%N) as [Hx|Hx].
  - rewrite pretty_N_go_step by done. rewrite IH by (apply N.div_lt; lia). cbn [parse_digits].
    rewrite digit_char_value by (apply N.mod_lt; lia). cbn. f_equal. pose proof (N.div_mod x 10). lia.
  - assert (x = 0%N) as -> by lia. by rewrite pretty_N_go_0.
Qed.

Lemma parse_printed_int (n : Z) : (0 < n)%Z -> in_int64 n = true -> parse_int64 (pretty n) = Some n.
Proof.
  intros Hn Hr. destruct n as [|p|p]; try lia. change (pretty (Z.pos p)) with (pretty (N.pos p)).
  assert (parse_digits (pretty (N.pos p)) 0 = Some (Z.pos p)) as Hp.
  { unfold pretty, pretty_N. rewrite decide_False by done. rewrite parse_printed_go. done. }
  unfold parse_int64. generalize dependent (pretty (N.pos p)). intros text Hp.
  match goal with |- (?r ≫= _) = _ => assert (r = Some (Z.pos p)) as ->; [|change ((if in_int64 (Z.pos p) then Some (Z.pos p) else None) = Some (Z.pos p)); by rewrite Hr] end.
  destruct text as [|[[][][][][][][][]] text]; first [exact Hp|discriminate Hp].
Qed.

(** Two owners that a marker does not tell apart. *)
Definition same_owner (a b : Owner) : bool :=
  String.eqb (TrimSpace (ow_DagKey a)) (TrimSpace (ow_DagKey b)) && String.eqb (TrimSpace (ow_NodeKey a)) (TrimSpace (ow_NodeKey b))
  && (ow_RunID a =? ow_RunID b)%Z
  && String.eqb (TrimSpace (ow_ThreadID a)) (TrimSpace (ow_ThreadID b)) && String.eqb (TrimSpace (ow_TurnID a)) (TrimSpace (ow_TurnID b)).

Record utf8_owner (o : Owner) : Prop := {
  uo_dag : utf8_valid (TrimSpace (ow_DagKey o)); uo_node : utf8_valid (TrimSpace (ow_NodeKey o));
  uo_thread : utf8_valid (TrimSpace (ow_ThreadID o)); uo_turn : utf8_valid (TrimSpace (ow_TurnID o));
}.

(** The last content written to a path. *)
Definition read_back (log : list event) (path : string) : option string :=
  foldl (fun found e => match e with FileWritten p content => if String.eqb p path then Some content else found | _ => found end) None log.

Lemma read_back_snoc log path content p :
  read_back (log ++ [FileWritten path content]) p = if String.eqb path p then Some content else read_back log p.
Proof. unfold read_back. by rewrite foldl_app. Qed.

Section markers.
Context `{EN : Env} (message : string -> RawMessage) (is_time : string -> bool).

(** [json.Unmarshal] reads what [json.Marshal] wrote; [time.Parse] accepts a time printed
    by [Format], in the same layout. *)
Class MarkerCodec (owner : Owner) : Prop := {
  marker_text t : message (TrimSpace (encode owner t)) = RawJSON (marker_doc owner (time_text t));
  marker_time t : is_time (TrimSpace (time_text t)) = true;
}.

Lemma decode_marker dag node num run thread turn at_ :
  parse_int64 num = Some run ->
  Unmarshal (C := error) false no_custom marker_t
    (RawJSON (JObj [("dag_key", JStr dag); ("node_key", JStr node); ("run_id", JNum num); ("thread_id", JStr thread);
                    ("turn_id", JStr turn); ("updated_at", JStr at_)]))
  = Ok (VStruct [("dag_key", VStr dag); ("node_key", VStr node); ("run_id", VInt run); ("thread_id", VStr thread);
                 ("turn_id", VStr turn); ("updated_at", VStr at_)]).
Proof. intros Hn. cbn -[parse_int64]. by rewrite Hn. Qed.

Lemma matches_encoded owner owner' now `{!MarkerCodec owner} :
  utf8_owner owner -> (0 < ow_RunID owner)%Z -> in_int64 (ow_RunID owner) = true ->
  matches message is_time (encode owner now) owner' = same_owner owner owner'.
Proof.
  intros [U1 U2 U3 U4] Hpos Hrun. unfold matches. rewrite marker_text. unfold marker_doc, json_string.
  unfold utf8_valid in *. rewrite U1, U2, U3, U4, (decode_marker _ _ _ (ow_RunID owner)) by (by apply parse_printed_int).
  unfold field, get. cbn [List.find fst snd String.eqb Ascii.eqb Bool.eqb fmap option_fmap option_map from_option id str_val int_val default].
  rewrite marker_time. done.
Qed.

Lemma Write_log writer path content owner w :
  (Write (Some writer) path content owner w).1 = None ->
  validate owner = None
  /\ exists now, w_log (Write (Some writer) path content owner w).2
       = w_log w ++ [FileWritten path content; FileWritten (MarkerPath path) (encode owner now)].
Proof.
  unfold Write. destruct (validate owner); [done|]. unfold write_file, mbind, IO_bind, ask, emit, mret, IO_ret. cbn.
  destruct (writer _ _ _); [done|]. cbn. destruct (writer _ _ _); [done|]. cbn. intros _. split; [done|]. eexists. by rewrite <- app_assoc.
Qed.
End markers.

(** A file is accepted as the output of the turn that wrote it and of no other.  When a
    shared file and its marker were written without an error, then for every owner with
    the required fields, the later check of the file by a reader that reads back what was
    written answers exactly whether that owner is the same node, run, thread and turn:
    a file left by another run or an earlier turn is never taken for the current
    output. *)
Theorem marker_exact `{EN : Env} message is_time writer path content owner owner' w w'
    (CL : MarkerCodec message is_time owner) (Hutf : utf8_owner owner) (Hrun : in_int64 (ow_RunID owner) = true)
    (Hwritten : (Write (Some writer) path content owner w).1 = None) (Hvalid : validate owner' = None) :
  let log := w_log (Write (Some writer) path content owner w).2 in
  (HasCurrent message is_time (Some (fun _ p => Ok (read_back log p))) path owner' w').1 = Ok (same_owner owner owner').
Proof.
  intros log. destruct (Write_log _ _ _ _ _ Hwritten) as (Hv & now & Hlog). subst log. rewrite Hlog.
  change (w_log w ++ [FileWritten path content; FileWritten (MarkerPath path) (encode owner now)])
    with (w_log w ++ ([FileWritten path content] ++ [FileWritten (MarkerPath path) (encode owner now)])). rewrite app_assoc.
  assert (0 < ow_RunID owner)%Z as Hpos by (unfold validate in Hv; repeat case_match; try done; go_bool; lia).
  unfold HasCurrent. rewrite Hvalid. unfold mbind, IO_bind, ask. rewrite !read_back_snoc, String.eqb_refl.
  destruct (String.eqb (MarkerPath path) path); rewrite ?String.eqb_refl; cbn; by rewrite ?String.eqb_refl, matches_encoded.
Qed.
