(* ===== verification/TurnSamples.v ===== *)
(** * Turns of a small run

    Witnesses of the theorems on completed turns, and runs that show what the subscriber
    does in corners its comments do not mention. *)

From S2P Require Import Prelude GoStrings Json DagStore NodeConfig WakeupPayload RunStore RunEffects WakeupLease RetryPolicy Effects AgentExecutor NodeRouter Dispatcher DispatchSamples DocumentArtifact Subscriber TurnStore TurnDurability TurnOutput.

Definition turn_node (config : RawMessage) : Node :=
  mkNode "d" "n" (Some 1%Z) "t" "agent" "a" (RawJSON (JArr [])) [] [] "running" EmptyString config RawEmpty None None (Some "thread_1").

Definition turn_world (node : Node) : world :=
  mkWorld
    (mkDB [mkDAG "d" 1 "t" EmptyString "active" EmptyString (RawJSON (JObj [])) EmptyString EmptyString EmptyString None]
       [node] [mkRun 1 "r" "d" 1 "manual" "running" (RawJSON (JArr [])) (RawJSON (JObj []))] [])
    0 None None EmptyString [].

Definition turn (result : string) : TurnCompleted := mkTurn " thread_1 " "turn_1" true EmptyString EmptyString result EmptyString EmptyString.

(** Texts are read as messages by the given function. *)
Definition plain_deps (message : string -> RawMessage) : DAGSubscriberDeps :=
  mkDeps (Some (fun _ _ => Ok None)) (Some (fun _ _ _ => None)) None None (fun _ l => rev l) (fun _ => Ok "zip") (fun _ _ _ => Ok "/tmp/f")
    message (fun _ => true).

(** The node and the queue after a turn, and what was said. *)
Definition outcome (w : world) : list (string * RawMessage) * list (string * string * RawMessage) * list event :=
  ((fun n => (nd_Status n, nd_Result n)) <$> db_nodes (w_db w),
   (fun r => (wk_Kind r, wk_Status r, wk_PromptPayload r)) <$> db_wakeups (w_db w), w_log w).

Definition project (faults : list nat) (deps : DAGSubscriberDeps) (node : Node) (ev : TurnCompleted) : option error * world :=
  @projectDAGTurnCompleted (quiet_env faults) deps ev (turn_world node).

Definition no_json (_ : string) : RawMessage := RawBad.

Example turn_completes :
  outcome (project [] (plain_deps no_json) (turn_node agent_config) (turn "all good")).2 =
    ([("done", RawJSON (JObj [("text", JStr "all good")]))], [], [StatusChanged "d" "n" 1 "running" "done"]).
Proof. vm_compute. reflexivity. Qed.

(** The store refuses the completion once: its repair is queued. *)
Example turn_repaired :
  outcome (project [3] (plain_deps no_json) (turn_node agent_config) (turn "all good")).2 =
    ([("running", RawEmpty)], [("turn_complete_retry", "pending", RawJSON (JObj [("text", JStr "all good")]))], []).
Proof. vm_compute. reflexivity. Qed.

(** ** Corners *)

(** A result that is a JSON array is kept as it is, but the queue only takes objects: when
    the store refuses the completion, the repair is refused too and nothing is left of
    the turn but the error. *)
Definition array_message (_ : string) : RawMessage := RawJSON (JArr [JNum "1"; JNum "2"]).

Example array_result_not_repaired :
  let end_ := project [3] (plain_deps array_message) (turn_node agent_config) (turn "[1,2]") in
  is_Some end_.1 /\ outcome end_.2 = ([("running", RawEmpty)], [], []).
Proof. vm_compute. split; [by eexists|reflexivity]. Qed.

(** The key of a repair names the node of the run, not the turn.  When an earlier repair of
    the node was given up, the completion that the store refuses now is not queued: the key
    is taken, the projection reports success, and the node stays as it is. *)
Definition given_up_repair : Wakeup :=
  mkWakeup 1 "d" "n" (Some 1%Z) "turn_complete_retry" TargetAgentID (RawJSON (JObj [])) 1 (IdempotencyKey "d" "n" 1) "failed" 5 0 None EmptyString None None None "refused".

Example used_key_not_repaired :
  let start := turn_world (turn_node agent_config) in
  let end_ := @projectDAGTurnCompleted (quiet_env [3]) (plain_deps no_json) (turn "all good")
                (mkWorld (with_wakeups (w_db start) [given_up_repair]) 0 None None EmptyString []) in
  end_.1 = None /\ outcome end_.2 = ([("running", RawEmpty)], [("turn_complete_retry", "failed", RawJSON (JObj []))], []).
Proof. vm_compute. split; reflexivity. Qed.

(** The column of results takes JSON only. *)
Definition checked_env : Env := {|
  clock i := @clock (quiet_env []) i; fault _ := None; other _ s := s; ticks _ := []; new_agent_id _ := "agent_1";
  Error e := msg_format (err_msg e); byte_len _ := 100%Z; json_ok r := json_Valid r; reencode j := j; same_config _ _ := true;
  time_text _ := "now"; raw_text _ := "{}"; Quote s := s; float_fits _ := true;
|}.

Definition both_outputs : RawMessage :=
  RawJSON (JObj [("exec", JObj [("provider", JStr "codex"); ("agent_key", JStr "k"); ("cwd", JStr "/w")]);
    ("outputs", JObj [("to_node_result", JBool true); ("to_sharedfile", JObj [("path", JStr "out.md")])])]).

Definition turn_owner : Owner := mkOwner "d" "n" 1 "thread_1" "turn_1".

(** A reader that finds a file of the turn and its marker. *)
Definition written_deps : DAGSubscriberDeps :=
  mkDeps (Some (fun _ _ => Ok (Some "{}"))) (Some (fun _ _ _ => None)) None None (fun _ l => l) (fun _ => Ok "zip") (fun _ _ _ => Ok "/tmp/f")
    (fun _ => RawJSON (marker_doc turn_owner "now")) (fun _ => true).

(** An agent wrote its file itself and said nothing: the file is accepted, but the empty
    result is no JSON, the claim fails on it, and so does every redelivery. *)
Example silent_agent_never_completes :
  let step w := @projectDAGTurnCompleted checked_env written_deps (turn EmptyString) w in
  let first := step (turn_world (turn_node both_outputs)) in
  let second := step first.2 in
  is_Some first.1 /\ is_Some second.1 /\ nd_Status <$> db_nodes (w_db second.2) = ["running"].
Proof. vm_compute. split_and!; [by eexists..|reflexivity]. Qed.

(** A claim on the output of a node does not keep a second one out. *)
Example output_claimed_twice :
  let claim (result : string) := ClaimNodeOutputMaterialization (fun _ => true) (mkOutputClaim "d" "n" 1 (RawJSON (JStr result))) in
  match (_ ← claim "first"; claim "second") (w_db (turn_world (turn_node agent_config))) with
  | Ok (n, _) => nd_Status n = "running" /\ nd_Result n = RawJSON (JStr "second")
  | Err _ => False
  end.
Proof. vm_compute. split; reflexivity. Qed.

(** ** Witnesses *)

#[export] Instance quiet_peers faults thread : Peers (EN := quiet_env faults) thread.
Proof. intros i s. apply rtc_refl. Qed.

#[export] Instance quiet_mild faults : MildFaults (EN := quiet_env faults).
Proof. intros i e. cbn. case_match; [|done]. by intros [= <-]. Qed.

Lemma turn_world_clean : clean "thread_1" (w_db (turn_world (turn_node agent_config))).
Proof.
  split; cbn.
  - apply NoDup_singleton.
  - intros n ->%list_elem_of_singleton _. vm_compute. by eexists.
  - intros n ->%list_elem_of_singleton _. cbn. set_solver.
  - by intros n ->%list_elem_of_singleton _.
Qed.

(** The completion fails; the node stays open and its repair is queued. *)
Lemma turn_never_lost_witness :
  let end_ := project [3] (plain_deps no_json) (turn_node agent_config) (turn "all good") in
  still_open "thread_1" ("d", "n", 1%Z) (w_db end_.2) (turn_node agent_config) /\ repair_recorded ("d", "n", 1%Z) (w_db end_.2).
Proof.
  intros end_. assert (still_open "thread_1" ("d", "n", 1%Z) (w_db end_.2) (turn_node agent_config)) as Ho.
  { unfold still_open. split_and!; [|vm_compute; reflexivity..].
    assert (db_nodes (w_db end_.2) = [turn_node agent_config]) as -> by (vm_compute; reflexivity). left. }
  split; [exact Ho|].
  refine (@turn_never_lost (quiet_env [3]) (plain_deps no_json) (turn "all good") (turn_world (turn_node agent_config))
    _ _ _ _ _ _ ("d", "n", 1%Z) (turn_node agent_config) Ho).
  - intros i l. cbn. symmetry. apply Permutation_rev.
  - vm_compute. discriminate.
  - exact turn_world_clean.
  - vm_compute. reflexivity.
Defined.

Definition queued_world : world :=
  (@Enqueue (quiet_env []) (turn_node agent_config) (RawJSON (JObj [])) (turn_world (turn_node agent_config))).2.

Lemma repair_replays_completion_witness :
  exists row, db_wakeups (w_db queued_world) = [row] /\ wk_Status row = "pending"
    /\ @handleClaimed (quiet_env []) (agent_dispatcher []) no_launcher row = @handleTurnCompletionRetryWakeup (quiet_env []) (agent_dispatcher []) row.
Proof.
  destruct (@repair_replays_completion (quiet_env []) (agent_dispatcher []) (turn_node agent_config) (RawJSON (JObj []))
    (turn_world (turn_node agent_config))) as (row & Hrows & Hst & Hrun).
  - vm_compute. reflexivity.
  - vm_compute. reflexivity.
  - discriminate.
  - discriminate.
  - apply not_elem_of_nil.
  - vm_compute. reflexivity.
  - exists row. split; [exact Hrows|]. split; [exact Hst|]. apply Hrun. by split.
Defined.

#[export] Instance checked_codec : MarkerCodec (EN := checked_env) (fun _ => RawJSON (marker_doc turn_owner "now")) (fun _ => true) turn_owner.
Proof. by split. Qed.

(** The file of the turn is accepted for it, and refused for the next turn. *)
Lemma marker_exact_witness :
  let current owner :=
    (@HasCurrent (fun _ => RawJSON (marker_doc turn_owner "now")) (fun _ => true)
       (Some (fun _ p => Ok (read_back (w_log (@Write checked_env (Some (fun _ _ _ => None)) "out.md" "text" turn_owner
                                                 (turn_world (turn_node both_outputs))).2) p)))
       "out.md" owner (turn_world (turn_node both_outputs))).1 in
  current turn_owner = Ok true /\ current (mkOwner "d" "n" 1 "thread_1" "turn_2") = Ok false.
Proof.
  split.
  - apply (@marker_exact checked_env _ _ (fun _ _ _ => None) "out.md" "text" turn_owner turn_owner _ _ checked_codec);
      [split; vm_compute; reflexivity|reflexivity|vm_compute; reflexivity|reflexivity].
  - apply (@marker_exact checked_env _ _ (fun _ _ _ => None) "out.md" "text" turn_owner (mkOwner "d" "n" 1 "thread_1" "turn_2") _ _ checked_codec);
      [split; vm_compute; reflexivity|reflexivity|vm_compute; reflexivity|reflexivity].
Defined.
