(* ===== verification/RunStart.v ===== *)
(** * Starting a run twice

    StartDAG under an idempotency key: the first call creates the run, every later
    call with the key answers that run, whatever became of it, and starts nothing
    again.  The effect of scheduling roots on a database is described first. *)

From S2P Require Import Prelude GoStrings NodeStatus Json NodeConfig DagStore ApplyOps WakeupPayload RunStore RunEffects Plan Cycle TemplateInvariant RunGraph RunInvariant WakeupLease DagService RunService RunLive ScheduledStart Effects AgentExecutor NodeRouter Dispatcher DocumentArtifact Subscriber LeaseProtocol TurnStore.

(** ** What scheduling roots may change *)

Definition log_event (dagKey : string) (runID : Z) (l : list json) (r : Run) : Run :=
  if running_row dagKey runID r then set_run (rn_Status r) (RawJSON (JArr l)) (rn_Metadata r) r else r.

(** Only the events of the run changed. *)
Definition logs (dagKey : string) (runID : Z) (runs runs' : list Run) : Prop :=
  runs' = runs \/ exists l, runs' = log_event dagKey runID l <$> runs.

Lemma log_event_row dagKey runID l r :
  run_shape (log_event dagKey runID l r) = run_shape r
  /\ rn_DagVersionSnapshot (log_event dagKey runID l r) = rn_DagVersionSnapshot r.
Proof. unfold log_event. by destruct (running_row dagKey runID r). Qed.

Lemma log_event_running dagKey runID l r :
  running_row dagKey runID (log_event dagKey runID l r) = running_row dagKey runID r.
Proof. unfold log_event. destruct (running_row dagKey runID r) eqn:E; [|done]. unfold running_row, run_row in *. exact E. Qed.

Lemma logs_trans dagKey runID a b c : logs dagKey runID a b -> logs dagKey runID b c -> logs dagKey runID a c.
Proof.
  intros [->|[l ->]] [->|[l' ->]]; [by left|right; eauto..|]. right. exists l'.
  rewrite <- list_fmap_compose. apply list_fmap_ext. intros i r _. unfold compose.
  unfold log_event at 1. rewrite log_event_running. unfold log_event. by destruct (running_row dagKey runID r).
Qed.

Lemma logs_shape dagKey runID a b : logs dagKey runID a b -> run_shape <$> b = run_shape <$> a.
Proof.
  intros [->|[l ->]]; [done|]. rewrite <- list_fmap_compose. apply list_fmap_ext. intros i r _. apply log_event_row.
Qed.

Definition has_array (r : Run) : Prop := exists l, rn_Events r = RawJSON (JArr l).

(** A run row with its version and an array of events survives. *)
Lemma logs_row dagKey runID a b r :
  logs dagKey runID a b -> r ∈ a -> has_array r ->
  exists r', r' ∈ b /\ run_shape r' = run_shape r /\ rn_DagVersionSnapshot r' = rn_DagVersionSnapshot r /\ has_array r'.
Proof.
  intros [->|[l ->]] Hr Ha; [eauto|]. exists (log_event dagKey runID l r).
  destruct (log_event_row dagKey runID l r) as [-> ->]. split_and!; [by apply list_elem_of_fmap_2|done..|].
  unfold log_event. destruct (running_row dagKey runID r); [|done]. by eexists.
Qed.

Definition wakeup_keys (s : db) : list string := wk_IdempotencyKey <$> db_wakeups s.

(** Neither templates nor nodes change, no wakeup is lost, runs only log. *)
Record scheduled (dagKey : string) (runID : Z) (s s' : db) : Prop := {
  sc_nodes : db_nodes s' = db_nodes s;
  sc_dags : db_dags s' = db_dags s;
  sc_keys : wakeup_keys s ⊆ wakeup_keys s';
  sc_runs : logs dagKey runID (db_runs s) (db_runs s');
}.

Lemma scheduled_refl dagKey runID s : scheduled dagKey runID s s.
Proof. split; try done. by left. Qed.

Lemma scheduled_trans dagKey runID a b c : scheduled dagKey runID a b -> scheduled dagKey runID b c -> scheduled dagKey runID a c.
Proof. intros [] []. split; [congruence..|set_solver|by eapply logs_trans]. Qed.

Lemma appendTaskDagRunEvent_logs dagKey runID e s k s' :
  appendTaskDagRunEvent dagKey runID (RawJSON e) s = Ok (k, s') ->
  scheduled dagKey runID s s' /\ db_wakeups s' = db_wakeups s.
Proof.
  unfold appendTaskDagRunEvent. intros H. tx_run. destruct (List.find _ _) as [row|]; [|done]. tx_run.
  split; [|done]. split; [done..|]. right.
  match goal with Ha : appendRunEventJSON (rn_Events row) _ = Ok ?v |- _ =>
    assert (exists l, v = RawJSON (JArr l)) as [l ->] by (unfold appendRunEventJSON in Ha; repeat case_match; simplify_eq; eauto) end.
  by exists l.
Qed.

Lemma EnqueueWakeup_keys byte_len now_ms input dagKey runID s z s' :
  EnqueueWakeup byte_len now_ms input s = Ok (z, s') ->
  scheduled dagKey runID s s' /\ en_IdempotencyKey input ∈ wakeup_keys s'.
Proof.
  unfold EnqueueWakeup, enqueueWakeupTx, wakeup_keys. intros H. tx_run. destruct (List.find _ _) as [w|] eqn:E; tx_run.
  - apply find_some in E as [Hw%list_elem_of_In E%String.eqb_eq]. split; [apply scheduled_refl|]. rewrite <- E. by apply list_elem_of_fmap_2.
  - cbn. split; [split; [done..| |by left]|].
    + unfold wakeup_keys. cbn. rewrite fmap_app. set_solver.
    + rewrite fmap_app. cbn. set_solver.
Qed.

(** ** Scheduling the roots again *)

(** The run is running, its row is the only one with its id, its events are an array. *)
Definition open_row (dagKey : string) (runID : Z) (s : db) : Prop :=
  NoDup (rn_ID <$> db_runs s) /\ exists r, r ∈ db_runs s /\ running_row dagKey runID r = true /\ has_array r.

Lemma open_row_scheduled dagKey runID s s' : scheduled dagKey runID s s' -> open_row dagKey runID s -> open_row dagKey runID s'.
Proof.
  intros [_ _ _ Hl] (Hnd & r & Hr & Hrun & Ha). split.
  - by rewrite (shape_ids _ _ (logs_shape _ _ _ _ Hl)).
  - destruct (logs_row _ _ _ _ r Hl Hr Ha) as (r' & Hr' & Hsh & _ & Ha'). exists r'. split_and!; [done| |done].
    unfold running_row, run_row, run_shape in *. by injection Hsh as -> _ -> ->.
Qed.

Lemma appendTaskDagRunEvent_again dagKey runID e s :
  (0 < runID)%Z -> open_row dagKey runID s -> exists k s', appendTaskDagRunEvent dagKey runID (RawJSON e) s = Ok (k, s').
Proof.
  intros Hpos (Hnd & r & Hr & Hrun & l & Hl).
  assert (forall y, y ∈ db_runs s -> running_row dagKey runID y = true -> y = r) as Hone.
  { intros y Hy Hry. eapply (same_key rn_ID); [exact Hnd|done|done|]. unfold running_row, run_row in *. go_bool. congruence. }
  assert (List.find (running_row dagKey runID) (db_runs s) = Some r) as Hf.
  { destruct (List.find _ _) as [y|] eqn:E.
    - apply find_some in E as [Hy%list_elem_of_In Hry]. by rewrite (Hone y Hy Hry).
    - apply list_elem_of_In, (find_none _ _ E) in Hr. congruence. }
  unfold appendTaskDagRunEvent, requireRuntimeRunID, guardM. rewrite (proj2 (Z.ltb_lt _ _) Hpos).
  unfold mbind, M_bind, mret, M_ret, get_db, lift. rewrite Hf, Hl. cbn [appendRunEventJSON mbind result_bind].
  unfold update_runs, mbind, M_bind, get_db, put_db, mret, M_ret, sql_update.
  rewrite (filter_single _ _ r); [by eauto|by eapply NoDup_fmap_1|done..].
Qed.

Lemma EnqueueWakeup_again byte_len now_ms now_ms' input s0 z s0' s :
  EnqueueWakeup byte_len now_ms input s0 = Ok (z, s0') -> en_IdempotencyKey input ∈ wakeup_keys s ->
  EnqueueWakeup byte_len now_ms' input s = Ok (0%Z, s).
Proof.
  unfold EnqueueWakeup, enqueueWakeupTx. intros H Hk. tx_run.
  repeat match goal with Hg : ?x = _ |- context [?x] => rewrite Hg end.
  cbv [guardM lift mbind M_bind mret M_ret get_db result_bind map_err].
  destruct (List.find _ (db_wakeups s)) as [w|] eqn:E; [done|]. exfalso.
  apply list_elem_of_fmap in Hk as (w & Hkw & Hw%list_elem_of_In). apply (find_none _ _ E) in Hw. rewrite Hkw, String.eqb_refl in Hw. done.
Qed.

(** A node was scheduled before [s]: its wakeup, if it has one, is there. *)
Definition scheduled_before (byte_len : RawMessage -> Z) (runID : Z) (n : Node) (s : db) : Prop :=
  exists now_text now_ms s0 z s0', scheduleRootWakeup byte_len now_text now_ms n runID s0 = Ok (z, s0') /\ wakeup_keys s0' ⊆ wakeup_keys s.

(** Scheduling changed nothing but the events of the run. *)
Definition only_logs (dagKey : string) (runID : Z) (s s' : db) : Prop :=
  scheduled dagKey runID s s' /\ db_wakeups s' = db_wakeups s.

Lemma only_logs_refl dagKey runID s : only_logs dagKey runID s s.
Proof. split; [apply scheduled_refl|done]. Qed.

Lemma scheduleRootWakeup_again byte_len now_text now_ms runID n s :
  (0 < runID)%Z -> open_row (nd_DagKey n) runID s -> scheduled_before byte_len runID n s ->
  exists s', scheduleRootWakeup byte_len now_text now_ms n runID s = Ok (0%Z, s') /\ only_logs (nd_DagKey n) runID s s'.
Proof.
  intros Hpos Hopen (nt & nm & s0 & z & s0' & H & Hk). unfold scheduleRootWakeup in *. tx_ok.
  assert (forall cause, exists s', (_ ← appendDispatchBlockedEvent now_text n runID "root" cause; mret 0%Z) s = Ok (0%Z, s')
    /\ only_logs (nd_DagKey n) runID s s') as Hblocked.
  { intros cause. unfold appendDispatchBlockedEvent. cbn zeta.
    match goal with |- context [appendTaskDagRunEvent _ _ (RawJSON ?e)] =>
      destruct (appendTaskDagRunEvent_again (nd_DagKey n) runID e s Hpos Hopen) as (k & s' & E) end.
    exists s'. unfold mbind, M_bind in *. rewrite E. split; [done|]. by eapply appendTaskDagRunEvent_logs. }
  unfold guardM at 1. match goal with Hg : bool_decide _ = true |- _ => rewrite Hg end.
  unfold mbind at 1, M_bind at 1, mret at 1, M_ret at 1.
  destruct (negb (String.eqb (nd_Status n) "ready")); [exists s; split; [done|apply only_logs_refl]|].
  tx_ok. unfold lift, mbind at 1, M_bind at 1. match goal with Hd : map_err _ _ = Ok _ |- _ => rewrite Hd end. cbn [mbind result_bind].
  destruct (negb _); [exists s; split; [done|apply only_logs_refl]|].
  destruct (String.eqb _ _); [apply Hblocked|].
  destruct (validateAutomaticDispatchConfig n); [|apply Hblocked].
  exists s. split; [|apply only_logs_refl]. eapply EnqueueWakeup_again; [exact H|].
  apply Hk. by eapply (EnqueueWakeup_keys _ _ _ (nd_DagKey n) runID).
Qed.

Lemma scheduleRootWakeup_scheduled byte_len now_text now_ms runID n s z s' :
  scheduleRootWakeup byte_len now_text now_ms n runID s = Ok (z, s') -> scheduled (nd_DagKey n) runID s s'.
Proof.
  unfold scheduleRootWakeup, appendDispatchBlockedEvent. intros H. tx_ok.
  repeat (case_match; tx_ok; try apply scheduled_refl);
    match goal with
    | Hq : appendTaskDagRunEvent _ _ _ _ = Ok _ |- _ => by apply appendTaskDagRunEvent_logs in Hq as [? _]
    | Hq : EnqueueWakeup _ _ _ _ = Ok _ |- _ => by eapply EnqueueWakeup_keys
    end.
Qed.

Lemma root_loop_before byte_len now_text now_ms dagKey runID nodes acc s z s' :
  Forall (fun n => nd_DagKey n = dagKey) nodes -> root_loop byte_len now_text now_ms nodes runID acc s = Ok (z, s') ->
  scheduled dagKey runID s s' /\ Forall (fun n => scheduled_before byte_len runID n s') nodes.
Proof.
  intros Hd. revert acc s. induction Hd as [|n nodes Hn _ IH]; intros acc s H; cbn [root_loop] in H; tx_ok.
  { split; [apply scheduled_refl|constructor]. }
  apply IH in H as [H1 H2]. split.
  - eapply scheduled_trans; [|exact H1]. rewrite <- Hn. by eapply scheduleRootWakeup_scheduled.
  - constructor; [|done]. unfold scheduled_before. do 5 eexists. split; [eassumption|apply H1].
Qed.

(** A node that is not a ready root needs no wakeup. *)
Lemma idle_scheduled_before byte_len runID n s :
  nd_RunID n = Some runID -> nd_Status n <> "ready" \/ (exists d ds, store_decodeDependsOn (nd_DependsOn n) = Ok (d :: ds)) ->
  scheduled_before byte_len runID n s.
Proof.
  intros Hr Hidle. exists EmptyString, 0%Z, s, 0%Z, s. split; [|done]. unfold scheduleRootWakeup.
  rewrite bool_decide_true by done. cbv [guardM mbind M_bind mret M_ret].
  destruct (String.eqb_spec (nd_Status n) "ready") as [Hs|Hs]; [|done].
  destruct Hidle as [Hi|(d & ds & Hd)]; [done|]. rewrite Hd. done.
Qed.

Lemma root_loop_again byte_len now_text now_ms dagKey runID nodes acc s :
  (0 < runID)%Z -> open_row dagKey runID s ->
  Forall (fun n => nd_DagKey n = dagKey /\ scheduled_before byte_len runID n s) nodes ->
  exists s', root_loop byte_len now_text now_ms nodes runID acc s = Ok (acc, s') /\ only_logs dagKey runID s s'.
Proof.
  intros Hpos. revert acc s. induction nodes as [|n nodes IH]; intros acc s Hopen Hall; cbn [root_loop].
  { exists s. split; [done|apply only_logs_refl]. }
  apply Forall_cons in Hall as [[<- Hb] Hall].
  destruct (scheduleRootWakeup_again byte_len now_text now_ms runID n s Hpos Hopen Hb) as (s1 & E & Hl & Hw).
  destruct (IH (acc + 0)%Z s1) as (s2 & E2 & Hl2 & Hw2).
  - by eapply open_row_scheduled.
  - eapply Forall_impl; [exact Hall|]. intros m [Hm (t & ms & s0 & z & s0' & Hs & Hk)]. split; [done|].
    exists t, ms, s0, z, s0'. split; [done|]. etrans; [exact Hk|apply Hl].
  - exists s2. unfold mbind, M_bind. rewrite E, Z.add_0_r in *. split; [done|]. split; [by eapply scheduled_trans|congruence].
Qed.

(** ** The database after the start *)

(** The template and the row of the run that [resp] answers are there; ids and keys of
    runs are unique. *)
Record started (dagKey : string) (resp : StartDAGResponse) (s : db) (row : Run) : Prop := {
  sd_dag : is_Some (find_dag dagKey s);
  sd_ids : NoDup (rn_ID <$> db_runs s);
  sd_keys : NoDup (rn_RunKey <$> db_runs s);
  sd_row : row ∈ db_runs s;
  sd_same : run_shape row = (sr_RunID resp, sr_RunKey resp, dagKey, rn_Status row);
  sd_version : rn_DagVersionSnapshot row = sr_Version resp;
}.

Lemma shape_keys (l l' : list Run) : run_shape <$> l = run_shape <$> l' -> rn_RunKey <$> l = rn_RunKey <$> l'.
Proof.
  intros H. change rn_RunKey with ((fun sh : Z * string * string * string => sh.1.1.2) ∘ run_shape).
  by rewrite !list_fmap_compose, H.
Qed.

Lemma CloneNodesForRun_nodes dagKey runID s u s' :
  CloneNodesForRun dagKey runID s = Ok (u, s') ->
  db_runs s' = db_runs s /\ db_dags s' = db_dags s /\ db_wakeups s' = db_wakeups s.
Proof.
  unfold CloneNodesForRun, ListNodes. intros H. tx_ok.
  match type of H with forM _ _ ?b = _ =>
    eapply (forM_inv (fun x => db_runs x = db_runs b /\ db_dags x = db_dags b /\ db_wakeups x = db_wakeups b)); [|done|exact H] end.
  intros t a w b _ Ha Hb. unfold insertRunNodeIfMissing in Hb. tx_ok. by destruct (existsb _ _); tx_ok.
Qed.

Lemma next_id_pos l : (0 < next_id l)%Z.
Proof. unfold next_id. assert (0 <= foldr Z.max 0 l)%Z; [|lia]. induction l; cbn; lia. Qed.

Lemma lockDAGForRunStart_found dagKey s d s' : lockDAGForRunStart dagKey s = Ok (d, s') -> find_dag dagKey s = Some d.
Proof.
  unfold lockDAGForRunStart, catch. destruct (GetDAG dagKey s) as [[d0 s0]|e] eqn:E; [|by destruct (errors_Is e ErrNotFound)].
  apply GetDAG_Ok in E as [? _]. by intros [= <- _].
Qed.

Lemma GetDAG_found dagKey s d : find_dag dagKey s = Some d -> GetDAG dagKey s = Ok (d, s).
Proof. intros H. unfold GetDAG. cbv [mbind M_bind get_db lift result_bind]. by rewrite H. Qed.

Lemma CreateRun_taken input s row : row ∈ db_runs s -> rn_RunKey row = cu_RunKey input ->
  CreateRun input s = Err (Errorf [ErrUnique] (Sprintf "UNIQUE constraint failed: task_dag_runs.run_key" [])).
Proof.
  intros Hrow Hkey. unfold CreateRun. cbv [mbind M_bind get_db guardM].
  replace (existsb _ _) with true; [done|]. symmetry. apply existsb_exists. exists row.
  split; [by apply list_elem_of_In|]. by apply String.eqb_eq.
Qed.

Section start_twice.
Context (byte_len : RawMessage -> Z).

Lemma startRunTx_started now_text now_ms dagKey input s resp s' :
  cu_DagKey input = dagKey -> cu_RunKey input ∉ rn_RunKey <$> db_runs s -> NoDup (rn_ID <$> db_runs s) -> NoDup (rn_RunKey <$> db_runs s) ->
  startRunTx byte_len now_text now_ms dagKey input s = Ok (resp, s') ->
  (exists row, started dagKey resp s' row /\ rn_Status row = "running" /\ has_array row)
  /\ (0 < sr_RunID resp)%Z /\ sr_RunKey resp = cu_RunKey input
  /\ Forall (fun n => scheduled_before byte_len (sr_RunID resp) n s') (run_nodes dagKey (sr_RunID resp) s').
Proof.
  intros Hdk Hfresh Hids Hkeys H. unfold startRunTx in H. tx_ok.
  match goal with Hl : lockDAGForRunStart _ _ = Ok _ |- _ => pose proof (lockDAGForRunStart_Ok _ _ _ _ Hl) as ->; rename Hl into Hlock end.
  match goal with Hc : CreateRun _ _ = Ok (?r, _) |- _ => unfold CreateRun in Hc; tx_ok; set (run := mkRun _ _ _ _ _ _ _ _) in * end.
  match goal with p : nat * Z |- _ => destruct p as [ready sched] end. tx_ok. cbn [sr_RunID sr_RunKey sr_Version NewStartDAGResponse].
  match goal with Hc : CloneNodesForRun _ _ _ = Ok _ |- _ => apply CloneNodesForRun_nodes in Hc as (Hr1 & Hd1 & Hw1) end.
  unfold PromoteAndScheduleRunRoots, PromoteRootNodesToReady, ScheduleRootWakeups in *. tx_run.
  match goal with Hq : root_loop _ _ _ _ _ _ _ = Ok _ |- _ => apply root_loop_before with (dagKey := cu_DagKey input) in Hq as [Hs Hb] end.
  2: { apply Forall_forall. intros n. rewrite list_elem_of_In, filter_In. unfold run_of. intros [_ Hn]. by go_bool. }
  pose proof (logs_shape _ _ _ _ (sc_runs _ _ _ _ Hs)) as Hsh. cbn [db_runs with_nodes] in Hsh. rewrite Hr1 in Hsh. cbn [db_runs with_runs] in Hsh.
  assert (run ∈ db_runs s ++ [run]) as Hrun by set_solver.
  destruct (logs_row _ _ _ _ run (sc_runs _ _ _ _ Hs)) as (row & Hrow & Hrs & Hver & Harr).
  { cbn [db_runs with_nodes]. by rewrite Hr1. }
  { by exists []. }
  split_and!; [|apply next_id_pos|done|by rewrite <- (sc_nodes _ _ _ _ Hs) in Hb].
  exists row. unfold run_shape in Hrs. injection Hrs as Hi Hk Hd Hst. split_and!; [|by rewrite Hst|done]. split.
  - exists x. apply lockDAGForRunStart_found in Hlock. unfold find_dag in *. rewrite (sc_dags _ _ _ _ Hs).
    cbn [db_dags with_nodes]. by rewrite Hd1.
  - rewrite (shape_ids _ _ Hsh), fmap_app. apply NoDup_app. split_and!; [done| |apply NoDup_singleton].
    intros y Hy%next_id_fresh. cbn. rewrite list_elem_of_singleton. lia.
  - rewrite (shape_keys _ _ Hsh), fmap_app. apply NoDup_app. split_and!; [done| |apply NoDup_singleton].
    intros y Hy. cbn. rewrite list_elem_of_singleton. by intros ->.
  - done.
  - cbn [sr_RunID sr_RunKey]. unfold run_shape. by rewrite Hi, Hk, Hd.
  - done.
Qed.

Lemma StartDAG_resolve now_text now_ms unix_nano req s row :
  let dagKey := TrimSpace (sq_DagKey req) in let runKey := generateRunKey unix_nano dagKey (sq_IdempotencyKey req) in
  dagKey <> EmptyString -> is_Some (find_dag dagKey s) -> NoDup (rn_RunKey <$> db_runs s) -> row ∈ db_runs s -> rn_RunKey row = runKey ->
  exists e, StartDAG byte_len now_text now_ms unix_nano req s = resolveStartDAGUniqueViolation byte_len now_text now_ms dagKey runKey e s
    /\ GetRun runKey s = Ok (Some row, s).
Proof.
  cbn zeta. intros Hne [d Hd] Hnd Hrow Hkey. set (runKey := generateRunKey _ _ _) in *. eexists. split.
  - unfold StartDAG, validateStartDAGPrereq, runStartDAGWithFallback, catch, startRunTx, guardM.
    rewrite (proj2 (String.eqb_neq _ _) Hne). unfold mbind, M_bind, lockDAGForRunStart, catch. cbn [negb]. cbv [mret M_ret].
    rewrite (GetDAG_found _ _ _ Hd). cbv beta iota. rewrite (GetDAG_found _ _ _ Hd). cbv beta iota. rewrite (CreateRun_taken _ s row); [done|done|]. exact Hkey.
  - unfold GetRun. cbv [mbind M_bind mret M_ret get_db]. do 2 f_equal. destruct (List.find _ _) as [y|] eqn:E.
    + apply find_some in E as [Hy%list_elem_of_In Hky%String.eqb_eq]. f_equal.
      eapply (same_key rn_RunKey); [exact Hnd|done|done|congruence].
    + apply list_elem_of_In, (find_none _ _ E) in Hrow. by apply String.eqb_neq in Hrow.
Qed.
(** The first call with a key runs the transaction; the version it was given is read again. *)
Lemma StartDAG_fresh now_text now_ms unix_nano req s resp s' :
  let dagKey := TrimSpace (sq_DagKey req) in let runKey := generateRunKey unix_nano dagKey (sq_IdempotencyKey req) in
  runKey ∉ rn_RunKey <$> db_runs s -> StartDAG byte_len now_text now_ms unix_nano req s = Ok (resp, s') ->
  startRunTx byte_len now_text now_ms dagKey (mkCreateRun runKey dagKey 0 (TrimSpace (sq_TriggerSource req)) RawEmpty) s = Ok (resp, s').
Proof.
  cbn zeta. intros Hfresh H. unfold StartDAG, validateStartDAGPrereq in H. tx_ok.
  match goal with Hg : GetDAG _ _ = Ok _ |- _ => apply GetDAG_Ok in Hg as [_ ->] end. tx_ok.
  unfold runStartDAGWithFallback, catch in H.
  match type of H with match ?m with _ => _ end = _ => destruct m as [r|e] eqn:E end; [by rewrite <- H|].
  destruct (errors_Is e ErrUnique); cbn [negb] in H; [|done].
  unfold resolveStartDAGUniqueViolation, GetRun in H. tx_ok.
  match type of H with match List.find ?p ?l with _ => _ end _ = _ => destruct (List.find p l) as [r|] eqn:F end; [|done].
  exfalso. apply find_some in F as [Hr%list_elem_of_In Hk%String.eqb_eq]. apply Hfresh. rewrite <- Hk. by apply list_elem_of_fmap_2.
Qed.

Lemma ScheduleRootWakeups_again now_text now_ms dagKey resp s row :
  (0 < sr_RunID resp)%Z -> started dagKey resp s row -> rn_Status row = "running" -> has_array row ->
  Forall (fun n => scheduled_before byte_len (sr_RunID resp) n s) (run_nodes dagKey (sr_RunID resp) s) ->
  exists s', ScheduleRootWakeups byte_len now_text now_ms dagKey (sr_RunID resp) s = Ok (0%Z, s') /\ only_logs dagKey (sr_RunID resp) s s'.
Proof.
  intros Hpos L Hst Ha Hbefore. rewrite Forall_forall in Hbefore.
  destruct (root_loop_again byte_len now_text now_ms dagKey (sr_RunID resp) (run_nodes dagKey (sr_RunID resp) s) 0 s Hpos) as (s' & E & Hl).
  - split; [apply L|]. exists row. split_and!; [apply L| |done].
    pose proof (sd_same _ _ _ _ L) as Hs. unfold run_shape in Hs. injection Hs as Hi _ Hd.
    unfold running_row, run_row. by rewrite Hd, Hi, Hst, String.eqb_refl, Z.eqb_refl.
  - apply Forall_forall. intros n Hn. pose proof Hn as [_ Hrun]%elem_of_run_nodes. unfold run_of in Hrun. go_bool. auto.
  - exists s'. split; [|done]. unfold ScheduleRootWakeups, requireRuntimeRunID, guardM. rewrite (proj2 (Z.ltb_lt _ _) Hpos). exact E.
Qed.
End start_twice.

(** ** What a retry may add *)

Definition root_key (runID : Z) (n : Node) : string := ManualDispatchIdempotencyKey (nd_DagKey n) (nd_NodeKey n) runID (TrimSpace (nd_AssignedTo n)).

(** A wakeup for a ready root of the run that had none under the key of its assignee. *)
Definition missing_root (dagKey : string) (runID : Z) (s : db) (w : Wakeup) : Prop :=
  exists n, n ∈ run_nodes dagKey runID s /\ nd_Status n = "ready" /\ store_decodeDependsOn (nd_DependsOn n) = Ok []
    /\ wk_IdempotencyKey w = root_key runID n /\ root_key runID n ∉ wakeup_keys s.

(** No node and no run is added; the [k] new wakeups are missing ones, one per key. *)
Record topped_up (dagKey : string) (runID : Z) (s s' : db) (k : Z) : Prop := {
  tu_nodes : db_nodes s' = db_nodes s;
  tu_dags : db_dags s' = db_dags s;
  tu_runs : logs dagKey runID (db_runs s) (db_runs s');
  tu_wakeups : exists added, db_wakeups s' = db_wakeups s ++ added /\ Z.of_nat (length added) = k
    /\ NoDup (wk_IdempotencyKey <$> added) /\ Forall (missing_root dagKey runID s) added;
}.

Lemma topped_up_quiet dagKey runID s s' : only_logs dagKey runID s s' -> topped_up dagKey runID s s' 0.
Proof. intros [[A B C D] E]. split; [done..|]. exists []. rewrite app_nil_r. by split_and!; [|done|constructor|]. Qed.

Lemma topped_up_trans dagKey runID a b c k k' : topped_up dagKey runID a b k -> topped_up dagKey runID b c k' -> topped_up dagKey runID a c (k + k').
Proof.
  intros [A B C (l & Hl & Hk & Hn & Hm)] [A' B' C' (l' & Hl' & Hk' & Hn' & Hm')]. split; [congruence..|by eapply logs_trans|].
  exists (l ++ l'). assert (forall w, w ∈ l' -> missing_root dagKey runID a w /\ wk_IdempotencyKey w ∉ wk_IdempotencyKey <$> l) as Hw.
  { rewrite Forall_forall in Hm'. intros w Hw. destruct (Hm' w Hw) as (n & Hr & Hs & Hd & Hkey & Hnot). unfold wakeup_keys in Hnot.
    rewrite Hl, fmap_app, not_elem_of_app in Hnot. destruct Hnot. unfold run_nodes in *. rewrite A in Hr. split; [by exists n|by rewrite Hkey]. }
  split_and!.
  - by rewrite Hl', Hl, app_assoc.
  - rewrite length_app. lia.
  - rewrite fmap_app. apply NoDup_app. split_and!; [done| |done]. intros x Hx (w & -> & Hin)%list_elem_of_fmap. by destruct (Hw w Hin).
  - apply Forall_app. split; [done|]. apply Forall_forall. intros w Hin. by apply Hw.
Qed.

Lemma EnqueueWakeup_adds byte_len now_ms input s z s' : EnqueueWakeup byte_len now_ms input s = Ok (z, s') ->
  (z = 0%Z /\ s' = s) \/ (z = 1%Z /\ en_IdempotencyKey input ∉ wakeup_keys s
    /\ exists w, s' = with_wakeups s (db_wakeups s ++ [w]) /\ wk_IdempotencyKey w = en_IdempotencyKey input).
Proof.
  unfold EnqueueWakeup, enqueueWakeupTx, wakeup_keys. intros H. tx_run. destruct (List.find _ _) as [w|] eqn:E; tx_run; [by left|right].
  split_and!; [done| |by eexists]. intros (w & Hk & Hw%list_elem_of_In)%list_elem_of_fmap. apply (find_none _ _ E) in Hw. by rewrite Hk, String.eqb_refl in Hw.
Qed.

Lemma scheduleRootWakeup_adds byte_len now_text now_ms dagKey runID n s z s' : n ∈ run_nodes dagKey runID s ->
  scheduleRootWakeup byte_len now_text now_ms n runID s = Ok (z, s') -> topped_up dagKey runID s s' z.
Proof.
  intros Hn H. pose proof Hn as [_ Hrun]%elem_of_run_nodes. unfold run_of in Hrun. destruct (nd_RunID n) as [z0|] eqn:Er; [|by rewrite andb_false_r in Hrun]. go_bool.
  unfold scheduleRootWakeup, appendDispatchBlockedEvent in H. tx_ok. destruct (String.eqb_spec (nd_Status n) "ready") as [Hr|]; cbn [negb] in H; tx_ok; [|by apply topped_up_quiet, only_logs_refl].
  match goal with Hd : map_err _ _ = Ok ?l |- _ => apply map_err_Ok in Hd; destruct l as [|d ds] end; cbn [length Nat.eqb negb] in H; tx_ok; [|by apply topped_up_quiet, only_logs_refl].
  assert (forall e k s'', appendTaskDagRunEvent (nd_DagKey n) runID (RawJSON e) s = Ok (k, s'') -> topped_up dagKey runID s s'' 0) as Hlog.
  { intros e k s'' He. apply topped_up_quiet. subst dagKey. by eapply appendTaskDagRunEvent_logs. }
  repeat (case_match; tx_ok); try (by eapply Hlog).
  apply EnqueueWakeup_adds in H as [[-> ->]|(-> & Hnot & w & -> & Hk)]; [apply topped_up_quiet, only_logs_refl|].
  split; [done..|by left|]. exists [w]. cbn in Hnot. split_and!; [done..|apply NoDup_singleton|]. constructor; [|constructor]. exists n. by split_and!.
Qed.

Lemma ScheduleRootWakeups_adds byte_len now_text now_ms dagKey runID s z s' :
  ScheduleRootWakeups byte_len now_text now_ms dagKey runID s = Ok (z, s') -> topped_up dagKey runID s s' z.
Proof.
  unfold ScheduleRootWakeups, ListRunNodes. intros H. tx_run. fold (run_nodes dagKey runID s) in H.
  assert (forall nodes acc a b, (forall n, n ∈ nodes -> n ∈ run_nodes dagKey runID a) -> root_loop byte_len now_text now_ms nodes runID acc a = Ok (z, b) ->
    topped_up dagKey runID a b (z - acc)) as Hloop; [|rewrite <- (Z.sub_0_r z); by eapply Hloop].
  clear H. induction nodes as [|n nodes IH]; intros acc a b Hin H; cbn [root_loop] in H; tx_ok.
  { rewrite Z.sub_diag. apply topped_up_quiet, only_logs_refl. }
  match goal with Hq : scheduleRootWakeup _ _ _ _ _ _ = Ok (?y, ?c) |- _ => apply (scheduleRootWakeup_adds _ _ _ dagKey) in Hq as Hone; [|by apply Hin; left]; rename y into k end.
  replace (z - acc)%Z with (k + (z - (acc + k)))%Z by lia. eapply topped_up_trans; [exact Hone|]. apply IH; [|done].
  intros x Hx. unfold run_nodes. rewrite (tu_nodes _ _ _ _ _ Hone). apply Hin. by right.
Qed.

(** ** Databases after the start *)

Section after.
Context (byte_len : RawMessage -> Z) (json_ok : RawMessage -> bool) (reencode : json -> json) (same_config : RawMessage -> RawMessage -> bool).
Context {schedule : Type} (cron_parse : string -> option schedule) (cron_next : schedule -> Z -> Z).
Context (map_keys : adjacency_map -> list string) (map_order : forall A, list (string * A) -> list (string * A)) (row_accepted : Node -> bool).

(** Any transaction of any process, deletions of other DAGs among them. *)
Inductive after_step (dagKey : string) : db -> db -> Prop :=
| as_tx s s' : db_step byte_len json_ok reencode same_config cron_parse cron_next map_keys map_order row_accepted (fun _ => True) (fun _ => True) s s' ->
    after_step dagKey s s'
| as_delete key r s s' : TrimSpace key <> dagKey -> store_DeleteDAG key s = Ok (r, s') -> after_step dagKey s s'.

(** The DAG and its runs stay, and no id and no key is given twice. *)
Record runs_kept (dagKey : string) (s s' : db) : Prop := {
  rk_rows : forall r, r ∈ db_runs s -> rn_DagKey r = dagKey -> exists r', r' ∈ db_runs s' /\ run_moves r r';
  rk_ids : NoDup (rn_ID <$> db_runs s) -> NoDup (rn_ID <$> db_runs s');
  rk_keys : NoDup (rn_RunKey <$> db_runs s) -> NoDup (rn_RunKey <$> db_runs s');
  rk_dag : is_Some (find_dag dagKey s) -> is_Some (find_dag dagKey s');
}.

#[local] Instance runs_kept_preorder dagKey : PreOrder (runs_kept dagKey).
Proof.
  split; [intros s; split; [|done..]; intros r Hr _; exists r; by split|]. intros s1 s2 s3 [A B C D] [A' B' C' D']. split; [|auto..].
  intros r Hr Hd. destruct (A r Hr Hd) as (r2 & Hr2 & Hm). destruct (A' r2 Hr2) as (r3 & Hr3 & Hm'); [destruct Hm as (_ & _ & E & _); congruence|].
  exists r3. split; [done|by etrans].
Qed.

Lemma same_runs_kept dagKey s s' : db_runs s' = db_runs s -> (is_Some (find_dag dagKey s) -> is_Some (find_dag dagKey s')) -> runs_kept dagKey s s'.
Proof. intros E H. split; [|by rewrite E|by rewrite E|exact H]. rewrite E. intros r Hr _. by exists r. Qed.

Lemma steps_runs_kept dagKey s s' : steps s s' -> runs_kept dagKey s s'.
Proof.
  intros Hs. split; [|by rewrite (st_ids _ _ Hs)|by rewrite (st_run_keys _ _ Hs)|unfold find_dag; by rewrite (st_dags _ _ Hs)].
  intros r Hr _. apply list_elem_of_lookup in Hr as [i Hi]. destruct (Forall2_lookup_l _ _ _ _ _ (st_rows _ _ Hs) Hi) as (r' & Hr' & Hm).
  exists r'. split; [by eapply list_elem_of_lookup_2|done].
Qed.

Lemma created_runs_kept dagKey s s1 : created s s1 \/ s1 = s -> runs_kept dagKey s s1.
Proof.
  intros [(input & run & s0 & u & d & H1 & H2)| ->]; [|done]. apply CloneNodesForRun_nodes in H2 as (Hr & Hd & _). transitivity s0; [|by apply same_runs_kept; [|unfold find_dag; rewrite Hd]]. clear Hr Hd.
  unfold CreateRun in H1. tx_ok. split; [| | |unfold find_dag; cbn; auto]; cbn; rewrite ?fmap_app.
  - intros r Hin _. exists r. split; [apply elem_of_app; by left|reflexivity].
  - intros Hnd. apply NoDup_app. split_and!; [done| |apply NoDup_singleton]. intros y Hy%next_id_fresh. cbn. rewrite list_elem_of_singleton. lia.
  - intros Hnd. apply NoDup_app. split_and!; [done| |apply NoDup_singleton]. intros y Hy ->%list_elem_of_singleton. cbn in Hy.
    match goal with Hf : negb (existsb _ _) = true |- _ => apply negb_true_iff, not_true_iff_false in Hf; apply Hf end.
    apply list_elem_of_fmap in Hy as (r & E & Hin). apply existsb_exists. exists r. split; [by apply list_elem_of_In|]. apply String.eqb_eq. by symmetry.
Qed.

Lemma edits_runs_kept dagKey s s' : edits s s' -> runs_kept dagKey s s'.
Proof. intros [A _ _ D]. by apply same_runs_kept, D. Qed.

Lemma NoDup_filter_key {A B} (f : A -> B) (p : A -> bool) l : NoDup (f <$> l) -> NoDup (f <$> List.filter p l).
Proof.
  induction l as [|x l IH]; [done|]. rewrite fmap_cons, NoDup_cons. intros [Hx Hl]. cbn. destruct (p x); [|by apply IH]. rewrite fmap_cons, NoDup_cons.
  split; [|by apply IH]. intros (y & E & [Hy _]%list_elem_of_In%filter_In)%list_elem_of_fmap. apply Hx. rewrite E. by apply list_elem_of_fmap_2, list_elem_of_In.
Qed.

Lemma delete_runs_kept dagKey key s r s' : TrimSpace key <> dagKey -> store_DeleteDAG key s = Ok (r, s') -> runs_kept dagKey s s'.
Proof.
  intros Hne H. unfold store_DeleteDAG, lockDAGForDelete, CountRunningRunsByDagKey, deleteDAGDependents, deleteDAGRow, sql_delete in H. tx_ok.
  match goal with Hg : GetDAG _ _ = Ok _ |- _ => apply GetDAG_Ok in Hg as [_ ->] end. cbn [fst] in *. split; cbn.
  - intros x Hx Hd. exists x. split; [|reflexivity]. apply list_elem_of_In, filter_In. split; [by apply list_elem_of_In|]. apply negb_true_iff, String.eqb_neq. congruence.
  - apply NoDup_filter_key.
  - apply NoDup_filter_key.
  - unfold find_dag. cbn. by rewrite find_other.
Qed.

Lemma after_runs_kept dagKey s s' : after_step dagKey s s' -> runs_kept dagKey s s'.
Proof.
  intros [s0 s0' [A m r a b Hq H|input r a b _ H|now f input r a b _ H|? ? ? ? ? ? ? H|? ? ? ? ? ? H|? ? ? ? ? ? ? H|? ? ? ? H]|key r a b Hne H].
  - eapply steps_runs_kept, quiet_steps; [exact Hq|exact H].
  - unfold store_UpdateNodeStatus in H. tx_run. apply GetRunNode_Ok in H as (-> & _ & _). by apply same_runs_kept.
  - unfold RecordNodeSpawn, recordNodeSpawnTx in H. tx_run.
    repeat match goal with Hg : GetTaskDagRunNodeForUpdate _ _ _ _ = Ok _ |- _ => apply GetRunNode_Ok in Hg as [-> _] end.
    match goal with Hv : match ?f with Some _ => _ | None => _ end _ = Ok _ |- _ => destruct f; [apply validateWakeupFenceTx_Ok in Hv as ->|tx_ok] end; by apply same_runs_kept.
  - apply StartDAG_cases in H as (? & Hc & Hs). etrans; [by apply created_runs_kept|by apply steps_runs_kept].
  - apply Start_cases in H as (? & ? & Hc & Hs & He). etrans; [by apply created_runs_kept|]. etrans; [by apply steps_runs_kept|by apply edits_runs_kept].
  - by eapply edits_runs_kept, ApplyOps_edits.
  - by eapply edits_runs_kept, CreateDAG_edits.
  - by eapply delete_runs_kept.
Qed.

Lemma history_runs_kept dagKey s s' : rtc (after_step dagKey) s s' -> runs_kept dagKey s s'.
Proof. induction 1 as [|? ? ? Hs _ IH]; [done|]. etrans; [by apply after_runs_kept|exact IH]. Qed.

Lemma after_started dagKey resp s s' row : rtc (after_step dagKey) s s' -> started dagKey resp s row ->
  exists row', started dagKey resp s' row' /\ (rn_Status row' = rn_Status row \/ rn_Status row' ∈ ended_statuses).
Proof.
  intros [G H I J]%history_runs_kept [A B C D E F]. injection E as E1 E2 E3.
  destruct (G row D E3) as (row' & Hin & H1 & H2 & H3 & H4 & H5). exists row'. split; [|done]. split; auto; [|congruence]. unfold run_shape. congruence.
Qed.

(** C11: starting under an idempotency key is idempotent.  When the first StartDAG with the
    key succeeds, a retry right after it answers the same run, adds no wakeup and changes
    nothing but events of the run.  After any transactions of any processes that do not
    delete the DAG, the row of that run is still there and a retry with the key creates no
    run and no node.  While the run is running the retry answers it and adds wakeups only for
    ready roots that have none under the key of their assignee (or fails with the error of
    scheduling a root); when the run has succeeded it answers it and changes nothing; when it
    failed or was cancelled the key is exhausted.  There is no other status. *)
Theorem StartDAG_idempotent now_text now_ms unix_nano now_text' now_ms' unix_nano' req s resp s1 :
  let dagKey := TrimSpace (sq_DagKey req) in
  let again := StartDAG byte_len now_text' now_ms' unix_nano' req in
  let answer n state := mkStartResponse (sr_RunID resp) (sr_RunKey resp) (sr_Version resp) 0 n state in
  TrimSpace (sq_IdempotencyKey req) <> EmptyString ->
  NoDup (rn_ID <$> db_runs s) -> NoDup (rn_RunKey <$> db_runs s) ->
  generateRunKey unix_nano dagKey (sq_IdempotencyKey req) ∉ rn_RunKey <$> db_runs s ->
  StartDAG byte_len now_text now_ms unix_nano req s = Ok (resp, s1) ->
  (exists s3, again s1 = Ok (answer 0%Z "running", s3) /\ only_logs dagKey (sr_RunID resp) s1 s3)
  /\ forall s2, rtc (after_step dagKey) s1 s2 -> exists row, started dagKey resp s2 row /\ rn_Status row ∈ "running" :: ended_statuses
     /\ (rn_Status row = "running" ->
           (exists n s3, again s2 = Ok (answer n (if (0 <? n)%Z then "queued" else "running"), s3) /\ topped_up dagKey (sr_RunID resp) s2 s3 n)
           \/ exists e, again s2 = Err e /\ ScheduleRootWakeups byte_len now_text' now_ms' dagKey (sr_RunID resp) s2 = Err e)
     /\ (rn_Status row = "succeeded" -> again s2 = Ok (answer 0%Z "succeeded", s2))
     /\ (rn_Status row ∈ ["failed"; "cancelled"] -> exists e, again s2 = Err e /\ errors_Is e IdempotencyKeyExhausted = true).
Proof.
  intros dagKey again answer Hkey Hids Hkeys Hfresh H.
  assert (dagKey <> EmptyString) as Hne.
  { intros E. unfold StartDAG, validateStartDAGPrereq in H. fold dagKey in H. by rewrite E in H. }
  apply StartDAG_fresh in H as Htx; [|done]. fold dagKey in Htx.
  apply startRunTx_started in Htx as ((row1 & L1 & Hrun & Harr) & Hpos & Hrk & Hbefore); [|done..]. cbn [cu_RunKey] in Hrk.
  assert (forall s2 row, started dagKey resp s2 row -> exists e, again s2 = resolveStartDAGUniqueViolation byte_len now_text' now_ms' dagKey (sr_RunKey resp) e s2
    /\ GetRun (sr_RunKey resp) s2 = Ok (Some row, s2) /\ rn_ID row = sr_RunID resp /\ rn_RunKey row = sr_RunKey resp) as Hagain.
  { intros s2 row L. pose proof (sd_same _ _ _ _ L) as Hsame. unfold run_shape in Hsame. injection Hsame as Hi Hk Hd.
    assert (generateRunKey unix_nano' dagKey (sq_IdempotencyKey req) = sr_RunKey resp) as Hk2.
    { rewrite Hrk. unfold generateRunKey. by rewrite (proj2 (String.eqb_neq _ _) Hkey). }
    destruct (StartDAG_resolve byte_len now_text' now_ms' unix_nano' req s2 row) as (e & He & Hget); [done|apply L|apply L|apply L|by rewrite Hk; symmetry; exact Hk2|].
    fold dagKey in He, Hget. rewrite Hk2 in He, Hget. exists e. split_and!; done. }
  split.
  - destruct (Hagain s1 row1 L1) as (e & -> & Hget & Hi & Hk). destruct (ScheduleRootWakeups_again byte_len now_text' now_ms' dagKey resp s1 row1 Hpos L1 Hrun Harr Hbefore) as (s3 & E & Hl).
    exists s3. split; [|done]. unfold resolveStartDAGUniqueViolation, mbind, M_bind. rewrite Hget, Hi, Hk, Hrun, (sd_version _ _ _ _ L1). cbn. by rewrite E.
  - intros s2 Hafter. destruct (after_started _ _ _ _ _ Hafter L1) as (row & L & Hst). rewrite Hrun in Hst. exists row.
    destruct (Hagain s2 row L) as (e & -> & Hget & Hi & Hk). unfold resolveStartDAGUniqueViolation, mbind, M_bind. rewrite Hget, Hi, Hk, (sd_version _ _ _ _ L).
    split_and!; [done|destruct Hst as [->|]; [by left|by right]|..]; intros Hs.
    + rewrite Hs, String.eqb_refl. destruct (ScheduleRootWakeups byte_len now_text' now_ms' dagKey (sr_RunID resp) s2) as [[n s3]|e3] eqn:E; [left|right; by exists e3].
      exists n, s3. split; [|by eapply ScheduleRootWakeups_adds]. done.
    + by rewrite Hs.
    + apply elem_of_cons in Hs as [Hs|Hs%list_elem_of_singleton]; rewrite Hs; eexists; split; reflexivity.
Qed.
End after.

Local Abbreviation zero_len := (fun _ : RawMessage => 0%Z).

(** The run of [assigned_db] started twice: the second call, a minute later, answers the
    run and enqueues nothing. *)
Definition sample_start : StartDAGRequest := mkStartRequest "d" "manual" " k ".

Definition start_once : result error (StartDAGResponse * db) := StartDAG zero_len "t0" 0 7 sample_start assigned_db.

Local Abbreviation keep_json := (fun j : json => j).

(** The sample after the start: another key starts another run. *)
Definition start_other (s : db) : result error (StartDAGResponse * db) := StartDAG zero_len "t1" 0 8 (mkStartRequest "d" "manual" "other") s.

Lemma StartDAG_idempotent_witness :
  exists resp s1 s2 s3 row, start_once = Ok (resp, s1) /\ sr_ScheduledWakeups resp = 1%Z
    /\ StartDAG zero_len "t2" 60000 9 sample_start s1 = Ok (mkStartResponse 1 "d#run-k" 3 0 0 "running", s3) /\ only_logs "d" 1 s1 s3
    /\ started "d" resp s2 row /\ length (db_runs s2) = 2.
Proof.
  destruct start_once as [[resp s1]|e] eqn:E; [|vm_compute in E; discriminate E].
  assert (sr_RunID resp = 1%Z /\ sr_RunKey resp = "d#run-k" /\ sr_Version resp = 3%Z /\ sr_ScheduledWakeups resp = 1%Z)
    as (H1 & H2 & H3 & H4) by (vm_compute in E; injection E as <- <-; repeat split).
  destruct (start_other s1) as [[resp2 s2]|e] eqn:E2; [|vm_compute in E; injection E as <- <-; vm_compute in E2; discriminate E2].
  assert (length (db_runs s2) = 2) as Hlen by (vm_compute in E; injection E as <- <-; vm_compute in E2; injection E2 as <- <-; reflexivity).
  destruct (StartDAG_idempotent zero_len (fun _ => true) keep_json (fun _ _ => true) (fun _ => None) (fun (_ : unit) _ => 0%Z) keys (fun _ l => l) (fun _ => true)
    "t0" 0 7 "t2" 60000 9 sample_start assigned_db resp s1) as [(s3 & Hs & Hl) H].
  - vm_compute. discriminate.
  - constructor.
  - constructor.
  - intros Hin. inversion Hin.
  - exact E.
  - destruct (H s2) as (row & L & _).
    + eapply rtc_l; [|apply rtc_refl]. apply as_tx. eapply ds_start. exact E2.
    + rewrite H1, H2, H3 in Hs. rewrite H1 in Hl. exists resp, s1, s2, s3, row. split_and!; [reflexivity|exact H4|exact Hs|exact Hl|exact L|exact Hlen].
Defined.

(** A run key does not say which template it belongs to: under [a] with the key [b#run-c]
    and under [a#run-b] with the key [c] it is the same, and the second start answers the
    run of the other template. *)
Example run_keys_collide :
  generateRunKey 0 "a" "b#run-c" = generateRunKey 0 "a#run-b" "c"
  /\ let dag key := mkDAG key 1 "t" EmptyString "active" EmptyString (RawJSON (JObj [])) "manual" EmptyString EmptyString None in
     match StartDAG zero_len "t0" 0 7 (mkStartRequest "a" "manual" "b#run-c") (mkDB [dag "a"; dag "a#run-b"] [] [] []) with
     | Ok (_, s1) =>
         match StartDAG zero_len "t1" 0 8 (mkStartRequest "a#run-b" "manual" "c") s1 with
         | Ok (resp, s2) => sr_RunID resp = 1%Z /\ rn_DagKey <$> db_runs s2 = ["a"]
         | Err _ => False
         end
     | Err _ => False
     end.
Proof. vm_compute. repeat split. Qed.
