(* ===== verification/ScheduledOnce.v ===== *)
(** * Every due time is started once

    A start succeeds only on a row that is still scheduled for its due time, and moves
    the row on in the same transaction.  Over any interleaving of ticks by any number of
    instances, with or without the lock, the due times of a DAG that start a run are
    therefore increasing, and each has exactly one run. *)

From S2P Require Import Prelude GoStrings GoTime Json NodeConfig DagStore ApplyOps TemplateInvariant WakeupPayload RunStore RunEffects RunService RunLive RunStart ScheduledStart.

Definition run_keys (s : db) : list string := rn_RunKey <$> db_runs s.

(** ** The effect of a start *)

Lemma lockScheduledDAG_Ok dagKey dueAt s d s' :
  lockScheduledDAG dagKey dueAt s = Ok (d, s') -> s' = s /\ find_dag dagKey s = Some d /\ dg_NextRunAt d = Some dueAt.
Proof.
  unfold lockScheduledDAG. intros H. apply M_bind_Ok in H as (d0 & s0 & Hc & H). tx_ok.
  unfold catch in Hc. destruct (GetDAG dagKey s) as [[d1 s1]|e] eqn:E; [|by destruct (errors_Is e ErrNotFound)].
  apply GetDAG_Ok in E as [Hf ->]. injection Hc as -> ->. split_and!; [done|done|].
  match goal with Hb : bool_decide _ = true |- _ => apply bool_decide_eq_true in Hb as Ht end.
  unfold TimePtr in Ht. destruct (dg_NextRunAt d) as [t|]; [|done]. by destruct (t =? 0)%Z.
Qed.

(** The rows after the schedule moved on. *)
Definition advanced (dagKey : string) (dueAt nextRunAt : Z) (s s' : db) : Prop :=
  db_dags s' = (fun d => if due_row dagKey (TimeValuePtr dueAt) d then set_next_run (TimeValuePtr nextRunAt) d else d) <$> db_dags s.

Lemma advanceNextRunTx_Ok dagKey dueAt nextRunAt s u s' :
  advanceNextRunTx dagKey dueAt nextRunAt s = Ok (u, s') ->
  advanced dagKey dueAt nextRunAt s s' /\ db_runs s' = db_runs s /\ db_nodes s' = db_nodes s /\ db_wakeups s' = db_wakeups s
  /\ exists d, d ∈ db_dags s /\ due_row dagKey (TimeValuePtr dueAt) d = true.
Proof.
  unfold advanceNextRunTx, UpdateScheduledDAGNextRun, update_dags, sql_update, advanced. intros H. tx_ok.
  split_and!; [done..|]. match goal with Hn : (length ?l =? 1)%nat = true |- _ => apply Nat.eqb_eq in Hn; destruct l as [|d l0] eqn:E; [done|] end.
  exists d. assert (In d (List.filter (due_row dagKey (TimeValuePtr dueAt)) (db_dags s))) as Hd by (rewrite E; by left).
  apply filter_In in Hd as [Hd ?]. split; [by apply list_elem_of_In|done].
Qed.

Lemma PromoteAndSchedule_frame byte_len now_text now_ms dagKey runID s r s' :
  PromoteAndScheduleRunRoots byte_len now_text now_ms dagKey runID s = Ok (r, s') ->
  db_dags s' = db_dags s /\ run_keys s' = run_keys s.
Proof.
  unfold PromoteAndScheduleRunRoots, PromoteRootNodesToReady, ScheduleRootWakeups. intros H. tx_run.
  match goal with Hq : root_loop _ _ _ _ _ _ _ = Ok _ |- _ => apply root_loop_quiet in Hq as (_ & -> & Hs) end.
  split; [done|]. apply (shape_keys _ _ Hs).
Qed.

Lemma ScheduleRootWakeups_frame byte_len now_text now_ms dagKey runID s r s' :
  ScheduleRootWakeups byte_len now_text now_ms dagKey runID s = Ok (r, s') ->
  db_dags s' = db_dags s /\ run_keys s' = run_keys s /\ db_nodes s' = db_nodes s.
Proof.
  unfold ScheduleRootWakeups. intros H. tx_run.
  match goal with Hq : root_loop _ _ _ _ _ _ _ = Ok _ |- _ => apply root_loop_quiet in Hq as (-> & -> & Hs) end.
  split_and!; [done|apply (shape_keys _ _ Hs)|done].
Qed.

Section start.
Context (byte_len : RawMessage -> Z) (now_text : string) (now_ms : Z).

(** What a committed start did. *)
Record started_due (dagKey runKey : string) (dueAt nextRunAt : Z) (s s' : db) : Prop := {
  sd_found : exists d, find_dag dagKey s = Some d /\ dg_NextRunAt d = Some dueAt;
  sd_due : exists d, d ∈ db_dags s /\ due_row dagKey (TimeValuePtr dueAt) d = true;
  sd_dags : advanced dagKey dueAt nextRunAt s s';
  sd_run : run_keys s' = run_keys s /\ runKey ∈ run_keys s \/ run_keys s' = run_keys s ++ [runKey] /\ runKey ∉ run_keys s;
}.

Lemma scheduledStartTx_Ok dagKey runKey dueAt nextRunAt s u s' :
  scheduledStartTx byte_len now_text now_ms dagKey runKey dueAt nextRunAt s = Ok (u, s') ->
  started_due dagKey runKey dueAt nextRunAt s s' /\ runKey ∉ run_keys s.
Proof.
  unfold scheduledStartTx. intros H. tx_ok.
  match goal with Hl : lockScheduledDAG _ _ _ = Ok _ |- _ => apply lockScheduledDAG_Ok in Hl as (-> & Hf & Hn) end.
  match goal with Hc : CreateRun _ _ = Ok (?r, _) |- _ => unfold CreateRun in Hc; tx_ok end.
  match goal with p : nat * Z |- _ => destruct p as [ready sched] end. tx_ok.
  match goal with Hc : CloneNodesForRun _ _ _ = Ok _ |- _ => apply CloneNodesForRun_nodes in Hc as (Hr1 & Hd1 & _) end.
  match goal with Hp : PromoteAndScheduleRunRoots _ _ _ _ _ _ = Ok _ |- _ => apply PromoteAndSchedule_frame in Hp as [Hd2 Hk2] end.
  apply advanceNextRunTx_Ok in H as (Ha & Hr & _ & _ & Hdue). cbn [db_dags with_runs] in *.
  match goal with Hg : negb _ = true |- _ => apply negb_true_iff, existsb_false_iff in Hg as Hfresh end. cbn [cu_RunKey] in Hfresh.
  assert (runKey ∉ run_keys s) as Hnew.
  { unfold run_keys. intros (r & -> & Hr0)%list_elem_of_fmap. rewrite Forall_forall in Hfresh. specialize (Hfresh r Hr0). by rewrite String.eqb_refl in Hfresh. }
  split; [|done]. split; [eauto|by rewrite <- Hd1, <- Hd2| |].
  - unfold advanced in *. by rewrite Ha, Hd2, Hd1.
  - right. split; [|done]. unfold run_keys in *. rewrite Hr, Hk2, Hr1. cbn [db_runs with_runs]. by rewrite fmap_app.
Qed.

Lemma advanceConsumedRun_Ok dagKey runKey dueAt nextRunAt e s u s' :
  advanceConsumedRun byte_len now_text now_ms dagKey runKey dueAt nextRunAt e s = Ok (u, s') ->
  started_due dagKey runKey dueAt nextRunAt s s'.
Proof.
  unfold advanceConsumedRun, GetRun. intros H. tx_ok.
  destruct (List.find _ _) as [run|] eqn:E; [|done]. apply find_some in E as [Hin%list_elem_of_In Hk%String.eqb_eq].
  tx_ok. unfold catch in H. match type of H with match ?m with _ => _ end = _ => destruct m as [[u0 s0]|e0] eqn:Hb end; [|done]. injection H as -> ->. tx_ok.
  match goal with Hl : lockScheduledDAG _ _ _ = Ok _ |- _ => apply lockScheduledDAG_Ok in Hl as (-> & Hf & Hn) end.
  apply advanceNextRunTx_Ok in Hb as (Ha & Hr & _ & _ & Hdue).
  match goal with Hs : (if _ then _ else _) ?a = Ok (tt, ?b) |- _ => assert (db_dags b = db_dags a /\ run_keys b = run_keys a) as [Hd Hks] end.
  { destruct (String.eqb _ _); tx_ok; [|done].
    match goal with Hs : ScheduleRootWakeups _ _ _ _ _ _ = Ok _ |- _ => by apply ScheduleRootWakeups_frame in Hs as (? & ? & _) end. }
  split; [eauto|by rewrite <- Hd| |].
  - unfold advanced in *. by rewrite Ha, Hd.
  - left. unfold run_keys in *. rewrite Hr, Hks. split; [done|]. rewrite <- Hk. by apply list_elem_of_fmap_2.
Qed.

Lemma Start_Ok req s u s' :
  Start byte_len now_text now_ms req s = Ok (u, s') ->
  let dagKey := TrimSpace (ss_DagKey req) in
  started_due dagKey (scheduledRunKey dagKey (TrimSpace (ss_IdempotencyKey req))) (ss_DueAt req) (ss_NextRunAt req) s s'
  /\ IsZero (ss_DueAt req) = false /\ IsZero (ss_NextRunAt req) = false.
Proof.
  unfold Start. intros H. tx_ok. match goal with Hn : normalizeRequest _ = Ok _ |- _ => unfold normalizeRequest in Hn; repeat case_match; try discriminate Hn; injection Hn as <-; subst end.
  split; [|done]. unfold catch in H. destruct (scheduledStartTx _ _ _ _ _ _ _ _) as [[u1 s1]|e] eqn:E.
  - injection H as _ <-. by apply scheduledStartTx_Ok in E as [? _].
  - destruct (errors_Is e ErrUnique); [|done]. by apply advanceConsumedRun_Ok in H.
Qed.
End start.

(** ** The key of a due time *)

Definition due_run_key (dagKey : string) (dueAt : Z) : string :=
  scheduledRunKey dagKey ("scheduled:" +:+ dagKey +:+ ":" +:+ RFC3339Nano dueAt).

Lemma TrimSpace_bounded a m b :
  is_ascii_byte a = true -> is_ascii_byte b = true -> is_space (N_of_ascii a) = false -> is_space (N_of_ascii b) = false ->
  TrimSpace (String a (m +:+ String b EmptyString)) = String a (m +:+ String b EmptyString).
Proof.
  intros Ha Hb Hsa Hsb. unfold TrimSpace. rewrite (chunks_cons_ascii a) by done. rewrite chunks_app_ascii by done.
  rewrite (chunks_cons_ascii b EmptyString) by done. rewrite (trim_chunks_id (_, _) _ (_, _)) by done.
  cbn [chunk_bytes]. by rewrite chunk_bytes_app, chunk_bytes_chunks.
Qed.

Lemma RFC3339Nano_ends t : exists m, RFC3339Nano t = m +:+ "Z".
Proof.
  unfold RFC3339Nano. destruct (civil_of_days _) as [[y m] d]. eexists.
  rewrite !(str_app_assoc _ _ "Z"). reflexivity.
Qed.

Lemma scheduled_key_trimmed dagKey dueAt :
  TrimSpace ("scheduled:" +:+ dagKey +:+ ":" +:+ RFC3339Nano dueAt) = "scheduled:" +:+ dagKey +:+ ":" +:+ RFC3339Nano dueAt.
Proof.
  destruct (RFC3339Nano_ends dueAt) as [m ->].
  replace ("scheduled:" +:+ dagKey +:+ ":" +:+ m +:+ "Z") with (String "s" (("cheduled:" +:+ dagKey +:+ ":" +:+ m) +:+ "Z"))
    by (by rewrite <- !str_app_assoc).
  by apply TrimSpace_bounded.
Qed.

(** Two due times of a DAG have two run keys. *)
Lemma due_run_key_inj dagKey t u :
  (0 <= t < year_10000)%Z -> (0 <= u < year_10000)%Z -> due_run_key dagKey t = due_run_key dagKey u -> t = u.
Proof.
  intros Ht Hu H. unfold due_run_key, scheduledRunKey in H. rewrite !scheduled_key_trimmed in H.
  do 3 (apply str_app_inj in H as [_ H]; [|done]). apply str_app_inj in H as [_ H]; [|done]. apply str_app_inj in H as [_ H]; [|done].
  by apply RFC3339Nano_inj in H.
Qed.

(** ** Interleavings of ticks *)

Section once.
Context {schedule : Type} (cron_parse : string -> option schedule) (cron_next : schedule -> Z -> Z).
Context (byte_len : RawMessage -> Z).
(** [Schedule.Next]: the next time is later than the given one, or the zero time when
    there is none. *)
Context (cron_later : forall sc t, cron_next sc t = zero_time \/ (t < cron_next sc t)%Z).

Lemma triggerDueDAG_Ok now_text now_ms dag now s u s' :
  triggerDueDAG cron_parse cron_next byte_len now_text now_ms dag now s = Ok (u, s') ->
  let dagKey := TrimSpace (du_DagKey dag) in
  exists next, (now < next)%Z /\ NextDAGRunAt cron_parse cron_next (du_CronExpr dag) now = Ok next /\ IsZero next = false
    /\ IsZero (du_DueAt dag) = false
    /\ started_due dagKey (due_run_key dagKey (du_DueAt dag)) (du_DueAt dag) next s s'.
Proof.
  unfold triggerDueDAG, nextRunAt. intros H. tx_ok. rename x into next.
  match goal with Hn : map_err _ _ = Ok _ |- _ => apply map_err_Ok in Hn end.
  unfold catch in H. destruct (Start _ _ _ _ _) as [[u1 s1]|] eqn:E; [|done]. injection H as _ <-.
  apply Start_Ok in E as (E & Hz1 & Hz2). unfold due_request in *. cbn [ss_DagKey ss_IdempotencyKey ss_DueAt ss_NextRunAt] in *.
  rewrite TrimSpace_idem in E. unfold scheduledIdempotencyKey in E. rewrite scheduled_key_trimmed in E.
  exists next. split_and!; [|done..].
  match goal with Hn : NextDAGRunAt _ _ _ _ = Ok next |- _ => unfold NextDAGRunAt in Hn; apply bind_Ok in Hn as (sc & _ & [= <-]) end.
  destruct (cron_later sc now) as [Hz|]; [|done]. unfold IsZero in Hz2. by rewrite Hz, Z.eqb_refl in Hz2.
Qed.

(** Any number of instances trigger due DAGs from scans that may be stale; between them
    other transactions move runs along without touching schedules.  A trigger that fails
    changes nothing.  The trace lists the DAG and due time of each start. *)
Inductive ticks : db -> list (string * Z) -> db -> Prop :=
| tk_nil s : ticks s [] s
| tk_trigger now_text now_ms dag now s u s1 l s' :
    (du_DueAt dag <= now)%Z -> triggerDueDAG cron_parse cron_next byte_len now_text now_ms dag now s = Ok (u, s1) ->
    ticks s1 l s' -> ticks s ((TrimSpace (du_DagKey dag), du_DueAt dag) :: l) s'
| tk_other s s1 l s' :
    db_dags s1 = db_dags s -> run_keys s ⊆ run_keys s1 -> NoDup (run_keys s1) -> ticks s1 l s' -> ticks s l s'.

Definition dues (dagKey : string) (l : list (string * Z)) : list Z :=
  snd <$> List.filter (fun e => String.eqb e.1 dagKey) l.

Lemma ticks_keys s l s' : ticks s l s' -> run_keys s ⊆ run_keys s'.
Proof.
  induction 1 as [|? ? ? ? s u s1 l s' _ H _ IH|s s1 l s' _ Hk _ _ IH]; [done| |set_solver].
  apply triggerDueDAG_Ok in H as (next & _ & _ & _ & _ & [_ _ _ Hr]). destruct Hr as [[Hr _]|[Hr _]]; rewrite Hr in IH; set_solver.
Qed.

Lemma started_nodup k rk due next s s' : started_due k rk due next s s' -> NoDup (run_keys s) -> NoDup (run_keys s').
Proof.
  intros [_ _ _ [[-> _]|[-> Hn]]] Hnd; [done|]. apply NoDup_app. split_and!; [done| |apply NoDup_singleton].
  intros x Hx ->%list_elem_of_singleton. done.
Qed.

Lemma started_key k rk due next s s' : started_due k rk due next s s' -> rk ∈ run_keys s'.
Proof. intros [_ _ _ [[-> ?]|[-> _]]]; [done|set_solver]. Qed.

Lemma set_next_run_key next d : dg_DagKey (set_next_run next d) = dg_DagKey d.
Proof. done. Qed.

Lemma advanced_keys k due next s s' : advanced k due next s s' -> dg_DagKey <$> db_dags s' = dg_DagKey <$> db_dags s.
Proof. intros ->. rewrite <- list_fmap_compose. apply list_fmap_ext. intros i d _. unfold compose. by case_match. Qed.

(** The time a DAG is scheduled for. *)
Definition scheduled_for (k : string) (s : db) : option Z := d ← find_dag k s; dg_NextRunAt d.

Lemma find_dag_fmap k (f : DAG -> DAG) s s' :
  (forall d, dg_DagKey (f d) = dg_DagKey d) -> db_dags s' = f <$> db_dags s -> find_dag k s' = f <$> find_dag k s.
Proof.
  intros Hf E. unfold find_dag. rewrite E. clear E. induction (db_dags s) as [|d l IH]; [done|]. rewrite fmap_cons. cbn [List.find].
  rewrite Hf. by destruct (String.eqb _ _).
Qed.

Lemma started_schedule k rk due next s s' :
  NoDup (dg_DagKey <$> db_dags s) -> IsZero due = false -> IsZero next = false -> started_due k rk due next s s' ->
  scheduled_for k s = Some due /\ scheduled_for k s' = Some next
  /\ forall k', k' <> k -> scheduled_for k' s' = scheduled_for k' s.
Proof.
  intros Hnd Hz1 Hz2 [(d & Hf & Hn) (d' & Hd' & Hr) Ha _].
  assert (d' = d) as ->.
  { unfold find_dag in Hf. apply find_some in Hf as [Hd%list_elem_of_In Hk%String.eqb_eq].
    eapply (same_key dg_DagKey); [exact Hnd|done|done|]. unfold due_row in Hr. go_bool. congruence. }
  assert (forall x, find_dag x s' = (fun d => if due_row k (TimeValuePtr due) d then set_next_run (TimeValuePtr next) d else d) <$> find_dag x s) as Hs'.
  { intros x. apply (find_dag_fmap x _ s s'); [|exact Ha]. intros y. by case_match. }
  unfold scheduled_for. rewrite !Hs', Hf. cbn. rewrite Hr. split_and!; [done|cbn; unfold TimeValuePtr; by rewrite Hz2|].
  intros k' Hne. rewrite Hs'. destruct (find_dag k' s) as [x|] eqn:Ex; [|done]. cbn.
  unfold find_dag in Ex. apply find_some in Ex as [_ Hkx%String.eqb_eq].
  unfold due_row. rewrite Hkx. by rewrite (proj2 (String.eqb_neq _ _) Hne).
Qed.

Lemma ticks_order s l s' : ticks s l s' -> NoDup (dg_DagKey <$> db_dags s) -> forall k,
  StronglySorted Z.lt (dues k l) /\ (forall due, due ∈ dues k l -> exists t, scheduled_for k s = Some t /\ (t <= due)%Z).
Proof.
  induction 1 as [s|nt nm dag now s u s1 l s' Hdue H _ IH|s s1 l s' Hd _ _ _ IH]; intros Hnd k.
  - split; [constructor|]. intros due Hin. by apply elem_of_nil in Hin.
  - apply triggerDueDAG_Ok in H as (next & Hlt & _ & Hz1 & Hz2 & Hst).
    destruct (IH ltac:(by rewrite (advanced_keys _ _ _ _ _ (sd_dags _ _ _ _ _ _ Hst))) k) as [IH1 IH2].
    destruct (started_schedule _ _ _ _ _ _ Hnd Hz2 Hz1 Hst) as (E1 & E2 & E3). unfold dues. cbn [List.filter fst].
    destruct (String.eqb_spec (TrimSpace (du_DagKey dag)) k) as [<-|Hne].
    + rewrite fmap_cons. fold (dues (TrimSpace (du_DagKey dag)) l). cbn [snd]. rewrite E2 in IH2.
      assert (forall x, x ∈ dues (TrimSpace (du_DagKey dag)) l -> (du_DueAt dag < x)%Z) as Hlater.
      { intros x (t & [= <-] & Hx)%IH2. lia. }
      split; [constructor; [done|by apply Forall_forall]|]. intros x [->|Hx]%elem_of_cons; [eauto with lia|].
      exists (du_DueAt dag). split; [done|]. specialize (Hlater x Hx). lia.
    + fold (dues k l). split; [done|]. by rewrite E3 in IH2.
  - destruct (IH ltac:(by rewrite Hd) k) as [IH1 IH2]. split; [done|]. unfold scheduled_for, find_dag in *. by rewrite Hd in IH2.
Qed.

Lemma ticks_runs s l s' : ticks s l s' -> NoDup (run_keys s) ->
  NoDup (run_keys s') /\ forall k due, (k, due) ∈ l -> due_run_key k due ∈ run_keys s'.
Proof.
  induction 1 as [s|nt nm dag now s u s1 l s' Hdue H Ht IH|s s1 l s' Hd Hk Hn _ IH]; intros Hnd.
  - split; [done|]. intros k due Hin. by apply elem_of_nil in Hin.
  - apply triggerDueDAG_Ok in H as (next & _ & _ & _ & _ & Hst). destruct IH as [IH1 IH2]; [by eapply started_nodup|].
    split; [done|]. intros k due [[= -> ->]|Hin]%elem_of_cons; [|by apply IH2].
    apply (ticks_keys _ _ _ Ht). by eapply started_key.
  - by apply IH.
Qed.

(** C12: Scheduled starts happen once.  However the ticks of any number of instances, with
    scans that may be stale, interleave with each other and with transactions that leave
    schedules alone: the due times at which a DAG is started are increasing, so that none
    is started twice; each has exactly one run under its key; and two due times up to the
    year 9999 have two runs. *)
Theorem scheduled_starts_once s l s' :
  NoDup (dg_DagKey <$> db_dags s) -> NoDup (run_keys s) -> ticks s l s' ->
  forall k, StronglySorted Z.lt (dues k l)
    /\ (forall due, due ∈ dues k l -> length (List.filter (fun r => String.eqb (rn_RunKey r) (due_run_key k due)) (db_runs s')) = 1)
    /\ (Forall (fun due => 0 <= due < year_10000)%Z (dues k l) -> NoDup (due_run_key k <$> dues k l)).
Proof.
  intros Hd Hr Ht k. destruct (ticks_order _ _ _ Ht Hd k) as [Ho _]. destruct (ticks_runs _ _ _ Ht Hr) as [Hnd Hruns].
  split_and!; [done| |].
  - intros due (e & -> & He)%list_elem_of_fmap. apply list_elem_of_In, filter_In in He as [He%list_elem_of_In <-%String.eqb_eq].
    destruct e as [k due]. pose proof (Hruns k due He) as (r & Hk & Hin)%list_elem_of_fmap. cbn [fst snd].
    apply (filter_single _ _ r); [by eapply NoDup_fmap_1|done|by rewrite Hk, String.eqb_refl|].
    intros y Hy Hy'%String.eqb_eq. eapply (same_key rn_RunKey); [exact Hnd|done|done|congruence].
  - induction Ho as [|due rest Ho IH Hlt]; intros Hrange; [constructor|]. apply Forall_cons in Hrange as [H1 H2]. rewrite fmap_cons.
    apply NoDup_cons. split; [|by apply IH]. intros (x & E & Hx)%list_elem_of_fmap.
    rewrite Forall_forall in Hlt, H2. apply due_run_key_inj in E; [|done|by apply H2]. specialize (Hlt x Hx). lia.
Qed.
End once.

(** ** One tick *)

Section tick.
Context {schedule : Type} (cron_parse : string -> option schedule) (cron_next : schedule -> Z -> Z).
Context (byte_len : RawMessage -> Z) (now_text : string) (now_ms : Z).
Context (cron_later : forall sc t, cron_next sc t = zero_time \/ (t < cron_next sc t)%Z).










Section loop.
Context (now : Z) (s : db) (Hnd : NoDup (dg_DagKey <$> db_dags s)).


End loop.





End tick.

(** ** An hourly DAG *)

Local Abbreviation zero_len := (fun _ : RawMessage => 0%Z).

Definition hourly (spec : string) : option unit := if String.eqb spec "CRON_TZ=UTC @hourly" then Some tt else None.
Definition next_hour (_ : unit) (t : Z) : Z := ((t / 3600000 + 1) * 3600000)%Z.

Lemma next_hour_later sc t : next_hour sc t = zero_time \/ (t < next_hour sc t)%Z.
Proof.
  right. unfold next_hour. pose proof (Z.div_mod t 3600000 ltac:(lia)). pose proof (Z.mod_pos_bound t 3600000 ltac:(lia)). lia.
Qed.

Definition hourly_dag (key : string) (next : option Z) : DAG :=
  mkDAG key 3 "t" EmptyString "active" EmptyString (RawJSON (JObj [])) "scheduled" EmptyString "@hourly" next.

Definition hourly_db : db := with_dags assigned_db [hourly_dag "d" (Some 3600000%Z); hourly_dag "e" (Some 3600000%Z); hourly_dag "f" (Some 9000000%Z)].

Definition trigger_at (due now : Z) (s : db) : result error (unit * db) :=
  triggerDueDAG hourly next_hour zero_len "t" 0 (mkDue "d" "@hourly" due) now s.

(** Two instances saw the DAG due at one o'clock: the first starts it, the second is told
    that the schedule changed; an hour later the DAG is started again. *)
Lemma scheduled_starts_once_witness :
  exists s1 s2, trigger_at 3600000 3605000 hourly_db = Ok (tt, s1) /\ is_ok (trigger_at 3600000 3605000 s1) = false
    /\ trigger_at 7200000 7260000 s1 = Ok (tt, s2)
    /\ StronglySorted Z.lt (dues "d" [("d", 3600000); ("d", 7200000)]%Z)
    /\ length (List.filter (fun r => String.eqb (rn_RunKey r) (due_run_key "d" 3600000)) (db_runs s2)) = 1.
Proof.
  destruct (trigger_at 3600000 3605000 hourly_db) as [[[] s1]|e] eqn:E1; [|vm_compute in E1; discriminate E1].
  destruct (trigger_at 7200000 7260000 s1) as [[[] s2]|e] eqn:E2; [|vm_compute in E1; injection E1 as <-; vm_compute in E2; discriminate E2].
  assert (is_ok (trigger_at 3600000 3605000 s1) = false) as E3 by (vm_compute in E1; injection E1 as <-; vm_compute; reflexivity).
  destruct (scheduled_starts_once hourly next_hour zero_len next_hour_later hourly_db [("d", 3600000%Z); ("d", 7200000%Z)] s2) with (k := "d")
    as (H1 & H2 & _).
  - apply NoDup_ListNoDup. vm_compute. repeat constructor; cbn; intuition discriminate.
  - constructor.
  - eapply (tk_trigger _ _ _ "t" 0 (mkDue "d" "@hourly" 3600000) 3605000); [cbn; lia|exact E1|].
    eapply (tk_trigger _ _ _ "t" 0 (mkDue "d" "@hourly" 7200000) 7260000); [cbn; lia|exact E2|apply tk_nil].
  - exists s1, s2. split; [reflexivity|]. split; [exact E3|]. split; [exact E2|]. split; [exact H1|]. apply H2.
    vm_compute. left.
Defined.

