(* ===== verification/Redaction.v ===== *)
(** * Redaction of command output

    Models the scrubbing half of [nodeexec/executor_automation_result.go]: what a command
    printed is stored and shown only after the values of sensitive keys are replaced.  A
    text that is JSON (or lines of JSON) is scrubbed as such, any other text is scanned
    for assignments and headers.

    Texts are scanned as bytes.  The index loops of the code are recursions on the bytes
    before and after the position.  Not in the repository, and so arguments: the tables of
    [unicode], [json.Unmarshal] into [any] and [json.Marshal]. *)

From S2P Require Import Prelude GoStrings Json DagStore NodeConfig WakeupPayload RunStore WakeupLease RetryPolicy Effects AgentExecutor NodeRouter.

Abbreviation bytes := (list ascii).
Definition to_bytes (s : string) : bytes := String.list_ascii_of_string s.
Definition of_bytes (l : bytes) : string := String.string_of_list_ascii l.

Definition automationRedactionMarker : string := "[REDACTED]".

Fixpoint take_while {A} (p : A -> bool) (l : list A) : list A :=
  match l with [] => [] | a :: l => if p a then a :: take_while p l else [] end.
Fixpoint drop_while {A} (p : A -> bool) (l : list A) : list A :=
  match l with [] => [] | a :: l' => if p a then drop_while p l' else l end.

(** ** Bytes *)

Definition byte_in (lo hi : N) (c : ascii) : bool := in_range lo hi (N_of_ascii c).
Definition byte_is (n : N) (c : ascii) : bool := (N_of_ascii c =? n)%N.

Definition isAutomationInlineSpace (c : ascii) : bool := byte_is 0x20 c || byte_is 0x09 c.

Definition isAutomationKeyByte (c : ascii) : bool :=
  byte_in 0x61 0x7A c || byte_in 0x41 0x5A c || byte_in 0x30 0x39 c || byte_is 0x5F c || byte_is 0x2D c || byte_is 0x2E c.

Definition isAutomationQuote (c : ascii) : bool := byte_is 0x22 c || byte_is 0x27 c.

Definition line_end (c : ascii) : bool := byte_is 0x0A c || byte_is 0x0D c.

Definition backslash (c : ascii) : bool := byte_is 0x5C c.

(** [unicode.IsSpace(rune(b))]. *)
Definition byte_space (c : ascii) : bool := is_space (N_of_ascii c).

(** ** Sensitive keys *)

Section keys.
Context (is_letter is_digit is_upper is_lower : rune -> bool).

(** The previous, the current and the next runes. *)
Definition startsAutomationSensitiveKeyWord (previous current : rune) (next : option rune) : bool :=
  if negb (is_upper current) then false
  else if is_lower previous || is_digit previous then true
  else is_upper previous && match next with Some n => is_lower n | None => false end.

Definition appendAutomationSensitiveKeyWord (words : list string) (word : list rune) : list string :=
  match word with [] => words | _ => words ++ [ToLower (encode_runes word)] end.

(** [word] are the runes of the current word, [previous] the last of them. *)
Fixpoint key_words (words : list string) (word : list rune) (previous : rune) (l : list rune) : list string :=
  match l with
  | [] => appendAutomationSensitiveKeyWord words word
  | current :: l =>
      if negb (is_letter current) && negb (is_digit current) then key_words (appendAutomationSensitiveKeyWord words word) [] current l
      else match word with
           | [] => key_words words [current] current l
           | _ =>
               if startsAutomationSensitiveKeyWord previous current (head l)
               then key_words (appendAutomationSensitiveKeyWord words word) [current] current l
               else key_words words (word ++ [current]) current l
           end
  end.

Definition automationSensitiveKeyWords (key : string) : list string := key_words [] [] 0%N (runes (TrimSpace key)).

Fixpoint sensitive_words (words : list string) : bool :=
  match words with
  | [] => false
  | word :: words =>
      str_in word ["token"; "authorization"; "cookie"; "secret"; "password"; "apikey"]
      || String.eqb word "api" && match words with next :: _ => String.eqb next "key" | [] => false end
      || sensitive_words words
  end.

Definition isSensitiveAutomationResultKey (key : string) : bool := sensitive_words (automationSensitiveKeyWords key).

Definition shouldDropAutomationResultKey (key : string) : bool :=
  let trimmed := ToLower (TrimSpace key) in String.eqb trimmed "args" || String.eqb trimmed "__inputs".

(** ** Assignments and headers *)

(** Whether the byte before which these bytes stand (nearest first) is escaped. *)
Definition automationByteIsEscaped (before : bytes) : bool := Nat.odd (length (take_while backslash before)).

(** The bytes inside the quotes that the nearest byte closes, nearest first. *)
Fixpoint openingAutomationQuote (quote : ascii) (before : bytes) : option bytes :=
  match before with
  | [] => None
  | c :: before =>
      if line_end c then None
      else if Ascii.eqb c quote && negb (automationByteIsEscaped before) then Some []
      else (fun inside => c :: inside) <$> openingAutomationQuote quote before
  end.

(** Whether the key is quoted, and whether it is sensitive. *)
Definition sensitiveTextKeyBeforeDelimiter (before : bytes) : bool * bool :=
  match drop_while isAutomationInlineSpace before with
  | [] => (false, false)
  | c :: before =>
      if isAutomationQuote c then
        match openingAutomationQuote c before with
        | None => (false, false)
        | Some inside => (true, isSensitiveAutomationResultKey (of_bytes (rev inside)))
        end
      else match take_while isAutomationKeyByte (c :: before) with
           | [] => (false, false)
           | key => (false, isSensitiveAutomationResultKey (of_bytes (rev key)))
           end
  end.

(** The length of a quoted value after its opening quote. *)
Fixpoint quoted_end (quote : ascii) (escaped : bool) (l : bytes) : nat :=
  match l with
  | [] => 0
  | c :: l =>
      if line_end c then 0
      else if Ascii.eqb c quote && negb escaped then 1
      else S (quoted_end quote (if backslash c then negb escaped else false) l)
  end.

Definition quotedAutomationValueEnd (quote : ascii) (l : bytes) : nat := S (quoted_end quote false l).

(** The length of the value that the bytes start with. *)
Definition sensitiveTextValueEnd (l : bytes) (headerValue : bool) : nat :=
  match l with
  | [] => 0
  | c :: rest =>
      if isAutomationQuote c then quotedAutomationValueEnd c rest
      else if headerValue then length (take_while (fun c => negb (line_end c)) l)
      else length (take_while (fun c => negb (byte_space c)) l)
  end.

Definition delimiter (c : ascii) : bool := byte_is 0x3D c || byte_is 0x3A c.

(** [skip] bytes belong to a value that was replaced. *)
Fixpoint redact_scan (skip : nat) (before l : bytes) : bytes :=
  match l with
  | [] => []
  | c :: l =>
      match skip with
      | S skip => redact_scan skip (c :: before) l
      | 0 =>
          let '(quotedKey, sensitive) := if delimiter c then sensitiveTextKeyBeforeDelimiter before else (false, false) in
          if sensitive then
            let spaces := take_while isAutomationInlineSpace l in
            let value := drop_while isAutomationInlineSpace l in
            let headerValue := byte_is 0x3A c && negb quotedKey in
            (c :: spaces ++ to_bytes automationRedactionMarker)
              ++ redact_scan (length spaces + sensitiveTextValueEnd value headerValue) (c :: before) l
          else c :: redact_scan 0 (c :: before) l
      end
  end.

Definition redactSensitiveAssignments (text : string) : string := of_bytes (redact_scan 0 [] (to_bytes text)).

(** ** JSON *)

Section scrub.
(** What is done with the strings. *)
Context (redact : string -> string).

Fixpoint scrubAutomationResultValue (value : json) : json :=
  match value with
  | JObj members =>
      JObj ((fix scrubAutomationResultObject (members : list (string * json)) : list (string * json) :=
         match members with
         | [] => []
         | (key, value) :: members =>
             if shouldDropAutomationResultKey key then scrubAutomationResultObject members
             else (key, if isSensitiveAutomationResultKey key then JStr automationRedactionMarker else scrubAutomationResultValue value)
                  :: scrubAutomationResultObject members
         end) members)
  | JArr items => JArr (scrubAutomationResultValue <$> items)
  | JStr s => JStr (redact s)
  | _ => value
  end.
End scrub.

(** [json.Unmarshal] into [any] (a value with one member per key), and [json.Marshal]. *)
Context (parse : string -> option json) (print : json -> string).

Definition scrub_text (redact : string -> string) (text : string) : option string :=
  (fun value => print (scrubAutomationResultValue redact value)) <$> parse text.

(** The scrubbed lines and the number of those that are JSON. *)
Fixpoint scrub_lines (redact : string -> string) (lines : list string) : option (list string * nat) :=
  match lines with
  | [] => Some ([], 0)
  | line :: lines =>
      if String.eqb (TrimSpace line) EmptyString then '(rest, n) ← scrub_lines redact lines; Some (line :: rest, n)
      else
        cleaned ← scrub_text redact line;
        '(rest, n) ← scrub_lines redact lines; Some (cleaned :: rest, S n)
  end.

Definition newline : ascii := ascii_of_N 10.

Definition scrubAutomationJSONLines (redact : string -> string) (text : string) : option string :=
  match split_on newline text with
  | [_] => None
  | lines =>
      '(cleaned, parsedLines) ← scrub_lines redact lines;
      if (parsedLines =? 0)%nat then None else Some (str_join newline cleaned)
  end.

(** Strings inside JSON are texts again; the depth is bounded by the fuel. *)
Fixpoint redact_text (fuel : nat) (text : string) : string :=
  if String.eqb text EmptyString then text
  else match fuel with
       | 0 => redactSensitiveAssignments text
       | S fuel =>
           match scrub_text (redact_text fuel) text with
           | Some cleaned => cleaned
           | None =>
               match scrubAutomationJSONLines (redact_text fuel) text with
               | Some cleaned => cleaned
               | None => redactSensitiveAssignments text
               end
           end
       end.

(** One unit per rune of the text. *)
Definition redactSensitiveText (text : string) : string := redact_text (length (runes text)) text.

(** The value that [any] gets: the last of the members with one key. *)
Fixpoint any_value (j : json) : json :=
  match j with
  | JArr l => JArr (any_value <$> l)
  | JObj l => JObj (map_of ((fun m => (m.1, any_value m.2)) <$> l))
  | _ => j
  end.

(** Whether a number fits in a float, and the value as it is written again. *)
Context (fits : string -> bool) (reencode : json -> json).

Definition ScrubAutomationResultPayload (raw : RawMessage) : RawMessage :=
  let invalid := RawJSON (JObj [("redacted", JBool true); ("reason", JStr "invalid_result_json")]) in
  match raw with
  | RawEmpty => RawEmpty
  | RawBad => invalid
  | RawJSON value =>
      if any_ok fits value then RawJSON (reencode (scrubAutomationResultValue redactSensitiveText (any_value value))) else invalid
  end.
End keys.

(** ** The fuel is enough *)

(** The strings of a value. *)
Fixpoint strings_of (j : json) : list string :=
  match j with
  | JStr s => [s]
  | JArr l => l ≫= strings_of
  | JObj l => l ≫= fun m => strings_of m.2
  | _ => []
  end.

(** A string inside a JSON text has fewer runes than the text: it stands between quotes,
    and no escape is shorter than what it stands for. *)
Class ParseLaw (parse : string -> option json) : Prop :=
  parse_shrinks text j s : parse text = Some j -> s ∈ strings_of j -> length (runes s) < length (runes text).

Section fuel.
Context (is_letter is_digit is_upper is_lower : rune -> bool) (parse : string -> option json) (print : json -> string).
Context `{PL : !ParseLaw parse}.

Local Abbreviation scrub := (scrubAutomationResultValue is_letter is_digit is_upper is_lower).
Local Abbreviation redact := (redact_text is_letter is_digit is_upper is_lower parse print).

Lemma strings_item x l s : x ∈ l -> s ∈ strings_of x -> s ∈ strings_of (JArr l).
Proof. intros Hx Hs. change (s ∈ l ≫= strings_of). apply list_elem_of_bind. eauto. Qed.

Lemma strings_member m l s : m ∈ l -> s ∈ strings_of m.2 -> s ∈ strings_of (JObj l).
Proof. intros Hm Hs. change (s ∈ l ≫= fun m => strings_of m.2). apply list_elem_of_bind. eauto. Qed.

(** Only what is done with the strings of a value matters. *)
Lemma scrub_ext f g j : (forall s, s ∈ strings_of j -> f s = g s) -> scrub f j = scrub g j.
Proof.
  induction j as [| | |s|l IH|l IH] using json_ind'; intros H; try done.
  - cbn. by rewrite H by (cbn; left).
  - cbn. f_equal. apply list_fmap_ext. intros i x Hx. rewrite Forall_forall in IH. apply list_elem_of_lookup_2 in Hx.
    apply IH; [done|]. intros s Hs. apply H. by eapply strings_item.
  - assert (forall m s, m ∈ l -> s ∈ strings_of m.2 -> f s = g s) as Hm by (intros; apply H; by eapply strings_member).
    clear H. cbn. f_equal. induction IH as [|[k x] l Hx _ IHl]; [done|].
    rewrite IHl by (intros m s Hin; apply (Hm m s); by right). cbn in Hx. rewrite Hx; [done|]. intros s. apply (Hm (k, x)). left.
Qed.

Lemma scrub_text_ext f g text :
  (forall s, length (runes s) < length (runes text) -> f s = g s) ->
  scrub_text is_letter is_digit is_upper is_lower parse print f text = scrub_text is_letter is_digit is_upper is_lower parse print g text.
Proof.
  intros H. unfold scrub_text. destruct (parse text) as [j|] eqn:E; [|done]. cbn. do 2 f_equal. apply scrub_ext.
  intros s Hs. apply H. by eapply parse_shrinks.
Qed.

Lemma split_runes text line : line ∈ split_on newline text -> length (runes line) <= length (runes text).
Proof.
  rewrite <- (str_join_split newline text) at 2. generalize (split_on newline text). intros l Hin.
  induction l as [|x [|y l] IH]; [by apply not_elem_of_nil in Hin|by apply list_elem_of_singleton in Hin as ->|].
  change (str_join newline (x :: y :: l)) with (x +:+ String newline (str_join newline (y :: l))).
  rewrite runes_app_ascii by done. rewrite length_app. cbn [length]. apply elem_of_cons in Hin as [->|Hin]; [lia|]. specialize (IH Hin). lia.
Qed.

Lemma runes_nonempty text : length (runes text) <= 0 -> text = EmptyString.
Proof. destruct text as [|a t]; [done|]. unfold runes. rewrite chunks_step. cbn. lia. Qed.

Lemma scrub_lines_ext f g text lines :
  (forall s, length (runes s) < length (runes text) -> f s = g s) ->
  (forall line, line ∈ lines -> length (runes line) <= length (runes text)) ->
  scrub_lines is_letter is_digit is_upper is_lower parse print f lines = scrub_lines is_letter is_digit is_upper is_lower parse print g lines.
Proof.
  intros H Hl. induction lines as [|line lines IH]; [done|]. cbn [scrub_lines].
  rewrite IH by (intros; apply Hl; by right). case_match; [done|].
  rewrite (scrub_text_ext f g line); [done|]. intros s Hs. apply H. specialize (Hl line ltac:(left)). lia.
Qed.

Lemma redact_fuel n m text : length (runes text) <= n -> length (runes text) <= m -> redact n text = redact m text.
Proof.
  revert m text. induction n as [|n IH]; intros [|m] text Hn Hm; try (by rewrite (runes_nonempty text) by lia).
  cbn [redact_text]. case_match; [done|].
  assert (forall s, length (runes s) < length (runes text) -> redact n s = redact m s) as Hlt by (intros; apply IH; lia).
  rewrite (scrub_text_ext _ _ text Hlt). case_match; [done|]. unfold scrubAutomationJSONLines.
  assert (forall line, line ∈ split_on newline text -> length (runes line) <= length (runes text)) as Hl by apply split_runes.
  destruct (split_on newline text) as [|l1 [|l2 ls]]; [done|done|]. by rewrite (scrub_lines_ext _ _ text _ Hlt Hl).
Qed.
End fuel.

(** ** No secret is shown *)

Section secrets.
Context (is_letter is_digit is_upper is_lower : rune -> bool).
Local Abbreviation sensitive := (isSensitiveAutomationResultKey is_letter is_digit is_upper is_lower).
Local Abbreviation scan := (redact_scan is_letter is_digit is_upper is_lower).
Local Abbreviation key_before := (sensitiveTextKeyBeforeDelimiter is_letter is_digit is_upper is_lower).

(** A byte that ends no value. *)
Definition plain_byte (c : ascii) : bool :=
  negb (line_end c) && negb (byte_space c) && negb (isAutomationQuote c) && negb (backslash c).

(** The text ends here, or the line does. *)
Definition at_line_end (l : bytes) : Prop := match l with [] => True | c :: _ => line_end c = true end.

(** Keys are not read across the end of a line. *)
Lemma take_while_barrier {A} (p : A -> bool) x c b1 b2 : p c = false -> take_while p (x ++ c :: b1) = take_while p (x ++ c :: b2).
Proof. intros Hc. induction x as [|a x IH]; cbn; [by rewrite Hc|]. by rewrite IH. Qed.

Lemma drop_while_barrier {A} (p : A -> bool) x c b : p c = false -> exists y, drop_while p (x ++ c :: b) = y ++ c :: b /\ forall b', drop_while p (x ++ c :: b') = y ++ c :: b'.
Proof.
  intros Hc. induction x as [|a x IH]; cbn.
  - exists []. rewrite Hc. done.
  - destruct (p a); [exact IH|]. by exists (a :: x).
Qed.

Lemma line_end_facts c : line_end c = true ->
  isAutomationInlineSpace c = false /\ isAutomationKeyByte c = false /\ isAutomationQuote c = false /\ backslash c = false /\ delimiter c = false
  /\ byte_space c = true.
Proof.
  unfold line_end, byte_is. intros H. apply orb_true_iff in H as [H|H]; apply N.eqb_eq in H;
    unfold isAutomationInlineSpace, isAutomationKeyByte, isAutomationQuote, backslash, delimiter, byte_space, byte_is, byte_in; rewrite H; done.
Qed.

Lemma opening_barrier q x c b1 b2 : line_end c = true -> openingAutomationQuote q (x ++ c :: b1) = openingAutomationQuote q (x ++ c :: b2).
Proof.
  intros Hc. destruct (line_end_facts c Hc) as (_ & _ & _ & Hb & _). induction x as [|a x IH]; cbn; [by rewrite Hc|].
  rewrite IH. unfold automationByteIsEscaped. by rewrite (take_while_barrier backslash x c b1 b2 Hb).
Qed.

Lemma key_barrier x c b1 b2 : line_end c = true -> key_before (x ++ c :: b1) = key_before (x ++ c :: b2).
Proof.
  intros Hc. destruct (line_end_facts c Hc) as (Hs & Hk & Hq & Hb & _). unfold sensitiveTextKeyBeforeDelimiter.
  destruct (drop_while_barrier isAutomationInlineSpace x c b1 Hs) as (y & -> & ->). destruct y as [|a y]; cbn [app].
  - rewrite Hq. cbn. by rewrite Hk.
  - rewrite (opening_barrier a y c b1 b2 Hc). change (a :: y ++ c :: b1) with ((a :: y) ++ c :: b1). change (a :: y ++ c :: b2) with ((a :: y) ++ c :: b2).
    by rewrite (take_while_barrier isAutomationKeyByte (a :: y) c b1 b2 Hk).
Qed.

Lemma scan_barrier l skip x c b1 b2 : line_end c = true -> scan skip (x ++ c :: b1) l = scan skip (x ++ c :: b2) l.
Proof.
  intros Hc. revert skip x. induction l as [|a l IH]; intros skip x; [done|]. cbn [redact_scan].
  destruct skip as [|skip]; [|apply (IH skip (a :: x))]. rewrite (key_barrier x c b1 b2 Hc).
  destruct (if delimiter a then _ else _) as [quoted s]. destruct s; [f_equal|f_equal]; apply (IH _ (a :: x)).
Qed.

(** What follows the end of the line does not depend on what stood before. *)
Lemma scan_after l b1 b2 : at_line_end l -> scan 0 b1 l = scan 0 b2 l.
Proof.
  destruct l as [|c l]; [done|]. cbn [at_line_end]. intros Hc. destruct (line_end_facts c Hc) as (_ & _ & _ & _ & Hd & _).
  cbn [redact_scan]. rewrite Hd. f_equal. apply (scan_barrier l 0 [] c b1 b2 Hc).
Qed.

Lemma scan_skip v b l : scan (length v) b (v ++ l) = scan 0 (rev v ++ b) l.
Proof. revert b. induction v as [|c v IH]; intros b; [done|]. cbn. rewrite IH, <- app_assoc. done. Qed.

Lemma take_while_end {A} (p : A -> bool) v l :
  Forall (fun c => p c = true) v -> match l with [] => True | c :: _ => p c = false end -> take_while p (v ++ l) = v.
Proof. intros Hv Hl. induction Hv as [|c v Hc _ IH]; cbn; [|by rewrite Hc, IH]. destruct l as [|c l]; [done|]. cbn. by rewrite Hl. Qed.

(** A span that stops inside the prefix, or runs over what follows. *)
Lemma take_while_over {A} (p : A -> bool) x v l :
  Forall (fun c => p c = true) v -> match l with [] => True | c :: _ => p c = false end ->
  take_while p (x ++ v ++ l) = if forallb p x then x ++ v else take_while p x.
Proof.
  intros Hv Hl. induction x as [|c x IH]; cbn; [by apply take_while_end|]. destruct (p c); [|done]. rewrite IH. by case_match.
Qed.

Lemma take_while_length {A} (p : A -> bool) x : length (take_while p x) <= length x.
Proof. induction x as [|c x IH]; cbn; [done|]. case_match; cbn; lia. Qed.

Section around.
(** The delimiter of the secret, and what follows its value. *)
Context (sep : ascii) (rest : bytes) (Hsep : delimiter sep = true) (Hrest : at_line_end rest).

Definition secret (v : bytes) : Prop := Forall (fun c => plain_byte c = true) v.

Lemma sep_facts : line_end sep = false /\ byte_space sep = false /\ isAutomationQuote sep = false /\ backslash sep = false.
Proof.
  pose proof Hsep as H. unfold delimiter, byte_is in H. unfold line_end, byte_space, isAutomationQuote, backslash, byte_is.
  apply orb_true_iff in H as [H|H]; apply N.eqb_eq in H; rewrite H; repeat split.
Qed.

Lemma rest_stops (p : ascii -> bool) : (forall c, line_end c = true -> p c = false) -> match rest with [] => True | c :: _ => p c = false end.
Proof. destruct rest as [|c l]; [done|]. intros Hp. by apply Hp. Qed.

Lemma sep_secret (p : ascii -> bool) v :
  p sep = true -> (forall c, plain_byte c = true -> p c = true) -> secret v -> Forall (fun c => p c = true) (sep :: v).
Proof. intros Hs Hp Hv. constructor; [done|]. eapply Forall_impl; [exact Hv|]. done. Qed.

(** Two lengths that stop at one place of the prefix, or both run over the secret. *)
Definition over (n1 n2 : nat) (x v1 v2 : bytes) : Prop :=
  n1 = n2 /\ n1 <= length x \/ n1 = length x + S (length v1) /\ n2 = length x + S (length v2).

Lemma take_while_secret (p : ascii -> bool) x v1 v2 :
  p sep = true -> (forall c, plain_byte c = true -> p c = true) -> (forall c, line_end c = true -> p c = false) -> secret v1 -> secret v2 ->
  over (length (take_while p (x ++ sep :: v1 ++ rest))) (length (take_while p (x ++ sep :: v2 ++ rest))) x v1 v2.
Proof.
  intros Hs Hp Hl H1 H2. change (sep :: v1 ++ rest) with ((sep :: v1) ++ rest). change (sep :: v2 ++ rest) with ((sep :: v2) ++ rest).
  rewrite !take_while_over by first [by apply rest_stops|by apply sep_secret]. unfold over. destruct (forallb p x); rewrite ?length_app; cbn; [right; lia|].
  left. split; [done|]. apply take_while_length.
Qed.

Lemma quoted_end_secret q esc x v1 v2 :
  isAutomationQuote q = true -> secret v1 -> secret v2 ->
  over (quoted_end q esc (x ++ sep :: v1 ++ rest)) (quoted_end q esc (x ++ sep :: v2 ++ rest)) x v1 v2.
Proof.
  intros Hq H1 H2.
  assert (forall v e, secret v -> quoted_end q e (v ++ rest) = length v) as Hv.
  { intros v e Hv. revert e. induction Hv as [|c v Hc _ IH]; intros e.
    - cbn. destruct rest as [|c l]; [done|]. cbn in Hrest |- *. by rewrite Hrest.
    - unfold plain_byte in Hc. go_bool. cbn. match goal with H : line_end c = false |- _ => rewrite H end.
      destruct (Ascii.eqb_spec c q) as [->|_]; [congruence|]. cbn. by rewrite IH. }
  revert esc. induction x as [|c x IH]; intros esc.
  - destruct sep_facts as (Hl & _ & Hsq & _). cbn. rewrite Hl. destruct (Ascii.eqb_spec sep q) as [->|_]; [congruence|]. cbn.
    rewrite !Hv by done. right. done.
  - cbn. destruct (line_end c); [left; split; [done|lia]|]. case_match; [left; split; [done|cbn; lia]|].
    destruct (IH (if backslash c then negb esc else false)) as [[-> Hle]|[-> ->]]; [left; cbn; split; [done|lia]|right; cbn; done].
Qed.

(** The end of a value that starts inside the prefix. *)
Lemma value_end_secret x v1 v2 header :
  x <> [] -> secret v1 -> secret v2 ->
  over (sensitiveTextValueEnd (x ++ sep :: v1 ++ rest) header) (sensitiveTextValueEnd (x ++ sep :: v2 ++ rest) header) x v1 v2.
Proof.
  intros Hx H1 H2. destruct sep_facts as (Hl & Hs & _). destruct x as [|c x]; [done|]. cbn [app sensitiveTextValueEnd].
  destruct (isAutomationQuote c) eqn:Hq.
  - unfold quotedAutomationValueEnd. destruct (quoted_end_secret c false x v1 v2 Hq H1 H2) as [[-> Hle]|[-> ->]]; [left; cbn; split; [done|lia]|by right].
  - destruct header; apply (take_while_secret _ (c :: x)); try done.
    + by rewrite Hl.
    + intros d Hd. unfold plain_byte in Hd. go_bool. by apply negb_true_iff.
    + intros d ->. done.
    + by rewrite Hs.
    + intros d Hd. unfold plain_byte in Hd. go_bool. by apply negb_true_iff.
    + intros d Hd. destruct (line_end_facts d Hd) as (_ & _ & _ & _ & _ & ->). done.
Qed.

(** The value of the secret itself. *)
Lemma value_end_plain v header : secret v -> sensitiveTextValueEnd (v ++ rest) header = length v.
Proof.
  intros Hv. destruct v as [|c v].
  - cbn. destruct rest as [|c l]; [done|]. cbn in Hrest |- *. destruct (line_end_facts c Hrest) as (_ & _ & -> & _ & _ & Hsp).
    destruct header; cbn; [by rewrite Hrest|by rewrite Hsp].
  - inversion Hv as [|? ? Hc Hv']; subst. unfold plain_byte in Hc. go_bool. cbn [app sensitiveTextValueEnd].
    match goal with H : isAutomationQuote c = false |- _ => rewrite H end.
    change (c :: v ++ rest) with ((c :: v) ++ rest).
    destruct header; rewrite take_while_end; try done; try apply rest_stops.
    + eapply Forall_impl; [exact Hv|]. intros d Hd. unfold plain_byte in Hd. go_bool. by apply negb_true_iff.
    + by intros d ->.
    + eapply Forall_impl; [exact Hv|]. intros d Hd. unfold plain_byte in Hd. go_bool. by apply negb_true_iff.
    + intros d Hd. destruct (line_end_facts d Hd) as (_ & _ & _ & _ & _ & ->). done.
Qed.

Lemma plain_no_space v : secret v -> take_while isAutomationInlineSpace (v ++ rest) = [] /\ drop_while isAutomationInlineSpace (v ++ rest) = v ++ rest.
Proof.
  intros Hv.
  assert (match v ++ rest with [] => True | c :: _ => isAutomationInlineSpace c = false end) as H.
  { destruct Hv as [|c v Hc Hv]; cbn.
    - apply (rest_stops isAutomationInlineSpace). intros c Hc. by destruct (line_end_facts c Hc).
    - unfold plain_byte in Hc. go_bool. unfold isAutomationInlineSpace, byte_space, byte_is in *.
      destruct (N.eqb_spec (N_of_ascii c) 0x20) as [E|_]; [by rewrite E in *|]. destruct (N.eqb_spec (N_of_ascii c) 0x09) as [E|_]; [by rewrite E in *|]. done. }
  destruct (v ++ rest) as [|c l]; [done|]. cbn. by rewrite H.
Qed.

(** The bytes before the delimiter end in a byte of the key. *)
Definition ends_in_key (p : bytes) : Prop := match last p with Some c => isAutomationKeyByte c = true | None => True end.

Lemma spaces_in_prefix p l :
  p <> [] -> ends_in_key p ->
  exists x, x <> [] /\ p = take_while isAutomationInlineSpace p ++ x
    /\ take_while isAutomationInlineSpace (p ++ l) = take_while isAutomationInlineSpace p
    /\ drop_while isAutomationInlineSpace (p ++ l) = x ++ l.
Proof.
  induction p as [|c p IH]; [done|]. intros _ Hk. cbn [take_while drop_while app]. destruct (isAutomationInlineSpace c) eqn:Hc; [|by exists (c :: p)].
  destruct p as [|d p].
  - unfold ends_in_key in Hk. cbn in Hk. unfold isAutomationInlineSpace, isAutomationKeyByte, byte_is, byte_in in *.
    apply orb_true_iff in Hc as [E|E]; apply N.eqb_eq in E; by rewrite E in Hk.
  - destruct IH as (x & Hx & Hp & Ht & Hd); [done|exact Hk|]. exists x. split; [done|]. split; [|split; [|exact Hd]].
    + change (c :: d :: p = c :: (take_while isAutomationInlineSpace (d :: p) ++ x)). by rewrite <- Hp.
    + change (c :: take_while isAutomationInlineSpace ((d :: p) ++ l) = c :: take_while isAutomationInlineSpace (d :: p)). by rewrite Ht.
Qed.

Lemma over_step n1 n2 c p v1 v2 :
  over n1 n2 (c :: p) v1 v2 -> n1 = 0 /\ n2 = 0 \/ exists m1 m2, n1 = S m1 /\ n2 = S m2 /\ over m1 m2 p v1 v2.
Proof.
  intros [[<- Hn]|[-> ->]]; [|right; eexists _, _; split; [done|]; split; [done|]; by right].
  destruct n1 as [|n]; [by left|]. right. exists n, n. split; [done|]. split; [done|]. left. cbn in Hn. split; [done|lia].
Qed.

(** The scan of a text around the secret. *)
Lemma scan_secret p b n1 n2 v1 v2 :
  secret v1 -> secret v2 -> over n1 n2 p v1 v2 -> ends_in_key p -> key_before (rev p ++ b) = (false, true) ->
  scan n1 b (p ++ sep :: v1 ++ rest) = scan n2 b (p ++ sep :: v2 ++ rest).
Proof.
  intros H1 H2. revert b n1 n2. induction p as [|c p IH]; intros b n1 n2 Hn Hk Hb; cbn [app].
  - assert (forall b v, scan (length v) b (v ++ rest) = scan 0 [] rest) as Hv by (intros; rewrite scan_skip; by apply scan_after).
    destruct Hn as [[<- Hn]|[-> ->]]; cbn [length Nat.add redact_scan]; [|by rewrite !Hv].
    assert (n1 = 0) as -> by (cbn in Hn; lia). rewrite Hsep. cbn in Hb. rewrite Hb.
    destruct (plain_no_space v1 H1) as [-> ->], (plain_no_space v2 H2) as [-> ->]. rewrite !value_end_plain by done. cbn [length Nat.add].
    by rewrite !Hv.
  - assert (ends_in_key p) as Hk'. { destruct p as [|d p]; [done|exact Hk]. }
    assert (key_before (rev p ++ c :: b) = (false, true)) as Hb'. { cbn in Hb. by rewrite <- app_assoc in Hb. }
    destruct (over_step _ _ _ _ _ _ Hn) as [[-> ->]|(m1 & m2 & -> & -> & Hm)]; cbn [redact_scan]; [|by apply IH].
    destruct (if delimiter c then _ else _) as [quoted s] eqn:E. destruct s; [|f_equal; apply IH; [by left; split; [|lia]|done|done]].
    destruct (delimiter c) eqn:Hd; [|by simplify_eq].
    assert (p <> []) as Hp.
    { intros ->. unfold ends_in_key in Hk. cbn in Hk. unfold delimiter, isAutomationKeyByte, byte_is, byte_in in *.
      apply orb_true_iff in Hd as [X|X]; apply N.eqb_eq in X; by rewrite X in Hk. }
    destruct (spaces_in_prefix p (sep :: v1 ++ rest) Hp Hk') as (x & Hx & Hpx & -> & ->).
    destruct (spaces_in_prefix p (sep :: v2 ++ rest) Hp Hk') as (x' & _ & Hpx' & -> & ->).
    assert (x' = x) as -> by (apply (app_inv_head (take_while isAutomationInlineSpace p)); congruence). f_equal. apply IH; [|done|done].
    assert (length p = length (take_while isAutomationInlineSpace p) + length x) as Hl by (rewrite Hpx at 1; apply length_app).
    destruct (value_end_secret x v1 v2 (byte_is 0x3A c && negb quoted) Hx H1 H2) as [[-> ?]|[-> ->]]; [left; split; [done|lia]|right; split; lia].
Qed.
End around.

Lemma to_bytes_app s t : to_bytes (s +:+ t) = to_bytes s ++ to_bytes t.
Proof. induction s as [|c s IH]; [done|]. change (c :: to_bytes (s +:+ t) = c :: (to_bytes s ++ to_bytes t)). by rewrite IH. Qed.

(** The text has only bytes of a kind. *)
Definition all_bytes (p : ascii -> bool) (s : string) : bool := forallb p (to_bytes s).

(** No byte of a key stands before the place. *)
Definition key_starts (pre : string) : Prop := match last (to_bytes pre) with Some c => isAutomationKeyByte c = false | None => True end.

Lemma key_before_found pre key :
  key <> EmptyString -> all_bytes isAutomationKeyByte key = true -> key_starts pre -> sensitive key = true ->
  key_before (rev (to_bytes (pre +:+ key))) = (false, true).
Proof.
  intros Hne Hk Hp Hs. rewrite to_bytes_app, rev_app_distr.
  assert (Forall (fun c => isAutomationKeyByte c = true) (rev (to_bytes key))) as Hall.
  { apply Forall_rev. apply Forall_forall. intros c Hc. unfold all_bytes in Hk. rewrite forallb_forall in Hk. apply Hk. by apply list_elem_of_In. }
  assert (rev (to_bytes key) <> []) as Hne' by (destruct key; [done|]; cbn; intros E; by apply app_eq_nil in E as [_ ?]).
  assert (take_while isAutomationKeyByte (rev (to_bytes key) ++ rev (to_bytes pre)) = rev (to_bytes key)) as Htake.
  { apply take_while_end; [done|]. unfold key_starts in Hp. destruct (to_bytes pre) as [|x l _] using rev_ind; [done|].
    rewrite rev_app_distr. cbn. by rewrite last_snoc in Hp. }
  unfold sensitiveTextKeyBeforeDelimiter. destruct (rev (to_bytes key)) as [|c l] eqn:E; [done|]. inversion Hall as [|? ? Hc _]; subst.
  assert (isAutomationInlineSpace c = false /\ isAutomationQuote c = false) as [Hsp Hq].
  { unfold isAutomationInlineSpace, isAutomationQuote, isAutomationKeyByte, byte_is, byte_in in *.
    split; apply orb_false_iff; split; apply N.eqb_neq; intros X; by rewrite X in Hc. }
  cbn [app drop_while]. rewrite Hsp, Hq. cbn [app] in Htake. rewrite Htake, <- E, rev_involutive.
  unfold of_bytes, to_bytes. by rewrite String.string_of_list_ascii_of_string, Hs.
Qed.

(** C18: a secret is not shown: what the scan makes of a text does not depend on the value
    that stands after a sensitive key, up to the end of the line.  The key is a word of
    key bytes that no key byte precedes, the delimiter is an equals sign or a colon, the
    value has no space (0x85 and 0xA0 are such), quote or backslash, and the rest is anything from the end of the
    line on; what stands before is any text, other assignments and open quotes included. *)
Theorem secret_not_shown pre key sep v1 v2 rest :
  key <> EmptyString -> all_bytes isAutomationKeyByte key = true -> key_starts pre -> sensitive key = true ->
  delimiter sep = true -> all_bytes plain_byte v1 = true -> all_bytes plain_byte v2 = true -> at_line_end (to_bytes rest) ->
  redactSensitiveAssignments is_letter is_digit is_upper is_lower (pre +:+ key +:+ String sep (v1 +:+ rest))
    = redactSensitiveAssignments is_letter is_digit is_upper is_lower (pre +:+ key +:+ String sep (v2 +:+ rest)).
Proof.
  intros Hne Hk Hp Hs Hd H1 H2 Hr. unfold redactSensitiveAssignments. f_equal.
  assert (forall v, all_bytes plain_byte v = true -> secret (to_bytes v)) as Hv.
  { intros v Hb. apply Forall_forall. intros c Hc. unfold all_bytes in Hb. rewrite forallb_forall in Hb. apply Hb. by apply list_elem_of_In. }
  assert (forall v, to_bytes (pre +:+ key +:+ String sep (v +:+ rest)) = to_bytes (pre +:+ key) ++ sep :: to_bytes v ++ to_bytes rest) as E.
  { intros v. rewrite !to_bytes_app, <- app_assoc. do 2 f_equal. change (to_bytes (String sep (v +:+ rest))) with (sep :: to_bytes (v +:+ rest)).
    by rewrite to_bytes_app. }
  rewrite !E. apply scan_secret; auto.
  - left. split; [done|lia].
  - unfold ends_in_key. rewrite to_bytes_app. destruct key as [|c key]; [done|]. destruct (exists_last (l := to_bytes (String c key))) as (l & d & El); [done|].
    unfold all_bytes in Hk. rewrite El in *. rewrite app_assoc, last_snoc. rewrite forallb_app in Hk. cbn in Hk. by apply andb_true_iff in Hk as [_ [Hk _]%andb_true_iff].
  - rewrite app_nil_r. by apply key_before_found.
Qed.
End secrets.

(** ** Samples *)

Module Samples.
(** The tables of [unicode], as far as ASCII. *)
Definition ascii_upper (r : rune) : bool := in_range 0x41 0x5A r.
Definition ascii_lower (r : rune) : bool := in_range 0x61 0x7A r.
Definition ascii_digit (r : rune) : bool := in_range 0x30 0x39 r.
Definition ascii_letter (r : rune) : bool := ascii_upper r || ascii_lower r.

Definition redact (text : string) : string := redactSensitiveAssignments ascii_letter ascii_digit ascii_upper ascii_lower text.

(** A quoted value, a header and an ordinary word. *)
Example redact_env :
  redact "export API_KEY=sk-123 AUTH_TOKEN='a b' tokens=4" = "export API_KEY=[REDACTED] AUTH_TOKEN=[REDACTED] tokens=4"
  /\ redact "Authorization: Bearer abc def" = "Authorization: [REDACTED]".
Proof. vm_compute. done. Qed.

Lemma secret_not_shown_witness :
  redact ("user=x " +:+ "dbPassword" +:+ String "=" ("hunter2" +:+ EmptyString))
    = redact ("user=x " +:+ "dbPassword" +:+ String "=" ("correct-horse" +:+ EmptyString))
  /\ redact ("user=x " +:+ "dbPassword" +:+ String "=" ("hunter2" +:+ EmptyString)) = "user=x dbPassword=[REDACTED]".
Proof. split; [by apply secret_not_shown|reflexivity]. Defined.

(** A letter whose encoding has the byte 0xA0 ends a secret too early: the byte, not the
    rune, is compared with the spaces.  What stands after it is shown. *)
Theorem secret_cut_at_byte :
  let a_grave := String (ascii_of_N 0xC3) (String (ascii_of_N 0xA0) EmptyString) in
  redact ("password=vol" +:+ a_grave +:+ "tile") = "password=[REDACTED]" +:+ String (ascii_of_N 0xA0) "tile".
Proof. reflexivity. Qed.
End Samples.
