(* ===== verification/AutomationCommand.v ===== *)
(** * Running a command card

    Models [nodeexec/executor_automation_command.go],
    [nodeexec/command_execution_authorization.go], [nodeexec/workspace_scope.go] and the
    rendering half of [nodeexec/executor_automation_prompt.go]: the template of a card is
    rendered, checked and split into arguments, the working directory is checked against
    the workspace roots, the execution is authorised, and only then is a process started.
    What the process prints is kept up to a limit and redacted.

    The file system, the authoriser and the processes are the record [Machine]; the
    tables of [unicode], JSON texts and [text/template] are the class [Texts]. *)

From S2P Require Import Prelude GoStrings SharedFilePath Json DagStore NodeConfig WakeupPayload RunStore WakeupLease RetryPolicy Effects AgentExecutor NodeRouter Redaction.

(** ** Splitting a command into arguments

    The quote and escape bytes are ASCII, so that the runes of the command are read. *)

Definition rune_is (n : N) (r : rune) : bool := (r =? n)%N.
Definition r_backslash : rune := 0x5C%N.
Definition r_single : rune := 0x27%N.
Definition r_double : rune := 0x22%N.

Record automationArgvSplitState := mkSplit {
  as_argv : list string; as_current : string; as_inSingle : bool; as_inDouble : bool; as_escaped : bool; as_tokenWasStarted : bool;
}.

Definition split_start : automationArgvSplitState := mkSplit [] EmptyString false false false false.

(** [current.WriteRune(r)]. *)
Definition write_rune (s : automationArgvSplitState) (r : rune) : automationArgvSplitState :=
  mkSplit (as_argv s) (as_current s +:+ encode_rune r) (as_inSingle s) (as_inDouble s) false true.

Definition flushToken (s : automationArgvSplitState) : automationArgvSplitState :=
  if negb (as_tokenWasStarted s) then s
  else mkSplit (as_argv s ++ [as_current s]) EmptyString (as_inSingle s) (as_inDouble s) (as_escaped s) false.

(** [None]: the rune is neither a quote nor an escape here. *)
Definition acceptQuoteOrEscape (s : automationArgvSplitState) (r : rune) : option automationArgvSplitState :=
  if rune_is r_backslash r && negb (as_inSingle s) then Some (mkSplit (as_argv s) (as_current s) (as_inSingle s) (as_inDouble s) true true)
  else if rune_is r_single r && negb (as_inDouble s) then Some (mkSplit (as_argv s) (as_current s) (negb (as_inSingle s)) (as_inDouble s) (as_escaped s) true)
  else if rune_is r_double r && negb (as_inSingle s) then Some (mkSplit (as_argv s) (as_current s) (as_inSingle s) (negb (as_inDouble s)) (as_escaped s) true)
  else None.

Definition accept (s : automationArgvSplitState) (r : rune) : automationArgvSplitState :=
  if as_escaped s then write_rune s r
  else match acceptQuoteOrEscape s r with
       | Some s => s
       | None =>
           if (rune_is 0x20 r || rune_is 0x09 r) && negb (as_inSingle s) && negb (as_inDouble s) then flushToken s else write_rune s r
       end.

(** The first argument names the command. *)
Definition checked_argv (argv : list string) : result error (list string) :=
  match argv with
  | [] => Err (plain_error "shell argv command is empty")
  | name :: _ => if String.eqb (TrimSpace name) EmptyString then Err (plain_error "shell argv command is empty") else Ok argv
  end.

Definition finish (s : automationArgvSplitState) : result error (list string) :=
  if as_escaped s || as_inSingle s || as_inDouble s then Err (plain_error "shell argv command has unterminated quote or escape")
  else checked_argv (as_argv (flushToken s)).

Definition splitAutomationCommandArgv (command : string) : result error (list string) := finish (foldl accept split_start (runes command)).

(** ** Templates *)

Record commandTemplateQuoteState := mkQuote { qs_inSingle : bool; qs_inDouble : bool; qs_escaped : bool }.

Definition quote_start : commandTemplateQuoteState := mkQuote false false false.

(** The state, and whether the byte was a quote or an escape. *)
Definition quote_accept (s : commandTemplateQuoteState) (ch : ascii) : commandTemplateQuoteState * bool :=
  if qs_escaped s then (mkQuote (qs_inSingle s) (qs_inDouble s) false, true)
  else if byte_is 0x5C ch && negb (qs_inSingle s) then (mkQuote (qs_inSingle s) (qs_inDouble s) true, true)
  else if byte_is 0x27 ch && negb (qs_inDouble s) then (mkQuote (negb (qs_inSingle s)) (qs_inDouble s) (qs_escaped s), true)
  else if byte_is 0x22 ch && negb (qs_inSingle s) then (mkQuote (qs_inSingle s) (negb (qs_inDouble s)) (qs_escaped s), true)
  else (s, false).

Definition inQuote (s : commandTemplateQuoteState) : bool := qs_inSingle s || qs_inDouble s.

Definition startsTemplateAction (template : string) : bool := HasPrefix template "{{".

Fixpoint actions_quoted (s : commandTemplateQuoteState) (template : string) : bool :=
  match template with
  | EmptyString => true
  | String ch rest =>
      let '(s, control) := quote_accept s ch in
      if control then actions_quoted s rest
      else if startsTemplateAction template && negb (inQuote s) then false
      else actions_quoted s rest
  end.

Definition validateCommandTemplateActionsQuoted (commandTemplate : string) : result error unit :=
  guard_err (actions_quoted quote_start commandTemplate)
    (plain_error "shell argv command template actions must be quoted to prevent whitespace splitting").

Definition str_of (n : N) : string := String (ascii_of_N n) EmptyString.

Definition unsafeRenderedShellTokens : list string :=
  [str_of 0; str_of 0x0D; str_of 0x0A; "$("; "$"; "`"; "&&"; "||"; ";"; "|"; "&"; ">"; "<"; "*"; "?"; "["; "]"].

Definition validateRenderedCommandShellSafety (command : string) : result error unit :=
  match List.find (Contains command) unsafeRenderedShellTokens with
  | Some token =>
      Err (Errorf [] (Sprintf "unsafe shell metacharacter %q in rendered command; automation command cards run via argv and do not support shell expansion" [token]))
  | None => Ok tt
  end.

(** ** Cards and results *)

Record AutomationCommandCard := mkCard {
  cc_CardKey : string; cc_Title : string; cc_Description : string; cc_CommandTemplate : string; cc_ArgsSchema : RawMessage;
  cc_RiskLevel : string; cc_Enabled : bool;
}.

Record AutomationCommandResult := mkCommandResult {
  cr_CardKey : string; cr_ExitCode : Z; cr_Stdout : string; cr_Stderr : string; cr_Command : string; cr_Args : json;
}.

(** The environment is a map: its order stands for any order. *)
Record AutomationCommandRunOptions := mkRunOptions {
  opt_CWD : string; opt_WorkspaceRoots : list string; opt_Env : list (string * gval);
}.

Definition validateAutomationCommandPolicy (card : AutomationCommandCard) : result error unit :=
  guard_err (String.eqb (ToLower (TrimSpace (cc_RiskLevel card))) "high") (plain_error "shell execution requires high-risk policy").

Definition normalizeAutomationRunOptions (opts : list AutomationCommandRunOptions) : result error AutomationCommandRunOptions :=
  match opts with
  | [] => Err (plain_error "automation command runner requires run options with cwd and workspace roots")
  | [o] => _ ← validateAutomationCommandEnv (opt_Env o); Ok o
  | _ => Err (plain_error "automation command runner accepts one options object")
  end.

Definition allowedAutomationCommandEnv (env : list (string * gval)) : list string :=
  (fun m => TrimSpace m.1 +:+ "=" +:+ str_val m.2) <$> env.

(** ** Output buffers *)

Record commandOutputBuffer := mkBuffer { ob_label : string; ob_limit : nat; ob_buf : string; ob_total : nat; ob_truncated : bool }.

Definition newCommandOutputBuffer (label : string) (limit : nat) : commandOutputBuffer := mkBuffer label limit EmptyString 0 false.

(** What is written, and the number of bytes that the writer is told. *)
Definition buffer_Write (b : commandOutputBuffer) (p : string) : commandOutputBuffer * nat :=
  let total := ob_total b + String.length p in
  if ob_limit b <=? String.length (ob_buf b)
  then (mkBuffer (ob_label b) (ob_limit b) (ob_buf b) total (ob_truncated b || (0 <? String.length p)), String.length p)
  else
    let remaining := ob_limit b - String.length (ob_buf b) in
    if remaining <? String.length p
    then (mkBuffer (ob_label b) (ob_limit b) (ob_buf b +:+ str_take remaining p) total true, String.length p)
    else (mkBuffer (ob_label b) (ob_limit b) (ob_buf b +:+ p) total (ob_truncated b), String.length p).

Definition buffer_String (b : commandOutputBuffer) : string :=
  if negb (ob_truncated b) then ob_buf b
  else ob_buf b +:+ nl +:+ "[super-dolphin: " +:+ ob_label b +:+ " truncated after " +:+ pretty (ob_limit b) +:+ " bytes; dropped "
         +:+ pretty (ob_total b - String.length (ob_buf b)) +:+ " bytes]" +:+ nl.

Definition buffer_writes (b : commandOutputBuffer) (l : list string) : commandOutputBuffer := foldl (fun b p => (buffer_Write b p).1) b l.

(** ** Paths *)

(** The slash-separated elements of a path. *)
Definition path_elements (p : string) : list string := List.filter (fun e => negb (String.eqb e EmptyString)) (split_on slash p).

(** The elements that are left after the common ones. *)
Fixpoint strip_common (base targ : list string) : list string * list string :=
  match base, targ with
  | b :: base', t :: targ' => if String.eqb b t then strip_common base' targ' else (base, targ)
  | _, _ => (base, targ)
  end.

(** [filepath.Rel] of the Unix builds. *)
Definition Rel (basepath targpath : string) : option string :=
  let base := Clean basepath in
  let targ := Clean targpath in
  if String.eqb targ base then Some "."
  else
    let base := if String.eqb base "." then EmptyString else base in
    if xorb (HasPrefix base "/") (HasPrefix targ "/") then None
    else
      let '(up, down) := strip_common (path_elements base) (path_elements targ) in
      match up with
      | e :: _ => if String.eqb e ".." then None else Some (str_join slash (repeat ".." (length up) ++ down))
      | [] => Some (str_join slash down)
      end.

Definition pathWithinRoot (pathValue root : string) : bool :=
  match Rel root pathValue with
  | None => false
  | Some rel => String.eqb rel "." || negb (String.eqb rel "..") && negb (HasPrefix rel "../")
  end.

Definition pathWithinAnyRoot (pathValue : string) (roots : list string) : bool := existsb (pathWithinRoot pathValue) roots.

(** [filepath.Join] of a directory and a path. *)
Definition join_path (dir p : string) : string := if String.eqb p EmptyString then Clean dir else Clean (dir +:+ "/" +:+ p).

(** ** The machine *)

(** The texts that libraries make: the tables of [unicode], JSON texts read into [any]
    and written, and a template rendered with its data (and missing keys as errors). *)
Class Texts := {
  is_letter : rune -> bool; is_digit : rune -> bool; is_upper : rune -> bool; is_lower : rune -> bool;
  parse_any : string -> option json;
  print_any : json -> string;
  template_render : string -> list (string * json) -> result error string;
}.

(** [exec.Cmd] as it is prepared; [cmd_Err] is what [exec.LookPath] failed with. *)
Record Cmd := mkCmd { cmd_Path : string; cmd_Args : list string; cmd_Dir : string; cmd_Env : list string; cmd_Err : option error }.

(** How a process went: it may not start; it prints, and ends with a code, or with an
    error (an exit code other than 0 among them), or when its time is up. *)
Record ProcessRun := mkProcess {
  pr_started : bool; pr_stdout : list string; pr_stderr : list string; pr_exit : Z; pr_err : option error; pr_timedOut : bool;
}.

Record CommandExecutionAuthorizationRequest := mkAuthRequest { rq_CardKey : string; rq_CWD : string; rq_Executable : string }.
Record CommandExecutionAuthorization := mkAuthorization { az_Subject : string; az_Allowed : bool }.

Definition CommandExecutionAuthorizer : Type := nat -> CommandExecutionAuthorizationRequest -> result error CommandExecutionAuthorization.

Record Machine := mkMachine {
  mc_Getwd : nat -> result error string;
  mc_EvalSymlinks : nat -> string -> result error string;
  mc_LookPath : nat -> string -> string * option error;
  mc_Run : nat -> Cmd -> Z -> ProcessRun;
}.

Definition ErrCommandExecutionAuthorizerUnavailable : string := "ErrCommandExecutionAuthorizerUnavailable".
Definition ErrCommandExecutionPrincipalMissing : string := "ErrCommandExecutionPrincipalMissing".
Definition ErrCommandExecutionDenied : string := "ErrCommandExecutionDenied".
Definition CommandExitError : string := "CommandExitError".

Definition automationCommandStdoutLimitBytes : N := (1024 * 1024)%N.
Definition automationCommandStderrLimitBytes : N := (256 * 1024)%N.

Section runner.
Context `{EN : Env} `{TX : Texts} (m : Machine).

Definition redactText : string -> string := redactSensitiveText is_letter is_digit is_upper is_lower parse_any print_any.

(** *** Paths of the file system *)

Definition Abs (p : string) : IO (result error string) :=
  if IsAbs p then mret (Ok (Clean p))
  else wd ← ask (mc_Getwd m); mret (wd ← wd; Ok (join_path wd p)).

Definition resolve_error (label : string) (e : error) : error := Errorf (err_is e) (Sprintf "resolve command %s: %w" [label]).

Definition canonicalExistingPath (label raw : string) : IO (result error string) :=
  abs ← Abs (TrimSpace raw);
  match abs with
  | Err e => mret (Err (resolve_error label e))
  | Ok abs =>
      canonical ← ask (fun i => mc_EvalSymlinks m i abs);
      mret (match canonical with Err e => Err (resolve_error label e) | Ok canonical => Ok (Clean canonical) end)
  end.

Fixpoint cwdWithinAnyWorkspaceRoot (cwd : string) (roots : list string) : IO bool :=
  match roots with
  | [] => mret false
  | root :: roots =>
      canonicalRoot ← canonicalExistingPath "workspace root" root;
      if match canonicalRoot with Ok root => pathWithinRoot cwd root | Err _ => false end then mret true
      else cwdWithinAnyWorkspaceRoot cwd roots
  end.

Definition resolveAutomationCommandCWD (opts : AutomationCommandRunOptions) : IO (result error string) :=
  let cwd := TrimSpace (opt_CWD opts) in
  if String.eqb cwd EmptyString then mret (Err (plain_error "command cwd is required"))
  else
    canonicalCWD ← canonicalExistingPath "cwd" cwd;
    match canonicalCWD with
    | Err e => mret (Err e)
    | Ok canonicalCWD =>
        if (length (opt_WorkspaceRoots opts) =? 0)%nat then mret (Err (plain_error "command cwd requires allowed workspace roots"))
        else
          inside ← cwdWithinAnyWorkspaceRoot canonicalCWD (opt_WorkspaceRoots opts);
          mret (if inside : bool then Ok canonicalCWD else Err (plain_error "command cwd outside allowed workspace root"))
    end.

Fixpoint canonical_roots (label : string) (index : nat) (roots : list string) : IO (result error (list string)) :=
  match roots with
  | [] => mret (Ok [])
  | root :: roots =>
      if String.eqb (TrimSpace root) EmptyString then mret (Err (Errorf [] (Sprintf "%s[%d] is required" [label; pretty index])))
      else
        resolved ← canonicalExistingPath label root;
        match resolved with
        | Err e => mret (Err (Errorf (err_is e) (Sprintf "%s[%d]: %w" [label; pretty index])))
        | Ok resolved => rest ← canonical_roots label (S index) roots; mret (rest ← rest; Ok (resolved :: rest))
        end
  end.

Definition canonicalWorkspaceRoots (label : string) (roots : list string) : IO (result error (list string)) :=
  if (length roots =? 0)%nat then mret (Err (Errorf [] (Sprintf "%s list is required" [label]))) else canonical_roots label 0 roots.

(** The index of the first root outside the trusted ones. *)
Fixpoint root_outside (index : nat) (roots trusted : list string) : option nat :=
  match roots with
  | [] => None
  | root :: roots => if pathWithinAnyRoot root trusted then root_outside (S index) roots trusted else Some index
  end.

Definition validateWorkspaceScope (cwd : string) (configRoots trustedRoots : list string) : IO (result error unit) :=
  if (length trustedRoots =? 0)%nat then mret (Err (plain_error "trusted workspace roots are required"))
  else
    trusted ← canonicalWorkspaceRoots "trusted workspace root" trustedRoots;
    match trusted with
    | Err e => mret (Err e)
    | Ok trusted =>
        roots ← canonicalWorkspaceRoots "config workspace root" configRoots;
        match roots with
        | Err e => mret (Err e)
        | Ok roots =>
            match root_outside 0 roots trusted with
            | Some index => mret (Err (Errorf [] (Sprintf "config workspace root[%d] outside trusted workspace roots" [pretty index])))
            | None =>
                canonicalCWD ← canonicalExistingPath "cwd" cwd;
                mret (match canonicalCWD with
                      | Err e => Err e
                      | Ok cwd =>
                          if negb (pathWithinAnyRoot cwd roots) then Err (plain_error "automation command cwd outside config workspace roots")
                          else if negb (pathWithinAnyRoot cwd trusted) then Err (plain_error "automation command cwd outside trusted workspace roots")
                          else Ok tt
                      end)
            end
        end
    end.

Definition ValidateAutomationCommandWorkspaceScope (raw : RawMessage) (trustedRoots : list string) : IO (result error unit) :=
  match (_ ← ValidateAutomationCommandDispatchConfig float_fits raw; ParseAutomationConfig raw) with
  | Err e => mret (Err e)
  | Ok cfg =>
      let exec := field "exec" cfg in
      validateWorkspaceScope (str_val (field "cwd" exec)) (strs_val (field "workspace_roots" exec)) trustedRoots
  end.

(** *** Rendering *)

(** The command and the arguments as they are written again. *)
Definition renderCommandTemplate (commandTemplate : string) (args : RawMessage) : result error (string * json) :=
  _ ← guard_err (negb (String.eqb (TrimSpace commandTemplate) EmptyString)) (plain_error "command_template is required");
  _ ← validateCommandTemplateActionsQuoted commandTemplate;
  data ← match args with
         | RawEmpty | RawJSON JNull => Ok []
         | RawJSON (JObj members) =>
             if any_ok float_fits (JObj members) then Ok (map_of ((fun mb => (mb.1, any_value mb.2)) <$> members))
             else Err (plain_error "parse command args: %w")
         | _ => Err (plain_error "parse command args: %w")
         end;
  rendered ← template_render commandTemplate data;
  let command := TrimSpace rendered in
  _ ← guard_err (negb (String.eqb command EmptyString)) (plain_error "rendered command is empty");
  Ok (command, marshal_map data).

(** *** Preparing and running *)

Record preparedAutomationCommand := mkPrepared { pc_cmd : Cmd; pc_command : string; pc_normalizedArgs : json }.

(** [exec.CommandContext]: a bare name is looked up. *)
Definition exec_Command (name : string) (args : list string) (dir : string) (env : list string) : IO Cmd :=
  if Contains name "/" && negb (String.eqb name "/") then mret (mkCmd name (name :: args) dir env None)
  else
    found ← ask (fun i => mc_LookPath m i name);
    let '(lp, err) := found in
    mret (mkCmd (if String.eqb lp EmptyString then name else lp) (name :: args) dir env err).

Definition prepareAutomationCommand (card : AutomationCommandCard) (args : RawMessage) (opts : list AutomationCommandRunOptions)
  : IO (result error preparedAutomationCommand) :=
  match (_ ← validateAutomationCommandPolicy card; normalizeAutomationRunOptions opts) with
  | Err e => mret (Err e)
  | Ok runOpts =>
      cwd ← resolveAutomationCommandCWD runOpts;
      match cwd with
      | Err e => mret (Err e)
      | Ok cwd =>
          match ('(command, normalizedArgs) ← renderCommandTemplate (cc_CommandTemplate card) args;
                 _ ← validateRenderedCommandShellSafety command;
                 argv ← splitAutomationCommandArgv command;
                 Ok (command, normalizedArgs, argv)) with
          | Err e => mret (Err e)
          | Ok (command, normalizedArgs, argv) =>
              cmd ← exec_Command (default EmptyString (head argv)) (tail argv) cwd (allowedAutomationCommandEnv (opt_Env runOpts));
              mret (Ok (mkPrepared cmd command normalizedArgs))
          end
      end
  end.

Definition authorizeCommandExecution (authorizer : option CommandExecutionAuthorizer) (card : AutomationCommandCard) (prepared : preparedAutomationCommand)
  : IO (result error unit) :=
  match authorizer with
  | None => mret (Err (Errorf [ErrCommandExecutionAuthorizerUnavailable] (Sprintf "automation command execution authorizer is unavailable" [])))
  | Some authorizer =>
      decision ← ask (fun i => authorizer i (mkAuthRequest (TrimSpace (cc_CardKey card)) (cmd_Dir (pc_cmd prepared)) (cmd_Path (pc_cmd prepared))));
      mret (match decision with
            | Err e => Err (Errorf (err_is e) (Sprintf "authorize automation command execution: %w" []))
            | Ok decision =>
                let subject := TrimSpace (az_Subject decision) in
                if String.eqb subject EmptyString
                then Err (Errorf [ErrCommandExecutionPrincipalMissing] (Sprintf "automation command execution authorization has no trusted principal" []))
                else if negb (az_Allowed decision) then Err (Errorf [ErrCommandExecutionDenied] (Sprintf "%w for subject %q" [subject]))
                else Ok tt
            end)
  end.

Definition output_text (label : string) (limit : N) (writes : list string) : string :=
  redactText (buffer_String (buffer_writes (newCommandOutputBuffer label (N.to_nat limit)) writes)).

(** A process that did not start has no state, and its code is 0. *)
Definition automationCommandResult (card : AutomationCommandCard) (prepared : preparedAutomationCommand) (run : ProcessRun) : AutomationCommandResult :=
  mkCommandResult (cc_CardKey card) (if pr_started run then pr_exit run else 0%Z)
    (output_text "stdout" automationCommandStdoutLimitBytes (pr_stdout run)) (output_text "stderr" automationCommandStderrLimitBytes (pr_stderr run))
    (redactText (pc_command prepared)) (pc_normalizedArgs prepared).

Definition deadline_exceeded : error := Errorf [DeadlineExceeded] (Sprintf "context deadline exceeded" []).

Definition not_started (e : error) : ProcessRun := mkProcess false [] [] 0 (Some e) false.

(** [cmd.Run()]: nothing is started when the route is canceled or the path was not found. *)
Definition cmd_Run (cmd : Cmd) (timeout : Z) : IO ProcessRun :=
  _ ← heartbeats;
  w ← get_world;
  match w_canceled w, cmd_Err cmd with
  | Some _, _ => mret (not_started context_canceled)
  | None, Some e => mret (not_started e)
  | None, None =>
      run ← ask (fun i => mc_Run m i cmd timeout);
      if pr_started run then _ ← emit (CommandRun (cmd_Dir cmd) (cmd_Path cmd) (cmd_Args cmd) (cmd_Env cmd)); mret run
      else mret (not_started (default (plain_error "exec: not started") (pr_err run)))
  end.

(** [ctx.Err()]: the route is canceled, or the time of the command is up. *)
Definition ctx_Err (timeout : Z) (run : ProcessRun) : IO (option error) :=
  _ ← heartbeats;
  w ← get_world;
  mret (match w_canceled w with
        | Some _ => Some context_canceled
        | None => if (0 <? timeout)%Z && pr_timedOut run then Some deadline_exceeded else None
        end).

(** The error of a command that ran loses its result in every caller. *)
Definition RunCommandCard (authorizer : option CommandExecutionAuthorizer) (timeout : Z) (card : AutomationCommandCard) (args : RawMessage)
    (opts : list AutomationCommandRunOptions) : IO (result error AutomationCommandResult) :=
  prepared ← prepareAutomationCommand card args opts;
  match prepared with
  | Err e => mret (Err e)
  | Ok prepared =>
      authorized ← authorizeCommandExecution authorizer card prepared;
      match authorized with
      | Err e => mret (Err e)
      | Ok _ =>
          run ← cmd_Run (pc_cmd prepared) timeout;
          let result := automationCommandResult card prepared run in
          match pr_err run with
          | None => mret (Ok result)
          | Some err =>
              ctxErr ← ctx_Err timeout run;
              mret (Err (match ctxErr with
                         | Some e => e
                         | None => Errorf (CommandExitError :: err_is err) (Sprintf "command exited with code %d: %v" [pretty (cr_ExitCode result); Error err])
                         end))
          end
      end
  end.
End runner.
