(* ===== verification/AutomationArgs.v ===== *)
(** * Arguments, outputs and directories of a command

    What the parts of the command runner do, each on its own: quoting is undone by the
    splitter, a value inside quotes stays inside one argument, an output buffer keeps
    exactly the first bytes, and a directory is inside a root exactly when the root's
    elements are a prefix of its own. *)

From S2P Require Import Prelude GoStrings SharedFilePath Json DagStore NodeConfig WakeupPayload RunStore WakeupLease RetryPolicy Effects AgentExecutor NodeRouter Redaction AutomationCommand.

(** ** Quoting is undone *)

Definition squote : ascii := ascii_of_N 0x27.
Definition dquote : ascii := ascii_of_N 0x22.

(** A text in single quotes; a single quote of its own stands in double quotes. *)
Definition quote_gap : string := String squote (String dquote (String squote (String dquote (String squote EmptyString)))).

Fixpoint quote_pieces (pieces : list string) : string :=
  match pieces with
  | [] => EmptyString
  | [p] => p
  | p :: pieces => p +:+ quote_gap +:+ quote_pieces pieces
  end.

Definition quote_argument (s : string) : string := String squote (quote_pieces (split_on squote s) +:+ String squote EmptyString).

Fixpoint quote_arguments (l : list string) : string :=
  match l with
  | [] => EmptyString
  | [s] => quote_argument s
  | s :: l => quote_argument s +:+ String " " (quote_arguments l)
  end.

(** Inside single quotes. *)
Definition in_single (argv : list string) (current : string) : automationArgvSplitState := mkSplit argv current true false false true.
(** Between quotes, inside an argument. *)
Definition in_argument (argv : list string) (current : string) : automationArgvSplitState := mkSplit argv current false false false true.

Lemma single_text l argv c :
  Forall (fun r => rune_is r_single r = false) l -> foldl accept (in_single argv c) l = in_single argv (c +:+ encode_runes l).
Proof.
  intros Hl. revert c. induction Hl as [|r l Hr _ IH]; intros c; [by cbn; rewrite str_app_nil_r|].
  cbn [foldl]. replace (accept (in_single argv c) r) with (in_single argv (c +:+ encode_rune r)).
  - rewrite IH, <- str_app_assoc. done.
  - unfold accept, acceptQuoteOrEscape. cbn. rewrite Hr, !andb_false_r. done.
Qed.

(** The runes of a text without single quotes. *)
Lemma runes_no_byte b s :
  is_ascii_byte b = true -> str_forall (fun a => negb (Ascii.eqb a b)) s = true -> Forall (fun r => rune_is (N_of_ascii b) r = false) (runes s).
Proof.
  intros Hb. rewrite <- (chunk_bytes_chunks s) at 1. unfold runes. generalize (chunks_kind s). generalize (chunks s). intros l Hl Hs. rewrite Forall_fmap.
  induction Hl as [|[r bytes] l Hc _ IH]; [constructor|]. cbn in Hs. rewrite str_forall_app in Hs. apply andb_true_iff in Hs as [Hs1 Hs2].
  constructor; [|by apply IH]. cbn. unfold rune_is. apply N.eqb_neq. destruct Hc as [(a & Ha & E)|(Hr & _)].
  - injection E as -> ->. cbn in Hs1. rewrite andb_true_r in Hs1. apply negb_true_iff, Ascii.eqb_neq in Hs1. intros E. apply Hs1.
    by rewrite <- (ascii_N_embedding a), <- (ascii_N_embedding b), E.
  - cbn in Hr. unfold is_ascii_byte in Hb. apply N.ltb_lt in Hb. lia.
Qed.

Definition piece_ok (p : string) : Prop := utf8_valid p /\ str_forall (fun a => negb (Ascii.eqb a squote)) p = true.

Lemma pieces_ok s : utf8_valid s -> Forall piece_ok (split_on squote s) /\ split_on squote s <> [].
Proof.
  assert (split_on squote s <> []) as Hne by (generalize squote; intros q; destruct s as [|a s]; cbn; repeat case_match; done).
  intros Hs. split; [|done]. rewrite <- (str_join_split squote s) in Hs.
  pose proof (split_on_free squote s) as Hq.
  revert Hs Hq Hne. generalize (split_on squote s). intros l. induction l as [|p [|p2 l] IH]; intros Hs Hq Hne; [done| |].
  - inversion Hq; subst. repeat constructor; done.
  - change (str_join squote (p :: p2 :: l)) with (p +:+ String squote (str_join squote (p2 :: l))) in Hs.
    apply utf8_valid_app_ascii in Hs as [Hp Hl]; [|done]. inversion Hq; subst. constructor; [done|]. by apply IH.
Qed.

Lemma pieces_read l argv c rest :
  Forall piece_ok l -> l <> [] ->
  foldl accept (in_single argv c) (runes (quote_pieces l +:+ String squote rest)) = foldl accept (in_argument argv (c +:+ str_join squote l)) (runes rest).
Proof.
  intros Hl. revert c. induction Hl as [|p l [Hv Hq] Hl IH]; intros c Hne; [done|].
  pose proof (runes_no_byte squote p eq_refl Hq) as Hr. destruct l as [|p2 l].
  - cbn [quote_pieces str_join]. rewrite runes_app_ascii, foldl_app, single_text by done. rewrite Hv. done.
  - change (quote_pieces (p :: p2 :: l)) with (p +:+ quote_gap +:+ quote_pieces (p2 :: l)).
    change (str_join squote (p :: p2 :: l)) with (p +:+ String squote (str_join squote (p2 :: l))).
    rewrite <- str_app_assoc. unfold quote_gap. rewrite <- !str_app_assoc, !str_cons_app, str_nil_app.
    rewrite runes_app_ascii, foldl_app, single_text by done. rewrite Hv. cbn [foldl].
    rewrite !runes_cons_ascii by done. cbn [foldl].
    replace (accept _ _) with (in_single argv (c +:+ p +:+ String squote EmptyString)).
    + rewrite IH by done. by rewrite <- !str_app_assoc, str_cons_app, str_nil_app.
    + transitivity (in_single argv ((c +:+ p) +:+ String squote EmptyString)); [by rewrite str_app_assoc|reflexivity].
Qed.

Lemma argument_read s argv rest :
  utf8_valid s -> foldl accept (mkSplit argv EmptyString false false false false) (runes (quote_argument s +:+ rest)) = foldl accept (in_argument argv s) (runes rest).
Proof.
  intros Hs. destruct (pieces_ok s Hs) as [Hp Hne]. unfold quote_argument. rewrite str_cons_app, <- str_app_assoc, str_cons_app, str_nil_app.
  rewrite runes_cons_ascii by done. cbn [foldl].
  change (accept _ _) with (in_single argv EmptyString). rewrite pieces_read by done. by rewrite str_join_split, str_nil_app.
Qed.

Lemma arguments_read l argv :
  Forall utf8_valid l -> l <> [] ->
  exists a s, argv ++ l = a ++ [s] /\ foldl accept (mkSplit argv EmptyString false false false false) (runes (quote_arguments l)) = in_argument a s.
Proof.
  intros Hl. revert argv. induction Hl as [|s l Hs Hl IH]; intros argv Hne; [done|]. destruct l as [|s2 l].
  - exists argv, s. split; [done|]. cbn [quote_arguments]. rewrite <- (str_app_nil_r (quote_argument s)). by rewrite argument_read.
  - change (quote_arguments (s :: s2 :: l)) with (quote_argument s +:+ String " " (quote_arguments (s2 :: l))).
    rewrite argument_read, runes_cons_ascii by done. cbn [foldl].
    destruct (IH (argv ++ [s])) as (a & s' & E & H); [done|]. exists a, s'. split; [by rewrite <- E, <- app_assoc|exact H].
Qed.

(** Quoting is undone: a command that is made of quoted arguments, whatever text they
    hold (spaces, quotes, backslashes, several lines), is split into exactly these
    arguments, when the first of them, the name of the command, is not blank. *)
Theorem argv_roundtrip name args :
  utf8_valid name -> Forall utf8_valid args -> TrimSpace name <> EmptyString ->
  splitAutomationCommandArgv (quote_arguments (name :: args)) = Ok (name :: args).
Proof.
  intros Hn Ha Ht. unfold splitAutomationCommandArgv, split_start. destruct (arguments_read (name :: args) []) as (a & s & E & ->); [by constructor|done|].
  cbn in E. unfold finish. cbn. rewrite <- E. cbn. by apply String.eqb_neq in Ht as ->.
Qed.

Lemma argv_roundtrip_witness :
  splitAutomationCommandArgv (quote_arguments ["git"; "commit"; "-m"; "it's a \ test"; EmptyString]) = Ok ["git"; "commit"; "-m"; "it's a \ test"; EmptyString].
Proof. apply argv_roundtrip; [reflexivity|repeat constructor|done]. Defined.

(** ** A value inside quotes *)

(** The state of the template check after a text. *)
Definition quote_state (s : commandTemplateQuoteState) (text : string) : commandTemplateQuoteState :=
  foldl (fun s ch => (quote_accept s ch).1) s (to_bytes text).

Lemma quote_state_app s x y : quote_state s (x +:+ y) = quote_state (quote_state s x) y.
Proof. unfold quote_state. by rewrite to_bytes_app, foldl_app. Qed.

Lemma actions_quoted_step s ch rest :
  actions_quoted s (String ch rest) =
    (let '(s, control) := quote_accept s ch in
     if control : bool then actions_quoted s rest
     else if startsTemplateAction (String ch rest) && negb (inQuote s) then false else actions_quoted s rest).
Proof. reflexivity. Qed.

(** An action behind a text that does not end in an escape is inside quotes. *)
Lemma action_quoted s l0 rest :
  actions_quoted s (l0 +:+ "{{" +:+ rest) = true -> qs_escaped (quote_state s l0) = false -> inQuote (quote_state s l0) = true.
Proof.
  revert s. induction l0 as [|ch l0 IH]; intros s Hq He.
  - rewrite str_nil_app in Hq. cbn in He. change (quote_state s EmptyString) with s in *. change ("{{" +:+ rest) with (String "{" (String "{" rest)) in Hq.
    rewrite actions_quoted_step in Hq. assert (quote_accept s "{" = (s, false)) as E by (unfold quote_accept; by rewrite He). rewrite E in Hq.
    change (startsTemplateAction (String "{" (String "{" rest))) with true in Hq. by destruct (inQuote s).
  - rewrite str_cons_app, actions_quoted_step in Hq. change (quote_state s (String ch l0)) with (quote_state (quote_accept s ch).1 l0) in *.
    destruct (quote_accept s ch) as [s' control]. cbn [fst] in *. apply IH; [|done]. destruct control; [done|]. by case_match.
Qed.

(** The splitter and the template check agree on quotes. *)
Definition same_quotes (a : automationArgvSplitState) (q : commandTemplateQuoteState) : Prop :=
  as_inSingle a = qs_inSingle q /\ as_inDouble a = qs_inDouble q /\ as_escaped a = qs_escaped q.

Lemma same_quotes_ascii a q ch :
  same_quotes a q -> same_quotes (accept a (N_of_ascii ch)) (quote_accept q ch).1.
Proof.
  intros (H1 & H2 & H3). unfold accept, acceptQuoteOrEscape, quote_accept, byte_is, rune_is, r_backslash, r_single, r_double.
  rewrite H1, H2, H3, !(N.eqb_sym (N_of_ascii ch)). destruct (qs_escaped q) eqn:He; [done|]. unfold flushToken.
  destruct (_ && negb (qs_inSingle q)); [done|]. destruct (_ && negb (qs_inDouble q)); [by split_and!; cbn; rewrite ?H1, ?H2|].
  destruct (_ && negb (qs_inSingle q)); [by split_and!; cbn; rewrite ?H1, ?H2|]. repeat case_match; by split_and!; cbn; rewrite ?H1, ?H2, ?H3, ?He.
Qed.

Lemma high_byte ch n : is_ascii_byte ch = false -> (n < 0x80)%N -> byte_is n ch = false.
Proof. unfold is_ascii_byte, byte_is. intros H Hn. apply N.ltb_ge in H. apply N.eqb_neq. lia. Qed.

(** Bytes that are not ASCII only end an escape. *)
Lemma quote_state_high q text :
  str_forall (fun a => negb (is_ascii_byte a)) text = true -> text <> EmptyString ->
  quote_state q text = mkQuote (qs_inSingle q) (qs_inDouble q) false.
Proof.
  assert (forall q ch, is_ascii_byte ch = false -> (quote_accept q ch).1 = mkQuote (qs_inSingle q) (qs_inDouble q) false) as Hstep.
  { intros q' ch Hc. unfold quote_accept. rewrite !high_byte by done. destruct q' as [s d e]. by destruct e. }
  intros Ht Hne. revert q. induction text as [|ch text IH]; [done|]. cbn in Ht. apply andb_true_iff in Ht as [Hc%negb_true_iff Ht]. intros q.
  change (quote_state q (String ch text)) with (quote_state (quote_accept q ch).1 text). rewrite Hstep by done.
  destruct text as [|ch2 text]; [done|]. by rewrite IH.
Qed.

Lemma same_quotes_high a q r : (0x80 <= r)%N -> same_quotes a q -> same_quotes (accept a r) (mkQuote (qs_inSingle q) (qs_inDouble q) false).
Proof.
  intros Hr (H1 & H2 & H3). unfold accept, acceptQuoteOrEscape, rune_is, r_backslash, r_single, r_double.
  assert (forall n, (n < 0x80)%N -> (r =? n)%N = false) as Hn by (intros; apply N.eqb_neq; lia). rewrite !Hn by lia. cbn. by case_match.
Qed.

Lemma same_quotes_text a q text :
  same_quotes a q -> same_quotes (foldl accept a (runes text)) (quote_state q text).
Proof.
  rewrite <- (chunk_bytes_chunks text) at 2. unfold runes. generalize (chunks_kind text). generalize (chunks text). intros l Hl.
  revert a q. induction Hl as [|[r b] l Hc _ IH]; intros a q Hq; [done|]. cbn [fmap list_fmap fst foldl chunk_bytes]. rewrite quote_state_app.
  apply IH. destruct Hc as [(ch & Hch & E)|(Hr & Hne & Hb)].
  - injection E as -> ->. by apply same_quotes_ascii.
  - cbn in *. rewrite quote_state_high by done. by apply same_quotes_high.
Qed.

(** A value that holds no quote and no backslash. *)
Definition plain_rune (r : rune) : bool := negb (rune_is r_backslash r || rune_is r_single r || rune_is r_double r).
Definition plain_value (v : string) : bool := forallb plain_rune (runes v).

Definition with_text (s : automationArgvSplitState) (text : string) : automationArgvSplitState :=
  mkSplit (as_argv s) (as_current s +:+ text) (as_inSingle s) (as_inDouble s) false true.

Lemma quoted_runes l s :
  forallb plain_rune l = true -> as_inSingle s || as_inDouble s = true -> as_escaped s = false -> as_tokenWasStarted s = true ->
  foldl accept s l = with_text s (encode_runes l).
Proof.
  revert s. induction l as [|r l IH]; intros s Hl Hq He Ht.
  - destruct s. cbn in *. subst. unfold with_text. cbn. by rewrite str_app_nil_r.
  - cbn in Hl. apply andb_true_iff in Hl as [Hr Hl]. cbn [foldl].
    assert (accept s r = write_rune s r) as ->.
    { unfold accept, acceptQuoteOrEscape. unfold plain_rune in Hr. go_bool.
      repeat match goal with H : rune_is _ r = false |- _ => rewrite H end. cbn. rewrite He. destruct (as_inSingle s), (as_inDouble s); try done; by rewrite ?andb_false_r. }
    rewrite IH by done. unfold with_text, write_rune. cbn. by rewrite <- str_app_assoc.
Qed.

(** The states of a splitter that has read some of an argument: how the argument goes
    on ([post]), and what was read behind its end. *)
Record progress := mkProgress { pg_post : string; pg_more : option (list string * string * bool); pg_single : bool; pg_double : bool; pg_escaped : bool }.

Definition at_progress (p : progress) (argv : list string) (c : string) : automationArgvSplitState :=
  match pg_more p with
  | None => mkSplit argv (c +:+ pg_post p) (pg_single p) (pg_double p) (pg_escaped p) true
  | Some (l, current, started) => mkSplit (argv ++ (c +:+ pg_post p) :: l) current (pg_single p) (pg_double p) (pg_escaped p) started
  end.

(** The cases of one rune. *)
Ltac accept_cases :=
  unfold accept, acceptQuoteOrEscape, flushToken, write_rune;
  repeat (cbn [as_argv as_current as_inSingle as_inDouble as_escaped as_tokenWasStarted];
    match goal with |- context [if ?b then _ else _] => lazymatch b with context [if _ then _ else _] => fail | _ => destruct b eqn:? end end);
  cbn [as_argv as_current as_inSingle as_inDouble as_escaped as_tokenWasStarted app].

(** One rune takes such states to such states, the same way for every argument. *)
Lemma progress_step p r : exists p', forall argv c, accept (at_progress p argv c) r = at_progress p' argv c.
Proof.
  destruct p as [post [[[l current] started]|] s d e]; unfold at_progress; cbn [pg_post pg_more pg_single pg_double pg_escaped].
  - exists (let a := accept (mkSplit l current s d e started) r in mkProgress post (Some (as_argv a, as_current a, as_tokenWasStarted a)) (as_inSingle a) (as_inDouble a) (as_escaped a)).
    intros argv c. cbn [pg_post pg_more pg_single pg_double pg_escaped]. accept_cases; by rewrite <- ?app_assoc.
  - exists (let a := accept (mkSplit [] EmptyString s d e true) r in
            mkProgress (match as_argv a with [] => post +:+ as_current a | _ => post end)
              (match as_argv a with [] => None | _ => Some ([], EmptyString, false) end) (as_inSingle a) (as_inDouble a) (as_escaped a)).
    intros argv c. cbn [pg_post pg_more pg_single pg_double pg_escaped]. accept_cases; by rewrite <- ?str_app_assoc, ?str_nil_app, ?str_app_nil_r.
Qed.

Lemma progress_read l p : exists p', forall argv c, foldl accept (at_progress p argv c) l = at_progress p' argv c.
Proof.
  revert p. induction l as [|r l IH]; intros p; [by exists p|]. destruct (progress_step p r) as [p1 H1]. destruct (IH p1) as [p2 H2].
  exists p2. intros argv c. cbn [foldl]. by rewrite H1.
Qed.

(** In quotes an argument has begun. *)
Lemma quoted_started l : let s := foldl accept split_start l in as_inSingle s || as_inDouble s = true -> as_tokenWasStarted s = true.
Proof.
  cbn zeta. induction l as [|r l IH] using rev_ind; [done|]. rewrite foldl_snoc. destruct (foldl accept split_start l) as [argv c s d e t]. cbn in IH.
  destruct s, d; cbn in IH; accept_cases; try done; try (by apply IH); try (by intros _; apply IH);
    repeat match goal with H : _ && false = true |- _ => by rewrite andb_false_r in H | H : _ && negb _ = true |- _ => cbn in H; rewrite ?andb_false_r in H end; done.
Qed.

(** A value stays inside one argument: when the check of a template passes, and a
    backslash does not stand before the action, then every value without quotes and
    backslashes that is put in the place of the action (spaces, tabs and option signs
    included) becomes a part of one argument; the other arguments, and the rest of this
    one, do not depend on it. *)
Theorem quoted_value_one_argument l0 action l1 :
  validateCommandTemplateActionsQuoted (l0 +:+ "{{" +:+ action) = Ok tt ->
  utf8_valid l0 -> qs_escaped (quote_state quote_start l0) = false ->
  (exists e, forall v, utf8_valid v -> plain_value v = true -> splitAutomationCommandArgv (l0 +:+ v +:+ l1) = Err e)
  \/ exists before pre post after, forall v, utf8_valid v -> plain_value v = true ->
       splitAutomationCommandArgv (l0 +:+ v +:+ l1) = checked_argv (before ++ (pre +:+ v +:+ post) :: after).
Proof.
  intros Hc Hl0 He. unfold validateCommandTemplateActionsQuoted in Hc. destruct (actions_quoted _ _) eqn:Hq; [|done].
  pose proof (action_quoted _ _ _ Hq He) as Hin. pose proof (same_quotes_text split_start quote_start l0 ltac:(done)) as (H1 & H2 & H3).
  pose proof (quoted_started (runes l0)) as Hs. cbn zeta in Hs. unfold inQuote in Hin. rewrite <- H1, <- H2 in Hin. specialize (Hs Hin). rewrite He in H3.
  set (s := foldl accept split_start (runes l0)) in *. destruct (progress_read (runes l1) (mkProgress EmptyString None (as_inSingle s) (as_inDouble s) false)) as [p Hp].
  assert (forall v, utf8_valid v -> plain_value v = true -> foldl accept split_start (runes (l0 +:+ v +:+ l1)) = at_progress p (as_argv s) (as_current s +:+ v)) as Hv.
  { intros v Hval Hpl. rewrite !runes_app_valid, !foldl_app by done. fold s. rewrite (quoted_runes (runes v) s) by done. rewrite Hval.
    rewrite <- Hp. unfold at_progress, with_text. cbn. by rewrite str_app_nil_r. }
  unfold splitAutomationCommandArgv, finish. destruct p as [post more sg db es]. unfold at_progress in Hv. cbn in Hv.
  destruct (es || sg || db) eqn:Hopen; [left; eexists; intros v H H'; rewrite Hv by done; destruct more as [[[l cur] st]|]; cbn; rewrite Hopen; reflexivity|].
  right. exists (as_argv s), (as_current s), post. destruct more as [[[l cur] st]|].
  - exists (l ++ if st then [cur] else []). intros v H H'. rewrite Hv by done. cbn. rewrite Hopen. unfold flushToken. cbn.
    destruct st; cbn; rewrite ?app_nil_r, <- ?app_assoc; cbn; by rewrite <- str_app_assoc.
  - exists []. intros v H H'. rewrite Hv by done. cbn. rewrite Hopen. unfold flushToken. cbn. by rewrite <- str_app_assoc.
Qed.

Lemma quoted_value_one_argument_witness :
  (exists e, forall v, utf8_valid v -> plain_value v = true -> splitAutomationCommandArgv ("deploy '" +:+ v +:+ "' --dry-run") = Err e)
  \/ exists before pre post after, forall v, utf8_valid v -> plain_value v = true ->
       splitAutomationCommandArgv ("deploy '" +:+ v +:+ "' --dry-run") = checked_argv (before ++ (pre +:+ v +:+ post) :: after).
Proof. apply (quoted_value_one_argument "deploy '" ".env}}' --dry-run"); reflexivity. Defined.

(** A value with a quote leaves its place: one value becomes several arguments, and no
    check of the rendered command sees it. *)
Example quote_in_value_adds_arguments :
  validateCommandTemplateActionsQuoted "deploy '{{.env}}'" = Ok tt
  /\ validateRenderedCommandShellSafety "deploy 'x' --force 'y'" = Ok tt
  /\ splitAutomationCommandArgv "deploy 'x' --force 'y'" = Ok ["deploy"; "x"; "--force"; "y"].
Proof. vm_compute. done. Qed.

(** A backslash hides an action from the check: the action is outside quotes, and a value
    with a space is split. *)
Example escaped_action_is_unquoted :
  validateCommandTemplateActionsQuoted "deploy {{.env}}" = Err (plain_error "shell argv command template actions must be quoted to prevent whitespace splitting")
  /\ validateCommandTemplateActionsQuoted "deploy \{{.env}}" = Ok tt
  /\ splitAutomationCommandArgv "deploy \prod --force" = Ok ["deploy"; "prod"; "--force"].
Proof. vm_compute. done. Qed.

(** ** Output buffers *)

Fixpoint str_concat (l : list string) : string := match l with [] => EmptyString | s :: l => s +:+ str_concat l end.

Lemma str_concat_snoc l s : str_concat (l ++ [s]) = str_concat l +:+ s.
Proof. induction l as [|x l IH]; cbn; [by rewrite str_app_nil_r|]. by rewrite IH, str_app_assoc. Qed.

Lemma str_take_app_gt n (x y : string) : String.length x <= n -> str_take n (x +:+ y) = x +:+ str_take (n - String.length x) y.
Proof.
  revert n. induction x as [|a x IH]; intros n Hn; [cbn; by rewrite Nat.sub_0_r|]. destruct n as [|n]; [cbn in Hn; lia|].
  rewrite !str_cons_app. cbn in *. rewrite IH by lia. done.
Qed.

Lemma str_take_all n s : String.length s <= n -> str_take n s = s.
Proof. revert n. induction s as [|a s IH]; intros [|n] Hn; cbn in *; try done; [lia|]. rewrite IH by lia. done. Qed.

(** What a buffer holds after these bytes. *)
Definition holds (b : commandOutputBuffer) (label : string) (limit : nat) (out : string) : Prop :=
  b = mkBuffer label limit (str_take limit out) (String.length out) (limit <? String.length out).

Lemma holds_write b label limit out p : holds b label limit out -> holds (buffer_Write b p).1 label limit (out +:+ p).
Proof.
  intros ->. unfold holds, buffer_Write. cbn [ob_limit ob_buf ob_total ob_label ob_truncated]. rewrite str_length_app.
  destruct (Nat.leb_spec limit (String.length out)) as [Hle|Hgt].
  - rewrite str_take_length, Nat.leb_refl by done. cbn [fst]. rewrite str_take_app_le by done. f_equal.
    destruct (Nat.ltb_spec limit (String.length out)), (Nat.ltb_spec 0 (String.length p)), (Nat.ltb_spec limit (String.length out + String.length p)); (done || lia).
  - rewrite (str_take_all limit out) by lia. destruct (Nat.leb_spec limit (String.length out)); [lia|]. rewrite str_take_app_gt by lia.
    destruct (Nat.ltb_spec (limit - String.length out) (String.length p)) as [Hp|Hp]; cbn [fst]; f_equal.
    + symmetry. apply Nat.ltb_lt. lia.
    + by rewrite str_take_all.
    + destruct (Nat.ltb_spec limit (String.length out)), (Nat.ltb_spec limit (String.length out + String.length p)); (done || lia).
Qed.

Lemma holds_writes label limit writes : holds (buffer_writes (newCommandOutputBuffer label limit) writes) label limit (str_concat writes).
Proof.
  unfold buffer_writes. induction writes as [|p writes IH] using rev_ind.
  - unfold holds, newCommandOutputBuffer. cbn. destruct limit; done.
  - rewrite foldl_snoc, str_concat_snoc. by apply holds_write.
Qed.

(** The note at the end of an output that was cut. *)
Definition truncation_note (label : string) (limit dropped : nat) : string :=
  nl +:+ "[super-dolphin: " +:+ label +:+ " truncated after " +:+ pretty limit +:+ " bytes; dropped " +:+ pretty dropped +:+ " bytes]" +:+ nl.

(** An output buffer keeps exactly the first bytes, in whatever pieces they are
    written: an output that fits is given back as it is, a longer one as its first
    [limit] bytes and the number of the others; a writer is always told that all of its
    bytes were taken, so that the command is never blocked. *)
Theorem output_buffer_exact label limit writes :
  let b := buffer_writes (newCommandOutputBuffer label limit) writes in
  let out := str_concat writes in
  buffer_String b = (if String.length out <=? limit then out else str_take limit out +:+ truncation_note label limit (String.length out - limit))
  /\ String.length (ob_buf b) <= limit
  /\ forall p, (buffer_Write b p).2 = String.length p.
Proof.
  cbn zeta. split_and!.
  - rewrite (holds_writes label limit writes). unfold buffer_String. cbn [ob_truncated ob_buf ob_label ob_limit ob_total].
    destruct (Nat.ltb_spec limit (String.length (str_concat writes))) as [H|H], (Nat.leb_spec (String.length (str_concat writes)) limit); try lia; cbn.
    + by rewrite str_take_length by lia.
    + by apply str_take_all.
  - rewrite (holds_writes label limit writes). cbn. destruct (Nat.le_gt_cases limit (String.length (str_concat writes))).
    + by rewrite str_take_length.
    + rewrite str_take_all by lia. lia.
  - intros p. unfold buffer_Write. by repeat case_match.
Qed.

(** ** Directories *)

(** The elements of the cleaned path. *)
Definition clean_elements (p : string) : list string := path_elements (Clean p).

Lemma rooted_clean segs l :
  Forall plain_segment l -> Forall slash_free segs -> Forall plain_segment (foldl (clean_step true) l segs).
Proof.
  revert l. induction segs as [|seg segs IH]; intros l Hl Hs; [done|]. inversion Hs; subst. cbn [foldl]. apply IH; [|done]. unfold clean_step.
  destruct (String.eqb_spec seg EmptyString), (String.eqb_spec seg "."); cbn; try done. destruct (String.eqb_spec seg "..") as [->|].
  - destruct l as [|top l]; [done|]. inversion Hl as [|? ? (_ & _ & Htop & _)]; subst. by destruct (String.eqb_spec top "..").
  - by constructor.
Qed.

Lemma elements_join l : Forall plain_segment l -> path_elements (String slash (str_join slash l)) = l.
Proof.
  intros Hl. unfold path_elements. replace (split_on slash (String slash (str_join slash l))) with (EmptyString :: split_on slash (str_join slash l)) by reflexivity.
  cbn [List.filter]. change (negb (String.eqb EmptyString EmptyString)) with false. cbn iota.
  destruct l as [|x l]; [done|]. rewrite split_join by (done || by apply plain_slash_free).
  revert Hl. generalize (x :: l). clear x l. intros l Hl. induction Hl as [|y l (Hy & _) _ IH]; [done|]. cbn. apply String.eqb_neq in Hy as ->. cbn. by rewrite IH.
Qed.

Lemma clean_absolute p : IsAbs p = true -> Clean p = String slash (str_join slash (clean_elements p)) /\ Forall plain_segment (clean_elements p).
Proof.
  unfold IsAbs, clean_elements. intros Hp. unfold Clean. rewrite Hp.
  pose proof (rooted_clean (split_on slash p) [] ltac:(constructor) (split_on_slashfree p)) as Hl. apply Forall_rev in Hl.
  revert Hl. generalize (rev (foldl (clean_step true) [] (split_on slash p))). intros l Hl. by rewrite elements_join.
Qed.

Lemma strip_common_prefix base targ : fst (strip_common base targ) = [] <-> base `prefix_of` targ.
Proof.
  revert targ. induction base as [|b base IH]; intros targ; [split; [intros _; apply prefix_nil|done]|]. destruct targ as [|t targ].
  - split; [done|]. intros H. by apply prefix_nil_not in H.
  - cbn. destruct (String.eqb_spec b t) as [->|Hne].
    + rewrite IH. split; [apply prefix_cons|apply prefix_cons_inv_2].
    + split; [done|]. intros H. by apply prefix_cons_inv_1 in H.
Qed.

Lemma strip_common_suffix base targ : exists b, base = b ++ fst (strip_common base targ) /\ targ = b ++ snd (strip_common base targ).
Proof.
  revert targ. induction base as [|b base IH]; intros [|t targ]; [by exists []..|]. cbn. destruct (String.eqb_spec b t) as [->|]; [|by exists []].
  destruct (IH targ) as (x & H1 & H2). exists (t :: x). cbn. by rewrite <- H1, <- H2.
Qed.

(** A path of real segments is neither a parent step nor behind one. *)
Lemma join_plain l : Forall plain_segment l -> l <> [] -> str_join slash l <> ".." /\ HasPrefix (str_join slash l) "../" = false /\ str_join slash l <> ".".
Proof.
  intros Hl Hne. pose proof (split_join l Hne (plain_slash_free _ Hl)) as Hs. destruct l as [|x l]; [done|]. inversion Hl as [|? ? (_ & H1 & H2 & _)]; subst.
  split_and!.
  - intros E. rewrite E in Hs. cbn in Hs. by simplify_eq.
  - apply not_true_iff_false. intros Hp. apply HasPrefix_iff in Hp as [t E].
    change ("../" +:+ t) with (".." +:+ String slash t) in E. rewrite E, (split_on_app slash ".." t eq_refl) in Hs. by simplify_eq.
  - intros E. rewrite E in Hs. cbn in Hs. by simplify_eq.
Qed.

(** A directory is inside a root exactly when the elements of the root, in their
    cleaned form, are the first elements of the directory: neither a name that begins
    like the root's nor a parent step passes. *)
Theorem pathWithinRoot_exact p root :
  IsAbs p = true -> IsAbs root = true -> pathWithinRoot p root = true <-> clean_elements root `prefix_of` clean_elements p.
Proof.
  intros Hp Hr. destruct (clean_absolute p Hp) as [Ep Fp], (clean_absolute root Hr) as [Er Fr].
  unfold pathWithinRoot, Rel. destruct (String.eqb_spec (Clean p) (Clean root)) as [E|Hne].
  { split; [intros _|done]. unfold clean_elements. by rewrite E. }
  destruct (String.eqb_spec (Clean root) ".") as [E|_]; [by rewrite Er in E|].
  change (path_elements (Clean root)) with (clean_elements root). change (path_elements (Clean p)) with (clean_elements p).
  assert (xorb (HasPrefix (Clean root) "/") (HasPrefix (Clean p) "/") = false) as -> by (rewrite Ep, Er; done).
  rewrite <- strip_common_prefix. destruct (strip_common_suffix (clean_elements root) (clean_elements p)) as (b & E1 & E2).
  destruct (strip_common (clean_elements root) (clean_elements p)) as [up down]. cbn [fst snd] in *.
  rewrite E1 in Fr. rewrite E2 in Fp. apply Forall_app in Fr as [_ Fr], Fp as [_ Fp]. destruct up as [|e up].
  - split; [done|intros _]. assert (down <> []) as Hd. { intros ->. apply Hne. by rewrite Ep, Er, E1, E2. }
    destruct (join_plain down Fp Hd) as (H1 & H2 & _). apply String.eqb_neq in H1. by rewrite H1, H2, orb_true_r.
  - split; [|done]. inversion Fr as [|? ? (_ & _ & He & _)]; subst. apply String.eqb_neq in He as ->.
    destruct (join_parents down (length up)) as [E|E]; cbn [length]; [by rewrite E|]. rewrite E, andb_false_r, orb_false_r.
    destruct (String.eqb_spec (str_join slash (repeat ".." (S (length up)) ++ down)) ".") as [Ed|_]; [|done]. by rewrite Ed in E.
Qed.

Lemma pathWithinRoot_exact_witness :
  pathWithinRoot "/work/app/src" "/work/./app/" = true /\ pathWithinRoot "/work/app-2" "/work/app" = false
  /\ clean_elements "/work/./app/" `prefix_of` clean_elements "/work/app/src".
Proof. split_and!; [reflexivity..|]. apply (pathWithinRoot_exact "/work/app/src" "/work/./app/"); reflexivity. Defined.
