(* ===== verification/AutomationExecutor.v ===== *)
(** * Automation nodes

    Models [nodeexec/executor_automation.go], the inputs half of
    [nodeexec/executor_automation_prompt.go], [nodeexec/executor_automation_decode.go] and
    the outputs half of [nodeexec/executor_automation_result.go]: an automation node reads
    its command card, gets its inputs, runs the command, and writes its result and its
    shared file.  The writer of shared files, which the code has in the run context, is a
    field of the executor. *)

From S2P Require Import Prelude GoStrings Json DagStore NodeConfig WakeupPayload RunStore WakeupLease RetryPolicy Effects AgentExecutor NodeRouter Subscriber Redaction AutomationCommand.

(** A request to a writer that keeps metadata. *)
Record SharedFileWriteRequest := mkWriteRequest {
  sw_Path : string; sw_Content : string; sw_ContentType : string; sw_OwnerNode : string; sw_ProducerActor : string; sw_RunID : Z;
}.

Inductive AutomationFileWriter :=
| PlainWriter (write : SharedFileWriter)
| MetadataWriter (write : nat -> SharedFileWriteRequest -> option error).

Section executor.
Context `{EN : Env} `{TX : Texts}.

Definition failedAutomationOutcome (class summary : string) : NodeOutcome := failed_outcome class (truncateErrSummary summary).

(** ** Classes of errors *)

Definition automationValidationKeywords : list string :=
  ["parse"; "decode"; "unmarshal"; "marshal"; "json"; "template"; "required"; "missing key"; "unsafe shell metacharacter"; "shell argv"; "shell expansion"].

Definition automationNotFoundKeywords : list string := ["not found"; "no such command"; "unknown command"].

Definition automationTransientKeywords : list string :=
  ["deadline exceeded"; "timeout"; "timed out"; "i/o timeout"; "connection refused"; "connection reset"; "temporary"; "temporarily"; "rate limit";
   "rate-limit"; "rate_limit"; "too many requests"; "http 429"; "status 429"].

Definition automationInfrastructureKeywords : list string :=
  ["database"; "sqlite"; "sql"; "transport unavailable"; "service unavailable"; "bad gateway"; "gateway timeout"; "http 500"; "http 502"; "http 503"; "http 504"].

Definition containsAny : string -> list string -> bool := contains_any.

Definition classifyAutomationError (err : option error) : string :=
  match err with
  | None => FailureClassTransient
  | Some e =>
      if errors_Is e CommandExitError then FailureClassHard
      else if errors_Is e DeadlineExceeded || errors_Is e Canceled then FailureClassTransient
      else
        let msg := ToLower (Error e) in
        if containsAny msg automationValidationKeywords then FailureClassValidation
        else if containsAny msg automationNotFoundKeywords then FailureClassHard
        else if containsAny msg automationTransientKeywords then FailureClassTransient
        else if containsAny msg automationInfrastructureKeywords then FailureClassInfrastructure
        else FailureClassHard
  end.

(** ** Configuration *)

Definition parseExecutableAutomationConfig (raw : RawMessage) : result NodeOutcome gval :=
  match ParseAutomationConfig raw with
  | Err e => Err (failedAutomationOutcome FailureClassValidation ("decode automation config: " +:+ Error e))
  | Ok cfg =>
      let exec := field "exec" cfg in
      let kind := str_val (field "kind" exec) in
      if negb (String.eqb kind AutomationKindCommandCard)
      then Err (failedAutomationOutcome FailureClassValidation ("unsupported automation.kind: " +:+ Quote kind))
      else if String.eqb (TrimSpace (str_val (field "command_ref" exec))) EmptyString
      then Err (failedAutomationOutcome FailureClassValidation "command_ref required in node.config.exec")
      else Ok cfg
  end.

Definition automationOutputsForbiddenKeys : list string :=
  ["prompt"; "first_turn"; "agent_prompt"; "system_prompt"; "append_error"; "agent_key"; "model"; "provider"; "language"; "tool_choice"; "tools"].

Definition validateAutomationOutputs (raw : RawMessage) : option NodeOutcome :=
  validateOutputsForbiddenKeys raw automationOutputsForbiddenKeys (fun key =>
    failedAutomationOutcome FailureClassValidation ("automation outputs cannot include agent-prompt or agent-routing field " +:+ Quote key)).

(** 0 is no timeout; the timeout of the context is that of the DAG. *)
Definition automationCommandContext (contextTimeout : Z) (cfg : gval) : result NodeOutcome Z :=
  match ExecutionTimeout (field "execution" cfg) with
  | Err e => Err (failedAutomationOutcome FailureClassValidation ("automation execution timeout invalid: " +:+ Error e))
  | Ok nodeTimeout => let timeout := default contextTimeout nodeTimeout in Ok (if (timeout <=? 0)%Z then 0%Z else timeout)
  end.

Definition automationCommandRunOptionsFromConfig (cfg : gval) : AutomationCommandRunOptions :=
  let exec := field "exec" cfg in
  mkRunOptions (str_val (field "cwd" exec)) (strs_val (field "workspace_roots" exec)) (map_val (field "env" exec)).

(** ** Inputs *)

Definition decodeArgsForInjection (raw : RawMessage) : result NodeOutcome (list (string * json)) :=
  argsMap ← match raw with
            | RawEmpty | RawJSON JNull => Ok []
            | RawJSON (JObj members) =>
                if any_ok float_fits (JObj members) then Ok (map_of ((fun mb => (mb.1, any_value mb.2)) <$> members))
                else Err (failedAutomationOutcome FailureClassValidation "decode command args: %w")
            | _ => Err (failedAutomationOutcome FailureClassValidation "decode command args: %w")
            end;
  match get "__inputs" argsMap with
  | Some _ => Err (failedAutomationOutcome FailureClassValidation
                ("command args already define reserved key " +:+ dq +:+ "__inputs" +:+ dq +:+ "; remove it before injecting Inputs config"))
  | None => Ok argsMap
  end.

(** A result that is no JSON is given as its text. *)
Definition decoded_result (raw : RawMessage) : json :=
  match raw with
  | RawEmpty => JNull
  | RawBad => JStr (raw_text raw)
  | RawJSON j => if any_ok float_fits j then any_value j else JStr (raw_text raw)
  end.

Fixpoint collectPrevResults (fromNodes : list string) (prev : list (string * RawMessage)) : result NodeOutcome (list (string * json)) :=
  match fromNodes with
  | [] => Ok []
  | key :: fromNodes =>
      let k := TrimSpace key in
      if String.eqb k EmptyString then collectPrevResults fromNodes prev
      else match get k prev with
           | None => Err (failedAutomationOutcome FailureClassValidation ("inputs.from_nodes: missing prev result for node_key " +:+ Quote k))
           | Some raw => rest ← collectPrevResults fromNodes prev; Ok (set k (decoded_result raw) rest)
           end
  end.

Fixpoint collect_files (paths : list string) (reader : SharedFileReader) : IO (result NodeOutcome (list (string * json))) :=
  match paths with
  | [] => mret (Ok [])
  | p :: paths =>
      let path := TrimSpace p in
      if String.eqb path EmptyString then collect_files paths reader
      else
        answer ← ask (fun i => reader i path);
        match answer with
        | Err e => mret (Err (failedAutomationOutcome (classifyAutomationError (Some e)) ("inputs.from_sharedfiles[" +:+ Quote path +:+ "]: " +:+ Error e)))
        | Ok None => mret (Err (failedAutomationOutcome FailureClassValidation ("inputs.from_sharedfiles references unknown path " +:+ Quote path)))
        | Ok (Some content) => rest ← collect_files paths reader; mret (rest ← rest; Ok (set path (JStr content) rest))
        end
  end.

Definition collectSharedfileInputs (paths : list string) (reader : option SharedFileReader) : IO (result NodeOutcome (list (string * json))) :=
  if (length paths =? 0)%nat then mret (Ok [])
  else match reader with
       | None => mret (Err (failedAutomationOutcome FailureClassValidation "inputs.from_sharedfiles configured but SharedFileReader not wired in RunContext"))
       | Some reader => collect_files paths reader
       end.

Definition input_member (key : string) (members : list (string * json)) : list (string * json) :=
  match members with [] => [] | _ => [(key, marshal_map members)] end.

Definition buildInputsPayload (inputs : gval) (runCtx : RunContext) : IO (result NodeOutcome json) :=
  match collectPrevResults (strs_val (field "from_nodes" inputs)) (default [] (rc_PrevResults runCtx)) with
  | Err failure => mret (Err failure)
  | Ok fromNodes =>
      fromShared ← collectSharedfileInputs (strs_val (field "from_sharedfiles" inputs)) (rc_SharedFileReader runCtx);
      mret (fromShared ← fromShared; Ok (JObj (input_member "from_nodes" fromNodes ++ input_member "from_sharedfiles" fromShared)))
  end.

Definition buildAutomationRunArgs (cfg : gval) (runCtx : RunContext) : IO (result NodeOutcome RawMessage) :=
  let inputs := field "inputs" cfg in
  let args := raw_val (field "args" (field "exec" cfg)) in
  if negb (inputsConfigured inputs) then mret (Ok args)
  else match decodeArgsForInjection args with
       | Err failure => mret (Err failure)
       | Ok argsMap =>
           injected ← buildInputsPayload inputs runCtx;
           mret (injected ← injected; Ok (RawJSON (reencode (marshal_map (set "__inputs" injected argsMap)))))
       end.

(** ** Outputs *)

Definition NodeResultSizeCapBytes : Z := 4096.

Definition omit_empty (key value : string) : list (string * json) := if String.eqb value EmptyString then [] else [(key, JStr value)].

Definition automationCommandResultPayload (result : AutomationCommandResult) : RawMessage :=
  ScrubAutomationResultPayload is_letter is_digit is_upper is_lower parse_any print_any float_fits reencode
    (RawJSON (reencode (JObj ([("card_key", JStr (cr_CardKey result)); ("exit_code", JNum (pretty (cr_ExitCode result)))]
       ++ omit_empty "stdout" (cr_Stdout result) ++ omit_empty "stderr" (cr_Stderr result) ++ omit_empty "command" (cr_Command result))))).

Definition enforceNodeResultSizeCap (payload : RawMessage) : option NodeOutcome :=
  if (byte_len payload <=? NodeResultSizeCapBytes)%Z then None
  else Some (failedAutomationOutcome FailureClassValidation
         ("result exceeds 4KB size cap (" +:+ pretty (byte_len payload) +:+ " > " +:+ pretty NodeResultSizeCapBytes
            +:+ " bytes), configure outputs.to_sharedfile (ADR-006)")).

Definition automationSharedfilePath (out : gval) : string :=
  match ptr_val (field "to_sharedfile" out) with
  | None => EmptyString
  | Some target => TrimSpace (str_val (field "path" target))
  end.

Definition shouldEmitFullNodeResult (out : gval) : bool :=
  bool_val (field "to_node_result" out) || String.eqb (automationSharedfilePath out) EmptyString.

Definition shouldEmitSharedfileEnvelope (out : gval) : bool :=
  if String.eqb (automationSharedfilePath out) EmptyString then false
  else match ptr_val (field "node_result_envelope" out) with None => true | Some b => bool_val b end.

Definition first_nonblank (a b : string) : string := if String.eqb (TrimSpace a) EmptyString then TrimSpace b else TrimSpace a.

Definition resolveAutomationEnvelopeKeys (node : ExecNode) (runCtx : RunContext) : string * string :=
  (first_nonblank (rc_DagKey runCtx) (xn_DagKey node), first_nonblank (rc_NodeKey runCtx) (xn_NodeKey node)).

Definition buildAutomationSharedfileEnvelope (out : gval) (node : ExecNode) (runCtx : RunContext) : result NodeOutcome RawMessage :=
  let path := automationSharedfilePath out in
  if String.eqb path EmptyString then Ok RawEmpty
  else
    let '(dagKey, nodeKey) := resolveAutomationEnvelopeKeys node runCtx in
    if String.eqb dagKey EmptyString || String.eqb nodeKey EmptyString || (rc_RunID runCtx <=? 0)%Z
    then Err (failedAutomationOutcome FailureClassValidation "outputs.to_sharedfile requires dag_key/run_id/node_key for node result envelope")
    else Ok (RawJSON (reencode (JObj [("kind", JStr "sharedfile"); ("path", JStr path); ("dag", JStr dagKey); ("run", JNum (pretty (rc_RunID runCtx)));
                                      ("node", JStr nodeKey); ("sharedfile", JObj [("path", JStr path)])]))).

Definition automationSharedFileOwnerNode (runCtx : RunContext) : string :=
  let dagKey := TrimSpace (rc_DagKey runCtx) in
  let nodeKey := TrimSpace (rc_NodeKey runCtx) in
  if String.eqb dagKey EmptyString || String.eqb nodeKey EmptyString then EmptyString else dagKey +:+ "/" +:+ nodeKey.

Definition automationSharedFileProducerActor (runCtx : RunContext) : string :=
  let nodeKey := TrimSpace (rc_NodeKey runCtx) in
  if String.eqb nodeKey EmptyString then EmptyString else "automation:" +:+ nodeKey.

(** A JSON object is written without the fields that steer a command; [null] decodes to
    a nil map, which is written as [null]. *)
Definition stripAutomationControlFieldsBeforePromptReuse (raw : string) : string :=
  match parse_any (TrimSpace raw) with
  | Some (JObj members) =>
      print_any (JObj (List.filter (fun mb => negb (str_in mb.1 ["stderr"; "command"; "exit_code"; "args"; "card_key"])) members))
  | Some JNull => print_any JNull
  | _ => raw
  end.

Definition write_to (writer : AutomationFileWriter) (runCtx : RunContext) (path content : string) : IO (option error) :=
  match writer with
  | PlainWriter write => write_file write path content
  | MetadataWriter write =>
      failed ← ask (fun i => write i (mkWriteRequest path content "text/plain" (automationSharedFileOwnerNode runCtx)
                                        (automationSharedFileProducerActor runCtx) (rc_RunID runCtx)));
      match failed with
      | Some e => mret (Some e)
      | None => _ ← emit (FileWritten path content); mret None
      end
  end.

Definition writeAutomationSharedfile (writer : option AutomationFileWriter) (cfg : gval) (runCtx : RunContext) (result : AutomationCommandResult)
  : IO (option NodeOutcome) :=
  let path := automationSharedfilePath (field "outputs" cfg) in
  if String.eqb path EmptyString then mret None
  else match writer with
       | None => mret (Some (failedAutomationOutcome FailureClassValidation "outputs.to_sharedfile configured but SharedFileWriter not wired in RunContext"))
       | Some writer =>
           failed ← write_to writer runCtx path (stripAutomationControlFieldsBeforePromptReuse (cr_Stdout result));
           mret ((fun e => failedAutomationOutcome FailureClassValidation ("outputs.to_sharedfile[" +:+ Quote path +:+ "]: " +:+ Error e)) <$> failed)
       end.

(** What the node's result is. *)
Definition result_message (cfg : gval) (node : ExecNode) (runCtx : RunContext) (result : AutomationCommandResult) : NodeOutcome + RawMessage :=
  let out := field "outputs" cfg in
  if shouldEmitFullNodeResult out then
    let payload := automationCommandResultPayload result in
    match enforceNodeResultSizeCap payload with Some failure => inl failure | None => inr payload end
  else if shouldEmitSharedfileEnvelope out then
    match buildAutomationSharedfileEnvelope out node runCtx with Err failure => inl failure | Ok envelope => inr envelope end
  else inr RawEmpty.

Definition finalizeAutomationOutcome (writer : option AutomationFileWriter) (cfg : gval) (node : ExecNode) (runCtx : RunContext)
    (result : AutomationCommandResult) : IO NodeOutcome :=
  match result_message cfg node runCtx result with
  | inl failure => mret failure
  | inr message =>
      failed ← writeAutomationSharedfile writer cfg runCtx result;
      mret (match failed with Some failure => failure | None => mkOutcome "done" message EmptyString EmptyString end)
  end.

(** ** The executor *)

Record AutomationExecutor := mkAutomationExecutor {
  ax_commandGetter : option (nat -> string -> result error AutomationCommandCard);
  ax_runner : option (Machine * option CommandExecutionAuthorizer);
  ax_writer : option AutomationFileWriter;
}.

Definition validateWiring (e : AutomationExecutor) : result NodeOutcome ((nat -> string -> result error AutomationCommandCard) * (Machine * option CommandExecutionAuthorizer)) :=
  match ax_commandGetter e, ax_runner e with
  | None, _ => Err (failedAutomationOutcome FailureClassValidation "automation executor: command_get client not wired")
  | Some _, None => Err (failedAutomationOutcome FailureClassValidation "automation executor: command runner not wired")
  | Some getter, Some runner => Ok (getter, runner)
  end.

Definition loadCommandCard (getter : nat -> string -> result error AutomationCommandCard) (cfg : gval) : IO (result NodeOutcome AutomationCommandCard) :=
  let commandRef := TrimSpace (str_val (field "command_ref" (field "exec" cfg))) in
  card ← ask (fun i => getter i commandRef);
  mret (match card with
        | Err e => Err (failedAutomationOutcome (classifyAutomationError (Some e)) ("command_get: " +:+ Error e))
        | Ok card =>
            if negb (cc_Enabled card) then Err (failedAutomationOutcome FailureClassHard ("command card " +:+ Quote commandRef +:+ " is disabled"))
            else Ok card
        end).

(** The checks before the card is read. *)
Definition execute_checks (e : AutomationExecutor) (node : ExecNode)
  : result NodeOutcome (gval * ((nat -> string -> result error AutomationCommandCard) * (Machine * option CommandExecutionAuthorizer))) :=
  cfg ← parseExecutableAutomationConfig (xn_Config node);
  wiring ← validateWiring e;
  match validateAutomationOutputs (xn_Config node) with Some failure => Err failure | None => Ok (cfg, wiring) end.

Definition Automation_Execute (e : AutomationExecutor) (node : ExecNode) (runCtx : RunContext) (contextTimeout : Z) : IO (NodeOutcome * option error) :=
  match execute_checks e node with
  | Err failure => mret (failure, None)
  | Ok (cfg, (getter, (m, authorizer))) =>
      card ← loadCommandCard getter cfg;
      match card with
      | Err failure => mret (failure, None)
      | Ok card =>
          runArgs ← buildAutomationRunArgs cfg runCtx;
          match runArgs, automationCommandContext contextTimeout cfg with
          | Err failure, _ | Ok _, Err failure => mret (failure, None)
          | Ok runArgs, Ok timeout =>
              result ← RunCommandCard m authorizer timeout card runArgs [automationCommandRunOptionsFromConfig cfg];
              match result with
              | Err e => mret (failedAutomationOutcome (classifyAutomationError (Some e)) ("run command card: " +:+ Error e), None)
              | Ok result => outcome ← finalizeAutomationOutcome (ax_writer e) cfg node runCtx result; mret (outcome, None)
              end
          end
      end
  end.
End executor.
