(* ===== verification/AutomationSafety.v ===== *)
(** * When a command is started

    Theorems on the command runner and the automation executor that hold in every
    environment and on every machine: a process is only started for an enabled card of
    high risk, in a directory inside a configured root, with allowed variables, and after
    the authoriser allowed a named subject exactly this directory and executable; without
    an authoriser none is started.  The executor keeps the contract of the router. *)

From S2P Require Import Prelude GoStrings SharedFilePath Json DagStore NodeConfig WakeupPayload RunStore WakeupLease RetryPolicy Effects AgentExecutor NodeRouter Dispatcher DispatchSafety Subscriber Redaction AutomationCommand AutomationExecutor.

(** ** Programs that say nothing and return a value with a property *)

Definition yields {A} (m : IO A) (Φ : A -> Prop) : Prop := emits m (fun a evs => evs = [] /\ Φ a).

Lemma yields_ret {A} (a : A) (Φ : A -> Prop) : Φ a -> yields (mret a) Φ.
Proof. intros H. by apply emits_ret. Qed.

Lemma yields_ask {A} (f : nat -> A) : yields (ask f) (fun a => exists i, a = f i).
Proof. intros w. exists []. cbn. rewrite app_nil_r. split; [done|]. split; [done|]. by exists (w_step w). Qed.

Lemma emits_yields_bind {A B} (m : IO A) (f : A -> IO B) (Φ : A -> Prop) (Ψ : B -> list event -> Prop) :
  yields m Φ -> (forall a, Φ a -> emits (f a) Ψ) -> emits (m ≫= f) Ψ.
Proof. intros Hm Hf. eapply emits_bind; [exact Hm|]. intros a e1 [-> Ha]. by apply Hf. Qed.

Lemma yields_bind {A B} (m : IO A) (f : A -> IO B) (Φ : A -> Prop) (Ψ : B -> Prop) :
  yields m Φ -> (forall a, Φ a -> yields (f a) Ψ) -> yields (m ≫= f) Ψ.
Proof. apply emits_yields_bind. Qed.

Lemma silent_yields {A} (m : IO A) (Φ : A -> Prop) : silent m -> (forall a, Φ a) -> yields m Φ.
Proof. intros Hm Ha. eapply emits_mono; [exact Hm|]. cbn. auto. Qed.

(** A result that is no error. *)
Definition if_ok {E A} (Φ : A -> Prop) (r : result E A) : Prop := match r with Ok a => Φ a | Err _ => True end.

Section start.
Context `{EN : Env} `{TX : Texts} (m : Machine).

(** ** What a path resolves to *)

Definition absolute_of (raw abs : string) : Prop :=
  if IsAbs raw then abs = Clean raw else exists i wd, mc_Getwd m i = Ok wd /\ abs = join_path wd raw.

(** At some moment the path, made absolute, was linked to this one. *)
Definition resolves (raw p : string) : Prop :=
  exists i abs canonical, absolute_of (TrimSpace raw) abs /\ mc_EvalSymlinks m i abs = Ok canonical /\ p = Clean canonical.

Lemma canonical_resolves label raw : yields (canonicalExistingPath m label raw) (if_ok (resolves raw)).
Proof.
  unfold canonicalExistingPath. apply (yields_bind _ _ (if_ok (absolute_of (TrimSpace raw)))).
  - unfold Abs, absolute_of. destruct (IsAbs (TrimSpace raw)); [by apply yields_ret|]. eapply yields_bind; [apply yields_ask|].
    intros wd [i ->]. apply yields_ret. destruct (mc_Getwd m i) eqn:E; cbn; eauto.
  - intros [abs|e] Ha; [|by apply yields_ret]. cbn in Ha. eapply yields_bind; [apply yields_ask|]. intros r [i ->]. apply yields_ret.
    destruct (mc_EvalSymlinks m i abs) eqn:E; cbn; [|done]. exists i, abs. eauto.
Qed.

Definition inside (dir : string) (roots : list string) : Prop := exists root p, root ∈ roots /\ resolves root p /\ pathWithinRoot dir p = true.

Lemma within_roots dir roots : yields (cwdWithinAnyWorkspaceRoot m dir roots) (fun b => b = true -> inside dir roots).
Proof.
  induction roots as [|root roots IH]; [by apply yields_ret|]. cbn [cwdWithinAnyWorkspaceRoot]. eapply yields_bind; [apply canonical_resolves|].
  intros r Hr. destruct (match r with Ok _ => _ | Err _ => _ end) eqn:E.
  - apply yields_ret. intros _. destruct r as [p|]; [|done]. exists root, p. split; [left|]. done.
  - eapply emits_mono; [exact IH|]. intros b evs [-> Hb]. split; [done|]. intros ->. destruct (Hb eq_refl) as (r' & p & Hin & H). exists r', p. split; [by right|done].
Qed.

Lemma cwd_inside opts : yields (resolveAutomationCommandCWD m opts) (if_ok (fun dir => resolves (TrimSpace (opt_CWD opts)) dir /\ inside dir (opt_WorkspaceRoots opts))).
Proof.
  unfold resolveAutomationCommandCWD. case_match; [by apply yields_ret|]. eapply yields_bind; [apply canonical_resolves|].
  intros [dir|e] Hd; [|by apply yields_ret]. case_match; [by apply yields_ret|]. eapply yields_bind; [apply within_roots|].
  intros [|] Hb; apply yields_ret; cbn; [|done]. cbn in Hd. auto.
Qed.

(** ** The trusted roots *)

Lemma canonical_roots_resolve label n roots : yields (canonical_roots m label n roots) (if_ok (fun ps => Forall2 resolves roots ps)).
Proof.
  revert n. induction roots as [|root roots IH]; intros n; [by apply yields_ret; constructor|]. cbn [canonical_roots]. case_match; [by apply yields_ret|].
  eapply yields_bind; [apply canonical_resolves|]. intros [p|e] Hp; [|by apply yields_ret]. eapply yields_bind; [apply IH|].
  intros [ps|e] Hps; apply yields_ret; cbn in *; [by constructor|done].
Qed.

Lemma workspace_roots_resolve label roots : yields (canonicalWorkspaceRoots m label roots) (if_ok (fun ps => Forall2 resolves roots ps)).
Proof. unfold canonicalWorkspaceRoots. case_match; [by apply yields_ret|apply canonical_roots_resolve]. Qed.

Definition within_any (p : string) (roots : list string) : Prop := exists root, root ∈ roots /\ pathWithinRoot p root = true.

Lemma pathWithinAnyRoot_spec p roots : pathWithinAnyRoot p roots = true -> within_any p roots.
Proof. unfold pathWithinAnyRoot. intros H. apply existsb_exists in H as (r & Hin & Hr). exists r. split; [by apply list_elem_of_In|done]. Qed.

Lemma root_outside_none n roots trusted : root_outside n roots trusted = None -> Forall (fun r => within_any r trusted) roots.
Proof.
  revert n. induction roots as [|r roots IH]; intros n; [constructor|]. cbn. destruct (pathWithinAnyRoot r trusted) eqn:E; [|done].
  intros H. constructor; [by apply pathWithinAnyRoot_spec|by eapply IH].
Qed.

(** A configuration only narrows the trusted roots: when the check of the workspace
    scope passes, every root of the configuration resolves to a path inside a trusted root,
    and the working directory resolves to one inside a root of the configuration and inside
    a trusted root. *)
Theorem scope_only_narrows cwd configRoots trustedRoots w :
  fst (validateWorkspaceScope m cwd configRoots trustedRoots w) = Ok tt ->
  exists trusted roots dir, Forall2 resolves trustedRoots trusted /\ Forall2 resolves configRoots roots /\ resolves cwd dir
    /\ Forall (fun root => within_any root trusted) roots /\ within_any dir roots /\ within_any dir trusted.
Proof.
  intros Hok. assert (yields (validateWorkspaceScope m cwd configRoots trustedRoots) (if_ok (fun _ => exists trusted roots dir,
    Forall2 resolves trustedRoots trusted /\ Forall2 resolves configRoots roots /\ resolves cwd dir
    /\ Forall (fun root => within_any root trusted) roots /\ within_any dir roots /\ within_any dir trusted))) as H.
  2: { destruct (H w) as (evs & _ & _ & Hr). by rewrite Hok in Hr. }
  unfold validateWorkspaceScope. case_match; [by apply yields_ret|]. eapply yields_bind; [apply workspace_roots_resolve|].
  intros [trusted|e] Ht; [|by apply yields_ret]. eapply yields_bind; [apply workspace_roots_resolve|]. intros [roots|e] Hr; [|by apply yields_ret].
  destruct (root_outside 0 roots trusted) eqn:Ho; [by apply yields_ret|]. apply root_outside_none in Ho.
  eapply yields_bind; [apply canonical_resolves|]. intros [dir|e] Hd; apply yields_ret; [|done]. cbn in *.
  destruct (pathWithinAnyRoot dir roots) eqn:E1; [|done]. destruct (pathWithinAnyRoot dir trusted) eqn:E2; [|done].
  cbn. exists trusted, roots, dir. split_and!; auto using pathWithinAnyRoot_spec.
Qed.

(** ** What may be started *)

(** The variable is one that is allowed. *)
Definition allowed_variable (v : string) : Prop := exists key value, v = TrimSpace key +:+ "=" +:+ value /\ isAllowedAutomationCommandEnv key = true.

Definition command_argv (card : AutomationCommandCard) (args : RawMessage) (argv : list string) : Prop :=
  exists command nargs, renderCommandTemplate (cc_CommandTemplate card) args = Ok (command, nargs)
    /\ validateRenderedCommandShellSafety command = Ok tt /\ splitAutomationCommandArgv command = Ok argv.

Definition prepared_ok (card : AutomationCommandCard) (args : RawMessage) (opt : AutomationCommandRunOptions) (cmd : Cmd) : Prop :=
  ToLower (TrimSpace (cc_RiskLevel card)) = "high"
  /\ resolves (TrimSpace (opt_CWD opt)) (cmd_Dir cmd) /\ inside (cmd_Dir cmd) (opt_WorkspaceRoots opt)
  /\ command_argv card args (cmd_Args cmd)
  /\ Forall allowed_variable (cmd_Env cmd).

Lemma env_allowed env : validateAutomationCommandEnv env = Ok tt -> Forall allowed_variable (allowedAutomationCommandEnv env).
Proof.
  unfold validateAutomationCommandEnv, allowedAutomationCommandEnv. destruct (List.find _ _) eqn:E; [done|]. intros _.
  apply Forall_fmap, Forall_forall. intros [k v] Hin. cbn. exists k, (str_val v). split; [done|].
  apply list_elem_of_In in Hin. pose proof (List.find_none _ _ E _ Hin) as Hk. cbn in Hk. by apply negb_false_iff.
Qed.

Lemma argv_not_empty command argv : splitAutomationCommandArgv command = Ok argv -> argv = default EmptyString (head argv) :: tail argv.
Proof.
  unfold splitAutomationCommandArgv, finish, checked_argv. case_match; [done|]. intros H'. destruct argv as [|name argv]; [|done].
  repeat case_match; by simplify_eq/=.
Qed.

Lemma exec_Command_yields name args dir env :
  yields (exec_Command m name args dir env) (fun cmd => cmd_Args cmd = name :: args /\ cmd_Dir cmd = dir /\ cmd_Env cmd = env).
Proof.
  unfold exec_Command. case_match; [by apply yields_ret|]. eapply yields_bind; [apply yields_ask|]. intros [lp err] _. by apply yields_ret.
Qed.

Lemma prepare_ok card args opt :
  yields (prepareAutomationCommand m card args [opt]) (if_ok (fun p => prepared_ok card args opt (pc_cmd p))).
Proof.
  unfold prepareAutomationCommand, validateAutomationCommandPolicy. destruct (String.eqb_spec (ToLower (TrimSpace (cc_RiskLevel card))) "high") as [Hr|]; [|by apply yields_ret].
  cbn [guard_err mbind result_bind]. destruct (normalizeAutomationRunOptions [opt]) as [o|] eqn:Hn; [|by apply yields_ret].
  cbn in Hn. apply bind_Ok in Hn as ([] & He & Ho). simplify_eq. eapply yields_bind; [apply cwd_inside|].
  intros [dir|e] Hd; [|by apply yields_ret]. destruct Hd as [Hdir Hin].
  destruct ('(command, nargs) ← renderCommandTemplate (cc_CommandTemplate card) args; _) as [[[command nargs] argv]|e] eqn:Hc; [|by apply yields_ret].
  apply bind_Ok in Hc as ([command' nargs'] & Hren & Hc). apply bind_Ok in Hc as ([] & Hsafe & Hc). apply bind_Ok in Hc as (argv' & Hargv & Hc). simplify_eq.
  eapply yields_bind; [apply exec_Command_yields|]. intros cmd (Ha & Hd & Henv). apply yields_ret. cbn. rewrite <- (argv_not_empty command argv Hargv) in Ha.
  unfold prepared_ok. rewrite Hd, Henv, Ha. split_and!; try done; [by exists command, nargs|by apply env_allowed].
Qed.

(** The authoriser allowed a named subject this directory and this executable. *)
Definition authorised (authorizer : option CommandExecutionAuthorizer) (card : AutomationCommandCard) (dir path : string) : Prop :=
  exists a i d, authorizer = Some a /\ a i (mkAuthRequest (TrimSpace (cc_CardKey card)) dir path) = Ok d
    /\ TrimSpace (az_Subject d) <> EmptyString /\ az_Allowed d = true.

Lemma authorize_ok authorizer card p :
  yields (authorizeCommandExecution authorizer card p) (if_ok (fun _ => authorised authorizer card (cmd_Dir (pc_cmd p)) (cmd_Path (pc_cmd p)))).
Proof.
  unfold authorizeCommandExecution. destruct authorizer as [a|]; [|by apply yields_ret]. eapply yields_bind; [apply yields_ask|]. intros r [i ->].
  apply yields_ret. destruct (a i _) as [d|] eqn:E; [|done]. destruct (String.eqb_spec (TrimSpace (az_Subject d)) EmptyString); [done|].
  destruct (az_Allowed d) eqn:Hal; [|done]. cbn. by exists a, i, d.
Qed.

(** A process that may be started. *)
Definition start_ok (authorizer : option CommandExecutionAuthorizer) (card : AutomationCommandCard) (args : RawMessage) (opt : AutomationCommandRunOptions)
  (e : event) : Prop :=
  exists cmd, e = CommandRun (cmd_Dir cmd) (cmd_Path cmd) (cmd_Args cmd) (cmd_Env cmd) /\ prepared_ok card args opt cmd
    /\ authorised authorizer card (cmd_Dir cmd) (cmd_Path cmd).

(** Nothing happened, or one event with the property. *)
Definition at_most_one (P : event -> Prop) (evs : list event) : Prop := evs = [] \/ exists e, evs = [e] /\ P e.

Lemma cmd_Run_emits cmd timeout :
  emits (cmd_Run m cmd timeout) (fun _ evs => at_most_one (fun e => e = CommandRun (cmd_Dir cmd) (cmd_Path cmd) (cmd_Args cmd) (cmd_Env cmd)) evs).
Proof.
  unfold cmd_Run. apply emits_silent_bind; [apply silent_heartbeats|]. intros _. apply emits_silent_bind; [apply silent_get_world|]. intros w.
  destruct (w_canceled w); [by apply emits_ret; left|]. destruct (cmd_Err cmd); [by apply emits_ret; left|].
  apply emits_silent_bind; [apply silent_ask|]. intros run. destruct (pr_started run); [|by apply emits_ret; left].
  eapply emits_bind; [apply emits_emit|]. intros _ e1 ->. apply emits_ret. right. eauto.
Qed.

Lemma RunCommandCard_emits authorizer timeout card args opt :
  emits (RunCommandCard m authorizer timeout card args [opt]) (fun _ evs => at_most_one (start_ok authorizer card args opt) evs).
Proof.
  unfold RunCommandCard. eapply emits_yields_bind; [apply prepare_ok|]. intros [p|e] Hp; [|by apply emits_ret; left].
  eapply emits_yields_bind; [apply authorize_ok|]. intros [[]|e] Ha; [|by apply emits_ret; left]. cbn in Hp, Ha.
  eapply emits_bind; [apply cmd_Run_emits|]. intros run e1 He.
  assert (at_most_one (start_ok authorizer card args opt) e1) as Hok.
  { destruct He as [->|(e & -> & ->)]; [by left|]. right. eexists. split; [done|]. exists (pc_cmd p). eauto. }
  destruct (pr_err run); [|apply emits_ret; by rewrite app_nil_r].
  apply emits_silent_bind; [unfold ctx_Err; io_silent|]. intros. apply emits_ret. by rewrite app_nil_r.
Qed.
End start.

(** ** The executor *)

Definition is_start (e : event) : bool := match e with CommandRun _ _ _ _ => true | _ => false end.

Section executor.
Context `{EN : Env} `{TX : Texts} (e : AutomationExecutor).

Lemma collect_files_silent paths reader : silent (collect_files paths reader).
Proof. induction paths as [|p paths IH]; [apply silent_ret|]. cbn [collect_files]. io_silent; apply IH. Qed.

Lemma run_args_silent cfg ctx : silent (buildAutomationRunArgs cfg ctx).
Proof.
  unfold buildAutomationRunArgs, buildInputsPayload, collectSharedfileInputs. io_silent; apply collect_files_silent.
Qed.

Lemma finalize_no_start cfg node ctx result : only (fun e => is_start e = false) (finalizeAutomationOutcome (ax_writer e) cfg node ctx result).
Proof.
  assert (forall path content, only (fun e => is_start e = false) (emit (FileWritten path content))) as Hw by (intros; by apply only_emit).
  unfold finalizeAutomationOutcome, writeAutomationSharedfile, write_to, write_file. io_only; apply Hw.
Qed.

(** The card that a getter gave, and is enabled. *)
Lemma load_card getter cfg :
  yields (loadCommandCard getter cfg)
    (if_ok (fun card => cc_Enabled card = true /\ exists i, getter i (TrimSpace (str_val (field "command_ref" (field "exec" cfg)))) = Ok card)).
Proof.
  unfold loadCommandCard. eapply yields_bind; [apply yields_ask|]. intros r [i ->]. apply yields_ret. destruct (getter i _) as [card|] eqn:E; [|done].
  destruct (cc_Enabled card) eqn:He; cbn; eauto.
Qed.

(** A process of this node may be started. *)
Definition node_start_ok (node : ExecNode) (ev : event) : Prop :=
  exists getter m authorizer cfg card args i,
    ax_commandGetter e = Some getter /\ ax_runner e = Some (m, authorizer) /\ ParseAutomationConfig (xn_Config node) = Ok cfg
    /\ getter i (TrimSpace (str_val (field "command_ref" (field "exec" cfg)))) = Ok card /\ cc_Enabled card = true
    /\ start_ok m authorizer card args (automationCommandRunOptionsFromConfig cfg) ev.

Lemma checks_ok node cfg getter runner :
  execute_checks e node = Ok (cfg, (getter, runner)) ->
  ParseAutomationConfig (xn_Config node) = Ok cfg /\ ax_commandGetter e = Some getter /\ ax_runner e = Some runner.
Proof.
  unfold execute_checks. intros H. apply bind_Ok in H as (cfg' & H1 & H). apply bind_Ok in H as ([g r] & H2 & H).
  destruct (validateAutomationOutputs _); [done|]. simplify_eq. unfold parseExecutableAutomationConfig in H1. unfold validateWiring in H2.
  repeat case_match; by simplify_eq.
Qed.

Lemma start_filter P evs : at_most_one P evs -> (forall ev, P ev -> is_start ev = true) -> at_most_one P (List.filter is_start evs).
Proof. intros [->|(ev & -> & Hev)] Hs; [by left|]. right. exists ev. cbn. by rewrite (Hs ev Hev). Qed.

(** C16: a process is only started with every guard passed: executing an automation node
    starts at most one process, and only when the card that its configuration names is
    enabled and of high risk, the working directory resolves to a directory inside one
    of the configured roots, every variable is one of the five allowed ones, the arguments
    are those of the rendered and checked command, and the authoriser allowed a named
    subject exactly this card, directory and executable.  It holds for every machine, every
    error of its parts, and every interleaving with other processes. *)
Theorem process_start_guarded node ctx timeout :
  emits (Automation_Execute e node ctx timeout) (fun _ evs => at_most_one (node_start_ok node) (List.filter is_start evs)).
Proof.
  unfold Automation_Execute. destruct (execute_checks e node) as [[cfg [getter [m az]]]|f] eqn:Hc; [|by apply emits_ret; left].
  apply checks_ok in Hc as (Hcfg & Hg & Hr). eapply emits_yields_bind; [apply load_card|]. intros [card|f] Hcard; [|by apply emits_ret; left].
  destruct Hcard as (Hen & i & Hi). apply emits_silent_bind; [apply run_args_silent|]. intros [args|f]; [|by apply emits_ret; left].
  destruct (automationCommandContext timeout cfg) as [t|f]; [|by apply emits_ret; left].
  eapply emits_bind; [apply RunCommandCard_emits|]. intros r e1 H1.
  assert (at_most_one (node_start_ok node) (List.filter is_start e1)) as Hok.
  { apply start_filter; [|by intros ev (? & ? & ? & ? & ? & ? & ? & _ & _ & _ & _ & _ & cmd & -> & _)]. destruct H1 as [->|(ev & -> & Hev)]; [by left|right].
    exists ev. split; [done|]. exists getter, m, az, cfg, card, args, i. done. }
  destruct r as [res|err]; [|apply emits_ret; by rewrite app_nil_r]. eapply emits_bind; [apply finalize_no_start|]. intros o e2 H2. apply emits_ret.
  rewrite app_nil_r, List.filter_app. replace (List.filter is_start e2) with (@nil event); [by rewrite app_nil_r|].
  induction H2 as [|ev e2 Hev _ IH]; [done|]. cbn. by rewrite Hev.
Qed.

(** Without an authoriser nothing is started: a runner that is built without one, as the
    service builds it, fails every automation node before a process is started. *)
Theorem no_authoriser_no_process m node ctx timeout :
  ax_runner e = Some (m, None) -> only (fun ev => is_start ev = false) (Automation_Execute e node ctx timeout).
Proof.
  intros Hr. unfold Automation_Execute. destruct (execute_checks e node) as [[cfg [getter [m' az]]]|f] eqn:Hc; [|apply only_ret].
  apply checks_ok in Hc as (_ & _ & Hr'). simplify_eq. apply only_bind; [apply only_silent; unfold loadCommandCard; io_silent|]. intros [card|f]; [|apply only_ret].
  apply only_bind; [apply only_silent, run_args_silent|]. intros [args|f]; [|apply only_ret].
  destruct (automationCommandContext timeout cfg) as [t|f]; [|apply only_ret]. apply only_bind.
  - eapply emits_mono; [apply RunCommandCard_emits|]. intros _ evs [->|(ev & -> & cmd & _ & _ & a & i & d & Ha & _)]; [constructor|done].
  - intros [res|err]; [|apply only_ret]. apply only_bind; [apply finalize_no_start|]. intros. apply only_ret.
Qed.

(** ** The contract of the router *)

Lemma canonical_polite m label raw : polite (canonicalExistingPath m label raw).
Proof. unfold canonicalExistingPath, Abs. io_polite. Qed.

Lemma within_polite m dir roots : polite (cwdWithinAnyWorkspaceRoot m dir roots).
Proof. induction roots as [|r roots IH]; [apply polite_ret|]. cbn [cwdWithinAnyWorkspaceRoot]. io_polite; auto using canonical_polite. Qed.

Lemma collect_files_polite paths reader : polite (collect_files paths reader).
Proof. induction paths as [|p paths IH]; [apply polite_ret|]. cbn [collect_files]. io_polite; apply IH. Qed.

Lemma RunCommandCard_polite m az timeout card args opts : polite (RunCommandCard m az timeout card args opts).
Proof.
  unfold RunCommandCard, prepareAutomationCommand, authorizeCommandExecution, resolveAutomationCommandCWD, exec_Command, cmd_Run, ctx_Err.
  io_polite; auto using canonical_polite, within_polite, polite_heartbeats.
Qed.

#[export] Instance automation_law : AutomationLaw (Automation_Execute e).
Proof.
  intros node ctx timeout.
  unfold Automation_Execute, loadCommandCard, buildAutomationRunArgs, buildInputsPayload, collectSharedfileInputs, finalizeAutomationOutcome,
    writeAutomationSharedfile, write_to, write_file.
  io_polite; auto using collect_files_polite, RunCommandCard_polite.
Qed.
End executor.
