(* ===== verification/AutomationSamples.v ===== *)
(** * Automation nodes on samples

    A machine and an authoriser on which a node runs to its end, the witnesses of the
    theorems, and what the code does in cases that its comments do not have. *)

From S2P Require Import Prelude GoStrings Json DagStore NodeConfig WakeupPayload RunStore WakeupLease RetryPolicy Effects AgentExecutor NodeRouter Dispatcher DispatchSafety DispatchSamples Subscriber Redaction AutomationCommand AutomationExecutor AutomationSafety.

(** No text is JSON, and a template knows the argument [env]. *)
Definition sample_texts : Texts := {|
  is_letter := Redaction.Samples.ascii_letter; is_digit := Redaction.Samples.ascii_digit;
  is_upper := Redaction.Samples.ascii_upper; is_lower := Redaction.Samples.ascii_lower;
  parse_any := fun _ => None; print_any := fun _ => EmptyString;
  template_render := fun template data =>
    match get "env" data with Some (JStr v) => Ok (ReplaceAll template "{{.env}}" v) | _ => Err (plain_error "render command template: %w") end;
|}.

(** No links; a command prints its secret. *)
Definition sample_machine : Machine := {|
  mc_Getwd := fun _ => Ok "/srv/daemon";
  mc_EvalSymlinks := fun _ p => Ok p;
  mc_LookPath := fun _ name => ("/usr/bin/" +:+ name, None);
  mc_Run := fun _ _ _ => mkProcess true ["TOKEN="; "abc done"] [] 0 None false;
|}.

Definition allow_all : CommandExecutionAuthorizer := fun _ _ => Ok (mkAuthorization "ops" true).

Definition deploy_card : AutomationCommandCard := mkCard "deploy" EmptyString EmptyString "deploy '{{.env}}' --wait" RawEmpty "High" true.

Definition executor_of (authorizer : option CommandExecutionAuthorizer) : AutomationExecutor :=
  mkAutomationExecutor (Some (fun _ _ => Ok deploy_card)) (Some (sample_machine, authorizer)) (Some (PlainWriter (fun _ _ _ => None))).

Definition deploy_config (cwd root env : string) : RawMessage :=
  RawJSON (JObj [("exec", JObj [("command_ref", JStr "deploy"); ("cwd", JStr cwd); ("workspace_roots", JArr [JStr root]);
                                ("args", JObj [("env", JStr env)]); ("env", JObj [("PATH", JStr "/bin")])]);
                 ("outputs", JObj [("to_sharedfile", JObj [("path", JStr "dag/out.txt")])])]).

Definition deploy_node (cwd root env : string) : ExecNode := mkExecNode "d" "n" "automation" EmptyString (deploy_config cwd root env) EmptyString.
Definition deploy_ctx : RunContext := mkRunContext "d" "n" 7 None None.

Definition deploy_world : world := sample_world (sample_node "automation" RawEmpty) 1.

Definition execute (authorizer : option CommandExecutionAuthorizer) (cwd root env : string) : NodeOutcome * list event :=
  let '((outcome, _), w) := @Automation_Execute (quiet_env []) sample_texts (executor_of authorizer) (deploy_node cwd root env) deploy_ctx 0 deploy_world in
  (outcome, w_log w).

(** The value stays one argument, and the secret is not written. *)
Example deploy_runs :
  (execute (Some allow_all) "/work/app" "/work" "prod --force").2
    = [CommandRun "/work/app" "/usr/bin/deploy" ["deploy"; "prod --force"; "--wait"] ["PATH=/bin"]; FileWritten "dag/out.txt" "TOKEN=[REDACTED] done"].
Proof. vm_compute. reflexivity. Qed.

(** Without an authoriser the node fails and nothing happens. *)
Lemma no_authoriser_no_process_witness :
  only (fun ev => is_start ev = false) (@Automation_Execute (quiet_env []) sample_texts (executor_of None) (deploy_node "/work/app" "/work" "prod") deploy_ctx 0)
  /\ execute None "/work/app" "/work" "prod"
     = (failed_outcome FailureClassHard "run command card: automation command execution authorizer is unavailable", []).
Proof.
  split; [|vm_compute; reflexivity]. exact (@no_authoriser_no_process (quiet_env []) sample_texts (executor_of None) sample_machine _ _ _ eq_refl).
Defined.

(** A quote in an argument of the node ends its place in the template: the argument
    becomes two, and one of them is an option of the command. *)
Example quote_adds_option :
  (execute (Some allow_all) "/work/app" "/work" "prod' '--force").2
    = [CommandRun "/work/app" "/usr/bin/deploy" ["deploy"; "prod"; "--force"; "--wait"] ["PATH=/bin"]; FileWritten "dag/out.txt" "TOKEN=[REDACTED] done"].
Proof. vm_compute. reflexivity. Qed.

(** A blank workspace root stands for the directory of the service itself, where the
    check of trusted roots refuses it. *)
Example blank_root_is_daemon_directory :
  (execute (Some allow_all) "/srv/daemon/state" " " "prod").2
    = [CommandRun "/srv/daemon/state" "/usr/bin/deploy" ["deploy"; "prod"; "--wait"] ["PATH=/bin"]; FileWritten "dag/out.txt" "TOKEN=[REDACTED] done"]
  /\ (@validateWorkspaceScope sample_machine "/srv/daemon/state" [" "] ["/srv"] deploy_world).1
     = Err (Errorf [] (Sprintf "%s[%d] is required" ["config workspace root"; "0"])).
Proof. vm_compute. done. Qed.

Lemma scope_only_narrows_witness :
  exists trusted roots dir, Forall2 (resolves sample_machine) ["/work"] trusted /\ Forall2 (resolves sample_machine) ["/work/app"] roots
    /\ resolves sample_machine "/work/app/src" dir
    /\ Forall (fun root => within_any root trusted) roots /\ within_any dir roots /\ within_any dir trusted.
Proof. apply (scope_only_narrows sample_machine "/work/app/src" ["/work/app"] ["/work"] deploy_world). vm_compute. reflexivity. Defined.
