(* ===== verification/EventContract.v ===== *)
(** * Events and their validation

    Models [store/eventstore/contract.go] and the checks of [mapping.go]: the envelope of
    an event, the frame it arrives in, the rows of the event store, and what is checked
    before and after the database.

    The digest of an envelope (SHA-256 of its JSON) and the length of a frame as JSON are
    arguments.  The audit times of the rows, which SQLite writes itself in the format that
    the readers accept, are left out. *)

From S2P Require Import Prelude GoStrings WakeupLease.

Definition maxEnvelopeBytes : Z := 256 * 1024.

(** ** Errors *)

Definition ErrInvalidEvent : string := "ErrInvalidEvent".
Definition ErrEventConflict : string := "ErrEventConflict".
Definition ErrEventNotFound : string := "ErrEventNotFound".
Definition ErrEventGap : string := "ErrEventGap".
Definition ErrEventQuarantined : string := "ErrEventQuarantined".
Definition ErrEventFence : string := "ErrEventFence".
Definition ErrEventReplayExpired : string := "ErrEventReplayExpired".
Definition ErrEventRetentionPinned : string := "ErrEventRetentionPinned".

(** The sentinel itself. *)
Definition sentinel (name : string) : error := Errorf [name] (Sprintf name []).

Definition invalidEvent (message : string) : error := Errorf [ErrInvalidEvent] (Sprintf "%w: %s" [message]).

Definition sourceBindingError (message : string) : error := Errorf [ErrEventFence; ErrInvalidEvent] (Sprintf "%w: %s" [message]).

(** ** Lanes *)

Definition Lane : Type := string.
Definition LaneControl : Lane := "control".
Definition LaneOutput : Lane := "output".
Definition LaneContent : Lane := "content".

Definition validLane (lane : Lane) : bool := String.eqb lane LaneControl || String.eqb lane LaneOutput || String.eqb lane LaneContent.

(** ** Records *)

Record EventEnvelope := mkEnvelope {
  ev_EventID : string; ev_EventType : string; ev_SchemaVersion : Z; ev_RootAgentID : string; ev_SubjectAgentID : string;
  ev_ReservationID : string; ev_IncarnationID : option string; ev_ExternalEpoch : string; ev_IncarnationGeneration : Z;
  ev_IdentityDigest : string; ev_BindingVersion : Z; ev_BindingDigest : string; ev_SourceFenceRef : string; ev_Provenance : string;
  ev_TrustClass : string; ev_ContentRole : string; ev_ContentRef : string; ev_ContentSize : Z; ev_MediaType : string;
  ev_ProviderAt : option string; ev_ObservedAt : string; ev_WriterEpoch : string;
}.

#[export] Instance EventEnvelope_eq_dec : EqDecision EventEnvelope.
Proof. solve_decision. Defined.

Record IngressFrame := mkFrame {
  fr_SourceID : string; fr_SourceEpoch : string; fr_Lane : Lane; fr_SourceSequence : Z; fr_EnvelopeHash : string;
  fr_CanonicalCursor : string; fr_Envelope : EventEnvelope;
}.

#[export] Instance IngressFrame_eq_dec : EqDecision IngressFrame.
Proof. solve_decision. Defined.

Record IngressReceipt := mkReceipt { rc_Frame : IngressFrame; rc_Status : string; rc_ErrorRef : string }.

Record AgentEvent := mkEvent { ae_Frame : IngressFrame; ae_Status : string }.

Record SourceState := mkState {
  st_SourceID : string; st_SourceEpoch : string; st_Lane : Lane; st_NextSequence : Z; st_MaterializedSequence : Z; st_DedupFloor : Z;
  st_Revision : Z; st_Status : string; st_GapReason : string; st_WriterEpoch : string;
}.

Record AppendResult := mkAppend { ar_Receipt : IngressReceipt; ar_Event : option AgentEvent; ar_State : SourceState }.

Record CursorKey := mkCursorKey { ck_ProjectionID : string; ck_SourceID : string; ck_SourceEpoch : string; ck_Lane : Lane }.

Record MaterializationCursor := mkCursor {
  mc_Key : CursorKey; mc_MaterializedSequence : Z; mc_MaterializedHash : string; mc_Revision : Z; mc_Status : string;
}.

Record Tombstone := mkTombstone {
  tb_SourceID : string; tb_SourceEpoch : string; tb_Lane : Lane; tb_SourceSequence : Z; tb_EnvelopeHash : string; tb_EventID : string;
  tb_CanonicalCursor : string; tb_DedupFloor : Z; tb_Status : string;
}.

Record TombstoneRequest := mkTombstoneRequest {
  tr_SourceID : string; tr_SourceEpoch : string; tr_Lane : Lane; tr_SourceSequence : Z; tr_EnvelopeHash : string; tr_EventID : string;
  tr_CanonicalCursor : string; tr_ExpectedFloor : Z; tr_Status : string;
}.

(** ** Texts *)

(** [utf8.ValidString]: writing the runes again gives the string. *)
Definition ValidString (s : string) : bool := String.eqb (encode_runes (runes s)) s.

Definition nul : string := String (ascii_of_N 0) EmptyString.

(** [unicode.IsControl]. *)
Definition IsControl (r : rune) : bool := in_range 0 0x1F r || in_range 0x7F 0x9F r.

Definition validateText (name value : string) (limit : nat) (allowEmpty : bool) : result error unit :=
  if (negb allowEmpty && String.eqb value EmptyString) || negb (String.eqb (TrimSpace value) value) || (limit <? String.length value)%nat
     || negb (ValidString value) || Contains value nul
  then Err (invalidEvent (name +:+ " is not canonical bounded text")) else Ok tt.

Definition is_hex (a : ascii) : bool :=
  let n := N_of_ascii a in in_range 0x30 0x39 n || in_range 0x61 0x66 n || in_range 0x41 0x46 n.

Definition validateDigest (name value : string) (required : bool) : result error unit :=
  if negb required && String.eqb value EmptyString then Ok tt
  else if negb (String.length value =? 64)%nat || negb (String.eqb (ToLower value) value) then Err (invalidEvent (name +:+ " must be lowercase 256-bit hex"))
  else if negb (str_forall is_hex value) then Err (invalidEvent (name +:+ " is not hexadecimal"))
  else Ok tt.

(** The checks in turn; the first error counts. *)
Fixpoint all_ok (l : list (result error unit)) : result error unit :=
  match l with [] => Ok tt | r :: l => _ ← r; all_ok l end.

Definition validateSourceTuple (sourceID sourceEpoch : string) (lane : Lane) : result error unit :=
  _ ← validateText "source_id" sourceID 256 false;
  _ ← validateText "source_epoch" sourceEpoch 128 false;
  guard_err (validLane lane) (invalidEvent "lane is unsupported").

Definition validateSourceKey : string -> string -> Lane -> result error unit := validateSourceTuple.

Definition canonicalCursor (sourceID epoch : string) (lane : Lane) (sequence : Z) : string :=
  sourceID +:+ "/" +:+ epoch +:+ "/" +:+ lane +:+ "/" +:+ pretty sequence.

Definition CanonicalCursor (sourceID sourceEpoch : string) (lane : Lane) (sequence : Z) : result error string :=
  _ ← validateSourceTuple sourceID sourceEpoch lane;
  _ ← guard_err (negb (existsb IsControl (runes sourceID) || existsb IsControl (runes sourceEpoch))) (invalidEvent "cursor source tuple contains control text");
  _ ← guard_err (0 <? sequence)%Z (invalidEvent "source_sequence must be positive");
  Ok (canonicalCursor sourceID sourceEpoch lane sequence).

(** ** Envelopes *)

Definition validateEnvelopeText (e : EventEnvelope) : result error unit :=
  _ ← all_ok [
    validateText "event_id" (ev_EventID e) 128 false; validateText "event_type" (ev_EventType e) 128 false;
    validateText "root_agent_id" (ev_RootAgentID e) 128 false; validateText "subject_agent_id" (ev_SubjectAgentID e) 128 false;
    validateText "reservation_id" (ev_ReservationID e) 128 false; validateText "external_epoch" (ev_ExternalEpoch e) 128 true;
    validateText "source_fence_ref" (ev_SourceFenceRef e) 512 false; validateText "provenance" (ev_Provenance e) 256 false;
    validateText "trust_class" (ev_TrustClass e) 64 false; validateText "content_ref" (ev_ContentRef e) 512 true;
    validateText "media_type" (ev_MediaType e) 128 true; validateText "observed_at" (ev_ObservedAt e) 64 false;
    validateText "writer_epoch" (ev_WriterEpoch e) 128 false];
  match ev_ProviderAt e with Some at' => validateText "provider_at" at' 64 false | None => Ok tt end.

Definition validatePreIncarnationShape (e : EventEnvelope) : result error unit :=
  guard_err (String.eqb (ev_ExternalEpoch e) EmptyString && (ev_IncarnationGeneration e =? 0)%Z && String.eqb (ev_IdentityDigest e) EmptyString
             && (ev_BindingVersion e =? 0)%Z && String.eqb (ev_BindingDigest e) EmptyString)
    (invalidEvent "pre-incarnation envelope contains execution fence").

Definition validateBoundIncarnationShape (e : EventEnvelope) (incarnationID : string) : result error unit :=
  _ ← validateText "incarnation_id" incarnationID 128 false;
  guard_err (negb (String.eqb (ev_ExternalEpoch e) EmptyString || (ev_IncarnationGeneration e <=? 0)%Z || String.eqb (ev_IdentityDigest e) EmptyString
                   || (ev_BindingVersion e <=? 0)%Z || String.eqb (ev_BindingDigest e) EmptyString))
    (invalidEvent "bound envelope lacks complete execution fence").

Definition validateEnvelopeIdentityShape (e : EventEnvelope) : result error unit :=
  match ev_IncarnationID e with None => validatePreIncarnationShape e | Some id => validateBoundIncarnationShape e id end.

Definition validateContentShape (e : EventEnvelope) : result error unit :=
  _ ← (if String.eqb (ev_ContentRole e) "none" then
         guard_err (String.eqb (ev_ContentRef e) EmptyString && (ev_ContentSize e =? 0)%Z && String.eqb (ev_MediaType e) EmptyString)
           (invalidEvent "content_role none requires absent content fields")
       else if str_in (ev_ContentRole e) ["prompt"; "message"; "tool"; "output"; "event"] then
         guard_err (negb (String.eqb (ev_ContentRef e) EmptyString || String.eqb (ev_MediaType e) EmptyString || (ev_ContentSize e <? 0)%Z))
           (invalidEvent "content role requires content reference, size and media type")
       else Err (invalidEvent "content_role is unsupported"));
  guard_err (0 <=? ev_ContentSize e)%Z (invalidEvent "content_size cannot be negative").

Definition Envelope_Validate (e : EventEnvelope) : result error unit :=
  let bound := match ev_IncarnationID e with Some _ => true | None => false end in
  _ ← validateEnvelopeText e;
  _ ← guard_err (ev_SchemaVersion e =? 1)%Z (invalidEvent "schema_version must be 1");
  _ ← validateDigest "identity_digest" (ev_IdentityDigest e) bound;
  _ ← validateDigest "binding_digest" (ev_BindingDigest e) bound;
  _ ← guard_err ((0 <=? ev_IncarnationGeneration e)%Z && (0 <=? ev_BindingVersion e)%Z) (invalidEvent "identity generations cannot be negative");
  _ ← validateEnvelopeIdentityShape e;
  validateContentShape e.

(** ** Frames *)

Definition validateFrameKey (f : IngressFrame) : result error unit :=
  expectedCursor ← CanonicalCursor (fr_SourceID f) (fr_SourceEpoch f) (fr_Lane f) (fr_SourceSequence f);
  _ ← validateDigest "envelope_hash" (fr_EnvelopeHash f) true;
  _ ← validateText "canonical_cursor" (fr_CanonicalCursor f) 512 false;
  guard_err (String.eqb (fr_CanonicalCursor f) expectedCursor) (invalidEvent "canonical_cursor does not match source tuple").

Definition validateSourceEnvelopeBinding (f : IngressFrame) : result error unit :=
  let e := fr_Envelope f in
  match ev_IncarnationID e with
  | None =>
      guard_err (negb (HasPrefix (fr_SourceID f) "task/")) (sourceBindingError "pre-incarnation envelope cannot use canonical task source")
  | Some incarnationID =>
      _ ← guard_err (negb (Contains (ev_RootAgentID e) "/" || Contains (ev_RootAgentID e) "\")) (sourceBindingError "bound task agent id must be a safe source component");
      _ ← guard_err (String.eqb (ev_RootAgentID e) (ev_SubjectAgentID e)) (sourceBindingError "bound envelope root and subject agents must match");
      _ ← guard_err (String.eqb (fr_SourceID f) ("task/" +:+ ev_RootAgentID e)) (sourceBindingError "bound frame source does not match task agent");
      guard_err (String.eqb (fr_SourceEpoch f) incarnationID) (sourceBindingError "bound frame epoch does not match incarnation")
  end.

(** What the checks take from outside: the digest of an envelope and the length of a
    frame, both of their JSON. *)
Class EventCodec := { CanonicalEnvelopeHash : EventEnvelope -> string; frame_bytes : IngressFrame -> Z }.

Section validate.
Context `{EC : EventCodec}.

Definition Frame_Validate (f : IngressFrame) : result error unit :=
  _ ← validateFrameKey f;
  _ ← Envelope_Validate (fr_Envelope f);
  _ ← validateSourceEnvelopeBinding f;
  guard_err (frame_bytes f <=? maxEnvelopeBytes)%Z (invalidEvent "event envelope exceeds 256KiB").

Definition validateCanonicalEnvelopeHash (f : IngressFrame) : result error unit :=
  guard_err (String.eqb (fr_EnvelopeHash f) (CanonicalEnvelopeHash (fr_Envelope f))) (invalidEvent "envelope_hash does not match canonical envelope").

(** ** Rows *)

Definition knownSourceStatus (value : string) : bool := str_in value ["active"; "gap"; "quarantined"; "closed"].
Definition knownReceiptStatus (value : string) : bool := str_in value ["staged"; "materialized"; "quarantined"; "gap"].
Definition knownCursorStatus : string -> bool := knownSourceStatus.
Definition knownTombstoneStatus (value : string) : bool := str_in value ["materialized"; "expired"; "quarantined"].

Definition validateSourceStateIdentity (row : SourceState) : result error unit :=
  _ ← validateText "source_id" (st_SourceID row) 256 false;
  _ ← validateText "source_epoch" (st_SourceEpoch row) 128 false;
  _ ← guard_err (validLane (st_Lane row) && knownSourceStatus (st_Status row)) (invalidEvent "stored source identity or status is invalid");
  _ ← validateText "gap_reason" (st_GapReason row) 512 true;
  validateText "writer_epoch" (st_WriterEpoch row) 128 false.

Definition validateSourceStateWatermarks (row : SourceState) : result error unit :=
  _ ← guard_err (negb ((st_NextSequence row <? 1)%Z || (st_MaterializedSequence row <? 0)%Z || (st_DedupFloor row <? 0)%Z || (st_Revision row <? 1)%Z
                       || (st_NextSequence row <=? st_MaterializedSequence row)%Z || negb (st_NextSequence row =? st_MaterializedSequence row + 1)%Z
                       || (st_MaterializedSequence row <? st_DedupFloor row)%Z))
        (invalidEvent "stored source state has invalid watermarks");
  guard_err (negb (String.eqb (st_Status row) "gap" && String.eqb (st_GapReason row) EmptyString)) (invalidEvent "stored gap source state lacks reason").

Definition sourceStateFromRow (row : SourceState) : result error SourceState :=
  _ ← validateSourceStateIdentity row; _ ← validateSourceStateWatermarks row; Ok row.

Definition validateAndBuildFrame (f : IngressFrame) : result error IngressFrame := _ ← Frame_Validate f; Ok f.

Definition ingressReceiptFromRow (row : IngressReceipt) : result error IngressReceipt :=
  _ ← validateAndBuildFrame (rc_Frame row);
  _ ← guard_err (knownReceiptStatus (rc_Status row) && (String.length (rc_ErrorRef row) <=? 512)%nat) (invalidEvent "stored ingress receipt status or error is invalid");
  Ok row.

Definition agentEventFromRow (row : AgentEvent) : result error AgentEvent :=
  _ ← validateAndBuildFrame (ae_Frame row);
  _ ← guard_err (String.eqb (ae_Status row) "materialized") (invalidEvent "stored canonical event is not materialized");
  Ok row.

Definition CursorKey_Validate (k : CursorKey) : result error unit :=
  _ ← validateText "projection_id" (ck_ProjectionID k) 128 false;
  validateSourceTuple (ck_SourceID k) (ck_SourceEpoch k) (ck_Lane k).

Definition materializationCursorFromRow (row : MaterializationCursor) : result error MaterializationCursor :=
  let k := mc_Key row in
  _ ← validateText "projection_id" (ck_ProjectionID k) 128 false;
  _ ← validateText "source_id" (ck_SourceID k) 256 false;
  _ ← validateText "source_epoch" (ck_SourceEpoch k) 128 false;
  _ ← guard_err (validLane (ck_Lane k) && (0 <=? mc_MaterializedSequence row)%Z && (1 <=? mc_Revision row)%Z && knownCursorStatus (mc_Status row))
        (invalidEvent "stored materialization cursor is invalid");
  _ ← validateDigest "materialized_hash" (mc_MaterializedHash row) (0 <? mc_MaterializedSequence row)%Z;
  Ok row.

Definition validateTombstoneFields (row : Tombstone) : result error unit :=
  _ ← validateText "source_id" (tb_SourceID row) 256 false;
  _ ← validateText "source_epoch" (tb_SourceEpoch row) 128 false;
  _ ← guard_err (validLane (tb_Lane row) && (1 <=? tb_SourceSequence row)%Z && (0 <=? tb_DedupFloor row)%Z && knownTombstoneStatus (tb_Status row))
        (invalidEvent "stored tombstone is invalid");
  _ ← validateDigest "envelope_hash" (tb_EnvelopeHash row) true;
  _ ← validateText "event_id" (tb_EventID row) 128 false;
  validateText "canonical_cursor" (tb_CanonicalCursor row) 512 false.

Definition tombstoneFromRow (row : Tombstone) : result error Tombstone := _ ← validateTombstoneFields row; Ok row.

Definition TombstoneRequest_Validate (r : TombstoneRequest) : result error unit :=
  expectedCursor ← CanonicalCursor (tr_SourceID r) (tr_SourceEpoch r) (tr_Lane r) (tr_SourceSequence r);
  _ ← guard_err (0 <=? tr_ExpectedFloor r)%Z (invalidEvent "tombstone floor is invalid");
  _ ← validateDigest "envelope_hash" (tr_EnvelopeHash r) true;
  _ ← validateText "event_id" (tr_EventID r) 128 false;
  _ ← guard_err (String.eqb (tr_CanonicalCursor r) expectedCursor) (invalidEvent "tombstone cursor does not match source tuple");
  guard_err (str_in (tr_Status r) ["materialized"; "expired"; "quarantined"]) (invalidEvent "tombstone status is unsupported").
End validate.
