(* ===== verification/EventStore.v ===== *)
(** * The event store

    Models [store/eventstore] ([append.go], [cursor.go], [read.go], [store.go], [tx.go],
    [identity_fence_verifier.go]) with the queries of [event_store.sql] and the keys and
    triggers of its migration: frames of a source and lane arrive in any order, are kept
    as receipts, and become events of a dense log; projections have cursors into the log,
    and old events get tombstones.

    A transaction is a function on the database that returns a result and the database as
    the statements left it; the owner of the transaction keeps the new database or the old
    one.  Every statement may fail, at the will of [fault].  Not in this package, and so
    arguments: the fence on identities, the rows of identities that a receipt refers to,
    and the pins that retain events. *)

From S2P Require Import Prelude GoStrings WakeupLease EventContract.

(** ** Tables *)

Abbreviation skey := (string * string * Lane)%type.
Abbreviation rkey := (skey * Z)%type.
Abbreviation ckey := (string * skey)%type.

Record tables := mkTables {
  e_states : gmap skey SourceState; e_receipts : gmap rkey IngressReceipt; e_events : gmap rkey AgentEvent;
  e_tombstones : gmap rkey Tombstone; e_cursors : gmap ckey MaterializationCursor;
}.

Definition no_rows : tables := mkTables ∅ ∅ ∅ ∅ ∅.

(** The rows, and how many statements have run. *)
Record edb := mkEDB { e_tables : tables; e_step : nat }.

Definition state_key (s : SourceState) : skey := (st_SourceID s, st_SourceEpoch s, st_Lane s).
Definition frame_skey (f : IngressFrame) : skey := (fr_SourceID f, fr_SourceEpoch f, fr_Lane f).
Definition receiptKey (f : IngressFrame) : rkey := (frame_skey f, fr_SourceSequence f).
Definition stagedReceiptKey (s : SourceState) (sequence : Z) : rkey := (state_key s, sequence).
Definition cursor_skey (k : CursorKey) : skey := (ck_SourceID k, ck_SourceEpoch k, ck_Lane k).
Definition cursorParams (k : CursorKey) : ckey := (ck_ProjectionID k, cursor_skey k).
Definition request_skey (r : TombstoneRequest) : skey := (tr_SourceID r, tr_SourceEpoch r, tr_Lane r).
Definition request_rkey (r : TombstoneRequest) : rkey := (request_skey r, tr_SourceSequence r).

(** ** Transactions *)

Definition EM (A : Type) : Type := edb -> result error A * edb.

#[export] Instance EM_ret : MRet EM := fun A a s => (Ok a, s).
#[export] Instance EM_bind : MBind EM := fun A B f m s => match m s with (Ok a, s') => f a s' | (Err e, s') => (Err e, s') end.

Definition efail {A} (e : error) : EM A := fun s => (Err e, s).
Definition elift {A} (r : result error A) : EM A := fun s => (r, s).

(** A unique key is taken, and a reference or a check fails. *)
Definition unique_error : error := Errorf [ErrEventConflict] (Sprintf "UNIQUE constraint failed" []).
Definition reference_error : error := Errorf [ErrEventFence] (Sprintf "constraint failed" []).

Class EventEnv := {
  fault : nat -> option error;
  identity_rows : IngressFrame -> bool;
}.

Section statements.
Context `{EE : EventEnv}.

(** One statement. *)
Definition stmt {A} (f : tables -> result error A * tables) : EM A := fun s =>
  match fault (e_step s) with
  | Some e => (Err e, mkEDB (e_tables s) (S (e_step s)))
  | None => let '(r, t) := f (e_tables s) in (r, mkEDB t (S (e_step s)))
  end.

Definition query {A} (f : tables -> A) : EM A := stmt (fun s => (Ok (f s), s)).

Definition with_states (m : gmap skey SourceState) (s : tables) : tables := mkTables m (e_receipts s) (e_events s) (e_tombstones s) (e_cursors s).
Definition with_receipts (m : gmap rkey IngressReceipt) (s : tables) : tables := mkTables (e_states s) m (e_events s) (e_tombstones s) (e_cursors s).
Definition with_events (m : gmap rkey AgentEvent) (s : tables) : tables := mkTables (e_states s) (e_receipts s) m (e_tombstones s) (e_cursors s).
Definition with_tombstones (m : gmap rkey Tombstone) (s : tables) : tables := mkTables (e_states s) (e_receipts s) (e_events s) m (e_cursors s).
Definition with_cursors (m : gmap ckey MaterializationCursor) (s : tables) : tables := mkTables (e_states s) (e_receipts s) (e_events s) (e_tombstones s) m.

Definition GetOrchestrationEventSourceState (k : skey) : EM (option SourceState) := query (fun s => e_states s !! k).

(** The epochs of a source. *)
Definition ListOrchestrationEventSourceStatesBySource (sourceID : string) : EM (list SourceState) :=
  query (fun s => List.filter (fun st => String.eqb (st_SourceID st) sourceID) (map_to_list (e_states s)).*2).

Definition CreateOrchestrationEventSourceState (k : skey) (writerEpoch : string) : EM SourceState := stmt (fun s =>
  match e_states s !! k with
  | Some _ => (Err unique_error, s)
  | None =>
      let st := mkState k.1.1 k.1.2 k.2 1 0 0 1 "active" EmptyString writerEpoch in
      (Ok st, with_states (<[k := st]> (e_states s)) s)
  end).

(** The revision advances by one and no watermark moves back, or a trigger aborts. *)
Definition UpdateOrchestrationEventSourceState (k : skey) (next materialized floor nextRevision : Z) (status reason writerEpoch : string) (expectedRevision : Z)
  : EM nat := stmt (fun s =>
  match e_states s !! k with
  | None => (Ok 0, s)
  | Some st =>
      if negb (st_Revision st =? expectedRevision)%Z then (Ok 0, s)
      else if negb (nextRevision =? st_Revision st + 1)%Z || (floor <? st_DedupFloor st)%Z || (materialized <? st_MaterializedSequence st)%Z
              || (next <? st_NextSequence st)%Z || negb (materialized <? next)%Z || negb (floor <=? materialized)%Z
      then (Err reference_error, s)
      else (Ok 1, with_states (<[k := mkState k.1.1 k.1.2 k.2 next materialized floor nextRevision status reason writerEpoch]> (e_states s)) s)
  end).

Definition GetOrchestrationEventIngressReceipt (k : rkey) : EM (option IngressReceipt) := query (fun s => e_receipts s !! k).

Definition is_staged (r : IngressReceipt) : bool := String.eqb (rc_Status r) "staged".

Definition GetOrchestrationEventIngressReceiptAtSequence (k : rkey) : EM (option IngressReceipt) :=
  query (fun s => r ← e_receipts s !! k; if is_staged r then Some r else None).

Definition HasOrchestrationEventIngressStagedAfter (k : skey) (from : Z) : EM bool :=
  query (fun s => existsb (fun r => bool_decide (r.1.1 = k) && (from <=? r.1.2)%Z && is_staged r.2) (map_to_list (e_receipts s))).

Definition receipt_event_id (r : IngressReceipt) : string := ev_EventID (fr_Envelope (rc_Frame r)).

(** The sequence of a source is taken, or the event id. *)
Definition InsertOrchestrationEventIngressReceipt (f : IngressFrame) (status errorRef : string) : EM IngressReceipt := stmt (fun s =>
  let r := mkReceipt f status errorRef in
  if bool_decide (is_Some (e_receipts s !! receiptKey f))
     || existsb (fun r' => String.eqb (receipt_event_id r'.2) (receipt_event_id r)) (map_to_list (e_receipts s))
  then (Err unique_error, s)
  else if negb (identity_rows f) then (Err reference_error, s)
  else (Ok r, with_receipts (<[receiptKey f := r]> (e_receipts s)) s)).

Definition UpdateOrchestrationEventIngressReceiptStatus (k : rkey) (status errorRef expected : string) : EM nat := stmt (fun s =>
  match e_receipts s !! k with
  | Some r =>
      if String.eqb (rc_Status r) expected
      then (Ok 1, with_receipts (<[k := mkReceipt (rc_Frame r) status errorRef]> (e_receipts s)) s) else (Ok 0, s)
  | None => (Ok 0, s)
  end).

Definition event_id (e : AgentEvent) : string := ev_EventID (fr_Envelope (ae_Frame e)).

Definition GetOrchestrationAgentEvent (id : string) : EM (option AgentEvent) :=
  query (fun s => List.find (fun e => String.eqb (event_id e) id) (map_to_list (e_events s)).*2).

Definition GetOrchestrationAgentEventBySourceSequence (k : rkey) : EM (option AgentEvent) := query (fun s => e_events s !! k).

(** [inr]: a unique key is taken. *)
Definition InsertOrchestrationAgentEvent (f : IngressFrame) : EM (AgentEvent + error) := stmt (fun s =>
  let e := mkEvent f "materialized" in
  if bool_decide (is_Some (e_events s !! receiptKey f)) || existsb (fun e' => String.eqb (event_id e'.2) (event_id e)) (map_to_list (e_events s))
  then (Ok (inr unique_error), s)
  else if negb (bool_decide (is_Some (e_receipts s !! receiptKey f))) || negb (identity_rows f) then (Err reference_error, s)
  else (Ok (inl e), with_events (<[receiptKey f := e]> (e_events s)) s)).

Definition seq_le (a b : AgentEvent) : Prop := (fr_SourceSequence (ae_Frame a) <= fr_SourceSequence (ae_Frame b))%Z.
#[export] Instance seq_le_dec a b : Decision (seq_le a b) := decide (fr_SourceSequence (ae_Frame a) <= fr_SourceSequence (ae_Frame b))%Z.

Definition ListOrchestrationAgentEvents (k : skey) (after limit : Z) : EM (list AgentEvent) :=
  query (fun s => take (Z.to_nat limit)
    (merge_sort seq_le (List.filter (fun e => bool_decide (frame_skey (ae_Frame e) = k) && (after <? fr_SourceSequence (ae_Frame e))%Z) (map_to_list (e_events s)).*2))).

Definition GetOrchestrationEventTombstone (k : rkey) : EM (option Tombstone) := query (fun s => e_tombstones s !! k).

Definition InsertOrchestrationEventTombstone (t : Tombstone) : EM Tombstone := stmt (fun s =>
  let k := ((tb_SourceID t, tb_SourceEpoch t, tb_Lane t), tb_SourceSequence t) in
  match e_tombstones s !! k with
  | Some _ => (Err unique_error, s)
  | None => (Ok t, with_tombstones (<[k := t]> (e_tombstones s)) s)
  end).

Definition GetOrchestrationEventMaterializationCursor (k : ckey) : EM (option MaterializationCursor) := query (fun s => e_cursors s !! k).

Definition InsertOrchestrationEventMaterializationCursor (k : CursorKey) (sequence : Z) (hash status : string) : EM MaterializationCursor := stmt (fun s =>
  match e_cursors s !! cursorParams k, e_states s !! cursor_skey k with
  | Some _, _ => (Err unique_error, s)
  | None, None => (Err reference_error, s)
  | None, Some _ => let c := mkCursor k sequence hash 1 status in (Ok c, with_cursors (<[cursorParams k := c]> (e_cursors s)) s)
  end).

Definition UpdateOrchestrationEventMaterializationCursor (k : CursorKey) (sequence : Z) (hash status : string) (nextRevision expectedRevision : Z) : EM nat := stmt (fun s =>
  match e_cursors s !! cursorParams k with
  | None => (Ok 0, s)
  | Some c =>
      if negb (mc_Revision c =? expectedRevision)%Z then (Ok 0, s)
      else if negb (nextRevision =? mc_Revision c + 1)%Z || (sequence <? mc_MaterializedSequence c)%Z
              || negb ((sequence =? 0)%Z && String.eqb hash EmptyString || negb (String.eqb hash EmptyString))
      then (Err reference_error, s)
      else (Ok 1, with_cursors (<[cursorParams k := mkCursor k sequence hash nextRevision status]> (e_cursors s)) s)
  end).
End statements.

(** ** Appending *)

Definition maxEventDrain : nat := 1024.

(** What an append ends with: its answer, the error that is reported after the commit, and
    the events it materialised, in order. *)
Record Appended := mkAppended { ap_Result : AppendResult; ap_Terminal : option error; ap_Events : list AgentEvent }.

Definition resultForReceipt (state : SourceState) (receipt : IngressReceipt) : AppendResult := mkAppend receipt None state.

Definition requireEventRows (operation : string) (affected : nat) : result error unit :=
  guard_err (affected =? 1)%nat (Errorf [ErrEventFence] (Sprintf "%w: %s affected %d rows" [operation; pretty affected])).

(** [classifyEventDBError] of a row that is not there. *)
Definition found {A} (row : option A) : EM A := match row with Some a => mret a | None => efail (sentinel ErrEventNotFound) end.

Section append.
Context `{EC : EventCodec} `{EE : EventEnv}.

Definition rejectUnregisteredSourceEpoch (sourceID sourceEpoch : string) : EM unit :=
  rows ← ListOrchestrationEventSourceStatesBySource sourceID;
  if existsb (fun row => negb (String.eqb (st_SourceEpoch row) sourceEpoch)) rows then efail (sentinel ErrEventFence) else mret tt.

Definition getOrCreateSourceState (frame : IngressFrame) : EM SourceState :=
  row ← GetOrchestrationEventSourceState (frame_skey frame);
  match row with
  | Some row => elift (sourceStateFromRow row)
  | None =>
      _ ← rejectUnregisteredSourceEpoch (fr_SourceID frame) (fr_SourceEpoch frame);
      row ← CreateOrchestrationEventSourceState (frame_skey frame) (ev_WriterEpoch (fr_Envelope frame));
      elift (sourceStateFromRow row)
  end.

Definition validateSourceStateForAppend (state : SourceState) (frame : IngressFrame) : result error unit :=
  if negb (String.eqb (st_WriterEpoch state) (ev_WriterEpoch (fr_Envelope frame))) then Err (sentinel ErrEventFence)
  else if String.eqb (st_Status state) "active" then Ok tt
  else if String.eqb (st_Status state) "gap" then
    if String.eqb (fr_Lane frame) LaneControl then Err (sentinel ErrEventQuarantined) else Ok tt
  else if str_in (st_Status state) ["quarantined"; "closed"] then Err (sentinel ErrEventQuarantined)
  else Err (sentinel ErrEventFence).

Definition updateReceiptStatus (receipt : IngressReceipt) (status errorRef : string) : EM unit :=
  affected ← UpdateOrchestrationEventIngressReceiptStatus (receiptKey (rc_Frame receipt)) status errorRef (rc_Status receipt);
  elift (requireEventRows "update event receipt status" affected).

Definition updateSourceState (state : SourceState) (next materialized floor : Z) (status reason : string) : EM SourceState :=
  affected ← UpdateOrchestrationEventSourceState (state_key state) next materialized floor (st_Revision state + 1) status reason (st_WriterEpoch state) (st_Revision state);
  _ ← elift (requireEventRows "update event source state" affected);
  row ← GetOrchestrationEventSourceState (state_key state);
  row ← found row;
  elift (sourceStateFromRow row).

Definition quarantineExistingReceipt (state : SourceState) (receipt : IngressReceipt) : EM Appended :=
  let reason := "same source sequence has a different envelope hash" in
  _ ← updateReceiptStatus receipt "quarantined" reason;
  nextState ← updateSourceState state (st_NextSequence state) (st_MaterializedSequence state) (st_DedupFloor state) "quarantined" reason;
  mret (mkAppended (resultForReceipt nextState (mkReceipt (rc_Frame receipt) "quarantined" reason)) (Some (sentinel ErrEventConflict)) []).

Definition eventMatchesReceipt (event : AgentEvent) (receipt : IngressReceipt) : bool :=
  String.eqb (ae_Status event) "materialized" && bool_decide (ae_Frame event = rc_Frame receipt).

Definition replayMaterialized (state : SourceState) (receipt : IngressReceipt) : EM Appended :=
  row ← GetOrchestrationAgentEvent (receipt_event_id receipt);
  row ← found row;
  event ← elift (agentEventFromRow row);
  if negb (eventMatchesReceipt event receipt) then efail (sentinel ErrEventConflict)
  else mret (mkAppended (mkAppend receipt (Some event) state) None []).

Definition replayBelowFloor (frame : IngressFrame) : EM Appended :=
  row ← GetOrchestrationEventTombstone (receiptKey frame);
  match row with
  | None => efail (sentinel ErrEventFence)
  | Some row =>
      tombstone ← elift (tombstoneFromRow row);
      if negb (String.eqb (tb_EnvelopeHash tombstone) (fr_EnvelopeHash frame)) then efail (sentinel ErrEventConflict)
      else efail (sentinel ErrEventReplayExpired)
  end.

Definition insertStagedReceipt (frame : IngressFrame) : EM IngressReceipt :=
  row ← InsertOrchestrationEventIngressReceipt frame "staged" EmptyString; elift (ingressReceiptFromRow row).

Definition markGap (state : SourceState) (receipt : IngressReceipt) (received : Z) : EM SourceState :=
  updateSourceState state (st_NextSequence state) (st_MaterializedSequence state) (st_DedupFloor state) "gap"
    ("missing source sequence before " +:+ pretty received).

Definition markControlGap (state : SourceState) (receipt : IngressReceipt) (received : Z) : EM SourceState :=
  let reason := "missing control source sequence before " +:+ pretty received in
  _ ← updateReceiptStatus receipt "quarantined" reason;
  updateSourceState state (st_NextSequence state) (st_MaterializedSequence state) (st_DedupFloor state) "quarantined" reason.

Definition no_envelope : EventEnvelope :=
  mkEnvelope EmptyString EmptyString 0 EmptyString EmptyString EmptyString None EmptyString 0 EmptyString 0 EmptyString EmptyString EmptyString
    EmptyString EmptyString EmptyString 0 EmptyString None EmptyString EmptyString.
Definition no_result : AppendResult :=
  mkAppend (mkReceipt (mkFrame EmptyString EmptyString EmptyString 0 EmptyString EmptyString no_envelope) EmptyString EmptyString) None
    (mkState EmptyString EmptyString EmptyString 0 0 0 0 EmptyString EmptyString EmptyString).

(** The error of these two is committed, whatever it is. *)
Definition committed (m : EM SourceState) (receipt : IngressReceipt) (e : error) : EM Appended := fun s =>
  match m s with
  | (Ok state, s') => (Ok (mkAppended (resultForReceipt state receipt) (Some e) []), s')
  | (Err e', s') => (Ok (mkAppended no_result (Some e') []), s')
  end.

Definition loadStagedReceipt (state : SourceState) (sequence : Z) : EM (option IngressReceipt) :=
  row ← GetOrchestrationEventIngressReceiptAtSequence (stagedReceiptKey state sequence);
  match row with
  | None => mret None
  | Some row => receipt ← elift (ingressReceiptFromRow row); mret (Some receipt)
  end.

Definition insertOrReplayEvent (receipt : IngressReceipt) : EM AgentEvent :=
  row ← InsertOrchestrationAgentEvent (rc_Frame receipt);
  match row with
  | inl row => elift (agentEventFromRow row)
  | inr _ =>
      existing ← GetOrchestrationAgentEventBySourceSequence (receiptKey (rc_Frame receipt));
      existing ← found existing;
      event ← elift (agentEventFromRow existing);
      if negb (eventMatchesReceipt event receipt) then efail (sentinel ErrEventConflict) else mret event
  end.

Definition materializeReceipt (receipt : IngressReceipt) : EM AgentEvent :=
  event ← insertOrReplayEvent receipt;
  _ ← updateReceiptStatus receipt "materialized" EmptyString;
  mret event.

(** The next sequence, the watermark, the event, and the receipt that follows. *)
Definition drainOneEvent (state : SourceState) (current : IngressReceipt) (next materialized : Z)
  : EM (Z * Z * option AgentEvent * option IngressReceipt) :=
  current ← (if (fr_SourceSequence (rc_Frame current) =? next)%Z then mret (Some current) else loadStagedReceipt state next);
  match current with
  | None => mret (next, materialized, None, None)
  | Some current =>
      event ← materializeReceipt current;
      following ← loadStagedReceipt state (next + 1);
      mret ((next + 1)%Z, (materialized + 1)%Z, Some event, following)
  end.

Fixpoint drain_loop (fuel : nat) (state : SourceState) (current : IngressReceipt) (next materialized : Z) (events : list AgentEvent)
  : EM (Z * Z * list AgentEvent) :=
  match fuel with
  | 0 => mret (next, materialized, events)
  | S fuel =>
      '(next, materialized, event, following) ← drainOneEvent state current next materialized;
      let events := events ++ option_list event in
      match following with
      | Some current => drain_loop fuel state current next materialized events
      | None => mret (next, materialized, events)
      end
  end.

Definition stagedTailStatus (state : SourceState) (next : Z) : EM (string * string) :=
  row ← GetOrchestrationEventIngressReceiptAtSequence (stagedReceiptKey state next);
  match row with
  | Some _ => mret ("active", EmptyString)
  | None =>
      later ← HasOrchestrationEventIngressStagedAfter (state_key state) next;
      mret (if later : bool then ("gap", "missing source sequence at " +:+ pretty next) else ("active", EmptyString))
  end.

Definition materializeContiguousCollect (state : SourceState) (initial : IngressReceipt) : EM Appended :=
  '(next, materialized, events) ← drain_loop maxEventDrain state initial (st_NextSequence state) (st_MaterializedSequence state) [];
  '(status, reason) ← stagedTailStatus state next;
  nextState ← updateSourceState state next materialized (st_DedupFloor state) status reason;
  row ← GetOrchestrationEventIngressReceipt (receiptKey (rc_Frame initial));
  row ← found row;
  receipt ← elift (ingressReceiptFromRow row);
  let input := List.find (fun e => (fr_SourceSequence (ae_Frame e) =? fr_SourceSequence (rc_Frame initial))%Z) (rev events) in
  mret (mkAppended (mkAppend receipt input nextState) None events).

Definition appendExistingReceiptCollect (state : SourceState) (frame : IngressFrame) (row : IngressReceipt) : EM Appended :=
  existing ← elift (ingressReceiptFromRow row);
  if negb (String.eqb (fr_EnvelopeHash (rc_Frame existing)) (fr_EnvelopeHash frame)) then quarantineExistingReceipt state existing
  else if String.eqb (rc_Status existing) "quarantined" then efail (sentinel ErrEventQuarantined)
  else if String.eqb (rc_Status existing) "materialized" then replayMaterialized state existing
  else if negb (fr_SourceSequence (rc_Frame existing) =? st_NextSequence state)%Z
  then mret (mkAppended (resultForReceipt state existing) (Some (sentinel ErrEventGap)) [])
  else materializeContiguousCollect state existing.

Definition appendEventTxCollect (frame : IngressFrame) : EM Appended :=
  state ← getOrCreateSourceState frame;
  _ ← elift (validateSourceStateForAppend state frame);
  if (fr_SourceSequence frame <=? st_DedupFloor state)%Z then replayBelowFloor frame
  else
    existing ← GetOrchestrationEventIngressReceipt (receiptKey frame);
    match existing with
    | Some existing => appendExistingReceiptCollect state frame existing
    | None =>
        if (fr_SourceSequence frame <? st_NextSequence state)%Z then efail (sentinel ErrEventFence)
        else
          receipt ← insertStagedReceipt frame;
          if (st_NextSequence state <? fr_SourceSequence frame)%Z then
            if String.eqb (fr_Lane frame) LaneControl
            then committed (markControlGap state receipt (fr_SourceSequence frame))
                   (mkReceipt frame "quarantined" ("missing control source sequence before " +:+ pretty (fr_SourceSequence frame))) (sentinel ErrEventQuarantined)
            else committed (markGap state receipt (fr_SourceSequence frame)) receipt (sentinel ErrEventGap)
          else materializeContiguousCollect state receipt
    end.

Definition appendEventTx (frame : IngressFrame) : EM Appended :=
  _ ← elift (validateCanonicalEnvelopeHash frame); appendEventTxCollect frame.

(** [sqlctx.WithImmediateTx]: an error rolls back what the statements did. *)
Definition withWriteTx {A} (m : EM A) : EM A := fun s =>
  match m s with
  | (Ok a, s') => (Ok a, s')
  | (Err e, s') => (Err e, mkEDB (e_tables s) (e_step s'))
  end.

(** ** The fence of the ingress *)

(** A verifier reads in the transaction, or before it, or knows only the envelope. *)
Inductive FenceVerifier :=
| VerifierTx (verify : nat -> IngressFrame -> option error)
| FrameVerifier (verify : nat -> IngressFrame -> option error)
| EnvelopeVerifier (verify : nat -> EventEnvelope -> option error).

Definition fence_error (e : error) : error := Errorf (ErrEventFence :: err_is e) (err_msg e).

Definition check_fence (verify : nat -> option error) : EM unit := fun s =>
  match verify (e_step s) with Some e => (Err (fence_error e), s) | None => (Ok tt, s) end.

Definition no_tx_verifier : error := Errorf [ErrEventFence] (Sprintf "%w: transactional ingress fence verifier is required" []).

Definition appendValidated (verifier : FenceVerifier) (frame : IngressFrame) : EM Appended :=
  withWriteTx (
    _ ← match verifier with VerifierTx verify => check_fence (fun i => verify i frame) | _ => mret tt end;
    appendEventTxCollect frame).

Definition Append (verifier : FenceVerifier) (frame : IngressFrame) : EM Appended :=
  _ ← elift (Frame_Validate frame);
  _ ← elift (validateCanonicalEnvelopeHash frame);
  match verifier with
  | VerifierTx _ => appendValidated verifier frame
  | _ =>
      match ev_IncarnationID (fr_Envelope frame) with
      | Some _ => efail no_tx_verifier
      | None =>
          _ ← check_fence (fun i => match verifier with
                                    | VerifierTx _ => None
                                    | FrameVerifier verify => verify i frame
                                    | EnvelopeVerifier verify => verify i (fr_Envelope frame)
                                    end);
          appendValidated verifier frame
      end
  end.

(** ** In the transaction of a caller *)

Definition verifyAllocatedFrameFenceTx (verifier : FenceVerifier) (frame : IngressFrame) : EM unit :=
  match verifier with VerifierTx verify => check_fence (fun i => verify i frame) | _ => efail no_tx_verifier end.

Definition AppendTx (verifier : FenceVerifier) (frame : IngressFrame) : EM Appended :=
  _ ← elift (Frame_Validate frame);
  _ ← elift (validateCanonicalEnvelopeHash frame);
  _ ← verifyAllocatedFrameFenceTx verifier frame;
  appendEventTx frame.

Definition sourceStateForAllocation (k : skey) (writerEpoch : string) : EM SourceState :=
  row ← GetOrchestrationEventSourceState k;
  match row with
  | Some row => elift (sourceStateFromRow row)
  | None => _ ← rejectUnregisteredSourceEpoch k.1.1 k.1.2; mret (mkState k.1.1 k.1.2 k.2 1 0 0 1 "active" EmptyString writerEpoch)
  end.

Definition validateAllocationStatus (status : string) (lane : Lane) : result error unit :=
  if String.eqb status "active" then Ok tt
  else if String.eqb status "gap" then if String.eqb lane LaneControl then Err (sentinel ErrEventQuarantined) else Ok tt
  else if str_in status ["quarantined"; "closed"] then Err (sentinel ErrEventQuarantined) else Err (sentinel ErrEventFence).

Definition validateAllocationSequence (state : SourceState) : result error unit :=
  guard_err (negb ((st_NextSequence state <? 1)%Z || (st_MaterializedSequence state <? 0)%Z || (st_DedupFloor state <? 0)%Z || (st_Revision state <? 1)%Z
                   || (st_NextSequence state <=? st_MaterializedSequence state)%Z || negb (st_NextSequence state =? st_MaterializedSequence state + 1)%Z
                   || (st_MaterializedSequence state <? st_DedupFloor state)%Z)) (sentinel ErrEventFence).

Definition validateAllocatedSourceState (state : SourceState) (k : skey) (writerEpoch : string) : result error unit :=
  _ ← guard_err (bool_decide (state_key state = k) && String.eqb (st_WriterEpoch state) writerEpoch) (sentinel ErrEventFence);
  _ ← validateAllocationStatus (st_Status state) k.2;
  validateAllocationSequence state.

Definition validateAllocatedFrame (frame : IngressFrame) (k : skey) (writerEpoch : string) (sequence : Z) : result error unit :=
  _ ← guard_err (bool_decide (receiptKey frame = (k, sequence)) && String.eqb (ev_WriterEpoch (fr_Envelope frame)) writerEpoch)
        (Errorf [ErrEventFence] (Sprintf "%w: allocated frame does not match source or sequence" []));
  _ ← Frame_Validate frame;
  _ ← guard_err (String.eqb (fr_EnvelopeHash frame) (CanonicalEnvelopeHash (fr_Envelope frame)))
        (Errorf [ErrEventFence] (Sprintf "%w: allocated frame envelope hash is not canonical" []));
  cursor ← CanonicalCursor k.1.1 k.1.2 k.2 sequence;
  guard_err (String.eqb (fr_CanonicalCursor frame) cursor) (Errorf [ErrEventFence] (Sprintf "%w: allocated frame cursor is not canonical" [])).

Definition AppendAllocatedTx (verifier : FenceVerifier) (k : skey) (writerEpoch : string) (build : Z -> result error IngressFrame) : EM Appended :=
  _ ← elift (validateSourceKey k.1.1 k.1.2 k.2);
  _ ← elift (validateText "writer_epoch" writerEpoch 128 false);
  state ← sourceStateForAllocation k writerEpoch;
  _ ← elift (validateAllocatedSourceState state k writerEpoch);
  frame ← elift (build (st_NextSequence state));
  _ ← elift (validateAllocatedFrame frame k writerEpoch (st_NextSequence state));
  _ ← verifyAllocatedFrameFenceTx verifier frame;
  appendEventTx frame.

Definition AppendAllocatedEnvelopeTx (verifier : FenceVerifier) (k : skey) (writerEpoch : string) (build : result error EventEnvelope) : EM Appended :=
  AppendAllocatedTx verifier k writerEpoch (fun sequence =>
    envelope ← build;
    _ ← Envelope_Validate envelope;
    cursor ← CanonicalCursor k.1.1 k.1.2 k.2 sequence;
    Ok (mkFrame k.1.1 k.1.2 k.2 sequence (CanonicalEnvelopeHash envelope) cursor envelope)).

(** [WithTransaction] around one of these: the errors that are reported after the commit
    do not roll back. *)
Definition WithTransaction (m : EM Appended) : EM Appended := withWriteTx m.

(** ** Reading *)

Definition GetSourceState (k : skey) : EM SourceState :=
  _ ← elift (validateSourceKey k.1.1 k.1.2 k.2); row ← GetOrchestrationEventSourceState k; row ← found row; elift (sourceStateFromRow row).

Definition GetReceipt (k : skey) (sequence : Z) : EM IngressReceipt :=
  _ ← elift (validateSourceKey k.1.1 k.1.2 k.2);
  _ ← elift (guard_err (0 <? sequence)%Z (invalidEvent "source_sequence must be positive"));
  row ← GetOrchestrationEventIngressReceipt (k, sequence); row ← found row; elift (ingressReceiptFromRow row).

Definition GetEvent (eventID : string) : EM AgentEvent :=
  _ ← elift (validateText "event_id" eventID 128 false); row ← GetOrchestrationAgentEvent eventID; row ← found row; elift (agentEventFromRow row).

Fixpoint events_of_rows (rows : list AgentEvent) : result error (list AgentEvent) :=
  match rows with
  | [] => Ok []
  | row :: rows => event ← agentEventFromRow row; rest ← events_of_rows rows; Ok (event :: rest)
  end.

Definition listEvents (k : skey) (afterSequence limit : Z) : EM (list AgentEvent) :=
  rows ← ListOrchestrationAgentEvents k afterSequence limit; elift (events_of_rows rows).

Definition ListEvents (k : skey) (afterSequence limit : Z) : EM (list AgentEvent) :=
  _ ← elift (validateSourceKey k.1.1 k.1.2 k.2);
  _ ← elift (guard_err ((0 <=? afterSequence)%Z && (1 <=? limit)%Z && (limit <=? 200)%Z) (invalidEvent "event list requires after_sequence >= 0 and limit 1..200"));
  listEvents k afterSequence limit.

(** ** Cursors *)

Definition EnsureCursor (key : CursorKey) : EM MaterializationCursor :=
  _ ← elift (CursorKey_Validate key);
  withWriteTx (
    source ← GetOrchestrationEventSourceState (cursor_skey key);
    _ ← found source;
    row ← GetOrchestrationEventMaterializationCursor (cursorParams key);
    match row with
    | Some row => elift (materializationCursorFromRow row)
    | None => row ← InsertOrchestrationEventMaterializationCursor key 0 EmptyString "active"; elift (materializationCursorFromRow row)
    end).

Definition GetCursor (key : CursorKey) : EM MaterializationCursor :=
  _ ← elift (CursorKey_Validate key);
  row ← GetOrchestrationEventMaterializationCursor (cursorParams key); row ← found row; elift (materializationCursorFromRow row).

Definition loadCursorContext (key : CursorKey) : EM (SourceState * MaterializationCursor) :=
  row ← GetOrchestrationEventSourceState (cursor_skey key); row ← found row; state ← elift (sourceStateFromRow row);
  row ← GetOrchestrationEventMaterializationCursor (cursorParams key); row ← found row; cursor ← elift (materializationCursorFromRow row);
  mret (state, cursor).

Definition validateCursorAgainstSource (state : SourceState) (sequence : Z) : result error unit :=
  guard_err (sequence <=? st_MaterializedSequence state)%Z (sentinel ErrEventFence).

Definition cursorAdvanceAllowed (cursor : MaterializationCursor) (expectedRevision sequence : Z) : bool :=
  (mc_Revision cursor =? expectedRevision)%Z && (mc_MaterializedSequence cursor <=? sequence)%Z.

Definition writeCursorAdvance (key : CursorKey) (expectedRevision sequence : Z) (hash status : string) : EM MaterializationCursor :=
  affected ← UpdateOrchestrationEventMaterializationCursor key sequence hash status (expectedRevision + 1) expectedRevision;
  _ ← elift (requireEventRows "advance materialization cursor" affected);
  row ← GetOrchestrationEventMaterializationCursor (cursorParams key); row ← found row; elift (materializationCursorFromRow row).

Definition advanceCursorTx (key : CursorKey) (expectedRevision sequence : Z) (hash status : string) : EM MaterializationCursor :=
  '(state, cursor) ← loadCursorContext key;
  _ ← elift (validateCursorAgainstSource state sequence);
  if (mc_Revision cursor =? expectedRevision)%Z && (mc_MaterializedSequence cursor =? sequence)%Z && String.eqb (mc_MaterializedHash cursor) hash
     && String.eqb (mc_Status cursor) status
  then mret cursor
  else if negb (cursorAdvanceAllowed cursor expectedRevision sequence) then efail (sentinel ErrEventFence)
  else writeCursorAdvance key expectedRevision sequence hash status.

Definition AdvanceCursor (key : CursorKey) (expectedRevision sequence : Z) (hash status : string) : EM MaterializationCursor :=
  _ ← elift (CursorKey_Validate key);
  _ ← elift (guard_err (negb ((expectedRevision <=? 0)%Z || (sequence <? 0)%Z || negb (knownCursorStatus status))) (invalidEvent "cursor revision/sequence/status is invalid"));
  _ ← elift (validateDigest "materialized_hash" hash (0 <? sequence)%Z);
  withWriteTx (advanceCursorTx key expectedRevision sequence hash status).

(** ** Tombstones *)

Definition tombstoneFloorAllowed (state : SourceState) (req : TombstoneRequest) : bool :=
  (tr_SourceSequence req =? st_DedupFloor state + 1)%Z && (tr_SourceSequence req <=? st_MaterializedSequence state)%Z && (tr_ExpectedFloor req =? st_DedupFloor state)%Z.

Definition tombstoneReceiptMatches (receipt : IngressReceipt) (req : TombstoneRequest) : bool :=
  String.eqb (fr_EnvelopeHash (rc_Frame receipt)) (tr_EnvelopeHash req) && String.eqb (receipt_event_id receipt) (tr_EventID req)
  && String.eqb (fr_CanonicalCursor (rc_Frame receipt)) (tr_CanonicalCursor req) && String.eqb (rc_Status receipt) "materialized".

Definition replayTombstone (existing : Tombstone) (req : TombstoneRequest) : result error Tombstone :=
  if negb (String.eqb (tb_EnvelopeHash existing) (tr_EnvelopeHash req)) || negb (String.eqb (tb_EventID existing) (tr_EventID req))
     || negb (String.eqb (tb_CanonicalCursor existing) (tr_CanonicalCursor req)) || negb (String.eqb (tb_Status existing) (tr_Status req))
  then Err (sentinel ErrEventConflict) else Ok existing.

Definition insertTombstoneAndAdvance (state : SourceState) (req : TombstoneRequest) : EM Tombstone :=
  row ← InsertOrchestrationEventTombstone (mkTombstone (tr_SourceID req) (tr_SourceEpoch req) (tr_Lane req) (tr_SourceSequence req) (tr_EnvelopeHash req)
          (tr_EventID req) (tr_CanonicalCursor req) (tr_SourceSequence req) (tr_Status req));
  result ← elift (tombstoneFromRow row);
  _ ← updateSourceState state (st_NextSequence state) (st_MaterializedSequence state) (tr_SourceSequence req) (st_Status state) (st_GapReason state);
  mret result.

Definition recordTombstoneTx (retentionPin : option (nat -> TombstoneRequest -> option error)) (req : TombstoneRequest) : EM Tombstone :=
  row ← GetOrchestrationEventSourceState (request_skey req); row ← found row; state ← elift (sourceStateFromRow row);
  existing ← GetOrchestrationEventTombstone (request_rkey req);
  match existing with
  | Some existing => existing ← elift (tombstoneFromRow existing); elift (replayTombstone existing req)
  | None =>
      if negb (tombstoneFloorAllowed state req) then efail (sentinel ErrEventFence)
      else
        row ← GetOrchestrationEventIngressReceipt (request_rkey req); row ← found row; receipt ← elift (ingressReceiptFromRow row);
        if negb (tombstoneReceiptMatches receipt req) then efail (sentinel ErrEventFence)
        else
          _ ← match retentionPin with Some pin => check_fence (fun i => pin i req) | None => mret tt end;
          insertTombstoneAndAdvance state req
  end.

Definition RecordTombstone (retentionPin : option (nat -> TombstoneRequest -> option error)) (req : TombstoneRequest) : EM Tombstone :=
  _ ← elift (TombstoneRequest_Validate req); withWriteTx (recordTombstoneTx retentionPin req).
End append.
