(* ===== verification/EventLog.v ===== *)
(** * The log of the event store

    What [store/eventstore] promises of its tables: the events of a stream (a source, an
    epoch and a lane) form a dense log, the watermarks of the stream count it, every frame
    that arrived has one receipt, and tombstones cover a prefix of the log.  Every
    operation keeps this, whatever statement fails, and an append adds to the end of one
    log exactly the events that it reports. *)

From S2P Require Import Prelude GoStrings WakeupLease EventContract EventStore.

(** ** Running a transaction *)

(** [wp m Q E t]: on the rows [t], at any time, [m] ends well with [Q] or badly with [E]. *)
Definition wp {A} (m : EM A) (Q : A -> tables -> Prop) (E : tables -> Prop) (t : tables) : Prop :=
  forall i, match m (mkEDB t i) with (Ok a, s) => Q a (e_tables s) | (Err _, s) => E (e_tables s) end.

Lemma wp_mono {A} (m : EM A) (Q Q' : A -> tables -> Prop) (E E' : tables -> Prop) t :
  wp m Q E t -> (forall a t', Q a t' -> Q' a t') -> (forall t', E t' -> E' t') -> wp m Q' E' t.
Proof. intros W HQ HE i. specialize (W i). destruct (m _) as [[a|e] s]; auto. Qed.

Lemma wp_ret {A} (a : A) (Q : A -> tables -> Prop) E t : Q a t -> wp (mret a) Q E t.
Proof. by intros H i. Qed.

Lemma wp_bind {A B} (m : EM A) (f : A -> EM B) Q E t : wp m (fun a => wp (f a) Q E) E t -> wp (m ≫= f) Q E t.
Proof.
  intros W i. specialize (W i). unfold mbind, EM_bind.
  destruct (m _) as [[a|e] [t' j]]; [exact (W j) | exact W].
Qed.

Lemma wp_fail {A} e (Q : A -> tables -> Prop) (E : tables -> Prop) t : E t -> wp (efail e) Q E t.
Proof. by intros H i. Qed.

Lemma wp_lift {A} (r : result error A) (Q : A -> tables -> Prop) (E : tables -> Prop) t :
  (forall a, r = Ok a -> Q a t) -> (forall e, r = Err e -> E t) -> wp (elift r) Q E t.
Proof. intros H1 H2 i. cbn. destruct r; eauto. Qed.

Lemma wp_found {A} (r : option A) (Q : A -> tables -> Prop) (E : tables -> Prop) t :
  (forall a, r = Some a -> Q a t) -> (r = None -> E t) -> wp (found r) Q E t.
Proof. intros H1 H2 i. destruct r; cbn; auto. Qed.

Lemma wp_fence v (Q : unit -> tables -> Prop) (E : tables -> Prop) t : (forall i, v i = None -> Q tt t) -> E t -> wp (check_fence v) Q E t.
Proof. intros H1 H2 i. unfold check_fence. cbn. destruct (v i) eqn:Hi; [done | by eapply H1]. Qed.

Lemma wp_committed m r e Q E t :
  wp m (fun st => Q (mkAppended (resultForReceipt st r) (Some e) [])) (fun t' => forall e', Q (mkAppended no_result (Some e') []) t') t ->
  wp (committed m r e) Q E t.
Proof. intros W i. specialize (W i). unfold committed. destruct (m _) as [[a|e'] s]; auto. Qed.

(** An owner of a transaction that ends badly has the rows it began with. *)
Lemma wp_tx {A} (m : EM A) Q t : wp m Q (fun _ => True) t -> wp (withWriteTx m) Q (eq t) t.
Proof. intros W i. specialize (W i). unfold withWriteTx. by destruct (m _) as [[a|e] s]. Qed.

Section statements.
Context `{EE : EventEnv}.

(** No statement fails, or a failure is accepted. *)
Definition allowed (E : tables -> Prop) (t : tables) : Prop := (forall i, fault i = None) \/ E t.

Lemma wp_stmt {A} (f : tables -> result error A * tables) (Q : A -> tables -> Prop) (E : tables -> Prop) t :
  allowed E t -> match f t with (Ok a, t') => Q a t' | (Err _, t') => E t' end -> wp (stmt f) Q E t.
Proof.
  intros Hf W i. unfold stmt; cbn. destruct (fault i) as [e|] eqn:F.
  - destruct Hf as [Hf|?]; [by rewrite Hf in F | done].
  - by destruct (f t) as [[a|e] t'].
Qed.

Lemma wp_query {A} (f : tables -> A) (Q : A -> tables -> Prop) (E : tables -> Prop) t :
  allowed E t -> Q (f t) t -> wp (query f) Q E t.
Proof. intros Hf W. by apply wp_stmt. Qed.
End statements.

Create HintDb wp_db.
#[export] Hint Resolve I : wp_db.

(** One step of a transaction. *)
Ltac wp1 :=
  lazymatch goal with
  | |- wp (_ ≫= _) _ _ _ => apply wp_bind
  | |- wp (mret _) _ _ _ => apply wp_ret
  | |- wp (efail _) _ _ _ => apply wp_fail
  | |- wp (elift _) _ _ _ => apply wp_lift; [intros ? ? | intros ? _]
  | |- wp (found _) _ _ _ => apply wp_found; [intros ? ? | intros ?]
  | |- wp (check_fence _) _ _ _ => apply wp_fence
  | |- wp (query _) _ _ _ => apply wp_query
  | |- wp (match ?x with _ => _ end) _ _ _ => destruct x eqn:?
  end.

(** ** The invariant *)

(** What a receipt of sequence [n] says when the log has [m] events. *)
Definition receipt_ok (t : tables) (k : skey) (n m : Z) (r : IngressReceipt) : Prop :=
  if decide (n <= m)%Z
  then e_events t !! (k, n) = Some (mkEvent (rc_Frame r) "materialized") /\ (rc_Status r = "materialized" \/ rc_Status r = "quarantined")
  else e_events t !! (k, n) = None /\ (rc_Status r = "staged" \/ rc_Status r = "quarantined").

(** The receipts and the events, with the lengths of the logs. *)
Record logs_ok (lengths : gmap skey Z) (t : tables) : Prop := {
  lo_receipt k n r : e_receipts t !! (k, n) = Some r ->
    receiptKey (rc_Frame r) = (k, n) /\ (1 <= n)%Z /\ exists m, lengths !! k = Some m /\ receipt_ok t k n m r;
  lo_event k n : is_Some (e_events t !! (k, n)) -> is_Some (e_receipts t !! (k, n));
  lo_dense k n m : lengths !! k = Some m -> (1 <= n <= m)%Z -> is_Some (e_receipts t !! (k, n));
  lo_id a b r r' : e_receipts t !! a = Some r -> e_receipts t !! b = Some r' -> receipt_event_id r = receipt_event_id r' -> a = b;
}.

(** The watermarks of a stream. *)
Definition watermarks_ok (st : SourceState) : Prop :=
  st_NextSequence st = (st_MaterializedSequence st + 1)%Z /\ (0 <= st_DedupFloor st <= st_MaterializedSequence st)%Z.

Definition lengths (t : tables) : gmap skey Z := st_MaterializedSequence <$> e_states t.

(** The states, the tombstones and the cursors. *)
Record rest_ok (t : tables) : Prop := {
  ok_state k st : e_states t !! k = Some st -> state_key st = k /\ watermarks_ok st;
  ok_epoch k k' : is_Some (e_states t !! k) -> is_Some (e_states t !! k') -> k.1.1 = k'.1.1 -> k.1.2 = k'.1.2;
  ok_tombstone k n : is_Some (e_tombstones t !! (k, n)) <-> exists st, e_states t !! k = Some st /\ (1 <= n <= st_DedupFloor st)%Z;
  ok_buried k n tb r : e_tombstones t !! (k, n) = Some tb -> e_receipts t !! (k, n) = Some r ->
    tb_EnvelopeHash tb = fr_EnvelopeHash (rc_Frame r) /\ tb_EventID tb = receipt_event_id r;
  ok_cursor p k c : e_cursors t !! (p, k) = Some c -> exists st, e_states t !! k = Some st /\ (mc_MaterializedSequence c <= st_MaterializedSequence st)%Z;
}.

Record tables_ok (t : tables) : Prop := { ok_logs : logs_ok (lengths t) t; ok_rest : rest_ok t }.

(** The log of a stream. *)
Definition log_upto (t : tables) (k : skey) (m : Z) : list AgentEvent :=
  omap (fun n => e_events t !! (k, Z.of_nat n)) (seq 1 (Z.to_nat m)).

Definition log (t : tables) (k : skey) : list AgentEvent := log_upto t k (default 0%Z (lengths t !! k)).

(** ** The rows under the statements *)

Lemma existsb_rows {K A} `{Countable K} (p : K * A -> bool) (m : gmap K A) :
  existsb p (map_to_list m) = false <-> forall k x, m !! k = Some x -> p (k, x) = false.
Proof.
  rewrite existsb_false_iff, Forall_forall. split; intros H1.
  - intros k x Hk. by apply H1, elem_of_map_to_list.
  - intros [k x] Hk%elem_of_map_to_list. by apply H1.
Qed.

(** What materialising a receipt does to the rows. *)
Definition mark (e : AgentEvent) (t : tables) : tables :=
  with_receipts (<[receiptKey (ae_Frame e) := mkReceipt (ae_Frame e) "materialized" EmptyString]> (e_receipts t))
    (with_events (<[receiptKey (ae_Frame e) := e]> (e_events t)) t).

Section logs.
Context (L : gmap skey Z) (t : tables) (HL : logs_ok L t).

Lemma event_row k n e : e_events t !! (k, n) = Some e ->
  exists r m, e_receipts t !! (k, n) = Some r /\ e = mkEvent (rc_Frame r) "materialized" /\ L !! k = Some m /\ (1 <= n <= m)%Z.
Proof.
  intros He. destruct (lo_event _ _ HL k n) as [r Hr]; [by eexists|].
  destruct (lo_receipt _ _ HL k n r Hr) as (_ & Hn & m & Hm & Ho). exists r, m.
  unfold receipt_ok in Ho. case_decide as Hd; destruct Ho as [Ho _]; rewrite Ho in He; [|done].
  injection He as <-. split_and!; [done|done|done|lia..].
Qed.

Lemma staged_ahead k n m r : e_receipts t !! (k, n) = Some r -> rc_Status r = "staged" -> L !! k = Some m -> (m < n)%Z /\ e_events t !! (k, n) = None.
Proof.
  intros Hr Hs Hm. destruct (lo_receipt _ _ HL k n r Hr) as (_ & _ & m' & Hm' & Ho). rewrite Hm in Hm'. injection Hm' as <-.
  unfold receipt_ok in Ho. case_decide as Hd; [destruct Ho as [_ [Ho|Ho]]; congruence|]. split; [lia | apply Ho].
Qed.

(** The event id of a receipt that is not materialised is not the id of an event. *)
Lemma staged_id_free k n r : e_receipts t !! (k, n) = Some r -> e_events t !! (k, n) = None ->
  existsb (fun e => String.eqb (event_id e.2) (receipt_event_id r)) (map_to_list (e_events t)) = false.
Proof.
  intros Hr He. apply existsb_rows. intros [k' n'] e He'. cbn. apply String.eqb_neq. intros Hid.
  destruct (event_row k' n' e He') as (r' & m & Hr' & -> & _).
  assert ((k', n') = (k, n)) as Heq by (apply (lo_id _ _ HL _ _ r' r); done). congruence.
Qed.

Lemma logs_quarantine key r ref : e_receipts t !! key = Some r ->
  logs_ok L (with_receipts (<[key := mkReceipt (rc_Frame r) "quarantined" ref]> (e_receipts t)) t).
Proof.
  intros Hr. destruct key as [k0 n0].
  assert (Hl : forall a r', <[(k0, n0) := mkReceipt (rc_Frame r) "quarantined" ref]> (e_receipts t) !! a = Some r' ->
    exists r0, e_receipts t !! a = Some r0 /\ rc_Frame r' = rc_Frame r0 /\ (rc_Status r' = rc_Status r0 \/ rc_Status r' = "quarantined")).
  { intros a r'. rewrite lookup_insert_Some. intros [[<- <-]|[_ Ha]]; eauto 10. }
  split.
  - intros k n r' (r0 & Hr0 & Hf & Hst)%Hl. destruct (lo_receipt _ _ HL k n r0 Hr0) as (Hk & Hn & m & Hm & Ho).
    rewrite Hf. split_and!; [done|done|]. exists m. split; [done|]. unfold receipt_ok in *. cbn. rewrite Hf.
    case_decide; destruct Ho as [He Hs]; (split; [done|]); destruct Hst as [->| ->]; tauto.
  - intros k n He. apply (lo_event _ _ HL) in He. cbn. rewrite lookup_insert_is_Some'. by right.
  - intros k n m Hm Hn. cbn. rewrite lookup_insert_is_Some'. right. by apply (lo_dense _ _ HL k n m).
  - intros a b r1 r2 (r3 & H3 & F3 & _)%Hl (r4 & H4 & F4 & _)%Hl. unfold receipt_event_id. rewrite F3, F4. by apply (lo_id _ _ HL).
Qed.

Lemma logs_stage f m ref : L !! frame_skey f = Some m -> (m < fr_SourceSequence f)%Z -> (1 <= fr_SourceSequence f)%Z ->
  e_receipts t !! receiptKey f = None ->
  existsb (fun r' => String.eqb (receipt_event_id r'.2) (ev_EventID (fr_Envelope f))) (map_to_list (e_receipts t)) = false ->
  logs_ok L (with_receipts (<[receiptKey f := mkReceipt f "staged" ref]> (e_receipts t)) t).
Proof.
  intros Hm Hlt H1 Hnone Hid. rewrite existsb_rows in Hid.
  assert (Hev : e_events t !! receiptKey f = None).
  { destruct (e_events t !! receiptKey f) as [e|] eqn:He; [|done].
    destruct (lo_event _ _ HL (frame_skey f) (fr_SourceSequence f)) as [r Hr]; [by eexists|]. unfold receiptKey in *. congruence. }
  split.
  - intros k n r'. cbn. rewrite lookup_insert_Some. intros [[Hk <-]|[_ Hr]]; cbn.
    + unfold receiptKey in Hk. injection Hk as <- <-. split_and!; [done|done|]. exists m. split; [done|]. unfold receipt_ok. cbn.
      case_decide; [lia|]. split; [exact Hev | by left].
    + destruct (lo_receipt _ _ HL k n r' Hr) as (Hk & Hn & m' & Hm' & Ho). eauto.
  - intros k n He. apply (lo_event _ _ HL) in He. cbn. rewrite lookup_insert_is_Some'. by right.
  - intros k n m' Hm' Hn. cbn. rewrite lookup_insert_is_Some'. right. by apply (lo_dense _ _ HL k n m').
  - intros a b r1 r2. cbn. rewrite !lookup_insert_Some. intros [[<- <-]|[Ha H3]] [[<- <-]|[Hb H4]] E; [done| | |by apply (lo_id _ _ HL _ _ r1 r2)].
    + specialize (Hid b r2 H4). cbn in Hid. apply String.eqb_neq in Hid. unfold receipt_event_id in *. cbn in E. congruence.
    + specialize (Hid a r1 H3). cbn in Hid. apply String.eqb_neq in Hid. unfold receipt_event_id in *. cbn in E. congruence.
Qed.

Lemma logs_mark k n r : L !! k = Some (n - 1)%Z -> e_receipts t !! (k, n) = Some r -> rc_Status r = "staged" ->
  logs_ok (<[k := n]> L) (mark (mkEvent (rc_Frame r) "materialized") t).
Proof.
  intros Hm Hr Hs. destruct (lo_receipt _ _ HL k n r Hr) as (Hk & Hn1 & _).
  assert (Hl : forall a r', <[(k, n) := mkReceipt (rc_Frame r) "materialized" EmptyString]> (e_receipts t) !! a = Some r' ->
    exists r0, e_receipts t !! a = Some r0 /\ rc_Frame r' = rc_Frame r0).
  { intros a r'. rewrite lookup_insert_Some. intros [[<- <-]|[_ Ha]]; eauto. }
  unfold mark. cbn [ae_Frame]. rewrite Hk. split.
  - intros k' n' r'. cbn. rewrite lookup_insert_Some. intros [[Heq <-]|[Hne Hr']].
    + injection Heq as <- <-. cbn. split_and!; [done|done|]. exists n. rewrite lookup_insert_eq. split; [done|].
      unfold receipt_ok. case_decide; [|lia]. cbn. rewrite lookup_insert_eq. auto.
    + destruct (lo_receipt _ _ HL k' n' r' Hr') as (Hk' & Hn' & m & Hm' & Ho). split_and!; [done|done|].
      unfold receipt_ok in *. cbn. rewrite (lookup_insert_ne (e_events t)) by done. destruct (decide (k' = k)) as [->|Hkk].
      * exists n. rewrite lookup_insert_eq. split; [done|]. rewrite Hm in Hm'. injection Hm' as <-. assert (n' <> n) by congruence.
        destruct (decide (n' <= n - 1)%Z); destruct (decide (n' <= n)%Z); try lia; done.
      * exists m. by rewrite lookup_insert_ne.
  - intros k' n'. cbn. rewrite !lookup_insert_is_Some'. intros [?|He]; [by left|]. right. by apply (lo_event _ _ HL).
  - intros k' n' m. cbn. rewrite lookup_insert_is_Some'. rewrite lookup_insert_Some. intros [[<- <-]|[Hne Hm']] Hn'.
    + destruct (decide (n' = n)) as [->|]; [by left|]. right. apply (lo_dense _ _ HL k n' _ Hm). lia.
    + right. by apply (lo_dense _ _ HL k' n' m).
  - intros a b r1 r2 (r3 & H3 & F3)%Hl (r4 & H4 & F4)%Hl. unfold receipt_event_id. rewrite F3, F4. by apply (lo_id _ _ HL).
Qed.

Lemma logs_open k : L !! k = None -> logs_ok (<[k := 0%Z]> L) t.
Proof.
  intros Hk. split.
  - intros k' n r Hr. destruct (lo_receipt _ _ HL k' n r Hr) as (E & Hn & m & Hm & Ho). split_and!; [done|done|].
    exists m. rewrite lookup_insert_ne by congruence. done.
  - apply HL.
  - intros k' n m. rewrite lookup_insert_Some. intros [[<- <-]|[_ Hm]] ?; [lia|]. by apply (lo_dense _ _ HL k' n m).
  - apply HL.
Qed.
End logs.

(** ** Logs *)

Lemma log_upto_nil t k m : (m <= 0)%Z -> log_upto t k m = [].
Proof. intros ?. unfold log_upto. by replace (Z.to_nat m) with 0 by lia. Qed.

Lemma log_upto_snoc t k m e : (0 <= m)%Z -> e_events t !! (k, (m + 1)%Z) = Some e -> log_upto t k (m + 1) = log_upto t k m ++ [e].
Proof.
  intros Hm He. unfold log_upto. replace (Z.to_nat (m + 1)) with (S (Z.to_nat m)) by lia. rewrite seq_S, omap_app. f_equal. cbn.
  replace (Z.of_nat (S (Z.to_nat m))) with (m + 1)%Z by lia. by rewrite He.
Qed.

Lemma log_upto_ext t t' k m : (forall n, (1 <= n <= m)%Z -> e_events t' !! (k, n) = e_events t !! (k, n)) -> log_upto t' k m = log_upto t k m.
Proof.
  intros Heq. unfold log_upto. apply list_omap_ext, Forall_Forall2_diag, Forall_forall.
  intros n [? ?]%elem_of_seq. apply Heq. lia.
Qed.

Lemma log_upto_lookup L t k m j : logs_ok L t -> L !! k = Some m -> (Z.of_nat j < m)%Z -> log_upto t k m !! j = e_events t !! (k, Z.of_nat j + 1)%Z.
Proof.
  intros HL Hm. revert j.
  assert (G : forall i, (Z.of_nat i <= m)%Z -> length (log_upto t k (Z.of_nat i)) = i /\
    forall j, j < i -> log_upto t k (Z.of_nat i) !! j = e_events t !! (k, Z.of_nat j + 1)%Z).
  { induction i as [|i IH]; intros Hi; [split; [done | intros; lia]|].
    destruct (IH ltac:(lia)) as [Hlen Hat].
    destruct (lo_dense _ _ HL k (Z.of_nat i + 1)%Z m Hm ltac:(lia)) as [r Hr].
    destruct (lo_receipt _ _ HL _ _ _ Hr) as (_ & _ & m' & Hm' & Ho). assert (m' = m) as -> by congruence.
    unfold receipt_ok in Ho. rewrite decide_True in Ho by lia. destruct Ho as [He _].
    replace (Z.of_nat (S i)) with (Z.of_nat i + 1)%Z by lia. rewrite (log_upto_snoc t k (Z.of_nat i) _ ltac:(lia) He), length_app, Hlen. split; [cbn; lia|].
    intros j Hj. destruct (decide (j = i)) as [->|]; [by rewrite lookup_app_r, Hlen, Nat.sub_diag, He by lia|].
    rewrite lookup_app_l by lia. apply Hat. lia. }
  intros j Hj. destruct (G (Z.to_nat m) ltac:(lia)) as [_ Hat]. rewrite Z2Nat.id in Hat by lia. apply Hat. lia.
Qed.

Lemma log_upto_length L t k m : logs_ok L t -> L !! k = Some m -> (0 <= m)%Z -> Z.of_nat (length (log_upto t k m)) = m.
Proof.
  intros HL Hm H0. destruct (decide (Z.of_nat (length (log_upto t k m)) < m)%Z) as [Hlt|Hge].
  - exfalso. pose proof (log_upto_lookup _ _ _ _ _ HL Hm Hlt) as He. rewrite lookup_ge_None_2 in He by lia.
    destruct (lo_dense _ _ HL k (Z.of_nat (length (log_upto t k m)) + 1)%Z m Hm ltac:(lia)) as [r Hr].
    destruct (lo_receipt _ _ HL _ _ _ Hr) as (_ & _ & m' & Hm' & Ho). assert (m' = m) as -> by congruence.
    unfold receipt_ok in Ho. rewrite decide_True in Ho by lia. destruct Ho as [Ho _]. congruence.
  - assert (G : forall l, length (omap (fun n => e_events t !! (k, Z.of_nat n)) l) <= length l).
    { induction l as [|x l IH]; cbn; [done|]. case_match; cbn; lia. }
    specialize (G (seq 1 (Z.to_nat m))). rewrite length_seq in G. unfold log_upto in *. lia.
Qed.

(** ** Runs of staged receipts *)

Definition marks (evs : list AgentEvent) (t : tables) : tables := foldl (fun t e => mark e t) t evs.

Definition staged_at (t : tables) (k : skey) (n : Z) : Prop := exists r, e_receipts t !! (k, n) = Some r /\ rc_Status r = "staged".

(** The events of a run of staged receipts that begins at [n]. *)
Fixpoint staged_run (t : tables) (k : skey) (n : Z) (evs : list AgentEvent) : Prop :=
  match evs with
  | [] => True
  | e :: evs => (exists r, e_receipts t !! (k, n) = Some r /\ rc_Status r = "staged" /\ e = mkEvent (rc_Frame r) "materialized") /\ staged_run t k (n + 1) evs
  end.

Lemma staged_run_lookup t k n evs j e : staged_run t k n evs -> evs !! j = Some e ->
  exists r, e_receipts t !! (k, (n + Z.of_nat j)%Z) = Some r /\ rc_Status r = "staged" /\ e = mkEvent (rc_Frame r) "materialized".
Proof.
  revert n j. induction evs as [|x evs IH]; intros n [|j]; try done.
  - intros [(r & Hr) _] [= <-]. exists r. by rewrite Z.add_0_r.
  - intros [_ Hrun] Hj. destruct (IH _ _ Hrun Hj) as (r & Hr & Hrest). exists r. split; [|done]. rewrite <- Hr. do 2 f_equal. lia.
Qed.

Lemma staged_run_ext t t' k n evs : (forall n', (n <= n')%Z -> e_receipts t' !! (k, n') = e_receipts t !! (k, n')) ->
  staged_run t' k n evs -> staged_run t k n evs.
Proof.
  revert n. induction evs as [|e evs IH]; intros n Heq; [done|]. intros [(r & Hr & Hs) Hrun]. split.
  - exists r. by rewrite <- Heq by lia.
  - apply IH; [|done]. intros. apply Heq. lia.
Qed.

Lemma mark_receipts e t key : key <> receiptKey (ae_Frame e) -> e_receipts (mark e t) !! key = e_receipts t !! key.
Proof. intros. cbn. by rewrite lookup_insert_ne. Qed.

Lemma mark_events e t key : key <> receiptKey (ae_Frame e) -> e_events (mark e t) !! key = e_events t !! key.
Proof. intros. cbn. by rewrite lookup_insert_ne. Qed.

(** What the rows are after a run is materialised. *)
Record marked (k : skey) (n : Z) (evs : list AgentEvent) (t t' : tables) : Prop := {
  mk_rest : e_states t' = e_states t /\ e_tombstones t' = e_tombstones t /\ e_cursors t' = e_cursors t;
  mk_out key : key.1 <> k \/ (key.2 < n)%Z \/ (n + Z.of_nat (length evs) <= key.2)%Z ->
    e_receipts t' !! key = e_receipts t !! key /\ e_events t' !! key = e_events t !! key;
  mk_in j e : evs !! j = Some e -> e_receipts t' !! (k, (n + Z.of_nat j)%Z) = Some (mkReceipt (ae_Frame e) "materialized" EmptyString);
}.

(** A receipt is as before, or it was staged and is materialised. *)
Lemma marked_receipt k n evs t t' key : marked k n evs t t' -> staged_run t k n evs ->
  e_receipts t' !! key = e_receipts t !! key
  \/ exists r, e_receipts t !! key = Some r /\ rc_Status r = "staged" /\ e_receipts t' !! key = Some (mkReceipt (rc_Frame r) "materialized" EmptyString).
Proof.
  intros Hmk Hrun. destruct key as [k1 n1]. destruct (decide (k1 = k)) as [->|Hne]; [|left; apply (mk_out _ _ _ _ _ Hmk); by left].
  destruct (decide (n <= n1 < n + Z.of_nat (length evs))%Z) as [Hin|Hout]; [right|left; apply (mk_out _ _ _ _ _ Hmk); right; cbn; lia].
  destruct (lookup_lt_is_Some_2 evs (Z.to_nat (n1 - n)) ltac:(lia)) as [e He].
  pose proof (mk_in _ _ _ _ _ Hmk _ _ He) as Hr'. destruct (staged_run_lookup _ _ _ _ _ _ Hrun He) as (r & Hr & Hs & ->).
  replace (n + Z.of_nat (Z.to_nat (n1 - n)))%Z with n1 in * by lia. eauto.
Qed.

Lemma marks_ok L t k n evs : logs_ok L t -> L !! k = Some (n - 1)%Z -> (1 <= n)%Z -> staged_run t k n evs ->
  logs_ok (<[k := (n - 1 + Z.of_nat (length evs))%Z]> L) (marks evs t)
  /\ log_upto (marks evs t) k (n - 1 + Z.of_nat (length evs)) = log_upto t k (n - 1) ++ evs
  /\ marked k n evs t (marks evs t).
Proof.
  revert L t n. induction evs as [|e evs IH]; intros L t n HL Hm Hn Hrun.
  - cbn [length]. rewrite Z.add_0_r, app_nil_r, insert_id by done. split_and!; [done|done|]. by split.
  - destruct Hrun as [(r & Hr & Hs & ->) Hrun]. pose proof (logs_mark _ _ HL _ _ _ Hm Hr Hs) as HL'.
    destruct (lo_receipt _ _ HL _ _ _ Hr) as (Hk & _). set (e := mkEvent (rc_Frame r) "materialized") in *.
    assert (Hk' : receiptKey (ae_Frame e) = (k, n)) by exact Hk.
    destruct (IH (<[k := n]> L) (mark e t) (n + 1)%Z HL') as (HL2 & Hlog & Hmk).
    { rewrite lookup_insert_eq. f_equal. lia. }
    { lia. }
    { eapply staged_run_ext; [|exact Hrun]. intros n' Hn'. symmetry. apply mark_receipts. rewrite Hk'. intros [=]. lia. }
    rewrite insert_insert_eq in HL2. cbn [length marks foldl].
    replace (n + 1 - 1 + Z.of_nat (length evs))%Z with (n - 1 + Z.of_nat (S (length evs)))%Z in * by lia.
    split_and!; [exact HL2| |].
    + unfold marks in Hlog. rewrite Hlog. replace (n + 1 - 1)%Z with (n - 1 + 1)%Z by lia.
      rewrite (log_upto_snoc (mark e t) k (n - 1) e) by (try lia; cbn; rewrite Hk; replace (n - 1 + 1)%Z with n by lia; apply lookup_insert_eq).
      rewrite <- app_assoc. cbn. f_equal. apply log_upto_ext. intros n' Hn'. apply mark_events. rewrite Hk'. intros [=]. lia.
    + destruct Hmk as [Hrest Hout Hin]. split; [exact Hrest| |].
      * intros key Hkey. cbn [length] in Hkey. destruct (Hout key) as [H1 H2]; [destruct Hkey as [?|[?|?]]; [by left|right; left; lia|right; right; lia]|].
        unfold marks in H1, H2. assert (key <> receiptKey (ae_Frame e)) by (rewrite Hk'; intros ->; cbn in Hkey; destruct Hkey as [?|[?|?]]; [done|lia|lia]).
        split; [rewrite H1; by apply mark_receipts | rewrite H2; by apply mark_events].
      * intros [|j] e'.
        -- intros [= <-]. destruct (Hout (k, n)) as [H1 _]; [right; left; cbn; lia|]. rewrite Z.add_0_r. unfold marks in H1. rewrite H1.
           cbn. rewrite Hk. apply lookup_insert_eq.
        -- intros He'. specialize (Hin j e' He'). replace (n + Z.of_nat (S j))%Z with (n + 1 + Z.of_nat j)%Z by lia. exact Hin.
Qed.

(** ** Changes that keep the rest *)

Definition put_state (k : skey) (st : SourceState) (t : tables) : tables := with_states (<[k := st]> (e_states t)) t.

Lemma lengths_put k st t : lengths (put_state k st t) = <[k := st_MaterializedSequence st]> (lengths t).
Proof. unfold lengths. cbn. by rewrite fmap_insert. Qed.

Lemma logs_states L k st t : logs_ok L t -> logs_ok L (put_state k st t).
Proof. by intros [H1 H2 H3 H4]; split. Qed.

(** The receipts keep their frames, or have no tombstone. *)
Lemma rest_frames t t' : rest_ok t -> e_states t' = e_states t -> e_tombstones t' = e_tombstones t -> e_cursors t' = e_cursors t ->
  (forall key r', e_receipts t' !! key = Some r' -> (exists r, e_receipts t !! key = Some r /\ rc_Frame r' = rc_Frame r) \/ e_tombstones t !! key = None) ->
  rest_ok t'.
Proof.
  intros [H1 H2 H3 H4 H5] Es Et Ec Hr. split; rewrite ?Es, ?Et, ?Ec; [done|done|done| |done].
  intros k n tb r' Htb Hr'. destruct (Hr _ _ Hr') as [(r & Hr0 & Hf)|Hno]; [|congruence]. unfold receipt_event_id. rewrite Hf. by apply (H4 k n tb r).
Qed.

(** A stream moves on. *)
Lemma rest_put k st st' t : rest_ok t -> e_states t !! k = Some st -> state_key st' = k -> watermarks_ok st' ->
  st_DedupFloor st' = st_DedupFloor st -> (st_MaterializedSequence st <= st_MaterializedSequence st')%Z -> rest_ok (put_state k st' t).
Proof.
  intros [H1 H2 H3 H4 H5] Hst Hk Hw Hf Hm.
  assert (Hd : forall k', is_Some (<[k := st']> (e_states t) !! k') -> is_Some (e_states t !! k')).
  { intros k'. rewrite lookup_insert_is_Some'. intros [<-|?]; [by eexists|done]. }
  split; cbn.
  - intros k' s. rewrite lookup_insert_Some. intros [[<- <-]|[_ Hs]]; auto.
  - intros k1 k2 ?%Hd ?%Hd. by apply H2.
  - intros k' n. rewrite H3. destruct (decide (k' = k)) as [->|Hne]; [|by rewrite lookup_insert_ne]. rewrite lookup_insert_eq, Hst.
    split; intros (s & [= <-] & Hn); eexists; (split; [done|lia]).
  - exact H4.
  - intros p k' c Hc. destruct (H5 p k' c Hc) as (s & Hs & Hle). destruct (decide (k' = k)) as [->|Hne].
    + exists st'. rewrite lookup_insert_eq. split; [done|]. assert (s = st) as -> by congruence. lia.
    + exists s. by rewrite lookup_insert_ne.
Qed.

(** A stream begins. *)
Lemma rest_open k st t : rest_ok t -> e_states t !! k = None -> state_key st = k -> watermarks_ok st -> st_DedupFloor st = 0%Z ->
  (forall k', is_Some (e_states t !! k') -> k'.1.1 = k.1.1 -> k'.1.2 = k.1.2) -> rest_ok (put_state k st t).
Proof.
  intros [H1 H2 H3 H4 H5] Hno Hk Hw Hf He. split; cbn.
  - intros k' s. rewrite lookup_insert_Some. intros [[<- <-]|[_ Hs]]; auto.
  - intros k1 k2. rewrite !lookup_insert_is_Some'. intros [<-|Hs1] [<-|Hs2] Heq; [done|symmetry; by apply He|by apply He|by apply H2].
  - intros k' n. rewrite H3. destruct (decide (k' = k)) as [->|Hne]; [|by rewrite lookup_insert_ne]. rewrite lookup_insert_eq, Hno.
    split; [intros (s & [=] & _) | intros (s & [= <-] & Hn); lia].
  - exact H4.
  - intros p k' c Hc. destruct (H5 p k' c Hc) as (s & Hs & Hle). exists s. rewrite lookup_insert_ne by congruence. done.
Qed.

(** Only the receipts change. *)
Lemma log_same_events t t' k : e_states t' = e_states t -> e_events t' = e_events t -> log t' k = log t k.
Proof. intros Es Ee. unfold log, lengths. rewrite Es. apply log_upto_ext. intros. by rewrite Ee. Qed.

(** ** How the tables grow *)

(** A stream that takes no more events. *)
Definition halted (status : string) : bool := str_in status ["quarantined"; "closed"].
#[global] Arguments halted : simpl never.

Section grows.
Context (P : IngressFrame -> Prop).

(** From one set of rows to the next: the log of stream [k] gets the events [new] at its
    end, other logs stay; no receipt goes away, changes its frame or leaves quarantine; no
    stream goes away, changes its writer or leaves its halt, and a halted log is complete;
    a frame that is new satisfies [P]. *)
Record grows (k : skey) (new : list AgentEvent) (t t' : tables) : Prop := {
  g_ok : tables_ok t';
  g_log k' : log t' k' = log t k' ++ (if decide (k' = k) then new else []);
  g_receipt key r : e_receipts t !! key = Some r ->
    exists r', e_receipts t' !! key = Some r' /\ rc_Frame r' = rc_Frame r /\ (rc_Status r = "quarantined" -> rc_Status r' = "quarantined");
  g_state k' st : e_states t !! k' = Some st ->
    exists st', e_states t' !! k' = Some st' /\ st_WriterEpoch st' = st_WriterEpoch st /\ (halted (st_Status st) = true -> st_Status st' = st_Status st);
  g_halt st : e_states t !! k = Some st -> halted (st_Status st) = true -> new = [];
  g_new key r' : e_receipts t' !! key = Some r' -> P (rc_Frame r') \/ exists r, e_receipts t !! key = Some r /\ rc_Frame r' = rc_Frame r;
}.

Lemma grows_refl k t : tables_ok t -> grows k [] t t.
Proof. intros Hok. split; eauto. intros k'. case_decide; by rewrite app_nil_r. Qed.

Lemma grows_trans k new new' t t' t'' : grows k new t t' -> grows k new' t' t'' -> grows k (new ++ new') t t''.
Proof.
  intros [O1 L1 R1 S1 H1 N1] [O2 L2 R2 S2 H2 N2]. split; [done| | | | |].
  - intros k'. rewrite L2, L1. case_decide; by rewrite <- app_assoc.
  - intros key r (r' & Hr' & Hf & Hq)%R1. apply R2 in Hr' as (r'' & Hr'' & Hf' & Hq'). exists r''. split_and!; [done|congruence|auto].
  - intros k' st (st' & Hs' & Hw & Hh)%S1. apply S2 in Hs' as (st'' & Hs'' & Hw' & Hh'). exists st''. split_and!; [done|congruence|].
    intros Hst. rewrite Hh' by (by rewrite Hh). auto.
  - intros st Hs Hh. rewrite (H1 st Hs Hh). destruct (S1 _ _ Hs) as (st' & Hs' & _ & Heq). apply (H2 st' Hs'). by rewrite Heq.
  - intros key r'' [?|(r' & Hr' & Hf)]%N2; [by left|]. apply N1 in Hr' as [?|(r & Hr & Hf')]; [left; by rewrite Hf | right; exists r; split; [done|congruence]].
Qed.

Lemma grows_open k st t : tables_ok t -> e_states t !! k = None -> state_key st = k -> st_MaterializedSequence st = 0%Z -> watermarks_ok st ->
  (forall k', is_Some (e_states t !! k') -> k'.1.1 = k.1.1 -> k'.1.2 = k.1.2) -> grows k [] t (put_state k st t).
Proof.
  intros [HL Hrest] Hno Hk Hm Hw He.
  assert (Hlen : lengths t !! k = None) by (unfold lengths; by rewrite lookup_fmap, Hno). split; [| | | |done|by eauto].
  - split; [rewrite lengths_put, Hm; by apply logs_states, logs_open | apply rest_open; try done; destruct Hw; lia].
  - intros k'. unfold log. rewrite lengths_put. destruct (decide (k' = k)) as [->|Hne]; rewrite app_nil_r; [|by rewrite lookup_insert_ne].
    rewrite lookup_insert_eq, Hlen, Hm. done.
  - cbn. eauto.
  - intros k' s Hs. cbn. exists s. rewrite lookup_insert_ne by congruence. auto.
Qed.

Lemma grows_stage k f st t : P f -> tables_ok t -> e_states t !! k = Some st -> frame_skey f = k -> (st_NextSequence st <= fr_SourceSequence f)%Z ->
  e_receipts t !! receiptKey f = None ->
  existsb (fun r' => String.eqb (receipt_event_id r'.2) (ev_EventID (fr_Envelope f))) (map_to_list (e_receipts t)) = false ->
  grows k [] t (with_receipts (<[receiptKey f := mkReceipt f "staged" EmptyString]> (e_receipts t)) t).
Proof.
  intros HP [HL Hrest] Hst Hk Hn Hno Hid. destruct (ok_state _ Hrest _ _ Hst) as [Hk' [Hw Hfl]].
  split; [split| | | |done|].
  - apply (logs_stage _ _ HL f (st_MaterializedSequence st)); [|lia|lia|done|done]. unfold lengths. by rewrite Hk, lookup_fmap, Hst.
  - eapply rest_frames; [exact Hrest|done..|]. cbn. intros key r'. rewrite lookup_insert_Some. intros [[<- <-]|[_ Hr]]; [right | by left; eauto].
    destruct (e_tombstones t !! receiptKey f) as [tb|] eqn:Htb; [|done]. exfalso. unfold receiptKey in Htb. rewrite Hk in Htb.
    destruct (proj1 (ok_tombstone _ Hrest k (fr_SourceSequence f))) as (s & Hs & Hle); [by eexists|]. assert (s = st) as -> by congruence. lia.
  - intros k'. rewrite (log_same_events t) by done. case_decide; by rewrite app_nil_r.
  - intros key r Hr. exists r. cbn. rewrite lookup_insert_ne by congruence. done.
  - intros k' s Hs. by exists s.
  - intros key r'. cbn. rewrite lookup_insert_Some. intros [[_ <-]|[_ Hr]]; eauto.
Qed.

Lemma grows_quarantine k key r ref t : tables_ok t -> e_receipts t !! key = Some r ->
  grows k [] t (with_receipts (<[key := mkReceipt (rc_Frame r) "quarantined" ref]> (e_receipts t)) t).
Proof.
  intros [HL Hrest] Hr.
  assert (Hold : forall key' r', <[key := mkReceipt (rc_Frame r) "quarantined" ref]> (e_receipts t) !! key' = Some r' -> exists r0, e_receipts t !! key' = Some r0 /\ rc_Frame r' = rc_Frame r0).
  { intros key' r'. rewrite lookup_insert_Some. intros [[<- <-]|[_ ?]]; eauto. }
  split; [split| | | |done|by intros key' r' H'; right; apply Hold].
  - by apply logs_quarantine.
  - eapply rest_frames; [exact Hrest|done..|]. intros key' r' H'. left. by apply Hold.
  - intros k'. rewrite (log_same_events t) by done. case_decide; by rewrite app_nil_r.
  - intros key' r0 Hr0. cbn. destruct (decide (key' = key)) as [->|Hne].
    + exists (mkReceipt (rc_Frame r) "quarantined" ref). rewrite lookup_insert_eq. assert (r0 = r) as -> by congruence. done.
    + exists r0. by rewrite lookup_insert_ne.
  - intros k' s Hs. by exists s.
Qed.

Lemma grows_status k st st' t : tables_ok t -> e_states t !! k = Some st -> state_key st' = k -> st_WriterEpoch st' = st_WriterEpoch st ->
  st_NextSequence st' = st_NextSequence st -> st_MaterializedSequence st' = st_MaterializedSequence st -> st_DedupFloor st' = st_DedupFloor st ->
  (halted (st_Status st) = true -> st_Status st' = st_Status st) -> grows k [] t (put_state k st' t).
Proof.
  intros [HL Hrest] Hst Hk Hwr Hn Hm Hf Hh. destruct (ok_state _ Hrest _ _ Hst) as [Hk' Hw].
  assert (Hlen : lengths (put_state k st' t) = lengths t).
  { rewrite lengths_put, Hm. apply insert_id. unfold lengths. by rewrite lookup_fmap, Hst. }
  split; [split| | | |done|by eauto].
  - rewrite Hlen. by apply logs_states.
  - eapply rest_put; [exact Hrest|exact Hst|done| |done|lia]. unfold watermarks_ok in *. by rewrite Hn, Hm, Hf.
  - intros k'. unfold log. rewrite Hlen. case_decide; by rewrite app_nil_r.
  - cbn. eauto.
  - intros k' s Hs. cbn. destruct (decide (k' = k)) as [->|Hne]; [|exists s; by rewrite lookup_insert_ne].
    exists st'. rewrite lookup_insert_eq. assert (s = st) as -> by congruence. done.
Qed.

Lemma grows_drain k st st' new t : tables_ok t -> e_states t !! k = Some st -> state_key st' = k -> st_WriterEpoch st' = st_WriterEpoch st ->
  staged_run t k (st_NextSequence st) new ->
  st_NextSequence st' = (st_NextSequence st + Z.of_nat (length new))%Z -> st_MaterializedSequence st' = (st_MaterializedSequence st + Z.of_nat (length new))%Z ->
  st_DedupFloor st' = st_DedupFloor st -> halted (st_Status st) = false -> grows k new t (put_state k st' (marks new t)).
Proof.
  intros [HL Hrest] Hst Hk Hwr Hrun Hn Hm Hf Hh. destruct (ok_state _ Hrest _ _ Hst) as [Hk' [Hw Hfl]].
  assert (HLk : lengths t !! k = Some (st_NextSequence st - 1)%Z) by (unfold lengths; rewrite lookup_fmap, Hst; cbn; f_equal; lia).
  destruct (marks_ok _ _ _ _ _ HL HLk ltac:(lia) Hrun) as (HL' & Hlog & Hmk). destruct (mk_rest _ _ _ _ _ Hmk) as (Es & Et & Ec).
  assert (Hlen : lengths (put_state k st' (marks new t)) = <[k := (st_NextSequence st - 1 + Z.of_nat (length new))%Z]> (lengths t)).
  { rewrite lengths_put, Hm. unfold lengths. rewrite Es. f_equal. lia. }
  assert (Hrec : forall key r, e_receipts t !! key = Some r -> exists r', e_receipts (marks new t) !! key = Some r' /\ rc_Frame r' = rc_Frame r /\ (rc_Status r = "quarantined" -> rc_Status r' = "quarantined")).
  { intros key r Hr. destruct (marked_receipt _ _ _ _ _ key Hmk Hrun) as [->|(r0 & Hr0 & Hs0 & ->)]; [eauto|].
    assert (r0 = r) as -> by congruence. eexists. split_and!; [done|done|congruence]. }
  assert (Hold : forall key r', e_receipts (marks new t) !! key = Some r' -> exists r, e_receipts t !! key = Some r /\ rc_Frame r' = rc_Frame r).
  { intros key r' Hr'. destruct (marked_receipt _ _ _ _ _ key Hmk Hrun) as [Hsame|(r0 & Hr0 & Hs0 & Hm0)]; [exists r'; by rewrite <- Hsame|].
    exists r0. split; [done|]. by assert (r' = mkReceipt (rc_Frame r0) "materialized" EmptyString) as -> by congruence. }
  assert (Hrest' : rest_ok (marks new t)).
  { eapply rest_frames; [exact Hrest|done..|]. intros key r' Hr'. left. by apply Hold. }
  split; [split| | | | |by intros key r' Hr'; right; apply Hold].
  - rewrite Hlen. by apply logs_states.
  - eapply rest_put; [exact Hrest'|by rewrite Es|done| |done|lia]. unfold watermarks_ok. rewrite Hn, Hm, Hf. lia.
  - intros k'. unfold log. rewrite Hlen. destruct (decide (k' = k)) as [->|Hne].
    + rewrite lookup_insert_eq, HLk. exact Hlog.
    + rewrite lookup_insert_ne, app_nil_r by done. apply log_upto_ext. intros n0 _. apply (mk_out _ _ _ _ _ Hmk (k', n0)). by left.
  - exact Hrec.
  - intros k' s Hs. cbn. rewrite Es. destruct (decide (k' = k)) as [->|Hne]; [|exists s; by rewrite lookup_insert_ne].
    exists st'. rewrite lookup_insert_eq. assert (s = st) as -> by congruence. split_and!; [done|done|by rewrite Hh].
  - intros s Hs. assert (s = st) as -> by congruence. by rewrite Hh.
Qed.
End grows.
