(* ===== verification/EventAppend.v ===== *)
(** * What an append does

    The transactions of [append.go] on tables that are in order: which rows they write and
    which events they report, statement by statement and for every failure. *)

From S2P Require Import Prelude GoStrings WakeupLease EventContract EventStore EventLog.

(** The status that [stagedTailStatus] finds. *)
Definition staged_row (t : tables) (k : skey) (n : Z) : bool := match e_receipts t !! (k, n) with Some r => is_staged r | None => false end.
Definition staged_after (t : tables) (k : skey) (n : Z) : bool :=
  existsb (fun r => bool_decide (r.1.1 = k) && (n <=? r.1.2)%Z && is_staged r.2) (map_to_list (e_receipts t)).
Definition tail_status (t : tables) (k : skey) (n : Z) : string * string :=
  if staged_row t k n then ("active", EmptyString)
  else if staged_after t k n then ("gap", "missing source sequence at " +:+ pretty n) else ("active", EmptyString).

Lemma staged_rowP t k n : staged_row t k n = true <-> staged_at t k n.
Proof.
  unfold staged_row, staged_at. destruct (e_receipts t !! (k, n)) as [r|]; [|naive_solver].
  unfold is_staged. rewrite String.eqb_eq. naive_solver.
Qed.

(** A state of a stream after an update. *)
Definition state_after (st : SourceState) (next materialized floor : Z) (status reason : string) : SourceState :=
  mkState (st_SourceID st) (st_SourceEpoch st) (st_Lane st) next materialized floor (st_Revision st + 1) status reason (st_WriterEpoch st).

(** Any failure is accepted. *)
Abbreviation may_fail := (fun _ : tables => True).

Section append.
Context `{EC : EventCodec} `{EE : EventEnv}.

(** A failure is accepted anywhere, or nothing outside of the model fails. *)
Definition calm (E : tables -> Prop) : Prop := (forall t, E t) \/ (forall i, fault i = None) /\ (forall f, identity_rows f = true).

Lemma calm_allowed E t : calm E -> allowed E t.
Proof. intros [HE|[Hf _]]; [by right | by left]. Qed.

(** A frame that passes the checks again, or else a failure is accepted. *)
Definition fine (E : tables -> Prop) (f : IngressFrame) : Prop := (forall t, E t) \/ Frame_Validate f = Ok tt.

Lemma wp_receiptFromRow E Q r t : fine E (rc_Frame r) -> knownReceiptStatus (rc_Status r) = true -> (String.length (rc_ErrorRef r) <= 512 \/ forall t, E t) ->
  Q r t -> wp (elift (ingressReceiptFromRow r)) Q E t.
Proof.
  intros Hf Hs Hl HQ. apply wp_lift.
  - unfold ingressReceiptFromRow. intros a Ha. go_ok. done.
  - intros e He. destruct Hf as [|Hf]; [done|]. destruct Hl as [Hl|]; [|done]. exfalso. revert He. unfold ingressReceiptFromRow, validateAndBuildFrame.
    rewrite Hf, Hs. cbn. apply Nat.leb_le in Hl. rewrite Hl. discriminate.
Qed.

Lemma wp_eventFromRow E Q f t : fine E f -> Q (mkEvent f "materialized") t -> wp (elift (agentEventFromRow (mkEvent f "materialized"))) Q E t.
Proof.
  intros Hf HQ. apply wp_lift.
  - unfold agentEventFromRow. intros a Ha. go_ok. done.
  - intros e He. destruct Hf as [|Hf]; [done|]. exfalso. revert He. unfold agentEventFromRow, validateAndBuildFrame. cbn [ae_Frame ae_Status]. by rewrite Hf.
Qed.

Lemma wp_rows op Q E t : Q tt t -> wp (elift (requireEventRows op 1)) Q E t.
Proof. intros HQ. by apply wp_lift; [intros [] _|]. Qed.

Lemma wp_updateReceiptStatus E r status ref Q t :
  e_receipts t !! receiptKey (rc_Frame r) = Some r -> allowed E t ->
  Q tt (with_receipts (<[receiptKey (rc_Frame r) := mkReceipt (rc_Frame r) status ref]> (e_receipts t)) t) ->
  wp (updateReceiptStatus r status ref) Q E t.
Proof.
  intros Hr HE HQ. unfold updateReceiptStatus. apply wp_bind, wp_stmt; [done|]. rewrite Hr, String.eqb_refl. by apply wp_rows.
Qed.

Lemma wp_updateSourceState E k st next materialized floor status reason Q t :
  let st' := state_after st next materialized floor status reason in
  e_states t !! k = Some st -> state_key st = k ->
  (st_DedupFloor st <= floor)%Z -> (st_MaterializedSequence st <= materialized)%Z -> (st_NextSequence st <= next)%Z -> (materialized < next)%Z -> (floor <= materialized)%Z ->
  allowed E t -> allowed E (put_state k st' t) -> (sourceStateFromRow st' = Ok st' \/ E (put_state k st' t)) ->
  Q st' (put_state k st' t) ->
  wp (updateSourceState st next materialized floor status reason) Q E t.
Proof.
  intros st' Hst Hk Hf Hm Hn Hlt Hle HE HE' Hv HQ. unfold updateSourceState. rewrite Hk.
  assert (Hput : mkState k.1.1 k.1.2 k.2 next materialized floor (st_Revision st + 1) status reason (st_WriterEpoch st) = st') by (by rewrite <- Hk).
  apply wp_bind, wp_stmt; [done|]. rewrite Hst, Z.eqb_refl. cbn [negb]. rewrite Z.eqb_refl. cbn [negb orb].
  destruct (Z.ltb_spec floor (st_DedupFloor st)); [lia|]. destruct (Z.ltb_spec materialized (st_MaterializedSequence st)); [lia|].
  destruct (Z.ltb_spec next (st_NextSequence st)); [lia|]. destruct (Z.ltb_spec materialized next); [|lia].
  destruct (Z.leb_spec floor materialized); [|lia]. cbn [negb orb]. rewrite Hput.
  apply wp_bind, wp_rows, wp_bind, wp_query; [done|]. cbn [e_states with_states]. rewrite lookup_insert_eq.
  apply wp_bind, wp_found; [|done]. intros a [= <-]. apply wp_lift.
  - unfold sourceStateFromRow. intros a Ha. go_ok. done.
  - intros e He. destruct Hv as [Hv|]; [congruence | done].
Qed.

(** ** Materialising a run *)

Definition fines (E : tables -> Prop) (t : tables) (k : skey) : Prop := forall n r, e_receipts t !! (k, n) = Some r ->
  fine E (rc_Frame r) /\ (String.length (rc_ErrorRef r) <= 512 \/ forall t, E t).

Lemma known_status L t key r : logs_ok L t -> e_receipts t !! key = Some r -> knownReceiptStatus (rc_Status r) = true.
Proof.
  intros HL Hr. destruct key as [k n]. destruct (lo_receipt _ _ HL _ _ _ Hr) as (_ & _ & m & _ & Ho).
  unfold receipt_ok in Ho. case_decide; destruct Ho as [_ [-> | ->]]; done.
Qed.

Lemma wp_materializeReceipt E L k n r Q t :
  calm E -> fine E (rc_Frame r) -> logs_ok L t -> L !! k = Some (n - 1)%Z -> e_receipts t !! (k, n) = Some r -> rc_Status r = "staged" ->
  (let e := mkEvent (rc_Frame r) "materialized" in Q e (mark e t)) -> wp (materializeReceipt r) Q E t.
Proof.
  intros HE Hf HL Hm Hr Hs HQ. destruct (lo_receipt _ _ HL _ _ _ Hr) as (Hk & _).
  destruct (staged_ahead _ _ HL _ _ _ _ Hr Hs Hm) as [_ He].
  unfold materializeReceipt, insertOrReplayEvent. apply wp_bind, wp_bind, wp_stmt; [by apply calm_allowed|]. cbn zeta. rewrite Hk.
  rewrite (bool_decide_false (is_Some (e_events t !! _))) by (rewrite He; by intros [? ?]).
  change (event_id (mkEvent (rc_Frame r) "materialized")) with (receipt_event_id r).
  rewrite (staged_id_free _ _ HL _ _ _ Hr He). cbn [orb].
  rewrite (bool_decide_true (is_Some (e_receipts t !! _))) by (rewrite Hr; by eexists). cbn [negb orb].
  destruct (identity_rows (rc_Frame r)) eqn:Hi; cbn [negb]; [|destruct HE as [|[_ HE]]; [done | by rewrite HE in Hi]].
  apply wp_eventFromRow; [done|].
  apply wp_bind, wp_updateReceiptStatus; [cbn; by rewrite Hk | by apply calm_allowed |]. apply wp_ret.
  unfold mark in HQ. cbn [ae_Frame] in HQ. rewrite Hk in *. exact HQ.
Qed.

Lemma wp_loadStaged E L k n (st : SourceState) Q t :
  calm E -> fines E t k -> logs_ok L t -> state_key st = k ->
  (forall r, e_receipts t !! (k, n) = Some r -> rc_Status r = "staged" -> Q (Some r) t) -> (~ staged_at t k n -> Q None t) ->
  wp (loadStagedReceipt st n) Q E t.
Proof.
  intros HE Hf HL Hk H1 H2. unfold loadStagedReceipt, stagedReceiptKey. rewrite Hk. apply wp_bind, wp_query; [by apply calm_allowed|].
  destruct (e_receipts t !! (k, n)) as [r|] eqn:Hr; cbn.
  - unfold is_staged. destruct (String.eqb_spec (rc_Status r) "staged") as [Hs|Hs].
    + destruct (Hf n r Hr) as [Hf1 Hf2]. apply wp_bind, wp_receiptFromRow; [done | by eapply known_status | done | apply wp_ret; auto].
    + apply wp_ret, H2. intros (r' & Hr' & Hs'). congruence.
  - apply wp_ret, H2. intros (r' & Hr' & Hs'). congruence.
Qed.

Lemma fines_marked E t t' k n evs : fines E t k -> staged_run t k n evs -> marked k n evs t t' -> fines E t' k.
Proof.
  intros Hf Hrun Hmk n' r Hr. destruct (marked_receipt _ _ _ _ _ (k, n') Hmk Hrun) as [Hsame|(r0 & Hr0 & _ & Hm0)].
  - apply (Hf n'). congruence.
  - destruct (Hf _ _ Hr0) as [H1 _]. assert (r = mkReceipt (rc_Frame r0) "materialized" EmptyString) as -> by congruence. split; [done | left; cbn; lia].
Qed.

Lemma wp_drain E k (st : SourceState) fuel L cur next m evs Q t :
  calm E -> fines E t k -> logs_ok L t -> state_key st = k -> L !! k = Some (next - 1)%Z -> (1 <= next)%Z ->
  e_receipts t !! (k, next) = Some cur -> rc_Status cur = "staged" ->
  (forall new, staged_run t k next new -> (length new = fuel \/ ~ staged_at t k (next + Z.of_nat (length new))) -> (fuel <> 0 -> new <> []) ->
    Q ((next + Z.of_nat (length new))%Z, (m + Z.of_nat (length new))%Z, evs ++ new) (marks new t)) ->
  wp (drain_loop fuel st cur next m evs) Q E t.
Proof.
  intros HE. revert L cur next m evs Q t. induction fuel as [|fuel IH]; intros L cur next m evs Q t Hf HL Hk Hm H1 Hr Hs HQ.
  { apply wp_ret. specialize (HQ [] I (or_introl eq_refl)). cbn in HQ. rewrite !Z.add_0_r, app_nil_r in HQ. by apply HQ. }
  destruct (lo_receipt _ _ HL _ _ _ Hr) as (Hkey & _). unfold receiptKey in Hkey. injection Hkey as Hkey Hseq.
  cbn [drain_loop]. unfold drainOneEvent. rewrite Hseq, Z.eqb_refl. apply wp_bind, wp_bind, wp_ret, wp_bind.
  destruct (Hf _ _ Hr) as [Hf1 _]. eapply wp_materializeReceipt; [done|exact Hf1|exact HL|exact Hm|exact Hr|exact Hs|]. cbn zeta.
  set (e := mkEvent (rc_Frame cur) "materialized"). pose proof (logs_mark _ _ HL _ _ _ Hm Hr Hs) as HL'.
  assert (Hrun1 : staged_run t k next [e]) by (split; [by exists cur | done]).
  destruct (marks_ok _ _ _ _ _ HL Hm H1 Hrun1) as (_ & _ & Hmk).
  assert (Hout : forall n', (next < n')%Z -> e_receipts (mark e t) !! (k, n') = e_receipts t !! (k, n')).
  { intros n' Hn'. apply (mk_out _ _ _ _ _ Hmk (k, n')). right. right. cbn. lia. }
  assert (Hf' : fines E (mark e t) k) by (exact (fines_marked _ _ _ _ _ _ Hf Hrun1 Hmk)).
  apply wp_bind. eapply wp_loadStaged; [done|exact Hf'|exact HL'|done| |].
  - intros r Hr2 Hs2. apply wp_ret. eapply (IH _ _ (next + 1)%Z); [exact Hf'|exact HL'|done| |lia|exact Hr2|exact Hs2|].
    { rewrite lookup_insert_eq. f_equal. lia. }
    intros new Hrun Hend _. specialize (HQ (e :: new)). cbn [length marks foldl] in HQ.
    replace (next + Z.of_nat (S (length new)))%Z with (next + 1 + Z.of_nat (length new))%Z in HQ by lia.
    replace (m + Z.of_nat (S (length new)))%Z with (m + 1 + Z.of_nat (length new))%Z in HQ by lia.
    rewrite <- app_assoc. apply HQ; [|destruct Hend as [->|Hend]; [by left | right]|done].
    + split; [by exists cur|]. eapply staged_run_ext; [|exact Hrun]. intros n' Hn'. apply Hout. lia.
    + intros (r0 & Hr0 & Hs0). apply Hend. exists r0. rewrite Hout by lia. done.
  - intros Hno. apply wp_ret. cbn [option_list]. apply wp_ret. specialize (HQ [e] Hrun1). cbn in HQ. apply HQ; [|done].
    right. intros (r0 & Hr0 & Hs0). apply Hno. exists r0. rewrite Hout by lia. done.
Qed.

Lemma wp_tail E k (st : SourceState) n Q t : allowed E t -> state_key st = k -> Q (tail_status t k n) t -> wp (stagedTailStatus st n) Q E t.
Proof.
  intros HE Hk HQ. unfold stagedTailStatus, stagedReceiptKey. rewrite Hk. apply wp_bind, wp_query; [done|].
  unfold tail_status, staged_row in HQ. destruct (e_receipts t !! (k, n)) as [r|]; cbn in *.
  - destruct (is_staged r); [by apply wp_ret|]. apply wp_bind, wp_query; [done|]. by apply wp_ret.
  - apply wp_bind, wp_query; [done|]. by apply wp_ret.
Qed.

(** The rows after a run is materialised, and its state. *)
Definition drained_state (t : tables) (k : skey) (st : SourceState) (new : list AgentEvent) : SourceState :=
  let n := (st_NextSequence st + Z.of_nat (length new))%Z in
  let '(status, reason) := tail_status (marks new t) k n in
  state_after st n (st_MaterializedSequence st + Z.of_nat (length new)) (st_DedupFloor st) status reason.

Definition drained (t : tables) (k : skey) (st : SourceState) (new : list AgentEvent) : tables := put_state k (drained_state t k st new) (marks new t).

(** What a drain answers. *)
Record drain_answer (t : tables) (k : skey) (st : SourceState) (new : list AgentEvent) (a : Appended) : Prop := {
  da_events : ap_Events a = new;
  da_terminal : ap_Terminal a = None;
  da_event : ar_Event (ap_Result a) = head new;
  da_state : ar_State (ap_Result a) = drained_state t k st new;
}.

Lemma find_first L t k n e evs : logs_ok L t -> staged_run t k n (e :: evs) ->
  List.find (fun e => (fr_SourceSequence (ae_Frame e) =? n)%Z) (rev (e :: evs)) = Some e.
Proof.
  intros HL Hrun.
  assert (Hseq : forall j x, (e :: evs) !! j = Some x -> fr_SourceSequence (ae_Frame x) = (n + Z.of_nat j)%Z).
  { intros j x Hj. destruct (staged_run_lookup _ _ _ _ _ _ Hrun Hj) as (r & Hr & _ & ->). destruct (lo_receipt _ _ HL _ _ _ Hr) as (Hk & _).
    unfold receiptKey in Hk. by injection Hk. }
  cbn [rev]. assert (Hno : forall x, x ∈ rev evs -> (fr_SourceSequence (ae_Frame x) =? n)%Z = false).
  { intros x Hx. rewrite list_elem_of_In, <- in_rev, <- list_elem_of_In in Hx. apply list_elem_of_lookup in Hx as [j Hj].
    apply Z.eqb_neq. rewrite (Hseq (S j) x) by done. lia. }
  assert (He : (fr_SourceSequence (ae_Frame e) =? n)%Z = true) by (apply Z.eqb_eq; rewrite (Hseq 0 e) by done; lia).
  induction (rev evs) as [|x l IH]; cbn; [by rewrite He|]. rewrite Hno by (by left). apply IH. intros y Hy. apply Hno. by right.
Qed.

Lemma wp_materializeContiguous E k st initial Q t :
  calm E -> fines E t k -> logs_ok (lengths t) t -> e_states t !! k = Some st -> state_key st = k -> watermarks_ok st ->
  e_receipts t !! (k, st_NextSequence st) = Some initial -> rc_Status initial = "staged" ->
  ((forall t, E t) \/ forall new, staged_run t k (st_NextSequence st) new -> new <> [] -> sourceStateFromRow (drained_state t k st new) = Ok (drained_state t k st new)) ->
  (forall new a, staged_run t k (st_NextSequence st) new -> (length new = maxEventDrain \/ ~ staged_at t k (st_NextSequence st + Z.of_nat (length new))) ->
    new <> [] -> drain_answer t k st new a -> Q a (drained t k st new)) ->
  wp (materializeContiguousCollect st initial) Q E t.
Proof.
  intros HE Hf HL Hst Hk [Hn Hfl] Hr Hs Hv HQ. unfold materializeContiguousCollect.
  assert (HLk : lengths t !! k = Some (st_NextSequence st - 1)%Z) by (unfold lengths; rewrite lookup_fmap, Hst; cbn; f_equal; lia).
  destruct (lo_receipt _ _ HL _ _ _ Hr) as (Hkey & _). pose proof Hkey as Hkey'. unfold receiptKey in Hkey'. injection Hkey' as _ Hseq.
  apply wp_bind. eapply wp_drain; [done|done|exact HL|exact Hk|exact HLk|lia|exact Hr|exact Hs|].
  intros new Hrun Hend Hne. destruct (marks_ok _ _ _ _ _ HL HLk ltac:(lia) Hrun) as (HL' & _ & Hmk). destruct (mk_rest _ _ _ _ _ Hmk) as (Hsts & _ & _).
  apply wp_bind, (wp_tail _ k); [by apply calm_allowed|done|]. specialize (HQ new). unfold drained, drained_state in *.
  set (next := (st_NextSequence st + Z.of_nat (length new))%Z) in *. set (t' := marks new t) in *.
  destruct (tail_status t' k next) as [status reason] eqn:Htail. unfold drained_state in Hv. fold next in Hv. fold t' in Hv.
  apply wp_bind, (wp_updateSourceState _ k); try (by apply calm_allowed); try done; try lia.
  { by rewrite Hsts. }
  { destruct Hv as [Hv|Hv]; [by right | left]. specialize (Hv new Hrun ltac:(by apply Hne)). fold t' in Hv. fold next in Hv. by rewrite Htail in Hv. }
  apply wp_bind, wp_query; [by apply calm_allowed|]. cbn [e_receipts put_state with_states].
  destruct new as [|e0 rest]; [by destruct Hne|]. rewrite Hkey.
  pose proof (mk_in _ _ _ _ _ Hmk 0 e0 eq_refl) as Hrow. rewrite Z.add_0_r in Hrow. fold t' in Hrow. rewrite Hrow.
  apply wp_bind, wp_found; [|done]. intros row [= <-]. destruct Hrun as [(r0 & Hr0 & Hs0 & He0) Hrun].
  assert (r0 = initial) as -> by congruence. destruct (Hf _ _ Hr0) as [Hf1 _].
  apply wp_bind, wp_receiptFromRow; [by rewrite He0 | done | left; cbn; lia |]. apply wp_ret. apply HQ; [split; [by exists initial|done]|done|done|].
  split; cbn [ap_Events ap_Terminal ap_Result ar_Event ar_State]; [done|done| |].
  - rewrite app_nil_l, Hseq. rewrite (find_first _ t k) by (exact HL || (split; [by exists initial|done])). done.
  - unfold drained_state. fold next. fold t'. by rewrite Htail.
Qed.

(** ** The transaction of an append *)

(** The state of a stream that begins. *)
Definition first_state (f : IngressFrame) : SourceState :=
  mkState (fr_SourceID f) (fr_SourceEpoch f) (fr_Lane f) 1 0 0 1 "active" EmptyString (ev_WriterEpoch (fr_Envelope f)).

Lemma wp_getOrCreate E f Q t :
  let k := frame_skey f in
  calm E ->
  ((forall t, E t) \/ (forall st, e_states t !! k = Some st -> sourceStateFromRow st = Ok st)
    /\ (e_states t !! k = None -> sourceStateFromRow (first_state f) = Ok (first_state f) /\ forall k', is_Some (e_states t !! k') -> k'.1.1 <> k.1.1)) ->
  rest_ok t ->
  (forall st, e_states t !! k = Some st -> Q st t) ->
  (e_states t !! k = None -> (forall k', is_Some (e_states t !! k') -> k'.1.1 = k.1.1 -> k'.1.2 = k.1.2) -> Q (first_state f) (put_state k (first_state f) t)) ->
  wp (getOrCreateSourceState f) Q E t.
Proof.
  intros k HE Hsm Hrest H1 H2. unfold getOrCreateSourceState. fold k. apply wp_bind, wp_query; [by apply calm_allowed|].
  assert (Hrow : forall st Q0 t0, (forall t, E t) \/ sourceStateFromRow st = Ok st -> Q0 st t0 -> wp (elift (sourceStateFromRow st)) Q0 E t0).
  { intros st Q0 t0 Hv HQ0. apply wp_lift; [unfold sourceStateFromRow; intros a Ha; by go_ok | intros e He; destruct Hv as [Hv|Hv]; [done|congruence]]. }
  destruct (e_states t !! k) as [st|] eqn:Hst.
  - apply Hrow; [|auto]. destruct Hsm as [|[Hsm _]]; [by left | right; auto].
  - apply wp_bind. unfold rejectUnregisteredSourceEpoch. apply wp_bind, wp_query; [by apply calm_allowed|].
    assert (Hin : forall row, row ∈ List.filter (fun st => String.eqb (st_SourceID st) (fr_SourceID f)) (map_to_list (e_states t)).*2 <->
      exists k', e_states t !! k' = Some row /\ k'.1.1 = k.1.1).
    { intros row. rewrite list_elem_of_In, filter_In, <- list_elem_of_In, String.eqb_eq. rewrite list_elem_of_fmap. split.
      - intros [([k' row'] & -> & Hk'%elem_of_map_to_list) Heq]. exists k'. split; [done|]. destruct (ok_state _ Hrest _ _ Hk') as [<- _]. exact Heq.
      - intros (k' & Hk' & Heq). split; [exists (k', row); split; [done | by apply elem_of_map_to_list]|]. destruct (ok_state _ Hrest _ _ Hk') as [<- _]. exact Heq. }
    destruct (existsb _ _) eqn:Hex.
    + apply wp_fail. destruct Hsm as [|[_ Hsm]]; [done|]. exfalso. destruct (Hsm eq_refl) as [_ Hno].
      apply existsb_exists in Hex as (row & Hrow0 & _). rewrite <- list_elem_of_In, Hin in Hrow0. destruct Hrow0 as (k' & Hk' & Heq). by apply (Hno k').
    + apply wp_ret. rewrite existsb_false_iff, Forall_forall in Hex.
      apply wp_bind, wp_stmt; [by apply calm_allowed|]. rewrite Hst. apply Hrow; [destruct Hsm as [|[_ Hsm]]; [by left | right; by apply Hsm]|].
      apply H2; [done|]. intros k' [row Hk'] Heq. specialize (Hex row). rewrite Hin in Hex.
      specialize (Hex ltac:(eauto)). apply negb_false_iff, String.eqb_eq in Hex. destruct (ok_state _ Hrest _ _ Hk') as [<- _]. exact Hex.
Qed.

Lemma validate_not_halted st f : validateSourceStateForAppend st f = Ok tt ->
  halted (st_Status st) = false /\ st_WriterEpoch st = ev_WriterEpoch (fr_Envelope f).
Proof.
  unfold validateSourceStateForAppend, halted. destruct (String.eqb_spec (st_WriterEpoch st) (ev_WriterEpoch (fr_Envelope f))) as [Hw|]; cbn [negb]; [|discriminate].
  destruct (String.eqb_spec (st_Status st) "active") as [->|]; [done|]. destruct (String.eqb_spec (st_Status st) "gap") as [->|]; [done|].
  destruct (str_in _ _); done.
Qed.

(** What a frame that enters satisfies. *)
Context (P : IngressFrame -> Prop).

Lemma grows_later k new t t' t'' : grows P k [] t t' -> grows P k new t' t'' -> grows P k new t t''.
Proof. apply (grows_trans P k [] new). Qed.

(** A status other than the one the stream has. *)
Lemma wp_status E k st status reason Q t :
  tables_ok t -> e_states t !! k = Some st ->
  let st' := state_after st (st_NextSequence st) (st_MaterializedSequence st) (st_DedupFloor st) status reason in
  allowed E t -> (sourceStateFromRow st' = Ok st' /\ (forall i, fault i = None)) \/ E (put_state k st' t) -> Q st' (put_state k st' t) ->
  wp (updateSourceState st (st_NextSequence st) (st_MaterializedSequence st) (st_DedupFloor st) status reason) Q E t.
Proof.
  intros Hok Hst st' HE Hv HQ. destruct (ok_state _ (ok_rest _ Hok) _ _ Hst) as [Hk [Hw Hf]].
  apply (wp_updateSourceState _ k); try done; try lia; destruct Hv as [[Hv Hi]|Hv]; [by left | by right | by left | by right].
Qed.

Lemma grows_to_status k st status reason t : tables_ok t -> e_states t !! k = Some st -> halted (st_Status st) = false ->
  grows P k [] t (put_state k (state_after st (st_NextSequence st) (st_MaterializedSequence st) (st_DedupFloor st) status reason) t).
Proof.
  intros Hok Hst Hh. destruct (ok_state _ (ok_rest _ Hok) _ _ Hst) as [Hk _]. eapply grows_status; try done. by rewrite Hh.
Qed.

Lemma calm_may_fail : calm may_fail.
Proof. by left. Qed.

Lemma allowed_may_fail t : allowed may_fail t.
Proof. by right. Qed.

Lemma fines_may_fail t k : fines may_fail t k.
Proof. intros n r _. split; [by left | by right]. Qed.

Lemma grows_quarantined k key st r ref reason t : tables_ok t -> e_states t !! k = Some st -> halted (st_Status st) = false -> e_receipts t !! key = Some r ->
  grows P k [] t (put_state k (state_after st (st_NextSequence st) (st_MaterializedSequence st) (st_DedupFloor st) "quarantined" reason)
    (with_receipts (<[key := mkReceipt (rc_Frame r) "quarantined" ref]> (e_receipts t)) t)).
Proof.
  intros Hok Hst Hh Hr. pose proof (grows_quarantine P k key r ref t Hok Hr) as G. eapply grows_later; [exact G|].
  apply grows_to_status; [apply (g_ok _ _ _ _ _ G) | done | done].
Qed.

Lemma wp_quarantineExisting f st r t : let k := frame_skey f in
  tables_ok t -> e_states t !! k = Some st -> halted (st_Status st) = false -> e_receipts t !! receiptKey (rc_Frame r) = Some r ->
  wp (quarantineExistingReceipt st r) (fun a t' => grows P k (ap_Events a) t t') may_fail t.
Proof.
  intros k Hok Hst Hh Hr. unfold quarantineExistingReceipt. apply wp_bind, wp_updateReceiptStatus; [done|by right|].
  apply wp_bind, (wp_status _ k); [by eapply g_ok, (grows_quarantine P k) |done|by right|by right|]. apply wp_ret. cbn [ap_Events]. by apply grows_quarantined.
Qed.

(** A receipt that is neither materialised nor in quarantine, at the next sequence. *)
Lemma staged_next k st r t : tables_ok t -> e_states t !! k = Some st -> e_receipts t !! (k, st_NextSequence st) = Some r ->
  rc_Status r <> "quarantined" -> rc_Status r = "staged".
Proof.
  intros [HL Hrest] Hst Hr Hq. destruct (ok_state _ Hrest _ _ Hst) as [_ [Hw _]].
  destruct (lo_receipt _ _ HL _ _ _ Hr) as (_ & _ & m & Hm & Ho). unfold lengths in Hm. rewrite lookup_fmap, Hst in Hm. injection Hm as <-.
  unfold receipt_ok in Ho. rewrite decide_False in Ho by lia. by destruct Ho as [_ [?|?]].
Qed.

Lemma wp_drain_grows k st initial t : tables_ok t -> e_states t !! k = Some st -> halted (st_Status st) = false ->
  e_receipts t !! (k, st_NextSequence st) = Some initial -> rc_Status initial = "staged" ->
  wp (materializeContiguousCollect st initial) (fun a t' => grows P k (ap_Events a) t t') may_fail t.
Proof.
  intros Hok Hst Hh Hr Hs. destruct (ok_state _ (ok_rest _ Hok) _ _ Hst) as [Hk Hw].
  eapply (wp_materializeContiguous _ k); try done; [apply calm_may_fail | apply fines_may_fail | apply Hok | by left |].
  intros new a Hrun _ _ Ha. rewrite (da_events _ _ _ _ _ Ha). unfold drained, drained_state. destruct (tail_status _ _ _) as [status reason].
  eapply grows_drain; try done.
Qed.

Lemma wp_existing f st r t : let k := frame_skey f in
  tables_ok t -> e_states t !! k = Some st -> halted (st_Status st) = false -> e_receipts t !! receiptKey f = Some r ->
  wp (appendExistingReceiptCollect st f r) (fun a t' => grows P k (ap_Events a) t t') may_fail t.
Proof.
  intros k Hok Hst Hh Hr. destruct (lo_receipt _ _ (ok_logs _ Hok) (frame_skey f) (fr_SourceSequence f) r Hr) as (Hkey & _).
  unfold appendExistingReceiptCollect. apply wp_bind, wp_receiptFromRow; [by left | by eapply known_status, Hr; apply Hok | by right |].
  destruct (negb _); [apply wp_quarantineExisting; try done; by rewrite Hkey|].
  destruct (String.eqb_spec (rc_Status r) "quarantined") as [|Hnq]; [by apply wp_fail|].
  destruct (String.eqb_spec (rc_Status r) "materialized") as [|Hnm].
  { unfold replayMaterialized. apply wp_bind, wp_query; [by right|]. repeat (wp1; try done). cbn [ap_Events]. by apply grows_refl. }
  destruct (Z.eqb_spec (fr_SourceSequence (rc_Frame r)) (st_NextSequence st)) as [Hseq|]; cbn [negb]; [|apply wp_ret; by apply grows_refl].
  assert (Hk2 : fr_SourceSequence (rc_Frame r) = fr_SourceSequence f) by exact (f_equal snd Hkey). unfold receiptKey in Hr. rewrite <- Hk2, Hseq in Hr.
  apply wp_drain_grows; try done. by eapply staged_next.
Qed.

Lemma wp_markControlGap f st r r' e t0 t : let k := frame_skey f in
  tables_ok t -> e_states t !! k = Some st -> halted (st_Status st) = false -> e_receipts t !! receiptKey (rc_Frame r) = Some r -> grows P k [] t0 t ->
  wp (committed (markControlGap st r (fr_SourceSequence f)) r' e) (fun a t' => grows P k (ap_Events a) t0 t') may_fail t.
Proof.
  intros k Hok Hst Hh Hr G. apply wp_committed. cbn [ap_Events]. apply wp_bind, wp_updateReceiptStatus; [done | by right |].
  pose proof (grows_quarantine P k _ _ ("missing control source sequence before " +:+ pretty (fr_SourceSequence f)) _ Hok Hr) as G1.
  apply (wp_status _ k); [apply (g_ok _ _ _ _ _ G1) | done | right | right |]; intros; eapply grows_later; try exact G; [exact G1 | by apply grows_quarantined..].
Qed.

Lemma wp_markGap f st r r' e t0 t : let k := frame_skey f in
  tables_ok t -> e_states t !! k = Some st -> halted (st_Status st) = false -> grows P k [] t0 t ->
  wp (committed (markGap st r (fr_SourceSequence f)) r' e) (fun a t' => grows P k (ap_Events a) t0 t') may_fail t.
Proof.
  intros k Hok Hst Hh G. apply wp_committed. cbn [ap_Events].
  apply (wp_status _ k); [done | done | by right | right |]; intros; eapply grows_later; try exact G; by apply grows_to_status.
Qed.

Definition fresh_id (f : IngressFrame) (t : tables) : Prop :=
  existsb (fun r => String.eqb (receipt_event_id r.2) (ev_EventID (fr_Envelope f))) (map_to_list (e_receipts t)) = false.

Definition stage (f : IngressFrame) (t : tables) : tables := with_receipts (<[receiptKey f := mkReceipt f "staged" EmptyString]> (e_receipts t)) t.

Lemma wp_insertStaged E f Q t : calm E -> fine E f -> ((forall t, E t) \/ fresh_id f t) -> e_receipts t !! receiptKey f = None ->
  (fresh_id f t -> Q (mkReceipt f "staged" EmptyString) (stage f t)) -> wp (insertStagedReceipt f) Q E t.
Proof.
  intros HE Hf Hid Hr HQ. unfold insertStagedReceipt. apply wp_bind, wp_stmt; [by apply calm_allowed|]. cbn zeta.
  destruct (bool_decide_reflect (is_Some (e_receipts t !! receiptKey f))) as [[? ?]|_]; [congruence|]. cbn [orb].
  change (receipt_event_id (mkReceipt f "staged" EmptyString)) with (ev_EventID (fr_Envelope f)). unfold fresh_id in *.
  destruct (existsb _ _) eqn:Hx; [destruct Hid as [|Hid]; [done | congruence]|].
  destruct (identity_rows f) eqn:Hi; cbn [negb]; [|destruct HE as [|[_ HE]]; [done | by rewrite HE in Hi]].
  apply wp_receiptFromRow; [done | done | left; cbn; lia | by apply HQ].
Qed.

Lemma wp_append f t : P f -> tables_ok t -> wp (appendEventTxCollect f) (fun a t' => grows P (frame_skey f) (ap_Events a) t t') may_fail t.
Proof.
  intros HP Hok. unfold appendEventTxCollect. apply wp_bind.
  eapply (wp_mono _ (fun st t' => grows P (frame_skey f) [] t t' /\ e_states t' !! frame_skey f = Some st)); [|intros st t1 [G Hst] | done].
  { apply wp_getOrCreate; [apply calm_may_fail | by left | apply Hok | |].
    - intros st Hst. split; [by apply grows_refl | done].
    - intros Hno He. split; [by apply grows_open | apply lookup_insert_eq]. }
  pose proof (g_ok _ _ _ _ _ G) as Hok'. apply wp_bind, wp_lift; [|done]. intros [] [Hh _]%validate_not_halted.
  destruct (_ <=? _)%Z; [unfold replayBelowFloor; apply wp_bind, wp_query; [by right|]; repeat (wp1; try done)|].
  apply wp_bind, wp_query; [by right|]. destruct (e_receipts t1 !! receiptKey f) as [r|] eqn:Hr.
  { eapply wp_mono; [by apply wp_existing| |done]. intros a t2 G2. by eapply grows_later. }
  destruct (Z.ltb_spec (fr_SourceSequence f) (st_NextSequence st)); [by apply wp_fail|].
  apply wp_bind, wp_insertStaged; [apply calm_may_fail | by left | by left | done |]. intros Hid.
  pose proof (grows_stage P _ f st t1 HP Hok' Hst eq_refl ltac:(lia) Hr Hid) as G2. pose proof (g_ok _ _ _ _ _ G2) as Hok2.
  assert (Hr2 : e_receipts (stage f t1) !! receiptKey f = Some (mkReceipt f "staged" EmptyString)) by apply lookup_insert_eq. pose proof (grows_later _ _ _ _ _ G G2) as G3.
  destruct (Z.ltb_spec (st_NextSequence st) (fr_SourceSequence f)).
  - destruct (String.eqb _ _); [by apply wp_markControlGap | by apply wp_markGap].
  - assert (Heq : st_NextSequence st = fr_SourceSequence f) by lia. eapply wp_mono; [|intros a t3 G4; eapply grows_later; [exact G3 | exact G4] | done].
    apply wp_drain_grows; try done. by rewrite Heq.
Qed.
End append.
