(* ===== verification/EventHistory.v ===== *)
(** * Histories of the event store

    Every operation of [store/eventstore] that writes, in any order and with any failures:
    the tables stay in order, an operation that fails leaves no trace, and the log of a
    stream is the list of the events that the appends to it materialised. *)

From S2P Require Import Prelude GoStrings WakeupLease EventContract EventStore EventLog EventAppend.

(** ** Tombstones and cursors *)

Lemma grows_bury P k st tb r reason t : tables_ok t -> e_states t !! k = Some st ->
  let n := (st_DedupFloor st + 1)%Z in
  (n <= st_MaterializedSequence st)%Z -> e_receipts t !! (k, n) = Some r ->
  tb_EnvelopeHash tb = fr_EnvelopeHash (rc_Frame r) -> tb_EventID tb = receipt_event_id r ->
  grows P k [] t (put_state k (state_after st (st_NextSequence st) (st_MaterializedSequence st) n (st_Status st) reason)
    (with_tombstones (<[(k, n) := tb]> (e_tombstones t)) t)).
Proof.
  intros [HL Hrest] Hst n Hn Hr Hh Hid. destruct (ok_state _ Hrest _ _ Hst) as [Hk [Hw Hf]].
  set (st' := state_after _ _ _ _ _ _). set (t' := with_tombstones _ _).
  assert (Hlen : lengths (put_state k st' t') = lengths t) by (rewrite lengths_put; apply insert_id; unfold lengths; cbn; by rewrite lookup_fmap, Hst).
  assert (Hd : forall k', is_Some (<[k := st']> (e_states t) !! k') -> is_Some (e_states t !! k')).
  { intros k'. rewrite lookup_insert_is_Some'. intros [<-|?]; [by eexists|done]. }
  split; [split| | | |done|by eauto].
  - rewrite Hlen. destruct HL as [H1 H2 H3 H4]. by split.
  - destruct Hrest as [H1 H2 H3 H4 H5]. split; cbn.
    + intros k' s. rewrite lookup_insert_Some. intros [[<- <-]|[_ Hs]]; [|by apply H1]. split; [exact Hk | unfold watermarks_ok; cbn; lia].
    + intros k1 k2 ?%Hd ?%Hd. by apply H2.
    + intros k' n'. destruct (decide (k' = k)) as [->|Hne].
      * rewrite lookup_insert_eq. destruct (decide (n' = n)) as [->|Hnn].
        -- rewrite lookup_insert_eq. split; [|by eexists]. intros _. exists st'. split; [done | cbn; lia].
        -- rewrite lookup_insert_ne by congruence. rewrite H3, Hst. split; intros (s & [= <-] & Hs); eexists; (split; [done | cbn in *; lia]).
      * rewrite lookup_insert_ne by congruence. rewrite H3. by rewrite lookup_insert_ne.
    + intros k' n' tb' r'. rewrite lookup_insert_Some. intros [[[= <- <-] <-]|[_ Htb]] Hr'; [|by apply (H4 k' n')]. by assert (r' = r) as -> by congruence.
    + intros p k' c Hc. destruct (H5 p k' c Hc) as (s & Hs & Hle). destruct (decide (k' = k)) as [->|Hne].
      * exists st'. rewrite lookup_insert_eq. split; [done|]. by assert (s = st) as -> by congruence.
      * exists s. by rewrite lookup_insert_ne.
  - intros k'. unfold log. rewrite Hlen. case_decide; by rewrite app_nil_r.
  - cbn. eauto.
  - intros k' s Hs. cbn. destruct (decide (k' = k)) as [->|Hne]; [|exists s; by rewrite lookup_insert_ne].
    exists st'. rewrite lookup_insert_eq. assert (s = st) as -> by congruence. done.
Qed.

Lemma grows_cursor P k p c st t : tables_ok t -> e_states t !! k = Some st -> (mc_MaterializedSequence c <= st_MaterializedSequence st)%Z ->
  grows P k [] t (with_cursors (<[(p, k) := c]> (e_cursors t)) t).
Proof.
  intros [HL Hrest] Hst Hc. split; [split| | | |done|by eauto].
  - destruct HL as [H1 H2 H3 H4]. by split.
  - destruct Hrest as [H1 H2 H3 H4 H5]. split; try done. cbn. intros p' k' c'. rewrite lookup_insert_Some. intros [[[= <- <-] <-]|[_ Hc']]; eauto.
  - intros k'. rewrite (log_same_events t) by done. case_decide; by rewrite app_nil_r.
  - cbn. eauto.
  - cbn. eauto.
Qed.

Section history.
Context `{EC : EventCodec} `{EE : EventEnv}.

Local Abbreviation grown P k t := (fun (_ : _) t' => grows P k [] t t').

Lemma wp_tombstone P pin req t : tables_ok t -> wp (recordTombstoneTx pin req) (grown P (request_skey req) t) may_fail t.
Proof.
  intros Hok. set (k := request_skey req). unfold recordTombstoneTx. fold k. apply wp_bind, wp_query; [by right|].
  apply wp_bind, wp_found; [|done]. intros st Hst. apply wp_bind, wp_lift; [|done]. intros st' Hst'.
  assert (st' = st) as -> by (unfold sourceStateFromRow in Hst'; by go_ok). clear Hst'.
  apply wp_bind, wp_query; [by right|]. destruct (e_tombstones t !! request_rkey req).
  { apply wp_bind, wp_lift; [|done]. intros tb _. apply wp_lift; [|done]. intros _ _. by apply grows_refl. }
  destruct (tombstoneFloorAllowed st req) eqn:Hfl; cbn [negb]; [|by apply wp_fail]. unfold tombstoneFloorAllowed in Hfl. go_bool.
  apply wp_bind, wp_query; [by right|]. apply wp_bind, wp_found; [|done]. intros r Hr. apply wp_bind, wp_lift; [|done]. intros r' Hr'.
  assert (r' = r) as -> by (unfold ingressReceiptFromRow in Hr'; by go_ok). clear Hr'.
  destruct (tombstoneReceiptMatches r req) eqn:Hm; cbn [negb]; [|by apply wp_fail]. unfold tombstoneReceiptMatches in Hm. go_bool.
  apply wp_bind. eapply (wp_mono _ (fun _ t' => t' = t)); [destruct pin; [by apply wp_fence | by apply wp_ret] | intros [] t' -> | done].
  destruct (ok_state _ (ok_rest _ Hok) _ _ Hst) as [Hk [Hw Hfloor]].
  unfold insertTombstoneAndAdvance. apply wp_bind, wp_stmt; [by right|]. cbn zeta. cbn [tb_SourceID tb_SourceEpoch tb_Lane tb_SourceSequence]. change (tr_SourceID req, tr_SourceEpoch req, tr_Lane req) with k. destruct (e_tombstones t !! (k, tr_SourceSequence req)); [exact I|].
  set (tb := mkTombstone _ _ _ _ _ _ _ _ _). rename H into Hseq.
  apply wp_bind, wp_lift; [|done]. intros tb' _. apply wp_bind, (wp_updateSourceState _ k); try done; try lia; try (by right).
  apply wp_ret. unfold request_rkey in Hr. fold k in Hr. rewrite Hseq in *. by eapply grows_bury.
Qed.

Lemma wp_ensureCursor P key t : tables_ok t ->
  wp (source ← GetOrchestrationEventSourceState (cursor_skey key);
      _ ← found source;
      row ← GetOrchestrationEventMaterializationCursor (cursorParams key);
      match row with
      | Some row => elift (materializationCursorFromRow row)
      | None => row ← InsertOrchestrationEventMaterializationCursor key 0 EmptyString "active"; elift (materializationCursorFromRow row)
      end) (grown P (cursor_skey key) t) may_fail t.
Proof.
  intros Hok. apply wp_bind, wp_query; [by right|]. apply wp_bind, wp_found; [|done]. intros st Hst.
  destruct (ok_state _ (ok_rest _ Hok) _ _ Hst) as [_ [_ Hf]].
  apply wp_bind, wp_query; [by right|]. destruct (e_cursors t !! cursorParams key) eqn:Hc; [apply wp_lift; [intros _ _; by apply grows_refl | done]|].
  apply wp_bind, wp_stmt; [by right|]. rewrite Hc, Hst. apply wp_lift; [|done]. intros _ _. eapply grows_cursor; [done|done|cbn; lia].
Qed.

Lemma wp_advanceCursor P key rev seq hash status t : tables_ok t -> wp (advanceCursorTx key rev seq hash status) (grown P (cursor_skey key) t) may_fail t.
Proof.
  intros Hok. unfold advanceCursorTx, loadCursorContext. apply wp_bind, wp_bind, wp_query; [by right|].
  apply wp_bind, wp_found; [|done]. intros st Hst. apply wp_bind, wp_lift; [|done]. intros st' Hst'.
  assert (st' = st) as -> by (unfold sourceStateFromRow in Hst'; by go_ok). clear Hst'.
  apply wp_bind, wp_query; [by right|]. apply wp_bind, wp_found; [|done]. intros c Hc. apply wp_bind, wp_lift; [|done]. intros c' _. apply wp_ret.
  apply wp_bind, wp_lift; [|done]. intros [] Hle%guard_err_Ok. apply Z.leb_le in Hle.
  destruct (_ && _ && _ && _); [apply wp_ret; by apply grows_refl|]. destruct (negb _); [by apply wp_fail|].
  unfold writeCursorAdvance. apply wp_bind, wp_stmt; [by right|]. rewrite Hc. destruct (negb _); [by apply wp_bind, wp_lift|].
  destruct (_ || _ || _); [done|]. apply wp_bind, wp_lift; [|done]. intros _ _. apply wp_bind, wp_query; [by right|].
  apply wp_bind, wp_found; [|done]. intros c2 _. apply wp_lift; [|done]. intros _ _. by eapply grows_cursor.
Qed.

(** ** Operations *)

Inductive event_op :=
| OpAppend (verifier : FenceVerifier) (frame : IngressFrame)
| OpAppendTx (verifier : FenceVerifier) (frame : IngressFrame)
| OpAllocated (verifier : FenceVerifier) (k : skey) (writerEpoch : string) (build : Z -> result error IngressFrame)
| OpEnvelope (verifier : FenceVerifier) (k : skey) (writerEpoch : string) (build : result error EventEnvelope)
| OpEnsureCursor (key : CursorKey)
| OpAdvanceCursor (key : CursorKey) (expectedRevision sequence : Z) (hash status : string)
| OpTombstone (pin : option (nat -> TombstoneRequest -> option error)) (req : TombstoneRequest)
| OpList (k : skey) (afterSequence limit : Z).

(** The stream of an operation. *)
Definition op_stream (o : event_op) : skey :=
  match o with
  | OpAppend _ f | OpAppendTx _ f => frame_skey f
  | OpAllocated _ k _ _ | OpEnvelope _ k _ _ | OpList k _ _ => k
  | OpEnsureCursor key | OpAdvanceCursor key _ _ _ _ => cursor_skey key
  | OpTombstone _ req => request_skey req
  end.

(** An operation, and the events it materialised. *)
Definition op_run (o : event_op) : EM (list AgentEvent) :=
  match o with
  | OpAppend v f => a ← Append v f; mret (ap_Events a)
  | OpAppendTx v f => a ← WithTransaction (AppendTx v f); mret (ap_Events a)
  | OpAllocated v k w build => a ← WithTransaction (AppendAllocatedTx v k w build); mret (ap_Events a)
  | OpEnvelope v k w build => a ← WithTransaction (AppendAllocatedEnvelopeTx v k w build); mret (ap_Events a)
  | OpEnsureCursor key => _ ← EnsureCursor key; mret []
  | OpAdvanceCursor key rev seq hash status => _ ← AdvanceCursor key rev seq hash status; mret []
  | OpTombstone pin req => _ ← RecordTombstone pin req; mret []
  | OpList k after limit => _ ← ListEvents k after limit; mret []
  end.

(** ** Frames that enter *)

(** The frame passed its checks, and the fence at some time. *)
Definition checked (v : FenceVerifier) (f : IngressFrame) : Prop :=
  Frame_Validate f = Ok tt /\ validateCanonicalEnvelopeHash f = Ok tt /\
  match v with
  | VerifierTx verify => exists i, verify i f = None
  | FrameVerifier verify => ev_IncarnationID (fr_Envelope f) = None /\ exists i, verify i f = None
  | EnvelopeVerifier verify => ev_IncarnationID (fr_Envelope f) = None /\ exists i, verify i (fr_Envelope f) = None
  end.

Definition op_enters (o : event_op) (f : IngressFrame) : Prop :=
  match o with
  | OpAppend v _ | OpAppendTx v _ | OpAllocated v _ _ _ | OpEnvelope v _ _ _ => checked v f
  | _ => False
  end.

Local Abbreviation appended P k t := (fun a t' => grows P k (ap_Events a) t t').

Lemma wp_check {A B} (r : result error A) (m : A -> EM B) Q t : (forall a, r = Ok a -> wp (m a) Q may_fail t) -> wp (a ← elift r; m a) Q may_fail t.
Proof. intros W. apply wp_bind, wp_lift; [done | done]. Qed.

Lemma wp_fenced_append v f t : tables_ok t -> Frame_Validate f = Ok tt -> validateCanonicalEnvelopeHash f = Ok tt ->
  wp (_ ← verifyAllocatedFrameFenceTx v f; appendEventTx f) (appended (checked v) (frame_skey f) t) may_fail t.
Proof.
  intros Hok V1 V2. apply wp_bind. destruct v as [verify|verify|verify]; [|by apply wp_fail..]. apply wp_fence; [|done]. intros i Hi.
  apply wp_check. intros _ _. apply wp_append; [|done]. unfold checked. eauto.
Qed.

Lemma wp_allocated v k w build t : tables_ok t -> wp (AppendAllocatedTx v k w build) (appended (checked v) k t) may_fail t.
Proof.
  intros Hok. unfold AppendAllocatedTx. do 2 (apply wp_check; intros _ _). apply wp_bind.
  eapply (wp_mono _ (fun _ t' => t' = t)); [|intros st t' ->|done].
  { unfold sourceStateForAllocation. apply wp_bind, wp_query; [by right|]. destruct (e_states t !! k); [by apply wp_lift|].
    apply wp_bind. unfold rejectUnregisteredSourceEpoch. apply wp_bind, wp_query; [by right|]. destruct (existsb _ _); [by apply wp_fail | by apply wp_ret, wp_ret]. }
  apply wp_check; intros _ _. apply wp_check; intros f _. apply wp_check; intros [] Hv.
  assert (frame_skey f = k /\ Frame_Validate f = Ok tt /\ validateCanonicalEnvelopeHash f = Ok tt) as (<- & V1 & V2).
  { unfold validateAllocatedFrame in Hv. go_ok. repeat match goal with u : unit |- _ => destruct u end. go_bool.
    unfold validateCanonicalEnvelopeHash. match goal with H : fr_EnvelopeHash f = _ |- _ => rewrite H, String.eqb_refl end.
    split_and!; [by match goal with H : receiptKey f = _ |- _ => apply (f_equal fst) in H end | done | done]. }
  by apply wp_fenced_append.
Qed.

Lemma wp_reported {A} P (m : EM A) (g : A -> list AgentEvent) k t : wp m (fun a t' => grows P k (g a) t t') (eq t) t ->
  wp (a ← m; mret (g a)) (fun new t' => grows P k new t t') (eq t) t.
Proof. intros W. apply wp_bind. eapply wp_mono; [done | | done]. intros a t' G. by apply wp_ret. Qed.

Lemma wp_validated P v f t : tables_ok t ->
  (match v with VerifierTx verify => forall i, verify i f = None -> P f | _ => P f end) -> wp (appendValidated v f) (appended P (frame_skey f) t) (eq t) t.
Proof.
  intros Hok HP. apply wp_tx, wp_bind. destruct v; [|by apply wp_ret, wp_append..]. apply wp_fence; [|done]. intros i Hi. apply wp_append; eauto.
Qed.

Lemma wp_Append v f t : tables_ok t -> wp (Append v f) (appended (checked v) (frame_skey f) t) (eq t) t.
Proof.
  intros Hok. unfold Append. do 2 (apply wp_bind, wp_lift; [intros [] ? | done]).
  destruct v as [verify|verify|verify]; [apply wp_validated; [done|]; unfold checked; eauto|..];
    (destruct (ev_IncarnationID (fr_Envelope f)) eqn:Hinc; [by apply wp_fail|]); (apply wp_bind, wp_fence; [|done]; intros i Hi; apply wp_validated; [done|]; unfold checked; eauto).
Qed.

(** What every operation does to the rows. *)
Lemma op_grows o t : tables_ok t -> wp (op_run o) (fun new t' => grows (op_enters o) (op_stream o) new t t') (eq t) t.
Proof.
  intros Hok. destruct o as [v f|v f|v k w build|v k w build|key|key rev seq hash status|pin req|k after limit]; cbn [op_run op_stream op_enters].
  - by apply wp_reported, wp_Append.
  - apply wp_reported, wp_tx. unfold AppendTx. do 2 (apply wp_check; intros [] ?). by apply wp_fenced_append.
  - by apply wp_reported, wp_tx, wp_allocated.
  - by apply wp_reported, wp_tx, wp_allocated.
  - apply (wp_reported _ _ (fun _ => [])). unfold EnsureCursor. apply wp_bind, wp_lift; [|done]. intros [] _. by apply wp_tx, wp_ensureCursor.
  - apply (wp_reported _ _ (fun _ => [])). unfold AdvanceCursor. do 3 (apply wp_bind, wp_lift; [intros [] _ | done]). by apply wp_tx, wp_advanceCursor.
  - apply (wp_reported _ _ (fun _ => [])). unfold RecordTombstone. apply wp_bind, wp_lift; [|done]. intros [] _. by apply wp_tx, wp_tombstone.
  - apply (wp_reported _ _ (fun _ => [])). unfold ListEvents, listEvents. do 2 (apply wp_bind, wp_lift; [intros [] _ | done]).
    apply wp_bind, wp_query; [by right|]. apply wp_lift; [intros _ _; by apply grows_refl | done].
Qed.

(** ** Histories *)

(** The operations in order, with what they materialised in which stream. *)
Fixpoint run_ops (os : list event_op) (s : edb) : list (skey * list AgentEvent) * edb :=
  match os with
  | [] => ([], s)
  | o :: os =>
      let '(r, s') := op_run o s in
      let '(reports, s'') := run_ops os s' in
      ((op_stream o, match r with Ok new => new | Err _ => [] end) :: reports, s'')
  end.

Definition reported (k : skey) (reports : list (skey * list AgentEvent)) : list AgentEvent :=
  concat (map (fun r => if decide (r.1 = k) then r.2 else []) reports).

Lemma op_step o t i : tables_ok t ->
  let '(r, s) := op_run o (mkEDB t i) in
  match r with Ok new => grows (op_enters o) (op_stream o) new t (e_tables s) | Err _ => e_tables s = t end.
Proof. intros Hok. pose proof (op_grows o t Hok i) as W. destruct (op_run o _) as [[new|e] s]; auto. Qed.

Lemma empty_ok : tables_ok no_rows.
Proof.
  split; split; cbn.
  - intros k n r H. by simplify_map_eq.
  - intros k n [? H]. by simplify_map_eq.
  - intros k n m H. unfold lengths in H. cbn in H. by simplify_map_eq.
  - intros a b r r' H. by simplify_map_eq.
  - intros k st H. by simplify_map_eq.
  - intros k k' [? H]. by simplify_map_eq.
  - intros k n. split; [intros [? H] | intros (? & H & _)]; by simplify_map_eq.
  - intros k n tb r H. by simplify_map_eq.
  - intros p k c H. by simplify_map_eq.
Qed.

Lemma run_ops_ok os s : tables_ok (e_tables s) -> let '(reports, s') := run_ops os s in
  tables_ok (e_tables s') /\ forall k, log (e_tables s') k = log (e_tables s) k ++ reported k reports.
Proof.
  revert s. induction os as [|o os IH]; intros [t i] Hok; cbn [run_ops].
  { split; [done|]. intros k. by rewrite app_nil_r. }
  pose proof (op_step o t i Hok) as W. destruct (op_run o (mkEDB t i)) as [r s1].
  assert (Hs1 : tables_ok (e_tables s1)) by (destruct r; [apply (g_ok _ _ _ _ _ W) | cbn in Hok; congruence]).
  specialize (IH s1 Hs1). destruct (run_ops os s1) as [reports s2]. destruct IH as [Hok2 Hlog]. split; [done|]. intros k. rewrite Hlog. cbn.
  unfold reported. cbn. destruct r as [new|e].
  - rewrite (g_log _ _ _ _ _ W). rewrite <- app_assoc. by rewrite (decide_ext (k = op_stream o) (op_stream o = k)) by (split; congruence).
  - rewrite W. by case_decide.
Qed.

Lemma run_ops_halted os s k st : tables_ok (e_tables s) -> e_states (e_tables s) !! k = Some st -> halted (st_Status st) = true ->
  let t' := e_tables (run_ops os s).2 in (exists st', e_states t' !! k = Some st' /\ st_Status st' = st_Status st) /\ log t' k = log (e_tables s) k.
Proof.
  revert s st. induction os as [|o os IH]; intros [t i] st Hok Hst Hh; cbn [run_ops]; [eauto|].
  pose proof (op_step o t i Hok) as W. destruct (op_run o (mkEDB t i)) as [r s1]. cbn [e_tables] in *.
  assert (Hs1 : tables_ok (e_tables s1) /\ (exists st1, e_states (e_tables s1) !! k = Some st1 /\ st_Status st1 = st_Status st) /\ log (e_tables s1) k = log t k).
  { destruct r as [new|e]; [|rewrite W; eauto]. split; [apply (g_ok _ _ _ _ _ W)|]. destruct (g_state _ _ _ _ _ W _ _ Hst) as (st1 & Hst1 & _ & Heq).
    split; [exists st1; auto|]. rewrite (g_log _ _ _ _ _ W). case_decide as Hk; [|by rewrite app_nil_r]. subst k. by rewrite (g_halt _ _ _ _ _ W _ Hst Hh), app_nil_r. }
  destruct Hs1 as (Hok1 & (st1 & Hst1 & Heq) & Hlog). specialize (IH s1 st1 Hok1 Hst1). rewrite Heq in IH. specialize (IH Hh).
  destruct (run_ops os s1) as [reports s2]. cbn [snd] in *. by rewrite <- Hlog.
Qed.

Lemma run_ops_app os os' s : (run_ops (os ++ os') s).2 = (run_ops os' (run_ops os s).2).2.
Proof.
  revert s. induction os as [|o os IH]; intros s; [done|]. cbn [run_ops app]. destruct (op_run o s) as [r s1]. specialize (IH s1).
  destruct (run_ops (os ++ os') s1), (run_ops os s1). exact IH.
Qed.

Lemma log_lookup t k j e : tables_ok t -> log t k !! j = Some e -> receiptKey (ae_Frame e) = (k, Z.of_nat j + 1)%Z /\ e_events t !! (k, Z.of_nat j + 1)%Z = Some e.
Proof.
  intros [HL Hrest] Hj. unfold log in Hj. destruct (lengths t !! k) as [m|] eqn:Hm; cbn [default] in Hj; [|done]. cbn in Hj. unfold id in Hj.
  pose proof (lookup_lt_Some _ _ _ Hj) as Hlt. assert (Hm0 : (0 <= m)%Z).
  { unfold lengths in Hm. rewrite lookup_fmap in Hm. destruct (e_states t !! k) as [st|] eqn:Hst; [|done]. injection Hm as <-. destruct (ok_state _ Hrest _ _ Hst) as [_ [_ ?]]. lia. }
  pose proof (log_upto_length _ _ _ _ HL Hm Hm0). rewrite (log_upto_lookup _ _ _ _ _ HL Hm) in Hj by lia. split; [|done].
  destruct (event_row _ _ HL _ _ _ Hj) as (r & m' & Hr & -> & _). by destruct (lo_receipt _ _ HL _ _ _ Hr).
Qed.

(** C22: The event store refines one append-only log per stream.  After any history of
    operations, and whatever statements failed, the log of every stream is the list of the
    events that the operations on that stream materialised, in that order: an operation that
    failed adds nothing, and an event never changes or goes away.  The
    event at place j is of that stream and has sequence j + 1, so the log has no holes.
    The rows of the database are in order ([tables_ok]): watermarks agree with the log,
    receipts with the events, tombstones cover a prefix, and no cursor is ahead. *)
Theorem history_refines_log os i : let '(reports, s) := run_ops os (mkEDB no_rows i) in
  tables_ok (e_tables s) /\ forall k,
    log (e_tables s) k = reported k reports
    /\ forall j e, reported k reports !! j = Some e ->
         receiptKey (ae_Frame e) = (k, Z.of_nat j + 1)%Z /\ e_events (e_tables s) !! (k, Z.of_nat j + 1)%Z = Some e.
Proof.
  pose proof (run_ops_ok os (mkEDB no_rows i) empty_ok) as H. destruct (run_ops os _) as [reports s]. destruct H as [Hok Hlog].
  split; [done|]. intros k. split; [exact (Hlog k)|]. intros j e Hj. apply log_lookup; [done|]. rewrite Hlog. exact Hj.
Qed.

(** C38: A stream that is quarantined (or closed) stays so: after any further operations,
    whatever they are, its status is the same and its log has not grown. *)
Theorem halted_is_final os os' i k st :
  let s := (run_ops os (mkEDB no_rows i)).2 in let s' := (run_ops (os ++ os') (mkEDB no_rows i)).2 in
  e_states (e_tables s) !! k = Some st -> halted (st_Status st) = true ->
  log (e_tables s') k = log (e_tables s) k /\ exists st', e_states (e_tables s') !! k = Some st' /\ st_Status st' = st_Status st.
Proof.
  intros s s' Hst Hh. assert (Hok : tables_ok (e_tables s)).
  { pose proof (run_ops_ok os (mkEDB no_rows i) empty_ok) as H. unfold s. destruct (run_ops os _) as [reports s0]. apply H. }
  unfold s'. rewrite run_ops_app. fold s. destruct (run_ops_halted os' s k st Hok Hst Hh) as [H1 H2]. auto.
Qed.

Lemma run_ops_entered os s key r : tables_ok (e_tables s) -> e_receipts (e_tables (run_ops os s).2) !! key = Some r ->
  (exists r0, e_receipts (e_tables s) !! key = Some r0 /\ rc_Frame r = rc_Frame r0) \/ exists o, o ∈ os /\ op_enters o (rc_Frame r).
Proof.
  revert s. induction os as [|o os IH]; intros [t i] Hok Hr; cbn [run_ops] in Hr; [left; eauto|].
  pose proof (op_step o t i Hok) as W. destruct (op_run o (mkEDB t i)) as [res s1]. cbn [e_tables] in *.
  assert (Hs1 : tables_ok (e_tables s1)) by (destruct res; [apply (g_ok _ _ _ _ _ W) | congruence]). specialize (IH s1 Hs1).
  destruct (run_ops os s1) as [reports s2]. cbn [snd] in *. destruct (IH Hr) as [(r1 & Hr1 & Hf)|(o' & Ho' & He)].
  - destruct res as [new|e]; [|left; rewrite <- W; eauto]. destruct (g_new _ _ _ _ _ W _ _ Hr1) as [HP|(r0 & Hr0 & Hf0)].
    + right. exists o. rewrite Hf. split; [by left | done].
    + left. exists r0. split; [done | congruence].
  - right. exists o'. split; [by right | done].
Qed.

(** An event of a log came through an operation that checked it. *)
Lemma logged_checked os i k e : e ∈ log (e_tables (run_ops os (mkEDB no_rows i)).2) k -> frame_skey (ae_Frame e) = k /\ exists o, o ∈ os /\ op_enters o (ae_Frame e).
Proof.
  intros [j Hj]%list_elem_of_lookup. pose proof (run_ops_ok os (mkEDB no_rows i) empty_ok) as Hok. destruct (run_ops os _) as [reports s] eqn:E. destruct Hok as [Hok _].
  cbn [snd] in *. destruct (log_lookup _ _ _ _ Hok Hj) as [Hk He]. split; [exact (f_equal fst Hk)|].
  destruct (event_row _ _ (ok_logs _ Hok) _ _ _ He) as (r & m & Hr & -> & _). pose proof (run_ops_entered os (mkEDB no_rows i) (k, Z.of_nat j + 1)%Z r empty_ok) as H.
  rewrite E in H. destruct (H Hr) as [(r0 & Hr0 & _)|?]; [|done]. cbn in Hr0. by simplify_map_eq.
Qed.
End history.
