(* ===== verification/EventRead.v ===== *)
(** * Reading the log

    [ListEvents] of [store/eventstore/read.go] against the log: a page is a piece of it. *)

From S2P Require Import Prelude GoStrings WakeupLease EventContract EventStore EventLog EventAppend EventHistory.
From stdpp Require Import sorting.

#[local] Instance seq_le_total : Total seq_le.
Proof. intros a b. unfold seq_le. lia. Qed.

#[local] Instance seq_le_trans : Transitive seq_le.
Proof. intros a b c. unfold seq_le. lia. Qed.

(** The events of a list have the sequences that follow [n]. *)
Lemma dense_sorted (l : list AgentEvent) n : (forall j e, l !! j = Some e -> fr_SourceSequence (ae_Frame e) = (n + Z.of_nat j)%Z) -> StronglySorted seq_le l.
Proof.
  revert n. induction l as [|e l IH]; intros n Hl; constructor.
  - apply (IH (n + 1)%Z). intros j e' Hj. rewrite (Hl (S j) e' Hj). lia.
  - apply Forall_lookup. intros j e' Hj. unfold seq_le. rewrite (Hl 0 e eq_refl), (Hl (S j) e' Hj). lia.
Qed.

Definition page_rows (t : tables) (k : skey) (after : Z) : list AgentEvent :=
  List.filter (fun e => bool_decide (frame_skey (ae_Frame e) = k) && (after <? fr_SourceSequence (ae_Frame e))%Z) (map_to_list (e_events t)).*2.

Lemma page_row t k after e : tables_ok t -> e ∈ page_rows t k after <-> exists n, (after < n)%Z /\ e_events t !! (k, n) = Some e /\ fr_SourceSequence (ae_Frame e) = n.
Proof.
  intros [HL _]. unfold page_rows. rewrite list_elem_of_In, filter_In, <- list_elem_of_In, list_elem_of_fmap, andb_true_iff, bool_decide_eq_true, Z.ltb_lt.
  assert (Hkey : forall k' n e', e_events t !! (k', n) = Some e' -> receiptKey (ae_Frame e') = (k', n)).
  { intros k' n e' He. destruct (event_row _ _ HL _ _ _ He) as (r & m & Hr & -> & _). apply (lo_receipt _ _ HL _ _ _ Hr). }
  split.
  - intros [([[k' n] e'] & -> & He%elem_of_map_to_list) [Hk Hn]]. cbn [snd] in *. pose proof (Hkey _ _ _ He) as Hke. unfold receiptKey in Hke. injection Hke as Hk1 Hk2.
    exists n. rewrite <- Hk, Hk1. by rewrite Hk2 in Hn.
  - intros (n & Hn & He & Hs). split; [exists ((k, n), e); split; [done | by apply elem_of_map_to_list]|]. pose proof (Hkey _ _ _ He) as Hke. unfold receiptKey in Hke.
    injection Hke as Hk1 _. split; [done | lia].
Qed.

Lemma page_rows_NoDup t k after : tables_ok t -> NoDup (page_rows t k after).
Proof.
  intros [HL _]. apply NoDup_ListNoDup, List.NoDup_filter, NoDup_ListNoDup. apply NoDup_fmap_2_strong; [|apply NoDup_map_to_list].
  intros [[k1 n1] e1] [[k2 n2] e2] H1%elem_of_map_to_list H2%elem_of_map_to_list Heq. cbn in Heq. subst e2.
  destruct (event_row _ _ HL _ _ _ H1) as (r1 & _ & Hr1 & -> & _). destruct (event_row _ _ HL _ _ _ H2) as (r2 & _ & Hr2 & Hf & _).
  destruct (lo_receipt _ _ HL _ _ _ Hr1) as [K1 _]. destruct (lo_receipt _ _ HL _ _ _ Hr2) as [K2 _]. injection Hf as Hf. rewrite Hf in K1. congruence.
Qed.

(** The rows of a page, in order, are the log from there on. *)
Lemma page_log t k after : tables_ok t -> (0 <= after)%Z -> merge_sort seq_le (page_rows t k after) = drop (Z.to_nat after) (log t k).
Proof.
  intros Hok Ha. assert (Hat : forall j e, drop (Z.to_nat after) (log t k) !! j = Some e -> fr_SourceSequence (ae_Frame e) = (after + 1 + Z.of_nat j)%Z).
  { intros j e. rewrite lookup_drop. intros He. destruct (log_lookup _ _ _ _ Hok He) as [Hk _]. unfold receiptKey in Hk. injection Hk as _ Hs. lia. }
  assert (Hin : forall e, e ∈ drop (Z.to_nat after) (log t k) <-> e ∈ page_rows t k after).
  { intros e. rewrite page_row by done. rewrite list_elem_of_lookup. split.
    - intros [j Hj]. pose proof (Hat _ _ Hj) as Hs. rewrite lookup_drop in Hj. destruct (log_lookup _ _ _ _ Hok Hj) as [_ He].
      exists (after + 1 + Z.of_nat j)%Z. split; [lia|]. split; [|done]. rewrite <- He. do 2 f_equal. lia.
    - intros (n & Hn & He & Hs). destruct (event_row _ _ (ok_logs _ Hok) _ _ _ He) as (r & m & _ & _ & Hm & Hnm).
      exists (Z.to_nat (n - 1 - after)). rewrite lookup_drop. unfold log. rewrite Hm. cbn [default id from_option]. unfold id.
      rewrite (log_upto_lookup _ _ _ _ _ (ok_logs _ Hok) Hm) by lia. rewrite <- He. do 2 f_equal. lia. }
  assert (Hinj : forall a b, a ∈ page_rows t k after -> b ∈ page_rows t k after -> fr_SourceSequence (ae_Frame a) = fr_SourceSequence (ae_Frame b) -> a = b).
  { intros a b. rewrite !page_row by done. intros (n & _ & H1 & H2) (n' & _ & H3 & H4) Heq. congruence. }
  apply (StronglySorted_unique_strong seq_le).
  - intros x y Hx Hy H1 H2. rewrite merge_sort_Permutation in Hx. rewrite Hin in Hy. apply Hinj; [done|done|]. unfold seq_le in *. lia.
  - apply StronglySorted_merge_sort; apply _.
  - by eapply dense_sorted.
  - rewrite merge_sort_Permutation. apply NoDup_Permutation; [by apply page_rows_NoDup| |by intros e; rewrite Hin].
    apply NoDup_alt. intros i j e Hi Hj. pose proof (Hat _ _ Hi). pose proof (Hat _ _ Hj). lia.
Qed.

Lemma events_of_rows_same `{EC : EventCodec} rows l : events_of_rows rows = Ok l -> l = rows.
Proof.
  revert l. induction rows as [|e rows IH]; intros l; cbn; [by intros [= <-]|]. intros H. go_ok. f_equal; [|by apply IH].
  match goal with H : agentEventFromRow _ = Ok _ |- _ => unfold agentEventFromRow in H; by go_ok end.
Qed.

(** A page of events is the piece of the log of the stream that begins after the given
    sequence and has at most the given length: after any history, a reader that goes on
    from the last sequence it has seen misses no event and sees none twice or out of
    order. *)
Theorem page_is_log_piece `{EC : EventCodec} `{EE : EventEnv} os i k after limit l s' :
  let s := (run_ops os (mkEDB no_rows i)).2 in
  ListEvents k after limit s = (Ok l, s') -> l = take (Z.to_nat limit) (drop (Z.to_nat after) (log (e_tables s) k)).
Proof.
  intros s Hl. assert (Hok : tables_ok (e_tables s)).
  { pose proof (run_ops_ok os (mkEDB no_rows i) empty_ok) as H. unfold s. destruct (run_ops os _) as [reports s0]. apply H. }
  unfold ListEvents, listEvents in Hl. unfold mbind, EM_bind, elift in Hl. destruct (validateSourceKey _ _ _); [|done].
  destruct (guard_err _ _) eqn:Hg; [|done]. apply guard_err_Ok in Hg. go_bool. unfold ListOrchestrationAgentEvents, query, stmt in Hl.
  destruct (fault _); [done|]. injection Hl as Hl _. apply events_of_rows_same in Hl. rewrite Hl. f_equal. by apply page_log.
Qed.
