(* ===== verification/IdentityStore.v ===== *)
(** * The identity store

    Models [store/identity] ([contract.go], [mapping.go], [reservation.go], [incarnation.go],
    [preparation.go], [binding.go], [snapshot.go], [tx_read.go]) with the queries of
    [identity_owner.sql] and the keys and triggers of its migration: an agent is reserved,
    gets an incarnation, a binding is prepared for it, made active with the receipt of the
    running process, and revoked; the bindings of an agent are an append-only history.

    Every operation is one transaction that keeps nothing when it ends with an error, so
    a run in which a statement fails is as a run that was not done.  The audit times of the
    rows, and the schema version, which every statement writes as 1, are left out.  The
    command intents belong to another store and are an argument.

    A statement is the table it leaves and the row it returns, or the kind of error that the
    driver gives: no row, a key that is taken, or a trigger or foreign key that refuses.  The
    checks of the columns are the ones of the requests ([Validate]) and are not repeated.  SQLite
    fires the triggers before an insert, then looks at the keys, the one of [ON CONFLICT]
    first, and at the foreign keys when the statement ends. *)

From S2P Require Import Prelude GoStrings WakeupLease EventContract.

(** ** Errors *)

Definition ErrInvalidIdentity : string := "ErrInvalidIdentity".
Definition ErrIdentityConflict : string := "ErrIdentityConflict".
Definition ErrIdentityNotFound : string := "ErrIdentityNotFound".
Definition ErrIdentityFence : string := "ErrIdentityFence".
Definition ErrIdentityAlreadyResolved : string := "ErrIdentityAlreadyResolved".

Definition invalidField (message : string) : error := Errorf [ErrInvalidIdentity] (Sprintf "%w: %s" [message]).
Definition invalidStored (message : string) : error := Errorf [ErrInvalidIdentity] (Sprintf "%w: stored %s" [message]).

(** ** Requests and rows *)

Record ReservationRequest := mkReservationRequest {
  rq_ReservationID : string; rq_CommandID : string; rq_AgentID : string; rq_IdentityKind : string; rq_SourceKind : string; rq_CallerPrincipalRef : string;
  rq_ScopeRef : string; rq_ParentAgentID : string; rq_IdempotencyNamespace : string; rq_IdempotencyKeyDigest : string; rq_RequestDigest : string;
  rq_SourceFenceRef : string; rq_TargetFenceRef : string; rq_ExpectedBindingVersion : Z; rq_ReservationGeneration : Z;
}.

Record Reservation := mkReservation {
  rs_ReservationID : string; rs_CommandID : option string; rs_AgentID : string; rs_IdentityKind : string; rs_SourceKind : string; rs_CallerPrincipalRef : string;
  rs_ScopeRef : string; rs_ParentAgentID : string; rs_IdempotencyNamespace : string; rs_IdempotencyKeyDigest : string; rs_RequestDigest : string;
  rs_SourceFenceRef : string; rs_TargetFenceRef : string; rs_ExpectedBindingVersion : Z; rs_ReservationGeneration : Z; rs_State : string;
}.

Record IncarnationRequest := mkIncarnationRequest {
  iq_IncarnationID : string; iq_ReservationID : string; iq_AgentID : string; iq_IdentityKind : string; iq_ExternalIdentityRef : string;
  iq_ExternalEpoch : string; iq_SourceFenceRef : string; iq_IdentityDigest : string; iq_IncarnationGeneration : Z;
}.

Record Incarnation := mkIncarnation {
  in_IncarnationID : string; in_ReservationID : string; in_AgentID : string; in_IdentityKind : string; in_ExternalIdentityRef : string;
  in_ExternalEpoch : string; in_SourceFenceRef : string; in_IdentityDigest : string; in_IncarnationGeneration : Z;
}.

Record BindingPreparationRequest := mkPreparationRequest {
  pq_PreparationID : string; pq_ReservationID : string; pq_IncarnationID : string; pq_AgentID : string; pq_IdentityKind : string; pq_SourceFenceRef : string;
  pq_ActiveProcessReceiptRef : string; pq_BindingDigest : string; pq_PreparationGeneration : Z; pq_ExpectedBindingVersion : Z; pq_ExpectedIncarnationGeneration : Z;
}.

Record BindingPreparation := mkPreparation {
  bp_PreparationID : string; bp_ReservationID : string; bp_IncarnationID : string; bp_AgentID : string; bp_IdentityKind : string; bp_PreparationGeneration : Z;
  bp_ExpectedBindingVersion : Z; bp_ExpectedIncarnationGeneration : Z; bp_BindingDigest : string; bp_SourceFenceRef : string; bp_ActiveProcessReceiptRef : string;
  bp_State : string;
}.

Record FinalizeBindingRequest := mkFinalize {
  fq_PreparationID : string; fq_AgentID : string; fq_ExpectedPreparationGeneration : Z; fq_ExpectedBindingVersion : Z; fq_IncarnationID : string;
  fq_ExternalIdentityRef : string; fq_IdentityKind : string; fq_SourceFenceRef : string; fq_ActiveProcessReceiptRef : string; fq_BindingDigest : string;
}.

Record AbortBindingRequest := mkAbort { aq_PreparationID : string; aq_AgentID : string; aq_ExpectedPreparationGeneration : Z; aq_ReasonRef : string }.

Record RevokeBindingRequest := mkRevoke { vq_AgentID : string; vq_ExpectedBindingVersion : Z; vq_IncarnationID : string; vq_SourceFenceRef : string }.

Record CurrentBinding := mkCurrentBinding {
  cb_AgentID : string; cb_BindingVersion : Z; cb_ReservationID : string; cb_IncarnationID : string; cb_IdentityKind : string; cb_ReservationGeneration : Z;
  cb_IncarnationGeneration : Z; cb_ExternalIdentityRef : string; cb_SourceFenceRef : string; cb_ActiveProcessReceiptRef : string; cb_BindingDigest : string; cb_State : string;
}.

(** ** Validation *)

Definition canonical_text (value : string) (limit : nat) (allowEmpty : bool) : bool :=
  negb ((negb allowEmpty && String.eqb value EmptyString) || negb (String.eqb (TrimSpace value) value) || (limit <? String.length value)%nat
        || negb (ValidString value) || Contains value nul).

(** [validateText] of this package. *)
Definition id_validateText (name value : string) (limit : nat) (allowEmpty : bool) : result error unit :=
  guard_err (canonical_text value limit allowEmpty) (invalidField (name +:+ " must be bounded canonical text")).

(** A field of [identityTextField]. *)
Definition validateIdentityTexts (fields : list (string * string * nat * bool)) : result error unit :=
  all_ok (map (fun f => id_validateText f.1.1.1 f.1.1.2 f.1.2 f.2) fields).

Definition id_validateDigest (name value : string) : result error unit :=
  if negb (String.length value =? 64)%nat || negb (String.eqb (ToLower value) value) then Err (invalidField (name +:+ " must be lowercase 256-bit hex"))
  else guard_err (str_forall is_hex value) (invalidField (name +:+ " is not hexadecimal")).

Definition validateIdentityKind (value : string) : result error unit :=
  guard_err (str_in value ["provider_session"; "native_subagent"; "managed_agent"; "a2a_remote_agent"]) (invalidField "identity_kind is unsupported").

Definition validateSourceKind (value : string) : result error unit :=
  guard_err (str_in value ["first_launch"; "recover"; "replace"; "provider_discovery"; "a2a_observation"]) (invalidField "source_kind is unsupported").

Definition validateCommandBySource (sourceKind commandID : string) : result error unit :=
  if str_in sourceKind ["first_launch"; "recover"; "replace"] then id_validateText "command_id" commandID 128 false
  else guard_err (String.eqb commandID EmptyString) (invalidField "command_id must be absent for observation source").

Definition validateReservationDigestsAndVersions (r : ReservationRequest) : result error unit :=
  _ ← id_validateDigest "idempotency_key_digest" (rq_IdempotencyKeyDigest r);
  _ ← id_validateDigest "request_digest" (rq_RequestDigest r);
  guard_err ((0 <=? rq_ExpectedBindingVersion r)%Z && (0 <? rq_ReservationGeneration r)%Z) (invalidField "reservation versions must be nonnegative/positive").

Definition validateReservationIdentity (r : ReservationRequest) : result error unit :=
  _ ← validateIdentityTexts [("reservation_id", rq_ReservationID r, 128, false); ("agent_id", rq_AgentID r, 128, false);
    ("caller_principal_ref", rq_CallerPrincipalRef r, 512, false); ("scope_ref", rq_ScopeRef r, 512, false);
    ("idempotency_namespace", rq_IdempotencyNamespace r, 256, false); ("source_fence_ref", rq_SourceFenceRef r, 512, false);
    ("target_fence_ref", rq_TargetFenceRef r, 512, false); ("parent_agent_id", rq_ParentAgentID r, 128, true)];
  _ ← validateIdentityKind (rq_IdentityKind r);
  _ ← validateSourceKind (rq_SourceKind r);
  _ ← validateCommandBySource (rq_SourceKind r) (rq_CommandID r);
  validateReservationDigestsAndVersions r.

Definition validateIncarnationIdentity (r : IncarnationRequest) : result error unit :=
  _ ← validateIdentityTexts [("incarnation_id", iq_IncarnationID r, 128, false); ("reservation_id", iq_ReservationID r, 128, false);
    ("agent_id", iq_AgentID r, 128, false); ("external_identity_ref", iq_ExternalIdentityRef r, 512, false);
    ("external_epoch", iq_ExternalEpoch r, 128, false); ("source_fence_ref", iq_SourceFenceRef r, 512, false)];
  _ ← validateIdentityKind (iq_IdentityKind r);
  _ ← id_validateDigest "identity_digest" (iq_IdentityDigest r);
  guard_err (0 <? iq_IncarnationGeneration r)%Z (invalidField "incarnation_generation must be positive").

Definition validatePreparationIdentity (r : BindingPreparationRequest) : result error unit :=
  _ ← validateIdentityTexts [("preparation_id", pq_PreparationID r, 128, false); ("reservation_id", pq_ReservationID r, 128, false);
    ("incarnation_id", pq_IncarnationID r, 128, false); ("agent_id", pq_AgentID r, 128, false);
    ("source_fence_ref", pq_SourceFenceRef r, 512, false); ("active_process_receipt_ref", pq_ActiveProcessReceiptRef r, 512, true)];
  _ ← validateIdentityKind (pq_IdentityKind r);
  _ ← id_validateDigest "binding_digest" (pq_BindingDigest r);
  guard_err ((0 <? pq_PreparationGeneration r)%Z && (0 <=? pq_ExpectedBindingVersion r)%Z && (0 <? pq_ExpectedIncarnationGeneration r)%Z)
    (invalidField "binding generations are invalid").

Definition validateFinalizeIdentity (r : FinalizeBindingRequest) : result error unit :=
  _ ← validateIdentityTexts [("preparation_id", fq_PreparationID r, 128, false); ("agent_id", fq_AgentID r, 128, false);
    ("incarnation_id", fq_IncarnationID r, 128, false); ("external_identity_ref", fq_ExternalIdentityRef r, 512, false);
    ("source_fence_ref", fq_SourceFenceRef r, 512, false); ("active_process_receipt_ref", fq_ActiveProcessReceiptRef r, 512, false)];
  _ ← validateIdentityKind (fq_IdentityKind r);
  _ ← id_validateDigest "binding_digest" (fq_BindingDigest r);
  guard_err ((0 <? fq_ExpectedPreparationGeneration r)%Z && (0 <=? fq_ExpectedBindingVersion r)%Z) (invalidField "finalize generations are invalid").

Definition validateAbortIdentity (r : AbortBindingRequest) : result error unit :=
  _ ← validateIdentityTexts [("preparation_id", aq_PreparationID r, 128, false); ("agent_id", aq_AgentID r, 128, false); ("reason_ref", aq_ReasonRef r, 512, false)];
  guard_err (0 <? aq_ExpectedPreparationGeneration r)%Z (invalidField "expected_preparation_generation must be positive").

Definition validateRevokeIdentity (r : RevokeBindingRequest) : result error unit :=
  _ ← validateIdentityTexts [("agent_id", vq_AgentID r, 128, false); ("incarnation_id", vq_IncarnationID r, 128, false); ("source_fence_ref", vq_SourceFenceRef r, 512, false)];
  guard_err (0 <? vq_ExpectedBindingVersion r)%Z (invalidField "expected_binding_version must be positive").

(** ** Rows, checked *)

Definition validReservationState (value : string) : bool :=
  str_in value ["reserved"; "claimed"; "identity_pending"; "activation_pending"; "outcome_unknown"; "activated"; "rejected"; "failed"; "expired"].
Definition validPreparationState (value : string) : bool := str_in value ["prepared_non_authorizing"; "finalized"; "aborted"; "outcome_unknown"].
Definition validCurrentState (value : string) : bool := str_in value ["active"; "revoking"; "revoked"].

Definition stringValue (value : option string) : string := default EmptyString value.

Definition reservationFromRow (row : Reservation) : result error Reservation :=
  _ ← validateReservationIdentity (mkReservationRequest (rs_ReservationID row) (stringValue (rs_CommandID row)) (rs_AgentID row) (rs_IdentityKind row)
        (rs_SourceKind row) (rs_CallerPrincipalRef row) (rs_ScopeRef row) (rs_ParentAgentID row) (rs_IdempotencyNamespace row) (rs_IdempotencyKeyDigest row)
        (rs_RequestDigest row) (rs_SourceFenceRef row) (rs_TargetFenceRef row) (rs_ExpectedBindingVersion row) (rs_ReservationGeneration row));
  _ ← guard_err (validReservationState (rs_State row)) (invalidStored "reservation state or schema version");
  Ok row.

Definition incarnationFromRow (row : Incarnation) : result error Incarnation :=
  _ ← validateIncarnationIdentity (mkIncarnationRequest (in_IncarnationID row) (in_ReservationID row) (in_AgentID row) (in_IdentityKind row)
        (in_ExternalIdentityRef row) (in_ExternalEpoch row) (in_SourceFenceRef row) (in_IdentityDigest row) (in_IncarnationGeneration row));
  Ok row.

Definition preparationFromRow (row : BindingPreparation) : result error BindingPreparation :=
  _ ← validatePreparationIdentity (mkPreparationRequest (bp_PreparationID row) (bp_ReservationID row) (bp_IncarnationID row) (bp_AgentID row) (bp_IdentityKind row)
        (bp_SourceFenceRef row) (bp_ActiveProcessReceiptRef row) (bp_BindingDigest row) (bp_PreparationGeneration row) (bp_ExpectedBindingVersion row)
        (bp_ExpectedIncarnationGeneration row));
  _ ← guard_err (validPreparationState (bp_State row)) (invalidStored "preparation state or schema version");
  Ok row.

Definition currentFromRow (row : CurrentBinding) : result error CurrentBinding :=
  _ ← validateIdentityTexts [("agent_id", cb_AgentID row, 128, false); ("reservation_id", cb_ReservationID row, 128, false);
    ("incarnation_id", cb_IncarnationID row, 128, false); ("external_identity_ref", cb_ExternalIdentityRef row, 512, false);
    ("source_fence_ref", cb_SourceFenceRef row, 512, false); ("active_process_receipt_ref", cb_ActiveProcessReceiptRef row, 512, false)];
  _ ← validateIdentityKind (cb_IdentityKind row);
  _ ← id_validateDigest "binding_digest" (cb_BindingDigest row);
  _ ← guard_err ((0 <? cb_BindingVersion row)%Z && (0 <? cb_ReservationGeneration row)%Z && (0 <? cb_IncarnationGeneration row)%Z)
        (invalidStored "current binding version or schema");
  _ ← guard_err (validCurrentState (cb_State row)) (invalidStored "current binding state");
  Ok row.

Definition currentBindingFromRow : CurrentBinding -> result error CurrentBinding := currentFromRow.


(** ** Statements *)

Record itables := mkITables {
  it_reservations : list Reservation; it_incarnations : list Incarnation; it_preparations : list BindingPreparation; it_bindings : list CurrentBinding;
}.

Definition no_tables : itables := mkITables [] [] [] [].

Inductive sql_error := SqlNoRows | SqlUnique | SqlTrigger | SqlForeignKey | SqlOther (text : string).

Definition classifyIdentityDBError (operation : string) (e : sql_error) : error :=
  match e with
  | SqlNoRows => Errorf [ErrIdentityNotFound] (Sprintf "identity record not found" [])
  | SqlUnique => Errorf [ErrIdentityConflict] (Sprintf "UNIQUE constraint failed" [])
  | SqlTrigger => Errorf [ErrIdentityFence] (Sprintf "trigger" [])
  | SqlForeignKey => Errorf [ErrIdentityFence] (Sprintf "FOREIGN KEY constraint failed" [])
  | SqlOther text => Errorf [] (Sprintf "%s: %w" [operation; text])
  end.

Definition Conflict : error := Errorf [ErrIdentityConflict] (Sprintf ErrIdentityConflict []).
Definition NotFound : error := Errorf [ErrIdentityNotFound] (Sprintf ErrIdentityNotFound []).
Definition Fence : error := Errorf [ErrIdentityFence] (Sprintf ErrIdentityFence []).
Definition AlreadyResolved : error := Errorf [ErrIdentityAlreadyResolved] (Sprintf ErrIdentityAlreadyResolved []).

Definition Stmt (A : Type) : Type := itables -> result sql_error (A * itables).

(** [:one] queries that read. *)
Definition sql_one {A} (row : itables -> option A) : Stmt A := fun t => match row t with Some r => Ok (r, t) | None => Err SqlNoRows end.

(** [MAX(f)] of the rows that pass, 0 without one; every [f] here is positive. *)
Definition max_of {A} (p : A -> bool) (f : A -> Z) (l : list A) : Z := foldr (fun r m => if p r then Z.max (f r) m else m) 0%Z l.

Definition GetReservationRow (id : string) : Stmt Reservation := sql_one (fun t => List.find (fun r => String.eqb (rs_ReservationID r) id) (it_reservations t)).

Definition has_key (ns key : string) (r : Reservation) : bool := String.eqb (rs_IdempotencyNamespace r) ns && String.eqb (rs_IdempotencyKeyDigest r) key.

Definition GetReservationRowByKey (ns key : string) : Stmt Reservation := sql_one (fun t => List.find (has_key ns key) (it_reservations t)).

Definition GetIncarnationRow (id : string) : Stmt Incarnation := sql_one (fun t => List.find (fun i => String.eqb (in_IncarnationID i) id) (it_incarnations t)).

Definition GetIncarnationRowByReservation (id : string) : Stmt Incarnation := sql_one (fun t => List.find (fun i => String.eqb (in_ReservationID i) id) (it_incarnations t)).

Definition GetPreparationRow (id : string) : Stmt BindingPreparation := sql_one (fun t => List.find (fun p => String.eqb (bp_PreparationID p) id) (it_preparations t)).

Definition has_generation (id : string) (generation : Z) (p : BindingPreparation) : bool :=
  String.eqb (bp_ReservationID p) id && (bp_PreparationGeneration p =? generation)%Z.

Definition GetPreparationRowByGeneration (id : string) (generation : Z) : Stmt BindingPreparation :=
  sql_one (fun t => List.find (has_generation id generation) (it_preparations t)).

(** [ORDER BY binding_version DESC LIMIT 1]. *)
Fixpoint newest (l : list CurrentBinding) : option CurrentBinding :=
  match l with
  | [] => None
  | b :: l => match newest l with Some c => if (cb_BindingVersion b <? cb_BindingVersion c)%Z then Some c else Some b | None => Some b end
  end.

Definition bindings_of (agent : string) (t : itables) : list CurrentBinding := List.filter (fun b => String.eqb (cb_AgentID b) agent) (it_bindings t).

Definition GetCurrentRow (agent : string) : Stmt CurrentBinding := sql_one (fun t => newest (bindings_of agent t)).

Definition GetCurrentRowVersion (agent : string) (version : Z) : Stmt CurrentBinding :=
  sql_one (fun t => List.find (fun b => String.eqb (cb_AgentID b) agent && (cb_BindingVersion b =? version)%Z) (it_bindings t)).

(** *** Inserts *)

(** Of a command intent, what a reservation must agree with. *)
Record CommandIntent := mkIntent { ci_CallerPrincipalRef : string; ci_ScopeRef : string; ci_SourceFenceRef : string; ci_TargetFenceRef : string }.

Definition Intents : Type := string -> option CommandIntent.

(** [trg_orchestration_reservation_generation_monotonic]. *)
Definition reservation_generation_old (row : Reservation) (l : list Reservation) : bool :=
  (rs_ReservationGeneration row <=? max_of (fun r => String.eqb (rs_AgentID r) (rs_AgentID row)) rs_ReservationGeneration l)%Z
  && negb (existsb (has_key (rs_IdempotencyNamespace row) (rs_IdempotencyKeyDigest row)) l).

Definition same_command (a b : option string) : bool := match a, b with Some a, Some b => String.eqb a b | _, _ => false end.

Definition reservation_taken (row r : Reservation) : bool :=
  String.eqb (rs_ReservationID r) (rs_ReservationID row) || same_command (rs_CommandID r) (rs_CommandID row)
  || (String.eqb (rs_AgentID r) (rs_AgentID row) && (rs_ReservationGeneration r =? rs_ReservationGeneration row)%Z).

Definition CreateReservationRow (intents : Intents) (row : Reservation) : Stmt Reservation := fun t =>
  let l := it_reservations t in
  if reservation_generation_old row l then Err SqlTrigger
  else if existsb (has_key (rs_IdempotencyNamespace row) (rs_IdempotencyKeyDigest row)) l then Err SqlNoRows
  else if existsb (reservation_taken row) l then Err SqlUnique
  else if match rs_CommandID row with Some c => match intents c with Some _ => false | None => true end | None => false end then Err SqlForeignKey
  else Ok (row, mkITables (l ++ [row]) (it_incarnations t) (it_preparations t) (it_bindings t)).

(** The row that a foreign key of three or four columns names. *)
Definition names_reservation (id agent kind : string) (r : Reservation) : bool :=
  String.eqb (rs_ReservationID r) id && String.eqb (rs_AgentID r) agent && String.eqb (rs_IdentityKind r) kind.

Definition names_incarnation (id reservation agent kind : string) (i : Incarnation) : bool :=
  String.eqb (in_IncarnationID i) id && String.eqb (in_ReservationID i) reservation && String.eqb (in_AgentID i) agent && String.eqb (in_IdentityKind i) kind.

(** [trg_orchestration_execution_incarnation_generation_monotonic]. *)
Definition incarnation_generation_old (row : Incarnation) (l : list Incarnation) : bool :=
  (in_IncarnationGeneration row <=? max_of (fun i => String.eqb (in_AgentID i) (in_AgentID row)) in_IncarnationGeneration l)%Z
  && negb (existsb (fun i => String.eqb (in_ReservationID i) (in_ReservationID row)) l).

Definition incarnation_taken (row i : Incarnation) : bool :=
  String.eqb (in_IncarnationID i) (in_IncarnationID row)
  || (String.eqb (in_AgentID i) (in_AgentID row) && (in_IncarnationGeneration i =? in_IncarnationGeneration row)%Z)
  || (String.eqb (in_IdentityKind i) (in_IdentityKind row) && String.eqb (in_ExternalIdentityRef i) (in_ExternalIdentityRef row)
      && String.eqb (in_ExternalEpoch i) (in_ExternalEpoch row)).

Definition CreateIncarnationRow (row : Incarnation) : Stmt Incarnation := fun t =>
  let l := it_incarnations t in
  if incarnation_generation_old row l then Err SqlTrigger
  else if existsb (fun i => String.eqb (in_ReservationID i) (in_ReservationID row)) l then Err SqlNoRows
  else if existsb (incarnation_taken row) l then Err SqlUnique
  else if negb (existsb (names_reservation (in_ReservationID row) (in_AgentID row) (in_IdentityKind row)) (it_reservations t)) then Err SqlForeignKey
  else Ok (row, mkITables (it_reservations t) (l ++ [row]) (it_preparations t) (it_bindings t)).

Definition preparation_taken (row p : BindingPreparation) : bool :=
  String.eqb (bp_PreparationID p) (bp_PreparationID row)
  || (String.eqb (bp_IncarnationID p) (bp_IncarnationID row) && (bp_PreparationGeneration p =? bp_PreparationGeneration row)%Z).

Definition CreatePreparationRow (row : BindingPreparation) : Stmt BindingPreparation := fun t =>
  let l := it_preparations t in
  if existsb (has_generation (bp_ReservationID row) (bp_PreparationGeneration row)) l then Err SqlNoRows
  else if existsb (preparation_taken row) l then Err SqlUnique
  else if negb (existsb (names_reservation (bp_ReservationID row) (bp_AgentID row) (bp_IdentityKind row)) (it_reservations t))
       || negb (existsb (names_incarnation (bp_IncarnationID row) (bp_ReservationID row) (bp_AgentID row) (bp_IdentityKind row)) (it_incarnations t)) then Err SqlForeignKey
  else Ok (row, mkITables (it_reservations t) (it_incarnations t) (l ++ [row]) (it_bindings t)).

(** [trg_orchestration_current_bindings_state_machine]: what may follow a state. *)
Definition binding_next (old new : string) : bool :=
  (String.eqb old "active" && str_in new ["revoking"; "revoked"]) || (String.eqb old "revoking" && String.eqb new "revoked")
  || (String.eqb old "revoked" && String.eqb new "active").

Definition binding_state_refused (row : CurrentBinding) (l : list CurrentBinding) : bool :=
  if (cb_BindingVersion row =? 1)%Z then negb (String.eqb (cb_State row) "active")
  else (1 <? cb_BindingVersion row)%Z
    && (negb (validCurrentState (cb_State row))
        || negb (existsb (fun p => String.eqb (cb_AgentID p) (cb_AgentID row) && (cb_BindingVersion p =? cb_BindingVersion row - 1)%Z
                                   && binding_next (cb_State p) (cb_State row)) l)).

(** [trg_orchestration_current_bindings_version_contiguous]. *)
Definition binding_version_skips (row : CurrentBinding) (l : list CurrentBinding) : bool :=
  negb (cb_BindingVersion row =? max_of (fun b => String.eqb (cb_AgentID b) (cb_AgentID row)) cb_BindingVersion l + 1)%Z.

Definition AppendBindingRow (row : CurrentBinding) : Stmt CurrentBinding := fun t =>
  let l := it_bindings t in
  if binding_version_skips row l || binding_state_refused row l then Err SqlTrigger
  else if existsb (fun b => String.eqb (cb_AgentID b) (cb_AgentID row) && (cb_BindingVersion b =? cb_BindingVersion row)%Z) l then Err SqlUnique
  else if negb (existsb (names_reservation (cb_ReservationID row) (cb_AgentID row) (cb_IdentityKind row)) (it_reservations t))
       || negb (existsb (names_incarnation (cb_IncarnationID row) (cb_ReservationID row) (cb_AgentID row) (cb_IdentityKind row)) (it_incarnations t)) then Err SqlForeignKey
  else Ok (row, mkITables (it_reservations t) (it_incarnations t) (it_preparations t) (l ++ [row])).

(** *** Updates *)

(** [trg_orchestration_identity_reservations_state_machine]. *)
Definition reservation_next (old new : string) : bool :=
  (String.eqb old "reserved" && str_in new ["claimed"; "identity_pending"; "rejected"; "expired"])
  || (String.eqb old "claimed" && str_in new ["identity_pending"; "outcome_unknown"; "rejected"; "failed"])
  || (String.eqb old "identity_pending" && str_in new ["activation_pending"; "outcome_unknown"; "rejected"; "failed"])
  || (String.eqb old "activation_pending" && str_in new ["activated"; "outcome_unknown"; "rejected"; "failed"])
  || (String.eqb old "outcome_unknown" && str_in new ["identity_pending"; "activation_pending"; "activated"; "rejected"; "failed"; "expired"])
  || String.eqb old new.

Definition with_reservation_state (r : Reservation) (state : string) : Reservation :=
  mkReservation (rs_ReservationID r) (rs_CommandID r) (rs_AgentID r) (rs_IdentityKind r) (rs_SourceKind r) (rs_CallerPrincipalRef r) (rs_ScopeRef r)
    (rs_ParentAgentID r) (rs_IdempotencyNamespace r) (rs_IdempotencyKeyDigest r) (rs_RequestDigest r) (rs_SourceFenceRef r) (rs_TargetFenceRef r)
    (rs_ExpectedBindingVersion r) (rs_ReservationGeneration r) state.

Definition UpdateReservationState (next id expected : string) : Stmt nat := fun t =>
  let hit r := String.eqb (rs_ReservationID r) id && String.eqb (rs_State r) expected in
  if existsb (fun r => hit r && negb (reservation_next (rs_State r) next)) (it_reservations t) then Err SqlTrigger
  else Ok (length (List.filter hit (it_reservations t)),
           mkITables ((fun r => if hit r then with_reservation_state r next else r) <$> it_reservations t) (it_incarnations t) (it_preparations t) (it_bindings t)).

(** [trg_orchestration_binding_preparations_state_machine]. *)
Definition preparation_next (old new : string) : bool :=
  (String.eqb old "prepared_non_authorizing" && str_in new ["finalized"; "aborted"; "outcome_unknown"])
  || (String.eqb old "outcome_unknown" && str_in new ["finalized"; "aborted"]) || String.eqb old new.

(** [trg_orchestration_binding_preparations_immutable_fields]: a receipt is set once, when
    the preparation is finalized. *)
Definition receipt_rewritten (p : BindingPreparation) (next receipt : string) : bool :=
  negb (String.eqb receipt (bp_ActiveProcessReceiptRef p))
  && negb (String.eqb (bp_ActiveProcessReceiptRef p) EmptyString && negb (String.eqb receipt EmptyString)
           && String.eqb (bp_State p) "prepared_non_authorizing" && String.eqb next "finalized").

(** [length(trim(s)) = 0]; [trim] takes blanks only. *)
Definition sql_blank (s : string) : bool := str_forall (Ascii.eqb " ") s.

Definition preparation_refused (p : BindingPreparation) (next receipt : string) : bool :=
  receipt_rewritten p next receipt || negb (preparation_next (bp_State p) next) || (String.eqb next "finalized" && sql_blank receipt).

Definition resolve_preparation (p : BindingPreparation) (next receipt : string) : BindingPreparation :=
  mkPreparation (bp_PreparationID p) (bp_ReservationID p) (bp_IncarnationID p) (bp_AgentID p) (bp_IdentityKind p) (bp_PreparationGeneration p)
    (bp_ExpectedBindingVersion p) (bp_ExpectedIncarnationGeneration p) (bp_BindingDigest p) (bp_SourceFenceRef p) receipt next.

Definition UpdatePreparationState (next receipt id agent : string) (generation : Z) (expected : string) : Stmt nat := fun t =>
  let hit p := String.eqb (bp_PreparationID p) id && String.eqb (bp_AgentID p) agent && (bp_PreparationGeneration p =? generation)%Z && String.eqb (bp_State p) expected in
  if existsb (fun p => hit p && preparation_refused p next receipt) (it_preparations t) then Err SqlTrigger
  else Ok (length (List.filter hit (it_preparations t)),
           mkITables (it_reservations t) (it_incarnations t) ((fun p => if hit p then resolve_preparation p next receipt else p) <$> it_preparations t) (it_bindings t)).
