(* ===== verification/IdentityOps.v ===== *)
(** * The operations of the identity store

    Models [reservation.go], [incarnation.go], [preparation.go], [binding.go], [snapshot.go]
    and [tx_read.go] of [store/identity], operation by operation. *)

From S2P Require Import Prelude GoStrings WakeupLease EventContract IdentityStore.

(** ** Transactions *)

Definition IM (A : Type) : Type := itables -> result error (A * itables).

#[export] Instance IM_ret : MRet IM := fun A a t => Ok (a, t).
#[export] Instance IM_bind : MBind IM := fun A B f m t => match m t with Ok (a, t') => f a t' | Err e => Err e end.

Definition ilift {A} (r : result error A) : IM A := fun t => a ← r; Ok (a, t).
Definition ifail {A} (e : error) : IM A := fun _ => Err e.
Definition iguard (b : bool) (e : error) : IM unit := if b then mret tt else ifail e.

(** A statement whose errors are all classified. *)
Definition query {A} (operation : string) (q : Stmt A) : IM A := fun t => map_err (classifyIdentityDBError operation) (q t).

(** A statement after which [sql.ErrNoRows] is a branch of its own. *)
Definition query_opt {A} (operation : string) (q : Stmt A) : IM (option A) := fun t =>
  match q t with
  | Ok (a, t') => Ok (Some a, t')
  | Err SqlNoRows => Ok (None, t)
  | Err e => Err (classifyIdentityDBError operation e)
  end.

Definition rowsAffectedOrFence (operation : string) (affected : nat) : result error unit :=
  guard_err (affected =? 1)%nat (Errorf [ErrIdentityFence] (Sprintf "%w: %s affected %d rows" [operation; pretty (Z.of_nat affected)])).

Definition reservationCommandID (value : string) : option string := if String.eqb value EmptyString then None else Some value.

Definition reservationCommandValue : option string -> string := stringValue.

(** [a + 1] on [int64]. *)
Definition succ_int64 (n : Z) : Z := ((n + 1 + 9223372036854775808) mod 18446744073709551616 - 9223372036854775808)%Z.

(** ** Reservations *)

Definition reservationParams (req : ReservationRequest) : Reservation :=
  mkReservation (rq_ReservationID req) (reservationCommandID (rq_CommandID req)) (rq_AgentID req) (rq_IdentityKind req) (rq_SourceKind req)
    (rq_CallerPrincipalRef req) (rq_ScopeRef req) (rq_ParentAgentID req) (rq_IdempotencyNamespace req) (rq_IdempotencyKeyDigest req) (rq_RequestDigest req)
    (rq_SourceFenceRef req) (rq_TargetFenceRef req) (rq_ExpectedBindingVersion req) (rq_ReservationGeneration req) "reserved".

Definition reservationIdentityEqual (req : ReservationRequest) (prior : Reservation) : bool :=
  String.eqb (rq_CommandID req) (reservationCommandValue (rs_CommandID prior)) && String.eqb (rq_AgentID req) (rs_AgentID prior)
  && String.eqb (rq_IdentityKind req) (rs_IdentityKind prior) && String.eqb (rq_SourceKind req) (rs_SourceKind prior)
  && String.eqb (rq_CallerPrincipalRef req) (rs_CallerPrincipalRef prior) && String.eqb (rq_ScopeRef req) (rs_ScopeRef prior)
  && String.eqb (rq_ParentAgentID req) (rs_ParentAgentID prior) && String.eqb (rq_IdempotencyNamespace req) (rs_IdempotencyNamespace prior)
  && String.eqb (rq_IdempotencyKeyDigest req) (rs_IdempotencyKeyDigest prior) && String.eqb (rq_RequestDigest req) (rs_RequestDigest prior).

Definition reservationFenceEqual (req : ReservationRequest) (prior : Reservation) : bool :=
  String.eqb (rq_SourceFenceRef req) (rs_SourceFenceRef prior) && String.eqb (rq_TargetFenceRef req) (rs_TargetFenceRef prior)
  && (rq_ExpectedBindingVersion req =? rs_ExpectedBindingVersion prior)%Z && (rq_ReservationGeneration req =? rs_ReservationGeneration prior)%Z.

Definition matchReservation (req : ReservationRequest) (prior : Reservation) : result error unit :=
  guard_err (reservationIdentityEqual req prior && reservationFenceEqual req prior) Conflict.

Definition verifyCommandReservationMatch (intents : Intents) (req : ReservationRequest) : result error unit :=
  match intents (rq_CommandID req) with
  | None => Err NotFound
  | Some row => guard_err (String.eqb (ci_CallerPrincipalRef row) (rq_CallerPrincipalRef req) && String.eqb (ci_ScopeRef row) (rq_ScopeRef req)
      && String.eqb (ci_SourceFenceRef row) (rq_SourceFenceRef req) && String.eqb (ci_TargetFenceRef row) (rq_TargetFenceRef req)) Conflict
  end.

Definition Reserve (intents : Intents) (req : ReservationRequest) : IM Reservation :=
  _ ← ilift (validateReservationIdentity req);
  _ ← (if String.eqb (rq_CommandID req) EmptyString then mret tt else ilift (verifyCommandReservationMatch intents req));
  row ← query_opt "reserve identity" (CreateReservationRow intents (reservationParams req));
  match row with
  | Some row => ilift (reservationFromRow row)
  | None =>
    prior ← query "replay identity reservation" (GetReservationRowByKey (rq_IdempotencyNamespace req) (rq_IdempotencyKeyDigest req));
    result ← ilift (reservationFromRow prior);
    _ ← ilift (matchReservation req result);
    mret result
  end.

Definition Store_Get (reservationID : string) : IM Reservation :=
  _ ← ilift (id_validateText "reservation_id" reservationID 128 false);
  row ← query "get identity reservation" (GetReservationRow reservationID);
  ilift (reservationFromRow row).

Definition Store_GetByKey (namespace digest : string) : IM Reservation :=
  _ ← ilift (id_validateText "idempotency_namespace" namespace 256 false);
  _ ← ilift (id_validateDigest "idempotency_key_digest" digest);
  row ← query "get identity reservation by key" (GetReservationRowByKey namespace digest);
  ilift (reservationFromRow row).

Definition advanceReservationState (reservation : Reservation) (next : string) : IM unit :=
  if String.eqb (rs_State reservation) next then mret tt
  else affected ← query "advance identity reservation" (UpdateReservationState next (rs_ReservationID reservation) (rs_State reservation));
       ilift (rowsAffectedOrFence "advance identity reservation" affected).

(** ** Incarnations *)

Definition incarnationParams (req : IncarnationRequest) : Incarnation :=
  mkIncarnation (iq_IncarnationID req) (iq_ReservationID req) (iq_AgentID req) (iq_IdentityKind req) (iq_ExternalIdentityRef req) (iq_ExternalEpoch req)
    (iq_SourceFenceRef req) (iq_IdentityDigest req) (iq_IncarnationGeneration req).

Definition matchIncarnation (req : IncarnationRequest) (prior : Incarnation) : result error unit :=
  _ ← guard_err (iq_IncarnationGeneration req =? in_IncarnationGeneration prior)%Z Fence;
  guard_err (String.eqb (iq_IncarnationID req) (in_IncarnationID prior) && String.eqb (iq_ReservationID req) (in_ReservationID prior)
    && String.eqb (iq_AgentID req) (in_AgentID prior) && String.eqb (iq_IdentityKind req) (in_IdentityKind prior)
    && String.eqb (iq_ExternalIdentityRef req) (in_ExternalIdentityRef prior) && String.eqb (iq_ExternalEpoch req) (in_ExternalEpoch prior)
    && String.eqb (iq_SourceFenceRef req) (in_SourceFenceRef prior) && String.eqb (iq_IdentityDigest req) (in_IdentityDigest prior)) Conflict.

Definition replayIncarnation (prior : Incarnation) (req : IncarnationRequest) : IM Incarnation := _ ← ilift (matchIncarnation req prior); mret prior.

Definition getIncarnationByReservation (reservationID : string) : IM (option Incarnation) :=
  row ← query_opt "look up execution incarnation" (GetIncarnationRowByReservation reservationID);
  match row with None => mret None | Some row => result ← ilift (incarnationFromRow row); mret (Some result) end.

Definition loadReservationForIncarnation (req : IncarnationRequest) : IM Reservation :=
  row ← query "load incarnation reservation" (GetReservationRow (iq_ReservationID req)); ilift (reservationFromRow row).

Definition validateIncarnationReservation (reservation : Reservation) (req : IncarnationRequest) : result error unit :=
  guard_err (String.eqb (rs_AgentID reservation) (iq_AgentID req) && String.eqb (rs_IdentityKind reservation) (iq_IdentityKind req)
    && String.eqb (rs_SourceFenceRef reservation) (iq_SourceFenceRef req) && (0 <? rs_ReservationGeneration reservation)%Z && (0 <? iq_IncarnationGeneration req)%Z) Fence.

Definition incarnationReservationStateAllowed (state : string) : bool := str_in state ["reserved"; "claimed"; "identity_pending"].

Definition createIncarnationAndAdvance (row : Incarnation) (reservation : Reservation) : IM Incarnation :=
  _ ← iguard (incarnationReservationStateAllowed (rs_State reservation)) Fence;
  result ← ilift (incarnationFromRow row);
  _ ← advanceReservationState reservation "identity_pending";
  mret result.

Definition CreateIncarnation (req : IncarnationRequest) : IM Incarnation :=
  _ ← ilift (validateIncarnationIdentity req);
  reservation ← loadReservationForIncarnation req;
  prior ← getIncarnationByReservation (iq_ReservationID req);
  match prior with
  | Some prior => replayIncarnation prior req
  | None =>
    _ ← ilift (validateIncarnationReservation reservation req);
    row ← query_opt "create execution incarnation" (CreateIncarnationRow (incarnationParams req));
    match row with
    | Some row => createIncarnationAndAdvance row reservation
    | None =>
      prior ← getIncarnationByReservation (iq_ReservationID req);
      match prior with None => ifail Conflict | Some prior => replayIncarnation prior req end
    end
  end.

Definition Store_GetIncarnation (incarnationID : string) : IM Incarnation :=
  _ ← ilift (id_validateText "incarnation_id" incarnationID 128 false);
  row ← query "get execution incarnation" (GetIncarnationRow incarnationID);
  ilift (incarnationFromRow row).

(** ** Preparations *)

Definition preparationParams (req : BindingPreparationRequest) : BindingPreparation :=
  mkPreparation (pq_PreparationID req) (pq_ReservationID req) (pq_IncarnationID req) (pq_AgentID req) (pq_IdentityKind req) (pq_PreparationGeneration req)
    (pq_ExpectedBindingVersion req) (pq_ExpectedIncarnationGeneration req) (pq_BindingDigest req) (pq_SourceFenceRef req) (pq_ActiveProcessReceiptRef req)
    "prepared_non_authorizing".

Definition preparationReceiptMatches (requested stored : string) : bool :=
  String.eqb requested EmptyString || String.eqb stored EmptyString || String.eqb requested stored.

Definition preparationIDsMatch (req : BindingPreparationRequest) (prior : BindingPreparation) : bool :=
  String.eqb (pq_PreparationID req) (bp_PreparationID prior) && String.eqb (pq_ReservationID req) (bp_ReservationID prior)
  && String.eqb (pq_IncarnationID req) (bp_IncarnationID prior) && String.eqb (pq_AgentID req) (bp_AgentID prior)
  && String.eqb (pq_IdentityKind req) (bp_IdentityKind prior) && (pq_PreparationGeneration req =? bp_PreparationGeneration prior)%Z.

Definition preparationFenceMatch (req : BindingPreparationRequest) (prior : BindingPreparation) : bool :=
  (pq_ExpectedBindingVersion req =? bp_ExpectedBindingVersion prior)%Z && (pq_ExpectedIncarnationGeneration req =? bp_ExpectedIncarnationGeneration prior)%Z
  && String.eqb (pq_BindingDigest req) (bp_BindingDigest prior) && String.eqb (pq_SourceFenceRef req) (bp_SourceFenceRef prior)
  && preparationReceiptMatches (pq_ActiveProcessReceiptRef req) (bp_ActiveProcessReceiptRef prior).

Definition matchPreparation (req : BindingPreparationRequest) (prior : BindingPreparation) : result error unit :=
  guard_err (preparationIDsMatch req prior && preparationFenceMatch req prior) Conflict.

Definition replayPreparation (prior : BindingPreparation) (req : BindingPreparationRequest) : IM BindingPreparation :=
  _ ← ilift (matchPreparation req prior); mret prior.

Definition replayPreparationTx (req : BindingPreparationRequest) : IM BindingPreparation :=
  row ← query "replay binding preparation" (GetPreparationRowByGeneration (pq_ReservationID req) (pq_PreparationGeneration req));
  result ← ilift (preparationFromRow row);
  replayPreparation result req.

Definition getPreparationByGeneration (req : BindingPreparationRequest) : IM (option BindingPreparation) :=
  row ← query_opt "look up binding preparation" (GetPreparationRowByGeneration (pq_ReservationID req) (pq_PreparationGeneration req));
  match row with None => mret None | Some row => result ← ilift (preparationFromRow row); mret (Some result) end.

Definition loadPreparationIdentities (req : BindingPreparationRequest) : IM (Reservation * Incarnation) :=
  reservationRow ← query "load preparation reservation" (GetReservationRow (pq_ReservationID req));
  incarnationRow ← query "load preparation incarnation" (GetIncarnationRow (pq_IncarnationID req));
  reservation ← ilift (reservationFromRow reservationRow);
  incarnation ← ilift (incarnationFromRow incarnationRow);
  mret (reservation, incarnation).

Definition preparationIdentityMatches (reservation : Reservation) (incarnation : Incarnation) (req : BindingPreparationRequest) : bool :=
  String.eqb (rs_AgentID reservation) (pq_AgentID req) && String.eqb (rs_IdentityKind reservation) (pq_IdentityKind req)
  && (0 <? rs_ReservationGeneration reservation)%Z && (0 <? in_IncarnationGeneration incarnation)%Z
  && String.eqb (in_ReservationID incarnation) (pq_ReservationID req) && String.eqb (in_AgentID incarnation) (pq_AgentID req)
  && String.eqb (in_IdentityKind incarnation) (pq_IdentityKind req) && String.eqb (in_SourceFenceRef incarnation) (pq_SourceFenceRef req)
  && (0 <? pq_ExpectedIncarnationGeneration req)%Z && (pq_ExpectedIncarnationGeneration req =? in_IncarnationGeneration incarnation)%Z.

Definition preparationStateAllowed (state : string) : bool := str_in state ["identity_pending"; "activation_pending"].

Definition validatePreparationFence (reservation : Reservation) (incarnation : Incarnation) (req : BindingPreparationRequest) : result error unit :=
  guard_err (preparationIdentityMatches reservation incarnation req && preparationStateAllowed (rs_State reservation)) Fence.

Definition validateExpectedBindingVersion (agentID : string) (expected : Z) : IM unit :=
  row ← query_opt "check current binding fence" (GetCurrentRow agentID);
  match row with
  | None => iguard (expected =? 0)%Z Fence
  | Some row =>
    current ← ilift (currentBindingFromRow row);
    iguard ((cb_BindingVersion current =? expected)%Z && String.eqb (cb_State current) "revoked") Fence
  end.

Definition prepareBindingTx (req : BindingPreparationRequest) : IM BindingPreparation :=
  ids ← loadPreparationIdentities req;
  existing ← getPreparationByGeneration req;
  match existing with
  | Some existing => replayPreparation existing req
  | None =>
    _ ← ilift (validatePreparationFence ids.1 ids.2 req);
    _ ← validateExpectedBindingVersion (pq_AgentID req) (pq_ExpectedBindingVersion req);
    row ← query_opt "create binding preparation" (CreatePreparationRow (preparationParams req));
    match row with
    | Some row =>
      result ← ilift (preparationFromRow row);
      _ ← advanceReservationState ids.1 "activation_pending";
      mret result
    | None => replayPreparationTx req
    end
  end.

Definition PrepareBinding (req : BindingPreparationRequest) : IM BindingPreparation :=
  _ ← ilift (validatePreparationIdentity req); prepareBindingTx req.

Definition Store_GetPreparation (preparationID : string) : IM BindingPreparation :=
  _ ← ilift (id_validateText "preparation_id" preparationID 128 false);
  row ← query "get binding preparation" (GetPreparationRow preparationID);
  ilift (preparationFromRow row).

(** ** Bindings *)

Definition Store_GetCurrent (agentID : string) : IM CurrentBinding :=
  _ ← ilift (id_validateText "agent_id" agentID 128 false);
  row ← query "get current binding" (GetCurrentRow agentID);
  ilift (currentBindingFromRow row).

Definition getPreparationTx (preparationID : string) : IM BindingPreparation :=
  row ← query "load binding preparation" (GetPreparationRow preparationID); ilift (preparationFromRow row).

Definition loadFinalizeIdentities (prep : BindingPreparation) : IM (Reservation * Incarnation) :=
  reservationRow ← query "load finalize reservation" (GetReservationRow (bp_ReservationID prep));
  incarnationRow ← query "load finalize incarnation" (GetIncarnationRow (bp_IncarnationID prep));
  reservation ← ilift (reservationFromRow reservationRow);
  incarnation ← ilift (incarnationFromRow incarnationRow);
  mret (reservation, incarnation).

Definition finalizeReservationMatches (reservation : Reservation) (req : FinalizeBindingRequest) : bool :=
  String.eqb (rs_State reservation) "activation_pending" && String.eqb (rs_AgentID reservation) (fq_AgentID req)
  && String.eqb (rs_IdentityKind reservation) (fq_IdentityKind req).

Definition finalizePreparationMatches (prep : BindingPreparation) (req : FinalizeBindingRequest) : bool :=
  String.eqb (bp_AgentID prep) (fq_AgentID req) && String.eqb (bp_IncarnationID prep) (fq_IncarnationID req) && String.eqb (bp_IdentityKind prep) (fq_IdentityKind req)
  && (bp_ExpectedBindingVersion prep =? fq_ExpectedBindingVersion req)%Z && (bp_PreparationGeneration prep =? fq_ExpectedPreparationGeneration req)%Z
  && String.eqb (bp_BindingDigest prep) (fq_BindingDigest req) && String.eqb (bp_SourceFenceRef prep) (fq_SourceFenceRef req).

Definition finalizeIncarnationMatches (incarnation : Incarnation) (prep : BindingPreparation) (req : FinalizeBindingRequest) : bool :=
  String.eqb (in_AgentID incarnation) (fq_AgentID req) && String.eqb (in_IdentityKind incarnation) (fq_IdentityKind req)
  && String.eqb (in_ExternalIdentityRef incarnation) (fq_ExternalIdentityRef req) && String.eqb (in_SourceFenceRef incarnation) (fq_SourceFenceRef req)
  && (in_IncarnationGeneration incarnation =? bp_ExpectedIncarnationGeneration prep)%Z.

Definition validateFinalizeFence (reservation : Reservation) (incarnation : Incarnation) (prep : BindingPreparation) (req : FinalizeBindingRequest) : result error unit :=
  guard_err (finalizeReservationMatches reservation req && finalizePreparationMatches prep req && finalizeIncarnationMatches incarnation prep req) Fence.

Definition getCurrentOptional (agentID : string) : IM (option CurrentBinding) :=
  row ← query_opt "load current binding" (GetCurrentRow agentID);
  match row with None => mret None | Some row => current ← ilift (currentBindingFromRow row); mret (Some current) end.

Definition validateFinalizeCurrent (current : option CurrentBinding) (req : FinalizeBindingRequest) (nextGeneration : Z) : result error unit :=
  if (fq_ExpectedBindingVersion req =? 0)%Z then guard_err (negb (bool_decide (is_Some current))) Fence
  else match current with
  | None => Err Fence
  | Some current => guard_err ((cb_BindingVersion current =? fq_ExpectedBindingVersion req)%Z && String.eqb (cb_State current) "revoked"
      && (cb_IncarnationGeneration current <? nextGeneration)%Z) Fence
  end.

Definition nextBindingVersion (current : option CurrentBinding) : Z := match current with None => 1 | Some current => succ_int64 (cb_BindingVersion current) end.

(** The row of [AppendOrchestrationCurrentBinding]. *)
Definition currentBindingParams (req : FinalizeBindingRequest) (prep : BindingPreparation) (reservation : Reservation) (incarnation : Incarnation) (version : Z) : CurrentBinding :=
  mkCurrentBinding (fq_AgentID req) version (bp_ReservationID prep) (fq_IncarnationID req) (fq_IdentityKind req) (rs_ReservationGeneration reservation)
    (in_IncarnationGeneration incarnation) (fq_ExternalIdentityRef req) (fq_SourceFenceRef req) (fq_ActiveProcessReceiptRef req) (fq_BindingDigest req) "active".

Definition finalizePreparationTx (prep : BindingPreparation) (req : FinalizeBindingRequest) : IM unit :=
  affected ← query "finalize binding preparation" (UpdatePreparationState "finalized" (fq_ActiveProcessReceiptRef req) (bp_PreparationID prep) (bp_AgentID prep)
    (bp_PreparationGeneration prep) (bp_State prep));
  ilift (rowsAffectedOrFence "finalize binding preparation" affected).

Definition finalizePreparedBinding (prep : BindingPreparation) (req : FinalizeBindingRequest) : IM CurrentBinding :=
  ids ← loadFinalizeIdentities prep;
  _ ← ilift (validateFinalizeFence ids.1 ids.2 prep req);
  current ← getCurrentOptional (fq_AgentID req);
  _ ← ilift (validateFinalizeCurrent current req (in_IncarnationGeneration ids.2));
  row ← query "append active binding" (AppendBindingRow (currentBindingParams req prep ids.1 ids.2 (nextBindingVersion current)));
  _ ← finalizePreparationTx prep req;
  _ ← advanceReservationState ids.1 "activated";
  ilift (currentBindingFromRow row).

Definition finalizedCurrentMatches (current : CurrentBinding) (req : FinalizeBindingRequest) : bool :=
  String.eqb (cb_IncarnationID current) (fq_IncarnationID req) && String.eqb (cb_IdentityKind current) (fq_IdentityKind req)
  && String.eqb (cb_ExternalIdentityRef current) (fq_ExternalIdentityRef req) && String.eqb (cb_SourceFenceRef current) (fq_SourceFenceRef req)
  && String.eqb (cb_State current) "active" && String.eqb (cb_BindingDigest current) (fq_BindingDigest req)
  && String.eqb (cb_ActiveProcessReceiptRef current) (fq_ActiveProcessReceiptRef req).

Definition finalizeReplayMatches (prep : BindingPreparation) (req : FinalizeBindingRequest) : bool :=
  String.eqb (bp_PreparationID prep) (fq_PreparationID req) && String.eqb (bp_AgentID prep) (fq_AgentID req)
  && (bp_PreparationGeneration prep =? fq_ExpectedPreparationGeneration req)%Z && (bp_ExpectedBindingVersion prep =? fq_ExpectedBindingVersion req)%Z
  && String.eqb (bp_IncarnationID prep) (fq_IncarnationID req) && String.eqb (bp_IdentityKind prep) (fq_IdentityKind req)
  && String.eqb (bp_SourceFenceRef prep) (fq_SourceFenceRef req) && String.eqb (bp_BindingDigest prep) (fq_BindingDigest req)
  && String.eqb (bp_ActiveProcessReceiptRef prep) (fq_ActiveProcessReceiptRef req).

Definition replayFinalizedBinding (prep : BindingPreparation) (req : FinalizeBindingRequest) : IM CurrentBinding :=
  _ ← iguard (finalizeReplayMatches prep req) Fence;
  row ← query "replay finalized binding" (GetCurrentRowVersion (fq_AgentID req) (succ_int64 (fq_ExpectedBindingVersion req)));
  current ← ilift (currentBindingFromRow row);
  _ ← iguard (finalizedCurrentMatches current req) Fence;
  mret current.

Definition finalizeBindingTx (req : FinalizeBindingRequest) : IM CurrentBinding :=
  prep ← getPreparationTx (fq_PreparationID req);
  if String.eqb (bp_State prep) "finalized" then replayFinalizedBinding prep req
  else _ ← iguard (String.eqb (bp_State prep) "prepared_non_authorizing") AlreadyResolved;
       finalizePreparedBinding prep req.

Definition FinalizeBinding (req : FinalizeBindingRequest) : IM CurrentBinding := _ ← ilift (validateFinalizeIdentity req); finalizeBindingTx req.

Definition rejectReservationAfterAbort (reservationID : string) : IM unit :=
  row ← query "load aborted reservation" (GetReservationRow reservationID);
  reservation ← ilift (reservationFromRow row);
  if String.eqb (rs_State reservation) "rejected" then mret tt
  else _ ← iguard (str_in (rs_State reservation) ["activation_pending"; "outcome_unknown"]) Fence;
       advanceReservationState reservation "rejected".

Definition AbortBinding (req : AbortBindingRequest) : IM BindingPreparation :=
  _ ← ilift (validateAbortIdentity req);
  prep ← getPreparationTx (aq_PreparationID req);
  _ ← iguard (String.eqb (bp_AgentID prep) (aq_AgentID req) && (bp_PreparationGeneration prep =? aq_ExpectedPreparationGeneration req)%Z) Fence;
  if String.eqb (bp_State prep) "aborted" then mret prep
  else
    _ ← iguard (String.eqb (bp_State prep) "prepared_non_authorizing") AlreadyResolved;
    affected ← query "abort binding preparation" (UpdatePreparationState "aborted" (bp_ActiveProcessReceiptRef prep) (bp_PreparationID prep) (bp_AgentID prep)
      (bp_PreparationGeneration prep) (bp_State prep));
    _ ← ilift (rowsAffectedOrFence "abort binding preparation" affected);
    _ ← rejectReservationAfterAbort (bp_ReservationID prep);
    getPreparationTx (bp_PreparationID prep).

Definition revokeFenceMatches (current : CurrentBinding) (req : RevokeBindingRequest) : bool :=
  (cb_BindingVersion current =? vq_ExpectedBindingVersion req)%Z && String.eqb (cb_IncarnationID current) (vq_IncarnationID req)
  && String.eqb (cb_SourceFenceRef current) (vq_SourceFenceRef req) && (String.eqb (cb_State current) "active" || String.eqb (cb_State current) "revoking").

(** The row of [AppendOrchestrationCurrentBindingRevoked]. *)
Definition revokedBindingParams (current : CurrentBinding) : CurrentBinding :=
  mkCurrentBinding (cb_AgentID current) (succ_int64 (cb_BindingVersion current)) (cb_ReservationID current) (cb_IncarnationID current) (cb_IdentityKind current)
    (cb_ReservationGeneration current) (cb_IncarnationGeneration current) (cb_ExternalIdentityRef current) (cb_SourceFenceRef current)
    (cb_ActiveProcessReceiptRef current) (cb_BindingDigest current) "revoked".

Definition RevokeBinding (req : RevokeBindingRequest) : IM CurrentBinding :=
  _ ← ilift (validateRevokeIdentity req);
  current ← getCurrentOptional (vq_AgentID req);
  match current with
  | None => ifail NotFound
  | Some current =>
    if String.eqb (cb_State current) "revoked" && (cb_BindingVersion current =? vq_ExpectedBindingVersion req)%Z
    then _ ← iguard (String.eqb (cb_IncarnationID current) (vq_IncarnationID req) && String.eqb (cb_SourceFenceRef current) (vq_SourceFenceRef req)) Fence;
         mret current
    else
      _ ← iguard (revokeFenceMatches current req) Fence;
      row ← query "revoke current binding" (AppendBindingRow (revokedBindingParams current));
      ilift (currentBindingFromRow row)
  end.

Definition CloseBinding : RevokeBindingRequest -> IM CurrentBinding := RevokeBinding.

(** ** Snapshots *)

Record ActiveSnapshot := mkSnapshot { sn_Reservation : Reservation; sn_Incarnation : Incarnation; sn_Binding : CurrentBinding }.

Definition snapshotReservationMatches (reservation : Reservation) (binding : CurrentBinding) : bool :=
  String.eqb (rs_State reservation) "activated" && String.eqb (rs_AgentID reservation) (cb_AgentID binding)
  && String.eqb (rs_ReservationID reservation) (cb_ReservationID binding) && (rs_ReservationGeneration reservation =? cb_ReservationGeneration binding)%Z
  && String.eqb (rs_SourceFenceRef reservation) (cb_SourceFenceRef binding).

Definition snapshotIncarnationMatches (reservation : Reservation) (incarnation : Incarnation) (binding : CurrentBinding) : bool :=
  String.eqb (in_ReservationID incarnation) (rs_ReservationID reservation) && String.eqb (in_AgentID incarnation) (cb_AgentID binding)
  && String.eqb (in_IncarnationID incarnation) (cb_IncarnationID binding) && (in_IncarnationGeneration incarnation =? cb_IncarnationGeneration binding)%Z
  && String.eqb (in_IdentityKind incarnation) (cb_IdentityKind binding) && String.eqb (in_ExternalIdentityRef incarnation) (cb_ExternalIdentityRef binding)
  && String.eqb (in_SourceFenceRef incarnation) (cb_SourceFenceRef binding).

Definition snapshotRelationsMatch (reservation : Reservation) (incarnation : Incarnation) (binding : CurrentBinding) : bool :=
  snapshotReservationMatches reservation binding && snapshotIncarnationMatches reservation incarnation binding.

Definition readSnapshotBindingTx (agentID : string) : IM CurrentBinding :=
  row ← query "get active identity binding" (GetCurrentRow agentID);
  binding ← ilift (currentBindingFromRow row);
  _ ← iguard (String.eqb (cb_State binding) "active") Fence;
  mret binding.

Definition readSnapshotReservationTx (reservationID : string) : IM Reservation :=
  row ← query "get active identity reservation" (GetReservationRow reservationID); ilift (reservationFromRow row).

Definition readSnapshotIncarnationTx (incarnationID : string) : IM Incarnation :=
  row ← query "get active identity incarnation" (GetIncarnationRow incarnationID); ilift (incarnationFromRow row).

Definition readActiveSnapshotTx (agentID : string) : IM ActiveSnapshot :=
  binding ← readSnapshotBindingTx agentID;
  reservation ← readSnapshotReservationTx (cb_ReservationID binding);
  incarnation ← readSnapshotIncarnationTx (cb_IncarnationID binding);
  _ ← iguard (snapshotRelationsMatch reservation incarnation binding) Fence;
  mret (mkSnapshot reservation incarnation binding).

(** [GetActiveSnapshot] and [GetActiveSnapshotTx]: a transaction of its own, or the
    caller's. *)
Definition GetActiveSnapshot (agentID : string) : IM ActiveSnapshot :=
  _ ← ilift (id_validateText "agent_id" agentID 128 false); readActiveSnapshotTx agentID.

Definition GetCurrentWithDBTX (agentID : string) : IM CurrentBinding :=
  _ ← ilift (id_validateText "agent_id" agentID 128 false);
  row ← query "get current binding in transaction" (GetCurrentRow agentID);
  ilift (currentBindingFromRow row).

Definition GetWithDBTX (reservationID : string) : IM Reservation :=
  _ ← ilift (id_validateText "reservation_id" reservationID 128 false);
  row ← query "get identity reservation in transaction" (GetReservationRow reservationID);
  ilift (reservationFromRow row).

Definition GetIncarnationWithDBTX (incarnationID : string) : IM Incarnation :=
  _ ← ilift (id_validateText "incarnation_id" incarnationID 128 false);
  row ← query "get execution incarnation in transaction" (GetIncarnationRow incarnationID);
  ilift (incarnationFromRow row).

(** ** Histories *)

(** An operation that writes, with its request and the command intents as it sees them. *)
Inductive iop :=
| IReserve (intents : Intents) (req : ReservationRequest)
| ICreateIncarnation (req : IncarnationRequest)
| IPrepare (req : BindingPreparationRequest)
| IFinalize (req : FinalizeBindingRequest)
| IAbort (req : AbortBindingRequest)
| IRevoke (req : RevokeBindingRequest).

(** The tables after the transaction: those before it when it ends with an error. *)
Definition committed {A} (m : IM A) (t : itables) : itables := match m t with Ok (_, t') => t' | Err _ => t end.

Definition iop_run (o : iop) (t : itables) : itables :=
  match o with
  | IReserve intents req => committed (Reserve intents req) t
  | ICreateIncarnation req => committed (CreateIncarnation req) t
  | IPrepare req => committed (PrepareBinding req) t
  | IFinalize req => committed (FinalizeBinding req) t
  | IAbort req => committed (AbortBinding req) t
  | IRevoke req => committed (RevokeBinding req) t
  end.

Definition identity_history (ops : list iop) (t : itables) : itables := foldl (fun t o => iop_run o t) t ops.
