(* ===== verification/IdentitySteps.v ===== *)
(** * The identity store as a step relation

    Every operation of the identity store that commits is one of seven steps on its tables
    ([istep]): a new reservation, incarnation or preparation, a preparation that becomes an
    active binding or is aborted, a binding that is revoked, or none.  The rules say what
    the checks, keys, triggers and foreign keys together leave possible. *)

From S2P Require Import Prelude GoStrings WakeupLease EventContract IdentityStore IdentityOps.

(** ** Steps *)

Definition set_state (id state : string) (l : list Reservation) : list Reservation :=
  (fun r => if String.eqb (rs_ReservationID r) id then with_reservation_state r state else r) <$> l.

Definition set_preparation (id state receipt : string) (l : list BindingPreparation) : list BindingPreparation :=
  (fun p => if String.eqb (bp_PreparationID p) id then resolve_preparation p state receipt else p) <$> l.

Definition key_of (r : Reservation) : string * string := (rs_IdempotencyNamespace r, rs_IdempotencyKeyDigest r).
Definition generation_of (p : BindingPreparation) : string * Z := (bp_ReservationID p, bp_PreparationGeneration p).

(** The incarnation belongs to the reservation, the preparation to the incarnation, and
    the binding to both. *)
Definition incarnation_of (i : Incarnation) (r : Reservation) : Prop :=
  rs_ReservationID r = in_ReservationID i /\ rs_AgentID r = in_AgentID i /\ rs_IdentityKind r = in_IdentityKind i /\ rs_SourceFenceRef r = in_SourceFenceRef i.

Definition preparation_of (p : BindingPreparation) (i : Incarnation) : Prop :=
  in_IncarnationID i = bp_IncarnationID p /\ in_ReservationID i = bp_ReservationID p /\ in_AgentID i = bp_AgentID p /\ in_IdentityKind i = bp_IdentityKind p
  /\ in_SourceFenceRef i = bp_SourceFenceRef p /\ in_IncarnationGeneration i = bp_ExpectedIncarnationGeneration p.

Definition binding_of (b : CurrentBinding) (r : Reservation) (i : Incarnation) : Prop :=
  rs_ReservationID r = cb_ReservationID b /\ rs_AgentID r = cb_AgentID b /\ rs_ReservationGeneration r = cb_ReservationGeneration b
  /\ in_IncarnationID i = cb_IncarnationID b /\ in_IdentityKind i = cb_IdentityKind b /\ in_IncarnationGeneration i = cb_IncarnationGeneration b
  /\ in_ExternalIdentityRef i = cb_ExternalIdentityRef b /\ in_SourceFenceRef i = cb_SourceFenceRef b.

(** The binding that a finalized preparation became. *)
Definition finalized_as (p : BindingPreparation) (b : CurrentBinding) : Prop :=
  cb_AgentID b = bp_AgentID p /\ cb_BindingVersion b = (bp_ExpectedBindingVersion p + 1)%Z /\ cb_ReservationID b = bp_ReservationID p
  /\ cb_IncarnationID b = bp_IncarnationID p /\ cb_IdentityKind b = bp_IdentityKind p /\ cb_SourceFenceRef b = bp_SourceFenceRef p
  /\ cb_BindingDigest b = bp_BindingDigest p /\ cb_ActiveProcessReceiptRef b = bp_ActiveProcessReceiptRef p /\ cb_State b = "active".

(** The row may follow the history of its agent as an active binding. *)
Definition may_open (l : list CurrentBinding) (b : CurrentBinding) : Prop :=
  match newest l with
  | None => cb_BindingVersion b = 1%Z
  | Some c => cb_State c = "revoked" /\ cb_BindingVersion b = (cb_BindingVersion c + 1)%Z /\ (cb_IncarnationGeneration c < cb_IncarnationGeneration b)%Z
  end.

(** What a step asks of the bindings: nothing, or to bind or release an agent at a
    version and with an incarnation. *)
Inductive ilabel := LOther | LBind (agent : string) (version : Z) (incarnation : string) | LRelease (agent : string) (version : Z) (incarnation : string).

Definition iop_label (o : iop) : ilabel :=
  match o with
  | IFinalize req => LBind (fq_AgentID req) (fq_ExpectedBindingVersion req) (fq_IncarnationID req)
  | IRevoke req => LRelease (vq_AgentID req) (vq_ExpectedBindingVersion req) (vq_IncarnationID req)
  | _ => LOther
  end.

Inductive istep (t : itables) : ilabel -> itables -> Prop :=
| step_none lb : istep t lb t
| step_reserve row :
    reservationFromRow row = Ok row -> rs_State row = "reserved" ->
    rs_ReservationID row ∉ (rs_ReservationID <$> it_reservations t) -> key_of row ∉ (key_of <$> it_reservations t) ->
    (max_of (fun r => String.eqb (rs_AgentID r) (rs_AgentID row)) rs_ReservationGeneration (it_reservations t) < rs_ReservationGeneration row)%Z ->
    istep t LOther (mkITables (it_reservations t ++ [row]) (it_incarnations t) (it_preparations t) (it_bindings t))
| step_incarnate row r :
    incarnationFromRow row = Ok row -> r ∈ it_reservations t -> incarnation_of row r -> incarnationReservationStateAllowed (rs_State r) = true ->
    in_IncarnationID row ∉ (in_IncarnationID <$> it_incarnations t) -> in_ReservationID row ∉ (in_ReservationID <$> it_incarnations t) ->
    (max_of (fun i => String.eqb (in_AgentID i) (in_AgentID row)) in_IncarnationGeneration (it_incarnations t) < in_IncarnationGeneration row)%Z ->
    istep t LOther (mkITables (set_state (rs_ReservationID r) "identity_pending" (it_reservations t)) (it_incarnations t ++ [row]) (it_preparations t) (it_bindings t))
| step_prepare row r i :
    preparationFromRow row = Ok row -> r ∈ it_reservations t -> i ∈ it_incarnations t -> rs_ReservationID r = bp_ReservationID row -> preparation_of row i ->
    preparationStateAllowed (rs_State r) = true -> bp_State row = "prepared_non_authorizing" ->
    bp_PreparationID row ∉ (bp_PreparationID <$> it_preparations t) -> generation_of row ∉ (generation_of <$> it_preparations t) ->
    istep t LOther (mkITables (set_state (rs_ReservationID r) "activation_pending" (it_reservations t)) (it_incarnations t) (it_preparations t ++ [row]) (it_bindings t))
| step_finalize p r i b :
    p ∈ it_preparations t -> bp_State p = "prepared_non_authorizing" -> r ∈ it_reservations t -> i ∈ it_incarnations t ->
    rs_ReservationID r = bp_ReservationID p -> rs_State r = "activation_pending" -> binding_of b r i -> currentFromRow b = Ok b ->
    finalized_as (resolve_preparation p "finalized" (cb_ActiveProcessReceiptRef b)) b ->
    (bp_ActiveProcessReceiptRef p <> EmptyString -> bp_ActiveProcessReceiptRef p = cb_ActiveProcessReceiptRef b) -> may_open (bindings_of (cb_AgentID b) t) b ->
    istep t (LBind (cb_AgentID b) (bp_ExpectedBindingVersion p) (cb_IncarnationID b)) (mkITables (set_state (rs_ReservationID r) "activated" (it_reservations t)) (it_incarnations t)
               (set_preparation (bp_PreparationID p) "finalized" (cb_ActiveProcessReceiptRef b) (it_preparations t)) (it_bindings t ++ [b]))
| step_abort p r :
    p ∈ it_preparations t -> bp_State p = "prepared_non_authorizing" -> r ∈ it_reservations t -> rs_ReservationID r = bp_ReservationID p ->
    str_in (rs_State r) ["activation_pending"; "outcome_unknown"; "rejected"] = true ->
    istep t LOther (mkITables (set_state (rs_ReservationID r) "rejected" (it_reservations t)) (it_incarnations t)
               (set_preparation (bp_PreparationID p) "aborted" (bp_ActiveProcessReceiptRef p) (it_preparations t)) (it_bindings t))
| step_revoke c :
    newest (bindings_of (cb_AgentID c) t) = Some c -> cb_State c = "active" \/ cb_State c = "revoking" ->
    currentFromRow (revokedBindingParams c) = Ok (revokedBindingParams c) -> cb_BindingVersion (revokedBindingParams c) = (cb_BindingVersion c + 1)%Z ->
    istep t (LRelease (cb_AgentID c) (cb_BindingVersion c) (cb_IncarnationID c)) (mkITables (it_reservations t) (it_incarnations t) (it_preparations t) (it_bindings t ++ [revokedBindingParams c])).

(** ** Transactions that commit *)

Lemma im_bind {A B} (m : IM A) (f : A -> IM B) t b t' : (m ≫= f) t = Ok (b, t') -> exists a t1, m t = Ok (a, t1) /\ f a t1 = Ok (b, t').
Proof. unfold mbind, IM_bind. destruct (m t) as [[a t1]|]; [eauto|done]. Qed.

Lemma im_lift {A} (r : result error A) t a t' : ilift r t = Ok (a, t') -> r = Ok a /\ t' = t.
Proof. unfold ilift. destruct r as [x|e]; [|done]. by intros [= <- <-]. Qed.

Lemma im_guard b e t u t' : iguard b e t = Ok (u, t') -> b = true /\ t' = t.
Proof. unfold iguard. destruct b; [|done]. by intros [= _ <-]. Qed.

Lemma im_ret {A} (a b : A) t t' : @mret IM _ A a t = Ok (b, t') -> a = b /\ t = t'.
Proof. by intros [= -> ->]. Qed.

Lemma im_query {A} op (q : Stmt A) t a t' : query op q t = Ok (a, t') -> q t = Ok (a, t').
Proof. unfold query. apply map_err_Ok. Qed.

Lemma im_query_opt {A} op (q : Stmt A) t a t' : query_opt op q t = Ok (a, t') ->
  match a with Some a => q t = Ok (a, t') | None => q t = Err SqlNoRows /\ t' = t end.
Proof. unfold query_opt. destruct (q t) as [[x s]|[]] eqn:E; intros [= <- <-]; done. Qed.

Lemma sql_one_Ok {A} (row : itables -> option A) t a t' : sql_one row t = Ok (a, t') -> row t = Some a /\ t' = t.
Proof. unfold sql_one. destruct (row t); [|done]. by intros [= <- <-]. Qed.

Lemma sql_one_Err {A} (row : itables -> option A) t e : sql_one row t = Err e -> row t = None.
Proof. unfold sql_one. by destruct (row t). Qed.

(** Peels the statements of an operation that committed. *)
Ltac im_ok :=
  repeat match goal with
  | H : (_ ≫= _) _ = Ok (_, _) |- _ => apply im_bind in H as (? & ? & ? & H)
  | H : ilift _ _ = Ok (_, _) |- _ => apply im_lift in H as [H ->]
  | H : iguard _ _ _ = Ok (_, _) |- _ => apply im_guard in H as [H ->]
  | H : query _ _ _ = Ok (_, _) |- _ => apply im_query in H
  | H : query_opt _ _ _ = Ok (_, _) |- _ => apply im_query_opt in H; cbn beta iota in H
  | H : sql_one _ _ = Ok (_, _) |- _ => apply sql_one_Ok in H as [H ->]
  | H : @mret IM _ _ _ _ = Ok (_, _) |- _ => apply im_ret in H as [? ?]; subst
  | H : ifail _ _ = Ok _ |- _ => discriminate H
  | x : unit |- _ => destruct x
  end.

Lemma fromRow_same :
  (forall r x, reservationFromRow r = Ok x -> x = r) /\ (forall r x, incarnationFromRow r = Ok x -> x = r)
  /\ (forall r x, preparationFromRow r = Ok x -> x = r) /\ (forall r x, currentFromRow r = Ok x -> x = r).
Proof. unfold reservationFromRow, incarnationFromRow, preparationFromRow, currentFromRow. split_and!; intros r x H; go_ok; done. Qed.

Lemma reservationFromRow_same r x : reservationFromRow r = Ok x -> x = r. Proof. apply fromRow_same. Qed.
Lemma incarnationFromRow_same r x : incarnationFromRow r = Ok x -> x = r. Proof. apply fromRow_same. Qed.
Lemma preparationFromRow_same r x : preparationFromRow r = Ok x -> x = r. Proof. apply fromRow_same. Qed.
Lemma currentFromRow_same r x : currentFromRow r = Ok x -> x = r. Proof. apply fromRow_same. Qed.

(** A row that passes its check is returned as it is. *)
Ltac same_rows :=
  unfold currentBindingFromRow in *;
  repeat match goal with
  | H : reservationFromRow ?r = Ok ?x |- _ => assert_fails (constr_eq r x); pose proof (reservationFromRow_same _ _ H); subst x
  | H : incarnationFromRow ?r = Ok ?x |- _ => assert_fails (constr_eq r x); pose proof (incarnationFromRow_same _ _ H); subst x
  | H : preparationFromRow ?r = Ok ?x |- _ => assert_fails (constr_eq r x); pose proof (preparationFromRow_same _ _ H); subst x
  | H : currentFromRow ?r = Ok ?x |- _ => assert_fails (constr_eq r x); pose proof (currentFromRow_same _ _ H); subst x
  end.

(** What a read says. *)
Lemma find_key {A} (f : A -> string) id l a : List.find (fun r => String.eqb (f r) id) l = Some a -> a ∈ l /\ f a = id.
Proof. intros [Hin Heq]%find_some. split; [by apply list_elem_of_In|by apply String.eqb_eq]. Qed.

Lemma find_none {A} (p : A -> bool) l x : List.find p l = None -> x ∈ l -> p x = false.
Proof. intros H Hx. eapply find_none in H; [done|]. by apply list_elem_of_In. Qed.

Lemma existsb_false {A} (p : A -> bool) l x : existsb p l = false -> x ∈ l -> p x = false.
Proof. rewrite existsb_false_iff, Forall_forall. auto. Qed.

Lemma fresh_fmap {A B} (f : A -> B) (l : list A) (b : B) : (forall x, x ∈ l -> f x <> b) -> b ∉ (f <$> l).
Proof. intros H (x & -> & Hx)%list_elem_of_fmap. by eapply H. Qed.

(** ** The current binding and the triggers *)

Lemma max_of_nonneg {A} (p : A -> bool) f l : (0 <= max_of p f l)%Z.
Proof. induction l as [|x l IH]; simpl; [lia|]. destruct (p x); lia. Qed.

Lemma max_of_ge {A} (p : A -> bool) f l x : x ∈ l -> p x = true -> (f x <= max_of p f l)%Z.
Proof. induction 1 as [|x y l _ IH]; intros Hp; simpl; [rewrite Hp; lia|]. specialize (IH Hp). destruct (p y); lia. Qed.

Lemma max_of_newest a l :
  max_of (fun b => String.eqb (cb_AgentID b) a) cb_BindingVersion l
  = match newest (List.filter (fun b => String.eqb (cb_AgentID b) a) l) with None => 0%Z | Some c => Z.max 0 (cb_BindingVersion c) end.
Proof.
  induction l as [|b l IH]; [done|]. simpl. destruct (String.eqb (cb_AgentID b) a); [|done]. rewrite IH. simpl.
  destruct (newest _) as [c|]; [|lia]. destruct (Z.ltb_spec (cb_BindingVersion b) (cb_BindingVersion c)); lia.
Qed.

Lemma newest_in l c : newest l = Some c -> c ∈ l.
Proof.
  revert c. induction l as [|b l IH]; simpl; intros c H; [done|]. destruct (newest l) as [d|] eqn:E.
  - destruct (_ <? _)%Z; simplify_eq; [right; auto|left].
  - simplify_eq. left.
Qed.

Lemma elem_of_bindings b a t : b ∈ bindings_of a t <-> b ∈ it_bindings t /\ cb_AgentID b = a.
Proof. unfold bindings_of. rewrite !list_elem_of_In, filter_In, String.eqb_eq. done. Qed.

Lemma newest_agent a t c : newest (bindings_of a t) = Some c -> c ∈ it_bindings t /\ cb_AgentID c = a.
Proof. intros H%newest_in. by apply elem_of_bindings. Qed.

(** ** Updates of one row *)

Lemma update_one {A} (f : A -> string) (hit : A -> bool) (g : A -> A) (l : list A) x :
  NoDup (f <$> l) -> x ∈ l -> hit x = true -> (forall y, hit y = true -> f y = f x) ->
  ((fun y => if hit y then g y else y) <$> l) = ((fun y => if String.eqb (f y) (f x) then g y else y) <$> l).
Proof.
  intros Hnd Hx Hh Hf. apply list_fmap_ext. intros i y Hy%list_elem_of_lookup_2. destruct (hit y) eqn:E.
  - by rewrite (Hf _ E), String.eqb_refl.
  - destruct (String.eqb_spec (f y) (f x)) as [Heq|]; [|done]. assert (y = x) as -> by (eapply same_key; eauto). congruence.
Qed.

Lemma with_same_state r : with_reservation_state r (rs_State r) = r.
Proof. by destruct r. Qed.

Lemma set_state_same r l : NoDup (rs_ReservationID <$> l) -> r ∈ l -> set_state (rs_ReservationID r) (rs_State r) l = l.
Proof.
  intros Hnd Hr. unfold set_state. rewrite <- (list_fmap_id l) at 2. apply list_fmap_ext. intros i y Hy%list_elem_of_lookup_2.
  destruct (String.eqb_spec (rs_ReservationID y) (rs_ReservationID r)) as [Heq|]; [|done]. assert (y = r) as -> by (eapply same_key; eauto). apply with_same_state.
Qed.

Lemma advance_Ok r next t u t' : NoDup (rs_ReservationID <$> it_reservations t) -> r ∈ it_reservations t -> advanceReservationState r next t = Ok (u, t') ->
  t' = mkITables (set_state (rs_ReservationID r) next (it_reservations t)) (it_incarnations t) (it_preparations t) (it_bindings t).
Proof.
  unfold advanceReservationState. intros Hnd Hr H. destruct (String.eqb_spec (rs_State r) next) as [<-|].
  - im_ok. rewrite set_state_same by done. by destruct t'.
  - im_ok. unfold UpdateReservationState in *. case_match; [done|]. simplify_eq. f_equal.
    apply (update_one rs_ReservationID _ _ _ r Hnd Hr); [by rewrite !String.eqb_refl|intros y Hy; by go_bool].
Qed.

Lemma resolve_Ok p next receipt t n t' : NoDup (bp_PreparationID <$> it_preparations t) -> p ∈ it_preparations t ->
  UpdatePreparationState next receipt (bp_PreparationID p) (bp_AgentID p) (bp_PreparationGeneration p) (bp_State p) t = Ok (n, t') ->
  t' = mkITables (it_reservations t) (it_incarnations t) (set_preparation (bp_PreparationID p) next receipt (it_preparations t)) (it_bindings t)
  /\ preparation_refused p next receipt = false.
Proof.
  unfold UpdatePreparationState. intros Hnd Hp H. case_match eqn:E; [done|]. simplify_eq. split.
  - f_equal. apply (update_one bp_PreparationID _ _ _ p Hnd Hp); [by rewrite !String.eqb_refl, Z.eqb_refl|intros y Hy; by go_bool].
  - eapply existsb_false in E; [|exact Hp]. by rewrite !String.eqb_refl, Z.eqb_refl in E.
Qed.

Lemma append_Ok row t b t' : AppendBindingRow row t = Ok (b, t') ->
  b = row /\ t' = mkITables (it_reservations t) (it_incarnations t) (it_preparations t) (it_bindings t ++ [row])
  /\ cb_BindingVersion row = (max_of (fun b => String.eqb (cb_AgentID b) (cb_AgentID row)) cb_BindingVersion (it_bindings t) + 1)%Z.
Proof.
  unfold AppendBindingRow. intros H. repeat case_match; simplify_eq. split_and!; [done..|]. go_bool. unfold binding_version_skips in *. by go_bool.
Qed.

(** What a row that was inserted shares with no row. *)
Lemma create_reservation_Ok intents row t r t' : CreateReservationRow intents row t = Ok (r, t') ->
  r = row /\ t' = mkITables (it_reservations t ++ [row]) (it_incarnations t) (it_preparations t) (it_bindings t)
  /\ (rs_ReservationID row ∉ (rs_ReservationID <$> it_reservations t)) /\ (key_of row ∉ (key_of <$> it_reservations t))
  /\ (max_of (fun r => String.eqb (rs_AgentID r) (rs_AgentID row)) rs_ReservationGeneration (it_reservations t) < rs_ReservationGeneration row)%Z.
Proof.
  unfold CreateReservationRow. intros H. destruct (reservation_generation_old _ _) eqn:Eg; [done|]. destruct (existsb (has_key _ _) _) eqn:Ek; [done|].
  destruct (existsb (reservation_taken _) _) eqn:Et; [done|]. destruct (match rs_CommandID row with Some _ => _ | None => _ end); [done|]. simplify_eq. split_and!; [done..| | |].
  - apply fresh_fmap. intros y Hy Heq. eapply existsb_false in Et; [|exact Hy]. unfold reservation_taken in Et. by rewrite Heq, String.eqb_refl in Et.
  - apply fresh_fmap. intros y Hy [= H1 H2]. eapply existsb_false in Ek; [|exact Hy]. unfold has_key in Ek. by rewrite H1, H2, !String.eqb_refl in Ek.
  - unfold reservation_generation_old in Eg. rewrite Ek in Eg. cbn [negb] in Eg. rewrite andb_true_r in Eg. by go_bool.
Qed.

Lemma create_incarnation_Ok row t r t' : CreateIncarnationRow row t = Ok (r, t') ->
  r = row /\ t' = mkITables (it_reservations t) (it_incarnations t ++ [row]) (it_preparations t) (it_bindings t)
  /\ (in_IncarnationID row ∉ (in_IncarnationID <$> it_incarnations t)) /\ (in_ReservationID row ∉ (in_ReservationID <$> it_incarnations t))
  /\ (max_of (fun i => String.eqb (in_AgentID i) (in_AgentID row)) in_IncarnationGeneration (it_incarnations t) < in_IncarnationGeneration row)%Z.
Proof.
  unfold CreateIncarnationRow. intros H. destruct (incarnation_generation_old _ _) eqn:Eg; [done|]. destruct (existsb _ (it_incarnations t)) eqn:Ek; [done|].
  destruct (existsb (incarnation_taken _) _) eqn:Et; [done|]. destruct (negb _); [done|]. simplify_eq. split_and!; [done..| | |].
  - apply fresh_fmap. intros y Hy Heq. eapply existsb_false in Et; [|exact Hy]. unfold incarnation_taken in Et. by rewrite Heq, String.eqb_refl in Et.
  - apply fresh_fmap. intros y Hy Heq. eapply existsb_false in Ek; [|exact Hy]. by rewrite Heq, String.eqb_refl in Ek.
  - unfold incarnation_generation_old in Eg. rewrite Ek in Eg. cbn [negb] in Eg. rewrite andb_true_r in Eg. by go_bool.
Qed.

Lemma create_preparation_Ok row t r t' : CreatePreparationRow row t = Ok (r, t') ->
  r = row /\ t' = mkITables (it_reservations t) (it_incarnations t) (it_preparations t ++ [row]) (it_bindings t)
  /\ (bp_PreparationID row ∉ (bp_PreparationID <$> it_preparations t)) /\ (generation_of row ∉ (generation_of <$> it_preparations t)).
Proof.
  unfold CreatePreparationRow. intros H. destruct (existsb (has_generation _ _) _) eqn:Ek; [done|].
  destruct (existsb (preparation_taken _) _) eqn:Et; [done|]. destruct (_ || _); [done|]. simplify_eq. split_and!; [done..| |].
  - apply fresh_fmap. intros y Hy Heq. eapply existsb_false in Et; [|exact Hy]. unfold preparation_taken in Et. by rewrite Heq, String.eqb_refl in Et.
  - apply fresh_fmap. intros y Hy [= H1 H2]. eapply existsb_false in Ek; [|exact Hy]. unfold has_generation in Ek. by rewrite H1, H2, String.eqb_refl, Z.eqb_refl in Ek.
Qed.

(** ** Every operation is a step *)

(** Splits on whether the statement of a [query_opt] found its row. *)
Ltac opt_cases H row :=
  match goal with Hc : match ?o with Some _ => _ = Ok _ | None => _ = Err SqlNoRows /\ _ end |- _ => rename Hc into H; destruct o as [row|]; [|destruct H as [H ->]] end.

Definition unique_ids (t : itables) : Prop := NoDup (rs_ReservationID <$> it_reservations t) /\ NoDup (bp_PreparationID <$> it_preparations t).

Lemma Reserve_step intents req t r t' : Reserve intents req t = Ok (r, t') -> istep t LOther t'.
Proof.
  intros H. unfold Reserve in H. im_ok. assert (x2 = t) as -> by (destruct (String.eqb (rq_CommandID req) EmptyString); im_ok; done).
  opt_cases HC row.
  - im_ok. pose proof (reservationFromRow_same _ _ H) as ->. apply create_reservation_Ok in HC as (-> & -> & F1 & F2 & F3). by apply step_reserve.
  - unfold GetReservationRowByKey in *. im_ok. constructor.
Qed.

Lemma getIncarnationByReservation_Ok id t i t' : getIncarnationByReservation id t = Ok (i, t') -> t' = t.
Proof. unfold getIncarnationByReservation. intros H. im_ok. opt_cases HC row; unfold GetIncarnationRowByReservation in *; im_ok; done. Qed.

Lemma CreateIncarnation_step req t i t' : unique_ids t -> CreateIncarnation req t = Ok (i, t') -> istep t LOther t'.
Proof.
  intros [Hnd _] H. unfold CreateIncarnation, loadReservationForIncarnation, replayIncarnation in H. unfold GetReservationRow in H. im_ok. same_rows.
  match goal with Hf : List.find _ _ = Some _ |- _ => apply find_key in Hf as [Hr Hid] end. apply getIncarnationByReservation_Ok in H2 as ->.
  case_match; [im_ok; constructor|]. im_ok. opt_cases HC row.
  - apply create_incarnation_Ok in HC as (-> & -> & F1 & F2 & F3). unfold createIncarnationAndAdvance in H. im_ok. same_rows.
    match goal with Ha : advanceReservationState _ _ _ = _ |- _ => apply advance_Ok in Ha as ->; [|done..] end.
    unfold validateIncarnationReservation in *. go_ok. go_bool. by eapply step_incarnate.
  - im_ok. match goal with Hg : getIncarnationByReservation _ _ = _ |- _ => apply getIncarnationByReservation_Ok in Hg as -> end. case_match; im_ok. constructor.
Qed.

Lemma loadPreparationIdentities_Ok req t ids t' : loadPreparationIdentities req t = Ok (ids, t') ->
  t' = t /\ (ids.1 ∈ it_reservations t /\ rs_ReservationID ids.1 = pq_ReservationID req) /\ ids.2 ∈ it_incarnations t /\ in_IncarnationID ids.2 = pq_IncarnationID req.
Proof.
  unfold loadPreparationIdentities, GetReservationRow, GetIncarnationRow. intros H. im_ok. same_rows.
  repeat match goal with Hf : List.find _ _ = Some _ |- _ => apply find_key in Hf as [? ?] end. done.
Qed.

Lemma getPreparationByGeneration_Ok req t p t' : getPreparationByGeneration req t = Ok (p, t') -> t' = t.
Proof. unfold getPreparationByGeneration, GetPreparationRowByGeneration. intros H. im_ok. opt_cases HC row; im_ok; done. Qed.

Lemma validateExpectedBindingVersion_Ok a v t u t' : validateExpectedBindingVersion a v t = Ok (u, t') -> t' = t.
Proof. unfold validateExpectedBindingVersion, GetCurrentRow. intros H. im_ok. opt_cases HC row; im_ok; done. Qed.

Lemma PrepareBinding_step req t p t' : unique_ids t -> PrepareBinding req t = Ok (p, t') -> istep t LOther t'.
Proof.
  intros [Hnd _] H. unfold PrepareBinding, prepareBindingTx, replayPreparation in H. im_ok.
  apply loadPreparationIdentities_Ok in H1 as (-> & [Hr Hid] & Hi & Hiid). apply getPreparationByGeneration_Ok in H2 as ->.
  case_match; [im_ok; constructor|]. im_ok. match goal with Hv : validateExpectedBindingVersion _ _ _ = _ |- _ => apply validateExpectedBindingVersion_Ok in Hv as -> end.
  opt_cases HC row.
  - im_ok. apply create_preparation_Ok in HC as (-> & -> & F1 & F2). same_rows.
    match goal with Ha : advanceReservationState _ _ _ = _ |- _ => apply advance_Ok in Ha as ->; [|done..] end.
    unfold validatePreparationFence, preparationIdentityMatches in *. go_ok. go_bool. eapply step_prepare; eauto; repeat split; cbn; congruence.
  - unfold replayPreparationTx, GetPreparationRowByGeneration, replayPreparation in H. im_ok. constructor.
Qed.

Lemma getPreparationTx_Ok id t p t' : getPreparationTx id t = Ok (p, t') -> t' = t /\ p ∈ it_preparations t /\ bp_PreparationID p = id.
Proof. unfold getPreparationTx, GetPreparationRow. intros H. im_ok. same_rows. split; [done|]. by eapply find_key. Qed.

Lemma getCurrentOptional_Ok a t c t' : getCurrentOptional a t = Ok (c, t') ->
  t' = t /\ newest (bindings_of a t) = c /\ (forall c', c = Some c' -> currentFromRow c' = Ok c' /\ cb_AgentID c' = a /\ (0 < cb_BindingVersion c')%Z).
Proof.
  unfold getCurrentOptional, GetCurrentRow. intros H. im_ok. opt_cases HC row; im_ok; same_rows.
  - split_and!; [done..|]. intros c' [= <-]. split_and!; [done|by eapply newest_agent|]. unfold currentFromRow in *. go_ok. by go_bool.
  - by apply sql_one_Err in HC.
Qed.

(** The row that the triggers let follow the current binding. *)
Lemma append_version row t b t' c : AppendBindingRow row t = Ok (b, t') -> newest (bindings_of (cb_AgentID row) t) = c -> (forall c', c = Some c' -> (0 < cb_BindingVersion c')%Z) ->
  cb_BindingVersion row = match c with None => 1%Z | Some c => (cb_BindingVersion c + 1)%Z end.
Proof.
  intros (_ & _ & ->)%append_Ok Hc Hpos. rewrite max_of_newest. fold (bindings_of (cb_AgentID row) t). rewrite Hc.
  destruct c as [c|]; [|done]. specialize (Hpos c eq_refl). lia.
Qed.

Lemma loadFinalizeIdentities_Ok prep t ids t' : loadFinalizeIdentities prep t = Ok (ids, t') ->
  t' = t /\ (ids.1 ∈ it_reservations t /\ rs_ReservationID ids.1 = bp_ReservationID prep) /\ ids.2 ∈ it_incarnations t /\ in_IncarnationID ids.2 = bp_IncarnationID prep.
Proof.
  unfold loadFinalizeIdentities, GetReservationRow, GetIncarnationRow. intros H. im_ok. same_rows.
  repeat match goal with Hf : List.find _ _ = Some _ |- _ => apply find_key in Hf as [? ?] end. done.
Qed.

Lemma finalizePreparedBinding_step prep req t b t' : unique_ids t -> prep ∈ it_preparations t -> bp_State prep = "prepared_non_authorizing" ->
  finalizePreparedBinding prep req t = Ok (b, t') -> istep t (iop_label (IFinalize req)) t'.
Proof.
  intros [Hnd Hndp] Hp Hst H. unfold finalizePreparedBinding, finalizePreparationTx in H. im_ok. apply loadFinalizeIdentities_Ok in H0 as (-> & [Hr Hid] & Hi & Hiid).
  destruct x as [r i]. cbn [fst snd] in *. apply getCurrentOptional_Ok in H2 as (-> & Hcur & Hpos). same_rows.
  pose proof (append_version _ _ _ _ _ H4 Hcur (fun c' E => proj2 (proj2 (Hpos c' E)))) as Hv. apply append_Ok in H4 as (-> & -> & _).
  match goal with Hu : UpdatePreparationState _ _ _ _ _ _ _ = _ |- _ => apply resolve_Ok in Hu as [-> Href]; [|done..] end.
  match goal with Ha : advanceReservationState _ _ _ = _ |- _ => apply advance_Ok in Ha as ->; [|done..] end.
  unfold validateFinalizeFence, finalizeReservationMatches, finalizePreparationMatches, finalizeIncarnationMatches in H1. go_ok. go_bool.
  set (cur := newest (bindings_of (fq_AgentID req) t)) in *.
  assert (Hex : cb_BindingVersion (currentBindingParams req prep r i (nextBindingVersion cur)) = (bp_ExpectedBindingVersion prep + 1)%Z /\ may_open (bindings_of (fq_AgentID req) t)
    (currentBindingParams req prep r i (nextBindingVersion cur))).
  { unfold validateFinalizeCurrent in H3. unfold may_open. fold cur. cbn [cb_BindingVersion cb_IncarnationGeneration currentBindingParams] in *. rewrite Hv.
    destruct (fq_ExpectedBindingVersion req =? 0)%Z eqn:E0; destruct cur as [c|] eqn:Ecur; go_ok; go_bool; split_and!; try done; try lia. }
  destruct Hex as [Hex Hopen].
  cbn [iop_label]. match goal with Hx : bp_ExpectedBindingVersion prep = _ |- _ => rewrite <- Hx end.
  apply (step_finalize t prep r i (currentBindingParams req prep r i (nextBindingVersion cur))); try done; try congruence.
  - by repeat split; cbn; congruence.
  - intros Hne%String.eqb_neq. unfold preparation_refused, receipt_rewritten in Href. rewrite Hne in Href. cbn [andb negb] in Href. rewrite andb_true_r in Href.
    apply orb_false_iff in Href as [[Href _]%orb_false_iff _]. go_bool. cbn. congruence.
Qed.

Lemma FinalizeBinding_step req t b t' : unique_ids t -> FinalizeBinding req t = Ok (b, t') -> istep t (iop_label (IFinalize req)) t'.
Proof.
  intros Hu H. unfold FinalizeBinding, finalizeBindingTx in H. im_ok. apply getPreparationTx_Ok in H1 as (-> & Hp & _). destruct (String.eqb _ "finalized").
  - unfold replayFinalizedBinding, GetCurrentRowVersion in H. im_ok. constructor.
  - im_ok. go_bool. by eapply finalizePreparedBinding_step.
Qed.

Lemma AbortBinding_step req t p t' : unique_ids t -> AbortBinding req t = Ok (p, t') -> istep t LOther t'.
Proof.
  intros [Hnd Hndp] H. unfold AbortBinding in H. im_ok. apply getPreparationTx_Ok in H1 as (-> & Hp & _). destruct (String.eqb _ "aborted"); [im_ok; constructor|]. im_ok. go_bool.
  match goal with Hu : UpdatePreparationState _ _ _ _ _ _ _ = _ |- _ => apply resolve_Ok in Hu as [-> _]; [|done..] end.
  apply getPreparationTx_Ok in H as (-> & _ & _). unfold rejectReservationAfterAbort, GetReservationRow in *. im_ok. same_rows.
  match goal with Hf : List.find _ _ = Some _ |- _ => apply find_key in Hf as [Hr Hid] end. cbn [it_reservations] in Hr.
  destruct (String.eqb_spec (rs_State x) "rejected") as [Hs|Hs].
  - im_ok. rewrite <- (set_state_same x (it_reservations t)) by done. rewrite Hs. eapply step_abort; try done. by rewrite Hs.
  - im_ok. match goal with Ha : advanceReservationState _ _ _ = _ |- _ => apply advance_Ok in Ha as ->; [|done..] end. cbn [it_reservations it_incarnations it_preparations it_bindings].
    eapply step_abort; try done.
    match goal with Hs : str_in _ _ = true |- _ => apply str_in_elem in Hs end. apply str_in_elem. revert H. clear. set_solver.
Qed.

Lemma RevokeBinding_step req t b t' : RevokeBinding req t = Ok (b, t') -> istep t (iop_label (IRevoke req)) t'.
Proof.
  intros H. unfold RevokeBinding in H. im_ok. apply getCurrentOptional_Ok in H1 as (-> & Hcur & Hpos). destruct x1 as [c|]; [|im_ok; done].
  destruct (Hpos c eq_refl) as (Hv & Ha & Hp). case_match; [im_ok; constructor|]. im_ok. same_rows.
  pose proof (append_version _ _ _ _ (Some c) H3 ltac:(cbn; by rewrite Ha) ltac:(intros ? [= <-]; done)) as Hver. apply append_Ok in H3 as (-> & -> & _).
  unfold revokeFenceMatches in *. go_bool. cbn [iop_label].
  repeat match goal with Hx : _ = vq_IncarnationID _ |- _ => rewrite <- Hx | Hx : _ = vq_ExpectedBindingVersion _ |- _ => rewrite <- Hx end. rewrite <- Ha.
  apply step_revoke; [by rewrite Ha| |done|done]. match goal with Ho : _ || _ = true |- _ => apply orb_true_iff in Ho as [?|?] end; go_bool; auto.
Qed.

Lemma iop_step o t : unique_ids t -> istep t (iop_label o) (iop_run o t).
Proof.
  intros Hu. unfold iop_run, committed. destruct o; case_match; try constructor; case_match; subst.
  - by eapply Reserve_step.
  - by eapply CreateIncarnation_step.
  - by eapply PrepareBinding_step.
  - by eapply FinalizeBinding_step.
  - by eapply AbortBinding_step.
  - by eapply RevokeBinding_step.
Qed.
