(* ===== verification/IdentityInvariant.v ===== *)
(** * The invariant of the identity store

    Every row that the operations leave passes its check, the ids are unique, every
    incarnation belongs to a reservation, every preparation to an incarnation, every binding
    to an activated reservation and its incarnation, and the bindings of an agent are a log in
    which one session at a time is opened and closed, each by a younger incarnation.  Rows only
    ever grow ([igrows]): reservations change their state, preparations are resolved once, and
    incarnations and bindings are not touched again. *)

From S2P Require Import Prelude GoStrings WakeupLease EventContract IdentityStore IdentityOps IdentitySteps.

(** ** The log of an agent *)

Inductive binding_log : list CurrentBinding -> Prop :=
| log_nil : binding_log []
| log_open l b : binding_log l -> may_open l b -> cb_State b = "active" -> binding_log (l ++ [b])
| log_close l c : binding_log l -> newest l = Some c -> cb_State c = "active" -> cb_BindingVersion (revokedBindingParams c) = (cb_BindingVersion c + 1)%Z ->
    binding_log (l ++ [revokedBindingParams c]).

Lemma newest_snoc l b : (forall c, c ∈ l -> (cb_BindingVersion c < cb_BindingVersion b)%Z) -> newest (l ++ [b]) = Some b.
Proof.
  induction l as [|c l IH]; intros H; [done|]. simpl. rewrite IH by (intros d Hd; apply H; by right).
  specialize (H c ltac:(left)). destruct (Z.ltb_spec (cb_BindingVersion c) (cb_BindingVersion b)); [done|lia].
Qed.

Lemma newest_None l : newest l = None -> l = [].
Proof. destruct l as [|b l]; [done|]. simpl. by destruct (newest l); [destruct (_ <? _)%Z|]. Qed.

(** The versions count the rows, and the newest row is the last. *)
Record log_facts (l : list CurrentBinding) : Prop := {
  lf_version k b : l !! k = Some b -> cb_BindingVersion b = (Z.of_nat k + 1)%Z;
  lf_newest : newest l = last l;
  lf_state b : b ∈ l -> cb_State b = "active" \/ cb_State b = "revoked";
  lf_generation j k b c : (j < k)%nat -> l !! j = Some b -> l !! k = Some c -> (cb_IncarnationGeneration b <= cb_IncarnationGeneration c)%Z
    /\ (cb_State c = "active" -> (cb_IncarnationGeneration b < cb_IncarnationGeneration c)%Z);
}.

Lemma lookup_snoc_cases {A} (l : list A) b k c : (l ++ [b]) !! k = Some c -> l !! k = Some c \/ (k = length l /\ c = b).
Proof. intros [H|[Hk H]]%lookup_app_Some; [by left|]. right. apply list_lookup_singleton_Some in H as [? ->]. split; [lia|done]. Qed.

Lemma last_is_newest l c : log_facts l -> newest l = Some c -> l !! (length l - 1) = Some c /\ cb_BindingVersion c = Z.of_nat (length l).
Proof.
  intros L H. rewrite lf_newest, last_lookup in H by done. replace (length l - 1) with (pred (length l)) by lia. split; [done|].
  rewrite (lf_version l L _ _ H). apply lookup_lt_Some in H. lia.
Qed.

Lemma newest_oldest l c d : log_facts l -> newest l = Some c -> d ∈ l -> (cb_IncarnationGeneration d <= cb_IncarnationGeneration c)%Z.
Proof.
  intros L Hc (k & Hk)%list_elem_of_lookup. destruct (last_is_newest l c L Hc) as [Hl _]. pose proof (lookup_lt_Some _ _ _ Hk).
  destruct (decide (k = length l - 1)) as [->|]; [simplify_eq; lia|]. eapply (lf_generation l L k (length l - 1)); [lia|done..].
Qed.

Lemma log_facts_snoc l b : log_facts l -> cb_BindingVersion b = (Z.of_nat (length l) + 1)%Z -> cb_State b = "active" \/ cb_State b = "revoked" ->
  (forall d, d ∈ l -> (cb_IncarnationGeneration d <= cb_IncarnationGeneration b)%Z /\ (cb_State b = "active" -> (cb_IncarnationGeneration d < cb_IncarnationGeneration b)%Z)) ->
  log_facts (l ++ [b]).
Proof.
  intros L Hv Hs Hg. split.
  - intros k c [H|[-> ->]]%lookup_snoc_cases; [by eapply lf_version|done].
  - rewrite last_snoc. apply newest_snoc. intros c (k & Hk)%list_elem_of_lookup. rewrite (lf_version l L _ _ Hk), Hv. apply lookup_lt_Some in Hk. lia.
  - intros c [H|H%list_elem_of_singleton]%elem_of_app; [by eapply lf_state|by subst].
  - intros j k c d Hjk Hj Hk. apply lookup_snoc_cases in Hj as [Hj|[-> ->]], Hk as [Hk|[-> ->]].
    + by eapply lf_generation.
    + apply Hg. by eapply list_elem_of_lookup_2.
    + apply lookup_lt_Some in Hk. lia.
    + lia.
Qed.

Lemma binding_log_facts l : binding_log l -> log_facts l.
Proof.
  induction 1 as [|l b H L Ho Hs|l c H L Hn Hs Hv].
  - split; [done..| |done]. intros b H. inversion H.
  - unfold may_open in Ho. destruct (newest l) as [c|] eqn:En.
    + destruct Ho as (Hc & Hv & Hg). destruct (last_is_newest l c L En) as [_ Hl]. apply log_facts_snoc; [done|lia|auto|].
      intros d Hd. pose proof (newest_oldest l c d L En Hd). lia.
    + apply newest_None in En as ->. apply log_facts_snoc; [done|done|auto|]. intros d Hd. inversion Hd.
  - destruct (last_is_newest l c L Hn) as [_ Hl]. apply log_facts_snoc; [done|lia|by right|]. intros d Hd. split; [|done]. by apply (newest_oldest l c d).
Qed.

(** A revoked row repeats the active row before it. *)
Lemma log_revoked l b : binding_log l -> b ∈ l -> cb_State b = "revoked" ->
  exists k a, l !! k = Some a /\ cb_State a = "active" /\ b = revokedBindingParams a /\ l !! S k = Some b.
Proof.
  induction 1 as [|l c H IH Ho Hs|l c H IH Hn Hs Hv]; intros Hb Hst; [inversion Hb|..].
  - apply elem_of_app in Hb as [Hb|Hb%list_elem_of_singleton]; [|congruence]. destruct (IH Hb Hst) as (k & a & Hk & Ha & -> & Hk1).
    exists k, a. split_and!; try done; by apply lookup_app_l_Some.
  - apply elem_of_app in Hb as [Hb|Hb%list_elem_of_singleton].
    + destruct (IH Hb Hst) as (k & a & Hk & Ha & -> & Hk1). exists k, a. split_and!; try done; by apply lookup_app_l_Some.
    + subst b. destruct (last_is_newest l c (binding_log_facts l H) Hn) as [Hl _]. pose proof (lookup_lt_Some _ _ _ Hl). exists (length l - 1), c. split_and!; try done; [by apply lookup_app_l_Some|].
      rewrite lookup_app_r by lia. by replace (S (length l - 1) - length l) with 0 by lia.
Qed.

(** ** The invariant *)

Record iok (t : itables) : Prop := {
  ik_res_ids : NoDup (rs_ReservationID <$> it_reservations t);
  ik_res_keys : NoDup (key_of <$> it_reservations t);
  ik_inc_ids : NoDup (in_IncarnationID <$> it_incarnations t);
  ik_inc_res : NoDup (in_ReservationID <$> it_incarnations t);
  ik_prep_ids : NoDup (bp_PreparationID <$> it_preparations t);
  ik_prep_gens : NoDup (generation_of <$> it_preparations t);
  ik_res_valid r : r ∈ it_reservations t -> reservationFromRow r = Ok r;
  ik_inc_valid i : i ∈ it_incarnations t -> incarnationFromRow i = Ok i;
  ik_prep_valid p : p ∈ it_preparations t -> preparationFromRow p = Ok p;
  ik_bind_valid b : b ∈ it_bindings t -> currentFromRow b = Ok b;
  ik_inc i : i ∈ it_incarnations t -> exists r, r ∈ it_reservations t /\ incarnation_of i r;
  ik_prep p : p ∈ it_preparations t -> exists i, i ∈ it_incarnations t /\ preparation_of p i;
  ik_bind b : b ∈ it_bindings t -> exists r i, r ∈ it_reservations t /\ i ∈ it_incarnations t /\ incarnation_of i r /\ binding_of b r i /\ rs_State r = "activated";
  ik_final p : p ∈ it_preparations t -> bp_State p = "finalized" -> exists b, b ∈ it_bindings t /\ finalized_as p b;
  ik_logs a : binding_log (bindings_of a t);
}.

(** ** Rows that change *)

Lemma set_state_ids id s l : (rs_ReservationID <$> set_state id s l) = (rs_ReservationID <$> l).
Proof. unfold set_state. rewrite <- list_fmap_compose. apply list_fmap_ext. intros i r _. cbn. by destruct (String.eqb _ id). Qed.

Lemma set_state_keys id s l : (key_of <$> set_state id s l) = (key_of <$> l).
Proof. unfold set_state. rewrite <- list_fmap_compose. apply list_fmap_ext. intros i r _. cbn. by destruct (String.eqb _ id). Qed.

Lemma set_preparation_ids id s rc l : (bp_PreparationID <$> set_preparation id s rc l) = (bp_PreparationID <$> l).
Proof. unfold set_preparation. rewrite <- list_fmap_compose. apply list_fmap_ext. intros i p _. cbn. by destruct (String.eqb _ id). Qed.

Lemma set_preparation_gens id s rc l : (generation_of <$> set_preparation id s rc l) = (generation_of <$> l).
Proof. unfold set_preparation. rewrite <- list_fmap_compose. apply list_fmap_ext. intros i p _. cbn. by destruct (String.eqb _ id). Qed.

Lemma in_set_state id s l r : r ∈ l -> with_reservation_state r (if String.eqb (rs_ReservationID r) id then s else rs_State r) ∈ set_state id s l.
Proof. intros Hr. unfold set_state. apply list_elem_of_fmap. exists r. split; [|done]. destruct (String.eqb _ id); [done|apply with_same_state]. Qed.

Lemma of_set_state id s l r' : r' ∈ set_state id s l -> exists r, r ∈ l /\ (r' = r \/ r' = with_reservation_state r s).
Proof. intros (r & -> & Hr)%list_elem_of_fmap. exists r. split; [done|]. destruct (String.eqb _ id); auto. Qed.

Lemma resolve_same p : resolve_preparation p (bp_State p) (bp_ActiveProcessReceiptRef p) = p.
Proof. by destruct p. Qed.

Lemma of_set_preparation p s rc l p' : NoDup (bp_PreparationID <$> l) -> p ∈ l -> p' ∈ set_preparation (bp_PreparationID p) s rc l ->
  p' = resolve_preparation p s rc \/ p' ∈ l.
Proof.
  intros Hnd Hp (q & -> & Hq)%list_elem_of_fmap. destruct (String.eqb_spec (bp_PreparationID q) (bp_PreparationID p)) as [E|]; [left|by right].
  by rewrite (same_key bp_PreparationID l q p).
Qed.

Lemma with_state_valid r s : reservationFromRow r = Ok r -> validReservationState s = true -> reservationFromRow (with_reservation_state r s) = Ok (with_reservation_state r s).
Proof.
  unfold reservationFromRow. intros H Hs. apply bind_Ok in H as (u & H & _). unfold mbind, result_bind.
  change (validateReservationIdentity _) with (validateReservationIdentity (mkReservationRequest (rs_ReservationID r) (stringValue (rs_CommandID r)) (rs_AgentID r) (rs_IdentityKind r)
        (rs_SourceKind r) (rs_CallerPrincipalRef r) (rs_ScopeRef r) (rs_ParentAgentID r) (rs_IdempotencyNamespace r) (rs_IdempotencyKeyDigest r)
        (rs_RequestDigest r) (rs_SourceFenceRef r) (rs_TargetFenceRef r) (rs_ExpectedBindingVersion r) (rs_ReservationGeneration r))).
  rewrite H. cbn [rs_State with_reservation_state]. by rewrite Hs.
Qed.

Lemma canonical_optional v n : canonical_text v n false = true -> canonical_text v n true = true.
Proof. unfold canonical_text. cbn [negb andb]. by destruct (String.eqb v EmptyString). Qed.

Lemma resolve_valid p s rc : preparationFromRow p = Ok p -> validPreparationState s = true -> canonical_text rc 512 true = true ->
  preparationFromRow (resolve_preparation p s rc) = Ok (resolve_preparation p s rc).
Proof.
  unfold preparationFromRow, validatePreparationIdentity, validateIdentityTexts, id_validateText. intros H Hs Hrc.
  cbn [map all_ok fst snd pq_PreparationID pq_ReservationID pq_IncarnationID pq_AgentID pq_SourceFenceRef pq_ActiveProcessReceiptRef pq_IdentityKind pq_BindingDigest
    pq_PreparationGeneration pq_ExpectedBindingVersion pq_ExpectedIncarnationGeneration resolve_preparation bp_PreparationID bp_ReservationID bp_IncarnationID bp_AgentID
    bp_IdentityKind bp_PreparationGeneration bp_ExpectedBindingVersion bp_ExpectedIncarnationGeneration bp_BindingDigest bp_SourceFenceRef bp_ActiveProcessReceiptRef bp_State] in *.
  rewrite Hrc, Hs. repeat match goal with H : _ ≫= _ = Ok _ |- _ => apply bind_Ok in H as (? & ? & ?) end.
  repeat match goal with H : ?m = Ok _ |- context [?m] => rewrite H; unfold mbind, result_bind at 1 end. done.
Qed.

(** ** Each change of the tables keeps the invariant *)

Lemma incarnation_of_with i r s : incarnation_of i (with_reservation_state r s) <-> incarnation_of i r.
Proof. done. Qed.

Lemma NoDup_snoc {A B} (f : A -> B) l x : NoDup (f <$> l) -> (f x ∉ (f <$> l)) -> NoDup (f <$> l ++ [x]).
Proof. intros H Hx. rewrite fmap_app. apply NoDup_app. split_and!; [done| |apply NoDup_singleton]. intros y Hy Hy'. apply list_elem_of_singleton in Hy' as ->. done. Qed.

Ltac snoc_cases H := apply elem_of_app in H as [H|H]; [|apply list_elem_of_singleton in H; subst].

Lemma iok_set_state t r s : iok t -> r ∈ it_reservations t -> validReservationState s = true -> (rs_State r = "activated" -> s = "activated") ->
  iok (mkITables (set_state (rs_ReservationID r) s (it_reservations t)) (it_incarnations t) (it_preparations t) (it_bindings t)).
Proof.
  intros [] Hr Hv Ha. split; cbn [it_reservations it_incarnations it_preparations it_bindings]; rewrite ?set_state_ids, ?set_state_keys; try done.
  - intros r' (q & Hq & [->| ->])%of_set_state; [auto|apply with_state_valid; auto].
  - intros i Hi. destruct (ik_inc0 i Hi) as (q & Hq & Hof). eexists. split; [by apply in_set_state|done].
  - intros b Hb. destruct (ik_bind0 b Hb) as (q & i & Hq & Hi & Hof & Hbo & Hst). eexists _, i. split; [by apply in_set_state|]. split_and!; [done..|].
    cbn. destruct (String.eqb_spec (rs_ReservationID q) (rs_ReservationID r)) as [E|]; [|done]. apply Ha. by rewrite <- (same_key rs_ReservationID (it_reservations t) q r).
Qed.

Lemma iok_reserve t row : iok t -> reservationFromRow row = Ok row -> (rs_ReservationID row ∉ (rs_ReservationID <$> it_reservations t)) -> (key_of row ∉ (key_of <$> it_reservations t)) ->
  iok (mkITables (it_reservations t ++ [row]) (it_incarnations t) (it_preparations t) (it_bindings t)).
Proof.
  intros [] Hv Hid Hkey. split; cbn [it_reservations it_incarnations it_preparations it_bindings]; try done; try by apply NoDup_snoc.
  - intros r H. snoc_cases H; auto.
  - intros i Hi. destruct (ik_inc0 i Hi) as (q & Hq & Hof). exists q. split; [apply elem_of_app; by left|done].
  - intros b Hb. destruct (ik_bind0 b Hb) as (q & i & Hq & ?). exists q, i. split; [apply elem_of_app; by left|done].
Qed.

Lemma iok_incarnate t row r : iok t -> incarnationFromRow row = Ok row -> r ∈ it_reservations t -> incarnation_of row r ->
  (in_IncarnationID row ∉ (in_IncarnationID <$> it_incarnations t)) -> (in_ReservationID row ∉ (in_ReservationID <$> it_incarnations t)) ->
  iok (mkITables (it_reservations t) (it_incarnations t ++ [row]) (it_preparations t) (it_bindings t)).
Proof.
  intros [] Hv Hr Hof Hid Hres. split; cbn [it_reservations it_incarnations it_preparations it_bindings]; try done; try by apply NoDup_snoc.
  - intros i H. snoc_cases H; auto.
  - intros i H. snoc_cases H; eauto.
  - intros p Hp. destruct (ik_prep0 p Hp) as (q & Hq & Hpo). exists q. split; [apply elem_of_app; by left|done].
  - intros b Hb. destruct (ik_bind0 b Hb) as (q & i & Hq & Hi & ?). exists q, i. split; [done|]. split; [apply elem_of_app; by left|done].
Qed.

Lemma iok_prepare t row i : iok t -> preparationFromRow row = Ok row -> i ∈ it_incarnations t -> preparation_of row i -> bp_State row = "prepared_non_authorizing" ->
  (bp_PreparationID row ∉ (bp_PreparationID <$> it_preparations t)) -> (generation_of row ∉ (generation_of <$> it_preparations t)) ->
  iok (mkITables (it_reservations t) (it_incarnations t) (it_preparations t ++ [row]) (it_bindings t)).
Proof.
  intros [] Hv Hi Hof Hst Hid Hgen. split; cbn [it_reservations it_incarnations it_preparations it_bindings]; try done; try by apply NoDup_snoc.
  - intros p H. snoc_cases H; auto.
  - intros p H. snoc_cases H; eauto.
  - intros p H Hf. snoc_cases H; [eauto|congruence].
Qed.

Lemma iok_resolve t p s rc : iok t -> p ∈ it_preparations t -> validPreparationState s = true -> canonical_text rc 512 true = true ->
  (s = "finalized" -> exists b, b ∈ it_bindings t /\ finalized_as (resolve_preparation p s rc) b) ->
  iok (mkITables (it_reservations t) (it_incarnations t) (set_preparation (bp_PreparationID p) s rc (it_preparations t)) (it_bindings t)).
Proof.
  intros [] Hp Hv Hrc Hf. split; cbn [it_reservations it_incarnations it_preparations it_bindings]; rewrite ?set_preparation_ids, ?set_preparation_gens; try done.
  - intros p' [->|?]%of_set_preparation; [apply resolve_valid; auto|auto..].
  - intros p' [->|?]%of_set_preparation; [|auto..]. apply (ik_prep0 p Hp).
  - intros p' [->|?]%of_set_preparation; [|eauto..]. exact Hf.
Qed.

Lemma bindings_snoc a t b rs inc ps : bindings_of a (mkITables rs inc ps (it_bindings t ++ [b])) = bindings_of a t ++ (if String.eqb (cb_AgentID b) a then [b] else []).
Proof. unfold bindings_of. cbn [it_bindings]. rewrite List.filter_app. cbn. done. Qed.

Lemma iok_append t b r i : iok t -> currentFromRow b = Ok b -> r ∈ it_reservations t -> i ∈ it_incarnations t -> incarnation_of i r -> binding_of b r i -> rs_State r = "activated" ->
  binding_log (bindings_of (cb_AgentID b) t ++ [b]) ->
  iok (mkITables (it_reservations t) (it_incarnations t) (it_preparations t) (it_bindings t ++ [b])).
Proof.
  intros [] Hv Hr Hi Hof Hbo Hst Hlog. split; cbn [it_reservations it_incarnations it_preparations it_bindings]; try done.
  - intros c H. snoc_cases H; auto.
  - intros c H. snoc_cases H; [auto|]. eauto 10.
  - intros p Hp Hf. destruct (ik_final0 p Hp Hf) as (c & Hc & ?). exists c. split; [apply elem_of_app; by left|done].
  - intros a. rewrite bindings_snoc. destruct (String.eqb_spec (cb_AgentID b) a) as [<-|]; [done|]. rewrite app_nil_r. apply ik_logs0.
Qed.

(** The incarnation of a preparation belongs to its reservation. *)
Lemma preparation_chain t p r i : iok t -> p ∈ it_preparations t -> r ∈ it_reservations t -> i ∈ it_incarnations t ->
  rs_ReservationID r = bp_ReservationID p -> in_IncarnationID i = bp_IncarnationID p -> incarnation_of i r /\ preparation_of p i.
Proof.
  intros Hok Hp Hr Hi Hrid Hiid. destruct (ik_prep t Hok p Hp) as (i' & Hi' & Hpo).
  assert (i' = i) as -> by (apply (same_key in_IncarnationID (it_incarnations t)); [apply Hok|done..|destruct Hpo; congruence]).
  destruct (ik_inc t Hok i Hi) as (r' & Hr' & Hof).
  assert (r' = r) as -> by (apply (same_key rs_ReservationID (it_reservations t)); [apply Hok|done..|destruct Hpo as (_ & ? & _), Hof; congruence]). done.
Qed.

Lemma receipt_canonical b : currentFromRow b = Ok b -> canonical_text (cb_ActiveProcessReceiptRef b) 512 true = true.
Proof.
  unfold currentFromRow, validateIdentityTexts, id_validateText. cbn [map all_ok fst snd]. intros H. apply canonical_optional.
  repeat match goal with H : _ ≫= _ = Ok _ |- _ => apply bind_Ok in H as (? & ? & ?) end.
  repeat match goal with H : guard_err _ _ = Ok _ |- _ => apply guard_err_Ok in H end. done.
Qed.

Lemma prep_receipt_canonical p : preparationFromRow p = Ok p -> canonical_text (bp_ActiveProcessReceiptRef p) 512 true = true.
Proof.
  unfold preparationFromRow, validatePreparationIdentity, validateIdentityTexts, id_validateText. cbn [map all_ok fst snd]. intros H.
  repeat match goal with H : _ ≫= _ = Ok _ |- _ => apply bind_Ok in H as (? & ? & ?) end.
  repeat match goal with H : guard_err _ _ = Ok _ |- _ => apply guard_err_Ok in H end. done.
Qed.

Lemma iok_finalize t p r i b : iok t -> p ∈ it_preparations t -> r ∈ it_reservations t -> i ∈ it_incarnations t -> rs_ReservationID r = bp_ReservationID p ->
  binding_of b r i -> currentFromRow b = Ok b -> finalized_as (resolve_preparation p "finalized" (cb_ActiveProcessReceiptRef b)) b -> may_open (bindings_of (cb_AgentID b) t) b ->
  iok (mkITables (set_state (rs_ReservationID r) "activated" (it_reservations t)) (it_incarnations t)
         (set_preparation (bp_PreparationID p) "finalized" (cb_ActiveProcessReceiptRef b) (it_preparations t)) (it_bindings t ++ [b])).
Proof.
  intros Hok Hp Hr Hi Hrid Hbo Hv Hfa Hopen.
  destruct (preparation_chain t p r i Hok Hp Hr Hi Hrid) as [Hof _]; [destruct Hbo as (_ & _ & _ & E & _), Hfa as (_ & _ & _ & E' & _); cbn in E'; congruence|].
  pose proof (in_set_state (rs_ReservationID r) "activated" _ _ Hr) as Hin. rewrite String.eqb_refl in Hin.
  pose proof (iok_set_state t r "activated" Hok Hr eq_refl ltac:(done)) as H1.
  assert (Hlog : binding_log (bindings_of (cb_AgentID b) t ++ [b])) by (apply log_open; [apply (ik_logs _ Hok)|done|apply Hfa]).
  pose proof (iok_append _ b (with_reservation_state r "activated") i H1 Hv Hin Hi Hof Hbo eq_refl Hlog) as H2. cbn [it_reservations it_incarnations it_preparations it_bindings] in H2.
  apply (iok_resolve _ p "finalized" (cb_ActiveProcessReceiptRef b) H2 Hp eq_refl (receipt_canonical _ Hv)).
  intros _. exists b. split; [apply elem_of_app; right; by apply list_elem_of_singleton|done].
Qed.

Lemma istep_iok t lb t' : istep t lb t' -> iok t -> iok t'.
Proof.
  destruct 1 as [lb|row Hv Hs F1 F2 F3|row r Hv Hr Hof Hst F1 F2 F3|row r i Hv Hr Hi Hrid Hpo Hst Hps F1 F2|p r i b Hp Hps Hr Hi Hrid Hst Hbo Hv Hfa Hrc Hopen|p r Hp Hps Hr Hrid Hst|c Hn Hs Hv Hver]; intros Hok.
  - done.
  - by apply iok_reserve.
  - pose proof (iok_incarnate t row r Hok Hv Hr Hof F1 F2) as H1. eapply (iok_set_state _ r "identity_pending") in H1; [exact H1|done|done|].
    intros E. rewrite E in Hst. done.
  - pose proof (iok_prepare t row i Hok Hv Hi Hpo Hps F1 F2) as H1. eapply (iok_set_state _ r "activation_pending") in H1; [exact H1|done|done|].
    intros E. rewrite E in Hst. done.
  - by eapply iok_finalize.
  - assert (H1 := iok_resolve t p "aborted" (bp_ActiveProcessReceiptRef p) Hok Hp eq_refl (prep_receipt_canonical _ (ik_prep_valid _ Hok _ Hp)) ltac:(done)).
    eapply (iok_set_state _ r "rejected") in H1; [exact H1|done|done|]. intros E. rewrite E in Hst. done.
  - destruct (newest_agent _ _ _ Hn) as [Hc _]. destruct (ik_bind t Hok c Hc) as (r & i & Hr & Hi & Hof & Hbo & Hst).
    apply (iok_append t _ r i); [done..|]. apply log_close; [apply (ik_logs _ Hok)|done| |done].
    destruct Hs as [|Hs]; [done|]. pose proof (lf_state _ (binding_log_facts _ (ik_logs _ Hok (cb_AgentID c))) c (newest_in _ _ Hn)) as [|]; congruence.
Qed.

Lemma iok_empty : iok no_tables.
Proof. split; cbn; try (apply NoDup_nil; done); try (intros ? H; inversion H). intros a. constructor. Qed.

Lemma iok_unique t : iok t -> unique_ids t.
Proof. intros []. done. Qed.

Lemma iop_iok o t : iok t -> iok (iop_run o t).
Proof. intros H. eapply istep_iok; [|exact H]. by apply iop_step, iok_unique. Qed.

Lemma history_iok ops t : iok t -> iok (identity_history ops t).
Proof. revert t. induction ops as [|o ops IH]; intros t H; [done|]. apply IH, iop_iok, H. Qed.

(** ** Rows are kept *)

Record igrows (t t' : itables) : Prop := {
  ig_res r : r ∈ it_reservations t -> exists s, with_reservation_state r s ∈ it_reservations t';
  ig_inc : it_incarnations t `prefix_of` it_incarnations t';
  ig_prep p : p ∈ it_preparations t -> exists s rc, resolve_preparation p s rc ∈ it_preparations t'
    /\ (bp_State p <> "prepared_non_authorizing" -> s = bp_State p /\ rc = bp_ActiveProcessReceiptRef p)
    /\ (bp_ActiveProcessReceiptRef p <> EmptyString -> rc = bp_ActiveProcessReceiptRef p);
  ig_bind : it_bindings t `prefix_of` it_bindings t';
}.

Lemma keep_reservation r (l : list Reservation) : r ∈ l -> exists s, with_reservation_state r s ∈ l.
Proof. exists (rs_State r). by rewrite with_same_state. Qed.

Lemma keep_preparation p (l : list BindingPreparation) : p ∈ l -> exists s rc, resolve_preparation p s rc ∈ l
  /\ (bp_State p <> "prepared_non_authorizing" -> s = bp_State p /\ rc = bp_ActiveProcessReceiptRef p) /\ (bp_ActiveProcessReceiptRef p <> EmptyString -> rc = bp_ActiveProcessReceiptRef p).
Proof. exists (bp_State p), (bp_ActiveProcessReceiptRef p). by rewrite resolve_same. Qed.

Lemma keep_resolved p s rc (l : list BindingPreparation) q : NoDup (bp_PreparationID <$> l) -> p ∈ l -> bp_State p = "prepared_non_authorizing" ->
  (bp_ActiveProcessReceiptRef p <> EmptyString -> bp_ActiveProcessReceiptRef p = rc) -> q ∈ l ->
  exists s' rc', resolve_preparation q s' rc' ∈ set_preparation (bp_PreparationID p) s rc l
  /\ (bp_State q <> "prepared_non_authorizing" -> s' = bp_State q /\ rc' = bp_ActiveProcessReceiptRef q) /\ (bp_ActiveProcessReceiptRef q <> EmptyString -> rc' = bp_ActiveProcessReceiptRef q).
Proof.
  intros Hnd Hp Hst Hrc Hq. destruct (String.eqb_spec (bp_PreparationID q) (bp_PreparationID p)) as [E|E].
  - assert (q = p) as -> by (eapply same_key; eauto). exists s, rc. split_and!; [|done|]. 2: { intros H. by rewrite Hrc. }
    apply list_elem_of_fmap. exists p. by rewrite String.eqb_refl.
  - exists (bp_State q), (bp_ActiveProcessReceiptRef q). split_and!; [|done..]. rewrite resolve_same. apply list_elem_of_fmap. exists q. by rewrite (proj2 (String.eqb_neq _ _) E).
Qed.

#[export] Instance igrows_preorder : PreOrder igrows.
Proof.
  split.
  - intros t. split; [intros r; apply keep_reservation|done|intros p; apply keep_preparation|done].
  - intros t1 t2 t3 [R1 I1 P1 B1] [R2 I2 P2 B2]. split; [|by etrans| |by etrans].
    + intros r (s & Hs)%R1. apply R2 in Hs as (s' & Hs). by exists s'.
    + intros p (s & rc & Hp & Ha & Hb)%P1. apply P2 in Hp as (s' & rc' & Hp & Hc & Hd). exists s', rc'. split; [done|]. cbn in Hc, Hd. split.
      * intros Hst. destruct (Ha Hst) as [-> ->]. auto.
      * intros Hne. specialize (Hb Hne) as ->. auto.
Qed.

Lemma set_state_grows id s (l : list Reservation) r : r ∈ l -> exists s', with_reservation_state r s' ∈ set_state id s l.
Proof. intros H. eexists. by apply in_set_state. Qed.

Lemma istep_grows t lb t' : unique_ids t -> istep t lb t' -> igrows t t'.
Proof.
  intros [_ Hnd]. destruct 1; [reflexivity|..]; split; cbn [it_reservations it_incarnations it_preparations it_bindings];
    try done; try (by apply prefix_app_r); try (intros ? ?; by apply keep_reservation); try (intros ? ?; by apply keep_preparation); try (intros ? ?; by apply set_state_grows).
  - intros r Hr. apply keep_reservation, elem_of_app. by left.
  - intros p Hp. apply keep_preparation, elem_of_app. by left.
  - intros q Hq. by apply keep_resolved.
  - intros q Hq. by apply keep_resolved.
Qed.

Lemma history_grows ops t : iok t -> igrows t (identity_history ops t).
Proof.
  revert t. induction ops as [|o ops IH]; intros t H; [reflexivity|]. etrans; [|apply IH, iop_iok, H]. eapply istep_grows; [by apply iok_unique|]. by apply iop_step, iok_unique.
Qed.
