(* ===== verification/IdentityHistory.v ===== *)
(** * Histories of the identity store

    After any sequence of operations on an empty store: an agent goes through a small machine
    of its own, snapshots of the active identity are read exactly where it is bound, and an
    operation that once succeeded succeeds again, without an effect. *)

From S2P Require Import Prelude GoStrings WakeupLease EventContract IdentityStore IdentityOps IdentitySteps IdentityInvariant.

(** The tables that the operations can reach. *)
Definition reachable (t : itables) : Prop := exists ops, t = identity_history ops no_tables.

Lemma reachable_iok t : reachable t -> iok t.
Proof. intros [ops ->]. apply history_iok, iok_empty. Qed.

Lemma reachable_history ops t : reachable t -> reachable (identity_history ops t).
Proof. intros [ops0 ->]. exists (ops0 ++ ops). unfold identity_history. by rewrite foldl_app. Qed.

(** ** The machine of an agent *)

Inductive agent_state := Unbound | Bound (version generation : Z) (incarnation : string) | Released (version generation : Z) (incarnation : string).

(** An agent is bound and released in turn, each time at the version that the request
    expects, and bound again only by another and younger incarnation. *)
Inductive agent_next (a : string) : ilabel -> agent_state -> agent_state -> Prop :=
| an_stay lb s : agent_next a lb s s
| an_bind g i : agent_next a (LBind a 0 i) Unbound (Bound 1 g i)
| an_release v g i : agent_next a (LRelease a v i) (Bound v g i) (Released (v + 1) g i)
| an_rebind v g i g' i' : (g < g')%Z -> i <> i' -> agent_next a (LBind a v i') (Released v g i) (Bound (v + 1) g' i').

Definition state_of_row (b : CurrentBinding) : agent_state :=
  if String.eqb (cb_State b) "active" then Bound (cb_BindingVersion b) (cb_IncarnationGeneration b) (cb_IncarnationID b)
  else Released (cb_BindingVersion b) (cb_IncarnationGeneration b) (cb_IncarnationID b).

(** What [GetCurrent] says of an agent. *)
Definition agent_view (a : string) (t : itables) : agent_state :=
  match Store_GetCurrent a t with Ok (b, _) => state_of_row b | Err _ => Unbound end.

Definition valid_agent (a : string) : Prop := id_validateText "agent_id" a 128 false = Ok tt.

Lemma run_read {A B} op (row : itables -> option A) (f : A -> IM B) t :
  (query op (sql_one row) ≫= f) t = match row t with Some r => f r t | None => Err (classifyIdentityDBError op SqlNoRows) end.
Proof. unfold mbind, IM_bind, query, sql_one. by destruct (row t). Qed.

Lemma run_lift {A B} (r : result error A) (f : A -> IM B) t : (ilift r ≫= f) t = match r with Ok a => f a t | Err e => Err e end.
Proof. unfold mbind, IM_bind, ilift. by destruct r. Qed.

Lemma run_guard {B} b e (f : unit -> IM B) t : (iguard b e ≫= f) t = if b then f tt t else Err e.
Proof. unfold mbind, IM_bind, iguard. by destruct b. Qed.

Lemma agent_view_newest a t : iok t -> valid_agent a -> agent_view a t = match newest (bindings_of a t) with None => Unbound | Some b => state_of_row b end.
Proof.
  intros Hok Ha. unfold agent_view, Store_GetCurrent, GetCurrentRow. rewrite run_lift, Ha, run_read. destruct (newest _) as [b|] eqn:E; [|done].
  unfold ilift, currentBindingFromRow. rewrite (ik_bind_valid _ Hok b); [done|]. by apply (newest_agent a t).
Qed.

(** An incarnation has one generation. *)
Lemma incarnation_generation t b c : iok t -> b ∈ it_bindings t -> c ∈ it_bindings t -> cb_IncarnationID b = cb_IncarnationID c -> cb_IncarnationGeneration b = cb_IncarnationGeneration c.
Proof.
  intros Hok Hb Hc E. destruct (ik_bind _ Hok _ Hb) as (r & i & _ & Hi & _ & (_ & _ & _ & I1 & _ & G1 & _) & _), (ik_bind _ Hok _ Hc) as (r' & i' & _ & Hi' & _ & (_ & _ & _ & I2 & _ & G2 & _) & _).
  assert (i = i') as -> by (apply (same_key in_IncarnationID (it_incarnations t)); [apply Hok|done..|congruence]). congruence.
Qed.

Lemma step_agent t lb t' a : iok t -> iok t' -> istep t lb t' -> valid_agent a -> agent_next a lb (agent_view a t) (agent_view a t').
Proof.
  intros Hok Hok' Hs Ha. rewrite !agent_view_newest by done.
  destruct Hs as [lb|row Hv Hs F1 F2 F3|row r Hv Hr Hof Hst F1 F2 F3|row r i Hv Hr Hi Hrid Hpo Hst Hps F1 F2|p r i b Hp Hps Hr Hi Hrid Hst Hbo Hv Hfa Hrc Hopen|p r Hp Hps Hr Hrid Hst|c Hn Hs Hv Hver]; try constructor.
  - rewrite bindings_snoc. destruct (String.eqb_spec (cb_AgentID b) a) as [<-|]; [|rewrite app_nil_r; constructor].
    pose proof (binding_log_facts _ (ik_logs _ Hok (cb_AgentID b))) as L. pose proof (binding_log_facts _ (ik_logs _ Hok' (cb_AgentID b))) as L'.
    rewrite bindings_snoc, String.eqb_refl in L'. rewrite (lf_newest _ L'), last_snoc. destruct Hfa as (_ & Ev & _ & _ & _ & _ & _ & _ & Hact). cbn [resolve_preparation bp_ExpectedBindingVersion] in Ev.
    unfold may_open in Hopen. unfold state_of_row at 2. rewrite Hact, String.eqb_refl. destruct (newest _) as [c|] eqn:En.
    + destruct Hopen as (Hc & E & Hg). unfold state_of_row. rewrite Hc. cbn [String.eqb Ascii.eqb Bool.eqb]. rewrite E.
      replace (bp_ExpectedBindingVersion p) with (cb_BindingVersion c) by lia. apply an_rebind; [done|]. intros Ei.
      destruct (newest_agent _ _ _ En) as [Hin _]. pose proof (incarnation_generation _ c b Hok') as Hgen. cbn [it_bindings] in Hgen.
      rewrite Hgen in Hg; [lia|apply elem_of_app; by left|apply elem_of_app; right; by apply list_elem_of_singleton|done].
    + rewrite Hopen. replace (bp_ExpectedBindingVersion p) with 0%Z by lia. constructor.
  - rewrite bindings_snoc. change (cb_AgentID (revokedBindingParams c)) with (cb_AgentID c). destruct (String.eqb_spec (cb_AgentID c) a) as [<-|]; [|rewrite app_nil_r; constructor].
    pose proof (binding_log_facts _ (ik_logs _ Hok (cb_AgentID c))) as L. pose proof (binding_log_facts _ (ik_logs _ Hok' (cb_AgentID c))) as L'.
    rewrite bindings_snoc in L'. change (cb_AgentID (revokedBindingParams c)) with (cb_AgentID c) in L'. rewrite String.eqb_refl in L'. rewrite (lf_newest _ L'), last_snoc, Hn.
    assert (Hact : cb_State c = "active") by (destruct Hs as [|Hs]; [done|]; pose proof (lf_state _ L c (newest_in _ _ Hn)) as [|]; congruence).
    unfold state_of_row at 1. rewrite Hact, String.eqb_refl. unfold state_of_row. rewrite Hver. apply an_release.
Qed.

(** C35: The identity store refines a machine per agent.  After any history, an operation
    changes what [GetCurrent] says of an agent only as the machine allows: [FinalizeBinding]
    binds an agent that is unbound or released, at the version and for the incarnation of the
    request, [RevokeBinding] releases the incarnation that is bound at that version, versions
    count up by one, and a released agent is bound only by another incarnation of a higher
    generation; no other operation changes anything. *)
Theorem store_refines_agent_machine ops o a : valid_agent a ->
  agent_view a no_tables = Unbound
  /\ agent_next a (iop_label o) (agent_view a (identity_history ops no_tables)) (agent_view a (iop_run o (identity_history ops no_tables))).
Proof.
  intros Ha. pose proof (reachable_iok (identity_history ops no_tables) (ex_intro _ ops eq_refl)) as Hok. split.
  - by rewrite agent_view_newest by (done || apply iok_empty).
  - apply step_agent; [done|by apply iop_iok|by apply iop_step, iok_unique|done].
Qed.

(** ** Reads by an id *)

Lemma find_by_id {A} (f : A -> string) l x : NoDup (f <$> l) -> x ∈ l -> List.find (fun r => String.eqb (f r) (f x)) l = Some x.
Proof.
  intros Hnd Hx. destruct (List.find _ l) as [y|] eqn:E.
  - apply find_key in E as [Hy Hid]. f_equal. by eapply same_key.
  - eapply find_none in E; [|exact Hx]. by rewrite String.eqb_refl in E.
Qed.

(** ** Snapshots *)

Lemma snapshot_of_bound t a b : iok t -> newest (bindings_of a t) = Some b -> cb_State b = "active" ->
  exists s, readActiveSnapshotTx a t = Ok (s, t) /\ sn_Binding s = b /\ incarnation_of (sn_Incarnation s) (sn_Reservation s)
  /\ binding_of b (sn_Reservation s) (sn_Incarnation s) /\ rs_State (sn_Reservation s) = "activated".
Proof.
  intros Hok Hn Hst. destruct (newest_agent _ _ _ Hn) as [Hb _]. destruct (ik_bind _ Hok b Hb) as (r & i & Hr & Hi & Hof & Hbo & Hact).
  exists (mkSnapshot r i b). split; [|done]. unfold readActiveSnapshotTx, readSnapshotBindingTx, readSnapshotReservationTx, readSnapshotIncarnationTx, GetCurrentRow, GetReservationRow, GetIncarnationRow.
  assert (E1 : (query "get active identity binding" (sql_one (fun t => newest (bindings_of a t))) ≫=
    (fun row => ilift (currentBindingFromRow row) ≫= (fun binding => iguard (String.eqb (cb_State binding) "active") Fence ≫= fun _ => mret binding))) t = Ok (b, t)).
  { rewrite run_read, Hn, run_lift. unfold currentBindingFromRow. rewrite (ik_bind_valid _ Hok b Hb), run_guard, Hst. done. }
  unfold mbind at 1, IM_bind at 1. rewrite E1. destruct Hbo as (B1 & B2 & B3 & B4 & B5 & B6 & B7 & B8).
  unfold mbind at 1, IM_bind at 1. rewrite run_read, <- B1, (find_by_id rs_ReservationID) by (done || apply Hok). unfold ilift at 1. rewrite (ik_res_valid _ Hok r Hr). cbn [mbind result_bind].
  unfold mbind at 1, IM_bind at 1. rewrite run_read, <- B4, (find_by_id in_IncarnationID) by (done || apply Hok). unfold ilift at 1. rewrite (ik_inc_valid _ Hok i Hi). cbn [mbind result_bind].
  destruct Hof as (O1 & O2 & O3 & O4). unfold snapshotRelationsMatch, snapshotReservationMatches, snapshotIncarnationMatches.
  rewrite run_guard, Hact, B1, B2, B3, B4, B5, B6, B7, B8, O4, B8, <- O1, B1, <- O2, B2, !String.eqb_refl, !Z.eqb_refl. done.
Qed.

(** C37: A snapshot of the active identity is read exactly while the agent is bound.  In
    every state that the operations reach, [GetActiveSnapshot] succeeds if and only if the
    current binding is active; the reservation, the incarnation and the binding that it returns
    belong together, and it never reports a fence for rows that drifted apart: the only errors
    are that the agent was never bound or that its binding is revoked. *)
Theorem snapshot_exact t a : reachable t -> valid_agent a ->
  match GetActiveSnapshot a t with
  | Ok (s, t') => t' = t /\ Store_GetCurrent a t = Ok (sn_Binding s, t) /\ cb_State (sn_Binding s) = "active" /\ rs_State (sn_Reservation s) = "activated"
      /\ incarnation_of (sn_Incarnation s) (sn_Reservation s) /\ binding_of (sn_Binding s) (sn_Reservation s) (sn_Incarnation s)
  | Err e => (agent_view a t = Unbound /\ err_is e = [ErrIdentityNotFound]) \/ (exists v g i, agent_view a t = Released v g i) /\ err_is e = [ErrIdentityFence]
  end.
Proof.
  intros Hre Ha. pose proof (reachable_iok t Hre) as Hok. rewrite agent_view_newest by done. unfold GetActiveSnapshot. rewrite run_lift, Ha.
  destruct (newest (bindings_of a t)) as [b|] eqn:Hn.
  - destruct (newest_agent _ _ _ Hn) as [Hb _]. destruct (lf_state _ (binding_log_facts _ (ik_logs _ Hok a)) b (newest_in _ _ Hn)) as [Hst|Hst].
    + destruct (snapshot_of_bound t a b Hok Hn Hst) as (s & -> & Hs & Hof & Hbo & Hact). rewrite Hs. split_and!; try done.
      unfold Store_GetCurrent, GetCurrentRow. rewrite run_lift, Ha, run_read, Hn. unfold ilift, currentBindingFromRow. by rewrite (ik_bind_valid _ Hok b Hb).
    + unfold readActiveSnapshotTx, readSnapshotBindingTx, GetCurrentRow. unfold mbind at 1, IM_bind at 1. rewrite run_read, Hn, run_lift. unfold currentBindingFromRow.
      rewrite (ik_bind_valid _ Hok b Hb), run_guard. unfold state_of_row. rewrite Hst. cbn. right. eauto.
  - unfold readActiveSnapshotTx, readSnapshotBindingTx, GetCurrentRow. unfold mbind at 1, IM_bind at 1. rewrite run_read, Hn. by left.
Qed.
