(* ===== verification/IdentityRetry.v ===== *)
(** * Retries of the operations of the identity store

    A caller that does not learn whether its operation was done sends it again.  For all
    operations but one the second run finds what the first one left, whatever was done in
    between, and returns it without an effect. *)

From S2P Require Import Prelude GoStrings WakeupLease EventContract IdentityStore IdentityOps IdentitySteps IdentityInvariant IdentityHistory.

Definition answer {A} (f : A -> string * Z) (r : result error (A * itables)) : option (string * Z) := match r with Ok (x, _) => Some (f x) | Err _ => None end.

(** The record that an operation returns, by its id and its generation or version; nothing
    when the operation fails. *)
Definition iop_answer (o : iop) (t : itables) : option (string * Z) :=
  match o with
  | IReserve intents req => answer (fun r => (rs_ReservationID r, rs_ReservationGeneration r)) (Reserve intents req t)
  | ICreateIncarnation req => answer (fun i => (in_IncarnationID i, in_IncarnationGeneration i)) (CreateIncarnation req t)
  | IPrepare req => answer (fun p => (bp_PreparationID p, bp_PreparationGeneration p)) (PrepareBinding req t)
  | IFinalize req => answer (fun b => (cb_IncarnationID b, cb_BindingVersion b)) (FinalizeBinding req t)
  | IAbort req => answer (fun p => (bp_PreparationID p, bp_PreparationGeneration p)) (AbortBinding req t)
  | IRevoke req => answer (fun b => (cb_IncarnationID b, cb_BindingVersion b)) (RevokeBinding req t)
  end.

(** Not a revocation, and not a preparation that names a receipt and is itself a retry: the
    receipt of such a request is not compared with a row that has none. *)
Definition retryable (o : iop) (t : itables) : bool :=
  match o with
  | IRevoke _ => false
  | IPrepare req => String.eqb (pq_ActiveProcessReceiptRef req) EmptyString
      || negb (existsb (has_generation (pq_ReservationID req) (pq_PreparationGeneration req)) (it_preparations t))
  | _ => true
  end.

(** What an operation that returned [ans] leaves behind. *)
Definition settled (o : iop) (ans : string * Z) (t : itables) : Prop :=
  match o with
  | IReserve intents req => validateReservationIdentity req = Ok tt /\ (rq_CommandID req = EmptyString \/ verifyCommandReservationMatch intents req = Ok tt)
      /\ exists r, r ∈ it_reservations t /\ matchReservation req r = Ok tt /\ ans = (rs_ReservationID r, rs_ReservationGeneration r)
  | ICreateIncarnation req => validateIncarnationIdentity req = Ok tt /\ (exists r, r ∈ it_reservations t /\ rs_ReservationID r = iq_ReservationID req)
      /\ exists i, i ∈ it_incarnations t /\ matchIncarnation req i = Ok tt /\ ans = (in_IncarnationID i, in_IncarnationGeneration i)
  | IPrepare req => validatePreparationIdentity req = Ok tt /\ (exists r, r ∈ it_reservations t /\ rs_ReservationID r = pq_ReservationID req)
      /\ (exists i, i ∈ it_incarnations t /\ in_IncarnationID i = pq_IncarnationID req) /\ exists p, p ∈ it_preparations t /\ matchPreparation req p = Ok tt
        /\ (pq_ActiveProcessReceiptRef req = EmptyString \/ pq_ActiveProcessReceiptRef req = bp_ActiveProcessReceiptRef p)
        /\ ans = (bp_PreparationID p, bp_PreparationGeneration p)
  | IFinalize req => validateFinalizeIdentity req = Ok tt
      /\ (exists p, p ∈ it_preparations t /\ bp_State p = "finalized" /\ finalizeReplayMatches p req = true)
      /\ exists b, b ∈ it_bindings t /\ cb_AgentID b = fq_AgentID req /\ cb_BindingVersion b = succ_int64 (fq_ExpectedBindingVersion req) /\ finalizedCurrentMatches b req = true
        /\ ans = (cb_IncarnationID b, cb_BindingVersion b)
  | IAbort req => validateAbortIdentity req = Ok tt /\ exists p, p ∈ it_preparations t /\ bp_State p = "aborted" /\ bp_PreparationID p = aq_PreparationID req
      /\ bp_AgentID p = aq_AgentID req /\ bp_PreparationGeneration p = aq_ExpectedPreparationGeneration req
        /\ ans = (bp_PreparationID p, bp_PreparationGeneration p)
  | IRevoke _ => False
  end.

(** ** What was settled stays so *)

Lemma prefix_in {A} (l l' : list A) x : l `prefix_of` l' -> x ∈ l -> x ∈ l'.
Proof. intros [k ->] H. apply elem_of_app. by left. Qed.

Lemma receipt_match_kept req p s rc : matchPreparation req p = Ok tt -> (bp_ActiveProcessReceiptRef p <> EmptyString -> rc = bp_ActiveProcessReceiptRef p) ->
  (pq_ActiveProcessReceiptRef req = EmptyString \/ pq_ActiveProcessReceiptRef req = bp_ActiveProcessReceiptRef p) ->
  matchPreparation req (resolve_preparation p s rc) = Ok tt /\ (pq_ActiveProcessReceiptRef req = EmptyString \/ pq_ActiveProcessReceiptRef req = rc).
Proof.
  unfold matchPreparation, preparationIDsMatch, preparationFenceMatch. intros H Hk He. apply guard_err_Ok in H.
  cbn [resolve_preparation bp_PreparationID bp_ReservationID bp_IncarnationID bp_AgentID bp_IdentityKind bp_PreparationGeneration bp_ExpectedBindingVersion
    bp_ExpectedIncarnationGeneration bp_BindingDigest bp_SourceFenceRef bp_ActiveProcessReceiptRef].
  apply andb_true_iff in H as [H1 H2]. apply andb_true_iff in H2 as [H2 H3]. rewrite H1, H2. unfold preparationReceiptMatches.
  destruct (String.eqb_spec (pq_ActiveProcessReceiptRef req) EmptyString) as [E|E]; [by split; [|left]|].
  destruct He as [|He]; [done|]. rewrite <- He in Hk. rewrite (Hk E), String.eqb_refl, orb_true_r. by split; [|right].
Qed.

Lemma settled_grows o ans t t' : igrows t t' -> settled o ans t -> settled o ans t'.
Proof.
  intros [GR GI GP GB]. destruct o; cbn [settled]; try done.
  - intros (Hv & Hc & r & (s & Hr)%GR & Hm). split_and!; [done..|]. by exists (with_reservation_state r s).
  - intros (Hv & (r & (s & Hr)%GR & Hid) & i & Hi & Hm). split_and!; [done|by exists (with_reservation_state r s)|]. exists i. split; [by eapply prefix_in|done].
  - intros (Hv & (r & (s & Hr)%GR & Hid) & (i & Hi & Hiid) & p & (s' & rc & Hp & _ & Hrc)%GP & Hm & He & Hans). split_and!; [done|by exists (with_reservation_state r s)|..].
    + exists i. split; [by eapply prefix_in|done].
    + exists (resolve_preparation p s' rc). split; [done|]. destruct (receipt_match_kept req p s' rc Hm Hrc He). done.
  - intros (Hv & (p & (s & rc & Hp & Hkeep & _)%GP & Hst & Hm) & b & Hb & Hrest). destruct Hkeep as [-> ->]; [by rewrite Hst|]. rewrite resolve_same in Hp.
    split_and!; [done|by exists p|]. exists b. split; [by eapply prefix_in|done].
  - intros (Hv & p & (s & rc & Hp & Hkeep & _)%GP & Hst & Hm). destruct Hkeep as [-> ->]; [by rewrite Hst|]. rewrite resolve_same in Hp. split; [done|]. by exists p.
Qed.

(** ** A settled operation is done again without an effect *)

Lemma find_unique {A} (p : A -> bool) (l : list A) x : x ∈ l -> p x = true -> (forall y, y ∈ l -> p y = true -> y = x) -> List.find p l = Some x.
Proof.
  intros Hx Hp Hone. destruct (List.find p l) as [y|] eqn:E.
  - apply find_some in E as [Hy Hpy]. f_equal. apply Hone; [by apply list_elem_of_In|done].
  - eapply find_none in E; [|exact Hx]. congruence.
Qed.

Lemma exists_true {A} (p : A -> bool) l x : x ∈ l -> p x = true -> existsb p l = true.
Proof. intros Hx Hp. apply existsb_exists. exists x. split; [by apply list_elem_of_In|done]. Qed.

Lemma run_read_opt {A B} op (row : itables -> option A) (f : option A -> IM B) t : (query_opt op (sql_one row) ≫= f) t = f (row t) t.
Proof. unfold mbind, IM_bind, query_opt, sql_one. by destruct (row t). Qed.

Lemma reserve_again intents req t r : iok t -> validateReservationIdentity req = Ok tt -> rq_CommandID req = EmptyString \/ verifyCommandReservationMatch intents req = Ok tt ->
  r ∈ it_reservations t -> matchReservation req r = Ok tt -> Reserve intents req t = Ok (r, t).
Proof.
  intros Hok Hv Hc Hr Hm. assert (Hkey : has_key (rq_IdempotencyNamespace req) (rq_IdempotencyKeyDigest req) r = true).
  { unfold matchReservation, reservationIdentityEqual in Hm. apply guard_err_Ok in Hm. go_bool. unfold has_key. apply andb_true_iff. split; apply String.eqb_eq; congruence. }
  unfold Reserve. rewrite run_lift, Hv.
  assert (E1 : (if String.eqb (rq_CommandID req) EmptyString then mret tt else ilift (verifyCommandReservationMatch intents req)) t = Ok (tt, t)).
  { destruct Hc as [->|Hc]; [done|]. destruct (String.eqb _ _); [done|]. unfold ilift. by rewrite Hc. }
  unfold mbind at 1, IM_bind at 1. rewrite E1.
  assert (E2 : query_opt "reserve identity" (CreateReservationRow intents (reservationParams req)) t = Ok (None, t)).
  { unfold query_opt, CreateReservationRow, reservation_generation_old. cbn [rs_IdempotencyNamespace rs_IdempotencyKeyDigest reservationParams].
    rewrite (exists_true _ _ r Hr Hkey). cbn [negb]. by rewrite andb_false_r. }
  unfold mbind at 1, IM_bind at 1. rewrite E2. unfold GetReservationRowByKey.
  rewrite run_read, (find_unique _ _ r Hr Hkey), run_lift, (ik_res_valid _ Hok r Hr), run_lift, Hm; [done|].
  intros y Hy Hky. apply (same_key key_of (it_reservations t)); [apply Hok|done..|]. unfold has_key in *. go_bool. unfold key_of. congruence.
Qed.

(** A row that is found by its id and passes its check. *)
Lemma read_reservation {B} op t r id (f : Reservation -> IM B) : iok t -> r ∈ it_reservations t -> rs_ReservationID r = id ->
  (query op (GetReservationRow id) ≫= f) t = f r t.
Proof. intros Hok Hr <-. unfold GetReservationRow. by rewrite run_read, (find_by_id rs_ReservationID) by (done || apply Hok). Qed.

Lemma read_incarnation {B} op t i id (f : Incarnation -> IM B) : iok t -> i ∈ it_incarnations t -> in_IncarnationID i = id ->
  (query op (GetIncarnationRow id) ≫= f) t = f i t.
Proof. intros Hok Hi <-. unfold GetIncarnationRow. by rewrite run_read, (find_by_id in_IncarnationID) by (done || apply Hok). Qed.

Lemma read_preparation t p id : iok t -> p ∈ it_preparations t -> bp_PreparationID p = id -> getPreparationTx id t = Ok (p, t).
Proof.
  intros Hok Hp <-. unfold getPreparationTx, GetPreparationRow. rewrite run_read, (find_by_id bp_PreparationID) by (done || apply Hok). unfold ilift. by rewrite (ik_prep_valid _ Hok p Hp).
Qed.

Lemma incarnate_again req t r i : iok t -> validateIncarnationIdentity req = Ok tt -> r ∈ it_reservations t -> rs_ReservationID r = iq_ReservationID req ->
  i ∈ it_incarnations t -> matchIncarnation req i = Ok tt -> CreateIncarnation req t = Ok (i, t).
Proof.
  intros Hok Hv Hr Hid Hi Hm. assert (Hres : in_ReservationID i = iq_ReservationID req) by (unfold matchIncarnation in Hm; go_ok; go_bool; congruence).
  unfold CreateIncarnation. rewrite run_lift, Hv. unfold mbind at 1, IM_bind at 1. unfold loadReservationForIncarnation. rewrite (read_reservation _ _ r) by done. unfold ilift at 1.
  rewrite (ik_res_valid _ Hok r Hr). cbn [mbind result_bind].
  assert (E : getIncarnationByReservation (iq_ReservationID req) t = Ok (Some i, t)).
  { unfold getIncarnationByReservation, GetIncarnationRowByReservation. rewrite run_read_opt, <- Hres, (find_by_id in_ReservationID) by (done || apply Hok).
    by rewrite run_lift, (ik_inc_valid _ Hok i Hi). }
  unfold mbind at 1, IM_bind at 1. rewrite E. unfold replayIncarnation. by rewrite run_lift, Hm.
Qed.

Lemma prepare_again req t r i p : iok t -> validatePreparationIdentity req = Ok tt -> r ∈ it_reservations t -> rs_ReservationID r = pq_ReservationID req ->
  i ∈ it_incarnations t -> in_IncarnationID i = pq_IncarnationID req -> p ∈ it_preparations t -> matchPreparation req p = Ok tt -> PrepareBinding req t = Ok (p, t).
Proof.
  intros Hok Hv Hr Hrid Hi Hiid Hp Hm. assert (Hgen : has_generation (pq_ReservationID req) (pq_PreparationGeneration req) p = true).
  { unfold matchPreparation, preparationIDsMatch in Hm. apply guard_err_Ok in Hm. go_bool. unfold has_generation. apply andb_true_iff. split; [apply String.eqb_eq|apply Z.eqb_eq]; congruence. }
  unfold PrepareBinding, prepareBindingTx. rewrite run_lift, Hv.
  assert (E1 : loadPreparationIdentities req t = Ok ((r, i), t)).
  { unfold loadPreparationIdentities. rewrite (read_reservation _ _ r), (read_incarnation _ _ i) by done. by rewrite run_lift, (ik_res_valid _ Hok r Hr), run_lift, (ik_inc_valid _ Hok i Hi). }
  assert (E2 : getPreparationByGeneration req t = Ok (Some p, t)).
  { unfold getPreparationByGeneration, GetPreparationRowByGeneration. rewrite run_read_opt, (find_unique _ _ p Hp Hgen).
    - by rewrite run_lift, (ik_prep_valid _ Hok p Hp).
    - intros y Hy Hgy. apply (same_key generation_of (it_preparations t)); [apply Hok|done..|]. unfold has_generation in *. go_bool. unfold generation_of. congruence. }
  unfold mbind at 1, IM_bind at 1. rewrite E1. unfold mbind at 1, IM_bind at 1. rewrite E2. unfold replayPreparation. by rewrite run_lift, Hm.
Qed.

(** The row of an agent with a version. *)
Lemma read_version op t b (f : CurrentBinding -> IM CurrentBinding) : iok t -> b ∈ it_bindings t ->
  (query op (GetCurrentRowVersion (cb_AgentID b) (cb_BindingVersion b)) ≫= f) t = f b t.
Proof.
  intros Hok Hb. unfold GetCurrentRowVersion. rewrite run_read, (find_unique _ _ b Hb); [done|by rewrite String.eqb_refl, Z.eqb_refl|].
  intros y Hy Hk. go_bool. pose proof (binding_log_facts _ (ik_logs _ Hok (cb_AgentID b))) as L.
  assert (Hb' : b ∈ bindings_of (cb_AgentID b) t) by by apply elem_of_bindings. assert (Hy' : y ∈ bindings_of (cb_AgentID b) t) by by apply elem_of_bindings.
  apply list_elem_of_lookup in Hb' as [j Hj], Hy' as [k Hk]. pose proof (lf_version _ L _ _ Hj). pose proof (lf_version _ L _ _ Hk). assert (j = k) as -> by lia. congruence.
Qed.

Lemma finalize_again req t p b : iok t -> validateFinalizeIdentity req = Ok tt -> p ∈ it_preparations t -> bp_State p = "finalized" -> finalizeReplayMatches p req = true ->
  b ∈ it_bindings t -> cb_AgentID b = fq_AgentID req -> cb_BindingVersion b = succ_int64 (fq_ExpectedBindingVersion req) -> finalizedCurrentMatches b req = true ->
  FinalizeBinding req t = Ok (b, t).
Proof.
  intros Hok Hv Hp Hst Hm Hb Hag Hver Hbm. unfold FinalizeBinding, finalizeBindingTx. rewrite run_lift, Hv. unfold mbind at 1, IM_bind at 1.
  rewrite (read_preparation t p) by (done || (unfold finalizeReplayMatches in Hm; by go_bool)). rewrite Hst, String.eqb_refl. unfold replayFinalizedBinding.
  rewrite run_guard, Hm, <- Hag, <- Hver, read_version by done. unfold currentBindingFromRow. by rewrite run_lift, (ik_bind_valid _ Hok b Hb), run_guard, Hbm.
Qed.

Lemma abort_again req t p : iok t -> validateAbortIdentity req = Ok tt -> p ∈ it_preparations t -> bp_State p = "aborted" -> bp_PreparationID p = aq_PreparationID req ->
  bp_AgentID p = aq_AgentID req -> bp_PreparationGeneration p = aq_ExpectedPreparationGeneration req -> AbortBinding req t = Ok (p, t).
Proof.
  intros Hok Hv Hp Hst Hid Hag Hgen. unfold AbortBinding. rewrite run_lift, Hv. unfold mbind at 1, IM_bind at 1. rewrite (read_preparation t p) by done.
  by rewrite run_guard, Hag, Hgen, Hst, !String.eqb_refl, Z.eqb_refl.
Qed.

Lemma settled_again o ans t : iok t -> settled o ans t -> iop_answer o t = Some ans /\ iop_run o t = t.
Proof.
  intros Hok. destruct o; cbn [settled iop_answer iop_run]; unfold committed.
  - intros (Hv & Hc & r & Hr & Hm & ->). by rewrite (reserve_again _ _ _ r).
  - intros (Hv & (r & Hr & Hid) & i & Hi & Hm & ->). by rewrite (incarnate_again _ _ r i).
  - intros (Hv & (r & Hr & Hid) & (i & Hi & Hiid) & p & Hp & Hm & _ & ->). by rewrite (prepare_again _ _ r i p).
  - intros (Hv & (p & Hp & Hst & Hm) & b & Hb & Hag & Hver & Hbm & ->). by rewrite (finalize_again _ _ p b).
  - intros (Hv & p & Hp & Hst & Hid & Hag & Hgen & ->). by rewrite (abort_again _ _ p).
  - done.
Qed.

(** ** A successful operation is settled *)

Lemma set_state_has id s l (r : Reservation) : r ∈ l -> exists r', r' ∈ set_state id s l /\ rs_ReservationID r' = rs_ReservationID r.
Proof. intros Hr. eexists. by split; [apply in_set_state|]. Qed.

Lemma snoc_in {A} (l : list A) x : x ∈ l ++ [x].
Proof. apply elem_of_app. right. by apply list_elem_of_singleton. Qed.

Lemma command_value c : reservationCommandValue (reservationCommandID c) = c.
Proof. unfold reservationCommandID. by destruct (String.eqb_spec c EmptyString) as [->|]. Qed.

Lemma reserve_settled intents req t r t' : Reserve intents req t = Ok (r, t') -> settled (IReserve intents req) (rs_ReservationID r, rs_ReservationGeneration r) t'.
Proof.
  intros H. unfold Reserve in H. im_ok. cbn [settled].
  assert (x2 = t /\ (rq_CommandID req = EmptyString \/ verifyCommandReservationMatch intents req = Ok tt)) as [-> Hc].
  { destruct (String.eqb_spec (rq_CommandID req) EmptyString); im_ok; auto. }
  opt_cases HC row.
  - im_ok. same_rows. apply create_reservation_Ok in HC as (-> & -> & _). split_and!; [done..|]. exists (reservationParams req). split; [apply snoc_in|].
    unfold matchReservation, reservationIdentityEqual, reservationFenceEqual. cbn [reservationParams rs_CommandID rs_AgentID rs_IdentityKind rs_SourceKind rs_CallerPrincipalRef rs_ScopeRef
      rs_ParentAgentID rs_IdempotencyNamespace rs_IdempotencyKeyDigest rs_RequestDigest rs_SourceFenceRef rs_TargetFenceRef rs_ExpectedBindingVersion rs_ReservationGeneration].
    by rewrite command_value, !String.eqb_refl, !Z.eqb_refl.
  - unfold GetReservationRowByKey in *. im_ok. same_rows. split_and!; [done..|]. match goal with Hf : List.find _ _ = Some ?r |- _ => exists r; apply find_some in Hf as [Hr _] end.
    split; [by apply list_elem_of_In|done].
Qed.

Lemma incarnation_by_reservation id t i t' : getIncarnationByReservation id t = Ok (Some i, t') -> i ∈ it_incarnations t.
Proof.
  unfold getIncarnationByReservation, GetIncarnationRowByReservation. intros H. im_ok. opt_cases HC row; im_ok; [|done]. same_rows. simplify_eq. by apply find_key in HC as [? _].
Qed.

Lemma incarnate_settled req t i t' : iok t -> CreateIncarnation req t = Ok (i, t') -> settled (ICreateIncarnation req) (in_IncarnationID i, in_IncarnationGeneration i) t'.
Proof.
  intros Hok H. unfold CreateIncarnation, loadReservationForIncarnation, replayIncarnation, GetReservationRow in H. im_ok. same_rows.
  match goal with Hf : List.find _ _ = Some _ |- _ => apply find_key in Hf as [Hr Hid] end.
  pose proof (getIncarnationByReservation_Ok _ _ _ _ H2) as ->. cbn [settled]. case_match.
  - im_ok. apply incarnation_by_reservation in H2. split_and!; [done|eauto|eauto].
  - im_ok. opt_cases HC row.
    + apply create_incarnation_Ok in HC as (-> & -> & _). unfold createIncarnationAndAdvance in H. im_ok. same_rows.
      match goal with Ha : advanceReservationState _ _ _ = _ |- _ => apply advance_Ok in Ha as ->; [|apply Hok|done] end. cbn [it_reservations it_incarnations].
      split_and!; [done|..].
      * destruct (set_state_has (rs_ReservationID x5) "identity_pending" _ _ Hr) as (r' & Hr' & E). exists r'. split; [done|congruence].
      * exists (incarnationParams req). split; [apply snoc_in|]. unfold matchIncarnation. cbn [incarnationParams in_IncarnationID in_ReservationID in_AgentID in_IdentityKind
          in_ExternalIdentityRef in_ExternalEpoch in_SourceFenceRef in_IdentityDigest in_IncarnationGeneration]. by rewrite !String.eqb_refl, Z.eqb_refl.
    + im_ok. match goal with Hg : getIncarnationByReservation _ _ = _ |- _ => pose proof (getIncarnationByReservation_Ok _ _ _ _ Hg) as ->; rename Hg into HG end.
      case_match; im_ok. apply incarnation_by_reservation in HG. split_and!; [done|eauto|eauto].
Qed.

Lemma preparation_by_generation op id g t p t' : query op (GetPreparationRowByGeneration id g) t = Ok (p, t') ->
  t' = t /\ p ∈ it_preparations t /\ existsb (has_generation id g) (it_preparations t) = true.
Proof.
  unfold GetPreparationRowByGeneration. intros H. im_ok. apply find_some in H as [Hp Hg]. split_and!; [done|by apply list_elem_of_In|]. apply existsb_exists. eauto.
Qed.

Lemma getPreparationByGeneration_in req t p t' : getPreparationByGeneration req t = Ok (Some p, t') ->
  p ∈ it_preparations t /\ existsb (has_generation (pq_ReservationID req) (pq_PreparationGeneration req)) (it_preparations t) = true.
Proof.
  unfold getPreparationByGeneration, GetPreparationRowByGeneration. intros H. im_ok. opt_cases HC row; im_ok; [|done]. same_rows. simplify_eq.
  apply find_some in HC as [Hp Hg]. split; [by apply list_elem_of_In|]. apply existsb_exists. eauto.
Qed.

Lemma prepare_settled req t p t' : iok t -> retryable (IPrepare req) t = true -> PrepareBinding req t = Ok (p, t') -> settled (IPrepare req) (bp_PreparationID p, bp_PreparationGeneration p) t'.
Proof.
  intros Hok Hre H. cbn [retryable] in Hre. unfold PrepareBinding, prepareBindingTx, replayPreparation in H. im_ok.
  apply loadPreparationIdentities_Ok in H1 as (-> & [Hr Hid] & Hi & Hiid). pose proof (getPreparationByGeneration_Ok _ _ _ _ H2) as ->. cbn [settled]. case_match.
  - im_ok. apply getPreparationByGeneration_in in H2 as [Hp He]. rewrite He, orb_false_r in Hre. go_bool. split_and!; [done|eauto|eauto|]. eauto 10.
  - im_ok. match goal with Hv : validateExpectedBindingVersion _ _ _ = _ |- _ => apply validateExpectedBindingVersion_Ok in Hv as -> end. opt_cases HC row.
    + im_ok. apply create_preparation_Ok in HC as (-> & -> & _). same_rows.
      match goal with Ha : advanceReservationState _ _ _ = _ |- _ => apply advance_Ok in Ha as ->; [|apply Hok|done] end. cbn [it_reservations it_incarnations it_preparations].
      split_and!; [done| |eauto|].
      * destruct (set_state_has (rs_ReservationID x1.1) "activation_pending" _ _ Hr) as (r' & Hr' & E). exists r'. split; [done|congruence].
      * exists (preparationParams req). split; [apply snoc_in|]. split; [|by split; [right|]]. unfold matchPreparation, preparationIDsMatch, preparationFenceMatch, preparationReceiptMatches.
        cbn [preparationParams bp_PreparationID bp_ReservationID bp_IncarnationID bp_AgentID bp_IdentityKind bp_PreparationGeneration bp_ExpectedBindingVersion
          bp_ExpectedIncarnationGeneration bp_BindingDigest bp_SourceFenceRef bp_ActiveProcessReceiptRef]. by rewrite !String.eqb_refl, !Z.eqb_refl, orb_true_r.
    + unfold replayPreparationTx, replayPreparation in H. apply im_bind in H as (row & t1 & Hq & H). apply preparation_by_generation in Hq as (-> & Hp & He). im_ok. same_rows.
      rewrite He, orb_false_r in Hre. go_bool. split_and!; [done|eauto|eauto|]. eauto 10.
Qed.

Lemma finalize_settled req t b t' : iok t -> FinalizeBinding req t = Ok (b, t') -> settled (IFinalize req) (cb_IncarnationID b, cb_BindingVersion b) t'.
Proof.
  intros Hok H. unfold FinalizeBinding, finalizeBindingTx in H. im_ok. apply getPreparationTx_Ok in H1 as (-> & Hp & Hpid). cbn [settled]. destruct (String.eqb_spec (bp_State x1) "finalized") as [Hst|Hst].
  - unfold replayFinalizedBinding, GetCurrentRowVersion in H. im_ok. same_rows. split_and!; [done|eauto|].
    match goal with Hf : List.find _ _ = Some ?b |- _ => exists b; apply find_some in Hf as [Hb Hk] end. go_bool. split_and!; [by apply list_elem_of_In|done..].
  - im_ok. unfold finalizePreparedBinding, finalizePreparationTx in H. im_ok. apply loadFinalizeIdentities_Ok in H2 as (-> & [Hr Hid] & Hi & Hiid).
    match goal with Hc : getCurrentOptional _ _ = _ |- _ => apply getCurrentOptional_Ok in Hc as (-> & Hcur & Hpos) end. same_rows.
    match goal with Ha : AppendBindingRow _ _ = _ |- _ => apply append_Ok in Ha as (-> & -> & _) end.
    match goal with Hu : UpdatePreparationState _ _ _ _ _ _ _ = _ |- _ => apply resolve_Ok in Hu as [-> _]; [|apply Hok|done] end.
    match goal with Ha : advanceReservationState _ _ _ = _ |- _ => apply advance_Ok in Ha as ->; [|apply Hok|done] end. cbn [it_preparations it_bindings].
    unfold validateFinalizeFence, finalizePreparationMatches in *. go_ok. go_bool. split_and!; [done|..].
    + exists (resolve_preparation x1 "finalized" (fq_ActiveProcessReceiptRef req)). split_and!; [|done|].
      * apply list_elem_of_fmap. exists x1. by rewrite String.eqb_refl.
      * unfold finalizeReplayMatches. cbn [resolve_preparation bp_PreparationID bp_ReservationID bp_IncarnationID bp_AgentID bp_IdentityKind bp_PreparationGeneration bp_ExpectedBindingVersion
          bp_ExpectedIncarnationGeneration bp_BindingDigest bp_SourceFenceRef bp_ActiveProcessReceiptRef].
        repeat match goal with Hx : _ x1 = _ req |- _ => rewrite Hx end. by rewrite !String.eqb_refl, !Z.eqb_refl.
    + eexists. split; [apply snoc_in|]. split; [done|]. split; [|split; [unfold finalizedCurrentMatches; cbn; by rewrite !String.eqb_refl|done]].
      cbn [currentBindingParams cb_BindingVersion]. match goal with Hv : validateFinalizeCurrent _ _ _ = _ |- _ => unfold validateFinalizeCurrent in Hv end.
      destruct (fq_ExpectedBindingVersion req =? 0)%Z eqn:E0; destruct (newest _); go_ok; go_bool; cbn [nextBindingVersion]; try done; [by rewrite E0|congruence].
Qed.

Lemma abort_settled req t p t' : iok t -> AbortBinding req t = Ok (p, t') -> settled (IAbort req) (bp_PreparationID p, bp_PreparationGeneration p) t'.
Proof.
  intros Hok H. unfold AbortBinding in H. im_ok. apply getPreparationTx_Ok in H1 as (-> & Hp & Hid). cbn [settled]. go_bool. destruct (String.eqb_spec (bp_State x1) "aborted") as [Hst|Hst].
  - im_ok. split; [done|]. eauto 10.
  - im_ok. match goal with Hu : UpdatePreparationState _ _ _ _ _ _ _ = _ |- _ => apply resolve_Ok in Hu as [-> _]; [|apply Hok|done] end.
    apply getPreparationTx_Ok in H as (-> & Hp' & Hid'). unfold rejectReservationAfterAbort, GetReservationRow in *. im_ok. same_rows.
    match goal with Hf : List.find _ _ = Some _ |- _ => apply find_key in Hf as [Hr _] end. cbn [it_reservations] in Hr.
    set (l := set_preparation (bp_PreparationID x1) "aborted" (bp_ActiveProcessReceiptRef x1) (it_preparations t)) in *.
    match goal with Hc : (if _ then _ else _) _ = Ok (tt, ?t1) |- _ => assert (Hl : it_preparations t1 = l) end.
    { match goal with Hc : (if String.eqb _ "rejected" then _ else _) _ = _ |- _ => destruct (String.eqb _ "rejected") end; im_ok; [done|].
      match goal with Ha : advanceReservationState _ _ _ = _ |- _ => apply advance_Ok in Ha as ->; [|apply Hok|done] end. done. }
    rewrite Hl in Hp' |- *. assert (p = resolve_preparation x1 "aborted" (bp_ActiveProcessReceiptRef x1)) as ->.
    { apply list_elem_of_fmap in Hp' as (q & -> & Hq). destruct (String.eqb_spec (bp_PreparationID q) (bp_PreparationID x1)); [|done].
      by rewrite (same_key bp_PreparationID (it_preparations t) q x1) by (done || apply Hok). }
    split; [done|]. eexists. split; [exact Hp'|]. done.
Qed.

Lemma op_settled o t ans : iok t -> retryable o t = true -> iop_answer o t = Some ans -> settled o ans (iop_run o t).
Proof.
  intros Hok Hre. destruct o; cbn [iop_answer iop_run]; unfold answer, committed; (case_match; [|done]); (case_match; subst); intros [= <-].
  - by eapply reserve_settled.
  - by eapply incarnate_settled.
  - by eapply prepare_settled.
  - by eapply finalize_settled.
  - by eapply abort_settled.
  - done.
Qed.

(** C36: operations of the identity store can be retried.  When a request to reserve, to
    create an incarnation, or to prepare, finalize or abort a binding returned a record, then
    after any further operations of anybody the same request succeeds again, returns the
    record with the same id and the same generation or version (its state and its receipt are
    those of then), and changes no table: a reservation, an incarnation, a preparation or a
    binding is made once however often its request is sent, even when the binding was revoked
    and replaced in between.  Two kinds of requests are left out by [retryable]: revocations,
    and a preparation that names a process receipt although its generation is already there,
    whose receipt the store does not keep. *)
Theorem retries_answer_the_same t o ans ops : reachable t -> retryable o t = true -> iop_answer o t = Some ans ->
  iop_answer o (identity_history ops (iop_run o t)) = Some ans
  /\ iop_run o (identity_history ops (iop_run o t)) = identity_history ops (iop_run o t).
Proof.
  intros Hok%reachable_iok Hre Hans. apply settled_again; [by apply history_iok, iop_iok|].
  eapply settled_grows; [by apply history_grows, iop_iok|]. by apply op_settled.
Qed.
