(* ===== verification/EventFence.v ===== *)
(** * The identity fence of the event store

    Models [store/eventstore/identity_fence_verifier.go]: an event of a running agent must
    name the reservation, the incarnation and the binding that the identity store has as
    current, and arrives on the stream of that incarnation and no other.  The identity store
    is read through an interface, as in the code; what is used of it is that a row that it
    finds by an id has that id. *)

From S2P Require Import Prelude GoStrings WakeupLease EventContract IdentityStore EventStore EventLog EventAppend EventHistory.

(** [IdentityReader] and [IdentityTxReader]. *)
Record IdentityReader := mkReader {
  Get : string -> result error Reservation; GetIncarnation : string -> result error Incarnation; GetCurrent : string -> result error CurrentBinding;
}.

(** A row that is found by an id has that id. *)
Record reader_keys (r : IdentityReader) : Prop := {
  rk_reservation id x : Get r id = Ok x -> rs_ReservationID x = id;
  rk_incarnation id x : GetIncarnation r id = Ok x -> in_IncarnationID x = id;
}.

Definition identityFenceError (stage : string) (cause : option error) : error :=
  match cause with
  | None => Errorf [ErrEventFence] (Sprintf "%w: %s mismatch" [stage])
  | Some e => Errorf (ErrEventFence :: err_is e) (Sprintf "%w: %s: %w" [stage])
  end.

Definition lookup_error {A} (stage : string) (r : result error A) : result error A := map_err (fun e => identityFenceError stage (Some e)) r.

Definition matchReservationEnvelope (reservation : Reservation) (envelope : EventEnvelope) : result error unit :=
  if (rs_ReservationGeneration reservation <=? 0)%Z || negb (String.eqb (rs_AgentID reservation) (ev_RootAgentID envelope))
     || String.eqb (rs_SourceFenceRef reservation) EmptyString || negb (String.eqb (rs_SourceFenceRef reservation) (ev_SourceFenceRef envelope))
  then Err (identityFenceError "reservation fence" None)
  else match ev_IncarnationID envelope with
  | None => guard_err (negb (String.eqb (rs_State reservation) "activated")) (identityFenceError "activated reservation requires incarnation fence" None)
  | Some _ => Ok tt
  end.

Definition incarnationReservationMatches (incarnation : Incarnation) (reservation : Reservation) : bool :=
  String.eqb (in_ReservationID incarnation) (rs_ReservationID reservation) && String.eqb (in_AgentID incarnation) (rs_AgentID reservation)
  && String.eqb (in_IdentityKind incarnation) (rs_IdentityKind reservation) && String.eqb (in_SourceFenceRef incarnation) (rs_SourceFenceRef reservation).

Definition incarnationFenceMatches (incarnation : Incarnation) (envelope : EventEnvelope) : bool :=
  (0 <? in_IncarnationGeneration incarnation)%Z && (0 <? ev_IncarnationGeneration envelope)%Z
  && String.eqb (in_ExternalEpoch incarnation) (ev_ExternalEpoch envelope) && (in_IncarnationGeneration incarnation =? ev_IncarnationGeneration envelope)%Z
  && negb (String.eqb (in_IdentityDigest incarnation) EmptyString) && String.eqb (in_IdentityDigest incarnation) (ev_IdentityDigest envelope).

Definition incarnationMatchesEnvelope (incarnation : Incarnation) (reservation : Reservation) (envelope : EventEnvelope) : bool :=
  String.eqb (rs_State reservation) "activated" && incarnationReservationMatches incarnation reservation && incarnationFenceMatches incarnation envelope.

Definition currentIdentityMatches (current : CurrentBinding) (reservation : Reservation) (incarnation : Incarnation) (envelope : EventEnvelope) : bool :=
  String.eqb (cb_AgentID current) (ev_SubjectAgentID envelope) && String.eqb (cb_ReservationID current) (rs_ReservationID reservation)
  && String.eqb (cb_IncarnationID current) (in_IncarnationID incarnation) && String.eqb (cb_IdentityKind current) (in_IdentityKind incarnation)
  && String.eqb (cb_ExternalIdentityRef current) (in_ExternalIdentityRef incarnation).

Definition currentReservationGenerationMatches (current : CurrentBinding) (reservation : Reservation) : bool :=
  (0 <? rs_ReservationGeneration reservation)%Z && (0 <? cb_ReservationGeneration current)%Z && (cb_ReservationGeneration current =? rs_ReservationGeneration reservation)%Z.

Definition currentIncarnationGenerationMatches (current : CurrentBinding) (incarnation : Incarnation) : bool :=
  (0 <? cb_IncarnationGeneration current)%Z && (cb_IncarnationGeneration current =? in_IncarnationGeneration incarnation)%Z.

Definition currentBindingVersionMatches (current : CurrentBinding) (envelope : EventEnvelope) : bool :=
  (0 <? cb_BindingVersion current)%Z && (0 <? ev_BindingVersion envelope)%Z && (cb_BindingVersion current =? ev_BindingVersion envelope)%Z.

Definition currentBindingDigestMatches (current : CurrentBinding) (envelope : EventEnvelope) : bool :=
  negb (String.eqb (cb_BindingDigest current) EmptyString) && negb (String.eqb (ev_BindingDigest envelope) EmptyString)
  && String.eqb (cb_BindingDigest current) (ev_BindingDigest envelope).

Definition currentFenceMatches (current : CurrentBinding) (reservation : Reservation) (incarnation : Incarnation) (envelope : EventEnvelope) : bool :=
  currentReservationGenerationMatches current reservation && currentIncarnationGenerationMatches current incarnation
  && String.eqb (cb_SourceFenceRef current) (ev_SourceFenceRef envelope) && currentBindingVersionMatches current envelope && currentBindingDigestMatches current envelope.

Definition currentBindingMatchesEnvelope (current : CurrentBinding) (reservation : Reservation) (incarnation : Incarnation) (envelope : EventEnvelope) : bool :=
  String.eqb (cb_State current) "active" && currentIdentityMatches current reservation incarnation envelope && currentFenceMatches current reservation incarnation envelope.

Definition verifyBoundEventFence (r : IdentityReader) (envelope : EventEnvelope) (incarnationID : string) (reservation : Reservation) : result error unit :=
  incarnation ← lookup_error "incarnation lookup" (GetIncarnation r incarnationID);
  _ ← guard_err (incarnationMatchesEnvelope incarnation reservation envelope) (identityFenceError "incarnation fence" None);
  current ← lookup_error "current binding lookup" (GetCurrent r (ev_SubjectAgentID envelope));
  guard_err (currentBindingMatchesEnvelope current reservation incarnation envelope) (identityFenceError "current binding fence" None).

Definition VerifyEventFence (r : IdentityReader) (envelope : EventEnvelope) : result error unit :=
  reservation ← lookup_error "reservation lookup" (Get r (ev_ReservationID envelope));
  _ ← matchReservationEnvelope reservation envelope;
  match ev_IncarnationID envelope with
  | None => Ok tt
  | Some incarnationID => verifyBoundEventFence r envelope incarnationID reservation
  end.

Definition VerifyIngressFrameFence (r : IdentityReader) (frame : IngressFrame) : result error unit :=
  _ ← validateSourceEnvelopeBinding frame; VerifyEventFence r (fr_Envelope frame).

(** The verifier that reads in the transaction of the append. *)
Definition IdentityFenceVerifier (reader : nat -> IdentityReader) : FenceVerifier :=
  VerifierTx (fun i frame => match VerifyIngressFrameFence (reader i) frame with Ok _ => None | Err e => Some e end).

(** ** What the fence means *)

(** The frame names what the identity store has as current, and its stream is the one of
    the incarnation. *)
Record names_current (r : IdentityReader) (f : IngressFrame) (incarnationID : string) (res : Reservation) (cur : CurrentBinding) : Prop := {
  nc_reservation : Get r (ev_ReservationID (fr_Envelope f)) = Ok res /\ rs_State res = "activated" /\ rs_AgentID res = ev_SubjectAgentID (fr_Envelope f);
  nc_current : GetCurrent r (ev_SubjectAgentID (fr_Envelope f)) = Ok cur /\ cb_State cur = "active";
  nc_source : fr_SourceID f = "task/" +:+ ev_SubjectAgentID (fr_Envelope f) /\ fr_SourceEpoch f = incarnationID;
  nc_binding : cb_IncarnationID cur = incarnationID /\ cb_ReservationID cur = ev_ReservationID (fr_Envelope f)
    /\ cb_IncarnationGeneration cur = ev_IncarnationGeneration (fr_Envelope f) /\ cb_BindingVersion cur = ev_BindingVersion (fr_Envelope f)
    /\ cb_BindingDigest cur = ev_BindingDigest (fr_Envelope f) /\ cb_SourceFenceRef cur = ev_SourceFenceRef (fr_Envelope f);
}.

Lemma fence_names_current r f incarnationID : reader_keys r -> VerifyIngressFrameFence r f = Ok tt -> ev_IncarnationID (fr_Envelope f) = Some incarnationID ->
  exists res cur, names_current r f incarnationID res cur.
Proof.
  intros [K1 K2] Hv Hinc. unfold VerifyIngressFrameFence, validateSourceEnvelopeBinding, VerifyEventFence, matchReservationEnvelope, verifyBoundEventFence, lookup_error in Hv.
  rewrite Hinc in Hv. go_ok.
  repeat match goal with H : map_err _ _ = Ok _ |- _ => apply map_err_Ok in H end.
  unfold incarnationMatchesEnvelope, incarnationReservationMatches, incarnationFenceMatches, currentBindingMatchesEnvelope, currentIdentityMatches, currentFenceMatches,
    currentReservationGenerationMatches, currentIncarnationGenerationMatches, currentBindingVersionMatches, currentBindingDigestMatches in *. go_bool.
  assert (Hag : rs_AgentID x0 = ev_RootAgentID (fr_Envelope f)).
  { destruct (String.eqb_spec (rs_AgentID x0) (ev_RootAgentID (fr_Envelope f))) as [|Hne]; [done|]. cbn [negb] in H1. rewrite orb_true_r in H1. discriminate. }
  pose proof (K1 _ _ H0). pose proof (K2 _ _ H2). exists x0, x4. split; split_and!; congruence.
Qed.

(** Two frames of running agents that pass the fence at the same time, of the same agent,
    are of one stream up to the lane, and carry the same fence. *)
Lemma fence_one_stream r f f' i i' : reader_keys r -> VerifyIngressFrameFence r f = Ok tt -> VerifyIngressFrameFence r f' = Ok tt ->
  ev_IncarnationID (fr_Envelope f) = Some i -> ev_IncarnationID (fr_Envelope f') = Some i' -> ev_SubjectAgentID (fr_Envelope f) = ev_SubjectAgentID (fr_Envelope f') ->
  fr_SourceID f = fr_SourceID f' /\ fr_SourceEpoch f = fr_SourceEpoch f' /\ ev_ReservationID (fr_Envelope f) = ev_ReservationID (fr_Envelope f')
  /\ ev_BindingVersion (fr_Envelope f) = ev_BindingVersion (fr_Envelope f').
Proof.
  intros K V V' Hi Hi' Hag. destruct (fence_names_current _ _ _ K V Hi) as (res & cur & [_ [C1 _] [S1 S2] B]). destruct (fence_names_current _ _ _ K V' Hi') as (res' & cur' & [_ [C1' _] [S1' S2'] B']).
  rewrite <- Hag in C1'. assert (cur' = cur) as -> by congruence. split_and!; [congruence|..]; destruct B as (? & ? & ? & ? & _), B' as (? & ? & ? & ? & _); congruence.
Qed.

(** An agent whose reservation is active has no stream beside the one of its incarnation. *)
Lemma fence_unbound_not_active r f res : VerifyIngressFrameFence r f = Ok tt -> ev_IncarnationID (fr_Envelope f) = None -> Get r (ev_ReservationID (fr_Envelope f)) = Ok res ->
  rs_State res <> "activated" /\ HasPrefix (fr_SourceID f) "task/" = false.
Proof.
  intros Hv Hinc Hg. unfold VerifyIngressFrameFence, validateSourceEnvelopeBinding, VerifyEventFence, matchReservationEnvelope in Hv. rewrite Hinc, Hg in Hv. cbn [lookup_error map_err mbind] in Hv.
  destruct (HasPrefix (fr_SourceID f) "task/"); [discriminate|]. split; [|done]. cbn in Hv. destruct (_ || _ || _ || _); [discriminate|].
  intros Hst. rewrite Hst in Hv. discriminate.
Qed.

Section history.
Context `{EC : EventCodec} `{EE : EventEnv}.

(** The appends of a history use the identity fence. *)
Definition fenced (reader : nat -> IdentityReader) (o : event_op) : Prop :=
  match o with
  | OpAppend v _ | OpAppendTx v _ | OpAllocated v _ _ _ | OpEnvelope v _ _ _ => v = IdentityFenceVerifier reader
  | _ => True
  end.

(** C34: With the identity fence in front of every way to append, an event of a running agent
    is in a log only if, at some time, the identity store had for its agent an active
    binding of exactly the incarnation, the generation, the binding version and the digest
    that the event carries and the reservation was active; and the log is the one of that
    agent and that incarnation, so no event of an agent can be put on the stream of
    another. *)
Theorem logged_task_event_was_current reader os i k e incarnationID :
  (forall j, reader_keys (reader j)) -> (forall o, o ∈ os -> fenced reader o) ->
  e ∈ log (e_tables (run_ops os (mkEDB no_rows i)).2) k -> ev_IncarnationID (fr_Envelope (ae_Frame e)) = Some incarnationID ->
  k.1 = ("task/" +:+ ev_SubjectAgentID (fr_Envelope (ae_Frame e)), incarnationID)
  /\ exists j res cur, names_current (reader j) (ae_Frame e) incarnationID res cur.
Proof.
  intros K Hos He Hinc. destruct (logged_checked os i k e He) as (Hk & o & Ho & Hen).
  assert (exists j, VerifyIngressFrameFence (reader j) (ae_Frame e) = Ok tt) as [j Hv].
  { specialize (Hos o Ho). destruct o; cbn in Hos, Hen; try done; subst verifier; destruct Hen as (_ & _ & j & Hj); exists j;
      destruct (VerifyIngressFrameFence (reader j) (ae_Frame e)) as [[]|]; done. }
  destruct (fence_names_current _ _ _ (K j) Hv Hinc) as (res & cur & N). split; [|eauto].
  destruct (nc_source _ _ _ _ _ N) as [S1 S2]. rewrite <- Hk. cbn. by rewrite S1, S2.
Qed.
End history.
