(* ===== verification/IdentityFence.v ===== *)
(** * The identity store behind the fence of the event store

    The verifier of [EventFence] reads the identity store through an interface.  Here the
    tables of [IdentityStore] implement it, and the two stores are put together: once an
    incarnation is released, no event of it gets in any more. *)

From S2P Require Import Prelude GoStrings WakeupLease EventContract IdentityStore IdentityOps IdentitySteps IdentityInvariant IdentityHistory EventStore EventLog EventAppend EventHistory EventFence.

Definition read {A} (m : IM A) (t : itables) : result error A := fst <$> m t.

(** [GetWithDBTX], [GetIncarnationWithDBTX] and [GetCurrentWithDBTX] on the tables. *)
Definition store_reader (t : itables) : IdentityReader :=
  mkReader (fun id => read (GetWithDBTX id) t) (fun id => read (GetIncarnationWithDBTX id) t) (fun agent => read (GetCurrentWithDBTX agent) t).

Lemma read_Ok {A} (m : IM A) t a : read m t = Ok a -> exists t', m t = Ok (a, t').
Proof. unfold read. destruct (m t) as [[x t']|]; [|done]. intros [= <-]. eauto. Qed.

(** What the fence needs of the identity store. *)
Lemma store_reader_keys t : reader_keys (store_reader t).
Proof.
  split; intros id x; cbn; intros (t' & H)%read_Ok; unfold GetWithDBTX, GetIncarnationWithDBTX, GetReservationRow, GetIncarnationRow in H; im_ok; same_rows;
    match goal with Hf : List.find _ _ = Some _ |- _ => by apply find_key in Hf as [_ ?] end.
Qed.

Lemma current_read t a b : EventFence.GetCurrent (store_reader t) a = Ok b -> newest (bindings_of a t) = Some b.
Proof. cbn. intros (t' & H)%read_Ok. unfold GetCurrentWithDBTX, GetCurrentRow in H. im_ok. same_rows. done. Qed.

(** An incarnation that was released is never bound again. *)
Lemma released_never_bound t ops a v g i b c : reachable t -> valid_agent a -> agent_view a t = Released v g i ->
  newest (bindings_of b (identity_history ops t)) = Some c -> cb_State c = "active" -> cb_IncarnationID c <> i.
Proof.
  intros Hre Ha Hview Hn Hact Hi. pose proof (reachable_iok t Hre) as Hok. pose proof (history_iok ops t Hok) as Hok'. pose proof (history_grows ops t Hok) as [_ _ _ HB].
  rewrite agent_view_newest in Hview by done. destruct (newest (bindings_of a t)) as [r|] eqn:En; [|done]. unfold state_of_row in Hview.
  destruct (String.eqb_spec (cb_State r) "active") as [|Hnact]; [done|]. injection Hview as Hv Hg Hri. set (t' := identity_history ops t) in *.
  destruct (newest_agent _ _ _ En) as [Hr Hra]. assert (Hr' : r ∈ it_bindings t') by (destruct HB as [k ->]; apply elem_of_app; by left).
  destruct (newest_agent _ _ _ Hn) as [Hc Hca].
  assert (Hag : cb_AgentID c = cb_AgentID r).
  { destruct (ik_bind _ Hok' c Hc) as (q1 & i1 & Hq1 & Hi1 & O1 & (_ & A1 & _ & I1 & _) & _), (ik_bind _ Hok' r Hr') as (q2 & i2 & Hq2 & Hi2 & O2 & (_ & A2 & _ & I2 & _) & _).
    assert (i1 = i2) as -> by (apply (same_key in_IncarnationID (it_incarnations t')); [apply Hok'|done..|congruence]). destruct O1 as (_ & O1 & _), O2 as (_ & O2 & _). congruence. }
  pose proof (incarnation_generation t' c r Hok' Hc Hr' ltac:(congruence)) as Hgen.
  pose proof (binding_log_facts _ (ik_logs _ Hok' b)) as L. destruct (last_is_newest _ _ L Hn) as [Hl _].
  assert (Hrb : r ∈ bindings_of b t') by (apply elem_of_bindings; split; [done|congruence]). apply list_elem_of_lookup in Hrb as [k Hk]. pose proof (lookup_lt_Some _ _ _ Hk).
  destruct (decide (k = length (bindings_of b t') - 1)) as [->|]; [congruence|].
  destruct (lf_generation _ L k (length (bindings_of b t') - 1) r c ltac:(lia) Hk Hl) as [_ Hlt]. specialize (Hlt Hact). lia.
Qed.

(** An event of a released incarnation does not pass the fence. *)
Lemma released_is_fenced t ops a v g i f : reachable t -> valid_agent a -> agent_view a t = Released v g i ->
  ev_IncarnationID (fr_Envelope f) = Some i -> VerifyIngressFrameFence (store_reader (identity_history ops t)) f <> Ok tt.
Proof.
  intros Hre Ha Hview Hinc Hok. destruct (fence_names_current _ _ _ (store_reader_keys _) Hok Hinc) as (res & cur & [_ [Hc Hact] _ [Hi _]]).
  by eapply released_never_bound; [..|exact (current_read _ _ _ Hc)|exact Hact|exact Hi].
Qed.

Section silence.
Context `{EC : EventCodec} `{EE : EventEnv}.

(** C32: Releasing an incarnation shuts its events out for good, across both stores.  Let an
    agent be released in the identity store, and let everything that is appended to the event
    store afterwards go through the identity fence, which reads the identity store in states
    that came later, whatever was done to it, new bindings of the agent included.  Then every event that names
    the released incarnation and that the event store holds in the end was received
    before: no later frame of it is stored, staged or logged, on any stream. *)
Theorem released_incarnation_is_silent ids t a v g i os1 os2 n key r :
  reachable t -> valid_agent a -> agent_view a t = Released v g i ->
  (forall j, exists ops, ids j = identity_history ops t) -> (forall o, o ∈ os2 -> fenced (fun j => store_reader (ids j)) o) ->
  e_receipts (e_tables (run_ops os2 (run_ops os1 (mkEDB no_rows n)).2).2) !! key = Some r -> ev_IncarnationID (fr_Envelope (rc_Frame r)) = Some i ->
  exists r0, e_receipts (e_tables (run_ops os1 (mkEDB no_rows n)).2) !! key = Some r0 /\ rc_Frame r0 = rc_Frame r.
Proof.
  intros Hre Ha Hview Hids Hos Hr Hinc. pose proof (run_ops_ok os1 (mkEDB no_rows n) empty_ok) as Hok. destruct (run_ops os1 _) as [reports s1]. destruct Hok as [Hok _]. cbn [snd] in *.
  destruct (run_ops_entered os2 s1 key r Hok Hr) as [(r0 & Hr0 & E)|(o & Ho & Hen)]; [eauto|]. exfalso.
  assert (exists j, VerifyIngressFrameFence (store_reader (ids j)) (rc_Frame r) = Ok tt) as [j Hv].
  { specialize (Hos o Ho). destruct o; cbn in Hos, Hen; try done; subst verifier; destruct Hen as (_ & _ & j & Hj); exists j;
      destruct (VerifyIngressFrameFence (store_reader (ids j)) (rc_Frame r)) as [[]|]; done. }
  destruct (Hids j) as [ops E]. rewrite E in Hv. by eapply released_is_fenced.
Qed.
End silence.
