(* ===== verification/EventDelivery.v ===== *)
(** * Delivery in any order

    When nothing fails, the frames of a stream of data may arrive in any order and any
    number of times: once each has arrived, the log of the stream has them all, in the
    order of their source, and the stream waits for nothing.  The bound is the one of a
    drain, [maxEventDrain]. *)

From S2P Require Import Prelude GoStrings WakeupLease EventContract EventStore EventLog EventAppend EventHistory.

(** ** States that pass the checks *)

Definition gap_reasons_ok : bool :=
  forallb (fun n => let z := Z.of_nat n in
    match validateText "gap_reason" ("missing source sequence before " +:+ pretty z) 512 true, validateText "gap_reason" ("missing source sequence at " +:+ pretty z) 512 true with
    | Ok _, Ok _ => true | _, _ => false end) (seq 1 1025).

Lemma gap_reasons_valid : gap_reasons_ok = true.
Proof. vm_compute. reflexivity. Qed.

Lemma gap_reason_valid n : (1 <= n <= 1025)%Z ->
  validateText "gap_reason" ("missing source sequence before " +:+ pretty n) 512 true = Ok tt /\ validateText "gap_reason" ("missing source sequence at " +:+ pretty n) 512 true = Ok tt.
Proof.
  intros Hn. pose proof gap_reasons_valid as H. unfold gap_reasons_ok in H. rewrite forallb_true_iff, Forall_forall in H.
  specialize (H (Z.to_nat n)). rewrite elem_of_seq in H. specialize (H ltac:(lia)). cbv beta zeta in H. rewrite Z2Nat.id in H by lia.
  destruct (validateText _ _ _ _) as [[]|]; [|done]. destruct (validateText _ _ _ _) as [[]|]; done.
Qed.

(** ** A stream of frames *)

Section delivery.
Context `{EC : EventCodec} `{EE : EventEnv}.

(** [F] are the frames of stream [k], in order, from one writer. *)
Record stream_of (k : skey) (w : string) (F : list IngressFrame) : Prop := {
  so_frame j f : F !! j = Some f -> receiptKey f = (k, Z.of_nat j + 1)%Z /\ ev_WriterEpoch (fr_Envelope f) = w;
  so_valid f : f ∈ F -> Frame_Validate f = Ok tt /\ validateCanonicalEnvelopeHash f = Ok tt;
  so_ids : NoDup ((fun f => ev_EventID (fr_Envelope f)) <$> F);
  so_lane : k.2 <> LaneControl;
  so_length : length F <= maxEventDrain;
}.

(** The tables know nothing of the source and of the events. *)
Record room_for (k : skey) (F : list IngressFrame) (t : tables) : Prop := {
  rf_ok : tables_ok t;
  rf_source k' : is_Some (e_states t !! k') -> k'.1.1 <> k.1.1;
  rf_id key r f : e_receipts t !! key = Some r -> f ∈ F -> receipt_event_id r <> ev_EventID (fr_Envelope f);
}.

(** The fence lets the frame pass. *)
Definition accepts (v : FenceVerifier) (f : IngressFrame) : Prop :=
  match v with
  | VerifierTx verify => forall i, verify i f = None
  | FrameVerifier verify => ev_IncarnationID (fr_Envelope f) = None /\ forall i, verify i f = None
  | EnvelopeVerifier verify => ev_IncarnationID (fr_Envelope f) = None /\ forall i, verify i (fr_Envelope f) = None
  end.

Context (k : skey) (w : string) (F : list IngressFrame) (HF : stream_of k w F).
Context (Hfault : forall i, fault i = None) (Hident : forall f, identity_rows f = true).

Local Abbreviation never := (fun _ : tables => False).

Lemma calm_never : calm never.
Proof. by right. Qed.

Lemma allowed_never t : allowed never t.
Proof. by left. Qed.

Lemma validateFrameKey_tuple f : Frame_Validate f = Ok tt ->
  validateText "source_id" (fr_SourceID f) 256 false = Ok tt /\ validateText "source_epoch" (fr_SourceEpoch f) 128 false = Ok tt
  /\ validLane (fr_Lane f) = true /\ validateText "writer_epoch" (ev_WriterEpoch (fr_Envelope f)) 128 false = Ok tt.
Proof.
  unfold Frame_Validate, validateFrameKey, CanonicalCursor, validateSourceTuple, Envelope_Validate, validateEnvelopeText. intros H. cbn [all_ok] in H.
  go_ok. repeat match goal with u : unit |- _ => destruct u end. auto.
Qed.

(** A state of the stream that the checks accept. *)
Lemma state_valid n m status reason rev : F <> [] -> (0 <= m)%Z -> n = (m + 1)%Z -> (1 <= rev)%Z ->
  knownSourceStatus status = true -> validateText "gap_reason" reason 512 true = Ok tt -> (status = "gap" -> reason <> EmptyString) ->
  let st := mkState k.1.1 k.1.2 k.2 n m 0 rev status reason w in sourceStateFromRow st = Ok st.
Proof.
  intros Hne Hm -> Hrev Hs Hr Hg st. destruct F as [|f F'] eqn:EF; [done|].
  destruct (so_frame _ _ _ HF 0 f eq_refl) as [Hk Hw]. destruct (so_valid _ _ _ HF f ltac:(by left)) as [Hv _].
  destruct (validateFrameKey_tuple f Hv) as (V1 & V2 & V3 & V4). unfold receiptKey, frame_skey in Hk. injection Hk as Hk _.
  unfold sourceStateFromRow, validateSourceStateIdentity, validateSourceStateWatermarks, st.
  cbn [st_SourceID st_SourceEpoch st_Lane st_NextSequence st_MaterializedSequence st_DedupFloor st_Revision st_Status st_GapReason st_WriterEpoch].
  rewrite <- Hk, <- Hw. cbn [fst snd]. rewrite V1, V2, V3, V4, Hs, Hr. cbn [mbind guard_err andb].
  destruct (Z.ltb_spec (m + 1) 1); [lia|]. destruct (Z.ltb_spec m 0); [lia|]. destruct (Z.ltb_spec rev 1); [lia|].
  destruct (Z.leb_spec (m + 1) m); [lia|]. rewrite Z.eqb_refl. cbn [orb negb Z.ltb Z.compare].
  destruct (String.eqb_spec status "gap") as [->|]; [|done]. destruct (String.eqb_spec reason EmptyString); [by destruct (Hg eq_refl) | done].
Qed.

(** The rows of the stream, when the frames [D] have arrived. *)
Record rows_of (D : list IngressFrame) (t : tables) (st : SourceState) : Prop := {
  ro_ok : tables_ok t;
  ro_st : e_states t !! k = Some st;
  ro_writer : st_WriterEpoch st = w;
  ro_rev : (1 <= st_Revision st)%Z;
  ro_floor : st_DedupFloor st = 0%Z;
  ro_status : st_Status st = "active" \/ st_Status st = "gap";
  ro_row n r : e_receipts t !! (k, n) = Some r ->
    rc_Frame r ∈ F /\ rc_ErrorRef r = EmptyString /\ rc_Status r = if decide (n <= st_MaterializedSequence st)%Z then "materialized" else "staged";
  ro_in f : f ∈ D -> exists r, e_receipts t !! receiptKey f = Some r /\ rc_Frame r = f;
  ro_id key r f : key.1 <> k -> e_receipts t !! key = Some r -> f ∈ F -> receipt_event_id r <> ev_EventID (fr_Envelope f);
}.

(** Nothing more can be materialised. *)
Record settled (t : tables) (st : SourceState) : Prop := {
  se_valid : sourceStateFromRow st = Ok st;
  se_next : ~ staged_at t k (st_NextSequence st);
  se_done : (forall n, ~ staged_at t k n) -> st_Status st = "active";
}.

Lemma frame_at f : f ∈ F -> exists j, F !! j = Some f /\ receiptKey f = (k, Z.of_nat j + 1)%Z /\ j < maxEventDrain /\ frame_skey f = k /\ ev_WriterEpoch (fr_Envelope f) = w.
Proof.
  intros [j Hj]%list_elem_of_lookup. destruct (so_frame _ _ _ HF j f Hj) as [Hk Hw]. exists j. pose proof (lookup_lt_Some _ _ _ Hj). pose proof (so_length _ _ _ HF).
  split_and!; [done|done|lia|exact (f_equal fst Hk)|done].
Qed.

Lemma same_event_id f f' : f ∈ F -> f' ∈ F -> ev_EventID (fr_Envelope f) = ev_EventID (fr_Envelope f') -> f = f'.
Proof. intros H1 H2. exact (same_key _ F f f' (so_ids _ _ _ HF) H1 H2). Qed.

Lemma row_frame D t st f r : rows_of D t st -> f ∈ F -> e_receipts t !! receiptKey f = Some r -> rc_Frame r = f.
Proof.
  intros R Hf Hr. destruct (frame_at f Hf) as (j & Hj & Hk & _). rewrite Hk in Hr. destruct (ro_row _ _ _ R _ _ Hr) as (Hin & _).
  destruct (frame_at _ Hin) as (j' & Hj' & Hk' & _). destruct (lo_receipt _ _ (ok_logs _ (ro_ok _ _ _ R)) _ _ _ Hr) as (Hk2 & _).
  rewrite Hk' in Hk2. injection Hk2 as Hjj. assert (j' = j) as -> by lia. congruence.
Qed.

Lemma rows_fines D t st : rows_of D t st -> fines never t k.
Proof.
  intros R n r Hr. destruct (ro_row _ _ _ R _ _ Hr) as (Hin & -> & _). split; [right; by apply (so_valid _ _ _ HF) | left; cbn; lia].
Qed.

Lemma staged_bound D t st n : rows_of D t st -> staged_at t k n -> (st_MaterializedSequence st < n <= 1024)%Z.
Proof.
  intros R (r & Hr & Hs). destruct (ro_row _ _ _ R _ _ Hr) as (Hin & _ & Hst). destruct (frame_at _ Hin) as (j & _ & Hk & Hj & _).
  destruct (lo_receipt _ _ (ok_logs _ (ro_ok _ _ _ R)) _ _ _ Hr) as (Hk2 & _). rewrite Hk in Hk2. injection Hk2 as Hjj.
  rewrite Hs in Hst. case_decide; [done|]. unfold maxEventDrain in Hj. lia.
Qed.

Lemma rows_status D t st status reason : rows_of D t st -> (status = "active" \/ status = "gap") ->
  rows_of D (put_state k (state_after st (st_NextSequence st) (st_MaterializedSequence st) (st_DedupFloor st) status reason) t)
    (state_after st (st_NextSequence st) (st_MaterializedSequence st) (st_DedupFloor st) status reason).
Proof.
  intros R Hs. pose proof R as [Hok Hst Hw Hrev Hfl Hst0 Hrow Hin Hid]. split; cbn; try done; try lia.
  - apply (g_ok (fun _ => True) k [] t). apply grows_to_status; [done|done|]. by destruct Hst0 as [-> | ->].
  - apply lookup_insert_eq.
Qed.

(** A frame of its own arrives. *)
Lemma rows_stage D t st f : rows_of D t st -> f ∈ F -> e_receipts t !! receiptKey f = None -> fresh_id f t /\ rows_of (f :: D) (stage f t) st.
Proof.
  intros R Hf Hno. destruct (frame_at f Hf) as (j & _ & Hk & _ & Hsk & _). pose proof R as [Hok Hst Hw Hrev Hfl Hst0 Hrow Hin Hid].
  destruct (ok_state _ (ok_rest _ Hok) _ _ Hst) as [_ [Hwm _]].
  assert (Hn : (st_MaterializedSequence st < fr_SourceSequence f)%Z).
  { assert (fr_SourceSequence f = Z.of_nat j + 1)%Z as Hs by exact (f_equal snd Hk). destruct (decide (fr_SourceSequence f <= st_MaterializedSequence st)%Z) as [Hle|]; [|lia].
    exfalso. destruct (lo_dense _ _ (ok_logs _ Hok) k (Z.of_nat j + 1)%Z (st_MaterializedSequence st)) as [r Hr]; [unfold lengths; by rewrite lookup_fmap, Hst|lia|].
    rewrite Hk in Hno. congruence. }
  assert (Hfresh : fresh_id f t).
  { apply existsb_rows. intros [k' n] r Hr. cbn. apply String.eqb_neq. intros Heq. destruct (decide (k' = k)) as [->|Hne]; [|by apply (Hid (k', n) r f)].
    destruct (Hrow _ _ Hr) as (HinF & _). assert (rc_Frame r = f) as E by (by apply same_event_id). destruct (lo_receipt _ _ (ok_logs _ Hok) _ _ _ Hr) as (Hkk & _).
    rewrite E in Hkk. congruence. }
  split; [done|]. split; try done.
  - apply (g_ok (fun _ => True) k [] t). apply (grows_stage _ k f st); try done. lia.
  - intros n r. cbn. rewrite lookup_insert_Some. intros [[Heq <-]|[_ Hr]]; [|by apply Hrow]. cbn. split_and!; [done|done|].
    assert (n = fr_SourceSequence f) as -> by (unfold receiptKey in Heq; congruence). by rewrite decide_False by lia.
  - intros f'. rewrite elem_of_cons. intros [->|Hf']; cbn; [rewrite lookup_insert_eq; eauto|]. destruct (Hin f' Hf') as (r & Hr & Hfr). exists r.
    split; [|done]. rewrite lookup_insert_ne; [done|]. intros Heq. congruence.
  - intros key r f' Hkey. cbn. rewrite lookup_insert_Some. intros [[<- <-]|[_ Hr]]; [by destruct Hkey | by apply (Hid key)].
Qed.

Lemma staged_after_spec t n : staged_after t k n = true <-> exists n', (n <= n')%Z /\ staged_at t k n'.
Proof.
  unfold staged_after. rewrite existsb_exists. split.
  - intros ([[k' n'] r] & Hr%list_elem_of_In%elem_of_map_to_list & Hb). cbn in Hb. go_bool. unfold is_staged in *. go_bool.
    match goal with H : bool_decide _ = true |- _ => apply bool_decide_eq_true in H as -> | H : k' = k |- _ => subst k' end. exists n'. split; [lia | by exists r].
  - intros (n' & Hn & r & Hr & Hs). exists ((k, n'), r). rewrite <- list_elem_of_In, elem_of_map_to_list. split; [done|]. cbn.
    rewrite bool_decide_true by done. unfold is_staged. rewrite Hs. apply Z.leb_le in Hn. by rewrite Hn.
Qed.

Lemma tail_status_spec t n : ~ staged_at t k n ->
  tail_status t k n = ("active", EmptyString) \/ (tail_status t k n = ("gap", "missing source sequence at " +:+ pretty n) /\ exists n', (n <= n')%Z /\ staged_at t k n').
Proof.
  intros Hno. unfold tail_status. destruct (staged_row t k n) eqn:Hr; [by apply staged_rowP in Hr|].
  destruct (staged_after t k n) eqn:Ha; [right; by rewrite <- staged_after_spec | by left].
Qed.

Lemma state_after_valid t st n m status reason : F <> [] -> tables_ok t -> e_states t !! k = Some st -> st_WriterEpoch st = w -> (1 <= st_Revision st)%Z ->
  st_DedupFloor st = 0%Z -> (0 <= m)%Z -> n = (m + 1)%Z -> knownSourceStatus status = true -> validateText "gap_reason" reason 512 true = Ok tt ->
  (status = "gap" -> reason <> EmptyString) ->
  let st' := state_after st n m (st_DedupFloor st) status reason in sourceStateFromRow st' = Ok st'.
Proof.
  intros HFne Hok Hst Hw Hrev Hfl Hm -> H1 H2 H3 st'. destruct (ok_state _ (ok_rest _ Hok) _ _ Hst) as [Hk _]. unfold st', state_after. rewrite Hw, Hfl.
  replace (st_SourceID st) with k.1.1 by (by rewrite <- Hk). replace (st_SourceEpoch st) with k.1.2 by (by rewrite <- Hk).
  replace (st_Lane st) with k.2 by (by rewrite <- Hk). apply state_valid; try done; lia.
Qed.

(** A run of staged receipts stays within the frames. *)
Lemma run_bound D t st new : rows_of D t st -> staged_run t k (st_NextSequence st) new -> (st_NextSequence st + Z.of_nat (length new) <= 1025)%Z \/ new = [].
Proof.
  intros R Hrun. destruct new as [|e new]; [by right|left].
  destruct (lookup_lt_is_Some_2 (e :: new) (length new) ltac:(cbn; lia)) as [x Hx]. destruct (staged_run_lookup _ _ _ _ _ _ Hrun Hx) as (r & Hr & Hs & _).
  pose proof (staged_bound _ _ _ (st_NextSequence st + Z.of_nat (length new))%Z R ltac:(by exists r)). cbn [length]. lia.
Qed.

Lemma drained_valid D t st new : F <> [] -> rows_of D t st -> staged_run t k (st_NextSequence st) new -> new <> [] ->
  sourceStateFromRow (drained_state t k st new) = Ok (drained_state t k st new).
Proof.
  intros HFne R Hrun Hne. destruct (run_bound _ _ _ _ R Hrun) as [Hb|]; [|done]. destruct R as [Hok Hst Hw Hrev Hfl _ _ _ _].
  destruct (ok_state _ (ok_rest _ Hok) _ _ Hst) as [Hk [Hwm Hf]]. unfold drained_state.
  assert (Hrow : forall status reason, knownSourceStatus status = true -> validateText "gap_reason" reason 512 true = Ok tt -> (status = "gap" -> reason <> EmptyString) ->
    let st' := state_after st (st_NextSequence st + Z.of_nat (length new)) (st_MaterializedSequence st + Z.of_nat (length new)) (st_DedupFloor st) status reason in
    sourceStateFromRow st' = Ok st').
  { intros status reason H1 H2 H3. apply (state_after_valid t); try done; lia. }
  unfold tail_status. destruct (gap_reason_valid (st_NextSequence st + Z.of_nat (length new))%Z ltac:(lia)) as [_ Hgap].
  destruct (staged_row _ _ _); [by apply Hrow|]. destruct (staged_after _ _ _); [|by apply Hrow]. apply Hrow; [done|exact Hgap|done].
Qed.

Lemma rows_drain D t st new : F <> [] -> rows_of D t st -> staged_run t k (st_NextSequence st) new -> new <> [] ->
  (length new = maxEventDrain \/ ~ staged_at t k (st_NextSequence st + Z.of_nat (length new))) ->
  rows_of D (drained t k st new) (drained_state t k st new) /\ settled (drained t k st new) (drained_state t k st new).
Proof.
  intros HFne R Hrun Hne Hend. pose proof (drained_valid _ _ _ _ HFne R Hrun Hne) as Hval.
  assert (Hstop : ~ staged_at t k (st_NextSequence st + Z.of_nat (length new))).
  { destruct Hend as [Hl|]; [|done]. intros Hs. pose proof (staged_bound _ _ _ _ R Hs). destruct (ok_state _ (ok_rest _ (ro_ok _ _ _ R)) _ _ (ro_st _ _ _ R)) as [_ [Hwm Hfl]].
    rewrite Hl in *. unfold maxEventDrain in *. lia. }
  pose proof R as [Hok Hst Hw Hrev Hfl Hst0 Hrow Hin Hid]. destruct (ok_state _ (ok_rest _ Hok) _ _ Hst) as [Hk [Hwm Hf]].
  assert (Hh : halted (st_Status st) = false) by (by destruct Hst0 as [-> | ->]).
  assert (HLk : lengths t !! k = Some (st_NextSequence st - 1)%Z) by (unfold lengths; rewrite lookup_fmap, Hst; cbn; f_equal; lia).
  destruct (marks_ok _ _ _ _ _ (ok_logs _ Hok) HLk ltac:(lia) Hrun) as (_ & _ & Hmk).
  assert (Hstop' : ~ staged_at (marks new t) k (st_NextSequence st + Z.of_nat (length new))).
  { intros (r & Hr & Hs). apply Hstop. exists r. split; [|done]. rewrite <- Hr. symmetry. apply (mk_out _ _ _ _ _ Hmk (k, _)). right. right. cbn. lia. }
  assert (Hcase : exists status reason, drained_state t k st new
      = state_after st (st_NextSequence st + Z.of_nat (length new)) (st_MaterializedSequence st + Z.of_nat (length new)) (st_DedupFloor st) status reason
    /\ (status = "active" \/ status = "gap" /\ exists n', staged_at (marks new t) k n')).
  { unfold drained_state. destruct (tail_status_spec _ _ Hstop') as [->|[-> (n' & _ & Hn')]]; eauto 10. }
  unfold drained. destruct Hcase as (status & reason & E & Hstatus). rewrite E in *. split; split; cbn; try done; try lia.
  - apply (g_ok (fun _ => True) k new t). by eapply grows_drain.
  - apply lookup_insert_eq.
  - destruct Hstatus as [?|[? _]]; auto.
  - intros n r Hr. destruct (decide (st_NextSequence st <= n < st_NextSequence st + Z.of_nat (length new))%Z) as [Hd|Hd].
    + destruct (lookup_lt_is_Some_2 new (Z.to_nat (n - st_NextSequence st)) ltac:(lia)) as [e He]. pose proof (mk_in _ _ _ _ _ Hmk _ _ He) as Hr'.
      destruct (staged_run_lookup _ _ _ _ _ _ Hrun He) as (r0 & Hr0 & _ & ->). replace (st_NextSequence st + Z.of_nat (Z.to_nat (n - st_NextSequence st)))%Z with n in * by lia.
      assert (r = mkReceipt (rc_Frame r0) "materialized" EmptyString) as -> by (cbn in Hr'; congruence). destruct (Hrow _ _ Hr0) as (HinF & _). cbn.
      split_and!; [done|done|]. by rewrite decide_True by lia.
    + destruct (mk_out _ _ _ _ _ Hmk (k, n)) as [Hsame _]; [right; cbn; lia|]. rewrite Hsame in Hr. destruct (Hrow _ _ Hr) as (H1 & H2 & ->). split_and!; [done|done|].
      repeat case_decide; try done; lia.
  - intros f Hf'. destruct (Hin f Hf') as (r & Hr & Hfr). destruct (marked_receipt _ _ _ _ _ (receiptKey f) Hmk Hrun) as [->|(r0 & Hr0 & _ & ->)]; [eauto|].
    eexists. split; [done|]. cbn. congruence.
  - intros key r f Hkey. destruct (mk_out _ _ _ _ _ Hmk key ltac:(by left)) as [-> _]. by apply Hid.
  - intros Hall. destruct Hstatus as [?|[_ (n' & Hn')]]; [done|]. by destruct (Hall n').
Qed.

(** ** One delivery *)

Local Abbreviation done_with f D := (fun (_ : Appended) t' => exists st, rows_of (f :: D) t' st /\ settled t' st).

Lemma wp_replay D t st f r : rows_of D t st -> settled t st -> f ∈ F -> e_receipts t !! receiptKey f = Some r ->
  wp (appendExistingReceiptCollect st f r) (done_with f D) never t.
Proof.
  intros R S Hf Hr. pose proof (row_frame _ _ _ _ _ R Hf Hr) as Hfr. destruct (frame_at f Hf) as (j & _ & Hk & _ & Hsk & _).
  assert (Hdone : done_with f D (mkAppended no_result None []) t).
  { exists st. split; [|done]. destruct R. split; try done. intros f'. rewrite elem_of_cons. intros [->|?]; eauto. }
  pose proof Hr as Hr'. rewrite Hk in Hr'. destruct (ro_row _ _ _ R _ _ Hr') as (HinF & Hnoref & Hstatus). destruct (rows_fines _ _ _ R _ _ Hr') as [Hfine _].
  pose proof (ok_logs _ (ro_ok _ _ _ R)) as HL.
  unfold appendExistingReceiptCollect. apply wp_bind, wp_receiptFromRow; [done | by eapply known_status | left; rewrite Hnoref; cbn; lia |].
  rewrite Hfr, String.eqb_refl. cbn [negb]. rewrite Hstatus. destruct (lo_receipt _ _ HL _ _ _ Hr') as (_ & _ & m & Hm & Ho).
  assert (m = st_MaterializedSequence st) as -> by (unfold lengths in Hm; rewrite lookup_fmap, (ro_st _ _ _ R) in Hm; by injection Hm).
  unfold receipt_ok in Ho. case_decide as Hle.
  - cbn [String.eqb Ascii.eqb Bool.eqb]. destruct Ho as [He _]. unfold replayMaterialized. apply wp_bind, wp_query; [apply allowed_never|].
    destruct (List.find _ _) as [e|] eqn:Hfind.
    + apply find_some in Hfind as [Hin Hid]. apply String.eqb_eq in Hid. rewrite <- list_elem_of_In, list_elem_of_fmap in Hin.
      destruct Hin as ([[k' n'] e'] & -> & He'%elem_of_map_to_list). cbn [snd] in *. destruct (event_row _ _ HL _ _ _ He') as (r2 & m2 & Hr2 & -> & _).
      assert ((k', n') = (k, Z.of_nat j + 1)%Z) as Hkey by (apply (lo_id _ _ HL _ _ r2 r); done). injection Hkey as -> ->.
      assert (r2 = r) as -> by congruence. apply wp_bind, wp_found; [|done]. intros e' [= <-]. apply wp_bind, wp_eventFromRow; [done|].
      unfold eventMatchesReceipt. cbn [ae_Status ae_Frame]. rewrite bool_decide_true by done. cbn [negb andb String.eqb Ascii.eqb Bool.eqb]. by apply wp_ret.
    + exfalso. eapply find_none in Hfind; [|apply list_elem_of_In, list_elem_of_fmap; exists ((k, Z.of_nat j + 1)%Z, mkEvent (rc_Frame r) "materialized"); split; [reflexivity | by apply elem_of_map_to_list]].
      cbn in Hfind. unfold event_id, receipt_event_id in Hfind. cbn in Hfind. by rewrite String.eqb_refl in Hfind.
  - cbn [String.eqb Ascii.eqb Bool.eqb]. destruct (Z.eqb_spec (fr_SourceSequence f) (st_NextSequence st)) as [Hs|Hs]; cbn [negb]; [|by apply wp_ret].
    exfalso. apply (se_next _ _ S). exists r. split; [|done]. rewrite <- Hs. assert (fr_SourceSequence f = Z.of_nat j + 1)%Z as -> by exact (f_equal snd Hk). done.
Qed.

Lemma wp_first D t st f : F <> [] -> rows_of D t st -> settled t st -> f ∈ F -> e_receipts t !! receiptKey f = None -> (st_NextSequence st <= fr_SourceSequence f)%Z ->
  wp (receipt ← insertStagedReceipt f;
      if (st_NextSequence st <? fr_SourceSequence f)%Z
      then committed (markGap st receipt (fr_SourceSequence f)) receipt (sentinel ErrEventGap)
      else materializeContiguousCollect st receipt) (done_with f D) never t.
Proof.
  intros HFne R S Hf Hno Hn. destruct (rows_stage _ _ _ _ R Hf Hno) as [Hfresh R']. destruct (frame_at f Hf) as (j & _ & Hk & Hj & Hsk & _).
  destruct (so_valid _ _ _ HF f Hf) as [Hv _]. apply wp_bind, wp_insertStaged; [apply calm_never | by right | by right | done |]. intros _.
  pose proof R' as [Hok Hst Hw Hrev Hfl Hst0 Hrow Hin Hid]. destruct (ok_state _ (ok_rest _ Hok) _ _ Hst) as [Hstk [Hwm Hf0]].
  assert (Hseq : fr_SourceSequence f = (Z.of_nat j + 1)%Z) by exact (f_equal snd Hk).
  assert (Hnew : e_receipts (stage f t) !! (k, fr_SourceSequence f) = Some (mkReceipt f "staged" EmptyString)) by (rewrite Hseq, <- Hk; apply lookup_insert_eq).
  destruct (Z.ltb_spec (st_NextSequence st) (fr_SourceSequence f)) as [Hlt|Hge].
  - set (reason := "missing source sequence before " +:+ pretty (fr_SourceSequence f)).
    assert (Hval : let st' := state_after st (st_NextSequence st) (st_MaterializedSequence st) (st_DedupFloor st) "gap" reason in sourceStateFromRow st' = Ok st').
    { destruct (gap_reason_valid (fr_SourceSequence f)) as [Hg _]; [unfold maxEventDrain in Hj; lia|]. apply (state_after_valid (stage f t)); try done; lia. }
    apply wp_committed, (wp_status _ k); [done | done | by left | by left |]. eexists. split; [apply rows_status; [done | by right]|]. split; [exact Hval| |].
    + intros (r & Hr & Hs). apply (se_next _ _ S). exists r. split; [|done]. cbn in Hr. rewrite <- Hr. rewrite lookup_insert_ne; [done|]. rewrite Hk. intros [=]. lia.
    + intros Hall. exfalso. apply (Hall (fr_SourceSequence f)). by eexists.
  - assert (Heq : st_NextSequence st = fr_SourceSequence f) by lia.
    apply (wp_materializeContiguous _ k); try done; [apply calm_never | by eapply rows_fines | apply Hok | by rewrite Heq | right; intros; by eapply drained_valid |].
    intros new a Hrun Hend Hne _. eexists. by apply rows_drain.
Qed.

Lemma wp_deliver D t f : f ∈ F -> ((D = [] /\ room_for k F t) \/ exists st, rows_of D t st /\ settled t st) ->
  wp (appendEventTxCollect f) (done_with f D) never t.
Proof.
  intros Hf HJ. destruct (frame_at f Hf) as (j & _ & Hk & _ & Hsk & Hw). assert (HFne : F <> []) by (intros ->; by apply not_elem_of_nil in Hf).
  assert (Hfirst : sourceStateFromRow (first_state f) = Ok (first_state f)).
  { unfold first_state. rewrite Hw. replace (fr_SourceID f) with k.1.1 by (by rewrite <- Hsk). replace (fr_SourceEpoch f) with k.1.2 by (by rewrite <- Hsk).
    replace (fr_Lane f) with k.2 by (by rewrite <- Hsk). apply state_valid; try done; lia. }
  unfold appendEventTxCollect. apply wp_bind. eapply (wp_mono _ (fun st t' => rows_of D t' st /\ settled t' st) _ never); [|intros st t1 [R S] | done].
  { destruct HJ as [[-> Hroom]|(st & R & S)].
    - apply wp_getOrCreate; [apply calm_never | right | apply (rf_ok _ _ _ Hroom) | |]; rewrite Hsk.
      + split; [|intros _; split; [done | apply (rf_source _ _ _ Hroom)]]. intros st Hst. by destruct (rf_source _ _ _ Hroom k ltac:(by eexists)).
      + intros st Hst. by destruct (rf_source _ _ _ Hroom k ltac:(by eexists)).
      + intros Hno He. assert (Hnone : forall n, e_receipts t !! (k, n) = None).
        { intros n. destruct (e_receipts t !! (k, n)) eqn:Hr; [|done]. destruct (lo_receipt _ _ (ok_logs _ (rf_ok _ _ _ Hroom)) _ _ _ Hr) as (_ & _ & m & Hm & _).
          unfold lengths in Hm. by rewrite lookup_fmap, Hno in Hm. }
        split; split; cbn; try done; try (by left).
        * apply (g_ok (fun _ => True) k [] t). apply grows_open; try done. apply Hroom.
        * apply lookup_insert_eq.
        * intros n r Hr. by rewrite Hnone in Hr.
        * intros f' Hf'. by apply not_elem_of_nil in Hf'.
        * intros key r f' _. apply (rf_id _ _ _ Hroom key).
        * intros (r & Hr & _). cbn in Hr. by rewrite Hnone in Hr.
    - apply wp_getOrCreate; [apply calm_never | right | apply (ok_rest _ (ro_ok _ _ _ R)) | |]; rewrite Hsk, (ro_st _ _ _ R).
      + split; [|done]. intros st' [= <-]. apply (se_valid _ _ S).
      + by intros st' [= <-].
      + done. }
  apply wp_bind, wp_lift.
  2: { intros e He. exfalso. unfold validateSourceStateForAppend in He. rewrite (ro_writer _ _ _ R), Hw, String.eqb_refl in He. cbn [negb] in He.
       destruct (ro_status _ _ _ R) as [Hs|Hs]; rewrite Hs in He; [done|]. cbn [String.eqb Ascii.eqb Bool.eqb] in He.
       destruct (String.eqb_spec (fr_Lane f) LaneControl) as [Hl|]; [|done]. apply (so_lane _ _ _ HF). by rewrite <- Hsk. }
  intros [] _. destruct (ok_state _ (ok_rest _ (ro_ok _ _ _ R)) _ _ (ro_st _ _ _ R)) as [_ [Hwm _]].
  assert (Hseq : fr_SourceSequence f = (Z.of_nat j + 1)%Z) by exact (f_equal snd Hk). rewrite (ro_floor _ _ _ R).
  destruct (Z.leb_spec (fr_SourceSequence f) 0); [lia|]. apply wp_bind, wp_query; [apply allowed_never|].
  destruct (e_receipts t1 !! receiptKey f) as [r|] eqn:Hr; [by apply wp_replay|].
  destruct (Z.ltb_spec (fr_SourceSequence f) (st_NextSequence st)) as [Hlt|Hge].
  - exfalso. destruct (lo_dense _ _ (ok_logs _ (ro_ok _ _ _ R)) k (Z.of_nat j + 1)%Z (st_MaterializedSequence st)) as [r0 Hr0]; [unfold lengths; by rewrite lookup_fmap, (ro_st _ _ _ R)|lia|].
    rewrite Hk in Hr. congruence.
  - pose proof (so_lane _ _ _ HF) as Hlane. rewrite <- Hsk in Hlane. cbn [snd frame_skey] in Hlane. apply String.eqb_neq in Hlane. rewrite Hlane. by apply wp_first.
Qed.

Lemma wp_accepted_fence {A} (verify : nat -> option error) (m : EM A) Q t : (forall i, verify i = None) -> wp m Q never t -> wp (_ ← check_fence verify; m) Q never t.
Proof. intros Hv W. apply wp_bind. intros i. unfold check_fence. cbn. by rewrite Hv. Qed.

Lemma wp_sure_tx {A} (m : EM A) Q t : wp m Q never t -> wp (withWriteTx m) Q never t.
Proof. intros W i. specialize (W i). unfold withWriteTx. by destruct (m _) as [[a|e] s]. Qed.

Lemma wp_delivered v D t f : f ∈ F -> accepts v f -> ((D = [] /\ room_for k F t) \/ exists st, rows_of D t st /\ settled t st) ->
  wp (Append v f) (done_with f D) never t.
Proof.
  intros Hf Hv HJ. destruct (so_valid _ _ _ HF f Hf) as [V1 V2]. pose proof (wp_deliver D t f Hf HJ) as W.
  unfold Append. rewrite V1, V2. do 2 (apply wp_bind, wp_lift; [intros [] _ | done]). unfold appendValidated.
  destruct v; [|destruct Hv as [-> Hv]..]; try (apply wp_accepted_fence; [done|]); apply wp_sure_tx; [by apply wp_accepted_fence | by apply wp_bind, wp_ret..].
Qed.

(** ** All deliveries *)

Lemma deliver_all v ds D s : (forall f, f ∈ ds -> f ∈ F /\ accepts v f) ->
  ((D = [] /\ room_for k F (e_tables s)) \/ exists st, rows_of D (e_tables s) st /\ settled (e_tables s) st) -> ds <> [] ->
  exists D' st, (forall f, f ∈ D \/ f ∈ ds -> f ∈ D') /\ let t := e_tables (run_ops (map (OpAppend v) ds) s).2 in rows_of D' t st /\ settled t st.
Proof.
  revert D s. induction ds as [|f ds IH]; intros D s Hds HJ Hne; [done|]. destruct (Hds f ltac:(by left)) as [Hf Hv]. destruct s as [t i].
  pose proof (wp_delivered v D t f Hf Hv HJ i) as W. destruct (Append v f (mkEDB t i)) as [[a|e] s1] eqn:EA; [|done]. cbn in W. destruct W as (st & R & S).
  assert (Hop : op_run (OpAppend v f) (mkEDB t i) = (Ok (ap_Events a), s1)) by (cbn [op_run]; unfold mbind, EM_bind; by rewrite EA).
  cbn [map run_ops]. rewrite Hop.
  destruct ds as [|f' ds].
  - exists (f :: D), st. split; [|exact (conj R S)]. intros f'. rewrite !elem_of_cons. intros [?|[?|?%not_elem_of_nil]]; auto; done.
  - destruct (IH (f :: D) s1) as (D' & st' & Hin & HR); [intros; apply Hds; by right | eauto | done |].
    exists D', st'. split; [intros f0; specialize (Hin f0); rewrite !elem_of_cons in *; tauto|].
    destruct (run_ops (map (OpAppend v) (f' :: ds)) s1) as [reports s2] eqn:E. cbn [snd] in *. exact HR.
Qed.

Lemma rows_complete D t st : rows_of D t st -> settled t st -> F <> [] -> (forall f, f ∈ F -> f ∈ D) ->
  st_MaterializedSequence st = Z.of_nat (length F) /\ (forall n, ~ staged_at t k n) /\ log t k = (fun f => mkEvent f "materialized") <$> F.
Proof.
  intros R S HFne Hall. pose proof R as [Hok Hst _ _ Hfl _ Hrow Hin _]. destruct (ok_state _ (ok_rest _ Hok) _ _ Hst) as [_ [Hwm Hf0]].
  assert (HLk : lengths t !! k = Some (st_MaterializedSequence st)) by (unfold lengths; by rewrite lookup_fmap, Hst).
  assert (Hat : forall j f, F !! j = Some f -> exists r, e_receipts t !! (k, Z.of_nat j + 1)%Z = Some r /\ rc_Frame r = f).
  { intros j f Hj. destruct (Hin f) as (r & Hr & Hfr); [apply Hall; by eapply list_elem_of_lookup_2|]. destruct (so_frame _ _ _ HF j f Hj) as [Hk _]. rewrite Hk in Hr. eauto. }
  assert (Hub : (st_MaterializedSequence st <= Z.of_nat (length F))%Z).
  { destruct (decide (1 <= st_MaterializedSequence st)%Z) as [H1|]; [|lia]. destruct (lo_dense _ _ (ok_logs _ Hok) k _ _ HLk (conj H1 (Z.le_refl _))) as [r Hr].
    destruct (Hrow _ _ Hr) as (HinF & _). destruct (frame_at _ HinF) as (j & Hj & Hk & _). destruct (lo_receipt _ _ (ok_logs _ Hok) _ _ _ Hr) as (Hk2 & _).
    rewrite Hk in Hk2. injection Hk2 as Hjj. pose proof (lookup_lt_Some _ _ _ Hj). lia. }
  assert (Hm : st_MaterializedSequence st = Z.of_nat (length F)).
  { destruct (decide (st_MaterializedSequence st < Z.of_nat (length F))%Z) as [Hlt|]; [|lia]. exfalso. apply (se_next _ _ S).
    destruct (lookup_lt_is_Some_2 F (Z.to_nat (st_MaterializedSequence st)) ltac:(lia)) as [f Hf]. destruct (Hat _ _ Hf) as (r & Hr & _).
    replace (Z.of_nat (Z.to_nat (st_MaterializedSequence st)) + 1)%Z with (st_NextSequence st) in Hr by lia. exists r. split; [done|].
    destruct (Hrow _ _ Hr) as (_ & _ & ->). by rewrite decide_False by lia. }
  split_and!; [done| |].
  - intros n (r & Hr & Hs). destruct (Hrow _ _ Hr) as (HinF & _ & Hst'). rewrite Hs in Hst'. case_decide as Hd; [done|]. destruct (frame_at _ HinF) as (j & Hj & Hk & _).
    destruct (lo_receipt _ _ (ok_logs _ Hok) _ _ _ Hr) as (Hk2 & _). rewrite Hk in Hk2. injection Hk2 as Hjj. pose proof (lookup_lt_Some _ _ _ Hj). lia.
  - apply list_eq. intros j. unfold log. rewrite HLk. cbn [default id from_option]. unfold id. rewrite list_lookup_fmap. destruct (decide (j < length F)) as [Hlt|Hge].
    + rewrite (log_upto_lookup _ _ _ _ _ (ok_logs _ Hok) HLk) by lia. destruct (lookup_lt_is_Some_2 F j Hlt) as [f Hf]. rewrite Hf. cbn.
      destruct (Hat _ _ Hf) as (r & Hr & <-). destruct (lo_receipt _ _ (ok_logs _ Hok) _ _ _ Hr) as (_ & _ & m & Hm' & Ho). assert (m = st_MaterializedSequence st) as -> by congruence.
      unfold receipt_ok in Ho. rewrite decide_True in Ho by lia. apply Ho.
    + pose proof (log_upto_length _ _ _ _ (ok_logs _ Hok) HLk ltac:(lia)). rewrite (lookup_ge_None_2 (log_upto _ _ _)), (lookup_ge_None_2 F) by lia. done.
Qed.
End delivery.

(** C33: The frames of a stream (any lane but control, at most 1024 of them, valid, from one
    writer, with distinct event ids) may be handed to [Append] in any order and any number
    of times.  When no statement fails and the fence accepts them, then after each has
    arrived at least once the log of the stream is exactly these frames in the order of the
    source, the stream is active and its next sequence is the one after the last frame. *)
Theorem any_order_delivers `{EC : EventCodec} `{EE : EventEnv} k w F v ds s :
  (forall i, fault i = None) -> (forall f, identity_rows f = true) -> stream_of k w F -> room_for k F (e_tables s) ->
  (forall f, f ∈ ds -> f ∈ F /\ accepts v f) -> (forall f, f ∈ F -> f ∈ ds) -> F <> [] ->
  let t := e_tables (run_ops (map (OpAppend v) ds) s).2 in
  log t k = map (fun f => mkEvent f "materialized") F
  /\ exists st, e_states t !! k = Some st /\ st_Status st = "active" /\ st_NextSequence st = (Z.of_nat (length F) + 1)%Z.
Proof.
  intros Hfault Hident HF Hroom Hds Hall HFne. assert (ds <> []) as Hne.
  { destruct F as [|f F']; [done|]. intros ->. by specialize (Hall f ltac:(by left)) as ?%not_elem_of_nil. }
  destruct (deliver_all k w F HF Hfault Hident v ds [] s Hds ltac:(by left) Hne) as (D' & st & Hin & R & S).
  destruct (rows_complete k w F HF _ _ _ R S HFne) as (Hm & Hnone & Hlog); [auto|]. split; [exact Hlog|].
  exists st. destruct (ok_state _ (ok_rest _ (ro_ok _ _ _ _ _ _ R)) _ _ (ro_st _ _ _ _ _ _ R)) as [_ [Hwm _]].
  split_and!; [apply (ro_st _ _ _ _ _ _ R) | by apply (se_done _ _ _ S) | lia].
Qed.
