(* ===== verification/EventWatcher.v ===== *)
(** * Watchers of the event store

    Models [store/eventstore/watcher.go]: a bounded fan-out of committed events to the
    waiters of the process.  Goroutines interleave between the critical sections of the
    mutex of the watcher, so the machine below has one action per section: registering,
    notifying, the three parts of closing a subscription, taking an event from a channel,
    and closing the watcher.  Sending on a closed channel is the panic that Go raises. *)

From S2P Require Import Prelude GoStrings WakeupLease EventContract EventStore.

Definition maxWatcherBuffer : Z := 1024.
Definition maxWatcherRegistrations : Z := 4096.
Definition defaultWatcherBuffer : Z := 16.
Definition defaultWatcherRegistrations : Z := 128.

Definition ErrInvalidWatch : string := "ErrInvalidWatch".
Definition ErrWatcherClosed : string := "ErrWatcherClosed".
Definition ErrWatcherCapacity : string := "ErrWatcherCapacity".
Definition ErrWatcherOverflow : string := "ErrWatcherOverflow".
Definition ErrInvalidWatchEvent : string := "ErrInvalidWatchEvent".

Record WatchFilter := mkFilter { wf_SourceID : string; wf_SourceEpoch : string; wf_Lane : Lane }.

(** [errors.Join] of a sentinel and an error. *)
Definition join (name : string) (e : error) : error := Errorf (name :: err_is e) (err_msg e).

Definition Filter_Validate (f : WatchFilter) : result error unit :=
  map_err (join ErrInvalidWatch) (validateSourceKey (wf_SourceID f) (wf_SourceEpoch f) (wf_Lane f)).

Definition matches (f : WatchFilter) (event : AgentEvent) : bool :=
  String.eqb (wf_SourceID f) (fr_SourceID (ae_Frame event)) && String.eqb (wf_SourceEpoch f) (fr_SourceEpoch (ae_Frame event)) && String.eqb (wf_Lane f) (fr_Lane (ae_Frame event)).

Record WatcherConfig := mkWatcherConfig { wc_BufferSize : Z; wc_MaxRegistrations : Z }.

Definition DefaultWatcherConfig : WatcherConfig := mkWatcherConfig defaultWatcherBuffer defaultWatcherRegistrations.

Definition Config_validate (c : WatcherConfig) : result error unit :=
  if (wc_BufferSize c <? 1)%Z || (maxWatcherBuffer <? wc_BufferSize c)%Z
  then Err (Errorf [ErrInvalidWatch] (Sprintf "watcher buffer size is out of bounds" []))
  else if (wc_MaxRegistrations c <? 1)%Z || (maxWatcherRegistrations <? wc_MaxRegistrations c)%Z
  then Err (Errorf [ErrInvalidWatch] (Sprintf "watcher registration limit is out of bounds" []))
  else Ok tt.

(** ** State *)

(** How far [WatchSubscription.Close] has come; [once] lets one goroutine through. *)
Inductive phase := Open | Marked | Removed | ChanClosed.

#[export] Instance phase_eq_dec : EqDecision phase.
Proof. solve_decision. Defined.

(** A subscription, with the events its owner took from the channel, and the events it
    was offered. *)
Record WatchSubscription := mkSub {
  ws_filter : WatchFilter; ws_ch : list AgentEvent; ws_phase : phase; ws_taken : list AgentEvent; ws_offered : list AgentEvent;
}.

(** The watcher, the subscriptions that were ever made, and those that some goroutine is
    about to close. *)
Record Watcher := mkWatcher {
  w_config : WatcherConfig; w_closed : bool; w_nextID : nat; w_subs : gset nat; w_heap : gmap nat WatchSubscription; w_owed : gset nat;
}.

Definition NewWatcher (config : WatcherConfig) : result error Watcher :=
  _ ← Config_validate config; Ok (mkWatcher config false 0 ∅ ∅ ∅).

Definition with_sub (id : nat) (s : WatchSubscription) (w : Watcher) : Watcher :=
  mkWatcher (w_config w) (w_closed w) (w_nextID w) (w_subs w) (<[id := s]> (w_heap w)) (w_owed w).

Definition with_phase (p : phase) (s : WatchSubscription) : WatchSubscription := mkSub (ws_filter s) (ws_ch s) p (ws_taken s) (ws_offered s).

(** ** Critical sections *)

(** A step may end with an error of the operation, or in a panic. *)
Inductive outcome := Done (w : Watcher) | Failed (e : error) (w : Watcher) | Panic.

Definition RegistrationCount (w : Watcher) : Z := Z.of_nat (size (w_subs w)).

(** The section of [Register]. *)
Definition Register (filter : WatchFilter) (w : Watcher) : outcome :=
  match Filter_Validate filter with
  | Err e => Failed e w
  | Ok _ =>
      if w_closed w then Failed (sentinel ErrWatcherClosed) w
      else if (wc_MaxRegistrations (w_config w) <=? RegistrationCount w)%Z then Failed (sentinel ErrWatcherCapacity) w
      else
        let id := S (w_nextID w) in
        Done (mkWatcher (w_config w) (w_closed w) id ({[ id ]} ∪ w_subs w) (<[id := mkSub filter [] Open [] []]> (w_heap w)) (w_owed w))
  end.

(** [select] with a default: the subscription afterwards and whether the channel was full;
    [None] is the panic of a closed channel. *)
Definition try_send (config : WatcherConfig) (event : AgentEvent) (s : WatchSubscription) : option (WatchSubscription * bool) :=
  let offered := ws_offered s ++ [event] in
  if decide (ws_phase s = ChanClosed) then None
  else if (Z.of_nat (length (ws_ch s)) <? wc_BufferSize config)%Z then Some (mkSub (ws_filter s) (ws_ch s ++ [event]) (ws_phase s) (ws_taken s) offered, false)
  else Some (mkSub (ws_filter s) (ws_ch s) (ws_phase s) (ws_taken s) offered, true).

(** The loop over the subscriptions, in the order of [ids]; [overflowed] are closed later. *)
Fixpoint notify_loop (event : AgentEvent) (ids : list nat) (w : Watcher) : option Watcher :=
  match ids with
  | [] => Some w
  | id :: ids =>
      match w_heap w !! id with
      | None => notify_loop event ids w
      | Some s =>
          if negb (matches (ws_filter s) event) then notify_loop event ids w
          else
            match try_send (w_config w) event s with
            | None => None
            | Some (s', full) =>
                let w' := with_sub id s' w in
                notify_loop event ids
                  (if full : bool then mkWatcher (w_config w') (w_closed w') (w_nextID w') (w_subs w') (w_heap w') ({[ id ]} ∪ w_owed w') else w')
            end
      end
  end.

Section watch.
Context `{EC : EventCodec}.

Definition validateWatchEvent (event : AgentEvent) : result error unit :=
  _ ← Frame_Validate (ae_Frame event); validateCanonicalEnvelopeHash (ae_Frame event).

(** The section of [Notify]; [ids] is the order in which Go visits the map. *)
Definition Notify (event : AgentEvent) (ids : list nat) (w : Watcher) : outcome :=
  if negb (String.eqb (ae_Status event) "materialized") then Failed (sentinel ErrInvalidWatchEvent) w
  else match validateWatchEvent event with
  | Err e => Failed (join ErrInvalidWatchEvent e) w
  | Ok _ =>
      if w_closed w then Failed (sentinel ErrWatcherClosed) w
      else match notify_loop event ids w with Some w' => Done w' | None => Panic end
  end.

(** The parts of [WatchSubscription.Close]. *)
Definition close_mark (id : nat) (w : Watcher) : outcome :=
  match w_heap w !! id with
  | Some s => if decide (ws_phase s = Open) then Done (with_sub id (with_phase Marked s) w) else Done w
  | None => Done w
  end.

Definition remove (id : nat) (w : Watcher) : outcome :=
  match w_heap w !! id with
  | Some s =>
      if decide (ws_phase s = Marked)
      then Done (mkWatcher (w_config w) (w_closed w) (w_nextID w) (w_subs w ∖ {[ id ]}) (<[id := with_phase Removed s]> (w_heap w)) (w_owed w))
      else Done w
  | None => Done w
  end.

Definition close_channel (id : nat) (w : Watcher) : outcome :=
  match w_heap w !! id with
  | Some s => if decide (ws_phase s = Removed) then Done (with_sub id (with_phase ChanClosed s) w) else Done w
  | None => Done w
  end.

(** The section of [Watcher.Close]; the subscriptions are closed later. *)
Definition Watcher_Close (w : Watcher) : outcome :=
  if w_closed w then Done w
  else Done (mkWatcher (w_config w) true (w_nextID w) (w_subs w) (w_heap w) (w_subs w ∪ w_owed w)).

(** The owner of a subscription takes an event; a closed channel gives what is left. *)
Definition receive (id : nat) (w : Watcher) : outcome :=
  match w_heap w !! id with
  | Some s =>
      match ws_ch s with
      | e :: ch => Done (with_sub id (mkSub (ws_filter s) ch (ws_phase s) (ws_taken s ++ [e]) (ws_offered s)) w)
      | [] => Done w
      end
  | None => Done w
  end.

(** ** After the commit *)

(** [Store.notifyMaterialized], with any notifier: every event is handed over, whatever the
    notifier says of the others. *)
Fixpoint notifyMaterialized {W} (notify : AgentEvent -> W -> option error * W) (events : list AgentEvent) (w : W) : list error * W :=
  match events with
  | [] => ([], w)
  | event :: events =>
      let '(e, w) := notify event w in
      let '(es, w) := notifyMaterialized notify events w in
      (match e with Some e => Errorf (err_is e) (Sprintf "notify committed canonical event: %w" []) :: es | None => es end, w)
  end.

(** The end of [Store.appendValidated]: the answer and the error of the call. *)
Definition finishAppend {W} (notifier : option (AgentEvent -> W -> option error * W)) (a : Appended) (w : W) : AppendResult * list error * W :=
  let terminal := option_list (ap_Terminal a) in
  match ap_Events a, notifier with
  | _ :: _, Some notify =>
      let '(es, w) := notifyMaterialized notify (ap_Events a) w in
      (ap_Result a, match es with [] => terminal | _ => es end, w)
  | _, _ => (ap_Result a, terminal, w)
  end.

(** ** The machine *)

Inductive action :=
| ARegister (filter : WatchFilter)
| ANotify (event : AgentEvent) (ids : list nat)
| AMark (id : nat) | ARemove (id : nat) | ACloseChan (id : nat)
| AReceive (id : nat)
| AClose.

(** Go visits every registered subscription once. *)
Definition enabled (a : action) (w : Watcher) : Prop :=
  match a with ANotify _ ids => NoDup ids /\ (forall id, id ∈ ids <-> id ∈ w_subs w) | _ => True end.

Definition act (a : action) (w : Watcher) : outcome :=
  match a with
  | ARegister f => Register f w
  | ANotify e ids => Notify e ids w
  | AMark id => close_mark id w
  | ARemove id => remove id w
  | ACloseChan id => close_channel id w
  | AReceive id => receive id w
  | AClose => Watcher_Close w
  end.

Inductive watch_reachable (config : WatcherConfig) : Watcher -> Prop :=
| reach_new w : NewWatcher config = Ok w -> watch_reachable config w
| reach_done w a w' : watch_reachable config w -> enabled a w -> act a w = Done w' -> watch_reachable config w'
| reach_failed w a e w' : watch_reachable config w -> enabled a w -> act a w = Failed e w' -> watch_reachable config w'.

(** ** Invariant *)

Definition live (s : WatchSubscription) : Prop := ws_phase s = Open \/ ws_phase s = Marked.

(** What holds of one subscription: the events it took and those in its channel are among
    those it was offered, in their order, and one is missing only if the subscription is
    being closed or about to be. *)
Record sub_ok (w : Watcher) (id : nat) (s : WatchSubscription) : Prop := {
  sk_id : 1 <= id <= w_nextID w;
  sk_live : live s <-> id ∈ w_subs w;
  sk_bound : (Z.of_nat (length (ws_ch s)) <= wc_BufferSize (w_config w))%Z;
  sk_order : ws_taken s ++ ws_ch s `sublist_of` ws_offered s;
  sk_loss : ws_taken s ++ ws_ch s = ws_offered s \/ id ∈ w_owed w \/ ws_phase s <> Open;
}.

Record watcher_ok (w : Watcher) : Prop := {
  wo_subs id : id ∈ w_subs w -> is_Some (w_heap w !! id);
  wo_sub id s : w_heap w !! id = Some s -> sub_ok w id s;
  wo_count : (RegistrationCount w <= wc_MaxRegistrations (w_config w))%Z;
  wo_buffer : (1 <= wc_BufferSize (w_config w))%Z;
}.

(** Another subscription changes. *)
Lemma sub_ok_same w w' id s : w_nextID w <= w_nextID w' -> (id ∈ w_subs w' <-> id ∈ w_subs w) -> w_config w' = w_config w -> (id ∈ w_owed w -> id ∈ w_owed w') ->
  sub_ok w id s -> sub_ok w' id s.
Proof. intros Hn Hs Hc Ho [H1 H2 H3 H4 H5]. split; [lia|by rewrite Hs|by rewrite Hc|done|]. destruct H5 as [?|[?|?]]; auto. Qed.

Lemma watcher_ok_put w w' id s : watcher_ok w -> w_heap w !! id <> None ->
  w_nextID w' = w_nextID w -> w_config w' = w_config w -> w_heap w' = <[id := s]> (w_heap w) -> w_subs w' ⊆ w_subs w ->
  (forall id', id' <> id -> (id' ∈ w_subs w' <-> id' ∈ w_subs w)) -> w_owed w ⊆ w_owed w' -> sub_ok w' id s -> watcher_ok w'.
Proof.
  intros [H1 H2 H3 H4] Hin Hn Hc Hh Hs Hs' Ho Hok. split; [| | |by rewrite Hc].
  - intros id' Hid. rewrite Hh, lookup_insert_is_Some'. right. apply H1. by apply Hs.
  - intros id' s'. rewrite Hh, lookup_insert_Some. intros [[<- <-]|[Hne Hs0]]; [done|]. eapply sub_ok_same; [| | | |by apply H2]; [lia|by apply Hs'|done|set_solver].
  - rewrite Hc. etransitivity; [|exact H3]. unfold RegistrationCount. apply subseteq_size in Hs. lia.
Qed.

Lemma new_ok config w : NewWatcher config = Ok w -> watcher_ok w.
Proof.
  unfold NewWatcher, Config_validate. destruct (Z.ltb_spec (wc_BufferSize config) 1); [done|]. cbn [orb]. destruct (maxWatcherBuffer <? _)%Z; [done|].
  destruct (Z.ltb_spec (wc_MaxRegistrations config) 1); [done|]. cbn [orb]. destruct (maxWatcherRegistrations <? _)%Z; [done|]. intros [= <-]. split; cbn; [| | |done].
  - intros id Hid. set_solver.
  - intros id s Hs. by simplify_map_eq.
  - unfold RegistrationCount. cbn. rewrite size_empty. lia.
Qed.

Lemma Register_ok f w : watcher_ok w -> match Register f w with Done w' | Failed _ w' => watcher_ok w' | Panic => False end.
Proof.
  intros Hw. unfold Register. destruct (Filter_Validate f); [|done]. destruct (w_closed w) eqn:Hcl; [done|].
  destruct (Z.leb_spec (wc_MaxRegistrations (w_config w)) (RegistrationCount w)) as [|Hlt]; [done|]. destruct Hw as [H1 H2 H3 H4].
  assert (Hnew : w_heap w !! S (w_nextID w) = None).
  { destruct (w_heap w !! S (w_nextID w)) as [s|] eqn:E; [|done]. destruct (sk_id _ _ _ (H2 _ _ E)). lia. }
  assert (Hno : S (w_nextID w) ∉ w_subs w) by (intros Hin; destruct (H1 _ Hin); congruence).
  split; cbn; [| | |done].
  - intros id. rewrite elem_of_union, elem_of_singleton, lookup_insert_is_Some'. intros [->|Hid]; auto.
  - intros id s. rewrite lookup_insert_Some. intros [[<- <-]|[Hne Hs]].
    + split; cbn; [lia|split; [set_solver | intros _; by left]|lia|done|by left].
    + eapply sub_ok_same; [| | | |by apply H2]; cbn; [lia|set_solver|done|done].
  - unfold RegistrationCount in *. cbn. rewrite size_union by set_solver. rewrite size_singleton. lia.
Qed.

(** What one event does to the subscriptions that are visited. *)
Definition offered_to (ids : list nat) (event : AgentEvent) (w w' : Watcher) : Prop := forall id s, w_heap w !! id = Some s ->
  exists s', w_heap w' !! id = Some s' /\ ws_filter s' = ws_filter s /\ ws_phase s' = ws_phase s /\ ws_taken s' = ws_taken s
    /\ (if decide (id ∈ ids /\ matches (ws_filter s) event = true)
        then ws_offered s' = ws_offered s ++ [event] /\ (ws_ch s' = ws_ch s ++ [event] \/ ws_ch s' = ws_ch s /\ id ∈ w_owed w')
        else s' = s).

Lemma offered_cons id ids event w w1 w' s s1 : w_heap w !! id = Some s -> w_heap w1 = <[id := s1]> (w_heap w) -> id ∉ ids -> matches (ws_filter s) event = true ->
  ws_filter s1 = ws_filter s -> ws_phase s1 = ws_phase s -> ws_taken s1 = ws_taken s ->
  ws_offered s1 = ws_offered s ++ [event] /\ (ws_ch s1 = ws_ch s ++ [event] \/ ws_ch s1 = ws_ch s /\ id ∈ w_owed w') ->
  offered_to ids event w1 w' -> offered_to (id :: ids) event w w'.
Proof.
  intros Hs Hh Hni Hm Hf Hp Ht Hnew Hoff id' s' Hs'. destruct (decide (id' = id)) as [->|Hne].
  - assert (s' = s) as -> by congruence. destruct (Hoff id s1) as (s2 & H2 & F2 & P2 & T2 & Hcase); [by rewrite Hh, lookup_insert_eq|].
    rewrite decide_False in Hcase by tauto. subst s2. exists s1. split_and!; try congruence. rewrite decide_True; [done|]. split; [by left | done].
  - destruct (Hoff id' s') as (s2 & H2 & F2 & P2 & T2 & Hcase); [by rewrite Hh, lookup_insert_ne|]. exists s2. split_and!; try done.
    destruct (decide (id' ∈ ids /\ matches (ws_filter s') event = true)) as [[A B]|A].
    + rewrite decide_True; [done|]. split; [by right|done].
    + rewrite decide_False; [done|]. rewrite elem_of_cons. tauto.
Qed.

Lemma notify_loop_ok event ids w : watcher_ok w -> NoDup ids -> (forall id, id ∈ ids -> id ∈ w_subs w) ->
  exists w', notify_loop event ids w = Some w' /\ watcher_ok w' /\ w_subs w' = w_subs w /\ w_owed w ⊆ w_owed w' /\ offered_to ids event w w'.
Proof.
  revert w. induction ids as [|id ids IH]; intros w Hw Hnd Hids; cbn [notify_loop].
  { exists w. split_and!; try done. intros id s Hs. exists s. by split_and!. }
  apply NoDup_cons in Hnd as [Hni Hnd]. destruct (wo_subs _ Hw id) as [s Hs]; [apply Hids; by left|]. rewrite Hs.
  pose proof (wo_sub _ Hw _ _ Hs) as [K1 K2 K3 K4 K5].
  destruct (matches (ws_filter s) event) eqn:Hm; cbn [negb].
  2: { destruct (IH w Hw Hnd) as (w' & E & Hw' & Hsub & Ho & Hoff); [intros; apply Hids; by right|]. exists w'. split_and!; try done.
       intros id' s' Hs'. destruct (Hoff id' s' Hs') as (s2 & H2 & Hf & Hp & Ht & Hcase). exists s2. split_and!; try done.
       destruct (decide (id' = id)) as [->|Hne].
       - assert (s' = s) as -> by congruence. rewrite decide_False in Hcase by tauto. rewrite decide_False; [done|]. intros [_ ?]. congruence.
       - destruct (decide (id' ∈ ids /\ matches (ws_filter s') event = true)) as [[A B]|A].
         + rewrite decide_True; [done|]. split; [by right|done].
         + rewrite decide_False; [done|]. rewrite elem_of_cons. tauto. }
  assert (Hlive : live s) by (apply K2, Hids; by left).
  unfold try_send. rewrite decide_False by (destruct Hlive as [-> | ->]; done).
  destruct (Z.ltb_spec (Z.of_nat (length (ws_ch s))) (wc_BufferSize (w_config w))) as [Hroom|Hfull].
  - set (s1 := mkSub (ws_filter s) (ws_ch s ++ [event]) _ _ _). set (w1 := with_sub id s1 w).
    assert (Hw1 : watcher_ok w1).
    { eapply (watcher_ok_put w w1 id s1); try done; [congruence|]. split; cbn; [done|done|rewrite length_app; cbn; lia| |].
      - rewrite app_assoc. by apply sublist_app.
      - destruct K5 as [<-|?]; [left; by rewrite app_assoc | by right]. }
    destruct (IH w1 Hw1 Hnd) as (w' & E & Hw' & Hsub & Ho & Hoff); [intros; apply Hids; by right|]. exists w'. split_and!; try done.
    apply (offered_cons id ids event w w1 w' s s1); try done. cbn. split; [done|]. by left.
  - set (s1 := mkSub (ws_filter s) (ws_ch s) _ _ _). set (w1 := mkWatcher _ _ _ _ _ _).
    assert (Hw1 : watcher_ok w1).
    { eapply (watcher_ok_put w w1 id s1); try done; [congruence|cbn; set_solver|]. split; cbn; [done|done|done| |right; left; set_solver].
      etransitivity; [exact K4|]. by apply sublist_inserts_r. }
    destruct (IH w1 Hw1 Hnd) as (w' & E & Hw' & Hsub & Ho & Hoff); [intros; apply Hids; by right|]. exists w'. cbn in Ho. split_and!; try done; [set_solver|].
    apply (offered_cons id ids event w w1 w' s s1); try done. cbn. split; [done|]. right. split; [done | set_solver].
Qed.

Lemma Notify_ok event ids w : watcher_ok w -> NoDup ids -> (forall id, id ∈ ids <-> id ∈ w_subs w) ->
  match Notify event ids w with
  | Done w' => watcher_ok w' /\ w_subs w' = w_subs w /\ offered_to ids event w w'
  | Failed _ w' => w' = w
  | Panic => False
  end.
Proof.
  intros Hw Hnd Hids. unfold Notify. destruct (negb _); [done|]. destruct (validateWatchEvent event); [|done]. destruct (w_closed w); [done|].
  destruct (notify_loop_ok event ids w Hw Hnd) as (w' & -> & Hw' & Hs & _ & Hoff); [intros; by apply Hids|]. done.
Qed.

(** A subscription moves on in its closing. *)
Lemma phase_ok w id s p : watcher_ok w -> w_heap w !! id = Some s -> p <> Open -> (live s <-> live (with_phase p s)) -> watcher_ok (with_sub id (with_phase p s) w).
Proof.
  intros Hw Hs Hp Hl. pose proof (wo_sub _ Hw _ _ Hs) as [K1 K2 K3 K4 K5].
  eapply (watcher_ok_put w _ id (with_phase p s)); try done; [congruence|]. split; cbn; [done|by rewrite <- Hl|done|done|auto].
Qed.

Lemma act_ok a w : watcher_ok w -> enabled a w -> match act a w with Done w' | Failed _ w' => watcher_ok w' | Panic => False end.
Proof.
  intros Hw Ha. destruct a as [f|e ids|id|id|id|id|]; cbn [act].
  - by apply Register_ok.
  - destruct Ha as [Hnd Hids]. pose proof (Notify_ok e ids w Hw Hnd Hids) as H. destruct (Notify e ids w); [apply H | by subst | done].
  - unfold close_mark. destruct (w_heap w !! id) as [s|] eqn:Hs; [|done]. case_decide as Hp; [|done]. apply phase_ok; try done.
    unfold live. cbn. naive_solver.
  - unfold remove. destruct (w_heap w !! id) as [s|] eqn:Hs; [|done]. case_decide as Hp; [|done]. pose proof (wo_sub _ Hw _ _ Hs) as [K1 K2 K3 K4 K5].
    eapply (watcher_ok_put w _ id (with_phase Removed s)); try done; cbn; [congruence|set_solver|set_solver|].
    split; cbn; [done| |done|done|by right; right]. unfold live. cbn. set_solver.
  - unfold close_channel. destruct (w_heap w !! id) as [s|] eqn:Hs; [|done]. case_decide as Hp; [|done]. apply phase_ok; try done.
    unfold live. cbn. rewrite Hp. naive_solver.
  - unfold receive. destruct (w_heap w !! id) as [s|] eqn:Hs; [|done]. destruct (ws_ch s) as [|e ch] eqn:Hch; [done|]. pose proof (wo_sub _ Hw _ _ Hs) as [K1 K2 K3 K4 K5].
    rewrite Hch in *. eapply (watcher_ok_put w _ id); try done; [congruence|]. split; cbn; [done|done|cbn in K3; lia| |]; by rewrite <- app_assoc.
  - unfold Watcher_Close. destruct (w_closed w); [done|]. destruct Hw as [H1 H2 H3 H4]. split; cbn; try done.
    intros id s Hs. eapply sub_ok_same; [| | | |by apply H2]; cbn; [lia|done|done|set_solver].
Qed.

Lemma watch_reachable_ok config w : watch_reachable config w -> watcher_ok w.
Proof.
  induction 1 as [w Hnew|w a w' _ Hw Ha E|w a e w' _ Hw Ha E]; [by eapply new_ok|..]; pose proof (act_ok a w Hw Ha) as H1; by rewrite E in H1.
Qed.

(** In no interleaving of registrations, notifications, closings and receivers does the
    watcher send on a closed channel, and it never holds more subscriptions or buffers more
    events than configured. *)
Lemma watcher_never_panics config w a : watch_reachable config w -> enabled a w ->
  act a w <> Panic /\ (RegistrationCount w <= wc_MaxRegistrations (w_config w))%Z
  /\ forall id s, w_heap w !! id = Some s -> (Z.of_nat (length (ws_ch s)) <= wc_BufferSize (w_config w))%Z.
Proof.
  intros Hr Ha. pose proof (watch_reachable_ok _ _ Hr) as Hw. split_and!.
  - pose proof (act_ok a w Hw Ha) as H1. intros E. by rewrite E in H1.
  - apply Hw.
  - intros id s Hs. apply (sk_bound _ _ _ (wo_sub _ Hw _ _ Hs)).
Qed.

(** C39: No event is lost silently.  A notification offers its event to every registered
    subscription of the stream and to no other.  What the owner of a subscription took or
    still finds in the channel are events it was offered, in their order; when one is
    missing, the subscription is being closed or a goroutine is about to close it. *)
Theorem watcher_no_silent_loss config w event ids w' id s : watch_reachable config w -> enabled (ANotify event ids) w -> Notify event ids w = Done w' ->
  w_heap w !! id = Some s ->
  exists s', w_heap w' !! id = Some s'
    /\ ws_offered s' = ws_offered s ++ (if decide (id ∈ w_subs w /\ matches (ws_filter s) event = true) then [event] else [])
    /\ ws_taken s' ++ ws_ch s' `sublist_of` ws_offered s'
    /\ (ws_taken s' ++ ws_ch s' = ws_offered s' \/ id ∈ w_owed w' \/ ws_phase s' <> Open).
Proof.
  intros Hr [Hnd Hids] E Hs. pose proof (watch_reachable_ok _ _ Hr) as Hw. pose proof (Notify_ok event ids w Hw Hnd Hids) as H. rewrite E in H.
  destruct H as (Hw' & _ & Hoff). destruct (Hoff id s Hs) as (s' & Hs' & Hf & _ & _ & Hcase). exists s'. destruct (wo_sub _ Hw' _ _ Hs') as [_ _ _ K4 K5].
  split_and!; try done. rewrite (decide_ext (id ∈ w_subs w /\ _) (id ∈ ids /\ matches (ws_filter s) event = true)) by (by rewrite Hids).
  case_decide; [apply Hcase | by rewrite Hcase, app_nil_r].
Qed.
End watch.
