(* ===== verification/EventSamples.v ===== *)
(** * Samples of the event store

    The theorems on the event store at work on concrete frames, and the behaviours that
    the code shows on some of them. *)

From S2P Require Import Prelude GoStrings WakeupLease EventContract IdentityStore EventStore EventLog EventAppend EventHistory EventRead EventFence EventDelivery EventWatcher.

(** ** Frames *)

Fixpoint copies (n : nat) (a : ascii) : string := match n with 0 => EmptyString | S n => String a (copies n a) end.

(** A digest of 64 digits, from the last character of the event id. *)
Fixpoint last_char (s : string) : ascii :=
  match s with EmptyString => ascii_of_N 48 | String a EmptyString => a | String _ s => last_char s end.

#[local] Instance codec : EventCodec := {| CanonicalEnvelopeHash := fun e => copies 64 (last_char (ev_EventID e)); frame_bytes := fun _ => 1000%Z |}.

Definition calm_env : EventEnv := {| fault := fun _ => None; identity_rows := fun _ => true |}.

(** The database fails at one statement. *)
Definition disk_error : error := Errorf [] (Sprintf "disk I/O error" []).
Definition failing_env (n : nat) : EventEnv := {| fault := fun i => if decide (i = n) then Some disk_error else None; identity_rows := fun _ => true |}.

Definition envelope (id : string) : EventEnvelope :=
  mkEnvelope id "task.output" 1 "a" "a" "r" None "" 0 "" 0 "" "fence" "test" "trusted" "none" "" 0 "" None "now" "w".

Definition frame_in (lane : Lane) (n : Z) (id : string) : IngressFrame :=
  mkFrame "src" "ep" lane n (copies 64 (last_char id)) (canonicalCursor "src" "ep" lane n) (envelope id).

Definition f1 : IngressFrame := frame_in "output" 1 "e1".
Definition f2 : IngressFrame := frame_in "output" 2 "e2".
Definition f3 : IngressFrame := frame_in "output" 3 "e3".
Definition f1' : IngressFrame := frame_in "output" 1 "x9".
Definition out : skey := ("src", "ep", "output").
Definition ctl : skey := ("src", "ep", "control").

Definition open_fence : FenceVerifier := VerifierTx (fun _ _ => None).
Definition fresh : edb := mkEDB no_rows 0.

(** ** Delivery *)

Lemma stream_sample : stream_of out "w" [f1; f2; f3].
Proof.
  split.
  - intros [|[|[|j]]] f; cbn; intros [= <-]; done.
  - intros f. rewrite !elem_of_cons, elem_of_nil. intros [->|[->|[->|[]]]]; split; vm_compute; reflexivity.
  - apply (bool_decide_unpack _). vm_compute. exact I.
  - discriminate.
  - apply Nat.leb_le. vm_compute. reflexivity.
Qed.

Lemma room_sample : room_for out [f1; f2; f3] no_rows.
Proof.
  split; [apply empty_ok | intros k' [? H] | intros key r f H]; cbn in H; by simplify_map_eq.
Qed.

Definition arrivals : list IngressFrame := [f3; f1; f3; f2; f1].

Lemma any_order_delivers_witness :
  log (e_tables (@run_ops codec calm_env (map (OpAppend open_fence) arrivals) fresh).2) out = map (fun f => mkEvent f "materialized") [f1; f2; f3].
Proof.
  refine (proj1 (@any_order_delivers codec calm_env out "w" [f1; f2; f3] open_fence arrivals fresh _ _ stream_sample room_sample _ _ _)).
  - done.
  - done.
  - intros f Hf. split; [|done]. unfold arrivals in Hf. rewrite !elem_of_cons, elem_of_nil in *. tauto.
  - intros f Hf. unfold arrivals. rewrite !elem_of_cons, elem_of_nil in *. tauto.
  - discriminate.
Defined.

(** ** Quarantine *)

Definition conflict : list event_op := [OpAppend open_fence f1; OpAppend open_fence f1'].

Lemma halted_is_final_witness :
  log (e_tables (@run_ops codec calm_env (conflict ++ [OpAppend open_fence f2]) fresh).2) out = log (e_tables (@run_ops codec calm_env conflict fresh).2) out.
Proof.
  refine (proj1 (@halted_is_final codec calm_env conflict [OpAppend open_fence f2] 0 out _ _ _)).
  - vm_compute. reflexivity.
  - vm_compute. reflexivity.
Defined.

(** ** Pages *)

Definition in_order : list event_op := map (OpAppend open_fence) [f1; f2; f3].

Lemma page_is_log_piece_witness :
  (map (fun f => mkEvent f "materialized") [f2; f3] : list AgentEvent) = take 2 (drop 1 (log (e_tables (@run_ops codec calm_env in_order fresh).2) out)).
Proof.
  refine (@page_is_log_piece codec calm_env in_order 0 out 1 2 _ _ _). vm_compute. reflexivity.
Defined.

(** ** The fence *)

Definition digest_a : string := copies 64 (ascii_of_N 97).

Definition bound_envelope (id incarnation : string) : EventEnvelope :=
  mkEnvelope id "task.output" 1 "a" "a" "r" (Some incarnation) "ext" 4 digest_a 2 digest_a "fence" "test" "trusted" "none" "" 0 "" None "now" "w".

Definition bound_frame (n : Z) (id incarnation : string) : IngressFrame :=
  mkFrame "task/a" incarnation "output" n (copies 64 (last_char id)) (canonicalCursor "task/a" incarnation "output" n) (bound_envelope id incarnation).

(** The identity store, when the agent runs as [incarnation]. *)
Definition not_found {A} : result error A := Err (sentinel "ErrNotFound").
Definition identity_of (incarnation : string) : IdentityReader := mkReader
  (fun id => if String.eqb id "r" then Ok (mkReservation "r" None "a" "task" "a2a_observation" "p" "s" "" "ns" digest_a digest_a "fence" "fence" 0 3 "activated") else not_found)
  (fun id => if String.eqb id incarnation then Ok (mkIncarnation incarnation "r" "a" "task" "thread" "ext" "fence" digest_a 4) else not_found)
  (fun agent => if String.eqb agent "a" then Ok (mkCurrentBinding "a" 2 "r" incarnation "task" 3 4 "thread" "fence" "receipt" digest_a "active") else not_found).

Lemma identity_of_keys incarnation : reader_keys (identity_of incarnation).
Proof.
  split; intros id x; cbn; [destruct (String.eqb_spec id "r") as [->|] | destruct (String.eqb_spec id incarnation) as [->|]]; try discriminate; by intros [= <-].
Qed.

Definition running (n : nat) : IdentityReader := identity_of "inc1".
Definition run_task : list event_op := [OpAppend (IdentityFenceVerifier running) (bound_frame 1 "e1" "inc1")].

Lemma logged_task_event_was_current_witness :
  ("task/a", "inc1") = ("task/a", "inc1")
  /\ exists j res cur, names_current (running j) (bound_frame 1 "e1" "inc1") "inc1" res cur.
Proof.
  refine (@logged_task_event_was_current codec calm_env running run_task 0 ("task/a", "inc1", "output") (mkEvent (bound_frame 1 "e1" "inc1") "materialized") "inc1" _ _ _ _).
  - intros j. apply identity_of_keys.
  - intros o Ho. apply list_elem_of_singleton in Ho as ->. reflexivity.
  - assert (E : log (e_tables (@run_ops codec calm_env run_task (mkEDB no_rows 0)).2) ("task/a", "inc1", "output") = [mkEvent (bound_frame 1 "e1" "inc1") "materialized"]) by (vm_compute; reflexivity).
    rewrite E. by left.
  - reflexivity.
Defined.

(** The agent runs again, as another incarnation: its identity passes the fence, and the
    event store refuses its events, because the source has an epoch already. *)
Definition rerun (n : nat) : IdentityReader := if (n <? 20)%nat then identity_of "inc1" else identity_of "inc2".

Example second_incarnation_refused :
  let s := (@run_ops codec calm_env [OpAppend (IdentityFenceVerifier rerun) (bound_frame 1 "e1" "inc1")] fresh).2 in
  VerifyIngressFrameFence (identity_of "inc2") (bound_frame 1 "e2" "inc2") = Ok tt
  /\ (@Append codec calm_env (IdentityFenceVerifier (fun _ => identity_of "inc2")) (bound_frame 1 "e2" "inc2") s).1 = Err (sentinel ErrEventFence).
Proof. split; vm_compute; reflexivity. Qed.

(** ** Behaviours *)

(** A drain stops after [maxEventDrain] events and may leave the next one staged.  These are
    such rows, in small: the first frame is in the log, the second is staged, and the stream
    is active.  The third frame then is said to be behind a gap, although none is missing,
    and none of the two gets into the log. *)
Definition tail_rows : tables := mkTables
  {[ out := mkState "src" "ep" "output" 2 1 0 2 "active" "" "w" ]}
  (<[receiptKey f1 := mkReceipt f1 "materialized" EmptyString]> {[ receiptKey f2 := mkReceipt f2 "staged" EmptyString ]})
  {[ receiptKey f1 := mkEvent f1 "materialized" ]} ∅ ∅.

Example staged_tail_called_gap :
  let r := @Append codec calm_env open_fence f3 (mkEDB tail_rows 0) in
  (match r.1 with Ok a => (ap_Terminal a, ap_Events a, st_Status (ar_State (ap_Result a)), st_GapReason (ar_State (ap_Result a))) | Err _ => (None, [], EmptyString, EmptyString) end)
  = (Some (sentinel ErrEventGap), [], "gap", "missing source sequence before 3")
  /\ log (e_tables r.2) out = [mkEvent f1 "materialized"].
Proof. split; vm_compute; reflexivity. Qed.

(** A frame of the control lane comes too early and the database fails on the last update:
    the error goes to the caller as one of the database, and yet the transaction is
    committed, with the receipt in quarantine and the stream still active. *)
Definition c2 : IngressFrame := frame_in "control" 2 "e2".

Example failed_quarantine_committed :
  let r := @Append codec (failing_env 6) open_fence c2 fresh in
  (match r.1 with Ok a => ap_Terminal a | Err _ => None end) = Some disk_error
  /\ (rc_Status <$> e_receipts (e_tables r.2) !! receiptKey c2) = Some "quarantined"
  /\ (st_Status <$> e_states (e_tables r.2) !! ctl) = Some "active".
Proof. split_and!; vm_compute; reflexivity. Qed.

(** ** Watchers *)

Definition small : WatcherConfig := mkWatcherConfig 1 2.
Definition on_output : WatchFilter := mkFilter "src" "ep" "output".
Definition event_of (f : IngressFrame) : AgentEvent := mkEvent f "materialized".

Fixpoint acts (l : list action) (w : Watcher) : option Watcher :=
  match l with
  | [] => Some w
  | a :: l => match act a w with Done w' => acts l w' | _ => None end
  end.

Definition watched (l : list action) : Watcher :=
  match NewWatcher small with Ok w => default w (acts l w) | Err _ => mkWatcher small false 0 ∅ ∅ ∅ end.

Lemma watched_one : watch_reachable small (watched [ARegister on_output]).
Proof.
  eapply (reach_done _ _ (ARegister on_output)); [apply (reach_new _ (mkWatcher small false 0 ∅ ∅ ∅)); reflexivity | exact I | vm_compute; reflexivity].
Qed.

Lemma enabled_one e : enabled (ANotify e [1]) (watched [ARegister on_output]).
Proof.
  split; [apply NoDup_singleton|]. intros id. assert (E : w_subs (watched [ARegister on_output]) = {[ 1 ]}) by (vm_compute; reflexivity). rewrite E, elem_of_singleton. set_solver.
Qed.

Lemma watcher_never_panics_sample : act (ANotify (event_of f1) [1]) (watched [ARegister on_output]) <> Panic.
Proof. refine (proj1 (watcher_never_panics small _ (ANotify (event_of f1) [1]) watched_one (enabled_one _))). Defined.

Lemma watcher_no_silent_loss_witness : exists s',
  w_heap (watched [ARegister on_output; ANotify (event_of f1) [1]]) !! 1 = Some s' /\ ws_offered s' = [event_of f1].
Proof.
  destruct (watcher_no_silent_loss small (watched [ARegister on_output]) (event_of f1) [1] (watched [ARegister on_output; ANotify (event_of f1) [1]]) 1
    (mkSub on_output [] Open [] []) watched_one (enabled_one _)) as (s' & Hs' & Ho & _); [vm_compute; reflexivity | vm_compute; reflexivity |].
  exists s'. split; [exact Hs'|]. rewrite Ho. vm_compute. reflexivity.
Defined.

(** Between a notification that finds a channel full and the closing of the channel, the
    owner takes an event and another goroutine notifies the next one: the owner sees an
    event that follows one it never got, on a channel that is still open. *)
Example hole_before_close :
  let w := watched [ARegister on_output; ANotify (event_of f1) [1]; ANotify (event_of f2) [1]; AReceive 1; ANotify (event_of f3) [1]; AReceive 1] in
  (match w_heap w !! 1 with Some s => (ws_taken s, ws_phase s) | None => ([], Open) end) = ([event_of f1; event_of f3], Open).
Proof. vm_compute. reflexivity. Qed.
