(* ===== verification/IdentitySamples.v ===== *)
(** * Runs of the identity store

    Concrete histories on which the theorems about the identity store apply, and what three
    retries show. *)

From S2P Require Import Prelude GoStrings WakeupLease EventContract IdentityStore IdentityOps IdentitySteps IdentityInvariant IdentityHistory IdentityRetry EventStore EventLog EventAppend EventHistory EventFence IdentityFence EventSamples.

(** An agent that is observed from outside: no command names its reservations. *)
Definition no_intents : Intents := fun _ => None.

Definition sample_reservation (id key : string) (version generation : Z) : ReservationRequest :=
  mkReservationRequest id "" "a" "a2a_remote_agent" "a2a_observation" "p" "s" "" key digest_a digest_a "fence" "target" version generation.

Definition sample_incarnation (id reservation : string) (generation : Z) : IncarnationRequest :=
  mkIncarnationRequest id reservation "a" "a2a_remote_agent" id "ext" "fence" digest_a generation.

Definition sample_preparation (id reservation incarnation receipt : string) (n version generation : Z) : BindingPreparationRequest :=
  mkPreparationRequest id reservation incarnation "a" "a2a_remote_agent" "fence" receipt digest_a n version generation.

Definition sample_finalize (id incarnation receipt : string) (n version : Z) : FinalizeBindingRequest :=
  mkFinalize id "a" n version incarnation incarnation "a2a_remote_agent" "fence" receipt digest_a.

Definition sample_revoke (incarnation : string) (version : Z) : RevokeBindingRequest := mkRevoke "a" version incarnation "fence".

(** The first session of the agent, up to its preparation. *)
Definition prepared_ops : list iop :=
  [IReserve no_intents (sample_reservation "r1" "k1" 0 1); ICreateIncarnation (sample_incarnation "inc1" "r1" 4); IPrepare (sample_preparation "p1" "r1" "inc1" "" 1 0 4)].

Definition bound_ops : list iop := prepared_ops ++ [IFinalize (sample_finalize "p1" "inc1" "receipt" 1 0)].
Definition released_ops : list iop := bound_ops ++ [IRevoke (sample_revoke "inc1" 1)].

(** The second session. *)
Definition rebound_ops : list iop :=
  [IReserve no_intents (sample_reservation "r2" "k2" 2 2); ICreateIncarnation (sample_incarnation "inc2" "r2" 5); IPrepare (sample_preparation "p2" "r2" "inc2" "" 1 2 5);
   IFinalize (sample_finalize "p2" "inc2" "receipt2" 1 2)].

Definition bound_tables : itables := Eval vm_compute in identity_history bound_ops no_tables.
Definition released_tables : itables := Eval vm_compute in identity_history released_ops no_tables.

Lemma bound_reachable : reachable bound_tables.
Proof. exists bound_ops. vm_compute. reflexivity. Qed.

Lemma released_reachable : reachable released_tables.
Proof. exists released_ops. vm_compute. reflexivity. Qed.

Lemma store_refines_agent_machine_witness :
  agent_view "a" (identity_history bound_ops no_tables) = Bound 1 4 "inc1"
  /\ agent_next "a" (LRelease "a" 1 "inc1") (agent_view "a" (identity_history bound_ops no_tables)) (agent_view "a" (iop_run (IRevoke (sample_revoke "inc1" 1)) (identity_history bound_ops no_tables)))
  /\ agent_view "a" (identity_history rebound_ops released_tables) = Bound 3 5 "inc2".
Proof.
  split; [vm_compute; reflexivity|]. split; [|vm_compute; reflexivity].
  refine (proj2 (store_refines_agent_machine bound_ops (IRevoke (sample_revoke "inc1" 1)) "a" _)). vm_compute. reflexivity.
Defined.

Lemma snapshot_exact_witness :
  match GetActiveSnapshot "a" bound_tables with
  | Ok (s, t') => t' = bound_tables /\ Store_GetCurrent "a" bound_tables = Ok (sn_Binding s, bound_tables) /\ cb_State (sn_Binding s) = "active" /\ rs_State (sn_Reservation s) = "activated"
      /\ incarnation_of (sn_Incarnation s) (sn_Reservation s) /\ binding_of (sn_Binding s) (sn_Reservation s) (sn_Incarnation s)
  | Err e => False
  end.
Proof.
  pose proof (snapshot_exact bound_tables "a" bound_reachable ltac:(vm_compute; reflexivity)) as H.
  destruct (GetActiveSnapshot "a" bound_tables) as [[s t']|e] eqn:E; [exact H|vm_compute in E; discriminate E].
Defined.

Lemma retries_answer_the_same_witness :
  let o := IFinalize (sample_finalize "p1" "inc1" "receipt" 1 0) in
  iop_answer o (identity_history (IRevoke (sample_revoke "inc1" 1) :: rebound_ops) (iop_run o (identity_history prepared_ops no_tables))) = Some ("inc1", 1%Z)
  /\ iop_run o (identity_history (IRevoke (sample_revoke "inc1" 1) :: rebound_ops) (iop_run o (identity_history prepared_ops no_tables)))
     = identity_history (IRevoke (sample_revoke "inc1" 1) :: rebound_ops) (iop_run o (identity_history prepared_ops no_tables)).
Proof.
  refine (retries_answer_the_same (identity_history prepared_ops no_tables) (IFinalize (sample_finalize "p1" "inc1" "receipt" 1 0)) ("inc1", 1%Z) (IRevoke (sample_revoke "inc1" 1) :: rebound_ops) _ _ _).
  - exists prepared_ops. reflexivity.
  - reflexivity.
  - vm_compute. reflexivity.
Defined.

(** ** Both stores *)

Definition live_frame : IngressFrame :=
  mkFrame "task/a" "inc1" "output" 1 (copies 64 (last_char "e1")) (canonicalCursor "task/a" "inc1" "output" 1)
    (mkEnvelope "e1" "task.output" 1 "a" "a" "r1" (Some "inc1") "ext" 4 digest_a 1 digest_a "fence" "test" "trusted" "none" "" 0 "" None "now" "w").

(** The frame passes the fence while the incarnation is bound and not afterwards. *)
Example fence_follows_the_binding :
  VerifyIngressFrameFence (store_reader bound_tables) live_frame = Ok tt /\ is_ok (VerifyIngressFrameFence (store_reader released_tables) live_frame) = false.
Proof. vm_compute. split; reflexivity. Qed.

Definition before_release : list event_op := [OpAppend (IdentityFenceVerifier (fun _ => store_reader bound_tables)) live_frame].
Definition later_tables (j : nat) : itables := if (j <? 40)%nat then released_tables else identity_history rebound_ops released_tables.
Definition after_release : list event_op := [OpAppend (IdentityFenceVerifier (fun j => store_reader (later_tables j))) live_frame].

Lemma released_incarnation_is_silent_witness :
  exists r0, e_receipts (e_tables (@run_ops codec calm_env before_release fresh).2) !! receiptKey live_frame = Some r0 /\ rc_Frame r0 = live_frame.
Proof.
  refine (@released_incarnation_is_silent codec calm_env later_tables released_tables "a" 2 4 "inc1" before_release after_release 0 (receiptKey live_frame)
    (mkReceipt live_frame "materialized" "") released_reachable _ _ _ _ _ _).
  - vm_compute. reflexivity.
  - vm_compute. reflexivity.
  - intros j. unfold later_tables. destruct (j <? 40)%nat; [exists []|exists rebound_ops]; reflexivity.
  - intros o Ho. apply list_elem_of_singleton in Ho as ->. reflexivity.
  - vm_compute. reflexivity.
  - reflexivity.
Defined.

(** ** Retries that are refused *)

(** A revocation that was done is refused when it is sent again: the replay branch expects
    the version of the revoked row, the request has the one of the active row. *)
Example revoke_retry_refused :
  iop_answer (IRevoke (sample_revoke "inc1" 1)) bound_tables = Some ("inc1", 2%Z)
  /\ option_map err_is (match RevokeBinding (sample_revoke "inc1" 1) released_tables with Err e => Some e | Ok _ => None end) = Some [ErrIdentityFence]
  /\ iop_answer (IRevoke (sample_revoke "inc1" 2)) released_tables = Some ("inc1", 2%Z).
Proof. vm_compute. split_and!; reflexivity. Qed.

(** Two preparations of a reservation: when the first is finalized, the second can be
    neither finalized nor aborted. *)
Definition second_preparation : iop := IPrepare (sample_preparation "p2" "r1" "inc1" "" 2 0 4).

Example second_preparation_is_stuck :
  let t := identity_history (prepared_ops ++ [second_preparation; IFinalize (sample_finalize "p1" "inc1" "receipt" 1 0)]) no_tables in
  map bp_State (it_preparations t) = ["finalized"; "prepared_non_authorizing"]
  /\ iop_answer (IFinalize (sample_finalize "p2" "inc1" "receipt" 2 0)) t = None
  /\ option_map err_is (match AbortBinding (mkAbort "p2" "a" 2 "reason") t with Err e => Some e | Ok _ => None end) = Some [ErrIdentityFence].
Proof. vm_compute. split_and!; reflexivity. Qed.

(** A retry of a preparation may name a receipt, which is accepted and not kept: another one
    is finalized, and the same retry is then a conflict. *)
Example receipt_of_a_retry_is_dropped :
  let retry := IPrepare (sample_preparation "p1" "r1" "inc1" "receipt1" 1 0 4) in
  let t := identity_history prepared_ops no_tables in
  let t' := identity_history [retry; IFinalize (sample_finalize "p1" "inc1" "receipt2" 1 0)] t in
  iop_answer retry t = Some ("p1", 1%Z) /\ iop_run retry t = t /\ map cb_ActiveProcessReceiptRef (it_bindings t') = ["receipt2"] /\ iop_answer retry t' = None.
Proof. vm_compute. split_and!; reflexivity. Qed.
