(* ===== verification/AccessContract.v ===== *)
(** * The contract of access grants and waits

    Models [store/accesswait/contract.go] and [contract_validation.go], and the caller of
    [internal/mcpserver/common/caller_principal.go]: a grant lets the holder of a principal
    read, or send to, one agent from another, each named with the incarnation and binding
    it had when the grant was made; a wait is a durable question for the first event of a
    stream that matches a selector.

    A time is an instant in milliseconds and whether its location is UTC.  A grant keeps
    the request it was made from, and a handle the request of the wait: the columns that no
    update touches. *)

From S2P Require Import Prelude GoStrings WakeupLease GoTime EventContract.

(** ** Errors *)

Definition ErrInvalidAccess : string := "ErrInvalidAccess".
Definition ErrAccessDenied : string := "ErrAccessDenied".
Definition ErrAccessConflict : string := "ErrAccessConflict".
Definition ErrAccessNotFound : string := "ErrAccessNotFound".
Definition ErrAccessExpired : string := "ErrAccessExpired".
Definition ErrAccessRevoked : string := "ErrAccessRevoked".
Definition ErrInvalidWait : string := "ErrInvalidWait".
Definition ErrWaitNotFound : string := "ErrWaitNotFound".
Definition ErrWaitGap : string := "ErrWaitGap".
Definition ErrWaitQuarantined : string := "ErrWaitQuarantined".
Definition ErrWaitCursorAhead : string := "ErrWaitCursorAhead".
Definition ErrWaitReplayExpired : string := "ErrWaitReplayExpired".
Definition ErrWaitScanLimit : string := "ErrWaitScanLimit".
Definition ErrWaitTerminal : string := "ErrWaitTerminal".

Definition invalidAccess (message : string) : error := Errorf [ErrInvalidAccess] (Sprintf "%w: %s" [message]).
Definition invalidWait (message : string) : error := Errorf [ErrInvalidWait] (Sprintf "%w: %s" [message]).

Definition contractVersion : Z := 1.
Definition maxID : nat := 128.
Definition maxRef : nat := 512.
Definition maxSourceID : nat := 256.
Definition maxNamespace : nat := 256.
Definition maxEventType : nat := 128.
Definition maxSelectorEvents : nat := 32.

(** ** Records *)

Record Time := mkTime { t_ms : Z; t_utc : bool }.

(** [value.IsZero()], and [value.Location() == time.UTC]. *)
Definition given_utc (t : Time) : bool := negb (IsZero (t_ms t)) && t_utc t.

Record FenceSnapshot := mkFence {
  fs_AgentID : string; fs_ReservationID : string; fs_ReservationGeneration : Z; fs_IncarnationID : string; fs_IncarnationGeneration : Z;
  fs_BindingVersion : Z; fs_BindingDigest : string; fs_SourceFenceRef : string;
}.

Record AccessGrantRequest := mkGrantRequest {
  gq_GrantID : string; gq_CallerPrincipalRef : string; gq_ScopeRef : string; gq_Source : FenceSnapshot; gq_Target : FenceSnapshot;
  gq_CanRead : bool; gq_CanSend : bool; gq_IdempotencyNamespace : string; gq_IdempotencyKeyDigest : string; gq_RequestDigest : string;
  gq_IssuedAt : Time; gq_ExpiresAt : Time;
}.

Record AccessGrant := mkGrant {
  ag_Request : AccessGrantRequest; ag_Revision : Z; ag_Status : string; ag_CreatedAt : Z; ag_UpdatedAt : Z;
  ag_RevokedAt : option Z; ag_ExpiredAt : option Z;
}.

Definition ag_GrantID (g : AccessGrant) : string := gq_GrantID (ag_Request g).
Definition ag_CallerPrincipalRef (g : AccessGrant) : string := gq_CallerPrincipalRef (ag_Request g).
Definition ag_ScopeRef (g : AccessGrant) : string := gq_ScopeRef (ag_Request g).
Definition ag_Source (g : AccessGrant) : FenceSnapshot := gq_Source (ag_Request g).
Definition ag_Target (g : AccessGrant) : FenceSnapshot := gq_Target (ag_Request g).
Definition ag_CanRead (g : AccessGrant) : bool := gq_CanRead (ag_Request g).
Definition ag_CanSend (g : AccessGrant) : bool := gq_CanSend (ag_Request g).
Definition ag_RequestDigest (g : AccessGrant) : string := gq_RequestDigest (ag_Request g).
Definition ag_IssuedAt (g : AccessGrant) : Z := t_ms (gq_IssuedAt (ag_Request g)).
Definition ag_ExpiresAt (g : AccessGrant) : Z := t_ms (gq_ExpiresAt (ag_Request g)).

Record RevokeGrantRequest := mkRevokeGrant {
  rg_GrantID : string; rg_GrantRevision : Z; rg_CallerPrincipalRef : string; rg_ScopeRef : string; rg_ReasonRef : string; rg_RequestDigest : string; rg_RevokedAt : Time;
}.

Record ExpireGrantRequest := mkExpireGrant { eg_GrantID : string; eg_ExpectedRevision : Z; eg_ExpiredAt : Time }.

Record AccessRequest := mkAccess {
  ac_RequestID : string; ac_GrantID : string; ac_CallerPrincipalRef : string; ac_ScopeRef : string; ac_Capability : string;
  ac_Source : FenceSnapshot; ac_Target : FenceSnapshot; ac_RequestDigest : string; ac_RequestedAt : Time;
}.

Record AccessAuthorization := mkAuthorization {
  az_RequestID : string; az_GrantID : string; az_Capability : string; az_GrantRevision : Z; az_AuthorizedAt : Time; az_ExpiresAt : Time; az_Grant : AccessGrant;
}.

Record EventSelector := mkSelector {
  es_Version : Z; es_SourceID : string; es_SourceEpoch : string; es_Lane : Lane; es_TargetAgentID : string; es_EventTypes : list string;
}.

(** Without [waitHandleIDGenerated], which is an argument of the functions that look at it. *)
Record WaitRequest := mkWaitRequest {
  wq_WaitHandleID : string; wq_GrantID : string; wq_GrantRevision : Z; wq_CallerPrincipalRef : string; wq_ScopeRef : string; wq_Selector : EventSelector;
  wq_AfterSequence : Z; wq_AfterCursor : string; wq_DeadlineAt : Time; wq_IdempotencyNamespace : string; wq_IdempotencyKeyDigest : string; wq_RequestDigest : string;
}.

Record WaitHandle := mkHandle {
  wh_Request : WaitRequest; wh_SourceAgentID : string; wh_Target : FenceSnapshot; wh_Status : string; wh_Revision : Z;
  wh_MatchedEventID : string; wh_MatchedSourceSequence : Z; wh_MatchedCanonicalCursor : string;
  wh_CreatedAt : Z; wh_UpdatedAt : Z; wh_ResolvedAt : option Z;
}.

Definition wh_WaitHandleID (h : WaitHandle) : string := wq_WaitHandleID (wh_Request h).
Definition wh_GrantID (h : WaitHandle) : string := wq_GrantID (wh_Request h).
Definition wh_GrantRevision (h : WaitHandle) : Z := wq_GrantRevision (wh_Request h).
Definition wh_CallerPrincipalRef (h : WaitHandle) : string := wq_CallerPrincipalRef (wh_Request h).
Definition wh_ScopeRef (h : WaitHandle) : string := wq_ScopeRef (wh_Request h).
Definition wh_Selector (h : WaitHandle) : EventSelector := wq_Selector (wh_Request h).
Definition wh_AfterSequence (h : WaitHandle) : Z := wq_AfterSequence (wh_Request h).
Definition wh_DeadlineAt (h : WaitHandle) : Z := t_ms (wq_DeadlineAt (wh_Request h)).
Definition wh_RequestDigest (h : WaitHandle) : string := wq_RequestDigest (wh_Request h).

Record PollRequest := mkPoll { po_WaitHandleID : string; po_CallerPrincipalRef : string; po_ScopeRef : string; po_GrantRevision : Z }.

Record CancelRequest := mkCancel {
  ca_WaitHandleID : string; ca_CallerPrincipalRef : string; ca_ScopeRef : string; ca_GrantRevision : Z; ca_ReasonRef : string; ca_CancelledAt : Time;
}.

Record WaitResult := mkResult { wt_Handle : WaitHandle; wt_Event : option AgentEvent; wt_Status : string; wt_NextCursor : string; wt_IsError : bool }.

#[export] Instance FenceSnapshot_eq_dec : EqDecision FenceSnapshot.
Proof. solve_decision. Defined.
#[export] Instance EventSelector_eq_dec : EqDecision EventSelector.
Proof. solve_decision. Defined.

(** ** Texts, digests and times *)

(** [kind] is [invalidAccess] or [invalidWait]: both give the message after the sentinel. *)
Definition aw_validateText (kind : string -> error) (name value : string) (limit : nat) (allowEmpty : bool) : result error unit :=
  guard_err (negb ((negb allowEmpty && String.eqb value EmptyString) || negb (String.eqb (TrimSpace value) value) || (limit <? String.length value)%nat
                   || negb (ValidString value) || Contains value nul)) (kind (name +:+ " must be bounded canonical text")).

Definition aw_validateDigest (kind : string -> error) (name value : string) (required : bool) : result error unit :=
  if negb required && String.eqb value EmptyString then Ok tt
  else if negb (String.length value =? 64)%nat || negb (String.eqb (ToLower value) value) then Err (kind (name +:+ " must be lowercase 256-bit hex"))
  else guard_err (str_forall is_hex value) (kind (name +:+ " is not hexadecimal")).

Definition validateTimeWindow (kind : string -> error) (issued expires : Time) : result error unit :=
  guard_err (given_utc issued && given_utc expires && (t_ms issued <? t_ms expires)%Z) (kind "issued_at/expires_at time window is invalid").

(** ** Fences *)

Definition validateFenceIdentity (f : FenceSnapshot) : result error unit :=
  _ ← aw_validateText invalidAccess "agent_id" (fs_AgentID f) maxID false;
  _ ← aw_validateText invalidAccess "reservation_id" (fs_ReservationID f) maxID false;
  _ ← guard_err (0 <? fs_ReservationGeneration f)%Z (invalidAccess "reservation_generation must be positive");
  aw_validateText invalidAccess "source_fence_ref" (fs_SourceFenceRef f) maxRef false.

Definition validateUnboundFence (f : FenceSnapshot) : result error unit :=
  guard_err ((fs_IncarnationGeneration f =? 0)%Z && (fs_BindingVersion f =? 0)%Z && String.eqb (fs_BindingDigest f) EmptyString)
    (invalidAccess "unbound fence contains incarnation fields").

Definition validateBoundFenceFields (f : FenceSnapshot) : result error unit :=
  _ ← aw_validateText invalidAccess "incarnation_id" (fs_IncarnationID f) maxID false;
  _ ← guard_err ((0 <? fs_IncarnationGeneration f)%Z && (0 <? fs_BindingVersion f)%Z) (invalidAccess "bound fence generations must be positive");
  aw_validateDigest invalidAccess "binding_digest" (fs_BindingDigest f) true.

Definition Fence_Validate (f : FenceSnapshot) : result error unit :=
  _ ← validateFenceIdentity f;
  if String.eqb (fs_IncarnationID f) EmptyString then validateUnboundFence f else validateBoundFenceFields f.

Definition ValidateBound (f : FenceSnapshot) : result error unit :=
  _ ← Fence_Validate f;
  guard_err (negb (String.eqb (fs_IncarnationID f) EmptyString || (fs_IncarnationGeneration f <=? 0)%Z || (fs_BindingVersion f <=? 0)%Z
                   || String.eqb (fs_BindingDigest f) EmptyString)) (invalidAccess "cross-task access requires a bound incarnation fence").

(** [strings.ContainsAny(value, "/\\")]. *)
Definition has_slash (value : string) : bool := negb (str_forall (fun a => negb (Ascii.eqb a "/" || Ascii.eqb a "\")) value).

Definition validateCanonicalSourceFence (source : FenceSnapshot) : result error unit :=
  _ ← ValidateBound source;
  guard_err (negb (has_slash (fs_AgentID source))) (invalidAccess "source fence contains unsafe canonical identity component").

Definition validateDistinctBoundFences (source target : FenceSnapshot) : result error unit :=
  _ ← validateCanonicalSourceFence source;
  _ ← ValidateBound source;
  _ ← ValidateBound target;
  guard_err (negb (String.eqb (fs_AgentID source) (fs_AgentID target))) (invalidAccess "source and target agents must differ").

Definition equalFence (left right : FenceSnapshot) : bool :=
  String.eqb (fs_AgentID left) (fs_AgentID right) && String.eqb (fs_ReservationID left) (fs_ReservationID right)
  && (fs_ReservationGeneration left =? fs_ReservationGeneration right)%Z && String.eqb (fs_IncarnationID left) (fs_IncarnationID right)
  && (fs_IncarnationGeneration left =? fs_IncarnationGeneration right)%Z && (fs_BindingVersion left =? fs_BindingVersion right)%Z
  && String.eqb (fs_BindingDigest left) (fs_BindingDigest right) && String.eqb (fs_SourceFenceRef left) (fs_SourceFenceRef right).

(** ** Grants *)

Definition validateGrantRequestIdentity (r : AccessGrantRequest) : result error unit :=
  _ ← aw_validateText invalidAccess "grant_id" (gq_GrantID r) maxID false;
  _ ← aw_validateText invalidAccess "caller_principal_ref" (gq_CallerPrincipalRef r) maxRef false;
  aw_validateText invalidAccess "scope_ref" (gq_ScopeRef r) maxRef false.

Definition validateGrantRequestProofs (r : AccessGrantRequest) : result error unit :=
  _ ← aw_validateText invalidAccess "idempotency_namespace" (gq_IdempotencyNamespace r) maxNamespace false;
  _ ← aw_validateDigest invalidAccess "idempotency_key_digest" (gq_IdempotencyKeyDigest r) true;
  _ ← aw_validateDigest invalidAccess "request_digest" (gq_RequestDigest r) true;
  validateTimeWindow invalidAccess (gq_IssuedAt r) (gq_ExpiresAt r).

Definition GrantRequest_Validate (r : AccessGrantRequest) : result error unit :=
  _ ← validateGrantRequestIdentity r;
  _ ← validateDistinctBoundFences (gq_Source r) (gq_Target r);
  _ ← guard_err (gq_CanRead r || gq_CanSend r) (invalidAccess "grant must enable read or send");
  validateGrantRequestProofs r.

Definition accessGrantRequestFromGrant (g : AccessGrant) : AccessGrantRequest := ag_Request g.

Definition validGrantStatus (status : string) : bool := str_in status ["active"; "revoked"; "expired"].

Definition validTerminalTime (value : option Z) (created : Z) : bool :=
  match value with Some t => negb (IsZero t) && (created <=? t)%Z | None => false end.

Definition validateGrantTerminalStatus (g : AccessGrant) : result error unit :=
  _ ← guard_err (negb (String.eqb (ag_Status g) "revoked" && negb (validTerminalTime (ag_RevokedAt g) (ag_CreatedAt g)))) (invalidAccess "revoked grant requires revoked_at");
  guard_err (negb (String.eqb (ag_Status g) "expired" && negb (validTerminalTime (ag_ExpiredAt g) (ag_CreatedAt g)))) (invalidAccess "expired grant requires expired_at").

Definition is_set {A} (o : option A) : bool := match o with Some _ => true | None => false end.

Definition validateGrantTerminalOneHot (g : AccessGrant) : result error unit :=
  _ ← guard_err (negb (String.eqb (ag_Status g) "active" && (is_set (ag_RevokedAt g) || is_set (ag_ExpiredAt g)))) (invalidAccess "active grant cannot carry terminal timestamp");
  guard_err (negb ((String.eqb (ag_Status g) "revoked" && is_set (ag_ExpiredAt g)) || (String.eqb (ag_Status g) "expired" && is_set (ag_RevokedAt g))))
    (invalidAccess "grant terminal timestamps are not one-hot").

Definition validateGrantTerminalTime (g : AccessGrant) : result error unit := _ ← validateGrantTerminalStatus g; validateGrantTerminalOneHot g.

(** The schema version of a row is always 1 and is left out. *)
Definition validatePersistedGrant (g : AccessGrant) : result error unit :=
  _ ← guard_err (0 <? ag_Revision g)%Z (invalidAccess "grant revision or schema version is invalid");
  _ ← guard_err (validGrantStatus (ag_Status g)) (invalidAccess "grant status is unsupported");
  _ ← guard_err (negb (IsZero (ag_CreatedAt g)) && negb (IsZero (ag_UpdatedAt g)) && (ag_CreatedAt g <=? ag_UpdatedAt g)%Z) (invalidAccess "grant timestamps are invalid");
  validateGrantTerminalTime g.

Definition Grant_Validate (g : AccessGrant) : result error unit := _ ← GrantRequest_Validate (accessGrantRequestFromGrant g); validatePersistedGrant g.

Definition validateRevokeGrantRequest (r : RevokeGrantRequest) : result error unit :=
  _ ← aw_validateText invalidAccess "grant_id" (rg_GrantID r) maxID false;
  _ ← guard_err (0 <? rg_GrantRevision r)%Z (invalidAccess "grant_revision must be positive");
  _ ← aw_validateText invalidAccess "caller_principal_ref" (rg_CallerPrincipalRef r) maxRef false;
  _ ← aw_validateText invalidAccess "scope_ref" (rg_ScopeRef r) maxRef false;
  _ ← aw_validateText invalidAccess "reason_ref" (rg_ReasonRef r) maxRef false;
  _ ← aw_validateDigest invalidAccess "request_digest" (rg_RequestDigest r) true;
  guard_err (given_utc (rg_RevokedAt r)) (invalidAccess "revoked_at is required").

Definition ExpireRequest_Validate (r : ExpireGrantRequest) : result error unit :=
  _ ← aw_validateText invalidAccess "grant_id" (eg_GrantID r) maxID false;
  _ ← guard_err (0 <? eg_ExpectedRevision r)%Z (invalidAccess "expected_revision must be positive");
  guard_err (given_utc (eg_ExpiredAt r)) (invalidAccess "expired_at must be UTC").

(** ** Requests for access, and their answers *)

Definition validateAccessRequestIdentity (r : AccessRequest) : result error unit :=
  all_ok (map (fun f => aw_validateText invalidAccess f.1.1 f.1.2 f.2 false)
    [("request_id", ac_RequestID r, maxID); ("grant_id", ac_GrantID r, maxID); ("caller_principal_ref", ac_CallerPrincipalRef r, maxRef); ("scope_ref", ac_ScopeRef r, maxRef)]).

Definition validateAccessRequestProof (r : AccessRequest) : result error unit :=
  _ ← aw_validateDigest invalidAccess "request_digest" (ac_RequestDigest r) true;
  guard_err (given_utc (ac_RequestedAt r)) (invalidAccess "requested_at is required").

Definition known_capability (c : string) : bool := String.eqb c "read" || String.eqb c "send".

Definition AccessRequest_Validate (r : AccessRequest) : result error unit :=
  _ ← validateAccessRequestIdentity r;
  _ ← guard_err (known_capability (ac_Capability r)) (invalidAccess "capability is unsupported");
  _ ← validateDistinctBoundFences (ac_Source r) (ac_Target r);
  validateAccessRequestProof r.

Definition validateAuthorizationIdentity (a : AccessAuthorization) : result error unit :=
  _ ← aw_validateText invalidAccess "request_id" (az_RequestID a) maxID false;
  aw_validateText invalidAccess "grant_id" (az_GrantID a) maxID false.

Definition validateAuthorizationWindow (a : AccessAuthorization) : result error unit :=
  guard_err ((0 <? az_GrantRevision a)%Z && given_utc (az_AuthorizedAt a) && given_utc (az_ExpiresAt a) && (t_ms (az_AuthorizedAt a) <? t_ms (az_ExpiresAt a))%Z)
    (invalidAccess "authorization revision or time window is invalid").

Definition validateAuthorizationGrant (a : AccessAuthorization) : result error unit :=
  _ ← guard_err (String.eqb (ag_Status (az_Grant a)) "active") (invalidAccess "authorization cannot contain a terminal grant");
  _ ← guard_err (String.eqb (ag_GrantID (az_Grant a)) (az_GrantID a) && (ag_Revision (az_Grant a) =? az_GrantRevision a)%Z) (invalidAccess "authorization grant does not match");
  guard_err (negb ((String.eqb (az_Capability a) "read" && negb (ag_CanRead (az_Grant a))) || (String.eqb (az_Capability a) "send" && negb (ag_CanSend (az_Grant a)))))
    (invalidAccess "grant does not contain capability").

Definition Authorization_Validate (a : AccessAuthorization) : result error unit :=
  _ ← validateAuthorizationIdentity a;
  _ ← guard_err (known_capability (az_Capability a)) (invalidAccess "capability is unsupported");
  _ ← validateAuthorizationWindow a;
  _ ← Grant_Validate (az_Grant a);
  validateAuthorizationGrant a.

(** ** Selectors *)

Definition validSelectorLane : Lane -> bool := validLane.

Definition validateSelectorHeader (s : EventSelector) : result error unit :=
  _ ← guard_err (es_Version s =? contractVersion)%Z (invalidWait "selector version must be 1");
  _ ← aw_validateText invalidWait "source_id" (es_SourceID s) maxSourceID false;
  _ ← aw_validateText invalidWait "source_epoch" (es_SourceEpoch s) maxID false;
  _ ← guard_err (validSelectorLane (es_Lane s)) (invalidWait "selector lane is unsupported");
  aw_validateText invalidWait "target_agent_id" (es_TargetAgentID s) maxID false.

(** The loop: the types that were seen, and the one before. *)
Fixpoint event_types_loop (seen : list string) (before : option string) (l : list string) : result error unit :=
  match l with
  | [] => Ok tt
  | x :: l =>
      _ ← aw_validateText invalidWait "event_type" x maxEventType false;
      if str_in x seen || match before with Some p => String.leb x p | None => false end then Err (invalidWait "selector event_types must be unique and sorted")
      else event_types_loop (x :: seen) (Some x) l
  end.

Definition validateSelectorEventTypes (eventTypes : list string) : result error unit :=
  if (length eventTypes =? 0)%nat || (maxSelectorEvents <? length eventTypes)%nat then Err (invalidWait "selector event_types count is invalid")
  else event_types_loop [] None eventTypes.

Definition Selector_Validate (s : EventSelector) : result error unit := _ ← validateSelectorHeader s; validateSelectorEventTypes (es_EventTypes s).

(** ** Waits *)

Definition validateWaitRequestIdentity (r : WaitRequest) : result error unit :=
  _ ← (if String.eqb (wq_WaitHandleID r) EmptyString then Ok tt else aw_validateText invalidWait "wait_handle_id" (wq_WaitHandleID r) maxID false);
  _ ← aw_validateText invalidWait "grant_id" (wq_GrantID r) maxID false;
  _ ← guard_err (0 <? wq_GrantRevision r)%Z (invalidWait "grant_revision must be positive");
  _ ← aw_validateText invalidWait "caller_principal_ref" (wq_CallerPrincipalRef r) maxRef false;
  aw_validateText invalidWait "scope_ref" (wq_ScopeRef r) maxRef false.

Definition validateWaitCursor (r : WaitRequest) : result error unit :=
  if (wq_AfterSequence r <? 0)%Z then Err (invalidWait "after_sequence cannot be negative")
  else if (wq_AfterSequence r =? 0)%Z then guard_err (String.eqb (wq_AfterCursor r) EmptyString) (invalidWait "initial wait cursor must be empty")
  else if String.eqb (wq_AfterCursor r) EmptyString then Err (invalidWait "after_cursor is required after the initial sequence")
  else _ ← aw_validateText invalidWait "after_cursor" (wq_AfterCursor r) maxRef false;
       let s := wq_Selector r in
       guard_err (String.eqb (wq_AfterCursor r) (canonicalCursor (es_SourceID s) (es_SourceEpoch s) (es_Lane s) (wq_AfterSequence r)))
         (invalidWait "after_cursor does not match selector source tuple").

Definition validateWaitRequestProof (r : WaitRequest) : result error unit :=
  _ ← guard_err (given_utc (wq_DeadlineAt r)) (invalidWait "deadline_at is required");
  _ ← aw_validateText invalidWait "idempotency_namespace" (wq_IdempotencyNamespace r) maxNamespace false;
  _ ← aw_validateDigest invalidWait "idempotency_key_digest" (wq_IdempotencyKeyDigest r) true;
  aw_validateDigest invalidWait "request_digest" (wq_RequestDigest r) true.

Definition WaitRequest_Validate (r : WaitRequest) : result error unit :=
  _ ← validateWaitRequestIdentity r;
  _ ← Selector_Validate (wq_Selector r);
  _ ← validateWaitCursor r;
  validateWaitRequestProof r.

Definition waitRequestFromHandle (h : WaitHandle) : WaitRequest := wh_Request h.

Definition validWaitStatus (status : string) : bool := str_in status ["pending"; "satisfied"; "timed_out"; "cancelled"; "revoked"; "expired"].
Definition validWaitResultStatus (status : string) : bool := validWaitStatus status || String.eqb status "indeterminate".

Definition validateWaitHandleBinding (h : WaitHandle) : result error unit :=
  _ ← aw_validateText invalidWait "wait source agent" (wh_SourceAgentID h) maxID false;
  _ ← ValidateBound (wh_Target h);
  guard_err (negb (String.eqb (wh_SourceAgentID h) (fs_AgentID (wh_Target h)) || negb (String.eqb (fs_AgentID (wh_Target h)) (es_TargetAgentID (wh_Selector h)))))
    (invalidWait "wait target fence does not match selector or source").

Definition validateWaitHandleMetadata (h : WaitHandle) : result error unit :=
  _ ← guard_err ((0 <? wh_Revision h)%Z && negb (IsZero (wh_CreatedAt h)) && negb (IsZero (wh_UpdatedAt h)) && (wh_CreatedAt h <=? wh_UpdatedAt h)%Z)
        (invalidWait "wait handle revision or timestamps are invalid");
  guard_err (validWaitStatus (wh_Status h)) (invalidWait "wait handle status is unsupported").

Definition validateWaitMatch (h : WaitHandle) : result error unit :=
  if String.eqb (wh_MatchedEventID h) EmptyString then
    guard_err ((wh_MatchedSourceSequence h =? 0)%Z && String.eqb (wh_MatchedCanonicalCursor h) EmptyString) (invalidWait "unmatched wait contains match fields")
  else
    _ ← aw_validateText invalidWait "matched_event_id" (wh_MatchedEventID h) maxID false;
    _ ← guard_err (negb ((wh_MatchedSourceSequence h <=? 0)%Z || String.eqb (wh_MatchedCanonicalCursor h) EmptyString)) (invalidWait "matched event requires sequence and cursor");
    aw_validateText invalidWait "matched_canonical_cursor" (wh_MatchedCanonicalCursor h) maxRef false.

Definition validateWaitResolution (h : WaitHandle) : result error unit :=
  if String.eqb (wh_Status h) "pending" then guard_err (negb (is_set (wh_ResolvedAt h))) (invalidWait "pending wait cannot carry resolved_at")
  else guard_err (match wh_ResolvedAt h with Some t => negb (IsZero t) | None => false end) (invalidWait "terminal wait requires resolved_at").

Definition Handle_Validate (h : WaitHandle) : result error unit :=
  _ ← WaitRequest_Validate (waitRequestFromHandle h);
  _ ← validateWaitHandleBinding h;
  _ ← validateWaitHandleMetadata h;
  _ ← validateWaitMatch h;
  validateWaitResolution h.

Definition Poll_Validate (r : PollRequest) : result error unit :=
  _ ← aw_validateText invalidWait "wait_handle_id" (po_WaitHandleID r) maxID false;
  _ ← aw_validateText invalidWait "caller_principal_ref" (po_CallerPrincipalRef r) maxRef false;
  _ ← aw_validateText invalidWait "scope_ref" (po_ScopeRef r) maxRef false;
  guard_err (0 <? po_GrantRevision r)%Z (invalidWait "grant_revision must be positive").

Definition poll_of_cancel (r : CancelRequest) : PollRequest := mkPoll (ca_WaitHandleID r) (ca_CallerPrincipalRef r) (ca_ScopeRef r) (ca_GrantRevision r).

Definition Cancel_Validate (r : CancelRequest) : result error unit :=
  _ ← Poll_Validate (poll_of_cancel r);
  _ ← aw_validateText invalidWait "reason_ref" (ca_ReasonRef r) maxRef false;
  guard_err (negb (IsZero (t_ms (ca_CancelledAt r)))) (invalidWait "cancelled_at is required").

(** ** The caller of a request *)

Record CallerPrincipal := mkPrincipal { cp_PrincipalRef : string; cp_ScopeRef : string; cp_Profile : string; cp_AuthContext : string; cp_ExpiresAt : Time }.

Definition ErrInvalidCallerPrincipal : string := "ErrInvalidCallerPrincipal".
Definition ErrMissingCallerPrincipal : string := "ErrMissingCallerPrincipal".

Definition invalidPrincipal (message : string) : error := Errorf [ErrInvalidCallerPrincipal] (Sprintf "%w: %s" [message]).

Definition validateCallerPrincipalText (name value : string) : result error unit := aw_validateText invalidPrincipal name value 512 false.

Definition ValidateAt (p : CallerPrincipal) (now : Z) : result error unit :=
  _ ← all_ok (map (fun f => validateCallerPrincipalText f.1 f.2)
        [("principal_ref", cp_PrincipalRef p); ("scope_ref", cp_ScopeRef p); ("profile", cp_Profile p); ("auth_context", cp_AuthContext p)]);
  _ ← guard_err (given_utc (cp_ExpiresAt p)) (invalidPrincipal "expiry must be non-zero UTC");
  _ ← guard_err (negb (IsZero now)) (invalidPrincipal "validation time must be non-zero");
  guard_err (now <? t_ms (cp_ExpiresAt p))%Z (invalidPrincipal "expiry must be in the future").

(** [bound] is the value of the context, [wall] is [time.Now()]. *)
Definition RequireCallerPrincipal (bound : option CallerPrincipal) (wall : Z) : result error CallerPrincipal :=
  match bound with
  | None => Err (Errorf [ErrMissingCallerPrincipal] (Sprintf ErrMissingCallerPrincipal []))
  | Some p => _ ← map_err (fun e => wrap_err ErrInvalidCallerPrincipal (err_msg e) e) (ValidateAt p wall); Ok p
  end.

Definition isOperatorCaller (principal : CallerPrincipal) : bool :=
  let profile := ToLower (cp_Profile principal) in
  let ref := ToLower (cp_PrincipalRef principal) in
  String.eqb profile "operator" || String.eqb profile "standalone_http_local_v1" || HasPrefix profile "operator/" || HasPrefix ref "operator/".

Definition enforceContextCaller (bound : option CallerPrincipal) (wall : Z) (principalRef scopeRef : string) : result error unit :=
  match RequireCallerPrincipal bound wall with
  | Err e => if errors_Is e ErrMissingCallerPrincipal then Ok tt else Err (sentinel ErrAccessDenied)
  | Ok principal =>
      guard_err (String.eqb (cp_PrincipalRef principal) principalRef && String.eqb (cp_ScopeRef principal) scopeRef && negb (isOperatorCaller principal)) (sentinel ErrAccessDenied)
  end.

(** ** Facts *)

Lemma equalFence_eq a b : equalFence a b = true <-> a = b.
Proof.
  unfold equalFence. split; [|intros ->; by rewrite !String.eqb_refl, !Z.eqb_refl]. intros H. go_bool. destruct a, b; cbn in *; by subst.
Qed.

Lemma equalFence_refl a : equalFence a a = true.
Proof. by apply equalFence_eq. Qed.
