(* ===== verification/AccessStore.v ===== *)
(** * The tables of the access store

    Models the statements of [sql/queries/access_wait.sql] with the keys, checks and
    triggers of migration 130, and [store.go], [mapping.go] and [fence_tx.go] of
    [store/accesswait].

    The store shares one database with the identity store and the event store, and reads
    both of them.  A transaction is a function on the database that keeps nothing when it
    ends with an error; so a run in which a statement fails is as a run that was not
    done.  The JSON columns of a selector hold the selector that they encode; its SHA-256
    is an argument.

    SQLite fires the triggers before an insert, then looks at the checks, then at the keys,
    the one of [ON CONFLICT] first, and at the foreign keys when the statement ends.  Of the
    checks of the columns, the ones that the requests pass anyway ([Validate]) are left out;
    the ones on the order of two times, which compare texts, and on the size of the event
    types are not. *)

From S2P Require Import Prelude GoStrings WakeupLease GoTime EventContract IdentityStore IdentityOps EventStore AccessContract.

(** ** Rows *)

Record OrchestrationAccessGrant := mkGrantRow { gr_Request : AccessGrantRequest; gr_Revision : Z; gr_Status : string; gr_CreatedAt : Z; gr_UpdatedAt : Z }.

Record OrchestrationEventWaitHandle := mkWaitRow { wr_Handle : WaitHandle; wr_SelectorDigest : string }.

Record adb := mkADB { a_grants : list OrchestrationAccessGrant; a_waits : list OrchestrationEventWaitHandle; a_ids : itables; a_events : tables }.

Definition no_access : adb := mkADB [] [] no_tables no_rows.

Definition with_grants (l : list OrchestrationAccessGrant) (s : adb) : adb := mkADB l (a_waits s) (a_ids s) (a_events s).
Definition with_waits (l : list OrchestrationEventWaitHandle) (s : adb) : adb := mkADB (a_grants s) l (a_ids s) (a_events s).

Definition gr_GrantID (r : OrchestrationAccessGrant) : string := gq_GrantID (gr_Request r).
Definition wr_WaitHandleID (r : OrchestrationEventWaitHandle) : string := wh_WaitHandleID (wr_Handle r).
Definition wr_GrantID (r : OrchestrationEventWaitHandle) : string := wh_GrantID (wr_Handle r).
Definition wr_Status (r : OrchestrationEventWaitHandle) : string := wh_Status (wr_Handle r).
Definition wr_Revision (r : OrchestrationEventWaitHandle) : Z := wh_Revision (wr_Handle r).

(** ** Times as texts *)

Definition utcText (t : Z) : string := RFC3339Nano t.

(** The texts that [time.Parse] reads back are the ones of the years 0 to 9999. *)
Definition parseUTC (name : string) (t : Z) : result error Z :=
  _ ← guard_err ((-62167219200000 <=? t)%Z && (t <? year_10000)%Z) (Errorf [] (Sprintf "parse %s: non-canonical UTC timestamp" [name])); Ok t.

Definition optionalUTC (name : string) (t : option Z) : result error (option Z) := match t with None => Ok None | Some t => t ← parseUTC name t; Ok (Some t) end.

(** ** Rows, checked *)

Definition grantFromRow (row : OrchestrationAccessGrant) : result error AccessGrant :=
  _ ← parseUTC "grant issued_at" (t_ms (gq_IssuedAt (gr_Request row)));
  _ ← parseUTC "grant expires_at" (t_ms (gq_ExpiresAt (gr_Request row)));
  created ← parseUTC "grant created_at" (gr_CreatedAt row);
  updated ← parseUTC "grant updated_at" (gr_UpdatedAt row);
  let grant := mkGrant (gr_Request row) (gr_Revision row) (gr_Status row) created updated
    (if String.eqb (gr_Status row) "revoked" then Some updated else None) (if String.eqb (gr_Status row) "expired" then Some updated else None) in
  _ ← Grant_Validate grant;
  Ok grant.

(** Hexadecimal SHA-256 of a prefix and the JSON of the selector. *)
Class AccessCodec := { selector_sha256 : EventSelector -> string }.

Section rows.
Context `{AC : AccessCodec}.

Definition Digest (s : EventSelector) : result error string := _ ← Selector_Validate s; Ok (selector_sha256 s).

(** The columns of the selector are the ones of the JSON, but for the target. *)
Definition selectorColumnsMatch (row : OrchestrationEventWaitHandle) (selector : EventSelector) : result error unit :=
  guard_err (String.eqb (es_TargetAgentID selector) (fs_AgentID (wh_Target (wr_Handle row)))) (invalidWait "selector JSON does not match durable selector columns").

Definition selectorJSON (selector : EventSelector) : result error string := _ ← Selector_Validate selector; Digest selector.

Definition selectorFromRow (row : OrchestrationEventWaitHandle) : result error EventSelector :=
  let selector := wh_Selector (wr_Handle row) in
  _ ← selectorColumnsMatch row selector;
  expectedDigest ← selectorJSON selector;
  _ ← guard_err (String.eqb (wr_SelectorDigest row) expectedDigest) (invalidWait "selector digest does not match canonical selector");
  Ok selector.

Definition waitFromRow (row : OrchestrationEventWaitHandle) : result error WaitHandle :=
  let wait := wr_Handle row in
  _ ← parseUTC "wait deadline_at" (wh_DeadlineAt wait);
  _ ← parseUTC "wait created_at" (wh_CreatedAt wait);
  _ ← parseUTC "wait updated_at" (wh_UpdatedAt wait);
  _ ← selectorFromRow row;
  _ ← optionalUTC "wait resolved_at" (wh_ResolvedAt wait);
  _ ← Handle_Validate wait;
  Ok wait.
End rows.

(** ** Statements *)

(** What the driver reports: no row, a taken key, or a check, trigger or foreign key that refuses. *)
Inductive access_fault := NoRows | KeyTaken | Refused.

Definition Stmt (A : Type) : Type := adb -> result access_fault (A * adb).

Definition denied : error := sentinel ErrAccessDenied.

Definition classifyDBError (operation : string) (e : access_fault) : error :=
  match e with
  | NoRows => sentinel ErrAccessNotFound
  | KeyTaken => Errorf [ErrAccessConflict] (Sprintf "UNIQUE constraint failed" [])
  | Refused => Errorf [ErrAccessDenied] (Sprintf "constraint failed" [])
  end.

Definition requireAffected (kind operation : string) (affected : nat) : result error unit :=
  guard_err (affected =? 1)%nat (Errorf [kind] (Sprintf "%w: %s affected %d rows" [operation; pretty affected])).

Definition one {A} (row : adb -> option A) : Stmt A := fun s => match row s with Some r => Ok (r, s) | None => Err NoRows end.

Definition has_grant_id (id : string) (g : OrchestrationAccessGrant) : bool := String.eqb (gr_GrantID g) id.
Definition has_grant_key (ns key : string) (g : OrchestrationAccessGrant) : bool :=
  String.eqb (gq_IdempotencyNamespace (gr_Request g)) ns && String.eqb (gq_IdempotencyKeyDigest (gr_Request g)) key.
Definition has_wait_id (id : string) (w : OrchestrationEventWaitHandle) : bool := String.eqb (wr_WaitHandleID w) id.
Definition has_wait_key (ns key : string) (w : OrchestrationEventWaitHandle) : bool :=
  String.eqb (wq_IdempotencyNamespace (wh_Request (wr_Handle w))) ns && String.eqb (wq_IdempotencyKeyDigest (wh_Request (wr_Handle w))) key.

Definition GetOrchestrationAccessGrant (id : string) : Stmt OrchestrationAccessGrant := one (fun s => List.find (has_grant_id id) (a_grants s)).
Definition GetOrchestrationAccessGrantByIdempotencyKey (ns key : string) : Stmt OrchestrationAccessGrant := one (fun s => List.find (has_grant_key ns key) (a_grants s)).
Definition GetOrchestrationEventWaitHandle (id : string) : Stmt OrchestrationEventWaitHandle := one (fun s => List.find (has_wait_id id) (a_waits s)).
Definition GetOrchestrationEventWaitHandleByIdempotencyKey (ns key : string) : Stmt OrchestrationEventWaitHandle := one (fun s => List.find (has_wait_key ns key) (a_waits s)).

(** The triggers on the relation of an incarnation with its reservation and agent. *)
Definition incarnation_row (f : FenceSnapshot) (i : Incarnation) : bool :=
  String.eqb (in_IncarnationID i) (fs_IncarnationID f) && String.eqb (in_ReservationID i) (fs_ReservationID f)
  && String.eqb (in_AgentID i) (fs_AgentID f) && (in_IncarnationGeneration i =? fs_IncarnationGeneration f)%Z.

Definition fence_related (s : adb) (f : FenceSnapshot) : bool := existsb (incarnation_row f) (it_incarnations (a_ids s)).

(** The foreign keys of a fence. *)
Definition fence_references (s : adb) (f : FenceSnapshot) : bool :=
  existsb (fun r => String.eqb (rs_ReservationID r) (fs_ReservationID f) && String.eqb (rs_AgentID r) (fs_AgentID f)) (it_reservations (a_ids s))
  && existsb (fun i => String.eqb (in_IncarnationID i) (fs_IncarnationID f)) (it_incarnations (a_ids s)).

(** [wall] is the clock of the database. *)
Definition CreateOrchestrationAccessGrant (r : AccessGrantRequest) (wall : Z) : Stmt OrchestrationAccessGrant := fun s =>
  let l := a_grants s in
  if negb (fence_related s (gq_Source r) && fence_related s (gq_Target r)) then Err Refused
  else if negb (String.ltb (utcText (t_ms (gq_IssuedAt r))) (utcText (t_ms (gq_ExpiresAt r)))) then Err Refused
  else if existsb (has_grant_key (gq_IdempotencyNamespace r) (gq_IdempotencyKeyDigest r)) l then Err NoRows
  else if existsb (has_grant_id (gq_GrantID r)) l then Err KeyTaken
  else if negb (fence_references s (gq_Source r) && fence_references s (gq_Target r)) then Err Refused
  else let row := mkGrantRow r 1 "active" wall wall in Ok (row, with_grants (l ++ [row]) s).

(** An update of the rows that pass, and their number. *)
Definition update_rows {A} (hit : A -> bool) (f : A -> A) (l : list A) : nat * list A := (length (List.filter hit l), map (fun r => if hit r then f r else r) l).

Definition open_grant (id : string) (revision : Z) (g : OrchestrationAccessGrant) : bool :=
  has_grant_id id g && (gr_Revision g =? revision)%Z && String.eqb (gr_Status g) "active".

Definition close_grant (status : string) (updated : Z) (g : OrchestrationAccessGrant) : OrchestrationAccessGrant :=
  mkGrantRow (gr_Request g) (gr_Revision g + 1) status (gr_CreatedAt g) updated.

Definition RevokeOrchestrationAccessGrant (id : string) (expectedRevision wall : Z) : Stmt nat := fun s =>
  let '(n, l) := update_rows (open_grant id expectedRevision) (close_grant "revoked" wall) (a_grants s) in Ok (n, with_grants l s).

(** [julianday] orders times as instants. *)
Definition due_grant (now : Z) (g : OrchestrationAccessGrant) : bool := (t_ms (gq_ExpiresAt (gr_Request g)) <=? now)%Z.

Definition ExpireOrchestrationAccessGrant (id : string) (expectedRevision now : Z) : Stmt nat := fun s =>
  let '(n, l) := update_rows (fun g => open_grant id expectedRevision g && due_grant now g) (close_grant "expired" now) (a_grants s) in Ok (n, with_grants l s).

(** [ORDER BY julianday(expires_at), grant_id]. *)
Definition expiry_le (a b : OrchestrationAccessGrant) : Prop :=
  let ea := t_ms (gq_ExpiresAt (gr_Request a)) in let eb := t_ms (gq_ExpiresAt (gr_Request b)) in
  (ea < eb)%Z \/ (ea = eb /\ String.leb (gr_GrantID a) (gr_GrantID b) = true).

#[export] Instance expiry_le_dec a b : Decision (expiry_le a b).
Proof. unfold expiry_le; cbn. apply _. Defined.

Definition ListOrchestrationAccessGrantExpiryCandidates (now : Z) (limit : nat) (s : adb) : list OrchestrationAccessGrant :=
  take limit (merge_sort expiry_le (List.filter (fun g => String.eqb (gr_Status g) "active" && due_grant now g) (a_grants s))).

(** [json.Marshal] writes a rune with so many characters. *)
Definition json_rune_chars (r : rune) : nat :=
  if existsb (N.eqb r) [34; 92; 8; 12; 10; 13; 9]%N then 2
  else if (r <? 32)%N || existsb (N.eqb r) [60; 62; 38; 0x2028; 0x2029]%N then 6 else 1.

Definition json_string_chars (s : string) : nat := 2 + sum_list (map json_rune_chars (runes s)).

(** [length(event_types_json)]: the brackets, the strings, and the commas. *)
Definition event_types_chars (l : list string) : nat := 2 + sum_list (map json_string_chars l) + (length l - 1).

Definition pending_row (r : WaitRequest) (source : string) (target : FenceSnapshot) (digest : string) (wall : Z) : OrchestrationEventWaitHandle :=
  mkWaitRow (mkHandle r source target "pending" 1 EmptyString 0 EmptyString wall wall None) digest.

Definition CreateOrchestrationEventWaitHandle (r : WaitRequest) (source : string) (target : FenceSnapshot) (digest : string) (wall : Z) : Stmt OrchestrationEventWaitHandle := fun s =>
  let l := a_waits s in
  if negb (fence_related s target) then Err Refused
  else if (4096 <? event_types_chars (es_EventTypes (wq_Selector r)))%nat then Err Refused
  else if existsb (has_wait_key (wq_IdempotencyNamespace r) (wq_IdempotencyKeyDigest r)) l then Err NoRows
  else if existsb (has_wait_id (wq_WaitHandleID r)) l then Err KeyTaken
  else if negb (existsb (has_grant_id (wq_GrantID r)) (a_grants s) && fence_references s target) then Err Refused
  else let row := pending_row r source target digest wall in Ok (row, with_waits (l ++ [row]) s).

(** The rows of a grant; the loop over them updates each on its own, so their order is not kept. *)
Definition ListOrchestrationEventWaitHandlesByGrant (grant : string) (s : adb) : list OrchestrationEventWaitHandle :=
  List.filter (fun w => String.eqb (wr_GrantID w) grant) (a_waits s).

Definition open_wait (id : string) (revision : Z) (w : OrchestrationEventWaitHandle) : bool :=
  has_wait_id id w && (wr_Revision w =? revision)%Z && String.eqb (wr_Status w) "pending".

(** What an update writes: the status, the match, when it was resolved, and when updated. *)
Definition resolve_wait (status eventID : string) (sequence : Z) (cursor : string) (resolved updated : Z) (w : OrchestrationEventWaitHandle) : OrchestrationEventWaitHandle :=
  let h := wr_Handle w in
  mkWaitRow (mkHandle (wh_Request h) (wh_SourceAgentID h) (wh_Target h) status (wh_Revision h + 1) eventID sequence cursor (wh_CreatedAt h) updated (Some resolved)) (wr_SelectorDigest w).

Definition close_wait (status : string) (resolved updated : Z) : OrchestrationEventWaitHandle -> OrchestrationEventWaitHandle :=
  resolve_wait status EmptyString 0 EmptyString resolved updated.

Definition update_waits (hit : OrchestrationEventWaitHandle -> bool) (f : OrchestrationEventWaitHandle -> OrchestrationEventWaitHandle) : Stmt nat := fun s =>
  let '(n, l) := update_rows hit f (a_waits s) in Ok (n, with_waits l s).

Definition of_grant (grant : string) (w : OrchestrationEventWaitHandle) : bool := String.eqb (wr_GrantID w) grant.

(** A satisfied row must have all three fields of its match. *)
Definition SatisfyOrchestrationEventWaitHandle (eventID : string) (sequence : Z) (cursor : string) (resolved : Z) (id grant : string) (expectedRevision wall : Z) : Stmt nat := fun s =>
  let hit w := open_wait id expectedRevision w && of_grant grant w in
  if existsb hit (a_waits s) && (String.eqb eventID EmptyString || (sequence <=? 0)%Z || String.eqb cursor EmptyString) then Err Refused
  else update_waits hit (resolve_wait "satisfied" eventID sequence cursor resolved wall) s.

(** [deadline_at <= now_at] compares the texts. *)
Definition TimeoutOrchestrationEventWaitHandle (resolved : Z) (id : string) (expectedRevision now wall : Z) : Stmt nat :=
  update_waits (fun w => open_wait id expectedRevision w && String.leb (utcText (wh_DeadlineAt (wr_Handle w))) (utcText now)) (close_wait "timed_out" resolved wall).

Definition CancelOrchestrationEventWaitHandle (resolved : Z) (id : string) (expectedRevision wall : Z) : Stmt nat :=
  update_waits (open_wait id expectedRevision) (close_wait "cancelled" resolved wall).

Definition RevokeOrchestrationEventWaitHandle (resolved : Z) (id grant : string) (expectedRevision wall : Z) : Stmt nat :=
  update_waits (fun w => open_wait id expectedRevision w && of_grant grant w) (close_wait "revoked" resolved wall).

Definition ExpireOrchestrationEventWaitHandleByGrant (resolved : Z) (id grant : string) (expectedRevision : Z) : Stmt nat :=
  update_waits (fun w => open_wait id expectedRevision w && of_grant grant w) (close_wait "expired" resolved resolved).

(** ** Transactions *)

Definition AM (A : Type) : Type := adb -> result error (A * adb).

#[export] Instance AM_ret : MRet AM := fun A a s => Ok (a, s).
#[export] Instance AM_bind : MBind AM := fun A B f m s => match m s with Ok (a, s') => f a s' | Err e => Err e end.

Definition alift {A} (r : result error A) : AM A := fun s => a ← r; Ok (a, s).
Definition afail {A} (e : error) : AM A := fun _ => Err e.
Definition aguard (b : bool) (e : error) : AM unit := if b then mret tt else afail e.
Definition aread {A} (f : adb -> A) : AM A := fun s => Ok (f s, s).
Definition aquery {A} (operation : string) (q : Stmt A) : AM A := fun s => map_err (classifyDBError operation) (q s).

(** A query whose [sql.ErrNoRows] is looked at. *)
Definition aquery_opt {A} (operation : string) (q : Stmt A) : AM (option A) := fun s =>
  match q s with Ok (a, s') => Ok (Some a, s') | Err NoRows => Ok (None, s) | Err e => Err (classifyDBError operation e) end.

(** [WithImmediateTx]: commit, or roll back. *)
Definition withWriteTx {A} (m : AM A) (s : adb) : result error A * adb := match m s with Ok (a, s') => (Ok a, s') | Err e => (Err e, s) end.

(** A read of one row outside of a transaction. *)
Definition read_at {A} (m : AM A) (s : adb) : result error A := fst <$> m s.

(** ** The other stores *)

(** [GetCurrentWithDBTX]; [GetCurrent] is the same read on another connection. *)
Definition current_binding (agent : string) : AM CurrentBinding := fun s => match GetCurrentWithDBTX agent (a_ids s) with Ok (b, _) => Ok (b, s) | Err e => Err e end.

Definition no_faults : EventEnv := {| fault := fun _ => None; identity_rows := fun _ => true |}.

(** [ListEventsTx], [GetEventTx] and [GetSourceStateTx] read in the transaction. *)
Definition event_read {A} (m : EM A) : AM A := fun s => match (m (mkEDB (a_events s) 0)).1 with Ok a => Ok (a, s) | Err e => Err e end.

Section reads.
Context `{EC : EventCodec}.
Local Existing Instance no_faults.

Definition selector_stream (sel : EventSelector) : skey := (es_SourceID sel, es_SourceEpoch sel, es_Lane sel).

Definition ListEventsTx (k : skey) (after limit : Z) : AM (list AgentEvent) := event_read (ListEvents k after limit).
Definition GetEventTx (eventID : string) : AM AgentEvent := event_read (GetEvent eventID).
Definition GetSourceStateTx (k : skey) : AM SourceState := event_read (GetSourceState k).
End reads.

Definition fenceFromBinding (b : CurrentBinding) : FenceSnapshot :=
  mkFence (cb_AgentID b) (cb_ReservationID b) (cb_ReservationGeneration b) (cb_IncarnationID b) (cb_IncarnationGeneration b) (cb_BindingVersion b)
    (cb_BindingDigest b) (cb_SourceFenceRef b).

Definition fence_current (snapshot : FenceSnapshot) (b : CurrentBinding) : bool := String.eqb (cb_State b) "active" && equalFence snapshot (fenceFromBinding b).

Definition verify_one_tx (snapshot : FenceSnapshot) : AM unit := fun s =>
  match current_binding (fs_AgentID snapshot) s with
  | Ok (b, _) => if fence_current snapshot b then Ok (tt, s) else Err denied
  | Err _ => Err denied
  end.

Definition verifyRequestedFencesTx (source target : FenceSnapshot) : AM unit := _ ← verify_one_tx source; verify_one_tx target.

(** Outside of a transaction: [s1] and [s2] are the database when the two bindings are read. *)
Definition verify_one (snapshot : FenceSnapshot) (s : adb) : result error unit :=
  match current_binding (fs_AgentID snapshot) s with
  | Ok (b, _) => guard_err (fence_current snapshot b) denied
  | Err e => Err (wrap_err ErrAccessDenied (err_msg e) e)
  end.

Definition verifyRequestedFences (source target : FenceSnapshot) (s1 s2 : adb) : result error unit :=
  if String.eqb (fs_IncarnationID source) EmptyString || String.eqb (fs_IncarnationID target) EmptyString then Err denied
  else _ ← verify_one source s1; verify_one target s2.
