(* ===== verification/AccessGrants.v ===== *)
(** * Grants: creation, decision, revocation and expiry

    Models [grant.go], [grant_helpers.go], [grant_tx.go], [grant_expiry.go],
    [grant_expiry_candidate.go], [grant_expiry_runner_candidate.go] and [aliases.go] of
    [store/accesswait].

    A function that reads the database outside of a transaction gets the database at each
    of its reads, [v 0], [v 1] and so on: other transactions may run in between.  The clock
    of the store is read through [x_Now], one argument per reading; [x_Wall] is the clock of
    the machine, which SQLite and the check of the caller use, taken once for a
    transaction. *)

From S2P Require Import Prelude GoStrings WakeupLease GoTime EventContract IdentityStore IdentityOps EventStore AccessContract AccessStore.

Record Env := mkEnv { x_Caller : option CallerPrincipal; x_Now : nat -> Z; x_Wall : Z }.

(** The environment after [n] readings of the clock. *)
Definition later (n : nat) (x : Env) : Env := mkEnv (x_Caller x) (fun i => x_Now x (n + i)) (x_Wall x).

Definition enforce (x : Env) (principalRef scopeRef : string) : result error unit := enforceContextCaller (x_Caller x) (x_Wall x) principalRef scopeRef.

(** ** Creation *)

Definition grantRequestIdentityMatches (request : AccessGrantRequest) (grant : AccessGrant) : bool :=
  let g := ag_Request grant in
  String.eqb (gq_GrantID request) (gq_GrantID g) && String.eqb (gq_CallerPrincipalRef request) (gq_CallerPrincipalRef g) && String.eqb (gq_ScopeRef request) (gq_ScopeRef g)
  && Bool.eqb (gq_CanRead request) (gq_CanRead g) && Bool.eqb (gq_CanSend request) (gq_CanSend g)
  && String.eqb (gq_IdempotencyNamespace request) (gq_IdempotencyNamespace g) && String.eqb (gq_IdempotencyKeyDigest request) (gq_IdempotencyKeyDigest g)
  && String.eqb (gq_RequestDigest request) (gq_RequestDigest g).

Definition grantRequestFenceMatches (request : AccessGrantRequest) (grant : AccessGrant) : bool :=
  equalFence (gq_Source request) (ag_Source grant) && equalFence (gq_Target request) (ag_Target grant).

Definition grantRequestWindowMatches (request : AccessGrantRequest) (grant : AccessGrant) : bool :=
  (t_ms (gq_IssuedAt request) =? ag_IssuedAt grant)%Z && (t_ms (gq_ExpiresAt request) =? ag_ExpiresAt grant)%Z.

Definition grantRequestMatches (request : AccessGrantRequest) (existing : OrchestrationAccessGrant) : bool :=
  match grantFromRow existing with
  | Err _ => false
  | Ok grant => grantRequestIdentityMatches request grant && grantRequestFenceMatches request grant && grantRequestWindowMatches request grant
  end.

Definition createGrantInTx (x : Env) (request : AccessGrantRequest) : AM AccessGrant :=
  _ ← verifyRequestedFencesTx (gq_Source request) (gq_Target request);
  row ← aquery_opt "create access grant" (CreateOrchestrationAccessGrant request (x_Wall x));
  match row with
  | Some row => alift (grantFromRow row)
  | None =>
      existing ← aquery "replay access grant" (GetOrchestrationAccessGrantByIdempotencyKey (gq_IdempotencyNamespace request) (gq_IdempotencyKeyDigest request));
      _ ← aguard (grantRequestMatches request existing) (sentinel ErrAccessConflict);
      alift (grantFromRow existing)
  end.

Definition CreateGrantTx (x : Env) (request : AccessGrantRequest) : AM AccessGrant :=
  _ ← alift (GrantRequest_Validate request);
  _ ← alift (enforce x (gq_CallerPrincipalRef request) (gq_ScopeRef request));
  createGrantInTx x request.

(** The bindings are read at [v 0] and [v 1], and the transaction runs on [v 2]. *)
Definition CreateGrant (x : Env) (v : nat -> adb) (request : AccessGrantRequest) : result error AccessGrant * adb :=
  match (_ ← GrantRequest_Validate request;
         _ ← enforce x (gq_CallerPrincipalRef request) (gq_ScopeRef request);
         verifyRequestedFences (gq_Source request) (gq_Target request) (v 0) (v 1)) with
  | Err e => (Err e, v 2)
  | Ok _ => withWriteTx (CreateGrantTx x request) (v 2)
  end.

Definition CreateAccessGrant : Env -> (nat -> adb) -> AccessGrantRequest -> result error AccessGrant * adb := CreateGrant.

(** ** Reading *)

Definition getGrantWithQueries (grantID : string) : AM AccessGrant := row ← aquery "get access grant" (GetOrchestrationAccessGrant grantID); alift (grantFromRow row).

Definition GetGrantTx (grantID : string) : AM AccessGrant := _ ← alift (aw_validateText invalidAccess "grant_id" grantID maxID false); getGrantWithQueries grantID.

Definition GetGrant (grantID : string) (s : adb) : result error AccessGrant :=
  _ ← aw_validateText invalidAccess "grant_id" grantID maxID false; read_at (getGrantWithQueries grantID) s.

Definition GetAccessGrant : string -> adb -> result error AccessGrant := GetGrant.

Definition GetGrantByKey (namespace digest : string) (s : adb) : result error AccessGrant :=
  _ ← aw_validateText invalidAccess "idempotency_namespace" namespace maxNamespace false;
  _ ← aw_validateDigest invalidAccess "idempotency_key_digest" digest true;
  read_at (row ← aquery "get access grant by key" (GetOrchestrationAccessGrantByIdempotencyKey namespace digest); alift (grantFromRow row)) s.

(** ** The decision on a request *)

Definition validateGrantIdentity (grant : AccessGrant) (request : AccessRequest) : result error unit :=
  guard_err (String.eqb (ag_CallerPrincipalRef grant) (ac_CallerPrincipalRef request) && String.eqb (ag_ScopeRef grant) (ac_ScopeRef request)
             && String.eqb (fs_AgentID (ag_Source grant)) (fs_AgentID (ac_Source request)) && String.eqb (fs_AgentID (ag_Target grant)) (fs_AgentID (ac_Target request))) denied.

Definition validateGrantLifecycle (grant : AccessGrant) (now : Z) : result error unit :=
  if String.eqb (ag_Status grant) "revoked" then Err (sentinel ErrAccessRevoked)
  else if String.eqb (ag_Status grant) "expired" || (ag_ExpiresAt grant <=? now)%Z then Err (sentinel ErrAccessExpired)
  else guard_err (ag_IssuedAt grant <=? now)%Z denied.

Definition validateGrantCapability (grant : AccessGrant) (capability : string) : result error unit :=
  guard_err (negb ((String.eqb capability "read" && negb (ag_CanRead grant)) || (String.eqb capability "send" && negb (ag_CanSend grant)))) denied.

Definition validateGrantFences (grant : AccessGrant) (request : AccessRequest) : result error unit :=
  guard_err (equalFence (ac_Source request) (ag_Source grant) && equalFence (ac_Target request) (ag_Target grant)) denied.

Definition validateGrantAuthorization (grant : AccessGrant) (request : AccessRequest) (now : Z) : result error unit :=
  _ ← validateGrantIdentity grant request;
  _ ← validateGrantLifecycle grant now;
  _ ← validateGrantCapability grant (ac_Capability request);
  validateGrantFences grant request.

Definition authorization_of (request : AccessRequest) (grant : AccessGrant) (now : Z) : AccessAuthorization :=
  mkAuthorization (ac_RequestID request) (ag_GrantID grant) (ac_Capability request) (ag_Revision grant) (mkTime now true) (gq_ExpiresAt (ag_Request grant)) grant.

(** The grant is read at [v 0], the bindings at [v 1] and [v 2]. *)
Definition Authorize (x : Env) (v : nat -> adb) (request : AccessRequest) : result error AccessAuthorization :=
  _ ← AccessRequest_Validate request;
  _ ← enforce x (ac_CallerPrincipalRef request) (ac_ScopeRef request);
  grant ← GetGrant (ac_GrantID request) (v 0);
  let now := x_Now x 0 in
  _ ← validateGrantAuthorization grant request now;
  _ ← verifyRequestedFences (ag_Source grant) (ag_Target grant) (v 1) (v 2);
  Ok (authorization_of request grant now).

Definition AuthorizeAccessGrant : Env -> (nat -> adb) -> AccessRequest -> result error AccessAuthorization := Authorize.

Definition AuthorizeSend (x : Env) (v : nat -> adb) (request : AccessRequest) : result error AccessAuthorization :=
  if String.eqb (ac_Capability request) "send" then Authorize x v request else Err denied.

Definition AuthorizeTx (x : Env) (request : AccessRequest) : AM AccessAuthorization :=
  _ ← alift (AccessRequest_Validate request);
  _ ← alift (enforce x (ac_CallerPrincipalRef request) (ac_ScopeRef request));
  row ← aquery "get access grant in transaction" (GetOrchestrationAccessGrant (ac_GrantID request));
  grant ← alift (grantFromRow row);
  let now := x_Now x 0 in
  _ ← alift (validateGrantAuthorization grant request now);
  _ ← verifyRequestedFencesTx (ag_Source grant) (ag_Target grant);
  mret (authorization_of request grant now).

(** ** Revocation *)

Definition loadGrantForRevoke (grantID : string) : AM AccessGrant := row ← aquery "load grant for revoke" (GetOrchestrationAccessGrant grantID); alift (grantFromRow row).

Definition validateRevokeGrant (grant : AccessGrant) (request : RevokeGrantRequest) : result error unit :=
  if negb (String.eqb (ag_CallerPrincipalRef grant) (rg_CallerPrincipalRef request)) || negb (String.eqb (ag_ScopeRef grant) (rg_ScopeRef request))
     || negb (String.eqb (ag_RequestDigest grant) (rg_RequestDigest request)) then Err denied
  else if String.eqb (ag_Status grant) "revoked" then Err (sentinel ErrAccessRevoked)
  else if String.eqb (ag_Status grant) "expired" then Err (sentinel ErrAccessExpired)
  else guard_err (ag_Revision grant =? rg_GrantRevision request)%Z (sentinel ErrAccessConflict).

Definition persistGrantRevocation (x : Env) (request : RevokeGrantRequest) : AM unit :=
  affected ← aquery "revoke access grant" (RevokeOrchestrationAccessGrant (rg_GrantID request) (rg_GrantRevision request) (x_Wall x));
  alift (requireAffected ErrAccessConflict "revoke access grant" affected).

(** The loop over the waits of a grant; [update] is the statement for one wait. *)
Fixpoint close_each (update : OrchestrationEventWaitHandle -> Stmt nat) (lost : error) (waits : list OrchestrationEventWaitHandle) : AM unit :=
  match waits with
  | [] => mret tt
  | wait :: waits =>
      if negb (String.eqb (wr_Status wait) "pending") then close_each update lost waits
      else count ← aquery "close grant wait" (update wait);
           _ ← aguard (count =? 1)%nat lost;
           close_each update lost waits
  end.

Definition revokePendingGrantWaits (x : Env) (request : RevokeGrantRequest) (revokedAt : Z) : AM unit :=
  waits ← aread (ListOrchestrationEventWaitHandlesByGrant (rg_GrantID request));
  close_each (fun w => RevokeOrchestrationEventWaitHandle revokedAt (wr_WaitHandleID w) (rg_GrantID request) (wr_Revision w) (x_Wall x))
    (Errorf [ErrAccessConflict] (Sprintf "%w: revoke wait %s affected %d rows" [])) waits.

Definition revokeGrantInTx (x : Env) (request : RevokeGrantRequest) (revokedAt : Z) : AM AccessGrant :=
  grant ← loadGrantForRevoke (rg_GrantID request);
  _ ← alift (validateRevokeGrant grant request);
  _ ← persistGrantRevocation x request;
  _ ← revokePendingGrantWaits x request revokedAt;
  row ← aquery "read revoked access grant" (GetOrchestrationAccessGrant (rg_GrantID request));
  alift (grantFromRow row).

(** The time of the request is replaced by the clock of the store. *)
Definition RevokeGrantTx (x : Env) (request : RevokeGrantRequest) : AM AccessGrant :=
  _ ← alift (validateRevokeGrantRequest request);
  _ ← alift (enforce x (rg_CallerPrincipalRef request) (rg_ScopeRef request));
  revokeGrantInTx x request (x_Now x 0).

Definition with_revoked_at (r : RevokeGrantRequest) (t : Z) : RevokeGrantRequest :=
  mkRevokeGrant (rg_GrantID r) (rg_GrantRevision r) (rg_CallerPrincipalRef r) (rg_ScopeRef r) (rg_ReasonRef r) (rg_RequestDigest r) (mkTime t true).

Definition RevokeGrant (x : Env) (request : RevokeGrantRequest) : AM AccessGrant :=
  _ ← alift (validateRevokeGrantRequest request);
  _ ← alift (enforce x (rg_CallerPrincipalRef request) (rg_ScopeRef request));
  RevokeGrantTx (later 1 x) (with_revoked_at request (x_Now x 0)).

Definition RevokeAccessGrant : Env -> RevokeGrantRequest -> AM AccessGrant := RevokeGrant.

(** ** Expiry *)

Definition loadGrantForExpiry (grantID : string) : AM AccessGrant := row ← aquery "load grant for expiry" (GetOrchestrationAccessGrant grantID); alift (grantFromRow row).

Definition validateExpiryCandidate (grant : AccessGrant) (request : ExpireGrantRequest) (now : Z) : result error unit :=
  if String.eqb (ag_Status grant) "revoked" then Err (sentinel ErrAccessRevoked)
  else if String.eqb (ag_Status grant) "expired" then Err (sentinel ErrAccessExpired)
  else guard_err ((ag_Revision grant =? eg_ExpectedRevision request)%Z && (ag_ExpiresAt grant <=? t_ms (eg_ExpiredAt request))%Z && (t_ms (eg_ExpiredAt request) <=? now)%Z)
         (sentinel ErrAccessConflict).

Definition markGrantExpired (request : ExpireGrantRequest) : AM unit :=
  affected ← aquery "expire access grant" (ExpireOrchestrationAccessGrant (eg_GrantID request) (eg_ExpectedRevision request) (t_ms (eg_ExpiredAt request)));
  alift (requireAffected ErrAccessConflict "expire access grant" affected).

Definition expirePendingGrantWaits (request : ExpireGrantRequest) : AM unit :=
  waits ← aread (ListOrchestrationEventWaitHandlesByGrant (eg_GrantID request));
  close_each (fun w => ExpireOrchestrationEventWaitHandleByGrant (t_ms (eg_ExpiredAt request)) (wr_WaitHandleID w) (eg_GrantID request) (wr_Revision w))
    (Errorf [ErrAccessConflict] (Sprintf "expiry wait CAS lost" [])) waits.

Definition expire_grant_tx (now : Z) (request : ExpireGrantRequest) : AM AccessGrant :=
  grant ← loadGrantForExpiry (eg_GrantID request);
  if String.eqb (ag_Status grant) "expired" && (ag_Revision grant =? eg_ExpectedRevision request)%Z then mret grant
  else
    _ ← alift (validateExpiryCandidate grant request now);
    _ ← markGrantExpired request;
    _ ← expirePendingGrantWaits request;
    row ← aquery "read expired access grant" (GetOrchestrationAccessGrant (eg_GrantID request));
    alift (grantFromRow row).

Definition ExpireGrant (now : Z) (request : ExpireGrantRequest) : AM AccessGrant := _ ← alift (ExpireRequest_Validate request); expire_grant_tx now request.

(** *** Due grants *)

Definition DefaultGrantExpiryBatchLimit : Z := 64.

Record GrantExpiryCandidate := mkCandidate { gc_GrantID : string; gc_ExpectedRevision : Z; gc_ExpiresAt : Z }.

Definition validateSecurityExpiryTime (value : Time) : result error Z :=
  _ ← guard_err (given_utc value) (Errorf [] (Sprintf "access grant expiry requires an injected UTC security time" [])); Ok (t_ms value).

Definition validateGrantExpiryLimit (limit : Z) : result error unit :=
  guard_err ((0 <? limit)%Z && (limit <=? DefaultGrantExpiryBatchLimit)%Z) (Errorf [] (Sprintf "access grant expiry limit must be in 1..%d" ["64"])).

Definition candidate_of (now : Z) (row : OrchestrationAccessGrant) : result error GrantExpiryCandidate :=
  expiresAt ← parseUTC "grant expiry candidate expires_at" (t_ms (gq_ExpiresAt (gr_Request row)));
  _ ← guard_err (negb (String.eqb (gr_GrantID row) EmptyString || (gr_Revision row <=? 0)%Z || (now <? expiresAt)%Z))
        (Errorf [] (Sprintf "grant %q expiry candidate is invalid" [gr_GrantID row]));
  Ok (mkCandidate (gr_GrantID row) (gr_Revision row) expiresAt).

Definition ListDueGrantCandidates (securityNow : Time) (limit : Z) (s : adb) : result error (list GrantExpiryCandidate) :=
  now ← validateSecurityExpiryTime securityNow;
  _ ← validateGrantExpiryLimit limit;
  map_result (candidate_of now) (ListOrchestrationAccessGrantExpiryCandidates now (Z.to_nat limit) s).

Definition expiryCandidateCASLost (candidate : GrantExpiryCandidate) (cause : error) (s : adb) : result error bool :=
  if negb (errors_Is cause ErrAccessConflict || errors_Is cause ErrAccessExpired || errors_Is cause ErrAccessRevoked) then Ok false
  else match GetGrant (gc_GrantID candidate) s with
  | Err e => if errors_Is e ErrAccessNotFound then Ok true else Err e
  | Ok latest => Ok (negb (String.eqb (ag_Status latest) "active") || negb (ag_Revision latest =? gc_ExpectedRevision candidate)%Z)
  end.

(** The transaction runs on [s]; when it fails, the grant is read again in [s']. *)
Definition expireDueGrantCandidate (now : Z) (candidate : GrantExpiryCandidate) (s s' : adb) : result error bool * adb :=
  match withWriteTx (ExpireGrant now (mkExpireGrant (gc_GrantID candidate) (gc_ExpectedRevision candidate) (mkTime (gc_ExpiresAt candidate) true))) s with
  | (Ok _, t) => (Ok true, t)
  | (Err e, t) => (match expiryCandidateCASLost candidate e s' with Err raceErr => Err raceErr | Ok true => Ok false | Ok false => Err e end, t)
  end.

(** The loop of [ExpireDueGrants] with no other transaction in between: the number of
    grants that were expired, the error that stopped the loop, and the database. *)
Fixpoint expire_loop (now : Z) (expired : Z) (candidates : list GrantExpiryCandidate) (s : adb) : Z * option error * adb :=
  match candidates with
  | [] => (expired, None, s)
  | candidate :: candidates =>
      match expireDueGrantCandidate now candidate s s with
      | (Err e, s') => (expired, Some e, s')
      | (Ok won, s') => expire_loop now (if won then expired + 1 else expired)%Z candidates s'
      end
  end.

Definition ExpireDueGrants (securityNow : Time) (limit : Z) (s : adb) : Z * option error * adb :=
  match (now ← validateSecurityExpiryTime securityNow;
         _ ← validateGrantExpiryLimit limit;
         candidates ← ListDueGrantCandidates (mkTime now true) limit s;
         Ok (now, candidates)) with
  | Err e => (0%Z, Some e, s)
  | Ok (now, candidates) => expire_loop now 0 candidates s
  end.

(** *** The runner *)

Record GrantExpiryRunnerConfig := mkRunnerConfig { rc_TickInterval : Z; rc_BatchLimit : Z }.

Definition DefaultGrantExpiryRunnerInterval : Z := 30000.

Definition ConfigOrDefaults (c : GrantExpiryRunnerConfig) : GrantExpiryRunnerConfig :=
  mkRunnerConfig (if (rc_TickInterval c =? 0)%Z then DefaultGrantExpiryRunnerInterval else rc_TickInterval c)
    (if (rc_BatchLimit c =? 0)%Z then DefaultGrantExpiryBatchLimit else rc_BatchLimit c).

Definition validateGrantExpiryRunnerConfig (cfg : GrantExpiryRunnerConfig) : result error unit :=
  _ ← guard_err (0 <? rc_TickInterval cfg)%Z (Errorf [] (Sprintf "access grant expiry runner tick interval must be positive" []));
  validateGrantExpiryLimit (rc_BatchLimit cfg).

Definition NewGrantExpiryRunner (config : option GrantExpiryRunnerConfig) : result error GrantExpiryRunnerConfig :=
  let cfg := ConfigOrDefaults (default (mkRunnerConfig 0 0) config) in
  _ ← validateGrantExpiryRunnerConfig cfg; Ok cfg.

Definition RunOnce (cfg : GrantExpiryRunnerConfig) (securityClock : Time) (s : adb) : Z * option error * adb :=
  match validateGrantExpiryRunnerConfig cfg with
  | Err e => (0%Z, Some e, s)
  | Ok _ => ExpireDueGrants securityClock (rc_BatchLimit cfg) s
  end.

(** [Run]: a pass for every tick, until one fails. *)
Fixpoint Run (cfg : GrantExpiryRunnerConfig) (ticks : list Time) (s : adb) : option error * adb :=
  match ticks with
  | [] => (None, s)
  | now :: ticks => match RunOnce cfg now s with (_, Some e, s') => (Some e, s') | (_, None, s') => Run cfg ticks s' end
  end.
