(* ===== verification/AccessWaits.v ===== *)
(** * Waits: creation, polling, cancellation and reading

    Models [wait.go], [wait_authorization.go], [wait_create.go], [wait_poll.go],
    [wait_scan.go], [wait_terminal.go], [wait_cancel.go] and [wait_events.go] of
    [store/accesswait], with the conventions of [AccessGrants] on reads outside of a
    transaction and on the clock.  The random identifier of a handle is an argument. *)

From S2P Require Import Prelude GoStrings WakeupLease GoTime EventContract IdentityStore IdentityOps EventStore AccessContract AccessStore AccessGrants.

Definition maxWaitPollEvents : Z := 200.
Definition maxWaitDuration : Z := 60000.
Definition waitPollInterval : Z := 25.
Definition maxWaitScanPages : nat := 64.

(** ** What a selector may name *)

Definition canonicalSourceFenceMatches (source : FenceSnapshot) : bool := is_ok (validateCanonicalSourceFence source).

Definition canonicalSourceID (source : FenceSnapshot) : string := "task/" +:+ fs_AgentID source.

Definition canonicalSourceEpoch (source : FenceSnapshot) : string := fs_IncarnationID source.

Definition canonicalSelectorMatchesFence (selector : EventSelector) (fence : FenceSnapshot) : bool :=
  is_ok (ValidateBound fence) && canonicalSourceFenceMatches fence
  && String.eqb (es_SourceID selector) (canonicalSourceID fence) && String.eqb (es_SourceEpoch selector) (canonicalSourceEpoch fence).

Definition targetSelectorMatchesGrant (selector : EventSelector) (grant : AccessGrant) : bool :=
  String.eqb (ag_Status grant) "active" && ag_CanRead grant && negb (has_slash (fs_IncarnationID (ag_Target grant)))
  && canonicalSelectorMatchesFence selector (ag_Target grant) && String.eqb (es_TargetAgentID selector) (fs_AgentID (ag_Target grant)).

Definition selectorSourceMatchesGrant (selector : EventSelector) (grant : AccessGrant) : bool :=
  String.eqb (ag_Status grant) "active" && validSelectorLane (es_Lane selector)
  && (canonicalSelectorMatchesFence selector (ag_Source grant) || targetSelectorMatchesGrant selector grant).

Definition selectorSourceError (selector : EventSelector) (grant : AccessGrant) : result error unit :=
  guard_err (selectorSourceMatchesGrant selector grant) (Errorf [ErrAccessDenied] (Sprintf "%w: selector source does not match grant source or bound target" [])).

(** ** Authorization of a handle *)

Definition grantIdentityMatches (request : AccessRequest) (grant : AccessGrant) : bool :=
  String.eqb (ag_CallerPrincipalRef grant) (ac_CallerPrincipalRef request) && String.eqb (ag_ScopeRef grant) (ac_ScopeRef request)
  && String.eqb (fs_AgentID (ag_Source grant)) (fs_AgentID (ac_Source request)) && String.eqb (fs_AgentID (ag_Target grant)) (fs_AgentID (ac_Target request)).

Definition grantCapabilityAllows (capability : string) (grant : AccessGrant) : bool :=
  if String.eqb capability "read" then ag_CanRead grant else if String.eqb capability "send" then ag_CanSend grant else false.

Definition authorizeAgainstGrant (now : Z) (request : AccessRequest) (grant : AccessGrant) (s1 s2 : adb) : result error unit :=
  if String.eqb (ag_Status grant) "revoked" then Err (sentinel ErrAccessRevoked)
  else if String.eqb (ag_Status grant) "expired" || (ag_ExpiresAt grant <=? now)%Z then Err (sentinel ErrAccessExpired)
  else if negb (grantIdentityMatches request grant) || negb (equalFence (ac_Source request) (ag_Source grant)) || negb (equalFence (ac_Target request) (ag_Target grant))
          || negb (canonicalSourceFenceMatches (ag_Source grant)) then Err denied
  else if negb (grantCapabilityAllows (ac_Capability request) grant) then Err denied
  else verifyRequestedFences (ag_Source grant) (ag_Target grant) s1 s2.

Definition pollRequestMatchesHandle (request : PollRequest) (handle : WaitHandle) : bool :=
  (po_GrantRevision request =? wh_GrantRevision handle)%Z && String.eqb (po_CallerPrincipalRef request) (wh_CallerPrincipalRef handle)
  && String.eqb (po_ScopeRef request) (wh_ScopeRef handle).

(** The handle names the agents and a stream of the grant. *)
Definition handle_of_grant (handle : WaitHandle) (grant : AccessGrant) : bool :=
  String.eqb (wh_SourceAgentID handle) (fs_AgentID (ag_Source grant)) && equalFence (wh_Target handle) (ag_Target grant)
  && String.eqb (es_TargetAgentID (wh_Selector handle)) (fs_AgentID (ag_Target grant)).

(** The grant is read at [v 0], the bindings at [v 1] and [v 2]. *)
Definition authorizeWait (x : Env) (v : nat -> adb) (request : PollRequest) (handle : WaitHandle) : result error unit :=
  if negb (pollRequestMatchesHandle request handle) then Err denied
  else
    grant ← GetGrant (wh_GrantID handle) (v 0);
    if negb (ag_Revision grant =? wh_GrantRevision handle)%Z then Err denied
    else if negb (handle_of_grant handle grant) then Err denied
    else if negb (selectorSourceMatchesGrant (wh_Selector handle) grant) then Err denied
    else
      let access := mkAccess (wh_WaitHandleID handle) (ag_GrantID grant) (po_CallerPrincipalRef request) (po_ScopeRef request) "read"
        (ag_Source grant) (ag_Target grant) (ag_RequestDigest grant) (mkTime (x_Now x 0) true) in
      authorizeAgainstGrant (x_Now x 1) access grant (v 1) (v 2).

Definition poll_of_handle (handle : WaitHandle) : PollRequest := mkPoll (wh_WaitHandleID handle) (wh_CallerPrincipalRef handle) (wh_ScopeRef handle) (wh_GrantRevision handle).

Definition authorizeTerminalHandle (x : Env) (v : nat -> adb) (handle : WaitHandle) : result error unit := authorizeWait x v (poll_of_handle handle) handle.

Definition accessRequestForWait (now : Z) (handle : WaitHandle) (grant : AccessGrant) : AccessRequest :=
  mkAccess (wh_WaitHandleID handle) (wh_GrantID handle) (wh_CallerPrincipalRef handle) (wh_ScopeRef handle) "read" (ag_Source grant) (ag_Target grant)
    (wh_RequestDigest handle) (mkTime now true).

Definition waitAuthorizationMatchesHandle (authorization : AccessAuthorization) (handle : WaitHandle) (grant : AccessGrant) : bool :=
  (az_GrantRevision authorization =? wh_GrantRevision handle)%Z && handle_of_grant handle grant && selectorSourceMatchesGrant (wh_Selector handle) grant.

Definition loadGrantTx (grantID : string) : AM AccessGrant := row ← aquery "load access grant in transaction" (GetOrchestrationAccessGrant grantID); alift (grantFromRow row).

(** Two readings of the clock. *)
Definition authorizeWaitTx (x : Env) (request : PollRequest) (handle : WaitHandle) : AM AccessAuthorization :=
  _ ← aguard (pollRequestMatchesHandle request handle) denied;
  grant ← loadGrantTx (wh_GrantID handle);
  authorization ← AuthorizeTx (later 1 x) (accessRequestForWait (x_Now x 0) handle grant);
  _ ← aguard (waitAuthorizationMatchesHandle authorization handle grant) denied;
  mret authorization.

Section waits.
Context `{EC : EventCodec} `{AC : AccessCodec}.

(** ** The source of the events *)

Definition ensureSourceStateStatus (state : SourceState) : result error unit :=
  if String.eqb (st_Status state) "gap" then Err (sentinel ErrWaitGap)
  else if str_in (st_Status state) ["quarantined"; "closed"] then Err (sentinel ErrWaitQuarantined)
  else if String.eqb (st_Status state) "active" then Ok tt
  else Err (sentinel ErrWaitQuarantined).

Definition ensureSourceStateReadable (state : SourceState) (afterSequence : Z) : result error unit :=
  _ ← ensureSourceStateStatus state;
  if String.eqb (st_Status state) "active" then
    if (afterSequence <? st_DedupFloor state)%Z then Err (sentinel ErrWaitReplayExpired)
    else guard_err (afterSequence <=? st_MaterializedSequence state)%Z (sentinel ErrWaitCursorAhead)
  else Ok tt.

Definition source_state_tx (selector : EventSelector) : AM SourceState := fun s =>
  match GetSourceStateTx (selector_stream selector) s with
  | Ok r => Ok r
  | Err e => Err (if errors_Is e ErrEventNotFound then sentinel ErrWaitNotFound else e)
  end.

Definition ensureSourceReadableTx (selector : EventSelector) (afterSequence : Z) : AM unit :=
  state ← source_state_tx selector; alift (ensureSourceStateReadable state afterSequence).

(** ** Choosing an event *)

Definition event_type (e : AgentEvent) : string := ev_EventType (fr_Envelope (ae_Frame e)).
Definition event_subject (e : AgentEvent) : string := ev_SubjectAgentID (fr_Envelope (ae_Frame e)).
Definition event_sequence (e : AgentEvent) : Z := fr_SourceSequence (ae_Frame e).
Definition event_cursor (e : AgentEvent) : string := fr_CanonicalCursor (ae_Frame e).

Definition eventTypeSelected (eventType : string) (allowed : list string) : bool := existsb (fun candidate => String.eqb candidate eventType) allowed.

Definition eventSelectorMatches (item : AgentEvent) (selector : EventSelector) : bool :=
  let f := ae_Frame item in
  String.eqb (fr_SourceID f) (es_SourceID selector) && String.eqb (fr_SourceEpoch f) (es_SourceEpoch selector) && String.eqb (fr_Lane f) (es_Lane selector)
  && String.eqb (event_subject item) (es_TargetAgentID selector) && negb (String.eqb (event_type item) EmptyString).

Definition eventFenceMatches (item : AgentEvent) (target : FenceSnapshot) : bool :=
  let e := fr_Envelope (ae_Frame item) in
  match ev_IncarnationID e with
  | None => false
  | Some incarnation =>
      String.eqb (ev_ReservationID e) (fs_ReservationID target) && String.eqb incarnation (fs_IncarnationID target)
      && (ev_IncarnationGeneration e =? fs_IncarnationGeneration target)%Z && (ev_BindingVersion e =? fs_BindingVersion target)%Z
      && String.eqb (ev_BindingDigest e) (fs_BindingDigest target) && String.eqb (ev_SourceFenceRef e) (fs_SourceFenceRef target)
  end.

Definition validateAuthorizedEvent (item : AgentEvent) (target : FenceSnapshot) (selector : EventSelector) : result error unit :=
  _ ← guard_err (eventSelectorMatches item selector) denied; guard_err (eventFenceMatches item target) denied.

Definition waitEventCandidate (item : AgentEvent) (handle : WaitHandle) : bool :=
  negb (event_sequence item <=? wh_AfterSequence handle)%Z && String.eqb (event_subject item) (es_TargetAgentID (wh_Selector handle))
  && str_in (event_type item) (es_EventTypes (wh_Selector handle)).

Fixpoint selectWaitEvent (items : list AgentEvent) (handle : WaitHandle) : result error (option AgentEvent) :=
  match items with
  | [] => Ok None
  | item :: items =>
      if negb (waitEventCandidate item handle) then selectWaitEvent items handle
      else _ ← validateAuthorizedEvent item (wh_Target handle) (wh_Selector handle); Ok (Some item)
  end.

Fixpoint lastSequenceAfter (batch : list AgentEvent) (next : Z) : option Z :=
  match batch with
  | [] => Some next
  | item :: batch => if (event_sequence item <=? next)%Z then None else lastSequenceAfter batch (event_sequence item)
  end.

(** At most [pages] pages. *)
Fixpoint find_pages (pages : nat) (handle : WaitHandle) (after : Z) : AM (option AgentEvent) :=
  match pages with
  | O => afail (sentinel ErrWaitScanLimit)
  | S pages =>
      batch ← ListEventsTx (selector_stream (wh_Selector handle)) after maxWaitPollEvents;
      if (length batch =? 0)%nat then mret None
      else
        matched ← alift (selectWaitEvent batch handle);
        match matched with
        | Some event => mret (Some event)
        | None =>
            match lastSequenceAfter batch after with
            | None => afail (sentinel ErrWaitGap)
            | Some next => if (Z.of_nat (length batch) <? maxWaitPollEvents)%Z then mret None else find_pages pages handle next
            end
        end
  end.

Definition findWaitEventTx (handle : WaitHandle) : AM (option AgentEvent) := find_pages maxWaitScanPages handle (wh_AfterSequence handle).

(** ** Creation *)

Definition waitGrantMatchesRequest (request : WaitRequest) (grant : AccessGrant) : bool :=
  (wq_GrantRevision request =? ag_Revision grant)%Z && String.eqb (wq_CallerPrincipalRef request) (ag_CallerPrincipalRef grant)
  && String.eqb (wq_ScopeRef request) (ag_ScopeRef grant) && String.eqb (es_TargetAgentID (wq_Selector request)) (fs_AgentID (ag_Target grant))
  && selectorSourceMatchesGrant (wq_Selector request) grant.

Definition prepareWaitGrantTx (x : Env) (request : WaitRequest) : AM AccessGrant :=
  _ ← aguard (t_ms (wq_DeadlineAt request) - x_Now x 0 <=? maxWaitDuration)%Z (invalidWait "wait deadline exceeds 60 second bound");
  row ← aquery "get access grant for wait" (GetOrchestrationAccessGrant (wq_GrantID request));
  grant ← alift (grantFromRow row);
  _ ← aguard (waitGrantMatchesRequest request grant) denied;
  _ ← alift (selectorSourceError (wq_Selector request) grant);
  _ ← aguard (t_ms (wq_DeadlineAt request) <=? ag_ExpiresAt grant)%Z (sentinel ErrAccessExpired);
  mret grant.

Definition validateWaitRequestTx (now : Z) (request : WaitRequest) (grant : AccessGrant) : AM unit :=
  let id := if String.eqb (wq_WaitHandleID request) EmptyString then "wait:replay-check" else wq_WaitHandleID request in
  let access := mkAccess id (wq_GrantID request) (wq_CallerPrincipalRef request) (wq_ScopeRef request) "read" (ag_Source grant) (ag_Target grant)
    (wq_RequestDigest request) (mkTime now true) in
  _ ← alift (validateGrantAuthorization grant access now);
  verifyRequestedFencesTx (ag_Source grant) (ag_Target grant).

(** [generated]: the identifier was made by the store. *)
Definition waitIdentityMatches (generated : bool) (request : WaitRequest) (handle : WaitHandle) : bool :=
  (String.eqb (wh_WaitHandleID handle) (wq_WaitHandleID request) || generated) && String.eqb (wh_GrantID handle) (wq_GrantID request)
  && (wh_GrantRevision handle =? wq_GrantRevision request)%Z && String.eqb (wh_CallerPrincipalRef handle) (wq_CallerPrincipalRef request)
  && String.eqb (wh_ScopeRef handle) (wq_ScopeRef request).

Definition waitCursorMatches (request : WaitRequest) (handle : WaitHandle) : bool :=
  (wh_AfterSequence handle =? wq_AfterSequence request)%Z && String.eqb (wq_AfterCursor (wh_Request handle)) (wq_AfterCursor request).

Definition waitRequestProofMatches (request : WaitRequest) (handle : WaitHandle) : bool :=
  (wh_DeadlineAt handle =? t_ms (wq_DeadlineAt request))%Z && String.eqb (wq_IdempotencyNamespace (wh_Request handle)) (wq_IdempotencyNamespace request)
  && String.eqb (wq_IdempotencyKeyDigest (wh_Request handle)) (wq_IdempotencyKeyDigest request) && String.eqb (wh_RequestDigest handle) (wq_RequestDigest request).

Definition waitRequestMatchesHandle (generated : bool) (request : WaitRequest) (handle : WaitHandle) (selectorDigest : string) : bool :=
  match Digest (wh_Selector handle) with
  | Err _ => false
  | Ok handleDigest =>
      String.eqb handleDigest selectorDigest && waitIdentityMatches generated request handle && waitCursorMatches request handle && waitRequestProofMatches request handle
  end.

Definition replay_matches (generated : bool) (request : WaitRequest) (prior : WaitHandle) (grant : AccessGrant) (selectorDigest : string) : bool :=
  waitRequestMatchesHandle generated request prior selectorDigest && String.eqb (wh_SourceAgentID prior) (fs_AgentID (ag_Source grant))
  && equalFence (wh_Target prior) (ag_Target grant) && selectorSourceMatchesGrant (wh_Selector prior) grant.

Definition replayWaitRequestTx (request : WaitRequest) (grant : AccessGrant) (selectorDigest : string) : AM (option WaitRequest) :=
  row ← aquery_opt "check replay event wait handle" (GetOrchestrationEventWaitHandleByIdempotencyKey (wq_IdempotencyNamespace request) (wq_IdempotencyKeyDigest request));
  match row with
  | None => mret None
  | Some row =>
      prior ← alift (waitFromRow row);
      _ ← aguard (replay_matches (String.eqb (wq_WaitHandleID request) EmptyString) request prior grant selectorDigest) (sentinel ErrAccessConflict);
      mret (Some (waitRequestFromHandle prior))
  end.

Definition with_handle_id (r : WaitRequest) (id : string) : WaitRequest :=
  mkWaitRequest id (wq_GrantID r) (wq_GrantRevision r) (wq_CallerPrincipalRef r) (wq_ScopeRef r) (wq_Selector r) (wq_AfterSequence r) (wq_AfterCursor r)
    (wq_DeadlineAt r) (wq_IdempotencyNamespace r) (wq_IdempotencyKeyDigest r) (wq_RequestDigest r).

(** [newID] is [newOpaqueID("wait")]; the answer says whether it was used. *)
Definition prepareWaitRequestTx (x : Env) (newID : result error string) (request : WaitRequest) (grant : AccessGrant) (selectorDigest : string) : AM (WaitRequest * bool) :=
  _ ← validateWaitRequestTx (x_Now x 0) request grant;
  replayed ← replayWaitRequestTx request grant selectorDigest;
  match replayed with
  | Some replayed => mret (replayed, false)
  | None =>
      _ ← ensureSourceReadableTx (wq_Selector request) (wq_AfterSequence request);
      if String.eqb (wq_WaitHandleID request) EmptyString then id ← alift newID; mret (with_handle_id request id, true) else mret (request, false)
  end.

Definition recheckWaitGrant (grant : AccessGrant) : AM unit :=
  row ← aquery "recheck access grant for wait" (GetOrchestrationAccessGrant (ag_GrantID grant));
  current ← alift (grantFromRow row);
  _ ← aguard ((ag_Revision current =? ag_Revision grant)%Z && String.eqb (ag_Status current) "active") denied;
  aguard (canonicalSourceFenceMatches (ag_Source current) && equalFence (ag_Source current) (ag_Source grant) && equalFence (ag_Target current) (ag_Target grant)) denied.

Definition replayWaitHandle (generated : bool) (request : WaitRequest) (grant : AccessGrant) (selectorDigest : string) : AM WaitHandle :=
  row ← aquery "replay event wait handle" (GetOrchestrationEventWaitHandleByIdempotencyKey (wq_IdempotencyNamespace request) (wq_IdempotencyKeyDigest request));
  prior ← alift (waitFromRow row);
  _ ← aguard (replay_matches generated request prior grant selectorDigest) (sentinel ErrAccessConflict);
  mret prior.

Definition createWaitRow (x : Env) (generated : bool) (request : WaitRequest) (grant : AccessGrant) (selectorDigest : string) : AM WaitHandle :=
  _ ← recheckWaitGrant grant;
  row ← aquery_opt "create event wait handle"
    (CreateOrchestrationEventWaitHandle request (fs_AgentID (ag_Source grant)) (ag_Target grant) selectorDigest (x_Wall x));
  match row with
  | None => replayWaitHandle generated request grant selectorDigest
  | Some row => alift (waitFromRow row)
  end.

Definition CreateWaitTx (x : Env) (newID : result error string) (request : WaitRequest) : AM WaitHandle :=
  _ ← alift (WaitRequest_Validate request);
  grant ← prepareWaitGrantTx x request;
  selectorDigest ← alift (selectorJSON (wq_Selector request));
  '(request, generated) ← prepareWaitRequestTx (later 1 x) newID request grant selectorDigest;
  createWaitRow x generated request grant selectorDigest.

Definition CreateWait (x : Env) (newID : result error string) (request : WaitRequest) : AM WaitHandle := _ ← alift (WaitRequest_Validate request); CreateWaitTx x newID request.

(** ** Handles *)

Definition getWaitByIDWithQueries (id : string) : AM WaitHandle :=
  row ← aquery_opt "get event wait handle" (GetOrchestrationEventWaitHandle id);
  match row with None => afail (sentinel ErrWaitNotFound) | Some row => alift (waitFromRow row) end.

Definition getWaitByID (id : string) (s : adb) : result error WaitHandle :=
  _ ← aw_validateText invalidWait "wait_handle_id" id maxID false; read_at (getWaitByIDWithQueries id) s.

Definition GetWaitByIDTx (id : string) : AM WaitHandle := _ ← alift (aw_validateText invalidWait "wait_handle_id" id maxID false); getWaitByIDWithQueries id.

Definition GetWaitByKeyTx (namespace digest : string) : AM WaitHandle :=
  _ ← alift (aw_validateText invalidWait "idempotency_namespace" namespace maxNamespace false);
  _ ← alift (aw_validateDigest invalidWait "idempotency_key_digest" digest true);
  row ← aquery_opt "get event wait handle by key in transaction" (GetOrchestrationEventWaitHandleByIdempotencyKey namespace digest);
  match row with None => afail (sentinel ErrWaitNotFound) | Some row => alift (waitFromRow row) end.

(** The handle is read at [v 0], and authorized at [v 1] and later. *)
Definition authorized_handle (x : Env) (v : nat -> adb) (request : PollRequest) : result error WaitHandle :=
  _ ← Poll_Validate request;
  handle ← getWaitByID (po_WaitHandleID request) (v 0);
  _ ← authorizeWait x (fun i => v (1 + i)) request handle;
  Ok handle.

Definition GetWait : Env -> (nat -> adb) -> PollRequest -> result error WaitHandle := authorized_handle.

Definition waitResult (handle : WaitHandle) (event : option AgentEvent) (status : string) (isError : bool) : WaitResult :=
  mkResult handle event status (match event with Some e => event_cursor e | None => EmptyString end) isError.

Definition isTerminalWaitStatus (status : string) : bool := str_in status ["satisfied"; "timed_out"; "cancelled"; "revoked"; "expired"].

(** ** Errors of the events *)

Definition localWaitError (e : error) : option error :=
  if errors_Is e ErrWaitNotFound then Some (sentinel ErrWaitNotFound)
  else if errors_Is e ErrWaitCursorAhead then Some (sentinel ErrWaitCursorAhead)
  else if errors_Is e ErrWaitReplayExpired then Some (sentinel ErrWaitReplayExpired)
  else if errors_Is e ErrWaitScanLimit then Some (sentinel ErrWaitScanLimit)
  else None.

Definition canonicalWaitError (e : error) : option error :=
  if errors_Is e ErrEventGap then Some (sentinel ErrWaitGap)
  else if errors_Is e ErrEventQuarantined then Some (sentinel ErrWaitQuarantined)
  else if errors_Is e ErrEventNotFound then Some (sentinel ErrWaitNotFound)
  else if errors_Is e ErrEventReplayExpired then Some (sentinel ErrWaitReplayExpired)
  else if errors_Is e ErrEventFence || errors_Is e ErrEventConflict then Some denied
  else None.

Definition stableWaitError (e : error) : option error := match localWaitError e with Some m => Some m | None => canonicalWaitError e end.

(** [mapWaitEventError], [mapWaitEventErrorList] and [pollEventReadError]. *)
Definition mapWaitEventError (e : error) : error := default e (stableWaitError e).

(** ** Terminal handles *)

Definition matchedEventTuple (event : AgentEvent) (handle : WaitHandle) : bool :=
  let f := ae_Frame event in let sel := wh_Selector handle in
  (fr_SourceSequence f =? wh_MatchedSourceSequence handle)%Z && String.eqb (fr_CanonicalCursor f) (wh_MatchedCanonicalCursor handle)
  && String.eqb (fr_SourceID f) (es_SourceID sel) && String.eqb (fr_SourceEpoch f) (es_SourceEpoch sel) && String.eqb (fr_Lane f) (es_Lane sel).

Definition canonicalEventTupleMatches (left right : AgentEvent) : bool :=
  let l := ae_Frame left in let r := ae_Frame right in
  String.eqb (fr_SourceID l) (fr_SourceID r) && String.eqb (fr_SourceEpoch l) (fr_SourceEpoch r) && String.eqb (fr_Lane l) (fr_Lane r)
  && (fr_SourceSequence l =? fr_SourceSequence r)%Z && String.eqb (fr_EnvelopeHash l) (fr_EnvelopeHash r) && String.eqb (event_id left) (event_id right)
  && String.eqb (fr_CanonicalCursor l) (fr_CanonicalCursor r).

Definition readSatisfiedEventTx (x : Env) (handle : WaitHandle) : AM AgentEvent :=
  _ ← authorizeWaitTx x (poll_of_handle handle) handle;
  state ← source_state_tx (wh_Selector handle);
  _ ← alift (ensureSourceStateStatus state);
  event ← GetEventTx (wh_MatchedEventID handle);
  _ ← aguard (matchedEventTuple event handle) (sentinel ErrWaitNotFound);
  mret event.

Fixpoint findMatchedTerminalEvent (events : list AgentEvent) (handle : WaitHandle) : result error WaitResult :=
  match events with
  | [] => Err (sentinel ErrWaitNotFound)
  | item :: events =>
      if negb (String.eqb (event_id item) (wh_MatchedEventID handle)) || negb (String.eqb (event_cursor item) (wh_MatchedCanonicalCursor handle)) then findMatchedTerminalEvent events handle
      else _ ← validateAuthorizedEvent item (wh_Target handle) (wh_Selector handle); Ok (waitResult handle (Some item) "satisfied" false)
  end.

Definition resultForTerminalTx (x : Env) (handle : WaitHandle) : AM WaitResult :=
  if negb (String.eqb (wh_Status handle) "satisfied") then mret (waitResult handle None (wh_Status handle) false)
  else event ← readSatisfiedEventTx x handle; alift (findMatchedTerminalEvent [event] handle).

(** A transaction that only reads, on [s]. *)
Definition resultForTerminal (x : Env) (handle : WaitHandle) (s : adb) : result error WaitResult :=
  if negb (String.eqb (wh_Status handle) "satisfied") then Ok (waitResult handle None (wh_Status handle) false)
  else map_err mapWaitEventError (read_at (resultForTerminalTx x handle) s).

(** ** Polling *)

Definition loadActiveGrantForWait (handle : WaitHandle) : AM AccessGrant :=
  row ← aquery "load grant before satisfying wait" (GetOrchestrationAccessGrant (wh_GrantID handle));
  grant ← alift (grantFromRow row);
  _ ← aguard (String.eqb (ag_Status grant) "active" && (ag_Revision grant =? wh_GrantRevision handle)%Z) denied;
  _ ← aguard (handle_of_grant handle grant && selectorSourceMatchesGrant (wh_Selector handle) grant) denied;
  mret grant.

Definition validateSatisfiedEventTx (handle : WaitHandle) (event : AgentEvent) : AM AccessGrant :=
  grant ← loadActiveGrantForWait handle;
  _ ← verifyRequestedFencesTx (ag_Source grant) (ag_Target grant);
  _ ← ensureSourceReadableTx (wh_Selector handle) (wh_AfterSequence handle);
  canonical ← ListEventsTx (frame_skey (ae_Frame event)) (event_sequence event - 1) 1;
  match canonical with
  | [found] =>
      _ ← aguard (canonicalEventTupleMatches found event) denied;
      _ ← alift (validateAuthorizedEvent found (ag_Target grant) (wh_Selector handle));
      mret grant
  | _ => afail denied
  end.

Definition updateSatisfiedWaitTx (x : Env) (handle : WaitHandle) (event : AgentEvent) : AM WaitHandle :=
  grant ← validateSatisfiedEventTx handle event;
  affected ← aquery "satisfy event wait handle"
    (SatisfyOrchestrationEventWaitHandle (event_id event) (event_sequence event) (event_cursor event) (x_Now x 0) (wh_WaitHandleID handle) (ag_GrantID grant) (wh_Revision handle) (x_Wall x));
  _ ← aguard (affected =? 1)%nat (sentinel ErrWaitTerminal);
  row ← aquery "read satisfied event wait handle" (GetOrchestrationEventWaitHandle (wh_WaitHandleID handle));
  alift (waitFromRow row).

(** The transaction of [pollPendingTx]. *)
Definition poll_pending_tx (x : Env) (handle : WaitHandle) : AM WaitResult :=
  _ ← authorizeWaitTx x (poll_of_handle handle) handle;
  _ ← ensureSourceReadableTx (wh_Selector handle) (wh_AfterSequence handle);
  matched ← findWaitEventTx handle;
  match matched with
  | None => mret (waitResult handle None "pending" false)
  | Some event => updated ← updateSatisfiedWaitTx (later 2 x) handle event; mret (waitResult updated (Some event) "satisfied" false)
  end.

(** The handle is read again at [v 0], authorized at [v 1] to [v 3], and the result is made on [v 4]. *)
Definition resolveSatisfiedRace (x : Env) (v : nat -> adb) (handle : WaitHandle) : result error WaitResult :=
  latest ← getWaitByID (wh_WaitHandleID handle) (v 0);
  if negb (isTerminalWaitStatus (wh_Status latest)) then Err (sentinel ErrWaitTerminal)
  else _ ← authorizeTerminalHandle x (fun i => v (1 + i)) latest; resultForTerminal (later 2 x) latest (v 4).

(** The transaction runs on [v 0]. *)
Definition pollPendingTx (x : Env) (v : nat -> adb) (handle : WaitHandle) : result error WaitResult * adb :=
  match withWriteTx (poll_pending_tx x handle) (v 0) with
  | (Ok result, s) => (Ok result, s)
  | (Err e, s) => (if errors_Is e ErrWaitTerminal then resolveSatisfiedRace (later 3 x) (fun i => v (1 + i)) handle else Err (mapWaitEventError e), s)
  end.

Definition updateExpiredWait (x : Env) (handle : WaitHandle) : AM WaitHandle :=
  let now := x_Now x 0 in
  affected ← aquery "expire event wait handle" (TimeoutOrchestrationEventWaitHandle now (wh_WaitHandleID handle) (wh_Revision handle) now (x_Wall x));
  _ ← aguard (affected =? 1)%nat (sentinel ErrWaitTerminal);
  row ← aquery "read expired event wait handle" (GetOrchestrationEventWaitHandle (wh_WaitHandleID handle));
  alift (waitFromRow row).

(** [latest], authorized, whatever its status. *)
Definition read_latest (x : Env) (v : nat -> adb) (handle : WaitHandle) : result error WaitResult :=
  latest ← getWaitByID (wh_WaitHandleID handle) (v 0);
  _ ← authorizeTerminalHandle x (fun i => v (1 + i)) latest;
  resultForTerminal (later 2 x) latest (v 4).

Definition expireWait (x : Env) (v : nat -> adb) (handle : WaitHandle) : result error WaitResult * adb :=
  match withWriteTx (updateExpiredWait x handle) (v 0) with
  | (Ok updated, s) => (Ok (waitResult updated None (wh_Status updated) false), s)
  | (Err e, s) => (if errors_Is e ErrWaitTerminal then read_latest (later 1 x) (fun i => v (1 + i)) handle else Err e, s)
  end.

Definition pollWaitHandle (x : Env) (v : nat -> adb) (handle : WaitHandle) : result error WaitResult * adb :=
  if negb (String.eqb (wh_Status handle) "pending") then (resultForTerminal x handle (v 0), v 0)
  else if (wh_DeadlineAt handle <=? x_Now x 0)%Z then expireWait (later 1 x) v handle
  else pollPendingTx (later 1 x) v handle.

(** The handle is read at [v 0] and authorized at [v 1] to [v 3]; what follows begins at [v 4]. *)
Definition PollWait (x : Env) (v : nat -> adb) (request : PollRequest) : result error WaitResult * adb :=
  match authorized_handle x v request with
  | Err e => (Err e, v 4)
  | Ok handle => pollWaitHandle (later 2 x) (fun i => v (4 + i)) handle
  end.

(** ** Waiting *)

Definition minDuration (left right : Z) : Z := if (left <? right)%Z then left else right.

(** How long an iteration sleeps after a poll that found nothing. *)
Definition sleep (now deadline : Z) : Z := let remaining := (deadline - now)%Z in if (remaining <=? 0)%Z then 0 else minDuration waitPollInterval remaining.

(** [Wait] without a watcher: one poll per iteration, each with its clock and its reads,
    until a poll fails or its status is not pending. *)
Fixpoint Wait (polls : list (Env * (nat -> adb))) (request : PollRequest) : option (result error WaitResult) :=
  match polls with
  | [] => None
  | (x, v) :: polls =>
      match (PollWait x v request).1 with
      | Err e => Some (Err e)
      | Ok r => if String.eqb (wt_Status r) "pending" then Wait polls request else Some (Ok r)
      end
  end.

(** ** Cancellation *)

Definition loadAuthorizedCancelHandleTx (x : Env) (request : CancelRequest) : AM WaitHandle :=
  handle ← getWaitByIDWithQueries (ca_WaitHandleID request);
  _ ← authorizeWaitTx x (poll_of_cancel request) handle;
  mret handle.

Definition cancelWaitRow (x : Env) (cancelledAt : Z) (handle : WaitHandle) : AM WaitHandle :=
  affected ← aquery "cancel event wait handle" (CancelOrchestrationEventWaitHandle cancelledAt (wh_WaitHandleID handle) (wh_Revision handle) (x_Wall x));
  _ ← aguard (affected =? 1)%nat (sentinel ErrWaitTerminal);
  row ← aquery "read cancelled event wait handle" (GetOrchestrationEventWaitHandle (wh_WaitHandleID handle));
  alift (waitFromRow row).

Definition cancelPendingWaitTx (x : Env) (cancelledAt : Z) (handle : WaitHandle) : AM WaitHandle :=
  grant ← loadActiveGrantForWait handle;
  _ ← verifyRequestedFencesTx (ag_Source grant) (ag_Target grant);
  cancelWaitRow x cancelledAt handle.

Definition resolveCancelledRaceTx (x : Env) (poll : PollRequest) (handle : WaitHandle) : AM WaitResult :=
  latest ← getWaitByIDWithQueries (wh_WaitHandleID handle);
  _ ← authorizeWaitTx x poll latest;
  _ ← aguard (isTerminalWaitStatus (wh_Status latest)) (sentinel ErrWaitTerminal);
  resultForTerminalTx (later 2 x) latest.

(** The time of the request is replaced by the clock of the store. *)
Definition CancelWaitTx (x : Env) (request : CancelRequest) : AM WaitResult :=
  _ ← alift (Cancel_Validate request);
  handle ← loadAuthorizedCancelHandleTx (later 1 x) request;
  if negb (String.eqb (wh_Status handle) "pending") then resultForTerminalTx (later 3 x) handle
  else fun s =>
    match cancelPendingWaitTx x (x_Now x 0) handle s with
    | Ok (updated, s') => Ok (waitResult updated None (wh_Status updated) false, s')
    | Err e => if errors_Is e ErrWaitTerminal then resolveCancelledRaceTx (later 3 x) (poll_of_cancel request) handle s else Err e
    end.

Definition CancelWait (x : Env) (request : CancelRequest) : AM WaitResult := _ ← alift (Cancel_Validate request); CancelWaitTx x request.

(** ** Reading events under a grant *)

Definition validateEventReadInput (request : AccessRequest) (selector : EventSelector) (afterSequence limit : Z) : result error unit :=
  _ ← AccessRequest_Validate request;
  _ ← guard_err (String.eqb (ac_Capability request) "read") denied;
  _ ← Selector_Validate selector;
  guard_err ((0 <=? afterSequence)%Z && (1 <=? limit)%Z && (limit <=? maxWaitPollEvents)%Z) (invalidWait "authorized event read limit is 1..200").

Definition eventReadTargetMatches (selector : EventSelector) (authorization : AccessAuthorization) : bool :=
  String.eqb (es_TargetAgentID selector) (fs_AgentID (ag_Target (az_Grant authorization))) && negb (String.eqb (es_SourceID selector) EmptyString)
  && negb (String.eqb (es_SourceEpoch selector) EmptyString) && validSelectorLane (es_Lane selector).

Definition validateEventReadTx (x : Env) (request : AccessRequest) (selector : EventSelector) (afterSequence limit : Z) : AM AccessAuthorization :=
  _ ← alift (validateEventReadInput request selector afterSequence limit);
  authorization ← AuthorizeTx x request;
  _ ← aguard (eventReadTargetMatches selector authorization && selectorSourceMatchesGrant selector (az_Grant authorization)) denied;
  mret authorization.

Fixpoint selectedAuthorizedEvents (items : list AgentEvent) (target : FenceSnapshot) (selector : EventSelector) : result error (list AgentEvent) :=
  match items with
  | [] => Ok []
  | item :: items =>
      if negb (eventTypeSelected (event_type item) (es_EventTypes selector)) then selectedAuthorizedEvents items target selector
      else _ ← validateAuthorizedEvent item target selector; rest ← selectedAuthorizedEvents items target selector; Ok (item :: rest)
  end.

Definition read_events_tx (x : Env) (request : AccessRequest) (selector : EventSelector) (afterSequence limit : Z) : AM (list AgentEvent) :=
  authorization ← validateEventReadTx x request selector afterSequence limit;
  _ ← ensureSourceReadableTx selector afterSequence;
  items ← ListEventsTx (selector_stream selector) afterSequence limit;
  _ ← ensureSourceReadableTx selector afterSequence;
  postAuthorization ← validateEventReadTx (later 1 x) request selector afterSequence limit;
  _ ← aguard ((az_GrantRevision postAuthorization =? az_GrantRevision authorization)%Z
              && equalFence (ag_Target (az_Grant postAuthorization)) (ag_Target (az_Grant authorization))) denied;
  alift (selectedAuthorizedEvents items (ag_Target (az_Grant postAuthorization)) selector).

(** A transaction that only reads, on [s]. *)
Definition ReadAuthorizedEvents (x : Env) (request : AccessRequest) (selector : EventSelector) (afterSequence limit : Z) (s : adb) : result error (list AgentEvent) :=
  _ ← validateEventReadInput request selector afterSequence limit;
  map_err mapWaitEventError (read_at (read_events_tx x request selector afterSequence limit) s).
End waits.
