(* ===== verification/AccessRules.v ===== *)
(** * What the transactions of the access store check

    Inversion lemmas: what holds when a transaction of [AccessGrants] or [AccessWaits]
    commits, and what it found in the identity and the event store.  The scan of the event
    log by a poll is compared with the log itself: it finds the first event after the cursor
    of the wait that its selector asks for. *)

From S2P Require Import Prelude GoStrings WakeupLease GoTime EventContract IdentityStore IdentityOps IdentitySteps EventStore EventLog EventAppend EventHistory EventRead AccessContract AccessStore AccessGrants AccessWaits.

(** ** Transactions that commit *)

Lemma am_bind {A B} (m : AM A) (f : A -> AM B) s b s' : (m ≫= f) s = Ok (b, s') -> exists a s1, m s = Ok (a, s1) /\ f a s1 = Ok (b, s').
Proof. unfold mbind, AM_bind. destruct (m s) as [[a s1]|]; [eauto|done]. Qed.

Lemma am_lift {A} (r : result error A) s a s' : alift r s = Ok (a, s') -> r = Ok a /\ s' = s.
Proof. unfold alift. destruct r as [x|e]; [|done]. by intros [= <- <-]. Qed.

Lemma am_guard b e s u s' : aguard b e s = Ok (u, s') -> b = true /\ s' = s.
Proof. unfold aguard. destruct b; [|done]. by intros [= _ <-]. Qed.

Lemma am_ret {A} (a b : A) s s' : @mret AM _ A a s = Ok (b, s') -> a = b /\ s = s'.
Proof. by intros [= -> ->]. Qed.

Lemma am_read {A} (f : adb -> A) s a s' : aread f s = Ok (a, s') -> f s = a /\ s' = s.
Proof. by intros [= -> ->]. Qed.

Lemma am_query {A} op (q : Stmt A) s a s' : aquery op q s = Ok (a, s') -> q s = Ok (a, s').
Proof. unfold aquery. apply map_err_Ok. Qed.

Lemma am_query_opt {A} op (q : Stmt A) s a s' : aquery_opt op q s = Ok (a, s') ->
  match a with Some a => q s = Ok (a, s') | None => q s = Err NoRows /\ s' = s end.
Proof. unfold aquery_opt. destruct (q s) as [[x s1]|[]] eqn:E; intros [= <- <-]; done. Qed.

Lemma am_one {A} (row : adb -> option A) s a s' : one row s = Ok (a, s') -> row s = Some a /\ s' = s.
Proof. unfold one. destruct (row s); [|done]. by intros [= <- <-]. Qed.

Lemma read_at_Ok {A} (m : AM A) s a : read_at m s = Ok a -> exists s', m s = Ok (a, s').
Proof. unfold read_at. destruct (m s) as [[x s']|]; [|done]. intros [= <-]. eauto. Qed.

Lemma event_read_Ok {A} (m : EM A) s a s' : event_read m s = Ok (a, s') -> (m (mkEDB (a_events s) 0)).1 = Ok a /\ s' = s.
Proof. unfold event_read. destruct (m _).1; [|done]. by intros [= <- <-]. Qed.

(** Peels the steps of a transaction that committed. *)
Ltac am_ok :=
  repeat match goal with
  | H : (_ ≫= _) _ = Ok (_, _) |- _ => apply am_bind in H as (? & ? & ? & H)
  | H : alift _ _ = Ok (_, _) |- _ => apply am_lift in H as [H ->]
  | H : aguard _ _ _ = Ok (_, _) |- _ => apply am_guard in H as [H ->]
  | H : aread _ _ = Ok (_, _) |- _ => apply am_read in H as [H ->]
  | H : aquery _ _ _ = Ok (_, _) |- _ => apply am_query in H
  | H : aquery_opt _ _ _ = Ok (_, _) |- _ => apply am_query_opt in H; cbn beta iota in H
  | H : one _ _ = Ok (_, _) |- _ => apply am_one in H as [H ->]
  | H : @mret AM _ _ _ _ = Ok (_, _) |- _ => apply am_ret in H as [<- <-]
  | H : afail _ _ = Ok _ |- _ => discriminate H
  | x : unit |- _ => destruct x
  end.

Ltac read_ok Hr := match goal with H : read_at _ _ = Ok _ |- _ => apply read_at_Ok in H as [? Hr] end.

(** ** Rows that are read *)

Lemma grantFromRow_Ok row g : grantFromRow row = Ok g ->
  ag_Request g = gr_Request row /\ ag_Revision g = gr_Revision row /\ ag_Status g = gr_Status row /\ GrantRequest_Validate (gr_Request row) = Ok tt
  /\ validGrantStatus (gr_Status row) = true /\ (gr_CreatedAt row <= gr_UpdatedAt row)%Z.
Proof.
  unfold grantFromRow, parseUTC, Grant_Validate, validatePersistedGrant. intros H. go_ok. cbn in *. unfold accessGrantRequestFromGrant in *. cbn in *. go_bool. by split_and!.
Qed.

Lemma find_grant_id id l g : List.find (has_grant_id id) l = Some g -> g ∈ l /\ gr_GrantID g = id.
Proof. apply find_key. Qed.

Lemma find_wait_id id l w : List.find (has_wait_id id) l = Some w -> w ∈ l /\ wr_WaitHandleID w = id.
Proof. apply find_key. Qed.

(** The grant that a transaction loads. *)
Record loaded (s : adb) (id : string) (row : OrchestrationAccessGrant) (g : AccessGrant) : Prop := {
  ld_row : row ∈ a_grants s; ld_id : gr_GrantID row = id; ld_request : ag_Request g = gr_Request row; ld_revision : ag_Revision g = gr_Revision row;
  ld_status : ag_Status g = gr_Status row; ld_valid : GrantRequest_Validate (gr_Request row) = Ok tt;
}.

Lemma load_grant id s row g : List.find (has_grant_id id) (a_grants s) = Some row -> grantFromRow row = Ok g -> loaded s id row g.
Proof. intros [? ?]%find_grant_id (? & ? & ? & ? & _)%grantFromRow_Ok. by split. Qed.

(** Names the grant that was loaded. *)
Ltac loaded_grant L Hg row g :=
  match goal with Hf : List.find (has_grant_id _) _ = Some ?r, H : grantFromRow ?r = Ok ?x |- _ =>
    rename r into row; rename x into g; rename H into Hg; pose proof (load_grant _ _ _ _ Hf Hg) as L; clear Hf end.

Lemma GetGrant_Ok id s g : GetGrant id s = Ok g -> exists row, loaded s id row g.
Proof.
  unfold GetGrant, getGrantWithQueries, GetOrchestrationAccessGrant. intros H. go_ok. read_ok Hr.
  am_ok. eauto using load_grant.
Qed.

Section waits.
Context `{EC : EventCodec} `{AC : AccessCodec}.

Lemma waitFromRow_Ok row h : waitFromRow row = Ok h -> h = wr_Handle row /\ Handle_Validate h = Ok tt /\ selector_sha256 (wh_Selector h) = wr_SelectorDigest row.
Proof.
  unfold waitFromRow, selectorFromRow, selectorJSON, Digest. intros H. go_ok. go_bool. auto.
Qed.

Lemma getWaitByIDWithQueries_Ok id s h s' : getWaitByIDWithQueries id s = Ok (h, s') -> s' = s /\ exists w, w ∈ a_waits s /\ wr_WaitHandleID w = id /\ h = wr_Handle w.
Proof.
  unfold getWaitByIDWithQueries, GetOrchestrationEventWaitHandle. intros H. am_ok. match goal with o : option _ |- _ => destruct o as [row|] end; [|by am_ok].
  am_ok. apply find_wait_id in H0 as [? ?]. apply waitFromRow_Ok in H as [-> _]. eauto.
Qed.

Lemma getWaitByID_Ok id s h : getWaitByID id s = Ok h -> exists w, w ∈ a_waits s /\ wr_WaitHandleID w = id /\ h = wr_Handle w.
Proof. unfold getWaitByID. intros H. go_ok. read_ok Hr. by apply getWaitByIDWithQueries_Ok in Hr as [_ Hr]. Qed.
End waits.

(** ** The fences *)

(** The agent of the snapshot is bound in the identity store as the snapshot says. *)
Definition fence_holds (s : adb) (f : FenceSnapshot) : Prop :=
  exists b, newest (bindings_of (fs_AgentID f) (a_ids s)) = Some b /\ cb_State b = "active" /\ f = fenceFromBinding b.

Lemma current_binding_Ok a s b s' : current_binding a s = Ok (b, s') -> s' = s /\ newest (bindings_of a (a_ids s)) = Some b.
Proof.
  unfold current_binding. destruct (GetCurrentWithDBTX a (a_ids s)) as [[c t]|] eqn:E; [|done]. intros [= <- <-]. split; [done|].
  unfold GetCurrentWithDBTX, GetCurrentRow in E. im_ok. same_rows. done.
Qed.

Lemma fence_current_holds s f b : newest (bindings_of (fs_AgentID f) (a_ids s)) = Some b -> fence_current f b = true -> fence_holds s f.
Proof. intros Hn H. unfold fence_current in H. go_bool. match goal with H : equalFence _ _ = true |- _ => apply equalFence_eq in H end. by exists b. Qed.

Lemma verify_one_tx_Ok f s u s' : verify_one_tx f s = Ok (u, s') -> s' = s /\ fence_holds s f.
Proof.
  unfold verify_one_tx. destruct (current_binding _ s) as [[b t]|] eqn:E; [|done]. destruct (fence_current f b) eqn:Ef; [|done]. intros [= _ <-]. split; [done|].
  apply current_binding_Ok in E as [_ E]. by eapply fence_current_holds.
Qed.

Lemma verify_tx_Ok f g s u s' : verifyRequestedFencesTx f g s = Ok (u, s') -> s' = s /\ fence_holds s f /\ fence_holds s g.
Proof. unfold verifyRequestedFencesTx. intros H. am_ok. apply verify_one_tx_Ok in H0 as [-> ?]. apply verify_one_tx_Ok in H as [-> ?]. auto. Qed.

Lemma verify_one_Ok f s u : verify_one f s = Ok u -> fence_holds s f.
Proof.
  unfold verify_one. destruct (current_binding _ s) as [[b t]|] eqn:E; [|done]. intros H%guard_err_Ok. apply current_binding_Ok in E as [_ E]. by eapply fence_current_holds.
Qed.

Lemma verify_Ok f g s1 s2 u : verifyRequestedFences f g s1 s2 = Ok u -> fence_holds s1 f /\ fence_holds s2 g.
Proof. unfold verifyRequestedFences. destruct (_ || _); [done|]. intros H. go_ok. split; by eapply verify_one_Ok. Qed.

(** ** Authorization *)

(** The grant allows this caller this capability at the time [now]. *)
Record allows (row : OrchestrationAccessGrant) (caller scope capability : string) (source target : FenceSnapshot) (now : Z) : Prop := {
  al_active : gr_Status row = "active"; al_caller : gq_CallerPrincipalRef (gr_Request row) = caller; al_scope : gq_ScopeRef (gr_Request row) = scope;
  al_source : gq_Source (gr_Request row) = source; al_target : gq_Target (gr_Request row) = target;
  al_window : (t_ms (gq_IssuedAt (gr_Request row)) <= now < t_ms (gq_ExpiresAt (gr_Request row)))%Z;
  al_read : capability = "read" -> gq_CanRead (gr_Request row) = true; al_send : capability = "send" -> gq_CanSend (gr_Request row) = true;
}.

Lemma valid_status s : validGrantStatus s = true -> s = "active" \/ s = "revoked" \/ s = "expired".
Proof. unfold validGrantStatus. intros H%str_in_elem. set_solver. Qed.

Lemma validateGrantAuthorization_Ok s row g r now : loaded s (ac_GrantID r) row g -> validGrantStatus (gr_Status row) = true -> validateGrantAuthorization g r now = Ok tt ->
  allows row (ac_CallerPrincipalRef r) (ac_ScopeRef r) (ac_Capability r) (ac_Source r) (ac_Target r) now.
Proof.
  intros [_ _ Hreq _ Hst _] Hvs H. unfold validateGrantAuthorization, validateGrantIdentity, validateGrantLifecycle, validateGrantCapability, validateGrantFences in H.
  unfold ag_CallerPrincipalRef, ag_ScopeRef, ag_Source, ag_Target, ag_CanRead, ag_CanSend, ag_IssuedAt, ag_ExpiresAt in H. rewrite Hreq, Hst in H. go_ok. go_bool.
  destruct (String.eqb_spec (gr_Status row) "revoked"); [done|]. destruct (String.eqb (gr_Status row) "expired" || _) eqn:E; [done|]. go_ok. go_bool.
  repeat match goal with H : equalFence _ _ = true |- _ => apply equalFence_eq in H end.
  split; try done; [destruct (valid_status _ Hvs) as [|[|]]; congruence|..]; intros Hc; rewrite Hc, String.eqb_refl in *;
    match goal with H : true && negb ?b = false |- ?b = true => by destruct b end.
Qed.

(** What a successful [AuthorizeTx] found, all in one state of the database. *)
Record authorized (s : adb) (r : AccessRequest) (row : OrchestrationAccessGrant) (now : Z) : Prop := {
  au_row : row ∈ a_grants s; au_id : gr_GrantID row = ac_GrantID r;
  au_allows : allows row (ac_CallerPrincipalRef r) (ac_ScopeRef r) (ac_Capability r) (ac_Source r) (ac_Target r) now;
  au_source : fence_holds s (ac_Source r); au_target : fence_holds s (ac_Target r);
}.

Lemma AuthorizeTx_Ok x r s a s' : AuthorizeTx x r s = Ok (a, s') -> s' = s /\ exists row g, loaded s (ac_GrantID r) row g /\ authorized s r row (x_Now x 0)
  /\ a = authorization_of r g (x_Now x 0) /\ enforce x (ac_CallerPrincipalRef r) (ac_ScopeRef r) = Ok tt /\ known_capability (ac_Capability r) = true.
Proof.
  unfold AuthorizeTx, GetOrchestrationAccessGrant. intros H. am_ok. loaded_grant L Hg row g. match goal with H : verifyRequestedFencesTx _ _ _ = _ |- _ => apply verify_tx_Ok in H as (-> & Hs & Ht) end.
  destruct (grantFromRow_Ok _ _ Hg) as (Hq & _ & _ & _ & Hv & _).
  match goal with H : validateGrantAuthorization _ _ _ = _ |- _ => pose proof (validateGrantAuthorization_Ok _ _ _ _ _ L Hv H) as Al end.
  split; [done|]. exists row, g. split_and!; [done| |done|done|by unfold AccessRequest_Validate in *; go_ok]. destruct L. split; try done.
  - rewrite <- (al_source _ _ _ _ _ _ _ Al), <- Hq. exact Hs.
  - rewrite <- (al_target _ _ _ _ _ _ _ Al), <- Hq. exact Ht.
Qed.

(** A handle that a transaction may use: its grant is active and unchanged, belongs to the
    caller of the handle, and covers the stream of the selector; both agents are bound. *)
Record usable (s : adb) (h : WaitHandle) (row : OrchestrationAccessGrant) (now : Z) : Prop := {
  us_row : row ∈ a_grants s; us_id : gr_GrantID row = wh_GrantID h; us_revision : gr_Revision row = wh_GrantRevision h;
  us_allows : allows row (wh_CallerPrincipalRef h) (wh_ScopeRef h) "read" (gq_Source (gr_Request row)) (gq_Target (gr_Request row)) now;
  us_source : fence_holds s (gq_Source (gr_Request row)); us_target : fence_holds s (gq_Target (gr_Request row));
  us_agent : wh_SourceAgentID h = fs_AgentID (gq_Source (gr_Request row)); us_handle : wh_Target h = gq_Target (gr_Request row);
}.

Lemma handle_of_grant_Ok h g row : ag_Request g = gr_Request row -> handle_of_grant h g = true ->
  wh_SourceAgentID h = fs_AgentID (gq_Source (gr_Request row)) /\ wh_Target h = gq_Target (gr_Request row) /\ es_TargetAgentID (wh_Selector h) = fs_AgentID (wh_Target h).
Proof.
  unfold handle_of_grant, ag_Source, ag_Target. intros -> H. go_bool. repeat match goal with H : equalFence _ _ = true |- _ => apply equalFence_eq in H end.
  split_and!; congruence.
Qed.

Lemma authorizeWaitTx_Ok x r h s a s' : authorizeWaitTx x r h s = Ok (a, s') -> s' = s /\ pollRequestMatchesHandle r h = true
  /\ enforce x (wh_CallerPrincipalRef h) (wh_ScopeRef h) = Ok tt /\ exists row, usable s h row (x_Now x 1).
Proof.
  unfold authorizeWaitTx, loadGrantTx, GetOrchestrationAccessGrant. intros H. am_ok. loaded_grant L Hg row g.
  match goal with H : AuthorizeTx _ _ _ = _ |- _ => apply AuthorizeTx_Ok in H as (-> & row' & g' & L' & A & -> & He & _) end.
  split; [done|]. split; [done|]. split; [done|]. exists row'. destruct A as [Hrow Hid Al Hs Ht], L as [_ _ Hq _ _ _], L' as [_ _ Hq' Hr' _ _]. cbn in *.
  match goal with H : waitAuthorizationMatchesHandle _ _ _ = true |- _ => unfold waitAuthorizationMatchesHandle in H; cbn in H; go_bool end.
  match goal with H : handle_of_grant _ _ = true |- _ => destruct (handle_of_grant_Ok _ _ _ Hq H) as (E1 & E2 & _) end.
  pose proof (al_source _ _ _ _ _ _ _ Al) as F1. pose proof (al_target _ _ _ _ _ _ _ Al) as F2. unfold ag_Source, ag_Target in *. rewrite Hq in *.
  rewrite <- F1 in *. rewrite <- F2 in *. split; congruence.
Qed.

Section scan.
Context `{EC : EventCodec} `{AC : AccessCodec}.

(** ** The scan of the log *)

Lemma ListEventsTx_Ok k after limit s l s' : tables_ok (a_events s) -> ListEventsTx k after limit s = Ok (l, s') ->
  s' = s /\ (0 <= after)%Z /\ l = take (Z.to_nat limit) (drop (Z.to_nat after) (log (a_events s) k)).
Proof.
  unfold ListEventsTx. intros Hok [Hl ->]%event_read_Ok. split; [done|]. unfold ListEvents, listEvents in Hl. unfold mbind, EM_bind, elift in Hl.
  destruct (validateSourceKey _ _ _); [|done]. destruct (guard_err _ _) eqn:Hg; [|done]. apply guard_err_Ok in Hg. go_bool.
  cbn in Hl. apply events_of_rows_same in Hl. split; [done|]. rewrite Hl. f_equal. by apply page_log.
Qed.

Definition unwanted (h : WaitHandle) (e : AgentEvent) : Prop := waitEventCandidate e h = false.

(** [e] is the first of the events that the handle waits for, and it is of the target. *)
Definition first_wanted (h : WaitHandle) (l : list AgentEvent) (e : AgentEvent) : Prop :=
  exists pre post, l = pre ++ e :: post /\ Forall (unwanted h) pre /\ waitEventCandidate e h = true /\ validateAuthorizedEvent e (wh_Target h) (wh_Selector h) = Ok tt.

Definition scan_result (h : WaitHandle) (l : list AgentEvent) (r : option AgentEvent) : Prop := match r with None => Forall (unwanted h) l | Some e => first_wanted h l e end.

Lemma selectWaitEvent_Ok items h r : selectWaitEvent items h = Ok r -> scan_result h items r.
Proof.
  revert r. induction items as [|e items IH]; cbn; intros r H; [simplify_eq; constructor|]. destruct (waitEventCandidate e h) eqn:Ec; cbn in H.
  - go_ok. exists [], items. split_and!; [done|constructor|done..].
  - specialize (IH r H). destruct r as [e'|]; cbn in *; [|by constructor]. destruct IH as (pre & post & -> & Hf & Hc & Hv). exists (e :: pre), post. split_and!; [done|by constructor|done..].
Qed.

(** The events after a place of the log are numbered from there. *)
Lemma log_numbered t k n : tables_ok t -> forall l2 l1, drop n (log t k) = l1 ++ l2 -> forall j e, l1 !! j = Some e -> event_sequence e = (Z.of_nat (n + j) + 1)%Z.
Proof.
  intros Hok l2 l1 Hd j e Hj. assert (log t k !! (n + j) = Some e) as Hl by (rewrite <- lookup_drop, Hd; by apply lookup_app_l_Some).
  apply log_lookup in Hl as [Hk _]; [|done]. unfold receiptKey in Hk. by injection Hk.
Qed.

Lemma lastSequenceAfter_numbered l n next : (forall j e, l !! j = Some e -> event_sequence e = (n + Z.of_nat j + 1)%Z) -> lastSequenceAfter l n = Some next ->
  next = (n + Z.of_nat (length l))%Z.
Proof.
  revert n. induction l as [|e l IH]; intros n Hn H; cbn in *; [injection H; lia|]. destruct (_ <=? _)%Z; [done|]. pose proof (Hn 0 e eq_refl) as He.
  apply IH in H; [lia|]. intros j e' Hj. rewrite He, (Hn (S j) e' Hj). lia.
Qed.

Lemma scan_app h l1 l2 r : Forall (unwanted h) l1 -> scan_result h l2 r -> scan_result h (l1 ++ l2) r.
Proof.
  destruct r as [e|]; cbn; [|apply Forall_app_2]. intros H1 (pre & post & -> & Hf & ?). exists (l1 ++ pre), post. split_and!; [by rewrite app_assoc|by apply Forall_app_2|tauto..].
Qed.

Lemma scan_prefix h l1 l2 e : scan_result h l1 (Some e) -> scan_result h (l1 ++ l2) (Some e).
Proof. cbn. intros (pre & post & -> & ?). exists pre, (post ++ l2). split; [by rewrite <- app_assoc|tauto]. Qed.

(** The pages of a scan amount to the whole log. *)
Lemma find_pages_Ok pages h after s r s' : tables_ok (a_events s) -> find_pages pages h after s = Ok (r, s') ->
  s' = s /\ scan_result h (drop (Z.to_nat after) (log (a_events s) (selector_stream (wh_Selector h)))) r.
Proof.
  intros Hok. revert after r s'. induction pages as [|pages IH]; intros after r s' H; cbn in H; [done|]. am_ok.
  match goal with H : ListEventsTx _ _ _ _ = Ok (?b, _) |- _ => rename b into batch; apply (ListEventsTx_Ok _ _ _ _ _ _ Hok) in H as (-> & Ha & Hb) end.
  set (rest := drop (Z.to_nat after) (log (a_events s) (selector_stream (wh_Selector h)))) in *. change (Z.to_nat maxWaitPollEvents) with 200 in Hb.
  assert (Hsplit : rest = batch ++ drop 200 rest) by (by rewrite Hb, take_drop).
  destruct (length batch =? 0)%nat eqn:E0.
  { go_bool. am_ok. split; [done|]. assert (rest = []) as -> by (apply nil_length_inv; rewrite Hb, length_take in E0; lia). constructor. }
  am_ok. match goal with H : selectWaitEvent _ _ = Ok _ |- _ => apply selectWaitEvent_Ok in H; rename H into Hsel end. match type of Hsel with scan_result _ _ ?o => destruct o as [e|] end.
  { am_ok. split; [done|]. rewrite Hsplit. by apply scan_prefix. }
  destruct (lastSequenceAfter batch after) as [next|] eqn:El; [|done].
  assert (next = (after + Z.of_nat (length batch))%Z) as ->.
  { eapply lastSequenceAfter_numbered; [|exact El]. intros j e Hj. rewrite (log_numbered _ _ _ Hok _ _ Hsplit j e Hj). lia. }
  assert (Hlen : length batch <= 200) by (rewrite Hb, length_take; lia).
  destruct (_ <? _)%Z eqn:E; unfold maxWaitPollEvents in E; go_bool.
  - am_ok. split; [done|]. rewrite Hsplit, drop_ge, app_nil_r; [done|]. rewrite Hb, length_take in E. lia.
  - apply IH in H as [-> H]. split; [done|]. rewrite Hsplit. apply scan_app; [done|]. unfold rest. rewrite drop_drop.
    by replace (Z.to_nat (after + Z.of_nat (length batch))) with (Z.to_nat after + 200) in H by lia.
Qed.

(** The log behind the cursor of a wait. *)
Definition waiting_log (t : tables) (h : WaitHandle) : list AgentEvent := drop (Z.to_nat (wh_AfterSequence h)) (log t (selector_stream (wh_Selector h))).

Lemma findWaitEventTx_Ok h s r s' : tables_ok (a_events s) -> findWaitEventTx h s = Ok (r, s') -> s' = s /\ scan_result h (waiting_log (a_events s) h) r.
Proof. apply find_pages_Ok. Qed.
End scan.
