(* ===== verification/AccessSteps.v ===== *)
(** * The access store as a system of steps

    The operations of the three stores that share the database, put into one history in any
    order, and the few kinds of step that they amount to.  A poll reads its handle and its
    grant before its transaction begins; in a history those reads are answered by any
    earlier database. *)

From S2P Require Import Prelude GoStrings WakeupLease GoTime EventContract IdentityStore IdentityOps IdentitySteps EventStore EventLog EventAppend EventHistory EventRead AccessContract AccessStore AccessGrants AccessWaits AccessRules.

Section history.
Context `{EC : EventCodec} `{AC : AccessCodec}.

(** ** Operations *)

(** One transaction each.  An operation of the event store has its own faults and counter
    of statements. *)
Inductive aop :=
| AIdentity (o : iop)
| AEvent (faults : EventEnv) (n : nat) (o : event_op)
| ACreateGrant (x : Env) (r : AccessGrantRequest)
| ARevokeGrant (x : Env) (r : RevokeGrantRequest)
| AExpireGrant (now : Z) (r : ExpireGrantRequest)
| ACreateWait (x : Env) (newID : result error string) (r : WaitRequest)
| APollWait (x : Env) (ago : nat -> nat) (r : PollRequest)
| ACancelWait (x : Env) (r : CancelRequest).

(** The databases so far, the present one first. *)
Definition present (past : list adb) : adb := default no_access (head past).

(** What the reads of a poll see: the first four the database of so many operations ago,
    the others the present one. *)
Definition poll_view (past : list adb) (ago : nat -> nat) (i : nat) : adb := if (i <? 4)%nat then default (present past) (past !! ago i) else present past.

Definition after_tx {A} (m : AM A) (s : adb) : adb := (withWriteTx m s).2.

Definition aop_run (o : aop) (past : list adb) : adb :=
  let s := present past in
  match o with
  | AIdentity o => mkADB (a_grants s) (a_waits s) (iop_run o (a_ids s)) (a_events s)
  | AEvent faults n o => mkADB (a_grants s) (a_waits s) (a_ids s) (e_tables (@op_run EC faults o (mkEDB (a_events s) n)).2)
  | ACreateGrant x r => after_tx (CreateGrantTx x r) s
  | ARevokeGrant x r => after_tx (RevokeGrant x r) s
  | AExpireGrant now r => after_tx (ExpireGrant now r) s
  | ACreateWait x newID r => after_tx (CreateWait x newID r) s
  | APollWait x ago r => (PollWait x (poll_view past ago) r).2
  | ACancelWait x r => after_tx (CancelWait x r) s
  end.

(** The history of the operations, after the databases [past]. *)
Definition access_history (ops : list aop) (past : list adb) : list adb := foldl (fun past o => aop_run o past :: past) past ops.

(** ** Steps *)

Definition unique_rows (s : adb) : Prop := NoDup (gr_GrantID <$> a_grants s) /\ NoDup (wr_WaitHandleID <$> a_waits s).

Definition grant_key (g : OrchestrationAccessGrant) : string * string := (gq_IdempotencyNamespace (gr_Request g), gq_IdempotencyKeyDigest (gr_Request g)).
Definition wait_key (w : OrchestrationEventWaitHandle) : string * string := (wq_IdempotencyNamespace (wh_Request (wr_Handle w)), wq_IdempotencyKeyDigest (wh_Request (wr_Handle w))).

Definition is_pending (w : OrchestrationEventWaitHandle) : bool := String.eqb (wr_Status w) "pending".

(** The grant gets its last status, and so do the waits of it that are pending. *)
Definition close_all (id status : string) (resolved updated wupdated : Z) (s : adb) : adb :=
  mkADB ((fun g => if String.eqb (gr_GrantID g) id then close_grant status updated g else g) <$> a_grants s)
    ((fun w => if of_grant id w && is_pending w then close_wait status resolved wupdated w else w) <$> a_waits s) (a_ids s) (a_events s).

(** The match of a satisfied wait, or none. *)
Definition outcome (s : adb) (w : OrchestrationEventWaitHandle) (status eventID : string) (sequence : Z) (cursor : string) : Prop :=
  (status = "satisfied" /\ exists e, first_wanted (wr_Handle w) (waiting_log (a_events s) (wr_Handle w)) e /\ eventID = event_id e /\ sequence = event_sequence e /\ cursor = event_cursor e)
  \/ ((status = "timed_out" \/ status = "cancelled") /\ eventID = EmptyString /\ sequence = 0%Z /\ cursor = EmptyString).

Definition resolve_one (w : OrchestrationEventWaitHandle) (f : OrchestrationEventWaitHandle -> OrchestrationEventWaitHandle) (s : adb) : adb :=
  with_waits ((fun y => if String.eqb (wr_WaitHandleID y) (wr_WaitHandleID w) then f y else y) <$> a_waits s) s.

(** A wait that may be made under a grant. *)
Record admitted (s : adb) (r : WaitRequest) (g : OrchestrationAccessGrant) : Prop := {
  ad_grant : g ∈ a_grants s; ad_active : gr_Status g = "active"; ad_id : wq_GrantID r = gr_GrantID g; ad_revision : wq_GrantRevision r = gr_Revision g;
  ad_caller : wq_CallerPrincipalRef r = gq_CallerPrincipalRef (gr_Request g); ad_scope : wq_ScopeRef r = gq_ScopeRef (gr_Request g);
  ad_read : gq_CanRead (gr_Request g) = true; ad_deadline : (t_ms (wq_DeadlineAt r) <= t_ms (gq_ExpiresAt (gr_Request g)))%Z;
  ad_source : fence_holds s (gq_Source (gr_Request g)); ad_target : fence_holds s (gq_Target (gr_Request g));
}.

Inductive astep (s : adb) : adb -> Prop :=
| S_read : astep s s
| S_identity o : astep s (mkADB (a_grants s) (a_waits s) (iop_run o (a_ids s)) (a_events s))
| S_event faults n o : astep s (mkADB (a_grants s) (a_waits s) (a_ids s) (e_tables (@op_run EC faults o (mkEDB (a_events s) n)).2))
| S_grant r wall :
    GrantRequest_Validate r = Ok tt -> fence_holds s (gq_Source r) -> fence_holds s (gq_Target r) ->
    (gq_GrantID r ∉ (gr_GrantID <$> a_grants s)) -> (grant_key (mkGrantRow r 1 "active" wall wall) ∉ (grant_key <$> a_grants s)) ->
    astep s (with_grants (a_grants s ++ [mkGrantRow r 1 "active" wall wall]) s)
| S_close g status resolved updated wupdated :
    g ∈ a_grants s -> gr_Status g = "active" -> status = "revoked" \/ status = "expired" /\ (t_ms (gq_ExpiresAt (gr_Request g)) <= updated)%Z ->
    astep s (close_all (gr_GrantID g) status resolved updated wupdated s)
| S_wait r g digest wall :
    admitted s r g -> Handle_Validate (wr_Handle (pending_row r (fs_AgentID (gq_Source (gr_Request g))) (gq_Target (gr_Request g)) digest wall)) = Ok tt ->
    (wq_WaitHandleID r ∉ (wr_WaitHandleID <$> a_waits s)) ->
    (wait_key (pending_row r (fs_AgentID (gq_Source (gr_Request g))) (gq_Target (gr_Request g)) digest wall) ∉ (wait_key <$> a_waits s)) ->
    astep s (with_waits (a_waits s ++ [pending_row r (fs_AgentID (gq_Source (gr_Request g))) (gq_Target (gr_Request g)) digest wall]) s)
| S_resolve w status eventID sequence cursor resolved updated :
    w ∈ a_waits s -> wr_Status w = "pending" -> outcome s w status eventID sequence cursor ->
    astep s (resolve_one w (resolve_wait status eventID sequence cursor resolved updated) s).

(** ** Updates *)

Lemma length_filter_exists {A} (p : A -> bool) l : length (List.filter p l) = 1%nat -> exists x, x ∈ l /\ p x = true.
Proof.
  intros H. destruct (List.filter p l) as [|x l'] eqn:E; [done|]. exists x. assert (In x (List.filter p l)) as Hx by (rewrite E; by left).
  apply filter_In in Hx as [? ?]. split; [by apply list_elem_of_In|done].
Qed.

(** An update of one row by its key. *)
Lemma update_rows_one {A} (key : A -> string) (hit : A -> bool) (f : A -> A) l id l' : NoDup (key <$> l) -> (forall y, hit y = true -> key y = id) ->
  update_rows hit f l = (1%nat, l') -> exists x, x ∈ l /\ hit x = true /\ l' = (fun y => if String.eqb (key y) (key x) then f y else y) <$> l.
Proof.
  unfold update_rows. intros Hnd Hid [= Hn <-]. destruct (length_filter_exists _ _ Hn) as (x & Hx & Hh). exists x. split_and!; [done..|].
  apply (update_one key hit f l x); [done..|]. intros y Hy. rewrite (Hid y Hy), (Hid x Hh). done.
Qed.

(** The loop over the waits of a grant closes those that are pending. *)
Definition listed (ws : list OrchestrationEventWaitHandle) (y : OrchestrationEventWaitHandle) : bool :=
  existsb (fun w => is_pending w && String.eqb (wr_WaitHandleID w) (wr_WaitHandleID y)) ws.

Lemma close_each_Ok (f : OrchestrationEventWaitHandle -> OrchestrationEventWaitHandle) lost grant ws s u s' :
  (forall y, wr_WaitHandleID (f y) = wr_WaitHandleID y) ->
  NoDup (wr_WaitHandleID <$> a_waits s) -> NoDup (wr_WaitHandleID <$> ws) -> (forall w, w ∈ ws -> w ∈ a_waits s /\ wr_GrantID w = grant) ->
  close_each (fun w => update_waits (fun y => open_wait (wr_WaitHandleID w) (wr_Revision w) y && of_grant grant y) f) lost ws s = Ok (u, s') ->
  s' = with_waits ((fun y => if listed ws y then f y else y) <$> a_waits s) s.
Proof.
  intros Hf. revert s. induction ws as [|w ws IH]; intros s Hnd Hws Hin H; cbn in H.
  { am_ok. change (fun y => if listed [] y then f y else y) with (@id OrchestrationEventWaitHandle). rewrite list_fmap_id. by destruct s. }
  rewrite fmap_cons, NoDup_cons in Hws. destruct Hws as [Hw Hws]. fold (is_pending w) in H. destruct (is_pending w) eqn:Ep; cbn [negb] in H.
  2: { rewrite (IH s); [|done|done|intros w' Hw'; apply Hin; by right|done]. f_equal. apply list_fmap_ext. intros i y _. unfold listed. cbn. by rewrite Ep. }
  am_ok. match goal with H : update_waits _ _ _ = Ok _ |- _ => unfold update_waits in H; injection H as _ <- end.
  destruct (Hin w ltac:(by left)) as [Hw' Hg].
  set (hit := fun y => open_wait (wr_WaitHandleID w) (wr_Revision w) y && of_grant grant y) in *.
  assert (Hhit : hit w = true). { unfold hit, open_wait, has_wait_id, of_grant. rewrite Hg, !String.eqb_refl, Z.eqb_refl. unfold is_pending in Ep. by rewrite Ep. }
  assert (Hid : forall y, hit y = true -> wr_WaitHandleID y = wr_WaitHandleID w). { intros y Hy. unfold hit, open_wait, has_wait_id in Hy. by go_bool. }
  assert (Hkeep : forall y, y ∈ a_waits s -> wr_WaitHandleID y <> wr_WaitHandleID w -> hit y = false). { intros y _ Hne. destruct (hit y) eqn:E; [|done]. by apply Hid in E. }
  change (map _ (a_waits s)) with ((fun r => if hit r then f r else r) <$> a_waits s) in H. apply IH in H; clear IH; cbn [a_waits with_waits].
  - rewrite H. unfold with_waits. cbn. f_equal. rewrite <- list_fmap_compose. apply list_fmap_ext. intros i y Hy%list_elem_of_lookup_2. cbn.
    destruct (hit y) eqn:E.
    + assert (y = w) as -> by (eapply (same_key wr_WaitHandleID (a_waits s)); eauto). unfold listed. cbn. rewrite Ep, String.eqb_refl, Hf. cbn.
      destruct (existsb _ ws) eqn:Ex; [|done]. exfalso. apply Hw. apply existsb_exists in Ex as (w' & Hw1%list_elem_of_In & Hw2). go_bool.
      apply list_elem_of_fmap. exists w'. split; [congruence|done].
    + assert (Hne : String.eqb (wr_WaitHandleID w) (wr_WaitHandleID y) = false).
      { destruct (String.eqb_spec (wr_WaitHandleID w) (wr_WaitHandleID y)); [|done]. assert (y = w) as -> by (eapply (same_key wr_WaitHandleID (a_waits s)); eauto). congruence. }
      unfold listed. cbn. by rewrite Hne, andb_false_r.
  - replace (wr_WaitHandleID <$> ((fun r => if hit r then f r else r) <$> a_waits s)) with (wr_WaitHandleID <$> a_waits s); [done|].
    rewrite <- list_fmap_compose. apply list_fmap_ext. intros i y _. cbn. destruct (hit y); [by rewrite Hf|done].
  - done.
  - intros w' Hw2. destruct (Hin w' ltac:(by right)) as [Hw3 Hg']. split; [|done]. apply list_elem_of_fmap. exists w'. split; [|done].
    rewrite Hkeep; [done..|]. intros E. apply Hw. rewrite <- E. apply list_elem_of_fmap. eauto.
Qed.

Lemma listed_of_grant grant l y : NoDup (wr_WaitHandleID <$> l) -> y ∈ l -> listed (List.filter (of_grant grant) l) y = of_grant grant y && is_pending y.
Proof.
  intros Hnd Hy. destruct (of_grant grant y && is_pending y) eqn:E.
  - go_bool. apply existsb_exists. exists y. split; [by apply filter_In; split; [apply list_elem_of_In|]|]. rewrite String.eqb_refl. unfold is_pending in *. by rewrite andb_true_r.
  - destruct (listed _ y) eqn:El; [|done]. apply existsb_exists in El as (w & [Hw%list_elem_of_In Hg]%filter_In & Hw'). go_bool.
    assert (y = w) as -> by (apply (same_key wr_WaitHandleID l); auto). unfold is_pending in *. rewrite Hg, H in E. done.
Qed.

(** Both loops over the pending waits of a grant. *)
Lemma close_waits_Ok status resolved updated lost grant s u s' : NoDup (wr_WaitHandleID <$> a_waits s) ->
  close_each (fun w => update_waits (fun y => open_wait (wr_WaitHandleID w) (wr_Revision w) y && of_grant grant y) (close_wait status resolved updated)) lost
    (ListOrchestrationEventWaitHandlesByGrant grant s) s = Ok (u, s') ->
  s' = with_waits ((fun w => if of_grant grant w && is_pending w then close_wait status resolved updated w else w) <$> a_waits s) s.
Proof.
  intros Hnd H. change (ListOrchestrationEventWaitHandlesByGrant grant s) with (List.filter (of_grant grant) (a_waits s)) in H.
  apply (close_each_Ok _ _ grant) in H; [|done|done|..].
  - rewrite H. unfold with_waits. f_equal. apply list_fmap_ext. intros i y Hy%list_elem_of_lookup_2. by rewrite listed_of_grant.
  - eapply sublist_NoDup; [exact Hnd|]. generalize (a_waits s) as l. intros l.
    induction l as [|w l IH]; cbn; [constructor|]. destruct (of_grant _ _); by constructor.
  - intros w [Hw Hg]%list_elem_of_In%filter_In. split; [by apply list_elem_of_In|by apply String.eqb_eq].
Qed.

(** ** Inserts *)

Lemma create_grant_Ok r wall s row s' : CreateOrchestrationAccessGrant r wall s = Ok (row, s') ->
  row = mkGrantRow r 1 "active" wall wall /\ s' = with_grants (a_grants s ++ [row]) s
  /\ (gq_GrantID r ∉ (gr_GrantID <$> a_grants s)) /\ (grant_key row ∉ (grant_key <$> a_grants s)).
Proof.
  unfold CreateOrchestrationAccessGrant. intros H. destruct (negb _); [done|]. destruct (negb _); [done|]. destruct (existsb (has_grant_key _ _) _) eqn:Ek; [done|].
  destruct (existsb (has_grant_id _) _) eqn:Ei; [done|]. destruct (negb _); [done|]. simplify_eq. split_and!; [done..| |].
  - apply fresh_fmap. intros y Hy Heq. eapply existsb_false in Ei; [|exact Hy]. unfold has_grant_id in Ei. by rewrite Heq, String.eqb_refl in Ei.
  - apply fresh_fmap. intros y Hy [= H1 H2]. eapply existsb_false in Ek; [|exact Hy]. unfold has_grant_key in Ek. by rewrite H1, H2, !String.eqb_refl in Ek.
Qed.

Lemma create_wait_Ok r source target digest wall s row s' : CreateOrchestrationEventWaitHandle r source target digest wall s = Ok (row, s') ->
  row = pending_row r source target digest wall /\ s' = with_waits (a_waits s ++ [row]) s
  /\ (wq_WaitHandleID r ∉ (wr_WaitHandleID <$> a_waits s)) /\ (wait_key row ∉ (wait_key <$> a_waits s)).
Proof.
  unfold CreateOrchestrationEventWaitHandle. intros H. destruct (negb _); [done|]. destruct (_ <? _)%nat; [done|]. destruct (existsb (has_wait_key _ _) _) eqn:Ek; [done|].
  destruct (existsb (has_wait_id _) _) eqn:Ei; [done|]. destruct (negb _); [done|]. simplify_eq. split_and!; [done..| |].
  - apply fresh_fmap. intros y Hy Heq. eapply existsb_false in Ei; [|exact Hy]. unfold has_wait_id in Ei. by rewrite Heq, String.eqb_refl in Ei.
  - apply fresh_fmap. intros y Hy [= H1 H2]. eapply existsb_false in Ek; [|exact Hy]. unfold has_wait_key in Ek. by rewrite H1, H2, !String.eqb_refl in Ek.
Qed.

(** ** Every transaction is a step *)

(** Splits on whether the statement of an [aquery_opt] found its row. *)
Ltac row_cases H row :=
  match goal with Hc : match ?o with Some _ => _ = Ok _ | None => _ = Err NoRows /\ _ end |- _ => rename Hc into H; destruct o as [row|]; [|destruct H as [H ->]] end.

Lemma CreateGrantTx_step x r s g s' : CreateGrantTx x r s = Ok (g, s') -> astep s s'.
Proof.
  unfold CreateGrantTx, createGrantInTx. intros H. am_ok. match goal with H : verifyRequestedFencesTx _ _ _ = _ |- _ => apply verify_tx_Ok in H as (-> & Hs & Ht) end.
  row_cases HC row.
  - am_ok. apply create_grant_Ok in HC as (-> & -> & F1 & F2). by apply S_grant.
  - unfold GetOrchestrationAccessGrantByIdempotencyKey in *. am_ok. constructor.
Qed.

Lemma RevokeGrantTx_step x r s g s' : unique_rows s -> RevokeGrantTx x r s = Ok (g, s') -> astep s s'.
Proof.
  intros [Hg Hw] H. unfold RevokeGrantTx, revokeGrantInTx, loadGrantForRevoke, persistGrantRevocation, revokePendingGrantWaits, GetOrchestrationAccessGrant in H. am_ok.
  match goal with H : requireAffected _ _ _ = _ |- _ => unfold requireAffected in H; apply guard_err_Ok, Nat.eqb_eq in H; subst end.
  match goal with H : RevokeOrchestrationAccessGrant _ _ _ _ = _ |- _ => unfold RevokeOrchestrationAccessGrant in H; destruct (update_rows _ _ _) as [n l] eqn:Eu; injection H as -> <- end.
  apply (update_rows_one gr_GrantID _ _ _ (rg_GrantID r)) in Eu as (g0 & Hg0 & Hh & ->); [|done|intros y Hy; unfold open_grant, has_grant_id in Hy; by go_bool].
  unfold open_grant, has_grant_id in Hh. go_bool.
  match goal with H : close_each _ _ _ _ = _ |- _ => apply close_waits_Ok in H; [|done]; rewrite H end.
  match goal with H : gr_GrantID g0 = _ |- _ => rewrite <- H end. exact (S_close s g0 "revoked" (x_Now x 0) (x_Wall x) (x_Wall x) Hg0 ltac:(done) ltac:(by left)).
Qed.

Lemma ExpireGrant_step now r s g s' : unique_rows s -> ExpireGrant now r s = Ok (g, s') -> astep s s'.
Proof.
  intros [Hg Hw] H. unfold ExpireGrant, expire_grant_tx, loadGrantForExpiry, GetOrchestrationAccessGrant in H. am_ok. destruct (_ && _); [am_ok; constructor|].
  unfold markGrantExpired, expirePendingGrantWaits in H. am_ok.
  match goal with H : requireAffected _ _ _ = _ |- _ => unfold requireAffected in H; apply guard_err_Ok, Nat.eqb_eq in H; subst end.
  match goal with H : ExpireOrchestrationAccessGrant _ _ _ _ = _ |- _ => unfold ExpireOrchestrationAccessGrant in H; destruct (update_rows _ _ _) as [n l] eqn:Eu; injection H as -> <- end.
  apply (update_rows_one gr_GrantID _ _ _ (eg_GrantID r)) in Eu as (g0 & Hg0 & Hh & ->); [|done|intros y Hy; unfold open_grant, has_grant_id in Hy; by go_bool].
  unfold open_grant, has_grant_id, due_grant in Hh. go_bool.
  match goal with H : close_each _ _ _ _ = _ |- _ => apply close_waits_Ok in H; [|done]; rewrite H end.
  match goal with H : gr_GrantID g0 = _ |- _ => rewrite <- H end. apply (S_close s g0 "expired" (t_ms (eg_ExpiredAt r)) (t_ms (eg_ExpiredAt r)) (t_ms (eg_ExpiredAt r))); auto.
Qed.

(** *** Reads *)

Definition reads {A} (m : AM A) : Prop := forall s a s', m s = Ok (a, s') -> s' = s.

Lemma reads_bind {A B} (m : AM A) (f : A -> AM B) : reads m -> (forall a, reads (f a)) -> reads (m ≫= f).
Proof. intros Hm Hf s b s' H. am_ok. match goal with H : m _ = _ |- _ => apply Hm in H as -> end. by eapply Hf. Qed.

Lemma reads_query {A} op (row : adb -> option A) : reads (aquery op (one row)).
Proof. intros s a s' H. by am_ok. Qed.

Lemma reads_query_opt {A} op (row : adb -> option A) : reads (aquery_opt op (one row)).
Proof. intros s a s' H. am_ok. row_cases HC r; [|done]. by am_ok. Qed.

Lemma reads_lift {A} (r : result error A) : reads (alift r).
Proof. intros s a s' H. by am_ok. Qed.

Lemma reads_guard b e : reads (aguard b e).
Proof. intros s a s' H. by am_ok. Qed.

Lemma reads_ret {A} (a : A) : reads (mret a).
Proof. intros s b s' H. by am_ok. Qed.

Lemma reads_fail {A} e : reads (@afail A e).
Proof. intros s a s' H. by am_ok. Qed.

Lemma reads_events {A} (m : EM A) : reads (event_read m).
Proof. by intros s a s' [_ ->]%event_read_Ok. Qed.

Lemma reads_verify f g : reads (verifyRequestedFencesTx f g).
Proof. by intros s a s' [-> _]%verify_tx_Ok. Qed.

Lemma reads_source_state sel : reads (source_state_tx sel).
Proof. intros s a s'. unfold source_state_tx. destruct (GetSourceStateTx _ s) as [[st s1]|] eqn:E; [|done]. intros [= <- <-]. by eapply reads_events. Qed.

Ltac reading :=
  repeat match goal with
  | |- reads (let _ := _ in _) => cbv zeta
  | |- reads (_ ≫= _) => apply reads_bind; [|intros ?]
  | |- reads (aquery _ _) => apply reads_query
  | |- reads (aquery_opt _ _) => apply reads_query_opt
  | |- reads (alift _) => apply reads_lift
  | |- reads (aguard _ _) => apply reads_guard
  | |- reads (mret _) => apply reads_ret
  | |- reads (afail _) => apply reads_fail
  | |- reads (event_read _) => apply reads_events
  | |- reads (verifyRequestedFencesTx _ _) => apply reads_verify
  | |- reads (source_state_tx _) => apply reads_source_state
  | |- reads (match ?x with _ => _ end) => destruct x
  end.

Lemma reads_AuthorizeTx x r : reads (AuthorizeTx x r).
Proof. unfold AuthorizeTx, GetOrchestrationAccessGrant. reading. Qed.

Lemma reads_authorizeWaitTx x r h : reads (authorizeWaitTx x r h).
Proof. unfold authorizeWaitTx, loadGrantTx, GetOrchestrationAccessGrant. reading. apply reads_AuthorizeTx. Qed.

Lemma reads_ensureSource sel after : reads (ensureSourceReadableTx sel after).
Proof. unfold ensureSourceReadableTx. reading. Qed.

Lemma reads_activeGrant h : reads (loadActiveGrantForWait h).
Proof. unfold loadActiveGrantForWait, GetOrchestrationAccessGrant. reading. Qed.

Lemma reads_validateSatisfied h e : reads (validateSatisfiedEventTx h e).
Proof. unfold validateSatisfiedEventTx, ListEventsTx. reading; [apply reads_activeGrant|apply reads_ensureSource]. Qed.

Lemma reads_getWait id : reads (getWaitByIDWithQueries id).
Proof. unfold getWaitByIDWithQueries, GetOrchestrationEventWaitHandle. reading. Qed.

Lemma reads_terminal x h : reads (resultForTerminalTx x h).
Proof. unfold resultForTerminalTx, readSatisfiedEventTx, GetEventTx. reading. apply reads_authorizeWaitTx. Qed.

Lemma reads_cancelled_race x r h : reads (resolveCancelledRaceTx x r h).
Proof. unfold resolveCancelledRaceTx. reading; [apply reads_getWait|apply reads_authorizeWaitTx|apply reads_terminal]. Qed.

(** *** Waits *)

Lemma prepareWaitGrantTx_Ok x r s g s' : prepareWaitGrantTx x r s = Ok (g, s') ->
  s' = s /\ exists row, loaded s (wq_GrantID r) row g /\ validGrantStatus (gr_Status row) = true /\ waitGrantMatchesRequest r g = true
  /\ (t_ms (wq_DeadlineAt r) <= t_ms (gq_ExpiresAt (gr_Request row)))%Z /\ (t_ms (wq_DeadlineAt r) <= x_Now x 0 + 60000)%Z.
Proof.
  unfold prepareWaitGrantTx, GetOrchestrationAccessGrant. intros H. am_ok. loaded_grant L Hg row grant. split; [done|]. exists row. pose proof (ld_request _ _ _ _ L) as L3. go_bool.
  destruct (grantFromRow_Ok _ _ Hg) as (_ & _ & _ & _ & Hv & _). unfold ag_ExpiresAt, maxWaitDuration in *. split_and!; [done|done|done|by rewrite <- L3|lia].
Qed.

(** The request that a replay finds is for the same wait. *)
Record same_wait (r r' : WaitRequest) : Prop := {
  sw_grant : wq_GrantID r' = wq_GrantID r; sw_revision : wq_GrantRevision r' = wq_GrantRevision r; sw_caller : wq_CallerPrincipalRef r' = wq_CallerPrincipalRef r;
  sw_scope : wq_ScopeRef r' = wq_ScopeRef r; sw_deadline : t_ms (wq_DeadlineAt r') = t_ms (wq_DeadlineAt r);
}.

Lemma replay_matches_Ok generated r prior g digest : replay_matches generated r prior g digest = true -> same_wait r (wh_Request prior).
Proof.
  unfold replay_matches, waitRequestMatchesHandle. intros H. go_bool. destruct (Digest _); [|done]. unfold waitIdentityMatches, waitRequestProofMatches in *. go_bool. by split.
Qed.

Lemma prepareWaitRequestTx_Ok x newID r g digest s r' gen s' row : loaded s (wq_GrantID r) row g -> validGrantStatus (gr_Status row) = true ->
  prepareWaitRequestTx x newID r g digest s = Ok ((r', gen), s') ->
  s' = s /\ same_wait r r' /\ allows row (wq_CallerPrincipalRef r) (wq_ScopeRef r) "read" (gq_Source (gr_Request row)) (gq_Target (gr_Request row)) (x_Now x 0)
  /\ fence_holds s (gq_Source (gr_Request row)) /\ fence_holds s (gq_Target (gr_Request row)).
Proof.
  intros L Hv H. unfold prepareWaitRequestTx, validateWaitRequestTx, replayWaitRequestTx, GetOrchestrationEventWaitHandleByIdempotencyKey in H. am_ok.
  match goal with H : validateGrantAuthorization _ _ _ = _ |- _ => eapply validateGrantAuthorization_Ok in H; [|exact L|done]; rename H into Al end. cbn in Al.
  match goal with H : verifyRequestedFencesTx _ _ _ = _ |- _ => apply verify_tx_Ok in H as (-> & Hs & Ht) end.
  unfold ag_Source, ag_Target in *. rewrite (ld_request _ _ _ _ L) in *. row_cases HC prior.
  - am_ok. injection H as <- _ <-. match goal with H : replay_matches _ _ _ _ _ = true |- _ => apply replay_matches_Ok in H end. by split_and!.
  - am_ok. cbn in H. am_ok. match goal with H : ensureSourceReadableTx _ _ _ = _ |- _ => apply reads_ensureSource in H as -> end.
    destruct (String.eqb _ _); [am_ok|]; injection H as <- _ <-; by split_and!.
Qed.

Lemma CreateWaitTx_step x newID r s h s' : CreateWaitTx x newID r s = Ok (h, s') -> astep s s'.
Proof.
  unfold CreateWaitTx. intros H. am_ok. match goal with H : prepareWaitGrantTx _ _ _ = _ |- _ => apply prepareWaitGrantTx_Ok in H as (-> & row & L & Hv & Hm & Hd & _) end.
  match goal with H : prepareWaitRequestTx _ _ _ _ _ _ = Ok (?p, _) |- _ => destruct p as [r' gen]; eapply prepareWaitRequestTx_Ok in H as (-> & Sw & Al & Hs & Ht); [|done|done] end.
  cbn in H. unfold createWaitRow, recheckWaitGrant, replayWaitHandle, GetOrchestrationAccessGrant, GetOrchestrationEventWaitHandleByIdempotencyKey in H. am_ok. row_cases HC w; [|am_ok; constructor].
  am_ok. unfold ag_Source, ag_Target in HC. rewrite (ld_request _ _ _ _ L) in HC. apply create_wait_Ok in HC as (-> & -> & F1 & F2). apply waitFromRow_Ok in H as (-> & HV & _). apply S_wait; [|done..].
  destruct L as [L1 L2 L3 L4 L5 L6], Sw, Al. unfold waitGrantMatchesRequest in Hm. go_bool. split; auto; congruence.
Qed.

(** The handle is what its row says, unless the row has moved on. *)
Definition snapshot (s : adb) (h : WaitHandle) : Prop := forall w, w ∈ a_waits s -> wr_WaitHandleID w = wh_WaitHandleID h -> wr_Revision w = wh_Revision h -> wr_Handle w = h.

(** An update of the row of a handle. *)
Lemma update_waits_one hit f h s n s' : unique_rows s -> snapshot s h -> (forall y, hit y = true -> open_wait (wh_WaitHandleID h) (wh_Revision h) y = true) ->
  update_waits hit f s = Ok (n, s') -> (n =? 1)%nat = true -> exists w, w ∈ a_waits s /\ wr_Handle w = h /\ wr_Status w = "pending" /\ hit w = true /\ s' = resolve_one w f s.
Proof.
  intros [_ Hnd] Hsnap Hhit H Hn. apply Nat.eqb_eq in Hn as ->. unfold update_waits in H. destruct (update_rows hit f (a_waits s)) as [k l] eqn:Eu. injection H as -> <-.
  apply (update_rows_one wr_WaitHandleID _ _ _ (wh_WaitHandleID h)) in Eu as (w & Hw & Hh & ->); [|done|].
  - exists w. specialize (Hhit w Hh). unfold open_wait, has_wait_id in Hhit. go_bool. split_and!; auto.
  - intros y Hy%Hhit. unfold open_wait, has_wait_id in Hy. by go_bool.
Qed.

Lemma poll_pending_tx_Ok x h s r s' : tables_ok (a_events s) -> unique_rows s -> snapshot s h -> poll_pending_tx x h s = Ok (r, s') ->
  (exists row, usable s h row (x_Now x 1)) /\ enforce x (wh_CallerPrincipalRef h) (wh_ScopeRef h) = Ok tt
  /\ ((s' = s /\ r = waitResult h None "pending" false /\ Forall (unwanted h) (waiting_log (a_events s) h))
      \/ exists w e, w ∈ a_waits s /\ wr_Handle w = h /\ wr_Status w = "pending" /\ first_wanted h (waiting_log (a_events s) h) e
         /\ s' = resolve_one w (resolve_wait "satisfied" (event_id e) (event_sequence e) (event_cursor e) (x_Now x 2) (x_Wall x)) s
         /\ r = waitResult (wr_Handle (resolve_wait "satisfied" (event_id e) (event_sequence e) (event_cursor e) (x_Now x 2) (x_Wall x) w)) (Some e) "satisfied" false).
Proof.
  intros Hok Hu Hsnap H. unfold poll_pending_tx in H. am_ok. match goal with H : authorizeWaitTx _ _ _ _ = _ |- _ => apply authorizeWaitTx_Ok in H as (-> & _ & He & Hus) end.
  match goal with H : ensureSourceReadableTx _ _ _ = _ |- _ => apply reads_ensureSource in H as -> end.
  match goal with H : findWaitEventTx _ _ = Ok (?o, _) |- _ => apply (findWaitEventTx_Ok _ _ _ _ Hok) in H as [-> Hscan]; destruct o as [e|] end; cbn in Hscan.
  2: { am_ok. eauto 6. }
  split; [done|]. split; [done|]. right. unfold updateSatisfiedWaitTx, GetOrchestrationEventWaitHandle in H. am_ok.
  match goal with H : validateSatisfiedEventTx _ _ _ = _ |- _ => apply reads_validateSatisfied in H as -> end.
  match goal with H : SatisfyOrchestrationEventWaitHandle _ _ _ _ _ _ _ _ _ = _ |- _ => unfold SatisfyOrchestrationEventWaitHandle in H; destruct (_ && _); [done|];
    eapply update_waits_one in H as (w & Hw & Hh & Hp & _ & ->); [|done|done|intros y Hy; by apply andb_true_iff in Hy as [? _]|done] end.
  exists w, e. split_and!; [done..|]. f_equal. match goal with H : waitFromRow _ = Ok _ |- _ => apply waitFromRow_Ok in H as [-> _] end.
  match goal with H : List.find _ _ = Some ?row |- _ => apply find_wait_id in H as [Hin Hid]; rename row into y end.
  apply list_elem_of_fmap in Hin as (z & -> & Hz). cbn in *. destruct (String.eqb_spec (wr_WaitHandleID z) (wr_WaitHandleID w)) as [E|E].
  - destruct Hu as [_ Hnd]. assert (z = w) as -> by (apply (same_key wr_WaitHandleID (a_waits s)); auto). done.
  - exfalso. apply E. rewrite Hid. unfold wr_WaitHandleID. by rewrite Hh.
Qed.

Lemma poll_pending_tx_step x h s r s' : tables_ok (a_events s) -> unique_rows s -> snapshot s h -> poll_pending_tx x h s = Ok (r, s') -> astep s s'.
Proof.
  intros Hok Hu Hsnap H. destruct (poll_pending_tx_Ok _ _ _ _ _ Hok Hu Hsnap H) as (_ & _ & [(-> & _)|(w & e & Hw & Hh & Hp & Hf & -> & _)]); [constructor|].
  apply S_resolve; [done..|]. left. split; [done|]. exists e. by rewrite Hh.
Qed.

Lemma updateExpiredWait_step x h s h' s' : unique_rows s -> snapshot s h -> updateExpiredWait x h s = Ok (h', s') -> astep s s'.
Proof.
  intros Hu Hsnap H. unfold updateExpiredWait, GetOrchestrationEventWaitHandle in H. am_ok.
  match goal with H : TimeoutOrchestrationEventWaitHandle _ _ _ _ _ _ = _ |- _ => eapply update_waits_one in H as (w & Hw & Hh & Hp & _ & ->); [|done|done|intros y Hy; by apply andb_true_iff in Hy as [? _]|done] end.
  apply S_resolve; [done..|]. right. auto.
Qed.

Lemma CancelWaitTx_step x r s a s' : unique_rows s -> CancelWaitTx x r s = Ok (a, s') -> astep s s'.
Proof.
  intros Hu H. unfold CancelWaitTx, loadAuthorizedCancelHandleTx in H. am_ok.
  match goal with H : getWaitByIDWithQueries _ _ = _ |- _ => apply getWaitByIDWithQueries_Ok in H as [-> (w0 & Hw0 & Hid & Eh)] end.
  match goal with H : authorizeWaitTx _ _ _ _ = _ |- _ => apply reads_authorizeWaitTx in H as -> end. rewrite Eh in *.
  destruct (negb _); [apply reads_terminal in H as ->; constructor|].
  destruct (cancelPendingWaitTx _ _ _ s) as [[h' s1]|e] eqn:E; [|destruct (errors_Is _ _); [|done]; apply reads_cancelled_race in H as ->; constructor].
  injection H as _ <-. unfold cancelPendingWaitTx, cancelWaitRow, GetOrchestrationEventWaitHandle in E. am_ok.
  match goal with H : loadActiveGrantForWait _ _ = _ |- _ => apply reads_activeGrant in H as -> end.
  match goal with H : verifyRequestedFencesTx _ _ _ = _ |- _ => apply reads_verify in H as -> end.
  match goal with H : CancelOrchestrationEventWaitHandle _ _ _ _ _ = _ |- _ => eapply (update_waits_one _ _ (wr_Handle w0)) in H as (w & Hw & Hh & Hp & _ & ->); [|done| |done|done] end.
  - apply S_resolve; [done..|]. right. auto.
  - intros w Hw Heq _. destruct Hu as [_ Hnd]. assert (w = w0) as -> by (apply (same_key wr_WaitHandleID (a_waits s)); auto). done.
Qed.

(** What a poll does to the database. *)
Lemma PollWait_state x v r : (PollWait x v r).2 = v 4 \/ exists h, authorized_handle x v r = Ok h /\ wh_Status h = "pending"
  /\ ((exists res, poll_pending_tx (later 3 x) h (v 4) = Ok (res, (PollWait x v r).2)) \/ (exists h', updateExpiredWait (later 3 x) h (v 4) = Ok (h', (PollWait x v r).2))).
Proof.
  unfold PollWait. destruct (authorized_handle x v r) as [h|e]; [|by left]. unfold pollWaitHandle. destruct (String.eqb_spec (wh_Status h) "pending") as [Hp|]; cbn [negb]; [|by left].
  destruct (_ <=? _)%Z.
  - unfold expireWait, withWriteTx. change (later 1 (later 2 x)) with (later 3 x). change (v (4 + 0)) with (v 4). destruct (updateExpiredWait _ h (v 4)) as [[h' s1]|e] eqn:E; [|by left]. right. eauto 6.
  - unfold pollPendingTx, withWriteTx. change (later 1 (later 2 x)) with (later 3 x). change (v (4 + 0)) with (v 4). destruct (poll_pending_tx _ h (v 4)) as [[h' s1]|e] eqn:E; [|by left]. right. eauto 6.
Qed.

Lemma authorized_handle_Ok x v r h : authorized_handle x v r = Ok h -> exists w, w ∈ a_waits (v 0) /\ wr_WaitHandleID w = po_WaitHandleID r /\ wr_Handle w = h.
Proof.
  unfold authorized_handle. intros H. go_ok. match goal with H : getWaitByID _ _ = _ |- _ => apply getWaitByID_Ok in H as (w & ? & ? & ->) end. eauto.
Qed.
End history.
