(* ===== verification/AccessInvariant.v ===== *)
(** * The invariant of the access store

    What holds of the grants, the waits and the two other stores in every database of a
    history, and how a later database relates to an earlier one: a grant is closed once and
    a wait is resolved once, nothing else of them changes, and the log only grows. *)

From S2P Require Import Prelude GoStrings WakeupLease GoTime EventContract IdentityStore IdentityOps IdentitySteps IdentityInvariant IdentityHistory EventStore EventLog EventAppend EventHistory EventRead AccessContract AccessStore AccessGrants AccessWaits AccessRules AccessSteps.

Section invariant.
Context `{EC : EventCodec} `{AC : AccessCodec}.

(** ** Rows *)

Definition closed_status (status : string) : Prop := status = "revoked" \/ status = "expired".

Definition grant_state (g : OrchestrationAccessGrant) : Prop := (gr_Status g = "active" /\ gr_Revision g = 1%Z) \/ (closed_status (gr_Status g) /\ gr_Revision g = 2%Z).

(** The wait was made under the grant. *)
Record wait_of (w : OrchestrationEventWaitHandle) (g : OrchestrationAccessGrant) : Prop := {
  wo_id : wr_GrantID w = gr_GrantID g; wo_revision : wh_GrantRevision (wr_Handle w) = 1%Z;
  wo_caller : wh_CallerPrincipalRef (wr_Handle w) = gq_CallerPrincipalRef (gr_Request g); wo_scope : wh_ScopeRef (wr_Handle w) = gq_ScopeRef (gr_Request g);
  wo_target : wh_Target (wr_Handle w) = gq_Target (gr_Request g); wo_subject : es_TargetAgentID (wh_Selector (wr_Handle w)) = fs_AgentID (gq_Target (gr_Request g));
  wo_read : gq_CanRead (gr_Request g) = true; wo_deadline : (wh_DeadlineAt (wr_Handle w) <= t_ms (gq_ExpiresAt (gr_Request g)))%Z;
}.

Definition no_match (h : WaitHandle) : Prop := wh_MatchedEventID h = EmptyString /\ wh_MatchedSourceSequence h = 0%Z /\ wh_MatchedCanonicalCursor h = EmptyString.

Definition matched_by (h : WaitHandle) (e : AgentEvent) : Prop :=
  wh_MatchedEventID h = event_id e /\ wh_MatchedSourceSequence h = event_sequence e /\ wh_MatchedCanonicalCursor h = event_cursor e.

(** The status of a wait, with its grant and the log. *)
Inductive wait_state (t : tables) (w : OrchestrationEventWaitHandle) (g : OrchestrationAccessGrant) : Prop :=
| ws_pending : wr_Status w = "pending" -> wr_Revision w = 1%Z -> gr_Status g = "active" -> no_match (wr_Handle w) -> wait_state t w g
| ws_satisfied e : wr_Status w = "satisfied" -> wr_Revision w = 2%Z -> first_wanted (wr_Handle w) (waiting_log t (wr_Handle w)) e -> matched_by (wr_Handle w) e -> wait_state t w g
| ws_over : wr_Status w = "timed_out" \/ wr_Status w = "cancelled" -> wr_Revision w = 2%Z -> no_match (wr_Handle w) -> wait_state t w g
| ws_closed : closed_status (wr_Status w) -> gr_Status g = wr_Status w -> wr_Revision w = 2%Z -> no_match (wr_Handle w) -> wait_state t w g.

Definition wait_ok (s : adb) (w : OrchestrationEventWaitHandle) : Prop := exists g, g ∈ a_grants s /\ wait_of w g /\ wait_state (a_events s) w g.

Record aok (s : adb) : Prop := {
  ak_ids : reachable (a_ids s);
  ak_events : tables_ok (a_events s);
  ak_unique : unique_rows s;
  ak_grant_keys : NoDup (grant_key <$> a_grants s);
  ak_wait_keys : NoDup (wait_key <$> a_waits s);
  ak_grants g : g ∈ a_grants s -> GrantRequest_Validate (gr_Request g) = Ok tt /\ grant_state g;
  ak_waits w : w ∈ a_waits s -> wait_ok s w;
}.

(** ** Growth *)

Definition grant_next (g g' : OrchestrationAccessGrant) : Prop := g' = g \/ (gr_Status g = "active" /\ exists status updated, closed_status status /\ g' = close_grant status updated g).

Definition terminal (status : string) : Prop := isTerminalWaitStatus status = true.

Definition wait_next (w w' : OrchestrationEventWaitHandle) : Prop :=
  w' = w \/ (wr_Status w = "pending" /\ exists status eventID sequence cursor resolved updated, terminal status /\ w' = resolve_wait status eventID sequence cursor resolved updated w).

Record agrows (s s' : adb) : Prop := {
  gw_grants g : g ∈ a_grants s -> exists g', g' ∈ a_grants s' /\ grant_next g g';
  gw_waits w : w ∈ a_waits s -> exists w', w' ∈ a_waits s' /\ wait_next w w';
  gw_log k : log (a_events s) k `prefix_of` log (a_events s') k;
  gw_ids : exists ops, a_ids s' = identity_history ops (a_ids s);
}.

Lemma closed_not_active status : closed_status status -> status <> "active".
Proof. by intros [->| ->]. Qed.

Lemma terminal_not_pending status : terminal status -> status <> "pending".
Proof. by intros H ->. Qed.

Lemma grant_next_trans g g' g'' : grant_next g g' -> grant_next g' g'' -> grant_next g g''.
Proof.
  intros [->|(Ha & st & u & Hst & ->)] [->|(Ha' & st' & u' & Hst' & ->)]; [by left|right; eauto 6|right; eauto 6|]. by apply closed_not_active in Hst.
Qed.

Lemma wait_next_trans w w' w'' : wait_next w w' -> wait_next w' w'' -> wait_next w w''.
Proof.
  intros [->|(Ha & st & i & n & c & r & u & Hst & ->)] [->|(Ha' & st' & i' & n' & c' & r' & u' & Hst' & ->)]; [by left|right; eauto 12|right; eauto 12|]. by apply terminal_not_pending in Hst.
Qed.

#[export] Instance agrows_preorder : PreOrder agrows.
Proof.
  split.
  - intros s. split; [intros g Hg; exists g; split; [done|by left]|intros w Hw; exists w; split; [done|by left]|done|by exists []].
  - intros s s' s'' [G1 W1 L1 [o1 I1]] [G2 W2 L2 [o2 I2]]. split.
    + intros g Hg. destruct (G1 g Hg) as (g' & Hg' & N1), (G2 g' Hg') as (g'' & Hg'' & N2). eauto using grant_next_trans.
    + intros w Hw. destruct (W1 w Hw) as (w' & Hw' & N1), (W2 w' Hw') as (w'' & Hw'' & N2). eauto using wait_next_trans.
    + intros k. etrans; [apply L1|apply L2].
    + exists (o1 ++ o2). rewrite I2, I1. unfold identity_history. by rewrite foldl_app.
Qed.

Lemma wait_next_id w w' : wait_next w w' -> wr_WaitHandleID w' = wr_WaitHandleID w.
Proof. by intros [->|(_ & st & i & n & c & r & u & _ & ->)]. Qed.

Lemma grant_next_id g g' : grant_next g g' -> gr_GrantID g' = gr_GrantID g /\ gr_Request g' = gr_Request g.
Proof. by intros [->|(_ & st & u & _ & ->)]. Qed.

(** ** The log under a wait *)

Lemma first_wanted_prefix h t t' e : log t (selector_stream (wh_Selector h)) `prefix_of` log t' (selector_stream (wh_Selector h)) ->
  first_wanted h (waiting_log t h) e -> first_wanted h (waiting_log t' h) e.
Proof.
  intros [l E] Hf. unfold waiting_log in *. rewrite E. set (n := Z.to_nat (wh_AfterSequence h)) in *. set (l0 := log t _) in *.
  assert (n <= length l0). { destruct Hf as (pre & post & Heq & _). destruct (decide (n <= length l0)); [done|]. rewrite drop_ge in Heq by lia. by destruct pre. }
  rewrite drop_app_le by done. by apply (scan_prefix h _ _ e).
Qed.

Lemma wait_state_grows t t' w g : (forall k, log t k `prefix_of` log t' k) -> wait_state t w g -> wait_state t' w g.
Proof. intros Hl [? ? ? ?|e ? ? Hf ?|? ? ?|? ? ? ?]; [by apply ws_pending|eapply ws_satisfied; eauto using first_wanted_prefix|by apply ws_over|by apply ws_closed]. Qed.

Lemma wait_ok_grows s s' w : (forall g, g ∈ a_grants s -> g ∈ a_grants s') -> (forall k, log (a_events s) k `prefix_of` log (a_events s') k) -> wait_ok s w -> wait_ok s' w.
Proof. intros Hg Hl (g & Hin & Hw & Hs). exists g. eauto using wait_state_grows. Qed.

(** ** Steps keep the invariant *)

Lemma S_identity_ok s o : aok s -> let s' := mkADB (a_grants s) (a_waits s) (iop_run o (a_ids s)) (a_events s) in aok s' /\ agrows s s'.
Proof.
  intros [A1 A2 A3 A4 A5 A6 A7] s'. split.
  - split; try done. exact (reachable_history [o] _ A1).
  - split; cbn; [intros g Hg; exists g; split; [done|by left]|intros w Hw; exists w; split; [done|by left]|done|by exists [o]].
Qed.

Lemma S_event_ok s faults n o : aok s -> let s' := mkADB (a_grants s) (a_waits s) (a_ids s) (e_tables (@op_run EC faults o (mkEDB (a_events s) n)).2) in aok s' /\ agrows s s'.
Proof.
  intros [A1 A2 A3 A4 A5 A6 A7] s'. pose proof (@op_step EC faults o (a_events s) n A2) as W.
  assert (tables_ok (a_events s') /\ forall k, log (a_events s) k `prefix_of` log (a_events s') k) as [Hok Hl].
  { unfold s'. cbn. destruct (op_run o _) as [[new|e] s1]; cbn [snd]; [|rewrite W; done]. split; [apply (g_ok _ _ _ _ _ W)|]. intros k. rewrite (g_log _ _ _ _ _ W). by eexists. }
  split.
  - split; try done. intros w Hw. eapply wait_ok_grows; [|exact Hl|by apply A7]. done.
  - split; cbn; [intros g Hg; exists g; split; [done|by left]|intros w Hw; exists w; split; [done|by left]|done|by exists []].
Qed.

Lemma in_snoc {A} (l : list A) x y : x ∈ l -> x ∈ l ++ [y].
Proof. intros H. apply elem_of_app. by left. Qed.

Lemma S_grant_ok s r wall : aok s -> GrantRequest_Validate r = Ok tt -> (gq_GrantID r ∉ (gr_GrantID <$> a_grants s)) -> (grant_key (mkGrantRow r 1 "active" wall wall) ∉ (grant_key <$> a_grants s)) ->
  let s' := with_grants (a_grants s ++ [mkGrantRow r 1 "active" wall wall]) s in aok s' /\ agrows s s'.
Proof.
  intros [A1 A2 [A3 A3'] A4 A5 A6 A7] Hv Hid Hkey s'. split.
  - split; try done; cbn.
    + split; [|done]. cbn. by apply (NoDup_snoc gr_GrantID).
    + by apply (NoDup_snoc grant_key).
    + intros g [Hg| ->%list_elem_of_singleton]%elem_of_app; [by apply A6|]. split; [done|]. by left.
    + intros w Hw. eapply wait_ok_grows; [..|by apply A7]; [cbn; intros g; apply in_snoc|done].
  - split; cbn; [intros g Hg; exists g; split; [by apply in_snoc|by left]|intros w Hw; exists w; split; [done|by left]|done|by exists []].
Qed.

Lemma S_wait_ok s r g digest wall (row := pending_row r (fs_AgentID (gq_Source (gr_Request g))) (gq_Target (gr_Request g)) digest wall) : aok s -> admitted s r g -> Handle_Validate (wr_Handle row) = Ok tt ->
  (wq_WaitHandleID r ∉ (wr_WaitHandleID <$> a_waits s)) -> (wait_key row ∉ (wait_key <$> a_waits s)) ->
  let s' := with_waits (a_waits s ++ [row]) s in aok s' /\ agrows s s'.
Proof.
  intros [A1 A2 [A3 A3'] A4 A5 A6 A7] [] HV Hid Hkey s'. split.
  - split; try done; cbn.
    + split; [done|]. cbn. by apply (NoDup_snoc wr_WaitHandleID).
    + by apply (NoDup_snoc wait_key).
    + intros w [Hw| ->%list_elem_of_singleton]%elem_of_app; [by apply A7|]. exists g. split; [done|]. split; [|by apply ws_pending].
      assert (gr_Revision g = 1%Z) as Hr by (destruct (A6 g ltac:(done)) as [_ [[_ ?]|[[]]]]; congruence).
      unfold Handle_Validate, validateWaitHandleBinding in HV. go_ok. go_bool. split; try done. unfold wh_GrantRevision. cbn. congruence.
  - split; cbn; [intros g' Hg; exists g'; split; [done|by left]|intros w Hw; exists w; split; [by apply in_snoc|by left]|done|by exists []].
Qed.

Lemma keys_kept {A B} (f : A -> B) (g : A -> A) (l : list A) : (forall y, f (g y) = f y) -> (f <$> (g <$> l)) = (f <$> l).
Proof. intros H. rewrite <- list_fmap_compose. apply list_fmap_ext. intros i y _. apply H. Qed.

Lemma in_map {A} (f : A -> A) (l : list A) x : x ∈ l -> f x ∈ (f <$> l).
Proof. intros H. apply list_elem_of_fmap. eauto. Qed.

Lemma wait_of_kept w w' g g' : wh_Request (wr_Handle w') = wh_Request (wr_Handle w) -> wh_Target (wr_Handle w') = wh_Target (wr_Handle w) -> gr_Request g' = gr_Request g ->
  wait_of w g -> wait_of w' g'.
Proof.
  intros E1 E2 E3 []. unfold wr_GrantID, wh_GrantID, wh_GrantRevision, wh_CallerPrincipalRef, wh_ScopeRef, wh_Selector, wh_DeadlineAt, gr_GrantID in *.
  split; unfold wr_GrantID, wh_GrantID, wh_GrantRevision, wh_CallerPrincipalRef, wh_ScopeRef, wh_Selector, wh_DeadlineAt, gr_GrantID; rewrite ?E1, ?E2, ?E3; done.
Qed.

Lemma S_close_ok s g status resolved updated wupdated : aok s -> g ∈ a_grants s -> gr_Status g = "active" -> closed_status status ->
  let s' := close_all (gr_GrantID g) status resolved updated wupdated s in aok s' /\ agrows s s'.
Proof.
  intros [A1 A2 [A3 A3'] A4 A5 A6 A7] Hg Hact Hst s'. set (cg := fun g0 => if String.eqb (gr_GrantID g0) (gr_GrantID g) then close_grant status updated g0 else g0).
  set (cw := fun w => if of_grant (gr_GrantID g) w && is_pending w then close_wait status resolved wupdated w else w).
  assert (Hone : forall g0, g0 ∈ a_grants s -> gr_GrantID g0 = gr_GrantID g -> g0 = g) by (intros g0 H0 E; by apply (same_key gr_GrantID (a_grants s))).
  assert (Hcg : cg g = close_grant status updated g) by (unfold cg; by rewrite String.eqb_refl).
  assert (Hrev : gr_Revision g = 1%Z) by (destruct (A6 g Hg) as [_ [[_ ?]|[[] _]]]; congruence).
  split.
  - split; try done; cbn.
    + split; cbn; [rewrite (keys_kept gr_GrantID); [done|]|rewrite (keys_kept wr_WaitHandleID); [done|]]; intros y; by case_match.
    + rewrite (keys_kept grant_key); [done|]. intros y. by case_match.
    + rewrite (keys_kept wait_key); [done|]. intros y. by case_match.
    + intros g' (g0 & -> & H0)%list_elem_of_fmap. destruct (String.eqb_spec (gr_GrantID g0) (gr_GrantID g)) as [E|E]; [|by apply A6].
      rewrite (Hone g0 H0 E). destruct (A6 g Hg) as [Hv _]. split; [done|]. right. split; [done|]. cbn. lia.
    + intros w' (w & -> & Hw)%list_elem_of_fmap. fold (cw w). destruct (A7 w Hw) as (g0 & H0 & Wo & Ws). exists (cg g0). split; [by apply in_map|].
      destruct (String.eqb_spec (gr_GrantID g0) (gr_GrantID g)) as [E|E].
      2: { unfold cg. apply String.eqb_neq in E. rewrite E. unfold cw, of_grant. by rewrite (wo_id _ _ Wo), E. }
      rewrite (Hone g0 H0 E) in *. rewrite Hcg.
      assert (of_grant (gr_GrantID g) w = true) as Hof by (unfold of_grant; rewrite (wo_id _ _ Wo); apply String.eqb_refl).
      split; [apply (wait_of_kept w _ g); [unfold cw; by case_match|unfold cw; by case_match|done|done]|]. unfold cw. rewrite Hof. cbn [andb].
      destruct Ws as [Hs Hr _ Hn|e Hs Hr Hf Hm|Hs Hr Hn|Hs Heq _ _].
      * unfold is_pending. rewrite Hs. cbn [String.eqb]. apply ws_closed; [done|done| |done]. unfold wr_Revision in *. cbn. lia.
      * unfold is_pending. rewrite Hs. by eapply ws_satisfied.
      * unfold is_pending. destruct Hs as [Hs|Hs]; rewrite Hs; apply ws_over; auto.
      * apply closed_not_active in Hs. congruence.
  - split; cbn; [| |done|by exists []].
    + intros g0 H0. exists (cg g0). split; [by apply in_map|]. unfold cg. destruct (String.eqb_spec (gr_GrantID g0) (gr_GrantID g)) as [E|E]; [|by left].
      right. rewrite (Hone g0 H0 E). eauto.
    + intros w Hw. exists (cw w). split; [by apply in_map|]. unfold cw, is_pending. destruct (of_grant _ _ && _) eqn:E; [|by left]. go_bool.
      right. split; [done|]. exists status, EmptyString, 0%Z, EmptyString, resolved, wupdated. split; [|done]. by destruct Hst as [->| ->].
Qed.

Lemma S_resolve_ok s w status eventID sequence cursor resolved updated : aok s -> w ∈ a_waits s -> wr_Status w = "pending" -> outcome s w status eventID sequence cursor ->
  let s' := resolve_one w (resolve_wait status eventID sequence cursor resolved updated) s in aok s' /\ agrows s s'.
Proof.
  intros [A1 A2 [A3 A3'] A4 A5 A6 A7] Hw Hp Ho s'. set (f := resolve_wait status eventID sequence cursor resolved updated) in *.
  assert (Hone : forall y, y ∈ a_waits s -> wr_WaitHandleID y = wr_WaitHandleID w -> y = w) by (intros y H0 E; by apply (same_key wr_WaitHandleID (a_waits s))).
  split.
  - split; try done; cbn.
    + split; [done|]. cbn. rewrite (keys_kept wr_WaitHandleID); [done|]. intros y. by case_match.
    + rewrite (keys_kept wait_key); [done|]. intros y. by case_match.
    + intros w' (y & -> & Hy)%list_elem_of_fmap. destruct (String.eqb_spec (wr_WaitHandleID y) (wr_WaitHandleID w)) as [E|E]; [|by apply A7]. rewrite (Hone y Hy E).
      destruct (A7 w Hw) as (g & Hg & Wo & Ws). exists g. split; [done|]. split; [by apply (wait_of_kept w _ g)|].
      assert (wr_Revision w = 1%Z) as Hr by (destruct Ws as [? ? ? ?|? Hs ? ? ?|Hs ? ?|Hs ? ? ?]; [done|congruence|destruct Hs; congruence|destruct Hs; congruence]).
      destruct Ho as [(-> & e & Hf & -> & -> & ->)|(Hs & -> & -> & ->)].
      * eapply ws_satisfied; [done|unfold wr_Revision in *; cbn; lia|exact Hf|done].
      * apply ws_over; [done|unfold wr_Revision in *; cbn; lia|done].
  - split; cbn; [intros g Hg; exists g; split; [done|by left]| |done|by exists []].
    intros y Hy. eexists. split; [by apply (in_map (fun y => if String.eqb (wr_WaitHandleID y) (wr_WaitHandleID w) then f y else y))|]. cbn.
    destruct (String.eqb_spec (wr_WaitHandleID y) (wr_WaitHandleID w)) as [E|E]; [|by left]. rewrite (Hone y Hy E). right. split; [done|]. unfold f. do 6 eexists. split; [|done].
    by destruct Ho as [[-> _]|[[->| ->] _]].
Qed.

(** A step keeps the invariant, and the rows grow. *)
Lemma astep_ok s s' : astep s s' -> aok s -> aok s' /\ agrows s s'.
Proof.
  intros [|o|faults n o|r wall Hv _ _ F1 F2|g status resolved updated wupdated Hg Ha Hc|r g digest wall Ad HV F1 F2|w status i n c r u Hw Hp Ho] Hok.
  - split; [done|reflexivity].
  - by apply S_identity_ok.
  - by apply S_event_ok.
  - by apply S_grant_ok.
  - apply S_close_ok; [done..|]. unfold closed_status. tauto.
  - by apply S_wait_ok.
  - by apply S_resolve_ok.
Qed.

Lemma no_access_ok : aok no_access.
Proof.
  split; cbn; [by exists []|apply empty_ok|split; constructor|constructor|constructor|intros g Hg; by apply not_elem_of_nil in Hg|intros w Hw; by apply not_elem_of_nil in Hw].
Qed.

(** ** Histories *)

(** The databases so far, the present one first: each is in order and leads to the present. *)
Definition past_ok (past : list adb) : Prop := aok (present past) /\ forall s, s ∈ past -> aok s /\ agrows s (present past).

Lemma start_ok : past_ok [no_access].
Proof. split; [apply no_access_ok|]. intros s ->%list_elem_of_singleton. split; [apply no_access_ok|reflexivity]. Qed.

(** A handle that was read at some time is what its row says now, or the row has moved on. *)
Lemma snapshot_later s s' w : aok s' -> agrows s s' -> w ∈ a_waits s -> snapshot s' (wr_Handle w).
Proof.
  intros Hok Hgr Hw y Hy Hid Hrev. destruct (gw_waits _ _ Hgr w Hw) as (w' & Hw' & Hn). assert (y = w') as ->.
  { apply (same_key wr_WaitHandleID (a_waits s')); [apply Hok|done|done|]. rewrite (wait_next_id _ _ Hn). exact Hid. }
  destruct Hn as [->|(_ & st & i & n & c & r & u & _ & ->)]; [done|]. unfold wr_Revision in Hrev. cbn in Hrev. lia.
Qed.

Lemma poll_view_past past ago i : past_ok past -> aok (poll_view past ago i) /\ agrows (poll_view past ago i) (present past).
Proof.
  intros [Hok Hp]. unfold poll_view. destruct (i <? 4)%nat; [|split; [done|reflexivity]]. destruct (past !! ago i) as [s|] eqn:E; cbn; [|split; [done|reflexivity]].
  apply Hp. by eapply list_elem_of_lookup_2.
Qed.

Lemma committed_step {A} (m : AM A) s : (forall a s', m s = Ok (a, s') -> astep s s') -> astep s (after_tx m s).
Proof. intros H. unfold after_tx, withWriteTx. destruct (m s) as [[a s']|e]; [by eapply H|constructor]. Qed.

Lemma aop_step o past : past_ok past -> astep (present past) (aop_run o past).
Proof.
  intros Hp. pose proof Hp as [Hok _]. pose proof (ak_unique _ Hok) as Hu. destruct o; cbn [aop_run].
  - constructor.
  - constructor.
  - apply committed_step. intros a s'. apply CreateGrantTx_step.
  - apply committed_step. intros a s' H. unfold RevokeGrant in H. am_ok. by eapply RevokeGrantTx_step.
  - apply committed_step. intros a s'. by apply ExpireGrant_step.
  - apply committed_step. intros a s' H. unfold CreateWait in H. am_ok. by eapply CreateWaitTx_step.
  - destruct (PollWait_state x (poll_view past ago) r) as [->|(h & Hh & _ & Htx)]; [constructor|].
    apply authorized_handle_Ok in Hh as (w & Hw & _ & <-). destruct (poll_view_past past ago 0 Hp) as [_ Hgr]. pose proof (snapshot_later _ _ _ Hok Hgr Hw) as Hsn.
    destruct Htx as [[res H]|[h' H]]; [eapply poll_pending_tx_step; [apply Hok|..]; eauto|by eapply updateExpiredWait_step].
  - apply committed_step. intros a s' H. unfold CancelWait in H. am_ok. by eapply CancelWaitTx_step.
Qed.

Lemma history_past_ok ops past : past_ok past -> past_ok (access_history ops past) /\ agrows (present past) (present (access_history ops past)).
Proof.
  revert past. induction ops as [|o ops IH]; intros past Hp; cbn; [split; [done|reflexivity]|].
  destruct (astep_ok _ _ (aop_step o past Hp) (proj1 Hp)) as [Hok Hgr].
  assert (Hp' : past_ok (aop_run o past :: past)).
  { split; [done|]. intros s [->|Hs]%elem_of_cons; [split; [done|reflexivity]|]. destruct (proj2 Hp s Hs) as [? ?]. split; [done|]. by etrans. }
  destruct (IH _ Hp') as [H1 H2]. split; [done|]. by etrans.
Qed.
End invariant.
