(* ===== verification/AccessSafety.v ===== *)
(** * What the access store promises

    Theorems on whole histories of the three stores that share the database: what a poll
    may answer, that a closed grant is dead for good, and that the release of an agent cuts
    every access that names it. *)

From S2P Require Import Prelude GoStrings WakeupLease GoTime EventContract IdentityStore IdentityOps IdentitySteps IdentityInvariant IdentityHistory EventStore EventLog EventAppend EventHistory EventRead EventFence IdentityFence AccessContract AccessStore AccessGrants AccessWaits AccessRules AccessSteps AccessInvariant.

Section safety.
Context `{EC : EventCodec} `{AC : AccessCodec}.

(** ** Databases of a history *)

(** The database after so many operations. *)
Definition db_after (ops : list aop) : adb := present (access_history ops [no_access]).

Lemma db_after_ok ops : aok (db_after ops).
Proof. exact (proj1 (proj1 (history_past_ok ops _ start_ok))). Qed.

Lemma db_after_grows ops ops' : ops `prefix_of` ops' -> agrows (db_after ops) (db_after ops').
Proof.
  intros [k ->]. unfold db_after, access_history. rewrite foldl_app. apply (history_past_ok k). apply (history_past_ok ops _ start_ok).
Qed.

(** Reads in turn: each sees the database of a history that has gone on. *)
Definition growing (ops : nat -> list aop) : Prop := forall i, ops i `prefix_of` ops (S i).

Lemma growing_grows ops i j : growing ops -> i <= j -> agrows (db_after (ops i)) (db_after (ops j)).
Proof.
  intros Hg. induction 1 as [|j _ IH]; [reflexivity|]. etrans; [exact IH|]. apply db_after_grows, Hg.
Qed.

(** ** The answers of a poll *)

(** The grant lets the caller of a poll use the handle: what was found when the grant was
    read in [s1], the source in [s2] and the target in [s3]. *)
Record poll_allowed (now : Z) (s1 s2 s3 : adb) (r : PollRequest) (h : WaitHandle) (g : OrchestrationAccessGrant) : Prop := {
  pa_row : g ∈ a_grants s1; pa_id : gr_GrantID g = wh_GrantID h; pa_active : gr_Status g = "active"; pa_revision : gr_Revision g = wh_GrantRevision h;
  pa_caller : gq_CallerPrincipalRef (gr_Request g) = po_CallerPrincipalRef r; pa_scope : gq_ScopeRef (gr_Request g) = po_ScopeRef r;
  pa_read : gq_CanRead (gr_Request g) = true; pa_time : (now < t_ms (gq_ExpiresAt (gr_Request g)))%Z;
  pa_target_of : wh_Target h = gq_Target (gr_Request g);
  pa_source : fence_holds s2 (gq_Source (gr_Request g)); pa_target : fence_holds s3 (gq_Target (gr_Request g));
}.

Lemma authorizeWait_Ok x v r h u : authorizeWait x v r h = Ok u -> exists g, poll_allowed (x_Now x 1) (v 0) (v 1) (v 2) r h g.
Proof.
  unfold authorizeWait. intros H. destruct (negb _); [done|]. go_ok. match goal with H : GetGrant _ _ = _ |- _ => apply GetGrant_Ok in H as [row L] end.
  destruct (negb _) eqn:E1; [done|]. destruct (negb (handle_of_grant _ _)) eqn:E2; [done|]. destruct (negb (selectorSourceMatchesGrant _ _)) eqn:E3; [done|].
  unfold authorizeAgainstGrant in *. destruct (String.eqb _ "revoked"); [done|]. destruct (_ || _) eqn:E4; [done|]. destruct (negb (grantIdentityMatches _ _) || _ || _ || _) eqn:E5; [done|].
  destruct (negb (grantCapabilityAllows _ _)) eqn:E6; [done|].
  match goal with H : verifyRequestedFences _ _ _ _ = _ |- _ => apply verify_Ok in H as [F1 F2] end.
  exists row. destruct L as [L1 L2 L3 L4 L5 L6]. unfold selectorSourceMatchesGrant, grantIdentityMatches, grantCapabilityAllows, ag_ExpiresAt, ag_CallerPrincipalRef, ag_ScopeRef, ag_CanRead in *. cbn in *. go_bool.
  match goal with H : handle_of_grant _ _ = true |- _ => destruct (handle_of_grant_Ok _ _ _ L3 H) as (E7 & E8 & _) end. unfold ag_Source, ag_Target in *. rewrite L3 in *. split; try done; congruence.
Qed.

Lemma authorized_handle_allowed x v r h : authorized_handle x v r = Ok h -> exists w g, w ∈ a_waits (v 0) /\ wr_WaitHandleID w = po_WaitHandleID r /\ wr_Handle w = h
  /\ poll_allowed (x_Now x 1) (v 1) (v 2) (v 3) r h g.
Proof.
  intros H. destruct (authorized_handle_Ok _ _ _ _ H) as (w & Hw & Hid & Eh). unfold authorized_handle in H. go_ok.
  match goal with H : authorizeWait _ _ _ _ = _ |- _ => apply authorizeWait_Ok in H as [g Hg] end. exists w, g. done.
Qed.

(** The event of a satisfied handle is the one that the invariant names. *)
Lemma event_of_row t k e : tables_ok t -> e_events t !! k = Some e -> receiptKey (ae_Frame e) = k.
Proof.
  intros [HL _] He. destruct k as [k n]. destruct (event_row _ _ HL _ _ _ He) as (r & m & Hr & -> & _). by destruct (lo_receipt _ _ HL _ _ _ Hr).
Qed.

Lemma GetEventTx_Ok id s e s' : tables_ok (a_events s) -> GetEventTx id s = Ok (e, s') -> event_id e = id /\ e_events (a_events s) !! receiptKey (ae_Frame e) = Some e.
Proof.
  intros Hok H. unfold GetEventTx in H. apply event_read_Ok in H as [H _]. unfold GetEvent in H. cbn in H. unfold mbind, EM_bind, elift in H. destruct (validateText _ _ _ _); [|done].
  unfold GetOrchestrationAgentEvent, query, stmt in H. cbn in H. destruct (List.find _ _) as [row|] eqn:E; cbn in H; [|done].
  apply find_some in E as [Hin Hid]. apply list_elem_of_In, list_elem_of_fmap in Hin as ([k row'] & -> & Hin). cbn in *. apply elem_of_map_to_list in Hin.
  assert (e = row') as -> by (unfold agentEventFromRow in H; by go_ok). split; [by apply String.eqb_eq|]. by rewrite (event_of_row _ _ _ Hok Hin).
Qed.

Lemma wanted_in_log t h e : tables_ok t -> first_wanted h (waiting_log t h) e -> e_events t !! receiptKey (ae_Frame e) = Some e /\ (receiptKey (ae_Frame e)).1 = selector_stream (wh_Selector h).
Proof.
  intros Hok (pre & post & E & _). assert (exists j, log t (selector_stream (wh_Selector h)) !! j = Some e) as [j Hj].
  { exists (Z.to_nat (wh_AfterSequence h) + length pre). rewrite <- lookup_drop. unfold waiting_log in E. rewrite E. by apply list_lookup_middle. }
  apply log_lookup in Hj as [Hk He]; [|done]. by rewrite Hk.
Qed.

(** What may be answered: [s] is the database of the transaction, [s'] the last that was read. *)
Inductive answer (now : Z) (s s' : adb) (res : WaitResult) : Prop :=
| an_pending : wt_Status res = "pending" -> wt_Event res = None ->
    Forall (unwanted (wt_Handle res)) (waiting_log (a_events s) (wt_Handle res)) \/ (wh_DeadlineAt (wt_Handle res) <= now)%Z -> answer now s s' res
| an_satisfied e : wt_Status res = "satisfied" -> wt_Event res = Some e -> wt_NextCursor res = event_cursor e ->
    first_wanted (wt_Handle res) (waiting_log (a_events s') (wt_Handle res)) e -> matched_by (wt_Handle res) e -> answer now s s' res
| an_over : wt_Status res = "timed_out" \/ wt_Status res = "cancelled" -> wt_Event res = None -> answer now s s' res.

Lemma resultForTerminal_Ok now x s s' w res : aok s' -> w ∈ a_waits s' -> resultForTerminal x (wr_Handle w) s' = Ok res ->
  wt_Handle res = wr_Handle w /\ (closed_status (wr_Status w) \/ wr_Status w = "pending" /\ wt_Status res = "pending" /\ wt_Event res = None \/ answer now s s' res).
Proof.
  intros Hok Hw H. unfold resultForTerminal in H. destruct (ak_waits _ Hok w Hw) as (g & _ & _ & Ws). fold (wr_Status w) in H.
  destruct Ws as [Hs _ _ _|e Hs _ Hf Hm|Hs _ _|Hs _ _ _].
  - rewrite Hs in H. injection H as <-. split; [done|]. right. left. cbn. unfold wr_Status in Hs. done.
  - rewrite Hs in H. cbn [String.eqb negb] in H. cbn in H. apply map_err_Ok in H. apply read_at_Ok in H as [s1 H].
    unfold resultForTerminalTx, readSatisfiedEventTx in H. fold (wr_Status w) in H. rewrite Hs in H. cbn [negb] in H. cbn in H. am_ok.
    match goal with H : authorizeWaitTx _ _ _ _ = _ |- _ => apply reads_authorizeWaitTx in H as -> end. match goal with H : source_state_tx _ _ = _ |- _ => apply reads_source_state in H as -> end.
    match goal with H : GetEventTx _ _ = Ok (?y, _) |- _ => apply (GetEventTx_Ok _ _ _ _ (ak_events _ Hok)) in H as [Hid He]; rename y into e' end.
    match goal with H : matchedEventTuple _ _ = true |- _ => unfold matchedEventTuple in H; go_bool end. destruct Hm as (M1 & M2 & M3).
    destruct (wanted_in_log _ _ _ (ak_events _ Hok) Hf) as [He1 Hk]. assert (e' = e) as ->.
    { enough (receiptKey (ae_Frame e') = receiptKey (ae_Frame e)) by congruence. unfold receiptKey in *. cbn in Hk. rewrite Hk. unfold frame_skey, selector_stream. unfold event_sequence in M2. congruence. }
    match goal with H : (if _ then _ else _) = Ok res |- _ => destruct (_ || _); [done|]; go_ok end. split; [done|]. right. right. by eapply an_satisfied.
  - assert (E : String.eqb (wr_Status w) "satisfied" = false) by (by destruct Hs as [->| ->]). rewrite E in H. injection H as <-. split; [done|]. right. right. by apply an_over.
  - assert (E : String.eqb (wr_Status w) "satisfied" = false) by (by destruct Hs as [->| ->]). rewrite E in H. injection H as <-. split; [done|]. by left.
Qed.

(** A row that is over stays as it is. *)
Lemma over_stays s s' w : agrows s s' -> w ∈ a_waits s -> wr_Status w <> "pending" -> w ∈ a_waits s'.
Proof. intros Hgr Hw Hp. destruct (gw_waits _ _ Hgr w Hw) as (w' & Hw' & [->|[? _]]); done. Qed.

Lemma closed_stays s s' g : agrows s s' -> g ∈ a_grants s -> gr_Status g <> "active" -> g ∈ a_grants s'.
Proof. intros Hgr Hg Ha. destruct (gw_grants _ _ Hgr g Hg) as (g' & Hg' & [->|[? _]]); done. Qed.

(** The same row, later. *)
Lemma same_row s s' w w' : aok s' -> agrows s s' -> w ∈ a_waits s -> w' ∈ a_waits s' -> wr_WaitHandleID w' = wr_WaitHandleID w -> wait_next w w'.
Proof.
  intros Hok Hgr Hw Hw' Hid. destruct (gw_waits _ _ Hgr w Hw) as (y & Hy & Hn). assert (w' = y) as -> by
    (apply (same_key wr_WaitHandleID (a_waits s')); [apply Hok|done|done|by rewrite (wait_next_id _ _ Hn)]). done.
Qed.

(** A handle that was closed with its grant passes no authorization. *)
Lemma closed_not_allowed now s0 s1 s2 s3 r w g : aok s0 -> aok s1 -> agrows s0 s1 -> w ∈ a_waits s0 -> closed_status (wr_Status w) ->
  poll_allowed now s1 s2 s3 r (wr_Handle w) g -> False.
Proof.
  intros H0 H1 Hgr Hw Hc [P1 P2 P3 _ _ _ _ _ _ _ _]. destruct (ak_waits _ H0 w Hw) as (g0 & Hg0 & Wo & Ws). destruct Ws as [Hs _ _ _|e Hs _ _ _|Hs _ _|_ Heq _ _].
  - destruct Hc; congruence.
  - destruct Hc; congruence.
  - destruct Hc, Hs; congruence.
  - assert (Hna : gr_Status g0 <> "active") by (rewrite Heq; by apply closed_not_active). pose proof (closed_stays _ _ _ Hgr Hg0 Hna) as Hg1.
    assert (g = g0) as -> by (apply (same_key gr_GrantID (a_grants s1)); [apply H1|done|done|by rewrite P2, <- (wo_id _ _ Wo)]). done.
Qed.

Lemma poll_allowed_kept now s1 s2 s3 r h h' g : wh_Request h' = wh_Request h -> wh_Target h' = wh_Target h -> poll_allowed now s1 s2 s3 r h g -> poll_allowed now s1 s2 s3 r h' g.
Proof. intros E1 E2 []. split; unfold wh_GrantID, wh_GrantRevision in *; rewrite ?E1, ?E2; done. Qed.

Lemma wait_next_kept w w' : wait_next w w' -> wh_Request (wr_Handle w') = wh_Request (wr_Handle w) /\ wh_Target (wr_Handle w') = wh_Target (wr_Handle w).
Proof. by intros [->|(_ & st & i & n & c & r & u & _ & ->)]. Qed.

(** The reads after a transaction that lost: the handle in [v 0], and so on. *)
Lemma race_answer now x v (s sa : adb) w0 res : (forall i, aok (v i)) -> (forall i j, i <= j -> agrows (v i) (v j)) -> agrows s (v 0) -> w0 ∈ a_waits s ->
  (wh_DeadlineAt (wr_Handle w0) <= now)%Z \/ wt_Status res <> "pending" -> read_latest x v (wr_Handle w0) = Ok res ->
  (exists w, wt_Handle res = wr_Handle w /\ wait_next w0 w) /\ answer now sa (v 4) res.
Proof.
  intros Hok Hgr Hs Hw0 Hd H. unfold read_latest in H. go_ok. match goal with H : getWaitByID _ _ = _ |- _ => apply getWaitByID_Ok in H as (w & Hw & Hid & ->) end.
  pose proof (same_row _ _ _ _ (Hok 0) Hs Hw0 Hw Hid) as Hn.
  match goal with H : authorizeTerminalHandle _ _ _ = _ |- _ => apply authorizeWait_Ok in H as [g Hg] end.
  destruct (decide (wr_Status w = "pending")) as [Hp|Hp].
  - match goal with H : resultForTerminal _ _ _ = _ |- _ => unfold resultForTerminal in H; fold (wr_Status w) in H; rewrite Hp in H; injection H as <- end. cbn in *.
    split; [eauto|]. apply an_pending; [done|done|]. right. destruct Hd as [Hd|Hd]; [|by unfold wr_Status in *]. unfold wh_DeadlineAt in *. cbn. by rewrite (proj1 (wait_next_kept _ _ Hn)).
  - pose proof (over_stays _ _ _ (Hgr 0 4 ltac:(lia)) Hw Hp) as Hw4.
    match goal with H : resultForTerminal _ _ _ = _ |- _ => destruct (resultForTerminal_Ok now _ sa _ _ _ (Hok 4) Hw4 H) as [E [Hc|[[? _]|Ha]]] end; [|done|split; [eauto|done]].
    exfalso. eapply (closed_not_allowed _ (v 0) (v 1)); [apply Hok|apply Hok|apply Hgr; lia|exact Hw|done|exact Hg].
Qed.

(** The answer is still one on a longer log. *)
Lemma answer_later now s s1 s2 res : agrows s1 s2 -> answer now s s1 res -> answer now s s2 res.
Proof.
  intros Hgr [? ? ?|e ? ? ? Hf ?|? ?]; [by apply an_pending| |by apply an_over]. eapply an_satisfied; [done..| |done].
  eapply first_wanted_prefix; [apply (gw_log _ _ Hgr)|exact Hf].
Qed.

Lemma resolveSatisfiedRace_Ok x v h res : resolveSatisfiedRace x v h = Ok res -> read_latest x v h = Ok res /\ wt_Status res <> "pending".
Proof.
  unfold resolveSatisfiedRace, read_latest. intros H. destruct (getWaitByID _ _) as [latest|] eqn:E1; [|done]. cbn -[isTerminalWaitStatus] in *. destruct (isTerminalWaitStatus (wh_Status latest)) eqn:Et; cbn in H; [|done].
  split; [done|]. destruct (authorizeTerminalHandle _ _ _); [|done]. cbn in H. unfold resultForTerminal, resultForTerminalTx in H.
  destruct (negb (String.eqb (wh_Status latest) "satisfied")) eqn:Es; [injection H as <-; cbn; by apply terminal_not_pending|].
  apply map_err_Ok in H. read_ok Hr. am_ok. cbn in Hr. destruct (_ || _); [done|]. by go_ok.
Qed.

(** A row that the deadline closes. *)
Lemma updateExpiredWait_Ok x h s h' s' : unique_rows s -> snapshot s h -> updateExpiredWait x h s = Ok (h', s') ->
  exists w, w ∈ a_waits s /\ wr_Handle w = h /\ wr_Status w = "pending" /\ h' = wr_Handle (close_wait "timed_out" (x_Now x 0) (x_Wall x) w).
Proof.
  intros Hu Hsnap H. unfold updateExpiredWait, GetOrchestrationEventWaitHandle in H. am_ok.
  match goal with H : TimeoutOrchestrationEventWaitHandle _ _ _ _ _ _ = _ |- _ => eapply update_waits_one in H as (w & Hw & Hh & Hp & _ & ->); [|done|done|intros y Hy; by apply andb_true_iff in Hy as [? _]|done] end.
  exists w. split_and!; [done..|]. match goal with H : waitFromRow _ = Ok _ |- _ => apply waitFromRow_Ok in H as [-> _] end.
  match goal with H : List.find _ _ = Some ?row |- _ => apply find_wait_id in H as [Hin Hid]; rename row into y end.
  apply list_elem_of_fmap in Hin as (z & -> & Hz). destruct (String.eqb_spec (wr_WaitHandleID z) (wr_WaitHandleID w)) as [E|E].
  - destruct Hu as [_ Hnd]. by assert (z = w) as -> by (apply (same_key wr_WaitHandleID (a_waits s)); auto).
  - exfalso. apply E. rewrite Hid. unfold wr_WaitHandleID. by rewrite Hh.
Qed.

Lemma wait_next_resolve status i n c r u w : wr_Status w = "pending" -> terminal status -> wait_next w (resolve_wait status i n c r u w).
Proof. intros Hp Ht. right. split; [done|]. exists status, i, n, c, r, u. done. Qed.

(** What follows the authorization of a poll. *)
Lemma pollWaitHandle_answer x v (s0 : adb) w0 res : (forall i, aok (v i)) -> (forall i j, i <= j -> agrows (v i) (v j)) -> aok s0 -> agrows s0 (v 0) -> w0 ∈ a_waits s0 ->
  ~ closed_status (wr_Status w0) -> (pollWaitHandle x v (wr_Handle w0)).1 = Ok res ->
  (exists w, wt_Handle res = wr_Handle w /\ wait_next w0 w) /\ answer (x_Now x 0) (v 0) (v 5) res.
Proof.
  intros Hok Hgr H0 Hs Hw0 Hc H. unfold pollWaitHandle in H. fold (wr_Status w0) in H. destruct (String.eqb_spec (wr_Status w0) "pending") as [Hp|Hp]; cbn [negb] in H.
  2: { cbn in H. pose proof (over_stays _ _ _ Hs Hw0 Hp) as Hw. destruct (resultForTerminal_Ok (x_Now x 0) _ (v 0) _ _ _ (Hok 0) Hw H) as [E [?|[[? _]|Ha]]]; [done..|].
    split; [exists w0; split; [done|by left]|]. eapply answer_later; [apply (Hgr 0 5); lia|done]. }
  pose proof (snapshot_later _ _ _ (Hok 0) Hs Hw0) as Hsn. pose proof (ak_unique _ (Hok 0)) as Hu.
  assert (Hrace : forall y, (wh_DeadlineAt (wr_Handle w0) <= x_Now x 0)%Z \/ wt_Status res <> "pending" -> read_latest y (fun i => v (1 + i)) (wr_Handle w0) = Ok res ->
    (exists w, wt_Handle res = wr_Handle w /\ wait_next w0 w) /\ answer (x_Now x 0) (v 0) (v 5) res).
  { intros y Hd HR. apply (race_answer (x_Now x 0) y (fun i => v (1 + i)) s0 (v 0) w0 res); auto.
    - intros i j ?. apply Hgr. lia.
    - etrans; [exact Hs|]. apply Hgr. lia. }
  destruct (_ <=? _)%Z eqn:Ed; go_bool.
  - unfold expireWait, withWriteTx in H. destruct (updateExpiredWait _ _ (v 0)) as [[h' s1]|e] eqn:E; cbn in H; [|destruct (errors_Is _ _); [|done]; eauto].
    injection H as <-. apply (updateExpiredWait_Ok _ _ _ _ _ Hu Hsn) in E as (w & Hw & Eh & Hpw & ->). cbn. split.
    + exists (close_wait "timed_out" (x_Now (later 1 x) 0) (x_Wall (later 1 x)) w0). split; [unfold close_wait, resolve_wait; cbn; by rewrite Eh|]. by apply wait_next_resolve.
    + apply an_over; [by left|done].
  - unfold pollPendingTx, withWriteTx in H. destruct (poll_pending_tx _ _ (v 0)) as [[r s1]|e] eqn:E; cbn in H.
    2: { destruct (errors_Is _ _); [|done]. apply resolveSatisfiedRace_Ok in H as [H Hnp]. eauto. }
    injection H as ->. destruct (poll_pending_tx_Ok _ _ _ _ _ (ak_events _ (Hok 0)) Hu Hsn E) as (_ & _ & [(_ & -> & Hun)|(w & e & Hw & Eh & Hpw & Hf & _ & ->)]); cbn.
    + split; [exists w0; split; [done|by left]|]. apply an_pending; auto.
    + split.
      * eexists (resolve_wait "satisfied" _ _ _ _ _ w0). split; [unfold resolve_wait; cbn; rewrite Eh; reflexivity|]. by apply wait_next_resolve.
      * eapply (an_satisfied _ _ _ _ e); [done..| |done]. cbn. apply (first_wanted_prefix _ (a_events (v 0))); [apply (gw_log _ _ (Hgr 0 5 ltac:(lia)))|].
        rewrite <- Eh in Hf. exact Hf.
Qed.

(** Every answer of a poll. *)
Lemma poll_answered (ops : nat -> list aop) (x : Env) (r : PollRequest) (res : WaitResult) (v := fun i => db_after (ops i)) :
  growing ops -> (PollWait x v r).1 = Ok res ->
  wh_WaitHandleID (wt_Handle res) = po_WaitHandleID r /\ (exists g, poll_allowed (x_Now x 1) (v 1) (v 2) (v 3) r (wt_Handle res) g) /\ answer (x_Now x 2) (v 4) (v 9) res.
Proof.
  intros Hg H. assert (Hgr : forall i j, i <= j -> agrows (v i) (v j)) by (intros i j; by apply growing_grows). assert (Hok : forall i, aok (v i)) by (intros i; apply db_after_ok).
  unfold PollWait in H. destruct (authorized_handle x v r) as [h|e] eqn:Ea; [|done]. apply authorized_handle_allowed in Ea as (w0 & g & Hw0 & Hid & <- & Hal).
  assert (Hc : ~ closed_status (wr_Status w0)). { intros Hc. eapply (closed_not_allowed _ (v 0) (v 1)); eauto. }
  destruct (pollWaitHandle_answer (later 2 x) (fun i => v (4 + i)) (v 0) w0 res) as [(w & -> & Hn) Ha]; [auto|intros i j ?; apply Hgr; lia|auto|apply Hgr; lia|done..|].
  destruct (wait_next_kept _ _ Hn) as [E1 E2]. split_and!; [|exists g; by eapply poll_allowed_kept|done].
  rewrite <- Hid. unfold wr_WaitHandleID, wh_WaitHandleID in *. by rewrite E1.
Qed.

(** A handle that was closed with its grant is refused by every later poll: the
    authorization asks for an active grant. *)
Theorem closed_wait_not_replayed (ops : nat -> list aop) (x : Env) (r : PollRequest) (res : WaitResult) (v := fun i => db_after (ops i)) :
  growing ops -> (PollWait x v r).1 = Ok res -> wt_Status res <> "revoked" /\ wt_Status res <> "expired".
Proof. intros Hg H. destruct (poll_answered _ _ _ _ Hg H) as (_ & _ & Ha). destruct Ha as [-> _ _|e -> _ _ _ _|[->| ->] _]; done. Qed.

(** What the wait contract lets a poll say: [s] is the database of its transaction, [s'] the
    last one that was read. *)
Inductive poll_says (now : Z) (s s' : adb) (res : WaitResult) : Prop :=
| says_pending : wt_Status res = "pending" -> wt_Event res = None ->
    Forall (unwanted (wt_Handle res)) (waiting_log (a_events s) (wt_Handle res)) \/ (wh_DeadlineAt (wt_Handle res) <= now)%Z -> poll_says now s s' res
| says_satisfied e : wt_Status res = "satisfied" -> wt_Event res = Some e -> wt_NextCursor res = event_cursor e ->
    first_wanted (wt_Handle res) (waiting_log (a_events s') (wt_Handle res)) e -> matched_by (wt_Handle res) e -> poll_says now s s' res
| says_over : wt_Status res ∈ ["timed_out"; "cancelled"; "revoked"; "expired"] -> wt_Event res = None -> poll_says now s s' res.

Lemma answer_says now s s' res : answer now s s' res -> poll_says now s s' res.
Proof. intros [?|e|Hs ?]; [by apply says_pending|by eapply says_satisfied|]. apply says_over; [|done]. destruct Hs as [-> | ->]; set_solver. Qed.

(** C23: a poll on a database that other transactions change between its reads answers only
    the caller of the grant, when the grant was read active and both agents bound as it says;
    it says [pending] only when no event of the log that the handle waits for is there (or
    the deadline has passed); it says [satisfied] only with the first such event and the
    cursor behind it; and with every other terminal status it gives out no event. *)
Theorem poll_answer (ops : nat -> list aop) (x : Env) (r : PollRequest) (res : WaitResult) (v := fun i => db_after (ops i)) :
  growing ops -> (PollWait x v r).1 = Ok res ->
  wh_WaitHandleID (wt_Handle res) = po_WaitHandleID r /\ (exists g, poll_allowed (x_Now x 1) (v 1) (v 2) (v 3) r (wt_Handle res) g) /\ poll_says (x_Now x 2) (v 4) (v 9) res.
Proof. intros Hg H. destruct (poll_answered _ _ _ _ Hg H) as (? & ? & ?). split_and!; [done..|by apply answer_says]. Qed.
End safety.

(** ** Access that ends

    A grant that was closed, or that names an incarnation that was released, gives nothing to
    anyone any more, whatever is done to the three stores afterwards. *)

Section cutoff.
Context `{EC : EventCodec} `{AC : AccessCodec}.

(** *** Grants that are of no use *)

(** From the history [ops] on: the grant is closed, or one of its fences never holds again. *)
Definition dead_from (ops : list aop) (g : OrchestrationAccessGrant) : Prop :=
  gr_Status g <> "active"
  \/ (forall ops', ops `prefix_of` ops' -> ~ fence_holds (db_after ops') (gq_Source (gr_Request g)))
  \/ (forall ops', ops `prefix_of` ops' -> ~ fence_holds (db_after ops') (gq_Target (gr_Request g))).

Lemma later_grant ops ops' g g' : ops `prefix_of` ops' -> g ∈ a_grants (db_after ops) -> g' ∈ a_grants (db_after ops') -> gr_GrantID g' = gr_GrantID g ->
  gr_Request g' = gr_Request g /\ (gr_Status g' = "active" -> gr_Status g = "active").
Proof.
  intros Hp Hg Hg' Hid. destruct (gw_grants _ _ (db_after_grows _ _ Hp) g Hg) as (y & Hy & Hn). destruct (grant_next_id _ _ Hn) as [Ey Er].
  assert (g' = y) as ->. { apply (same_key gr_GrantID (a_grants (db_after ops'))); [apply db_after_ok|done|done|congruence]. }
  split; [done|]. destruct Hn as [->|(? & _)]; done.
Qed.

(** The grant, read in one state, the source in another and the target in a third. *)
Lemma dead_grant ops g o1 o2 o3 g' : g ∈ a_grants (db_after ops) -> dead_from ops g -> ops `prefix_of` o1 -> ops `prefix_of` o2 -> ops `prefix_of` o3 ->
  g' ∈ a_grants (db_after o1) -> gr_GrantID g' = gr_GrantID g -> gr_Status g' = "active" ->
  fence_holds (db_after o2) (gq_Source (gr_Request g')) -> fence_holds (db_after o3) (gq_Target (gr_Request g')) -> False.
Proof.
  intros Hg Hd P1 P2 P3 Hg' Hid Ha Hs Ht. destruct (later_grant _ _ _ _ P1 Hg Hg' Hid) as [Er Hst]. rewrite Er in *.
  destruct Hd as [Hd|[Hd|Hd]]; [by apply Hd, Hst|by apply (Hd o2)|by apply (Hd o3)].
Qed.

Definition refused {A} (r : result error A) : Prop := is_ok r = false.

Lemma refused_intro {A} (r : result error A) : (forall a, r = Ok a -> False) -> refused r.
Proof. intros H. destruct r as [a|e]; [by destruct (H a)|done]. Qed.

(** Whatever is asked for under the grant after the history [ops] is refused. *)
Record shut (ops : list aop) (id : string) : Prop := {
  sh_authorize polls x r : growing polls -> ops `prefix_of` polls 0 -> ac_GrantID r = id -> refused (Authorize x (fun i => db_after (polls i)) r);
  sh_authorize_tx more x r : ac_GrantID r = id -> refused (AuthorizeTx x r (db_after (ops ++ more)));
  sh_read more x r selector after limit : ac_GrantID r = id -> refused (ReadAuthorizedEvents x r selector after limit (db_after (ops ++ more)));
  sh_create more x newID r : wq_GrantID r = id -> refused (CreateWait x newID r (db_after (ops ++ more)));
  sh_cancel more x r w : w ∈ a_waits (db_after (ops ++ more)) -> wr_WaitHandleID w = ca_WaitHandleID r -> wr_GrantID w = id -> refused (CancelWait x r (db_after (ops ++ more)));
  sh_poll polls x r w : growing polls -> ops `prefix_of` polls 1 -> w ∈ a_waits (db_after (polls 0)) -> wr_WaitHandleID w = po_WaitHandleID r -> wr_GrantID w = id ->
    refused (PollWait x (fun i => db_after (polls i)) r).1;
}.

Lemma Authorize_Ok x v r a : Authorize x v r = Ok a -> exists row, row ∈ a_grants (v 0) /\ gr_GrantID row = ac_GrantID r
  /\ allows row (ac_CallerPrincipalRef r) (ac_ScopeRef r) (ac_Capability r) (ac_Source r) (ac_Target r) (x_Now x 0) /\ fence_holds (v 1) (gq_Source (gr_Request row)) /\ fence_holds (v 2) (gq_Target (gr_Request row)).
Proof.
  unfold Authorize, GetGrant, getGrantWithQueries, GetOrchestrationAccessGrant. intros H. go_ok. read_ok Hr. am_ok. loaded_grant L Hg row g.
  destruct (grantFromRow_Ok _ _ Hg) as (Hq & _ & _ & _ & Hv & _).
  match goal with H : verifyRequestedFences _ _ _ _ = _ |- _ => apply verify_Ok in H as [F1 F2] end.
  match goal with H : validateGrantAuthorization _ _ _ = _ |- _ => pose proof (validateGrantAuthorization_Ok _ _ _ _ _ L Hv H) as Al end.
  unfold ag_Source, ag_Target in *. rewrite Hq in *. exists row. destruct L. done.
Qed.

Lemma read_events_authorized x r sel after limit s l : ReadAuthorizedEvents x r sel after limit s = Ok l -> exists row, authorized s r row (x_Now x 0).
Proof.
  unfold ReadAuthorizedEvents. intros H. destruct (validateEventReadInput _ _ _ _); [|done]. cbn in H. apply map_err_Ok in H. read_ok Hr. unfold read_events_tx, validateEventReadTx in Hr. am_ok.
  repeat match goal with H : AuthorizeTx _ _ _ = Ok _ |- _ => apply AuthorizeTx_Ok in H as (-> & ? & ? & _ & ? & _) end. eauto.
Qed.

Lemma CreateWait_admitted x newID r s h s' : CreateWait x newID r s = Ok (h, s') -> exists row, row ∈ a_grants s /\ gr_GrantID row = wq_GrantID r /\ gr_Status row = "active"
  /\ fence_holds s (gq_Source (gr_Request row)) /\ fence_holds s (gq_Target (gr_Request row)).
Proof.
  unfold CreateWait, CreateWaitTx. intros H. am_ok. match goal with H : prepareWaitGrantTx _ _ _ = _ |- _ => apply prepareWaitGrantTx_Ok in H as (-> & row & L & Hv & _) end.
  match goal with H : prepareWaitRequestTx _ _ _ _ _ _ = Ok (?p, _) |- _ => destruct p as [r' gen]; eapply prepareWaitRequestTx_Ok in H as (-> & _ & Al & Hs & Ht); [|done|done] end.
  exists row. destruct L, Al. done.
Qed.

Lemma CancelWait_usable x r s res s' : unique_rows s -> CancelWait x r s = Ok (res, s') -> forall w, w ∈ a_waits s -> wr_WaitHandleID w = ca_WaitHandleID r -> exists row now, usable s (wr_Handle w) row now.
Proof.
  intros [_ Hu] H w Hw Hid. unfold CancelWait, CancelWaitTx, loadAuthorizedCancelHandleTx in H. am_ok.
  match goal with H : getWaitByIDWithQueries _ _ = _ |- _ => apply getWaitByIDWithQueries_Ok in H as [-> (w0 & Hw0 & Hid0 & ->)] end.
  assert (w = w0) as -> by (apply (same_key wr_WaitHandleID (a_waits s)); [done..|congruence]).
  match goal with H : authorizeWaitTx _ _ _ _ = _ |- _ => apply authorizeWaitTx_Ok in H as (-> & _ & _ & row & Hus) end. eauto.
Qed.

Lemma poll_needs x v r res : (PollWait x v r).1 = Ok res -> exists w g, w ∈ a_waits (v 0) /\ wr_WaitHandleID w = po_WaitHandleID r /\ poll_allowed (x_Now x 1) (v 1) (v 2) (v 3) r (wr_Handle w) g.
Proof.
  unfold PollWait. destruct (authorized_handle x v r) as [h|e] eqn:E; [|done]. intros _. apply authorized_handle_allowed in E as (w & g & Hw & Hid & <- & Hal). eauto.
Qed.

Lemma prefix_grows polls ops i j : growing polls -> ops `prefix_of` polls i -> i <= j -> ops `prefix_of` polls j.
Proof. intros Hg Hp. induction 1 as [|j _ IH]; [done|]. etrans; [exact IH|apply Hg]. Qed.

Lemma authorized_row s r row now : authorized s r row now -> row ∈ a_grants s /\ gr_GrantID row = ac_GrantID r /\ gr_Status row = "active"
  /\ fence_holds s (gq_Source (gr_Request row)) /\ fence_holds s (gq_Target (gr_Request row)).
Proof. intros [Hrow Hid Al Hs Ht]. rewrite (al_source _ _ _ _ _ _ _ Al), (al_target _ _ _ _ _ _ _ Al). split_and!; [done..|by destruct Al|done|done]. Qed.

Lemma dead_shut ops g : g ∈ a_grants (db_after ops) -> dead_from ops g -> shut ops (gr_GrantID g).
Proof.
  intros Hg Hd. assert (P : forall more, ops `prefix_of` ops ++ more) by (intros more; by exists more). split.
  - intros polls x r Hgr Hp Hid. apply refused_intro. intros a (row & Hrow & Eid & Al & Hs & Ht)%Authorize_Ok. destruct Al.
    eapply (dead_grant ops g (polls 0) (polls 1) (polls 2)); eauto using prefix_grows; congruence.
  - intros more x r Hid. apply refused_intro. intros [a s'] (_ & row & g' & _ & (Hrow & Eid & Ha & Hs & Ht)%authorized_row & _)%AuthorizeTx_Ok.
    eapply (dead_grant ops g (ops ++ more)); eauto; congruence.
  - intros more x r sel after limit Hid. apply refused_intro. intros l [row (Hrow & Eid & Ha & Hs & Ht)%authorized_row]%read_events_authorized.
    eapply (dead_grant ops g (ops ++ more)); eauto; congruence.
  - intros more x newID r Hid. apply refused_intro. intros [h s'] (row & Hrow & Eid & Ha & Hs & Ht)%CreateWait_admitted.
    eapply (dead_grant ops g (ops ++ more)); eauto; congruence.
  - intros more x r w Hw Hw1 Hid. apply refused_intro. intros [res s'] H. destruct (CancelWait_usable _ _ _ _ _ (ak_unique _ (db_after_ok _)) H w Hw Hw1) as (row & now & [Hrow Eid _ Al Hs Ht _ _]).
    destruct Al. unfold wr_GrantID in *. eapply (dead_grant ops g (ops ++ more)); eauto; congruence.
  - intros polls x r w Hgr Hp Hw Hw1 Hid. apply refused_intro. intros res (w' & row & Hw' & Hw2 & [Hrow Eid Ha _ _ _ _ _ _ Hs Ht])%poll_needs.
    assert (w' = w) as -> by (apply (same_key wr_WaitHandleID (a_waits (db_after (polls 0)))); [apply db_after_ok|done|done|congruence]).
    unfold wr_GrantID in *. eapply (dead_grant ops g (polls 1) (polls 2) (polls 3)); eauto using prefix_grows; congruence.
Qed.

(** The handles of a closed grant are closed too. *)
Lemma closed_not_pending s g w : aok s -> g ∈ a_grants s -> gr_Status g <> "active" -> w ∈ a_waits s -> wr_GrantID w = gr_GrantID g -> wr_Status w <> "pending".
Proof.
  intros Hok Hg Hna Hw Hid Hp. destruct (ak_waits _ Hok w Hw) as (g' & Hg' & Wo & [_ _ Ha _|? ? _ _ _|[?|?] _ _|[?|?] _ _ _]); try congruence.
  assert (g' = g) as -> by (apply (same_key gr_GrantID (a_grants s)); [apply Hok|done|done|]; rewrite <- (wo_id _ _ Wo); congruence). done.
Qed.

(** C24: a grant that was revoked or that expired stays so for ever, with the status and the
    times that it got; none of its waits is pending from then on; and whatever is asked for
    under it afterwards is refused: authorizations, reads of events, new waits, also ones that
    were asked for before, cancellations and polls, also a poll that has read its handle before. *)
Theorem closed_grant_is_dead (ops : list aop) (g : OrchestrationAccessGrant) : g ∈ a_grants (db_after ops) -> gr_Status g <> "active" ->
  shut ops (gr_GrantID g)
  /\ forall more, g ∈ a_grants (db_after (ops ++ more)) /\ forall w, w ∈ a_waits (db_after (ops ++ more)) -> wr_GrantID w = gr_GrantID g -> wr_Status w <> "pending".
Proof.
  intros Hg Hna. split; [apply dead_shut; [done|by left]|]. intros more. assert (Hg' : g ∈ a_grants (db_after (ops ++ more))).
  { eapply closed_stays; [apply (db_after_grows ops); by exists more|done|done]. }
  split; [done|]. intros w Hw Hid. by eapply closed_not_pending; [apply db_after_ok|..].
Qed.

(** *** Agents that were released *)

Lemma released_fence ops a n k i f ops' : valid_agent a -> agent_view a (a_ids (db_after ops)) = Released n k i -> ops `prefix_of` ops' -> fs_IncarnationID f = i -> ~ fence_holds (db_after ops') f.
Proof.
  intros Ha Hv Hp Hi (b & Hn & Hact & ->). destruct (gw_ids _ _ (db_after_grows _ _ Hp)) as [iops E]. rewrite E in Hn.
  by eapply (released_never_bound (a_ids (db_after ops)) iops a n k i _ b (ak_ids _ (db_after_ok ops)) Ha Hv Hn Hact).
Qed.

Lemma CreateGrantTx_fences x r s g s' : CreateGrantTx x r s = Ok (g, s') -> fence_holds s (gq_Source r) /\ fence_holds s (gq_Target r).
Proof.
  unfold CreateGrantTx, createGrantInTx. intros H. am_ok. match goal with H : verifyRequestedFencesTx _ _ _ = _ |- _ => by apply verify_tx_Ok in H as (-> & Hs & Ht) end.
Qed.

(** C25: releasing an agent in the identity store cuts, for good, every access that names the
    incarnation that was released, as the source or as the target of a grant, though no grant
    is touched: what is asked for under such a grant is refused whatever is done afterwards,
    new bindings of the agent included, and no new grant for the incarnation is made. *)
Theorem released_agent_is_cut_off (ops : list aop) (a : string) (n k : Z) (i : string) : valid_agent a -> agent_view a (a_ids (db_after ops)) = Released n k i ->
  (forall g, g ∈ a_grants (db_after ops) -> fs_IncarnationID (gq_Source (gr_Request g)) = i \/ fs_IncarnationID (gq_Target (gr_Request g)) = i -> shut ops (gr_GrantID g))
  /\ forall more x r, fs_IncarnationID (gq_Source r) = i \/ fs_IncarnationID (gq_Target r) = i -> refused (CreateGrantTx x r (db_after (ops ++ more))).
Proof.
  intros Ha Hv. split.
  - intros g Hg Hi. apply dead_shut; [done|]. right. destruct Hi as [Hi|Hi]; [left|right]; intros ops' Hp; by eapply released_fence.
  - intros more x r Hi. apply refused_intro. intros [g s'] [Hs Ht]%CreateGrantTx_fences. assert (P : ops `prefix_of` ops ++ more) by (by exists more).
    destruct Hi as [Hi|Hi]; by eapply (released_fence ops a n k i _ (ops ++ more)).
Qed.
End cutoff.
