(* ===== verification/AccessProgress.v ===== *)
(** * What a grant gives, and that a wait ends

    The events that a read under a grant returns are the ones of the log that it asks for;
    and a loop of polls returns, at the latest with the first poll that begins a second after the
    deadline.  Within the second of the deadline the statement compares texts, see [GoTime]. *)

From S2P Require Import Prelude GoStrings WakeupLease GoTime EventContract IdentityStore IdentityOps IdentitySteps IdentityInvariant IdentityHistory EventStore EventLog EventAppend EventHistory EventRead EventFence IdentityFence AccessContract AccessStore AccessGrants AccessWaits AccessRules AccessSteps AccessInvariant AccessSafety.

Section progress.
Context `{EC : EventCodec} `{AC : AccessCodec}.

(** ** Reads *)

Definition selected (selector : EventSelector) (e : AgentEvent) : bool := eventTypeSelected (event_type e) (es_EventTypes selector).

Lemma selectedAuthorizedEvents_Ok items target selector l : selectedAuthorizedEvents items target selector = Ok l ->
  l = List.filter (selected selector) items /\ Forall (fun e => validateAuthorizedEvent e target selector = Ok tt) l.
Proof.
  revert l. induction items as [|e items IH]; cbn; intros l H; [simplify_eq; split; [done|constructor]|]. unfold selected in *. destruct (eventTypeSelected _ _); cbn in H; [|by apply IH].
  go_ok. match goal with H : selectedAuthorizedEvents _ _ _ = Ok ?r |- _ => destruct (IH r H) as [-> Hf] end. split; [done|]. constructor; [|done].
  by match goal with H : validateAuthorizedEvent _ _ _ = Ok ?u |- _ => destruct u end.
Qed.

(** The stream of a selector is the one of an agent's incarnation. *)
Definition on_stream_of (selector : EventSelector) (f : FenceSnapshot) : Prop := es_SourceID selector = "task/" +:+ fs_AgentID f /\ es_SourceEpoch selector = fs_IncarnationID f.

Lemma selectorSource_Ok selector g : selectorSourceMatchesGrant selector g = true -> on_stream_of selector (ag_Source g) \/ on_stream_of selector (ag_Target g).
Proof.
  unfold selectorSourceMatchesGrant, targetSelectorMatchesGrant, canonicalSelectorMatchesFence, canonicalSourceID, canonicalSourceEpoch. intros H. go_bool.
  match goal with H : _ || _ = true |- _ => apply orb_true_iff in H as [H|H] end; go_bool; [left|right]; by split.
Qed.

(** An event that carries the fence of an agent, and is about it. *)
Definition carries (f : FenceSnapshot) (e : AgentEvent) : Prop :=
  let v := fr_Envelope (ae_Frame e) in
  ev_SubjectAgentID v = fs_AgentID f /\ ev_IncarnationID v = Some (fs_IncarnationID f) /\ ev_ReservationID v = fs_ReservationID f /\ ev_BindingVersion v = fs_BindingVersion f.

Lemma authorizedEvent_Ok e target selector : es_TargetAgentID selector = fs_AgentID target -> validateAuthorizedEvent e target selector = Ok tt -> carries target e.
Proof.
  unfold validateAuthorizedEvent, eventSelectorMatches, eventFenceMatches. intros Et H. go_ok. go_bool. unfold carries. destruct (ev_IncarnationID _) as [i|]; [|done]. go_bool.
  unfold event_subject in *. split_and!; congruence.
Qed.

(** C26: reading under a grant.  When a read succeeds, at any point of any history, the grant
    was active, unexpired at both readings of the clock, and of this caller, both agents were bound
    as the grant says, and the stream is the one of the grant's source or target; what is
    returned is exactly the page of the log that was asked for, less the events of other types,
    in order, and every event in it carries the binding of the target. *)
Theorem read_is_exact (ops : list aop) (x : Env) (r : AccessRequest) (selector : EventSelector) (after limit : Z) (l : list AgentEvent) (s := db_after ops) :
  ReadAuthorizedEvents x r selector after limit s = Ok l ->
  ac_Capability r = "read" /\ (on_stream_of selector (ac_Source r) \/ on_stream_of selector (ac_Target r))
  /\ (exists row, authorized s r row (x_Now x 0) /\ authorized s r row (x_Now x 1))
  /\ l = List.filter (selected selector) (take (Z.to_nat limit) (drop (Z.to_nat after) (log (a_events s) (selector_stream selector))))
  /\ Forall (carries (ac_Target r)) l.
Proof.
  unfold ReadAuthorizedEvents. intros H. destruct (validateEventReadInput _ _ _ _) eqn:Ei; [|done]. cbn in H. apply map_err_Ok in H. read_ok Hr. unfold read_events_tx, validateEventReadTx in Hr. am_ok.
  match goal with H : AuthorizeTx x _ _ = Ok _ |- _ => apply AuthorizeTx_Ok in H as (-> & row & g & L & A & -> & _) end.
  repeat match goal with H : ensureSourceReadableTx _ _ _ = _ |- _ => apply reads_ensureSource in H as -> end.
  match goal with H : ListEventsTx _ _ _ _ = _ |- _ => apply (ListEventsTx_Ok _ _ _ _ _ _ (ak_events _ (db_after_ok _))) in H as (-> & _ & ->) end.
  repeat match goal with H : ensureSourceReadableTx _ _ _ = _ |- _ => apply reads_ensureSource in H as -> end.
  match goal with H : AuthorizeTx _ _ _ = Ok _ |- _ => apply AuthorizeTx_Ok in H as (_ & row' & g' & L' & A' & -> & _) end.
  assert (row' = row) as -> by (apply (same_key gr_GrantID (a_grants s)); [apply db_after_ok|apply A'|apply A|rewrite (au_id _ _ _ _ A); apply A']).
  match goal with H : selectedAuthorizedEvents _ _ _ = _ |- _ => apply selectedAuthorizedEvents_Ok in H as [-> Hf] end.
  cbn [az_Grant authorization_of] in *. unfold ag_Target, eventReadTargetMatches in *. cbn [az_Grant authorization_of] in *. unfold ag_Target in *. go_bool.
  rewrite (ld_request _ _ _ _ L) in *. rewrite (ld_request _ _ _ _ L') in *. pose proof (al_source _ _ _ _ _ _ _ (au_allows _ _ _ _ A)) as E1. pose proof (al_target _ _ _ _ _ _ _ (au_allows _ _ _ _ A)) as E2.
  split_and!.
  - unfold validateEventReadInput in Ei. go_ok. by go_bool.
  - match goal with H : selectorSourceMatchesGrant _ g = true |- _ => apply selectorSource_Ok in H end. unfold ag_Source, ag_Target in *. rewrite (ld_request _ _ _ _ L), E1, E2 in *. done.
  - exists row. done.
  - done.
  - eapply Forall_impl; [exact Hf|]. intros e He. rewrite E2 in *. by eapply authorizedEvent_Ok.
Qed.

(** ** Waits *)

(** An error that is not the loss of a race. *)
Definition quiet {A} (r : result error A) : Prop := match r with Ok _ => True | Err e => errors_Is e ErrWaitTerminal = false end.

Lemma quiet_bind {A B} (r : result error A) (f : A -> result error B) : quiet r -> (forall a, quiet (f a)) -> quiet (r ≫= f).
Proof. destruct r as [a|e]; cbn; auto. Qed.

Lemma quiet_guard b e : errors_Is e ErrWaitTerminal = false -> quiet (guard_err b e).
Proof. by destruct b. Qed.

Ltac quieting := repeat match goal with
  | |- quiet (_ ≫= _) => apply quiet_bind; [|intros ?]
  | |- quiet (guard_err _ _) => by apply quiet_guard
  | |- quiet (let _ := _ in _) => cbv zeta
  | |- quiet (match ?x with _ => _ end) => destruct x
  | |- quiet (Ok _) => exact I
  | |- quiet (Err _) => done
  end.

Lemma event_types_quiet seen before l : quiet (event_types_loop seen before l).
Proof. revert seen before. induction l as [|t l IH]; intros seen before; cbn [event_types_loop]; unfold aw_validateText; quieting; apply IH. Qed.

Lemma waitFromRow_quiet row : quiet (waitFromRow row).
Proof.
  unfold waitFromRow, parseUTC, selectorFromRow, selectorColumnsMatch, selectorJSON, Digest, optionalUTC, Handle_Validate, WaitRequest_Validate, validateWaitHandleBinding, validateWaitHandleMetadata,
    validateWaitMatch, validateWaitResolution, Selector_Validate, validateSelectorHeader, validateSelectorEventTypes, validateWaitRequestIdentity, validateWaitCursor, validateWaitRequestProof,
    ValidateBound, Fence_Validate, validateFenceIdentity, validateUnboundFence, validateBoundFenceFields, parseUTC, aw_validateDigest, aw_validateText.
  quieting; apply event_types_quiet.
Qed.

Lemma resultForTerminal_status x h s res : resultForTerminal x h s = Ok res -> wt_Status res = wh_Status h.
Proof.
  unfold resultForTerminal, resultForTerminalTx. destruct (String.eqb_spec (wh_Status h) "satisfied") as [E|E]; cbn [negb]; [|by intros [= <-]].
  intros H%map_err_Ok. read_ok Hr. am_ok. cbn in Hr. destruct (_ || _); [done|]. by go_ok.
Qed.

Lemma filter_key_one {A} (key : A -> string) (p : A -> bool) l x : NoDup (key <$> l) -> x ∈ l -> p x = true -> (forall y, p y = true -> key y = key x) -> length (List.filter p l) = 1.
Proof.
  intros Hnd Hx Hp Hk. apply list_elem_of_split in Hx as (l1 & l2 & ->). rewrite fmap_app, fmap_cons in Hnd. apply NoDup_app in Hnd as (_ & H1 & [H2 _]%NoDup_cons).
  assert (forall l, (key x ∉ (key <$> l)) -> List.filter p l = []) as Hnil.
  { induction l as [|y l IH]; [done|]. rewrite fmap_cons, not_elem_of_cons. intros [Hne Hl]. cbn. destruct (p y) eqn:E; [by apply Hk in E; congruence|auto]. }
  rewrite List.filter_app. cbn. rewrite Hp, (Hnil l1), (Hnil l2); [done|done|]. intros Hin. apply (H1 _ Hin). by left.
Qed.

(** The statement of a deadline that has passed, on the row as it was read. *)
Lemma updateExpiredWait_due x w s : unique_rows s -> w ∈ a_waits s -> wr_Status w = "pending" -> String.leb (utcText (wh_DeadlineAt (wr_Handle w))) (utcText (x_Now x 0)) = true ->
  quiet (updateExpiredWait x (wr_Handle w) s).
Proof.
  intros [_ Hu] Hw Hp Hd. unfold updateExpiredWait, aquery, TimeoutOrchestrationEventWaitHandle, update_waits, update_rows. set (f := close_wait "timed_out" (x_Now x 0) (x_Wall x)).
  set (hit := fun y => open_wait (wh_WaitHandleID (wr_Handle w)) (wh_Revision (wr_Handle w)) y && String.leb (utcText (wh_DeadlineAt (wr_Handle y))) (utcText (x_Now x 0))).
  assert (Hh : hit w = true). { unfold hit, open_wait, has_wait_id, wr_WaitHandleID, wr_Revision. by rewrite String.eqb_refl, Z.eqb_refl, Hp, Hd. }
  assert (Hid : forall y, hit y = true -> wr_WaitHandleID y = wr_WaitHandleID w). { unfold hit, open_wait, has_wait_id. intros y Hy. by go_bool. }
  assert (Hn : length (List.filter hit (a_waits s)) = 1). { by apply (filter_key_one wr_WaitHandleID hit (a_waits s) w). }
  unfold mbind, AM_bind, aguard, alift, map_err. rewrite Hn. cbn. unfold GetOrchestrationEventWaitHandle, one. cbn.
  destruct (List.find _ _) as [row|] eqn:E; cbn.
  - pose proof (waitFromRow_quiet row) as Hq. unfold quiet in *. by destruct (waitFromRow row).
  - done.
Qed.

Lemma poll_after_deadline x v (s0 : adb) w0 res : (forall i, aok (v i)) -> (forall i j, i <= j -> agrows (v i) (v j)) -> agrows s0 (v 0) -> w0 ∈ a_waits s0 ->
  (wh_DeadlineAt (wr_Handle w0) <= x_Now x 0)%Z -> String.leb (utcText (wh_DeadlineAt (wr_Handle w0))) (utcText (x_Now x 1)) = true ->
  (pollWaitHandle x v (wr_Handle w0)).1 = Ok res -> wt_Status res <> "pending".
Proof.
  intros Hok Hgr Hs Hw0 Hd Ht H. unfold pollWaitHandle in H. fold (wr_Status w0) in H. destruct (String.eqb_spec (wr_Status w0) "pending") as [Hp|Hp]; cbn [negb] in H.
  2: { cbn in H. intros E. apply resultForTerminal_status in H. unfold wr_Status in Hp. congruence. }
  rewrite (proj2 (Z.leb_le _ _) Hd) in H. unfold expireWait, withWriteTx in H. destruct (updateExpiredWait _ _ (v 0)) as [[h' s1]|e] eqn:E; cbn in H.
  - injection H as <-. apply updateExpiredWait_Ok in E as (w & _ & _ & _ & ->); [done|apply Hok|by eapply snapshot_later].
  - destruct (errors_Is e ErrWaitTerminal) eqn:Ee; [|done]. unfold read_latest in H. go_ok. match goal with H : getWaitByID _ _ = _ |- _ => apply getWaitByID_Ok in H as (z & Hz & Hid & ->) end.
    intros Er. match goal with H : resultForTerminal _ _ _ = _ |- _ => apply resultForTerminal_status in H; rewrite Er in H; rename H into Hzp end.
    destruct (gw_waits _ _ Hs w0 Hw0) as (y & Hy & Hn). destruct (decide (wr_Status y = "pending")) as [Hyp|Hyp].
    + assert (y = w0) as -> by (by destruct Hn as [?|(_ & st & i & n & c & r & u & Hst & ->)]; [|by apply terminal_not_pending in Hst]).
      pose proof (updateExpiredWait_due (later 1 x) w0 (v 0) (ak_unique _ (Hok 0)) Hy Hp Ht) as Hq. rewrite E in Hq. cbn in Hq. congruence.
    + pose proof (over_stays _ _ _ (Hgr 0 1 ltac:(lia)) Hy Hyp) as Hy1.
      assert (z = y) as -> by (apply (same_key wr_WaitHandleID (a_waits (v 1))); [apply Hok|done|done|]; rewrite (wait_next_id _ _ Hn); exact Hid). by unfold wr_Status in *.
Qed.

Lemma Wait_stops polls r x v : (x, v) ∈ polls -> (forall res, (PollWait x v r).1 = Ok res -> wt_Status res <> "pending") ->
  exists a, Wait polls r = Some a /\ forall res, a = Ok res -> wt_Status res <> "pending".
Proof.
  induction polls as [|[y u] polls IH]; intros Hin Hx; [by apply not_elem_of_nil in Hin|]. cbn [Wait]. destruct (PollWait y u r).1 as [res|e] eqn:E; [|eexists; split; [done|]; done].
  destruct (String.eqb_spec (wt_Status res) "pending") as [Hp|Hp]; [|eexists; split; [done|]; by intros ? [= <-]].
  apply elem_of_cons in Hin as [[= -> ->]|Hin]; [by destruct (Hx res E)|by apply IH].
Qed.

(** C27: a wait ends.  Let the polls of a wait, each with its clock and with the databases of a
    history that goes on under its reads, include one that begins a second after the deadline
    of its handle.  Then the loop returns, with an error or with a status that is final: it does
    not poll past that one, whatever other transactions do to the handle. *)
Theorem wait_returns (polls : list (Env * (nat -> list aop))) (r : PollRequest) (x : Env) (ops : nat -> list aop) (w : OrchestrationEventWaitHandle) :
  (x, ops) ∈ polls -> growing ops -> w ∈ a_waits (db_after (ops 0)) -> wr_WaitHandleID w = po_WaitHandleID r ->
  (0 <= wh_DeadlineAt (wr_Handle w))%Z -> (wh_DeadlineAt (wr_Handle w) + 1000 <= x_Now x 2)%Z -> (x_Now x 2 <= x_Now x 3 < year_10000)%Z ->
  exists a, Wait (map (fun p => (p.1, fun i => db_after (p.2 i))) polls) r = Some a /\ forall res, a = Ok res -> wt_Status res <> "pending".
Proof.
  intros Hin Hg Hw Hid H0 Hd Hn. eapply (Wait_stops _ _ x (fun i => db_after (ops i))).
  { apply list_elem_of_fmap. by exists (x, ops). }
  intros res H. unfold PollWait in H. destruct (authorized_handle x _ r) as [h|e] eqn:Ea; [|done]. apply authorized_handle_Ok in Ea as (w' & Hw' & Hid' & <-).
  assert (w' = w) as -> by (apply (same_key wr_WaitHandleID (a_waits (db_after (ops 0)))); [apply db_after_ok|done|done|congruence]).
  eapply (poll_after_deadline (later 2 x) (fun i => db_after (ops (4 + i))) (db_after (ops 0)) w); [intros i; apply db_after_ok| |apply growing_grows; [done|lia]|done|cbn; lia| |exact H].
  - intros i j ?. apply growing_grows; [done|lia].
  - cbn. unfold utcText. apply text_lt_leb, RFC3339Nano_lt; [done|lia|]. Z.to_euclidean_division_equations. lia.
Qed.
End progress.
