(* ===== verification/AccessExpiry.v ===== *)
(** * The expiry of grants

    Passes of the expiry runner, compared with what they are for: a pass expires the grants
    that have been due for longest, as many as its limit allows, with the waits under them; and
    enough passes expire every grant that is due.  A grant is healthy when its row can be read
    and was not made after the time at which it expires; the samples show what one that is not
    does to the passes. *)

From S2P Require Import Prelude GoStrings WakeupLease GoTime EventContract IdentityStore IdentityOps IdentitySteps IdentityInvariant IdentityHistory EventStore EventLog EventAppend EventHistory EventRead EventFence IdentityFence AccessContract AccessStore AccessGrants AccessWaits AccessRules AccessSteps AccessInvariant AccessSafety AccessProgress.

Definition expiry (g : OrchestrationAccessGrant) : Z := t_ms (gq_ExpiresAt (gr_Request g)).

Definition is_due (now : Z) (g : OrchestrationAccessGrant) : bool := String.eqb (gr_Status g) "active" && due_grant now g.

Definition healthy (g : OrchestrationAccessGrant) : Prop := is_ok (grantFromRow g) = true /\ (gr_CreatedAt g <= expiry g)%Z.

Definition due (now : Z) (s : adb) : list OrchestrationAccessGrant := List.filter (is_due now) (a_grants s).

(** The grants of [l] are expired, each at its time, and their pending waits with them. *)
Definition expire_all (l : list OrchestrationAccessGrant) (s : adb) : adb :=
  mkADB ((fun g => if str_in (gr_GrantID g) (map gr_GrantID l) then close_grant "expired" (expiry g) g else g) <$> a_grants s)
    ((fun w => if is_pending w then match List.find (has_grant_id (wr_GrantID w)) l with Some g => close_wait "expired" (expiry g) (expiry g) w | None => w end else w) <$> a_waits s)
    (a_ids s) (a_events s).

(** ** One grant *)

Definition years (t : Z) : bool := (-62167219200000 <=? t)%Z && (t <? year_10000)%Z.

(** When a row can be read. *)
Lemma grantFromRow_is_ok r rev st c u : is_ok (grantFromRow (mkGrantRow r rev st c u)) =
  years (t_ms (gq_IssuedAt r)) && years (t_ms (gq_ExpiresAt r)) && years c && years u
  && is_ok (Grant_Validate (mkGrant r rev st c u (if String.eqb st "revoked" then Some u else None) (if String.eqb st "expired" then Some u else None))).
Proof.
  unfold grantFromRow, parseUTC. cbn [gr_Request gr_CreatedAt gr_UpdatedAt gr_Status gr_Revision]. fold (years (t_ms (gq_IssuedAt r))) (years (t_ms (gq_ExpiresAt r))) (years c) (years u).
  destruct (years (t_ms (gq_IssuedAt r))); [|done]. destruct (years (t_ms (gq_ExpiresAt r))); [|done]. destruct (years c); [|done]. destruct (years u); [|done]. cbn [andb].
  unfold guard_err, mbind, result_bind. by destruct (Grant_Validate _).
Qed.

Lemma Grant_Validate_active r rev c u : is_ok (Grant_Validate (mkGrant r rev "active" c u None None)) =
  is_ok (GrantRequest_Validate r) && (0 <? rev)%Z && negb (IsZero c) && negb (IsZero u) && (c <=? u)%Z.
Proof.
  unfold Grant_Validate, validatePersistedGrant, accessGrantRequestFromGrant. cbn [ag_Request ag_Revision ag_Status ag_CreatedAt ag_UpdatedAt]. destruct (GrantRequest_Validate r); [|done].
  cbn. destruct (0 <? rev)%Z; [|done]. cbn. destruct (IsZero c), (IsZero u), (c <=? u)%Z; done.
Qed.

Lemma Grant_Validate_expired r rev c u : is_ok (Grant_Validate (mkGrant r rev "expired" c u None (Some u))) =
  is_ok (GrantRequest_Validate r) && (0 <? rev)%Z && negb (IsZero c) && negb (IsZero u) && (c <=? u)%Z.
Proof.
  unfold Grant_Validate, validatePersistedGrant, accessGrantRequestFromGrant. cbn [ag_Request ag_Revision ag_Status ag_CreatedAt ag_UpdatedAt]. destruct (GrantRequest_Validate r); [|done].
  cbn. destruct (0 <? rev)%Z; [|done]. cbn. destruct (IsZero c), (IsZero u) eqn:E, (c <=? u)%Z eqn:E2; try done; cbn; rewrite ?E, ?E2; done.
Qed.

Lemma request_expires r : is_ok (GrantRequest_Validate r) = true -> given_utc (gq_ExpiresAt r) = true /\ aw_validateText invalidAccess "grant_id" (gq_GrantID r) maxID false = Ok tt.
Proof.
  unfold GrantRequest_Validate. destruct (validateGrantRequestIdentity r) as [[]|] eqn:E1; [|done]. destruct (validateDistinctBoundFences _ _); [|done]. destruct (_ || _); [|done]. cbn.
  unfold validateGrantRequestProofs, validateTimeWindow. intros H. split.
  - destruct (aw_validateText _ _ _ _ _); [|done]. destruct (aw_validateDigest _ _ (gq_IdempotencyKeyDigest r) _); [|done]. destruct (aw_validateDigest _ _ _ _); [|done]. cbn in H.
    destruct (given_utc (gq_ExpiresAt r)); [done|]. by rewrite andb_false_r in H.
  - unfold validateGrantRequestIdentity in E1. by destruct (aw_validateText _ "grant_id" _ _ _) as [[]|].
Qed.

Lemma healthy_closed g : healthy g -> gr_Status g = "active" -> is_ok (grantFromRow (close_grant "expired" (expiry g) g)) = true.
Proof.
  intros [Hr Hc] Ha. destruct g as [r rev st c u]. unfold close_grant, expiry in *. cbn [gr_Request gr_CreatedAt gr_UpdatedAt gr_Status gr_Revision] in *. subst st.
  rewrite grantFromRow_is_ok in *. cbn [String.eqb Ascii.eqb Bool.eqb] in *. rewrite Grant_Validate_active in Hr. rewrite Grant_Validate_expired. go_bool.
  match goal with H : is_ok (GrantRequest_Validate _) = true |- _ => destruct (request_expires _ H) as [Hu _] end. unfold given_utc in Hu. go_bool.
  repeat match goal with H : _ = true |- _ => rewrite H; clear H | H : _ = false |- _ => rewrite H; clear H end.
  cbn. rewrite (proj2 (Z.ltb_lt 0 (rev + 1))) by lia. cbn. apply Z.leb_le. lia.
Qed.

Section expiry.
Context `{EC : EventCodec} `{AC : AccessCodec}.

(** The loop over the pending waits of a grant does not lose a race inside of its transaction. *)
Lemma close_each_runs (f : OrchestrationEventWaitHandle -> OrchestrationEventWaitHandle) lost grant ws s :
  (forall y, wr_WaitHandleID (f y) = wr_WaitHandleID y) -> NoDup (wr_WaitHandleID <$> a_waits s) -> NoDup (wr_WaitHandleID <$> ws) -> (forall w, w ∈ ws -> w ∈ a_waits s /\ wr_GrantID w = grant) ->
  exists s', close_each (fun w => update_waits (fun y => open_wait (wr_WaitHandleID w) (wr_Revision w) y && of_grant grant y) f) lost ws s = Ok (tt, s').
Proof.
  intros Hf. revert s. induction ws as [|w ws IH]; intros s Hnd Hws Hin; cbn [close_each]; [by eexists|].
  rewrite fmap_cons, NoDup_cons in Hws. destruct Hws as [Hw Hws]. destruct (String.eqb_spec (wr_Status w) "pending") as [Hp|Hp]; cbn [negb].
  2: { apply IH; [done..|]. intros w' Hw'. apply Hin. by right. }
  destruct (Hin w ltac:(by left)) as [Hw' Hg]. set (hit := fun y => open_wait (wr_WaitHandleID w) (wr_Revision w) y && of_grant grant y).
  assert (Hhit : hit w = true). { unfold hit, open_wait, has_wait_id, of_grant. by rewrite Hg, !String.eqb_refl, Z.eqb_refl, Hp. }
  assert (Hid : forall y, hit y = true -> wr_WaitHandleID y = wr_WaitHandleID w). { intros y Hy. unfold hit, open_wait, has_wait_id in Hy. by go_bool. }
  unfold mbind at 1, AM_bind at 1, aquery. unfold update_waits at 1, update_rows at 1. fold hit. rewrite (filter_key_one wr_WaitHandleID hit (a_waits s) w Hnd Hw' Hhit Hid). cbn.
  apply IH; [|done|].
  - cbn. change (map (fun r => if hit r then f r else r) (a_waits s)) with ((fun r => if hit r then f r else r) <$> a_waits s). rewrite (keys_kept wr_WaitHandleID); [done|]. intros y. destruct (hit y); auto.
  - intros w' Hw2. destruct (Hin w' ltac:(by right)) as [Hw3 Hg']. split; [|done]. cbn. apply list_elem_of_fmap. exists w'. split; [|done].
    destruct (hit w') eqn:E; [|done]. exfalso. apply Hw. rewrite <- (Hid w' E). apply list_elem_of_fmap. eauto.
Qed.

Definition expire_request (g : OrchestrationAccessGrant) : ExpireGrantRequest := mkExpireGrant (gr_GrantID g) (gr_Revision g) (mkTime (expiry g) true).

Lemma find_closed l g f : NoDup (gr_GrantID <$> l) -> g ∈ l -> (forall y, gr_GrantID (f y) = gr_GrantID y) ->
  List.find (has_grant_id (gr_GrantID g)) ((fun y => if String.eqb (gr_GrantID y) (gr_GrantID g) then f y else y) <$> l) = Some (f g).
Proof.
  intros Hnd Hg Hf. destruct (List.find _ _) as [y|] eqn:E.
  - apply find_grant_id in E as [Hy Ey]. apply list_elem_of_fmap in Hy as (z & -> & Hz). destruct (String.eqb_spec (gr_GrantID z) (gr_GrantID g)) as [E'|]; [|done].
    by rewrite (same_key gr_GrantID l z g Hnd Hz Hg E').
  - assert (Hin : f g ∈ ((fun y => if String.eqb (gr_GrantID y) (gr_GrantID g) then f y else y) <$> l)) by (apply list_elem_of_fmap; exists g; by rewrite String.eqb_refl).
    apply list_elem_of_In in Hin. pose proof (List.find_none _ _ E _ Hin) as En. unfold has_grant_id in En. by rewrite Hf, String.eqb_refl in En.
Qed.

Lemma filter_keys_sub {A} (p : A -> bool) (key : A -> string) l : (key <$> List.filter p l) `sublist_of` (key <$> l).
Proof. induction l as [|x l IH]; cbn; [constructor|]. destruct (p x); by constructor. Qed.

Lemma run_am {A B} (m : AM A) (f : A -> AM B) s a s1 : m s = Ok (a, s1) -> (m ≫= f) s = f a s1.
Proof. intros H. unfold mbind, AM_bind. by rewrite H. Qed.

Lemma find_row g l : NoDup (gr_GrantID <$> l) -> g ∈ l -> List.find (has_grant_id (gr_GrantID g)) l = Some g.
Proof.
  intros Hnd Hg. destruct (List.find _ _) as [y|] eqn:E.
  - apply find_grant_id in E as [Hy Ey]. by rewrite (same_key gr_GrantID l y g Hnd Hy Hg Ey).
  - apply list_elem_of_In in Hg. pose proof (List.find_none _ _ E _ Hg) as En. unfold has_grant_id in En. by rewrite String.eqb_refl in En.
Qed.

Lemma expire_request_valid g : GrantRequest_Validate (gr_Request g) = Ok tt -> gr_Revision g = 1%Z -> ExpireRequest_Validate (expire_request g) = Ok tt.
Proof.
  intros Hv Hrev. destruct (request_expires (gr_Request g)) as [Hgu Hid]; [by rewrite Hv|]. unfold ExpireRequest_Validate, expire_request. cbn [eg_GrantID eg_ExpectedRevision eg_ExpiredAt].
  change (gq_GrantID (gr_Request g)) with (gr_GrantID g) in Hid. rewrite Hid, Hrev. cbn. unfold given_utc, expiry in *. go_bool.
  match goal with H : IsZero _ = false |- _ => cbn; by rewrite H end.
Qed.

(** The transaction for one grant commits. *)
Lemma ExpireGrant_runs now g s : aok s -> g ∈ a_grants s -> gr_Status g = "active" -> healthy g -> (expiry g <= now)%Z ->
  exists a, ExpireGrant now (expire_request g) s = Ok (a, close_all (gr_GrantID g) "expired" (expiry g) (expiry g) (expiry g) s).
Proof.
  intros Hok Hg Ha Hh Hn. destruct (ak_grants _ Hok g Hg) as [Hv Hst]. assert (Hrev : gr_Revision g = 1%Z) by (destruct Hst as [[_ ?]|[[] _]]; congruence).
  destruct (ak_unique _ Hok) as [Ug Uw].
  destruct (grantFromRow g) as [ag|] eqn:Eg; [|by destruct Hh as [Hh _]; rewrite Eg in Hh]. destruct (grantFromRow_Ok _ _ Eg) as (Q1 & Q2 & Q3 & _).
  set (hit := fun y => open_grant (gr_GrantID g) (gr_Revision g) y && due_grant (expiry g) y). set (f := close_grant "expired" (expiry g)).
  assert (Hhit : hit g = true). { unfold hit, open_grant, has_grant_id, due_grant. by rewrite String.eqb_refl, Z.eqb_refl, Ha, Z.leb_refl. }
  assert (Hkey : forall y, hit y = true -> gr_GrantID y = gr_GrantID g). { intros y Hy. unfold hit, open_grant, has_grant_id in Hy. by go_bool. }
  set (l' := (fun y => if String.eqb (gr_GrantID y) (gr_GrantID g) then f y else y) <$> a_grants s).
  assert (Hup : update_rows hit f (a_grants s) = (1, l')).
  { unfold update_rows. f_equal; [by apply (filter_key_one gr_GrantID hit _ g)|]. apply (update_one gr_GrantID hit f (a_grants s) g); auto. }
  destruct (close_each_runs (close_wait "expired" (expiry g) (expiry g)) (Errorf [ErrAccessConflict] (Sprintf "expiry wait CAS lost" [])) (gr_GrantID g)
    (ListOrchestrationEventWaitHandlesByGrant (gr_GrantID g) (with_grants l' s)) (with_grants l' s)) as [s2 Hce]; [done|done| |intros w [Hw Hof]%list_elem_of_In%filter_In; split; [by apply list_elem_of_In|by apply String.eqb_eq]|].
  { eapply sublist_NoDup; [exact Uw|]. unfold ListOrchestrationEventWaitHandlesByGrant. cbn. apply filter_keys_sub. }
  pose proof Hce as Hs2. apply close_waits_Ok in Hs2; [|done].
  destruct (grantFromRow (f g)) as [ag'|] eqn:Eg'; [|by pose proof (healthy_closed g Hh Ha) as Hc; unfold f in Eg'; rewrite Eg' in Hc].
  exists ag'. unfold ExpireGrant. rewrite (run_am _ _ s tt s) by (unfold alift; by rewrite expire_request_valid).
  unfold expire_grant_tx, loadGrantForExpiry, GetOrchestrationAccessGrant, expire_request. cbn [eg_GrantID eg_ExpectedRevision eg_ExpiredAt].
  rewrite (run_am _ _ s ag s). 2: { rewrite (run_am _ _ s g s); [unfold alift; by rewrite Eg|]. unfold aquery, one. by rewrite find_row. }
  rewrite Q3, Ha. cbn [String.eqb Ascii.eqb Bool.eqb andb].
  rewrite (run_am _ _ s tt s). 2: { unfold alift, validateExpiryCandidate. rewrite Q3, Ha, Q2, Z.eqb_refl. unfold ag_ExpiresAt. rewrite Q1. cbn. unfold expiry in *. rewrite Z.leb_refl, (proj2 (Z.leb_le _ _) Hn). done. }
  rewrite (run_am _ _ s tt (with_grants l' s)).
  2: { unfold markGrantExpired. cbn [eg_GrantID eg_ExpectedRevision eg_ExpiredAt t_ms]. rewrite (run_am _ _ s 1 (with_grants l' s)); [done|]. unfold aquery, ExpireOrchestrationAccessGrant. fold hit f. by rewrite Hup. }
  rewrite (run_am _ _ _ tt s2).
  2: { unfold expirePendingGrantWaits. cbn [eg_GrantID eg_ExpectedRevision eg_ExpiredAt t_ms]. by rewrite (run_am _ _ _ (ListOrchestrationEventWaitHandlesByGrant (gr_GrantID g) (with_grants l' s)) (with_grants l' s)). }
  rewrite (run_am _ _ s2 (f g) s2). 2: { unfold aquery, one. rewrite Hs2. cbn [with_waits with_grants a_grants]. unfold l'. by rewrite find_closed. }
  unfold alift. rewrite Eg', Hs2. done.
Qed.

(** ** A pass *)

Lemma filter_nothing {A} (p : A -> bool) l : (forall x, x ∈ l -> p x = false) -> List.filter p l = [].
Proof. induction l as [|x l IH]; intros H; [done|]. cbn. rewrite (H x) by (by left). apply IH. intros y Hy. apply H. by right. Qed.

Lemma filter_every {A} (p : A -> bool) l : (forall x, x ∈ l -> p x = true) -> List.filter p l = l.
Proof. induction l as [|x l IH]; intros H; [done|]. cbn. rewrite (H x) by (by left). f_equal. apply IH. intros y Hy. apply H. by right. Qed.

Lemma Permutation_filter {A} (p : A -> bool) l l' : l ≡ₚ l' -> List.filter p l ≡ₚ List.filter p l'.
Proof. induction 1 as [|x l l' _ IH|x y l|l l' l'' _ IH1 _ IH2]; cbn; [done|by destruct (p x); [constructor|]|destruct (p x), (p y); try done; by constructor|by etrans]. Qed.

Definition ids_of (l : list OrchestrationAccessGrant) : list string := map gr_GrantID l.

Lemma str_in_ids id l : str_in id (ids_of l) = true <-> exists g, g ∈ l /\ gr_GrantID g = id.
Proof. rewrite str_in_elem. unfold ids_of. rewrite list_elem_of_fmap. split; intros (g & H1 & H2); eauto. Qed.

Lemma not_in_ids g l : NoDup (ids_of (g :: l)) -> str_in (gr_GrantID g) (ids_of l) = false.
Proof.
  unfold ids_of. cbn. rewrite NoDup_cons. intros [H _]. destruct (str_in _ _) eqn:E; [|done]. apply str_in_elem in E. done.
Qed.

Lemma find_in_app {A} (p : A -> bool) l1 l2 : List.find p (l1 ++ l2) = match List.find p l1 with Some x => Some x | None => List.find p l2 end.
Proof. induction l1 as [|x l1 IH]; [done|]. cbn. by destruct (p x). Qed.

Lemma expire_all_nil s : expire_all [] s = s.
Proof.
  destruct s as [gs ws ids es]. unfold expire_all. cbn. f_equal; [by rewrite list_fmap_id|]. rewrite <- (list_fmap_id ws) at 2. apply list_fmap_ext. intros i w _. by destruct (is_pending w).
Qed.

Lemma expire_all_app l1 l2 s : (forall g, g ∈ l1 -> str_in (gr_GrantID g) (ids_of l2) = false) -> expire_all l2 (expire_all l1 s) = expire_all (l1 ++ l2) s.
Proof.
  intros Hd. unfold expire_all. cbn [a_grants a_waits a_ids a_events]. f_equal; rewrite <- list_fmap_compose; apply list_fmap_ext; intros i y _; cbn.
  - fold (ids_of l1) (ids_of l2) (ids_of (l1 ++ l2)). assert (E : str_in (gr_GrantID y) (ids_of (l1 ++ l2)) = str_in (gr_GrantID y) (ids_of l1) || str_in (gr_GrantID y) (ids_of l2)).
    { unfold ids_of, str_in. rewrite map_app. apply existsb_app. }
    rewrite E. destruct (str_in (gr_GrantID y) (ids_of l1)) eqn:E1; [|done]. cbn [orb]. apply str_in_ids in E1 as (g & Hg & Eg). change (gr_GrantID (close_grant "expired" (expiry y) y)) with (gr_GrantID y).
    by rewrite <- Eg, (Hd g Hg).
  - destruct (is_pending y) eqn:Ep; [|by rewrite Ep]. rewrite find_in_app. destruct (List.find _ l1); [done|]. by rewrite Ep.
Qed.

Lemma expire_all_one g s : NoDup (gr_GrantID <$> a_grants s) -> g ∈ a_grants s -> close_all (gr_GrantID g) "expired" (expiry g) (expiry g) (expiry g) s = expire_all [g] s.
Proof.
  intros Hnd Hg. unfold close_all, expire_all. f_equal; apply list_fmap_ext; intros i y Hy%list_elem_of_lookup_2.
  - unfold str_in. cbn. rewrite orb_false_r. destruct (String.eqb_spec (gr_GrantID y) (gr_GrantID g)) as [E|E]; [|done]. by rewrite (same_key gr_GrantID _ y g Hnd Hy Hg E).
  - unfold of_grant. cbn. unfold has_grant_id. rewrite (String.eqb_sym (gr_GrantID g)). destruct (String.eqb _ _), (is_pending y); done.
Qed.

Lemma expire_all_keeps l s g : g ∈ a_grants s -> str_in (gr_GrantID g) (ids_of l) = false -> g ∈ a_grants (expire_all l s).
Proof. intros Hg E. apply list_elem_of_fmap. exists g. split; [|done]. fold (ids_of l). by rewrite E. Qed.

Definition candidate (g : OrchestrationAccessGrant) : GrantExpiryCandidate := mkCandidate (gr_GrantID g) (gr_Revision g) (expiry g).

(** A row that a pass can expire. *)
Definition expirable (now : Z) (s : adb) (g : OrchestrationAccessGrant) : Prop := g ∈ a_grants s /\ is_due now g = true /\ healthy g.

Lemma expire_loop_runs now rows s n : aok s -> NoDup (ids_of rows) -> (forall g, g ∈ rows -> expirable now s g) ->
  expire_loop now n (map candidate rows) s = ((n + Z.of_nat (length rows))%Z, None, expire_all rows s) /\ aok (expire_all rows s).
Proof.
  revert s n. induction rows as [|g rows IH]; intros s n Hok Hnd Hr; [rewrite expire_all_nil; cbn; by rewrite Z.add_0_r|].
  destruct (Hr g ltac:(by left)) as (Hg & Hdue & Hh). unfold is_due, due_grant in Hdue. go_bool. cbn [map expire_loop]. unfold expireDueGrantCandidate, withWriteTx.
  change (mkExpireGrant _ _ _) with (expire_request g). destruct (ExpireGrant_runs now g s Hok Hg ltac:(done) Hh ltac:(done)) as [a ->].
  rewrite expire_all_one; [|by apply Hok|done]. assert (Hok1 : aok (expire_all [g] s)).
  { rewrite <- expire_all_one; [|by apply Hok|done]. apply S_close_ok; [done..|by right]. }
  pose proof (not_in_ids _ _ Hnd) as Hni. unfold ids_of in Hnd. cbn in Hnd. apply NoDup_cons in Hnd as [Hgn Hnd].
  destruct (IH (expire_all [g] s) (n + 1)%Z Hok1 Hnd) as [-> H2].
  - intros y Hy. destruct (Hr y ltac:(by right)) as (Hy1 & Hy2 & Hy3). split; [|done]. apply expire_all_keeps; [done|]. unfold str_in. cbn. rewrite orb_false_r.
    apply String.eqb_neq. intros E. apply Hgn. rewrite <- E. apply list_elem_of_fmap. eauto.
  - rewrite expire_all_app in *; [|by intros y ->%list_elem_of_singleton..]. cbn [app] in *. split; [|done]. cbn [length]. do 2 f_equal. lia.
Qed.

Lemma due_elem now s g : g ∈ due now s <-> g ∈ a_grants s /\ is_due now g = true.
Proof. unfold due. rewrite list_elem_of_In, filter_In, <- list_elem_of_In. done. Qed.

Lemma due_ids now s : NoDup (gr_GrantID <$> a_grants s) -> NoDup (ids_of (due now s)).
Proof. intros H. eapply sublist_NoDup; [exact H|]. apply filter_keys_sub. Qed.

(** The batch of a pass, and what it leaves for later ones. *)
Definition sorted_due (now : Z) (s : adb) : list OrchestrationAccessGrant := merge_sort expiry_le (due now s).

Definition batch (now : Z) (limit : nat) (s : adb) : list OrchestrationAccessGrant := take limit (sorted_due now s).

Lemma sorted_due_perm now s : sorted_due now s ≡ₚ due now s.
Proof. apply merge_sort_Permutation. Qed.

Lemma batch_due now limit s g : g ∈ batch now limit s -> g ∈ due now s.
Proof. intros H. rewrite <- sorted_due_perm. unfold batch in H. rewrite <- (take_drop limit (sorted_due now s)), elem_of_app. by left. Qed.

Lemma batch_ids now limit s : NoDup (gr_GrantID <$> a_grants s) -> NoDup (ids_of (batch now limit s)) /\ NoDup (ids_of (drop limit (sorted_due now s)))
  /\ forall g h, g ∈ batch now limit s -> h ∈ drop limit (sorted_due now s) -> gr_GrantID g <> gr_GrantID h.
Proof.
  intros H. assert (Hp : NoDup (ids_of (sorted_due now s))). { unfold ids_of. rewrite sorted_due_perm. by apply due_ids. }
  rewrite <- (take_drop limit (sorted_due now s)) in Hp. unfold ids_of in Hp. rewrite map_app in Hp. apply NoDup_app in Hp as (H1 & H2 & H3). split_and!; [done..|].
  intros g h Hg Hh E. apply (H2 (gr_GrantID g)); [apply list_elem_of_fmap; eauto|]. rewrite E. apply list_elem_of_fmap. eauto.
Qed.

Lemma candidate_Ok now s g : aok s -> expirable now s g -> candidate_of now g = Ok (candidate g).
Proof.
  intros Hok (Hg & Hdue & [Hr _]). destruct (ak_grants _ Hok g Hg) as [Hv Hst]. unfold is_due, due_grant in Hdue. go_bool. assert (Hrev : gr_Revision g = 1%Z) by (destruct Hst as [[_ ?]|[[] _]]; congruence).
  destruct (request_expires (gr_Request g)) as [_ Hid]; [by rewrite Hv|]. unfold candidate_of, parseUTC. destruct g as [r rev st c u]. rewrite grantFromRow_is_ok in Hr. cbn [gr_Request gr_Revision] in *. go_bool.
  change (gr_GrantID (mkGrantRow r rev st c u)) with (gq_GrantID r).
  assert (String.eqb (gq_GrantID r) EmptyString = false) as ->. { unfold aw_validateText in Hid. destruct (String.eqb (gq_GrantID r) EmptyString); [done|done]. }
  fold (years (t_ms (gq_ExpiresAt r))). repeat match goal with H : years _ = true |- _ => rewrite H; clear H end. cbn. subst rev. cbn.
  match goal with H : (_ <= now)%Z |- _ => rewrite (proj2 (Z.ltb_ge _ _) H) end. done.
Qed.

Lemma candidates_Ok now s l : aok s -> (forall g, g ∈ l -> expirable now s g) -> map_result (candidate_of now) l = Ok (map candidate l).
Proof.
  intros Hok. induction l as [|g l IH]; intros H; [done|]. cbn [map_result map]. rewrite (candidate_Ok now s g Hok) by (apply H; by left). cbn.
  rewrite IH; [done|]. intros y Hy. apply H. by right.
Qed.

Section passes.
Context (cfg : GrantExpiryRunnerConfig) (now : Z) (Hcfg : validateGrantExpiryRunnerConfig cfg = Ok tt) (Hnow : IsZero now = false).

Local Abbreviation limit := (Z.to_nat (rc_BatchLimit cfg)).


(** A pass expires its batch. *)
Lemma RunOnce_runs s : aok s -> (forall g, g ∈ due now s -> healthy g) ->
  RunOnce cfg (mkTime now true) s = (Z.of_nat (length (batch now limit s)), None, expire_all (batch now limit s) s) /\ aok (expire_all (batch now limit s) s).
Proof using Hcfg Hnow.
  intros Hok Hh. assert (He : forall g, g ∈ batch now limit s -> expirable now s g).
  { intros g Hg%batch_due. pose proof (Hh g Hg). apply due_elem in Hg as [? ?]. done. }
  destruct (expire_loop_runs now (batch now limit s) s 0 Hok) as [H1 H2]; [by apply batch_ids, Hok|done|]. split; [|done].
  unfold RunOnce. rewrite Hcfg. unfold ExpireDueGrants, ListDueGrantCandidates, validateSecurityExpiryTime, given_utc. cbn [t_ms t_utc]. rewrite Hnow. cbn [negb andb guard_err].
  unfold validateGrantExpiryRunnerConfig in Hcfg. destruct (guard_err _ _); [|done]. cbn in Hcfg. cbn. rewrite Hcfg. cbn. rewrite Hnow. cbn.
  change (ListOrchestrationAccessGrantExpiryCandidates now limit s) with (batch now limit s). rewrite (candidates_Ok now s) by done. cbn. exact H1.
Qed.

Lemma due_after l s : due now (expire_all l s) = List.filter (fun g => negb (str_in (gr_GrantID g) (ids_of l))) (due now s).
Proof using.
  unfold due, expire_all. cbn [a_grants]. fold (ids_of l). induction (a_grants s) as [|g gs IH]; [done|]. cbn. destruct (str_in (gr_GrantID g) (ids_of l)) eqn:E; cbn.
  - rewrite IH. destruct (is_due now g); [|done]. cbn. by rewrite E.
  - rewrite IH. destruct (is_due now g); [|done]. cbn. by rewrite E.
Qed.

(** What a pass leaves. *)
Lemma due_left s : NoDup (gr_GrantID <$> a_grants s) -> due now (expire_all (batch now limit s) s) ≡ₚ drop limit (sorted_due now s).
Proof using.
  intros Hnd. destruct (batch_ids now limit s Hnd) as (_ & _ & Hd). rewrite due_after. set (p := fun g => negb (str_in (gr_GrantID g) (ids_of (batch now limit s)))).
  assert (Hp : List.filter p (due now s) ≡ₚ List.filter p (batch now limit s ++ drop limit (sorted_due now s))).
  { unfold batch. rewrite take_drop. symmetry. apply Permutation_filter, sorted_due_perm. }
  rewrite Hp, List.filter_app. rewrite (filter_nothing p (batch now limit s)), (filter_every p (drop limit (sorted_due now s))); [done|..]; intros g Hg; unfold p.
  - destruct (str_in _ _) eqn:E; [|done]. apply str_in_ids in E as (h & Hh & E). by destruct (Hd h g Hh Hg).
  - replace (str_in (gr_GrantID g) (ids_of (batch now limit s))) with true; [done|]. symmetry. apply str_in_ids. eauto.
Qed.

Lemma Run_runs k s : aok s -> (forall g, g ∈ due now s -> healthy g) -> length (due now s) <= k * limit ->
  exists l, l ≡ₚ due now s /\ Run cfg (replicate k (mkTime now true)) s = (None, expire_all l s) /\ due now (expire_all l s) = [].
Proof using Hcfg Hnow.
  revert s. induction k as [|k IH]; intros s Hok Hh Hl.
  - apply Nat.le_0_r, nil_length_inv in Hl. exists []. rewrite expire_all_nil, Hl. done.
  - destruct (RunOnce_runs s Hok Hh) as [HR Hok1]. cbn [replicate Run]. rewrite HR. set (s1 := expire_all (batch now limit s) s) in *.
    pose proof (due_left s (proj1 (ak_unique _ Hok))) as Hleft. fold s1 in Hleft.
    destruct (IH s1 Hok1) as (l & Hl1 & HRun & Hnil).
    + intros g Hg. rewrite Hleft in Hg. apply Hh. rewrite <- sorted_due_perm. rewrite <- (take_drop limit (sorted_due now s)), elem_of_app. by right.
    + rewrite Hleft, length_drop, sorted_due_perm. lia.
    + exists (batch now limit s ++ l). assert (E : expire_all l s1 = expire_all (batch now limit s ++ l) s).
      { apply expire_all_app. intros g Hg. destruct (str_in _ _) eqn:E; [|done]. apply str_in_ids in E as (h & Hh1 & E). rewrite Hl1, Hleft in Hh1.
        by destruct (proj2 (proj2 (batch_ids now limit s (proj1 (ak_unique _ Hok)))) g h Hg Hh1). }
      rewrite <- E. split_and!; [|done..]. rewrite Hl1, Hleft. unfold batch. by rewrite take_drop, sorted_due_perm.
Qed.
End passes.

(** C28: the expiry runner expires what is due, and nothing else.  At any point of any history,
    let every grant that is due at the time [now] be healthy, and let [k] passes be enough for
    their number.  Then the passes end without an error, and the database is the one in which
    exactly those grants are expired, each at its own time, with the waits under them that were
    pending; none is due any more. *)
Theorem expiry_drains (ops : list aop) (cfg : GrantExpiryRunnerConfig) (now : Z) (k : nat) (s := db_after ops) :
  validateGrantExpiryRunnerConfig cfg = Ok tt -> IsZero now = false -> (forall g, g ∈ due now s -> healthy g) -> length (due now s) <= k * Z.to_nat (rc_BatchLimit cfg) ->
  exists l, l ≡ₚ due now s /\ Run cfg (replicate k (mkTime now true)) s = (None, expire_all l s) /\ due now (expire_all l s) = [].
Proof. intros Hcfg Hnow Hh Hl. apply Run_runs; [done..|apply db_after_ok|done|done]. Qed.
End expiry.
