(* ===== verification/WaitAggregate.v ===== *)
(** * Waiting for several targets

    Models [orchestration/waitaggregate]: one goroutine per target waits on the access store
    and publishes one call on a channel with room for all of them; a collector takes the calls
    until its condition is reached, all have come, the time is up or its caller has gone.

    The answer of a waiter is a result; a waiter that panics or exits is a step of its own.
    The text of an outcome is its constructor.  What happens at the same time is a
    step relation: the goroutines publish in any order, the [select] of the collector takes any
    of its branches that is ready. *)

From S2P Require Import Prelude GoStrings WakeupLease GoTime RetryPolicy EventContract IdentityStore IdentityOps EventStore EventLog AccessContract AccessStore AccessGrants AccessWaits AccessRules AccessSteps AccessInvariant AccessSafety.

(** ** The contract *)

Definition ConditionAny : string := "any".
Definition ConditionAll : string := "all".
Definition ConditionQuorum : string := "quorum".
Definition ConditionFirstSuccess : string := "first_success".

Record Predicate := mkPredicate { pd_RequiredEventType : string; pd_RequireNonEmptyMetadata : bool }.

Record Target := mkTarget { tg_Key : string; tg_Poll : PollRequest }.

Record AggregateRequest := mkAggregate {
  ar_Targets : list Target; ar_Condition : string; ar_QuorumCount : Z; ar_Predicate : Predicate; ar_DeadlineAt : Time; ar_ReturnOnIndeterminate : bool;
}.

Definition StatusSatisfied : string := "satisfied".
Definition StatusTimeout : string := "timeout".
Definition StatusAggregateFailure : string := "aggregate_failure".
Definition StatusIndeterminate : string := "indeterminate".

Inductive ItemOutcome := OutcomeSuccess | OutcomeDefinitiveFailure | OutcomePending | OutcomeIndeterminate.

#[export] Instance ItemOutcome_eq_dec : EqDecision ItemOutcome.
Proof. solve_decision. Defined.

(** What the waiter answered; nothing before it has. *)
Record Item := mkItem { im_TargetKey : string; im_Answer : option (result error WaitResult); im_Outcome : ItemOutcome }.

Record AggregateResult := mkAggregateResult {
  as_Condition : string; as_Status : string; as_Items : list Item; as_WinnerKey : string; as_SuccessCount : nat; as_IsError : bool;
}.

Definition ErrInvalidRequest : string := "ErrInvalidRequest".
Definition ErrInvalidClock : string := "ErrInvalidClock".
Definition ErrWaiterFailure : string := "ErrWaiterFailure".

Definition invalid_aggregate (message : string) : error := Errorf [ErrInvalidRequest] (Sprintf "%w: %s" [message]).

(** ** Requests *)

Definition MaxTargets : nat := 32.
Definition MinTimeoutMS : Z := 10.
Definition MaxTimeoutMS : Z := 60000.
Definition maxTargetKeySize : nat := 128.

Definition validateCondition (r : AggregateRequest) : result error unit :=
  if str_in (ar_Condition r) [ConditionAny; ConditionAll; ConditionFirstSuccess]
  then guard_err (ar_QuorumCount r =? 0)%Z (invalid_aggregate "quorum_count is only valid for quorum")
  else if String.eqb (ar_Condition r) ConditionQuorum
  then guard_err ((1 <=? ar_QuorumCount r)%Z && (ar_QuorumCount r <=? Z.of_nat (length (ar_Targets r)))%Z) (invalid_aggregate "quorum_count must be within target count")
  else Err (invalid_aggregate "condition must be any, all, quorum, or first_success").

Definition validateDeadline (deadline : Time) (now : Z) : result error unit :=
  _ ← guard_err (negb (IsZero (t_ms deadline))) (invalid_aggregate "deadline_at is required");
  _ ← guard_err (t_utc deadline) (invalid_aggregate "deadline_at must be UTC");
  _ ← guard_err (now <? t_ms deadline)%Z (invalid_aggregate "deadline_at must be in the future");
  _ ← guard_err (MinTimeoutMS <=? t_ms deadline - now)%Z (invalid_aggregate "deadline_at is below the 10 millisecond minimum window");
  guard_err (t_ms deadline - now <=? MaxTimeoutMS)%Z (invalid_aggregate "deadline_at exceeds 60 second bound").

Definition validatePredicate (r : AggregateRequest) : result error unit :=
  let p := ar_Predicate r in
  let none := String.eqb (pd_RequiredEventType p) EmptyString in
  if String.eqb (ar_Condition r) ConditionFirstSuccess && none then Err (invalid_aggregate "first_success requires required_event_type predicate")
  else if none && negb (pd_RequireNonEmptyMetadata p) then Ok tt
  else if none || negb (String.eqb (TrimSpace (pd_RequiredEventType p)) (pd_RequiredEventType p)) || negb (ValidString (pd_RequiredEventType p))
  then Err (invalid_aggregate "predicate required_event_type is required canonical text")
  else guard_err (String.length (pd_RequiredEventType p) <=? 128)%nat (invalid_aggregate "predicate required_event_type is too long").

Definition validateTargetKey (key : string) (index : nat) (seen : list string) : result error unit :=
  _ ← guard_err (negb (String.eqb key EmptyString || negb (String.eqb (TrimSpace key) key) || (maxTargetKeySize <? String.length key)%nat || negb (ValidString key) || Contains key nul))
        (Errorf [ErrInvalidRequest] (Sprintf "%w: target[%d] key is invalid" [pretty index]));
  guard_err (negb (str_in key seen)) (invalid_aggregate "target keys must be unique").

Definition validateTargetPoll (target : Target) (index : nat) (caller scope : string) : result error unit :=
  _ ← map_err (fun e => Errorf [ErrInvalidRequest] (Sprintf "%w: target[%d] poll: %v" (pretty index :: msg_format (err_msg e) :: msg_args (err_msg e)))) (Poll_Validate (tg_Poll target));
  guard_err (String.eqb (po_CallerPrincipalRef (tg_Poll target)) caller && String.eqb (po_ScopeRef (tg_Poll target)) scope)
    (invalid_aggregate "all targets must use the same caller and scope").

Fixpoint targets_loop (index : nat) (seen : list string) (caller scope : string) (targets : list Target) : result error unit :=
  match targets with
  | [] => Ok tt
  | target :: targets =>
      _ ← validateTargetKey (tg_Key target) index seen;
      _ ← validateTargetPoll target index caller scope;
      targets_loop (S index) (tg_Key target :: seen) caller scope targets
  end.

(** The first target is there: [validate] has looked at the number of them. *)
Definition validateTargets (targets : list Target) : result error unit :=
  match targets with
  | [] => Ok tt
  | first :: _ => targets_loop 0 [] (po_CallerPrincipalRef (tg_Poll first)) (po_ScopeRef (tg_Poll first)) targets
  end.

Definition ValidateAt_aggregate (r : AggregateRequest) (now : Z) : result error unit :=
  _ ← guard_err ((1 <=? length (ar_Targets r))%nat && (length (ar_Targets r) <=? MaxTargets)%nat) (invalid_aggregate "targets must contain 1..32 items");
  _ ← validateCondition r;
  _ ← validateDeadline (ar_DeadlineAt r) now;
  _ ← validatePredicate r;
  validateTargets (ar_Targets r).

Definition validateClockNow (now : Time) : result error Z := _ ← guard_err (given_utc now) (Errorf [ErrInvalidClock] (Sprintf ErrInvalidClock [])); Ok (t_ms now).

(** ** Outcomes *)

Definition isDefinitiveAccessError (e : error) : bool :=
  errors_Is e ErrWaitNotFound || errors_Is e ErrWaitTerminal || errors_Is e ErrAccessDenied || errors_Is e ErrAccessExpired || errors_Is e ErrAccessRevoked || errors_Is e ErrAccessConflict.

Definition classifyError (e : error) : ItemOutcome :=
  if errors_Is e Canceled || errors_Is e DeadlineExceeded then OutcomePending
  else if errors_Is e ErrWaitGap || errors_Is e ErrWaitQuarantined || errors_Is e ErrWaitScanLimit then OutcomeIndeterminate
  else if isDefinitiveAccessError e then OutcomeDefinitiveFailure
  else OutcomeIndeterminate.

Definition eventHasMetadata (event : option AgentEvent) : bool :=
  match event with
  | None => false
  | Some e =>
      let v := fr_Envelope (ae_Frame e) in
      negb (String.eqb (ev_ContentRole v) EmptyString) && negb (String.eqb (ev_ContentRole v) "none") && negb (String.eqb (ev_ContentRef v) EmptyString)
      && (0 <? ev_ContentSize v)%Z && negb (String.eqb (ev_MediaType v) EmptyString)
  end.

Definition predicateMatches (predicate : Predicate) (r : WaitResult) : bool :=
  if negb (String.eqb (wt_Status r) "satisfied") then false
  else if negb (String.eqb (pd_RequiredEventType predicate) EmptyString)
          && match wt_Event r with None => true | Some e => negb (String.eqb (event_type e) (pd_RequiredEventType predicate)) end then false
  else if pd_RequireNonEmptyMetadata predicate && negb (eventHasMetadata (wt_Event r)) then false
  else true.

Definition classifyResult (predicate : Predicate) (r : WaitResult) : ItemOutcome :=
  if String.eqb (wt_Status r) "pending" then OutcomePending
  else if String.eqb (wt_Status r) "satisfied" then
    if wt_IsError r then OutcomeDefinitiveFailure else if predicateMatches predicate r then OutcomeSuccess else OutcomeDefinitiveFailure
  else if str_in (wt_Status r) ["timed_out"; "cancelled"; "revoked"; "expired"] then OutcomeDefinitiveFailure
  else OutcomeIndeterminate.

Definition classify (predicate : Predicate) (answer : result error WaitResult) : ItemOutcome :=
  match answer with Err e => classifyError e | Ok r => classifyResult predicate r end.

Definition pendingItems (targets : list Target) : list Item := map (fun t => mkItem (tg_Key t) None OutcomePending) targets.

Definition is_outcome (want : ItemOutcome) (item : Item) : bool := bool_decide (im_Outcome item = want).

Definition success_count (items : list Item) : nat := length (List.filter (is_outcome OutcomeSuccess) items).

Definition conditionReachedByItems (r : AggregateRequest) (items : list Item) : bool :=
  let n := success_count items in
  if str_in (ar_Condition r) [ConditionAny; ConditionFirstSuccess] then (0 <? n)%nat
  else if String.eqb (ar_Condition r) ConditionAll then (0 <? length items)%nat && (n =? length items)%nat
  else if String.eqb (ar_Condition r) ConditionQuorum then (0 <? ar_QuorumCount r)%Z && (ar_QuorumCount r <=? Z.of_nat n)%Z
  else false.

Definition hasOutcome (items : list Item) (want : ItemOutcome) : bool := existsb (is_outcome want) items.

Definition allDefinitiveFailure (items : list Item) : bool := negb (length items =? 0)%nat && forallb (is_outcome OutcomeDefinitiveFailure) items.

(** The loop of [finalize] sets the key while it is empty. *)
Fixpoint winner (key : string) (items : list Item) : string :=
  match items with
  | [] => key
  | item :: items => winner (if is_outcome OutcomeSuccess item && String.eqb key EmptyString then im_TargetKey item else key) items
  end.

Definition finalize (r : AggregateRequest) (items : list Item) (reached indeterminateReturn : bool) : AggregateResult :=
  let result status isError := mkAggregateResult (ar_Condition r) status items (winner EmptyString items) (success_count items) isError in
  if reached then result StatusSatisfied false
  else if indeterminateReturn || hasOutcome items OutcomeIndeterminate then result StatusIndeterminate false
  else if allDefinitiveFailure items then result StatusAggregateFailure true
  else result StatusTimeout false.

(** ** The collector *)

Record waitCall := mkCall { cl_index : nat; cl_answer : result error WaitResult }.

Record collectionState := mkCollection { cs_items : list Item; cs_remaining : nat; cs_indeterminateReturn : bool; cs_conditionReached : bool }.

(** [request.Targets[call.index].Key]: an index is one of a target. *)
Definition itemFromCall (r : AggregateRequest) (call : waitCall) : Item :=
  mkItem (default EmptyString (tg_Key <$> ar_Targets r !! cl_index call)) (Some (cl_answer call)) (classify (ar_Predicate r) (cl_answer call)).

Definition put_item (r : AggregateRequest) (call : waitCall) (items : list Item) : list Item := <[cl_index call := itemFromCall r call]> items.

Definition failed (item : Item) : bool := match im_Answer item with Some (Err e) => errors_Is e ErrWaiterFailure | _ => false end.

(** Also whether the collector still looks at the end of its time, and at the timer of the drain. *)
Definition updateCollectionState (state : collectionState) (r : AggregateRequest) (watching : bool) (item : Item) : collectionState * bool * bool :=
  if is_outcome OutcomeIndeterminate item && (ar_ReturnOnIndeterminate r || failed item)
  then (mkCollection (cs_items state) (cs_remaining state) true (cs_conditionReached state), false, true)
  else if is_outcome OutcomeSuccess item && conditionReachedByItems r (cs_items state)
  then (mkCollection (cs_items state) (cs_remaining state) (cs_indeterminateReturn state) true, false, true)
  else (state, watching, false).

(** The body of the loop of [collectCalls] for one call. *)
Definition collect_call (r : AggregateRequest) (call : waitCall) (state : collectionState) (watching : bool) : collectionState * bool * bool :=
  let items := put_item r call (cs_items state) in
  updateCollectionState (mkCollection items (Nat.pred (cs_remaining state)) (cs_indeterminateReturn state) (cs_conditionReached state)) r watching (itemFromCall r call).

Definition aggregate_result (r : AggregateRequest) (state : collectionState) : AggregateResult :=
  finalize r (cs_items state) (cs_conditionReached state || conditionReachedByItems r (cs_items state)) (cs_indeterminateReturn state).

(** ** Goroutines *)

(** [Emptying] is [drainAvailableCalls]; a result comes with the error of the parent context, if any. *)
Inductive phase := Collecting | Emptying | Finished (res : AggregateResult) (e : option error).

(** [y_taken] are the calls that were received, kept for the proofs. *)
Record sys := mkSys {
  y_state : collectionState; y_watching : bool; y_draining : bool; y_chan : list waitCall; y_running : list nat; y_taken : list waitCall;
  y_late : bool; y_parent : option error; y_phase : phase;
}.

Definition startWaitCalls (r : AggregateRequest) : sys :=
  mkSys (mkCollection (pendingItems (ar_Targets r)) (length (ar_Targets r)) false false) true false [] (seq 0 (length (ar_Targets r))) [] false None Collecting.

(** What is started for a request that is valid. *)
Definition waitAt (r : AggregateRequest) (now : Time) : result error sys :=
  now ← validateClockNow now; _ ← ValidateAt_aggregate r now; Ok (startWaitCalls r).

Definition with_phase (p : phase) (y : sys) : sys := mkSys (y_state y) (y_watching y) (y_draining y) (y_chan y) (y_running y) (y_taken y) (y_late y) (y_parent y) p.

(** [waitOne]: one call of each goroutine, also when its waiter does not return. *)
Definition publish (i : nat) (answer : result error WaitResult) (y : sys) : sys :=
  mkSys (y_state y) (y_watching y) (y_draining y) (y_chan y ++ [mkCall i answer]) (List.filter (fun j => negb (j =? i)%nat) (y_running y)) (y_taken y) (y_late y) (y_parent y) (y_phase y).

Definition waiter_failure : error := Errorf [ErrWaiterFailure] (Sprintf ErrWaiterFailure []).

Definition take_call (r : AggregateRequest) (call : waitCall) (rest : list waitCall) (y : sys) : sys :=
  let '(state, watching, draining) := collect_call r call (y_state y) (y_watching y) in
  mkSys state watching draining rest (y_running y) (y_taken y ++ [call]) (y_late y) (y_parent y) Collecting.

Definition empty_call (r : AggregateRequest) (call : waitCall) (rest : list waitCall) (y : sys) : sys :=
  let st := y_state y in
  mkSys (mkCollection (put_item r call (cs_items st)) (cs_remaining st) (cs_indeterminateReturn st) (cs_conditionReached st)) (y_watching y) (y_draining y) rest
    (y_running y) (y_taken y ++ [call]) (y_late y) (y_parent y) Emptying.

(** [answers]: what the waiter of a target may answer. *)
Inductive ystep (answers : nat -> result error WaitResult -> Prop) (r : AggregateRequest) (y : sys) : sys -> Prop :=
| Y_publish i a : i ∈ y_running y -> answers i a -> ystep answers r y (publish i a y)
| Y_exit i : i ∈ y_running y -> ystep answers r y (publish i (Err waiter_failure) y)
| Y_deadline : ystep answers r y (mkSys (y_state y) (y_watching y) (y_draining y) (y_chan y) (y_running y) (y_taken y) true (y_parent y) (y_phase y))
| Y_parent_done e : ystep answers r y (mkSys (y_state y) (y_watching y) (y_draining y) (y_chan y) (y_running y) (y_taken y) true (Some e) (y_phase y))
| Y_take call rest : y_phase y = Collecting -> 0 < cs_remaining (y_state y) -> y_chan y = call :: rest -> ystep answers r y (take_call r call rest y)
| Y_stop_parent e : y_phase y = Collecting -> 0 < cs_remaining (y_state y) -> y_parent y = Some e ->
    ystep answers r y (with_phase (Finished (mkAggregateResult (ar_Condition r) EmptyString (cs_items (y_state y)) EmptyString 0 false) (Some e)) y)
| Y_stop_work : y_phase y = Collecting -> 0 < cs_remaining (y_state y) -> y_watching y = true -> y_late y = true -> ystep answers r y (with_phase Emptying y)
| Y_stop_drain : y_phase y = Collecting -> 0 < cs_remaining (y_state y) -> y_draining y = true -> ystep answers r y (with_phase (Finished (aggregate_result r (y_state y)) None) y)
| Y_all : y_phase y = Collecting -> cs_remaining (y_state y) = 0 -> ystep answers r y (with_phase (Finished (aggregate_result r (y_state y)) None) y)
| Y_empty call rest : y_phase y = Emptying -> y_chan y = call :: rest -> ystep answers r y (empty_call r call rest y)
| Y_emptied : y_phase y = Emptying -> y_chan y = [] -> ystep answers r y (with_phase (Finished (aggregate_result r (y_state y)) None) y).

(** ** The invariant *)

Definition rebuild (r : AggregateRequest) (calls : list waitCall) : list Item := foldl (fun items call => put_item r call items) (pendingItems (ar_Targets r)) calls.

Record yok (answers : nat -> result error WaitResult -> Prop) (r : AggregateRequest) (y : sys) : Prop := {
  yk_items : cs_items (y_state y) = rebuild r (y_taken y);
  yk_index : y_running y ++ map cl_index (y_taken y ++ y_chan y) ≡ₚ seq 0 (length (ar_Targets r));
  yk_calls call : call ∈ y_taken y ++ y_chan y -> answers (cl_index call) (cl_answer call) \/ cl_answer call = Err waiter_failure;
  yk_remaining : y_phase y = Collecting -> cs_remaining (y_state y) + length (y_taken y) = length (ar_Targets r);
  yk_reached : cs_conditionReached (y_state y) = true -> conditionReachedByItems r (cs_items (y_state y)) = true;
  yk_indeterminate : cs_indeterminateReturn (y_state y) = true -> hasOutcome (cs_items (y_state y)) OutcomeIndeterminate = true;
  yk_finished res : y_phase y = Finished res None -> res = aggregate_result r (y_state y);
}.

Lemma rebuild_snoc r calls call : rebuild r (calls ++ [call]) = put_item r call (rebuild r calls).
Proof. unfold rebuild. by rewrite foldl_app. Qed.

Lemma rebuild_length r calls : length (rebuild r calls) = length (ar_Targets r).
Proof.
  induction calls as [|call calls IH] using rev_ind; [unfold rebuild, pendingItems; cbn; by rewrite length_map|]. rewrite rebuild_snoc. unfold put_item. by rewrite length_insert.
Qed.

(** The item of a target. *)
Lemma rebuild_fresh r calls i : (i ∉ (cl_index <$> calls)) -> rebuild r calls !! i = pendingItems (ar_Targets r) !! i.
Proof.
  induction calls as [|call calls IH] using rev_ind; [done|]. rewrite fmap_app, not_elem_of_app. cbn. intros [H1 H2]. rewrite rebuild_snoc. unfold put_item.
  rewrite list_lookup_insert_ne; [by apply IH|]. intros E. apply H2. rewrite E. by left.
Qed.

Lemma rebuild_taken r calls call : NoDup (cl_index <$> calls) -> call ∈ calls -> cl_index call < length (ar_Targets r) -> rebuild r calls !! cl_index call = Some (itemFromCall r call).
Proof.
  induction calls as [|c calls IH] using rev_ind; intros Hnd Hin Hlt; [by apply not_elem_of_nil in Hin|]. rewrite rebuild_snoc. unfold put_item. rewrite fmap_app in Hnd. cbn in Hnd.
  apply NoDup_app in Hnd as (H1 & H2 & _). apply elem_of_app in Hin as [Hin| ->%list_elem_of_singleton].
  - rewrite list_lookup_insert_ne; [by apply IH|]. intros E. apply (H2 (cl_index call)); [apply list_elem_of_fmap; eauto|rewrite E; by left].
  - rewrite list_lookup_insert_eq; [done|]. by rewrite rebuild_length.
Qed.

(** Putting an item in the place of one that is pending. *)
Lemma insert_count w items i old x : items !! i = Some old -> is_outcome w old = false ->
  length (List.filter (is_outcome w) (<[i := x]> items)) = length (List.filter (is_outcome w) items) + (if is_outcome w x then 1 else 0).
Proof.
  revert i. induction items as [|y items IH]; intros [|i] H Ho; [done|done| |].
  - injection H as ->. cbn. rewrite Ho. destruct (is_outcome w x); cbn; lia.
  - change (<[S i := x]> (y :: items)) with (y :: <[i := x]> items). cbn [List.filter]. specialize (IH i H Ho). destruct (is_outcome w y); cbn [length]; lia.
Qed.

Lemma insert_has w items i old x : items !! i = Some old -> is_outcome w old = false -> hasOutcome items w = true -> hasOutcome (<[i := x]> items) w = true.
Proof.
  revert i. induction items as [|y items IH]; intros [|i] H Ho Hh; [done|done| |].
  - injection H as ->. unfold hasOutcome in *. cbn in *. rewrite Ho in Hh. apply orb_true_iff. by right.
  - change (<[S i := x]> (y :: items)) with (y :: <[i := x]> items). unfold hasOutcome in *. cbn [existsb] in *. apply orb_true_iff in Hh as [Hh|Hh]; apply orb_true_iff; [by left|right]. by apply IH.
Qed.

Lemma success_count_le items : success_count items <= length items.
Proof. unfold success_count. induction items as [|x items IH]; cbn; [lia|]. destruct (is_outcome _ x); cbn; lia. Qed.

Lemma condition_insert r items i old x : items !! i = Some old -> is_outcome OutcomeSuccess old = false -> conditionReachedByItems r items = true -> conditionReachedByItems r (<[i := x]> items) = true.
Proof.
  intros Hi Ho. unfold conditionReachedByItems. rewrite length_insert. pose proof (success_count_le (<[i := x]> items)) as Hle. rewrite length_insert in Hle.
  assert (Hc : success_count items <= success_count (<[i := x]> items)) by (unfold success_count; rewrite (insert_count _ _ _ _ _ Hi Ho); lia).
  destruct (str_in _ _); [intros H; go_bool; apply Nat.ltb_lt; lia|]. destruct (String.eqb _ ConditionAll).
  - intros H. go_bool. apply andb_true_iff. split; [apply Nat.ltb_lt|apply Nat.eqb_eq]; lia.
  - destruct (String.eqb _ _); [|done]. intros H. go_bool. apply andb_true_iff. split; [apply Z.ltb_lt|apply Z.leb_le]; lia.
Qed.

Lemma remove_one (l : list nat) i : NoDup l -> i ∈ l -> l ≡ₚ i :: List.filter (fun j => negb (j =? i)%nat) l.
Proof.
  induction l as [|j l IH]; intros Hnd Hi; [by apply not_elem_of_nil in Hi|]. apply NoDup_cons in Hnd as [Hj Hnd]. cbn. destruct (Nat.eqb_spec j i) as [->|Hne]; cbn.
  - f_equiv. clear IH Hi Hnd. induction l as [|k l IH]; [done|]. apply not_elem_of_cons in Hj as [H1 H2]. cbn. destruct (Nat.eqb_spec k i); [done|]. cbn. f_equiv. by apply IH.
  - apply elem_of_cons in Hi as [->|Hi]; [done|]. rewrite Permutation_swap. f_equiv. by apply IH.
Qed.

Section invariant.
Context (answers : nat -> result error WaitResult -> Prop) (r : AggregateRequest).

(** A call that is received is of a target whose item is pending. *)
Lemma chan_head y call rest : yok answers r y -> y_chan y = call :: rest ->
  (cl_index call ∉ (cl_index <$> y_taken y)) /\ exists t, ar_Targets r !! cl_index call = Some t /\ cs_items (y_state y) !! cl_index call = Some (mkItem (tg_Key t) None OutcomePending).
Proof.
  intros Hok Hc. pose proof (yk_index _ _ _ Hok) as Hp. rewrite Hc in Hp. assert (Hnd : NoDup (y_running y ++ map cl_index (y_taken y ++ call :: rest))) by (rewrite Hp; apply NoDup_seq).
  assert (Hin : cl_index call ∈ seq 0 (length (ar_Targets r))). { rewrite <- Hp, map_app, !elem_of_app. right. right. by left. }
  apply elem_of_seq in Hin as [_ Hlt]. apply NoDup_app in Hnd as (_ & _ & Hnd). rewrite map_app in Hnd. cbn in Hnd. apply NoDup_app in Hnd as (_ & Hd & _).
  assert (Hni : cl_index call ∉ (cl_index <$> y_taken y)). { intros Hin. apply (Hd (cl_index call) Hin). by left. }
  split; [done|]. destruct (lookup_lt_is_Some_2 (ar_Targets r) (cl_index call) Hlt) as [t Ht]. exists t. split; [done|].
  rewrite (yk_items _ _ _ Hok), rebuild_fresh by done. unfold pendingItems. change (map ?f ?l) with (f <$> l). by rewrite list_lookup_fmap, Ht.
Qed.

(** Receiving the call keeps what was known of the items. *)
Lemma put_keeps y call rest : yok answers r y -> y_chan y = call :: rest -> let items := put_item r call (cs_items (y_state y)) in
  items = rebuild r (y_taken y ++ [call])
  /\ (cs_conditionReached (y_state y) = true -> conditionReachedByItems r items = true)
  /\ (cs_indeterminateReturn (y_state y) = true -> hasOutcome items OutcomeIndeterminate = true)
  /\ items !! cl_index call = Some (itemFromCall r call).
Proof.
  intros Hok Hc. destruct (chan_head _ _ _ Hok Hc) as (_ & t & Ht & Hi). split_and!.
  - by rewrite rebuild_snoc, (yk_items _ _ _ Hok).
  - intros H. eapply condition_insert; [exact Hi|done|]. by apply Hok.
  - intros H. eapply insert_has; [exact Hi|done|]. by apply Hok.
  - unfold put_item. apply list_lookup_insert_eq. by eapply lookup_lt_Some.
Qed.

Lemma has_item items i x w : items !! i = Some x -> is_outcome w x = true -> hasOutcome items w = true.
Proof. intros Hi Hx. apply existsb_exists. exists x. split; [|done]. apply list_elem_of_In. by eapply list_elem_of_lookup_2. Qed.

Lemma publish_ok y i a : yok answers r y -> i ∈ y_running y -> answers i a \/ a = Err waiter_failure -> yok answers r (publish i a y).
Proof.
  intros [K1 K2 K3 K4 K5 K6 K7] Hi Ha. assert (Hnd : NoDup (y_running y ++ map cl_index (y_taken y ++ y_chan y))) by (rewrite K2; apply NoDup_seq).
  apply NoDup_app in Hnd as (Hnd & _).
  split; cbn; try done.
  - rewrite <- K2. rewrite (remove_one (y_running y) i Hnd Hi) at 2. rewrite app_assoc, (map_app _ _ [_]). cbn. rewrite app_assoc. by rewrite <- Permutation_cons_append.
  - intros call. rewrite app_assoc. intros [H| ->%list_elem_of_singleton]%elem_of_app; [by apply K3|done].
Qed.

Lemma take_ok y call rest : yok answers r y -> y_phase y = Collecting -> 0 < cs_remaining (y_state y) -> y_chan y = call :: rest -> yok answers r (take_call r call rest y).
Proof.
  intros Hok Hp Hr Hc. destruct (put_keeps _ _ _ Hok Hc) as (P1 & P2 & P3 & P4). destruct Hok as [K1 K2 K3 K4 K5 K6 K7]. rewrite Hc in *. specialize (K4 Hp).
  unfold take_call, collect_call, updateCollectionState. cbn [cs_items cs_remaining cs_indeterminateReturn cs_conditionReached].
  assert (Hlen : Nat.pred (cs_remaining (y_state y)) + length (y_taken y ++ [call]) = length (ar_Targets r)) by (rewrite length_app; cbn; lia).
  assert (Hix : y_running y ++ map cl_index ((y_taken y ++ [call]) ++ rest) ≡ₚ seq 0 (length (ar_Targets r))) by (by rewrite <- app_assoc).
  assert (Hcl : forall c, c ∈ (y_taken y ++ [call]) ++ rest -> answers (cl_index c) (cl_answer c) \/ cl_answer c = Err waiter_failure) by (intros c; rewrite <- app_assoc; apply K3).
  destruct (is_outcome OutcomeIndeterminate (itemFromCall r call) && _) eqn:E1; [|destruct (is_outcome OutcomeSuccess (itemFromCall r call) && _) eqn:E2].
  - apply andb_true_iff in E1 as [E1 _]. split; cbn; try done. intros _. by eapply has_item.
  - apply andb_true_iff in E2 as [_ E2]. by split; cbn.
  - by split; cbn.
Qed.

Lemma empty_call_ok y call rest : yok answers r y -> y_chan y = call :: rest -> yok answers r (empty_call r call rest y).
Proof.
  intros Hok Hc. destruct (put_keeps _ _ _ Hok Hc) as (P1 & P2 & P3 & P4). destruct Hok as [K1 K2 K3 K4 K5 K6 K7]. rewrite Hc in *.
  split; cbn; try done; [by rewrite <- app_assoc|intros c; rewrite <- app_assoc; apply K3].
Qed.

Lemma ystep_ok y y' : ystep answers r y y' -> yok answers r y -> yok answers r y'.
Proof.
  intros [i a Hi Ha|i Hi| |e|call rest Hp Hr Hc|e Hp Hr He|Hp Hr Hw Hl|Hp Hr Hd|Hp Hr|call rest Hp Hc|Hp Hc] Hok.
  - apply publish_ok; auto.
  - apply publish_ok; auto.
  - destruct Hok. by split.
  - destruct Hok. by split.
  - by apply take_ok.
  - destruct Hok. by split.
  - destruct Hok. by split.
  - destruct Hok. split; cbn; try done. by intros res [= <-].
  - destruct Hok. split; cbn; try done. by intros res [= <-].
  - by apply empty_call_ok.
  - destruct Hok. split; cbn; try done. by intros res [= <-].
Qed.

Lemma start_yok : yok answers r (startWaitCalls r).
Proof. split; cbn; try done. - by rewrite app_nil_r. - intros call H. by apply not_elem_of_nil in H. Qed.

Lemma reachable_yok y : rtc (ystep answers r) (startWaitCalls r) y -> yok answers r y.
Proof.
  intros H. remember (startWaitCalls r) as y0 eqn:E. assert (Hok : yok answers r y0) by (rewrite E; apply start_yok). clear E.
  induction H as [y|y0 y1 y2 Hs _ IH]; [done|]. apply IH. by eapply ystep_ok.
Qed.
End invariant.

(** ** What an aggregate says *)

Definition verdict (r : AggregateRequest) (items : list Item) : string :=
  if conditionReachedByItems r items then StatusSatisfied
  else if hasOutcome items OutcomeIndeterminate then StatusIndeterminate
  else if allDefinitiveFailure items then StatusAggregateFailure else StatusTimeout.

(** The item of a target: nothing yet, or what its own waiter answered. *)
Definition item_of (answers : nat -> result error WaitResult -> Prop) (r : AggregateRequest) (i : nat) (t : Target) (item : Item) : Prop :=
  im_TargetKey item = tg_Key t
  /\ ((im_Answer item = None /\ im_Outcome item = OutcomePending)
      \/ exists a, im_Answer item = Some a /\ im_Outcome item = classify (ar_Predicate r) a /\ (answers i a \/ a = Err waiter_failure)).

Lemma items_exact answers r y i t : yok answers r y -> ar_Targets r !! i = Some t -> exists item, cs_items (y_state y) !! i = Some item /\ item_of answers r i t item.
Proof.
  intros Hok Ht. rewrite (yk_items _ _ _ Hok). destruct (decide (i ∈ (cl_index <$> y_taken y))) as [Hi|Hi].
  - apply list_elem_of_fmap in Hi as (call & -> & Hc). exists (itemFromCall r call). split.
    + apply rebuild_taken; [|done|by eapply lookup_lt_Some]. pose proof (yk_index _ _ _ Hok) as Hp.
      assert (Hnd : NoDup (y_running y ++ map cl_index (y_taken y ++ y_chan y))) by (rewrite Hp; apply NoDup_seq).
      apply NoDup_app in Hnd as (_ & _ & Hnd). rewrite map_app in Hnd. by apply NoDup_app in Hnd as (? & _).
    + unfold item_of, itemFromCall. cbn. rewrite Ht. split; [done|]. right. eexists. split_and!; [done..|]. apply (yk_calls _ _ _ Hok). apply elem_of_app. by left.
  - rewrite rebuild_fresh by done. exists (mkItem (tg_Key t) None OutcomePending). split; [|split; [done|by left]].
    unfold pendingItems. change (map ?f ?l) with (f <$> l). by rewrite list_lookup_fmap, Ht.
Qed.

Lemma winner_kept key items : key <> EmptyString -> winner key items = key.
Proof.
  intros H. induction items as [|x items IH]; [done|]. cbn. apply String.eqb_neq in H as ->. by rewrite andb_false_r.
Qed.

Lemma winner_first items : (forall x, x ∈ items -> im_TargetKey x <> EmptyString) ->
  winner EmptyString items = default EmptyString (im_TargetKey <$> List.find (is_outcome OutcomeSuccess) items).
Proof.
  induction items as [|x items IH]; intros H; [done|]. cbn. destruct (is_outcome OutcomeSuccess x); cbn.
  - apply winner_kept, H. by left.
  - apply IH. intros y Hy. apply H. by right.
Qed.

Lemma targets_loop_keys index seen caller scope l : targets_loop index seen caller scope l = Ok tt -> forall t, t ∈ l -> tg_Key t <> EmptyString.
Proof.
  revert index seen. induction l as [|x l IH]; intros index seen H t Ht; [by apply not_elem_of_nil in Ht|]. cbn in H.
  destruct (validateTargetKey _ _ _) eqn:E; [|done]. cbn in H. destruct (validateTargetPoll _ _ _ _); [|done]. cbn in H.
  apply elem_of_cons in Ht as [->|Ht]; [|by eapply IH]. unfold validateTargetKey in E. intros E0. rewrite E0 in E. done.
Qed.

Lemma waitAt_Ok r now y : waitAt r now = Ok y -> y = startWaitCalls r /\ (forall t, t ∈ ar_Targets r -> tg_Key t <> EmptyString).
Proof.
  unfold waitAt, ValidateAt_aggregate, validateTargets. intros H. go_ok. split; [done|]. intros t Ht. destruct (ar_Targets r) as [|f l] eqn:E; [by apply not_elem_of_nil in Ht|].
  match goal with H : targets_loop _ _ _ _ _ = Ok ?u |- _ => destruct u; by eapply targets_loop_keys end.
Qed.

Lemma result_verdict answers r y : yok answers r y -> let res := aggregate_result r (y_state y) in
  as_Items res = cs_items (y_state y) /\ as_Status res = verdict r (as_Items res) /\ as_SuccessCount res = success_count (as_Items res)
  /\ as_WinnerKey res = winner EmptyString (as_Items res) /\ (as_IsError res = true <-> as_Status res = StatusAggregateFailure).
Proof.
  intros Hok. unfold aggregate_result, finalize, verdict.
  assert (E1 : cs_conditionReached (y_state y) || conditionReachedByItems r (cs_items (y_state y)) = conditionReachedByItems r (cs_items (y_state y))).
  { pose proof (yk_reached _ _ _ Hok) as H. destruct (cs_conditionReached _); [by rewrite H|done]. }
  assert (E2 : cs_indeterminateReturn (y_state y) || hasOutcome (cs_items (y_state y)) OutcomeIndeterminate = hasOutcome (cs_items (y_state y)) OutcomeIndeterminate).
  { pose proof (yk_indeterminate _ _ _ Hok) as H. destruct (cs_indeterminateReturn _); [by rewrite H|done]. }
  rewrite E1, E2. destruct (conditionReachedByItems _ _) eqn:C1; [|destruct (hasOutcome _ _) eqn:C2; [|destruct (allDefinitiveFailure _) eqn:C3]]; cbn [as_Items as_Status as_SuccessCount as_WinnerKey as_IsError]; rewrite ?C1, ?C2, ?C3; split_and!; try done; by split.
Qed.

(** C30: an aggregate says what its waiters answered, whatever the order in which they answer,
    fail or exit and whenever the time is up.  When it ends without the error of its
    caller's context there is one item per target, in the order of the request, with the
    answer of that target's own waiter or none; the status is the one that the condition, the
    indeterminate items and the definitive failures among the items give; the winner is the
    first target of the request that succeeded; and it is an error exactly when every target has failed for good. *)
Theorem aggregate_exact (answers : nat -> result error WaitResult -> Prop) (r : AggregateRequest) (now : Time) (y0 y : sys) (res : AggregateResult) :
  waitAt r now = Ok y0 -> rtc (ystep answers r) y0 y -> y_phase y = Finished res None ->
  length (as_Items res) = length (ar_Targets r)
  /\ (forall i t, ar_Targets r !! i = Some t -> exists item, as_Items res !! i = Some item /\ item_of answers r i t item)
  /\ as_Status res = verdict r (as_Items res) /\ as_SuccessCount res = success_count (as_Items res)
  /\ as_WinnerKey res = default EmptyString (im_TargetKey <$> List.find (is_outcome OutcomeSuccess) (as_Items res))
  /\ (as_IsError res = true <-> as_Status res = StatusAggregateFailure).
Proof.
  intros [-> Hkeys]%waitAt_Ok Hr Hf. pose proof (reachable_yok _ _ _ Hr) as Hok. rewrite (yk_finished _ _ _ Hok _ Hf) in *.
  destruct (result_verdict _ _ _ Hok) as (E1 & E2 & E3 & E4 & E5). split; [|split; [|split; [done|split; [done|split; [|exact E5]]]]].
  - rewrite E1, (yk_items _ _ _ Hok). apply rebuild_length.
  - intros i t Ht. rewrite E1. by apply items_exact.
  - rewrite E4. apply winner_first. intros x Hx. rewrite E1 in Hx. apply list_elem_of_lookup in Hx as [i Hi].
    assert (Hlt : i < length (ar_Targets r)). { apply lookup_lt_Some in Hi. by rewrite (yk_items _ _ _ Hok), rebuild_length in Hi. }
    destruct (lookup_lt_is_Some_2 _ _ Hlt) as [t Ht]. destruct (items_exact _ _ _ _ _ Hok Ht) as (item & Hi' & Hk & _). rewrite Hi in Hi'. injection Hi' as ->. rewrite Hk. apply Hkeys. by eapply list_elem_of_lookup_2.
Qed.

(** ** That it ends *)

Definition phase_weight (p : phase) : nat := match p with Collecting => 2 | Emptying => 1 | Finished _ _ => 0 end.

Definition weight (y : sys) : nat := length (y_chan y) + 2 * length (y_running y) + phase_weight (y_phase y).

(** A step of the surroundings: the time is up, or the caller has gone. *)
Definition only_flags (y y' : sys) : Prop := y_state y' = y_state y /\ y_chan y' = y_chan y /\ y_running y' = y_running y /\ y_phase y' = y_phase y.

Definition unfinished (y : sys) : Prop := y_phase y = Collecting \/ y_phase y = Emptying.

Lemma filter_shorter (l : list nat) i : i ∈ l -> length (List.filter (fun j => negb (j =? i)%nat) l) < length l.
Proof.
  induction l as [|j l IH]; intros Hi; [by apply not_elem_of_nil in Hi|]. cbn. destruct (Nat.eqb_spec j i) as [->|Hne]; cbn.
  - pose proof (List.filter_length_le (fun j => negb (j =? i)%nat) l). lia.
  - apply elem_of_cons in Hi as [->|Hi]; [done|]. specialize (IH Hi). lia.
Qed.

Lemma publish_weight y i a : i ∈ y_running y -> weight (publish i a y) < weight y.
Proof. intros Hi. unfold weight, publish. cbn. rewrite length_app. pose proof (filter_shorter _ _ Hi). cbn. lia. Qed.

Lemma step_weight answers r y y' : ystep answers r y y' -> only_flags y y' \/ weight y' < weight y.
Proof.
  intros [i a Hi _|i Hi| |e|call rest Hp _ Hc|e Hp _ _|Hp _ _ _|Hp _ _|Hp _|call rest Hp Hc|Hp Hc]; [right; by apply publish_weight|right; by apply publish_weight|by left|by left|right..];
    unfold weight, with_phase, empty_call, take_call; cbn [y_chan y_running y_phase]; rewrite ?Hp; cbn [phase_weight]; try lia.
  - destruct (collect_call _ _ _ _) as [[st w] d]. cbn. rewrite Hc. cbn. lia.
  - rewrite Hc. cbn. lia.
Qed.

Lemma step_enabled answers r y : yok answers r y -> unfinished y -> y_running y = [] \/ (y_watching y = true /\ y_late y = true) \/ y_draining y = true ->
  exists y', ystep answers r y y' /\ weight y' < weight y /\ y_running y' = y_running y.
Proof.
  intros Hok Hu Hrun. assert (exists y', ystep answers r y y' /\ ~ only_flags y y' /\ y_running y' = y_running y) as (y' & Hs & Hf & Hr).
  2: { exists y'. destruct (step_weight _ _ _ _ Hs); [done|auto]. }
  destruct Hu as [Hp|Hp].
  - destruct (decide (cs_remaining (y_state y) = 0)) as [Hz|Hz].
    { eexists. split; [by apply Y_all|]. split; [|done]. intros (_ & _ & _ & H). cbn in H. congruence. }
    destruct Hrun as [Hrun|[[Hw Hl]|Hd]].
    + destruct (y_chan y) as [|call rest] eqn:Hc.
      * exfalso. pose proof (yk_remaining _ _ _ Hok Hp). pose proof (yk_index _ _ _ Hok) as Hix. apply Permutation_length in Hix. rewrite Hrun, Hc, app_nil_r, length_seq in Hix. cbn in Hix. rewrite length_map in Hix. lia.
      * eexists. split; [apply (Y_take _ _ _ call rest); [done|lia|done]|]. unfold take_call. destruct (collect_call _ _ _ _) as [[st w] d]. split; [|done].
        intros (_ & H & _). cbn in H. rewrite Hc in H. apply (f_equal length) in H. cbn in H. lia.
    + eexists. split; [apply Y_stop_work; [done|lia|done|done]|]. split; [|done]. intros (_ & _ & _ & H). cbn in H. congruence.
    + eexists. split; [apply Y_stop_drain; [done|lia|done]|]. split; [|done]. intros (_ & _ & _ & H). cbn in H. congruence.
  - destruct (y_chan y) as [|call rest] eqn:Hc.
    + eexists. split; [by apply Y_emptied|]. split; [|done]. intros (_ & _ & _ & H). cbn in H. congruence.
    + eexists. split; [by apply (Y_empty _ _ _ call rest)|]. split; [|done]. intros (_ & H & _). cbn in H. rewrite Hc in H. apply (f_equal length) in H. cbn in H. lia.
Qed.

(** C31: an aggregate ends.  Every step of its goroutines and of its collector, in whatever
    order, lowers a number; so only finitely many are made.  And before it is finished the collector always has
    a step to make, with no goroutine taking part, when every goroutine has published its call, also one whose
    waiter panicked, when the time is up and no verdict was reached, or while the timer of the drain runs. *)
Theorem aggregate_ends (answers : nat -> result error WaitResult -> Prop) (r : AggregateRequest) (y : sys) : rtc (ystep answers r) (startWaitCalls r) y ->
  (forall y', ystep answers r y y' -> only_flags y y' \/ weight y' < weight y)
  /\ (unfinished y -> y_running y = [] \/ (y_watching y = true /\ y_late y = true) \/ y_draining y = true -> exists y', ystep answers r y y' /\ weight y' < weight y /\ y_running y' = y_running y).
Proof. intros H%reachable_yok. split; [intros y'; apply step_weight|by apply step_enabled]. Qed.

(** ** With the access store *)

Section store.
Context `{EC : EventCodec} `{AC : AccessCodec}.

Definition poll_views (polls : list (Env * (nat -> list aop))) : list (Env * (nat -> adb)) := map (fun p => (p.1, fun i => db_after (p.2 i))) polls.

(** The polls that the waiter of each target makes, with the databases that their reads see. *)
Context (polls : nat -> list (Env * (nat -> list aop))).

(** What a goroutine gets: the answer of the store to its polls, or the end of its context. *)
Definition store_answers (r : AggregateRequest) (i : nat) (a : result error WaitResult) : Prop :=
  (exists t, ar_Targets r !! i = Some t /\ Wait (poll_views (polls i)) (tg_Poll t) = Some a)
  \/ (exists e, a = Err e /\ errors_Is e Canceled || errors_Is e DeadlineExceeded = true).

Lemma Wait_Ok ps r res : Wait ps r = Some (Ok res) -> exists x v, (x, v) ∈ ps /\ (PollWait x v r).1 = Ok res.
Proof.
  induction ps as [|[x v] ps IH]; [done|]. cbn. destruct (PollWait x v r).1 as [q|e] eqn:E; [|done]. destruct (String.eqb _ _).
  - intros H. destruct (IH H) as (x' & v' & Hin & Hp). exists x', v'. split; [by right|done].
  - intros [= <-]. exists x, v. split; [by left|done].
Qed.

(** The answer [res] of the [i]-th waiter carries the event [e]: one of its polls answered it, allowed
    by a grant for the caller of the target, and [e] is the first event that the handle waits for in
    the log which that poll read. *)
Record has_event (r : AggregateRequest) (i : nat) (t : Target) (res : WaitResult) (e : AgentEvent) : Prop := {
  he_event : wt_Event res = Some e;
  he_handle : wh_WaitHandleID (wt_Handle res) = po_WaitHandleID (tg_Poll t);
  he_poll : exists x ops g, (x, ops) ∈ polls i /\ (PollWait x (fun j => db_after (ops j)) (tg_Poll t)).1 = Ok res
    /\ poll_allowed (x_Now x 1) (db_after (ops 1)) (db_after (ops 2)) (db_after (ops 3)) (tg_Poll t) (wt_Handle res) g
    /\ first_wanted (wt_Handle res) (waiting_log (a_events (db_after (ops 9))) (wt_Handle res)) e;
  he_type : pd_RequiredEventType (ar_Predicate r) <> EmptyString -> event_type e = pd_RequiredEventType (ar_Predicate r);
  he_metadata : pd_RequireNonEmptyMetadata (ar_Predicate r) = true -> eventHasMetadata (Some e) = true;
}.

Context (polls_grow : forall i p, p ∈ polls i -> growing p.2).

Lemma success_has_event r i t a : ar_Targets r !! i = Some t -> store_answers r i a \/ a = Err waiter_failure -> classify (ar_Predicate r) a = OutcomeSuccess -> exists res e, a = Ok res /\ has_event r i t res e.
Proof.
  intros Ht Ha Hc. destruct a as [res|err].
  2: { exfalso. cbn in Hc. unfold classifyError in Hc. repeat case_match; done. }
  destruct Ha as [[(t' & Ht' & Hw)|(e & He & _)]|Ha]; [|done|done]. rewrite Ht in Ht'. injection Ht' as <-.
  apply Wait_Ok in Hw as (x & v & Hin & Hp). apply list_elem_of_fmap in Hin as ([x' ops] & [= -> ->] & Hin). pose proof (polls_grow _ _ Hin) as Hgr. cbn in Hgr, Hp.
  destruct (poll_answered ops x' (tg_Poll t) res Hgr Hp) as (Hid & (g & Hal) & Hans).
  cbn in Hc. unfold classifyResult in Hc. destruct (String.eqb_spec (wt_Status res) "pending"); [done|]. destruct (String.eqb_spec (wt_Status res) "satisfied") as [Hs|]; [|by destruct (str_in _ _)].
  destruct (wt_IsError res); [done|]. destruct (predicateMatches _ _) eqn:Hm; [|done].
  destruct Hans as [Hst _ _|e Hst He Hn Hf Hmb|[Hst|Hst] _]; [congruence| |congruence|congruence].
  exists res, e. split; [done|]. unfold predicateMatches in Hm. rewrite Hs, He in Hm. change (negb (String.eqb "satisfied" "satisfied")) with false in Hm. cbv iota in Hm. destruct (_ && _) eqn:M1 in Hm; [done|]. destruct (_ && _) eqn:M2 in Hm; [done|]. split.
  - done.
  - done.
  - exists x', ops, g. done.
  - intros Hne. apply String.eqb_neq in Hne. rewrite Hne in M1. cbn [negb andb] in M1. by apply negb_false_iff, String.eqb_eq in M1.
  - intros Hmd. rewrite Hmd in M2. by apply negb_false_iff in M2.
Qed.

(** How many targets a condition asks for. *)
Definition needed (r : AggregateRequest) : nat :=
  if String.eqb (ar_Condition r) ConditionAll then length (ar_Targets r) else if String.eqb (ar_Condition r) ConditionQuorum then Z.to_nat (ar_QuorumCount r) else 1.

Lemma reached_needed r items : length items = length (ar_Targets r) -> conditionReachedByItems r items = true -> needed r <= success_count items.
Proof.
  intros Hl. unfold conditionReachedByItems, needed. destruct (str_in _ _) eqn:E.
  - apply str_in_elem in E. intros H. go_bool. assert (ar_Condition r = ConditionAny \/ ar_Condition r = ConditionFirstSuccess) as [->| ->] by set_solver; cbn; lia.
  - destruct (String.eqb _ ConditionAll); [intros H; go_bool; lia|]. destruct (String.eqb _ _); [|done]. intros H. go_bool. lia.
Qed.

(** The targets that succeeded. *)
Definition winners (items : list Item) : list nat := List.filter (fun i => match items !! i with Some item => is_outcome OutcomeSuccess item | None => false end) (seq 0 (length items)).

Lemma winners_NoDup items : NoDup (winners items).
Proof.
  unfold winners. generalize (fun i => match items !! i with Some item => is_outcome OutcomeSuccess item | None => false end) as p. intros p. pose proof (NoDup_seq 0 (length items)) as H.
  apply NoDup_ListNoDup. apply NoDup_ListNoDup in H. by apply List.NoDup_filter.
Qed.

Lemma winners_elem items i : i ∈ winners items -> exists item, items !! i = Some item /\ im_Outcome item = OutcomeSuccess.
Proof.
  unfold winners. intros [_ H]%list_elem_of_In%filter_In. destruct (items !! i) as [item|]; [|done]. exists item. split; [done|]. by apply bool_decide_eq_true in H.
Qed.

Lemma winners_length items : length (winners items) = success_count items.
Proof.
  unfold winners, success_count. induction items as [|x items IH] using rev_ind; [done|]. rewrite length_app, List.filter_app, length_app. cbn [length]. rewrite seq_app, List.filter_app, length_app. f_equal.
  - rewrite <- IH. f_equal. apply filter_ext_in. intros i Hi%in_seq. by rewrite lookup_app_l by lia.
  - cbn. rewrite lookup_app_r by lia. rewrite Nat.sub_diag. cbn. by destruct (is_outcome _ x).
Qed.

(** C29: an aggregate over the access store that says [satisfied] has as many successful targets as
    its condition asks for.  The item of each of them carries the answer of that target's own
    waiter, with an event of the type and with the metadata that the predicate requires: one of the polls which the
    waiter made answered it, under an active grant for the caller of the request while both of its agents
    were bound, and the event is the first in the log read by that poll that the handle waits for.
    Each poll reads databases that only grow through operations of the stores. *)
Theorem satisfied_is_real (r : AggregateRequest) (now : Time) (y0 y : sys) (res : AggregateResult) :
  waitAt r now = Ok y0 -> rtc (ystep (store_answers r) r) y0 y -> y_phase y = Finished res None -> as_Status res = StatusSatisfied ->
  exists won, NoDup won /\ needed r <= length won
    /\ forall i, i ∈ won -> exists t item answer e, ar_Targets r !! i = Some t /\ as_Items res !! i = Some item
         /\ im_Answer item = Some (Ok answer) /\ has_event r i t answer e.
Proof.
  intros [-> _]%waitAt_Ok Hr Hf Hs. pose proof (reachable_yok _ _ _ Hr) as Hok. rewrite (yk_finished _ _ _ Hok _ Hf) in *.
  destruct (result_verdict _ _ _ Hok) as (E1 & E2 & _). rewrite E2, E1 in Hs. rewrite E1. set (items := cs_items (y_state y)) in *.
  assert (Hlen : length items = length (ar_Targets r)) by (unfold items; rewrite (yk_items _ _ _ Hok); apply rebuild_length).
  assert (Hc : conditionReachedByItems r items = true). { unfold verdict in Hs. destruct (conditionReachedByItems r items); [done|]. by repeat case_match. }
  exists (winners items). split_and!; [apply winners_NoDup|rewrite winners_length; by apply reached_needed|]. intros i Hi. apply winners_elem in Hi as (item & Hi & Ho).
  assert (Hlt : i < length (ar_Targets r)) by (rewrite <- Hlen; by eapply lookup_lt_Some). destruct (lookup_lt_is_Some_2 _ _ Hlt) as [t Ht].
  destruct (items_exact _ _ _ _ _ Hok Ht) as (item' & Hi' & _ & Ha). fold items in Hi'. rewrite Hi in Hi'. injection Hi' as <-.
  destruct Ha as [[_ Ha]|(a & Ha' & Hcl & Ha)]; [congruence|]. rewrite Ho in Hcl. symmetry in Hcl. destruct (success_has_event r i t a Ht Ha Hcl) as (answer & e & -> & He).
  exists t, item, answer, e. done.
Qed.
End store.
