(* ===== verification/AccessSamples.v ===== *)
(** * Runs of the access store

    Concrete histories on which the theorems about grants and waits apply, and what some
    of them show about the code. *)

From S2P Require Import Prelude GoStrings WakeupLease GoTime RetryPolicy EventContract IdentityStore IdentityOps IdentitySteps IdentityInvariant IdentityHistory EventStore EventLog EventAppend EventHistory EventRead EventFence IdentityFence EventDelivery EventSamples IdentitySamples AccessContract AccessStore AccessGrants AccessWaits AccessRules AccessSteps AccessInvariant AccessSafety WaitAggregate AccessProgress AccessExpiry.

#[local] Instance sample_codec : EventCodec := {| CanonicalEnvelopeHash := fun e => copies 64 (last_char (ev_EventID e)); frame_bytes := fun _ => 1000%Z |}.
#[local] Instance sample_selectors : AccessCodec := {| selector_sha256 := fun s => copies 64 (last_char (es_TargetAgentID s)) |}.

(** ** Two agents *)

(** The agent [b] watches the agent [a] of the identity samples. *)
Definition watcher_ops : list iop :=
  [IReserve no_intents (mkReservationRequest "r9" "" "b" "a2a_remote_agent" "a2a_observation" "p" "s" "" "k9" digest_a digest_a "fence" "target" 0 1);
   ICreateIncarnation (mkIncarnationRequest "inc9" "r9" "b" "a2a_remote_agent" "inc9" "ext" "fence" digest_a 1);
   IPrepare (mkPreparationRequest "p9" "r9" "inc9" "b" "a2a_remote_agent" "fence" "" digest_a 1 0 1);
   IFinalize (mkFinalize "p9" "b" 1 0 "inc9" "inc9" "a2a_remote_agent" "fence" "receipt" digest_a)].

Definition agents : list aop := map AIdentity (bound_ops ++ watcher_ops).

Definition fence_a : FenceSnapshot := mkFence "a" "r1" 1 "inc1" 4 1 digest_a "fence".
Definition fence_b : FenceSnapshot := mkFence "b" "r9" 1 "inc9" 1 1 digest_a "fence".

(** 2023-11-14T22:13:20Z, a whole second, and times after it in milliseconds. *)
Definition at_ms (ms : Z) : Z := (1700000000000 + ms)%Z.
Definition utc (ms : Z) : Time := mkTime (at_ms ms) true.

Definition clock (ms : Z) : Env := mkEnv None (fun i => at_ms (ms + Z.of_nat i)) (at_ms ms).

Definition sample_grant (id key : string) (issued expires : Z) : AccessGrantRequest :=
  mkGrantRequest id "caller" "scope" fence_b fence_a true false "ns" (copies 64 (last_char key)) digest_a (utc issued) (utc expires).

Definition sample_selector : EventSelector := mkSelector 1 "task/a" "inc1" "output" "a" ["task.output"].

Definition sample_wait (id key : string) (deadline : Z) : WaitRequest :=
  mkWaitRequest id "g1" 1 "caller" "scope" sample_selector 0 "" (utc deadline) "ns" (copies 64 (last_char key)) digest_a.

Definition sample_poll : PollRequest := mkPoll "w1" "caller" "scope" 1.

Definition granted : list aop := agents ++ [ACreateGrant (clock 0) (sample_grant "g1" "1" (-1000) 600000)].

(** One event makes the stream known; the wait is for the events after it. *)
Definition other_frame : IngressFrame :=
  mkFrame "task/a" "inc1" "output" 1 (copies 64 (last_char "e1")) (canonicalCursor "task/a" "inc1" "output" 1)
    (mkEnvelope "e1" "task.started" 1 "a" "a" "r1" (Some "inc1") "ext" 4 digest_a 1 digest_a "fence" "test" "trusted" "none" "" 0 "" None "now" "w").
Definition wanted_frame : IngressFrame :=
  mkFrame "task/a" "inc1" "output" 2 (copies 64 (last_char "e2")) (canonicalCursor "task/a" "inc1" "output" 2)
    (mkEnvelope "e2" "task.output" 1 "a" "a" "r1" (Some "inc1") "ext" 4 digest_a 1 digest_a "fence" "test" "trusted" "none" "" 0 "" None "now" "w").

Definition append (f : IngressFrame) : aop := AEvent calm_env 0 (OpAppend open_fence f).

Definition waiting : list aop := granted ++ [append other_frame; ACreateWait (clock 10) (Ok "w0") (sample_wait "w1" "1" 5000)].

Definition ended_ops : list aop := waiting ++ [append wanted_frame].

Lemma growing_const ops : growing (fun _ => ops).
Proof. intros i. reflexivity. Qed.

(** ** Polls *)

(** The event arrives between the reads of the poll and its transaction. *)
Definition arriving (i : nat) : list aop := if (i <? 4)%nat then waiting else ended_ops.

Lemma arriving_growing : growing arriving.
Proof. intros i. unfold arriving. destruct (Nat.ltb_spec i 4), (Nat.ltb_spec (S i) 4); try reflexivity; [by eexists|lia]. Qed.

Lemma poll_answer_witness :
  match (PollWait (clock 20) (fun i => db_after (arriving i)) sample_poll).1 with
  | Ok res => wt_Status res = "satisfied" /\ poll_says (at_ms 22) (db_after ended_ops) (db_after ended_ops) res
  | Err _ => False
  end.
Proof.
  pose proof (poll_answer arriving (clock 20) sample_poll) as H. destruct (PollWait (clock 20) (fun i => db_after (arriving i)) sample_poll).1 as [res|e] eqn:E; [|vm_compute in E; discriminate E].
  split; [clear H; vm_compute in E; injection E as <-; reflexivity|]. exact (proj2 (proj2 (H res arriving_growing E))).
Defined.

(** ** Reads *)

Definition sample_access : AccessRequest := mkAccess "q1" "g1" "caller" "scope" "read" fence_b fence_a digest_a (utc 0).

Lemma read_is_exact_witness :
  [mkEvent wanted_frame "materialized"] = List.filter (selected sample_selector) (take 10 (drop 0 (log (a_events (db_after ended_ops)) (selector_stream sample_selector)))).
Proof.
  refine (proj1 (proj2 (proj2 (proj2 (read_is_exact ended_ops (clock 30) sample_access sample_selector 0 10 [mkEvent wanted_frame "materialized"] _))))). vm_compute. reflexivity.
Defined.

(** ** Revocation and release *)

Definition revoked_ops : list aop := waiting ++ [ARevokeGrant (clock 30) (mkRevokeGrant "g1" 1 "caller" "scope" "reason" digest_a (utc 0))].
Definition revoked_row : OrchestrationAccessGrant := mkGrantRow (sample_grant "g1" "1" (-1000) 600000) 2 "revoked" (at_ms 0) (at_ms 30).

Lemma closed_grant_is_dead_witness :
  map wr_Status (a_waits (db_after revoked_ops)) = ["revoked"] /\ refused (AuthorizeTx (clock 40) sample_access (db_after (revoked_ops ++ [append wanted_frame]))).
Proof.
  split; [vm_compute; reflexivity|]. refine (sh_authorize_tx _ _ (proj1 (closed_grant_is_dead revoked_ops revoked_row _ _)) [append wanted_frame] (clock 40) sample_access eq_refl).
  - assert (a_grants (db_after revoked_ops) = [revoked_row]) as -> by (vm_compute; reflexivity). by apply list_elem_of_singleton.
  - discriminate.
Defined.

Definition cut_ops : list aop := waiting ++ [AIdentity (IRevoke (sample_revoke "inc1" 1))].
Definition active_row : OrchestrationAccessGrant := mkGrantRow (sample_grant "g1" "1" (-1000) 600000) 1 "active" (at_ms 0) (at_ms 0).

(** The agent comes back with another incarnation; the grant is still active in its row. *)
Lemma released_agent_is_cut_off_witness :
  map gr_Status (a_grants (db_after (cut_ops ++ map AIdentity rebound_ops))) = ["active"]
  /\ refused (ReadAuthorizedEvents (clock 40) sample_access sample_selector 0 10 (db_after (cut_ops ++ map AIdentity rebound_ops))).
Proof.
  split; [vm_compute; reflexivity|].
  refine (sh_read _ _ (proj1 (released_agent_is_cut_off cut_ops "a" 2 4 "inc1" _ _) active_row _ _) (map AIdentity rebound_ops) (clock 40) sample_access sample_selector 0 10 eq_refl).
  - vm_compute. reflexivity.
  - vm_compute. reflexivity.
  - assert (a_grants (db_after cut_ops) = [active_row]) as -> by (vm_compute; reflexivity). by apply list_elem_of_singleton.
  - right. reflexivity.
Defined.

(** ** Waits that end *)

Definition waiting_row : OrchestrationEventWaitHandle := pending_row (sample_wait "w1" "1" 5000) "b" fence_a (copies 64 (last_char "a")) (at_ms 10).

Definition two_polls : list (Env * (nat -> list aop)) := [(clock 5500, fun _ => waiting); (clock 6100, fun _ => waiting)].

Lemma wait_returns_witness : exists a, Wait (map (fun p => (p.1, fun i => db_after (p.2 i))) two_polls) sample_poll = Some a /\ forall res, a = Ok res -> wt_Status res <> "pending".
Proof.
  refine (wait_returns two_polls sample_poll (clock 6100) (fun _ => waiting) waiting_row _ (growing_const _) _ eq_refl _ _ _).
  - unfold two_polls. right. by apply list_elem_of_singleton.
  - assert (a_waits (db_after waiting) = [waiting_row]) as -> by (vm_compute; reflexivity). by apply list_elem_of_singleton.
  - vm_compute. discriminate.
  - vm_compute. discriminate.
  - vm_compute. split; [discriminate|reflexivity].
Defined.

(** The first of the two polls comes half a second after the deadline and finds the wait
    pending still: the statement compares the texts of the times, and the one of a whole
    second has no fraction.  The loop does not sleep before it polls again. *)
Example deadline_of_a_whole_second :
  (wt_Status <$> (PollWait (clock 5500) (fun _ => db_after waiting) sample_poll).1) = Ok "pending"
  /\ (wt_Status <$> (PollWait (clock 6100) (fun _ => db_after waiting) sample_poll).1) = Ok "timed_out"
  /\ utcText (at_ms 5000) = "2023-11-14T22:13:25Z" /\ utcText (at_ms 5500) = "2023-11-14T22:13:25.5Z" /\ String.leb (utcText (at_ms 5000)) (utcText (at_ms 5500)) = false
  /\ sleep (at_ms 5500) (at_ms 5000) = 0%Z.
Proof. vm_compute. split_and!; reflexivity. Qed.

(** ** Expiry *)

Definition expiring : list aop := agents ++ [ACreateGrant (clock 0) (sample_grant "g1" "1" (-1000) 200); ACreateGrant (clock 0) (sample_grant "g2" "2" (-1000) 100)].

Definition one_by_one : GrantExpiryRunnerConfig := mkRunnerConfig 30000 1.

Lemma expiry_drains_witness : exists l, l ≡ₚ due (at_ms 1000) (db_after expiring)
  /\ Run one_by_one (replicate 2 (utc 1000)) (db_after expiring) = (None, expire_all l (db_after expiring)) /\ due (at_ms 1000) (expire_all l (db_after expiring)) = [].
Proof.
  assert (due (at_ms 1000) (db_after expiring) = [mkGrantRow (sample_grant "g1" "1" (-1000) 200) 1 "active" (at_ms 0) (at_ms 0); mkGrantRow (sample_grant "g2" "2" (-1000) 100) 1 "active" (at_ms 0) (at_ms 0)]) as Hd
    by (vm_compute; reflexivity).
  refine (expiry_drains expiring one_by_one (at_ms 1000) 2 eq_refl eq_refl _ _).
  - rewrite Hd. intros g [->| ->%list_elem_of_singleton]%elem_of_cons; split; vm_compute; (reflexivity || discriminate).
  - rewrite Hd. vm_compute. lia.
Defined.

(** A grant may be made that has expired already, for its window is not compared with the
    clock.  Its row cannot become expired, for it would have been updated before it was made: the
    pass stops there with an error, and no grant behind it is expired, in this pass or a later one. *)
Definition poisoned : list aop := agents ++ [ACreateGrant (clock 0) (sample_grant "g0" "0" (-5000) (-1000)); ACreateGrant (clock 0) (sample_grant "g1" "1" (-1000) 200)].

Example expired_grant_blocks_the_passes :
  let '(n, e, s) := RunOnce (mkRunnerConfig 30000 64) (utc 1000) (db_after poisoned) in
  map gr_GrantID (due (at_ms 1000) (db_after poisoned)) = ["g0"; "g1"] /\ n = 0%Z /\ (err_is <$> e) = Some [ErrInvalidAccess] /\ map gr_Status (a_grants s) = ["active"; "active"].
Proof. vm_compute. split_and!; reflexivity. Qed.

(** ** Requests that are valid and refused *)

(** The window of a grant within one second: the check of the table compares texts. *)
Example window_within_a_second :
  let r := sample_grant "g1" "1" 0 500 in
  GrantRequest_Validate r = Ok tt /\ (match CreateGrantTx (clock 0) r (db_after agents) with Err e => Some (err_is e) | Ok _ => None end) = Some [ErrAccessDenied].
Proof. vm_compute. split; reflexivity. Qed.

(** The event types of a selector may be longer than the column that keeps them. *)
Definition long_type (n : N) : string := copies 127 (ascii_of_N 97) +:+ String (ascii_of_N n) EmptyString.

Definition long_selector : EventSelector := mkSelector 1 "task/a" "inc1" "output" "a" (map (fun n => long_type (N.of_nat (65 + n))) (seq 0 32)).

Example long_selectors_do_not_fit : Selector_Validate long_selector = Ok tt /\ event_types_chars (es_EventTypes long_selector) = 4194.
Proof. vm_compute. split; reflexivity. Qed.

(** ** The caller of a wait *)

Definition stranger : Env := mkEnv (Some (mkPrincipal "other" "scope" "agent" "auth" (utc 900000))) (fun i => at_ms (10 + Z.of_nat i)) (at_ms 10).

(** An authenticated caller may not use the name of another for an authorization, but it may for a wait. *)
Example wait_of_a_stranger :
  is_ok (AuthorizeTx stranger sample_access (db_after granted)) = false
  /\ is_ok (CreateWait stranger (Ok "w0") (sample_wait "w2" "2" 5000) (db_after (granted ++ [append other_frame]))) = true.
Proof. vm_compute. split; reflexivity. Qed.

(** ** Several targets *)

Definition first_target : Target := mkTarget "t1" sample_poll.
Definition second_target : Target := mkTarget "t2" (mkPoll "w2" "caller" "scope" 1).
Definition third_target : Target := mkTarget "t3" (mkPoll "w3" "caller" "scope" 1).

Definition sample_aggregate (targets : list Target) : AggregateRequest := mkAggregate targets ConditionFirstSuccess 0 (mkPredicate "task.output" false) (utc 5000) false.

Definition sample_answer : result error WaitResult := Eval vm_compute in (PollWait (clock 20) (fun i => db_after (arriving i)) sample_poll).1.

Definition gone : result error WaitResult := Err (Errorf [Canceled] (Sprintf Canceled [])).

(** The waiter of the second target panics, and the one of the first answers after that. *)
Definition pair : AggregateRequest := sample_aggregate [first_target; second_target].
Definition failing : sys := publish 0 sample_answer (publish 1 (Err waiter_failure) (startWaitCalls pair)).
Definition collected : sys := take_call pair (mkCall 0 sample_answer) [] (take_call pair (mkCall 1 (Err waiter_failure)) [mkCall 0 sample_answer] failing).
Definition verdict_of (r : AggregateRequest) (y : sys) : sys := with_phase (Finished (aggregate_result r (y_state y)) None) y.

Definition pair_polls (i : nat) : list (Env * (nat -> list aop)) := if (i =? 0)%nat then [(clock 20, arriving)] else [].

Lemma pair_polls_grow i p : p ∈ pair_polls i -> growing p.2.
Proof. unfold pair_polls. destruct (i =? 0)%nat; [|by intros ?%not_elem_of_nil]. intros ->%list_elem_of_singleton. apply arriving_growing. Qed.

Lemma sample_answers : store_answers pair_polls pair 0 sample_answer.
Proof. left. exists first_target. split; [done|]. vm_compute. reflexivity. Qed.

Lemma failing_reached : rtc (ystep (store_answers pair_polls pair) pair) (startWaitCalls pair) failing.
Proof.
  eapply rtc_l; [by apply (Y_exit _ _ _ 1), list_elem_of_further, list_elem_of_here|]. eapply rtc_l; [|reflexivity]. apply Y_publish; [by left|apply sample_answers].
Qed.

Lemma collected_reached : rtc (ystep (store_answers pair_polls pair) pair) (startWaitCalls pair) (verdict_of pair collected).
Proof.
  etransitivity; [apply failing_reached|]. eapply rtc_l; [apply Y_take; [done|cbn; lia|reflexivity]|]. eapply rtc_l; [apply Y_take; [done|vm_compute; lia|reflexivity]|].
  eapply rtc_l; [apply Y_all; vm_compute; reflexivity|]. reflexivity.
Qed.

Lemma aggregate_exact_witness : let res := aggregate_result pair (y_state collected) in
  map im_Outcome (as_Items res) = [OutcomeSuccess; OutcomeIndeterminate] /\ as_Status res = verdict pair (as_Items res).
Proof.
  split; [vm_compute; reflexivity|]. refine (proj1 (proj2 (proj2 (aggregate_exact (store_answers pair_polls pair) pair (utc 0) (startWaitCalls pair) (verdict_of pair collected) _ _ collected_reached eq_refl)))).
  vm_compute. reflexivity.
Defined.

Lemma satisfied_is_real_witness : exists won, NoDup won /\ 1 <= length won
  /\ forall i, i ∈ won -> exists t item answer e, ar_Targets pair !! i = Some t /\ as_Items (aggregate_result pair (y_state collected)) !! i = Some item
       /\ im_Answer item = Some (Ok answer) /\ has_event pair_polls pair i t answer e.
Proof.
  refine (satisfied_is_real pair_polls pair_polls_grow pair (utc 0) (startWaitCalls pair) (verdict_of pair collected) (aggregate_result pair (y_state collected)) _ collected_reached eq_refl _); vm_compute; reflexivity.
Defined.

Lemma aggregate_ends_witness : exists y, ystep (store_answers pair_polls pair) pair failing y /\ weight y < weight failing /\ y_running y = [].
Proof. refine (proj2 (aggregate_ends (store_answers pair_polls pair) pair failing failing_reached) _ _); [by left|by left]. Defined.

(** The first of three targets succeeds: the others are cancelled and the collector gives them
    the ten milliseconds of the drain.  One of them ends within them.  Its call takes the timer
    away, and the collector does not look at the deadline any more: while the third waiter does not
    return, nothing but the end of the caller's context makes it end. *)
Definition trio : AggregateRequest := sample_aggregate [first_target; second_target; third_target].
Definition drained : sys := take_call trio (mkCall 0 sample_answer) [] (publish 0 sample_answer (startWaitCalls trio)).
Definition stuck : sys := take_call trio (mkCall 1 gone) [] (publish 1 gone drained).

Definition waits_alone (y : sys) : Prop := y_phase y = Collecting /\ y_chan y = [] /\ y_running y = [2] /\ y_watching y = false /\ y_draining y = false /\ 0 < cs_remaining (y_state y) /\ y_parent y = None.

Lemma stuck_waits_alone : waits_alone stuck.
Proof. vm_compute. split_and!; (reflexivity || lia). Qed.

(** The time may be up: the only step that is not of the surroundings is the one of the third goroutine. *)
Example sibling_stops_the_drain answers y : y_draining drained = true /\ cs_conditionReached (y_state stuck) = true /\ waits_alone stuck
  /\ (waits_alone y -> y_late y = true -> forall y', ystep answers trio y y' -> only_flags y y' \/ exists a, y' = publish 2 a y).
Proof.
  split; [vm_compute; reflexivity|]. split; [vm_compute; reflexivity|]. split; [apply stuck_waits_alone|]. intros (Hp & Hc & Hr & Hw & Hd & Hn & He) Hl y'.
  intros [i a Hi _|i Hi| |e|call rest _ _ H|e _ _ H|_ _ H _|_ _ H|_ H|call rest H _|H _]; [| |by left|by left|congruence|congruence|congruence|congruence|lia|congruence|congruence];
    rewrite Hr in Hi; apply list_elem_of_singleton in Hi as ->; right; by eexists.
Qed.
